(* ===== verification/_CoqProject ===== *)
-Q . S2P
Prelude.v
Pow2.v
CMem.v
CString.v
Timer.v
Kernel.v
KernelInv.v
KernelOps.v
KernelLife.v
KernelSafe.v
KernelSched.v
Mutex.v
KernelWait.v
Sync.v
Fdisk.v
Crypt.v
Ipl.v
Psar.v
PsarWf.v
PsarTable.v
PsarProps.v
Qsort.v
Installer.v
InstallerInv.v
InstallerRun.v
InstallerProps.v
Miniheap.v
MiniheapInv.v
MiniheapTrim.v
HeapSpec.v
Novm.v
NovmInv.v
HeapInit.v
HeapProps.v
Printf.v
PrintfNum.v
PrintfSpec.v
PrintfProps.v
Number.v
NumberProps.v
Gfx.v
GfxProps.v
TextRaster.v
TextProps.v
Stdio.v
StdioProps.v
DisplayRuns.v
LkList.v
LkListProps.v
Port.v
PortInv.v
PortLinks.v
PortOps.v
PortClose.v
PortOpen.v
PortProps.v
PortRuns.v
Cbuf.v
CbufInv.v
CbufProps.v
Bio.v
BioInv.v
BioIo.v
BioBytes.v
BioRef.v
BioProps.v
BioRuns.v
Bcache.v
BcacheInv.v
BcacheOps.v
BcacheProps.v
BcacheRuns.v
FsPath.v
Vfs.v
VfsInv.v
VfsOps.v
VfsProps.v
VfsRuns.v
