(* ===== verification/Prelude.v ===== *)
(** * aiseirigh: a verified model of the PSP firmware installer and of the
    kernel and libraries it runs on

    The program is an installer for the PSP (src/app/aiseirigh) on a fork of the
    Little Kernel (src/kernel, src/lib, src/external/lib).  The installer reads
    Sony's updater from a memory card, checks its digest, takes the firmware files
    out of the archive in it, partitions and formats the flash, writes the files,
    and signs and writes the boot loader for the console it runs on.  Keys drive
    it: a thread polls the gamepad, another turns presses into events, the main
    thread runs a state machine.

    ** Parts

    The kernel.  [Timer] is kernel/timer.c; [Kernel] is kernel/thread.c (run
    queue, threads, wait queues) on it.  Threads, timers and queues are objects in
    maps, named by identifiers that stand for their addresses; the queues are
    lists.  [KernelInv], [KernelOps] and [KernelLife] prove for every operation that
    it returns and keeps the kernel well formed; [KernelSafe] closes this under
    every interleaving of operations and timer interrupts from boot;
    [KernelSched] has the scheduling policy.

    Synchronisation.  [Mutex] states what a wait queue promises (the record
    [waitq] and its steps) and proves kernel/mutex.c against the promise; [Sync] does
    so for kernel/semaphore.c, kernel/event.c, external/lib/evflag and
    external/lib/gamepad.  [KernelWait] proves that the queues of thread.c keep the
    promise, so the theorems hold of the kernel's queues.

    Memory.  [Novm] is the page allocator (kernel/novm/novm.c) with the wrappers of
    lib/heap/page_alloc.c, [Miniheap] the heap (lib/heap/miniheap) with the calls of
    lib/heap/heap_wrapper.c.  The heap sees the page allocator through the classes
    [Pages] and [PagesLaws]; [NovmInv] discharges the laws.  [MiniheapInv] and
    [MiniheapTrim] prove the heap's operations, [HeapSpec] has the abstract heap (a
    map of live blocks) it refines, [HeapInit] the start of both, [HeapProps] the
    theorems.

    The C library.  [CMem] and [CString] are lib/libc/string, lib/libc/atoi.c and
    what they use of ctype.c; [Qsort] is lib/libc/qsort.c.  [Printf] is printf.c;
    [PrintfNum] relates its loops to the digits of a number, [PrintfSpec] says what
    a format string means, [PrintfProps] has the theorems.  [Number] is strtol.c,
    strtoll.c, bsearch.c and rand.c, with theorems in [NumberProps].

    The display and output.  [Gfx] is lib/gfx; [GfxProps] shows what its loops do to
    the pixels.  [TextRaster] is lib/font with its table, screen.c and textraster.c;
    [TextProps] proves that a screen is a terminal.  [Stdio] is stdio.c with
    lib/io/console.c, and the callback main.c puts there; [StdioProps] follows the
    output to the screens; [DisplayRuns] runs the theorems on a small surface.

    Linked lists.  [LkList] is top/include/lk/list.h, its nodes in a memory and its
    pointers addresses; [LkListProps] proves that every operation on it is the
    operation on a plain list.  This is why the queues of the other files are lists.

    Ports.  [Port] is kernel/port.c on the wait queues of [Kernel]; what port_create
    and port_group_add do in front of their lock is a step of its own.  [PortInv] has
    the invariant: ring buffers, links between write ports, read ports and groups, who
    waits where.  [PortLinks] shows what a change of one object does to the links,
    [PortOps], [PortClose] and [PortOpen] that each call keeps the invariant,
    [PortProps] closes this under all interleavings of allowed steps, and [PortRuns]
    runs the ports on samples, the race of two port_group_add among them.

    Circular buffers.  [Cbuf] is lib/cbuf on the events of [Sync], [Pow2] the sizes
    that are powers of two (top/include/lk/pow2.h).  [CbufInv] has the bytes in a
    buffer and the loops over them, [CbufProps] the abstract queue it refines.

    Block devices.  [Bio] is lib/bio: bio.c with its deblocking, subdev.c and mem.c,
    over a class [Driver] of the disks.  [BioInv] has the laws of a driver and what a
    device shows ([window]: a device is a range of bytes of one disk or memory),
    [BioIo] and [BioBytes] the transfers of blocks and of bytes, [BioRef] references,
    opening and closing, [BioProps] the theorems and [BioRuns] samples.

    The block cache.  [Bcache] is lib/bcache, its two lists on the nodes of [LkList] in
    memory, over a class [Blockdev] of what it calls of a device.  [BcacheInv] has the
    blocks, buffers and lists of a cache and what clients see of it, [BcacheOps] and
    [BcacheProps] that its calls are transparent; [BcacheRuns] discharges the class with
    the definitions of [Bio] and runs samples.

    Files.  [FsPath] is fs_normalize_path and trim_name of lib/fs/fs.c, with what they
    do to a path; [Vfs] is the rest of fs.c, mounts and handles, over a class
    [FileSystems] of the file systems and of lib/bio.  [VfsInv] has the table of mounts
    and handles it keeps, [VfsOps] each operation, [VfsProps] the theorems, [VfsRuns]
    samples.

    The installer's parts.  [Fdisk] is external/lib/fdisk; [Crypt] is crypt.c, prx*.c
    and personalisation.c; [Ipl] is ipl.c; [Psar] is psar.c with [PsarWf] and [PsarTable]
    (lemmas) and [PsarProps] (theorems and a small archive).

    The installer.  [Installer] has every handler of states/*.c and the machine of
    statemachine.c, composed from the definitions of the parts above.  A ghost log
    records the calls that change the console and, behind them, what they answered.
    [InstallerInv] is what one handler can do, [InstallerRun] the two threads and
    every interleaving of their steps, [InstallerProps] the theorems and a console
    to run it on.

    ** How the model reads

    A C function is a Rocq function of the same name; what is not one function (a
    loop, the rest of a call behind a context switch) has a name of its own and is
    used where the code has it.  Effects are in the monad [M] below: a state and an
    [outcome], where an early return with an error code, a failed assertion, an
    access outside an object and a loop that does not end are values.  DEBUG_ASSERT
    is on (LK_DEBUGLEVEL is 2 in this build), so a failed one is a panic.  Integers are [Z] with
    their wrap-around written out ([u8], [u16], [u32], [s32]).  The target is the
    allegrex: 32 bits, little endian, one cpu (SMP_MAX_CPUS is 1, so a critical
    section is one step), [char] signed, FF_FS_EXFAT 0, NOVM_MAX_ARENAS 1 (the
    model takes any number of arenas).

    ** What is proved

    Safety: no kernel operation fails an assertion, follows a dangling pointer or
    runs on, under any interleaving; the same for the heap behind its boot under
    any allowed calls, for reading archive files but for one named case, and for ports,
    block devices and the file system layer under the calls that [PortProps.allowed],
    [BioProps.allowed] and [VfsProps] name.  An assertion of the installer fails only
    when memory runs out or the archive has no table for the console.  The installer
    touches the flash only behind a key press, a matching digest and an opened archive,
    and takes each step only when those before it answered that they went well.
    Refinement: wait queues, the heap, and the concurrent installer implement abstract
    ones, the linked lists plain lists, a circular buffer a bounded queue, a block
    device a range of bytes, the block cache the contents of its device, the file
    system layer a table of mounts and handles, and the text on the screens a terminal.
    What a client has to keep to is a definition ([allowed], [q_calls], [piece_ok]) and
    is said with each theorem.  Equivalence: the word-wise memmove (its signed comparison
    of addresses included) and memset, and the in-place prx_decrypt, equal declarative
    definitions.  Round trips: the partition tables fdisk writes are read back; the
    boot loader write_ipl writes is found again from its index; the table of the
    archive; personalise; allocating and freeing; numbers printed by printf and read by
    strtol.  Functional behaviour, invariants
    and termination: scheduling order, the order of the packets of a port, semaphores,
    events and mutexes, timers, qsort, bsearch, formatted output, normal forms of paths,
    lines and rectangles, the page allocator's first fit.  Errors and bounds: where the code does
    not do what it means to, the theorem states what it does (a lost wake-up in
    mutex_acquire_timeout, the AND mode of event flags, strlcat's bound, the sizes
    that wrap around in malloc and in the archive reader, an endless search for the
    archive header, a lost key press, vsnprintf with a size of 0, doubles just below
    the next integer, rectangles moved one row and column off, a
    port that is broken when it leaves its group, two threads that add one port, a reader
    that is never woken, windows on disks of 4 GiB, a block cache behind a failed
    transfer, a mount that is taken down twice).

    ** Fuel

    Loops that the code bounds run on the bound: the length of a list, of a map or
    of a file.  The loops of qsort, of circular buffers, of the page map ([find_run], [map_room]) and of
    the heap's trimming, and bsearch's, get fuel that is proved enough.  get_top_thread and
    timer_tick are bounded by their queues, and the loops over a linked list by the
    nodes in memory, those of the block cache among them.  Calls on a subdevice nest as
    deep as there are devices, loops over blocks turn once for a block, and the walk over a
    path takes at most four turns for a character.  Only get_header, which the code does
    not bound, has fuel as an argument: one theorem says when two turns are enough,
    another when no fuel is.

    ** Parameters

    The KIRK engine, the NAND driver (emcsm), the logical flash, FatFs, SHA-1 and DES
    of mbedtls, miniz, and, for the archive reader and the installer, the allocator:
    each is a class of operations, with what is assumed of it as named hypotheses;
    the samples instantiate every one.  What malloc returned is an argument of the
    calls of ports, block devices, the block cache and the file system layer.  The
    drivers of disks, the device below the cache and the file systems below their layer
    are classes with laws; [BcacheRuns] proves those of the cache's device for [Bio].  The kernel's end, its memory and the
    addresses of heap and map are arguments.

    ** Not modelled

    The wiring in main.c with the thread that switches between the screens; reading
    from the console; the fractal and the console command of lib/gfx; the contents of heap blocks; in the installer, the texts are written out instead
    of formatted, and the byte that vsnprintf with a size of 0 writes below the
    caller's buffer ([PrintfProps.vsnprintf_zero]) is left out; the file systems of
    lib/fs (memfs, ext2, spifs), which the installer does not use; bio_ioctl, which passes
    a request on; statistics, dumps and console commands, which only print; kernel/vm,
    kernel/mp.c and the SMP paths of thread.c, which this build leaves out; the heaps
    it does not choose (dlmalloc, cmpctmalloc); kirk1_decrypt and des.c, which
    nothing calls; arch, platform, dev and the remaining libraries, which are
    register accesses, vendor headers, third-party code or code the installer does
    not call. *)

From stdpp Require Import prelude list gmap strings.
From Stdlib Require Import ZArith Lia.

Open Scope Z_scope.

(** ** Outcomes of C functions *)

(** [Ret a] is a normal return, [Err e] an early return with the C error code
    [e], [Panic] a call of panic(), FATAL() or a failed assert, [Fault] an access
    outside the object a pointer points into, and [Hang] fuel exhausted in a
    loop that the C code does not bound. *)
Inductive outcome (E A : Type) : Type :=
| Ret (a : A)
| Err (e : E)
| Panic
| Fault
| Hang.
Arguments Ret {E A} a.
Arguments Err {E A} e.
Arguments Panic {E A}.
Arguments Fault {E A}.
Arguments Hang {E A}.

(** State-passing computations: the state survives an error return, as it does
    in C. *)
Definition M (S E A : Type) : Type := S -> outcome E A * S.

Definition ret {S E A} (a : A) : M S E A := fun s => (Ret a, s).
Definition fail {S E A} (e : E) : M S E A := fun s => (Err e, s).
Definition panic {S E A} : M S E A := fun s => (Panic, s).
Definition fault {S E A} : M S E A := fun s => (Fault, s).
Definition hang {S E A} : M S E A := fun s => (Hang, s).
Definition get {S E} : M S E S := fun s => (Ret s, s).
Definition put {S E} (s : S) : M S E unit := fun _ => (Ret tt, s).
Definition modify {S E} (f : S -> S) : M S E unit := fun s => (Ret tt, f s).
Definition gets {S E A} (f : S -> A) : M S E A := fun s => (Ret (f s), s).

Definition bind {S E A B} (c : M S E A) (k : A -> M S E B) : M S E B :=
  fun s =>
    match c s with
    | (Ret a, s') => k a s'
    | (Err e, s') => (Err e, s')
    | (Panic, s') => (Panic, s')
    | (Fault, s') => (Fault, s')
    | (Hang, s') => (Hang, s')
    end.

(** [assert(b)] and [DEBUG_ASSERT(b)]. *)
Definition assert_ {S E} (b : bool) : M S E unit := if b then ret tt else panic.

(** A memory access that is [None] when it leaves its object. *)
Definition deref {S E A} (o : option A) : M S E A :=
  match o with Some a => ret a | None => fault end.

Declare Scope lk_scope.
Delimit Scope lk_scope with lk.
Notation "'let*' x ':=' c 'in' k" := (bind c (fun x => k))
  (at level 10, x pattern, c at level 200, k at level 200,
   format "'[v' 'let*'  x  ':='  c  'in' '/' k ']'") : lk_scope.
Notation "c ;; k" := (bind c (fun _ => k))
  (at level 100, k at level 200, right associativity,
   format "'[v' c ;;  '/' k ']'") : lk_scope.
Open Scope lk_scope.

(** Runs the body over a list, in order. *)
Fixpoint for_each {S E A} (l : list A) (body : A -> M S E unit) : M S E unit :=
  match l with
  | [] => ret tt
  | x :: l' => body x ;; for_each l' body
  end.

(** ** Reasoning: total correctness *)

(** [wp c Q s]: started in [s], [c] returns normally, with a result and a state
    in [Q]; it neither returns an error, nor panics, faults or hangs. *)
Definition wp {S E A} (c : M S E A) (Q : A -> S -> Prop) (s : S) : Prop :=
  match c s with (Ret a, s') => Q a s' | _ => False end.

Create HintDb lk.
Create Rewrite HintDb lk.

Section wp.
Context {S E : Type}.
Implicit Types (s : S).

Lemma wp_run {A} (c : M S E A) Q s :
  wp c Q s <-> exists a s', c s = (Ret a, s') /\ Q a s'.
Proof.
  unfold wp. destruct (c s) as [[a|e| | |] s'] eqn:Hc; split; try done;
    try (intros (a' & s'' & Heq & HQ); by simplify_eq); eauto.
Qed.

Lemma wp_bind {A B} (c : M S E A) (k : A -> M S E B) Q s :
  wp (bind c k) Q s <-> wp c (fun a s' => wp (k a) Q s') s.
Proof. unfold wp, bind. by destruct (c s) as [[] ?]. Qed.

Lemma wp_seq {A B} (c : M S E A) (k : A -> M S E B) Q s :
  wp c (fun a s' => wp (k a) Q s') s -> wp (bind c k) Q s.
Proof. by rewrite wp_bind. Qed.

Lemma wp_mono {A} (c : M S E A) (Q Q' : A -> S -> Prop) s :
  wp c Q s -> (forall a s', Q a s' -> Q' a s') -> wp c Q' s.
Proof. unfold wp. destruct (c s) as [[] ?]; auto. Qed.

Lemma wp_ret {A} (a : A) (Q : A -> S -> Prop) s : Q a s -> wp (E:=E) (ret a) Q s.
Proof. done. Qed.

Lemma wp_get (Q : S -> S -> Prop) s : Q s s -> wp (E:=E) get Q s.
Proof. done. Qed.

Lemma wp_put s' (Q : unit -> S -> Prop) s : Q tt s' -> wp (E:=E) (put s') Q s.
Proof. done. Qed.

Lemma wp_modify f (Q : unit -> S -> Prop) s : Q tt (f s) -> wp (E:=E) (modify f) Q s.
Proof. done. Qed.

Lemma wp_assert b Q s : b = true -> Q tt s -> wp (E:=E) (assert_ b) Q s.
Proof. by intros -> ?. Qed.

Lemma wp_deref {A} (o : option A) (a : A) Q s :
  o = Some a -> Q a s -> wp (E:=E) (deref o) Q s.
Proof. by intros -> ?. Qed.

Lemma wp_for_each {A} (I : S -> Prop) (l : list A) (body : A -> M S E unit) s :
  I s -> (forall x s', x ∈ l -> I s' -> wp (body x) (fun _ => I) s') ->
  wp (for_each l body) (fun _ => I) s.
Proof.
  revert s. induction l as [|x l IH]; intros s Hs Hb; simpl; [done|].
  apply wp_bind. eapply wp_mono; [apply Hb; [left|done]|].
  intros [] s' Hs'. apply IH; [done|]. intros y s'' Hy. apply Hb. by right.
Qed.

(** [wpe c Q s]: the same, but an error return is allowed. *)
Definition wpe {A} (c : M S E A) (Q : A -> S -> Prop) (s : S) : Prop :=
  match c s with (Ret a, s') => Q a s' | (Err _, _) => True | _ => False end.

Lemma wpe_seq {A B} (c : M S E A) (k : A -> M S E B) Q s :
  wpe c (fun a s' => wpe (k a) Q s') s -> wpe (bind c k) Q s.
Proof. unfold wpe, bind. by destruct (c s) as [[] ?]. Qed.

Lemma wpe_mono {A} (c : M S E A) (Q Q' : A -> S -> Prop) s :
  wpe c Q s -> (forall a s', Q a s' -> Q' a s') -> wpe c Q' s.
Proof. unfold wpe. destruct (c s) as [[] ?]; auto. Qed.

Lemma wpe_ret {A} (a : A) (Q : A -> S -> Prop) s : Q a s -> wpe (ret a) Q s.
Proof. done. Qed.

Lemma wpe_gets {A} (f : S -> A) (Q : A -> S -> Prop) s : Q (f s) s -> wpe (gets f) Q s.
Proof. done. Qed.

Lemma wpe_get (Q : S -> S -> Prop) s : Q s s -> wpe get Q s.
Proof. done. Qed.

Lemma wpe_modify f (Q : unit -> S -> Prop) s : Q tt (f s) -> wpe (modify f) Q s.
Proof. done. Qed.

Lemma wpe_fail {A} e (Q : A -> S -> Prop) s : wpe (fail e) Q s.
Proof. done. Qed.

Lemma wpe_deref {A} (o : option A) (a : A) Q s : o = Some a -> Q a s -> wpe (deref o) Q s.
Proof. by intros -> ?. Qed.

Lemma wpe_run {A} (c : M S E A) Q s a s' : wpe c Q s -> c s = (Ret a, s') -> Q a s'.
Proof. unfold wpe. intros H Hc. by rewrite Hc in H. Qed.

Lemma bind_Ret {A B} (c : M S E A) (k : A -> M S E B) s b s' :
  bind c k s = (Ret b, s') <-> exists a s1, c s = (Ret a, s1) /\ k a s1 = (Ret b, s').
Proof.
  unfold bind. destruct (c s) as [[a|e| | |] s1]; split;
    try (intros (a' & s1' & Heq & Hk); by simplify_eq); try done; eauto.
Qed.

Lemma bind_run {A B} (c : M S E A) (k : A -> M S E B) s a s1 :
  c s = (Ret a, s1) -> bind c k s = k a s1.
Proof. intros H. unfold bind. by rewrite H. Qed.

Lemma bind_deref {A B} (o : option A) (a : A) (k : A -> M S E B) s :
  o = Some a -> bind (deref o) k s = k a s.
Proof. by intros ->. Qed.

Lemma bind_cong {A B} (c : M S E A) (k k' : A -> M S E B) s :
  (forall a s', k a s' = k' a s') -> bind c k s = bind c k' s.
Proof. intros Hk. unfold bind. by destruct (c s) as [[] ?]. Qed.

Lemma ret_Ret {A} (a b : A) s s' : ret (E:=E) a s = (Ret b, s') <-> b = a /\ s' = s.
Proof. unfold ret. naive_solver. Qed.

Lemma gets_Ret {A} (f : S -> A) a s s' : gets (E:=E) f s = (Ret a, s') <-> a = f s /\ s' = s.
Proof. unfold gets. naive_solver. Qed.

Lemma modify_Ret (f : S -> S) u s s' : modify (E:=E) f s = (Ret u, s') <-> s' = f s.
Proof. unfold modify. destruct u. naive_solver. Qed.

Lemma deref_Ret {A} (o : option A) a s s' : deref (E:=E) o s = (Ret a, s') <-> o = Some a /\ s' = s.
Proof. destruct o; unfold deref, ret, fault; naive_solver. Qed.

Lemma bind_err {A B} (c : M S E A) (k : A -> M S E B) s e s1 :
  c s = (Err e, s1) -> bind c k s = (Err e, s1).
Proof. intros H. unfold bind. by rewrite H. Qed.
End wp.

(** ** Loops over lists *)

Lemma for_each_ext {S E A} (l : list A) (f g : A -> M S E unit) s :
  (forall x s, f x s = g x s) -> for_each l f s = for_each l g s.
Proof.
  intros Hfg. revert s. induction l as [|x l IH]; intros s; [done|]. cbn [for_each]. unfold bind. rewrite Hfg.
  destruct (g x s) as [[u|e| | |] s1]; by rewrite ?IH.
Qed.

Lemma for_each_app {S E A} (l k : list A) (f : A -> M S E unit) s :
  for_each (l ++ k) f s = (for_each l f ;; for_each k f) s.
Proof.
  revert s. induction l as [|x l IH]; intros s; [done|]. cbn [app for_each]. unfold bind in *.
  destruct (f x s) as [[u|e| | |] s1]; done.
Qed.

Lemma for_each_fmap {S E A B} (g : A -> B) (l : list A) (f : B -> M S E unit) s :
  for_each (g <$> l) f s = for_each l (fun x => f (g x)) s.
Proof.
  revert s. induction l as [|x l IH]; intros s; [done|]. cbn [fmap list_fmap for_each]. unfold bind.
  destruct (f (g x) s) as [[u|e| | |] s1]; done.
Qed.

(** ** Machine integers: the target (allegrex) is 32-bit, little endian *)

Definition u8 (z : Z) : Z := z mod 2 ^ 8.
Definition u16 (z : Z) : Z := z mod 2 ^ 16.
Definition u32 (z : Z) : Z := z mod 2 ^ 32.
Definition s8 (z : Z) : Z := (z + 2 ^ 7) mod 2 ^ 8 - 2 ^ 7.
Definition s32 (z : Z) : Z := (z + 2 ^ 31) mod 2 ^ 32 - 2 ^ 31.

Lemma u32_small z : 0 <= z < 2 ^ 32 -> u32 z = z.
Proof. apply Z.mod_small. Qed.

Lemma u32_range z : 0 <= u32 z < 2 ^ 32.
Proof. apply Z.mod_pos_bound. lia. Qed.

Lemma s32_small z : - 2 ^ 31 <= z < 2 ^ 31 -> s32 z = z.
Proof. intros. unfold s32. rewrite Z.mod_small; lia. Qed.

Lemma s32_range z : - 2 ^ 31 <= s32 z < 2 ^ 31.
Proof. unfold s32. pose proof (Z.mod_pos_bound (z + 2 ^ 31) (2 ^ 32)). lia. Qed.

Lemma s8_range z : - 2 ^ 7 <= s8 z < 2 ^ 7.
Proof. unfold s8. pose proof (Z.mod_pos_bound (z + 2 ^ 7) (2 ^ 8)). lia. Qed.

Lemma s8_small z : - 2 ^ 7 <= z < 2 ^ 7 -> s8 z = z.
Proof. intros. unfold s8. rewrite Z.mod_small; lia. Qed.

(** A difference of two bytes is never truncated to zero. *)
Lemma s8_eq_0 z : -256 < z < 256 -> s8 z = 0 <-> z = 0.
Proof.
  intros Hz. unfold s8. split; [|by intros ->].
  intros H. assert (Hm : (z + 2 ^ 7) mod 2 ^ 8 = 128) by lia.
  pose proof (Z.div_mod (z + 2 ^ 7) (2 ^ 8)). lia.
Qed.

(** ** Bytes, byte arrays and little-endian words *)

Definition is_byte (b : Z) : Prop := 0 <= b < 256.
Definition bytes_ok (l : list Z) : Prop := Forall is_byte l.

(** [slice off len m]: the [len] bytes of [m] from [off]. *)
Definition slice {A} (off len : nat) (m : list A) : list A := take len (drop off m).

(** [splice off src m]: [m] with the bytes from [off] overwritten by [src]. *)
Definition splice {A} (off : nat) (src m : list A) : list A :=
  take off m ++ src ++ drop (off + length src) m.

Fixpoint le_decode (l : list Z) : Z :=
  match l with [] => 0 | b :: l' => b + 256 * le_decode l' end.

Fixpoint le_encode (n : nat) (z : Z) : list Z :=
  match n with O => [] | S n' => z mod 256 :: le_encode n' (z / 256) end.

Lemma length_le_encode n z : length (le_encode n z) = n.
Proof. revert z. induction n; intros; simpl; [done|]. by rewrite IHn. Qed.

Lemma le_encode_bytes n z : bytes_ok (le_encode n z).
Proof.
  revert z. induction n; intros z; simpl; constructor; [|apply IHn].
  unfold is_byte. apply Z.mod_pos_bound. lia.
Qed.

Lemma le_decode_encode n z : le_decode (le_encode n z) = z mod 256 ^ Z.of_nat n.
Proof.
  revert z. induction n as [|n IH]; intros z; simpl le_decode; [by rewrite Z.mod_1_r|].
  rewrite IH, Nat2Z.inj_succ, Z.pow_succ_r by lia.
  rewrite Z.rem_mul_r by lia. lia.
Qed.

Lemma le_encode_decode l : bytes_ok l -> le_encode (length l) (le_decode l) = l.
Proof.
  induction 1 as [|b l Hb _ IH]; simpl; [done|]. unfold is_byte in Hb.
  assert (Hm : (b + 256 * le_decode l) mod 256 = b).
  { replace (b + 256 * le_decode l) with (b + le_decode l * 256) by lia.
    rewrite Z.mod_add by lia. apply Z.mod_small. lia. }
  assert (Hd : (b + 256 * le_decode l) / 256 = le_decode l).
  { replace (b + 256 * le_decode l) with (b + le_decode l * 256) by lia.
    rewrite Z.div_add, Z.div_small by lia. lia. }
  by rewrite Hm, Hd, IH.
Qed.

Lemma le_decode_range l : bytes_ok l -> 0 <= le_decode l < 256 ^ Z.of_nat (length l).
Proof.
  induction 1 as [|b l Hb _ IH]; simpl le_decode; [simpl; lia|].
  unfold is_byte in Hb. cbn [length]. rewrite Nat2Z.inj_succ, Z.pow_succ_r by lia. lia.
Qed.

(** ** Lists as C arrays *)

Section arrays.
Context {A : Type}.
Implicit Types (m src l : list A).

Lemma length_slice off len m :
  (off + len <= length m)%nat -> length (slice off len m) = len.
Proof. intros. unfold slice. rewrite length_take, length_drop. lia. Qed.

Lemma length_splice off src m :
  (off + length src <= length m)%nat -> length (splice off src m) = length m.
Proof. intros. unfold splice. rewrite !length_app, length_take, length_drop. lia. Qed.

Lemma slice_splice_same off src m :
  (off + length src <= length m)%nat -> slice off (length src) (splice off src m) = src.
Proof.
  intros. unfold slice, splice. rewrite drop_app_length' by (rewrite length_take; lia).
  by rewrite take_app_length.
Qed.

Lemma lookup_splice off src m i :
  (off + length src <= length m)%nat ->
  splice off src m !! i =
    if decide (off <= i < off + length src)%nat then src !! (i - off)%nat else m !! i.
Proof.
  intros Hlen. unfold splice.
  assert (Ht : length (take off m) = off) by (rewrite length_take; lia).
  case_decide as Hi.
  - rewrite lookup_app_r, Ht by lia. rewrite lookup_app_l by lia. done.
  - destruct (decide (i < off)%nat).
    + rewrite lookup_app_l by lia. by rewrite lookup_take_lt by lia.
    + rewrite lookup_app_r, Ht by lia. rewrite lookup_app_r by lia.
      rewrite lookup_drop. f_equal. lia.
Qed.

Lemma lookup_slice off len m i :
  slice off len m !! i = if decide (i < len)%nat then m !! (off + i)%nat else None.
Proof.
  unfold slice. case_decide.
  - by rewrite lookup_take_lt, lookup_drop by lia.
  - by rewrite lookup_take_ge by lia.
Qed.

Lemma slice_splice_ne off src m off' len :
  (off + length src <= length m)%nat ->
  (off' + len <= off \/ off + length src <= off')%nat ->
  slice off' len (splice off src m) = slice off' len m.
Proof.
  intros Hlen Hdis. apply list_eq. intros i. rewrite !lookup_slice.
  case_decide; [|done]. rewrite lookup_splice by done. rewrite decide_False by lia. done.
Qed.

Lemma slice_adjacent off n1 n2 m :
  slice off n1 m ++ slice (off + n1) n2 m = slice off (n1 + n2) m.
Proof.
  apply list_eq. intros i. rewrite lookup_slice. destruct (decide (i < n1)%nat) as [Hi|Hi].
  - destruct (decide (i < length (slice off n1 m))%nat).
    + rewrite lookup_app_l by done. by rewrite lookup_slice, !decide_True by lia.
    + rewrite decide_True by lia. unfold slice in *. rewrite length_take, length_drop in *.
      rewrite lookup_app_r by (rewrite length_take, length_drop; lia).
      rewrite (lookup_ge_None_2 m) by lia. apply lookup_ge_None_2.
      rewrite length_take, !length_drop, length_take, length_drop. lia.
  - destruct (decide (off + n1 <= length m)%nat).
    + rewrite lookup_app_r by (rewrite length_slice; lia). rewrite length_slice, lookup_slice by lia.
      repeat case_decide; try lia; try done. f_equal. lia.
    + rewrite (lookup_ge_None_2 (_ ++ _)).
      * case_decide; [|done]. symmetry. apply lookup_ge_None_2. lia.
      * unfold slice. rewrite length_app, !length_take, !length_drop. lia.
Qed.

Lemma slice_slice m off len off' len' :
  (off' + len' <= len)%nat -> slice off' len' (slice off len m) = slice (off + off') len' m.
Proof.
  intros Hl. apply list_eq. intros i. rewrite !lookup_slice. repeat case_decide; try lia; [|done].
  f_equal. lia.
Qed.

(** A write inside what was just written changes only that. *)
Lemma splice_inside off k a b m :
  (off + length a <= length m)%nat -> (k + length b <= length a)%nat ->
  splice (off + k) b (splice off a m) = splice off (splice k b a) m.
Proof.
  intros Hm Ha. apply list_eq. intros i.
  rewrite !lookup_splice by (rewrite ?length_splice; lia). rewrite length_splice by lia.
  repeat case_decide; try lia; try done. f_equal. lia.
Qed.

Lemma splice_splice_app xs a b m :
  (xs + length a + length b <= length m)%nat ->
  splice (xs + length a) b (splice xs a m) = splice xs (a ++ b) m.
Proof.
  intros Hlen. apply list_eq. intros i.
  rewrite !lookup_splice by (rewrite ?length_splice; rewrite ?length_app; lia).
  rewrite length_app. repeat case_decide; try lia; try done.
  - rewrite lookup_app_r by lia. f_equal. lia.
  - by rewrite lookup_app_l by lia.
Qed.

Lemma slice_all m : slice 0 (length m) m = m.
Proof. unfold slice. by rewrite drop_0, firstn_all. Qed.
End arrays.

#[export] Hint Rewrite @length_splice @length_slice length_le_encode
  using (repeat rewrite ?length_splice, ?length_slice, ?length_le_encode; simpl in *; lia) : lk.

Lemma bytes_ok_app l1 l2 : bytes_ok (l1 ++ l2) <-> bytes_ok l1 /\ bytes_ok l2.
Proof. apply Forall_app. Qed.

Lemma bytes_ok_slice off len l : bytes_ok l -> bytes_ok (slice off len l).
Proof. intros. by apply Forall_take, Forall_drop. Qed.

Lemma bytes_ok_splice off src l : bytes_ok src -> bytes_ok l -> bytes_ok (splice off src l).
Proof.
  intros. unfold splice. rewrite !bytes_ok_app.
  split; [by apply Forall_take|]. split; [done|by apply Forall_drop].
Qed.

#[export] Hint Resolve bytes_ok_slice bytes_ok_splice le_encode_bytes : lk.

(** Removing an element from a duplicate-free list. *)
Lemma filter_ne_id {A} `{EqDecision A} (t : A) (l : list A) :
  t ∉ l -> filter (fun x => x <> t) l = l.
Proof.
  induction l as [|x l IH]; intros Ht; [done|]. apply not_elem_of_cons in Ht as [Hx Ht].
  rewrite filter_cons_True by congruence. by rewrite IH.
Qed.

Lemma filter_ne_head {A} `{EqDecision A} (t : A) (l : list A) :
  NoDup (t :: l) -> filter (fun x => x <> t) (t :: l) = l.
Proof.
  intros Hnd. apply NoDup_cons in Hnd as [Ht _].
  rewrite filter_cons_False by (intros H; by apply H). by apply filter_ne_id.
Qed.

Lemma filter_ne_length {A} `{EqDecision A} (t : A) (l : list A) :
  NoDup l -> t ∈ l -> S (length (filter (fun x => x <> t) l)) = length l.
Proof.
  induction 1 as [|x l Hx Hnd IH]; intros Ht; [by apply elem_of_nil in Ht|].
  apply elem_of_cons in Ht as [->|Ht].
  - rewrite filter_ne_head by (by constructor). done.
  - rewrite filter_cons_True by (intros ->; done). simpl. by rewrite IH.
Qed.

(** ** Tactics *)

(** Splits a boolean guard of the code into its arithmetic meaning. *)
Ltac destruct_guard :=
  match goal with
  | |- context [if ?b then _ else _] =>
      let H := fresh "Hguard" in destruct b eqn:H
  end.

(** Turns boolean comparisons of hypotheses into propositions. *)
Ltac bool_to_prop :=
  repeat match goal with
  | H : (_ =? _) = true |- _ => apply Z.eqb_eq in H
  | H : (_ =? _) = false |- _ => apply Z.eqb_neq in H
  | H : (_ <? _) = true |- _ => apply Z.ltb_lt in H
  | H : (_ <? _) = false |- _ => apply Z.ltb_ge in H
  | H : (_ <=? _) = true |- _ => apply Z.leb_le in H
  | H : (_ <=? _) = false |- _ => apply Z.leb_gt in H
  | H : (_ && _) = true |- _ => apply andb_prop in H as [? ?]
  | H : (_ || _) = false |- _ => apply orb_false_elim in H as [? ?]
  | H : negb _ = true |- _ => apply negb_true_iff in H
  | H : negb _ = false |- _ => apply negb_false_iff in H
  end.

(** Takes a run that returned apart into its steps. *)
Ltac run_step :=
  match goal with
  | H : bind _ _ _ = (Ret _, _) |- _ =>
      let a := fresh "a" in let s := fresh "st" in let Hc := fresh "Hrun" in
      apply bind_Ret in H as (a & s & Hc & H)
  | H : ret _ _ = (Ret _, _) |- _ => apply ret_Ret in H as [? ?]; simplify_eq
  | H : gets _ _ = (Ret _, _) |- _ => apply gets_Ret in H as [? ?]; simplify_eq
  | H : get _ = (Ret _, _) |- _ => injection H as <- <-
  | H : modify _ _ = (Ret _, _) |- _ => apply modify_Ret in H as ->
  | H : deref _ _ = (Ret _, _) |- _ => apply deref_Ret in H as [H ->]
  | H : fail _ _ = (Ret _, _) |- _ => discriminate H
  | H : panic _ = (Ret _, _) |- _ => discriminate H
  | H : fault _ = (Ret _, _) |- _ => discriminate H
  | H : hang _ = (Ret _, _) |- _ => discriminate H
  end.
