(* ===== verification/Pow2.v ===== *)
(** * top/include/lk/pow2.h: sizes that are powers of two

    The operations and what they compute; kernel/port.c, lib/cbuf and lib/bio
    use them. *)

From stdpp Require Import prelude.
From Stdlib Require Import ZArith Lia.
From S2P Require Import Prelude.

Open Scope Z_scope.

Definition ispow2 (val : Z) : bool := Z.land (u32 (val - 1)) val =? 0.
Definition log2_uint (val : Z) : Z := if val =? 0 then 0 else Z.log2 val.
Definition valpow2 (valp2 : Z) : Z := u32 (Z.shiftl 1 valp2).
Definition divpow2 (val divp2 : Z) : Z := Z.shiftr val divp2.
Definition modpow2 (val modp2 : Z) : Z := Z.land val (u32 (u32 (Z.shiftl 1 modp2) - 1)).

Lemma pow2_range l : 0 <= l < 32 -> 0 < 2 ^ l < 2 ^ 32.
Proof. intros. split; [apply Z.pow_pos_nonneg; lia|apply Z.pow_lt_mono_r; lia]. Qed.

Lemma valpow2_pow l : 0 <= l < 32 -> valpow2 l = 2 ^ l.
Proof. intros H. unfold valpow2. rewrite Z.shiftl_1_l. apply u32_small. pose proof (pow2_range l H). lia. Qed.

Lemma modpow2_mod v l : 0 <= l < 32 -> modpow2 v l = v mod 2 ^ l.
Proof.
  intros H. pose proof (pow2_range l H).
  unfold modpow2. rewrite Z.shiftl_1_l, (u32_small (2 ^ l)), u32_small by lia.
  by rewrite <- Z.land_ones, Z.ones_equiv by lia.
Qed.

Lemma divpow2_div v l : 0 <= l -> divpow2 v l = v / 2 ^ l.
Proof. intros. unfold divpow2. by rewrite Z.shiftr_div_pow2. Qed.

Lemma log2_uint_pow l : 0 <= l -> log2_uint (2 ^ l) = l.
Proof.
  intros H. unfold log2_uint. case_match eqn:Hz; [|by apply Z.log2_pow2].
  apply Z.eqb_eq in Hz. pose proof (Z.pow_pos_nonneg 2 l). lia.
Qed.

(** What passes the test is a power of two. *)
Lemma ispow2_pow v : 0 < v < 2 ^ 32 -> ispow2 v = true -> v = 2 ^ log2_uint v.
Proof.
  intros Hv. unfold ispow2, log2_uint. rewrite u32_small by lia. intros Hl%Z.eqb_eq.
  case_match eqn:Hz; [apply Z.eqb_eq in Hz; lia|]. clear Hz.
  destruct (Z.log2_spec v) as [Hlo Hhi]; [lia|].
  assert (v - 1 < 2 ^ Z.log2 v); [|lia]. apply Z.nle_gt. intros Hge.
  assert (Z.testbit (Z.land (v - 1) v) (Z.log2 v) = true) as Ht; [|by rewrite Hl, Z.bits_0 in Ht].
  rewrite Z.land_spec, (Z.bit_log2 v) by lia.
  assert (Z.log2 (v - 1) = Z.log2 v) as <-; [|rewrite Z.bit_log2; [done|]].
  - apply Z.log2_unique; [apply Z.log2_nonneg|lia].
  - pose proof (Z.pow_pos_nonneg 2 (Z.log2 v)) as Hp. pose proof (Z.log2_nonneg v). lia.
Qed.

Lemma pow2_ispow2 l : 0 <= l < 32 -> ispow2 (2 ^ l) = true.
Proof.
  intros H. pose proof (pow2_range l H). unfold ispow2. rewrite u32_small by lia.
  replace (2 ^ l - 1) with (Z.ones l) by (rewrite Z.ones_equiv; lia).
  rewrite Z.land_comm, Z.land_ones, Z_mod_same_full by lia. done.
Qed.
