(* ===== verification/CMem.v ===== *)
(** * lib/libc/string: memcpy, memmove, memset, memcmp, memchr, memscan

    Memory is one flat byte array [m]; a pointer is an address into it.  The
    machine word is 4 bytes ([long] on the allegrex); a word access at an address
    that is not a multiple of 4, or any access outside [m], is [None].  Addresses
    are compared as the signed words the source casts them to, and a count is kept in
    an [int] where the source does. *)

From S2P Require Import Prelude.
From stdpp Require Import prelude list.
From Stdlib Require Import ZArith Lia.

Open Scope nat_scope.

(** ** Definitions *)

Definition lsize : nat := 4.
Definition lmask : nat := lsize - 1.

(** The turns of [for (; len > 0; len--)] when the [int] got the count [n]: none
    when [n] does not fit. *)
Definition int_len (n : nat) : nat := Z.to_nat (s32 (Z.of_nat n)).

(** One iteration of a copy loop: a load and a store of [w] bytes. *)
Definition copy_chunk (w d s : nat) (m : list Z) : option (list Z) :=
  if (d mod w =? 0) && (s mod w =? 0) && (d + w <=? length m) && (s + w <=? length m)
  then Some (splice d (slice s w m) m)
  else None.

(** [for (; len > 0; len--) *d++ = *s++] on objects of [w] bytes. *)
Fixpoint copy_up (w len d s : nat) (m : list Z) : option (list Z) :=
  match len with
  | O => Some m
  | S len' => m' ← copy_chunk w d s m; copy_up w len' (d + w) (s + w) m'
  end.

(** [for (; len > 0; len--) *--d = *--s] on objects of [w] bytes. *)
Fixpoint copy_down (w len d s : nat) (m : list Z) : option (list Z) :=
  match len with
  | O => Some m
  | S len' => m' ← copy_chunk w (d - w) (s - w) m; copy_down w len' (d - w) (s - w) m'
  end.

(** The part of memcpy and of the upward branch of memmove that moves the
    pointers up to a word boundary: the number of bytes it copies. *)
Definition head_len (d s count : nat) : nat :=
  if negb (Nat.land (Nat.lor d s) lmask =? 0) then
    if negb (Nat.land (Nat.lxor d s) lmask =? 0) || (count <? lsize)
    then count
    else lsize - Nat.land d lmask
  else 0.

Definition memcpy (dest src count : nat) (m : list Z) : option (list Z) :=
  if (count =? 0) || (dest =? src) then Some m
  else
    let len := head_len dest src count in
    m1 ← copy_up 1 (int_len len) dest src m;
    let d := dest + int_len len in let s := src + int_len len in let count := count - len in
    let words := int_len (count / lsize) in
    m2 ← copy_up lsize words d s m1;
    let d := d + words * lsize in let s := s + words * lsize in
    copy_up 1 (int_len (Nat.land count lmask)) d s m2.

(** The number of bytes the downward branch of memmove copies first; [d] and
    [s] are the ends of the two blocks. *)
Definition tail_len (d s count : nat) : nat :=
  if negb (Nat.land (Nat.lor d s) lmask =? 0) then
    if negb (Nat.land (Nat.lxor d s) lmask =? 0) || (count <=? lsize)
    then count
    else Nat.land d lmask
  else 0.

Definition memmove (dest src count : nat) (m : list Z) : option (list Z) :=
  if (count =? 0) || (dest =? src) then Some m
  else if (s32 (Z.of_nat dest) <? s32 (Z.of_nat src))%Z then
    let len := head_len dest src count in
    m1 ← copy_up 1 (int_len len) dest src m;
    let d := dest + int_len len in let s := src + int_len len in let count := count - len in
    let words := int_len (count / lsize) in
    m2 ← copy_up lsize words d s m1;
    let d := d + words * lsize in let s := s + words * lsize in
    copy_up 1 (int_len (Nat.land count lmask)) d s m2
  else
    let d := dest + count in let s := src + count in
    let len := tail_len d s count in
    m1 ← copy_down 1 (int_len len) d s m;
    let d := d - int_len len in let s := s - int_len len in let count := count - len in
    let words := int_len (count / lsize) in
    m2 ← copy_down lsize words d s m1;
    let d := d - words * lsize in let s := s - words * lsize in
    copy_down 1 (int_len (Nat.land count lmask)) d s m2.

Definition bcopy (src dest count : nat) (m : list Z) : option (list Z) :=
  memcpy dest src count m.

(** [*xs++ = c], [len] times. *)
Fixpoint set_bytes (len xs : nat) (c : Z) (m : list Z) : option (list Z) :=
  match len with
  | O => Some m
  | S len' => if xs <? length m then set_bytes len' (S xs) c (<[xs:=u8 c]> m) else None
  end.

(** The word-wise store loop: store [cc] at [xs], advance [xs] by a word, [len] times. *)
Fixpoint set_words (len xs : nat) (cc : Z) (m : list Z) : option (list Z) :=
  match len with
  | O => Some m
  | S len' =>
      if (xs mod lsize =? 0) && (xs + lsize <=? length m)
      then set_words len' (xs + lsize) cc (splice xs (le_encode lsize cc) m)
      else None
  end.

Definition memset (s : nat) (c : Z) (count : nat) (m : list Z) : option (list Z) :=
  let len := Z.to_nat (Z.land (u32 (- Z.of_nat s)) (Z.of_nat lsize - 1)) in
  if len <? count then
    let count := count - len in
    let cc := Z.land c 255 in
    let cc := Z.lor cc (u32 (Z.shiftl cc 8)) in
    let cc := Z.lor cc (u32 (Z.shiftl cc 16)) in
    m1 ← set_bytes len s c m;
    let xs := s + len in
    m2 ← set_words (count / lsize) xs cc m1;
    set_bytes (Nat.land count lmask) (xs + count / lsize * lsize) c m2
  else set_bytes count s c m.

Definition bzero (dst count : nat) (m : list Z) : option (list Z) := memset dst 0 count m.

(** Read-only routines take the bytes at their pointer, up to the end of the
    object it points into. *)
Fixpoint memcmp (cs ct : list Z) (count : nat) {struct count} : option Z :=
  match count with
  | O => Some 0%Z
  | S count' =>
      match cs, ct with
      | a :: cs', b :: ct' =>
          let res := s8 (a - b) in
          if (res =? 0)%Z then memcmp cs' ct' count' else Some res
      | _, _ => None
      end
  end.

Fixpoint memchr (buf : list Z) (c : Z) (len : nat) {struct len} : option (option nat) :=
  match len with
  | O => Some None
  | S len' =>
      match buf with
      | [] => None
      | b :: buf' =>
          if (b =? Z.land c 255)%Z then Some (Some 0)
          else option_map S <$> memchr buf' c len'
      end
  end.

Fixpoint memscan (addr : list Z) (c : Z) (size : nat) {struct size} : option nat :=
  match size with
  | O => Some 0
  | S size' =>
      match addr with
      | [] => None
      | b :: addr' => if (b =? c)%Z then Some 0 else S <$> memscan addr' c size'
      end
  end.

(** ** Chunked copies *)

Section chunks.
Implicit Types (m : list Z) (w d s k : nat).

(** Writing the next chunk after [k] bytes have been moved. *)
Lemma splice_extend_up d s k w m :
  d + k + w <= length m -> s + k + w <= length m ->
  splice (d + k) (slice (s + k) w m) (splice d (slice s k m) m)
  = splice d (slice s (k + w) m) m.
Proof.
  intros Hd Hs.
  assert (L1 : length (slice s k m) = k) by (apply length_slice; lia).
  assert (L2 : length (slice (s + k) w m) = w) by (apply length_slice; lia).
  assert (L3 : length (slice s (k + w) m) = k + w) by (apply length_slice; lia).
  apply list_eq. intros i.
  rewrite lookup_splice by (rewrite L2, length_splice; lia).
  rewrite L2, (lookup_splice d (slice s (k + w) m)), L3 by lia.
  rewrite (lookup_splice d (slice s k m)), L1 by lia.
  repeat case_decide; try lia; try done; rewrite !lookup_slice; repeat case_decide; try lia;
    f_equal; lia.
Qed.

(** The same, below [k] bytes already moved. *)
Lemma splice_extend_down d s k w m :
  d + w + k <= length m -> s + w + k <= length m ->
  splice d (slice s w m) (splice (d + w) (slice (s + w) k m) m)
  = splice d (slice s (w + k) m) m.
Proof.
  intros Hd Hs.
  assert (L1 : length (slice (s + w) k m) = k) by (apply length_slice; lia).
  assert (L2 : length (slice s w m) = w) by (apply length_slice; lia).
  assert (L3 : length (slice s (w + k) m) = w + k) by (apply length_slice; lia).
  apply list_eq. intros i.
  rewrite lookup_splice by (rewrite L2, length_splice; lia).
  rewrite L2, (lookup_splice d (slice s (w + k) m)), L3 by lia.
  rewrite (lookup_splice (d + w)), L1 by lia.
  repeat case_decide; try lia; try done; rewrite !lookup_slice; repeat case_decide; try lia;
    f_equal; lia.
Qed.

Lemma copy_chunk_ok w d s m :
  d mod w = 0 -> s mod w = 0 -> d + w <= length m -> s + w <= length m ->
  copy_chunk w d s m = Some (splice d (slice s w m) m).
Proof.
  intros Hd Hs Hdm Hsm. unfold copy_chunk.
  rewrite (proj2 (Nat.eqb_eq _ _) Hd), (proj2 (Nat.eqb_eq _ _) Hs).
  by rewrite (proj2 (Nat.leb_le _ _) Hdm), (proj2 (Nat.leb_le _ _) Hsm).
Qed.

Lemma mod_add_self d w : d mod w = 0 -> (d + w) mod w = 0.
Proof.
  destruct w as [|w]; [simpl; lia|]. intros H.
  replace (d + S w) with (d + 1 * S w) by lia. by rewrite Nat.Div0.mod_add.
Qed.

(** [len] chunks upwards move [len * w] bytes, provided the destination is
    below the source or clear of it. *)
Lemma copy_up_move w len d s k m :
  d + k + len * w <= length m -> s + k + len * w <= length m ->
  d <= s \/ s + k + len * w <= d ->
  (d + k) mod w = 0 -> (s + k) mod w = 0 ->
  copy_up w len (d + k) (s + k) (splice d (slice s k m) m)
  = Some (splice d (slice s (k + len * w) m) m).
Proof.
  revert k. induction len as [|len IH]; intros k Hd Hs Hov Ad As; simpl.
  - by rewrite Nat.add_0_r.
  - assert (Lk : length (slice s k m) = k) by (apply length_slice; lia).
    rewrite copy_chunk_ok by (rewrite ?length_splice; rewrite ?Lk; lia).
    simpl. rewrite slice_splice_ne by (rewrite Lk; lia).
    rewrite splice_extend_up by lia.
    replace (d + k + w) with (d + (k + w)) by lia.
    replace (s + k + w) with (s + (k + w)) by lia.
    rewrite IH; rewrite ?Nat.add_assoc; try lia; try by apply mod_add_self.
    repeat f_equal; lia.
Qed.

Lemma splice_nil d m : splice d [] m = m.
Proof. unfold splice. simpl. by rewrite Nat.add_0_r, take_drop. Qed.

Lemma slice_0 s m : slice s 0 m = [].
Proof. done. Qed.

Lemma copy_up_move0 w len d s m :
  d + len * w <= length m -> s + len * w <= length m ->
  d <= s \/ s + len * w <= d -> d mod w = 0 -> s mod w = 0 ->
  copy_up w len d s m = Some (splice d (slice s (len * w) m) m).
Proof.
  intros. pose proof (copy_up_move w len d s 0 m) as H'.
  rewrite slice_0, splice_nil, !Nat.add_0_r in H'. apply H'; lia.
Qed.

(** [len] chunks downwards from the block ends, with [k] bytes already moved. *)
Lemma copy_down_move w len d s k m :
  d + len * w + k <= length m -> s + len * w + k <= length m ->
  s <= d \/ d + len * w + k <= s ->
  (d + len * w) mod w = 0 -> (s + len * w) mod w = 0 ->
  copy_down w len (d + len * w) (s + len * w)
    (splice (d + len * w) (slice (s + len * w) k m) m)
  = Some (splice d (slice s (len * w + k) m) m).
Proof.
  revert k. induction len as [|len IH]; intros k Hd Hs Hov Ad As; simpl.
  - by rewrite !Nat.add_0_r.
  - simpl in *.
    assert (Lk : length (slice (s + (w + len * w)) k m) = k) by (apply length_slice; lia).
    replace (d + (w + len * w) - w) with (d + len * w) by lia.
    replace (s + (w + len * w) - w) with (s + len * w) by lia.
    assert (Ad' : (d + len * w) mod w = 0).
    { destruct w; [done|]. rewrite Nat.Div0.mod_add in *.
      replace (d + (S w + len * S w)) with (d + (1 + len) * S w) in Ad by lia.
      by rewrite Nat.Div0.mod_add in Ad. }
    assert (As' : (s + len * w) mod w = 0).
    { destruct w; [done|]. rewrite Nat.Div0.mod_add in *.
      replace (s + (S w + len * S w)) with (s + (1 + len) * S w) in As by lia.
      by rewrite Nat.Div0.mod_add in As. }
    rewrite copy_chunk_ok by (rewrite ?length_splice; rewrite ?Lk; lia).
    simpl. rewrite slice_splice_ne by (rewrite Lk; lia).
    replace (d + (w + len * w)) with (d + len * w + w) by lia.
    replace (s + (w + len * w)) with (s + len * w + w) by lia.
    rewrite splice_extend_down by lia.
    rewrite IH by (done || lia).
    by replace (len * w + (w + k)) with (w + len * w + k) by lia.
Qed.
End chunks.

(** ** Alignment arithmetic *)

#[local] Arguments Nat.modulo : simpl never.
#[local] Arguments Nat.div : simpl never.

Lemma land_lmask n : Nat.land n lmask = n mod 4.
Proof. exact (Nat.land_ones n 2). Qed.

Lemma mod4_cases n : n mod 4 = 0 \/ n mod 4 = 1 \/ n mod 4 = 2 \/ n mod 4 = 3.
Proof. pose proof (Nat.mod_upper_bound n 4). lia. Qed.

(** Decides a boolean combination of [d] and [s] modulo the word size. *)
Ltac align_cases d s :=
  destruct (mod4_cases d) as [Hd|[Hd|[Hd|Hd]]], (mod4_cases s) as [Hs|[Hs|[Hs|Hs]]];
  rewrite Hd, Hs.

Lemma lor_lmask d s : (Nat.land (Nat.lor d s) lmask =? 0) = (d mod 4 =? 0) && (s mod 4 =? 0).
Proof. rewrite Nat.land_lor_distr_l, !land_lmask. by align_cases d s. Qed.

Lemma lxor_lmask d s : (Nat.land (Nat.lxor d s) lmask =? 0) = (d mod 4 =? s mod 4).
Proof.
  assert (H : Nat.land (Nat.lxor d s) lmask = Nat.lxor (d mod 4) (s mod 4)).
  { rewrite <- !land_lmask. apply Nat.bits_inj. intros i.
    rewrite Nat.land_spec, !Nat.lxor_spec, !Nat.land_spec.
    by destruct (Nat.testbit d i), (Nat.testbit s i), (Nat.testbit lmask i). }
  rewrite H. by align_cases d s.
Qed.

(** After the head bytes, either nothing is left or both pointers are aligned. *)
Lemma head_len_spec d s count :
  let len := head_len d s count in
  len <= count /\
  (len = count \/ ((d + len) mod 4 = 0 /\ (s + len) mod 4 = 0)).
Proof.
  unfold head_len. rewrite lor_lmask, lxor_lmask, land_lmask.
  pose proof (Nat.div_mod_eq d 4). pose proof (Nat.div_mod_eq s 4).
  align_cases d s; simpl; try (split; [lia|left; done]);
  destruct (count <? lsize) eqn:E; simpl;
    try (apply Nat.ltb_lt in E); try (apply Nat.ltb_ge in E); unfold lsize in *;
    (split; [lia|]); try (left; done); right; rewrite ?Nat.add_0_r;
    try (by split);
    (split; apply Nat.Div0.mod_divides; [exists (d / 4 + 1)|exists (s / 4 + 1)]; lia).
Qed.

Lemma tail_len_spec d s count :
  let len := tail_len d s count in
  count <= d -> count <= s ->
  len <= count /\
  (len = count \/ ((d - len) mod 4 = 0 /\ (s - len) mod 4 = 0)).
Proof.
  unfold tail_len. rewrite lor_lmask, lxor_lmask, land_lmask.
  pose proof (Nat.div_mod_eq d 4). pose proof (Nat.div_mod_eq s 4).
  align_cases d s; simpl; intros Hcd Hcs; try (split; [lia|left; done]);
  destruct (count <=? lsize) eqn:E; simpl;
    try (apply Nat.leb_le in E); try (apply Nat.leb_gt in E); unfold lsize in *;
    (split; [lia|]); try (left; done); right; rewrite ?Nat.sub_0_r;
    try (by split);
    (split; apply Nat.Div0.mod_divides; [exists (d / 4)|exists (s / 4)]; lia).
Qed.

(** ** Correctness *)

(** The three upward loops shared by memcpy and memmove. *)
Lemma copy_up_blocks d s count m :
  d + count <= length m -> s + count <= length m -> d <= s \/ s + count <= d ->
  (m1 ← copy_up 1 (head_len d s count) d s m;
   m2 ← copy_up lsize ((count - head_len d s count) / lsize)
          (d + head_len d s count) (s + head_len d s count) m1;
   copy_up 1 (Nat.land (count - head_len d s count) lmask)
     (d + head_len d s count + (count - head_len d s count) / lsize * lsize)
     (s + head_len d s count + (count - head_len d s count) / lsize * lsize) m2)
  = Some (splice d (slice s count m) m).
Proof.
  intros Hd Hs Hov. destruct (head_len_spec d s count) as [Hle Hal].
  set (len := head_len d s count) in *. rewrite land_lmask. change lsize with 4.
  pose proof (Nat.div_mod_eq (count - len) 4) as Hdm.
  rewrite copy_up_move0 by (rewrite ?Nat.mod_1_r; lia). rewrite Nat.mul_1_r.
  cbn [mbind option_bind]. destruct Hal as [Hal|[Hald Hals]].
  { rewrite Hal, Nat.sub_diag. done. }
  rewrite copy_up_move by lia. cbn [mbind option_bind].
  replace (d + len + _) with (d + (len + (count - len) / 4 * 4)) by lia.
  replace (s + len + _) with (s + (len + (count - len) / 4 * 4)) by lia.
  rewrite copy_up_move by (rewrite ?Nat.mod_1_r; lia).
  by replace (len + (count - len) / 4 * 4 + (count - len) mod 4 * 1) with count by lia.
Qed.

(** The three downward loops of memmove. *)
Lemma copy_down_blocks d s count m :
  let e := d + count in let f := s + count in let len := tail_len e f count in
  d + count <= length m -> s + count <= length m -> s <= d \/ d + count <= s ->
  (m1 ← copy_down 1 len e f m;
   m2 ← copy_down lsize ((count - len) / lsize) (e - len) (f - len) m1;
   copy_down 1 (Nat.land (count - len) lmask)
     (e - len - (count - len) / lsize * lsize) (f - len - (count - len) / lsize * lsize) m2)
  = Some (splice d (slice s count m) m).
Proof.
  intros e f len Hd Hs Hov.
  destruct (tail_len_spec e f count) as [Hle Hal]; [lia..|].
  fold len in Hle, Hal. rewrite land_lmask. change lsize with 4.
  pose proof (Nat.div_mod_eq (count - len) 4) as Hdm.
  set (q := (count - len) / 4) in *. set (r := (count - len) mod 4) in *.
  assert (Hr : r + q * 4 + len = count) by lia.
  pose proof (copy_down_move 1 len (d + (r + q * 4)) (s + (r + q * 4)) 0 m) as H1.
  rewrite slice_0, splice_nil, !Nat.mul_1_r, Nat.add_0_r in H1.
  replace (d + (r + q * 4) + len) with e in H1 by lia.
  replace (s + (r + q * 4) + len) with f in H1 by lia.
  rewrite H1 by (rewrite ?Nat.mod_1_r; lia). cbn [mbind option_bind].
  replace (e - len) with (d + r + q * 4) by lia.
  replace (f - len) with (s + r + q * 4) by lia.
  rewrite !Nat.add_assoc.
  destruct (decide (q = 0)) as [Hq|Hq].
  - rewrite Hq. simpl. rewrite !Nat.sub_0_r.
    rewrite !(Nat.add_0_r) in *.
    pose proof (copy_down_move 1 r d s len m) as H2. rewrite Nat.mul_1_r in H2.
    rewrite H2 by (rewrite ?Nat.mod_1_r; lia). by replace (r + len) with count by lia.
  - assert (Hal' : (e - len) mod 4 = 0 /\ (f - len) mod 4 = 0).
    { destruct Hal as [Hal|Hal]; [lia|done]. }
    destruct Hal' as [Ae Af].
    replace (e - len) with (d + r + q * 4) in Ae by lia.
    replace (f - len) with (s + r + q * 4) in Af by lia.
    rewrite copy_down_move by lia. cbn [mbind option_bind].
    replace (d + r + q * 4 - q * 4) with (d + r * 1) by lia.
    replace (s + r + q * 4 - q * 4) with (s + r * 1) by lia.
    replace (d + r) with (d + r * 1) by lia. replace (s + r) with (s + r * 1) by lia.
    rewrite copy_down_move by (rewrite ?Nat.mod_1_r; lia).
    by replace (r * 1 + (q * 4 + (len + 0))) with count by lia.
Qed.

Lemma int_len_small n : (Z.of_nat n < 2 ^ 31)%Z -> int_len n = n.
Proof. intros Hn. unfold int_len. rewrite s32_small by lia. lia. Qed.

(** The signed order of two addresses on one side of the sign boundary. *)
Lemma s32_same_side a b :
  (0 <= a < 2 ^ 32)%Z -> (0 <= b < 2 ^ 32)%Z -> ((a < 2 ^ 31)%Z <-> (b < 2 ^ 31)%Z) ->
  (s32 a < s32 b)%Z <-> (a < b)%Z.
Proof.
  intros Ha Hb Hab.
  assert (Hs : forall z, (0 <= z < 2 ^ 32)%Z -> s32 z = if (z <? 2 ^ 31)%Z then z else (z - 2 ^ 32)%Z).
  { intros z Hz. destruct (Z.ltb_spec z (2 ^ 31)); [by rewrite s32_small by lia|].
    unfold s32. rewrite <- (Z.mod_unique (z + 2 ^ 31) (2 ^ 32) 1 (z + 2 ^ 31 - 2 ^ 32)) by lia. lia. }
  rewrite !Hs by done. destruct (Z.ltb_spec a (2 ^ 31)), (Z.ltb_spec b (2 ^ 31)); lia.
Qed.

(** The three counts that are kept in an [int]. *)
Lemma int_len_parts len count :
  len <= count -> (Z.of_nat count < 2 ^ 31)%Z ->
  int_len len = len /\ int_len ((count - len) / lsize) = (count - len) / lsize /\
  int_len (Nat.land (count - len) lmask) = Nat.land (count - len) lmask.
Proof.
  intros Hle Hc. rewrite land_lmask. change lsize with 4.
  pose proof (Nat.div_mod_eq (count - len) 4). split_and!; apply int_len_small; lia.
Qed.

Lemma block_move_same d count (m : list Z) : splice d (slice d count m) m = m.
Proof.
  unfold splice, slice. destruct (decide (d <= length m)) as [Hd|Hd].
  - rewrite length_take, length_drop. destruct (decide (count <= length m - d)).
    + rewrite Nat.min_l by lia. rewrite <- drop_drop, take_drop. by rewrite take_drop.
    + rewrite Nat.min_r by lia. rewrite (take_ge (drop d m)) by (rewrite length_drop; lia).
      rewrite (drop_ge m (d + (length m - d))) by lia. by rewrite app_nil_r, take_drop.
  - rewrite (drop_ge m d) by lia. rewrite take_nil. simpl. rewrite Nat.add_0_r, (drop_ge m d) by lia.
    by rewrite app_nil_r, take_ge by lia.
Qed.

(** memcpy equals the byte-wise copy when the blocks do not overlap, or when
    the destination starts below the source. *)
Lemma memcpy_spec dest src count m :
  (Z.of_nat count < 2 ^ 31)%Z ->
  dest + count <= length m -> src + count <= length m -> dest <= src \/ src + count <= dest ->
  memcpy dest src count m = Some (splice dest (slice src count m) m).
Proof.
  intros Hc Hd Hs Hov. unfold memcpy.
  destruct (count =? 0) eqn:E0; simpl.
  { apply Nat.eqb_eq in E0 as ->. by rewrite slice_0, splice_nil. }
  destruct (dest =? src) eqn:E1; simpl; [apply Nat.eqb_eq in E1 as ->; by rewrite block_move_same|].
  destruct (head_len_spec dest src count) as [Hle _].
  destruct (int_len_parts _ _ Hle Hc) as (-> & -> & ->). by apply copy_up_blocks.
Qed.

(** C34: memmove is a block move: whatever the alignment and the overlap of the
    two blocks, its byte, word and tail loops (upwards or downwards) make only
    aligned word accesses inside the memory and leave in the destination the
    bytes the source held before the call, everything else unchanged.  The count has to
    fit an [int], and blocks that overlap have to start on the same side of
    0x80000000, since the direction is chosen by a signed comparison. *)
Theorem memmove_correct dest src count m :
  (Z.of_nat (length m) <= 2 ^ 32)%Z -> (Z.of_nat count < 2 ^ 31)%Z ->
  ((Z.of_nat dest < 2 ^ 31)%Z <-> (Z.of_nat src < 2 ^ 31)%Z) \/ dest + count <= src \/ src + count <= dest ->
  dest + count <= length m -> src + count <= length m ->
  memmove dest src count m = Some (splice dest (slice src count m) m).
Proof.
  intros Hm Hc Hside Hd Hs. unfold memmove.
  destruct (count =? 0) eqn:E0; simpl.
  { apply Nat.eqb_eq in E0 as ->. by rewrite slice_0, splice_nil. }
  destruct (dest =? src) eqn:E1; simpl; [apply Nat.eqb_eq in E1 as ->; by rewrite block_move_same|].
  apply Nat.eqb_neq in E0, E1.
  destruct (s32 (Z.of_nat dest) <? s32 (Z.of_nat src))%Z eqn:Elt.
  - destruct (head_len_spec dest src count) as [Hle _].
    destruct (int_len_parts _ _ Hle Hc) as (-> & -> & ->). apply copy_up_blocks; [lia..|].
    destruct Hside as [Hside|Hside]; [left|lia]. apply Z.ltb_lt in Elt.
    pose proof (s32_same_side (Z.of_nat dest) (Z.of_nat src)). lia.
  - destruct (tail_len_spec (dest + count) (src + count) count) as [Hle _]; [lia..|].
    destruct (int_len_parts _ _ Hle Hc) as (-> & -> & ->). apply copy_down_blocks; [lia..|].
    destruct Hside as [Hside|Hside]; [left|lia]. apply Z.ltb_ge in Elt.
    pose proof (s32_same_side (Z.of_nat dest) (Z.of_nat src)). lia.
Qed.

Lemma memmove_correct_witness :
  memmove 5 2 6 [1; 2; 3; 4; 5; 6; 7; 8; 9; 10; 11; 12]%Z
  = Some [1; 2; 3; 4; 5; 3; 4; 5; 6; 7; 8; 12]%Z.
Proof. rewrite memmove_correct by (simpl; lia). reflexivity. Defined.

(** ** memset *)

Lemma set_bytes_spec len xs c m :
  xs + len <= length m ->
  set_bytes len xs c m = Some (splice xs (replicate len (u8 c)) m).
Proof.
  revert xs m. induction len as [|len IH]; intros xs m Hlen; simpl.
  - by rewrite splice_nil.
  - rewrite (proj2 (Nat.ltb_lt _ _)) by lia.
    rewrite IH by (rewrite length_insert; lia). f_equal. apply list_eq. intros i.
    rewrite !lookup_splice by (rewrite ?length_insert; simpl; rewrite ?length_replicate; lia).
    simpl. rewrite length_replicate.
    destruct (decide (i = xs)) as [->|Hne].
    + rewrite decide_False by lia. rewrite decide_True by lia.
      rewrite Nat.sub_diag. simpl. by rewrite list_lookup_insert_eq by lia.
    + rewrite list_lookup_insert_ne by done. repeat case_decide; try lia; [|done].
      replace (i - xs) with (S (i - S xs)) by lia. done.
Qed.

(** The word [cc] built by memset is the byte [c] four times over. *)
Lemma fill_word c :
  let cc := Z.land c 255 in
  let cc := Z.lor cc (u32 (Z.shiftl cc 8)) in
  le_encode lsize (Z.lor cc (u32 (Z.shiftl cc 16))) = replicate lsize (u8 c).
Proof.
  assert (Hall : Forall (fun b =>
    let cc := Z.lor b (u32 (Z.shiftl b 8)) in
    le_encode lsize (Z.lor cc (u32 (Z.shiftl cc 16))) = replicate lsize b)
    (seqZ 0 256)) by (apply (bool_decide_unpack _); by vm_compute).
  rewrite Forall_forall in Hall. intros.
  assert (Hc : cc = u8 c) by exact (Z.land_ones c 8 ltac:(lia)).
  subst cc. subst cc0. rewrite Hc. apply (Hall (u8 c)), elem_of_seqZ.
  unfold u8. pose proof (Z.mod_pos_bound c (2 ^ 8)). lia.
Qed.

(** Two adjacent fills make one. *)
Lemma splice_fill {A} xs n k (b : A) m :
  xs + n + k <= length m ->
  splice (xs + n) (replicate k b) (splice xs (replicate n b) m)
  = splice xs (replicate (n + k) b) m.
Proof.
  intros. rewrite replicate_add, <- splice_splice_app by (rewrite !length_replicate; lia).
  by rewrite length_replicate.
Qed.

Lemma set_words_spec len xs cc b m :
  le_encode lsize cc = replicate lsize b ->
  xs + len * lsize <= length m -> xs mod 4 = 0 ->
  set_words len xs cc m = Some (splice xs (replicate (len * lsize) b) m).
Proof.
  intros Hcc. revert xs m. induction len as [|len IH]; intros xs m Hlen Hal.
  - simpl. by rewrite splice_nil.
  - cbn [set_words]. rewrite Hcc. unfold lsize in *.
    rewrite (proj2 (Nat.eqb_eq _ _) Hal), (proj2 (Nat.leb_le _ _)) by lia. cbn [andb].
    rewrite IH;
      [|rewrite length_splice; rewrite ?length_replicate; lia|by apply mod_add_self].
    by rewrite splice_fill by lia.
Qed.

(** memset fills exactly [count] bytes with the low byte of [c]: its
    unaligned head, its word-wise body and its tail together equal the
    byte-by-byte fill, with every word store aligned and inside the memory. *)
Theorem memset_correct s c count m :
  s + count <= length m ->
  memset s c count m = Some (splice s (replicate count (u8 c)) m).
Proof.
  intros Hlen. unfold memset.
  set (len := Z.to_nat (Z.land (u32 (- Z.of_nat s)) (Z.of_nat lsize - 1))).
  assert (Hland : (s + len) mod 4 = 0).
  { unfold len. replace (Z.of_nat lsize - 1)%Z with (Z.ones 2) by done.
    rewrite Z.land_ones by lia. unfold u32.
    rewrite <- (Znumtheory.Zmod_div_mod (2 ^ 2) (2 ^ 32)) by (lia || by exists (2 ^ 30)%Z).
    pose proof (Z.mod_pos_bound (- Z.of_nat s) 4 ltac:(lia)) as Hb.
    apply Nat2Z.inj. rewrite Nat2Z.inj_mod, Nat2Z.inj_add.
    change (2 ^ 2)%Z with 4%Z. rewrite Z2Nat.id by lia. change (Z.of_nat 4) with 4%Z.
    rewrite Z.add_mod_idemp_r by lia. by rewrite Z.add_opp_diag_r. }
  destruct (len <? count) eqn:E; [|by apply set_bytes_spec].
  apply Nat.ltb_lt in E. rewrite set_bytes_spec by lia. cbn [mbind option_bind].
  pose proof (Nat.div_mod_eq (count - len) 4) as Hdm. rewrite land_lmask.
  rewrite (set_words_spec _ _ _ _ _ (fill_word c));
    [|rewrite length_splice; rewrite ?length_replicate; unfold lsize; lia|done].
  cbn [mbind option_bind]. change lsize with 4. rewrite splice_fill by lia.
  rewrite set_bytes_spec by (rewrite length_splice; rewrite ?length_replicate; lia).
  f_equal. rewrite <- Nat.add_assoc, splice_fill by lia. do 2 f_equal. lia.
Qed.

Lemma memset_correct_witness :
  memset 3 (-1) 9 (replicate 14 0%Z)
  = Some (replicate 3 0%Z ++ replicate 9 255%Z ++ replicate 2 0%Z).
Proof. rewrite memset_correct by (simpl; lia). reflexivity. Defined.

(** ** memcmp *)

(** memcmp returns 0 exactly on equal blocks: the truncation of a byte
    difference to [signed char] never hides a difference. *)
Lemma memcmp_eq cs ct count :
  bytes_ok cs -> bytes_ok ct -> count <= length cs -> count <= length ct ->
  exists r, memcmp cs ct count = Some r /\ (r = 0%Z <-> take count cs = take count ct).
Proof.
  revert cs ct. induction count as [|count IH]; intros cs ct Hcs Hct Lc Lt; simpl.
  - exists 0%Z. split; [done|]. split; intros _; by rewrite ?take_0.
  - destruct cs as [|a cs], ct as [|b ct]; simpl in Lc, Lt; try lia.
    apply Forall_cons in Hcs as [Ha Hcs]. apply Forall_cons in Hct as [Hb Hct].
    unfold is_byte in *.
    pose proof (s8_eq_0 (a - b) ltac:(lia)) as Hs.
    destruct (s8 (a - b) =? 0)%Z eqn:E.
    + apply Z.eqb_eq, Hs in E. assert (a = b) as -> by lia.
      destruct (IH cs ct) as (r & Hr & Hiff); auto; try lia.
      exists r. split; [done|]. rewrite Hiff. simpl. split; [by intros ->|by intros [=]].
    + exists (s8 (a - b)). apply Z.eqb_neq in E. split; [done|]. split; [done|].
      simpl. intros [= Hab _]. apply Hs. lia.
Qed.
