(* ===== verification/CString.v ===== *)
(** * lib/libc/string: the string routines the installer and the kernel use

    A [char const *] is the list of bytes from the pointer to the end of the
    object it points into; running off that end is [None].  A [char *] that is
    written through is the same, and the result is the object afterwards.  A
    returned pointer is an offset from the argument ([None] inside is NULL). *)

From S2P Require Import Prelude CMem.
From stdpp Require Import prelude list.
From Stdlib Require Import ZArith Lia.

Open Scope nat_scope.

(** ** Definitions *)

Fixpoint strlen (s : list Z) : option nat :=
  match s with
  | [] => None
  | c :: s' => if (c =? 0)%Z then Some 0 else S <$> strlen s'
  end.

Fixpoint strnlen (s : list Z) (count : nat) {struct count} : option nat :=
  match count with
  | O => Some 0
  | S count' =>
      match s with
      | [] => None
      | c :: s' => if (c =? 0)%Z then Some 0 else S <$> strnlen s' count'
      end
  end.

Fixpoint strcmp (cs ct : list Z) : option Z :=
  match cs, ct with
  | a :: cs', b :: ct' =>
      let res := s8 (a - b) in
      if negb (res =? 0)%Z || (a =? 0)%Z then Some res else strcmp cs' ct'
  | _, _ => None
  end.

Fixpoint strncmp (cs ct : list Z) (count : nat) {struct count} : option Z :=
  match count with
  | O => Some 0%Z
  | S count' =>
      match cs, ct with
      | a :: cs', b :: ct' =>
          let res := s8 (a - b) in
          if negb (res =? 0)%Z || (a =? 0)%Z then Some res else strncmp cs' ct' count'
      | _, _ => None
      end
  end.

Definition strcoll (s1 s2 : list Z) : option Z := strcmp s1 s2.

Fixpoint strchr (s : list Z) (c : Z) : option (option nat) :=
  match s with
  | [] => None
  | x :: s' =>
      if (x =? u8 c)%Z then Some (Some 0)
      else if (x =? 0)%Z then Some None
      else option_map S <$> strchr s' c
  end.

(** The loop of strrchr: [pos] is the offset of [s], [last] the last match. A
    [char] is signed on this target, and [c] is not converted to [char]. *)
Fixpoint strrchr_loop (s : list Z) (c : Z) (pos : nat) (last : option nat)
    : option (option nat) :=
  match s with
  | [] => None
  | x :: s' =>
      if (x =? 0)%Z then Some last
      else strrchr_loop s' c (S pos) (if (s8 x =? c)%Z then Some pos else last)
  end.

Definition strrchr (s : list Z) (c : Z) : option (option nat) :=
  strrchr_loop s c 0 (if (c =? 0)%Z then Some 0 else None).

(** [while (l1 >= l2) { l1--; ... s1++; }]: [n] is [l1 - l2 + 1]. *)
Fixpoint strstr_loop (n : nat) (s1 s2 : list Z) (l2 : nat) {struct n} : option (option nat) :=
  match n with
  | O => Some None
  | S n' =>
      r ← memcmp s1 s2 l2;
      if (r =? 0)%Z then Some (Some 0) else option_map S <$> strstr_loop n' (tail s1) s2 l2
  end.

Definition strstr (s1 s2 : list Z) : option (option nat) :=
  l2 ← strlen s2;
  if l2 =? 0 then Some (Some 0)
  else l1 ← strlen s1; strstr_loop (S l1 - l2) s1 s2 l2.

(** The inner loop of strspn and strpbrk: does [set] hold the character [p]? *)
Fixpoint in_set (p : Z) (set : list Z) : option bool :=
  match set with
  | [] => None
  | a :: set' =>
      if (a =? 0)%Z then Some false else if (p =? a)%Z then Some true else in_set p set'
  end.

Fixpoint strspn (s accept : list Z) : option nat :=
  match s with
  | [] => None
  | p :: s' =>
      if (p =? 0)%Z then Some 0
      else b ← in_set p accept; if (b : bool) then S <$> strspn s' accept else Some 0
  end.

Fixpoint strpbrk (cs ct : list Z) : option (option nat) :=
  match cs with
  | [] => None
  | p :: cs' =>
      if (p =? 0)%Z then Some None
      else b ← in_set p ct;
           if (b : bool) then Some (Some 0) else option_map S <$> strpbrk cs' ct
  end.

(** strtok over one buffer [m]: [s] and the static [___strtok] are offsets into
    it ([None] is NULL).  The result is the token, the new [___strtok] and the
    buffer. *)
Definition strtok (s : option nat) (ct : list Z) (saved : option nat) (m : list Z)
    : option (option nat * option nat * list Z) :=
  match (match s with Some p => Some p | None => saved end) with
  | None => Some (None, saved, m)
  | Some sbegin =>
      n ← strspn (drop sbegin m) ct;
      let sbegin := sbegin + n in
      c ← m !! sbegin;
      if (c =? 0)%Z then Some (None, None, m)
      else
        send ← strpbrk (drop sbegin m) ct;
        match send with
        | Some k => Some (Some sbegin, Some (sbegin + k + 1), <[sbegin + k := 0%Z]> m)
        | None => Some (Some sbegin, None, m)
        end
  end.

(** A bounds-checked [dest[i] = c]. *)
Definition store (i : nat) (c : Z) (m : list Z) : option (list Z) :=
  if i <? length m then Some (<[i:=c]> m) else None.

(** The loop that copies up to and including the terminator, from offset [d] of
    the object [m]. *)
Fixpoint strcpy_loop (d : nat) (src m : list Z) : option (list Z) :=
  match src with
  | [] => None
  | c :: src' => m' ← store d c m; if (c =? 0)%Z then Some m' else strcpy_loop (S d) src' m'
  end.

Definition strcpy (dest src : list Z) : option (list Z) := strcpy_loop 0 src dest.

Definition strcat (dest src : list Z) : option (list Z) :=
  d ← strlen dest; strcpy_loop d src dest.

Fixpoint strncat_loop (d : nat) (src m : list Z) (count : nat) {struct src} : option (list Z) :=
  match src with
  | [] => None
  | c :: src' =>
      m' ← store d c m;
      if (c =? 0)%Z then Some m'
      else if count - 1 =? 0 then store (S d) 0%Z m'
      else strncat_loop (S d) src' m' (count - 1)
  end.

Definition strncat (dest src : list Z) (count : nat) : option (list Z) :=
  if 0 <? count then d ← strlen dest; strncat_loop d src dest count else Some dest.

(** The copying loop of strncpy; yields the final [i] and the object. *)
Fixpoint strncpy_loop (rem i : nat) (src m : list Z) {struct rem} : option (nat * list Z) :=
  match rem with
  | O => Some (S i, m)
  | S rem' =>
      match src with
      | [] => None
      | c :: src' =>
          m' ← store i c m;
          if (c =? 0)%Z then Some (S i, m') else strncpy_loop rem' (S i) src' m'
      end
  end.

Fixpoint store_zeros (n d : nat) (m : list Z) {struct n} : option (list Z) :=
  match n with
  | O => Some m
  | S n' => m' ← store d 0%Z m; store_zeros n' (S d) m'
  end.

Definition strncpy (dest src : list Z) (count : nat) : option (list Z) :=
  '(i, m) ← strncpy_loop count 0 src dest; store_zeros (count - i) i m.

(** [for (i = 0; i < s - 1 && src[i]; i++) dst[i] = src[i]] from offset [d];
    [n] is [s - 1 - i].  Yields the final [i] and the object. *)
Fixpoint bounded_copy (n i d : nat) (src m : list Z) {struct n} : option (nat * list Z) :=
  match n with
  | O => Some (i, m)
  | S n' =>
      c ← src !! i;
      if (c =? 0)%Z then Some (i, m)
      else m' ← store (d + i) c m; bounded_copy n' (S i) d src m'
  end.

Definition strlcpy (dst src : list Z) (s : nat) : option (nat * list Z) :=
  if s =? 0 then n ← strlen src; Some (n, dst)
  else
    '(i, m) ← bounded_copy (s - 1) 0 0 src dst;
    m ← store i 0%Z m;
    n ← strlen (drop i src);
    Some (i + n, m).

Definition strlcat (dst src : list Z) (s : nat) : option (nat * list Z) :=
  j ← strnlen dst s;
  if s =? 0 then n ← strlen src; Some (j + n, dst)
  else
    '(i, m) ← bounded_copy (s - 1) 0 j src dst;
    m ← store (j + i) 0%Z m;
    n ← strlen (drop i src);
    Some (j + i + n, m).

Definition strxfrm (dest src : list Z) (n : nat) : option (nat * list Z) :=
  len ← strlen src;
  if n =? 0 then Some (len, dest)
  else
    let copy_len := if len <? n then len else n - 1 in
    if copy_len <=? length dest then
      m ← store copy_len 0%Z (splice 0 (take copy_len src) dest); Some (len, m)
    else None.

(** [malloc] yields a fresh object of the requested size, or NULL. *)
Definition strdup (malloc : nat -> option (list Z)) (str : list Z)
    : option (option (list Z)) :=
  n ← strlen str;
  let len := n + 1 in
  match malloc len with
  | None => Some None
  | Some copy => if len <=? length copy then Some (Some (splice 0 (take len str) copy)) else None
  end.

(** atol and hexval of lib/libc/atoi.c. *)
Definition isdigit (c : Z) : bool := ((48 <=? c) && (c <=? 57))%Z.
Definition isxdigit (c : Z) : bool :=
  (isdigit c || ((97 <=? c) && (c <=? 102)) || ((65 <=? c) && (c <=? 70)))%Z.

Definition hexval (c : Z) : Z :=
  if ((48 <=? c) && (c <=? 57))%Z then (c - 48)%Z
  else if ((97 <=? c) && (c <=? 102))%Z then (c - 97 + 10)%Z
  else if ((65 <=? c) && (c <=? 70))%Z then (c - 65 + 10)%Z
  else 0%Z.

Fixpoint atol_digits (base : Z) (digit : Z -> bool) (val : Z -> Z) (num : list Z) (value : Z)
    : option Z :=
  match num with
  | [] => None
  | c :: num' =>
      if negb (c =? 0)%Z && digit c
      then atol_digits base digit val num' (s32 (value * base + val c))
      else Some value
  end.

Definition atol (num : list Z) : option Z :=
  c0 ← num !! 0;
  hex ← (if (c0 =? 48)%Z then c1 ← num !! 1; Some (c1 =? 120)%Z else Some false);
  if (hex : bool) then atol_digits 16 isxdigit hexval (drop 2 num) 0
  else if (c0 =? 45)%Z then
    v ← atol_digits 10 isdigit (fun c => (c - 48)%Z) (drop 1 num) 0; Some (s32 (- v))
  else atol_digits 10 isdigit (fun c => (c - 48)%Z) num 0.

Definition atoi (num : list Z) : option Z := atol num.

(** ** C strings *)

(** [cstr s m]: the object [m] starts with the string [s] and its terminator. *)
Definition no_nul (s : list Z) : Prop := Forall (fun c => c <> 0%Z) s.
Definition cstr (s m : list Z) : Prop := no_nul s /\ exists rest, m = s ++ 0%Z :: rest.

#[export] Hint Unfold no_nul : lk.

Lemma cstr_intro s rest : no_nul s -> cstr s (s ++ 0%Z :: rest).
Proof. intros. split; [done|]. by exists rest. Qed.

Lemma cstr_cons c s m : cstr (c :: s) m -> exists m', m = c :: m' /\ cstr s m' /\ c <> 0%Z.
Proof.
  intros [Hn [rest ->]]. apply Forall_cons in Hn as [Hc Hn].
  exists (s ++ 0%Z :: rest). split; [done|]. split; [by apply cstr_intro|done].
Qed.

Lemma cstr_nil m : cstr [] m -> exists m', m = 0%Z :: m'.
Proof. intros [_ [rest ->]]. by exists rest. Qed.

Lemma cstr_lookup s m i : cstr s m -> i < length s -> m !! i = s !! i.
Proof. intros [_ [rest ->]] Hi. by rewrite lookup_app_l. Qed.

Lemma cstr_lookup_end s m : cstr s m -> m !! length s = Some 0%Z.
Proof. intros [_ [rest ->]]. by rewrite lookup_app_r, Nat.sub_diag. Qed.

Lemma cstr_drop s m i : cstr s m -> i <= length s -> cstr (drop i s) (drop i m).
Proof.
  intros [Hn [rest ->]] Hi. split; [by apply Forall_drop|].
  exists rest. by rewrite drop_app_le.
Qed.

Lemma cstr_length s m : cstr s m -> length s < length m.
Proof. intros [_ [rest ->]]. rewrite length_app. simpl. lia. Qed.

(** Walks down a string by its cases: the terminator, or one more character. *)
Ltac cstr_cases H :=
  first
  [ let m' := fresh "m" in apply cstr_nil in H as (m' & ->)
  | let m' := fresh "m" in let Hc := fresh "Hc" in
    apply cstr_cons in H as (m' & -> & H & Hc) ].

(** Shows that a concrete object starts with a concrete string. *)
Ltac cstr_concrete :=
  split; [repeat (constructor; try lia) | eexists; reflexivity].

Ltac nonzero :=
  repeat match goal with
  | H : ?c <> 0%Z |- context [(?c =? 0)%Z] => rewrite (proj2 (Z.eqb_neq c 0) H)
  end.

Lemma strlen_cstr s m : cstr s m -> strlen m = Some (length s).
Proof.
  revert m. induction s as [|c s IH]; intros m H; cstr_cases H; simpl; [done|].
  nonzero. by rewrite (IH _ H).
Qed.

Lemma strnlen_cstr s m n : cstr s m -> strnlen m n = Some (min n (length s)).
Proof.
  revert m n. induction s as [|c s IH]; intros m [|n] H; cstr_cases H; simpl; try done.
  nonzero. by rewrite (IH _ _ H).
Qed.

(** ** strcmp *)

Fixpoint lex (s t : list Z) : comparison :=
  match s, t with
  | [], [] => Eq
  | [], _ :: _ => Lt
  | _ :: _, [] => Gt
  | a :: s', b :: t' => match (a ?= b)%Z with Eq => lex s' t' | c => c end
  end.

Definition ascii (s : list Z) : Prop := Forall (fun c => 0 < c < 128)%Z s.

Lemma lex_eq s t : lex s t = Eq <-> s = t.
Proof.
  revert t. induction s as [|a s IH]; intros [|b t]; simpl; try done.
  destruct (a ?= b)%Z eqn:E.
  - apply Z.compare_eq in E as ->. rewrite IH. split; [by intros ->|by intros [=]].
  - split; [done|]. intros [= -> _]. by rewrite Z.compare_refl in E.
  - split; [done|]. intros [= -> _]. by rewrite Z.compare_refl in E.
Qed.

Lemma strcmp_eq s t m n :
  bytes_ok s -> bytes_ok t -> cstr s m -> cstr t n ->
  exists r, strcmp m n = Some r /\ (r = 0%Z <-> s = t).
Proof.
  revert t m n. induction s as [|a s IH]; intros [|b t] m n Hs Ht Hm Hn;
    cstr_cases Hm; cstr_cases Hn; cbn [strcmp]; cbv zeta.
  - by exists 0%Z.
  - apply Forall_cons in Ht as [Hb _]. unfold is_byte in Hb.
    pose proof (s8_eq_0 (0 - b) ltac:(lia)) as H0.
    exists (s8 (0 - b)). rewrite Z.eqb_refl, orb_true_r. split; [done|]. split; [|done]. intros; exfalso; lia.
  - apply Forall_cons in Hs as [Ha _]. unfold is_byte in Ha.
    pose proof (s8_eq_0 (a - 0) ltac:(lia)) as H0.
    rewrite (proj2 (Z.eqb_neq (s8 (a - 0)) 0)) by lia. simpl.
    eexists. split; [done|]. split; [|done]. intros; exfalso; lia.
  - apply Forall_cons in Hs as [Ha Hs]. apply Forall_cons in Ht as [Hb Ht].
    unfold is_byte in Ha, Hb. pose proof (s8_eq_0 (a - b) ltac:(lia)) as H0. nonzero.
    destruct (s8 (a - b) =? 0)%Z eqn:E; simpl.
    + apply Z.eqb_eq, H0 in E. assert (a = b) as -> by lia.
      destruct (IH t _ _ Hs Ht Hm Hn) as (r & -> & Hr). exists r. split; [done|].
      rewrite Hr. split; [by intros ->|by intros [=]].
    + apply Z.eqb_neq in E. eexists. split; [done|]. split; [done|].
      intros [= -> _]. lia.
Qed.

(** On ASCII strings strcmp is the lexicographic order, sign included: the
    [signed char] it accumulates the byte difference in does not overflow there.
    (Beyond ASCII it does: see [strcmp_sign_beyond_ascii].) *)
Theorem strcmp_lexicographic s t m n :
  ascii s -> ascii t -> cstr s m -> cstr t n ->
  exists r, strcmp m n = Some r /\ (r ?= 0)%Z = lex s t.
Proof.
  revert t m n. induction s as [|a s IH]; intros [|b t] m n Hs Ht Hm Hn;
    cstr_cases Hm; cstr_cases Hn; cbn [strcmp]; cbv zeta.
  - by exists 0%Z.
  - apply Forall_cons in Ht as [Hb _]. rewrite s8_small, Z.eqb_refl, orb_true_r by lia.
    eexists. split; [done|]. apply Z.compare_lt_iff. lia.
  - apply Forall_cons in Hs as [Ha _]. rewrite s8_small by lia.
    rewrite (proj2 (Z.eqb_neq (a - 0) 0)) by lia. simpl.
    eexists. split; [done|]. apply Z.compare_gt_iff. lia.
  - apply Forall_cons in Hs as [Ha Hs]. apply Forall_cons in Ht as [Hb Ht].
    rewrite s8_small by lia. nonzero. rewrite orb_false_r. cbn [lex].
    destruct (a ?= b)%Z eqn:E.
    + apply Z.compare_eq in E as ->. rewrite Z.sub_diag. simpl. by apply IH.
    + rewrite Z.compare_lt_iff in E. rewrite (proj2 (Z.eqb_neq (a - b) 0)) by lia. simpl.
      eexists. split; [done|]. apply Z.compare_lt_iff. lia.
    + rewrite Z.compare_gt_iff in E. rewrite (proj2 (Z.eqb_neq (a - b) 0)) by lia. simpl.
      eexists. split; [done|]. apply Z.compare_gt_iff. lia.
Qed.

Lemma strcmp_lexicographic_witness :
  exists r, strcmp [107; 100; 0]%Z [107; 110; 0; 7]%Z = Some r
            /\ (r ?= 0)%Z = lex [107; 100]%Z [107; 110]%Z.
Proof.
  apply strcmp_lexicographic; try (repeat constructor; lia).
  all: cstr_concrete.
Defined.

(** A byte difference of 128 or more changes sign: strcmp puts the string
    "\xE9" before "A". *)
Lemma strcmp_sign_beyond_ascii : strcmp [233; 0]%Z [65; 0]%Z = Some (-88)%Z.
Proof. reflexivity. Qed.


(** strrchr(s, 0) yields the start of the string, not its terminator. *)
Lemma strrchr_nul s m : bytes_ok s -> cstr s m -> strrchr m 0 = Some (Some 0).
Proof.
  intros Hb H. unfold strrchr. simpl.
  assert (G : forall p l, strrchr_loop m 0 p l = Some l); [|apply G].
  revert m Hb H. induction s as [|c s IH]; intros m Hb H p l; cstr_cases H; simpl; [done|].
  apply Forall_cons in Hb as [Hc' Hb]. unfold is_byte in Hc'. nonzero.
  rewrite (proj2 (Z.eqb_neq (s8 c) 0)); [by apply IH|].
  rewrite s8_eq_0 by lia. done.
Qed.

(** ** Searching *)

Lemma strchr_found s c rest :
  no_nul s -> c ∉ s -> (0 < c < 256)%Z -> strchr (s ++ c :: rest) c = Some (Some (length s)).
Proof.
  intros Hn Hc Hr. induction s as [|x s IH]; simpl.
  - unfold u8. by rewrite Z.mod_small, Z.eqb_refl by lia.
  - apply Forall_cons in Hn as [Hx Hn]. apply not_elem_of_cons in Hc as [Hxc Hc].
    unfold u8 in *. rewrite Z.mod_small in * by lia.
    rewrite (proj2 (Z.eqb_neq x c)) by congruence. nonzero.
    by rewrite IH.
Qed.

Lemma strchr_none s m c :
  cstr s m -> c ∉ s -> (0 < c < 256)%Z -> strchr m c = Some None.
Proof.
  intros H Hc Hr. assert (Hu : u8 c = c) by (apply Z.mod_small; lia).
  revert m H. induction s as [|x s IH]; intros m H; cstr_cases H; cbn [strchr]; rewrite Hu.
  - by rewrite (proj2 (Z.eqb_neq 0 c)) by lia.
  - apply not_elem_of_cons in Hc as [Hxc Hc].
    rewrite (proj2 (Z.eqb_neq x c)) by congruence. nonzero. by rewrite IH.
Qed.

Lemma in_set_true p set m : cstr set m -> p ∈ set -> in_set p m = Some true.
Proof.
  revert m. induction set as [|a set IH]; intros m H Hp; [by apply elem_of_nil in Hp|].
  cstr_cases H. simpl. nonzero. destruct (p =? a)%Z eqn:E; [done|].
  apply IH; [done|]. apply Z.eqb_neq in E. by apply elem_of_cons in Hp as [->|Hp].
Qed.

Lemma in_set_false p set m : cstr set m -> p ∉ set -> in_set p m = Some false.
Proof.
  revert m. induction set as [|a set IH]; intros m H Hp; cstr_cases H; simpl; [done|].
  apply not_elem_of_cons in Hp as [Hpa Hp]. nonzero.
  rewrite (proj2 (Z.eqb_neq p a)) by done. by apply IH.
Qed.

Section tokens.
Context (set ct : list Z) (Hct : cstr set ct).

(** A run of delimiters before a non-delimiter is skipped. *)
Lemma strspn_run ds x rest :
  no_nul ds -> Forall (fun c => c ∈ set) ds -> x ∉ set \/ x = 0%Z ->
  strspn (ds ++ x :: rest) ct = Some (length ds).
Proof.
  intros Hn Hds Hx. induction ds as [|d ds IH]; simpl.
  - destruct (x =? 0)%Z eqn:E; [done|]. apply Z.eqb_neq in E.
    destruct Hx as [Hx|Hx]; [|done]. by rewrite (in_set_false _ _ _ Hct Hx).
  - apply Forall_cons in Hn as [Hd0 Hn]. apply Forall_cons in Hds as [Hd Hds]. nonzero.
    rewrite (in_set_true _ _ _ Hct Hd). simpl. by rewrite IH.
Qed.

(** strpbrk stops at the first delimiter. *)
Lemma strpbrk_found s d rest :
  no_nul s -> Forall (fun c => c ∉ set) s -> d ∈ set -> d <> 0%Z ->
  strpbrk (s ++ d :: rest) ct = Some (Some (length s)).
Proof.
  intros Hn Hs Hd Hd0. induction s as [|x s IH]; simpl.
  - nonzero. by rewrite (in_set_true _ _ _ Hct Hd).
  - apply Forall_cons in Hn as [Hx Hn]. apply Forall_cons in Hs as [Hxs Hs]. nonzero.
    rewrite (in_set_false _ _ _ Hct Hxs). simpl. by rewrite IH.
Qed.

Lemma drop_middle {A} (pre mid rest : list A) : drop (length pre) (pre ++ mid ++ rest) = mid ++ rest.
Proof. by rewrite drop_app_length. Qed.

(** One call of strtok: from [p], skip the delimiters [ds], return the token
    [tok], overwrite the delimiter after it and save the place behind it. *)
Lemma strtok_token pre ds tok d rest saved (first : bool) :
  let p := length pre in
  no_nul ds -> Forall (fun c => c ∈ set) ds ->
  no_nul tok -> tok <> [] -> Forall (fun c => c ∉ set) tok -> d ∈ set -> d <> 0%Z ->
  saved = Some p \/ first = true ->
  strtok (if first then Some p else None) ct saved (pre ++ ds ++ tok ++ d :: rest)
  = Some (Some (p + length ds), Some (p + length ds + length tok + 1),
          pre ++ ds ++ tok ++ 0%Z :: rest).
Proof.
  intros p Hnd Hds Hnt Htok Hts Hd Hd0 Hsrc. subst p. unfold strtok.
  destruct tok as [|x tok]; [done|].
  assert (Hx : x <> 0%Z) by (by apply Forall_cons in Hnt as [? _]).
  assert (Hxs : x ∉ set) by (by apply Forall_cons in Hts as [? _]).
  replace (match (if first then Some (length pre) else None)
           with Some p => Some p | None => saved end) with (Some (length pre)) by (destruct first, Hsrc; congruence).
  rewrite drop_app_length. cbn [app]. rewrite strspn_run by (auto).
  cbn [mbind option_bind].
  assert (Hlk : (pre ++ ds ++ x :: tok ++ d :: rest) !! (length pre + length ds) = Some x).
  { rewrite app_assoc, lookup_app_r by (rewrite length_app; lia).
    rewrite length_app, Nat.sub_diag. done. }
  rewrite Hlk. cbn [mbind option_bind]. nonzero.
  rewrite app_assoc. rewrite <- length_app, drop_app_length.
  change (x :: tok ++ d :: rest) with ((x :: tok) ++ d :: rest).
  rewrite strpbrk_found by done. cbn [mbind option_bind]. do 2 f_equal.
  rewrite insert_app_r. rewrite <- !app_assoc. do 2 f_equal.
  rewrite <- (Nat.add_0_r (length (x :: tok))), insert_app_r. done.
Qed.

(** No token is left: only delimiters before the terminator. *)
Lemma strtok_end pre ds rest saved :
  no_nul ds -> Forall (fun c => c ∈ set) ds -> saved = Some (length pre) ->
  strtok None ct saved (pre ++ ds ++ 0%Z :: rest) = Some (None, None, pre ++ ds ++ 0%Z :: rest).
Proof.
  intros Hnd Hds ->. unfold strtok. rewrite drop_app_length, strspn_run by auto.
  cbn [mbind option_bind]. rewrite app_assoc, lookup_app_r by (rewrite length_app; lia).
  by rewrite length_app, Nat.sub_diag.
Qed.
End tokens.

(** ** Bounded copies *)

Lemma bounded_copy_spec n i d t src m :
  cstr t src -> i <= length t ->
  let k := min (i + n) (length t) in
  bounded_copy n i d src m =
    if decide (d + k <= length m \/ k = i)
    then Some (k, splice (d + i) (slice i (k - i) t) m) else None.
Proof.
  intros Hsrc. revert i m. induction n as [|n IH]; intros i m Hi k; unfold k.
  - rewrite Nat.add_0_r, Nat.min_l, Nat.sub_diag by lia.
    rewrite decide_True by lia. simpl. by rewrite splice_nil.
  - cbn [bounded_copy]. destruct (decide (i = length t)) as [->|Hne].
    + rewrite (cstr_lookup_end _ _ Hsrc). simpl.
      rewrite Nat.min_r, Nat.sub_diag by lia. rewrite decide_True by lia.
      simpl. by rewrite splice_nil.
    + destruct (lookup_lt_is_Some_2 t i ltac:(lia)) as [c Hc].
      rewrite (cstr_lookup t src i Hsrc) by lia. rewrite Hc. cbn [mbind option_bind].
      assert (Hc0 : c <> 0%Z).
      { destruct Hsrc as [Hn _]. eapply Forall_lookup_1 in Hn; eauto. }
      nonzero. unfold store.
      destruct (decide (d + i < length m)) as [Hdi|Hdi].
      * rewrite (proj2 (Nat.ltb_lt _ _)) by lia. cbn [mbind option_bind].
        rewrite IH by lia. rewrite length_insert.
        replace (S i + n) with (i + S n) by lia.
        destruct (decide (d + min (i + S n) (length t) <= length m)) as [Hfit|Hfit].
        2: { rewrite !decide_False by lia. done. }
        rewrite !decide_True by lia. do 2 f_equal.
        set (k' := min (i + S n) (length t)) in *.
        assert (Hsl : slice i (k' - i) t = c :: slice (S i) (k' - S i) t).
        { unfold slice. rewrite (drop_S t c i Hc). replace (k' - i) with (S (k' - S i)) by lia.
          done. }
        assert (L : length (slice (S i) (k' - S i) t) = k' - S i) by (apply length_slice; lia).
        rewrite Hsl. replace (c :: slice (S i) (k' - S i) t)
          with ([c] ++ slice (S i) (k' - S i) t) by done.
        rewrite <- splice_splice_app by (rewrite L; simpl; lia). simpl.
        rewrite <- plus_n_Sm, Nat.add_1_r. f_equal.
        unfold splice. simpl. rewrite insert_take_drop by lia. by rewrite Nat.add_1_r.
      * rewrite (proj2 (Nat.ltb_ge _ _)) by lia. simpl. by rewrite decide_False by lia.
Qed.

(** Strlcpy always terminates within the size it is given, copies the
    longest prefix that fits and returns the length of the source. *)
Theorem strlcpy_correct t src dst s :
  cstr t src -> 0 < s <= length dst ->
  let k := min (s - 1) (length t) in
  strlcpy dst src s = Some (length t, splice 0 (take k t ++ [0%Z]) dst).
Proof.
  intros Hsrc Hs k. unfold strlcpy. rewrite (proj2 (Nat.eqb_neq _ _)) by lia.
  rewrite (bounded_copy_spec _ _ _ t) by (done || lia). simpl. fold k.
  rewrite decide_True by lia. cbn [mbind option_bind].
  assert (Hsl : slice 0 (k - 0) t = take k t) by (unfold slice; by rewrite Nat.sub_0_r, drop_0).
  assert (Lk : length (take k t) = k) by (rewrite length_take; lia).
  unfold store. rewrite Hsl, length_splice by lia.
  rewrite (proj2 (Nat.ltb_lt _ _)) by lia. cbn [mbind option_bind].
  rewrite (strlen_cstr (drop k t)) by (apply cstr_drop; [done|lia]). cbn [mbind option_bind].
  rewrite length_drop. do 2 f_equal; [lia|].
  rewrite <- splice_splice_app by (rewrite Lk; simpl; lia). rewrite Lk.
  unfold splice at 2. simpl. rewrite insert_take_drop by (rewrite length_splice; lia).
  by rewrite Nat.add_1_r.
Qed.

Lemma strlcpy_correct_witness :
  strlcpy [1; 1; 1; 1; 9]%Z [97; 98; 99; 100; 101; 0]%Z 4 = Some (5, [97; 98; 99; 0; 9]%Z).
Proof.
  rewrite (strlcpy_correct [97; 98; 99; 100; 101]%Z); [reflexivity| |simpl; lia].
  cstr_concrete.
Defined.

(** strlcat bounds the bytes it appends by the size of the destination
    and not by the room left behind the string it holds: for a destination object
    of exactly [s] bytes holding a string of [j] characters it stays inside the
    object if and only if [j + min n (s - 1) < s], so a non-empty destination and
    a long source make it write past the end. *)
Theorem strlcat_bounds d t dst src s :
  cstr d dst -> cstr t src -> length dst = s ->
  let k := min (s - 1) (length t) in
  strlcat dst src s =
    if decide (length d + k < s)
    then Some (length d + length t, splice (length d) (take k t ++ [0%Z]) dst)
    else None.
Proof.
  intros Hd Hsrc Hs k. unfold strlcat. pose proof (cstr_length _ _ Hd) as Hlt.
  rewrite (strnlen_cstr _ _ _ Hd), Nat.min_r by lia. cbn [mbind option_bind].
  rewrite (proj2 (Nat.eqb_neq _ _)) by lia.
  rewrite (bounded_copy_spec _ _ _ t) by (done || lia). simpl. fold k.
  assert (Hsl : slice 0 (k - 0) t = take k t) by (unfold slice; by rewrite Nat.sub_0_r, drop_0).
  assert (Lk : length (take k t) = k) by (rewrite length_take; lia).
  rewrite Hsl, Nat.add_0_r.
  destruct (decide (length d + k < s)) as [Hfit|Hfit].
  - rewrite decide_True by lia. cbn [mbind option_bind]. unfold store.
    rewrite length_splice by lia. rewrite (proj2 (Nat.ltb_lt _ _)) by lia.
    cbn [mbind option_bind].
    rewrite (strlen_cstr (drop k t)) by (apply cstr_drop; [done|lia]). cbn [mbind option_bind].
    rewrite length_drop. do 2 f_equal; [lia|].
    rewrite <- splice_splice_app by (rewrite Lk; simpl; lia). rewrite Lk.
    unfold splice at 2. simpl. rewrite insert_take_drop by (rewrite length_splice; lia).
    by rewrite Nat.add_1_r.
  - case_decide as Hc; [|done]. cbn [mbind option_bind]. unfold store.
    rewrite length_splice by lia. by rewrite (proj2 (Nat.ltb_ge _ _)) by lia.
Qed.

Lemma strlcat_bounds_witness :
  strlcat [97; 98; 0; 0]%Z [99; 100; 101; 0]%Z 4 = None.
Proof.
  rewrite (strlcat_bounds [97; 98]%Z [99; 100; 101]%Z); [reflexivity| | |reflexivity].
  all: cstr_concrete.
Defined.
