(* ===== verification/Timer.v ===== *)
(** * kernel/timer.c: the timer queue

    Timers are [timer_t] objects named by an identifier (their address); the
    queue is the sequence of identifiers [timers[0].timer_queue] links together
    (one cpu).  Callbacks are values of a type [CB] chosen by the client
    (Kernel.v), which also runs them in its model of timer_tick. *)

From S2P Require Import Prelude.
From stdpp Require Import prelude list gmap sorting.
From Stdlib Require Import ZArith Lia.

Open Scope Z_scope.

(** ** Wrapping time (lib/libc/include/sys/types.h) *)

Definition TIME_GTE (a b : Z) : bool := 0 <=? s32 (a - b).
Definition TIME_LTE (a b : Z) : bool := s32 (a - b) <=? 0.
Definition TIME_GT (a b : Z) : bool := 0 <? s32 (a - b).
Definition TIME_LT (a b : Z) : bool := s32 (a - b) <? 0.

(** ** Data *)

Definition TIMER_MAGIC : Z := 0x74696D72.

Record timer_t (CB : Type) := Timer_t {
  timer_magic : Z;
  scheduled_time : Z;
  periodic_time : Z;
  callback : option CB
}.
Arguments Timer_t {CB}.
Arguments timer_magic {CB}.
Arguments scheduled_time {CB}.
Arguments periodic_time {CB}.
Arguments callback {CB}.

Record timer_state (CB : Type) := Timer_state {
  timers : gmap nat (timer_t CB);
  timer_queue : list nat
}.
Arguments Timer_state {CB}.
Arguments timers {CB}.
Arguments timer_queue {CB}.

Section timer.
Context {CB : Type}.
Implicit Types (ts : timer_state CB) (id : nat).

(** ** Operations *)

Definition timer_initial_value : timer_t CB := Timer_t TIMER_MAGIC 0 0 None.

Definition timer_initialize id ts : timer_state CB :=
  Timer_state (<[id := timer_initial_value]> (timers ts)) (timer_queue ts).

Definition time_of ts id : Z := from_option scheduled_time 0 (timers ts !! id).

(** The walk of insert_timer_in_queue over the queue [q]. *)
Fixpoint insert_before ts id (q : list nat) : list nat :=
  match q with
  | [] => [id]
  | entry :: q' =>
      if TIME_GT (time_of ts entry) (time_of ts id) then id :: q
      else entry :: insert_before ts id q'
  end.

Definition insert_timer_in_queue id ts : timer_state CB :=
  Timer_state (timers ts) (insert_before ts id (timer_queue ts)).

(** timer_set at time [now]; [None] is the assert on the magic or the panic on
    a timer that is already queued. *)
Definition timer_set id (now delay period : Z) (cb : CB) ts : option (timer_state CB) :=
  t ← timers ts !! id;
  if negb (timer_magic t =? TIMER_MAGIC) then None
  else if bool_decide (id ∈ timer_queue ts) then None
  else
    let t' := Timer_t (timer_magic t) (u32 (now + delay)) period (Some cb) in
    Some (insert_timer_in_queue id (Timer_state (<[id := t']> (timers ts)) (timer_queue ts))).

Definition timer_set_oneshot id (now delay : Z) (cb : CB) ts : option (timer_state CB) :=
  let delay := if delay =? 0 then 1 else delay in
  timer_set id now delay 0 cb ts.

Definition timer_set_periodic id (now period : Z) (cb : CB) ts : option (timer_state CB) :=
  let period := if period =? 0 then 1 else period in
  timer_set id now period period cb ts.

Definition timer_cancel id ts : option (timer_state CB) :=
  t ← timers ts !! id;
  if negb (timer_magic t =? TIMER_MAGIC) then None
  else
    let t' := Timer_t (timer_magic t) (scheduled_time t) 0 None in
    Some (Timer_state (<[id := t']> (timers ts)) (filter (fun x => x <> id) (timer_queue ts))).

(** The head of the queue if it is due at [now]: the test of timer_tick's loop. *)
Definition timer_due (now : Z) ts : option nat :=
  match timer_queue ts with
  | [] => None
  | id :: _ => if TIME_LT now (time_of ts id) then None else Some id
  end.

(** list_delete of the timer that is about to fire. *)
Definition timer_dequeue id ts : timer_state CB :=
  Timer_state (timers ts) (filter (fun x => x <> id) (timer_queue ts)).

(** What timer_tick does with a timer after its callback; [periodic] was read
    before the callback ran. *)
Definition timer_requeue id (periodic : bool) (now : Z) ts : timer_state CB :=
  match timers ts !! id with
  | None => ts
  | Some t =>
      if periodic && negb (bool_decide (id ∈ timer_queue ts)) && (0 <? periodic_time t) then
        let next := u32 (scheduled_time t + periodic_time t) in
        let next := if TIME_LT next now then u32 (now + periodic_time t) else next in
        let t' := Timer_t (timer_magic t) next (periodic_time t) (callback t) in
        insert_timer_in_queue id (Timer_state (<[id := t']> (timers ts)) (timer_queue ts))
      else ts
  end.

Definition timer_init : timer_state CB := Timer_state ∅ [].

(** ** The queue is ordered by time *)

(** Scheduled times of queued timers lie in one half of the time circle, from
    [base]; there the wrapping comparison is the order of the offsets. *)
Definition offset (base t : Z) : Z := u32 (t - base).

Definition in_window base ts id : Prop := offset base (time_of ts id) < 2 ^ 31.

Definition timer_order ts : Prop :=
  StronglySorted (fun a b => TIME_LTE (time_of ts a) (time_of ts b) = true) (timer_queue ts).

Lemma s32_sub_window base a b :
  offset base a < 2 ^ 31 -> offset base b < 2 ^ 31 ->
  s32 (a - b) = offset base a - offset base b.
Proof.
  unfold offset, u32, s32. intros Ha Hb.
  pose proof (Z.mod_pos_bound (a - base) (2 ^ 32) ltac:(lia)).
  pose proof (Z.mod_pos_bound (b - base) (2 ^ 32) ltac:(lia)).
  pose proof (Z.div_mod (a - base) (2 ^ 32) ltac:(lia)) as Ea.
  pose proof (Z.div_mod (b - base) (2 ^ 32) ltac:(lia)) as Eb.
  set (x := (a - base) mod 2 ^ 32) in *. set (y := (b - base) mod 2 ^ 32) in *.
  replace (a - b + 2 ^ 31) with
    (x - y + 2 ^ 31 + ((a - base) / 2 ^ 32 - (b - base) / 2 ^ 32) * 2 ^ 32) by lia.
  rewrite Z.mod_add, Z.mod_small by lia. lia.
Qed.

Lemma insert_before_perm ts id q : insert_before ts id q ≡ₚ id :: q.
Proof.
  induction q as [|e q IH]; simpl; [done|]. destruct_guard; [done|].
  rewrite IH. constructor.
Qed.

(** inserting a timer keeps the queue ordered by scheduled time and holds
    every timer exactly once, as long as all queued times lie within half the
    range of the 32-bit clock of each other; timers with equal times keep their
    insertion order. *)
Theorem insert_timer_sorted base id ts :
  in_window base ts id -> Forall (in_window base ts) (timer_queue ts) ->
  timer_order ts ->
  timer_order (insert_timer_in_queue id ts)
  /\ timer_queue (insert_timer_in_queue id ts) ≡ₚ id :: timer_queue ts
  /\ (exists before after,
        timer_queue ts = before ++ after
        /\ timer_queue (insert_timer_in_queue id ts) = before ++ id :: after
        /\ Forall (fun e => TIME_LTE (time_of ts e) (time_of ts id) = true) before
        /\ Forall (fun e => TIME_GT (time_of ts e) (time_of ts id) = true) after).
Proof.
  intros Hid Hall Hsort. unfold timer_order in *.
  split; [|split; [apply insert_before_perm|]]; cbn [insert_timer_in_queue timer_queue] in *;
    change (time_of (insert_timer_in_queue id ts)) with (time_of ts);
    induction Hsort as [|e q Hs IH Hle].
  - repeat constructor.
  - apply Forall_cons in Hall as [He Hall]. simpl.
    destruct (TIME_GT (time_of ts e) (time_of ts id)) eqn:E.
    + unfold TIME_GT, TIME_LTE in *. bool_to_prop.
      rewrite (s32_sub_window base) in E by done.
      constructor; [by constructor|]. constructor.
      * apply Z.leb_le. rewrite (s32_sub_window base) by done. lia.
      * rewrite Forall_forall in Hle, Hall |- *. intros x Hx.
        specialize (Hle x Hx). specialize (Hall x Hx). apply Z.leb_le in Hle. apply Z.leb_le.
        rewrite (s32_sub_window base) in Hle |- * by done. lia.
    + constructor; [by apply IH|]. unfold TIME_GT, TIME_LTE in *. bool_to_prop.
      rewrite (insert_before_perm ts id q).
      constructor; [by apply Z.leb_le|done].
  - exists [], []. by repeat constructor.
  - apply Forall_cons in Hall as [He Hall]. simpl.
    destruct (TIME_GT (time_of ts e) (time_of ts id)) eqn:E.
    + exists [], (e :: q). split; [done|]. split; [done|]. split; [constructor|].
      constructor; [done|]. unfold TIME_GT, TIME_LTE in *. bool_to_prop.
      rewrite (s32_sub_window base) in E by done.
      rewrite Forall_forall in Hle, Hall |- *. intros x Hx.
      specialize (Hle x Hx). specialize (Hall x Hx). apply Z.leb_le in Hle. apply Z.ltb_lt.
      rewrite (s32_sub_window base) in Hle |- * by done. lia.
    + destruct (IH Hall) as (b & a & -> & -> & Hb & Ha).
      exists (e :: b), a. repeat split; auto. constructor; [|done].
      unfold TIME_GT, TIME_LTE in *. bool_to_prop. by apply Z.leb_le.
Qed.
End timer.

Lemma insert_timer_sorted_witness :
  let mk t := Timer_t (CB:=unit) TIMER_MAGIC t 0 None in
  let ts := Timer_state (<[1%nat := mk (2 ^ 32 - 5)]> (<[2%nat := mk 10]>
              (<[3%nat := mk 3]> ∅))) [1%nat; 2%nat] in
  timer_order (insert_timer_in_queue 3 ts)
  /\ timer_queue (insert_timer_in_queue 3 ts) ≡ₚ [3%nat; 1%nat; 2%nat]
  /\ (exists before after,
        timer_queue ts = before ++ after
        /\ timer_queue (insert_timer_in_queue 3 ts) = before ++ 3%nat :: after
        /\ Forall (fun e => TIME_LTE (time_of ts e) (time_of ts 3) = true) before
        /\ Forall (fun e => TIME_GT (time_of ts e) (time_of ts 3) = true) after).
Proof.
  intros mk ts. apply (insert_timer_sorted (2 ^ 32 - 100)).
  - vm_compute. done.
  - repeat constructor; vm_compute; done.
  - repeat constructor; vm_compute; done.
Defined.
