(* ===== verification/Kernel.v ===== *)
(** * kernel/thread.c: threads, the run queue and wait queues

    One cpu (SMP_MAX_CPUS = 1, as on the allegrex).  Every function below runs
    inside the critical section of THREAD_LOCK, so it is one atomic step on the
    [kernel] record.  A context switch is the assignment of [current]: what a C
    function does after it gets the cpu back is a definition of its own (only
    wait_queue_block, wait_queue_destroy and thread_join do anything there).  Queues linked through
    [queue_node] are sequences of thread identifiers; the statistics, the stack
    overrun check and the architecture's register frame are left out. *)

From S2P Require Import Prelude Timer.
From stdpp Require Import prelude list gmap countable.
From Stdlib Require Import ZArith Lia.

Open Scope Z_scope.
Open Scope lk_scope.

(** ** Data *)

Definition tid : Type := nat.

Inductive thread_state :=
| THREAD_SUSPENDED | THREAD_READY | THREAD_RUNNING | THREAD_BLOCKED | THREAD_SLEEPING
| THREAD_DEATH.

#[export] Instance thread_state_eq_dec : EqDecision thread_state.
Proof. solve_decision. Defined.

(** A wait queue is an object of its own or the [retcode_wait_queue] of a thread. *)
Inductive wqid := WqObject (n : nat) | WqRetcode (t : tid).

#[export] Instance wqid_eq_dec : EqDecision wqid.
Proof. solve_decision. Defined.

#[export] Instance wqid_countable : Countable wqid.
Proof.
  refine (inj_countable' (fun q => match q with WqObject n => inl n | WqRetcode t => inr t end)
    (fun s => match s with inl n => WqObject n | inr t => WqRetcode t end) _).
  by intros [].
Defined.

Definition THREAD_MAGIC : Z := 0x74687264.
Definition WAIT_QUEUE_MAGIC : Z := 0x77616974.
Definition NUM_PRIORITIES : nat := 32.
Definition HIGHEST_PRIORITY : Z := 31.
Definition DEFAULT_PRIORITY : Z := 16.
Definition IDLE_PRIORITY : Z := 0.
Definition THREAD_FLAG_DETACHED : Z := 1.
Definition THREAD_FLAG_FREE_STACK : Z := 2.
Definition THREAD_FLAG_FREE_STRUCT : Z := 4.
Definition THREAD_FLAG_REAL_TIME : Z := 8.
Definition THREAD_FLAG_IDLE : Z := 16.
Definition INFINITE_TIME : Z := 2 ^ 32 - 1.

Definition NO_ERROR : Z := 0.
Definition ERR_NOT_READY : Z := -3.
Definition ERR_INVALID_ARGS : Z := -8.
Definition ERR_OBJECT_DESTROYED : Z := -11.
Definition ERR_NOT_BLOCKED : Z := -12.
Definition ERR_TIMED_OUT : Z := -13.
Definition ERR_THREAD_DETACHED : Z := -34.

Record thread := Thread {
  th_magic : Z;
  th_priority : Z;
  th_state : thread_state;
  th_remaining_quantum : Z;
  th_flags : Z;
  th_blocking_wait_queue : option wqid;
  th_wait_queue_block_ret : Z;
  th_entry : Z;
  th_arg : Z;
  th_retcode : Z
}.

Record wait_queue := Wait_queue { wq_magic : Z; wq_list : list tid; wq_count : Z }.

(** Timer callbacks the kernel installs, and those of other modules. *)
Inductive timer_cb :=
| thread_sleep_handler_cb (t : tid)
| wait_queue_timeout_handler_cb (t : tid)
| other_cb (n : nat).

Record kernel := Kernel {
  threads : gmap tid thread;
  thread_list : list tid;
  run_queue : list (list tid);
  run_queue_bitmap : Z;
  wait_queues : gmap wqid wait_queue;
  current : tid;
  idle_thread : tid;
  timer_st : timer_state timer_cb;
  now : Z;
  delayed_free : list tid
}.

Definition K (A : Type) : Type := M kernel Empty_set A.

(** ** Field updates *)

Definition th_set_state (s : thread_state) (th : thread) : thread :=
  Thread (th_magic th) (th_priority th) s (th_remaining_quantum th) (th_flags th)
    (th_blocking_wait_queue th) (th_wait_queue_block_ret th) (th_entry th) (th_arg th)
    (th_retcode th).
Definition th_set_priority (p : Z) (th : thread) : thread :=
  Thread (th_magic th) p (th_state th) (th_remaining_quantum th) (th_flags th)
    (th_blocking_wait_queue th) (th_wait_queue_block_ret th) (th_entry th) (th_arg th)
    (th_retcode th).
Definition th_set_quantum (n : Z) (th : thread) : thread :=
  Thread (th_magic th) (th_priority th) (th_state th) n (th_flags th)
    (th_blocking_wait_queue th) (th_wait_queue_block_ret th) (th_entry th) (th_arg th)
    (th_retcode th).
Definition th_set_flags (f : Z) (th : thread) : thread :=
  Thread (th_magic th) (th_priority th) (th_state th) (th_remaining_quantum th) f
    (th_blocking_wait_queue th) (th_wait_queue_block_ret th) (th_entry th) (th_arg th)
    (th_retcode th).
Definition th_set_wait (q : option wqid) (r : Z) (th : thread) : thread :=
  Thread (th_magic th) (th_priority th) (th_state th) (th_remaining_quantum th) (th_flags th)
    q r (th_entry th) (th_arg th) (th_retcode th).
Definition th_set_magic (m : Z) (th : thread) : thread :=
  Thread m (th_priority th) (th_state th) (th_remaining_quantum th) (th_flags th)
    (th_blocking_wait_queue th) (th_wait_queue_block_ret th) (th_entry th) (th_arg th)
    (th_retcode th).
Definition th_set_retcode (r : Z) (th : thread) : thread :=
  Thread (th_magic th) (th_priority th) (th_state th) (th_remaining_quantum th) (th_flags th)
    (th_blocking_wait_queue th) (th_wait_queue_block_ret th) (th_entry th) (th_arg th) r.

Definition k_set_threads (m : gmap tid thread) (k : kernel) : kernel :=
  Kernel m (thread_list k) (run_queue k) (run_queue_bitmap k) (wait_queues k) (current k)
    (idle_thread k) (timer_st k) (now k) (delayed_free k).
Definition k_set_thread_list (l : list tid) (k : kernel) : kernel :=
  Kernel (threads k) l (run_queue k) (run_queue_bitmap k) (wait_queues k) (current k)
    (idle_thread k) (timer_st k) (now k) (delayed_free k).
Definition k_set_run_queue (rq : list (list tid)) (b : Z) (k : kernel) : kernel :=
  Kernel (threads k) (thread_list k) rq b (wait_queues k) (current k)
    (idle_thread k) (timer_st k) (now k) (delayed_free k).
Definition k_set_wait_queues (m : gmap wqid wait_queue) (k : kernel) : kernel :=
  Kernel (threads k) (thread_list k) (run_queue k) (run_queue_bitmap k) m (current k)
    (idle_thread k) (timer_st k) (now k) (delayed_free k).
Definition k_set_current (t : tid) (k : kernel) : kernel :=
  Kernel (threads k) (thread_list k) (run_queue k) (run_queue_bitmap k) (wait_queues k) t
    (idle_thread k) (timer_st k) (now k) (delayed_free k).
Definition k_set_timers (ts : timer_state timer_cb) (k : kernel) : kernel :=
  Kernel (threads k) (thread_list k) (run_queue k) (run_queue_bitmap k) (wait_queues k)
    (current k) (idle_thread k) ts (now k) (delayed_free k).
Definition k_add_delayed_free (t : tid) (k : kernel) : kernel :=
  Kernel (threads k) (thread_list k) (run_queue k) (run_queue_bitmap k) (wait_queues k)
    (current k) (idle_thread k) (timer_st k) (now k) (t :: delayed_free k).

(** Dereferencing a thread pointer: a freed thread is a fault. *)
Definition get_thread (t : tid) : K thread :=
  let* k := get in deref (threads k !! t).

Definition upd_thread (t : tid) (f : thread -> thread) : K unit :=
  let* th := get_thread t in
  modify (fun k => k_set_threads (<[t := f th]> (threads k)) k).

Definition get_wait_queue (q : wqid) : K wait_queue :=
  let* k := get in deref (wait_queues k !! q).

Definition set_wait_queue (q : wqid) (w : wait_queue) : K unit :=
  modify (fun k => k_set_wait_queues (<[q := w]> (wait_queues k)) k).

Definition get_current_thread : K tid := gets current.

(** [list_in_list(&t->queue_node)]: is the thread on some queue? *)
Definition in_queue (k : kernel) (t : tid) : bool :=
  existsb (fun l => bool_decide (t ∈ l)) (run_queue k)
  || existsb (fun qw => bool_decide (t ∈ wq_list (snd qw))) (map_to_list (wait_queues k)).

Definition is_state (s : thread_state) (th : thread) : bool := bool_decide (th_state th = s).

Definition has_flag (f : Z) (th : thread) : bool := negb (Z.land (th_flags th) f =? 0).

Definition thread_is_idle (th : thread) : bool := has_flag THREAD_FLAG_IDLE th.

Definition thread_is_realtime (th : thread) : bool :=
  has_flag THREAD_FLAG_REAL_TIME th && (DEFAULT_PRIORITY <? th_priority th).

Definition thread_is_real_time_or_idle (th : thread) : bool :=
  has_flag (Z.lor THREAD_FLAG_REAL_TIME THREAD_FLAG_IDLE) th.

(** ** The run queue *)

Definition insert_in_run_queue (head : bool) (t : tid) : K unit :=
  let* th := get_thread t in
  let* k := get in
  assert_ (th_magic th =? THREAD_MAGIC) ;;
  assert_ (is_state THREAD_READY th) ;;
  assert_ (negb (in_queue k t)) ;;
  let p := Z.to_nat (th_priority th) in
  let* l := deref (if th_priority th <? 0 then None else run_queue k !! p) in
  put (k_set_run_queue (<[p := if head then t :: l else l ++ [t]]> (run_queue k))
         (Z.lor (run_queue_bitmap k) (u32 (Z.shiftl 1 (th_priority th)))) k).

Definition insert_in_run_queue_head (t : tid) : K unit := insert_in_run_queue true t.
Definition insert_in_run_queue_tail (t : tid) : K unit := insert_in_run_queue false t.

(** [__builtin_clz] on 32 bits. *)
Definition builtin_clz (x : Z) : Z := 31 - Z.log2 x.

(** The loop of get_top_thread over [local_run_queue_bitmap]; each iteration
    clears a bit, so 32 iterations are enough. *)
Fixpoint get_top_thread_loop (fuel : nat) (bm : Z) : K tid :=
  match fuel with
  | O => hang
  | S fuel' =>
      let* k := get in
      if bm =? 0 then ret (idle_thread k)
      else
        let next_queue := 4 * 8 - 1 - builtin_clz bm in
        let* l := deref (run_queue k !! Z.to_nat next_queue) in
        match l with
        | newthread :: l' =>
            put (k_set_run_queue (<[Z.to_nat next_queue := l']> (run_queue k))
                   (match l' with
                    | [] => Z.land (run_queue_bitmap k) (Z.lnot (Z.shiftl 1 next_queue))
                    | _ => run_queue_bitmap k
                    end) k) ;;
            ret newthread
        | [] => get_top_thread_loop fuel' (Z.land bm (Z.lnot (Z.shiftl 1 next_queue)))
        end
  end.

Definition get_top_thread : K tid :=
  let* k := get in get_top_thread_loop 33 (run_queue_bitmap k).

(** ** Rescheduling *)

Definition thread_resched : K unit :=
  let* oldthread := get_current_thread in
  let* old := get_thread oldthread in
  assert_ (negb (is_state THREAD_RUNNING old)) ;;
  let* newthread := get_top_thread in
  upd_thread newthread (th_set_state THREAD_RUNNING) ;;
  if Nat.eqb newthread oldthread then ret tt
  else
    let* new := get_thread newthread in
    (if th_remaining_quantum new <=? 0 then upd_thread newthread (th_set_quantum 5) else ret tt) ;;
    modify (k_set_current newthread).

Definition thread_yield : K unit :=
  let* ct := get_current_thread in
  let* th := get_thread ct in
  assert_ (th_magic th =? THREAD_MAGIC) ;;
  assert_ (is_state THREAD_RUNNING th) ;;
  upd_thread ct (th_set_state THREAD_READY) ;;
  upd_thread ct (th_set_quantum 0) ;;
  (if negb (thread_is_idle th) then insert_in_run_queue_tail ct else ret tt) ;;
  thread_resched.

Definition thread_preempt : K unit :=
  let* ct := get_current_thread in
  let* th := get_thread ct in
  assert_ (th_magic th =? THREAD_MAGIC) ;;
  assert_ (is_state THREAD_RUNNING th) ;;
  upd_thread ct (th_set_state THREAD_READY) ;;
  (if negb (thread_is_idle th) then
     if 0 <? th_remaining_quantum th then insert_in_run_queue_head ct
     else insert_in_run_queue_tail ct
   else ret tt) ;;
  thread_resched.

Definition thread_block : K unit :=
  let* ct := get_current_thread in
  let* th := get_thread ct in
  assert_ (th_magic th =? THREAD_MAGIC) ;;
  assert_ (is_state THREAD_BLOCKED th) ;;
  assert_ (negb (thread_is_idle th)) ;;
  thread_resched.

Definition thread_unblock (t : tid) (resched : bool) : K unit :=
  let* th := get_thread t in
  assert_ (th_magic th =? THREAD_MAGIC) ;;
  assert_ (is_state THREAD_BLOCKED th) ;;
  assert_ (negb (thread_is_idle th)) ;;
  upd_thread t (th_set_state THREAD_READY) ;;
  insert_in_run_queue_head t ;;
  if resched then thread_resched else ret tt.

Inductive handler_return := INT_NO_RESCHEDULE | INT_RESCHEDULE.

Definition thread_timer_tick : K handler_return :=
  let* ct := get_current_thread in
  let* th := get_thread ct in
  if thread_is_real_time_or_idle th then ret INT_NO_RESCHEDULE
  else
    upd_thread ct (th_set_quantum (th_remaining_quantum th - 1)) ;;
    if th_remaining_quantum th - 1 <=? 0 then ret INT_RESCHEDULE else ret INT_NO_RESCHEDULE.

Definition thread_set_priority (priority : Z) : K unit :=
  let* ct := get_current_thread in
  let priority := if priority <=? IDLE_PRIORITY then IDLE_PRIORITY + 1 else priority in
  let priority := if HIGHEST_PRIORITY <? priority then HIGHEST_PRIORITY else priority in
  upd_thread ct (th_set_priority priority) ;;
  upd_thread ct (th_set_state THREAD_READY) ;;
  insert_in_run_queue_head ct ;;
  thread_resched.

Definition thread_set_real_time (t : option tid) : K Z :=
  match t with
  | None => ret ERR_INVALID_ARGS
  | Some t =>
      let* th := get_thread t in
      assert_ (th_magic th =? THREAD_MAGIC) ;;
      upd_thread t (th_set_flags (Z.lor (th_flags th) THREAD_FLAG_REAL_TIME)) ;;
      ret NO_ERROR
  end.

(** ** Wait queues *)

Definition wait_queue_init (q : wqid) : K unit :=
  set_wait_queue q (Wait_queue WAIT_QUEUE_MAGIC [] 0).

(** The [timer_t] local to wait_queue_block and thread_sleep of thread [t]. *)
Definition local_timer (t : tid) : nat := (2 * t)%nat.

Definition run_timer_op (f : timer_state timer_cb -> option (timer_state timer_cb)) : K unit :=
  let* k := get in
  match f (timer_st k) with Some ts => put (k_set_timers ts k) | None => panic end.

(** The result of a call that may switch threads: its return value, or
    [Blocked] when the caller has been descheduled inside it. *)
Inductive call_result := Returned (r : Z) | Blocked.

(** wait_queue_block up to the context switch. *)
Definition wait_queue_block (q : wqid) (timeout : Z) : K call_result :=
  let* ct := get_current_thread in
  let* w := get_wait_queue q in
  let* th := get_thread ct in
  assert_ (wq_magic w =? WAIT_QUEUE_MAGIC) ;;
  assert_ (is_state THREAD_RUNNING th) ;;
  if timeout =? 0 then ret (Returned ERR_TIMED_OUT)
  else
    set_wait_queue q (Wait_queue (wq_magic w) (wq_list w ++ [ct]) (wq_count w + 1)) ;;
    upd_thread ct (th_set_state THREAD_BLOCKED) ;;
    upd_thread ct (th_set_wait (Some q) NO_ERROR) ;;
    (if negb (timeout =? INFINITE_TIME) then
       let* k := get in
       run_timer_op (fun ts => Some (timer_initialize (local_timer ct) ts)) ;;
       run_timer_op (timer_set_oneshot (local_timer ct) (now k) timeout
                       (wait_queue_timeout_handler_cb ct))
     else ret tt) ;;
    thread_resched ;;
    ret Blocked.

(** The rest of wait_queue_block, run when the blocked thread is current again. *)
Definition wait_queue_block_resume (timeout : Z) : K Z :=
  let* ct := get_current_thread in
  (if negb (timeout =? INFINITE_TIME) then run_timer_op (timer_cancel (local_timer ct))
   else ret tt) ;;
  let* th := get_thread ct in
  ret (th_wait_queue_block_ret th).

(** Takes the head of the wait queue off and marks it ready. *)
Definition wake_head (q : wqid) (wait_queue_error : Z) : K (option tid) :=
  let* w := get_wait_queue q in
  match wq_list w with
  | [] => ret None
  | t :: l =>
      set_wait_queue q (Wait_queue (wq_magic w) l (wq_count w - 1)) ;;
      let* th := get_thread t in
      assert_ (is_state THREAD_BLOCKED th) ;;
      upd_thread t (th_set_state THREAD_READY) ;;
      upd_thread t (th_set_wait None wait_queue_error) ;;
      ret (Some t)
  end.

Definition wait_queue_wake_one (q : wqid) (reschedule : bool) (wait_queue_error : Z) : K Z :=
  let* ct := get_current_thread in
  let* w := get_wait_queue q in
  assert_ (wq_magic w =? WAIT_QUEUE_MAGIC) ;;
  let* o := wake_head q wait_queue_error in
  match o with
  | None => ret 0
  | Some t =>
      (if reschedule then
         upd_thread ct (th_set_state THREAD_READY) ;; insert_in_run_queue_head ct
       else ret tt) ;;
      insert_in_run_queue_head t ;;
      (if reschedule then thread_resched else ret tt) ;;
      ret 1
  end.

(** The loop of wait_queue_wake_all; each iteration takes a thread off. *)
Fixpoint wake_all_loop (fuel : nat) (q : wqid) (wait_queue_error acc : Z) : K Z :=
  match fuel with
  | O => hang
  | S fuel' =>
      let* o := wake_head q wait_queue_error in
      match o with
      | None => ret acc
      | Some t => insert_in_run_queue_head t ;; wake_all_loop fuel' q wait_queue_error (acc + 1)
      end
  end.

Definition wait_queue_wake_all (q : wqid) (reschedule : bool) (wait_queue_error : Z) : K Z :=
  let* ct := get_current_thread in
  let* w := get_wait_queue q in
  assert_ (wq_magic w =? WAIT_QUEUE_MAGIC) ;;
  (if reschedule && (0 <? wq_count w) then
     upd_thread ct (th_set_state THREAD_READY) ;; insert_in_run_queue_head ct
   else ret tt) ;;
  let* n := wake_all_loop (S (length (wq_list w))) q wait_queue_error 0 in
  let* w' := get_wait_queue q in
  assert_ (wq_count w' =? 0) ;;
  (if 0 <? n then if reschedule then thread_resched else ret tt else ret tt) ;;
  ret n.

(** The store behind wake_all in wait_queue_destroy.  When wake_all has switched
    to a woken thread, it runs once the caller is current again. *)
Definition wait_queue_destroy_finish (q : wqid) : K unit :=
  let* w := get_wait_queue q in
  set_wait_queue q (Wait_queue 0 (wq_list w) (wq_count w)).

Definition wait_queue_destroy (q : wqid) (reschedule : bool) : K call_result :=
  let* ct := get_current_thread in
  let* w := get_wait_queue q in
  assert_ (wq_magic w =? WAIT_QUEUE_MAGIC) ;;
  let* n := wait_queue_wake_all q reschedule ERR_OBJECT_DESTROYED in
  let* ct' := get_current_thread in
  if Nat.eqb ct' ct then wait_queue_destroy_finish q ;; ret (Returned NO_ERROR)
  else ret Blocked.

Definition thread_unblock_from_wait_queue (t : tid) (wait_queue_error : Z) : K Z :=
  let* th := get_thread t in
  assert_ (th_magic th =? THREAD_MAGIC) ;;
  if negb (is_state THREAD_BLOCKED th) then ret ERR_NOT_BLOCKED
  else
    let* k := get in
    match th_blocking_wait_queue th with
    | None => panic
    | Some q =>
        let* w := get_wait_queue q in
        assert_ (wq_magic w =? WAIT_QUEUE_MAGIC) ;;
        assert_ (in_queue k t) ;;
        set_wait_queue q
          (Wait_queue (wq_magic w) (filter (fun x => x <> t) (wq_list w)) (wq_count w - 1)) ;;
        upd_thread t (th_set_wait None (th_wait_queue_block_ret th)) ;;
        upd_thread t (th_set_state THREAD_READY) ;;
        upd_thread t (th_set_wait None wait_queue_error) ;;
        insert_in_run_queue_head t ;;
        ret NO_ERROR
    end.

Definition wait_queue_timeout_handler (t : tid) : K handler_return :=
  let* th := get_thread t in
  assert_ (th_magic th =? THREAD_MAGIC) ;;
  let* r := thread_unblock_from_wait_queue t ERR_TIMED_OUT in
  if NO_ERROR <=? r then ret INT_RESCHEDULE else ret INT_NO_RESCHEDULE.

(** ** Sleeping *)

Definition thread_sleep_handler (t : tid) : K handler_return :=
  let* th := get_thread t in
  assert_ (th_magic th =? THREAD_MAGIC) ;;
  assert_ (is_state THREAD_SLEEPING th) ;;
  upd_thread t (th_set_state THREAD_READY) ;;
  insert_in_run_queue_head t ;;
  ret INT_RESCHEDULE.

Definition thread_sleep (delay : Z) : K unit :=
  let* ct := get_current_thread in
  let* th := get_thread ct in
  assert_ (th_magic th =? THREAD_MAGIC) ;;
  assert_ (is_state THREAD_RUNNING th) ;;
  assert_ (negb (thread_is_idle th)) ;;
  let* k := get in
  run_timer_op (fun ts => Some (timer_initialize (local_timer ct) ts)) ;;
  run_timer_op (timer_set_oneshot (local_timer ct) (now k) delay (thread_sleep_handler_cb ct)) ;;
  upd_thread ct (th_set_state THREAD_SLEEPING) ;;
  thread_resched.

(** ** Thread life cycle *)

(** thread_create_etc once it has the memory of the structure; [mem_stack] is
    whether malloc finds the memory of the stack. *)
Definition thread_create_at (t : tid) (flags entry arg priority : Z) (stack mem_stack : bool)
    : K (option tid) :=
  modify (fun k => k_set_threads
    (<[t := Thread THREAD_MAGIC priority THREAD_SUSPENDED 0 0 None NO_ERROR entry arg 0]>
       (threads k)) k) ;;
  wait_queue_init (WqRetcode t) ;;
  if negb stack && negb mem_stack then
    (if negb (Z.land flags THREAD_FLAG_FREE_STRUCT =? 0)
     then modify (fun k => k_set_wait_queues (delete (WqRetcode t) (wait_queues k))
            (k_set_threads (delete t (threads k)) k))
     else ret tt) ;;
    ret None
  else
    upd_thread t (th_set_flags (if stack then flags else Z.lor flags THREAD_FLAG_FREE_STACK)) ;;
    modify (fun k => k_set_thread_list (t :: thread_list k) k) ;;
    ret (Some t).

(** [mem_t] and [mem_stack] are what the two calls of malloc return. *)
Definition thread_create_etc (t : option tid) (entry arg priority : Z) (stack : bool)
    (mem_t : option tid) (mem_stack : bool) : K (option tid) :=
  match t with
  | Some t => thread_create_at t 0 entry arg priority stack mem_stack
  | None =>
      match mem_t with
      | None => ret None
      | Some t => thread_create_at t THREAD_FLAG_FREE_STRUCT entry arg priority stack mem_stack
      end
  end.

Definition thread_create (entry arg priority : Z) (mem_t : option tid) (mem_stack : bool)
    : K (option tid) :=
  thread_create_etc None entry arg priority false mem_t mem_stack.

Definition thread_resume (t : tid) (ints_disabled : bool) : K Z :=
  let* th := get_thread t in
  assert_ (th_magic th =? THREAD_MAGIC) ;;
  assert_ (negb (is_state THREAD_DEATH th)) ;;
  (if is_state THREAD_SUSPENDED th then
     upd_thread t (th_set_state THREAD_READY) ;;
     insert_in_run_queue_head t ;;
     if negb ints_disabled then thread_yield else ret tt
   else ret tt) ;;
  ret NO_ERROR.

(** The part of thread_join after the wait: yields the return code. *)
Definition thread_join_finish (t : tid) : K Z :=
  let* th := get_thread t in
  let* k := get in
  assert_ (th_magic th =? THREAD_MAGIC) ;;
  assert_ (is_state THREAD_DEATH th) ;;
  assert_ (bool_decide (th_blocking_wait_queue th = None)) ;;
  assert_ (negb (in_queue k t)) ;;
  modify (fun k => k_set_thread_list (filter (fun x => x <> t) (thread_list k)) k) ;;
  upd_thread t (th_set_magic 0) ;;
  (if has_flag THREAD_FLAG_FREE_STRUCT th
   then modify (fun k => k_set_wait_queues (delete (WqRetcode t) (wait_queues k))
          (k_set_threads (delete t (threads k)) k))
   else ret tt) ;;
  ret (th_retcode th).

Inductive join_result := Joined (retcode : Z) | Join_error (err : Z) | Join_blocked.

Definition thread_join (t : tid) (timeout : Z) : K join_result :=
  let* th := get_thread t in
  assert_ (th_magic th =? THREAD_MAGIC) ;;
  if has_flag THREAD_FLAG_DETACHED th then ret (Join_error ERR_THREAD_DETACHED)
  else if negb (is_state THREAD_DEATH th) then
    let* r := wait_queue_block (WqRetcode t) timeout in
    match r with
    | Blocked => ret Join_blocked
    | Returned err =>
        if err <? 0 then ret (Join_error err)
        else let* rc := thread_join_finish t in ret (Joined rc)
    end
  else let* rc := thread_join_finish t in ret (Joined rc).

(** thread_join after the blocked caller is current again. *)
Definition thread_join_resume (t : tid) (timeout : Z) : K join_result :=
  let* err := wait_queue_block_resume timeout in
  if err <? 0 then ret (Join_error err)
  else let* rc := thread_join_finish t in ret (Joined rc).

Definition thread_detach (t : tid) : K Z :=
  let* th := get_thread t in
  assert_ (th_magic th =? THREAD_MAGIC) ;;
  wait_queue_wake_all (WqRetcode t) false ERR_THREAD_DETACHED ;;
  let* th := get_thread t in
  if is_state THREAD_DEATH th then
    upd_thread t (th_set_flags (Z.land (th_flags th) (Z.lnot THREAD_FLAG_DETACHED))) ;;
    let* r := thread_join t 0 in
    match r with
    | Joined _ => ret NO_ERROR
    | Join_error e => ret e
    | Join_blocked => panic
    end
  else
    upd_thread t (th_set_flags (Z.lor (th_flags th) THREAD_FLAG_DETACHED)) ;;
    ret NO_ERROR.

Definition thread_detach_and_resume (t : tid) (ints_disabled : bool) : K Z :=
  let* err := thread_detach t in
  if err <? 0 then ret err else thread_resume t ints_disabled.

Definition thread_exit (retcode : Z) : K unit :=
  let* ct := get_current_thread in
  let* th := get_thread ct in
  assert_ (th_magic th =? THREAD_MAGIC) ;;
  assert_ (is_state THREAD_RUNNING th) ;;
  assert_ (negb (thread_is_idle th)) ;;
  upd_thread ct (th_set_state THREAD_DEATH) ;;
  upd_thread ct (th_set_retcode retcode) ;;
  (if has_flag THREAD_FLAG_DETACHED th then
     modify (fun k => k_set_thread_list (filter (fun x => x <> ct) (thread_list k)) k) ;;
     upd_thread ct (th_set_magic 0) ;;
     if has_flag THREAD_FLAG_FREE_STRUCT th then modify (k_add_delayed_free ct) else ret tt
   else wait_queue_wake_all (WqRetcode ct) false 0 ;; ret tt) ;;
  thread_resched.

Definition thread_init_early (idle : tid) : kernel :=
  Kernel
    {[ idle := Thread THREAD_MAGIC HIGHEST_PRIORITY THREAD_RUNNING 0 THREAD_FLAG_DETACHED
                 None NO_ERROR 0 0 0 ]}
    [idle] (replicate NUM_PRIORITIES []) 0
    {[ WqRetcode idle := Wait_queue WAIT_QUEUE_MAGIC [] 0 ]}
    idle idle timer_init 0 [].

Definition thread_become_idle : K unit :=
  let* t := get_current_thread in
  upd_thread t (th_set_priority IDLE_PRIORITY) ;;
  let* th := get_thread t in
  upd_thread t (th_set_flags (Z.lor (th_flags th) THREAD_FLAG_IDLE)) ;;
  thread_yield.

(** ** The timer interrupt (kernel/timer.c:timer_tick) *)

Section tick.
Context (other : nat -> K handler_return).

Definition run_callback (cb : option timer_cb) : K handler_return :=
  match cb with
  | None => fault
  | Some (thread_sleep_handler_cb t) => thread_sleep_handler t
  | Some (wait_queue_timeout_handler_cb t) => wait_queue_timeout_handler t
  | Some (other_cb n) => other n
  end.

Fixpoint timer_tick_loop (fuel : nat) (time : Z) (acc : handler_return) : K handler_return :=
  match fuel with
  | O => hang
  | S fuel' =>
      let* k := get in
      match timer_due time (timer_st k) with
      | None => ret acc
      | Some id =>
          let* t := deref (Timer.timers (timer_st k) !! id) in
          assert_ (timer_magic t =? TIMER_MAGIC) ;;
          run_timer_op (fun ts => Some (timer_dequeue id ts)) ;;
          let periodic := 0 <? periodic_time t in
          let* r := run_callback (callback t) in
          run_timer_op (fun ts => Some (timer_requeue id periodic time ts)) ;;
          timer_tick_loop fuel' time
            (match r with INT_RESCHEDULE => INT_RESCHEDULE | INT_NO_RESCHEDULE => acc end)
      end
  end.

(** Without PLATFORM_HAS_DYNAMIC_TIMER the tick ends in the scheduler's. *)
Definition timer_tick (fuel : nat) (time : Z) : K handler_return :=
  let* r := timer_tick_loop fuel time INT_NO_RESCHEDULE in
  let* s := thread_timer_tick in
  match s with INT_RESCHEDULE => ret INT_RESCHEDULE | INT_NO_RESCHEDULE => ret r end.
End tick.

(** ** Well-formed kernels *)

(** What a queued timer may be: a sleep timer's thread sleeps, the thread of a
    wait queue's timeout is alive, and both are the timers of that thread's
    stack frame. *)
Definition timer_target (k : kernel) (id : nat) (tm : timer_t timer_cb) : Prop :=
  match callback tm with
  | Some (thread_sleep_handler_cb t) =>
      id = local_timer t /\ periodic_time tm = 0 /\
      exists th, threads k !! t = Some th /\ th_state th = THREAD_SLEEPING
  | Some (wait_queue_timeout_handler_cb t) =>
      id = local_timer t /\ periodic_time tm = 0 /\
      exists th, threads k !! t = Some th /\ th_state th <> THREAD_DEATH
  | Some (other_cb n) => id = S (local_timer n)
  | None => False
  end.

Definition has_sleep_timer (k : kernel) (t : tid) : Prop :=
  local_timer t ∈ timer_queue (timer_st k) /\
  exists tm, Timer.timers (timer_st k) !! local_timer t = Some tm /\
    callback tm = Some (thread_sleep_handler_cb t).

Definition has_retcode_queue (k : kernel) (t : tid) : Prop :=
  exists w, wait_queues k !! WqRetcode t = Some w /\ wq_magic w = WAIT_QUEUE_MAGIC.

(** [wfx X k]: queues, bitmap and thread states agree, where the threads in [X]
    are in transit, on no queue. *)
Record wfx (X : gset tid) (k : kernel) : Prop := {
  w_len : length (run_queue k) = NUM_PRIORITIES;
  w_bm : 0 <= run_queue_bitmap k < 2 ^ 32;
  w_bits : forall p l, run_queue k !! p = Some l ->
    Z.testbit (run_queue_bitmap k) (Z.of_nat p) = negb (bool_decide (l = []));
  w_rq : forall p l, run_queue k !! p = Some l ->
    NoDup l /\ forall t, t ∈ l -> exists th, threads k !! t = Some th /\
      th_state th = THREAD_READY /\ Z.to_nat (th_priority th) = p /\ t <> idle_thread k /\ t ∉ X;
  w_ready : forall t th, threads k !! t = Some th -> th_state th = THREAD_READY ->
    t <> idle_thread k -> t ∉ X ->
    exists l, run_queue k !! Z.to_nat (th_priority th) = Some l /\ t ∈ l;
  w_wq : forall q w, wait_queues k !! q = Some w ->
    NoDup (wq_list w) /\ wq_count w = Z.of_nat (length (wq_list w)) /\
    (wq_list w <> [] -> wq_magic w = WAIT_QUEUE_MAGIC) /\
    forall t, t ∈ wq_list w -> exists th, threads k !! t = Some th /\
      th_state th = THREAD_BLOCKED /\ th_blocking_wait_queue th = Some q /\ t ∉ X;
  w_blocked : forall t th, threads k !! t = Some th -> th_state th = THREAD_BLOCKED -> t ∉ X ->
    exists q w, th_blocking_wait_queue th = Some q /\ wait_queues k !! q = Some w /\
      t ∈ wq_list w;
  w_thread : forall t th, threads k !! t = Some th ->
    0 <= th_priority th < 32 /\ (th_state th <> THREAD_DEATH -> th_magic th = THREAD_MAGIC) /\
    thread_is_idle th = bool_decide (t = idle_thread k) /\
    (th_state th = THREAD_RUNNING -> t = current k);
  w_idle : exists th, threads k !! idle_thread k = Some th /\
    (th_state th = THREAD_READY \/ th_state th = THREAD_RUNNING);
  w_timers : NoDup (timer_queue (timer_st k)) /\
    forall id, id ∈ timer_queue (timer_st k) -> exists tm,
      Timer.timers (timer_st k) !! id = Some tm /\ timer_magic tm = TIMER_MAGIC /\
      timer_target k id tm;
  w_sleep : forall t th, threads k !! t = Some th -> th_state th = THREAD_SLEEPING -> t ∉ X ->
    has_sleep_timer k t;
  w_retcode : forall t th, threads k !! t = Some th -> th_magic th = THREAD_MAGIC ->
    has_retcode_queue k t;
  w_unblocked : forall t th, threads k !! t = Some th -> th_state th <> THREAD_BLOCKED ->
    th_blocking_wait_queue th = None
}.

(** A kernel between two critical sections: all of the above, and the current
    thread is the one that runs. *)
Definition wf (k : kernel) : Prop :=
  wfx ∅ k /\ exists th, threads k !! current k = Some th /\ th_state th = THREAD_RUNNING.
