(* ===== verification/KernelInv.v ===== *)
(** * Scheduler and wait queues: the kernel invariant

    Every operation of Kernel.v keeps the kernel well formed ([wf]) and runs to
    its end without a failed assertion or a fault; get_top_thread picks the head
    of the highest non-empty priority. *)

From stdpp Require Import prelude list gmap.
From Stdlib Require Import ZArith Lia.
From S2P Require Import Prelude Timer Kernel.

Open Scope Z_scope.
Open Scope lk_scope.

(** ** Stepping through kernel code *)

Lemma wp_get_current Q k : Q (current k) k -> wp get_current_thread Q k.
Proof. done. Qed.

Lemma wp_get_thread t th Q k : threads k !! t = Some th -> Q th k -> wp (get_thread t) Q k.
Proof. intros H HQ. unfold wp, get_thread, bind, get. by rewrite H. Qed.

Lemma wp_get_wait_queue q w Q k :
  wait_queues k !! q = Some w -> Q w k -> wp (get_wait_queue q) Q k.
Proof. intros H HQ. unfold wp, get_wait_queue, bind, get. by rewrite H. Qed.

Definition k_upd (t : tid) (th : thread) (k : kernel) : kernel :=
  k_set_threads (<[t := th]> (threads k)) k.

Lemma wp_upd_thread t th f Q k :
  threads k !! t = Some th -> Q tt (k_upd t (f th) k) -> wp (upd_thread t f) Q k.
Proof.
  intros H HQ. unfold upd_thread. apply wp_seq. by eapply wp_get_thread.
Qed.

Lemma wp_set_wait_queue q w Q k :
  Q tt (k_set_wait_queues (<[q := w]> (wait_queues k)) k) -> wp (set_wait_queue q w) Q k.
Proof. done. Qed.

Lemma k_upd_upd t th th' k : k_upd t th' (k_upd t th k) = k_upd t th' k.
Proof. unfold k_upd, k_set_threads. simpl. by rewrite insert_insert_eq. Qed.

Lemma is_state_true s th : th_state th = s -> is_state s th = true.
Proof. intros. unfold is_state. by rewrite bool_decide_true. Qed.

Lemma is_state_false s th : th_state th <> s -> is_state s th = false.
Proof. intros. unfold is_state. by rewrite bool_decide_false. Qed.

(** Lookups after updates. *)
Ltac k_lookup :=
  cbn [threads wait_queues current idle_thread k_upd k_set_threads k_set_run_queue
       k_set_wait_queues k_set_current k_set_timers k_set_thread_list];
  rewrite ?lookup_insert_eq; by eauto.

(** One statement of kernel code: goals of the form [wp (c ;; k) Q s]. *)
Ltac wp_prim :=
  lazymatch goal with
  | |- wp get _ _ => apply wp_get
  | |- wp get_current_thread _ _ => apply wp_get_current
  | |- wp (set_wait_queue _ _) _ _ => apply wp_set_wait_queue
  | |- wp (get_thread _) _ _ => eapply wp_get_thread; [k_lookup|]
  | |- wp (upd_thread _ _) _ _ => eapply wp_upd_thread; [k_lookup|]
  | |- wp (get_wait_queue _) _ _ => eapply wp_get_wait_queue; [k_lookup|]
  | |- wp (assert_ _) _ _ =>
      apply wp_assert;
      [first [done | by apply is_state_true | by apply Z.eqb_eq; eauto]|]
  | |- wp (ret _) _ _ => apply wp_ret
  | |- wp (modify _) _ _ => apply wp_modify
  end.

Ltac wp_step :=
  lazymatch goal with |- wp (bind _ _) _ _ => apply wp_seq | _ => idtac end;
  wp_prim; cbv beta.

(** ** Threads in transit *)

Section transit.
Implicit Types (X : gset tid) (k : kernel) (t : tid).

Lemma in_queue_false X k t : wfx X k -> t ∈ X -> in_queue k t = false.
Proof.
  intros Hwf Ht. unfold in_queue. apply orb_false_iff. split.
  - apply not_true_iff_false. intros H. apply existsb_exists in H as (l & Hl & Htl).
    apply bool_decide_eq_true in Htl.
    apply list_elem_of_In, list_elem_of_lookup in Hl as [p Hp].
    destruct (w_rq _ _ Hwf p l Hp) as [_ H]. destruct (H t Htl) as (? & ? & ? & ? & ? & ?). done.
  - apply not_true_iff_false. intros H. apply existsb_exists in H as ([q w] & Hl & Htl).
    apply bool_decide_eq_true in Htl. simpl in Htl.
    apply list_elem_of_In, elem_of_map_to_list in Hl.
    destruct (w_wq _ _ Hwf q w Hl) as (_ & _ & _ & H). destruct (H t Htl) as (? & ? & ? & ? & ?).
    done.
Qed.

(** A thread whose state puts it on no queue can be taken into transit ... *)
Definition unqueued (k : kernel) t (th : thread) : Prop :=
  th_state th <> THREAD_BLOCKED /\ th_state th <> THREAD_SLEEPING /\
  (th_state th = THREAD_READY -> t = idle_thread k).

Lemma wfx_take_gen X k t th :
  wfx X k -> threads k !! t = Some th -> th_state th <> THREAD_BLOCKED ->
  (th_state th = THREAD_READY -> t = idle_thread k) -> wfx ({[t]} ∪ X) k.
Proof.
  intros [w_len0 w_bm0 w_bits0 w_rq0 w_ready0 w_wq0 w_blocked0 w_thread0 w_idle0 w_timers0 w_sleep0 w_retcode0 w_unblocked0] Ht Hb Hr. split; try done.
  - intros p l Hp. destruct (w_rq0 p l Hp) as [Hnd Hin]. split; [done|].
    intros t' Ht'. destruct (Hin t' Ht') as (th' & ? & Hs & ? & ? & ?). exists th'.
    repeat split; try done. rewrite not_elem_of_union, not_elem_of_singleton.
    split; [|done]. intros ->. simplify_eq; by auto.
  - intros t' th' ? ? ? Hx. rewrite not_elem_of_union in Hx. apply w_ready0; tauto.
  - intros q w Hq. destruct (w_wq0 q w Hq) as (Hnd & Hc & Hm & Hin).
    repeat split; try done. intros t' Ht'. destruct (Hin t' Ht') as (th' & ? & Hs & ? & ?).
    exists th'. repeat split; try done.
    rewrite not_elem_of_union, not_elem_of_singleton. split; [|done]. intros ->. by simplify_eq.
  - intros t' th' ? ? Hx. rewrite not_elem_of_union in Hx. apply w_blocked0; tauto.
  - intros t' th' ? ? Hx. rewrite not_elem_of_union in Hx. eapply w_sleep0; [done..|tauto].
Qed.

Lemma wfx_take X k t th :
  wfx X k -> threads k !! t = Some th -> unqueued k t th -> wfx ({[t]} ∪ X) k.
Proof. intros ? ? (? & _ & ?). by eapply wfx_take_gen. Qed.

(** ... and put back. *)
Lemma wfx_drop_gen X k t th :
  wfx X k -> threads k !! t = Some th -> th_state th <> THREAD_BLOCKED ->
  (th_state th = THREAD_READY -> t = idle_thread k) ->
  (th_state th = THREAD_SLEEPING -> has_sleep_timer k t) -> wfx (X ∖ {[t]}) k.
Proof.
  intros [w_len0 w_bm0 w_bits0 w_rq0 w_ready0 w_wq0 w_blocked0 w_thread0 w_idle0 w_timers0 w_sleep0 w_retcode0 w_unblocked0] Ht Hb Hr Hsl. split; try done.
  - intros p l Hp. destruct (w_rq0 p l Hp) as [Hnd Hin]. split; [done|].
    intros t' Ht'. destruct (Hin t' Ht') as (th' & ? & Hs & ? & ? & ?). exists th'.
    repeat split; try done. rewrite elem_of_difference. tauto.
  - intros t' th' Hth' Hs Hi Hx. apply w_ready0; try done.
    intros Hx'. apply Hx. apply elem_of_difference. split; [done|].
    rewrite not_elem_of_singleton. intros ->. simplify_eq; by auto.
  - intros q w Hq. destruct (w_wq0 q w Hq) as (Hnd & Hc & Hm & Hin).
    repeat split; try done. intros t' Ht'. destruct (Hin t' Ht') as (th' & ? & Hs & ? & ?).
    exists th'. repeat split; try done. rewrite elem_of_difference. tauto.
  - intros t' th' Hth' Hs Hx. apply w_blocked0; try done.
    intros Hx'. apply Hx. apply elem_of_difference. split; [done|].
    rewrite not_elem_of_singleton. intros ->. simplify_eq; by auto.
  - intros t' th' Hth' Hs Hx. destruct (decide (t' = t)) as [->|Hne].
    + simplify_eq; by auto.
    + eapply w_sleep0; [done..|]. intros Hx'. apply Hx. set_solver.
Qed.

Lemma wfx_drop X k t th :
  wfx X k -> threads k !! t = Some th -> unqueued k t th -> wfx (X ∖ {[t]}) k.
Proof. intros ? ? (? & ? & ?). by eapply wfx_drop_gen. Qed.

(** The queued timers that name thread [t] allow it to be [th]. *)
Definition timers_allow (k : kernel) t (th : thread) : Prop :=
  forall id tm, id ∈ timer_queue (timer_st k) -> Timer.timers (timer_st k) !! id = Some tm ->
    (callback tm = Some (thread_sleep_handler_cb t) -> th_state th = THREAD_SLEEPING) /\
    (callback tm = Some (wait_queue_timeout_handler_cb t) -> th_state th <> THREAD_DEATH).

Lemma timer_target_upd k t th id tm :
  timers_allow k t th -> id ∈ timer_queue (timer_st k) ->
  Timer.timers (timer_st k) !! id = Some tm ->
  timer_target k id tm -> timer_target (k_upd t th k) id tm.
Proof.
  intros Ha Hid Htm. destruct (Ha id tm Hid Htm) as [H1 H2]. unfold timer_target. simpl.
  destruct (callback tm) as [[t'|t'|n]|]; [|auto..];
    (intros (-> & ? & th' & ? & ?); repeat split; try done;
     destruct (decide (t = t')) as [->|Hne];
     [rewrite lookup_insert_eq|rewrite lookup_insert_ne by done]; eauto).
Qed.

(** A thread that does not sleep may change to any live state. *)
Lemma timers_allow_live X k t th th' :
  wfx X k -> threads k !! t = Some th -> th_state th <> THREAD_SLEEPING ->
  th_state th' <> THREAD_DEATH -> timers_allow k t th'.
Proof.
  intros Hwf Ht Hs Hd id tm Hid Htm. split; [|done]. intros Hc.
  destruct (w_timers _ _ Hwf) as [_ H]. destruct (H id Hid) as (tm' & Htm' & _ & Htg).
  assert (tm' = tm) as -> by congruence. unfold timer_target in Htg. rewrite Hc in Htg.
  destruct Htg as (_ & _ & th0 & ? & ?). congruence.
Qed.

(** What an update of a thread in transit must respect. *)
Definition thread_ok (k : kernel) t (th : thread) : Prop :=
  0 <= th_priority th < 32 /\ (th_state th <> THREAD_DEATH -> th_magic th = THREAD_MAGIC) /\
  thread_is_idle th = bool_decide (t = idle_thread k) /\
  (th_state th = THREAD_RUNNING -> t = current k) /\
  (t = idle_thread k -> th_state th = THREAD_READY \/ th_state th = THREAD_RUNNING) /\
  timers_allow k t th /\ (th_magic th = THREAD_MAGIC -> has_retcode_queue k t) /\
  (th_state th <> THREAD_BLOCKED -> th_blocking_wait_queue th = None).

Lemma wfx_upd X k t th : wfx X k -> t ∈ X -> thread_ok k t th -> wfx X (k_upd t th k).
Proof.
  intros [w_len0 w_bm0 w_bits0 w_rq0 w_ready0 w_wq0 w_blocked0 w_thread0 w_idle0 w_timers0 w_sleep0 w_retcode0 w_unblocked0] Ht (Hp & Hm & Hi & Hr & Hidle & Hta & Hrq & Hub).
  split; simpl; try done.
  - intros p l Hl. destruct (w_rq0 p l Hl) as [Hnd Hin]. split; [done|].
    intros t' Ht'. destruct (Hin t' Ht') as (th' & ? & Hs & ? & ? & ?). exists th'.
    rewrite lookup_insert_ne by (intros ->; done). done.
  - intros t' th' Hth' ? ? ?. destruct (decide (t = t')) as [->|Hne]; [done|].
    rewrite lookup_insert_ne in Hth' by done. by apply w_ready0.
  - intros q w Hq. destruct (w_wq0 q w Hq) as (Hnd & Hc & Hmm & Hin).
    repeat split; try done. intros t' Ht'. destruct (Hin t' Ht') as (th' & ? & Hs & ? & ?).
    exists th'. rewrite lookup_insert_ne by (intros ->; done). done.
  - intros t' th' Hth' ? ?. destruct (decide (t = t')) as [->|Hne]; [done|].
    rewrite lookup_insert_ne in Hth' by done. by apply w_blocked0.
  - intros t' th' Hth'. destruct (decide (t = t')) as [->|Hne].
    + rewrite lookup_insert_eq in Hth'. by simplify_eq.
    + rewrite lookup_insert_ne in Hth' by done. by apply w_thread0.
  - destruct (decide (t = idle_thread k)) as [->|Hne].
    + exists th. rewrite lookup_insert_eq. auto.
    + rewrite lookup_insert_ne by done. done.
  - destruct w_timers0 as [Hnd Hin]. split; [done|]. intros id Hid.
    destruct (Hin id Hid) as (tm & Htm & Hmag & Htg). exists tm. repeat split; try done.
    by apply timer_target_upd.
  - intros t' th' Hth' Hs Hx. apply (w_sleep0 t' th'); try done.
    by rewrite lookup_insert_ne in Hth' by (intros ->; done).
  - intros t' th' Hth' Hmag. destruct (decide (t = t')) as [->|Hne].
    + rewrite lookup_insert_eq in Hth'. simplify_eq. by apply Hrq.
    + rewrite lookup_insert_ne in Hth' by done. by apply (w_retcode0 t' th').
  - intros t' th' Hth' Hs. destruct (decide (t = t')) as [->|Hne].
    + rewrite lookup_insert_eq in Hth'. simplify_eq. by apply Hub.
    + rewrite lookup_insert_ne in Hth' by done. by apply (w_unblocked0 t' th').
Qed.
End transit.

(** ** Bits of the bitmap *)

Lemma u32_bit p : 0 <= p < 32 -> u32 (Z.shiftl 1 p) = 2 ^ p.
Proof.
  intros. rewrite Z.shiftl_mul_pow2, Z.mul_1_l by lia. apply u32_small.
  split; [lia|]. apply Z.pow_lt_mono_r; lia.
Qed.

Lemma testbit_set b p i : 0 <= p < 32 -> 0 <= i ->
  Z.testbit (Z.lor b (u32 (Z.shiftl 1 p))) i = Z.testbit b i || (i =? p).
Proof.
  intros. rewrite u32_bit, Z.lor_spec, Z.pow2_bits_eqb by lia. by rewrite Z.eqb_sym.
Qed.

Lemma testbit_clear b p i : 0 <= p -> 0 <= i ->
  Z.testbit (Z.land b (Z.lnot (Z.shiftl 1 p))) i = Z.testbit b i && negb (i =? p).
Proof.
  intros. rewrite Z.land_spec, Z.lnot_spec, Z.shiftl_mul_pow2, Z.mul_1_l by lia.
  rewrite Z.pow2_bits_eqb by lia. by rewrite Z.eqb_sym.
Qed.

Lemma set_bit_range b p : 0 <= b < 2 ^ 32 -> 0 <= p < 32 ->
  0 <= Z.lor b (u32 (Z.shiftl 1 p)) < 2 ^ 32.
Proof.
  intros Hb Hp. rewrite u32_bit by lia. split; [apply Z.lor_nonneg; lia|].
  destruct (Z.eq_dec (Z.lor b (2 ^ p)) 0) as [->|Hne]; [lia|].
  apply Z.log2_lt_pow2; [pose proof (proj2 (Z.lor_nonneg b (2 ^ p))); lia|].
  rewrite Z.log2_lor, Z.log2_pow2 by lia.
  destruct (Z.eq_dec b 0) as [->|]; [simpl; lia|].
  assert (Z.log2 b < 32) by (apply Z.log2_lt_pow2; lia). lia.
Qed.

Lemma clear_bit_range b p : 0 <= b < 2 ^ 32 ->
  0 <= Z.land b (Z.lnot (Z.shiftl 1 p)) < 2 ^ 32.
Proof.
  intros Hb. assert (Hn : 0 <= Z.land b (Z.lnot (Z.shiftl 1 p))) by (apply Z.land_nonneg; lia).
  split; [done|]. apply Z.bounded_iff_bits_nonneg; [lia..|]. intros i Hi.
  rewrite Z.land_spec. rewrite (proj1 (Z.bounded_iff_bits_nonneg 32 b ltac:(lia) ltac:(lia))); [done|lia|lia].
Qed.

(** ** Inserting into the run queue *)

Section run_queue_ops.
Implicit Types (X : gset tid) (k : kernel) (t : tid).

Lemma wfx_insert (head : bool) X k t th l :
  let p := Z.to_nat (th_priority th) in
  wfx X k -> t ∈ X -> threads k !! t = Some th -> th_state th = THREAD_READY ->
  t <> idle_thread k -> run_queue k !! p = Some l ->
  wfx (X ∖ {[t]})
    (k_set_run_queue (<[p := if head then t :: l else l ++ [t]]> (run_queue k))
       (Z.lor (run_queue_bitmap k) (u32 (Z.shiftl 1 (th_priority th)))) k).
Proof.
  intros p Hwf Ht Hth Hst Hni Hl.
  destruct (w_thread _ _ Hwf t th Hth) as (Hprio & _).
  destruct (w_rq _ _ Hwf p l Hl) as [Hnd Hin].
  assert (Htl : t ∉ l) by (intros H; destruct (Hin t H) as (? & ? & ? & ? & ? & ?); done).
  set (l' := if head then t :: l else l ++ [t]).
  assert (Hl' : forall x, x ∈ l' <-> x = t \/ x ∈ l).
  { intros x. subst l'. destruct head; set_solver. }
  assert (Hnd' : NoDup l').
  { subst l'. destruct head; [by constructor|]. apply NoDup_app. split; [done|].
    split; [set_solver|apply NoDup_singleton]. }
  assert (Hne : l' <> []) by (subst l'; destruct head; [done|by destruct l]).
  pose proof (lookup_lt_Some _ _ _ Hl) as Hlen.
  split; simpl.
  - rewrite length_insert. apply (w_len _ _ Hwf).
  - apply set_bit_range; [apply (w_bm _ _ Hwf)|done].
  - intros p' l0 Hl0. rewrite testbit_set by lia.
    destruct (decide (p' = p)) as [->|Hp].
    + rewrite list_lookup_insert_eq in Hl0 by done. simplify_eq.
      replace (Z.of_nat p =? th_priority th) with true
        by (symmetry; apply Z.eqb_eq; subst p; lia).
      by rewrite bool_decide_false, orb_true_r.
    + rewrite list_lookup_insert_ne in Hl0 by done.
      rewrite (w_bits _ _ Hwf p' l0 Hl0).
      replace (Z.of_nat p' =? th_priority th) with false
        by (symmetry; apply Z.eqb_neq; subst p; lia). by rewrite orb_false_r.
  - intros p' l0 Hl0. destruct (decide (p' = p)) as [->|Hp].
    + rewrite list_lookup_insert_eq in Hl0 by done. simplify_eq. split; [done|].
      intros x Hx. apply Hl' in Hx as [->|Hx].
      * exists th. repeat split; try done. rewrite elem_of_difference. set_solver.
      * destruct (Hin x Hx) as (thx & ? & ? & ? & ? & ?). exists thx.
        repeat split; try done. rewrite elem_of_difference. tauto.
    + rewrite list_lookup_insert_ne in Hl0 by done.
      destruct (w_rq _ _ Hwf p' l0 Hl0) as [? Hin0]. split; [done|]. intros x Hx.
      destruct (Hin0 x Hx) as (thx & ? & ? & ? & ? & ?). exists thx.
      repeat split; try done. rewrite elem_of_difference. tauto.
  - intros x thx Hx Hsx Hnix HxX. destruct (decide (x = t)) as [->|Hxt].
    + simplify_eq. exists l'. rewrite list_lookup_insert_eq by done. split; [done|].
      apply Hl'. by left.
    + destruct (w_ready _ _ Hwf x thx Hx Hsx Hnix) as (lx & Hlx & Hinx); [set_solver|].
      destruct (decide (Z.to_nat (th_priority thx) = p)) as [Hp|Hp].
      * rewrite Hp in Hlx |- *. assert (lx = l) as -> by congruence.
        exists l'. rewrite list_lookup_insert_eq by done. split; [done|].
        apply Hl'. by right.
      * exists lx. by rewrite list_lookup_insert_ne.
  - intros q w Hq. destruct (w_wq _ _ Hwf q w Hq) as (? & ? & ? & Hwin).
    repeat split; try done. intros x Hx. destruct (Hwin x Hx) as (thx & ? & ? & ? & ?).
    exists thx. repeat split; try done. rewrite elem_of_difference. tauto.
  - intros x thx Hx Hsx HxX. apply (w_blocked _ _ Hwf x thx Hx Hsx).
    destruct (decide (x = t)) as [->|]; [simplify_eq; congruence|set_solver].
  - apply (w_thread _ _ Hwf).
  - apply (w_idle _ _ Hwf).
  - apply (w_timers _ _ Hwf).
  - intros x thx Hx Hsx HxX. apply (w_sleep _ _ Hwf x thx Hx Hsx).
    destruct (decide (x = t)) as [->|]; [simplify_eq; congruence|set_solver].
  - apply (w_retcode _ _ Hwf).
  - apply (w_unblocked _ _ Hwf).
Qed.

(** The run queue after inserting [t]. *)
Definition run_queue_with (head : bool) k t (th : thread) : list (list tid) :=
  alter (fun l => if head then t :: l else l ++ [t]) (Z.to_nat (th_priority th)) (run_queue k).

(** insert_in_run_queue_head and _tail on a ready thread in transit. *)
Lemma wp_insert_run_eq head X k t th Q :
  wfx X k -> t ∈ X -> threads k !! t = Some th -> th_state th = THREAD_READY ->
  t <> idle_thread k ->
  (forall bm, wfx (X ∖ {[t]}) (k_set_run_queue (run_queue_with head k t th) bm k) ->
     Q tt (k_set_run_queue (run_queue_with head k t th) bm k)) ->
  wp (insert_in_run_queue head t) Q k.
Proof.
  intros Hwf Ht Hth Hst Hni HQ. unfold insert_in_run_queue.
  destruct (w_thread _ _ Hwf t th Hth) as (Hprio & Hmagic & _).
  wp_step. wp_step. apply wp_seq, wp_assert; [apply Z.eqb_eq, Hmagic; congruence|].
  apply wp_seq, wp_assert; [by apply is_state_true|].
  apply wp_seq, wp_assert; [by rewrite (in_queue_false X)|].
  rewrite (proj2 (Z.ltb_ge _ _)) by lia.
  destruct (lookup_lt_is_Some_2 (run_queue k) (Z.to_nat (th_priority th))) as [l Hl].
  { rewrite (w_len _ _ Hwf). unfold NUM_PRIORITIES. lia. }
  apply wp_seq. eapply wp_deref; [exact Hl|].
  pose proof (wfx_insert head X k t th l Hwf Ht Hth Hst Hni Hl) as Hw.
  replace (<[Z.to_nat (th_priority th) := if head then t :: l else l ++ [t]]> (run_queue k))
    with (run_queue_with head k t th) in *; [by apply HQ|].
  unfold run_queue_with. apply list_eq. intros p.
  destruct (decide (p = Z.to_nat (th_priority th))) as [->|Hne].
  - rewrite list_lookup_alter_eq, list_lookup_insert_eq by (by eapply lookup_lt_Some). by rewrite Hl.
  - by rewrite list_lookup_alter_ne, list_lookup_insert_ne by done.
Qed.

Lemma wp_insert_run head X k t th Q :
  wfx X k -> t ∈ X -> threads k !! t = Some th -> th_state th = THREAD_READY ->
  t <> idle_thread k ->
  (forall rq bm, wfx (X ∖ {[t]}) (k_set_run_queue rq bm k) -> Q tt (k_set_run_queue rq bm k)) ->
  wp (insert_in_run_queue head t) Q k.
Proof. intros. eapply wp_insert_run_eq; eauto. Qed.

(** ** Choosing the next thread *)

Lemma wfx_pop X k p t l :
  wfx X k -> run_queue k !! p = Some (t :: l) ->
  wfx ({[t]} ∪ X)
    (k_set_run_queue (<[p := l]> (run_queue k))
       (match l with
        | [] => Z.land (run_queue_bitmap k) (Z.lnot (Z.shiftl 1 (Z.of_nat p)))
        | _ => run_queue_bitmap k end) k).
Proof.
  intros Hwf Hl. destruct (w_rq _ _ Hwf p _ Hl) as [Hnd Hin].
  apply NoDup_cons in Hnd as [Htl Hnd].
  destruct (Hin t) as (th & Hth & Hst & Hp & Hni & HtX); [by left|].
  pose proof (lookup_lt_Some _ _ _ Hl) as Hlen.
  assert (Hother : forall p' l', p' <> p -> run_queue k !! p' = Some l' -> t ∉ l').
  { intros p' l' Hp' Hl' H. destruct (w_rq _ _ Hwf p' l' Hl') as [_ H'].
    destruct (H' t H) as (th' & ? & ? & ? & ?). congruence. }
  split; simpl.
  - rewrite length_insert. apply (w_len _ _ Hwf).
  - destruct l; [apply clear_bit_range|]; apply (w_bm _ _ Hwf).
  - intros p' l0 Hl0. destruct (decide (p' = p)) as [->|Hp'].
    + rewrite list_lookup_insert_eq in Hl0 by done. injection Hl0 as <-. destruct l.
      * rewrite testbit_clear, Z.eqb_refl by lia. by rewrite andb_false_r.
      * apply (w_bits _ _ Hwf p _ Hl).
    + rewrite list_lookup_insert_ne in Hl0 by done.
      rewrite <- (w_bits _ _ Hwf p' l0 Hl0). destruct l; [|done].
      rewrite testbit_clear by lia. rewrite (proj2 (Z.eqb_neq _ _)) by lia.
      by rewrite andb_true_r.
  - intros p' l0 Hl0. destruct (decide (p' = p)) as [->|Hp'].
    + rewrite list_lookup_insert_eq in Hl0 by done. injection Hl0 as <-. split; [done|].
      intros x Hx. destruct (Hin x) as (thx & ? & ? & ? & ? & ?); [by right|].
      exists thx. repeat split; try done. set_solver.
    + rewrite list_lookup_insert_ne in Hl0 by done.
      destruct (w_rq _ _ Hwf p' l0 Hl0) as [? Hin0]. split; [done|]. intros x Hx.
      destruct (Hin0 x Hx) as (thx & ? & ? & ? & ? & ?). exists thx.
      repeat split; try done. pose proof (Hother _ _ Hp' Hl0). set_solver.
  - intros x thx Hx Hsx Hnix HxX.
    destruct (w_ready _ _ Hwf x thx Hx Hsx Hnix) as (lx & Hlx & Hinx); [set_solver|].
    destruct (decide (Z.to_nat (th_priority thx) = p)) as [Hpx|Hpx].
    + rewrite Hpx in Hlx |- *. assert (lx = t :: l) as -> by congruence. exists l.
      rewrite list_lookup_insert_eq by done. split; [done|]. set_solver.
    + exists lx. by rewrite list_lookup_insert_ne.
  - intros q w Hq. destruct (w_wq _ _ Hwf q w Hq) as (? & ? & ? & Hwin).
    repeat split; try done. intros x Hx. destruct (Hwin x Hx) as (thx & ? & ? & ? & ?).
    exists thx. repeat split; try done. assert (x <> t) by congruence. set_solver.
  - intros x thx Hx Hsx HxX. apply (w_blocked _ _ Hwf x thx Hx Hsx). set_solver.
  - apply (w_thread _ _ Hwf).
  - apply (w_idle _ _ Hwf).
  - apply (w_timers _ _ Hwf).
  - intros x thx Hx Hsx HxX. apply (w_sleep _ _ Hwf x thx Hx Hsx). set_solver.
  - apply (w_retcode _ _ Hwf).
  - apply (w_unblocked _ _ Hwf).
Qed.

(** The queue get_top_thread takes its thread from. *)
Definition top_queue (k : kernel) (p : nat) (l : list tid) : Prop :=
  run_queue k !! p = Some l /\ l <> [] /\
  forall p' l', (p < p')%nat -> run_queue k !! p' = Some l' -> l' = [].

Lemma bitmap_zero X k : wfx X k -> run_queue_bitmap k = 0 ->
  forall p l, run_queue k !! p = Some l -> l = [].
Proof.
  intros Hwf H0 p l Hl. pose proof (w_bits _ _ Hwf p l Hl) as Hb.
  rewrite H0, Z.bits_0 in Hb. symmetry in Hb. apply negb_false_iff in Hb.
  by apply bool_decide_eq_true in Hb.
Qed.

Lemma bitmap_top X k : wfx X k -> run_queue_bitmap k <> 0 ->
  exists l, top_queue k (Z.to_nat (Z.log2 (run_queue_bitmap k))) l.
Proof.
  intros Hwf Hne. pose proof (w_bm _ _ Hwf) as Hbm. set (b := run_queue_bitmap k) in *.
  assert (Hlog : 0 <= Z.log2 b < 32) by (split; [apply Z.log2_nonneg|apply Z.log2_lt_pow2; lia]).
  destruct (lookup_lt_is_Some_2 (run_queue k) (Z.to_nat (Z.log2 b))) as [l Hl].
  { rewrite (w_len _ _ Hwf). unfold NUM_PRIORITIES. lia. }
  exists l. split; [done|]. split.
  - intros ->. pose proof (w_bits _ _ Hwf _ _ Hl) as Hb. fold b in Hb.
    rewrite Z2Nat.id, Z.bit_log2 in Hb by lia. by rewrite bool_decide_true in Hb.
  - intros p' l' Hp Hl'. pose proof (w_bits _ _ Hwf _ _ Hl') as Hb. fold b in Hb.
    rewrite Z.bits_above_log2 in Hb by lia. symmetry in Hb. apply negb_false_iff in Hb.
    by apply bool_decide_eq_true in Hb.
Qed.

Lemma wp_get_top_thread X k Q :
  wfx X k ->
  (run_queue_bitmap k = 0 -> (forall p l, run_queue k !! p = Some l -> l = []) ->
   Q (idle_thread k) k) ->
  (forall p t l bm, top_queue k p (t :: l) ->
     wfx ({[t]} ∪ X) (k_set_run_queue (<[p := l]> (run_queue k)) bm k) ->
     Q t (k_set_run_queue (<[p := l]> (run_queue k)) bm k)) ->
  wp get_top_thread Q k.
Proof.
  intros Hwf Hidle Htop. unfold get_top_thread. wp_step. change 33%nat with (S 32).
  generalize 32%nat as fuel. intros fuel. cbn [get_top_thread_loop].
  wp_step. destruct (run_queue_bitmap k =? 0) eqn:E.
  - apply Z.eqb_eq in E. apply Hidle; [done|]. by eapply bitmap_zero.
  - apply Z.eqb_neq in E. destruct (bitmap_top X k Hwf E) as (l & Hl & Hne & Hhi).
    unfold builtin_clz.
    replace (4 * 8 - 1 - (31 - Z.log2 (run_queue_bitmap k)))
      with (Z.log2 (run_queue_bitmap k)) by lia.
    apply wp_seq. eapply wp_deref; [exact Hl|]. destruct l as [|t l]; [done|].
    pose proof (wfx_pop X k _ t l Hwf Hl) as Hpop.
    rewrite Z2Nat.id in Hpop by apply Z.log2_nonneg.
    apply Htop; [done|exact Hpop].
Qed.
End run_queue_ops.

(** ** Rescheduling *)

(** What a context switch leaves alone: everything but the run queue, the
    current thread, and the state and quantum of threads. *)
Definition th_erase (th : thread) : thread :=
  th_set_state THREAD_SUSPENDED (th_set_quantum 0 th).

Definition sched_frame (k k' : kernel) : Prop :=
  wait_queues k' = wait_queues k /\ timer_st k' = timer_st k /\
  idle_thread k' = idle_thread k /\ thread_list k' = thread_list k /\ now k' = now k /\
  th_erase <$> threads k' = th_erase <$> threads k.

(** The scheduling policy: the head of the highest-priority non-empty queue is
    taken off it, the idle thread runs when all are empty. *)
Definition picks (k : kernel) (t : tid) (rq : list (list tid)) : Prop :=
  (exists p l, top_queue k p (t :: l) /\ rq = <[p := l]> (run_queue k)) \/
  ((forall p l, run_queue k !! p = Some l -> l = []) /\ t = idle_thread k /\ rq = run_queue k).

#[export] Instance sched_frame_preorder : PreOrder sched_frame.
Proof.
  split.
  - intros k. repeat split.
  - intros k1 k2 k3 (? & ? & ? & ? & ? & ?) (? & ? & ? & ? & ? & ?). repeat split; congruence.
Qed.

Lemma sched_frame_upd k t th th' :
  threads k !! t = Some th -> th_erase th' = th_erase th -> sched_frame k (k_upd t th' k).
Proof.
  intros Ht He. repeat split. simpl. rewrite fmap_insert, He.
  apply insert_id. by rewrite lookup_fmap, Ht.
Qed.

Lemma sched_frame_lookup k k' t th :
  sched_frame k k' -> threads k !! t = Some th ->
  exists th', threads k' !! t = Some th' /\ th_erase th' = th_erase th.
Proof.
  intros (_ & _ & _ & _ & _ & He) Ht.
  assert (H : (th_erase <$> threads k') !! t = Some (th_erase th))
    by (rewrite He, lookup_fmap, Ht; done).
  rewrite lookup_fmap in H. apply fmap_Some in H as (th' & ? & ?). eauto.
Qed.

Lemma wfx_set_current X k n :
  wfx X k -> (forall t th, threads k !! t = Some th -> th_state th <> THREAD_RUNNING) ->
  wfx X (k_set_current n k).
Proof.
  intros [w_len0 w_bm0 w_bits0 w_rq0 w_ready0 w_wq0 w_blocked0 w_thread0 w_idle0 w_timers0 w_sleep0 w_retcode0 w_unblocked0] Hrun.
  split; simpl; try done.
  intros t th Hth. destruct (w_thread0 t th Hth) as (? & ? & ? & ?).
  repeat split; try lia; try done. intros H'. by apply (Hrun t th) in H'.
Qed.

Lemma wf_switch k n th th' :
  wfx ({[n]} ∪ ∅) k -> threads k !! n = Some th ->
  (forall t th, threads k !! t = Some th -> th_state th <> THREAD_RUNNING) ->
  th_state th = THREAD_READY \/ th_state th = THREAD_RUNNING ->
  th_state th' = THREAD_RUNNING -> th_erase th' = th_erase th ->
  wf (k_set_current n (k_upd n th' k)).
Proof.
  intros Hwf Hn Hrun Hd Hr He.
  destruct (w_thread _ _ Hwf n th Hn) as (Hp & Hm & Hi & _).
  assert (Hf : th_priority th' = th_priority th /\ th_magic th' = th_magic th
               /\ th_flags th' = th_flags th
               /\ th_blocking_wait_queue th' = th_blocking_wait_queue th) by (injection He; auto).
  destruct Hf as (Ep & Em & Ef & Eb).
  assert (Hwf' : wfx ({[n]} ∪ ∅) (k_upd n th' (k_set_current n k))).
  { apply wfx_upd; [by apply wfx_set_current|set_solver|].
    unfold thread_ok, thread_is_idle, has_flag in *. rewrite Ep, Em, Ef.
    assert (th_state th <> THREAD_DEATH /\ th_state th <> THREAD_SLEEPING) as [Hd1 Hd2]
      by (destruct Hd as [->| ->]; done).
    split_and!; try lia; try done; auto.
    - apply (timers_allow_live _ _ _ _ th' Hwf Hn); [done|by rewrite Hr].
    - intros Hmag. by apply (w_retcode _ _ Hwf n th).
    - intros _. rewrite Eb. apply (w_unblocked _ _ Hwf n th); [done|].
      destruct Hd as [->| ->]; done. }
  split.
  - replace ∅ with (({[n]} ∪ ∅) ∖ {[n]} : gset tid) by set_solver.
    apply (wfx_drop _ (k_upd n th' (k_set_current n k)) n th'); [done|by k_lookup|].
    unfold unqueued. rewrite Hr. split; done.
  - exists th'. by k_lookup.
Qed.

(** The quantum refill of thread_resched. *)
Lemma wp_refill n th k0 :
  wp (if th_remaining_quantum (th_set_state THREAD_RUNNING th) <=? 0
      then upd_thread n (th_set_quantum 5) else ret tt)
    (fun _ k1 => exists q, k1 = k_upd n (th_set_quantum q (th_set_state THREAD_RUNNING th)) k0)
    (k_upd n (th_set_state THREAD_RUNNING th) k0).
Proof.
  destruct_guard.
  - wp_step. rewrite k_upd_upd. by eexists.
  - hnf. exists (th_remaining_quantum th). by destruct th.
Qed.

(** The second half of thread_resched: switching to [n], which get_top_thread
    has taken off the run queue of [k]. *)
Lemma wp_switch_to k k0 n th Q :
  wfx ({[n]} ∪ ∅) k0 -> sched_frame k k0 -> picks k n (run_queue k0) -> current k0 = current k ->
  (forall t th, threads k0 !! t = Some th -> th_state th <> THREAD_RUNNING) ->
  threads k0 !! n = Some th -> th_state th = THREAD_READY \/ th_state th = THREAD_RUNNING ->
  (forall k', wf k' -> sched_frame k k' -> picks k (current k') (run_queue k') -> Q tt k') ->
  wp (upd_thread n (th_set_state THREAD_RUNNING) ;;
      if Nat.eqb n (current k) then ret tt
      else let* new := get_thread n in
           (if th_remaining_quantum new <=? 0 then upd_thread n (th_set_quantum 5)
            else ret tt) ;;
           modify (k_set_current n)) Q k0.
Proof.
  intros Hwf0 Hfr Hpick Hcur Hrun Hn Hd HQ. wp_step.
  assert (Hf1 : forall q, sched_frame k (k_set_current n
                  (k_upd n (th_set_quantum q (th_set_state THREAD_RUNNING th)) k0))).
  { intros q. destruct Hfr as (? & ? & ? & ? & ? & He). repeat split; try done. simpl.
    rewrite <- He, fmap_insert. apply insert_id. by rewrite lookup_fmap, Hn. }
  destruct (Nat.eqb n (current k)) eqn:E.
  - apply Nat.eqb_eq in E as ->.
    pose proof (wf_switch k0 (current k) th (th_set_state THREAD_RUNNING th)) as Hw.
    replace (k_upd (current k) (th_set_state THREAD_RUNNING th) k0) with
      (k_set_current (current k) (k_upd (current k) (th_set_state THREAD_RUNNING th) k0))
      by (destruct k0; simpl in *; subst; done).
    apply HQ; [by apply Hw| |done].
    specialize (Hf1 (th_remaining_quantum th)). by destruct th.
  - wp_step. apply wp_seq. eapply wp_mono; [apply wp_refill|].
    intros [] k1 (q & ->). hnf. apply HQ; [by eapply wf_switch|apply Hf1|done].
Qed.

(** thread_resched from a state in which the current thread has already been
    taken off the cpu. *)
Lemma wp_resched k old Q :
  wfx ∅ k -> threads k !! current k = Some old -> th_state old <> THREAD_RUNNING ->
  (forall k', wf k' -> sched_frame k k' -> picks k (current k') (run_queue k') -> Q tt k') ->
  wp thread_resched Q k.
Proof.
  intros Hwf Hold Hnr HQ. unfold thread_resched.
  wp_step. wp_step. apply wp_seq, wp_assert; [by rewrite is_state_false|]. cbv beta.
  assert (Hrun : forall t th, threads k !! t = Some th -> th_state th <> THREAD_RUNNING).
  { intros t th Ht Hs. destruct (w_thread _ _ Hwf t th Ht) as (_ & _ & _ & H).
    rewrite (H Hs) in Ht. congruence. }
  apply wp_seq. eapply wp_get_top_thread; [exact Hwf| |].
  - intros _ Hempty. destruct (w_idle _ _ Hwf) as (thi & Hi & His).
    eapply (wp_switch_to k k); try done; [|by right].
    eapply wfx_take; [done|exact Hi|]. split; [|split; [|done]]; destruct His as [H|H]; by rewrite H.
  - intros p t l bm Htop Hpop. destruct Htop as (Hp & Hne & Hhi).
    destruct (w_rq _ _ Hwf p _ Hp) as [_ Hin].
    destruct (Hin t) as (th & Hth & Hst & _); [by left|].
    eapply (wp_switch_to k _ t th); try done; [|by left].
    left. exists p, l. by split.
Qed.

(** ** Moving a thread between states *)

Section moves.
Implicit Types (X : gset tid) (k : kernel) (t : tid) (q : wqid).

(** The part of a thread the invariant constrains whatever its state. *)
Definition same_core (th th' : thread) : Prop :=
  th_priority th' = th_priority th /\ th_magic th' = th_magic th /\ th_flags th' = th_flags th.

Lemma wfx_in_transit X k t th :
  wfx X k -> threads k !! t = Some th -> unqueued k t th \/ t ∈ X -> wfx ({[t]} ∪ X) k.
Proof.
  intros Hwf Ht [Hu|Hx]; [by eapply wfx_take|].
  by replace ({[t]} ∪ X) with X by set_solver.
Qed.

Lemma thread_ok_core X k t th th' :
  wfx X k -> threads k !! t = Some th -> same_core th th' ->
  th_state th <> THREAD_DEATH /\ th_state th <> THREAD_SLEEPING -> th_state th' <> THREAD_DEATH ->
  (th_state th' = THREAD_RUNNING -> t = current k) ->
  (t = idle_thread k -> th_state th' = THREAD_READY \/ th_state th' = THREAD_RUNNING) ->
  (th_state th' <> THREAD_BLOCKED -> th_blocking_wait_queue th' = None \/
     th_state th <> THREAD_BLOCKED /\ th_blocking_wait_queue th' = th_blocking_wait_queue th) ->
  thread_ok k t th'.
Proof.
  intros Hwf Ht (Ep & Em & Ef) [Hd Hs] Hd' Hr Hi Hb.
  destruct (w_thread _ _ Hwf t th Ht) as (Hp & Hm & Hid & _).
  unfold thread_ok, thread_is_idle, has_flag in *. rewrite Ep, Em, Ef.
  split_and!; try done; try lia; auto; [by eapply timers_allow_live|..].
  - intros Hmag. by apply (w_retcode _ _ Hwf t th).
  - intros Hnb. destruct (Hb Hnb) as [|[Hb' ->]]; [done|]. by apply (w_unblocked _ _ Hwf t th).
Qed.

(** A thread leaves a state with no queue for another one. *)
Lemma wfx_move X k t th th' :
  wfx X k -> threads k !! t = Some th -> unqueued k t th -> thread_ok k t th' ->
  unqueued k t th' -> wfx (X ∖ {[t]}) (k_upd t th' k).
Proof.
  intros Hwf Ht Hu Hok Hu'.
  pose proof (wfx_take X k t th Hwf Ht Hu) as H1.
  pose proof (wfx_upd _ k t th' H1 ltac:(set_solver) Hok) as H2.
  replace (X ∖ {[t]}) with (({[t]} ∪ X) ∖ {[t]}) by set_solver.
  eapply wfx_drop; [exact H2|by k_lookup|exact Hu'].
Qed.

(** Making a thread ready and inserting it. *)
Lemma wp_insert_upd head X k t th th' Q :
  wfx X k -> threads k !! t = Some th -> unqueued k t th \/ t ∈ X -> t <> idle_thread k ->
  th_state th' = THREAD_READY -> thread_ok k t th' ->
  (forall rq bm, wfx (X ∖ {[t]}) (k_set_run_queue rq bm (k_upd t th' k)) ->
     Q tt (k_set_run_queue rq bm (k_upd t th' k))) ->
  wp (insert_in_run_queue head t) Q (k_upd t th' k).
Proof.
  intros Hwf Ht Hu Hni Hs Hok HQ.
  pose proof (wfx_in_transit X k t th Hwf Ht Hu) as H1.
  pose proof (wfx_upd _ k t th' H1 ltac:(set_solver) Hok) as H2.
  eapply wp_insert_run; [exact H2|set_solver|by k_lookup|done|done|].
  intros rq bm H3. apply HQ. by replace (X ∖ {[t]}) with (({[t]} ∪ X) ∖ {[t]}) by set_solver.
Qed.

(** A thread comes off a wait queue ... *)
Definition wq_without t (w : wait_queue) : wait_queue :=
  Wait_queue (wq_magic w) (filter (fun x => x <> t) (wq_list w)) (wq_count w - 1).

Lemma retcode_queue_keep k q w w' t :
  wait_queues k !! q = Some w -> wq_magic w' = wq_magic w -> has_retcode_queue k t ->
  has_retcode_queue (k_set_wait_queues (<[q := w']> (wait_queues k)) k) t.
Proof.
  intros Hq Hm (w0 & Hw0 & Hm0). unfold has_retcode_queue. simpl.
  destruct (decide (q = WqRetcode t)) as [->|Hne].
  - exists w'. rewrite lookup_insert_eq. split; [done|]. congruence.
  - exists w0. by rewrite lookup_insert_ne.
Qed.

Lemma wfx_wq_remove X k q w t :
  wfx X k -> wait_queues k !! q = Some w -> t ∈ wq_list w ->
  wfx ({[t]} ∪ X) (k_set_wait_queues (<[q := wq_without t w]> (wait_queues k)) k).
Proof.
  intros Hwf Hq Ht. destruct (w_wq _ _ Hwf q w Hq) as (Hnd & Hc & Hm & Hin).
  destruct (Hin t Ht) as (th & Hth & Hst & Hbq & HtX).
  destruct Hwf as [w_len0 w_bm0 w_bits0 w_rq0 w_ready0 w_wq0 w_blocked0 w_thread0 w_idle0 w_timers0 w_sleep0 w_retcode0 w_unblocked0].
  split; simpl; try done.
  - intros p l Hl. destruct (w_rq0 p l Hl) as [? Hin0]. split; [done|]. intros x Hx.
    destruct (Hin0 x Hx) as (thx & ? & ? & ? & ? & ?). exists thx. repeat split; try done.
    assert (x <> t) by congruence. set_solver.
  - intros x thx ? ? ? ?. apply w_ready0; set_solver.
  - intros q' w' Hq'. destruct (decide (q = q')) as [<-|Hne].
    + rewrite lookup_insert_eq in Hq'. injection Hq' as <-. simpl.
      split; [by apply NoDup_filter|]. split; [|split].
      * rewrite Hc. rewrite <- (filter_ne_length t) by done. lia.
      * intros _. apply Hm. by destruct (wq_list w); [apply elem_of_nil in Ht|].
      * intros x Hx. apply list_elem_of_filter in Hx as [Hxt Hx].
        destruct (Hin x Hx) as (thx & ? & ? & ? & ?). exists thx. repeat split; set_solver.
    + rewrite lookup_insert_ne in Hq' by done.
      destruct (w_wq0 q' w' Hq') as (? & ? & ? & Hin'). repeat split; try done.
      intros x Hx. destruct (Hin' x Hx) as (thx & ? & ? & ? & ?). exists thx.
      repeat split; try done. assert (x <> t) by congruence. set_solver.
  - intros x thx Hx Hsx HxX. destruct (w_blocked0 x thx Hx Hsx) as (qx & wx & ? & Hqx & Hinx);
      [set_solver|].
    destruct (decide (q = qx)) as [<-|Hne].
    + exists q, (wq_without t w). rewrite lookup_insert_eq. repeat split; try done.
      simpl. apply list_elem_of_filter. split; [set_solver|]. congruence.
    + exists qx, wx. by rewrite lookup_insert_ne.
  - intros x thx Hx Hsx HxX. apply (w_sleep0 x thx Hx Hsx). set_solver.
  - intros x thx Hx Hmx. eapply retcode_queue_keep; [exact Hq|done|by apply (w_retcode0 x thx)].
Qed.

(** ... and another one goes to the end of it. *)
Lemma wfx_wq_add X k q w t th :
  wfx X k -> t ∈ X -> wait_queues k !! q = Some w -> wq_magic w = WAIT_QUEUE_MAGIC ->
  thread_ok k t th -> t <> idle_thread k ->
  th_state th = THREAD_BLOCKED -> th_blocking_wait_queue th = Some q ->
  wfx (X ∖ {[t]}) (k_upd t th
    (k_set_wait_queues (<[q := Wait_queue (wq_magic w) (wq_list w ++ [t]) (wq_count w + 1)]>
                          (wait_queues k)) k)).
Proof.
  intros Hwf HtX Hq Hmag Hok Hni Hst Hbq.
  pose proof (wfx_upd X k t th Hwf HtX Hok) as Hwf1.
  destruct (w_wq _ _ Hwf q w Hq) as (Hnd & Hc & Hm & Hin).
  assert (Htw : t ∉ wq_list w) by (intros H; destruct (Hin t H) as (? & ? & ? & ? & ?); done).
  destruct Hwf1 as [w_len0 w_bm0 w_bits0 w_rq0 w_ready0 w_wq0 w_blocked0 w_thread0 w_idle0 w_timers0 w_sleep0 w_retcode0 w_unblocked0].
  simpl in *. split; simpl; try done.
  - intros p l Hl. destruct (w_rq0 p l Hl) as [? Hin0]. split; [done|]. intros x Hx.
    destruct (Hin0 x Hx) as (thx & ? & ? & ? & ? & ?). exists thx. repeat split; set_solver.
  - intros x thx Hx Hsx ? HxX. apply w_ready0; try done.
    destruct (decide (x = t)) as [->|]; [|set_solver].
    rewrite lookup_insert_eq in Hx. congruence.
  - intros q' w' Hq'. destruct (decide (q = q')) as [<-|Hne].
    + rewrite lookup_insert_eq in Hq'. injection Hq' as <-. simpl. split.
      { apply NoDup_app. split; [done|]. split; [set_solver|apply NoDup_singleton]. }
      rewrite length_app. simpl. split; [lia|]. split; [done|].
      intros x Hx. apply elem_of_app in Hx as [Hx|Hx].
      * destruct (w_wq0 q w Hq) as (_ & _ & _ & Hin0).
        destruct (Hin0 x Hx) as (thx & ? & ? & ? & ?). exists thx. repeat split; set_solver.
      * apply list_elem_of_singleton in Hx as ->. exists th. rewrite lookup_insert_eq.
        repeat split; set_solver.
    + rewrite lookup_insert_ne in Hq' by done.
      destruct (w_wq0 q' w' Hq') as (? & ? & ? & Hin'). repeat split; try done.
      intros x Hx. destruct (Hin' x Hx) as (thx & ? & ? & ? & ?). exists thx.
      repeat split; set_solver.
  - intros x thx Hx Hsx HxX. destruct (decide (x = t)) as [->|Hxt].
    + rewrite lookup_insert_eq in Hx. injection Hx as <-. eexists q, _.
      split; [done|]. rewrite lookup_insert_eq. split; [done|]. simpl. set_solver.
    + destruct (w_blocked0 x thx Hx Hsx) as (qx & wx & ? & Hqx & Hinx); [set_solver|].
      destruct (decide (q = qx)) as [<-|Hne].
      * eexists q, _. split; [done|]. rewrite lookup_insert_eq. split; [done|]. simpl.
        assert (wx = w) as -> by congruence. set_solver.
      * exists qx, wx. by rewrite lookup_insert_ne.
  - intros x thx Hx Hsx HxX. apply (w_sleep0 x thx Hx Hsx).
    destruct (decide (x = t)) as [->|]; [|set_solver].
    rewrite lookup_insert_eq in Hx. congruence.
  - intros x thx Hx Hmx. eapply retcode_queue_keep; [exact Hq|done|by apply (w_retcode0 x thx)].
Qed.

(** ** Timers *)

(** A timer leaves the queue: no thread outside [X] sleeps on it. *)
Lemma wfx_timer_remove X k id ts :
  wfx X k -> timer_queue ts = filter (fun x => x <> id) (timer_queue (timer_st k)) ->
  (forall id', id' <> id -> Timer.timers ts !! id' = Timer.timers (timer_st k) !! id') ->
  (forall t th, threads k !! t = Some th -> th_state th = THREAD_SLEEPING -> t ∉ X ->
     local_timer t <> id) ->
  wfx X (k_set_timers ts k).
Proof.
  intros [w_len0 w_bm0 w_bits0 w_rq0 w_ready0 w_wq0 w_blocked0 w_thread0 w_idle0 w_timers0 w_sleep0 w_retcode0 w_unblocked0]
    Hq Hm Hs.
  split; simpl; try done.
  - rewrite Hq. destruct w_timers0 as [Hnd Hin]. split; [by apply NoDup_filter|].
    intros id' Hid'. apply list_elem_of_filter in Hid' as [Hne Hid'].
    rewrite Hm by done. apply (Hin id' Hid').
  - intros t th Ht Hst Hx. destruct (w_sleep0 t th Ht Hst Hx) as [H1 H2].
    pose proof (Hs t th Ht Hst Hx) as Hne. unfold has_sleep_timer. simpl.
    rewrite Hq, Hm by done. split; [|done]. by apply list_elem_of_filter.
Qed.

(** A timer enters it. *)
Lemma wfx_timer_add X k id tm ts :
  wfx X k -> id ∉ timer_queue (timer_st k) -> timer_queue ts ≡ₚ id :: timer_queue (timer_st k) ->
  Timer.timers ts = <[id := tm]> (Timer.timers (timer_st k)) -> timer_magic tm = TIMER_MAGIC ->
  timer_target k id tm -> wfx X (k_set_timers ts k).
Proof.
  intros [w_len0 w_bm0 w_bits0 w_rq0 w_ready0 w_wq0 w_blocked0 w_thread0 w_idle0 w_timers0 w_sleep0 w_retcode0 w_unblocked0]
    Hid Hq Hm Hmag Htg.
  split; simpl; try done.
  - destruct w_timers0 as [Hnd Hin]. rewrite Hq. split; [by constructor|].
    intros id' Hid'. rewrite Hq in Hid'. rewrite Hm.
    destruct (decide (id = id')) as [<-|Hne].
    + exists tm. by rewrite lookup_insert_eq.
    + rewrite lookup_insert_ne by done. apply Hin. set_solver.
  - intros t th Ht Hst Hx. destruct (w_sleep0 t th Ht Hst Hx) as [H1 H2].
    unfold has_sleep_timer. simpl. rewrite Hq, Hm. split; [set_solver|].
    by rewrite lookup_insert_ne by (intros ->; done).
Qed.

(** timer_initialize and timer_set_oneshot on a timer that is not queued. *)
Lemma timer_arm (ts : timer_state timer_cb) id time delay cb :
  id ∉ timer_queue ts ->
  exists ts' tm, timer_set_oneshot id time delay cb (timer_initialize id ts) = Some ts' /\
    timer_queue ts' ≡ₚ id :: timer_queue ts /\ Timer.timers ts' = <[id := tm]> (Timer.timers ts) /\
    timer_magic tm = TIMER_MAGIC /\ callback tm = Some cb /\ periodic_time tm = 0.
Proof.
  intros Hid. unfold timer_set_oneshot, timer_set, timer_initialize. simpl.
  rewrite lookup_insert_eq. simpl. rewrite bool_decide_false by done.
  eexists _, _. split; [done|]. simpl. split; [apply insert_before_perm|].
  rewrite insert_insert_eq. done.
Qed.

Lemma wp_run_timer_op f ts Q k :
  f (timer_st k) = Some ts -> Q tt (k_set_timers ts k) -> wp (run_timer_op f) Q k.
Proof. intros Hf HQ. unfold run_timer_op. wp_step. by rewrite Hf. Qed.
End moves.
