(* ===== verification/KernelOps.v ===== *)
(** * Every kernel operation keeps the kernel well formed

    For each operation of Kernel.v: from a well-formed kernel, under the
    operation's contract, it returns (no assertion fails, no pointer dangles, no
    loop runs on) and leaves a well-formed kernel. *)

From stdpp Require Import prelude list gmap.
From Stdlib Require Import ZArith Lia.
From S2P Require Import Prelude Timer Kernel KernelInv.

Open Scope Z_scope.
Open Scope lk_scope.

Section ops.
Implicit Types (k : kernel) (t : tid) (q : wqid).

Lemma wf_current k : wf k ->
  exists th, threads k !! current k = Some th /\ th_state th = THREAD_RUNNING /\
    th_magic th = THREAD_MAGIC /\ thread_is_idle th = bool_decide (current k = idle_thread k).
Proof.
  intros [Hwf (th & Hth & Hs)]. exists th.
  destruct (w_thread _ _ Hwf _ th Hth) as (_ & Hm & Hi & _).
  repeat split; try done. apply Hm. by rewrite Hs.
Qed.

Lemma unqueued_running k t th : th_state th = THREAD_RUNNING -> unqueued k t th.
Proof. intros Hs. unfold unqueued. by rewrite Hs. Qed.

(** The current thread goes back to the run queue (unless it is the idle
    thread) and the scheduler runs: the tail of thread_yield, thread_preempt and
    thread_set_priority. *)
Lemma wp_requeue_resched k th th' (head : bool) Q :
  wfx ∅ k -> threads k !! current k = Some th -> th_state th = THREAD_RUNNING ->
  th_state th' = THREAD_READY -> thread_ok k (current k) th' ->
  (forall k', wf k' -> wait_queues k' = wait_queues k ->
     (forall t, t <> current k -> th_erase <$> threads k' !! t = th_erase <$> threads k !! t) ->
     th_erase <$> threads k' !! current k = Some (th_erase th') ->
     Q tt k') ->
  wp ((if negb (bool_decide (current k = idle_thread k))
       then insert_in_run_queue head (current k) else ret tt) ;; thread_resched) Q
     (k_upd (current k) th' k).
Proof.
  intros Hwf Hth Hs Hs' Hok HQ.
  assert (Hend : forall rq bm,
    wfx ∅ (k_set_run_queue rq bm (k_upd (current k) th' k)) ->
    wp thread_resched Q (k_set_run_queue rq bm (k_upd (current k) th' k))).
  { intros rq bm Hw. eapply wp_resched; [exact Hw|simpl; by rewrite lookup_insert_eq|by rewrite Hs'|].
    intros k' Hw' (Hwq & _ & _ & _ & _ & He) _. simpl in *.
    assert (Hl : forall t, th_erase <$> threads k' !! t = th_erase <$> <[current k := th']> (threads k) !! t)
      by (intros t; by rewrite <- !lookup_fmap, He).
    apply HQ; [done|done| |].
    - intros t Ht. by rewrite Hl, lookup_insert_ne.
    - by rewrite Hl, lookup_insert_eq. }
  apply wp_seq. case_bool_decide as Hidle; simpl.
  - hnf.
    assert (Hw : wfx ∅ (k_upd (current k) th' k)).
    { replace (∅ : gset tid) with (∅ ∖ {[current k]} : gset tid) by set_solver.
      eapply wfx_move; [done..| |done|]; [by apply unqueued_running|].
      split; [by rewrite Hs'|]. split; [by rewrite Hs'|done]. }
    specialize (Hend (run_queue k) (run_queue_bitmap k)).
    replace (k_set_run_queue (run_queue k) (run_queue_bitmap k) (k_upd (current k) th' k))
      with (k_upd (current k) th' k) in Hend by (by destruct k).
    by apply Hend.
  - eapply wp_insert_upd; [exact Hwf|exact Hth|left; by apply unqueued_running|done|done|done|].
    intros rq bm Hw. apply Hend.
    by replace (∅ : gset tid) with (∅ ∖ {[current k]} : gset tid) by set_solver.
Qed.

(** The running thread may become anything live that keeps its core. *)
Lemma thread_ok_run X k th th' :
  wfx X k -> threads k !! current k = Some th -> th_state th = THREAD_RUNNING ->
  same_core th th' -> th_blocking_wait_queue th' = th_blocking_wait_queue th ->
  th_state th' <> THREAD_DEATH ->
  (current k = idle_thread k -> th_state th' = THREAD_READY \/ th_state th' = THREAD_RUNNING) ->
  thread_ok k (current k) th'.
Proof.
  intros Hwf Ht Hr Hc Hb Hs Hi.
  eapply thread_ok_core; [exact Hwf|exact Ht|done|by rewrite Hr|done..|]. right. by rewrite Hr.
Qed.

Lemma thread_ok_ready X k th th' :
  wfx X k -> threads k !! current k = Some th -> th_state th = THREAD_RUNNING ->
  same_core th th' -> th_blocking_wait_queue th' = th_blocking_wait_queue th ->
  th_state th' = THREAD_READY -> thread_ok k (current k) th'.
Proof.
  intros Hwf Ht Hr Hc Hb Hs. eapply thread_ok_run; try done; [by rewrite Hs|]. intros _. by left.
Qed.

Lemma wp_thread_yield k : wf k -> wp thread_yield (fun _ => wf) k.
Proof.
  intros Hwf. destruct (wf_current k Hwf) as (th & Hth & Hs & Hm & Hi). destruct Hwf as [Hwf _].
  unfold thread_yield. wp_step. wp_step. wp_step. wp_step. wp_step. wp_step.
  rewrite k_upd_upd, Hi. unfold insert_in_run_queue_tail.
  eapply wp_requeue_resched; eauto. by eapply thread_ok_ready.
Qed.

Lemma wp_thread_preempt k : wf k -> wp thread_preempt (fun _ => wf) k.
Proof.
  intros Hwf. destruct (wf_current k Hwf) as (th & Hth & Hs & Hm & Hi). destruct Hwf as [Hwf _].
  unfold thread_preempt. wp_step. wp_step. wp_step. wp_step. wp_step. rewrite Hi.
  unfold insert_in_run_queue_head, insert_in_run_queue_tail.
  pose proof (fun head => wp_requeue_resched k th (th_set_state THREAD_READY th) head (fun _ => wf))
    as Hr.
  destruct (0 <? th_remaining_quantum th); [eapply (Hr true)|eapply (Hr false)]; eauto;
    by eapply thread_ok_ready.
Qed.

Lemma wp_thread_set_priority k p : wf k -> current k <> idle_thread k ->
  wp (thread_set_priority p) (fun _ => wf) k.
Proof.
  intros Hwf Hni. destruct (wf_current k Hwf) as (th & Hth & Hs & Hm & Hi).
  destruct Hwf as [Hwf _]. unfold thread_set_priority, insert_in_run_queue_head.
  wp_step. wp_step. wp_step. rewrite k_upd_upd.
  set (th' := th_set_state _ _).
  pose proof (wp_requeue_resched k th th' true (fun _ => wf)) as Hr.
  rewrite bool_decide_false in Hr by done. eapply Hr; eauto.
  destruct (w_thread _ _ Hwf _ th Hth) as (Hp & _). subst th'.
  assert (timers_allow k (current k) (th_set_state THREAD_READY th))
    by (eapply timers_allow_live; [done..|by rewrite Hs|done]).
  unfold thread_ok, thread_is_idle, has_flag, IDLE_PRIORITY, HIGHEST_PRIORITY in *. simpl.
  split; [repeat destruct_guard; bool_to_prop; lia|]. split_and!; try done.
  - intros _. by apply (w_retcode _ _ Hwf _ th).
  - intros _. apply (w_unblocked _ _ Hwf _ th Hth). by rewrite Hs.
Qed.

Lemma wp_thread_timer_tick k : wf k -> wp thread_timer_tick (fun _ => wf) k.
Proof.
  intros Hwf. destruct (wf_current k Hwf) as (th & Hth & Hs & Hm & Hi).
  unfold thread_timer_tick. wp_step. wp_step. destruct_guard; [done|].
  wp_step. assert (Hw : wf (k_upd (current k) (th_set_quantum (th_remaining_quantum th - 1) th) k)).
  { destruct Hwf as [Hwf _]. split.
    - replace (∅ : gset tid) with (∅ ∖ {[current k]} : gset tid) by set_solver.
      eapply wfx_move; [done..|by apply unqueued_running| |by apply unqueued_running].
      eapply thread_ok_run; try done; [simpl; by rewrite Hs|]. intros _. by right.
    - eexists. by k_lookup. }
  by destruct_guard.
Qed.

(** ** Wait queues *)

Lemma wake_head_empty k q w err :
  wait_queues k !! q = Some w -> wq_list w = [] -> wake_head q err k = (Ret None, k).
Proof. intros Hq Hl. unfold wake_head, get_wait_queue, bind, get. by rewrite Hq; simpl; rewrite Hl. Qed.

(** The state after wake_head has taken [t] off [q]. *)
Definition woken k q w t th (err : Z) : kernel :=
  k_upd t (th_set_wait None err (th_set_state THREAD_READY th))
    (k_set_wait_queues (<[q := wq_without t w]> (wait_queues k)) k).

Lemma wfx_woken X k q w t th err :
  wfx X k -> wait_queues k !! q = Some w -> t ∈ wq_list w -> threads k !! t = Some th ->
  wfx ({[t]} ∪ X) (woken k q w t th err) /\ t <> idle_thread k /\ th_state th = THREAD_BLOCKED.
Proof.
  intros Hwf Hq Ht Hth. destruct (w_wq _ _ Hwf q w Hq) as (_ & _ & _ & Hin).
  destruct (Hin t Ht) as (th' & Hth' & Hs & _). assert (th' = th) as -> by congruence.
  assert (Hni : t <> idle_thread k).
  { intros ->. destruct (w_idle _ _ Hwf) as (thi & Hi & His).
    assert (thi = th) as -> by congruence. rewrite Hs in His. by destruct His. }
  split; [|done]. apply wfx_upd; [by apply wfx_wq_remove|set_solver|].
  pose proof (wfx_wq_remove X k q w t Hwf Hq Ht) as Hw.
  eapply thread_ok_core; [exact Hw|exact Hth|done|by rewrite Hs|done|done|..]; intros _; by left.
Qed.

Lemma wp_wake_head X k q w t l err Q :
  wfx X k -> wait_queues k !! q = Some w -> wq_list w = t :: l ->
  (forall th, threads k !! t = Some th -> th_state th = THREAD_BLOCKED -> t <> idle_thread k ->
     t ∉ X -> wq_list (wq_without t w) = l ->
     wfx ({[t]} ∪ X) (woken k q w t th err) -> Q (Some t) (woken k q w t th err)) ->
  wp (wake_head q err) Q k.
Proof.
  intros Hwf Hq Hl HQ. destruct (w_wq _ _ Hwf q w Hq) as (Hnd & _ & _ & Hin).
  assert (Ht : t ∈ wq_list w) by (rewrite Hl; by left).
  destruct (Hin t Ht) as (th & Hth & Hs & _ & HtX).
  destruct (wfx_woken X k q w t th err Hwf Hq Ht Hth) as (Hw & Hni & _).
  assert (Hwo : filter (fun x => x <> t) (wq_list w) = l)
    by (rewrite Hl in *; by apply filter_ne_head).
  unfold wake_head. wp_step. rewrite Hl. wp_step. wp_step. wp_step. wp_step. wp_step.
  rewrite k_upd_upd. hnf. unfold woken, wq_without in *. rewrite Hwo in *. by apply (HQ th).
Qed.

(** wait_queue_wake_one without rescheduling. *)
Lemma wp_wake_one_head X k q w err Q :
  wfx X k -> wait_queues k !! q = Some w -> wq_magic w = WAIT_QUEUE_MAGIC ->
  (wq_list w = [] -> Q 0 k) ->
  (forall t l th rq bm, wq_list w = t :: l -> threads k !! t = Some th -> t ∉ X ->
     let k' := k_set_run_queue rq bm (woken k q w t th err) in
     wfx X k' -> Q 1 k') ->
  wp (wait_queue_wake_one q false err) Q k.
Proof.
  intros Hwf Hq Hmag H0 H1. unfold wait_queue_wake_one. wp_step. wp_step. wp_step.
  destruct (wq_list w) as [|t l] eqn:Hl.
  - apply wp_seq. unfold wp. rewrite (wake_head_empty k q w err Hq Hl). by apply H0.
  - apply wp_seq. eapply wp_wake_head; [done..|]. intros th Hth Hs Hni HtX _ Hw.
    apply wp_seq. hnf. apply wp_seq. unfold insert_in_run_queue_head.
    eapply wp_insert_run; [exact Hw|set_solver|simpl; by rewrite lookup_insert_eq|done|done|].
    intros rq bm Hw'. apply wp_seq. hnf. apply (H1 t l th rq bm); try done.
    by replace X with (({[t]} ∪ X) ∖ {[t]}) by set_solver.
Qed.

(** The current thread is put at the head of its run queue before it wakes
    others with [reschedule]. *)
Lemma wp_park_current X k th Q :
  wfx X k -> threads k !! current k = Some th -> th_state th = THREAD_RUNNING ->
  current k <> idle_thread k -> current k ∉ X ->
  (forall rq bm, wfx X (k_set_run_queue rq bm (k_upd (current k) (th_set_state THREAD_READY th) k)) ->
     Q tt (k_set_run_queue rq bm (k_upd (current k) (th_set_state THREAD_READY th) k))) ->
  wp (upd_thread (current k) (th_set_state THREAD_READY) ;;
      insert_in_run_queue_head (current k)) Q k.
Proof.
  intros Hwf Hth Hs Hni HX HQ. wp_step. unfold insert_in_run_queue_head.
  eapply wp_insert_upd; [exact Hwf|exact Hth|left; by apply unqueued_running|done|done| |].
  - by eapply thread_ok_ready.
  - intros rq bm Hw. apply HQ. by replace X with (X ∖ {[current k]}) by set_solver.
Qed.

(** wait_queue_wake_one with rescheduling. *)
Lemma wp_wake_one_resched k q w err :
  wf k -> current k <> idle_thread k -> wait_queues k !! q = Some w ->
  wq_magic w = WAIT_QUEUE_MAGIC ->
  wp (wait_queue_wake_one q true err) (fun r k' => wf k' /\
    match wq_list w with
    | [] => r = 0 /\ k' = k
    | t :: _ => r = 1 /\ wait_queues k' = <[q := wq_without t w]> (wait_queues k) /\
        (forall x, x <> t -> th_erase <$> threads k' !! x = th_erase <$> threads k !! x) /\
        exists th, threads k' !! t = Some th /\ th_wait_queue_block_ret th = err
    end) k.
Proof.
  intros Hwf Hni Hq Hmag. destruct (wf_current k Hwf) as (thc & Hthc & Hsc & _).
  pose proof Hwf as [Hw0 _]. unfold wait_queue_wake_one. wp_step. wp_step. wp_step.
  destruct (wq_list w) as [|t l] eqn:Hl.
  - apply wp_seq. unfold wp. by rewrite (wake_head_empty k q w err Hq Hl).
  - apply wp_seq. eapply wp_wake_head; [done..|]. intros th Hth Hs Hnit _ _ Hw.
    assert (Hne : current k <> t) by congruence.
    apply wp_seq. change (current k) with (current (woken k q w t th err)) at 1 2.
    eapply wp_park_current with (th := thc); [exact Hw|simpl; by rewrite lookup_insert_ne|done|done|
      simpl; set_solver|].
    intros rq bm Hw1. apply wp_seq.
    eapply wp_insert_run; [exact Hw1|set_solver| | |done|].
    + simpl. rewrite lookup_insert_ne by done. by rewrite lookup_insert_eq.
    + done.
    + intros rq' bm' Hw2. apply wp_seq. eapply wp_resched.
      * by replace (∅ : gset tid) with (({[t]} ∪ ∅) ∖ {[t]} : gset tid) by set_solver.
      * simpl. by rewrite lookup_insert_eq.
      * done.
      * intros k' Hw' Hf _. pose proof Hf as (Hwq & _ & _ & _ & _ & He). apply wp_ret.
        split; [done|]. split; [done|]. split; [exact Hwq|]. simpl in *. split.
        -- intros x Hx. rewrite <- !lookup_fmap, He, !lookup_fmap.
           destruct (decide (x = current k)) as [->|Hxc].
           ++ by rewrite lookup_insert_eq, Hthc.
           ++ by rewrite !lookup_insert_ne by done.
        -- destruct (sched_frame_lookup _ k' t (th_set_wait None err (th_set_state THREAD_READY th)) Hf)
             as (th' & Ht' & He'); [simpl; by rewrite lookup_insert_ne, lookup_insert_eq by done|].
           exists th'. split; [done|]. by injection He'.
Qed.

(** What waking all threads of [q] does: the queue is empty, its threads are
    ready with the given return code, and nothing else changed. *)
Definition th_wake (err : Z) (th : thread) : thread :=
  th_set_wait None err (th_set_state THREAD_READY th).

Record woke_all k q w (err : Z) k' : Prop := {
  wa_current : current k' = current k;
  wa_idle : idle_thread k' = idle_thread k;
  wa_timers : timer_st k' = timer_st k;
  wa_queues : wait_queues k' = <[q := Wait_queue (wq_magic w) [] 0]> (wait_queues k);
  wa_threads : forall t, threads k' !! t =
    (if decide (t ∈ wq_list w) then th_wake err <$> threads k !! t else threads k !! t)
}.

Lemma woke_all_nil X k q w err :
  wfx X k -> wait_queues k !! q = Some w -> wq_list w = [] -> woke_all k q w err k.
Proof.
  intros Hwf Hq Hl. destruct (w_wq _ _ Hwf q w Hq) as (_ & Hc & _).
  split; try done.
  - rewrite insert_id; [done|]. rewrite Hq. rewrite Hl in Hc.
    destruct w; simpl in *; by subst.
  - intros t. rewrite Hl. by rewrite decide_False by (apply not_elem_of_nil).
Qed.

Lemma woke_all_cons k q w err t l th rq bm k' :
  wq_list w = t :: l -> wq_list (wq_without t w) = l -> t ∉ l -> threads k !! t = Some th ->
  woke_all (k_set_run_queue rq bm (woken k q w t th err)) q (wq_without t w) err k' ->
  woke_all k q w err k'.
Proof.
  intros Hl Hl' Htl Hth [Hc Hi Ht Hq Hthr]. simpl in *. split; try done.
  - by rewrite Hq, insert_insert_eq.
  - intros x. rewrite Hthr, Hl', Hl. destruct (decide (x = t)) as [->|Hxt].
    + rewrite decide_False by done. rewrite decide_True by (by left).
      by rewrite lookup_insert_eq, Hth.
    + rewrite lookup_insert_ne by done. case_decide; [by rewrite decide_True by (by right)|].
      by rewrite decide_False by set_solver.
Qed.

Lemma wp_wake_all_loop n X k q w err acc Q :
  wfx X k -> wait_queues k !! q = Some w -> (length (wq_list w) < n)%nat ->
  (forall k', wfx X k' -> woke_all k q w err k' ->
     Q (acc + Z.of_nat (length (wq_list w))) k') ->
  wp (wake_all_loop n q err acc) Q k.
Proof.
  revert X k w acc. induction n as [|n IH]; intros X k w acc Hwf Hq Hn HQ; [lia|].
  cbn [wake_all_loop]. destruct (wq_list w) as [|t l] eqn:Hl.
  - apply wp_seq. unfold wp. rewrite (wake_head_empty k q w err Hq Hl).
    replace acc with (acc + Z.of_nat (length (wq_list w))) by (rewrite Hl; simpl; lia).
    hnf. rewrite Hl. apply HQ; [done|]. by eapply woke_all_nil.
  - destruct (w_wq _ _ Hwf q w Hq) as (Hnd & _). rewrite Hl in Hnd.
    apply wp_seq. eapply wp_wake_head; [done..|]. intros th Hth Hs Hni HtX Hl' Hw.
    apply wp_seq. unfold insert_in_run_queue_head.
    eapply wp_insert_run; [exact Hw|set_solver|simpl; by rewrite lookup_insert_eq|done|done|].
    intros rq bm Hw'. replace (({[t]} ∪ X) ∖ {[t]}) with X in Hw' by set_solver.
    eapply IH; [exact Hw'|simpl; by rewrite lookup_insert_eq|rewrite Hl'; simpl in Hn; lia|].
    intros k' Hw'' Hwa. rewrite Hl'.
    replace (acc + 1 + Z.of_nat (length l)) with (acc + Z.of_nat (length (t :: l))) by (simpl; lia).
    apply HQ; [done|]. eapply woke_all_cons; [done..|by apply NoDup_cons in Hnd as [? _]|done|done].
Qed.

Lemma wf_wait_queue_running k q w t th :
  wf k -> wait_queues k !! q = Some w -> threads k !! t = Some th ->
  th_state th = THREAD_RUNNING -> t ∉ wq_list w.
Proof.
  intros [Hwf _] Hq Hth Hs Hin. destruct (w_wq _ _ Hwf q w Hq) as (_ & _ & _ & H).
  destruct (H t Hin) as (th' & ? & ? & _). congruence.
Qed.

Lemma woke_all_wf k q w err k' :
  wf k -> wait_queues k !! q = Some w -> wfx ∅ k' -> woke_all k q w err k' -> wf k'.
Proof.
  intros Hwf Hq Hw [Hc _ _ _ Hthr]. destruct (wf_current k Hwf) as (th & Hth & Hs & _).
  split; [done|]. exists th. rewrite Hthr, Hc, decide_False; [done|].
  by eapply wf_wait_queue_running.
Qed.

(** wait_queue_wake_all without rescheduling. *)
Lemma wp_wake_all_quiet X k q w err Q :
  wfx X k -> wait_queues k !! q = Some w -> wq_magic w = WAIT_QUEUE_MAGIC ->
  (forall k', wfx X k' -> woke_all k q w err k' -> Q (Z.of_nat (length (wq_list w))) k') ->
  wp (wait_queue_wake_all q false err) Q k.
Proof.
  intros Hwf Hq Hmag HQ. unfold wait_queue_wake_all. wp_step. wp_step. wp_step.
  cbn [andb]. wp_step. apply wp_seq. eapply wp_wake_all_loop; [exact Hwf|exact Hq|lia|].
  intros k' Hw Hwa. apply wp_seq.
  eapply wp_get_wait_queue; [rewrite (wa_queues _ _ _ _ _ Hwa); by rewrite lookup_insert_eq|].
  wp_step. apply wp_seq.
  assert (forall b : bool, (if b then @ret kernel Empty_set _ tt else ret tt) = ret tt) as -> by (by intros []).
  hnf. by apply HQ.
Qed.

(** ... and with it. *)
Lemma wp_wake_all_resched k q w err Q :
  wf k -> current k <> idle_thread k -> wait_queues k !! q = Some w ->
  wq_magic w = WAIT_QUEUE_MAGIC ->
  (forall k', wf k' ->
     wait_queues k' = <[q := Wait_queue (wq_magic w) [] 0]> (wait_queues k) ->
     Q (Z.of_nat (length (wq_list w))) k') ->
  wp (wait_queue_wake_all q true err) Q k.
Proof.
  intros Hwf Hni Hq Hmag HQ. destruct (wf_current k Hwf) as (thc & Hthc & Hsc & _).
  pose proof Hwf as [Hw0 _]. destruct (w_wq _ _ Hw0 q w Hq) as (_ & Hc & _ & Hin).
  unfold wait_queue_wake_all. wp_step. wp_step. wp_step. cbn [andb].
  destruct (0 <? wq_count w) eqn:Epos.
  - apply wp_seq. eapply wp_park_current; [done..|]. intros rq bm Hw1. apply wp_seq.
    eapply wp_wake_all_loop; [exact Hw1|exact Hq|lia|]. intros k' Hw2 Hwa.
    apply wp_seq. eapply wp_get_wait_queue;
      [rewrite (wa_queues _ _ _ _ _ Hwa); by rewrite lookup_insert_eq|].
    wp_step. apply wp_seq. rewrite Z.add_0_l, <- Hc, Epos.
    pose proof (wf_wait_queue_running k q w (current k) thc Hwf Hq Hthc Hsc) as Hnin.
    eapply (wp_resched _ (th_set_state THREAD_READY thc)); [exact Hw2| |done|].
    + rewrite (wa_threads _ _ _ _ _ Hwa), (wa_current _ _ _ _ _ Hwa), decide_False by done.
      simpl. by rewrite lookup_insert_eq.
    + intros k'' Hwf' (Hwq & _) _. hnf. rewrite Hc. apply HQ; [done|].
      by rewrite Hwq, (wa_queues _ _ _ _ _ Hwa).
  - wp_step. apply wp_seq. eapply wp_wake_all_loop; [exact Hw0|exact Hq|lia|]. intros k' Hw2 Hwa.
    apply wp_seq. eapply wp_get_wait_queue;
      [rewrite (wa_queues _ _ _ _ _ Hwa); by rewrite lookup_insert_eq|].
    wp_step. apply wp_seq. rewrite Z.add_0_l, <- Hc, Epos. hnf. rewrite Hc.
    apply HQ; [by eapply woke_all_wf|apply (wa_queues _ _ _ _ _ Hwa)].
Qed.
End ops.
