(* ===== verification/KernelLife.v ===== *)
(** * Blocking, sleeping, timeouts and the life of a thread

    The operations that take the current thread off the cpu or touch its timers,
    thread creation, exit and join, and the timer interrupt: each one returns and
    keeps the kernel well formed, under its contract. *)

From stdpp Require Import prelude list gmap.
From Stdlib Require Import ZArith Lia.
From S2P Require Import Prelude Timer Kernel KernelInv KernelOps.

Open Scope Z_scope.
Open Scope lk_scope.

Section life.
Implicit Types (k : kernel) (t : tid) (q : wqid).

(** ** Blocking on a wait queue *)

(** The current thread as wait_queue_block leaves it, on the queue. *)
Lemma wfx_blocked k th q w :
  wf k -> threads k !! current k = Some th -> current k <> idle_thread k ->
  wait_queues k !! q = Some w -> wq_magic w = WAIT_QUEUE_MAGIC ->
  wfx ∅ (k_upd (current k) (th_set_wait (Some q) NO_ERROR (th_set_state THREAD_BLOCKED th))
    (k_set_wait_queues (<[q := Wait_queue (wq_magic w) (wq_list w ++ [current k]) (wq_count w + 1)]>
                          (wait_queues k)) k)).
Proof.
  intros Hwf Hth Hni Hq Hmag.
  destruct (wf_current k Hwf) as (th' & Hth' & Hs & _). assert (th' = th) as -> by congruence.
  destruct Hwf as [Hwf _].
  pose proof (wfx_take ∅ k _ th Hwf Hth (unqueued_running _ _ _ Hs)) as Hw.
  replace (∅ : gset tid) with (({[current k]} ∪ ∅) ∖ {[current k]} : gset tid) by set_solver.
  apply wfx_wq_add; try done; [set_solver|].
  by eapply thread_ok_core; [exact Hw|exact Hth|done|rewrite Hs|..].
Qed.

(** What wait_queue_block leaves behind when it switches: the caller at the end
    of the queue, the rest as it was. *)
Definition blocked_frame k q w k' : Prop :=
  wait_queues k' = <[q := Wait_queue (wq_magic w) (wq_list w ++ [current k]) (wq_count w + 1)]>
                     (wait_queues k) /\
  forall t, t <> current k -> th_erase <$> threads k' !! t = th_erase <$> threads k !! t.

Lemma wp_wait_queue_block k q w timeout :
  wf k -> wait_queues k !! q = Some w -> wq_magic w = WAIT_QUEUE_MAGIC ->
  current k <> idle_thread k -> local_timer (current k) ∉ timer_queue (timer_st k) ->
  wp (wait_queue_block q timeout) (fun r k' => wf k' /\
    r = (if timeout =? 0 then Returned ERR_TIMED_OUT else Blocked) /\
    if timeout =? 0 then k' = k else blocked_frame k q w k') k.
Proof.
  intros Hwf Hq Hmag Hni Htm. destruct (wf_current k Hwf) as (th & Hth & Hs & _).
  unfold wait_queue_block. wp_step. wp_step. wp_step. wp_step. wp_step.
  destruct (timeout =? 0); [done|]. wp_step. wp_step. wp_step. rewrite k_upd_upd.
  pose proof (wfx_blocked k th q w Hwf Hth Hni Hq Hmag) as Hw.
  set (th' := th_set_wait (Some q) NO_ERROR _) in *.
  set (k1 := k_upd (current k) th' _) in *.
  assert (Hth1 : threads k1 !! current k = Some th') by (subst k1; k_lookup).
  assert (Hend : forall ts, wfx ∅ (k_set_timers ts k1) ->
    wp (thread_resched ;; ret Blocked) (fun r k' => wf k' /\ r = Blocked /\ blocked_frame k q w k')
      (k_set_timers ts k1)).
  { intros ts Hw'. apply wp_seq. eapply wp_resched; [exact Hw'|exact Hth1|done|].
    intros k' Hwf' (Hwq & _ & _ & _ & _ & He) _. apply wp_ret. split; [done|]. split; [done|].
    split; [exact Hwq|]. intros t Ht. rewrite <- !lookup_fmap, He. simpl.
    by rewrite !lookup_fmap, lookup_insert_ne. }
  destruct (negb (timeout =? INFINITE_TIME)).
  - destruct (timer_arm (timer_st k1) (local_timer (current k)) (now k1) timeout
      (wait_queue_timeout_handler_cb (current k)) Htm) as (ts & tm & Hset & Hqs & Hts & Hm & Hcb & Hp).
    apply wp_seq. wp_step. apply wp_seq. eapply wp_run_timer_op; [done|].
    eapply wp_run_timer_op; [exact Hset|].
    change (k_set_timers ts (k_set_timers (timer_initialize _ _) k1)) with (k_set_timers ts k1).
    apply Hend. eapply wfx_timer_add; [exact Hw|exact Htm|exact Hqs|exact Hts|exact Hm|].
    unfold timer_target. rewrite Hcb. split; [done|]. split; [done|]. by exists th'.
  - wp_step. apply (Hend (timer_st k1)). by destruct k.
Qed.

(** wait_queue_block after the switch back: the timer is off the queue again. *)
Lemma wp_wait_queue_block_resume k timeout :
  wf k -> (timeout <> INFINITE_TIME -> exists tm,
    Timer.timers (timer_st k) !! local_timer (current k) = Some tm /\ timer_magic tm = TIMER_MAGIC) ->
  wp (wait_queue_block_resume timeout) (fun r k' => wf k' /\ threads k' = threads k /\
    current k' = current k /\ wait_queues k' = wait_queues k /\ thread_list k' = thread_list k /\
    (timeout <> INFINITE_TIME -> local_timer (current k) ∉ timer_queue (timer_st k')) /\
    exists th, threads k !! current k = Some th /\ r = th_wait_queue_block_ret th) k.
Proof.
  intros Hwf Htm. destruct (wf_current k Hwf) as (th & Hth & Hs & _).
  destruct Hwf as [Hwf Hcur]. unfold wait_queue_block_resume. wp_step.
  destruct (timeout =? INFINITE_TIME) eqn:E; simpl.
  - apply Z.eqb_eq in E. wp_step. wp_step. apply wp_ret. split_and!; try done; by exists th.
  - apply Z.eqb_neq in E. destruct (Htm E) as (tm & Hl & Hm).
    apply wp_seq. eapply wp_run_timer_op.
    { unfold timer_cancel. rewrite Hl. simpl. rewrite Hm. done. }
    wp_step. apply wp_ret. split; [|split_and!; try done; [|by exists th]].
    + split; [|done]. apply (wfx_timer_remove ∅ k (local_timer (current k))); [done|done|..].
      * intros id' Hne. simpl. by rewrite lookup_insert_ne.
      * intros t th' Ht Hst _ Heq. unfold local_timer in Heq.
        assert (t = current k) by lia. congruence.
    + intros _. simpl. rewrite list_elem_of_filter. tauto.
Qed.

(** ** Waking a given thread *)

Lemma in_queue_blocked k q w t :
  wait_queues k !! q = Some w -> t ∈ wq_list w -> in_queue k t = true.
Proof.
  intros Hq Ht. unfold in_queue. apply orb_true_iff. right. apply existsb_exists.
  exists (q, w). split; [by apply list_elem_of_In, elem_of_map_to_list|].
  by apply bool_decide_eq_true.
Qed.

Lemma wp_thread_unblock_from_wait_queue k t th err Q :
  wfx ∅ k -> threads k !! t = Some th -> th_state th <> THREAD_DEATH ->
  (th_state th <> THREAD_BLOCKED -> Q ERR_NOT_BLOCKED k) ->
  (forall q w rq bm, th_state th = THREAD_BLOCKED -> wait_queues k !! q = Some w -> t ∈ wq_list w ->
     wfx ∅ (k_set_run_queue rq bm (woken k q w t th err)) ->
     Q NO_ERROR (k_set_run_queue rq bm (woken k q w t th err))) ->
  wp (thread_unblock_from_wait_queue t err) Q k.
Proof.
  intros Hwf Hth Hd H0 H1. unfold thread_unblock_from_wait_queue. wp_step.
  destruct (w_thread _ _ Hwf t th Hth) as (_ & Hm & _). wp_step.
  destruct (decide (th_state th = THREAD_BLOCKED)) as [Hb|Hb].
  - rewrite is_state_true by done. cbn [negb]. wp_step.
    destruct (w_blocked _ _ Hwf t th Hth Hb) as (q & w & Hbq & Hq & Hin); [set_solver|].
    destruct (wfx_woken ∅ k q w t th err Hwf Hq Hin Hth) as (Hw & Hni & _).
    destruct (w_wq _ _ Hwf q w Hq) as (_ & _ & Hmw & _).
    assert (wq_list w <> []) by (by destruct (wq_list w); [apply elem_of_nil in Hin|]).
    rewrite Hbq. wp_step. wp_step.
    apply wp_seq, wp_assert; [by eapply in_queue_blocked|]. cbv beta.
    wp_step. wp_step. wp_step. wp_step. rewrite !k_upd_upd.
    apply wp_seq. unfold insert_in_run_queue_head.
    eapply (wp_insert_run true _ (woken k q w t th err));
      [exact Hw|set_solver|simpl; by rewrite lookup_insert_eq|done|done|].
    intros rq bm Hw'. apply wp_ret. apply H1; try done.
    by replace (∅ : gset tid) with (({[t]} ∪ ∅) ∖ {[t]} : gset tid) by set_solver.
  - rewrite is_state_false by done. cbn [negb]. apply wp_ret. by apply H0.
Qed.

(** wait_queue_timeout_handler, from the timer interrupt of any thread. *)
Lemma wp_wait_queue_timeout_handler k t th Q :
  wf k -> threads k !! t = Some th -> th_state th <> THREAD_DEATH ->
  (forall r k', wf k' -> timer_st k' = timer_st k -> Q r k') ->
  wp (wait_queue_timeout_handler t) Q k.
Proof.
  intros Hwf Hth Hd HQ. unfold wait_queue_timeout_handler. wp_step.
  pose proof Hwf as [Hw (thc & Hthc & Hsc)].
  destruct (w_thread _ _ Hw t th Hth) as (_ & Hm & _). wp_step. apply wp_seq.
  eapply wp_thread_unblock_from_wait_queue; [exact Hw|exact Hth|done|..].
  - intros _. by apply HQ.
  - intros q w rq bm Hb Hq Hin Hw'. apply HQ; [|done]. split; [done|].
    exists thc. simpl. rewrite lookup_insert_ne by congruence. done.
Qed.

(** ** Sleeping *)

Lemma wp_thread_sleep k delay :
  wf k -> current k <> idle_thread k -> local_timer (current k) ∉ timer_queue (timer_st k) ->
  wp (thread_sleep delay) (fun _ => wf) k.
Proof.
  intros Hwf Hni Htm. destruct (wf_current k Hwf) as (th & Hth & Hs & Hmag & Hi).
  destruct Hwf as [Hwf _]. unfold thread_sleep. wp_step. wp_step. wp_step. wp_step.
  apply wp_seq, wp_assert; [by rewrite Hi, bool_decide_false|]. cbv beta. wp_step.
  set (th' := th_set_state THREAD_SLEEPING th).
  assert (Hw1 : wfx ({[current k]} ∪ ∅) (k_upd (current k) th' k)).
  { apply wfx_upd; [by eapply wfx_take, unqueued_running|set_solver|].
    by eapply thread_ok_run. }
  destruct (timer_arm (timer_st k) (local_timer (current k)) (now k) delay
    (thread_sleep_handler_cb (current k)) Htm) as (ts & tm & Hset & Hqs & Hts & Hm & Hcb & Hp).
  apply wp_seq. eapply wp_run_timer_op; [done|]. apply wp_seq.
  eapply wp_run_timer_op; [exact Hset|]. wp_step.
  assert (Hw2 : wfx ({[current k]} ∪ ∅) (k_set_timers ts (k_upd (current k) th' k))).
  { eapply wfx_timer_add; [exact Hw1|exact Htm|exact Hqs|exact Hts|exact Hm|].
    unfold timer_target. rewrite Hcb. split; [done|]. split; [done|]. exists th'. by k_lookup. }
  eapply (wp_resched (k_set_timers ts (k_upd (current k) th' k)) th'); [|by k_lookup|done|done].
  replace (∅ : gset tid) with (({[current k]} ∪ ∅) ∖ {[current k]} : gset tid) by set_solver.
  eapply wfx_drop_gen; [exact Hw2|by k_lookup|done|done|]. intros _. split; simpl.
  - rewrite Hqs. by left.
  - exists tm. by rewrite Hts, lookup_insert_eq.
Qed.

(** thread_sleep_handler once timer_tick has dequeued the timer. *)
Lemma wp_thread_sleep_handler k t th Q :
  wfx ({[t]} ∪ ∅) k -> threads k !! t = Some th -> th_state th = THREAD_SLEEPING ->
  local_timer t ∉ timer_queue (timer_st k) ->
  (forall rq bm th', wfx ∅ (k_set_run_queue rq bm (k_upd t th' k)) ->
     Q INT_RESCHEDULE (k_set_run_queue rq bm (k_upd t th' k))) ->
  wp (thread_sleep_handler t) Q k.
Proof.
  intros Hwf Hth Hs Htm HQ. unfold thread_sleep_handler. wp_step.
  destruct (w_thread _ _ Hwf t th Hth) as (Hp & Hm & Hi & _). rewrite Hs in Hm.
  wp_step. wp_step. wp_step. apply wp_seq. unfold insert_in_run_queue_head.
  assert (Hni : t <> idle_thread k).
  { intros ->. destruct (w_idle _ _ Hwf) as (thi & Hti & His).
    assert (thi = th) as -> by congruence. rewrite Hs in His. by destruct His. }
  eapply wp_insert_upd; [exact Hwf|exact Hth|right; set_solver|done|done| |].
  - unfold thread_ok. simpl. split_and!; try done; try lia; try (by intros; apply Hm);
      [|intros Hmag; by apply (w_retcode _ _ Hwf t th)
      |intros _; apply (w_unblocked _ _ Hwf t th Hth); by rewrite Hs].
    intros id tm Hid Htms. split; [|done]. intros Hc. destruct (w_timers _ _ Hwf) as [_ H].
    destruct (H id Hid) as (tm' & Htm' & _ & Htg). assert (tm' = tm) as -> by congruence.
    unfold timer_target in Htg. rewrite Hc in Htg. destruct Htg as (-> & _). done.
  - intros rq bm Hw. apply wp_ret. apply HQ.
    by replace (∅ : gset tid) with (({[t]} ∪ ∅) ∖ {[t]} : gset tid) by set_solver.
Qed.

(** ** Updates that no queue depends on *)

Lemma timer_target_same k k' id tm :
  (forall t th, threads k !! t = Some th ->
     exists th', threads k' !! t = Some th' /\ th_state th' = th_state th) ->
  timer_target k id tm -> timer_target k' id tm.
Proof.
  intros Hs. unfold timer_target. destruct (callback tm) as [[t|t|n]|]; try done;
    (intros (-> & Hp & th & Ht & Hst); destruct (Hs t th Ht) as (th' & ? & ?);
      repeat split; try done; exists th'; split; [done|congruence]).
Qed.

(** A thread keeps its state, priority, magic, wait queue and idle flag. *)
Definition same_place (th th' : thread) : Prop :=
  th_state th' = th_state th /\ th_priority th' = th_priority th /\ th_magic th' = th_magic th /\
  th_blocking_wait_queue th' = th_blocking_wait_queue th /\ thread_is_idle th' = thread_is_idle th.

Lemma wfx_upd_same X k t th th' :
  wfx X k -> threads k !! t = Some th -> same_place th th' -> wfx X (k_upd t th' k).
Proof.
  intros [w_len0 w_bm0 w_bits0 w_rq0 w_ready0 w_wq0 w_blocked0 w_thread0 w_idle0 w_timers0 w_sleep0
    w_retcode0 w_unblocked0] Hth (Es & Ep & Em & Eb & Ei).
  assert (Hto : forall x thx, threads k !! x = Some thx -> exists thx',
    <[t := th']> (threads k) !! x = Some thx' /\ same_place thx thx').
  { intros x thx Hx. destruct (decide (x = t)) as [->|Hne].
    - exists th'. rewrite lookup_insert_eq. assert (thx = th) as -> by congruence. done.
    - exists thx. by rewrite lookup_insert_ne. }
  assert (Hfrom : forall x thx', <[t := th']> (threads k) !! x = Some thx' -> exists thx,
    threads k !! x = Some thx /\ same_place thx thx').
  { intros x thx' Hx. destruct (decide (x = t)) as [->|Hne].
    - rewrite lookup_insert_eq in Hx. simplify_eq. by exists th.
    - rewrite lookup_insert_ne in Hx by done. by exists thx'. }
  split; simpl; try done.
  - intros p l Hl. destruct (w_rq0 p l Hl) as [Hnd Hin]. split; [done|]. intros x Hx.
    destruct (Hin x Hx) as (thx & Hthx & Hsx & Hpx & ?).
    destruct (Hto x thx Hthx) as (thx' & ? & ? & ? & _). exists thx'. split_and!; naive_solver congruence.
  - intros x thx' Hx Hs. destruct (Hfrom x thx' Hx) as (thx & Hthx & ? & Hpx & _). rewrite Hpx.
    apply w_ready0; [done|congruence].
  - intros q w Hq. destruct (w_wq0 q w Hq) as (? & ? & ? & Hin). split_and!; try done.
    intros x Hx. destruct (Hin x Hx) as (thx & Hthx & Hsx & Hbx & ?).
    destruct (Hto x thx Hthx) as (thx' & ? & ? & ? & ? & ? & _). exists thx'.
    split_and!; naive_solver congruence.
  - intros x thx' Hx Hs. destruct (Hfrom x thx' Hx) as (thx & Hthx & ? & ? & ? & Hb & _). rewrite Hb.
    apply w_blocked0; [done|congruence].
  - intros x thx' Hx. destruct (Hfrom x thx' Hx) as (thx & Hthx & E1 & E2 & E3 & _ & E4).
    rewrite E1, E2, E3, E4. by apply w_thread0.
  - destruct w_idle0 as (thi & Hti & Hsi). destruct (Hto _ _ Hti) as (thi' & ? & E1 & _).
    exists thi'. by rewrite E1.
  - destruct w_timers0 as [Hnd Hin]. split; [done|]. intros id Hid.
    destruct (Hin id Hid) as (tm & ? & ? & Htg). exists tm. split_and!; try done.
    eapply timer_target_same; [|exact Htg]. intros x thx Hx.
    destruct (Hto x thx Hx) as (thx' & ? & ? & _). by exists thx'.
  - intros x thx' Hx Hs Hn. destruct (Hfrom x thx' Hx) as (thx & Hthx & ? & _).
    apply (w_sleep0 x thx); [done|congruence|done].
  - intros x thx' Hx Hmx. destruct (Hfrom x thx' Hx) as (thx & Hthx & _ & _ & ? & _).
    apply (w_retcode0 x thx); [done|congruence].
  - intros x thx' Hx Hs. destruct (Hfrom x thx' Hx) as (thx & Hthx & ? & _ & _ & Hb & _).
    rewrite Hb. apply (w_unblocked0 x thx); [done|congruence].
Qed.

Lemma wf_upd_same k t th th' :
  wf k -> threads k !! t = Some th -> same_place th th' -> wf (k_upd t th' k).
Proof.
  intros [Hwf (thc & Hc & Hs)] Hth Hp. split; [by eapply wfx_upd_same|]. simpl.
  destruct (decide (t = current k)) as [->|Hne].
  - exists th'. rewrite lookup_insert_eq. assert (thc = th) as -> by congruence.
    destruct Hp as (Es & _). split; [done|]. congruence.
  - exists thc. by rewrite lookup_insert_ne.
Qed.

(** Only the idle bit of the flags matters to the queues. *)
Lemma same_place_flags th f :
  Z.land f THREAD_FLAG_IDLE = Z.land (th_flags th) THREAD_FLAG_IDLE ->
  same_place th (th_set_flags f th).
Proof. intros H. unfold same_place, thread_is_idle, has_flag. simpl. by rewrite H. Qed.

Lemma flag_set_idle f b : Z.land b THREAD_FLAG_IDLE = 0 ->
  Z.land (Z.lor f b) THREAD_FLAG_IDLE = Z.land f THREAD_FLAG_IDLE.
Proof. intros H. by rewrite Z.land_lor_distr_l, H, Z.lor_0_r. Qed.

Lemma flag_clear_idle f b : Z.land (Z.lnot b) THREAD_FLAG_IDLE = THREAD_FLAG_IDLE ->
  Z.land (Z.land f (Z.lnot b)) THREAD_FLAG_IDLE = Z.land f THREAD_FLAG_IDLE.
Proof. intros H. by rewrite <- Z.land_assoc, H. Qed.

Lemma wp_thread_set_real_time k t th :
  wf k -> threads k !! t = Some th -> th_magic th = THREAD_MAGIC ->
  wp (thread_set_real_time (Some t)) (fun _ => wf) k.
Proof.
  intros Hwf Hth Hm. unfold thread_set_real_time. wp_step. wp_step. wp_step. apply wp_ret.
  eapply wf_upd_same; [done|exact Hth|]. by apply same_place_flags, flag_set_idle.
Qed.

(** ** Creation and start *)

(** The list of all threads and the heap's delayed frees are bookkeeping. *)
Lemma wfx_bookkeeping X k l d :
  wfx X k -> wfx X (Kernel (threads k) l (run_queue k) (run_queue_bitmap k) (wait_queues k)
                      (current k) (idle_thread k) (timer_st k) (now k) d).
Proof.
  intros [w_len0 w_bm0 w_bits0 w_rq0 w_ready0 w_wq0 w_blocked0 w_thread0 w_idle0 w_timers0 w_sleep0
    w_retcode0 w_unblocked0]. by split.
Qed.

Lemma wp_thread_resume k t th ints :
  wf k -> threads k !! t = Some th -> th_state th <> THREAD_DEATH ->
  wp (thread_resume t ints) (fun _ => wf) k.
Proof.
  intros Hwf Hth Hd. unfold thread_resume. pose proof Hwf as [Hw (thc & Hthc & Hsc)].
  destruct (w_thread _ _ Hw t th Hth) as (_ & Hm & _). wp_step. wp_step.
  apply wp_seq, wp_assert; [by rewrite is_state_false|]. cbv beta.
  destruct (decide (th_state th = THREAD_SUSPENDED)) as [Hs|Hs].
  - rewrite is_state_true by done. apply wp_seq. wp_step. apply wp_seq. unfold insert_in_run_queue_head.
    assert (Hni : t <> idle_thread k).
    { intros ->. destruct (w_idle _ _ Hw) as (thi & Hti & His).
      assert (thi = th) as -> by congruence. rewrite Hs in His. by destruct His. }
    eapply wp_insert_upd; [exact Hw|exact Hth|left|done|done| |].
    + unfold unqueued. by rewrite Hs.
    + eapply thread_ok_core; [exact Hw|exact Hth|done|by rewrite Hs|done|done|by left|].
      right. by rewrite Hs.
    + intros rq bm Hw'.
      assert (Hwf' : wf (k_set_run_queue rq bm (k_upd t (th_set_state THREAD_READY th) k))).
      { split; [by replace (∅ : gset tid) with (∅ ∖ {[t]} : gset tid) by set_solver|].
        exists thc. simpl. rewrite lookup_insert_ne by congruence. done. }
      destruct ints; cbn [negb]; [by apply wp_ret|].
      eapply wp_mono; [by apply wp_thread_yield|]. by intros [].
  - rewrite is_state_false by done. by wp_step.
Qed.

(** A fresh thread with its own empty queue of joiners. *)
Lemma wfx_new_thread k t th :
  wfx ∅ k -> threads k !! t = None -> wait_queues k !! WqRetcode t = None ->
  th_state th = THREAD_SUSPENDED -> 0 <= th_priority th < 32 -> th_magic th = THREAD_MAGIC ->
  thread_is_idle th = false -> th_blocking_wait_queue th = None ->
  wfx ∅ (k_set_wait_queues (<[WqRetcode t := Wait_queue WAIT_QUEUE_MAGIC [] 0]> (wait_queues k))
           (k_upd t th k)).
Proof.
  intros [w_len0 w_bm0 w_bits0 w_rq0 w_ready0 w_wq0 w_blocked0 w_thread0 w_idle0 w_timers0 w_sleep0
    w_retcode0 w_unblocked0] Hnew Hnq Hs Hp Hm Hi Hb.
  assert (Hold : forall x thx, threads k !! x = Some thx -> <[t := th]> (threads k) !! x = Some thx)
    by (intros x thx Hx; rewrite lookup_insert_ne; [done|congruence]).
  assert (Hback : forall x thx, <[t := th]> (threads k) !! x = Some thx ->
    th_state thx <> THREAD_SUSPENDED -> threads k !! x = Some thx).
  { intros x thx Hx Hsx. rewrite lookup_insert_ne in Hx; [done|].
    intros <-. rewrite lookup_insert_eq in Hx. simplify_eq. }
  split; simpl; try done.
  - intros p l Hl. destruct (w_rq0 p l Hl) as [? Hin]. split; [done|]. intros x Hx.
    destruct (Hin x Hx) as (thx & ? & ?). exists thx. split; [by apply Hold|done].
  - intros x thx Hx Hsx. apply w_ready0; [|done]. apply Hback; [done|by rewrite Hsx].
  - intros q w Hq. destruct (decide (q = WqRetcode t)) as [->|Hne].
    + rewrite lookup_insert_eq in Hq. simplify_eq. simpl. split_and!; try done; [constructor|].
      intros x Hx. by apply elem_of_nil in Hx.
    + rewrite lookup_insert_ne in Hq by done. destruct (w_wq0 q w Hq) as (? & ? & ? & Hin).
      split_and!; try done. intros x Hx. destruct (Hin x Hx) as (thx & ? & ?).
      exists thx. split; [by apply Hold|done].
  - intros x thx Hx Hsx Hx0.
    destruct (w_blocked0 x thx) as (q & w & ? & ? & ?); [apply Hback; [done|by rewrite Hsx]|done..|].
    exists q, w. split; [done|]. split; [|done]. rewrite lookup_insert_ne; [done|]. congruence.
  - intros x thx Hx. destruct (decide (t = x)) as [<-|Hne].
    + rewrite lookup_insert_eq in Hx. simplify_eq. rewrite Hi, Hs. split_and!; try done; try lia.
      symmetry. apply bool_decide_eq_false. intros ->.
      destruct w_idle0 as (thi & Hti & _). congruence.
    + rewrite lookup_insert_ne in Hx by done. by apply w_thread0.
  - destruct w_idle0 as (thi & Hti & ?). exists thi. split; [by apply Hold|done].
  - destruct w_timers0 as [Hnd Hin]. split; [done|]. intros id Hid.
    destruct (Hin id Hid) as (tm & ? & ? & Htg). exists tm. split_and!; try done.
    eapply timer_target_same; [|exact Htg]. intros x thx Hx. exists thx. split; [by apply Hold|done].
  - intros x thx Hx Hsx. apply (w_sleep0 x thx); [|done]. apply Hback; [done|by rewrite Hsx].
  - intros x thx Hx Hmx. unfold has_retcode_queue. simpl. destruct (decide (t = x)) as [<-|Hne].
    + eexists. by rewrite lookup_insert_eq.
    + rewrite lookup_insert_ne by congruence. rewrite lookup_insert_ne in Hx by done.
      by apply (w_retcode0 x thx).
  - intros x thx Hx Hsx. destruct (decide (t = x)) as [<-|Hne].
    + rewrite lookup_insert_eq in Hx. by simplify_eq.
    + rewrite lookup_insert_ne in Hx by done. by apply (w_unblocked0 x thx).
Qed.

Definition fresh_thread k t : Prop :=
  threads k !! t = None /\ wait_queues k !! WqRetcode t = None.

Lemma wf_new_thread k t th :
  wf k -> fresh_thread k t -> th_state th = THREAD_SUSPENDED -> 0 <= th_priority th < 32 ->
  th_magic th = THREAD_MAGIC -> thread_is_idle th = false -> th_blocking_wait_queue th = None ->
  wf (k_set_wait_queues (<[WqRetcode t := Wait_queue WAIT_QUEUE_MAGIC [] 0]> (wait_queues k))
        (k_upd t th k)).
Proof.
  intros [Hwf (thc & Hc & Hs)] [H1 H2] ? ? ? ? ?. split; [by apply wfx_new_thread|].
  exists thc. simpl. rewrite lookup_insert_ne by congruence. done.
Qed.

Lemma wp_thread_create_at k t flags entry arg priority stack mem_stack :
  wf k -> 0 <= priority < 32 -> fresh_thread k t -> flags = 0 \/ flags = THREAD_FLAG_FREE_STRUCT ->
  wp (thread_create_at t flags entry arg priority stack mem_stack) (fun r k' => wf k' /\
    match r with
    | Some t' => t' = t /\ exists th, threads k' !! t = Some th /\ th_state th = THREAD_SUSPENDED /\
        th_entry th = entry /\ th_arg th = arg /\ th_priority th = priority
    | None => flags = THREAD_FLAG_FREE_STRUCT -> k' = k
    end) k.
Proof.
  intros Hwf Hp Hf Hfl. unfold thread_create_at. wp_step. unfold wait_queue_init. wp_step.
  set (th0 := Thread _ _ _ _ _ _ _ _ _ _).
  assert (Hw : wf (k_set_wait_queues
      (<[WqRetcode t := Wait_queue WAIT_QUEUE_MAGIC [] 0]> (wait_queues k)) (k_upd t th0 k)))
    by (by apply wf_new_thread).
  destruct (negb stack && negb mem_stack).
  - destruct Hfl as [->| ->]; simpl.
    + wp_step. apply wp_ret. split; [exact Hw|done].
    + wp_step. apply wp_ret. destruct Hf as [Hf1 Hf2].
      cbn [k_set_wait_queues k_set_threads threads wait_queues].
      rewrite !delete_insert_id by done. by destruct k.
  - wp_step. wp_step. apply wp_ret. split.
    + match goal with |- wf (k_set_thread_list _ (k_upd t ?th' _)) => set (th1 := th') end.
      assert (Hsame : same_place th0 th1).
      { apply same_place_flags. destruct Hfl as [->| ->]; by destruct stack. }
      destruct (wf_upd_same _ t th0 th1 Hw ltac:(by k_lookup) Hsame) as [Hw1 Hc1].
      split; [by apply (wfx_bookkeeping ∅ (k_upd t th1 _))|done].
    + split; [done|]. eexists. simpl. by rewrite lookup_insert_eq.
Qed.

Lemma wp_thread_create k entry arg priority mem_t mem_stack :
  wf k -> 0 <= priority < 32 -> (forall t, mem_t = Some t -> fresh_thread k t) ->
  wp (thread_create entry arg priority mem_t mem_stack) (fun _ => wf) k.
Proof.
  intros Hwf Hp Hf. unfold thread_create, thread_create_etc. destruct mem_t as [t|]; [|done].
  eapply wp_mono; [apply wp_thread_create_at; auto|]. by intros a k' [? _].
Qed.

(** ** Destroying a wait queue *)

(** [q] is nobody's queue of joiners. *)
Definition not_retcode k q : Prop :=
  forall t th, q = WqRetcode t -> threads k !! t = Some th -> th_magic th <> THREAD_MAGIC.

Lemma wfx_set_empty_queue X k q w m :
  wfx X k -> wait_queues k !! q = Some w -> wq_list w = [] -> not_retcode k q ->
  wfx X (k_set_wait_queues (<[q := Wait_queue m (wq_list w) (wq_count w)]> (wait_queues k)) k).
Proof.
  intros [w_len0 w_bm0 w_bits0 w_rq0 w_ready0 w_wq0 w_blocked0 w_thread0 w_idle0 w_timers0 w_sleep0
    w_retcode0 w_unblocked0] Hq Hl Hnr.
  split; simpl; try done.
  - intros q' w' Hq'. destruct (decide (q = q')) as [<-|Hne].
    + rewrite lookup_insert_eq in Hq'. simplify_eq. simpl.
      destruct (w_wq0 q w Hq) as (? & ? & _ & ?). by rewrite Hl in *.
    + rewrite lookup_insert_ne in Hq' by done. by apply w_wq0.
  - intros x thx Hx Hs Hn. destruct (w_blocked0 x thx Hx Hs Hn) as (q' & w' & ? & Hq' & Hin).
    exists q', w'. split; [done|]. split; [|done]. rewrite lookup_insert_ne; [done|].
    intros ->. simplify_eq. rewrite Hl in Hin. by apply elem_of_nil in Hin.
  - intros x thx Hx Hm. unfold has_retcode_queue. simpl.
    rewrite lookup_insert_ne by (intros ->; by apply (Hnr x thx)). by apply (w_retcode0 x thx).
Qed.

Lemma wp_wait_queue_destroy_finish k q w :
  wf k -> wait_queues k !! q = Some w -> wq_list w = [] -> not_retcode k q ->
  wp (wait_queue_destroy_finish q) (fun _ => wf) k.
Proof.
  intros [Hwf Hc] Hq Hl Hn. unfold wait_queue_destroy_finish. wp_step.
  apply wp_set_wait_queue. split; [by apply wfx_set_empty_queue|done].
Qed.

Lemma wp_wait_queue_destroy k q w :
  wf k -> wait_queues k !! q = Some w -> wq_magic w = WAIT_QUEUE_MAGIC -> not_retcode k q ->
  wp (wait_queue_destroy q false) (fun r k' => wf k' /\ r = Returned NO_ERROR) k.
Proof.
  intros Hwf Hq Hm Hn. unfold wait_queue_destroy. wp_step. wp_step. wp_step. apply wp_seq.
  pose proof Hwf as [Hw _]. eapply wp_wake_all_quiet; [exact Hw|exact Hq|done|].
  intros k' Hw' Hwa. wp_step. rewrite (wa_current _ _ _ _ _ Hwa), Nat.eqb_refl. apply wp_seq.
  assert (Hq' : wait_queues k' !! q = Some (Wait_queue (wq_magic w) [] 0))
    by (rewrite (wa_queues _ _ _ _ _ Hwa); by rewrite lookup_insert_eq).
  eapply wp_mono.
  - eapply wp_wait_queue_destroy_finish; [by eapply woke_all_wf|exact Hq'|done|].
    intros t th -> Ht. rewrite (wa_threads _ _ _ _ _ Hwa) in Ht. case_decide.
    + destruct (threads k !! t) as [th0|] eqn:E; [|done]. simpl in Ht. simplify_eq.
      by apply (Hn t th0).
    + by apply (Hn t).
  - intros [] k'' Hw''. by apply wp_ret.
Qed.

(** ** Exit *)

(** A thread that runs with no timer armed may die. *)
Lemma thread_ok_dead X k th th' :
  wfx X k -> threads k !! current k = Some th -> th_state th = THREAD_RUNNING ->
  current k <> idle_thread k -> local_timer (current k) ∉ timer_queue (timer_st k) ->
  th_priority th' = th_priority th -> th_flags th' = th_flags th ->
  th_blocking_wait_queue th' = th_blocking_wait_queue th -> th_state th' = THREAD_DEATH ->
  thread_ok k (current k) th'.
Proof.
  intros Hwf Hth Hs Hni Htm Ep Ef Eb Es.
  destruct (w_thread _ _ Hwf _ th Hth) as (Hp & Hm & Hi & _).
  unfold thread_ok, thread_is_idle, has_flag in *. rewrite Ep, Ef, Eb, Es.
  split_and!; try done; try lia.
  - intros id tm Hid Htms. destruct (w_timers _ _ Hwf) as [_ H].
    destruct (H id Hid) as (tm' & Htm' & _ & Htg). assert (tm' = tm) as -> by congruence.
    unfold timer_target in Htg. split; intros Hc; rewrite Hc in Htg; destruct Htg as (-> & _); done.
  - intros _. apply (w_retcode _ _ Hwf _ th Hth). apply Hm. by rewrite Hs.
  - intros _. apply (w_unblocked _ _ Hwf _ th Hth). by rewrite Hs.
Qed.

Lemma wfx_dead k th th' :
  wf k -> threads k !! current k = Some th -> th_state th = THREAD_RUNNING ->
  current k <> idle_thread k -> local_timer (current k) ∉ timer_queue (timer_st k) ->
  th_priority th' = th_priority th -> th_flags th' = th_flags th ->
  th_blocking_wait_queue th' = th_blocking_wait_queue th -> th_state th' = THREAD_DEATH ->
  wfx ∅ (k_upd (current k) th' k).
Proof.
  intros [Hwf _] Hth Hs Hni Htm Ep Ef Eb Es.
  replace (∅ : gset tid) with (∅ ∖ {[current k]} : gset tid) by set_solver.
  eapply wfx_move; [done..|by apply unqueued_running|by eapply thread_ok_dead|].
  unfold unqueued. by rewrite Es.
Qed.

Lemma wp_thread_exit k retcode :
  wf k -> current k <> idle_thread k -> local_timer (current k) ∉ timer_queue (timer_st k) ->
  wp (thread_exit retcode) (fun _ => wf) k.
Proof.
  intros Hwf Hni Htm. destruct (wf_current k Hwf) as (th & Hth & Hs & Hmag & Hi).
  unfold thread_exit. wp_step. wp_step. wp_step. wp_step.
  apply wp_seq, wp_assert; [by rewrite Hi, bool_decide_false|]. cbv beta.
  wp_step. wp_step. rewrite k_upd_upd. set (th1 := th_set_retcode retcode _).
  pose proof (fun th' => wfx_dead k th th' Hwf Hth Hs Hni Htm) as Hdead.
  apply wp_seq. destruct (has_flag THREAD_FLAG_DETACHED th).
  - wp_step. wp_step. set (th2 := th_set_magic 0 th1).
    assert (Hend : forall l d, wp thread_resched (fun _ => wf)
      (Kernel (<[current k := th2]> (threads k)) l (run_queue k) (run_queue_bitmap k)
         (wait_queues k) (current k) (idle_thread k) (timer_st k) (now k) d)).
    { intros l d. apply (wp_resched _ th2); [|by k_lookup|done|done].
      apply (wfx_bookkeeping ∅ (k_upd (current k) th2 k)). by apply Hdead. }
    unfold k_upd, k_set_threads, k_set_thread_list. simpl. rewrite insert_insert_eq.
    destruct_guard; apply Hend.
  - destruct Hwf as [Hw _]. destruct (w_retcode _ _ Hw _ th Hth Hmag) as (w & Hq & Hqm).
    apply wp_seq. eapply wp_wake_all_quiet; [by apply Hdead|exact Hq|done|].
    intros k' Hw' Hwa. apply wp_ret.
    destruct (w_wq _ _ Hw _ w Hq) as (_ & _ & _ & Hin).
    assert (current k ∉ wq_list w).
    { intros Hc. destruct (Hin _ Hc) as (th0 & ? & ? & _). congruence. }
    apply (wp_resched k' th1); [done| |done|done].
    rewrite (wa_threads _ _ _ _ _ Hwa), (wa_current _ _ _ _ _ Hwa), decide_False by done.
    by k_lookup.
Qed.

(** ** Join and detach *)

(** A dead thread's structure is freed, its queue of joiners being empty. *)
Lemma wfx_delete_thread k t th :
  wfx ∅ k -> threads k !! t = Some th -> th_state th = THREAD_DEATH ->
  (forall w, wait_queues k !! WqRetcode t = Some w -> wq_list w = []) ->
  wfx ∅ (k_set_wait_queues (delete (WqRetcode t) (wait_queues k))
           (k_set_threads (delete t (threads k)) k)).
Proof.
  intros [w_len0 w_bm0 w_bits0 w_rq0 w_ready0 w_wq0 w_blocked0 w_thread0 w_idle0 w_timers0 w_sleep0
    w_retcode0 w_unblocked0] Hth Hd He.
  assert (Hkeep : forall x thx, threads k !! x = Some thx -> th_state thx <> THREAD_DEATH ->
    delete t (threads k) !! x = Some thx)
    by (intros x thx Hx Hs; rewrite lookup_delete_ne; [done|congruence]).
  assert (Hback : forall x thx, delete t (threads k) !! x = Some thx ->
    threads k !! x = Some thx /\ x <> t).
  { intros x thx Hx. destruct (decide (t = x)) as [<-|Hne].
    - by rewrite lookup_delete_eq in Hx.
    - rewrite lookup_delete_ne in Hx by done. done. }
  split; simpl; try done.
  - intros p l Hl. destruct (w_rq0 p l Hl) as [? Hin]. split; [done|]. intros x Hx.
    destruct (Hin x Hx) as (thx & ? & Hsx & ?). exists thx. split; [|done].
    apply Hkeep; [done|by rewrite Hsx].
  - intros x thx Hx. apply Hback in Hx as [? _]. by apply w_ready0.
  - intros q w Hq. destruct (decide (WqRetcode t = q)) as [<-|Hne];
      [by rewrite lookup_delete_eq in Hq|].
    rewrite lookup_delete_ne in Hq by done. destruct (w_wq0 q w Hq) as (? & ? & ? & Hin).
    split_and!; try done. intros x Hx. destruct (Hin x Hx) as (thx & ? & Hsx & ?).
    exists thx. split; [|done]. apply Hkeep; [done|by rewrite Hsx].
  - intros x thx Hx Hs Hn. apply Hback in Hx as [Hx _].
    destruct (w_blocked0 x thx Hx Hs Hn) as (q & w & ? & Hq & Hin). exists q, w.
    split; [done|]. split; [|done]. rewrite lookup_delete_ne; [done|].
    intros <-. rewrite (He w Hq) in Hin. by apply elem_of_nil in Hin.
  - intros x thx Hx. apply Hback in Hx as [? _]. by apply w_thread0.
  - destruct w_idle0 as (thi & Hti & Hsi). exists thi. split; [|done].
    apply Hkeep; [done|]. by destruct Hsi as [->| ->].
  - destruct w_timers0 as [Hnd Hin]. split; [done|]. intros id Hid.
    destruct (Hin id Hid) as (tm & ? & ? & Htg). exists tm. split_and!; try done.
    unfold timer_target in *. destruct (callback tm) as [[x|x|n]|]; try done;
      destruct Htg as (-> & ? & thx & ? & Hsx); split_and!; try done; exists thx; (split; [|done]);
      apply Hkeep; try done; by rewrite Hsx.
  - intros x thx Hx. apply Hback in Hx as [? _]. by apply (w_sleep0 x thx).
  - intros x thx Hx Hm. apply Hback in Hx as [Hx Hne].
    destruct (w_retcode0 x thx Hx Hm) as (w & ? & ?). exists w. simpl.
    rewrite lookup_delete_ne by congruence. done.
  - intros x thx Hx. apply Hback in Hx as [? _]. by apply (w_unblocked0 x thx).
Qed.

(** Clearing the magic of a dead thread. *)
Lemma wfx_clear_magic k t th :
  wfx ∅ k -> threads k !! t = Some th -> th_state th = THREAD_DEATH ->
  wfx ∅ (k_upd t (th_set_magic 0 th) k).
Proof.
  intros Hwf Hth Hd. assert (Hu : unqueued k t th) by (unfold unqueued; by rewrite Hd).
  replace (∅ : gset tid) with (∅ ∖ {[t]} : gset tid) by set_solver.
  eapply wfx_move; [done..| |done].
  destruct (w_thread _ _ Hwf t th Hth) as (? & ? & Hi & ?).
  unfold thread_ok, thread_is_idle, has_flag in *. simpl. rewrite Hd. split_and!; try done; try lia.
  - intros ->. destruct (w_idle _ _ Hwf) as (thi & Hti & His).
    assert (thi = th) as -> by congruence. rewrite Hd in His. by destruct His.
  - intros id tm Hid Htms. destruct (w_timers _ _ Hwf) as [_ H'].
    destruct (H' id Hid) as (tm' & Htm' & _ & Htg). assert (tm' = tm) as -> by congruence.
    unfold timer_target in Htg.
    split; intros Hc; rewrite Hc in Htg; destruct Htg as (_ & _ & th0 & ? & ?); congruence.
  - intros _. apply (w_unblocked _ _ Hwf t th Hth). by rewrite Hd.
Qed.

Definition joinable k t th : Prop :=
  threads k !! t = Some th /\ th_magic th = THREAD_MAGIC /\ th_state th = THREAD_DEATH /\
  forall w, wait_queues k !! WqRetcode t = Some w -> wq_list w = [].

Lemma dead_not_queued k t th :
  wfx ∅ k -> threads k !! t = Some th -> th_state th = THREAD_DEATH -> in_queue k t = false.
Proof.
  intros Hwf Hth Hd. apply (in_queue_false ({[t]} ∪ ∅)); [|set_solver].
  eapply wfx_take; [done..|]. unfold unqueued. by rewrite Hd.
Qed.

Lemma wp_thread_join_finish k t th :
  wf k -> joinable k t th ->
  wp (thread_join_finish t) (fun r k' => wf k' /\ r = th_retcode th) k.
Proof.
  intros [Hwf (thc & Hthc & Hsc)] (Hth & Hm & Hd & He). unfold thread_join_finish.
  wp_step. wp_step. wp_step. wp_step.
  apply wp_seq, wp_assert.
  { apply bool_decide_eq_true, (w_unblocked _ _ Hwf t th Hth). by rewrite Hd. }
  apply wp_seq, wp_assert; [by erewrite dead_not_queued|]. cbv beta. wp_step. wp_step.
  pose proof (wfx_clear_magic k t th Hwf Hth Hd) as Hw1.
  pose proof (wfx_bookkeeping ∅ _ (filter (fun x => x <> t) (thread_list k)) (delayed_free k) Hw1) as Hw2.
  assert (Hne : t <> current k) by congruence.
  apply wp_seq. destruct_guard.
  - wp_step. apply wp_ret. split; [|done]. split.
    + eapply wfx_delete_thread; [exact Hw2|by k_lookup|done|exact He].
    + exists thc. simpl. rewrite lookup_delete_ne, lookup_insert_ne by done. done.
  - wp_step. apply wp_ret. split; [|done]. split; [exact Hw2|].
    exists thc. simpl. by rewrite lookup_insert_ne by done.
Qed.

Lemma wp_thread_join_dead k t th timeout :
  wf k -> joinable k t th -> has_flag THREAD_FLAG_DETACHED th = false ->
  wp (thread_join t timeout) (fun r k' => wf k' /\ r = Joined (th_retcode th)) k.
Proof.
  intros Hwf Hj Hf. pose proof Hj as (Hth & Hm & Hd & _). unfold thread_join. wp_step. wp_step.
  rewrite Hf, is_state_true by done. cbn [negb]. apply wp_seq.
  eapply wp_mono; [by apply wp_thread_join_finish|]. intros r k' [? ->]. by apply wp_ret.
Qed.

(** The contract of thread_join: the thread exists; if it is dead nobody else
    waits for it, otherwise the caller may block. *)
Lemma wp_thread_join k t th timeout :
  wf k -> threads k !! t = Some th -> th_magic th = THREAD_MAGIC ->
  (th_state th = THREAD_DEATH -> joinable k t th) ->
  current k <> idle_thread k -> local_timer (current k) ∉ timer_queue (timer_st k) ->
  wp (thread_join t timeout) (fun _ => wf) k.
Proof.
  intros Hwf Hth Hm Hj Hni Htm. unfold thread_join. wp_step. wp_step.
  destruct_guard; [by apply wp_ret|].
  destruct (decide (th_state th = THREAD_DEATH)) as [Hd|Hd].
  - rewrite is_state_true by done. cbn [negb]. apply wp_seq.
    eapply wp_mono; [apply wp_thread_join_finish; auto|]. intros r k' [? _]. by apply wp_ret.
  - rewrite is_state_false by done. cbn [negb]. apply wp_seq.
    destruct (w_retcode _ _ (proj1 Hwf) t th Hth Hm) as (w & Hq & Hqm).
    eapply wp_mono; [by eapply wp_wait_queue_block|]. intros r k' (Hw & -> & _).
    destruct (timeout =? 0); by apply wp_ret.
Qed.

Lemma wp_thread_detach k t th :
  wf k -> threads k !! t = Some th -> th_magic th = THREAD_MAGIC ->
  (th_state th = THREAD_DEATH -> joinable k t th) ->
  wp (thread_detach t) (fun _ => wf) k.
Proof.
  intros Hwf Hth Hm Hj. unfold thread_detach. wp_step. wp_step.
  pose proof Hwf as [Hw _]. destruct (w_retcode _ _ Hw t th Hth Hm) as (w & Hq & Hqm).
  apply wp_seq. eapply wp_wake_all_quiet; [exact Hw|exact Hq|done|]. intros k1 Hw1 Hwa.
  pose proof (woke_all_wf k _ w _ k1 Hwf Hq Hw1 Hwa) as Hwf1.
  destruct (decide (th_state th = THREAD_DEATH)) as [Hd|Hd].
  - destruct (Hj Hd) as (_ & _ & _ & He). pose proof (He w Hq) as Hl.
    assert (Ht1 : threads k1 !! t = Some th).
    { rewrite (wa_threads _ _ _ _ _ Hwa), Hl. by rewrite decide_False by apply not_elem_of_nil. }
    apply wp_seq. eapply wp_get_thread; [exact Ht1|]. rewrite is_state_true by done. wp_step.
    set (th' := th_set_flags _ th). apply wp_seq.
    assert (Hp : same_place th th') by (by apply same_place_flags, flag_clear_idle).
    eapply wp_mono.
    + apply (wp_thread_join_dead (k_upd t th' k1) t th' 0); [by eapply wf_upd_same| |].
      * split; [by k_lookup|]. split; [done|]. split; [done|]. simpl. intros w'.
        rewrite (wa_queues _ _ _ _ _ Hwa), lookup_insert_eq. by intros [= <-].
      * unfold has_flag. simpl. rewrite <- Z.land_assoc. by rewrite Z.land_0_r.
    + intros r k' [Hw' ->]. by apply wp_ret.
  - assert (exists th1, threads k1 !! t = Some th1 /\ th_state th1 <> THREAD_DEATH)
      as (th1 & Ht1 & Hd1).
    { rewrite (wa_threads _ _ _ _ _ Hwa), Hth. case_decide; eexists; split; try done. }
    apply wp_seq. eapply wp_get_thread; [exact Ht1|]. rewrite is_state_false by done. wp_step.
    apply wp_ret. eapply wf_upd_same; [done|exact Ht1|]. by apply same_place_flags, flag_set_idle.
Qed.
End life.
