(* ===== verification/KernelSafe.v ===== *)
(** * The kernel as a whole: no operation fails, whatever the interleaving

    The timer interrupt, the operations gathered in one type, their contracts,
    and the states the kernel can reach from boot. *)

From stdpp Require Import prelude list gmap.
From Stdlib Require Import ZArith Lia.
From S2P Require Import Prelude Timer Kernel KernelInv KernelOps KernelLife.

Open Scope Z_scope.
Open Scope lk_scope.

Section tick_safe.
Context (other : nat -> K handler_return).
Implicit Types (k : kernel).

(** Only the kernel's own timers are queued. *)
Definition kernel_timers k : Prop :=
  forall id tm n, id ∈ timer_queue (timer_st k) -> Timer.timers (timer_st k) !! id = Some tm ->
    callback tm <> Some (other_cb n).

Lemma k_set_timers_same k : k_set_timers (timer_st k) k = k.
Proof. by destruct k. Qed.

(** Taking a due timer off the queue and running its callback. *)
Lemma wp_run_callback k id tm :
  wf k -> kernel_timers k -> id ∈ timer_queue (timer_st k) ->
  Timer.timers (timer_st k) !! id = Some tm ->
  wp (run_callback other (callback tm))
    (fun _ k' => wf k' /\ timer_st k' = timer_dequeue id (timer_st k))
    (k_set_timers (timer_dequeue id (timer_st k)) k).
Proof.
  intros Hwf Hkt Hid Htm. pose proof Hwf as [Hw (thc & Hthc & Hsc)].
  destruct (w_timers _ _ Hw) as [Hnd Hin]. destruct (Hin id Hid) as (tm' & Htm' & _ & Htg).
  assert (tm' = tm) as -> by congruence. unfold timer_target in Htg. unfold run_callback.
  destruct (callback tm) as [[t|t|n]|] eqn:Hcb; [| |by apply (Hkt id tm n) in Htm|done].
  - destruct Htg as (-> & _ & th & Hth & Hs).
    assert (Hw1 : wfx ({[t]} ∪ ∅) (k_set_timers (timer_dequeue (local_timer t) (timer_st k)) k)).
    { apply (wfx_timer_remove _ k (local_timer t)); [|done..|].
      - eapply wfx_take_gen; [done|exact Hth|by rewrite Hs..].
      - intros t' th' Ht' Hs' Hx. unfold local_timer. set_solver by lia. }
    eapply (wp_thread_sleep_handler _ t th); [exact Hw1|done|done| |].
    + simpl. rewrite list_elem_of_filter. tauto.
    + intros rq bm th' Hw'. split; [|done]. split; [done|]. exists thc. simpl.
      rewrite lookup_insert_ne by congruence. done.
  - destruct Htg as (-> & _ & th & Hth & Hs).
    eapply (wp_wait_queue_timeout_handler _ t th); [|done|done|done].
    split; [|by exists thc]. apply (wfx_timer_remove _ k (local_timer t)); [done..|].
    intros t' th' Ht' Hs' Hx Heq.
    destruct (w_sleep _ _ Hw t' th' Ht' Hs' Hx) as (_ & tm' & Htm2 & Hc2). congruence.
Qed.

Lemma wp_timer_tick_loop fuel k time acc :
  wf k -> kernel_timers k -> (length (timer_queue (timer_st k)) < fuel)%nat ->
  wp (timer_tick_loop other fuel time acc) (fun _ => wf) k.
Proof.
  revert k acc. induction fuel as [|fuel IH]; intros k acc Hwf Hkt Hlen; [lia|].
  cbn [timer_tick_loop]. wp_step. destruct (timer_due time (timer_st k)) as [id|] eqn:Hdue;
    [|by apply wp_ret].
  assert (Hid : id ∈ timer_queue (timer_st k)).
  { unfold timer_due in Hdue. destruct (timer_queue (timer_st k)); [done|].
    destruct (TIME_LT _ _); simplify_eq; set_solver. }
  pose proof Hwf as [Hw _]. destruct (w_timers _ _ Hw) as [Hnd Hin].
  destruct (Hin id Hid) as (tm & Htm & Hm & Htg).
  assert (Hper : (0 <? periodic_time tm) = false).
  { unfold timer_target in Htg. destruct (callback tm) as [[t|t|n]|] eqn:Hcb;
      [destruct Htg as (_ & -> & _); done..|by apply (Hkt id tm n) in Htm|done]. }
  apply wp_seq. eapply wp_deref; [exact Htm|]. wp_step.
  apply wp_seq. eapply wp_run_timer_op; [done|]. apply wp_seq.
  eapply wp_mono; [by apply wp_run_callback|]. intros r k1 [Hwf1 Hts]. apply wp_seq.
  eapply wp_run_timer_op; [done|].
  rewrite Hper. replace (timer_requeue id false time (timer_st k1)) with (timer_st k1)
    by (unfold timer_requeue; destruct (Timer.timers (timer_st k1) !! id); done).
  rewrite k_set_timers_same. apply IH; [done| |].
  - intros id' tm' n. rewrite Hts. simpl. rewrite list_elem_of_filter.
    intros [_ Hid'] Htm'. by apply (Hkt id').
  - rewrite Hts. simpl. rewrite <- (filter_ne_length id) in Hlen by done. lia.
Qed.

Lemma wp_timer_tick k time :
  wf k -> kernel_timers k ->
  wp (timer_tick other (S (length (timer_queue (timer_st k)))) time) (fun _ => wf) k.
Proof.
  intros Hwf Hkt. unfold timer_tick. apply wp_seq.
  eapply wp_mono; [apply wp_timer_tick_loop; [done..|lia]|]. intros r k1 Hw1. apply wp_seq.
  eapply wp_mono; [by apply wp_thread_timer_tick|]. intros s k2 Hw2. by destruct s; apply wp_ret.
Qed.
End tick_safe.

(** ** Operations and their contracts *)

Inductive kop :=
| Op_yield
| Op_preempt
| Op_tick (time : Z)
| Op_set_priority (p : Z)
| Op_set_real_time (t : tid)
| Op_create (entry arg priority : Z) (mem_t : option tid) (mem_stack : bool)
| Op_resume (t : tid) (ints_disabled : bool)
| Op_sleep (delay : Z)
| Op_exit (retcode : Z)
| Op_join (t : tid) (timeout : Z)
| Op_join_resume (t : tid) (timeout : Z)
| Op_detach (t : tid)
| Op_wq_init (q : wqid)
| Op_wq_block (q : wqid) (timeout : Z)
| Op_wq_block_resume (timeout : Z)
| Op_wake_one (q : wqid) (reschedule : bool) (err : Z)
| Op_wake_all (q : wqid) (reschedule : bool) (err : Z)
| Op_wq_destroy (q : wqid)
| Op_unblock (t : tid) (err : Z).

Definition void {A} (c : K A) : K unit := c ;; ret tt.

Definition exec (other : nat -> K handler_return) (op : kop) : K unit :=
  match op with
  | Op_yield => thread_yield
  | Op_preempt => thread_preempt
  | Op_tick time =>
      let* k := get in void (timer_tick other (S (length (timer_queue (timer_st k)))) time)
  | Op_set_priority p => thread_set_priority p
  | Op_set_real_time t => void (thread_set_real_time (Some t))
  | Op_create e a p m s => void (thread_create e a p m s)
  | Op_resume t i => void (thread_resume t i)
  | Op_sleep d => thread_sleep d
  | Op_exit r => thread_exit r
  | Op_join t tm => void (thread_join t tm)
  | Op_join_resume t tm => void (thread_join_resume t tm)
  | Op_detach t => void (thread_detach t)
  | Op_wq_init q => wait_queue_init q
  | Op_wq_block q tm => void (wait_queue_block q tm)
  | Op_wq_block_resume tm => void (wait_queue_block_resume tm)
  | Op_wake_one q r e => void (wait_queue_wake_one q r e)
  | Op_wake_all q r e => void (wait_queue_wake_all q r e)
  | Op_wq_destroy q => void (wait_queue_destroy q false)
  | Op_unblock t e => void (thread_unblock_from_wait_queue t e)
  end.

(** What the caller of a blocking operation owes: it is not the idle thread,
    and the timer of its stack frame is not armed. *)
Definition may_block (k : kernel) : Prop :=
  current k <> idle_thread k /\ local_timer (current k) ∉ timer_queue (timer_st k).

Definition live_queue (k : kernel) (q : wqid) : Prop :=
  exists w, wait_queues k !! q = Some w /\ wq_magic w = WAIT_QUEUE_MAGIC.

(** A thread pointer that may still be joined. *)
Definition thread_handle (k : kernel) (t : tid) : Prop :=
  exists th, threads k !! t = Some th /\ th_magic th = THREAD_MAGIC /\
    (th_state th = THREAD_DEATH -> joinable k t th).

(** The thread comes back from a wait of at most [timeout]. *)
Definition resumes (k : kernel) (timeout : Z) : Prop :=
  timeout <> INFINITE_TIME -> exists tm,
    Timer.timers (timer_st k) !! local_timer (current k) = Some tm /\ timer_magic tm = TIMER_MAGIC.

Definition contract (op : kop) (k : kernel) : Prop :=
  match op with
  | Op_yield | Op_preempt => True
  | Op_tick _ => kernel_timers k
  | Op_set_priority _ => current k <> idle_thread k
  | Op_set_real_time t => exists th, threads k !! t = Some th /\ th_magic th = THREAD_MAGIC
  | Op_create _ _ p m _ => 0 <= p < 32 /\ forall t, m = Some t -> fresh_thread k t
  | Op_resume t _ => exists th, threads k !! t = Some th /\ th_state th <> THREAD_DEATH
  | Op_sleep _ | Op_exit _ => may_block k
  | Op_join t _ => may_block k /\ thread_handle k t
  | Op_join_resume t tm => resumes k tm /\
      forall th, threads k !! current k = Some th -> 0 <= th_wait_queue_block_ret th ->
        exists tht, joinable k t tht
  | Op_detach t => thread_handle k t
  | Op_wq_init q => forall w, wait_queues k !! q = Some w -> wq_list w = []
  | Op_wq_block q _ => may_block k /\ live_queue k q
  | Op_wq_block_resume tm => resumes k tm
  | Op_wake_one q r _ | Op_wake_all q r _ =>
      live_queue k q /\ (r = true -> current k <> idle_thread k)
  | Op_wq_destroy q => live_queue k q /\ not_retcode k q
  | Op_unblock t _ => exists th, threads k !! t = Some th /\ th_state th <> THREAD_DEATH
  end.

(** ** Safety of one operation *)

Lemma wp_void {A} (c : K A) (P : kernel -> Prop) k :
  wp c (fun _ => P) k -> wp (void c) (fun _ => P) k.
Proof. intros H. unfold void. apply wp_seq. eapply wp_mono; [exact H|]. by intros. Qed.

Lemma wfx_init_queue X k q :
  wfx X k -> (forall w, wait_queues k !! q = Some w -> wq_list w = []) ->
  wfx X (k_set_wait_queues (<[q := Wait_queue WAIT_QUEUE_MAGIC [] 0]> (wait_queues k)) k).
Proof.
  intros [w_len0 w_bm0 w_bits0 w_rq0 w_ready0 w_wq0 w_blocked0 w_thread0 w_idle0 w_timers0 w_sleep0
    w_retcode0 w_unblocked0] He.
  split; simpl; try done.
  - intros q' w' Hq'. destruct (decide (q = q')) as [<-|Hne].
    + rewrite lookup_insert_eq in Hq'. simplify_eq. simpl. split_and!; try done; [constructor|].
      intros x Hx. by apply elem_of_nil in Hx.
    + rewrite lookup_insert_ne in Hq' by done. by apply w_wq0.
  - intros x thx Hx Hs Hn. destruct (w_blocked0 x thx Hx Hs Hn) as (q' & w' & ? & Hq' & Hin).
    exists q', w'. split; [done|]. split; [|done]. rewrite lookup_insert_ne; [done|].
    intros ->. rewrite (He w' Hq') in Hin. by apply elem_of_nil in Hin.
  - intros x thx Hx Hm. unfold has_retcode_queue. simpl.
    destruct (decide (q = WqRetcode x)) as [->|Hne].
    + eexists. by rewrite lookup_insert_eq.
    + rewrite lookup_insert_ne by done. by apply (w_retcode0 x thx).
Qed.

Lemma wp_thread_join_resume k t timeout :
  wf k -> resumes k timeout ->
  (forall th, threads k !! current k = Some th -> 0 <= th_wait_queue_block_ret th ->
     exists tht, joinable k t tht) ->
  wp (thread_join_resume t timeout) (fun _ => wf) k.
Proof.
  intros Hwf Hr Hj. unfold thread_join_resume. apply wp_seq.
  eapply wp_mono; [by apply wp_wait_queue_block_resume|].
  intros r k' (Hw' & Et & Ec & Ewq & Etl & _ & th & Hth & ->).
  destruct_guard; [by apply wp_ret|]. bool_to_prop. destruct (Hj th Hth) as (tht & Hjt); [lia|].
  apply wp_seq. eapply wp_mono.
  - apply (wp_thread_join_finish k' t tht); [done|]. unfold joinable in *. by rewrite Et, Ewq.
  - intros rc k'' [? _]. by apply wp_ret.
Qed.

Lemma wp_wake_one k q (r : bool) err :
  wf k -> live_queue k q -> (r = true -> current k <> idle_thread k) ->
  wp (wait_queue_wake_one q r err) (fun _ => wf) k.
Proof.
  intros Hwf (w & Hq & Hm) Hr. destruct r.
  { eapply wp_mono; [eapply wp_wake_one_resched; eauto|]. by intros n k' [? _]. }
  pose proof Hwf as [Hw (thc & Hthc & Hsc)].
  eapply wp_wake_one_head; [exact Hw|exact Hq|done|done|].
  intros t l th rq bm Hl Hth _ k' Hw'. split; [exact Hw'|]. exists thc. simpl.
  rewrite lookup_insert_ne; [done|]. intros ->.
  apply (wf_wait_queue_running k q w (current k) thc Hwf Hq Hthc Hsc). rewrite Hl. by left.
Qed.

Lemma wp_wake_all k q (r : bool) err :
  wf k -> live_queue k q -> (r = true -> current k <> idle_thread k) ->
  wp (wait_queue_wake_all q r err) (fun _ => wf) k.
Proof.
  intros Hwf (w & Hq & Hm) Hr. destruct r; [by eapply wp_wake_all_resched; eauto|].
  pose proof Hwf as [Hw _]. eapply wp_wake_all_quiet; [exact Hw|exact Hq|done|].
  intros k' Hw' Hwa. by eapply woke_all_wf.
Qed.

Lemma wp_unblock k t err :
  wf k -> (exists th, threads k !! t = Some th /\ th_state th <> THREAD_DEATH) ->
  wp (thread_unblock_from_wait_queue t err) (fun _ => wf) k.
Proof.
  intros Hwf (th & Hth & Hd). pose proof Hwf as [Hw (thc & Hthc & Hsc)].
  eapply wp_thread_unblock_from_wait_queue; [exact Hw|exact Hth|done|done|].
  intros q w rq bm Hb Hq Hin Hw'. split; [done|]. exists thc. simpl.
  rewrite lookup_insert_ne by congruence. done.
Qed.

Lemma wp_exec other op k : wf k -> contract op k -> wp (exec other op) (fun _ => wf) k.
Proof.
  intros Hwf Hc. destruct op; cbn [exec contract] in *.
  - by apply wp_thread_yield.
  - by apply wp_thread_preempt.
  - wp_step. by apply wp_void, wp_timer_tick.
  - by apply wp_thread_set_priority.
  - destruct Hc as (th & ? & ?). by eapply wp_void, wp_thread_set_real_time.
  - destruct Hc. by apply wp_void, wp_thread_create.
  - destruct Hc as (th & ? & ?). by eapply wp_void, wp_thread_resume.
  - destruct Hc. by apply wp_thread_sleep.
  - destruct Hc. by apply wp_thread_exit.
  - destruct Hc as ([? ?] & th & ? & ? & ?). by eapply wp_void, wp_thread_join.
  - destruct Hc. by apply wp_void, wp_thread_join_resume.
  - destruct Hc as (th & ? & ? & ?). by eapply wp_void, wp_thread_detach.
  - destruct Hwf as [Hw Hcur]. split; [by apply wfx_init_queue|done].
  - destruct Hc as ([? ?] & w & ? & ?). apply wp_void.
    eapply wp_mono; [by eapply wp_wait_queue_block|]. by intros r k' [? _].
  - apply wp_void. eapply wp_mono; [by apply wp_wait_queue_block_resume|]. by intros r k' [? _].
  - destruct Hc. by apply wp_void, wp_wake_one.
  - destruct Hc. by apply wp_void, wp_wake_all.
  - destruct Hc as [(w & ? & ?) ?]. apply wp_void.
    eapply wp_mono; [by eapply wp_wait_queue_destroy|]. by intros r k' [? _].
  - by apply wp_void, wp_unblock.
Qed.

(** ** Boot *)

(** The idle thread as thread_become_idle has it when it yields. *)
Lemma boot_wf idle : wp thread_become_idle (fun _ => wf) (thread_init_early idle).
Proof.
  unfold thread_become_idle. wp_step. cbn [current thread_init_early].
  apply wp_seq. eapply wp_upd_thread; [apply lookup_singleton_eq|]. wp_step. wp_step.
  rewrite k_upd_upd. apply wp_thread_yield. set (th := th_set_flags _ _).
  unfold k_upd, k_set_threads, thread_init_early. cbn [threads thread_list run_queue
    run_queue_bitmap wait_queues current idle_thread timer_st now delayed_free].
  rewrite insert_singleton_eq.
  assert (Hth : forall t th', ({[idle := th]} : gmap tid thread) !! t = Some th' -> t = idle /\ th' = th)
    by (intros t th' H; apply lookup_singleton_Some in H as [<- <-]; done).
  assert (Hq : forall q w, ({[WqRetcode idle := Wait_queue WAIT_QUEUE_MAGIC [] 0]} : gmap wqid wait_queue)
    !! q = Some w -> w = Wait_queue WAIT_QUEUE_MAGIC [] 0)
    by (intros q w H; apply lookup_singleton_Some in H as [<- <-]; done).
  assert (Hrq : forall p l, replicate NUM_PRIORITIES ([] : list tid) !! p = Some l -> l = [])
    by (intros p l H; by apply lookup_replicate in H as [-> _]).
  assert (Hself : ({[idle := th]} : gmap tid thread) !! idle = Some th) by apply lookup_singleton_eq.
  split; [split|]; cbn [threads thread_list run_queue run_queue_bitmap wait_queues current
    idle_thread timer_st now delayed_free].
  - by rewrite length_replicate.
  - lia.
  - intros p l Hp. by rewrite (Hrq p l Hp), Z.bits_0.
  - intros p l Hp. rewrite (Hrq p l Hp). split; [constructor|]. intros t Ht.
    by apply elem_of_nil in Ht.
  - intros t th' H Hs. by apply Hth in H as [-> ->].
  - intros q w H. rewrite (Hq q w H). simpl. split_and!; try done; [constructor|].
    intros t Ht. by apply elem_of_nil in Ht.
  - intros t th' H Hs. by apply Hth in H as [-> ->].
  - intros t th' H. apply Hth in H as [-> ->]. simpl. split_and!; try done.
    by rewrite bool_decide_true.
  - exists th. split; [done|]. by right.
  - split; [constructor|]. intros id Hid. by apply elem_of_nil in Hid.
  - intros t th' H Hs. by apply Hth in H as [-> ->].
  - intros t th' H _. apply Hth in H as [-> _]. eexists. split; [apply lookup_singleton_eq|done].
  - intros t th' H _. by apply Hth in H as [-> ->].
  - by exists th.
Qed.

(** ** Reachable kernels *)

(** One operation of the current thread, or one timer interrupt, within its
    contract. *)
Inductive reachable (other : nat -> K handler_return) (idle : tid) : kernel -> Prop :=
| reachable_boot k :
    thread_become_idle (thread_init_early idle) = (Ret tt, k) -> reachable other idle k
| reachable_step k op k' :
    reachable other idle k -> contract op k -> exec other op k = (Ret tt, k') ->
    reachable other idle k'.

Lemma reachable_wf other idle k : reachable other idle k -> wf k.
Proof.
  induction 1 as [k Hb|k op k' _ IH Hc He].
  - pose proof (boot_wf idle) as Hw. unfold wp in Hw. by rewrite Hb in Hw.
  - pose proof (wp_exec other op k IH Hc) as Hw. unfold wp in Hw. by rewrite He in Hw.
Qed.

(** C1: from boot on, however operations of the running threads and timer
    interrupts interleave, every kernel operation called within its contract
    runs to its end: no assertion fails, no freed thread or queue is touched and
    no loop hangs.  The kernel stays well formed: every ready thread is on
    exactly its priority's run queue and the bitmap says which queues are
    non-empty, every blocked thread is on the one wait queue it names, every
    sleeping thread has its timer queued, and exactly the current thread runs. *)
Theorem kernel_safe other idle k op :
  reachable other idle k -> contract op k ->
  exists k', exec other op k = (Ret tt, k') /\ wf k' /\ reachable other idle k'.
Proof.
  intros Hr Hc. pose proof (wp_exec other op k (reachable_wf _ _ _ Hr) Hc) as Hw.
  apply wp_run in Hw as ([] & k' & He & Hw). exists k'. split; [done|]. split; [done|].
  by eapply reachable_step.
Qed.

(** A run used as a witness: a thread is created and started, initialises a
    queue, blocks on it with a timeout, and the timer interrupt makes it ready. *)
Definition no_other : nat -> K handler_return := fun _ => panic.

Definition sample_ops : list kop :=
  [Op_create 7 9 16 (Some 1%nat) true; Op_resume 1%nat false; Op_wq_init (WqObject 0);
   Op_wq_block (WqObject 0) 100; Op_tick 200].

Definition boot_state (idle : tid) : kernel := snd (thread_become_idle (thread_init_early idle)).

Fixpoint after (ops : list kop) (k : kernel) : kernel :=
  match ops with [] => k | op :: ops' => after ops' (snd (exec no_other op k)) end.

Lemma reachable_after op k :
  reachable no_other 0%nat k -> contract op k -> fst (exec no_other op k) = Ret tt ->
  reachable no_other 0%nat (snd (exec no_other op k)).
Proof.
  intros Hr Hc He. eapply reachable_step; [exact Hr|exact Hc|].
  destruct (exec no_other op k). simpl in *. by subst.
Qed.

Lemma sample_reachable : reachable no_other 0%nat (after sample_ops (boot_state 0%nat)).
Proof.
  unfold sample_ops. cbn [after].
  repeat apply reachable_after; try (vm_compute; reflexivity); [constructor; vm_compute; reflexivity|..].
  - split; [lia|]. intros t [= <-]. split; vm_compute; reflexivity.
  - eexists. split; [vm_compute; reflexivity|done].
  - intros w. vm_compute. done.
  - split; [split; [vm_compute; done|]|eexists; split; [vm_compute; reflexivity|done]].
    vm_compute. intros Hx. inversion Hx.
  - intros id tm n. vm_compute. intros Hid. inversion Hid as [|? ? ? Hx]; subst; [|inversion Hx].
    by intros [= <-].
Qed.

Lemma kernel_safe_witness :
  let k := after sample_ops (boot_state 0%nat) in
  exists k', exec no_other Op_preempt k = (Ret tt, k') /\ wf k' /\ reachable no_other 0%nat k'.
Proof. exact (kernel_safe no_other 0%nat _ Op_preempt sample_reachable I). Defined.

(** In that run the thread comes back with the timeout's error. *)
Example sample_times_out :
  let k := after [Op_preempt] (after sample_ops (boot_state 0%nat)) in
  current k = 1%nat /\ fst (wait_queue_block_resume 100 k) = Ret ERR_TIMED_OUT.
Proof. vm_compute. done. Qed.
