(* ===== verification/KernelSched.v ===== *)
(** * Scheduling policy and wait-queue order

    What the operations do beyond keeping the kernel well formed: the running
    thread always has the highest priority among the ready ones, yielding is
    round-robin within a priority, and wait queues are first in, first out. *)

From stdpp Require Import prelude list gmap.
From Stdlib Require Import ZArith Lia.
From S2P Require Import Prelude Timer Kernel KernelInv KernelOps KernelLife KernelSafe.

Open Scope Z_scope.
Open Scope lk_scope.

Section policy.
Implicit Types (k : kernel) (t : tid).

(** No ready thread has a higher priority than the running one. *)
Definition highest k : Prop :=
  forall cur t th, threads k !! current k = Some cur -> threads k !! t = Some th ->
    th_state th = THREAD_READY -> t <> idle_thread k -> th_priority th <= th_priority cur.

Lemma picks_highest k k' :
  wfx ∅ k -> wf k' -> sched_frame k k' -> picks k (current k') (run_queue k') -> highest k'.
Proof.
  intros Hwf [Hwf' _] Hf Hp cur t th Hcur Ht Hs Hni.
  destruct (w_ready _ _ Hwf' t th Ht Hs Hni) as (l & Hl & Hin); [set_solver|].
  destruct Hp as [(p & l0 & (Htop & _ & Hhi) & Hrq)|(Hemp & _ & Hrq)].
  - destruct (w_rq _ _ Hwf p _ Htop) as [_ Hin0].
    destruct (Hin0 (current k')) as (c0 & Hc0 & _ & Hpc & _); [by left|].
    destruct (sched_frame_lookup _ _ _ _ Hf Hc0) as (c1 & Hc1 & He).
    assert (c1 = cur) as -> by congruence.
    assert (th_priority cur = th_priority c0) as -> by (by injection He).
    destruct (w_thread _ _ Hwf' t th Ht) as (Hpt & _).
    destruct (w_thread _ _ Hwf _ c0 Hc0) as (Hp0 & _).
    destruct (Z.le_gt_cases (th_priority th) (th_priority c0)) as [|Hgt]; [done|].
    rewrite Hrq, list_lookup_insert_ne in Hl by lia.
    rewrite (Hhi (Z.to_nat (th_priority th)) l ltac:(lia) Hl) in Hin. by apply elem_of_nil in Hin.
  - rewrite Hrq in Hl. rewrite (Hemp _ _ Hl) in Hin. by apply elem_of_nil in Hin.
Qed.

(** The run queues right after the yielding thread was appended to its own. *)
Lemma yield_requeue k cur (Q : unit -> kernel -> Prop) :
  wf k -> threads k !! current k = Some cur -> current k <> idle_thread k ->
  (forall k0 k', wfx ∅ k0 -> wf k' -> sched_frame k0 k' -> idle_thread k0 = idle_thread k ->
     run_queue k0 = run_queue_with false k (current k) cur ->
     picks k0 (current k') (run_queue k') -> Q tt k') ->
  wp thread_yield Q k.
Proof.
  intros Hwf Hcur Hni HQ. destruct (wf_current k Hwf) as (th & Hth & Hs & Hm & Hi).
  assert (th = cur) as -> by congruence. destruct Hwf as [Hwf _].
  unfold thread_yield, insert_in_run_queue_tail. wp_step. wp_step. wp_step. wp_step. wp_step. wp_step.
  rewrite k_upd_upd, Hi, bool_decide_false by done. cbn [negb].
  set (th' := th_set_quantum _ _). apply wp_seq.
  assert (Hw : wfx ({[current k]} ∪ ∅) (k_upd (current k) th' k)).
  { apply wfx_upd; [by eapply wfx_take, unqueued_running|set_solver|by eapply thread_ok_ready]. }
  eapply wp_insert_run_eq; [exact Hw|set_solver|by k_lookup|done|done|]. intros bm Hw0.
  replace (({[current k]} ∪ ∅) ∖ {[current k]} : gset tid) with (∅ : gset tid) in Hw0 by set_solver.
  eapply (wp_resched _ th'); [exact Hw0|by k_lookup|done|].
  intros k' Hwf' Hf Hp. by eapply HQ.
Qed.

(** A thread that is taken from the queue it was appended to was alone there. *)
Lemma yield_picked_alone k cur k0 rq :
  wf k -> threads k !! current k = Some cur -> idle_thread k0 = idle_thread k ->
  current k <> idle_thread k ->
  run_queue k0 = run_queue_with false k (current k) cur -> picks k0 (current k) rq ->
  forall p l, run_queue k !! p = Some l -> (Z.to_nat (th_priority cur) <= p)%nat -> l = [].
Proof.
  intros Hwf Hcur Hid Hni Hrq Hp p l Hl Hle. destruct Hwf as [Hwf (c & Hc & Hcs)].
  assert (c = cur) as -> by congruence.
  assert (Hnin : forall p' l', run_queue k !! p' = Some l' -> current k ∉ l').
  { intros p' l' Hl' Hin. destruct (w_rq _ _ Hwf p' l' Hl') as [_ H].
    destruct (H _ Hin) as (c' & ? & ? & _). congruence. }
  destruct Hp as [(p0 & l0 & (Htop & _ & Hhi) & _)|(_ & Heq & _)]; [|congruence].
  rewrite Hrq in Htop, Hhi. unfold run_queue_with in *.
  destruct (decide (p0 = Z.to_nat (th_priority cur))) as [->|Hne].
  - rewrite list_lookup_alter_eq in Htop. apply fmap_Some in Htop as (l1 & Hl1 & E).
    destruct l1 as [|x l1]; [|injection E as <- _; exfalso; eapply Hnin; [exact Hl1|by left]].
    destruct (decide (p = Z.to_nat (th_priority cur))) as [->|Hp]; [congruence|].
    apply (Hhi p); [lia|]. by rewrite list_lookup_alter_ne by lia.
  - rewrite list_lookup_alter_ne in Htop by done. exfalso. eapply Hnin; [exact Htop|by left].
Qed.

(** C32: thread_yield gives the cpu to a thread of the highest ready priority,
    and not back to the caller while another thread of the same or a higher
    priority is ready. *)
Theorem thread_yield_round_robin k cur :
  wf k -> threads k !! current k = Some cur -> current k <> idle_thread k ->
  exists k', thread_yield k = (Ret tt, k') /\ wf k' /\ highest k' /\
    forall t th, threads k !! t = Some th -> th_state th = THREAD_READY -> t <> idle_thread k ->
      th_priority cur <= th_priority th -> current k' <> current k.
Proof.
  intros Hwf Hcur Hni.
  assert (Hw : wp thread_yield (fun _ k' => wf k' /\ highest k' /\
    forall t th, threads k !! t = Some th -> th_state th = THREAD_READY -> t <> idle_thread k ->
      th_priority cur <= th_priority th -> current k' <> current k) k).
  { eapply yield_requeue; [done..|]. intros k0 k' Hw0 Hwf' Hf Hid Hrq Hp.
    split; [done|]. split; [by eapply picks_highest|]. intros t th Ht Hs Hit Hle Heq.
    rewrite Heq in Hp.
    destruct (w_ready _ _ (proj1 Hwf) t th Ht Hs Hit) as (l & Hl & Hin); [set_solver|].
    rewrite (yield_picked_alone k cur k0 _ Hwf Hcur Hid Hni Hrq Hp _ _ Hl) in Hin by lia.
    by apply elem_of_nil in Hin. }
  apply wp_run in Hw as ([] & k' & ? & ? & ? & ?). by exists k'.
Qed.

(** wait_queue_wake_one wakes nobody on an empty queue; otherwise it wakes
    exactly the thread that has waited longest, which will see the given return
    code, keeps the order of the others and leaves every other thread alone. *)
Theorem wait_queue_wake_one_fifo k q w err :
  wf k -> wait_queues k !! q = Some w -> wq_magic w = WAIT_QUEUE_MAGIC ->
  match wq_list w with
  | [] => wait_queue_wake_one q false err k = (Ret 0, k)
  | t :: l =>
      exists k' th, wait_queue_wake_one q false err k = (Ret 1, k') /\ wf k' /\
        threads k !! t = Some th /\ th_state th = THREAD_BLOCKED /\
        threads k' = <[t := th_wake err th]> (threads k) /\
        wait_queues k' = <[q := Wait_queue (wq_magic w) l (wq_count w - 1)]> (wait_queues k)
  end.
Proof.
  intros Hwf Hq Hm. pose proof (wp_wake_one k q false err Hwf) as Hsafe.
  destruct (wq_list w) as [|t l] eqn:Hl.
  - assert (Hw : wp (wait_queue_wake_one q false err) (fun r k' => r = 0 /\ k' = k) k).
    { eapply wp_wake_one_head; [exact (proj1 Hwf)|exact Hq|done|done|]. intros. congruence. }
    by apply wp_run in Hw as (r & k' & -> & -> & ->).
  - assert (Hw : wp (wait_queue_wake_one q false err) (fun r k' => r = 1 /\ exists th,
      threads k !! t = Some th /\ threads k' = <[t := th_wake err th]> (threads k) /\
      wait_queues k' = <[q := wq_without t w]> (wait_queues k)) k).
    { eapply wp_wake_one_head; [exact (proj1 Hwf)|exact Hq|done|intros; congruence|].
      intros t' l' th rq bm Hl' Hth _ k' _. assert (t' = t) as -> by congruence.
      split; [done|]. by exists th. }
    apply wp_run in Hw as (r & k' & Hrun & -> & th & Hth & Ht & Hqs).
    assert (Hwf' : wf k').
    { specialize (Hsafe ltac:(by exists w) ltac:(done)). unfold wp in Hsafe. by rewrite Hrun in Hsafe. }
    destruct (w_wq _ _ (proj1 Hwf) q w Hq) as (Hnd & _ & _ & Hin).
    destruct (Hin t) as (th0 & ? & ? & _); [rewrite Hl; by left|].
    exists k', th. split_and!; try done; [congruence|].
    rewrite Hqs. unfold wq_without. rewrite Hl in *. by rewrite filter_ne_head.
Qed.
End policy.

(** ** Concrete runs *)

(** Thread 1 runs, thread 2 of the same priority is ready behind it. *)
Definition two_ready : kernel :=
  after [Op_create 7 9 16 (Some 1%nat) true; Op_create 8 9 16 (Some 2%nat) true;
         Op_resume 2%nat true; Op_resume 1%nat false] (boot_state 0%nat).

Lemma two_ready_wf : wf two_ready.
Proof.
  apply (reachable_wf no_other 0%nat). unfold two_ready. cbn [after].
  repeat apply reachable_after; try (vm_compute; reflexivity); [constructor; vm_compute; reflexivity|..].
  - split; [lia|]. intros t [= <-]. split; vm_compute; reflexivity.
  - split; [lia|]. intros t [= <-]. split; vm_compute; reflexivity.
  - eexists. split; [vm_compute; reflexivity|done].
  - eexists. split; [vm_compute; reflexivity|done].
Qed.

Lemma thread_yield_round_robin_witness :
  exists k', thread_yield two_ready = (Ret tt, k') /\ wf k' /\ highest k' /\
    forall t th, threads two_ready !! t = Some th -> th_state th = THREAD_READY ->
      t <> idle_thread two_ready -> 16 <= th_priority th -> current k' <> current two_ready.
Proof.
  apply (thread_yield_round_robin two_ready
    (Thread THREAD_MAGIC 16 THREAD_RUNNING 5 6 None NO_ERROR 7 9 0));
    [apply two_ready_wf|vm_compute; reflexivity|].
  vm_compute. done.
Defined.

(** Thread 1 waits on queue 0. *)
Definition one_waiting : kernel :=
  after [Op_create 7 9 16 (Some 1%nat) true; Op_resume 1%nat false; Op_wq_init (WqObject 0);
         Op_wq_block (WqObject 0) INFINITE_TIME] (boot_state 0%nat).

Lemma one_waiting_wf : wf one_waiting.
Proof.
  apply (reachable_wf no_other 0%nat). unfold one_waiting. cbn [after].
  repeat apply reachable_after; try (vm_compute; reflexivity); [constructor; vm_compute; reflexivity|..].
  - split; [lia|]. intros t [= <-]. split; vm_compute; reflexivity.
  - eexists. split; [vm_compute; reflexivity|done].
  - intros w. vm_compute. done.
  - split; [split; [vm_compute; done|]|eexists; split; [vm_compute; reflexivity|done]].
    vm_compute. intros Hx. inversion Hx.
Qed.

Lemma wait_queue_wake_one_fifo_witness :
  exists k' th, wait_queue_wake_one (WqObject 0) false 5 one_waiting = (Ret 1, k') /\ wf k' /\
    threads one_waiting !! 1%nat = Some th /\ th_state th = THREAD_BLOCKED /\
    threads k' = <[1%nat := th_wake 5 th]> (threads one_waiting) /\
    wait_queues k' = <[WqObject 0 := Wait_queue WAIT_QUEUE_MAGIC [] 0]> (wait_queues one_waiting).
Proof.
  exact (wait_queue_wake_one_fifo one_waiting (WqObject 0) (Wait_queue WAIT_QUEUE_MAGIC [1%nat] 1) 5
    one_waiting_wf ltac:(vm_compute; reflexivity) eq_refl).
Defined.
