(* ===== verification/Mutex.v ===== *)
(** * kernel/mutex.c on top of wait queues

    [waitq] is what a wait queue promises to the objects built on it; the
    kernel's queues keep that promise (KernelWait.v).  A thread that blocks in
    mutex_acquire_timeout finishes the call in [mutex_acquire_resume], when it is
    scheduled again; what other threads do in between is the step relation. *)

From stdpp Require Import prelude list gmap.
From Stdlib Require Import ZArith Lia.
From S2P Require Import Prelude Timer Kernel.

Open Scope Z_scope.
Open Scope lk_scope.

(** ** The wait-queue contract *)

(** Threads that wait, oldest first, and the return codes of those that were
    woken and have not run since. *)
Record waitq := Waitq { waiting : list tid; results : gmap tid Z }.

Definition waitq_init : waitq := Waitq [] ∅.

Definition waitq_block (t : tid) (timeout : Z) (q : waitq) : call_result * waitq :=
  if timeout =? 0 then (Returned ERR_TIMED_OUT, q)
  else (Blocked, Waitq (waiting q ++ [t]) (results q)).

Definition waitq_wake_one (err : Z) (q : waitq) : Z * waitq :=
  match waiting q with
  | [] => (0, q)
  | t :: l => (1, Waitq l (<[t := err]> (results q)))
  end.

Fixpoint record_all (l : list tid) (err : Z) (m : gmap tid Z) : gmap tid Z :=
  match l with [] => m | t :: l' => record_all l' err (<[t := err]> m) end.

Definition waitq_wake_all (err : Z) (q : waitq) : Z * waitq :=
  (Z.of_nat (length (waiting q)), Waitq [] (record_all (waiting q) err (results q))).

(** The timeout handler finds the thread still waiting. *)
Definition waitq_timeout (t : tid) (q : waitq) : waitq :=
  Waitq (filter (fun x => x <> t) (waiting q)) (<[t := ERR_TIMED_OUT]> (results q)).

(** The end of wait_queue_block in a thread that was woken. *)
Definition waitq_resume (t : tid) (q : waitq) : option (Z * waitq) :=
  (fun r => (r, Waitq (waiting q) (delete t (results q)))) <$> results q !! t.

(** ** The mutex *)

Definition MUTEX_MAGIC : Z := 0x6D757478.

Record mutex_t := Mutex {
  mutex_magic : Z;
  holder : option tid;
  mutex_count : Z;
  mutex_wait : waitq
}.

Definition mutex_init : mutex_t := Mutex MUTEX_MAGIC None 0 waitq_init.

Definition MM (A : Type) : Type := M mutex_t Empty_set A.

Definition set_count (c : Z) (m : mutex_t) : mutex_t :=
  Mutex (mutex_magic m) (holder m) c (mutex_wait m).
Definition set_holder (h : option tid) (m : mutex_t) : mutex_t :=
  Mutex (mutex_magic m) h (mutex_count m) (mutex_wait m).
Definition set_wait (q : waitq) (m : mutex_t) : mutex_t :=
  Mutex (mutex_magic m) (holder m) (mutex_count m) q.

Definition mutex_destroy (cur : tid) : MM unit :=
  let* m := get in
  assert_ (mutex_magic m =? MUTEX_MAGIC) ;;
  assert_ (bool_decide (holder m = None \/ holder m = Some cur)) ;;
  put (Mutex 0 (holder m) 0 (snd (waitq_wake_all ERR_OBJECT_DESTROYED (mutex_wait m)))).

(** The code behind wait_queue_block's return [ret]. *)
Definition mutex_acquire_finish (cur : tid) (ret_ : Z) : MM call_result :=
  if ret_ <? NO_ERROR then
    (if ret_ =? ERR_TIMED_OUT then modify (fun m => set_count (mutex_count m - 1) m)
     else ret tt) ;;
    ret (Returned ret_)
  else
    modify (set_holder (Some cur)) ;;
    ret (Returned ret_).

Definition mutex_acquire_timeout (cur : tid) (timeout : Z) : MM call_result :=
  let* m := get in
  assert_ (mutex_magic m =? MUTEX_MAGIC) ;;
  (if bool_decide (holder m = Some cur) then panic else ret tt) ;;
  modify (fun m => set_count (mutex_count m + 1) m) ;;
  let* m := get in
  if 1 <? mutex_count m then
    let '(r, q) := waitq_block cur timeout (mutex_wait m) in
    modify (set_wait q) ;;
    match r with
    | Blocked => ret Blocked
    | Returned e => mutex_acquire_finish cur e
    end
  else
    modify (set_holder (Some cur)) ;;
    ret (Returned NO_ERROR).

(** mutex_acquire_timeout from the return of its wait on. *)
Definition mutex_acquire_resume (cur : tid) : MM call_result :=
  let* m := get in
  let* rq := deref (waitq_resume cur (mutex_wait m)) in
  modify (set_wait (snd rq)) ;;
  mutex_acquire_finish cur (fst rq).

Definition mutex_acquire (cur : tid) : MM call_result := mutex_acquire_timeout cur INFINITE_TIME.

Definition mutex_release (cur : tid) : MM Z :=
  let* m := get in
  assert_ (mutex_magic m =? MUTEX_MAGIC) ;;
  (if bool_decide (holder m <> Some cur) then panic else ret tt) ;;
  modify (set_holder None) ;;
  modify (fun m => set_count (mutex_count m - 1) m) ;;
  let* m := get in
  (if 1 <=? mutex_count m then
     modify (fun m => set_wait (snd (waitq_wake_one NO_ERROR (mutex_wait m))) m)
   else ret tt) ;;
  ret NO_ERROR.

Definition is_mutex_held (cur : tid) (m : mutex_t) : bool := bool_decide (holder m = Some cur).

(** ** Interleavings *)

(** The thread has nothing to do with the mutex. *)
Definition outside (t : tid) (m : mutex_t) : Prop :=
  holder m <> Some t /\ t ∉ waiting (mutex_wait m) /\ results (mutex_wait m) !! t = None.

(** One call, the rest of one call, or a timeout; [timeouts] says which threads
    use one. *)
Inductive mutex_step (timeouts : tid -> bool) : mutex_t -> mutex_t -> Prop :=
| step_acquire t timeout m r m' :
    outside t m -> (timeout = INFINITE_TIME \/ timeouts t = true) ->
    mutex_acquire_timeout t timeout m = (Ret r, m') -> mutex_step timeouts m m'
| step_resume t m r m' :
    mutex_acquire_resume t m = (Ret r, m') -> mutex_step timeouts m m'
| step_release t m r m' :
    mutex_release t m = (Ret r, m') -> mutex_step timeouts m m'
| step_timeout t m :
    timeouts t = true -> t ∈ waiting (mutex_wait m) ->
    mutex_step timeouts m (set_wait (waitq_timeout t (mutex_wait m)) m).

Inductive mutex_reachable (timeouts : tid -> bool) : mutex_t -> Prop :=
| mutex_start : mutex_reachable timeouts mutex_init
| mutex_next m m' : mutex_reachable timeouts m -> mutex_step timeouts m m' ->
    mutex_reachable timeouts m'.

(** Nobody uses a timeout. *)
Definition untimed (t : tid) : bool := false.

(** Owners: the holder, and a thread that was handed the mutex but has not run. *)
Definition owner (m : mutex_t) (t : tid) : Prop :=
  holder m = Some t \/ results (mutex_wait m) !! t = Some NO_ERROR.

(** Everyone counted: the holder, the waiters, and the woken ones. *)
Definition granted (m : mutex_t) : gmap tid Z :=
  filter (fun kv => kv.2 = NO_ERROR) (results (mutex_wait m)).

Definition holders (m : mutex_t) : nat := if holder m then 1 else 0.

Record mutex_inv (m : mutex_t) : Prop := {
  mi_magic : mutex_magic m = MUTEX_MAGIC;
  mi_count : mutex_count m
    = Z.of_nat (holders m + length (waiting (mutex_wait m)) + size (results (mutex_wait m)));
  mi_results : forall t r, results (mutex_wait m) !! t = Some r -> r = NO_ERROR \/ r = ERR_TIMED_OUT;
  mi_nodup : NoDup (waiting (mutex_wait m));
  mi_disjoint : forall t, t ∈ waiting (mutex_wait m) -> results (mutex_wait m) !! t = None;
  mi_owner : (holders m + size (granted m) <= 1)%nat;
  mi_holder : forall t, holder m = Some t ->
    t ∉ waiting (mutex_wait m) /\ results (mutex_wait m) !! t = None
}.

(** ** Mutual exclusion *)

Section invariant.
Implicit Types (m : mutex_t) (t : tid).

Lemma granted_insert m t q :
  results (mutex_wait m) !! t = None ->
  results q = <[t := NO_ERROR]> (results (mutex_wait m)) ->
  size (granted (set_wait q m)) = S (size (granted m)).
Proof.
  intros Hn Hq. unfold granted. simpl. rewrite Hq, map_filter_insert_True by done.
  rewrite map_size_insert_None; [done|]. apply map_lookup_filter_None. by left.
Qed.

Lemma granted_insert_other m t r q :
  results (mutex_wait m) !! t = None -> r <> NO_ERROR ->
  results q = <[t := r]> (results (mutex_wait m)) -> granted (set_wait q m) = granted m.
Proof.
  intros Hn Hr Hq. unfold granted. simpl. rewrite Hq, map_filter_insert_False by done.
  by rewrite delete_id.
Qed.

Lemma granted_delete m t q :
  results q = delete t (results (mutex_wait m)) ->
  granted (set_wait q m) = delete t (granted m).
Proof. intros Hq. unfold granted. simpl. by rewrite Hq, map_filter_delete. Qed.

Lemma mutex_inv_block m t :
  mutex_inv m -> outside t m ->
  mutex_inv (set_wait (Waitq (waiting (mutex_wait m) ++ [t]) (results (mutex_wait m)))
               (set_count (mutex_count m + 1) m)).
Proof.
  intros [Hmag Hc Hr Hnd Hdis Hown Hh] (Hho & Hwt & Hrt). split; simpl; try done.
  - rewrite Hc, length_app. unfold holders. simpl. lia.
  - apply NoDup_app. split; [done|]. split; [set_solver|apply NoDup_singleton].
  - intros x Hx. apply elem_of_app in Hx as [Hx|Hx]; [by apply Hdis|].
    by apply list_elem_of_singleton in Hx as ->.
  - intros x Hx. destruct (Hh x Hx) as [? ?]. split; [|done]. rewrite elem_of_app.
    intros [?|Hin]; [done|]. apply list_elem_of_singleton in Hin as ->. done.
Qed.

Lemma mutex_inv_take m t :
  mutex_inv m -> mutex_count m = 0 -> outside t m ->
  mutex_inv (set_holder (Some t) (set_count (mutex_count m + 1) m)).
Proof.
  intros [Hmag Hc Hr Hnd Hdis Hown Hh] Hz (Hho & Hwt & Hrt). rewrite Hz in Hc.
  assert (Hs : size (results (mutex_wait m)) = 0%nat) by lia.
  apply map_size_empty_inv in Hs.
  split; simpl; try done.
  - rewrite Hz. unfold holders. simpl. rewrite Hs, map_size_empty. lia.
  - unfold holders, granted. simpl. rewrite Hs, map_filter_empty, map_size_empty. lia.
  - by intros x [= <-].
Qed.

Lemma mutex_inv_timeout m t :
  mutex_inv m -> t ∈ waiting (mutex_wait m) ->
  mutex_inv (set_wait (waitq_timeout t (mutex_wait m)) m).
Proof.
  intros [Hmag Hc Hr Hnd Hdis Hown Hh] Ht. pose proof (Hdis t Ht) as Hrt.
  assert (Hg : granted (set_wait (waitq_timeout t (mutex_wait m)) m) = granted m)
    by (by apply (granted_insert_other m t ERR_TIMED_OUT)).
  split; simpl; try done.
  - rewrite Hc, map_size_insert_None by done.
    rewrite <- (filter_ne_length t) by done. unfold holders. simpl. lia.
  - intros x r Hx. destruct (decide (t = x)) as [<-|Hne].
    + rewrite lookup_insert_eq in Hx. simplify_eq. by right.
    + rewrite lookup_insert_ne in Hx by done. by eapply Hr.
  - by apply NoDup_filter.
  - intros x Hx. apply list_elem_of_filter in Hx as [Hne Hx].
    rewrite lookup_insert_ne by done. by apply Hdis.
  - by rewrite Hg.
  - intros x Hx. destruct (Hh x Hx) as [? ?]. rewrite list_elem_of_filter.
    rewrite lookup_insert_ne by (intros ->; done). tauto.
Qed.

(** A woken thread runs: it becomes the holder, or backs out. *)
Lemma mutex_inv_resume m t r :
  mutex_inv m -> results (mutex_wait m) !! t = Some r ->
  let q := Waitq (waiting (mutex_wait m)) (delete t (results (mutex_wait m))) in
  (r = NO_ERROR -> mutex_inv (set_holder (Some t) (set_wait q m))) /\
  (r = ERR_TIMED_OUT -> mutex_inv (set_count (mutex_count m - 1) (set_wait q m))).
Proof.
  intros [Hmag Hc Hr Hnd Hdis Hown Hh] Hrt q.
  assert (Hsz : size (results (mutex_wait m)) = S (size (delete t (results (mutex_wait m))))).
  { rewrite <- (insert_delete_id _ _ _ Hrt) at 1. apply map_size_insert_None, lookup_delete_eq. }
  assert (Hgd : granted (set_wait q m) = delete t (granted m)) by (by apply granted_delete).
  assert (Hres : forall x r', delete t (results (mutex_wait m)) !! x = Some r' ->
    r' = NO_ERROR \/ r' = ERR_TIMED_OUT).
  { intros x r' Hx. apply lookup_delete_Some in Hx as [_ Hx]. by eapply Hr. }
  assert (Hdis' : forall x, x ∈ waiting (mutex_wait m) -> delete t (results (mutex_wait m)) !! x = None).
  { intros x Hx. rewrite lookup_delete_None. right. by apply Hdis. }
  split; intros ->.
  - assert (Hgt : granted m !! t = Some NO_ERROR) by (by apply map_lookup_filter_Some).
    assert (Hgs : size (granted m) = S (size (delete t (granted m)))).
    { rewrite <- (insert_delete_id _ _ _ Hgt) at 1. apply map_size_insert_None, lookup_delete_eq. }
    assert (Hno : holder m = None) by (unfold holders in Hown; destruct (holder m); [lia|done]).
    split; simpl; try done.
    + rewrite Hc. unfold holders. rewrite Hno. simpl. lia.
    + change (granted (set_holder (Some t) (set_wait q m))) with (granted (set_wait q m)).
      rewrite Hgd. unfold holders in *. simpl. lia.
    + intros x [= <-]. split; [|apply lookup_delete_eq].
      intros Hx. apply Hdis in Hx. congruence.
  - split; simpl; try done.
    + rewrite Hc. unfold holders. simpl. lia.
    + change (granted (set_count (mutex_count m - 1) (set_wait q m))) with (granted (set_wait q m)).
      rewrite Hgd. unfold holders in *. simpl.
      assert (size (delete t (granted m)) <= size (granted m))%nat
        by (apply map_subseteq_size, delete_subseteq). lia.
    + intros x Hx. destruct (Hh x Hx) as [? Hx2]. split; [done|]. rewrite lookup_delete_None. by right.
Qed.

Lemma mutex_inv_release m t :
  mutex_inv m -> holder m = Some t ->
  let m1 := set_count (mutex_count m - 1) (set_holder None m) in
  mutex_inv (if 1 <=? mutex_count m1
             then set_wait (snd (waitq_wake_one NO_ERROR (mutex_wait m))) m1 else m1).
Proof.
  intros [Hmag Hc Hr Hnd Hdis Hown Hh] Hho m1.
  assert (Hg0 : size (granted m) = 0%nat) by (unfold holders in Hown; rewrite Hho in Hown; lia).
  assert (Hm1 : mutex_inv m1).
  { split; subst m1; simpl; try done.
    - rewrite Hc. unfold holders. rewrite Hho. simpl. lia.
    - change (granted (set_count _ _)) with (granted m). rewrite Hg0. unfold holders. simpl. lia. }
  destruct_guard; [|done]. unfold waitq_wake_one.
  destruct (waiting (mutex_wait m)) as [|x l] eqn:Hw; [exact Hm1|]. simpl.
  assert (Hx : results (mutex_wait m) !! x = None) by (apply Hdis; by left).
  apply NoDup_cons in Hnd as [Hxl Hnd].
  split; subst m1; simpl; try done.
  - rewrite Hc, map_size_insert_None by done. unfold holders. rewrite Hho. simpl. lia.
  - intros y r Hy. destruct (decide (x = y)) as [<-|Hne].
    + rewrite lookup_insert_eq in Hy. simplify_eq. by left.
    + rewrite lookup_insert_ne in Hy by done. by eapply Hr.
  - intros y Hy. rewrite lookup_insert_ne by (intros ->; done). apply Hdis. by right.
  - erewrite granted_insert with (m := set_count _ _) (t := x); [|exact Hx|done].
    change (granted (set_count _ _)) with (granted m). rewrite Hg0. unfold holders. simpl. lia.
Qed.
End invariant.

(** ** Steps *)

Section steps.
Implicit Types (m : mutex_t) (t : tid).

(** mutex_acquire_timeout on a sound mutex, by a thread outside it. *)
Lemma mutex_acquire_run m t timeout :
  mutex_inv m -> outside t m ->
  exists r m', mutex_acquire_timeout t timeout m = (Ret r, m') /\ mutex_inv m' /\
    match r with
    | Returned 0 => holder m' = Some t /\ mutex_wait m' = mutex_wait m
    | Blocked => timeout <> 0 /\ 1 <= mutex_count m /\ holder m' = holder m /\
        mutex_wait m' = Waitq (waiting (mutex_wait m) ++ [t]) (results (mutex_wait m))
    | Returned e => e = ERR_TIMED_OUT /\ timeout = 0 /\ m' = m
    end.
Proof.
  intros Hinv Hout. pose proof Hout as (Hho & _). pose proof (mi_magic m Hinv) as Hmag.
  unfold mutex_acquire_timeout, bind, get, modify, assert_. rewrite Hmag. cbn [Z.eqb].
  rewrite Z.eqb_refl, bool_decide_false by done. unfold ret. simpl.
  destruct (1 <? mutex_count m + 1) eqn:E; bool_to_prop.
  - unfold waitq_block. destruct (timeout =? 0) eqn:Et; bool_to_prop.
    + simpl. eexists _, _. split; [done|].
      replace (set_count _ _) with m by (destruct m; unfold set_count; simpl; f_equal; lia). done.
    + eexists Blocked, _. split; [done|]. split; [by apply mutex_inv_block|].
      split; [done|]. split; [lia|done].
  - eexists (Returned 0), _. split; [done|]. split; [|done].
    apply mutex_inv_take; [done| |done]. pose proof (mi_count m Hinv). lia.
Qed.

Lemma mutex_resume_run m t r :
  mutex_inv m -> results (mutex_wait m) !! t = Some r ->
  exists m', mutex_acquire_resume t m = (Ret (Returned r), m') /\ mutex_inv m' /\
    (r = NO_ERROR -> holder m' = Some t) /\ waiting (mutex_wait m') = waiting (mutex_wait m) /\
    results (mutex_wait m') = delete t (results (mutex_wait m)).
Proof.
  intros Hinv Hrt. destruct (mutex_inv_resume m t r Hinv Hrt) as [H0 H1].
  unfold mutex_acquire_resume, bind, get, waitq_resume. rewrite Hrt. simpl.
  destruct (mi_results m Hinv t r Hrt) as [->| ->]; (eexists; split; [reflexivity|]).
  - split; [by apply H0|done].
  - split; [by apply H1|done].
Qed.

Lemma mutex_release_run m t :
  mutex_inv m -> holder m = Some t ->
  exists m', mutex_release t m = (Ret NO_ERROR, m') /\ mutex_inv m' /\ holder m' = None /\
    mutex_wait m' = if 1 <? mutex_count m then snd (waitq_wake_one NO_ERROR (mutex_wait m))
                    else mutex_wait m.
Proof.
  intros Hinv Hho. pose proof (mutex_inv_release m t Hinv Hho) as Hrel.
  unfold mutex_release, bind, get, modify, assert_.
  rewrite (mi_magic m Hinv), Z.eqb_refl, Hho, bool_decide_false by naive_solver.
  unfold ret. simpl in *. destruct (1 <=? mutex_count m - 1) eqn:E; bool_to_prop.
  - eexists. split; [done|]. split; [exact Hrel|]. split; [done|].
    by rewrite (proj2 (Z.ltb_lt _ _)) by lia.
  - eexists. split; [done|]. split; [exact Hrel|]. split; [done|].
    by rewrite (proj2 (Z.ltb_ge _ _)) by lia.
Qed.

Lemma mutex_step_inv timeouts m m' : mutex_inv m -> mutex_step timeouts m m' -> mutex_inv m'.
Proof.
  intros Hinv Hst. destruct Hst as [t timeout m r m' Hout _ Hrun|t m r m' Hrun|t m r m' Hrun|t m _ Ht].
  - destruct (mutex_acquire_run m t timeout Hinv Hout) as (r' & m'' & Heq & Hi & _). congruence.
  - destruct (results (mutex_wait m) !! t) as [e|] eqn:Hrt.
    + destruct (mutex_resume_run m t e Hinv Hrt) as (m'' & Heq & Hi & _). congruence.
    + unfold mutex_acquire_resume, bind, get, waitq_resume in Hrun. by rewrite Hrt in Hrun.
  - destruct (decide (holder m = Some t)) as [Hho|Hho].
    + destruct (mutex_release_run m t Hinv Hho) as (m'' & Heq & Hi & _). congruence.
    + unfold mutex_release, bind, get, assert_ in Hrun.
      rewrite (mi_magic m Hinv), Z.eqb_refl, bool_decide_true in Hrun by done. done.
  - by apply mutex_inv_timeout.
Qed.

Lemma mutex_init_inv : mutex_inv mutex_init.
Proof.
  split; simpl; try done; [constructor|].
  unfold granted, holders. simpl. rewrite map_filter_empty, map_size_empty. lia.
Qed.

Lemma mutex_reachable_inv timeouts m : mutex_reachable timeouts m -> mutex_inv m.
Proof. induction 1; [apply mutex_init_inv|by eapply mutex_step_inv]. Qed.

(** An acquire that succeeds at once found nobody counted. *)
Lemma mutex_acquired_free m t timeout m' :
  mutex_inv m -> outside t m -> mutex_acquire_timeout t timeout m = (Ret (Returned 0), m') ->
  mutex_count m = 0.
Proof.
  intros Hinv (Hho & _) Hrun. pose proof (mi_count m Hinv). revert Hrun.
  unfold mutex_acquire_timeout, bind, get, modify, assert_.
  rewrite (mi_magic m Hinv), Z.eqb_refl, bool_decide_false by done. unfold ret. simpl.
  destruct (1 <? mutex_count m + 1) eqn:E; bool_to_prop; [|lia].
  unfold waitq_block. by destruct (timeout =? 0).
Qed.

Lemma mutex_free_acquire m t timeout :
  mutex_inv m -> outside t m -> mutex_count m = 0 ->
  exists m', mutex_acquire_timeout t timeout m = (Ret (Returned NO_ERROR), m').
Proof.
  intros Hinv (Hho & _) Hz. unfold mutex_acquire_timeout, bind, get, modify, assert_.
  rewrite (mi_magic m Hinv), Z.eqb_refl, bool_decide_false by done. unfold ret. simpl. rewrite Hz. by eexists.
Qed.

Lemma mutex_free_unowned m t : mutex_inv m -> mutex_count m = 0 -> ~ owner m t.
Proof.
  intros Hinv Hz. rewrite (mi_count m Hinv) in Hz. unfold holders in Hz. unfold owner.
  assert (Hs : size (results (mutex_wait m)) = 0%nat) by lia.
  apply map_size_empty_inv in Hs. rewrite Hs, lookup_empty. destruct (holder m); [lia|naive_solver].
Qed.

Lemma mutex_one_owner m t1 t2 : mutex_inv m -> owner m t1 -> owner m t2 -> t1 = t2.
Proof.
  intros Hinv H1 H2. pose proof (mi_owner m Hinv) as Ho. unfold holders, owner in *.
  assert (Hg : forall t, results (mutex_wait m) !! t = Some NO_ERROR -> granted m !! t = Some NO_ERROR)
    by (intros t Ht; by apply map_lookup_filter_Some).
  assert (Hpos : forall t, granted m !! t = Some NO_ERROR -> (0 < size (granted m))%nat).
  { intros t Ht. destruct (size (granted m)) eqn:E; [|lia].
    apply map_size_empty_inv in E. rewrite E in Ht. by rewrite lookup_empty in Ht. }
  destruct H1 as [H1|H1], H2 as [H2|H2]; [congruence|..].
  - rewrite H1 in Ho. apply Hg, Hpos in H2. lia.
  - rewrite H2 in Ho. apply Hg, Hpos in H1. lia.
  - destruct (decide (t1 = t2)) as [|Hne]; [done|]. exfalso.
    apply Hg in H1. apply Hg in H2.
    rewrite <- (insert_delete_id _ _ _ H1), map_size_insert_None in Ho by apply lookup_delete_eq.
    assert (size (delete t1 (granted m)) <> 0)%nat; [|lia].
    intros E. apply map_size_empty_inv in E.
    assert (delete t1 (granted m) !! t2 = Some NO_ERROR) by (by rewrite lookup_delete_ne).
    rewrite E in *. by rewrite lookup_empty in *.
Qed.

(** C4: mutual exclusion.  However acquires (with or without timeouts),
    timeouts, releases and rescheduling interleave: at most one thread owns the mutex,
    counting the one it was handed to that has not run yet; the holder can release
    it; a thread that was handed it becomes its holder when it runs; and an acquire by
    a thread outside always comes back without a panic - with the mutex when nobody
    holds, awaits or is about to leave it, and never with it while somebody owns
    it. *)
Theorem mutex_exclusion timeouts m :
  mutex_reachable timeouts m ->
  (forall t1 t2, owner m t1 -> owner m t2 -> t1 = t2) /\
  (forall t, holder m = Some t -> exists m', mutex_release t m = (Ret NO_ERROR, m') /\ holder m' = None) /\
  (forall t, results (mutex_wait m) !! t = Some NO_ERROR ->
     exists m', mutex_acquire_resume t m = (Ret (Returned NO_ERROR), m') /\ holder m' = Some t) /\
  forall t timeout, outside t m ->
    exists r m', mutex_acquire_timeout t timeout m = (Ret r, m') /\
      (r = Returned NO_ERROR <-> mutex_count m = 0) /\
      (mutex_count m = 0 <-> holder m = None /\ waiting (mutex_wait m) = [] /\ results (mutex_wait m) = ∅) /\
      match r with
      | Returned 0 => holder m' = Some t /\ forall t', ~ owner m t'
      | Returned e => e = ERR_TIMED_OUT /\ timeout = 0 /\ m' = m
      | Blocked => timeout <> 0 /\ holder m' = holder m /\
          waiting (mutex_wait m') = waiting (mutex_wait m) ++ [t]
      end.
Proof.
  intros Hr. pose proof (mutex_reachable_inv _ _ Hr) as Hinv.
  split; [by intros t1 t2; apply mutex_one_owner|]. split; [|split].
  - intros t Hho. destruct (mutex_release_run m t Hinv Hho) as (m' & ? & _ & ? & _). by exists m'.
  - intros t Ht. destruct (mutex_resume_run m t NO_ERROR Hinv Ht) as (m' & ? & _ & Hh & _). exists m'. auto.
  - intros t timeout Hout. destruct (mutex_acquire_run m t timeout Hinv Hout) as (r & m' & Hrun & _ & Hcase).
    exists r, m'. pose proof (mi_count m Hinv) as Hc. unfold holders in Hc.
    split; [done|]. split; [|split].
    + split; [intros ->; by eapply mutex_acquired_free|]. intros Hz.
      destruct (mutex_free_acquire m t timeout Hinv Hout Hz) as (m1 & H1). congruence.
    + split; [|intros (Hh & Hw & Hs); rewrite Hc, Hh, Hw, Hs; by rewrite map_size_empty].
      intros Hz. destruct (holder m); [lia|]. destruct (waiting _); [|simpl in Hc; lia].
      split; [done|]. split; [done|]. apply map_size_empty_inv. simpl in Hc. lia.
    + destruct r as [[|e|e]|]; try done; [|by destruct Hcase as (? & _ & ? & ->)].
      split; [by destruct Hcase|]. intros t'. apply mutex_free_unowned; [done|].
      by eapply mutex_acquired_free.
Qed.
End steps.

(** ** Progress, and how timeouts break it *)

Section progress.
Implicit Types (m : mutex_t) (t : tid).

Definition no_timeouts m : Prop :=
  (forall t r, results (mutex_wait m) !! t = Some r -> r = NO_ERROR) /\
  (waiting (mutex_wait m) <> [] -> exists t, owner m t).

(** A release with waiters hands the mutex to the one that waited longest. *)
Lemma release_hands_over m t x l :
  mutex_inv m -> holder m = Some t -> waiting (mutex_wait m) = x :: l ->
  exists m', mutex_release t m = (Ret NO_ERROR, m') /\ holder m' = None /\
    mutex_wait m' = Waitq l (<[x := NO_ERROR]> (results (mutex_wait m))).
Proof.
  intros Hinv Hho Hw. destruct (mutex_release_run m t Hinv Hho) as (m' & Hrun & _ & Hn & Hq).
  exists m'. split; [done|]. split; [done|]. rewrite Hq.
  pose proof (mi_count m Hinv) as Hc. unfold holders in Hc. rewrite Hho, Hw in Hc. simpl in Hc.
  rewrite (proj2 (Z.ltb_lt _ _)) by lia. unfold waitq_wake_one. by rewrite Hw.
Qed.

(** Without timeouts a positive count means an owner. *)
Lemma counted_owner m :
  mutex_inv m -> no_timeouts m -> 1 <= mutex_count m -> exists t, owner m t.
Proof.
  intros Hinv [Hres Hown] Hc. destruct (waiting (mutex_wait m)) eqn:Hw; [|by apply Hown].
  rewrite (mi_count m Hinv), Hw in Hc. unfold holders in Hc.
  destruct (holder m) as [t|] eqn:Hh; [exists t; by left|].
  destruct (map_choose (results (mutex_wait m))) as (t & r & Ht).
  - intros E. rewrite E, map_size_empty in Hc. simpl in Hc. lia.
  - exists t. right. by rewrite Ht, (Hres t r Ht).
Qed.

Lemma no_timeouts_step m m' :
  mutex_inv m -> no_timeouts m -> mutex_step untimed m m' -> no_timeouts m'.
Proof.
  intros Hinv Hnt Hst. pose proof Hnt as [Hres Hown].
  destruct Hst as [t timeout m r m' Hout Hto Hrun|t m r m' Hrun|t m r m' Hrun|t m Hf _]; [..|done].
  - destruct (mutex_acquire_run m t timeout Hinv Hout) as (r' & m'' & Heq & _ & Hc).
    rewrite Hrun in Heq. injection Heq as <- <-. destruct Hto as [->|]; [|done].
    destruct r as [[]|]; [|by destruct Hc as (_ & ? & _)..|].
    + destruct Hc as [Hh Hw]. split; [by rewrite Hw|]. intros _. exists t. by left.
    + destruct Hc as (_ & Hcnt & Hh & Hw). split; [by rewrite Hw|]. intros _.
      destruct (counted_owner m Hinv Hnt Hcnt) as (o & Ho). exists o.
      unfold owner in *. by rewrite Hh, Hw.
  - destruct (results (mutex_wait m) !! t) as [e|] eqn:Hrt.
    + destruct (mutex_resume_run m t e Hinv Hrt) as (m'' & Heq & _ & Hh & _ & Hr').
      rewrite Hrun in Heq. injection Heq as _ <-. split.
      * intros x r0. rewrite Hr', lookup_delete_Some. intros [_ Hx]. by eapply Hres.
      * intros _. exists t. left. apply Hh. by eapply Hres.
    + unfold mutex_acquire_resume, bind, get, waitq_resume in Hrun. by rewrite Hrt in Hrun.
  - destruct (decide (holder m = Some t)) as [Hho|Hho].
    + destruct (waiting (mutex_wait m)) as [|x l] eqn:Hw.
      * destruct (mutex_release_run m t Hinv Hho) as (m'' & Heq & _ & Hn & Hq).
        rewrite Hrun in Heq. injection Heq as _ <-.
        assert (mutex_wait m' = mutex_wait m) as E
          by (rewrite Hq; unfold waitq_wake_one; rewrite Hw; by destruct (1 <? _)).
        split; rewrite E; [done|]. by rewrite Hw.
      * destruct (release_hands_over m t x l Hinv Hho Hw) as (m'' & Heq & Hn & Hq).
        rewrite Hrun in Heq. injection Heq as _ <-. split; rewrite Hq; simpl.
        -- intros y r0 Hy. apply lookup_insert_Some in Hy as [[_ <-]|[_ Hy]]; [done|]. by eapply Hres.
        -- intros _. exists x. right. rewrite Hq. simpl. by rewrite lookup_insert_eq.
    + unfold mutex_release, bind, get, assert_ in Hrun.
      rewrite (mi_magic m Hinv), Z.eqb_refl, bool_decide_true in Hrun by done. done.
Qed.

Lemma no_timeouts_reachable m : mutex_reachable untimed m -> mutex_inv m /\ no_timeouts m.
Proof.
  induction 1 as [|m m' _ [IHi IHn] Hst].
  - split; [apply mutex_init_inv|]. by split.
  - split; [by eapply mutex_step_inv|by eapply no_timeouts_step].
Qed.

(** C33: no thread is forgotten when no timeouts are used: while threads wait
    for the mutex some thread owns it, and its release hands the mutex to the
    thread that has waited longest. *)
Theorem mutex_handoff m x l :
  mutex_reachable untimed m -> waiting (mutex_wait m) = x :: l ->
  (exists t, owner m t) /\
  forall t, holder m = Some t -> exists m', mutex_release t m = (Ret NO_ERROR, m') /\
    owner m' x /\ waiting (mutex_wait m') = l.
Proof.
  intros Hr Hw. destruct (no_timeouts_reachable m Hr) as [Hinv [_ Hown]]. split.
  - apply Hown. by rewrite Hw.
  - intros t Ht. destruct (release_hands_over m t x l Hinv Ht Hw) as (m' & Hrun & _ & Hq).
    exists m'. split; [done|]. split; [right|]; rewrite Hq; simpl; [by rewrite lookup_insert_eq|done].
Qed.
End progress.

(** ** Concrete runs *)

Definition run_mutex {A} (c : MM A) (m : mutex_t) : mutex_t := snd (c m).

(** Thread 1 holds the mutex, 2 and 3 wait. *)
Definition three_threads : mutex_t :=
  run_mutex (mutex_acquire 3%nat) (run_mutex (mutex_acquire 2%nat)
    (run_mutex (mutex_acquire 1%nat) mutex_init)).

Lemma acquire_reachable b t m timeout :
  mutex_reachable b m -> outside t m -> (timeout = INFINITE_TIME \/ b t = true) ->
  mutex_reachable b (run_mutex (mutex_acquire_timeout t timeout) m).
Proof.
  intros Hr Ho Ht. destruct (mutex_acquire_run m t timeout (mutex_reachable_inv _ _ Hr) Ho)
    as (r & m' & Hrun & _). eapply mutex_next; [exact Hr|].
  eapply step_acquire; [exact Ho|exact Ht|]. unfold run_mutex. by rewrite Hrun.
Qed.

Ltac outside_concrete :=
  split; [|split]; vm_compute; first [done | let H := fresh in intros H; inversion H; done | idtac].

Lemma three_threads_reachable b : mutex_reachable b three_threads.
Proof.
  unfold three_threads, mutex_acquire.
  repeat (apply acquire_reachable; [|outside_concrete|by left]); try constructor.
  set_solver.
Qed.

(** On the threads above, where an acquire by a fourth waits. *)
Lemma mutex_exclusion_witness :
  outside 4%nat three_threads /\
  exists r m', mutex_acquire_timeout 4%nat 100 three_threads = (Ret r, m') /\
    (r = Returned NO_ERROR <-> mutex_count three_threads = 0).
Proof.
  assert (Ho : outside 4%nat three_threads) by (outside_concrete; set_solver).
  split; [exact Ho|].
  destruct (mutex_exclusion (fun _ => true) three_threads (three_threads_reachable _)) as (_ & _ & _ & Ha).
  destruct (Ha 4%nat 100 Ho) as (r & m' & Hrun & Hf & _). by exists r, m'.
Defined.

Lemma mutex_handoff_witness :
  (exists t, owner three_threads t) /\
  forall t, holder three_threads = Some t -> exists m', mutex_release t three_threads = (Ret NO_ERROR, m') /\
    owner m' 2%nat /\ waiting (mutex_wait m') = [3%nat].
Proof.
  exact (mutex_handoff three_threads 2%nat [3%nat] (three_threads_reachable untimed) eq_refl).
Defined.

(** Thread 1 holds; 2 waits with a timeout, which fires; 1 releases before 2 has
    run; 3 arrives; 2 runs and backs out. *)
Definition stranded : mutex_t :=
  let m := run_mutex (mutex_acquire 1%nat) mutex_init in
  let m := run_mutex (mutex_acquire_timeout 2%nat 100) m in
  let m := set_wait (waitq_timeout 2%nat (mutex_wait m)) m in
  let m := run_mutex (mutex_release 1%nat) m in
  let m := run_mutex (mutex_acquire 3%nat) m in
  run_mutex (mutex_acquire_resume 2%nat) m.

Lemma release_reachable b t m :
  mutex_reachable b m -> fst (mutex_release t m) = Ret NO_ERROR ->
  mutex_reachable b (run_mutex (mutex_release t) m).
Proof.
  intros Hr He. eapply mutex_next; [exact Hr|]. apply (step_release b t m NO_ERROR).
  unfold run_mutex. destruct (mutex_release t m). simpl in *. by subst.
Qed.

Lemma resume_reachable b t m r :
  mutex_reachable b m -> fst (mutex_acquire_resume t m) = Ret r ->
  mutex_reachable b (run_mutex (mutex_acquire_resume t) m).
Proof.
  intros Hr He. eapply mutex_next; [exact Hr|]. apply (step_resume b t m r).
  unfold run_mutex. destruct (mutex_acquire_resume t m). simpl in *. by subst.
Qed.

(** Thread 3 uses no timeout. *)
Definition but_third (t : tid) : bool := negb (Nat.eqb t 3).

Lemma stranded_reachable : mutex_reachable but_third stranded.
Proof.
  unfold stranded, mutex_acquire.
  apply (resume_reachable _ _ _ (Returned ERR_TIMED_OUT)); [|vm_compute; reflexivity].
  apply acquire_reachable; [|outside_concrete|by left].
  apply release_reachable; [|vm_compute; reflexivity].
  eapply mutex_next; [|apply step_timeout; [done|vm_compute; left]].
  apply acquire_reachable; [|outside_concrete; set_solver|by right].
  apply acquire_reachable; [constructor|outside_concrete|by left].
Qed.

(** Nobody holds the mutex, nobody was handed it, and thread [x] waits. *)
Record stuck (x : tid) (m : mutex_t) : Prop := {
  stuck_inv : mutex_inv m;
  stuck_free : holder m = None;
  stuck_waits : x ∈ waiting (mutex_wait m);
  stuck_results : forall t r, results (mutex_wait m) !! t = Some r -> r = ERR_TIMED_OUT
}.

Lemma stuck_unowned x m t : stuck x m -> ~ owner m t.
Proof. intros [_ Hf _ Hr] [Ho|Ho]; [congruence|]. by apply Hr in Ho. Qed.

Lemma stuck_count x m : stuck x m -> 1 <= mutex_count m.
Proof.
  intros [Hi _ Hw _]. rewrite (mi_count m Hi).
  destruct (waiting (mutex_wait m)); [by apply elem_of_nil in Hw|]. simpl. lia.
Qed.

Lemma stuck_acquire x m t timeout :
  stuck x m -> outside t m ->
  exists m', mutex_acquire_timeout t timeout m = (Ret (if timeout =? 0 then Returned ERR_TIMED_OUT else Blocked), m') /\
    stuck x m'.
Proof.
  intros Hst Hout. pose proof (stuck_count x m Hst). destruct Hst as [Hi Hf Hw Hr].
  destruct (mutex_acquire_run m t timeout Hi Hout) as (r & m' & Hrun & Hi' & Hc).
  assert (Hnz : r <> Returned 0).
  { intros ->. apply mutex_acquired_free in Hrun; [lia|done|done]. }
  exists m'. rewrite Hrun. destruct r as [[|e|e]|]; [done|by destruct Hc| |].
  - destruct Hc as (-> & -> & ->). split; [done|]. by split.
  - destruct Hc as (Ht & _ & Hh & Hq). rewrite (proj2 (Z.eqb_neq _ _)) by done. split; [done|].
    split; [done|congruence|rewrite Hq; simpl; set_solver|by rewrite Hq].
Qed.

Lemma stuck_step (timeouts : tid -> bool) x m m' :
  timeouts x = false -> stuck x m -> mutex_step timeouts m m' -> stuck x m'.
Proof.
  intros Hx Hst Hstep. assert (Hi' : mutex_inv m') by (eapply mutex_step_inv; [by apply Hst|done]).
  destruct Hstep as [t timeout m r m' Hout _ Hrun|t m r m' Hrun|t m r m' Hrun|t m Ht Hw].
  - destruct (stuck_acquire x m t timeout Hst Hout) as (m1 & H1 & ?). congruence.
  - destruct Hst as [Hi Hf Hw Hr]. destruct (results (mutex_wait m) !! t) as [e|] eqn:Hrt.
    2: { unfold mutex_acquire_resume, bind, get, waitq_resume in Hrun. by rewrite Hrt in Hrun. }
    pose proof (Hr t e Hrt) as ->. revert Hrun.
    unfold mutex_acquire_resume, bind, get, waitq_resume. rewrite Hrt. intros [= _ <-].
    split; [done|done|done|]. intros y r0. simpl. intros [_ Hy]%lookup_delete_Some. by eapply Hr.
  - destruct Hst as [Hi Hf _ _]. unfold mutex_release, bind, get, assert_ in Hrun.
    by rewrite (mi_magic m Hi), Z.eqb_refl, bool_decide_true in Hrun by (by rewrite Hf).
  - destruct Hst as [Hi Hf Hwx Hr]. split; [done|done| |].
    + simpl. apply list_elem_of_filter. split; [congruence|done].
    + intros y r0. simpl. intros [[_ <-]|[_ Hy]]%lookup_insert_Some; [done|]. by eapply Hr.
Qed.

Lemma stuck_run (timeouts : tid -> bool) x m m' :
  timeouts x = false -> rtc (mutex_step timeouts) m m' -> stuck x m -> stuck x m'.
Proof. intros Hx. induction 1 as [|m1 m2 m3 Hstep _ IH]; [done|]. intros Hs. by eapply IH, stuck_step. Qed.

(** C35: with timeouts a wakeup can be lost: a state is reachable in which
    thread 3, which uses no timeout, waits and nobody owns the mutex; and from then
    on, whatever acquires, timeouts, releases and rescheduling follow, nobody ever
    owns it, thread 3 waits forever, and every further acquire blocks behind it or,
    with a timeout of 0, fails at once. *)
Theorem mutex_timeout_strands_waiter :
  exists m, mutex_reachable but_third m /\ waiting (mutex_wait m) = [3%nat] /\ results (mutex_wait m) = ∅ /\
    forall m', rtc (mutex_step but_third) m m' ->
      3%nat ∈ waiting (mutex_wait m') /\ (forall t, ~ owner m' t) /\
      forall t timeout, outside t m' ->
        exists m'', mutex_acquire_timeout t timeout m'
                  = (Ret (if timeout =? 0 then Returned ERR_TIMED_OUT else Blocked), m'').
Proof.
  exists stranded. split; [apply stranded_reachable|]. split; [vm_compute; done|]. split; [vm_compute; done|].
  intros m' Hrun. assert (Hs : stuck 3%nat stranded).
  { split; [by eapply mutex_reachable_inv, stranded_reachable|done| |].
    - replace (waiting (mutex_wait stranded)) with [3%nat] by (vm_compute; reflexivity). set_solver.
    - intros t r. change (results (mutex_wait stranded)) with (∅ : gmap tid Z). by rewrite lookup_empty. }
  assert (Hs' : stuck 3%nat m') by (exact (stuck_run but_third 3%nat stranded m' eq_refl Hrun Hs)).
  split; [by apply Hs'|]. split; [intros t; by eapply stuck_unowned|].
  intros t timeout Hout. destruct (stuck_acquire 3%nat m' t timeout Hs' Hout) as (m'' & ? & _). by exists m''.
Qed.
