(* ===== verification/KernelWait.v ===== *)
(** * The kernel's wait queues keep the contract of Mutex.v

    Mutexes, semaphores, events and event flags are proved against [waitq]; here
    the operations of kernel/thread.c are shown to implement it, step by step. *)

From stdpp Require Import prelude list gmap.
From Stdlib Require Import ZArith Lia.
From S2P Require Import Prelude Timer Kernel KernelInv KernelOps KernelLife KernelSafe KernelSched Mutex.

Open Scope Z_scope.
Open Scope lk_scope.

(** Queue [q] of kernel [k] looks like [w] to its clients. *)
Record implements (q : wqid) (k : kernel) (w : waitq) : Prop := {
  imp_wf : wf k;
  imp_queue : exists wq, wait_queues k !! q = Some wq /\ wq_magic wq = WAIT_QUEUE_MAGIC /\
    wq_list wq = waiting w;
  imp_results : forall t r, results w !! t = Some r ->
    t ∉ waiting w /\ exists th, threads k !! t = Some th /\ th_wait_queue_block_ret th = r
}.

(** The operations objects perform on their queue, and the timeout handler. *)
Inductive wait_op :=
| W_block (timeout : Z)
| W_wake_one (reschedule : bool) (err : Z)
| W_wake_all (err : Z)
| W_timeout (t : tid).

Inductive wait_ret := R_call (r : call_result) | R_count (n : Z) | R_done.

Definition wait_exec (q : wqid) (op : wait_op) : K wait_ret :=
  match op with
  | W_block timeout => let* r := wait_queue_block q timeout in ret (R_call r)
  | W_wake_one resched err => let* n := wait_queue_wake_one q resched err in ret (R_count n)
  | W_wake_all err => let* n := wait_queue_wake_all q false err in ret (R_count n)
  | W_timeout t => wait_queue_timeout_handler t ;; ret R_done
  end.

Definition wait_abs (cur : tid) (op : wait_op) (w : waitq) : wait_ret * waitq :=
  match op with
  | W_block timeout => let '(r, w') := waitq_block cur timeout w in (R_call r, w')
  | W_wake_one _ err => let '(n, w') := waitq_wake_one err w in (R_count n, w')
  | W_wake_all err => let '(n, w') := waitq_wake_all err w in (R_count n, w')
  | W_timeout t => (R_done, waitq_timeout t w)
  end.

Definition wait_pre (k : kernel) (w : waitq) (op : wait_op) : Prop :=
  match op with
  | W_block _ => may_block k /\ results w !! current k = None
  | W_wake_one resched _ => resched = true -> current k <> idle_thread k
  | W_wake_all _ => True
  | W_timeout t => t ∈ waiting w
  end.

Section refinement.
Implicit Types (k : kernel) (w : waitq) (t : tid).

Lemma erase_ret (o o' : option thread) (th : thread) :
  th_erase <$> o' = th_erase <$> o -> o = Some th ->
  exists th', o' = Some th' /\ th_wait_queue_block_ret th' = th_wait_queue_block_ret th.
Proof.
  intros He ->. simpl in He. destruct o' as [th'|]; [|done]. exists th'. split; [done|].
  by injection He.
Qed.

(** Results survive any step that keeps the threads' return codes. *)
Lemma results_keep k k' w w' :
  (forall t r, results w !! t = Some r -> t ∉ waiting w /\
     exists th, threads k !! t = Some th /\ th_wait_queue_block_ret th = r) ->
  (forall t r, results w' !! t = Some r -> results w !! t = Some r /\ t ∉ waiting w' /\
     th_erase <$> threads k' !! t = th_erase <$> threads k !! t) ->
  forall t r, results w' !! t = Some r ->
    t ∉ waiting w' /\ exists th, threads k' !! t = Some th /\ th_wait_queue_block_ret th = r.
Proof.
  intros Hr Hk t r Ht. destruct (Hk t r Ht) as (H1 & H2 & H3). split; [done|].
  destruct (Hr t r H1) as (_ & th & Hth & Hret).
  destruct (erase_ret _ _ th H3 Hth) as (th' & ? & ?). exists th'. split; [done|congruence].
Qed.

Lemma imp_block q k w timeout :
  implements q k w -> wait_pre k w (W_block timeout) ->
  wp (wait_exec q (W_block timeout)) (fun r k' =>
    r = fst (wait_abs (current k) (W_block timeout) w) /\
    implements q k' (snd (wait_abs (current k) (W_block timeout) w))) k.
Proof.
  intros [Hwf (wq & Hq & Hm & Hl) Hres] [[Hni Htm] Hcur]. cbn [wait_exec wait_abs]. apply wp_seq.
  eapply wp_mono; [by eapply wp_wait_queue_block|]. intros r k' (Hwf' & -> & Hf). apply wp_ret.
  unfold waitq_block. destruct (timeout =? 0); simpl.
  - subst k'. split; [done|]. split; [done| |done]. by exists wq.
  - destruct Hf as [Hwq Hth]. split; [done|]. split; [done| |].
    + eexists. rewrite Hwq, lookup_insert_eq. simpl. by rewrite Hl.
    + apply (results_keep k k' w); [done|]. simpl. intros t r Ht.
      assert (t <> current k) by congruence. split; [done|]. split; [|by apply Hth].
      destruct (Hres t r Ht) as [? _]. set_solver.
Qed.

Lemma woken_erase k q wq t th err x :
  x <> t -> th_erase <$> threads (woken k q wq t th err) !! x = th_erase <$> threads k !! x.
Proof. intros Hx. simpl. by rewrite lookup_insert_ne. Qed.

(** Thread [t] left the queue with result [r]. *)
Lemma imp_one_out q k w wq t l r k' :
  implements q k w -> wait_queues k !! q = Some wq -> wf k' -> t ∈ waiting w ->
  wait_queues k' = <[q := wq_without t wq]> (wait_queues k) ->
  (forall x, x <> t -> th_erase <$> threads k' !! x = th_erase <$> threads k !! x) ->
  (exists th, threads k' !! t = Some th /\ th_wait_queue_block_ret th = r) ->
  l = filter (fun x => x <> t) (waiting w) ->
  implements q k' (Waitq l (<[t := r]> (results w))).
Proof.
  intros [Hwf (wq' & Hq' & Hm & Hl) Hres] Hq Hwf' Ht Hwq Hth Hr ->.
  assert (wq' = wq) as -> by congruence. split; [done| |].
  - exists (wq_without t wq). rewrite Hwq, lookup_insert_eq. unfold wq_without. simpl.
    split; [done|]. split; [done|]. by rewrite Hl.
  - intros x e. simpl. destruct (decide (t = x)) as [<-|Hne].
    + rewrite lookup_insert_eq. intros [= <-]. split; [|done]. rewrite list_elem_of_filter. tauto.
    + rewrite lookup_insert_ne by done. intros Hx. destruct (Hres x e Hx) as (Hnw & th & Hxt & Hxr).
      split; [rewrite list_elem_of_filter; tauto|].
      destruct (erase_ret _ _ th (Hth x ltac:(done)) Hxt) as (th' & ? & ?). exists th'.
      split; [done|congruence].
Qed.

Lemma imp_wake_one q k w (b : bool) err :
  implements q k w -> (b = true -> current k <> idle_thread k) ->
  wp (wait_queue_wake_one q b err) (fun n k' =>
    n = fst (waitq_wake_one err w) /\ implements q k' (snd (waitq_wake_one err w))) k.
Proof.
  intros Himp Hb. pose proof Himp as [Hwf (wq & Hq & Hm & Hl) Hres].
  assert (Hsafe : wp (wait_queue_wake_one q b err) (fun _ => wf) k)
    by (apply wp_wake_one; [done|by exists wq|done]).
  assert (Hspec : wp (wait_queue_wake_one q b err) (fun n k' =>
    match wq_list wq with
    | [] => n = 0 /\ k' = k
    | t :: _ => n = 1 /\ wait_queues k' = <[q := wq_without t wq]> (wait_queues k) /\
        (forall x, x <> t -> th_erase <$> threads k' !! x = th_erase <$> threads k !! x) /\
        exists th, threads k' !! t = Some th /\ th_wait_queue_block_ret th = err
    end) k).
  { destruct b.
    - eapply wp_mono; [by eapply wp_wake_one_resched; eauto|]. by intros n k' [_ ?].
    - eapply wp_wake_one_head; [exact (proj1 Hwf)|exact Hq|done|by intros ->|].
      intros t l th rq bm -> Hth _ k' _. split; [done|]. split; [done|].
      split; [intros x; apply woken_erase|]. eexists. simpl. by rewrite lookup_insert_eq. }
  apply wp_run in Hsafe as (n & k' & Hrun & Hwf'). apply wp_run. exists n, k'. split; [done|].
  unfold wp in Hspec. rewrite Hrun in Hspec. unfold waitq_wake_one. rewrite <- Hl.
  destruct (wq_list wq) as [|t l] eqn:Hlist; simpl.
  - destruct Hspec as [-> ->]. done.
  - destruct Hspec as (-> & Hwq & Hth & Hr). split; [done|].
    destruct (w_wq _ _ (proj1 Hwf) q wq Hq) as (Hnd & _).
    eapply imp_one_out; try done; [rewrite <- Hl; by left|].
    rewrite <- Hl. symmetry. apply filter_ne_head. by rewrite <- Hlist.
Qed.

Lemma record_all_lookup l err m t :
  record_all l err m !! t = (if decide (t ∈ l) then Some err else m !! t).
Proof.
  revert m. induction l as [|x l IH]; intros m; simpl; [done|].
  rewrite IH. destruct (decide (t ∈ l)) as [Hin|Hin].
  - rewrite decide_True; [done|by right].
  - destruct (decide (t = x)) as [->|Hne].
    + rewrite lookup_insert_eq, decide_True; [done|by left].
    + rewrite lookup_insert_ne, decide_False; [done|set_solver|done].
Qed.

Lemma imp_wake_all q k w err :
  implements q k w ->
  wp (wait_queue_wake_all q false err) (fun n k' =>
    n = fst (waitq_wake_all err w) /\ implements q k' (snd (waitq_wake_all err w))) k.
Proof.
  intros [Hwf (wq & Hq & Hm & Hl) Hres].
  eapply wp_wake_all_quiet; [exact (proj1 Hwf)|exact Hq|done|]. intros k' Hw' Hwa. simpl.
  split; [by rewrite Hl|]. split.
  - by eapply woke_all_wf.
  - eexists. rewrite (wa_queues _ _ _ _ _ Hwa), lookup_insert_eq. done.
  - intros t r. simpl. rewrite record_all_lookup, (wa_threads _ _ _ _ _ Hwa), Hl.
    intros Ht. split; [apply not_elem_of_nil|]. case_decide as Hin.
    + injection Ht as <-. rewrite <- Hl in Hin.
      destruct (w_wq _ _ (proj1 Hwf) q wq Hq) as (_ & _ & _ & H).
      destruct (H t Hin) as (th & -> & _). eexists. by split.
    + by destruct (Hres t r Ht) as [_ ?].
Qed.

Lemma imp_timeout q k w t :
  implements q k w -> t ∈ waiting w ->
  wp (wait_queue_timeout_handler t) (fun _ k' => implements q k' (waitq_timeout t w)) k.
Proof.
  intros Himp Ht. pose proof Himp as [Hwf (wq & Hq & Hm & Hl) Hres].
  destruct (w_wq _ _ (proj1 Hwf) q wq Hq) as (_ & _ & _ & Hin).
  destruct (Hin t) as (th & Hth & Hs & Hbq & _); [by rewrite Hl|].
  unfold wait_queue_timeout_handler. wp_step.
  destruct (w_thread _ _ (proj1 Hwf) t th Hth) as (_ & Hmag & _). rewrite Hs in Hmag. wp_step.
  apply wp_seq. eapply wp_thread_unblock_from_wait_queue; [exact (proj1 Hwf)|exact Hth|by rewrite Hs|done|].
  intros q' wq' rq bm _ Hq' Hin' Hw'.
  assert (q' = q) as ->.
  { destruct (w_wq _ _ (proj1 Hwf) q' wq' Hq') as (_ & _ & _ & H').
    destruct (H' t Hin') as (th' & ? & _ & ? & _). congruence. }
  assert (wq' = wq) as -> by congruence.
  apply wp_ret. eapply (imp_one_out q k w wq t); try done.
  - split; [done|]. destruct Hwf as [_ (thc & Hthc & Hsc)]. exists thc. simpl.
    rewrite lookup_insert_ne by congruence. done.
  - intros x. apply woken_erase.
  - eexists. simpl. by rewrite lookup_insert_eq.
Qed.

(** C22: the kernel's wait queues refine the contract mutexes, semaphores,
    events and event flags are built on: each operation on a queue, and the
    timeout of a waiter, returns what the contract says and leaves the queue in
    the state the contract says, whatever else the kernel holds. *)
Theorem wait_queue_refines q k w op :
  implements q k w -> wait_pre k w op ->
  exists k', wait_exec q op k = (Ret (fst (wait_abs (current k) op w)), k') /\
    implements q k' (snd (wait_abs (current k) op w)).
Proof.
  intros Himp Hpre.
  assert (Hw : wp (wait_exec q op) (fun r k' => r = fst (wait_abs (current k) op w) /\
    implements q k' (snd (wait_abs (current k) op w))) k).
  { destruct op; cbn [wait_exec wait_abs wait_pre] in *.
    - by apply imp_block.
    - apply wp_seq. eapply wp_mono; [by apply imp_wake_one|]. intros n k' [-> ?]. apply wp_ret.
      by destruct (waitq_wake_one err w).
    - apply wp_seq. eapply wp_mono; [by apply imp_wake_all|]. intros n k' [-> ?]. by apply wp_ret.
    - apply wp_seq. eapply wp_mono; [by eapply imp_timeout|]. intros n k' ?. by apply wp_ret. }
  apply wp_run in Hw as (r & k' & Hrun & -> & ?). by exists k'.
Qed.
End refinement.

(** Thread 1 waits on queue 0 and times out. *)
Lemma wait_queue_refines_witness :
  exists k', wait_exec (WqObject 0) (W_timeout 1%nat) one_waiting = (Ret R_done, k') /\
    implements (WqObject 0) k' (waitq_timeout 1%nat (Waitq [1%nat] ∅)).
Proof.
  apply (wait_queue_refines (WqObject 0) one_waiting (Waitq [1%nat] ∅) (W_timeout 1%nat)).
  - split; [apply one_waiting_wf| |].
    + eexists. split; [vm_compute; reflexivity|done].
    + intros t r. simpl. by rewrite lookup_empty.
  - simpl. by left.
Defined.
