(* ===== verification/Sync.v ===== *)
(** * Semaphores, events, event flags and the gamepad on wait queues

    kernel/semaphore.c, kernel/event.c, external/lib/evflag/evflag.c and
    external/lib/gamepad/gamepad.c against the wait-queue contract of Mutex.v.
    As there, [_resume] is the rest of a call whose thread was woken. *)

From stdpp Require Import prelude list gmap.
From Stdlib Require Import ZArith Lia.
From S2P Require Import Prelude Timer Kernel Mutex.

Open Scope Z_scope.
Open Scope lk_scope.

(** How many woken threads have result [r] waiting for them. *)
Definition results_with (r : Z) (q : waitq) : nat :=
  size (filter (fun kv => kv.2 = r) (results q) : gmap tid Z).

Section results_with.
Implicit Types (q : waitq) (t : tid).

Lemma results_with_insert r t l m :
  m !! t = None -> results_with r (Waitq l (<[t := r]> m)) = S (results_with r (Waitq l m)).
Proof.
  intros Hn. unfold results_with. simpl. rewrite map_filter_insert_True by done.
  apply map_size_insert_None, map_lookup_filter_None. by left.
Qed.

Lemma results_with_insert_ne r r' t l m :
  m !! t = None -> r' <> r -> results_with r (Waitq l (<[t := r']> m)) = results_with r (Waitq l m).
Proof.
  intros Hn Hr. unfold results_with. simpl. rewrite map_filter_insert_False by done.
  by rewrite delete_id.
Qed.

Lemma results_with_delete r t l m :
  m !! t = Some r -> results_with r (Waitq l m) = S (results_with r (Waitq l (delete t m))).
Proof.
  intros Ht. rewrite <- (insert_delete_id m t r Ht) at 1. apply results_with_insert, lookup_delete_eq.
Qed.

Lemma results_with_delete_ne r r' t l m :
  m !! t = Some r' -> r' <> r ->
  results_with r (Waitq l (delete t m)) = results_with r (Waitq l m).
Proof.
  intros Ht Hr. rewrite <- (insert_delete_id m t r' Ht) at 2.
  by rewrite results_with_insert_ne by (try apply lookup_delete_eq; done).
Qed.
End results_with.

(** ** Semaphores *)

Record semaphore_t := Semaphore { sem_count : Z; sem_waitq : waitq }.

Definition sem_init (value : Z) : semaphore_t := Semaphore value waitq_init.

Definition SM (A : Type) : Type := M semaphore_t Empty_set A.

Definition sem_destroy : SM unit :=
  modify (fun s => Semaphore 0 (snd (waitq_wake_all ERR_OBJECT_DESTROYED (sem_waitq s)))).

Definition sem_post : SM Z :=
  let* s := get in
  let count := sem_count s + 1 in
  if count <=? 0 then
    let '(n, q) := waitq_wake_one NO_ERROR (sem_waitq s) in
    put (Semaphore count q) ;; ret n
  else put (Semaphore count (sem_waitq s)) ;; ret 0.

Definition sem_trywait : SM Z :=
  let* s := get in
  if sem_count s <=? 0 then ret ERR_NOT_READY
  else put (Semaphore (sem_count s - 1) (sem_waitq s)) ;; ret NO_ERROR.

(** The end of sem_timedwait on wait_queue_block's return. *)
Definition sem_timedwait_finish (r : Z) : SM call_result :=
  (if r =? ERR_TIMED_OUT then modify (fun s => Semaphore (sem_count s + 1) (sem_waitq s))
   else ret tt) ;;
  ret (Returned r).

Definition sem_timedwait (cur : tid) (timeout : Z) : SM call_result :=
  let* s := get in
  let count := sem_count s - 1 in
  if count <? 0 then
    let '(r, q) := waitq_block cur timeout (sem_waitq s) in
    put (Semaphore count q) ;;
    match r with Blocked => ret Blocked | Returned e => sem_timedwait_finish e end
  else put (Semaphore count (sem_waitq s)) ;; ret (Returned NO_ERROR).

Definition sem_timedwait_resume (cur : tid) : SM call_result :=
  let* s := get in
  let* rq := deref (waitq_resume cur (sem_waitq s)) in
  put (Semaphore (sem_count s) (snd rq)) ;;
  sem_timedwait_finish (fst rq).

Definition sem_wait (cur : tid) : SM call_result :=
  let* s := get in
  let count := sem_count s - 1 in
  if count <? 0 then
    let '(r, q) := waitq_block cur INFINITE_TIME (sem_waitq s) in
    put (Semaphore count q) ;; ret r
  else put (Semaphore count (sem_waitq s)) ;; ret (Returned NO_ERROR).

(** Who holds a unit: [taken] counts the waits that succeeded, a post that wakes
    a thread included; [posted] counts the posts. *)
Inductive sem_run (v : Z) : semaphore_t -> Z -> Z -> Prop :=
| sem_start : sem_run v (sem_init v) 0 0
| sem_do_post s posted taken n s' :
    sem_run v s posted taken -> sem_post s = (Ret n, s') -> sem_run v s' (posted + 1) (taken + n)
| sem_do_trywait s posted taken r s' :
    sem_run v s posted taken -> sem_trywait s = (Ret r, s') ->
    sem_run v s' posted (taken + if r =? NO_ERROR then 1 else 0)
| sem_do_wait s posted taken t r s' :
    sem_run v s posted taken -> t ∉ waiting (sem_waitq s) -> results (sem_waitq s) !! t = None ->
    sem_wait t s = (Ret r, s') ->
    sem_run v s' posted (taken + match r with Blocked => 0 | Returned _ => 1 end)
| sem_do_timedwait s posted taken t timeout r s' :
    sem_run v s posted taken -> t ∉ waiting (sem_waitq s) -> results (sem_waitq s) !! t = None ->
    sem_timedwait t timeout s = (Ret r, s') ->
    sem_run v s' posted (taken + match r with Returned 0 => 1 | _ => 0 end)
| sem_do_timeout s posted taken t :
    sem_run v s posted taken -> t ∈ waiting (sem_waitq s) ->
    sem_run v (Semaphore (sem_count s) (waitq_timeout t (sem_waitq s))) posted taken
| sem_do_resume s posted taken t r s' :
    sem_run v s posted taken -> sem_timedwait_resume t s = (Ret r, s') ->
    sem_run v s' posted taken.

(** Units in the semaphore: the count, and what waiters and threads that timed
    out but have not run yet have taken off it. *)
Definition sem_units (s : semaphore_t) : Z :=
  sem_count s + Z.of_nat (length (waiting (sem_waitq s)) + results_with ERR_TIMED_OUT (sem_waitq s)).

Record sem_inv (v : Z) (s : semaphore_t) (posted taken : Z) : Prop := {
  si_units : sem_units s = v + posted - taken;
  si_nonneg : 0 <= sem_units s;
  si_nodup : NoDup (waiting (sem_waitq s));
  si_disjoint : forall t, t ∈ waiting (sem_waitq s) -> results (sem_waitq s) !! t = None
}.

Section sem_inv.
Context (v : Z).
Implicit Types (s : semaphore_t) (t : tid).

Lemma sem_inv_same s c q posted taken posted' taken' :
  sem_inv v s posted taken -> waiting q = waiting (sem_waitq s) -> results q = results (sem_waitq s) ->
  c - sem_count s = posted' - taken' - (posted - taken) -> 0 <= c ->
  sem_inv v (Semaphore c q) posted' taken'.
Proof.
  intros [Hu Hn Hnd Hd] Hw Hr Hc Hpos. unfold sem_units, results_with in *.
  split; simpl; rewrite ?Hw, ?Hr; unfold sem_units, results_with; simpl; rewrite ?Hw, ?Hr; try done; lia.
Qed.

Lemma sem_inv_block s t posted taken :
  sem_inv v s posted taken -> t ∉ waiting (sem_waitq s) -> results (sem_waitq s) !! t = None ->
  sem_inv v (Semaphore (sem_count s - 1) (Waitq (waiting (sem_waitq s) ++ [t]) (results (sem_waitq s))))
    posted taken.
Proof.
  intros [Hu Hn Hnd Hd] Hw Hr. unfold sem_units, results_with in *.
  split; simpl; unfold sem_units, results_with; simpl; rewrite ?length_app; simpl; try lia.
  - apply NoDup_app. split; [done|]. split; [set_solver|apply NoDup_singleton].
  - intros x Hx. apply elem_of_app in Hx as [Hx|Hx]; [by apply Hd|].
    by apply list_elem_of_singleton in Hx as ->.
Qed.

Lemma sem_inv_post s posted taken n s' :
  sem_inv v s posted taken -> sem_post s = (Ret n, s') -> sem_inv v s' (posted + 1) (taken + n).
Proof.
  intros Hinv Hrun. unfold sem_post, bind, get in Hrun.
  destruct (sem_count s + 1 <=? 0) eqn:E; bool_to_prop.
  - unfold waitq_wake_one in Hrun. pose proof Hinv as [Hu Hn Hnd Hd].
    destruct (waiting (sem_waitq s)) as [|x l] eqn:Hw; cbn in Hrun; injection Hrun as <- <-.
    + unfold sem_units, results_with in *. rewrite Hw in *.
      split; unfold sem_units, results_with; simpl; rewrite ?Hw; try done; lia.
    + apply NoDup_cons in Hnd as [Hx Hnd]. assert (Hxr : results (sem_waitq s) !! x = None)
        by (apply Hd; by left).
      unfold sem_units in *. rewrite Hw in *.
      pose proof (results_with_insert_ne ERR_TIMED_OUT NO_ERROR x l _ Hxr ltac:(done)) as Hrw.
      unfold results_with in *. simpl in *.
      split; unfold sem_units, results_with; simpl; rewrite ?Hrw; try done; try lia.
      intros y Hy. rewrite lookup_insert_ne by (intros ->; done). apply Hd. by right.
  - cbn in Hrun. injection Hrun as <- <-. eapply sem_inv_same; [done..| |]; lia.
Qed.

Lemma sem_inv_timedwait s t timeout posted taken r s' :
  sem_inv v s posted taken -> t ∉ waiting (sem_waitq s) -> results (sem_waitq s) !! t = None ->
  sem_timedwait t timeout s = (Ret r, s') ->
  sem_inv v s' posted (taken + match r with Returned 0 => 1 | _ => 0 end).
Proof.
  intros Hinv Hw Hr Hrun. unfold sem_timedwait, bind, get in Hrun.
  destruct (sem_count s - 1 <? 0) eqn:E; bool_to_prop.
  - unfold waitq_block in Hrun. destruct (timeout =? 0); cbn in Hrun; injection Hrun as <- <-.
    + rewrite Z.add_0_r. replace (sem_count s - 1 + 1) with (sem_count s) by lia. by destruct s.
    + rewrite Z.add_0_r. by apply sem_inv_block.
  - cbn in Hrun. injection Hrun as <- <-. eapply sem_inv_same; [done..| |]; unfold NO_ERROR; cbn; lia.
Qed.

Lemma sem_inv_wait s t posted taken r s' :
  sem_inv v s posted taken -> t ∉ waiting (sem_waitq s) -> results (sem_waitq s) !! t = None ->
  sem_wait t s = (Ret r, s') ->
  sem_inv v s' posted (taken + match r with Blocked => 0 | Returned _ => 1 end).
Proof.
  intros Hinv Hw Hr Hrun. unfold sem_wait, bind, get in Hrun.
  destruct (sem_count s - 1 <? 0) eqn:E; bool_to_prop; cbn in Hrun; injection Hrun as <- <-.
  - rewrite Z.add_0_r. by apply sem_inv_block.
  - eapply sem_inv_same; [done..| |]; lia.
Qed.

Lemma sem_inv_timeout s t posted taken :
  sem_inv v s posted taken -> t ∈ waiting (sem_waitq s) ->
  sem_inv v (Semaphore (sem_count s) (waitq_timeout t (sem_waitq s))) posted taken.
Proof.
  intros [Hu Hn Hnd Hd] Ht. pose proof (Hd t Ht) as Hr.
  pose proof (filter_ne_length t _ Hnd Ht) as Hlen.
  assert (Hu' : sem_units (Semaphore (sem_count s) (waitq_timeout t (sem_waitq s))) = sem_units s).
  { unfold sem_units, waitq_timeout. cbn [sem_count sem_waitq waiting].
    rewrite results_with_insert by done. unfold results_with in *. simpl. lia. }
  split; rewrite ?Hu'; try done; simpl; [by apply NoDup_filter|].
  intros x Hx. apply list_elem_of_filter in Hx as [Hne Hx]. rewrite lookup_insert_ne by done.
  by apply Hd.
Qed.

Lemma sem_inv_resume s t posted taken r s' :
  sem_inv v s posted taken -> sem_timedwait_resume t s = (Ret r, s') -> sem_inv v s' posted taken.
Proof.
  intros [Hu Hn Hnd Hd] Hrun. unfold sem_timedwait_resume, bind, get, waitq_resume in Hrun.
  destruct (results (sem_waitq s) !! t) as [e|] eqn:Hrt; [|done]. simpl in Hrun.
  set (q := Waitq (waiting (sem_waitq s)) (delete t (results (sem_waitq s)))) in *.
  assert (Hd' : forall x, x ∈ waiting q -> results q !! x = None).
  { intros x Hx. subst q. simpl in *. rewrite lookup_delete_None. right. by apply Hd. }
  assert (Hs' : sem_units s' = sem_units s /\ sem_waitq s' = q).
  { unfold sem_timedwait_finish in Hrun. unfold sem_units. destruct (e =? ERR_TIMED_OUT) eqn:E;
      bool_to_prop; cbn in Hrun; injection Hrun as _ <-; cbn [sem_count sem_waitq]; subst q;
      (split; [|done]); cbn [waiting].
    - subst e. pose proof (results_with_delete ERR_TIMED_OUT t (waiting (sem_waitq s)) _ Hrt) as Hw.
      unfold results_with in *. simpl in *. lia.
    - rewrite (results_with_delete_ne ERR_TIMED_OUT e) by done. unfold results_with. simpl. lia. }
  destruct Hs' as [Hu' Hq]. split; rewrite ?Hu', ?Hq; done.
Qed.

Lemma sem_run_inv s posted taken : 0 <= v -> sem_run v s posted taken -> sem_inv v s posted taken.
Proof.
  intros Hv. induction 1 as [| s p k n s' _ IH Hr| s p k r s' _ IH Hr| s p k t r s' _ IH Hw Hn Hr
    | s p k t timeout r s' _ IH Hw Hn Hr| s p k t _ IH Ht| s p k t r s' _ IH Hr].
  - split; unfold sem_units; simpl; unfold results_with; simpl;
      rewrite ?map_filter_empty, ?map_size_empty; try lia; [constructor|done].
  - by eapply sem_inv_post.
  - unfold sem_trywait, bind, get in Hr. destruct (sem_count s <=? 0) eqn:E; bool_to_prop;
      cbn in Hr; injection Hr as <- <-.
    + cbn. by rewrite Z.add_0_r.
    + eapply sem_inv_same; [done..| |]; cbn; lia.
  - by eapply sem_inv_wait.
  - by eapply sem_inv_timedwait.
  - by apply sem_inv_timeout.
  - by eapply sem_inv_resume.
Qed.
End sem_inv.

(** C31: a semaphore never hands out more units than it was given: under any
    interleaving of posts, waits, tries, timeouts and rescheduling, the waits
    that succeeded are at most the initial value plus the posts, and the units
    that are left are exactly the count plus what blocked and timed-out threads
    will give back. *)
Theorem semaphore_conserves v s posted taken :
  0 <= v -> sem_run v s posted taken ->
  taken <= v + posted /\ sem_units s = v + posted - taken.
Proof. intros Hv Hr. destruct (sem_run_inv v s posted taken Hv Hr). split; lia. Qed.

Definition sem_one_waiting : semaphore_t := snd (sem_wait 2%nat (snd (sem_wait 1%nat (sem_init 1)))).

Lemma semaphore_conserves_witness :
  0 + 1 + 0 <= 1 + 0 /\ sem_units sem_one_waiting = 1 + 0 - (0 + 1 + 0).
Proof.
  apply (semaphore_conserves 1 sem_one_waiting 0 (0 + 1 + 0)); [lia|].
  apply (sem_do_wait 1 (snd (sem_wait 1%nat (sem_init 1))) 0 (0 + 1) 2%nat Blocked);
    [|vm_compute; intros H; inversion H|reflexivity|reflexivity].
  apply (sem_do_wait 1 (sem_init 1) 0 0 1%nat (Returned 0));
    [constructor|vm_compute; intros H; inversion H|reflexivity|reflexivity].
Defined.

(** ** Events *)

Definition EVENT_MAGIC : Z := 0x65766E74.
Definition EVENT_FLAG_AUTOUNSIGNAL : Z := 1.

Record event_t := Event {
  event_magic : Z;
  signaled : bool;
  event_flags : Z;
  event_waitq : waitq
}.

Definition EM (A : Type) : Type := M event_t Empty_set A.

Definition event_init (initial : bool) (flags : Z) : event_t :=
  Event EVENT_MAGIC initial flags waitq_init.

Definition event_destroy : EM unit :=
  let* e := get in
  assert_ (event_magic e =? EVENT_MAGIC) ;;
  put (Event 0 false 0 (snd (waitq_wake_all ERR_OBJECT_DESTROYED (event_waitq e)))).

Definition autounsignal (e : event_t) : bool :=
  negb (Z.land (event_flags e) EVENT_FLAG_AUTOUNSIGNAL =? 0).

Definition event_wait_timeout (cur : tid) (timeout : Z) : EM call_result :=
  let* e := get in
  assert_ (event_magic e =? EVENT_MAGIC) ;;
  if signaled e then
    (if autounsignal e then put (Event (event_magic e) false (event_flags e) (event_waitq e))
     else ret tt) ;;
    ret (Returned NO_ERROR)
  else
    let '(r, q) := waitq_block cur timeout (event_waitq e) in
    put (Event (event_magic e) (signaled e) (event_flags e) q) ;;
    ret r.

Definition event_signal : EM Z :=
  let* e := get in
  assert_ (event_magic e =? EVENT_MAGIC) ;;
  (if negb (signaled e) then
     if autounsignal e then
       let '(n, q) := waitq_wake_one NO_ERROR (event_waitq e) in
       put (Event (event_magic e) (n <=? 0) (event_flags e) q)
     else
       put (Event (event_magic e) true (event_flags e)
              (snd (waitq_wake_all NO_ERROR (event_waitq e))))
   else ret tt) ;;
  ret NO_ERROR.

Definition event_unsignal : EM Z :=
  let* e := get in
  assert_ (event_magic e =? EVENT_MAGIC) ;;
  put (Event (event_magic e) false (event_flags e) (event_waitq e)) ;;
  ret NO_ERROR.

Definition b2z (b : bool) : Z := if b then 1 else 0.

(** [passed] counts the waits that were let through, by falling through or by a
    wake; [signals] the signals. *)
Inductive event_run (initial : bool) (flags : Z) : event_t -> Z -> Z -> Prop :=
| event_start : event_run initial flags (event_init initial flags) 0 0
| event_do_wait e signals passed t timeout r e' :
    event_run initial flags e signals passed -> event_wait_timeout t timeout e = (Ret r, e') ->
    event_run initial flags e' signals (passed + match r with Returned 0 => 1 | _ => 0 end)
| event_do_signal e signals passed e' :
    event_run initial flags e signals passed -> event_signal e = (Ret NO_ERROR, e') ->
    event_run initial flags e' (signals + 1)
      (passed + Z.of_nat (length (waiting (event_waitq e)) - length (waiting (event_waitq e'))))
| event_do_unsignal e signals passed e' :
    event_run initial flags e signals passed -> event_unsignal e = (Ret NO_ERROR, e') ->
    event_run initial flags e' signals passed
| event_do_timeout e signals passed t :
    event_run initial flags e signals passed -> t ∈ waiting (event_waitq e) ->
    event_run initial flags
      (Event (event_magic e) (signaled e) (event_flags e) (waitq_timeout t (event_waitq e)))
      signals passed.

Record event_inv (initial : bool) (flags : Z) (e : event_t) (signals passed : Z) : Prop := {
  ei_magic : event_magic e = EVENT_MAGIC;
  ei_flags : event_flags e = flags;
  ei_waiting : signaled e = true -> waiting (event_waitq e) = [];
  ei_auto : autounsignal e = true -> passed + b2z (signaled e) <= b2z initial + signals
}.

Section event_inv.
Context (initial : bool) (flags : Z).
Implicit Types (e : event_t).

Lemma event_inv_wait e t timeout r e' signals passed :
  event_inv initial flags e signals passed -> event_wait_timeout t timeout e = (Ret r, e') ->
  event_inv initial flags e' signals (passed + match r with Returned 0 => 1 | _ => 0 end).
Proof.
  intros [Hm Hf Hw Ha] Hrun. unfold event_wait_timeout, bind, get, assert_ in Hrun.
  rewrite Hm, Z.eqb_refl in Hrun. cbn in Hrun. destruct (signaled e) eqn:Hs.
  - destruct (autounsignal e) eqn:Hau; cbn in Hrun; injection Hrun as <- <-; unfold NO_ERROR; cbn.
    + split; try done. cbn. intros _. specialize (Ha eq_refl). cbn in Ha. lia.
    + split; auto; congruence.
  - unfold waitq_block in Hrun.
    destruct (timeout =? 0); cbn in Hrun; injection Hrun as <- <-; cbn; rewrite Z.add_0_r;
      split; cbn; rewrite ?Hs; try done; congruence.
Qed.

Lemma event_inv_signal e e' signals passed :
  event_inv initial flags e signals passed -> event_signal e = (Ret NO_ERROR, e') ->
  event_inv initial flags e' (signals + 1)
    (passed + Z.of_nat (length (waiting (event_waitq e)) - length (waiting (event_waitq e')))).
Proof.
  intros [Hm Hf Hw Ha] Hrun. unfold event_signal, bind, get, assert_ in Hrun.
  rewrite Hm, Z.eqb_refl in Hrun. cbn in Hrun. destruct (signaled e) eqn:Hs.
  - cbn in Hrun. injection Hrun as <-. rewrite Nat.sub_diag. split; auto.
    intros Hau. specialize (Ha Hau). rewrite Hs. cbn in *. lia.
  - cbn in Hrun. destruct (autounsignal e) eqn:Hau.
    + unfold waitq_wake_one in Hrun. specialize (Ha eq_refl). cbn in Ha.
      destruct (waiting (event_waitq e)) as [|x l] eqn:Hl; cbn in Hrun; injection Hrun as <-;
        split; cbn; try done; rewrite ?Hl; intros _; cbn in *; lia.
    + cbn in Hrun. injection Hrun as <-. split; cbn; try done. unfold autounsignal in *. cbn. congruence.
Qed.

Lemma event_run_inv e signals passed :
  event_run initial flags e signals passed -> event_inv initial flags e signals passed.
Proof.
  induction 1 as [|e s p t timeout r e' _ IH Hr|e s p e' _ IH Hr|e s p e' _ [Hm Hf Hw Ha] Hr
    |e s p t _ [Hm Hf Hw Ha] Ht].
  - split; cbn; try done. intros _. lia.
  - by eapply event_inv_wait.
  - by apply event_inv_signal.
  - unfold event_unsignal, bind, get, assert_ in Hr. rewrite Hm, Z.eqb_refl in Hr. cbn in Hr.
    injection Hr as <-. split; cbn; try done. intros Hau. specialize (Ha Hau). destruct (signaled e); cbn in Ha; lia.
  - split; cbn; try done. intros Hs. rewrite (Hw Hs) in Ht. by apply elem_of_nil in Ht.
Qed.
End event_inv.

(** no thread waits on a signaled event, and an AUTOUNSIGNAL event lets at
    most one waiter through per signal (and one for an initially signaled
    event), whatever the interleaving with timeouts and unsignals. *)
Theorem event_signals initial flags e signals passed :
  event_run initial flags e signals passed ->
  (signaled e = true -> waiting (event_waitq e) = []) /\
  (Z.land flags EVENT_FLAG_AUTOUNSIGNAL <> 0 -> passed + b2z (signaled e) <= b2z initial + signals).
Proof.
  intros Hr. destruct (event_run_inv _ _ _ _ _ Hr) as [Hm Hf Hw Ha]. split; [done|].
  intros Hau. apply Ha. unfold autounsignal. rewrite Hf. by apply negb_true_iff, Z.eqb_neq.
Qed.

Lemma event_signals_witness :
  let e := snd (event_signal (snd (event_signal (event_init false 1)))) in
  (signaled e = true -> waiting (event_waitq e) = []) /\
  (Z.land 1 EVENT_FLAG_AUTOUNSIGNAL <> 0 -> 0 + 0 + 0 + b2z (signaled e) <= b2z false + (0 + 1 + 1)).
Proof.
  intros e. apply (event_signals false 1 e (0 + 1 + 1) (0 + 0 + 0)).
  apply (event_do_signal false 1 (snd (event_signal (event_init false 1)))); [|reflexivity].
  apply (event_do_signal false 1 (event_init false 1)); [constructor|reflexivity].
Defined.

(** ** Event flags *)

Definition EVENT_FLAG_MAGIC : Z := 0x6576666C.
Definition EVENT_FLAG_WAIT_MODE_BIT : Z := 1.
Definition EVENT_FLAG_AUTOCLEAR : Z := 1.
Definition EVENT_FLAG_WAIT_MODE_OR : Z := 0.
Definition EVENT_FLAG_WAIT_MODE_AND : Z := 2.

Record evflag_t := Evflag { evflag_magic : Z; bits : Z; evflag_waitq : waitq }.

Definition FM (A : Type) : Type := M evflag_t Empty_set A.

Definition check_pattern (bits pattern flags : Z) : bool :=
  let mode := Z.land flags (Z.shiftl 1 EVENT_FLAG_WAIT_MODE_BIT) in
  if mode =? EVENT_FLAG_WAIT_MODE_AND then Z.land bits pattern =? bits
  else if mode =? EVENT_FLAG_WAIT_MODE_OR then negb (Z.land bits pattern =? 0)
  else false.

Definition clear_pattern (bits pattern flags : Z) : Z := Z.land bits (Z.lnot pattern).

Definition evflag_init (initial : Z) : evflag_t := Evflag EVENT_FLAG_MAGIC initial waitq_init.

Definition evflag_destroy : FM unit :=
  let* e := get in
  assert_ (evflag_magic e =? EVENT_FLAG_MAGIC) ;;
  put (Evflag 0 0 (snd (waitq_wake_all ERR_OBJECT_DESTROYED (evflag_waitq e)))).

(** The result of the call: its status and the bits stored in [out_bits]. *)
Inductive evflag_result := Ev_returned (r : Z) (out_bits : option Z) | Ev_blocked.

(** One turn of the loop of evflag_wait_timeout, entered with NO_ERROR. *)
Definition evflag_wait_loop (cur : tid) (pattern flags timeout : Z) : FM evflag_result :=
  let* e := get in
  if check_pattern (bits e) pattern flags then
    (if negb (Z.land flags EVENT_FLAG_AUTOCLEAR =? 0)
     then put (Evflag (evflag_magic e) (clear_pattern (bits e) pattern flags) (evflag_waitq e))
     else ret tt) ;;
    ret (Ev_returned NO_ERROR (Some (bits e)))
  else
    let '(r, q) := waitq_block cur timeout (evflag_waitq e) in
    put (Evflag (evflag_magic e) (bits e) q) ;;
    match r with Blocked => ret Ev_blocked | Returned x => ret (Ev_returned x None) end.

Definition evflag_wait_timeout (cur : tid) (pattern flags timeout : Z) : FM evflag_result :=
  let* e := get in
  assert_ (evflag_magic e =? EVENT_FLAG_MAGIC) ;;
  evflag_wait_loop cur pattern flags timeout.

(** Back from wait_queue_block: another turn of the loop unless it failed. *)
Definition evflag_wait_resume (cur : tid) (pattern flags timeout : Z) : FM evflag_result :=
  let* e := get in
  let* rq := deref (waitq_resume cur (evflag_waitq e)) in
  put (Evflag (evflag_magic e) (bits e) (snd rq)) ;;
  if fst rq =? NO_ERROR then evflag_wait_loop cur pattern flags timeout
  else ret (Ev_returned (fst rq) None).

Definition evflag_raise (b : Z) : FM Z :=
  let* e := get in
  assert_ (evflag_magic e =? EVENT_FLAG_MAGIC) ;;
  put (Evflag (evflag_magic e) (Z.lor (bits e) b)
         (snd (waitq_wake_all NO_ERROR (evflag_waitq e)))) ;;
  ret NO_ERROR.

(** Executions, with the pattern and mode each thread waits for. *)
Inductive evflag_run (initial : Z) : evflag_t -> gmap tid (Z * Z) -> Prop :=
| evflag_start : evflag_run initial (evflag_init initial) ∅
| evflag_do_wait e reg t p f timeout r e' :
    evflag_run initial e reg -> t ∉ waiting (evflag_waitq e) ->
    evflag_wait_timeout t p f timeout e = (Ret r, e') -> evflag_run initial e' (<[t := (p, f)]> reg)
| evflag_do_resume e reg t p f timeout r e' :
    evflag_run initial e reg -> t ∉ waiting (evflag_waitq e) -> reg !! t = Some (p, f) ->
    evflag_wait_resume t p f timeout e = (Ret r, e') -> evflag_run initial e' reg
| evflag_do_raise e reg b e' :
    evflag_run initial e reg -> evflag_raise b e = (Ret NO_ERROR, e') -> evflag_run initial e' reg
| evflag_do_timeout e reg t :
    evflag_run initial e reg -> t ∈ waiting (evflag_waitq e) ->
    evflag_run initial
      (Evflag (evflag_magic e) (bits e) (waitq_timeout t (evflag_waitq e))) reg.

Definition is_or (f : Z) : Prop :=
  Z.land f (Z.shiftl 1 EVENT_FLAG_WAIT_MODE_BIT) = EVENT_FLAG_WAIT_MODE_OR.

Definition evflag_inv (e : evflag_t) (reg : gmap tid (Z * Z)) : Prop :=
  forall t, t ∈ waiting (evflag_waitq e) ->
    exists p f, reg !! t = Some (p, f) /\ (is_or f -> Z.land (bits e) p = 0).

Section evflag_inv.
Implicit Types (e : evflag_t) (t : tid).

Lemma check_pattern_or b p f : is_or f -> check_pattern b p f = negb (Z.land b p =? 0).
Proof. intros Hf. unfold check_pattern. by rewrite Hf. Qed.

(** One turn of the loop: either it matched, and clearing bits satisfies no
    other waiter, or the thread joined the waiters with a pattern that fails. *)
Lemma evflag_inv_loop e reg t p f timeout r e' :
  evflag_inv e reg -> reg !! t = Some (p, f) ->
  evflag_wait_loop t p f timeout e = (Ret r, e') -> evflag_inv e' reg.
Proof.
  intros Hinv Hreg Hrun. unfold evflag_wait_loop, bind, get in Hrun.
  destruct (check_pattern (bits e) p f) eqn:Hck.
  - assert (Hb : waiting (evflag_waitq e') = waiting (evflag_waitq e) /\
      forall x, Z.land (bits e) x = 0 -> Z.land (bits e') x = 0).
    { destruct (negb _); cbn in Hrun; injection Hrun as _ <-; [|done]. split; [done|].
      intros x Hx. cbn. unfold clear_pattern.
      rewrite <- Z.land_assoc, (Z.land_comm (Z.lnot p)), Z.land_assoc, Hx. apply Z.land_0_l. }
    destruct Hb as [Hw Hb]. intros x Hx. rewrite Hw in Hx.
    destruct (Hinv x Hx) as (px & fx & ? & Hor). exists px, fx. split; [done|]. auto.
  - unfold waitq_block in Hrun.
    assert (Hb : bits e' = bits e /\
      forall x, x ∈ waiting (evflag_waitq e') -> x = t \/ x ∈ waiting (evflag_waitq e)).
    { destruct (timeout =? 0); cbn in Hrun; injection Hrun as _ <-; cbn; [by auto|].
      split; [done|]. intros x. rewrite elem_of_app, list_elem_of_singleton. tauto. }
    destruct Hb as [Hb Hw]. intros x Hx. rewrite Hb. destruct (Hw x Hx) as [->|Hx']; [|by apply Hinv].
    exists p, f. split; [done|]. intros Hor. rewrite check_pattern_or in Hck by done.
    by apply negb_false_iff, Z.eqb_eq in Hck.
Qed.

Lemma evflag_run_inv initial e reg : evflag_run initial e reg -> evflag_inv e reg.
Proof.
  induction 1 as [|e reg t p f timeout r e' _ IH Hnw Hrun|e reg t p f timeout r e' _ IH Hnw Hreg Hrun
    |e reg b e' _ IH Hrun|e reg t _ IH Ht].
  - intros t Ht. by apply elem_of_nil in Ht.
  - unfold evflag_wait_timeout in Hrun. apply bind_Ret in Hrun as (e0 & e1 & [= <- <-] & Hrun).
    apply bind_Ret in Hrun as ([] & e1 & Has & Hrun).
    assert (e1 = e) as ->
      by (unfold assert_ in Has; destruct (_ =? _); [by injection Has|done]).
    eapply evflag_inv_loop; [|apply lookup_insert_eq|exact Hrun].
    intros x Hx. destruct (IH x Hx) as (px & fx & ? & ?). exists px, fx.
    by rewrite lookup_insert_ne by (intros ->; done).
  - unfold evflag_wait_resume in Hrun. apply bind_Ret in Hrun as (e0 & e1 & [= <- <-] & Hrun).
    apply bind_Ret in Hrun as ([c q] & e1 & Hd & Hrun).
    unfold waitq_resume in Hd. destruct (results (evflag_waitq e) !! t) as [c'|]; [|done].
    injection Hd as <- <- <-. apply bind_Ret in Hrun as ([] & e1 & [= <-] & Hrun).
    assert (Hi : evflag_inv (Evflag (evflag_magic e) (bits e)
      (Waitq (waiting (evflag_waitq e)) (delete t (results (evflag_waitq e))))) reg) by exact IH.
    simpl in Hrun. destruct (c' =? NO_ERROR); [by eapply evflag_inv_loop|].
    by injection Hrun as _ <-.
  - unfold evflag_raise in Hrun. apply bind_Ret in Hrun as (e0 & e1 & [= <- <-] & Hrun).
    apply bind_Ret in Hrun as ([] & e1 & _ & Hrun). injection Hrun as <-.
    intros x Hx. by apply elem_of_nil in Hx.
  - intros x Hx. apply list_elem_of_filter in Hx as [_ Hx]. by apply IH.
Qed.
End evflag_inv.

(** waits in OR mode are never missed: whatever interleaving of raises,
    waits, automatic clears and timeouts, no bit of the pattern an OR-mode thread
    still waits for is set. *)
Theorem evflag_or_not_missed initial e reg t p f :
  evflag_run initial e reg -> t ∈ waiting (evflag_waitq e) -> reg !! t = Some (p, f) -> is_or f ->
  Z.land (bits e) p = 0.
Proof.
  intros Hr Ht Hreg Hor. destruct (evflag_run_inv initial e reg Hr t Ht) as (p' & f' & Hreg' & H).
  rewrite Hreg in Hreg'. injection Hreg' as <- <-. by apply H.
Qed.

Lemma evflag_or_not_missed_witness :
  let e := snd (evflag_wait_timeout 1%nat 4 0 INFINITE_TIME (evflag_init 3)) in
  Z.land (bits e) 4 = 0.
Proof.
  intros e. apply (evflag_or_not_missed 3 e {[1%nat := (4, 0)]} 1%nat 4 0).
  - apply (evflag_do_wait 3 (evflag_init 3) ∅ 1%nat 4 0 INFINITE_TIME Ev_blocked);
      [constructor|vm_compute; intros H; inversion H|reflexivity].
  - vm_compute. left.
  - apply lookup_singleton_eq.
  - reflexivity.
Defined.

(** AND mode compares the wrong way round: the wait passes exactly when no
    bit outside the pattern is set, so it returns at once on an empty event flag
    and waits when all of the pattern, and anything else, is set. *)
Theorem evflag_and_inverted b p cur timeout :
  (check_pattern b p EVENT_FLAG_WAIT_MODE_AND = true <-> Z.land b p = b) /\
  evflag_wait_timeout cur p EVENT_FLAG_WAIT_MODE_AND timeout (evflag_init 0)
    = (Ret (Ev_returned NO_ERROR (Some 0)), evflag_init 0) /\
  check_pattern (Z.lor p 8) p EVENT_FLAG_WAIT_MODE_AND = Z.testbit p 3.
Proof.
  assert (Hck : forall b p, check_pattern b p EVENT_FLAG_WAIT_MODE_AND = (Z.land b p =? b)) by done.
  split; [by rewrite Hck, Z.eqb_eq|]. split; [done|]. rewrite Hck.
  assert (Hl : Z.land (Z.lor p 8) p = p).
  { apply Z.bits_inj'. intros i _. rewrite Z.land_spec, Z.lor_spec. by destruct (Z.testbit p i), (Z.testbit 8 i). }
  rewrite Hl. destruct (Z.testbit p 3) eqn:E.
  - apply Z.eqb_eq, Z.bits_inj'. intros i Hi. rewrite Z.lor_spec. change 8 with (2 ^ 3).
    rewrite Z.pow2_bits_eqb by lia. destruct (Z.eqb_spec 3 i) as [<-|]; [by rewrite E|].
    by rewrite orb_false_r.
  - apply Z.eqb_neq. intros Heq. rewrite Heq, Z.lor_spec in E. cbn in E. by rewrite orb_true_r in E.
Qed.

(** ** The gamepad *)

(** [keys] is active low, as the controller reports it.  The mask of the buttons
    comes from the controller's header. *)
Section gamepad.
Context (KEY_MASK : Z).

Record GamepadContext := Gamepad {
  keys : Z;
  prev_keys : Z;
  on_press_keys : Z;
  on_release_keys : Z;
  on_hold_keys : Z
}.

Inductive GamepadTrigger :=
| GAMEPAD_TRIGGER_ON_PRESS | GAMEPAD_TRIGGER_ON_RELEASE | GAMEPAD_TRIGGER_ON_HOLD.

Definition TO_KEYS (x : Z) : Z := u32 (Z.land (Z.lnot x) KEY_MASK).

(** One turn of gamepad_poll on a reading, and the triggers whose waiters it
    wakes. *)
Definition gamepad_poll_step (k : Z) (ctx : GamepadContext) : GamepadContext * list GamepadTrigger :=
  let press := TO_KEYS (Z.lor k (Z.lnot (prev_keys ctx))) in
  let release := TO_KEYS (Z.lor (Z.lnot k) (prev_keys ctx)) in
  let hold := TO_KEYS (Z.lor k (prev_keys ctx)) in
  (Gamepad k k press release hold,
   (if negb (press =? 0) then [GAMEPAD_TRIGGER_ON_PRESS] else [])
   ++ (if negb (release =? 0) then [GAMEPAD_TRIGGER_ON_RELEASE] else [])
   ++ (if negb (hold =? 0) then [GAMEPAD_TRIGGER_ON_HOLD] else [])).

(** What gamepad_read stores once its wait is over. *)
Definition gamepad_read (trigger : GamepadTrigger) (ctx : GamepadContext) : Z :=
  match trigger with
  | GAMEPAD_TRIGGER_ON_PRESS => on_press_keys ctx
  | GAMEPAD_TRIGGER_ON_RELEASE => on_release_keys ctx
  | GAMEPAD_TRIGGER_ON_HOLD => on_hold_keys ctx
  end.

Lemma TO_KEYS_bit x i : 0 <= i < 32 ->
  Z.testbit (TO_KEYS x) i = negb (Z.testbit x i) && Z.testbit KEY_MASK i.
Proof.
  intros Hi. unfold TO_KEYS, u32. rewrite Z.mod_pow2_bits_low by lia.
  by rewrite Z.land_spec, Z.lnot_spec by lia.
Qed.

(** A poll classifies every masked button by its edge: pressed means down
    now and up in the previous reading, released the opposite, held down in
    both; a reader of a trigger sees a button exactly in that case, and readers
    are woken exactly for the triggers that have a button. *)
Theorem gamepad_edges k ctx i :
  0 <= i < 32 ->
  let '(ctx', woken) := gamepad_poll_step k ctx in
  let down := negb (Z.testbit k i) in
  let was_down := negb (Z.testbit (prev_keys ctx) i) in
  let masked := Z.testbit KEY_MASK i in
  Z.testbit (gamepad_read GAMEPAD_TRIGGER_ON_PRESS ctx') i = down && negb was_down && masked /\
  Z.testbit (gamepad_read GAMEPAD_TRIGGER_ON_RELEASE ctx') i = negb down && was_down && masked /\
  Z.testbit (gamepad_read GAMEPAD_TRIGGER_ON_HOLD ctx') i = down && was_down && masked /\
  (forall trigger, trigger ∈ woken <-> gamepad_read trigger ctx' <> 0).
Proof.
  intros Hi. cbn [gamepad_poll_step gamepad_read on_press_keys on_release_keys on_hold_keys].
  rewrite !TO_KEYS_bit, !Z.lor_spec, !Z.lnot_spec by lia. split_and!.
  1-3: by destruct (Z.testbit k i), (Z.testbit (prev_keys ctx) i), (Z.testbit KEY_MASK i).
  intros trigger.
  destruct (Z.eqb_spec (TO_KEYS (Z.lor k (Z.lnot (prev_keys ctx)))) 0) as [E1|E1];
  destruct (Z.eqb_spec (TO_KEYS (Z.lor (Z.lnot k) (prev_keys ctx))) 0) as [E2|E2];
  destruct (Z.eqb_spec (TO_KEYS (Z.lor k (prev_keys ctx))) 0) as [E3|E3];
  destruct trigger; cbn; rewrite ?E1, ?E2, ?E3; set_solver.
Qed.
End gamepad.

Lemma gamepad_edges_witness :
  let '(ctx', woken) := gamepad_poll_step 0xFFFF 0xFFFE (Gamepad 0xFFFF 0xFFFF 0 0 0) in
  let down := negb (Z.testbit 0xFFFE 0) in
  let was_down := negb (Z.testbit 0xFFFF 0) in
  let masked := Z.testbit 0xFFFF 0 in
  Z.testbit (gamepad_read GAMEPAD_TRIGGER_ON_PRESS ctx') 0 = down && negb was_down && masked /\
  Z.testbit (gamepad_read GAMEPAD_TRIGGER_ON_RELEASE ctx') 0 = negb down && was_down && masked /\
  Z.testbit (gamepad_read GAMEPAD_TRIGGER_ON_HOLD ctx') 0 = down && was_down && masked /\
  (forall trigger, trigger ∈ woken <-> gamepad_read trigger ctx' <> 0).
Proof. apply (gamepad_edges 0xFFFF 0xFFFE (Gamepad 0xFFFF 0xFFFF 0 0 0) 0). lia. Defined.
