(* ===== verification/Fdisk.v ===== *)
(** * external/lib/fdisk/fdisk.c: partitioning the logical flash

    The partition tables fdisk builds, down to the bytes of the sectors it
    writes, and a reference walk of an extended-partition chain as a FAT driver
    performs it.  The flash driver (lflash, not part of the sources) is a class. *)

From stdpp Require Import prelude list gmap sorting.
From Stdlib Require Import ZArith Lia.
From S2P Require Import Prelude.

Open Scope Z_scope.
Open Scope lk_scope.

(** ** The flash driver *)

(** Sectors of 512 bytes; a write reports 0 on success. *)
Class LFlash (D : Type) := {
  lflash_get_size : Z;
  lflash_write_sectors : Z -> list Z -> D -> Z * D;
  lflash_sync : D -> D;
  lflash_read : D -> Z -> list Z
}.

(** What the driver documents: a successful write stores the sector and only it;
    syncing does not change what is read. *)
Class LFlashLaws D `{LFlash D} : Prop := {
  write_stores : forall lba bs d d', lflash_write_sectors lba bs d = (0, d') ->
    lflash_read d' lba = bs;
  write_frame : forall lba lba' bs d r d', lflash_write_sectors lba bs d = (r, d') ->
    lba' <> lba -> lflash_read d' lba' = lflash_read d lba';
  sync_reads : forall d lba, lflash_read (lflash_sync d) lba = lflash_read d lba
}.

(** ** Data *)

Inductive FdiskResult := FDISK_RESULT_OK | FDISK_ERR_LBA_OUT_OF_CHS_RANGE | FDISK_ERR_WRITE.

Record CylinderHeadSector := CHS { cylinder : Z; head : Z; sector : Z }.

Record CylinderHeadSectorAddress := CHS_addr { h : Z; cs : Z; c8 : Z }.

Record PartitionEntry := Partition_entry {
  boot_indicator : Z;
  chs_part_start : CylinderHeadSectorAddress;
  part_type : Z;
  chs_part_end : CylinderHeadSectorAddress;
  lba_part_start : Z;
  part_size : Z
}.

(** [unused] is all zero after memset; [entries] are the four partitions. *)
Record BootRecord := Boot_record {
  unused : list Z;
  entries : list PartitionEntry;
  signature : Z
}.

Record Partition := Partition_at { sector_lba : Z; record : BootRecord }.

Record DiskGeometry := Geometry {
  max_cylinders : Z;
  heads_per_cylinder : Z;
  sectors_per_track : Z
}.

Record FdiskState := Fdisk_state {
  geometry : DiskGeometry;
  disk_size : Z;
  next_offset : Z;
  alignment : Z;
  ebr_base : Z;
  num_partitions : nat;
  partitions : list Partition
}.

Definition g_assumed_geometry : DiskGeometry := Geometry 1023 2 32.

Definition zero_chs : CylinderHeadSectorAddress := CHS_addr 0 0 0.
Definition zero_entry : PartitionEntry := Partition_entry 0 zero_chs 0 zero_chs 0 0.
Definition zero_record : BootRecord := Boot_record (replicate 446 0) (replicate 4 zero_entry) 0.

(** calloc'ed state *)
Definition zero_state : FdiskState :=
  Fdisk_state (Geometry 0 0 0) 0 0 0 0 0 (replicate 16 (Partition_at 0 zero_record)).

(** ** Operations *)

Definition lba_to_chs (lba : Z) (g : DiskGeometry) : FdiskResult * option CylinderHeadSector :=
  let cylinder := lba / (heads_per_cylinder g * sectors_per_track g) in
  let head := (lba / sectors_per_track g) mod heads_per_cylinder g in
  let sector := lba mod sectors_per_track g + 1 in
  if max_cylinders g <? cylinder then (FDISK_ERR_LBA_OUT_OF_CHS_RANGE, None)
  else (FDISK_RESULT_OK, Some (CHS cylinder head sector)).

Definition chs_to_chs_addr (c : CylinderHeadSector) : CylinderHeadSectorAddress :=
  CHS_addr (u8 (head c))
    (u8 (Z.lor (Z.land (sector c) 0x3F)
           (Z.shiftl (Z.land (Z.shiftr (cylinder c) 8) 0x3) 6)))
    (u8 (Z.land (cylinder c) 0xFF)).

(** The clamped conversion both CHS fields of an entry go through. *)
Definition chs_or_max (lba : Z) (g : DiskGeometry) : CylinderHeadSector :=
  match lba_to_chs lba g with
  | (FDISK_ERR_LBA_OUT_OF_CHS_RANGE, _) | (_, None) =>
      CHS (max_cylinders g) (heads_per_cylinder g) (sectors_per_track g)
  | (_, Some c) => c
  end.

(** The end of the partition is converted from [lba] as well, as the code does. *)
Definition build_ebr_part_entry (pte : PartitionEntry) (type lba ebr_base size : Z)
    (g : DiskGeometry) : PartitionEntry :=
  let chs_start := chs_or_max lba g in
  let chs_end := chs_or_max lba g in
  Partition_entry (boot_indicator pte) (chs_to_chs_addr chs_start) (u8 type)
    (chs_to_chs_addr chs_end) (u32 (lba - ebr_base)) size.

Definition set_next (n : Z) (s : FdiskState) : FdiskState :=
  Fdisk_state (geometry s) (disk_size s) n (alignment s) (ebr_base s) (num_partitions s)
    (partitions s).

Definition align_next (size : Z) (s : FdiskState) : FdiskState :=
  let next := u32 (next_offset s + size) in
  let remainder := next mod alignment s in
  set_next (if negb (remainder =? 0) then u32 (next + (alignment s - remainder)) else next) s.

Definition set_entry (i : nat) (f : PartitionEntry -> PartitionEntry) (r : BootRecord) : BootRecord :=
  Boot_record (unused r) (alter f i (entries r)) (signature r).

Definition build_mbr (s : FdiskState) : FdiskState * BootRecord :=
  let record := set_entry 0 (fun e => build_ebr_part_entry e 0xF 0x40 0 (u32 (disk_size s - 0x40))
                                        (geometry s)) zero_record in
  let record := Boot_record (unused record) (entries record) 0xAA55 in
  (align_next 0x40 s, record).

(** [None] is an access outside partitions[16]. *)
Definition add_partition (type size : Z) (s : FdiskState) : option FdiskState :=
  let s :=
    match num_partitions s with
    | O =>
        let s := align_next 0 s in
        Fdisk_state (geometry s) (disk_size s) (next_offset s) (alignment s) (next_offset s)
          (num_partitions s) (partitions s)
    | S prev =>
        let s := align_next 0 s in
        Fdisk_state (geometry s) (disk_size s) (next_offset s) (alignment s) (ebr_base s)
          (num_partitions s)
          (alter (fun p => Partition_at (sector_lba p)
             (set_entry 1 (fun e => build_ebr_part_entry e 0xF (next_offset s) (ebr_base s) size
                                      (geometry s)) (record p))) prev (partitions s))
    end in
  if bool_decide (num_partitions s < 16)%nat then
    let record := Boot_record (unused zero_record) (entries zero_record) 0xAA55 in
    let record := set_entry 0 (fun e => build_ebr_part_entry e type (alignment s) 0
                                          (u32 (size - alignment s)) (geometry s)) record in
    let s' := Fdisk_state (geometry s) (disk_size s) (next_offset s) (alignment s) (ebr_base s)
                (num_partitions s)
                (<[num_partitions s := Partition_at (next_offset s) record]> (partitions s)) in
    let s' := align_next size s' in
    Some (Fdisk_state (geometry s') (disk_size s') (next_offset s') (alignment s') (ebr_base s')
            (S (num_partitions s')) (partitions s'))
  else None.

(** The bytes of a packed BootRecord. *)
Definition chs_bytes (a : CylinderHeadSectorAddress) : list Z := [h a; cs a; c8 a].

Definition entry_bytes (e : PartitionEntry) : list Z :=
  boot_indicator e :: chs_bytes (chs_part_start e) ++ part_type e :: chs_bytes (chs_part_end e)
  ++ le_encode 4 (lba_part_start e) ++ le_encode 4 (part_size e).

Definition record_bytes (r : BootRecord) : list Z :=
  unused r ++ concat (map entry_bytes (entries r)) ++ le_encode 2 (signature r).

Section fdisk.
Context {D : Type} {HL : LFlash D}.

Definition write_record (lba : Z) (r : BootRecord) : M D FdiskResult unit :=
  fun d => match lflash_write_sectors lba (record_bytes r) d with
           | (0, d') => (Ret tt, d')
           | (_, d') => (Err FDISK_ERR_WRITE, d')
           end.

(** [alloc] is whether calloc succeeds: its result is used unchecked. *)
Definition fdisk (alloc : bool) (f0_size f1_size f2_size f3_size : Z) : M D FdiskResult FdiskResult :=
  if negb alloc then fault
  else
    let state := Fdisk_state g_assumed_geometry (u32 lflash_get_size) 0 32 0 0
                   (partitions zero_state) in
    let '(state, mbr) := build_mbr state in
    write_record 0 mbr ;;
    let* state := deref (add_partition 0xE f0_size state) in
    let* state := deref (add_partition 0xE f1_size state) in
    let* state := deref (add_partition 0xE f2_size state) in
    let* state := deref (add_partition 0xE f3_size state) in
    for_each (take (num_partitions state) (partitions state))
      (fun p => write_record (sector_lba p) (record p)) ;;
    modify lflash_sync ;;
    ret FDISK_RESULT_OK.
End fdisk.

(** ** Reading the tables back *)

(** What a reader sees of the entry at byte [off]: type, start and size. *)
Definition parse_entry (off : nat) (bs : list Z) : Z * Z * Z :=
  (nth (off + 4) bs 0, le_decode (slice (off + 8) 4 bs), le_decode (slice (off + 12) 4 bs)).

(** The chain of extended boot records from sector [cur]: each holds one
    partition, relative to itself, and the next record, relative to [base]. *)
Fixpoint walk (fuel : nat) (rd : Z -> list Z) (base cur : Z) : option (list (Z * Z * Z)) :=
  match fuel with
  | O => None
  | S fuel' =>
      let bs := rd cur in
      if bool_decide (slice 510 2 bs = [0x55; 0xAA]) then
        let '(type, start, size) := parse_entry 446 bs in
        let '(type', next, _) := parse_entry 462 bs in
        if type' =? 0 then Some [(type, cur + start, size)]
        else if type' =? 0xF then
          (fun l => (type, cur + start, size) :: l) <$> walk fuel' rd base (base + next)
        else None
      else None
  end.

Definition read_partitions (rd : Z -> list Z) : option (list (Z * Z * Z)) :=
  let bs := rd 0 in
  if bool_decide (slice 510 2 bs = [0x55; 0xAA]) then
    let '(type, start, _) := parse_entry 446 bs in
    if type =? 0xF then walk 16 rd start start else None
  else None.

(** The layout fdisk means: partition [i] in a slot that begins 32-aligned
    behind the previous one, its record in the slot's first 32 sectors. *)
Definition align_up (n : Z) : Z := (n + 31) / 32 * 32.

Fixpoint layout (pos : Z) (sizes : list Z) : list (Z * Z * Z) :=
  match sizes with
  | [] => []
  | size :: rest => (0xE, pos + 32, size - 32) :: layout (align_up (pos + size)) rest
  end.

(** ** Conversions *)

(** The packed CHS triple a reader decodes. *)
Definition chs_decode (g : DiskGeometry) (a : CylinderHeadSectorAddress) : Z :=
  ((Z.shiftl (Z.shiftr (cs a) 6) 8 + c8 a) * heads_per_cylinder g + h a) * sectors_per_track g
  + (Z.land (cs a) 0x3F - 1).

Lemma land_low_mod z n : 0 <= n -> Z.land z (2 ^ n - 1) = z mod 2 ^ n.
Proof. intros. rewrite <- Z.land_ones by lia. f_equal. rewrite Z.ones_equiv. lia. Qed.

Lemma cs_byte s c : 0 <= s < 64 -> 0 <= c < 1024 ->
  u8 (Z.lor (Z.land s 0x3F) (Z.shiftl (Z.land (Z.shiftr c 8) 0x3) 6)) = s + 64 * (c / 256).
Proof.
  intros Hs Hc. change 0x3F with (2 ^ 6 - 1). change 0x3 with (2 ^ 2 - 1).
  rewrite (land_low_mod s 6), (land_low_mod _ 2) by lia.
  rewrite Z.shiftr_div_pow2, Z.shiftl_mul_pow2 by lia.
  rewrite (Z.mod_small s), (Z.mod_small (c / 2 ^ 8)) by
    (first [lia | split; [apply Z.div_pos; lia|apply Z.div_lt_upper_bound; lia]]).
  change (2 ^ 8) with 256. change (2 ^ 6) with 64.
  assert (0 <= c / 256 < 4) by (split; [apply Z.div_pos; lia|apply Z.div_lt_upper_bound; lia]).
  assert (Hlor : Z.lor s (c / 256 * 64) = s + c / 256 * 64).
  { assert (Hdis : Z.land s (c / 256 * 64) = 0).
    { apply Z.bits_inj_0. intros i. rewrite Z.land_spec. destruct (Z.ltb_spec i 6).
      - change 64 with (2 ^ 6). rewrite Z.mul_pow2_bits_low by lia. by rewrite andb_false_r.
      - rewrite (proj1 (Z.bounded_iff_bits_nonneg 6 s ltac:(lia) ltac:(lia))); [done|lia|lia]. }
    by rewrite <- Z.lxor_lor, Z.add_nocarry_lxor. }
  rewrite Hlor. unfold u8. rewrite Z.mod_small by lia. lia.
Qed.

(** Within the range of CHS addressing the three bytes fdisk stores denote
    the sector they were made from, for any geometry with at most 1024
    cylinders, 256 heads and 63 sectors; beyond it the conversion reports the
    error and the entry gets the clamped triple. *)
Theorem chs_roundtrip g lba :
  0 < heads_per_cylinder g <= 256 -> 0 < sectors_per_track g < 64 ->
  0 <= max_cylinders g < 1024 -> 0 <= lba ->
  match lba_to_chs lba g with
  | (FDISK_RESULT_OK, Some c) => chs_decode g (chs_to_chs_addr c) = lba
  | (FDISK_ERR_LBA_OUT_OF_CHS_RANGE, None) =>
      (max_cylinders g + 1) * (heads_per_cylinder g * sectors_per_track g) <= lba
  | _ => False
  end.
Proof.
  intros Hh Hs Hm Hl. unfold lba_to_chs. set (hs := heads_per_cylinder g) in *.
  set (ss := sectors_per_track g) in *. set (c := lba / (hs * ss)).
  assert (Hc0 : 0 <= c) by (apply Z.div_pos; nia).
  destruct (max_cylinders g <? c) eqn:E; bool_to_prop.
  - assert (hs * ss * c <= lba) by (apply Z.mul_div_le; nia). nia.
  - unfold chs_decode, chs_to_chs_addr. cbn [head sector cylinder h cs c8]. fold hs ss.
    pose proof (Z.mod_pos_bound (lba / ss) hs ltac:(lia)).
    pose proof (Z.mod_pos_bound lba ss ltac:(lia)).
    rewrite cs_byte by lia. change 0xFF with (2 ^ 8 - 1). change 0x3F with (2 ^ 6 - 1).
    rewrite !land_low_mod by lia. unfold u8. change (2 ^ 8) with 256. change (2 ^ 6) with 64.
    rewrite Zmod_mod, (Z.mod_small (_ mod hs)) by lia.
    rewrite Z.shiftr_div_pow2, Z.shiftl_mul_pow2 by lia. change (2 ^ 8) with 256. change (2 ^ 6) with 64.
    replace (lba mod ss + 1 + 64 * (c / 256)) with (lba mod ss + 1 + c / 256 * 64) by lia.
    rewrite Z.div_add, Z.mod_add by lia.
    rewrite (Z.div_small (lba mod ss + 1)), (Z.mod_small (lba mod ss + 1)) by lia.
    pose proof (Z.div_mod c 256 ltac:(lia)).
    pose proof (Z.div_mod lba ss ltac:(lia)). pose proof (Z.div_mod (lba / ss) hs ltac:(lia)).
    assert (c = lba / ss / hs) as -> by (subst c; rewrite (Z.mul_comm hs), Z.div_div; lia).
    nia.
Qed.

Lemma chs_roundtrip_witness :
  match lba_to_chs 12345 g_assumed_geometry with
  | (FDISK_RESULT_OK, Some c) => chs_decode g_assumed_geometry (chs_to_chs_addr c) = 12345
  | (FDISK_ERR_LBA_OUT_OF_CHS_RANGE, None) => 1024 * (2 * 32) <= 12345
  | _ => False
  end.
Proof. apply (chs_roundtrip g_assumed_geometry 12345); cbn; lia. Defined.

(** ** Records as bytes *)

Lemma slice_app_skip {A} (l1 l2 : list A) off len :
  slice (length l1 + off) len (l1 ++ l2) = slice off len l2.
Proof. unfold slice. rewrite <- drop_drop. by rewrite drop_app_length. Qed.

Lemma le4_encode z : exists b0 b1 b2 b3, le_encode 4 z = [b0; b1; b2; b3].
Proof. by eexists _, _, _, _. Qed.

Definition two_entries (e0 e1 : PartitionEntry) : BootRecord :=
  Boot_record (replicate 446 0) [e0; e1; zero_entry; zero_entry] 0xAA55.

Definition entry_view (e : PartitionEntry) : Z * Z * Z :=
  (part_type e, u32 (lba_part_start e), u32 (part_size e)).

Lemma parse_two_entries e0 e1 :
  slice 510 2 (record_bytes (two_entries e0 e1)) = [0x55; 0xAA] /\
  parse_entry 446 (record_bytes (two_entries e0 e1)) = entry_view e0 /\
  parse_entry 462 (record_bytes (two_entries e0 e1)) = entry_view e1.
Proof.
  assert (Hnth : forall off (l : list Z), nth (446 + off) (replicate 446 0 ++ l) 0 = nth off l 0).
  { intros off l. rewrite app_nth2; rewrite length_replicate; [f_equal; lia|lia]. }
  assert (Hsl : forall off len (l : list Z),
    slice (446 + off) len (replicate 446 0 ++ l) = slice off len l).
  { intros off len l. pose proof (slice_app_skip (replicate 446 0) l off len) as Hs.
    by rewrite length_replicate in Hs. }
  unfold entry_view, u32. change (2 ^ 32) with (256 ^ Z.of_nat 4).
  rewrite <- !le_decode_encode. unfold parse_entry, record_bytes, two_entries, entry_bytes.
  cbn [unused entries signature map concat].
  destruct (le4_encode (lba_part_start e0)) as (? & ? & ? & ? & ->).
  destruct (le4_encode (part_size e0)) as (? & ? & ? & ? & ->).
  destruct (le4_encode (lba_part_start e1)) as (? & ? & ? & ? & ->).
  destruct (le4_encode (part_size e1)) as (? & ? & ? & ? & ->).
  change 510%nat with (446 + 64)%nat. change 462%nat with (446 + 16)%nat.
  change (446 + 16 + 4)%nat with (446 + 20)%nat. change (446 + 16 + 8)%nat with (446 + 24)%nat.
  change (446 + 16 + 12)%nat with (446 + 28)%nat.
  rewrite !Hsl, !Hnth. done.
Qed.

(** ** The states add_partition goes through *)

Definition part_entry (size : Z) : PartitionEntry :=
  build_ebr_part_entry zero_entry 0xE 32 0 (u32 (size - 32)) g_assumed_geometry.

Definition link_entry (base pos size : Z) : PartitionEntry :=
  build_ebr_part_entry zero_entry 0xF pos base size g_assumed_geometry.

Lemma align_up_spec n : 0 <= n -> n <= align_up n < n + 32 /\ align_up n mod 32 = 0.
Proof.
  intros Hn. unfold align_up. rewrite Z.mod_mul by lia.
  pose proof (Z.div_mod (n + 31) 32). pose proof (Z.mod_pos_bound (n + 31) 32). lia.
Qed.

Lemma align_up_id n : n mod 32 = 0 -> align_up n = n.
Proof.
  intros Hn. unfold align_up. pose proof (Z.div_mod n 32 ltac:(lia)).
  replace (n + 31) with (31 + n / 32 * 32) by lia. rewrite Z.div_add by lia.
  rewrite (Z.div_small 31) by lia. lia.
Qed.

Lemma align_next_spec size s :
  alignment s = 32 -> 0 <= next_offset s + size -> next_offset s + size + 32 <= 2 ^ 32 ->
  align_next size s = set_next (align_up (next_offset s + size)) s.
Proof.
  intros Ha H0 H1. unfold align_next. rewrite Ha, (u32_small (_ + size)) by lia.
  set (n := next_offset s + size) in *. pose proof (Z.mod_pos_bound n 32 ltac:(lia)).
  destruct (n mod 32 =? 0) eqn:E; bool_to_prop; simpl.
  - by rewrite align_up_id.
  - rewrite u32_small by lia. f_equal. unfold align_up.
    pose proof (Z.div_mod n 32 ltac:(lia)).
    replace (n + 31) with (n mod 32 + 31 + n / 32 * 32) by lia. rewrite Z.div_add by lia.
    replace (n mod 32 + 31) with (n mod 32 - 1 + 1 * 32) by lia.
    rewrite Z.div_add, Z.div_small by lia. lia.
Qed.

(** The state with [n] partitions, the next slot at [pos]. *)
Definition fstate (size_d base pos : Z) (n : nat) (ps : list Partition) : FdiskState :=
  Fdisk_state g_assumed_geometry size_d pos 32 base n ps.

Definition last_part (pos size : Z) : Partition :=
  Partition_at pos (two_entries (part_entry size) zero_entry).

Lemma add_first size_d pos size ps :
  0 <= pos -> pos mod 32 = 0 -> 0 <= size -> pos + size + 32 <= 2 ^ 32 ->
  add_partition 0xE size (fstate size_d 0 pos 0 ps)
  = Some (fstate size_d pos (align_up (pos + size)) 1 (<[0%nat := last_part pos size]> ps)).
Proof.
  intros. unfold add_partition, fstate. cbn [num_partitions].
  rewrite (align_next_spec 0) by (cbn; lia). unfold set_next at 1. cbn [next_offset].
  rewrite Z.add_0_r, align_up_id by done. unfold set_next.
  cbn [num_partitions geometry disk_size alignment ebr_base partitions next_offset].
  rewrite bool_decide_true by lia. rewrite align_next_spec by (cbn; lia). done.
Qed.

Lemma add_next size_d base pos size n ps p :
  (S n < 16)%nat -> 0 <= pos -> pos mod 32 = 0 -> 0 <= size -> pos + size + 32 <= 2 ^ 32 ->
  ps !! n = Some (last_part p base) ->
  forall base0, add_partition 0xE size (fstate size_d base0 pos (S n) ps)
  = Some (fstate size_d base0 (align_up (pos + size)) (S (S n))
            (<[S n := last_part pos size]>
              (<[n := Partition_at p (two_entries (part_entry base) (link_entry base0 pos size))]> ps))).
Proof.
  intros Hn Hp Hm Hs Hb Hl base0. unfold add_partition, fstate. cbn [num_partitions].
  rewrite (align_next_spec 0) by (cbn; lia). unfold set_next at 1. cbn [next_offset].
  rewrite Z.add_0_r, align_up_id by done. unfold set_next.
  cbn [num_partitions geometry disk_size alignment ebr_base partitions next_offset].
  rewrite bool_decide_true by lia. rewrite align_next_spec by (cbn; lia).
  unfold set_next. cbn [num_partitions geometry disk_size alignment ebr_base partitions next_offset].
  do 2 f_equal. f_equal. apply list_eq. intros i. destruct (decide (i = n)) as [->|Hne].
  - rewrite list_lookup_alter_eq, list_lookup_insert_eq, Hl by (by eapply lookup_lt_Some). done.
  - by rewrite list_lookup_alter_ne, list_lookup_insert_ne by done.
Qed.

(** ** What ends up on the flash *)

Section written.
Context {D : Type} {HL : LFlash D} {HLL : LFlashLaws D}.

Lemma write_record_ret lba r (d d' : D) :
  write_record lba r d = (Ret tt, d') ->
  lflash_read d' lba = record_bytes r /\
  forall lba', lba' <> lba -> lflash_read d' lba' = lflash_read d lba'.
Proof.
  unfold write_record. destruct (lflash_write_sectors lba (record_bytes r) d) as [c d1] eqn:E.
  intros Hr. assert (c = 0 /\ d1 = d') as [-> ->] by (destruct c; simplify_eq; done).
  split; [by eapply write_stores|]. intros. by eapply write_frame.
Qed.

Lemma write_all_ret ps (d d' : D) :
  NoDup (map sector_lba ps) ->
  for_each ps (fun p => write_record (sector_lba p) (record p)) d = (Ret tt, d') ->
  (forall p, p ∈ ps -> lflash_read d' (sector_lba p) = record_bytes (record p)) /\
  forall lba, lba ∉ map sector_lba ps -> lflash_read d' lba = lflash_read d lba.
Proof.
  revert d. induction ps as [|p ps IH]; intros d Hnd Hrun; cbn [for_each map] in *.
  - injection Hrun as <-. split; [intros p Hp; by apply elem_of_nil in Hp|done].
  - apply bind_Ret in Hrun as ([] & d1 & H1 & H2). apply NoDup_cons in Hnd as [Hp Hnd].
    destruct (write_record_ret _ _ _ _ H1) as [Hw Hf]. destruct (IH d1 Hnd H2) as [Ha Hb]. split.
    + intros x Hx. apply elem_of_cons in Hx as [->|Hx]; [|by apply Ha].
      by rewrite Hb, Hw.
    + intros lba Hl. apply not_elem_of_cons in Hl as [? ?]. by rewrite Hb, Hf.
Qed.

(** Walking over records written like fdisk's. *)
Lemma walk_link fuel rd base cur pos size size' :
  rd cur = record_bytes (two_entries (part_entry size) (link_entry base pos size')) ->
  32 <= size <= 2 ^ 32 -> 0 <= pos - base < 2 ^ 32 ->
  walk (S fuel) rd base cur
  = (fun l => (0xE, cur + 32, size - 32) :: l) <$> walk fuel rd base pos.
Proof.
  intros Hrd Hs Hp. cbn [walk]. rewrite Hrd.
  destruct (parse_two_entries (part_entry size) (link_entry base pos size')) as (-> & -> & ->).
  rewrite bool_decide_true by done. unfold entry_view, part_entry, link_entry, build_ebr_part_entry.
  cbn [part_type lba_part_start part_size].
  rewrite (u32_small (u32 (pos - base))), (u32_small (pos - base)) by (apply u32_range || lia).
  rewrite (u32_small (u32 (size - 32))), (u32_small (size - 32)) by (apply u32_range || lia).
  replace (base + (pos - base)) with pos by lia. done.
Qed.

Lemma walk_last fuel rd base cur size :
  rd cur = record_bytes (two_entries (part_entry size) zero_entry) -> 32 <= size <= 2 ^ 32 ->
  walk (S fuel) rd base cur = Some [(0xE, cur + 32, size - 32)].
Proof.
  intros Hrd Hs. cbn [walk]. rewrite Hrd.
  destruct (parse_two_entries (part_entry size) zero_entry) as (-> & -> & ->).
  rewrite bool_decide_true by done. unfold entry_view, part_entry, build_ebr_part_entry.
  cbn [part_type lba_part_start part_size].
  rewrite (u32_small (u32 (size - 32))), (u32_small (size - 32)) by (apply u32_range || lia). done.
Qed.

(** The four partitions as they are written. *)
Definition four_parts (p0 f0 p1 f1 p2 f2 p3 f3 : Z) : list Partition :=
  [Partition_at p0 (two_entries (part_entry f0) (link_entry p0 p1 f1));
   Partition_at p1 (two_entries (part_entry f1) (link_entry p0 p2 f2));
   Partition_at p2 (two_entries (part_entry f2) (link_entry p0 p3 f3));
   last_part p3 f3].

Definition slot (pos size : Z) : Z := align_up (pos + size).

Lemma fdisk_run f0 f1 f2 f3 (d : D) :
  Forall (fun s => 32 <= s) [f0; f1; f2; f3] -> f0 + f1 + f2 + f3 + 256 <= 2 ^ 32 ->
  let p1 := slot 64 f0 in let p2 := slot p1 f1 in let p3 := slot p2 f2 in
  fdisk true f0 f1 f2 f3 d =
    (write_record 0 (two_entries (link_entry 0 64 (u32 (u32 lflash_get_size - 64))) zero_entry) ;;
     for_each (four_parts 64 f0 p1 f1 p2 f2 p3 f3) (fun p => write_record (sector_lba p) (record p)) ;;
     modify lflash_sync ;; ret FDISK_RESULT_OK) d.
Proof.
  intros Hs Hsum p1 p2 p3. rewrite !Forall_cons in Hs. destruct Hs as (Hf0 & Hf1 & Hf2 & Hf3 & _).
  destruct (align_up_spec (64 + f0) ltac:(lia)) as [H1 H1m]. fold (slot 64 f0) in *. fold p1 in H1, H1m.
  destruct (align_up_spec (p1 + f1) ltac:(lia)) as [H2 H2m]. fold (slot p1 f1) in *. fold p2 in H2, H2m.
  destruct (align_up_spec (p2 + f2) ltac:(lia)) as [H3 H3m]. fold (slot p2 f2) in *. fold p3 in H3, H3m.
  unfold fdisk. cbn [negb]. unfold build_mbr. rewrite align_next_spec by (cbn; lia).
  change (set_next (align_up _) _)
    with (fstate (u32 lflash_get_size) 0 64 0 (replicate 16 (Partition_at 0 zero_record))).
  apply bind_cong. intros [] d1.
  erewrite bind_deref by (apply add_first; first [lia | done]). fold (slot 64 f0). fold p1.
  erewrite bind_deref by (eapply add_next; first [lia | done]). fold (slot p1 f1). fold p2.
  erewrite bind_deref by (eapply add_next; first [lia | done]). fold (slot p2 f2). fold p3.
  erewrite bind_deref by (eapply add_next; first [lia | done]). done.
Qed.

(** Partitions in ascending order, each ending before the next one's record,
    each beginning at a multiple of 32 sectors. *)
Definition well_separated (l : list (Z * Z * Z)) : Prop :=
  StronglySorted (fun a b => a.1.2 + a.2 <= b.1.2 - 32) l /\
  Forall (fun a => a.1.2 mod 32 = 0 /\ 64 < a.1.2) l.

Lemma layout_lower pos sizes a :
  0 <= pos -> Forall (fun s => 32 <= s) sizes -> a ∈ layout pos sizes -> pos + 32 <= a.1.2.
Proof.
  revert pos. induction sizes as [|s sizes IH]; intros pos Hp Hs Ha; cbn [layout] in Ha;
    [by apply elem_of_nil in Ha|].
  apply Forall_cons in Hs as [Hs0 Hs]. apply elem_of_cons in Ha as [->|Ha]; [simpl; lia|].
  destruct (align_up_spec (pos + s) ltac:(lia)) as [? _]. apply IH in Ha; [lia|lia|done].
Qed.

Lemma layout_separated pos sizes :
  32 < pos -> pos mod 32 = 0 -> Forall (fun s => 32 <= s) sizes ->
  StronglySorted (fun a b => a.1.2 + a.2 <= b.1.2 - 32) (layout pos sizes) /\
  Forall (fun a => a.1.2 mod 32 = 0 /\ 64 < a.1.2) (layout pos sizes).
Proof.
  revert pos. induction sizes as [|s sizes IH]; intros pos Hp Hm Hs; cbn [layout];
    [split; constructor|].
  apply Forall_cons in Hs as [Hs0 Hs]. destruct (align_up_spec (pos + s) ltac:(lia)) as [Ha Ham].
  destruct (IH (align_up (pos + s)) ltac:(lia) Ham Hs) as [IH1 IH2]. split.
  - constructor; [done|]. apply Forall_forall. intros b Hb. simpl.
    apply layout_lower in Hb; [lia|lia|done].
  - constructor; [|done]. simpl. split; [|lia].
    pose proof (Z.div_mod pos 32 ltac:(lia)). replace (pos + 32) with (0 + (pos / 32 + 1) * 32) by lia.
    by rewrite Z.mod_add.
Qed.

(** C2: when fdisk reports success, the sectors on the flash describe exactly
    the four requested FAT16 partitions: a reader that follows the master boot
    record and the chain of extended boot records finds them with the sizes
    asked for (less the 32 sectors of each record), aligned to 32 sectors,
    in order and without overlap. *)
Theorem fdisk_partitions f0 f1 f2 f3 (d d' : D) :
  Forall (fun s => 32 <= s) [f0; f1; f2; f3] -> f0 + f1 + f2 + f3 + 256 <= 2 ^ 32 ->
  fdisk true f0 f1 f2 f3 d = (Ret FDISK_RESULT_OK, d') ->
  read_partitions (lflash_read d') = Some (layout 64 [f0; f1; f2; f3]) /\
  well_separated (layout 64 [f0; f1; f2; f3]).
Proof.
  intros Hs Hsum. rewrite fdisk_run by done. intros Hrun.
  split; [|apply layout_separated; [lia|done|done]].
  rewrite !Forall_cons in Hs. destruct Hs as (Hf0 & Hf1 & Hf2 & Hf3 & _).
  destruct (align_up_spec (64 + f0) ltac:(lia)) as [H1 _]. fold (slot 64 f0) in H1.
  set (p1 := slot 64 f0) in *.
  destruct (align_up_spec (p1 + f1) ltac:(lia)) as [H2 _]. fold (slot p1 f1) in H2.
  set (p2 := slot p1 f1) in *.
  destruct (align_up_spec (p2 + f2) ltac:(lia)) as [H3 _]. fold (slot p2 f2) in H3.
  set (p3 := slot p2 f2) in *.
  apply bind_Ret in Hrun as ([] & d1 & Hmbr & Hrun).
  apply bind_Ret in Hrun as ([] & d2 & Hparts & Hrun). injection Hrun as <-.
  apply write_record_ret in Hmbr as [Hmbr _].
  apply write_all_ret in Hparts as [Hparts Hframe].
  2: { simpl. rewrite !NoDup_cons. repeat split; try apply NoDup_nil_2; try (set_solver by lia). }
  assert (Hrd : forall p, p ∈ four_parts 64 f0 p1 f1 p2 f2 p3 f3 ->
    lflash_read (lflash_sync d2) (sector_lba p) = record_bytes (record p))
    by (intros p Hp; rewrite sync_reads; by apply Hparts).
  unfold read_partitions. rewrite sync_reads, Hframe, Hmbr by (simpl; set_solver by lia).
  destruct (parse_two_entries (link_entry 0 64 (u32 (u32 lflash_get_size - 64))) zero_entry)
    as (-> & -> & _). rewrite bool_decide_true by done.
  unfold entry_view. change (part_type (link_entry _ _ _) =? 15) with true. cbn [lba_part_start link_entry build_ebr_part_entry].
  change (u32 (u32 (64 - 0))) with 64.
  rewrite (walk_link _ _ 64 64 p1 f0 f1); [|apply (Hrd (Partition_at 64 _)); set_solver|lia..].
  rewrite (walk_link _ _ 64 p1 p2 f1 f2); [|apply (Hrd (Partition_at p1 _)); set_solver|lia..].
  rewrite (walk_link _ _ 64 p2 p3 f2 f3); [|apply (Hrd (Partition_at p2 _)); set_solver|lia..].
  rewrite (walk_last _ _ 64 p3 f3); [|apply (Hrd (last_part p3 f3)); set_solver|lia]. done.
Qed.

(** fdisk always returns, without leaving its tables: with success or, if
    the driver refuses a sector, with the write error. *)
Theorem fdisk_total f0 f1 f2 f3 (d : D) :
  Forall (fun s => 32 <= s) [f0; f1; f2; f3] -> f0 + f1 + f2 + f3 + 256 <= 2 ^ 32 ->
  exists d', fdisk true f0 f1 f2 f3 d = (Ret FDISK_RESULT_OK, d')
    \/ fdisk true f0 f1 f2 f3 d = (Err FDISK_ERR_WRITE, d').
Proof.
  intros Hs Hsum. rewrite fdisk_run by done.
  assert (Hw : forall lba r (d0 : D), (exists d1, write_record lba r d0 = (Ret tt, d1)) \/
    exists d1, write_record lba r d0 = (Err FDISK_ERR_WRITE, d1)).
  { intros lba r d0. unfold write_record.
    destruct (lflash_write_sectors lba (record_bytes r) d0) as [[]]; eauto. }
  assert (Hall : forall ps (d0 : D), exists d1,
    for_each ps (fun p => write_record (sector_lba p) (record p)) d0 = (Ret tt, d1) \/
    for_each ps (fun p => write_record (sector_lba p) (record p)) d0 = (Err FDISK_ERR_WRITE, d1)).
  { induction ps as [|p ps IH]; intros d0; cbn [for_each]; [by exists d0; left|].
    destruct (Hw (sector_lba p) (record p) d0) as [[d1 E]|[d1 E]];
      [rewrite (bind_run _ _ _ _ _ E); apply IH|].
    exists d1. right. by apply bind_err. }
  destruct (Hw 0 (two_entries (link_entry 0 64 (u32 (u32 lflash_get_size - 64))) zero_entry) d)
    as [[d1 E]|[d1 E]]; [rewrite (bind_run _ _ _ _ _ E)|exists d1; right; by apply bind_err].
  match goal with |- context [for_each ?ps _] => destruct (Hall ps d1) as (d2 & [E2|E2]) end.
  - rewrite (bind_run _ _ _ _ _ E2). eexists. by left.
  - exists d2. right. by apply bind_err.
Qed.
End written.

(** ** A flash that works, and one that fails *)

(** Sectors from [bad] on cannot be written. *)
Definition sample_flash (bad : Z) : LFlash (gmap Z (list Z)) := {|
  lflash_get_size := 0x10000;
  lflash_write_sectors lba bs d := if lba <? bad then (0, <[lba := bs]> d) else (1, d);
  lflash_sync d := d;
  lflash_read d lba := default [] (d !! lba)
|}.

#[export] Instance sample_flash_laws bad : @LFlashLaws _ (sample_flash bad).
Proof.
  split; cbn.
  - intros lba bs d d'. destruct (lba <? bad); intros Hr; simplify_eq. by rewrite lookup_insert_eq.
  - intros lba lba' bs d r d'. destruct (lba <? bad); intros Hr Hne; simplify_eq; [|done].
    by rewrite lookup_insert_ne.
  - done.
Qed.

(** The sizes of the small layout of states/partitionflashstate.c. *)
Lemma fdisk_partitions_witness :
  let I := sample_flash (2 ^ 32) in
  let d' := snd (fdisk true 0xC000 0x2000 0x0800 0x780 (∅ : gmap Z (list Z))) in
  read_partitions (lflash_read d') = Some (layout 64 [0xC000; 0x2000; 0x0800; 0x780]) /\
  well_separated (layout 64 [0xC000; 0x2000; 0x0800; 0x780]).
Proof.
  intros I d'. apply (fdisk_partitions (HL := I) 0xC000 0x2000 0x0800 0x780 ∅ d').
  - repeat constructor; lia.
  - lia.
  - assert (Hf : fst (fdisk (HL := I) true 0xC000 0x2000 0x0800 0x780 ∅) = Ret FDISK_RESULT_OK)
      by (vm_compute; reflexivity).
    subst d'. by destruct (fdisk (HL := I) true 0xC000 0x2000 0x0800 0x780 ∅) eqn:E; simpl in Hf; subst.
Defined.

Lemma fdisk_total_witness :
  let I := sample_flash 0x100 in
  exists d', fdisk true 0xC000 0x2000 0x0800 0x780 (∅ : gmap Z (list Z)) = (Ret FDISK_RESULT_OK, d')
    \/ fdisk true 0xC000 0x2000 0x0800 0x780 ∅ = (Err FDISK_ERR_WRITE, d').
Proof.
  intros I. apply (fdisk_total (HL := I) 0xC000 0x2000 0x0800 0x780 ∅);
    [repeat constructor; lia|lia].
Defined.
