(* ===== verification/Crypt.v ===== *)
(** * Decrypting and personalising executables (app/aiseirigh)

    crypt.c, prx.c, prxtype2.c, prxtype8.c and personalisation.c.  The KIRK
    crypto engine (iplsdk's kirk.h, and the silicon behind it) is a class: each
    command maps the bytes it reads to the bytes it writes. *)

From stdpp Require Import prelude list.
From Stdlib Require Import ZArith Lia.
From S2P Require Import Prelude CMem.

Open Scope Z_scope.
Open Scope lk_scope.

(** ** The KIRK engine *)

(** Commands 5 and 7 read a header of 0x14 bytes, whose last word is the size,
    and that many bytes of data; command 1 reads its block and what follows.
    [None] is an error code. *)
Class Kirk := {
  kirk1 : list Z -> option (list Z);
  kirk5 : list Z -> option (list Z);
  kirk7 : list Z -> option (list Z)
}.

Definition kirk_header (mode keyslot size : Z) : list Z :=
  le_encode 4 mode ++ le_encode 4 0 ++ le_encode 4 0 ++ le_encode 4 keyslot ++ le_encode 4 size.

(** Command 7 writes the plaintext, command 5 a header and the ciphertext;
    command 1 writes no more than it was given. *)
Class KirkLaws `{Kirk} : Prop := {
  kirk7_length : forall hdr data out, length hdr = 0x14%nat ->
    kirk7 (hdr ++ data) = Some out -> length out = length data;
  kirk5_length : forall hdr data out, length hdr = 0x14%nat ->
    kirk5 (hdr ++ data) = Some out -> length out = (0x14 + length data)%nat;
  kirk1_length : forall block out, kirk1 block = Some out -> (length out <= length block)%nat
}.

(** ** Memory accesses *)

(** The scratch memory the wrappers build their commands in, at 0xBFC00C00. *)
Definition SCRATCH_SIZE : nat := 0x400.

Definition CM (A : Type) : Type := M (list Z) Empty_set A.

(** Reading and writing [len] bytes of an object; outside of it is a fault. *)
Definition rd {S E} (off len : nat) (m : list Z) : M S E (list Z) :=
  if bool_decide (off + len <= length m)%nat then ret (slice off len m) else fault.

Definition wr {S E} (off : nat) (bs m : list Z) : M S E (list Z) :=
  if bool_decide (off + length bs <= length m)%nat then ret (splice off bs m) else fault.

(** The engine reads its command from the start of [mem], taking the size of
    the data from the header. *)
Definition kirk_input (mem : list Z) : list Z :=
  slice 0 (0x14 + Z.to_nat (le_decode (slice 0x10 4 mem))) mem.

(** ** crypt.c *)

Section crypt.
Context `{Kirk}.

Definition kirk7_decrypt (src : list Z) (len : nat) (keyid : Z) : CM (Z * list Z) :=
  if bool_decide (0x400 - 0x14 < len)%nat then ret (-1, [])
  else
    let* data := rd 0 len src in
    let* mem := get in
    let* mem := wr 0x14 data mem in
    let* mem := wr 0 (kirk_header 5 keyid (Z.of_nat len)) mem in
    put mem ;;
    match kirk7 (kirk_input mem) with
    | None => ret (-2, [])
    | Some out =>
        let* mem := wr 0 out mem in
        put mem ;;
        let* res := rd 0 len mem in
        ret (0, res)
    end.

Definition kirk5_encrypt (src : list Z) (len : nat) : CM (Z * list Z) :=
  if bool_decide (0x400 - 0x14 < len)%nat then ret (-1, [])
  else
    let* data := rd 0 len src in
    let* mem := get in
    let* mem := wr 0x14 data mem in
    let* mem := wr 0 (kirk_header 4 0x100 (Z.of_nat len)) mem in
    put mem ;;
    match kirk5 (kirk_input mem) with
    | None => ret (-2, [])
    | Some out =>
        let* mem := wr 0 out mem in
        put mem ;;
        let* res := rd 0x14 len mem in
        ret (0, res)
    end.

(** ** prx.c *)

Inductive PrxType := PRX_TYPE_2 | PRX_TYPE_8.

Record PrxMetaType := Prx_meta { tag : Z; keyid : Z; type : PrxType; seed : list Z }.

Inductive PrxDecryptResult :=
| PRX_DECRYPT_RESULT_OK | PRX_DECRYPT_ERR_UNSUPPORTED | PRX_DECRYPT_ERR_KIRK1
| PRX_DECRYPT_ERR_KIRK7.

#[export] Instance prx_result_eq_dec : EqDecision PrxDecryptResult.
Proof. solve_decision. Defined.

Definition xor_bytes (a b : list Z) : list Z := zip_with Z.lxor a b.

(** ** prxtype2.c *)

(** [expanded_seed] before the decryption: nine copies of the seed, each with its
    number in the first byte. *)
Fixpoint seed_blocks (n : nat) (i : Z) (s : list Z) : list Z :=
  match n with
  | O => []
  | S n' => (i :: drop 1 (take 0x10 s)) ++ seed_blocks n' (i + 1) s
  end.

Definition expand_seed (mt : PrxMetaType) : CM (option (list Z)) :=
  let* s := rd 0 0x10 (seed mt) in
  let* kr := kirk7_decrypt (seed_blocks 9 0 s) 0x90 (keyid mt) in
  ret (if fst kr <? 0 then None else Some (snd kr)).

(** The decryption of the image in place: the result and the image. *)
Definition prx2_decrypt (image : list Z) (mt : PrxMetaType) : CM (PrxDecryptResult * list Z) :=
  let* xr := expand_seed mt in
  match xr with
  | None => ret (PRX_DECRYPT_ERR_KIRK7, image)
  | Some xorbuf =>
      (* the PrxType2 structure, field by field *)
      let* personalisation := rd 0xD0 0x5C image in
      let* btcnf_id := rd 0x140 0x10 image in
      let* sha1_hash := rd 0x12C 0x14 image in
      let* kirk_aes_key := rd 0x80 0x10 image in
      let* kirk_cmac_key := rd 0x90 0x10 image in
      let* kirk_header_hash := rd 0xA0 0x10 image in
      let* kirk_data_hash := rd 0xC0 0x10 image in
      let* kirk_metadata := rd 0xB0 0x10 image in
      let* elf_info := rd 0x00 0x80 image in
      let header := personalisation ++ btcnf_id ++ sha1_hash ++ kirk_aes_key ++ kirk_cmac_key
                    ++ kirk_header_hash ++ kirk_data_hash ++ kirk_metadata ++ elf_info in
      (* decrypt the header from btcnf_id on *)
      let* enc := rd 0x5C 0x60 header in
      let* k7 := kirk7_decrypt enc 0x60 (keyid mt) in
      if fst k7 <? 0 then ret (PRX_DECRYPT_ERR_KIRK7, image)
      else
        let* header := wr 0x5C (snd k7) header in
        let* kirk_aes_key := rd 0x80 0x10 header in
        let* kirk_cmac_key := rd 0x90 0x10 header in
        let* kirk_header_hash := rd 0xA0 0x10 header in
        let* kirk_data_hash := rd 0xB0 0x10 header in
        let kirk_block := kirk_aes_key ++ kirk_cmac_key ++ kirk_header_hash ++ kirk_data_hash in
        let* x1 := rd 0x10 0x40 xorbuf in
        let* k7 := kirk7_decrypt (xor_bytes kirk_block x1) 0x40 (keyid mt) in
        if fst k7 <? 0 then ret (PRX_DECRYPT_ERR_KIRK7, image)
        else
          let* x2 := rd 0x50 0x40 xorbuf in
          let kirk_block := xor_bytes (snd k7) x2 in
          let* kirk_metadata := rd 0xC0 0x10 header in
          let* elf_info := rd 0xD0 0x80 header in
          let* image := wr (0x40 + 0x00) kirk_block image in
          let* image := wr (0x40 + 0x40) (replicate 0x30 0) image in
          let* image := wr (0x40 + 0x70) kirk_metadata image in
          let* image := wr (0x40 + 0x80) (replicate 0x10 0) image in
          let* image := wr (0x40 + 0x90) elf_info image in
          let* image := wr (0x40 + 0x60) (le_encode 4 1) image in
          let* block := rd 0x40 (length image - 0x40) image in
          match kirk1 block with
          | None => ret (PRX_DECRYPT_ERR_KIRK1, image)
          | Some out => let* image := wr 0 out image in ret (PRX_DECRYPT_RESULT_OK, image)
          end
  end.

(** ** prxtype8.c *)

(** The hash over [sha_buf] is computed nowhere, so the buffer is left out. *)
Definition prx8_decrypt (image : list Z) (mt : PrxMetaType) : CM (PrxDecryptResult * list Z) :=
  let* h0 := rd 0xD0 0x80 image in
  let* h1 := rd 0x80 0x50 image in
  let* h2 := rd 0x00 0x80 image in
  let reorganised_header := h0 ++ h1 ++ h2 in
  let* k7 := kirk7_decrypt (seed mt) 0x90 (keyid mt) in
  if fst k7 <? 0 then ret (PRX_DECRYPT_ERR_KIRK7, image)
  else
    let xorbuf := snd k7 in
    let* kb := rd 0x40 0x70 reorganised_header in
    let* x1 := rd 0x14 0x70 xorbuf in
    let* k7 := kirk7_decrypt (xor_bytes kb x1) 0x70 (keyid mt) in
    if fst k7 <? 0 then ret (PRX_DECRYPT_ERR_KIRK7, image)
    else
      let* x2 := rd 0x20 0x70 xorbuf in
      let* m1 := rd 0xB0 0x20 reorganised_header in
      let* m2 := rd 0xD0 0x80 reorganised_header in
      let* image := wr (0x40 + 0x00) (xor_bytes (snd k7) x2) image in
      let* image := wr (0x40 + 0x70) m1 image in
      let* image := wr (0x40 + 0x90) m2 image in
      let* block := rd 0x40 (length image - 0x40) image in
      match kirk1 block with
      | None => ret (PRX_DECRYPT_ERR_KIRK1, image)
      | Some out => let* image := wr 0 out image in ret (PRX_DECRYPT_RESULT_OK, image)
      end.
(** ** prx.c: the table of tags *)

Definition g_0x0E000000_seed : list Z :=
  [0xDE; 0x57; 0xB7; 0x77; 0x17; 0xDD; 0x62; 0xEE; 0x7B; 0x78; 0x03; 0x5D; 0x44; 0x86; 0xCA;
   0x59; 0x20; 0x8D; 0xF6; 0x93; 0x28; 0x93; 0x81; 0x21; 0x71; 0x4E; 0xA7; 0x86; 0xCA; 0x82;
   0x24; 0x1B; 0x58; 0xAE; 0x74; 0x5F; 0x6C; 0x01; 0x8D; 0x56; 0x32; 0x88; 0x4D; 0x9A; 0x72;
   0x43; 0xA2; 0x2E; 0x84; 0xF4; 0x0C; 0x82; 0xB9; 0x06; 0xFC; 0xFC; 0x6A; 0xFB; 0x5B; 0x8A;
   0xD7; 0x9C; 0x9F; 0xBF; 0x01; 0x0D; 0x85; 0x15; 0xBA; 0x5F; 0xED; 0x39; 0x93; 0x83; 0xC3;
   0x4C; 0xAF; 0xDE; 0x3A; 0xED; 0xBF; 0x68; 0xA7; 0x1A; 0x77; 0x8A; 0xBD; 0x89; 0x65; 0x41;
   0x56; 0x46; 0xD9; 0xDB; 0x33; 0x73; 0x81; 0x6C; 0xE8; 0x62; 0x96; 0x9B; 0x29; 0x03; 0x5A;
   0xAE; 0xAF; 0x73; 0x20; 0x53; 0xA0; 0x40; 0xE8; 0x4B; 0x66; 0x10; 0x99; 0x6A; 0xB7; 0xE5;
   0x70; 0xDD; 0xE0; 0x29; 0x28; 0x24; 0x60; 0xEA; 0x30; 0xAE; 0x42; 0x20; 0x32; 0x8D; 0x6F;
   0x94; 0x71; 0x5F; 0x9E; 0xA2; 0xD5; 0x7F; 0x0C; 0x7C].

Definition g_0xD82310F0_seed : list Z :=
  [0x9D; 0x09; 0xFD; 0x20; 0xF3; 0x8F; 0x10; 0x69; 0x0D; 0xB2; 0x6F; 0x00; 0xCC; 0xC5; 0x51;
   0x2E].

Definition g_0xD8231EF0_seed : list Z :=
  [0x4F; 0x44; 0x5C; 0x62; 0xB3; 0x53; 0xC4; 0x30; 0xFC; 0x3A; 0xA4; 0x5B; 0xEC; 0xFE; 0x51;
   0xEA].

Definition g_0xD82328F0_seed : list Z :=
  [0x5D; 0xAA; 0x72; 0xF2; 0x26; 0x60; 0x4D; 0x1C; 0xE7; 0x2D; 0xC8; 0xA3; 0x2F; 0x79; 0xC5;
   0x54].

Definition g_prx_metatypes : list PrxMetaType :=
  [Prx_meta 0x0E000000 0x51 PRX_TYPE_8 g_0x0E000000_seed;
   Prx_meta 0xD82310F0 0x51 PRX_TYPE_2 g_0xD82310F0_seed;
   Prx_meta 0xD8231EF0 0x51 PRX_TYPE_2 g_0xD8231EF0_seed;
   Prx_meta 0xD82328F0 0x51 PRX_TYPE_2 g_0xD82328F0_seed].

Definition prx_tag (header : list Z) : Z := le_decode (slice 0xD0 4 header).
Definition prx_comp_size (header : list Z) : Z := le_decode (slice 0xB0 4 header).

Fixpoint prx_dispatch (l : list PrxMetaType) (t : Z) (data : list Z)
    : CM (PrxDecryptResult * list Z) :=
  match l with
  | [] => ret (PRX_DECRYPT_ERR_UNSUPPORTED, data)
  | mt :: l' =>
      if t =? tag mt then
        match type mt with
        | PRX_TYPE_2 => prx2_decrypt data mt
        | PRX_TYPE_8 => prx8_decrypt data mt
        end
      else prx_dispatch l' t data
  end.

(** The result, [*out_length] and the image. *)
Definition prx_decrypt (data : list Z) : CM (PrxDecryptResult * Z * list Z) :=
  let* header := rd 0 0x150 data in
  let* r := prx_dispatch g_prx_metatypes (prx_tag header) data in
  ret (fst r, prx_comp_size header, snd r).

(** ** personalisation.c *)

Inductive PersonalisationResult := PERSONALISATION_RESULT_OK | PERSONALISATION_ERR_ENCRYPT.

Definition g_personalisation_xor_before : list Z :=
  [0x71; 0xF6; 0xA8; 0x31; 0x1E; 0xE0; 0xFF; 0x1E; 0x50; 0xBA; 0x6C; 0xD2; 0x98; 0x2D; 0xD6; 0x2D].

Definition g_personalisation_xor_after : list Z :=
  [0xAA; 0x85; 0x4D; 0xB0; 0xFF; 0xCA; 0x47; 0xEB; 0x38; 0x7F; 0xD7; 0xE4; 0x3D; 0x62; 0xB0; 0x10].

(** [tmp[i] ^= key[i % sizeof(key)]] for all [i]. *)
Definition xor_cycle (key data : list Z) : list Z :=
  imap (fun i b => Z.lxor b (nth (i mod length key) key 0)) data.

Definition personalise (data : list Z) : CM (PersonalisationResult * list Z) :=
  let* t0 := rd 0x110 0x40 data in
  let* t1 := rd 0x80 0x90 data in
  let tmp := xor_cycle g_personalisation_xor_before (t0 ++ t1) in
  let* k5 := kirk5_encrypt tmp 0xD0 in
  if negb (fst k5 =? 0) then ret (PERSONALISATION_ERR_ENCRYPT, data)
  else
    let tmp := xor_cycle g_personalisation_xor_after (snd k5) in
    let* data := wr 0x80 tmp data in
    ret (PERSONALISATION_RESULT_OK, data).
End crypt.

(** ** Algebra of overlays *)

Section overlays.
Implicit Types (m a b : list Z).

Lemma splice_skip k a b b' :
  (k + length b' <= length b)%nat -> splice (length a + k) b' (a ++ b) = a ++ splice k b' b.
Proof.
  intros Hl. unfold splice. rewrite take_app_ge by lia. rewrite <- app_assoc. f_equal.
  f_equal; [f_equal; lia|]. f_equal. rewrite drop_app_ge by lia. f_equal. lia.
Qed.

End overlays.

(** ** What the wrappers compute *)

Section wrappers.
Context {HK : Kirk} {HKL : KirkLaws}.
Implicit Types (mem image data : list Z).

(** Decryption with a key slot, encryption with the console's own key. *)
Definition k7 (keyid : Z) data : option (list Z) :=
  kirk7 (kirk_header 5 keyid (Z.of_nat (length data)) ++ data).

Definition k5 data : option (list Z) :=
  drop 0x14 <$> kirk5 (kirk_header 4 0x100 (Z.of_nat (length data)) ++ data).

Lemma length_kirk_header mode slot size : length (kirk_header mode slot size) = 0x14%nat.
Proof. unfold kirk_header. by rewrite !length_app, !length_le_encode. Qed.

Lemma k7_length keyid data out : k7 keyid data = Some out -> length out = length data.
Proof. apply kirk7_length, length_kirk_header. Qed.

Lemma k5_length data out : k5 data = Some out -> length out = length data.
Proof.
  unfold k5. intros Ho. apply fmap_Some in Ho as (o & Ho & ->).
  apply kirk5_length in Ho; [|apply length_kirk_header]. rewrite length_drop. lia.
Qed.

Lemma wp_rd {E} off len (m : list Z) (Q : list Z -> list Z -> Prop) s :
  (off + len <= length m)%nat -> Q (slice off len m) s -> wp (E:=E) (rd off len m) Q s.
Proof. intros Hl HQ. unfold rd. by rewrite bool_decide_true. Qed.

Lemma wp_wr {E} off (bs m : list Z) (Q : list Z -> list Z -> Prop) s :
  (off + length bs <= length m)%nat -> Q (splice off bs m) s -> wp (E:=E) (wr off bs m) Q s.
Proof. intros Hl HQ. unfold wr. by rewrite bool_decide_true. Qed.

Lemma wp_wr_len {E} off (bs m : list Z) (Q : list Z -> list Z -> Prop) s :
  (off + length bs <= length m)%nat ->
  (forall m', m' = splice off bs m -> length m' = length m -> Q m' s) -> wp (E:=E) (wr off bs m) Q s.
Proof. intros Hl HQ. apply wp_wr; [done|]. apply HQ; [done|by apply length_splice]. Qed.

(** The command as the engine reads it. *)
Lemma kirk_input_command mode slot data mem :
  length mem = SCRATCH_SIZE -> (length data <= 0x400 - 0x14)%nat ->
  kirk_input (splice 0 (kirk_header mode slot (Z.of_nat (length data))) (splice 0x14 data mem))
  = kirk_header mode slot (Z.of_nat (length data)) ++ data.
Proof.
  intros Hm Hd. unfold SCRATCH_SIZE in Hm. set (hdr := kirk_header _ _ _).
  assert (Hh : length hdr = 0x14%nat) by apply length_kirk_header.
  assert (Hl : length (splice 0x14 data mem) = 0x400%nat) by (rewrite length_splice; lia).
  assert (Hsz : slice 0x10 4 (splice 0 hdr (splice 0x14 data mem)) = le_encode 4 (Z.of_nat (length data))).
  { apply list_eq. intros i. rewrite lookup_slice, lookup_splice by lia.
    destruct (decide (i < 4)%nat) as [Hi|Hi].
    - rewrite decide_True by lia. rewrite Nat.sub_0_r.
      subst hdr. unfold kirk_header. rewrite !app_assoc, lookup_app_r;
        rewrite !length_app, !length_le_encode; [f_equal; lia|lia].
    - symmetry. apply lookup_ge_None_2. rewrite length_le_encode. lia. }
  unfold kirk_input. rewrite Hsz, le_decode_encode, Z.mod_small by (change (256 ^ Z.of_nat 4) with (2 ^ 32); lia).
  rewrite Nat2Z.id. apply list_eq. intros i. rewrite lookup_slice, lookup_splice by lia.
  rewrite Nat.add_0_l, Nat.sub_0_r. rewrite lookup_splice by lia.
  repeat case_decide; try lia.
  - by rewrite lookup_app_l by lia.
  - rewrite lookup_app_r by lia. by rewrite Hh.
  - rewrite lookup_app_r by lia. symmetry. apply lookup_ge_None_2. lia.
Qed.

(** The common shape of the two wrappers: [cmd] is the engine's command, [skip]
    how much of its output is not data. *)
Lemma wp_kirk_command (cmd : list Z -> option (list Z)) mode slot skip data mem
    (Q : Z * list Z -> list Z -> Prop) :
  length mem = SCRATCH_SIZE -> (length data <= 0x400 - 0x14)%nat -> (skip <= 0x14)%nat ->
  (forall out, cmd (kirk_header mode slot (Z.of_nat (length data)) ++ data) = Some out ->
     length out = (skip + length data)%nat) ->
  (forall mem', length mem' = SCRATCH_SIZE ->
     Q (match option_map (drop skip) (cmd (kirk_header mode slot (Z.of_nat (length data)) ++ data)) with
        | Some out => (0, out) | None => (-2, []) end) mem') ->
  wp (S:=list Z) (E:=Empty_set) (A:=Z * list Z) (
      let* mem := get in
      let* mem := wr 0x14 data mem in
      let* mem := wr 0 (kirk_header mode slot (Z.of_nat (length data))) mem in
      put mem ;;
      match cmd (kirk_input mem) with
      | None => ret (-2, [])
      | Some out =>
          let* mem := wr 0 out mem in
          put mem ;;
          let* res := rd skip (length data) mem in
          ret (0, res)
      end) Q mem.
Proof.
  intros Hm Hlen Hskip Hout HQ. pose proof Hm as Hm'. unfold SCRATCH_SIZE in Hm'.
  apply wp_seq, wp_get. apply wp_seq, wp_wr; [lia|]. apply wp_seq, wp_wr.
  { rewrite length_kirk_header, length_splice; lia. }
  apply wp_seq, wp_put. rewrite kirk_input_command by (lia || done).
  set (m1 := splice 0 _ _). assert (Hl : length m1 = 0x400%nat).
  { subst m1. rewrite !length_splice; rewrite ?length_kirk_header, ?length_splice; lia. }
  destruct (cmd _) as [out|] eqn:E; [|by apply wp_ret, HQ].
  pose proof (Hout out eq_refl) as Ho.
  apply wp_seq, wp_wr; [lia|]. apply wp_seq, wp_put.
  apply wp_seq, wp_rd; [rewrite length_splice; lia|]. apply wp_ret.
  assert (Hs : slice skip (length data) (splice 0 out m1) = drop skip out).
  { apply list_eq. intros i. rewrite lookup_slice, lookup_splice, lookup_drop by lia.
    rewrite Nat.sub_0_r. repeat case_decide; try lia; [done|].
    symmetry. apply lookup_ge_None_2. lia. }
  rewrite Hs. apply HQ. by rewrite length_splice by lia.
Qed.

Lemma wp_kirk7_decrypt src len keyid mem (Q : Z * list Z -> list Z -> Prop) :
  length mem = SCRATCH_SIZE -> (len <= 0x400 - 0x14)%nat -> length src = len ->
  (forall mem', length mem' = SCRATCH_SIZE ->
     Q (match k7 keyid src with Some out => (0, out) | None => (-2, []) end) mem') ->
  wp (kirk7_decrypt src len keyid) Q mem.
Proof.
  intros Hm Hlen <- HQ. unfold kirk7_decrypt. rewrite bool_decide_false by lia.
  apply wp_seq, wp_rd; [lia|]. rewrite slice_all.
  apply (wp_kirk_command kirk7); [done|lia|lia|intros out; apply k7_length|].
  intros mem' Hm'. specialize (HQ mem' Hm'). fold (k7 keyid src). by destruct (k7 keyid src).
Qed.

Lemma wp_kirk5_encrypt src len mem (Q : Z * list Z -> list Z -> Prop) :
  length mem = SCRATCH_SIZE -> (len <= 0x400 - 0x14)%nat -> length src = len ->
  (forall mem', length mem' = SCRATCH_SIZE ->
     Q (match k5 src with Some out => (0, out) | None => (-2, []) end) mem') ->
  wp (kirk5_encrypt src len) Q mem.
Proof.
  intros Hm Hlen <- HQ. unfold kirk5_encrypt. rewrite bool_decide_false by lia.
  apply wp_seq, wp_rd; [lia|]. rewrite slice_all.
  apply (wp_kirk_command kirk5); [done|lia|lia| |exact HQ].
  intros out. apply kirk5_length, length_kirk_header.
Qed.
End wrappers.

(** ** What the decryptions compute *)

Section decryption.
Context {HK : Kirk} {HKL : KirkLaws}.
Implicit Types (mem image data : list Z).

(** Both types end alike: 0x110 bytes at 0x40 become the KIRK 1 command, whose
    output replaces the image from its start. *)
Definition kirk1_stage image (block : list Z) : PrxDecryptResult * list Z :=
  let image' := splice 0x40 block image in
  match kirk1 (drop 0x40 image') with
  | None => (PRX_DECRYPT_ERR_KIRK1, image')
  | Some out => (PRX_DECRYPT_RESULT_OK, splice 0 out image')
  end.

(** Type 2: the encrypted fields in the order they are decrypted in. *)
Definition prx2_header image : list Z :=
  slice 0xD0 0x5C image ++ slice 0x140 0x10 image ++ slice 0x12C 0x14 image ++ slice 0x80 0x30 image
  ++ slice 0xC0 0x10 image ++ slice 0xB0 0x10 image ++ slice 0 0x80 image.

Definition prx2_block image (keys : list Z) : list Z :=
  keys ++ replicate 0x20 0 ++ le_encode 4 1 ++ replicate 0xC 0 ++ slice 0xB0 0x10 image
  ++ replicate 0x10 0 ++ slice 0 0x80 image.

Definition prx2_spec image (mt : PrxMetaType) : PrxDecryptResult * list Z :=
  match k7 (keyid mt) (seed_blocks 9 0 (slice 0 0x10 (seed mt))) with
  | None => (PRX_DECRYPT_ERR_KIRK7, image)
  | Some x =>
      let header := prx2_header image in
      match k7 (keyid mt) (slice 0x5C 0x60 header) with
      | None => (PRX_DECRYPT_ERR_KIRK7, image)
      | Some fields =>
          let keys := slice 0x24 0x3C fields ++ slice 0xBC 4 header in
          match k7 (keyid mt) (xor_bytes keys (slice 0x10 0x40 x)) with
          | None => (PRX_DECRYPT_ERR_KIRK7, image)
          | Some kb => kirk1_stage image (prx2_block image (xor_bytes kb (slice 0x50 0x40 x)))
          end
      end
  end.

(** Type 8: only the keys, at 0x110 and 0x80, are encrypted. *)
Definition prx8_block image (keys : list Z) : list Z :=
  keys ++ slice 0xB0 0x20 image ++ slice 0 0x80 image.

Definition prx8_spec image (mt : PrxMetaType) : PrxDecryptResult * list Z :=
  match k7 (keyid mt) (seed mt) with
  | None => (PRX_DECRYPT_ERR_KIRK7, image)
  | Some x =>
      let keys := slice 0x110 0x40 image ++ slice 0x80 0x30 image in
      match k7 (keyid mt) (xor_bytes keys (slice 0x14 0x70 x)) with
      | None => (PRX_DECRYPT_ERR_KIRK7, image)
      | Some kb => kirk1_stage image (prx8_block image (xor_bytes kb (slice 0x20 0x70 x)))
      end
  end.

Lemma length_xor a b : length (xor_bytes a b) = Nat.min (length a) (length b).
Proof. apply length_zip_with. Qed.

Lemma length_seed_blocks n i s : length s = 0x10%nat -> length (seed_blocks n i s) = (n * 0x10)%nat.
Proof.
  intros Hs. revert i. induction n as [|n IH]; intros i; [done|]. cbn [seed_blocks].
  rewrite length_app, IH. cbn [length]. rewrite length_drop, length_take. lia.
Qed.

(** Pointwise equality of overlays and concatenations. *)
Lemma lookup_app_dec {A} (l1 l2 : list A) i :
  (l1 ++ l2) !! i = if decide (i < length l1)%nat then l1 !! i else l2 !! (i - length l1)%nat.
Proof. case_decide; [by rewrite lookup_app_l|by rewrite lookup_app_r by lia]. Qed.

Ltac pointwise :=
  apply list_eq; intros i;
  repeat first
    [ rewrite lookup_app_dec | rewrite lookup_slice
    | rewrite lookup_splice by (rewrite ?length_app, ?length_slice; lia) ];
  rewrite ?length_app, ?length_slice by lia;
  repeat case_decide; try lia; try (f_equal; lia); try done.

(** The last statements of both functions. *)
Lemma wp_kirk1_stage image block image' mem (Q : PrxDecryptResult * list Z -> list Z -> Prop) :
  image' = splice 0x40 block image -> length block = 0x110%nat -> (0x150 <= length image)%nat ->
  Q (kirk1_stage image block) mem ->
  wp (S:=list Z) (E:=Empty_set) (
    let* b := rd 0x40 (length image' - 0x40) image' in
    match kirk1 b with
    | None => ret (PRX_DECRYPT_ERR_KIRK1, image')
    | Some out => let* image := wr 0 out image' in ret (PRX_DECRYPT_RESULT_OK, image)
    end) Q mem.
Proof.
  intros -> Hb Hi HQ. set (image' := splice 0x40 block image).
  assert (Hl : length image' = length image) by (subst image'; rewrite length_splice; lia).
  apply wp_seq, wp_rd; [lia|].
  assert (Hs : slice 0x40 (length image' - 0x40) image' = drop 0x40 image').
  { unfold slice. apply take_ge. rewrite length_drop. lia. }
  rewrite Hs. unfold kirk1_stage in HQ. fold image' in HQ. cbv zeta in HQ.
  destruct (kirk1 (drop 0x40 image')) as [out|] eqn:E; [|by apply wp_ret].
  apply kirk1_length in E. rewrite length_drop in E.
  apply wp_seq, wp_wr; [lia|]. by apply wp_ret.
Qed.

(** Three adjacent writes. *)
Lemma write_three off (a b c m : list Z) :
  (off + (length a + length b) + length c <= length m)%nat ->
  splice (off + (length a + length b)) c (splice (off + length a) b (splice off a m))
  = splice off (a ++ b ++ c) m.
Proof.
  intros Hl. rewrite splice_splice_app by lia. rewrite app_assoc, <- (length_app a b).
  apply splice_splice_app. rewrite length_app. lia.
Qed.

Lemma prx8_runs image mt mem (Q : PrxDecryptResult * list Z -> list Z -> Prop) :
  length mem = SCRATCH_SIZE -> (0x150 <= length image)%nat -> length (seed mt) = 0x90%nat ->
  (forall mem', length mem' = SCRATCH_SIZE -> Q (prx8_spec image mt) mem') ->
  wp (prx8_decrypt image mt) Q mem.
Proof.
  intros Hm Hi Hseed HQ. unfold prx8_decrypt, prx8_spec in *.
  do 3 (apply wp_seq, wp_rd; [lia|]). cbv zeta.
  apply wp_seq, wp_kirk7_decrypt; [done|lia|done|]. intros mem1 Hm1.
  destruct (k7 (keyid mt) (seed mt)) as [x|] eqn:Ex; cbn [fst snd]; [|by apply wp_ret, HQ].
  pose proof (k7_length _ _ _ Ex) as Hx. rewrite Hseed in Hx.
  set (hdr := slice 0xD0 0x80 image ++ slice 0x80 0x50 image ++ slice 0x00 0x80 image).
  assert (Hh : length hdr = 0x150%nat)
    by (subst hdr; rewrite !length_app, !length_slice by lia; lia).
  apply wp_seq, wp_rd; [lia|]. apply wp_seq, wp_rd; [lia|].
  assert (Hk : slice 0x40 0x70 hdr = slice 0x110 0x40 image ++ slice 0x80 0x30 image)
    by (subst hdr; pointwise).
  assert (Hm1' : slice 0xB0 0x20 hdr = slice 0xB0 0x20 image) by (subst hdr; pointwise).
  assert (Hm2' : slice 0xD0 0x80 hdr = slice 0 0x80 image) by (subst hdr; pointwise).
  rewrite Hk. apply wp_seq, wp_kirk7_decrypt; [done|lia| |].
  { rewrite length_xor, length_app, !length_slice by lia. lia. }
  intros mem2 Hm2. cbv zeta in HQ.
  destruct (k7 (keyid mt) (xor_bytes _ _)) as [kb|] eqn:Ek; cbn [fst snd]; [|by apply wp_ret, HQ].
  pose proof (k7_length _ _ _ Ek) as Hkb.
  rewrite length_xor, length_app, !length_slice in Hkb by lia. cbn in Hkb.
  do 3 (apply wp_seq, wp_rd; [lia|]). rewrite Hm1', Hm2'.
  set (keys := xor_bytes kb (slice 0x20 0x70 x)) in *.
  assert (Hkeys : length keys = 0x70%nat)
    by (subst keys; rewrite length_xor, length_slice by lia; lia).
  apply wp_seq, wp_wr; [lia|]. apply wp_seq, wp_wr.
  { rewrite length_splice, length_slice by lia. lia. }
  apply wp_seq, wp_wr.
  { rewrite !length_splice, !length_slice by (rewrite ?length_splice, ?length_slice; lia). lia. }
  apply (wp_kirk1_stage image (prx8_block image keys)); [| |done|by apply HQ].
  - pose proof (write_three 0x40 keys (slice 0xB0 0x20 image) (slice 0 0x80 image) image) as Hs.
    rewrite Hkeys, !length_slice in Hs by lia. apply Hs. lia.
  - unfold prx8_block. rewrite !length_app, !length_slice by lia. lia.
Qed.

Lemma prx2_header_fields image :
  (0x150 <= length image)%nat ->
  slice 0xD0 0x5C image ++ slice 0x140 0x10 image ++ slice 0x12C 0x14 image ++ slice 0x80 0x10 image
  ++ slice 0x90 0x10 image ++ slice 0xA0 0x10 image ++ slice 0xC0 0x10 image ++ slice 0xB0 0x10 image
  ++ slice 0x00 0x80 image = prx2_header image.
Proof.
  intros Hi. unfold prx2_header. do 3 f_equal. rewrite !app_assoc. do 3 f_equal.
  pose proof (slice_adjacent 0x80 0x10 0x10 image) as H1.
  pose proof (slice_adjacent 0x80 0x20 0x10 image) as H2.
  cbn [Nat.add] in H1, H2. change (0x80 + 0x10)%nat with 0x90%nat in H1.
  change (0x80 + 0x20)%nat with 0xA0%nat in H2. by rewrite H1, H2.
Qed.

Lemma length_prx2_header image : (0x150 <= length image)%nat -> length (prx2_header image) = 0x150%nat.
Proof. intros Hi. unfold prx2_header. rewrite !length_app, !length_slice by lia. lia. Qed.

(** What the code reads of the header after decrypting 0x60 bytes of it. *)
Lemma prx2_fields image dec :
  (0x150 <= length image)%nat -> length dec = 0x60%nat ->
  let header := splice 0x5C dec (prx2_header image) in
  slice 0x80 0x10 header ++ slice 0x90 0x10 header ++ slice 0xA0 0x10 header ++ slice 0xB0 0x10 header
    = slice 0x24 0x3C dec ++ slice 0xBC 4 (prx2_header image) /\
  slice 0xC0 0x10 header = slice 0xB0 0x10 image /\
  slice 0xD0 0x80 header = slice 0 0x80 image.
Proof.
  intros Hi Hd header. pose proof (length_prx2_header image Hi) as Hh.
  assert (Hl : length header = 0x150%nat) by (subst header; rewrite length_splice; lia).
  split; [|split].
  - pose proof (slice_adjacent 0x80 0x10 0x10 header) as H1.
    pose proof (slice_adjacent 0x80 0x20 0x10 header) as H2.
    pose proof (slice_adjacent 0x80 0x30 0x10 header) as H3.
    change (0x80 + 0x10)%nat with 0x90%nat in H1. change (0x80 + 0x20)%nat with 0xA0%nat in H2.
    change (0x80 + 0x30)%nat with 0xB0%nat in H3. cbn [Nat.add] in H1, H2, H3.
    rewrite !app_assoc, H1, H2, H3. subst header. pointwise.
  - subst header. rewrite slice_splice_ne by lia. unfold prx2_header. pointwise.
  - subst header. rewrite slice_splice_ne by lia. unfold prx2_header. pointwise.
Qed.

(** The six writes that build the KIRK 1 command. *)
Lemma prx2_writes image keys meta elf :
  (0x150 <= length image)%nat -> length keys = 0x40%nat -> length meta = 0x10%nat ->
  length elf = 0x80%nat ->
  splice (0x40 + 0x60) (le_encode 4 1) (splice (0x40 + 0x90) elf
    (splice (0x40 + 0x80) (replicate 0x10 0) (splice (0x40 + 0x70) meta
      (splice (0x40 + 0x40) (replicate 0x30 0) (splice (0x40 + 0x00) keys image)))))
  = splice 0x40 (keys ++ replicate 0x20 0 ++ le_encode 4 1 ++ replicate 0xC 0 ++ meta
                 ++ replicate 0x10 0 ++ elf) image.
Proof.
  intros Hi Hk Hm He.
  pose proof (write_three 0x40 keys (replicate 0x30 0) meta image) as H1.
  rewrite length_replicate, Hk, Hm in H1. cbn [Nat.add] in H1. specialize (H1 ltac:(lia)).
  change (0x40 + 0x00)%nat with 0x40%nat. change (0x40 + 0x40)%nat with 0x80%nat.
  change (0x40 + 0x70)%nat with 0xB0%nat. rewrite H1. clear H1.
  pose proof (write_three 0x40 (keys ++ replicate 0x30 0 ++ meta) (replicate 0x10 0) elf image) as H2.
  rewrite !length_app, !length_replicate, Hk, Hm, He in H2. cbn [Nat.add] in H2.
  specialize (H2 ltac:(lia)).
  change (0x40 + 0x80)%nat with 0xC0%nat. change (0x40 + 0x90)%nat with 0xD0%nat. rewrite H2. clear H2.
  rewrite splice_inside; rewrite ?length_app, ?length_replicate, ?Hk, ?Hm, ?He, ?length_le_encode; [|lia..].
  f_equal. rewrite <- !app_assoc. change 0x60%nat with (0x40 + 0x20)%nat. rewrite <- Hk at 1.
  rewrite splice_skip by (rewrite !length_app, !length_replicate, length_le_encode; lia). done.
Qed.

Lemma prx2_runs image mt mem (Q : PrxDecryptResult * list Z -> list Z -> Prop) :
  length mem = SCRATCH_SIZE -> (0x150 <= length image)%nat -> length (seed mt) = 0x10%nat ->
  (forall mem', length mem' = SCRATCH_SIZE -> Q (prx2_spec image mt) mem') ->
  wp (prx2_decrypt image mt) Q mem.
Proof.
  intros Hm Hi Hseed HQ. unfold prx2_decrypt, expand_seed, prx2_spec in *.
  apply wp_seq. apply wp_seq, wp_rd; [lia|].
  assert (Hs9 : length (seed_blocks 9 0 (slice 0 0x10 (seed mt))) = 0x90%nat)
    by (apply length_seed_blocks; rewrite length_slice; lia).
  apply wp_seq, wp_kirk7_decrypt; [done|lia|done|]. intros mem1 Hm1. apply wp_ret.
  destruct (k7 (keyid mt) (seed_blocks 9 0 _)) as [x|] eqn:Ex; cbn [fst snd]; [|by apply wp_ret, HQ].
  pose proof (k7_length _ _ _ Ex) as Hx. rewrite Hs9 in Hx.
  do 9 (apply wp_seq, wp_rd; [lia|]). cbv zeta. rewrite prx2_header_fields by done.
  pose proof (length_prx2_header image Hi) as Hh.
  apply wp_seq, wp_rd; [lia|].
  apply wp_seq, wp_kirk7_decrypt; [done|lia|rewrite length_slice; lia|]. intros mem2 Hm2.
  destruct (k7 (keyid mt) (slice 0x5C 0x60 _)) as [dec|] eqn:Ed; cbn [fst snd]; [|by apply wp_ret, HQ].
  pose proof (k7_length _ _ _ Ed) as Hd. rewrite length_slice in Hd by lia.
  apply wp_seq, wp_wr; [lia|].
  destruct (prx2_fields image dec Hi Hd) as (Hf1 & Hf2 & Hf3).
  assert (Hl : length (splice 0x5C dec (prx2_header image)) = 0x150%nat) by (rewrite length_splice; lia).
  set (header := splice 0x5C dec (prx2_header image)) in *.
  do 5 (apply wp_seq, wp_rd; [lia|]). rewrite Hf1.
  apply wp_seq, wp_kirk7_decrypt; [done|lia| |].
  { rewrite length_xor, length_app, !length_slice by lia. lia. }
  intros mem3 Hm3. cbv zeta in HQ.
  destruct (k7 (keyid mt) (xor_bytes _ _)) as [kb|] eqn:Ek; cbn [fst snd]; [|by apply wp_ret, HQ].
  pose proof (k7_length _ _ _ Ek) as Hkb.
  rewrite length_xor, length_app, !length_slice in Hkb by lia. cbn in Hkb.
  do 3 (apply wp_seq, wp_rd; [lia|]). rewrite Hf2, Hf3.
  set (keys := xor_bytes kb (slice 0x50 0x40 x)) in *.
  assert (Hkeys : length keys = 0x40%nat)
    by (subst keys; rewrite length_xor, length_slice by lia; lia).
  do 6 (apply wp_seq, wp_wr_len;
    [rewrite ?length_slice, ?length_replicate, ?length_le_encode by lia; lia|intros ? -> ?]).
  apply (wp_kirk1_stage image (prx2_block image keys)); [| |done|by apply HQ].
  - apply prx2_writes; rewrite ?length_slice; lia.
  - unfold prx2_block. rewrite !length_app, !length_replicate, !length_slice, length_le_encode by lia. lia.
Qed.

(** The table lists each tag once, with a seed of the size its type reads. *)
Definition meta_ok (mt : PrxMetaType) : Prop :=
  length (seed mt) = match type mt with PRX_TYPE_2 => 0x10 | PRX_TYPE_8 => 0x90 end%nat.

Definition prx_lookup (t : Z) : option PrxMetaType :=
  snd <$> list_find (fun mt => tag mt = t) g_prx_metatypes.

Definition prx_spec data : PrxDecryptResult * list Z :=
  match prx_lookup (prx_tag data) with
  | None => (PRX_DECRYPT_ERR_UNSUPPORTED, data)
  | Some mt => match type mt with PRX_TYPE_2 => prx2_spec data mt | PRX_TYPE_8 => prx8_spec data mt end
  end.

Lemma prx_dispatch_runs l t image mem (Q : PrxDecryptResult * list Z -> list Z -> Prop) :
  Forall meta_ok l -> length mem = SCRATCH_SIZE -> (0x150 <= length image)%nat ->
  (forall mem', length mem' = SCRATCH_SIZE ->
     Q (match snd <$> list_find (fun mt => tag mt = t) l with
        | None => (PRX_DECRYPT_ERR_UNSUPPORTED, image)
        | Some mt => match type mt with
                     | PRX_TYPE_2 => prx2_spec image mt | PRX_TYPE_8 => prx8_spec image mt end
        end) mem') ->
  wp (prx_dispatch l t image) Q mem.
Proof.
  intros Hok Hm Hi. induction Hok as [|mt l Hmt _ IH]; intros HQ; [by apply wp_ret, HQ|].
  cbn [prx_dispatch list_find] in *. destruct (Z.eqb_spec t (tag mt)) as [->|Hne].
  - rewrite decide_True in HQ by done. simpl in HQ. unfold meta_ok in Hmt.
    destruct (type mt); [by apply prx2_runs|by apply prx8_runs].
  - rewrite decide_False in HQ by congruence. apply IH. intros mem' Hm'. specialize (HQ mem' Hm').
    by destruct (list_find _ l) as [[]|].
Qed.

(** C5: prx_decrypt computes the documented transformation: an image with a
    known tag is decrypted with that tag's key and seed by the scheme of its
    type, on every path including the engine's errors; an unknown tag is
    reported and leaves the image alone; the length handed back is the header's;
    and no access leaves the image, the stack buffers or the engine's 1 KiB of
    scratch memory. *)
Theorem prx_decrypt_correct data mem :
  length mem = SCRATCH_SIZE -> (0x150 <= length data)%nat ->
  exists mem', prx_decrypt data mem
    = (Ret (fst (prx_spec data), prx_comp_size data, snd (prx_spec data)), mem') /\
    length mem' = SCRATCH_SIZE.
Proof.
  intros Hm Hd.
  assert (Hw : wp (prx_decrypt data) (fun r mem' =>
    r = (fst (prx_spec data), prx_comp_size data, snd (prx_spec data)) /\
    length mem' = SCRATCH_SIZE) mem).
  { unfold prx_decrypt. apply wp_seq, wp_rd; [lia|].
    unfold prx_tag, prx_comp_size, prx_spec, prx_lookup. rewrite !slice_slice by lia.
    apply wp_seq, prx_dispatch_runs; [repeat constructor|done|done|].
    intros mem' Hm'. by apply wp_ret. }
  apply wp_run in Hw as (r & mem' & Hrun & -> & Hl). by exists mem'.
Qed.

(** ** Personalisation *)

Lemma length_xor_cycle key data : length (xor_cycle key data) = length data.
Proof. unfold xor_cycle. by rewrite length_imap. Qed.

Definition personalise_spec data : PersonalisationResult * list Z :=
  match k5 (xor_cycle g_personalisation_xor_before (slice 0x110 0x40 data ++ slice 0x80 0x90 data)) with
  | None => (PERSONALISATION_ERR_ENCRYPT, data)
  | Some c => (PERSONALISATION_RESULT_OK, splice 0x80 (xor_cycle g_personalisation_xor_after c) data)
  end.

Lemma personalise_runs data mem :
  length mem = SCRATCH_SIZE -> (0x150 <= length data)%nat ->
  wp (personalise data) (fun r mem' => r = personalise_spec data /\ length mem' = SCRATCH_SIZE) mem.
Proof.
  intros Hm Hd. unfold personalise, personalise_spec. do 2 (apply wp_seq, wp_rd; [lia|]). cbv zeta.
  apply wp_seq, wp_kirk5_encrypt; [done|lia| |].
  { rewrite length_xor_cycle, length_app, !length_slice by lia. done. }
  intros mem' Hm'. destruct (k5 _) as [c|] eqn:Ec; cbn [fst snd]; [|by apply wp_ret].
  pose proof (k5_length _ _ Ec) as Hc. rewrite length_xor_cycle, length_app, !length_slice in Hc by lia.
  apply wp_seq, wp_wr; [rewrite length_xor_cycle; lia|]. by apply wp_ret.
Qed.

(** The console's boot code undoes it: it decrypts with command 8 ([k8]) and
    puts the two halves back. *)
Definition unpersonalise (k8 : list Z -> option (list Z)) data : option (list Z) :=
  let tmp := xor_cycle g_personalisation_xor_after (slice 0x80 0xD0 data) in
  (fun c => let p := xor_cycle g_personalisation_xor_before c in
            splice 0x110 (slice 0 0x40 p) (splice 0x80 (slice 0x40 0x90 p) data)) <$> k8 tmp.

Lemma xor_cycle_involutive key data : xor_cycle key (xor_cycle key data) = data.
Proof.
  unfold xor_cycle. apply list_eq. intros i. rewrite !list_lookup_imap.
  destruct (data !! i) as [b|]; [|done]. simpl. f_equal.
  by rewrite Z.lxor_assoc, Z.lxor_nilpotent, Z.lxor_0_r.
Qed.

(** personalisation is undone by the console it was done on: when the
    engine's command 8 inverts its command 5, decrypting the personalised image
    gives back the original, byte for byte. *)
Theorem personalise_roundtrip (k8 : list Z -> option (list Z)) data mem data' mem' :
  length mem = SCRATCH_SIZE -> (0x150 <= length data)%nat ->
  (forall p c, k5 p = Some c -> k8 c = Some p) ->
  personalise data mem = (Ret (PERSONALISATION_RESULT_OK, data'), mem') ->
  unpersonalise k8 data' = Some data /\
  forall i, ~ (0x80 <= i < 0x150)%nat -> data' !! i = data !! i.
Proof.
  intros Hm Hd Hk8 Hrun. pose proof (personalise_runs data mem Hm Hd) as Hw.
  unfold wp in Hw. rewrite Hrun in Hw. destruct Hw as [Hspec _]. unfold personalise_spec in Hspec.
  set (p := slice 0x110 0x40 data ++ slice 0x80 0x90 data) in *.
  assert (Hp : length p = 0xD0%nat) by (subst p; rewrite length_app, !length_slice by lia; done).
  destruct (k5 _) as [c|] eqn:Ec; [|done]. injection Hspec as ->.
  pose proof (k5_length _ _ Ec) as Hc. rewrite length_xor_cycle, Hp in Hc.
  assert (Hx : length (xor_cycle g_personalisation_xor_after c) = 0xD0%nat) by (by rewrite length_xor_cycle).
  split.
  - unfold unpersonalise.
    assert (Hsl : slice 0x80 0xD0 (splice 0x80 (xor_cycle g_personalisation_xor_after c) data)
      = xor_cycle g_personalisation_xor_after c) by (rewrite <- Hx; apply slice_splice_same; lia).
    rewrite Hsl, xor_cycle_involutive, (Hk8 _ _ Ec). simpl. rewrite xor_cycle_involutive. f_equal.
    set (d1 := splice 0x80 (xor_cycle g_personalisation_xor_after c) data).
    assert (Hd1 : length d1 = length data) by (subst d1; apply length_splice; lia).
    assert (Hd2 : length (splice 0x80 (slice 0x40 0x90 p) d1) = length data)
      by (rewrite length_splice; rewrite ?length_slice; lia).
    apply list_eq. intros i.
    rewrite lookup_splice by (rewrite length_slice; lia).
    rewrite lookup_splice by (rewrite length_slice; lia). subst d1. rewrite lookup_splice by lia.
    rewrite !length_slice by lia. rewrite !lookup_slice. subst p.
    repeat case_decide; try lia; try done.
    all: rewrite lookup_app_dec, length_slice by lia; rewrite !lookup_slice;
      repeat case_decide; try lia; f_equal; lia.
  - intros i Hi. rewrite lookup_splice by lia. by rewrite decide_False by lia.
Qed.
End decryption.

(** ** An engine to run the definitions on *)

(** An engine with the identity as its cipher. *)
Definition plain_kirk : Kirk := {|
  kirk1 block := Some block;
  kirk5 cmd := Some cmd;
  kirk7 cmd := Some (drop 0x14 cmd)
|}.

#[export] Instance plain_kirk_laws : @KirkLaws plain_kirk.
Proof.
  split; cbn.
  - intros hdr data out Hh [= <-]. rewrite <- Hh. by rewrite drop_app_length.
  - intros hdr data out Hh [= <-]. rewrite length_app. lia.
  - by intros block out [= <-].
Qed.

(** An image of 0x160 bytes with the tag of a 02G PSAR. *)
Definition sample_image : list Z :=
  splice 0xD0 (le_encode 4 0xD82310F0) (map (fun i => Z.of_nat i mod 256) (seq 0 0x160)).

Lemma prx_decrypt_correct_witness :
  let I := plain_kirk in
  exists mem', prx_decrypt sample_image (replicate SCRATCH_SIZE 0)
    = (Ret (fst (prx_spec sample_image), prx_comp_size sample_image, snd (prx_spec sample_image)), mem')
    /\ length mem' = SCRATCH_SIZE.
Proof.
  intros I. apply (prx_decrypt_correct (HK := I) sample_image (replicate SCRATCH_SIZE 0)).
  - reflexivity.
  - apply Nat.leb_le. vm_compute. reflexivity.
Defined.

Definition personalised_sample : list Z :=
  match fst (@personalise plain_kirk sample_image (replicate SCRATCH_SIZE 0)) with
  | Ret r => snd r
  | _ => []
  end.

Lemma personalise_roundtrip_witness :
  unpersonalise Some personalised_sample = Some sample_image /\
  forall i, ~ (0x80 <= i < 0x150)%nat -> personalised_sample !! i = sample_image !! i.
Proof.
  apply (personalise_roundtrip (HK := plain_kirk) Some sample_image (replicate SCRATCH_SIZE 0)
    personalised_sample (snd (@personalise plain_kirk sample_image (replicate SCRATCH_SIZE 0)))).
  - reflexivity.
  - apply Nat.leb_le. vm_compute. reflexivity.
  - intros p c. unfold k5. cbn [kirk5 plain_kirk fmap option_fmap option_map].
    pose proof (length_kirk_header 4 0x100 (Z.of_nat (length p))) as Hh. rewrite <- Hh.
    rewrite drop_app_length. by intros [= ->].
  - vm_compute. reflexivity.
Defined.
