(* ===== verification/Ipl.v ===== *)
(** * app/aiseirigh/ipl.c: writing the boot loader to the NAND

    The IPL goes to non-bad blocks from 16 on; a table of the blocks used goes to
    every non-bad block from 4 to 11.  The NAND driver (emcsm) and the console's
    identity (model.h) are not part of the sources: the driver is a class, the
    identity an argument. *)

From stdpp Require Import prelude list gmap.
From Stdlib Require Import ZArith Lia.
From S2P Require Import Prelude Crypt.

Open Scope Z_scope.
Open Scope lk_scope.

(** ** The NAND driver *)

(** Blocks are named by their first page; a negative result is an error. *)
Class Nand (D : Type) := {
  emcsm_is_bad_block : D -> Z -> Z;
  emcsm_write_block_with_verify : Z -> list Z -> list Z -> D -> Z * D;
  emcsm_erase_block : Z -> D -> Z * D;
  nand_data : D -> Z -> list Z;
  nand_spare : D -> Z -> list Z
}.

(** A verified write that succeeds stores the block and its spare area; writing
    a block leaves the others and the bad-block marks alone. *)
Class NandLaws D `{Nand D} : Prop := {
  nand_write_stores : forall ppn bs sp d r d',
    emcsm_write_block_with_verify ppn bs sp d = (r, d') -> 0 <= r ->
    nand_data d' ppn = bs /\ nand_spare d' ppn = sp;
  nand_write_frame : forall ppn ppn' bs sp d r d',
    emcsm_write_block_with_verify ppn bs sp d = (r, d') -> ppn' <> ppn ->
    nand_data d' ppn' = nand_data d ppn' /\ nand_spare d' ppn' = nand_spare d ppn';
  nand_write_marks : forall ppn ppn' bs sp d r d',
    emcsm_write_block_with_verify ppn bs sp d = (r, d') ->
    emcsm_is_bad_block d' ppn' = emcsm_is_bad_block d ppn'
}.

(** ** Data *)

(** The identities the sources name, and any other value. *)
Inductive PspModel :=
| PSP_MODEL_01G | PSP_MODEL_02G | PSP_MODEL_03G | PSP_MODEL_04G | PSP_MODEL_05G
| PSP_MODEL_07G | PSP_MODEL_09G | PSP_MODEL_11G | PSP_MODEL_other.

#[export] Instance psp_model_eq_dec : EqDecision PspModel.
Proof. solve_decision. Defined.

Record IplSpareData := Ipl_spare { unk0 : Z; unk1 : Z; xor_id : Z; spare_tag : Z; ecc : Z }.

(** All bytes 0xFF. *)
Definition blank_spare : IplSpareData := Ipl_spare 0xFF 0xFF 0xFFFF 0xFFFFFFFF 0xFFFFFFFF.

Definition ipl_spare (id : Z) : IplSpareData := Ipl_spare 0xFF 0xFF id 0x6DC64A38 0xFFFFFFFF.

Definition spare_bytes (s : IplSpareData) : list Z :=
  [unk0 s; unk1 s] ++ le_encode 2 (xor_id s) ++ le_encode 4 (spare_tag s) ++ le_encode 4 (ecc s).

Definition model_xor_id (model : PspModel) : Z :=
  match model with
  | PSP_MODEL_01G | PSP_MODEL_02G => 0
  | PSP_MODEL_03G | PSP_MODEL_04G | PSP_MODEL_07G | PSP_MODEL_09G | PSP_MODEL_11G => 1
  | PSP_MODEL_05G => 2
  | PSP_MODEL_other => 0xFFFF
  end.

Definition ppb : nat := 32.
Definition page_size : nat := 512.

Section ipl.
Context {D : Type} {HN : Nand D}.

(** ** Operations *)

(** The result of the erase is dropped. *)
Definition clear_ipl : M D Empty_set Z :=
  for_each (seq 0 0x30) (fun block =>
    modify (fun d => snd (emcsm_erase_block (Z.of_nat (block * 32)) d))) ;;
  ret 0.

(** The search for the next good block, [None] when block 48 is reached. *)
Fixpoint next_good (fuel : nat) (d : D) (block_num : nat) : option nat :=
  match fuel with
  | O => None
  | S fuel' =>
      if bool_decide (48 <= block_num)%nat then None
      else if emcsm_is_bad_block d (Z.of_nat (block_num * ppb)) =? 0 then Some block_num
      else next_good fuel' d (S block_num)
  end.

(** The pages of [block_data]: IPL pages, then pages of FF. *)
Fixpoint fill_pages (data : list Z) (written num : nat) (pages : list nat) : M D Empty_set (list Z) :=
  match pages with
  | [] => ret []
  | i :: pages' =>
      let* page := (if bool_decide (written + i < num)%nat
                    then rd ((written + i) * page_size) page_size data
                    else ret (replicate page_size 0xFF)) in
      let* rest := fill_pages data written num pages' in
      ret (page ++ rest)
  end.

Definition fill_spare (id : Z) (written num : nat) : list Z :=
  concat (map (fun i => spare_bytes (if bool_decide (written + i < num)%nat then ipl_spare id
                                     else blank_spare)) (seq 0 ppb)).

(** The loop over the chunks of 32 pages; the result is the [block_index], or
    [None] for the return of -1.  Each turn writes a page, so [num] turns are
    enough. *)
Fixpoint write_chunks (fuel : nat) (data : list Z) (id : Z) (num block_num written : nat)
    : M D Empty_set (option (list Z)) :=
  match fuel with
  | O => hang
  | S fuel' =>
      if bool_decide (num <= written)%nat then ret (Some [])
      else
        let* d := get in
        match next_good 49 d block_num with
        | None => ret None
        | Some b =>
            let* block_data := fill_pages data written num (seq 0 ppb) in
            let '(res, d') := emcsm_write_block_with_verify (Z.of_nat (b * ppb)) block_data
                                (fill_spare id written num) d in
            put d' ;;
            if res <? 0 then ret None
            else
              let* rest := write_chunks fuel' data id num (S b) (written + ppb) in
              ret ((fun l => Z.of_nat b :: l) <$> rest)
        end
  end.

(** [block_index], zero filled, as the first bytes of a block of zeros. *)
Definition index_block (index : list Z) : list Z :=
  let entries := index ++ replicate (32 - length index) 0 in
  concat (map (le_encode 2) entries) ++ replicate (32 * 512 - 2 * 32) 0.

Definition index_spare (id : Z) : list Z :=
  spare_bytes (ipl_spare id) ++ concat (replicate 31 (spare_bytes blank_spare)).

(** The copies of the index: was any block good enough to try? *)
Fixpoint write_index (blocks : list nat) (bs sp : list Z) : M D Empty_set bool :=
  match blocks with
  | [] => ret false
  | b :: blocks' =>
      let* d := get in
      if negb (emcsm_is_bad_block d (Z.of_nat (b * ppb)) =? 0) then write_index blocks' bs sp
      else
        put (snd (emcsm_write_block_with_verify (Z.of_nat (b * ppb)) bs sp d)) ;;
        write_index blocks' bs sp ;;
        ret true
  end.

Definition num_pages (length : nat) : nat :=
  (length / page_size + if bool_decide (length mod page_size = 0)%nat then 0 else 1)%nat.

Definition write_ipl (model : PspModel) (data : list Z) (length : nat) : M D Empty_set Z :=
  if bool_decide (length = 0)%nat then ret (-1)
  else if bool_decide (32 * ppb * page_size < length)%nat then ret (-1)
  else
    let id := model_xor_id model in
    let num := num_pages length in
    let* index := write_chunks (S num) data id num 16 0 in
    match index with
    | None => ret (-1)
    | Some index =>
        let* written := write_index (seq 4 8) (index_block index) (index_spare id) in
        if negb written then ret (-1) else ret 0
    end.
End ipl.

(** ** The blocks that are used *)

Section good_blocks.
Context {D : Type} {HN : Nand D}.
Implicit Types (d : D).

Definition good d (b : nat) : Prop := emcsm_is_bad_block d (Z.of_nat (b * ppb)) = 0.

#[global] Instance good_dec d b : Decision (good d b).
Proof. unfold good. apply _. Defined.

(** Good blocks from [b] on, below block 48. *)
Definition goods d (b : nat) : list nat := filter (good d) (seq b (48 - b)).

Lemma goods_nil d b : (48 <= b)%nat -> goods d b = [].
Proof. intros Hb. unfold goods. by replace (48 - b)%nat with 0%nat by lia. Qed.

Lemma goods_step d b : (b < 48)%nat ->
  goods d b = if decide (good d b) then b :: goods d (S b) else goods d (S b).
Proof.
  intros Hb. unfold goods. replace (48 - b)%nat with (S (48 - S b)) by lia.
  cbn [seq]. by rewrite filter_cons.
Qed.

Lemma next_good_head fuel d b : (48 - b < fuel)%nat -> next_good fuel d b = head (goods d b).
Proof.
  revert b. induction fuel as [|fuel IH]; intros b Hf; [lia|]. cbn [next_good].
  case_bool_decide as Hb; [by rewrite goods_nil|]. rewrite goods_step by lia. unfold good.
  destruct (Z.eqb_spec (emcsm_is_bad_block d (Z.of_nat (b * ppb))) 0) as [E|E].
  - by rewrite decide_True.
  - rewrite decide_False by done. apply IH. lia.
Qed.

Lemma goods_cons d b x l :
  goods d b = x :: l ->
  (b <= x < 48)%nat /\ good d x /\ goods d (S x) = l /\ Forall (fun y => x < y)%nat l.
Proof.
  intros Hg. destruct (decide (b < 48)%nat) as [Hb|]; [|by rewrite goods_nil in Hg by lia].
  remember (48 - b)%nat as n eqn:Hn. revert b Hg Hb Hn.
  induction n as [|n IH]; intros b Hg Hb Hn; [lia|]. rewrite goods_step in Hg by done.
  destruct (decide (good d b)) as [Hgd|Hgd].
  - injection Hg as <- <-. split; [lia|]. split; [done|]. split; [done|].
    unfold goods. apply Forall_forall. intros y Hy. apply list_elem_of_filter in Hy as [_ Hy].
    apply elem_of_seq in Hy. lia.
  - destruct (decide (S b < 48)%nat) as [Hb'|]; [|by rewrite goods_nil in Hg by lia].
    destruct (IH (S b) Hg Hb' ltac:(lia)) as (? & ? & ? & ?). split; [lia|done].
Qed.

(** Writing keeps the marks, hence the good blocks. *)
Lemma goods_marks d d' b :
  (forall ppn, emcsm_is_bad_block d' ppn = emcsm_is_bad_block d ppn) -> goods d' b = goods d b.
Proof. intros Hm. unfold goods, good. apply list_filter_iff. intros x. by rewrite Hm. Qed.
End good_blocks.

(** ** The pages that are written *)

Section pages.
Context {D : Type} {HN : Nand D}.
Implicit Types (data : list Z).

Definition page data (num k : nat) : list Z :=
  if decide (k < num)%nat then slice (k * page_size) page_size data else replicate page_size 0xFF.

(** The block that starts at page [written]. *)
Definition chunk data (num written : nat) : list Z := concat (map (page data num) (seq written ppb)).

Lemma fill_pages_run data num written idxs (d : D) :
  (num * page_size <= length data)%nat ->
  fill_pages data written num idxs d
  = (Ret (concat (map (fun i => page data num (written + i)) idxs)), d).
Proof.
  intros Hl. induction idxs as [|i idxs IH]; [done|]. cbn [fill_pages map concat]. unfold page at 1.
  unfold bind at 1. case_bool_decide as Hi.
  - rewrite decide_True by done. unfold rd.
    rewrite bool_decide_true by (unfold page_size in *; lia). unfold ret at 1.
    unfold bind at 1. by rewrite IH.
  - rewrite decide_False by done. unfold ret at 1. unfold bind at 1. by rewrite IH.
Qed.

Lemma fill_pages_chunk data num written (d : D) :
  (num * page_size <= length data)%nat ->
  fill_pages data written num (seq 0 ppb) d = (Ret (chunk data num written), d).
Proof.
  intros Hl. rewrite fill_pages_run by done. unfold chunk. do 2 f_equal.
  replace (seq written ppb) with (map (Nat.add written) (seq 0 ppb)).
  - by rewrite map_map.
  - pose proof (fmap_add_seq written 0 ppb) as Hs. rewrite Nat.add_0_r in Hs. exact Hs.
Qed.

(** The first pages of the blocks, one after the other. *)
Fixpoint starts (c written : nat) : list nat :=
  match c with O => [] | S c' => written :: starts c' (written + ppb) end.

Lemma concat_chunks data num c written :
  concat (map (chunk data num) (starts c written)) = concat (map (page data num) (seq written (c * ppb))).
Proof.
  revert written. induction c as [|c IH]; intros written; [done|]. cbn [starts map concat].
  rewrite IH. unfold chunk. replace (S c * ppb)%nat with (ppb + c * ppb)%nat by lia.
  by rewrite seq_app, map_app, concat_app.
Qed.

Lemma concat_pages data num n :
  (n <= num)%nat -> concat (map (page data num) (seq 0 n)) = slice 0 (n * page_size) data.
Proof.
  induction n as [|n IH]; intros Hn; [done|].
  rewrite seq_S, map_app, concat_app, IH by lia. cbn [map concat]. rewrite app_nil_r, Nat.add_0_l.
  unfold page. rewrite decide_True by lia.
  pose proof (slice_adjacent 0 (n * page_size) page_size data) as Hs. rewrite Nat.add_0_l in Hs.
  rewrite Hs. f_equal. lia.
Qed.

Lemma read_back data num c :
  (num <= c * ppb)%nat -> (num * page_size <= length data)%nat ->
  take (num * page_size) (concat (map (chunk data num) (starts c 0))) = take (num * page_size) data.
Proof.
  intros Hc Hl. rewrite concat_chunks.
  replace (c * ppb)%nat with (num + (c * ppb - num))%nat by lia.
  rewrite seq_app, map_app, concat_app, concat_pages by lia.
  assert (Hsl : length (slice 0 (num * page_size) data) = (num * page_size)%nat) by (apply length_slice; lia).
  rewrite take_app_le, take_ge by lia. unfold slice. by rewrite drop_0.
Qed.
End pages.

(** ** The data blocks *)

Section chunks.
Context {D : Type} {HN : Nand D} {HNL : NandLaws D}.
Implicit Types (d : D).

(** Writes to blocks not marked bad succeed. *)
Definition reliable : Prop :=
  forall ppn bs sp d r d', emcsm_write_block_with_verify ppn bs sp d = (r, d') ->
    emcsm_is_bad_block d ppn = 0 -> 0 <= r.

Definition same_marks d d' : Prop :=
  forall ppn, emcsm_is_bad_block d' ppn = emcsm_is_bad_block d ppn.

(** Nothing but the blocks in [bs] changed. *)
Definition only_blocks (bs : list nat) d d' : Prop :=
  forall ppn, (forall b, b ∈ bs -> ppn <> Z.of_nat (b * ppb)) ->
    nand_data d' ppn = nand_data d ppn /\ nand_spare d' ppn = nand_spare d ppn.

Definition chunks (num written : nat) : nat := ((num - written + 31) / 32)%nat.

Lemma chunks_0 num written : (num <= written)%nat -> chunks num written = 0%nat.
Proof. intros H. unfold chunks. replace (num - written)%nat with 0%nat by lia. done. Qed.

Lemma chunks_S num written :
  (written < num)%nat -> chunks num written = S (chunks num (written + ppb)).
Proof.
  intros H. unfold chunks, ppb. destruct (decide (num <= written + 32)%nat).
  - replace (num - (written + 32))%nat with 0%nat by lia. change ((0 + 31) / 32)%nat with 0%nat.
    replace (num - written + 31)%nat with ((num - written - 1) + 1 * 32)%nat by lia.
    rewrite Nat.div_add, Nat.div_small by lia. lia.
  - replace (num - written + 31)%nat with ((num - (written + 32) + 31) + 1 * 32)%nat by lia.
    rewrite Nat.div_add by lia. lia.
Qed.

Definition chunks_post data num b written d (r : option (list Z)) d' : Prop :=
  let c := chunks num written in
  same_marks d d' /\ only_blocks (goods d b) d d' /\
  match r with
  | Some idx => idx = map Z.of_nat (take c (goods d b)) /\ (c <= length (goods d b))%nat /\
      Forall2 (fun g w => nand_data d' (Z.of_nat (g * ppb)) = chunk data num w)
        (take c (goods d b)) (starts c written)
  | None => reliable -> (length (goods d b) < c)%nat
  end.

(** One block written: what the rest of the loop does carries over. *)
Lemma chunks_post_step data num b written d d1 r d' g l res sp :
  (written < num)%nat -> goods d b = g :: l ->
  emcsm_write_block_with_verify (Z.of_nat (g * ppb)) (chunk data num written) sp d = (res, d1) ->
  0 <= res -> chunks_post data num (S g) (written + ppb) d1 r d' ->
  chunks_post data num b written d ((fun l => Z.of_nat g :: l) <$> r) d'.
Proof.
  intros Hw Hg Hwr Hres (Hm & Ho & Hr). destruct (goods_cons d b g l Hg) as (Hgb & Hgd & Hl & Hlt).
  assert (Hm1 : same_marks d d1) by (intros ppn; by eapply nand_write_marks).
  assert (Hg1 : goods d1 (S g) = l) by (rewrite (goods_marks d d1); done).
  unfold chunks_post. rewrite chunks_S by done. rewrite Hg1 in *. rewrite Hg. cbn [take starts length].
  split; [intros ppn; by rewrite Hm|]. split.
  - intros ppn Hp. destruct (nand_write_frame (Z.of_nat (g * ppb)) ppn _ _ _ _ _ Hwr) as [Hd Hs].
    { apply Hp. by left. }
    destruct (Ho ppn) as [Hd2 Hs2]; [intros x Hx; apply Hp; by right|]. by rewrite Hd2, Hs2.
  - destruct r as [idx|]; simpl.
    + destruct Hr as (-> & Hlen & Hf). split; [done|]. split; [lia|]. constructor; [|done].
      destruct (nand_write_stores _ _ _ _ _ _ Hwr Hres) as [Hst _].
      destruct (Ho (Z.of_nat (g * ppb))) as [Hd2 _]; [|by rewrite Hd2].
      intros x Hx. rewrite Forall_forall in Hlt. specialize (Hlt x Hx). unfold ppb. lia.
    + intros Hrel. specialize (Hr Hrel). lia.
Qed.

Lemma write_chunks_run fuel data id num b written d :
  (num * page_size <= length data)%nat -> (num - written + 32 <= 32 * fuel)%nat ->
  exists r d', write_chunks fuel data id num b written d = (Ret r, d') /\
    chunks_post data num b written d r d'.
Proof.
  intros Hdata. revert b written d. induction fuel as [|fuel IH]; intros b written d Hf; [lia|].
  cbn [write_chunks]. case_bool_decide as Hw.
  - exists (Some []), d. split; [done|]. unfold chunks_post. rewrite chunks_0 by done.
    split; [done|]. split; [done|]. simpl. split; [done|]. split; [lia|]. constructor.
  - unfold bind at 1, get at 1. rewrite next_good_head by lia.
    destruct (goods d b) as [|g l] eqn:Hg; cbn [head].
    + exists None, d. split; [done|]. unfold chunks_post. rewrite Hg.
      split; [done|]. split; [done|]. intros _. rewrite chunks_S by lia. simpl. lia.
    + unfold bind at 1. rewrite fill_pages_chunk by done.
      destruct (emcsm_write_block_with_verify _ _ _ d) as [res d1] eqn:Hwr.
      unfold bind at 1, put at 1. destruct (goods_cons d b g l Hg) as (_ & Hgd & _).
      destruct (res <? 0) eqn:Hres; bool_to_prop.
      * exists None, d1. split; [done|]. unfold chunks_post. rewrite Hg.
        split; [intros ppn; by eapply nand_write_marks|]. split.
        -- intros ppn Hp. eapply nand_write_frame; [exact Hwr|]. apply Hp. by left.
        -- intros Hrel. specialize (Hrel _ _ _ _ _ _ Hwr Hgd). lia.
      * destruct (IH (S g) (written + ppb)%nat d1) as (r & d' & Hrun & Hpost); [unfold ppb; lia|].
        exists ((fun l => Z.of_nat g :: l) <$> r), d'. unfold bind. rewrite Hrun. split; [done|].
        eapply chunks_post_step; [lia|exact Hg|exact Hwr|done|done].
Qed.
End chunks.

(** ** The copies of the index *)

Section index.
Context {D : Type} {HN : Nand D} {HNL : NandLaws D}.
Implicit Types (d : D).

Lemma write_index_run blocks bs sp d :
  NoDup blocks ->
  exists d', write_index blocks bs sp d = (Ret (bool_decide (filter (good d) blocks <> [])), d') /\
    same_marks d d' /\ only_blocks (filter (good d) blocks) d d' /\
    (reliable (D:=D) -> forall b, b ∈ filter (good d) blocks -> nand_data d' (Z.of_nat (b * ppb)) = bs).
Proof.
  intros Hnd. revert d. induction Hnd as [|b blocks Hb Hnd IH]; intros d; cbn [write_index].
  { exists d. split; [done|]. split; [done|]. split; [done|]. intros _ b Hb. by apply elem_of_nil in Hb. }
  unfold bind at 1, get at 1. destruct (decide (good d b)) as [Hg|Hg].
  2: { rewrite filter_cons_False by done. unfold good in Hg. rewrite (proj2 (Z.eqb_neq _ _) Hg). apply IH. }
  rewrite filter_cons_True by done. unfold good in Hg at 1. rewrite Hg. cbn [negb Z.eqb].
  unfold bind at 1, put at 1. destruct (emcsm_write_block_with_verify _ _ _ d) as [r d1] eqn:Hwr.
  cbn [snd]. assert (Hm1 : same_marks d d1) by (intros ppn; by eapply nand_write_marks).
  destruct (IH d1) as (d' & Hrun & Hm & Ho & Hst).
  assert (Hfe : filter (good d1) blocks = filter (good d) blocks).
  { apply list_filter_iff. intros x. unfold good. by rewrite Hm1. }
  rewrite Hfe in *. exists d'. unfold bind. rewrite Hrun, bool_decide_true by done.
  split; [done|]. split; [intros ppn; by rewrite Hm|]. split.
  - intros ppn Hp. destruct (nand_write_frame (Z.of_nat (b * ppb)) ppn _ _ _ _ _ Hwr) as [Hd Hs].
    { apply Hp. by left. }
    destruct (Ho ppn) as [Hd2 Hs2]; [intros x Hx; apply Hp; by right|]. by rewrite Hd2, Hs2.
  - intros Hrel x Hx. apply elem_of_cons in Hx as [->|Hx]; [|by apply Hst].
    destruct (nand_write_stores _ _ _ _ _ _ Hwr (Hrel _ _ _ _ _ _ Hwr Hg)) as [Hd _].
    destruct (Ho (Z.of_nat (b * ppb))) as [Hd2 _]; [|by rewrite Hd2].
    intros y Hy. apply list_elem_of_filter in Hy as [_ Hy].
    assert (y <> b) by (intros ->; done). unfold ppb. lia.
Qed.

(** *** Reading the index *)

Fixpoint index_words (n : nat) (l : list Z) : list Z :=
  match n with O => [] | S n' => le_decode (take 2 l) :: index_words n' (drop 2 l) end.

Lemma index_words_encode es rest :
  Forall (fun e => 0 <= e < 2 ^ 16) es ->
  index_words (length es) (concat (map (le_encode 2) es) ++ rest) = es.
Proof.
  induction 1 as [|e es He _ IH]; [done|]. cbn [map concat length index_words].
  rewrite <-app_assoc, take_app_length', drop_app_length' by (by rewrite length_le_encode).
  rewrite IH, le_decode_encode, Z.mod_small by (simpl; lia). done.
Qed.

(** What the boot ROM loads when it finds the index in block [b]. *)
Definition boot_image d (b : nat) : list Z :=
  concat (map (fun e => nand_data d (e * 32))
            (filter (fun e => e <> 0) (index_words 32 (nand_data d (Z.of_nat (b * ppb)))))).

Lemma filter_nonzero_id l : Forall (fun e => 0 < e < 2 ^ 16) l -> filter (fun e : Z => e <> 0) l = l.
Proof. induction 1 as [|e l He _ IH]; [done|]. rewrite filter_cons_True by lia. by rewrite IH. Qed.

Lemma filter_nonzero_replicate n : filter (fun e : Z => e <> 0) (replicate n 0) = [].
Proof. induction n as [|n IH]; [done|]. simpl replicate. by rewrite filter_cons_False by lia. Qed.

Lemma index_block_read index :
  (length index <= 32)%nat -> Forall (fun e => 0 < e < 2 ^ 16) index ->
  filter (fun e => e <> 0) (index_words 32 (index_block index)) = index.
Proof.
  intros Hl Hf. unfold index_block. set (es := index ++ replicate (32 - length index) 0).
  assert (Hes : length es = 32%nat) by (unfold es; rewrite length_app, length_replicate; lia).
  replace (index_words 32 _) with es.
  - unfold es. rewrite filter_app, filter_nonzero_id by done.
    by rewrite filter_nonzero_replicate, app_nil_r.
  - rewrite <-Hes at 1. symmetry. apply index_words_encode. unfold es. apply Forall_app. split.
    + eapply Forall_impl; [exact Hf|]. simpl. lia.
    + apply Forall_replicate. lia.
Qed.
End index.

(** ** The whole write *)

Section write.
Context {D : Type} {HN : Nand D} {HNL : NandLaws D}.
Implicit Types (d : D).

Lemma num_pages_bound len : (0 < len -> len <= num_pages len * page_size < len + page_size)%nat.
Proof.
  intros Hl. unfold num_pages, page_size. pose proof (Nat.div_mod_eq len 512).
  pose proof (Nat.mod_upper_bound len 512). case_bool_decide; lia.
Qed.

Definition index_blocks d : list nat := filter (good d) (seq 4 8).

(** The length fits, and so do the blocks that are not bad. *)
Definition ipl_fits d (len : nat) : Prop :=
  (0 < len <= 32 * ppb * page_size)%nat /\
  (chunks (num_pages len) 0 <= length (goods d 16))%nat /\ index_blocks d <> [].

Definition ipl_post data len d (r : Z) d' : Prop :=
  (r = 0 \/ r = -1) /\ same_marks d d' /\ only_blocks (goods d 16 ++ index_blocks d) d d' /\
  (r = 0 -> ipl_fits d len) /\
  (reliable (D:=D) -> ipl_fits d len -> r = 0 /\
    forall b, b ∈ index_blocks d -> take len (boot_image d' b) = take len data).

Lemma only_blocks_weaken bs bs' d d' : bs ⊆ bs' -> only_blocks bs d d' -> only_blocks bs' d d'.
Proof. intros Hs Ho ppn Hp. apply Ho. intros b Hb. apply Hp. by apply Hs. Qed.

Lemma only_blocks_trans bs bs' d d1 d2 :
  only_blocks bs d d1 -> only_blocks bs' d1 d2 -> only_blocks (bs ++ bs') d d2.
Proof.
  intros H1 H2 ppn Hp. destruct (H1 ppn) as [Hd Hs].
  { intros b Hb. apply Hp, elem_of_app. by left. }
  destruct (H2 ppn) as [Hd2 Hs2]; [intros b Hb; apply Hp, elem_of_app; by right|].
  by rewrite Hd2, Hs2.
Qed.

Lemma goods_range d b : Forall (fun g => b <= g < 48)%nat (goods d b).
Proof.
  apply Forall_forall. intros g Hg. apply list_elem_of_filter in Hg as [_ Hg].
  apply elem_of_seq in Hg. lia.
Qed.

Lemma goods_length d b : (length (goods d b) <= 48 - b)%nat.
Proof. unfold goods. rewrite length_filter, length_seq. done. Qed.

(** The data blocks and an index that names them hold the image. *)
Lemma boot_image_read data len d d' b index gs :
  (0 < len)%nat -> (num_pages len * page_size <= length data)%nat -> (length gs <= 32)%nat ->
  Forall (fun g => 16 <= g < 48)%nat gs -> index = map Z.of_nat gs ->
  length gs = chunks (num_pages len) 0 ->
  Forall2 (fun g w => nand_data d' (Z.of_nat (g * ppb)) = chunk data (num_pages len) w)
    gs (starts (chunks (num_pages len) 0) 0) ->
  nand_data d' (Z.of_nat (b * ppb)) = index_block index ->
  take len (boot_image d' b) = take len data.
Proof.
  intros Hl Hdata Hgs Hrange -> Hlen Hf Hidx. unfold boot_image. rewrite Hidx, index_block_read.
  2: by rewrite length_map.
  2: { apply Forall_map. eapply Forall_impl; [exact Hrange|]. simpl. lia. }
  rewrite map_map. pose proof (num_pages_bound len Hl) as [Hle _].
  assert (Hmap : map (fun g => nand_data d' (Z.of_nat g * 32)) gs
                 = map (chunk data (num_pages len)) (starts (chunks (num_pages len) 0) 0)).
  { clear -Hf. induction Hf as [|g w gs ws Hg _ IH]; [done|]. cbn [map]. rewrite IH, <-Hg.
    do 2 f_equal. unfold ppb. lia. }
  rewrite Hmap.
  pose proof (read_back data (num_pages len) (chunks (num_pages len) 0)) as Hrb.
  assert (Hch : (num_pages len <= chunks (num_pages len) 0 * ppb)%nat).
  { unfold chunks, ppb. pose proof (Nat.div_mod_eq (num_pages len - 0 + 31) 32).
    pose proof (Nat.mod_upper_bound (num_pages len - 0 + 31) 32). lia. }
  specialize (Hrb Hch Hdata). apply (f_equal (take len)) in Hrb.
  rewrite !take_take in Hrb. by rewrite Nat.min_l in Hrb by done.
Qed.

(** The index goes to other blocks than the data. *)
Lemma Forall2_frame d d1 d' gs ws data num :
  only_blocks (index_blocks d) d1 d' -> Forall (fun g => 16 <= g < 48)%nat gs ->
  Forall2 (fun g w => nand_data d1 (Z.of_nat (g * ppb)) = chunk data num w) gs ws ->
  Forall2 (fun g w => nand_data d' (Z.of_nat (g * ppb)) = chunk data num w) gs ws.
Proof.
  intros Ho Hr Hf. induction Hf as [|g w gs ws Hg _ IH]; [done|]. apply Forall_cons in Hr as [Hgr Hr].
  constructor; [|by apply IH]. destruct (Ho (Z.of_nat (g * ppb))) as [Hd _]; [|by rewrite Hd].
  intros b Hb. apply list_elem_of_filter in Hb as [_ Hb]. apply elem_of_seq in Hb. unfold ppb. lia.
Qed.

Lemma write_ipl_run model data len d :
  (num_pages len * page_size <= length data)%nat ->
  exists r d', write_ipl model data len d = (Ret r, d') /\ ipl_post data len d r d'.
Proof.
  intros Hdata. unfold write_ipl.
  assert (Hout : ~ (0 < len <= 32 * ppb * page_size)%nat -> ipl_post data len d (-1) d).
  { intros Hno. split; [by right|]. split; [done|]. split; [done|]. split; [done|].
    intros _ (Hfit & _). contradiction. }
  case_bool_decide as H0; [exists (-1), d; split; [done|apply Hout; lia]|].
  case_bool_decide as H1; [exists (-1), d; split; [done|apply Hout; lia]|].
  destruct (write_chunks_run (S (num_pages len)) data (model_xor_id model) (num_pages len) 16 0 d Hdata)
    as (index & d1 & Hrun & Hm & Ho & Hr); [lia|].
  unfold bind at 1. rewrite Hrun. destruct index as [index|].
  2: { exists (-1), d1. split; [done|]. split; [by right|]. split; [done|]. split.
       { eapply only_blocks_weaken; [|exact Ho]. intros x Hx. apply elem_of_app. by left. }
       split; [done|]. intros Hrel (_ & Hc & _). specialize (Hr Hrel). lia. }
  destruct Hr as (Hix & Hc & Hf).
  destruct (write_index_run (seq 4 8) (index_block index) (index_spare (model_xor_id model)) d1)
    as (d' & Hrun2 & Hm2 & Ho2 & Hst); [apply NoDup_seq|].
  assert (Hib : filter (good d1) (seq 4 8) = index_blocks d).
  { apply list_filter_iff. intros x. unfold good. by rewrite Hm. }
  rewrite Hib in *. unfold bind. rewrite Hrun2.
  assert (Hm' : same_marks d d') by (intros ppn; by rewrite Hm2).
  assert (Ho' : only_blocks (goods d 16 ++ index_blocks d) d d') by (by eapply only_blocks_trans).
  case_bool_decide as Hne; cbn [negb].
  2: { exists (-1), d'. split; [done|]. split; [by right|]. split; [done|]. split; [done|]. split; [done|].
       intros _ (_ & _ & H). done. }
  exists 0, d'. split; [done|]. split; [by left|]. split; [done|]. split; [done|].
  split; [intros _; split; [lia|done]|].
  intros Hrel _. split; [done|]. intros b Hb. pose proof (goods_length d 16).
  eapply (boot_image_read data len d' d' b index (take (chunks (num_pages len) 0) (goods d 16)));
    [lia|done|rewrite length_take; lia|by apply Forall_take, goods_range|done|rewrite length_take; lia| |by apply Hst].
  eapply Forall2_frame; [exact Ho2|apply Forall_take, goods_range|exact Hf].
Qed.
End write.

(** ** A NAND chip with bad blocks and blocks that fail to program *)

Record chip := Chip { cells : gmap Z (list Z * list Z); marked : gset Z; worn : gset Z }.

#[export] Instance chip_nand : Nand chip := {
  emcsm_is_bad_block d ppn := if bool_decide (ppn ∈ marked d) then 1 else 0;
  emcsm_write_block_with_verify ppn bs sp d :=
    if bool_decide (ppn ∈ worn d) then (-1, d)
    else (0, Chip (<[ppn := (bs, sp)]> (cells d)) (marked d) (worn d));
  emcsm_erase_block ppn d := (0, Chip (delete ppn (cells d)) (marked d) (worn d));
  nand_data d ppn := default [] (fst <$> cells d !! ppn);
  nand_spare d ppn := default [] (snd <$> cells d !! ppn)
}.

#[export] Instance chip_laws : NandLaws chip.
Proof.
  split; simpl; intros; case_bool_decide; simplify_eq/=; try lia; try done.
  - by rewrite lookup_insert_eq.
  - by rewrite lookup_insert_ne.
Qed.

(** A chip without worn blocks, as a type of its own, is reliable. *)
Record fresh := Fresh { fresh_cells : gmap Z (list Z * list Z); fresh_marked : gset Z }.

#[export] Instance fresh_nand : Nand fresh := {
  emcsm_is_bad_block d ppn := if bool_decide (ppn ∈ fresh_marked d) then 1 else 0;
  emcsm_write_block_with_verify ppn bs sp d :=
    (0, Fresh (<[ppn := (bs, sp)]> (fresh_cells d)) (fresh_marked d));
  emcsm_erase_block ppn d := (0, Fresh (delete ppn (fresh_cells d)) (fresh_marked d));
  nand_data d ppn := default [] (fst <$> fresh_cells d !! ppn);
  nand_spare d ppn := default [] (snd <$> fresh_cells d !! ppn)
}.

#[export] Instance fresh_laws : NandLaws fresh.
Proof.
  split; simpl; intros; simplify_eq/=; try done.
  - by rewrite lookup_insert_eq.
  - by rewrite lookup_insert_ne.
Qed.

Lemma fresh_reliable : reliable (D:=fresh).
Proof. intros ppn bs sp d r d' Hw _. simpl in Hw. by simplify_eq. Qed.

(** ** Properties *)

(** write_ipl always returns, with 0 or -1; it changes no bad-block mark and
    no block but good ones among 16 to 47 and 4 to 11; 0 is only returned when
    the length is in range and the good blocks suffice. *)
Theorem write_ipl_confined `{NandLaws D} model data len (d : D) :
  (num_pages len * page_size <= length data)%nat ->
  exists r d', write_ipl model data len d = (Ret r, d') /\ (r = 0 \/ r = -1) /\
    (forall ppn, emcsm_is_bad_block d' ppn = emcsm_is_bad_block d ppn) /\
    (forall ppn, (nand_data d' ppn <> nand_data d ppn \/ nand_spare d' ppn <> nand_spare d ppn) ->
       emcsm_is_bad_block d ppn = 0 /\ exists b, ppn = Z.of_nat (b * ppb) /\
         (16 <= b < 48 \/ 4 <= b < 12)%nat) /\
    (r = 0 -> ipl_fits d len).
Proof.
  intros Hdata. destruct (write_ipl_run model data len d Hdata) as (r & d' & Hrun & Hr & Hm & Ho & Hfit & _).
  exists r, d'. split; [done|]. split; [done|]. split; [done|]. split; [|done].
  intros ppn Hch. destruct (decide (Exists (fun b => ppn = Z.of_nat (b * ppb)) (goods d 16 ++ index_blocks d))) as [Hex|Hno].
  - apply Exists_exists in Hex as (b & Hb & ->). apply elem_of_app in Hb as [Hb|Hb];
      apply list_elem_of_filter in Hb as [Hg Hb]; apply elem_of_seq in Hb;
      (split; [exact Hg|exists b; split; [done|lia]]).
  - destruct (Ho ppn) as [Hd Hs]; [|by destruct Hch].
    intros b Hb ->. apply Hno, Exists_exists. eauto.
Qed.

(** C6: on a NAND whose good blocks take the writes, write_ipl succeeds exactly when
    the length and the good blocks suffice, and then any index block leads the
    boot ROM to the image that was passed in. *)
Theorem write_ipl_boots `{NandLaws D} model data len (d : D) :
  (num_pages len * page_size <= length data)%nat -> reliable (D:=D) ->
  exists r d', write_ipl model data len d = (Ret r, d') /\ (r = 0 <-> ipl_fits d len) /\
    (r = 0 -> forall b, (4 <= b < 12)%nat -> good d b ->
       take len (boot_image d' b) = take len data).
Proof.
  intros Hdata Hrel. destruct (write_ipl_run model data len d Hdata) as (r & d' & Hrun & _ & _ & _ & Hfit & Hok).
  exists r, d'. split; [done|]. split; [split; [done|by apply Hok]|].
  intros Hr b Hb Hg. apply Hok; [done|by apply Hfit|]. apply list_elem_of_filter.
  split; [done|]. apply elem_of_seq. lia.
Qed.

(** A chip with blocks 5 and 16 bad: a 600-byte image goes to block 17. *)
Definition fresh0 : fresh := Fresh ∅ {[ 5 * 32; 16 * 32 ]}.
Definition image0 : list Z := map (fun i => Z.of_nat i mod 251) (seq 0 1024).

Lemma write_ipl_confined_witness :
  exists r d', write_ipl PSP_MODEL_02G image0 600 fresh0 = (Ret r, d') /\ (r = 0 \/ r = -1).
Proof.
  destruct (write_ipl_confined PSP_MODEL_02G image0 600 fresh0) as (r & d' & Hrun & Hr & _).
  - apply Nat.leb_le; vm_compute; reflexivity.
  - exists r, d'. split; [exact Hrun|exact Hr].
Defined.

Lemma write_ipl_boots_witness :
  exists r d', write_ipl PSP_MODEL_02G image0 600 fresh0 = (Ret r, d') /\
    (r = 0 <-> ipl_fits fresh0 600) /\ ipl_fits fresh0 600.
Proof.
  destruct (write_ipl_boots PSP_MODEL_02G image0 600 fresh0) as (r & d' & Hrun & Hr & _).
  - apply Nat.leb_le; vm_compute; reflexivity.
  - apply fresh_reliable.
  - exists r, d'. split; [done|]. split; [done|]. split; [|split; [|done]].
    + split; [lia|]. apply Nat.leb_le; vm_compute; reflexivity.
    + apply Nat.leb_le; vm_compute; reflexivity.
Defined.

(** The results of writing the index are not looked at: on a chip whose blocks 4
    to 11 are not marked bad but fail to program, write_ipl returns 0 and no
    index block was written. *)
Theorem write_ipl_ignores_index_errors :
  let d := Chip ∅ ∅ (list_to_set (map (fun b => Z.of_nat (b * 32)) (seq 4 8))) in
  exists d', write_ipl PSP_MODEL_01G image0 600 d = (Ret 0, d') /\
    forall b, (4 <= b < 12)%nat -> nand_data d' (Z.of_nat (b * ppb)) = [].
Proof.
  eexists. split.
  - vm_compute. reflexivity.
  - intros b Hb. assert (Hbs : b ∈ seq 4 8) by (apply elem_of_seq; lia). clear Hb. revert b Hbs.
    apply Forall_forall. vm_compute. repeat constructor.
Qed.
