(* ===== verification/Psar.v ===== *)
(** * app/aiseirigh/psar.c: the archive inside the firmware updater

    The whole reader: finding the PSAR behind a PBP header, decrypting blocks
    into the first work buffer and inflating files into the second, the list of
    entries, the table that names them for one console model, and the
    iterations the installer runs.  FatFs, the allocator, miniz, DES and the KIRK
    engine are classes; a work buffer is its contents, so [len] is its length. *)

From stdpp Require Import prelude list gmap.
From Stdlib Require Import ZArith Lia.
From S2P Require Import Prelude CMem CString Crypt Ipl.

Open Scope Z_scope.
Open Scope lk_scope.

(** ** What the reader calls *)

Inductive FRESULT :=
| FR_OK | FR_DISK_ERR | FR_INT_ERR | FR_NOT_READY | FR_NO_FILE | FR_NO_PATH | FR_INVALID_NAME
| FR_DENIED | FR_EXIST | FR_INVALID_OBJECT | FR_WRITE_PROTECTED | FR_INVALID_DRIVE
| FR_NOT_ENABLED | FR_NO_FILESYSTEM | FR_MKFS_ABORTED | FR_TIMEOUT | FR_LOCKED
| FR_NOT_ENOUGH_CORE | FR_TOO_MANY_OPEN_FILES | FR_INVALID_PARAMETER.

#[export] Instance fresult_eq_dec : EqDecision FRESULT.
Proof. solve_decision. Defined.

Definition fr_ok (r : FRESULT) : bool := bool_decide (r = FR_OK).

(** FatFs, for files opened for reading: [W] is the world the volumes live in,
    [F] an open file. *)
Class Fat (W F : Type) := {
  f_open : list Z -> W -> FRESULT * F;
  f_read : nat -> F -> FRESULT * list Z * F;
  f_lseek : Z -> F -> FRESULT * F;
  f_tell : F -> Z;
  f_data : F -> list Z
}.

(** A read gives what is there, up to the end of the file; seeking a file that
    is open for reading stops at its end. *)
Class FatLaws W F `{Fat W F} : Prop := {
  f_read_ok : forall n f bs f', f_read n f = (FR_OK, bs, f') ->
    bs = slice (Z.to_nat (f_tell f)) n (f_data f) /\ f_data f' = f_data f /\
    f_tell f' = f_tell f + Z.of_nat (length bs);
  f_read_len : forall n f r bs f', f_read n f = (r, bs, f') -> (length bs <= n)%nat;
  f_lseek_ok : forall ofs f f', 0 <= ofs -> f_lseek ofs f = (FR_OK, f') ->
    f_data f' = f_data f /\ f_tell f' = Z.min ofs (Z.of_nat (length (f_data f)));
  f_tell_nonneg : forall f, 0 <= f_tell f
}.

(** malloc: does it return memory? *)
Class Heap (H : Type) := { malloc : Z -> H -> bool * H }.

(** miniz: success, and what was written to the output. *)
Class Miniz := { tinfl_decompress_mem_to_mem : nat -> list Z -> bool * list Z }.
Class MinizLaws `{Miniz} : Prop := {
  tinfl_length : forall n input ok out, tinfl_decompress_mem_to_mem n input = (ok, out) ->
    (length out <= n)%nat
}.

(** mbedtls: CBC decryption, [None] for a length it refuses. *)
Class Des := { des_crypt_cbc_decrypt : list Z -> list Z -> list Z -> option (list Z) }.
Class DesLaws `{Des} : Prop := {
  des_length : forall key iv input out, des_crypt_cbc_decrypt key iv input = Some out ->
    length out = length input
}.

(** ** Data *)

(** [PSAR_raw]: the negative numbers decrypt_block_in_wb1 returns. *)
Inductive PsarResult :=
| PSAR_RESULT_OK | PSAR_ERR_OPEN | PSAR_ERR_READ_HEADER | PSAR_ERR_SEEK_HEADER | PSAR_ERR_NOT_PSAR
| PSAR_ERR_READ_DATA | PSAR_ERR_DECRYPT_HEADER | PSAR_ERR_UNKNOWN_FIRMWARE | PSAR_ERR_SEEK_DATA
| PSAR_ERR_PARSE_FILE_HEADER | PSAR_ERR_OOM | PSAR_ERR_ENTRY_NOT_FOUND | PSAR_ERR_ENTRY_NOT_FILE
| PSAR_ERR_WORK_BUFFER_TOO_SMALL | PSAR_ERR_DECOMPRESSION | PSAR_ERR_PARSE_TABLE
| PSAR_ERR_DECRYPT_TABLE | PSAR_ERR_HANDLER | PSAR_ERR_DECRYPT_IPL | PSAR_ERR_IPL_NOT_FOUND
| PSAR_raw (z : Z).

Inductive Personalisation := PSAR_FILE_NORMAL | PSAR_FILE_REQ_PERSONALISED.
Inductive FileType := PSAR_FILE_TYPE_NORMAL | PSAR_FILE_TYPE_IPL.
Record FileProperties := File_props { personalisation : Personalisation; file_type : FileType }.

Record PsarMetadata := Psar_meta {
  meta_unk0 : Z; meta_unk4 : Z; meta_num_entries : Z; unk_block_size : Z;
  meta_version : list Z; unk90 : Z; unk94 : list Z
}.

Record PSAR_File_Header := File_header {
  file_unk0 : Z; filename : list Z; file_unk1 : Z; size : Z; expanded_size : Z;
  unk2 : Z; unk3 : Z; is_file : Z; signcheck : Z
}.

Record PsarEntry := Psar_entry { header : PSAR_File_Header; file_offset : Z }.

(** [name] and [path] are places in the table's text, [entry] an index into the
    list of entries. *)
Record TableEntry := Table_entry { name : nat; path : nat; entry : nat }.

(** [table_text] is the allocated text the table entries point into. *)
Record PsarHandle (F : Type) := Psar_handle {
  fp : F; version : Z; table_version : Z; wb1 : list Z; wb2 : list Z;
  entries : list PsarEntry; num_entries : nat;
  table_text : list Z; table_list : list TableEntry; num_table_entries : nat;
  metadata : PsarMetadata
}.
Arguments Psar_handle {F}.
Arguments fp {F}.
Arguments version {F}.
Arguments table_version {F}.
Arguments wb1 {F}.
Arguments wb2 {F}.
Arguments entries {F}.
Arguments num_entries {F}.
Arguments table_text {F}.
Arguments table_list {F}.
Arguments num_table_entries {F}.
Arguments metadata {F}.

Definition zero_metadata : PsarMetadata :=
  Psar_meta 0 0 0 0 (replicate 128 0) 0 (replicate 124 0).

Definition metadata_of (bs : list Z) : PsarMetadata :=
  Psar_meta (le_decode (slice 0 4 bs)) (le_decode (slice 4 4 bs)) (le_decode (slice 8 4 bs))
    (le_decode (slice 12 4 bs)) (slice 16 128 bs) (le_decode (slice 144 4 bs)) (slice 148 124 bs).

Definition file_header_of (bs : list Z) : PSAR_File_Header :=
  File_header (le_decode (slice 0 4 bs)) (slice 4 252 bs) (le_decode (slice 0x100 4 bs))
    (le_decode (slice 0x104 4 bs)) (le_decode (slice 0x108 4 bs))
    (s8 (le_decode (slice 0x10C 1 bs))) (s8 (le_decode (slice 0x10D 1 bs)))
    (s8 (le_decode (slice 0x10E 1 bs))) (s8 (le_decode (slice 0x10F 1 bs))).

Definition sizeof_PSP_Header : nat := 0x150.
Definition sizeof_PsarMetadata : nat := 0x110.
Definition sizeof_PSAR_File_Header : nat := 0x110.
Definition sizeof_PsarEntry : Z := 0x114.
Definition sizeof_TableEntry : Z := 12.

(** The handle, the engine's scratch memory, the heap and the rest of the world. *)
Record psar_state (F H W : Type) := Psar_state {
  ph : PsarHandle F; kmem : list Z; heap : H; world : W
}.
Arguments Psar_state {F H W}.
Arguments ph {F H W}.
Arguments kmem {F H W}.
Arguments heap {F H W}.
Arguments world {F H W}.

(** Characters. *)
Definition comma : Z := 44.
Definition crlf : list Z := [13; 10; 0].
Definition ipl_prefix : list Z := [105; 112; 108; 58; 0].
Definition v661 : list Z := [54; 46; 54; 49; 0].

(** Assignments to the fields of a handle. *)
Section set_fields.
Context {F : Type}.
Implicit Types (h : PsarHandle F).

Definition set_fp h (f : F) : PsarHandle F := Psar_handle f (version h) (table_version h) (wb1 h) (wb2 h) (entries h)
  (num_entries h) (table_text h) (table_list h) (num_table_entries h) (metadata h).
Definition set_version h v : PsarHandle F := Psar_handle (fp h) v (table_version h) (wb1 h) (wb2 h) (entries h)
  (num_entries h) (table_text h) (table_list h) (num_table_entries h) (metadata h).
Definition set_table_version h v : PsarHandle F := Psar_handle (fp h) (version h) v (wb1 h) (wb2 h) (entries h)
  (num_entries h) (table_text h) (table_list h) (num_table_entries h) (metadata h).
Definition set_wb1 h b : PsarHandle F := Psar_handle (fp h) (version h) (table_version h) b (wb2 h) (entries h)
  (num_entries h) (table_text h) (table_list h) (num_table_entries h) (metadata h).
Definition set_wb2 h b : PsarHandle F := Psar_handle (fp h) (version h) (table_version h) (wb1 h) b (entries h)
  (num_entries h) (table_text h) (table_list h) (num_table_entries h) (metadata h).
Definition set_contents h l n m : PsarHandle F := Psar_handle (fp h) (version h) (table_version h) (wb1 h) (wb2 h) l n
  (table_text h) (table_list h) (num_table_entries h) m.
Definition set_table h t l n : PsarHandle F := Psar_handle (fp h) (version h) (table_version h) (wb1 h) (wb2 h)
  (entries h) (num_entries h) t l n (metadata h).
End set_fields.

Section psar.
Context {F H W : Type} `{HF : Fat W F} `{HH : Heap H} `{HK : Kirk} `{HZ : Miniz} `{HD : Des}.

Definition PM (A : Type) : Type := M (psar_state F H W) PsarResult A.

(** ** Access to the parts of the state *)

Definition set_ph (f : PsarHandle F -> PsarHandle F) : PM unit :=
  modify (fun s => Psar_state (f (ph s)) (kmem s) (heap s) (world s)).

Definition file_read (n : nat) : PM (FRESULT * list Z) :=
  fun s => let '(r, bs, f) := f_read n (fp (ph s)) in
    (Ret (r, bs), Psar_state (set_fp (ph s) f) (kmem s) (heap s) (world s)).

Definition file_lseek (ofs : Z) : PM FRESULT :=
  fun s => let '(r, f) := f_lseek ofs (fp (ph s)) in
    (Ret r, Psar_state (set_fp (ph s) f) (kmem s) (heap s) (world s)).

Definition file_tell : PM Z := gets (fun s => f_tell (fp (ph s))).

Definition alloc (n : Z) : PM bool :=
  fun s => let '(ok, h) := malloc n (heap s) in
    (Ret ok, Psar_state (ph s) (kmem s) h (world s)).

Definition with_kirk {A} (c : CM A) : PM A :=
  fun s => match c (kmem s) with
           | (Ret a, m) => (Ret a, Psar_state (ph s) m (heap s) (world s))
           | (Err e, m) => match e with end
           | (Panic, m) => (Panic, Psar_state (ph s) m (heap s) (world s))
           | (Fault, m) => (Fault, Psar_state (ph s) m (heap s) (world s))
           | (Hang, m) => (Hang, Psar_state (ph s) m (heap s) (world s))
           end.

(** ** Headers and blocks *)

(** [hdr] is what the header variable holds before the call.  Neither read
    looks at [bytes_read]: a short read leaves the old bytes. *)
Fixpoint get_header (fuel : nat) (hdr : list Z) : PM (list Z) :=
  match fuel with
  | O => hang
  | S fuel' =>
      let* (res, bs) := file_read 16 in
      if negb (fr_ok res) then fail PSAR_ERR_READ_HEADER
      else
        let hdr := splice 0 bs hdr in
        let magic := le_decode (slice 0 4 hdr) in
        if magic =? 0x50425000 then
          let* res := file_lseek 0x24 in
          if negb (fr_ok res) then fail PSAR_ERR_SEEK_HEADER
          else
            let* (res, bs) := file_read 4 in
            if negb (fr_ok res) then fail PSAR_ERR_READ_HEADER
            else
              let psar_offset := le_decode (splice 0 bs [0; 0; 0; 0]) in
              let* res := file_lseek psar_offset in
              if negb (fr_ok res) then fail PSAR_ERR_SEEK_HEADER
              else get_header fuel' hdr
        else if magic =? 0x52415350 then ret hdr
        else fail PSAR_ERR_NOT_PSAR
  end.

Definition go_pre_key : list Z :=
  [0xD8; 0x69; 0xB8; 0x95; 0x33; 0x6B; 0x63; 0x34; 0x98; 0xB9; 0xFC; 0x3C; 0xB7; 0x26; 0x2B; 0xD7].
Definition go_post_key : list Z :=
  [0x0D; 0xA0; 0x90; 0x84; 0xAF; 0x9E; 0xB6; 0xE2; 0xD2; 0x94; 0xF2; 0xAA; 0xEF; 0x99; 0x68; 0x71].

(** In place, on the header at the start of the first work buffer. *)
Definition decrypt_header : PM unit :=
  let* h := gets ph in
  let* enc := rd 0x20 (sizeof_PSP_Header - 0x20) (wb1 h) in
  let enc := if version h =? 5 then xor_cycle go_pre_key enc else enc in
  let* (res, dec) := with_kirk (kirk7_decrypt enc (sizeof_PSP_Header - 0x20) 0x55) in
  if negb (res =? 0) then fail PSAR_ERR_DECRYPT_HEADER
  else
    let dec := if version h =? 5 then xor_cycle go_post_key dec else dec in
    let* b := wr 0x20 dec (wb1 h) in
    set_ph (fun h => set_wb1 h b).

Definition decrypt_block_in_wb1 : PM Z :=
  let* h := gets ph in
  let* (res, dec_length, image) := with_kirk (prx_decrypt (wb1 h)) in
  set_ph (fun h => set_wb1 h image) ;;
  match res with
  | PRX_DECRYPT_RESULT_OK => ret dec_length
  | PRX_DECRYPT_ERR_KIRK1 => fail (PSAR_raw (-3))
  | PRX_DECRYPT_ERR_KIRK7 => fail (PSAR_raw (-4))
  | PRX_DECRYPT_ERR_UNSUPPORTED => fail (PSAR_raw (-5))
  end.

Definition read_next_block_wb1 (block_size : nat) : PM Z :=
  let* (res, bs) := file_read block_size in
  let* h := gets ph in
  let* b := wr 0 bs (wb1 h) in
  set_ph (fun h => set_wb1 h b) ;;
  if negb (fr_ok res) then fail PSAR_ERR_READ_DATA
  else if negb (bool_decide (length bs = block_size)) then fail PSAR_ERR_READ_DATA
  else
    (if negb (version h =? 1) then decrypt_header else ret tt) ;;
    decrypt_block_in_wb1.

(** ** The list of entries *)

(** The loop that fills the list; [room] is the size of the allocation, outside
    of which writing faults. *)
Fixpoint read_entries (n : nat) (i room : Z) : PM (list PsarEntry) :=
  match n with
  | O => ret []
  | S n' =>
      let* len := read_next_block_wb1 (sizeof_PSP_Header + sizeof_PSAR_File_Header) in
      if negb (len =? Z.of_nat sizeof_PSAR_File_Header) then fail PSAR_ERR_PARSE_FILE_HEADER
      else
        let* h := gets ph in
        let* bs := rd 0 sizeof_PSAR_File_Header (wb1 h) in
        (if room <? (i + 1) * sizeof_PsarEntry then fault else ret tt) ;;
        let hdr := file_header_of bs in
        let* off := file_tell in
        let len1 := Z.of_nat (length (wb1 h)) in
        let len2 := Z.of_nat (length (wb2 h)) in
        if (len1 <? size hdr) || (len2 <? size hdr) then fail PSAR_ERR_WORK_BUFFER_TOO_SMALL
        else if (len1 <? expanded_size hdr) || (len2 <? expanded_size hdr)
        then fail PSAR_ERR_WORK_BUFFER_TOO_SMALL
        else
          let* fres := file_lseek (u32 (off + size hdr)) in
          if negb (fr_ok fres) then fail PSAR_ERR_SEEK_DATA
          else
            let* rest := read_entries n' (i + 1) room in
            ret (Psar_entry hdr off :: rest)
  end.

Definition read_psar_contents_list (fuel : nat) (hdr0 : list Z) : PM unit :=
  let* hdr := get_header fuel hdr0 in
  set_ph (fun h => set_version h (le_decode (slice 4 4 hdr))) ;;
  let* len := read_next_block_wb1 (sizeof_PSP_Header + sizeof_PsarMetadata) in
  if negb (len =? Z.of_nat sizeof_PsarMetadata) then fail PSAR_ERR_PARSE_FILE_HEADER
  else
    let* h := gets ph in
    let* bs := rd 0 sizeof_PsarMetadata (wb1 h) in
    let meta := metadata_of bs in
    let* off := file_tell in
    let* fres := file_lseek (u32 (off + unk_block_size meta)) in
    if negb (fr_ok fres) then fail PSAR_ERR_SEEK_DATA
    else
      let num_contents := u32 (meta_num_entries meta - 1) in
      let room := u32 (sizeof_PsarEntry * num_contents) in
      let* ok := alloc room in
      if negb ok then fail PSAR_ERR_OOM
      else
        let* l := read_entries (Z.to_nat num_contents) 0 room in
        set_ph (fun h => set_contents h l (Z.to_nat num_contents) meta).

(** ** Files *)

Definition is_entry_a_file (e : PsarEntry) : bool := is_file (header e) =? 1.

(** The search from entry [i] on, [n] entries being left. *)
Fixpoint lookup_from (n i : nat) (h : PsarHandle F) (nm : list Z) : PM (option nat) :=
  match n with
  | O => ret None
  | S n' =>
      let* e := deref (entries h !! i) in
      let* c := deref (strcmp (filename (header e)) nm) in
      if c =? 0 then ret (Some i) else lookup_from n' (S i) h nm
  end.

Definition lookup_entry_by_name (nm : list Z) : PM (option nat) :=
  let* h := gets ph in
  lookup_from (num_entries h) 0 h nm.

Definition zlib_decompress (output_size : nat) (input : list Z) : PM bool :=
  let '(ok, out) := tinfl_decompress_mem_to_mem output_size input in
  let* h := gets ph in
  let* b := wr 0 out (wb2 h) in
  set_ph (fun h => set_wb2 h b) ;;
  ret ok.

(** The data is in the second work buffer; the result is its length. *)
Definition read_file_by_entry (e : PsarEntry) : PM Z :=
  if negb (is_entry_a_file e) then fail PSAR_ERR_ENTRY_NOT_FILE
  else
    let* fres := file_lseek (file_offset e) in
    if negb (fr_ok fres) then fail PSAR_ERR_SEEK_DATA
    else
      let* len := read_next_block_wb1 (Z.to_nat (size (header e))) in
      let* h := gets ph in
      let* input := rd 0 (Z.to_nat len) (wb1 h) in
      let* ok := zlib_decompress (Z.to_nat (expanded_size (header e))) input in
      if negb ok then fail PSAR_ERR_DECOMPRESSION
      else ret (expanded_size (header e)).

Definition read_file_by_name (nm : list Z) : PM Z :=
  let* i := lookup_entry_by_name nm in
  match i with
  | None => fail PSAR_ERR_ENTRY_NOT_FOUND
  | Some i =>
      let* h := gets ph in
      let* e := deref (entries h !! i) in
      read_file_by_entry e
  end.

(** ** The table of a model *)

Definition get_table_name_for_model (model : PspModel) : PM (list Z) :=
  match model with
  | PSP_MODEL_01G => ret [48; 48; 48; 48; 49; 0]
  | PSP_MODEL_02G => ret [48; 48; 48; 48; 50; 0]
  | PSP_MODEL_03G => ret [48; 48; 48; 48; 51; 0]
  | PSP_MODEL_04G => ret [48; 48; 48; 48; 52; 0]
  | PSP_MODEL_05G => ret [48; 48; 48; 48; 53; 0]
  | PSP_MODEL_07G => ret [48; 48; 48; 48; 55; 0]
  | PSP_MODEL_09G => ret [48; 48; 48; 48; 57; 0]
  | PSP_MODEL_11G => ret [48; 48; 48; 49; 49; 0]
  | PSP_MODEL_other => panic
  end.

Record PsarTableKeys := Table_keys { key : list Z; iv : list Z }.

Definition table_keys : list PsarTableKeys :=
  [Table_keys [0x95; 0x62; 0x0B; 0x49; 0xB7; 0x30; 0xE5; 0xC7] [0x9E; 0xA4; 0x33; 0x81; 0x86; 0x0C; 0x52; 0x85];
   Table_keys [0x5A; 0x7B; 0x3D; 0x9D; 0x45; 0xC9; 0xDC; 0x95] [0xB2; 0xFE; 0xD9; 0x79; 0x8A; 0x02; 0xB1; 0x87];
   Table_keys [0x4C; 0xCE; 0x49; 0x5B; 0x6F; 0x20; 0x58; 0x5A] [0x81; 0x08; 0xC1; 0xF2; 0x35; 0x98; 0x69; 0xB0];
   Table_keys [0x73; 0xF4; 0x52; 0x62; 0x62; 0x0B; 0xF1; 0x5A] [0x6D; 0x52; 0x1B; 0xA3; 0xC2; 0x36; 0xF9; 0x2B];
   Table_keys [0xA6; 0x64; 0xC8; 0xF8; 0xFD; 0x9D; 0x44; 0x98] [0xDB; 0x4E; 0x79; 0x41; 0xF5; 0x97; 0x30; 0xAD];
   Table_keys [0xD7; 0xBD; 0x74; 0x81; 0x3D; 0x64; 0x26; 0xE7] [0xA6; 0x83; 0x0C; 0x2F; 0x63; 0x0B; 0x96; 0x29]].

Definition get_table_keys (v : Z) : PM PsarTableKeys :=
  if 6 <=? v then panic else deref (table_keys !! Z.to_nat v).

(** In place, on the second work buffer; the result of the cipher is ignored. *)
Definition decrypt_table (len : nat) (v : Z) : PM Z :=
  let* keys := get_table_keys v in
  let* h := gets ph in
  let* src := rd 0 len (wb2 h) in
  let* b := match des_crypt_cbc_decrypt (key keys) (iv keys) src with
            | Some out => wr 0 out (wb2 h)
            | None => ret (wb2 h)
            end in
  set_ph (fun h => set_wb2 h b) ;;
  let* (res, _, image) := with_kirk (prx_decrypt b) in
  set_ph (fun h => set_wb2 h image) ;;
  match res with
  | PRX_DECRYPT_RESULT_OK => ret 0
  | PRX_DECRYPT_ERR_KIRK1 => ret (-3)
  | PRX_DECRYPT_ERR_KIRK7 => ret (-4)
  | PRX_DECRYPT_ERR_UNSUPPORTED => ret (-5)
  end.

(** Each turn moves past a separator, so the text's length bounds the turns. *)
Fixpoint count_table_entries_loop (fuel : nat) (table : list Z) (n : nat) : PM nat :=
  match fuel with
  | O => hang
  | S fuel' =>
      let* p := deref (strstr table crlf) in
      match p with
      | None => ret n
      | Some k => count_table_entries_loop fuel' (drop (k + 2) table) (S n)
      end
  end.

Definition count_table_entries (table : list Z) : PM nat :=
  count_table_entries_loop (S (length table)) table 0.

(** One line: split at the comma, and name the entry; the text is changed. *)
Definition parse_line (token : nat) (table : list Z) : PM (TableEntry * list Z) :=
  let* sep := deref (strchr (drop token table) comma) in
  match sep with
  | None => fail PSAR_ERR_PARSE_TABLE
  | Some k =>
      let table := <[(token + k)%nat := 0]> table in
      let* e := lookup_entry_by_name (drop token table) in
      match e with
      | None => fail PSAR_ERR_PARSE_TABLE
      | Some e => ret (Table_entry token (token + k + 1) e, table)
      end
  end.

(** The loop over the lines; [saved] is strtok's own pointer and [room] the size
    of the list's allocation. *)
Fixpoint parse_lines (n : nat) (i room : Z) (token saved : option nat) (table : list Z)
    : PM (list TableEntry * list Z) :=
  match n with
  | O => ret ([], table)
  | S n' =>
      match token with
      | None => fail PSAR_ERR_PARSE_TABLE
      | Some t =>
          let* (te, table) := parse_line t table in
          (if room <? (i + 1) * sizeof_TableEntry then fault else ret tt) ;;
          let* (token, saved, table) := deref (strtok None crlf saved table) in
          let* (rest, table) := parse_lines n' (i + 1) room token saved table in
          ret (te :: rest, table)
      end
  end.

Definition build_table_entry_list (temp_table : list Z) : PM unit :=
  let* len := deref (strlen temp_table) in
  let* ok := alloc (Z.of_nat (len + 1)) in
  if negb ok then fail PSAR_ERR_OOM
  else
    let* table := deref (strcpy (replicate (len + 1) 0) temp_table) in
    let* num := count_table_entries table in
    let room := u32 (Z.of_nat num * sizeof_TableEntry) in
    let* ok := alloc room in
    if negb ok then fail PSAR_ERR_OOM
    else
      let* (token, saved, table) := deref (strtok (Some 0%nat) crlf None table) in
      let* (l, table) := parse_lines num 0 room token saved table in
      set_ph (fun h => set_table h table l num).

(** ** The IPL *)

(** In place, on the second work buffer; the result is the new length. *)
Definition decrypt_ipl : PM Z :=
  let* h := gets ph in
  let* hdr := rd 0 sizeof_PSP_Header (wb2 h) in
  let* (res, dec_length, image) := with_kirk (prx_decrypt (wb2 h)) in
  set_ph (fun h => set_wb2 h image) ;;
  match res with
  | PRX_DECRYPT_RESULT_OK => ret dec_length
  | _ => fail PSAR_ERR_DECRYPT_IPL
  end.

Definition is_ipl_path (h : PsarHandle F) (te : TableEntry) : PM bool :=
  let* c := deref (memcmp (drop (path te) (table_text h)) ipl_prefix 4) in
  ret (c =? 0).

Fixpoint self_test_from (n i : nat) : PM unit :=
  match n with
  | O => fail PSAR_ERR_IPL_NOT_FOUND
  | S n' =>
      let* h := gets ph in
      let* te := deref (table_list h !! i) in
      let* e := deref (entries h !! entry te) in
      if negb (is_entry_a_file e) then self_test_from n' (S i)
      else
        let* ipl := is_ipl_path h te in
        if negb ipl then self_test_from n' (S i)
        else
          read_file_by_entry e ;;
          decrypt_ipl ;;
          ret tt
  end.

Definition self_test_ipl_decryption (model : PspModel) : PM unit :=
  if bool_decide (model = PSP_MODEL_01G) then ret tt
  else let* h := gets ph in self_test_from (num_table_entries h) 0.

(** ** The interface *)

Definition psar_init (f : F) (b1 b2 : list Z) : PM unit :=
  set_ph (fun _ => Psar_handle f 0 0 b1 b2 [] 0 [] [] 0 zero_metadata).

Definition psar_open (model : PspModel) (fuel : nat) (hdr0 pathname : list Z) : PM unit :=
  let* s := get in
  let '(res, f) := f_open pathname (world s) in
  set_ph (fun h => set_fp h f) ;;
  if negb (fr_ok res) then fail PSAR_ERR_OPEN
  else
    read_psar_contents_list fuel hdr0 ;;
    let* h := gets ph in
    let* p := deref (strrchr (meta_version (metadata h)) comma) in
    match p with
    | None => fail PSAR_ERR_UNKNOWN_FIRMWARE
    | Some p =>
        let* c := deref (memcmp (drop (p + 1) (meta_version (metadata h))) v661 4) in
        if negb (c =? 0) then fail PSAR_ERR_UNKNOWN_FIRMWARE
        else
          set_ph (fun h => set_table_version h 4) ;;
          let* table_name := get_table_name_for_model model in
          let* table_length := read_file_by_name table_name in
          let* tbl_res := decrypt_table (Z.to_nat table_length) 4 in
          if negb (tbl_res =? 0) then fail PSAR_ERR_DECRYPT_TABLE
          else
            let* h := gets ph in
            build_table_entry_list (wb2 h) ;;
            self_test_ipl_decryption model
    end.

(** A handler gets a path and may do as it likes with the state; a result other
    than 0 stops the iteration. *)
Fixpoint each_directory_from (n i : nat) (func : list Z -> PM Z) : PM unit :=
  match n with
  | O => ret tt
  | S n' =>
      let* h := gets ph in
      let* te := deref (table_list h !! i) in
      let* e := deref (entries h !! entry te) in
      if is_entry_a_file e then each_directory_from n' (S i) func
      else
        let* r := func (drop (path te) (table_text h)) in
        if negb (r =? 0) then fail PSAR_ERR_HANDLER else each_directory_from n' (S i) func
  end.

Definition psar_read_each_directory (func : list Z -> PM Z) : PM unit :=
  let* h := gets ph in each_directory_from (num_table_entries h) 0 func.

(** One file: read, decrypt if it is an encrypted IPL, and hand over.  The data
    is in the second work buffer. *)
Definition visit_file (model : PspModel) (func : list Z -> Z -> FileProperties -> PM Z)
    (h : PsarHandle F) (te : TableEntry) (e : PsarEntry) : PM unit :=
  let* ipl := is_ipl_path h te in
  let properties := File_props
    (if signcheck (header e) =? 2 then PSAR_FILE_REQ_PERSONALISED else PSAR_FILE_NORMAL)
    (if (ipl : bool) then PSAR_FILE_TYPE_IPL else PSAR_FILE_TYPE_NORMAL) in
  let* length := read_file_by_entry e in
  let* length := (if ipl && negb (bool_decide (model = PSP_MODEL_01G)) then decrypt_ipl
                  else ret length) in
  let* r := func (drop (path te) (table_text h)) length properties in
  if negb (r =? 0) then fail PSAR_ERR_HANDLER else ret tt.

Fixpoint each_file_from (model : PspModel) (n i : nat)
    (func : list Z -> Z -> FileProperties -> PM Z) : PM unit :=
  match n with
  | O => ret tt
  | S n' =>
      let* h := gets ph in
      let* te := deref (table_list h !! i) in
      let* e := deref (entries h !! entry te) in
      if negb (is_entry_a_file e) then each_file_from model n' (S i) func
      else visit_file model func h te e ;; each_file_from model n' (S i) func
  end.

Definition psar_read_each_file (model : PspModel) (func : list Z -> Z -> FileProperties -> PM Z)
    : PM unit :=
  let* h := gets ph in each_file_from model (num_table_entries h) 0 func.
End psar.
