(* ===== verification/PsarWf.v ===== *)
(** * Lemmas on the archive reader: what each function leaves alone, when a
    handle is well formed, and the iterations over the table as loops over its
    rows. *)

From stdpp Require Import prelude list gmap.
From Stdlib Require Import ZArith Lia.
From S2P Require Import Prelude CMem CString Crypt Ipl Psar.

Open Scope Z_scope.
Open Scope lk_scope.

(** ** Runs that return *)

Lemma rd_Ret {S E} off len m (s : S) x s' :
  rd (E:=E) off len m s = (Ret x, s') <-> s' = s /\ x = slice off len m /\ (off + len <= length m)%nat.
Proof. unfold rd. case_bool_decide; unfold ret, fault; naive_solver. Qed.

Lemma wr_Ret {S E} off bs m (s : S) x s' :
  wr (E:=E) off bs m s = (Ret x, s') <->
  s' = s /\ x = splice off bs m /\ (off + length bs <= length m)%nat.
Proof. unfold wr. case_bool_decide; unfold ret, fault; naive_solver. Qed.

Ltac psar_step :=
  first
    [ run_step
    | match goal with
      | H : rd _ _ _ _ = (Ret _, _) |- _ => apply rd_Ret in H as (-> & -> & ?)
      | H : wr _ _ _ _ = (Ret _, _) |- _ => apply wr_Ret in H as (-> & -> & ?)
      | H : (let (_, _) := ?p in _) _ = (Ret _, _) |- _ => destruct p; cbn beta iota in H
      | H : (if ?b then _ else _) _ = (Ret _, _) |- _ =>
          let Hb := fresh "Hb" in destruct b eqn:Hb
      | H : match ?o with Some _ => _ | None => _ end _ = (Ret _, _) |- _ =>
          let Ho := fresh "Ho" in destruct o eqn:Ho
      | H : match ?r with PRX_DECRYPT_RESULT_OK => _ | _ => _ end _ = (Ret _, _) |- _ => destruct r
      | H : Ret _ = Ret _ |- _ => injection H as ?
      end ].

Ltac psar_run := repeat psar_step; simplify_eq.

Section kept.
Context `{HK : Kirk}.

(** Decryption in place keeps the length of the image. *)
Lemma prx2_length image mt mem r image' mem' :
  prx2_decrypt image mt mem = (Ret (r, image'), mem') -> length image' = length image.
Proof.
  unfold prx2_decrypt. intros Hrun. psar_run; try done. all: by rewrite !length_splice by done.
Qed.

Lemma prx8_length image mt mem r image' mem' :
  prx8_decrypt image mt mem = (Ret (r, image'), mem') -> length image' = length image.
Proof. unfold prx8_decrypt. intros Hrun. psar_run; try done. all: by rewrite !length_splice by done. Qed.

Lemma prx_dispatch_length l t data mem r data' mem' :
  prx_dispatch l t data mem = (Ret (r, data'), mem') -> length data' = length data.
Proof.
  induction l as [|mt l IH]; cbn [prx_dispatch]; intros Hrun; [by psar_run|].
  destruct (t =? tag mt); [|by apply IH].
  destruct (type mt); [by eapply prx2_length|by eapply prx8_length].
Qed.

Lemma prx_decrypt_length data mem r n data' mem' :
  prx_decrypt data mem = (Ret (r, n, data'), mem') -> length data' = length data.
Proof.
  unfold prx_decrypt. intros Hrun. psar_run. destruct a0 as [r image].
  by eapply prx_dispatch_length.
Qed.
End kept.

Section frame.
Context {F H W : Type} `{HF : Fat W F} `{HH : Heap H} `{HK : Kirk} `{HZ : Miniz} `{HD : Des}.
Implicit Types (s : psar_state F H W) (h : PsarHandle F).

(** What reading and decrypting leave alone: all but the file's position and the
    bytes of the work buffers. *)
Definition archive h :=
  (version h, table_version h, length (wb1 h), length (wb2 h), entries h, num_entries h,
   table_text h, table_list h, num_table_entries h, metadata h).

Definition keeps s s' : Prop := archive (ph s') = archive (ph s) /\ world s' = world s.

#[global] Instance keeps_preorder : PreOrder keeps.
Proof. split; [done|]. intros s1 s2 s3 [? ?] [? ?]. split; congruence. Qed.

Lemma with_kirk_Ret {A} (c : CM A) s a s' :
  with_kirk c s = (Ret a, s') ->
  exists m, c (kmem s) = (Ret a, m) /\ s' = Psar_state (ph s) m (heap s) (world s).
Proof. unfold with_kirk. destruct (c (kmem s)) as [[x|[]| | |] m]; naive_solver. Qed.

Lemma file_read_Ret n s r bs s' :
  file_read n s = (Ret (r, bs), s') -> exists f, f_read n (fp (ph s)) = (r, bs, f) /\
    s' = Psar_state (set_fp (ph s) f) (kmem s) (heap s) (world s).
Proof. unfold file_read. destruct (f_read n (fp (ph s))) as [[r' bs'] f]. naive_solver. Qed.

Lemma file_lseek_Ret ofs s r s' :
  file_lseek ofs s = (Ret r, s') -> exists f, f_lseek ofs (fp (ph s)) = (r, f) /\
    s' = Psar_state (set_fp (ph s) f) (kmem s) (heap s) (world s).
Proof. unfold file_lseek. destruct (f_lseek ofs (fp (ph s))) as [r' f]. naive_solver. Qed.

Lemma alloc_Ret n s ok s' :
  alloc n s = (Ret ok, s') -> exists hp, malloc n (heap s) = (ok, hp) /\
    s' = Psar_state (ph s) (kmem s) hp (world s).
Proof. unfold alloc. destruct (malloc n (heap s)). naive_solver. Qed.

Lemma set_ph_Ret f s u s' :
  set_ph (H:=H) (W:=W) f s = (Ret u, s') -> s' = Psar_state (f (ph s)) (kmem s) (heap s) (world s).
Proof. by intros Hr%modify_Ret. Qed.
End frame.

Ltac frame_step :=
  first
    [ psar_step
    | match goal with
      | H : with_kirk _ _ = (Ret _, _) |- _ =>
          let m := fresh "m" in let Hk := fresh "Hkirk" in
          apply with_kirk_Ret in H as (m & Hk & ->)
      | H : file_read _ _ = (Ret (_, _), _) |- _ =>
          let f := fresh "f" in let Hf := fresh "Hread" in apply file_read_Ret in H as (f & Hf & ->)
      | H : file_lseek _ _ = (Ret _, _) |- _ =>
          let f := fresh "f" in let Hf := fresh "Hseek" in
          apply file_lseek_Ret in H as (f & Hf & ->)
      | H : alloc _ _ = (Ret _, _) |- _ =>
          let h := fresh "hp" in let Hf := fresh "Halloc" in
          apply alloc_Ret in H as (h & Hf & ->)
      | H : set_ph _ _ = (Ret _, _) |- _ => apply set_ph_Ret in H as ->
      | H : file_tell _ = (Ret _, _) |- _ => unfold file_tell in H
      end ].

Ltac frame_run := repeat frame_step; simplify_eq.

Section reads.
Context {F H W : Type} `{HF : Fat W F} `{HH : Heap H} `{HK : Kirk} `{HZ : Miniz} `{HD : Des}.
Implicit Types (s : psar_state F H W) (h : PsarHandle F).

Lemma keeps_fp s f m hp : keeps s (Psar_state (set_fp (ph s) f) m hp (world s)).
Proof. done. Qed.

Lemma keeps_wb1 s h b m hp w :
  archive h = archive (ph s) -> w = world s -> length b = length (wb1 h) ->
  keeps s (Psar_state (set_wb1 h b) m hp w).
Proof. intros Ha -> Hl. split; [|done]. rewrite <- Ha. unfold archive. cbn. by rewrite Hl. Qed.

Lemma keeps_wb2 s h b m hp w :
  archive h = archive (ph s) -> w = world s -> length b = length (wb2 h) ->
  keeps s (Psar_state (set_wb2 h b) m hp w).
Proof. intros Ha -> Hl. split; [|done]. rewrite <- Ha. unfold archive. cbn. by rewrite Hl. Qed.

Lemma decrypt_header_keeps s u s' : decrypt_header s = (Ret u, s') -> keeps s s'.
Proof.
  unfold decrypt_header. intros Hrun. frame_run; apply keeps_wb1; [done|done|by apply length_splice].
Qed.

Lemma decrypt_block_keeps s n s' : decrypt_block_in_wb1 s = (Ret n, s') -> keeps s s'.
Proof.
  unfold decrypt_block_in_wb1. intros Hrun. frame_run. apply keeps_wb1; [done|done|].
  by eapply prx_decrypt_length.
Qed.

Lemma read_next_block_keeps n s len s' : read_next_block_wb1 n s = (Ret len, s') -> keeps s s'.
Proof.
  unfold read_next_block_wb1. intros Hrun. frame_run.
  all: etrans; [|by eapply decrypt_block_keeps].
  all: try (etrans; [|by eapply decrypt_header_keeps]).
  all: apply keeps_wb1; [done|done|by apply length_splice].
Qed.

Lemma read_file_by_entry_keeps e s len s' : read_file_by_entry e s = (Ret len, s') -> keeps s s'.
Proof.
  unfold read_file_by_entry, zlib_decompress. intros Hrun. frame_run.
  etrans; [|etrans; [by eapply read_next_block_keeps|]]; [apply keeps_fp|].
  apply keeps_wb2; [done|done|by apply length_splice].
Qed.

Lemma decrypt_ipl_keeps s n s' : decrypt_ipl s = (Ret n, s') -> keeps s s'.
Proof.
  unfold decrypt_ipl. intros Hrun. frame_run. apply keeps_wb2; [done|done|]. by eapply prx_decrypt_length.
Qed.
End reads.

(** ** Well-formed handles *)

Section handles.
Context {F H W : Type} `{HF : Fat W F} `{HH : Heap H} `{HK : Kirk} `{HZ : Miniz} `{HD : Des}.
Implicit Types (s : psar_state F H W) (h : PsarHandle F).

(** The entry's data, packed and unpacked, fits both buffers. *)
Definition entry_fits (l1 l2 : nat) (e : PsarEntry) : Prop :=
  size (header e) <= Z.of_nat l1 /\ size (header e) <= Z.of_nat l2 /\
  expanded_size (header e) <= Z.of_nat l1 /\ expanded_size (header e) <= Z.of_nat l2.

Definition is_661 (m : PsarMetadata) : Prop :=
  exists p, strrchr (meta_version m) comma = Some (Some p) /\
    memcmp (drop (p + 1) (meta_version m)) v661 4 = Some 0.

Record psar_wf h : Prop := {
  wf_num : num_entries h = length (entries h);
  wf_fits : Forall (entry_fits (length (wb1 h)) (length (wb2 h))) (entries h);
  wf_num_table : num_table_entries h = length (table_list h);
  wf_table : Forall (fun te => entry te < length (entries h))%nat (table_list h)
}.

Lemma archive_wf h h' : archive h' = archive h -> psar_wf h -> psar_wf h'.
Proof.
  unfold archive. intros Ha [? ? ? ?]. injection Ha as ?? Hw1 Hw2 He Hn ? Htl Hnt ?.
  split; by rewrite ?Hw1, ?Hw2, ?He, ?Hn, ?Htl, ?Hnt.
Qed.

Lemma read_entries_Ret n i room s l s' :
  read_entries n i room s = (Ret l, s') ->
  keeps s s' /\ length l = n /\
  Forall (entry_fits (length (wb1 (ph s))) (length (wb2 (ph s)))) l /\
  ((0 < n)%nat -> (i + Z.of_nat n) * sizeof_PsarEntry <= room).
Proof.
  revert i s l s'. induction n as [|n IH]; intros i s l s'; cbn [read_entries]; intros Hrun.
  { frame_run. split_and!; try done. lia. }
  frame_run.
  match goal with H : read_entries _ _ _ _ = _ |- _ => apply IH in H as (Hk2 & Hl & Hf & Hroom) end.
  match goal with H : read_next_block_wb1 _ _ = _ |- _ => apply read_next_block_keeps in H as Hrun end. pose proof Hrun as [Ha _]. unfold archive in Ha.
  injection Ha as ?? Hw1 Hw2 ??????.
  cbn [ph set_fp wb1 wb2] in Hf. rewrite Hw1, Hw2 in *. bool_to_prop.
  split_and!; [etrans; [exact Hrun|exact Hk2]|simpl; lia| |].
  - constructor; [|done]. unfold entry_fits. cbn [header]. lia.
  - intros _. unfold sizeof_PsarEntry in *.
    destruct (decide (0 < n)%nat) as [Hn|Hn]; [specialize (Hroom Hn)|]; lia.
Qed.

Lemma read_contents_Ret fuel hdr0 s u s' :
  read_psar_contents_list fuel hdr0 s = (Ret u, s') ->
  num_entries (ph s') = length (entries (ph s')) /\
  Forall (entry_fits (length (wb1 (ph s'))) (length (wb2 (ph s')))) (entries (ph s')).
Proof.
  unfold read_psar_contents_list. intros Hrun. frame_run.
  match goal with H : read_entries _ _ _ _ = _ |- _ => apply read_entries_Ret in H as (Hk & Hl & Hf & _) end.
  destruct Hk as [Ha _]. unfold archive in Ha. injection Ha as ?? Hw1 Hw2 ??????.
  cbn [ph set_contents wb1 wb2 entries num_entries set_fp] in *. rewrite Hw1, Hw2. done.
Qed.

(** The first entry with that name. *)
Definition first_named h (nm : list Z) (i : nat) : Prop :=
  (exists e, entries h !! i = Some e /\ strcmp (filename (header e)) nm = Some 0) /\
  forall j e, (j < i)%nat -> entries h !! j = Some e -> strcmp (filename (header e)) nm <> Some 0.

Lemma lookup_from_Ret n i h nm s r s' :
  lookup_from (H:=H) (W:=W) n i h nm s = (Ret r, s') ->
  (forall j e, (j < i)%nat -> entries h !! j = Some e -> strcmp (filename (header e)) nm <> Some 0) ->
  s' = s /\ match r with Some k => first_named h nm k | None => True end.
Proof.
  revert i. induction n as [|n IH]; intros i; cbn [lookup_from]; intros Hrun Hlt; frame_run; bool_to_prop.
  - done.
  - split; [done|]. split; [|done]. eexists. split; [done|]. congruence.
  - eapply IH; [done|]. intros j e Hj He. destruct (decide (j = i)) as [->|]; [|apply (Hlt j); [lia|done]].
    naive_solver.
Qed.

Lemma lookup_entry_Ret nm s r s' :
  lookup_entry_by_name nm s = (Ret r, s') ->
  s' = s /\ match r with Some k => first_named (ph s) nm k | None => True end.
Proof. unfold lookup_entry_by_name. intros Hrun. frame_run. eapply lookup_from_Ret; [done|]. lia. Qed.

Lemma first_named_lt h nm i : first_named h nm i -> (i < length (entries h))%nat.
Proof. intros [(e & He & _) _]. by apply lookup_lt_Some in He. Qed.

Lemma parse_lines_Ret n i room token saved table s l table' s' :
  parse_lines n i room token saved table s = (Ret (l, table'), s') ->
  s' = s /\ length l = n /\ Forall (fun te => entry te < length (entries (ph s)))%nat l.
Proof.
  revert i token saved table s l s'. induction n as [|n IH]; intros i token saved table s l s';
    cbn [parse_lines]; intros Hrun; [by frame_run|].
  unfold parse_line in Hrun. frame_run.
  match goal with H : lookup_entry_by_name _ _ = _ |- _ => apply lookup_entry_Ret in H as [-> Hf] end.
  match goal with H : parse_lines _ _ _ _ _ _ _ = _ |- _ => apply IH in H as (-> & Hl & Hfa) end.
  split_and!; [done|simpl; lia|]. constructor; [|done]. cbn [entry]. by eapply first_named_lt.
Qed.

Lemma count_loop_keeps fuel t n s r s' : count_table_entries_loop fuel t n s = (Ret r, s') -> s' = s.
Proof.
  revert t n. induction fuel as [|fuel IH]; intros t n; cbn [count_table_entries_loop]; intros Hrun; frame_run.
  - by eapply IH.
  - done.
Qed.

Lemma build_table_wf t s u s' :
  build_table_entry_list t s = (Ret u, s') ->
  num_entries (ph s) = length (entries (ph s)) ->
  Forall (entry_fits (length (wb1 (ph s))) (length (wb2 (ph s)))) (entries (ph s)) ->
  psar_wf (ph s') /\ metadata (ph s') = metadata (ph s) /\ table_version (ph s') = table_version (ph s) /\
  world s' = world s.
Proof.
  unfold build_table_entry_list, count_table_entries. intros Hrun Hn Hf. frame_run.
  match goal with H : count_table_entries_loop _ _ _ _ = _ |- _ => apply count_loop_keeps in H as -> end.
  match goal with H : parse_lines _ _ _ _ _ _ _ = _ |- _ => apply parse_lines_Ret in H as (-> & Hl & Hfa) end.
  by split_and!; [split|..].
Qed.

(** A file that is an IPL: it makes the self test succeed. *)
Definition has_ipl h : Prop :=
  exists te e, te ∈ table_list h /\ entries h !! entry te = Some e /\ is_entry_a_file e = true /\
    memcmp (drop (path te) (table_text h)) ipl_prefix 4 = Some 0.

Lemma self_test_Ret n i s u s' :
  self_test_from n i s = (Ret u, s') -> keeps s s' /\ has_ipl (ph s).
Proof.
  revert i. induction n as [|n IH]; intros i; cbn [self_test_from]; intros Hrun; [by frame_run|].
  unfold is_ipl_path in Hrun. frame_run; try by eapply IH.
  match goal with H : read_file_by_entry _ _ = _ |- _ => apply read_file_by_entry_keeps in H as Hk1 end.
  match goal with H : decrypt_ipl _ = _ |- _ => apply decrypt_ipl_keeps in H as Hk2 end.
  split; [by etrans|]. bool_to_prop. eexists _, _. split_and!; [by eapply list_elem_of_lookup_2|done|done|congruence].
Qed.
End handles.

Section open.
Context {F H W : Type} `{HF : Fat W F} `{HH : Heap H} `{HK : Kirk} `{HZ : Miniz} `{HD : Des}.
Implicit Types (s : psar_state F H W) (h : PsarHandle F).

Lemma get_table_name_Ret model s x s' :
  get_table_name_for_model model s = (Ret x, s') -> s' = s /\ model <> PSP_MODEL_other.
Proof. destruct model; cbn; intros Hrun; frame_run; done. Qed.

Lemma read_file_by_name_keeps nm s len s' : read_file_by_name nm s = (Ret len, s') -> keeps s s'.
Proof.
  unfold read_file_by_name. intros Hrun. frame_run.
  match goal with H : lookup_entry_by_name _ _ = _ |- _ => apply lookup_entry_Ret in H as [-> _] end.
  by eapply read_file_by_entry_keeps.
Qed.

Lemma decrypt_table_keeps len v s r s' : decrypt_table len v s = (Ret r, s') -> keeps s s'.
Proof.
  unfold decrypt_table, get_table_keys. intros Hrun. frame_run.
  all: match goal with H : prx_decrypt _ _ = _ |- _ => apply prx_decrypt_length in H as Hlen end.
  all: split; [|done]; unfold archive; cbn [ph set_wb2 version table_version wb1 wb2 entries num_entries
    table_text table_list num_table_entries metadata]; by rewrite Hlen, ?length_splice.
Qed.

Lemma self_test_ipl_Ret model s u s' :
  self_test_ipl_decryption model s = (Ret u, s') ->
  keeps s s' /\ (model <> PSP_MODEL_01G -> has_ipl (ph s)).
Proof.
  unfold self_test_ipl_decryption. intros Hrun. case_bool_decide as Hm; frame_run; [done|].
  match goal with H : self_test_from _ _ _ = _ |- _ => apply self_test_Ret in H as [? ?] end. done.
Qed.

Lemma archive_has_ipl h h' : archive h' = archive h -> has_ipl h -> has_ipl h'.
Proof.
  unfold archive. intros Ha (te & e & ?). injection Ha as ?? Hw1 Hw2 He Hn Ht Htl Hnt ?.
  exists te, e. by rewrite Htl, He, Ht.
Qed.

Lemma psar_open_Ret model fuel hdr0 p s u s' :
  psar_open model fuel hdr0 p s = (Ret u, s') ->
  psar_wf (ph s') /\ is_661 (metadata (ph s')) /\ table_version (ph s') = 4 /\
  model <> PSP_MODEL_other /\ (model <> PSP_MODEL_01G -> has_ipl (ph s')).
Proof.
  unfold psar_open. intros Hrun. frame_run.
  match goal with H : read_psar_contents_list _ _ _ = _ |- _ => apply read_contents_Ret in H as [Hn Hf] end.
  match goal with H : get_table_name_for_model _ _ = _ |- _ => apply get_table_name_Ret in H as [-> Hm] end.
  match goal with H : read_file_by_name _ _ = _ |- _ => apply read_file_by_name_keeps in H as [Ha1 _] end.
  match goal with H : decrypt_table _ _ _ = _ |- _ => apply decrypt_table_keeps in H as [Ha2 _] end.
  match goal with H : self_test_ipl_decryption _ _ = _ |- _ => apply self_test_ipl_Ret in H as [[Ha3 _] Hipl] end.
  rewrite Ha1 in Ha2. unfold archive in Ha2. cbn in Ha2.
  injection Ha2 as ? Htv Hw1 Hw2 He Hne ? ? ? Hmeta.
  match goal with H : build_table_entry_list _ _ = _ |- _ =>
    apply build_table_wf in H as (Hwf & Hmeta' & Htv' & _); [|by rewrite Hne, He|by rewrite Hw1, Hw2, He] end.
  pose proof Ha3 as Ha3'. unfold archive in Ha3'. injection Ha3' as ? Htv3 ????? ? ? Hmeta3.
  split_and!; [by eapply archive_wf| |congruence|done|intros; eapply archive_has_ipl; eauto].
  rewrite Hmeta3, Hmeta', Hmeta. bool_to_prop. unfold is_661. eexists. split; [done|congruence].
Qed.
End open.

(** ** Iterating over the table *)

Section iterate.
Context {F H W : Type} `{HF : Fat W F} `{HH : Heap H} `{HK : Kirk} `{HZ : Miniz} `{HD : Des}.
Implicit Types (s : psar_state F H W) (h : PsarHandle F).

(** The rows of the table with their entries, files or directories only. *)
Definition rows (file : bool) h (l : list TableEntry) : list (TableEntry * PsarEntry) :=
  omap (fun te => e ← entries h !! entry te;
          if bool_decide (is_entry_a_file e = file) then Some (te, e) else None) l.

(** A handler that leaves the archive alone. *)
Definition modest {A} (c : PM (F:=F) (H:=H) (W:=W) A) : Prop :=
  forall s a s', c s = (Ret a, s') -> archive (ph s') = archive (ph s).

Lemma visit_file_text model func h h' te e :
  table_text h' = table_text h -> visit_file (H:=H) (W:=W) model func h' te e = visit_file model func h te e.
Proof. intros Ht. unfold visit_file, is_ipl_path. by rewrite Ht. Qed.

Lemma visit_file_keeps model func h te e :
  (forall p l pr, modest (func p l pr)) -> modest (visit_file model func h te e).
Proof.
  intros Hfunc s a s'. unfold visit_file, is_ipl_path. intros Hrun. frame_run.
  all: match goal with H : read_file_by_entry _ _ = _ |- _ => apply read_file_by_entry_keeps in H as [Ha1 _] end.
  - match goal with H : func _ _ _ _ = _ |- _ => apply Hfunc in H as Ha2 end.
    match goal with H : decrypt_ipl _ = _ |- _ => apply decrypt_ipl_keeps in H as [Ha3 _] end. congruence.
  - match goal with H : func _ _ _ _ = _ |- _ => apply Hfunc in H as Ha2 end. congruence.
Qed.

Lemma each_file_from_rows model func h0 n i s :
  psar_wf h0 -> (forall p l pr, modest (func p l pr)) -> archive (ph s) = archive h0 ->
  (i + n = length (table_list h0))%nat ->
  each_file_from model n i func s
  = for_each (rows true h0 (drop i (table_list h0))) (fun r => visit_file model func h0 (fst r) (snd r)) s.
Proof.
  intros Hwf Hfunc. revert i s. induction n as [|n IH]; intros i s Ha Hn; cbn [each_file_from].
  { by rewrite drop_ge by lia. }
  assert (Hte : is_Some (table_list h0 !! i)) by (apply lookup_lt_is_Some; lia).
  destruct Hte as [te Hte]. rewrite (drop_S _ _ _ Hte). pose proof (wf_table _ Hwf) as Hent.
  pose proof (Forall_lookup_1 _ _ _ _ Hent Hte) as Hlt. apply lookup_lt_is_Some in Hlt as [e He].
  pose proof Ha as Ha'. unfold archive in Ha'. injection Ha' as ?? ?? Hes ? Htt Htl ? ?.
  unfold rows. cbn [omap list_omap]. rewrite He. cbn [mbind option_bind]. fold (rows true h0 (drop (S i) (table_list h0))).
  unfold bind at 1, gets at 1. rewrite (bind_deref _ te) by congruence.
  rewrite (bind_deref _ e) by congruence. destruct (is_entry_a_file e) eqn:Hf.
  - rewrite bool_decide_true by done. cbn [for_each fst snd]. cbn [negb]. rewrite (visit_file_text _ _ h0) by congruence.
    unfold bind. destruct (visit_file model func h0 te e s) as [[u|er| | |] s1] eqn:Hv; try done.
    apply IH; [|lia]. rewrite (visit_file_keeps _ _ _ _ _ Hfunc _ _ _ Hv). done.
  - rewrite bool_decide_false by congruence. cbn [negb]. apply IH; [done|lia].
Qed.

Lemma each_directory_from_rows func h0 n i s :
  psar_wf h0 -> (forall p, modest (func p)) -> archive (ph s) = archive h0 ->
  (i + n = length (table_list h0))%nat ->
  each_directory_from n i func s
  = for_each (rows false h0 (drop i (table_list h0)))
      (fun r => let* c := func (drop (path (fst r)) (table_text h0)) in
                if negb (c =? 0) then fail PSAR_ERR_HANDLER else ret tt) s.
Proof.
  intros Hwf Hfunc. revert i s. induction n as [|n IH]; intros i s Ha Hn; cbn [each_directory_from].
  { by rewrite drop_ge by lia. }
  assert (Hte : is_Some (table_list h0 !! i)) by (apply lookup_lt_is_Some; lia).
  destruct Hte as [te Hte]. rewrite (drop_S _ _ _ Hte). pose proof (wf_table _ Hwf) as Hent.
  pose proof (Forall_lookup_1 _ _ _ _ Hent Hte) as Hlt. apply lookup_lt_is_Some in Hlt as [e He].
  pose proof Ha as Ha'. unfold archive in Ha'. injection Ha' as ?? ?? Hes ? Htt Htl ? ?.
  unfold rows. cbn [omap list_omap]. rewrite He. cbn [mbind option_bind]. fold (rows false h0 (drop (S i) (table_list h0))).
  unfold bind at 1, gets at 1. rewrite (bind_deref _ te) by congruence.
  rewrite (bind_deref _ e) by congruence. destruct (is_entry_a_file e) eqn:Hf.
  - rewrite bool_decide_false by congruence. apply IH; [done|lia].
  - rewrite bool_decide_true by done. cbn [for_each fst snd]. rewrite Htt. unfold bind.
    destruct (func _ s) as [[c|er| | |] s1] eqn:Hv; try done.
    destruct (c =? 0); cbn [negb]; [|done]. apply IH; [|lia]. by rewrite (Hfunc _ _ _ _ Hv).
Qed.
End iterate.
