(* ===== verification/PsarTable.v ===== *)
(** * The header search and the table of the archive reader: when get_header
    finds the archive and when it never returns, and parsing as the inverse of
    printing a table. *)

From stdpp Require Import prelude list gmap.
From Stdlib Require Import ZArith Lia.
From S2P Require Import Prelude CMem CString Crypt Ipl Psar PsarWf.

Open Scope Z_scope.
Open Scope lk_scope.

(** ** Finding the PSAR header *)

Section headers.
Context {F H W : Type} `{HF : Fat W F} `{HFL : !FatLaws W F} `{HH : Heap H}.
Implicit Types (s : psar_state F H W) (f : F).

(** A medium without read errors. *)
Definition readable : Prop :=
  (forall n f, fst (fst (f_read n f)) = FR_OK) /\ (forall ofs f, fst (f_lseek ofs f) = FR_OK).

Definition at_pos s (data : list Z) (pos : Z) : Prop :=
  f_data (fp (ph s)) = data /\ f_tell (fp (ph s)) = pos.

Context (Hok : readable).

Lemma file_read_run n s data pos :
  at_pos s data pos ->
  exists s', file_read n s = (Ret (FR_OK, slice (Z.to_nat pos) n data), s') /\
    at_pos s' data (pos + Z.of_nat (length (slice (Z.to_nat pos) n data))).
Proof.
  intros [Hd Hp]. unfold file_read. pose proof (proj1 Hok n (fp (ph s))) as Hr.
  destruct (f_read n (fp (ph s))) as [[r bs] f] eqn:Hf. cbn in Hr. subst r.
  destruct (f_read_ok _ _ _ _ Hf) as (-> & Hd' & Ht'). rewrite Hd, Hp in *.
  eexists. split; [done|]. done.
Qed.

Lemma file_lseek_run ofs s data pos :
  at_pos s data pos -> 0 <= ofs ->
  exists s', file_lseek ofs s = (Ret FR_OK, s') /\ at_pos s' data (Z.min ofs (Z.of_nat (length data))).
Proof.
  intros [Hd Hp] Hofs. unfold file_lseek. pose proof (proj2 Hok ofs (fp (ph s))) as Hr.
  destruct (f_lseek ofs (fp (ph s))) as [r f] eqn:Hf. cbn in Hr. subst r.
  destruct (f_lseek_ok _ _ _ Hofs Hf) as (Hd' & Ht'). rewrite Hd in *. eexists. split; [done|]. done.
Qed.

(** The offset a PBP header holds. *)
Definition pbp_offset (data : list Z) : Z := le_decode (slice 0x24 4 data).

(** One turn on a PBP header goes to the offset it holds. *)
Lemma get_header_pbp fuel hdr s data pos :
  at_pos s data pos -> 0 <= pos -> (0x28 <= length data)%nat -> 0 <= pbp_offset data ->
  le_decode (slice 0 4 (splice 0 (slice (Z.to_nat pos) 16 data) hdr)) = 0x50425000 ->
  exists s', at_pos s' data (Z.min (pbp_offset data) (Z.of_nat (length data))) /\
    get_header (S fuel) hdr s = get_header fuel (splice 0 (slice (Z.to_nat pos) 16 data) hdr) s'.
Proof.
  intros Hat Hpos Hlen Hoff Hm. cbn [get_header].
  destruct (file_read_run 16 s data pos Hat) as (s1 & Hr1 & Hat1).
  destruct (file_lseek_run 0x24 s1 data _ Hat1 ltac:(lia)) as (s2 & Hr2 & Hat2).
  rewrite Z.min_l in Hat2 by lia.
  destruct (file_read_run 4 s2 data _ Hat2) as (s3 & Hr3 & Hat3).
  destruct (file_lseek_run (pbp_offset data) s3 data _ Hat3 Hoff) as (s4 & Hr4 & Hat4).
  exists s4. split; [done|].
  rewrite (bind_run _ _ _ _ _ Hr1). cbn beta iota. unfold fr_ok. rewrite bool_decide_true by done.
  cbn [negb]. cbv zeta. rewrite Hm. cbn [Z.eqb Pos.eqb].
  rewrite (bind_run _ _ _ _ _ Hr2), bool_decide_true by done. cbn [negb].
  rewrite (bind_run _ _ _ _ _ Hr3). cbn beta iota. rewrite bool_decide_true by done. cbn [negb].
  cbv zeta. change (Z.to_nat 0x24) with 0x24%nat in *.
  assert (Hsp : splice 0 (slice 0x24 4 data) [0; 0; 0; 0] = slice 0x24 4 data).
  { unfold splice. rewrite length_slice by lia. cbn. apply app_nil_r. }
  rewrite Hsp. rewrite (bind_run _ _ _ _ _ Hr4), bool_decide_true by done. done.
Qed.

Lemma get_header_psar fuel hdr s data pos :
  at_pos s data pos -> 0 <= pos -> pos + 16 <= Z.of_nat (length data) -> length hdr = 16%nat ->
  le_decode (slice (Z.to_nat pos) 4 data) = 0x52415350 ->
  exists s', get_header (S fuel) hdr s = (Ret (slice (Z.to_nat pos) 16 data), s') /\
    at_pos s' data (pos + 16).
Proof.
  intros Hat Hpos Hlen Hh Hm. cbn [get_header].
  destruct (file_read_run 16 s data pos Hat) as (s1 & Hr1 & Hat1).
  assert (Hl : length (slice (Z.to_nat pos) 16 data) = 16%nat) by (apply length_slice; lia).
  rewrite Hl in Hat1. exists s1. split; [|done].
  rewrite (bind_run _ _ _ _ _ Hr1). cbn beta iota. unfold fr_ok. rewrite bool_decide_true by done.
  cbn [negb]. cbv zeta.
  assert (Hsp : splice 0 (slice (Z.to_nat pos) 16 data) hdr = slice (Z.to_nat pos) 16 data).
  { unfold splice. rewrite Hl, drop_ge by lia. cbn. apply app_nil_r. }
  rewrite Hsp, slice_slice, Nat.add_0_r, Hm by lia. done.
Qed.

(** Once the header variable holds a PBP header and the file is read at its end,
    nothing changes any more. *)
Lemma get_header_stuck fuel hdr s data :
  at_pos s data (Z.of_nat (length data)) -> (0x28 <= length data)%nat ->
  Z.of_nat (length data) <= pbp_offset data -> le_decode (slice 0 4 hdr) = 0x50425000 ->
  fst (get_header fuel hdr s) = Hang.
Proof.
  intros Hat Hlen Ho Hm. revert s Hat. induction fuel as [|fuel IH]; intros s Hat; [done|].
  assert (Hnil : splice 0 (slice (Z.to_nat (Z.of_nat (length data))) 16 data) hdr = hdr).
  { unfold slice. by rewrite Nat2Z.id, drop_all. }
  destruct (get_header_pbp fuel hdr s data _ Hat) as (s' & Hat' & ->); [lia|done|lia|by rewrite Hnil|].
  rewrite Hnil. apply IH. by rewrite Z.min_r in Hat' by lia.
Qed.
End headers.

(** ** Parsing the table *)

Section strstr_crlf.
Implicit Types (l rest : list Z).

Lemma memcmp_crlf_miss x y rest : x <> 13 -> is_byte x ->
  exists r, memcmp (x :: y :: rest) crlf 2 = Some r /\ r <> 0.
Proof.
  intros Hx Hb. unfold is_byte in Hb. cbn [memcmp crlf]. cbv zeta.
  pose proof (s8_eq_0 (x - 13) ltac:(lia)) as Hs. destruct (s8 (x - 13) =? 0) eqn:E; bool_to_prop.
  - lia.
  - by eexists.
Qed.

(** The separator is found behind a text without carriage returns. *)
Lemma strstr_loop_found n l rest :
  Forall (fun c => is_byte c /\ c <> 13) l -> (length l < n)%nat ->
  strstr_loop n (l ++ 13 :: 10 :: rest) crlf 2 = Some (Some (length l)).
Proof.
  intros Hl. revert n. induction Hl as [|x l [Hb Hx] _ IH]; intros [|n] Hn; simpl in Hn; try lia.
  { done. }
  cbn [app strstr_loop].
  assert (Hxy : exists y r, l ++ 13 :: 10 :: rest = y :: r) by (destruct l; cbn; eauto).
  destruct Hxy as (y & r & Hy). rewrite Hy. destruct (memcmp_crlf_miss x y r Hx Hb) as (v & -> & Hv).
  cbn [mbind option_bind tail]. rewrite (proj2 (Z.eqb_neq _ _) Hv), <- Hy, IH by lia. done.
Qed.

Lemma strstr_loop_none n l rest :
  Forall (fun c => is_byte c /\ c <> 13) l -> (n <= length l)%nat ->
  strstr_loop n (l ++ 0 :: rest) crlf 2 = Some None.
Proof.
  intros Hl. revert n. induction Hl as [|x l [Hb Hx] _ IH]; intros [|n] Hn; simpl in Hn; try lia; try done.
  cbn [app strstr_loop].
  assert (Hxy : exists y r, l ++ 0 :: rest = y :: r) by (destruct l; cbn; eauto).
  destruct Hxy as (y & r & Hy). rewrite Hy. destruct (memcmp_crlf_miss x y r Hx Hb) as (v & -> & Hv).
  cbn [mbind option_bind tail]. rewrite (proj2 (Z.eqb_neq _ _) Hv), <- Hy, IH by lia. done.
Qed.
End strstr_crlf.

Section table.
Context {F H W : Type} `{HF : Fat W F} `{HH : Heap H}.
Implicit Types (s : psar_state F H W) (h : PsarHandle F).

(** Text of a name or a path: no terminator, no line break. *)
Definition text (l : list Z) : Prop := Forall (fun c => is_byte c /\ c <> 0 /\ c <> 13 /\ c <> 10) l.

(** A line of the table, as it is stored and as the parser leaves it. *)
Definition line (r : list Z * list Z) : list Z := fst r ++ comma :: snd r ++ [13; 10].
Definition split_line (r : list Z * list Z) : list Z := fst r ++ 0 :: snd r ++ [0; 10].

Definition row_ok (r : list Z * list Z) : Prop := text (fst r) /\ comma ∉ fst r /\ text (snd r).

Lemma text_no_cr l : text l -> Forall (fun c => is_byte c /\ c <> 13) l.
Proof. intros Hl. eapply Forall_impl; [exact Hl|]. naive_solver. Qed.

Lemma text_no_nul l : text l -> no_nul l.
Proof. intros Hl. eapply Forall_impl; [exact Hl|]. naive_solver. Qed.

Lemma text_token l : text l -> Forall (fun c => c ∉ [13; 10]) l.
Proof. intros Hl. eapply Forall_impl; [exact Hl|]. intros c Hc. set_solver. Qed.

Lemma comma_text : text [comma].
Proof. repeat constructor; unfold comma; lia. Qed.

Definition line_text (r : list Z * list Z) : list Z := fst r ++ comma :: snd r.

Lemma line_text_ok r : row_ok r -> text (line_text r).
Proof.
  intros (Hn & _ & Hp). unfold line_text. apply Forall_app. split; [done|].
  change (comma :: snd r) with ([comma] ++ snd r). apply Forall_app. split; [apply comma_text|done].
Qed.

Lemma line_split r : line r = line_text r ++ [13; 10].
Proof. unfold line, line_text. by rewrite <- app_assoc. Qed.

(** *** Counting the lines *)

Lemma strlen_lines l rest : no_nul l -> strlen (l ++ 0 :: rest) = Some (length l).
Proof. intros Hl. apply strlen_cstr. by apply cstr_intro. Qed.

Lemma no_nul_lines rs : Forall row_ok rs -> no_nul (concat (map line rs)).
Proof.
  induction 1 as [|r rs Hr _ IH]; [constructor|]. cbn [map concat]. apply Forall_app. split; [|done].
  rewrite line_split. apply Forall_app. split; [by apply text_no_nul, line_text_ok|repeat constructor; lia].
Qed.

Lemma lines_length rs : (length rs <= length (concat (map line rs)))%nat.
Proof.
  induction rs as [|r rs IH]; [done|]. cbn [map concat length]. rewrite length_app.
  assert (1 <= length (line r))%nat by (unfold line; rewrite length_app; cbn [length]; lia). lia.
Qed.

Lemma strstr_lines r rs rest :
  row_ok r -> Forall row_ok rs ->
  strstr (concat (map line (r :: rs)) ++ 0 :: rest) crlf = Some (Some (length (line_text r))).
Proof.
  intros Hr Hrs. unfold strstr. change (strlen crlf) with (Some 2%nat). cbn [mbind option_bind Nat.eqb].
  rewrite strlen_lines by (by apply no_nul_lines, Forall_cons). cbn [mbind option_bind].
  cbn [map concat]. rewrite line_split, <- !app_assoc. cbn [app].
  apply strstr_loop_found; [by apply text_no_cr, line_text_ok|]. rewrite length_app. simpl. lia.
Qed.

Lemma count_loop_lines fuel rs rest n s :
  Forall row_ok rs -> (length rs < fuel)%nat ->
  count_table_entries_loop fuel (concat (map line rs) ++ 0 :: rest) n s = (Ret (n + length rs)%nat, s).
Proof.
  intros Hrs. revert n fuel. induction Hrs as [|r rs Hr Hrs IH]; intros n [|fuel] Hf; simpl in Hf; try lia;
    cbn [count_table_entries_loop].
  - cbn [map concat app]. rewrite (bind_deref _ None); [simpl; by rewrite Nat.add_0_r|].
    unfold strstr. cbn. done.
  - rewrite (bind_deref _ (Some (length (line_text r)))) by (by apply strstr_lines).
    cbn [map concat]. rewrite line_split, <- !app_assoc.
    rewrite (drop_app_ge (line_text r)) by lia.
    replace (length (line_text r) + 2 - length (line_text r))%nat with 2%nat by lia.
    cbn [app drop]. rewrite drop_0. rewrite IH by lia. do 2 f_equal. simpl. lia.
Qed.

(** *** Finding the entry of a line *)

(** The entries carry the names [nms]. *)
Definition named h (nms : list (list Z)) : Prop :=
  num_entries h = length (entries h) /\
  Forall2 (fun e nm => cstr nm (filename (header e)) /\ bytes_ok nm) (entries h) nms.

Lemma lookup_from_named n i h nms nm m s :
  Forall2 (fun e x => cstr x (filename (header e)) /\ bytes_ok x) (entries h) nms ->
  (i + n = length (entries h))%nat -> bytes_ok nm -> cstr nm m ->
  lookup_from n i h m s = (Ret ((fun k => i + k)%nat <$> (fst <$> list_find (fun x => x = nm) (drop i nms))), s).
Proof.
  intros Hn Hlen Hb Hm. pose proof (Forall2_length _ _ _ Hn) as Hl. revert i Hlen.
  induction n as [|n IH]; intros i Hlen; cbn [lookup_from].
  { by rewrite drop_ge by lia. }
  destruct (lookup_lt_is_Some_2 (entries h) i) as [e He]; [lia|].
  destruct (Forall2_lookup_l _ _ _ _ _ Hn He) as (x & Hx & Hc & Hbx).
  rewrite (bind_deref _ e) by done. destruct (strcmp_eq x nm _ _ Hbx Hb Hc Hm) as (r & Hr & Hiff).
  rewrite (bind_deref _ r) by done. rewrite (drop_S _ _ _ Hx). cbn [list_find].
  destruct (Z.eqb_spec r 0) as [Hr0|Hr0].
  - rewrite decide_True by (by apply Hiff). cbn. by rewrite Nat.add_0_r.
  - rewrite decide_False by (intros E; by apply Hr0, Hiff). rewrite IH by lia. do 2 f_equal.
    destruct (list_find _ (drop (S i) nms)) as [[k y]|]; cbn; [f_equal; lia|done].
Qed.

Lemma lookup_entry_named nms nm m s :
  named (ph s) nms -> bytes_ok nm -> cstr nm m ->
  lookup_entry_by_name m s = (Ret (fst <$> list_find (fun x => x = nm) nms), s).
Proof.
  intros [Hnum Hn] Hb Hm. unfold lookup_entry_by_name, bind at 1, gets at 1.
  rewrite (lookup_from_named _ _ _ nms nm) by (done || lia). rewrite drop_0.
  by destruct (list_find _ nms) as [[k y]|].
Qed.

(** *** The lines *)

Lemma crlf_cstr : cstr [13; 10] crlf.
Proof. apply (cstr_intro [13; 10] []). repeat constructor; lia. Qed.

Lemma text_bytes l : text l -> bytes_ok l.
Proof. intros Hl. eapply Forall_impl; [exact Hl|]. naive_solver. Qed.

Lemma insert_middle (pre mid : list Z) x y rest :
  <[(length pre + length mid)%nat := y]> (pre ++ mid ++ x :: rest) = pre ++ mid ++ y :: rest.
Proof.
  rewrite insert_app_r. f_equal. replace (length mid) with (length mid + 0)%nat by lia.
  by rewrite insert_app_r.
Qed.

Lemma parse_line_run nms r k pre rest s :
  named (ph s) nms -> row_ok r -> list_find (fun x => x = fst r) nms = Some (k, fst r) ->
  parse_line (length pre) (pre ++ line_text r ++ rest) s
  = (Ret (Table_entry (length pre) (length pre + length (fst r) + 1) k,
          pre ++ fst r ++ 0 :: snd r ++ rest), s).
Proof.
  intros Hn (Ht & Hc & Hp) Hk. unfold parse_line, line_text. rewrite <- app_assoc. cbn [app].
  rewrite drop_app_length.
  rewrite (bind_deref _ (Some (length (fst r)))) by (apply strchr_found; [by apply text_no_nul|done|done]).
  cbv zeta. rewrite insert_middle, drop_app_length.
  rewrite (bind_run _ _ _ _ _ (lookup_entry_named nms (fst r) _ s Hn (text_bytes _ Ht) (cstr_intro _ _ (text_no_nul _ Ht)))).
  rewrite Hk. done.
Qed.

(** Where the entries of the list point: each line from its own place on. *)
Fixpoint table_of (pos : nat) (rs : list (list Z * list Z)) (ks : list nat) : list TableEntry :=
  match rs, ks with
  | r :: rs', k :: ks' =>
      Table_entry pos (pos + length (fst r) + 1) k :: table_of (pos + length (line r)) rs' ks'
  | _, _ => []
  end.

Definition indexed (nms : list (list Z)) (r : list Z * list Z) (k : nat) : Prop :=
  list_find (fun x => x = fst r) nms = Some (k, fst r).

Lemma line_text_nonempty r : line_text r <> [].
Proof. unfold line_text. by destruct (fst r). Qed.

Lemma parse_lines_run nms rs : forall ks r k pre i room rest s,
  named (ph s) nms -> row_ok r -> Forall row_ok rs -> indexed nms r k -> Forall2 (indexed nms) rs ks ->
  (i + 1 + Z.of_nat (length rs)) * sizeof_TableEntry <= room ->
  parse_lines (S (length rs)) i room (Some (length pre)) (Some (length pre + length (line_text r) + 1)%nat)
    (pre ++ line_text r ++ 0 :: 10 :: concat (map line rs) ++ 0 :: rest) s
  = (Ret (table_of (length pre) (r :: rs) (k :: ks),
          pre ++ concat (map split_line (r :: rs)) ++ 0 :: rest), s).
Proof.
  induction rs as [|r' rs IH]; intros ks r k pre i room rest s Hn Hr Hrs Hk Hks Hroom;
    cbn [parse_lines length]; rewrite (bind_run _ _ _ _ _ (parse_line_run nms r k pre _ s Hn Hr Hk));
    cbn beta iota; unfold sizeof_TableEntry in *; cbn [length] in Hroom;
    rewrite (proj2 (Z.ltb_ge _ _)) by lia; unfold bind at 1, ret at 1;
    set (pre' := pre ++ fst r ++ 0 :: snd r ++ [0]);
    assert (Hpre : (length pre + length (line_text r) + 1)%nat = length pre')
      by (unfold pre', line_text; rewrite !length_app; simpl; rewrite length_app; simpl; lia).
  - inversion Hks; subst. cbn [map concat app].
    assert (Htab : pre ++ fst r ++ 0 :: snd r ++ 0 :: 10 :: 0 :: rest = pre' ++ [10] ++ 0 :: rest)
      by (unfold pre'; by rewrite <- !app_assoc; simpl; rewrite <- app_assoc).
    rewrite Htab, Hpre.
    rewrite (bind_deref _ (None, None, pre' ++ [10] ++ 0 :: rest))
      by (apply (strtok_end [13; 10] crlf crlf_cstr); [repeat constructor; lia|repeat constructor; set_solver|done]).
    cbn beta iota. cbn [parse_lines]. unfold bind, ret. cbn [table_of]. do 3 f_equal.
    unfold pre', split_line. cbn [fst snd app]. rewrite app_nil_r, <- !app_assoc. simpl. by rewrite <- !app_assoc.
  - apply Forall_cons in Hrs as [Hr' Hrs]. inversion Hks as [|? k' ? ks' Hk' Hks']; subst.
    cbn [map concat]. rewrite line_split, <- !app_assoc. cbn [app].
    set (more := concat (map line rs) ++ 0 :: rest).
    assert (Htab : pre ++ fst r ++ 0 :: snd r ++ 0 :: 10 :: line_text r' ++ 13 :: 10 :: more
                   = pre' ++ [10] ++ line_text r' ++ 13 :: 10 :: more)
      by (unfold pre'; by rewrite <- !app_assoc; simpl; rewrite <- app_assoc).
    rewrite Htab, Hpre.
    rewrite (bind_deref _ (Some (length pre' + 1)%nat, Some (length pre' + 1 + length (line_text r') + 1)%nat,
      pre' ++ [10] ++ line_text r' ++ 0 :: 10 :: more)).
    2: { pose proof (strtok_token [13; 10] crlf crlf_cstr pre' [10] (line_text r') 13 (10 :: more)
           (Some (length pre')) false) as Htok. cbv zeta in Htok. apply Htok; clear Htok;
         [repeat constructor; lia|repeat constructor; set_solver|by apply text_no_nul, line_text_ok
         |apply line_text_nonempty|by apply text_token, line_text_ok|set_solver|lia|by left]. }
    cbn beta iota. rewrite (app_assoc pre' [10]).
    replace (length pre' + 1)%nat with (length (pre' ++ [10])) by (rewrite length_app; simpl; lia).
    unfold more. pose proof (IH ks' r' k' (pre' ++ [10]) (i + 1) room rest s Hn Hr' Hrs Hk' Hks') as HIH.
    rewrite (bind_run _ _ _ _ _ (HIH ltac:(unfold sizeof_TableEntry; lia))). cbn beta iota.
    unfold ret. do 2 f_equal. f_equal.
    + assert (Hnext : length (pre' ++ [10]) = (length pre + length (line r))%nat).
      { unfold pre', line. repeat (rewrite ?length_app; cbn [length]). lia. }
      rewrite Hnext. done.
    + cbn [map concat]. unfold pre', split_line. rewrite <- !app_assoc. simpl. by rewrite <- !app_assoc.
Qed.

(** *** The whole table *)

Lemma strcpy_loop_run src : forall d m x,
  cstr src x -> (d + length src < length m)%nat ->
  strcpy_loop d x m = Some (take d m ++ src ++ 0 :: drop (d + length src + 1) m).
Proof.
  induction src as [|c src IH]; intros d m x Hx Hl; simpl in Hl.
  - apply cstr_nil in Hx as (x' & ->). cbn [strcpy_loop]. unfold store.
    rewrite (proj2 (Nat.ltb_lt _ _)) by lia. cbn. rewrite insert_take_drop by lia.
    by replace (S d) with (d + 0 + 1)%nat by lia.
  - apply cstr_cons in Hx as (x' & -> & Hx & Hc). cbn [strcpy_loop]. unfold store.
    rewrite (proj2 (Nat.ltb_lt _ _)) by lia. cbn [mbind option_bind].
    rewrite (proj2 (Z.eqb_neq _ _) Hc), (IH _ _ _ Hx) by (rewrite length_insert; lia).
    f_equal. rewrite insert_take_drop by lia.
    assert (Hd : length (take d m) = d) by (rewrite length_take; lia).
    rewrite take_app_ge, drop_app_ge by lia. rewrite Hd.
    replace (S d - d)%nat with 1%nat by lia.
    replace (S d + length src + 1 - d)%nat with (S (length src + 1)) by lia.
    cbn [take drop]. rewrite drop_drop, take_0, <- app_assoc. cbn [app length].
    do 5 f_equal. lia.
Qed.

Lemma table_of_reads nms rs ks : Forall row_ok rs -> Forall2 (indexed nms) rs ks ->
  forall pre rest,
  Forall2 (fun te r =>
      cstr (fst r) (drop (name te) (pre ++ concat (map split_line rs) ++ rest)) /\
      cstr (snd r) (drop (path te) (pre ++ concat (map split_line rs) ++ rest)) /\
      list_find (fun x => x = fst r) nms = Some (entry te, fst r))
    (table_of (length pre) rs ks) rs.
Proof.
  intros Hok Hks. induction Hks as [|r k rs ks Hk _ IH]; intros pre rest; [constructor|].
  apply Forall_cons in Hok as [(Hn & _ & Hp) Hok]. cbn [table_of map concat]. constructor.
  - cbn [name path entry]. split_and!; [| |exact Hk].
    + rewrite drop_app_length. unfold split_line. rewrite <- !app_assoc. cbn [app].
      by apply cstr_intro, text_no_nul.
    + unfold split_line at 1. rewrite <- !app_assoc. cbn [app]. rewrite <- !app_assoc. cbn [app].
      replace (pre ++ fst r ++ 0 :: snd r ++ 0 :: 10 :: concat (map split_line rs) ++ rest)
        with ((pre ++ fst r ++ [0]) ++ snd r ++ 0 :: 10 :: concat (map split_line rs) ++ rest)
        by (rewrite <- !app_assoc; done).
      replace (length pre + length (fst r) + 1)%nat with (length (pre ++ fst r ++ [0]))
        by (rewrite !length_app; simpl; lia).
      rewrite drop_app_length. by apply cstr_intro, text_no_nul.
  - specialize (IH Hok (pre ++ split_line r) rest).
    replace (length (pre ++ split_line r)) with (length pre + length (line r))%nat in IH
      by (unfold split_line, line; repeat (rewrite ?length_app; cbn [length]); lia).
    rewrite <- !app_assoc in IH. rewrite <- !app_assoc. exact IH.
Qed.
End table.

