(* ===== verification/PsarProps.v ===== *)
(** * The theorems on the archive reader (app/aiseirigh/psar.c), and an archive to
    run it on. *)

From stdpp Require Import prelude list gmap.
From Stdlib Require Import ZArith Lia.
From S2P Require Import Prelude CMem CString Crypt Ipl Psar PsarWf PsarTable.

Open Scope Z_scope.
Open Scope lk_scope.

(** ** A small archive *)

Module Sample.

(** One file on the medium; an open file is its contents and a position. *)
Record file := File { bytes : list Z; pos : nat }.

#[export] Instance file_fat : Fat (list Z) file := {
  f_open p w := (FR_OK, File w 0);
  f_read n f := let bs := slice (pos f) n (bytes f) in (FR_OK, bs, File (bytes f) (pos f + length bs));
  f_lseek ofs f := (FR_OK, File (bytes f) (Z.to_nat (Z.min ofs (Z.of_nat (length (bytes f))))));
  f_tell f := Z.of_nat (pos f);
  f_data := bytes
}.

(** A heap with memory for every request below 2 MiB. *)
#[export] Instance unit_heap : Heap unit := { malloc n h := (n <? 0x200000, h) }.

(** Stored, not compressed; a cipher that is the identity. *)
#[export] Instance stored : Miniz := { tinfl_decompress_mem_to_mem n input := (true, take n input) }.
#[export] Instance clear_des : Des := { des_crypt_cbc_decrypt _ _ input := Some input }.

(** The engine decrypts a block to what follows its header. *)
#[export] Instance clear_kirk : Kirk := {|
  kirk1 block := Some (drop 0x110 block);
  kirk5 cmd := Some cmd;
  kirk7 cmd := Some (drop 0x14 cmd)
|}.

(** A block: the header with tag and size, then the payload. *)
Definition block (payload : list Z) : list Z :=
  splice 0xB0 (le_encode 4 (Z.of_nat (length payload)))
    (splice 0xD0 (le_encode 4 0x0E000000) (replicate 0x150 0)) ++ payload.

Definition pad (n : nat) (l : list Z) : list Z := take n (l ++ replicate n 0).

Definition psar_header : list Z := le_encode 4 0x52415350 ++ le_encode 4 1 ++ replicate 8 0.

(** Version text ",6.61". *)
Definition meta_block (num : Z) : list Z :=
  block (replicate 8 0 ++ le_encode 4 num ++ le_encode 4 0 ++ pad 128 [44; 54; 46; 54; 49]
         ++ replicate 128 0).

Definition member (nm : list Z) (file sign : Z) (content : list Z) : list Z :=
  block (replicate 4 0 ++ pad 252 nm ++ replicate 4 0
         ++ le_encode 4 (Z.of_nat (length (block content))) ++ le_encode 4 (Z.of_nat (length content))
         ++ [0; 0; file; sign]) ++ block content.

(** Entries "00002" (the table), "1" an IPL, "2" a directory, "3" a file. *)
Definition the_rows : list (list Z * list Z) :=
  [([49], [105; 112; 108; 58; 47]); ([50], [102; 58; 47; 100]); ([51], [102; 58; 47; 120])].
Definition the_names : list (list Z) := [[48; 48; 48; 48; 50]; [49]; [50]; [51]].

Definition archive661 : list Z :=
  psar_header ++ meta_block 5
  ++ member [48; 48; 48; 48; 50] 1 0 (block (concat (map line the_rows) ++ [0]))
  ++ member [49] 1 0 (block [1; 2; 3])
  ++ member [50] 0 0 []
  ++ member [51] 1 2 [7; 8; 9].

(** The updater: a PBP header in front of the archive. *)
Definition updater : list Z :=
  le_encode 4 0x50425000 ++ replicate 0x20 0 ++ le_encode 4 0x28 ++ archive661.

Definition start (w : list Z) : psar_state file unit (list Z) :=
  Psar_state (Psar_handle (File [] 0) 0 0 (replicate 2048 0) (replicate 2048 0) [] 0 [] [] 0 zero_metadata)
    (replicate SCRATCH_SIZE 0) tt w.

Definition opened : outcome PsarResult unit * psar_state file unit (list Z) :=
  psar_open PSP_MODEL_02G 4 (replicate 16 0) [] (start updater).

#[export] Instance file_laws : FatLaws (list Z) file.
Proof.
  split.
  - intros n f bs f' Hr. cbn in Hr. simplify_eq. cbn. rewrite Nat2Z.id. split_and!; [done|done|lia].
  - intros n f r bs f' Hr. cbn in Hr. simplify_eq. unfold slice. rewrite length_take. lia.
  - intros ofs f f' Ho Hr. cbn in Hr. simplify_eq. cbn. split; [done|lia].
  - intros f. cbn. lia.
Qed.

#[export] Instance stored_laws : MinizLaws.
Proof. split. intros n input ok out Hr. cbn in Hr. simplify_eq. rewrite length_take. lia. Qed.

#[export] Instance clear_kirk_laws : KirkLaws.
Proof.
  split; cbn.
  - intros hdr data out Hh [= <-]. rewrite <- Hh. by rewrite drop_app_length.
  - intros hdr data out Hh [= <-]. rewrite length_app. lia.
  - intros block out [= <-]. rewrite length_drop. lia.
Qed.

Lemma file_readable : readable (W:=list Z) (F:=file).
Proof. done. Qed.
End Sample.

(** ** Opening *)

Section properties.
Context {F H W : Type} `{HF : Fat W F} `{HH : Heap H} `{HK : Kirk} `{HZ : Miniz} `{HD : Des}.
Implicit Types (s : psar_state F H W) (h : PsarHandle F).

(** C10: a handle psar_open has opened is well formed: it is firmware 6.61, the
    lists have the lengths the handle says, every file fits both work buffers
    packed and unpacked, every row of the table points at an entry, and on all
    models but the first there is a file for the boot loader. *)
Theorem psar_open_ok model fuel hdr0 pathname s s' :
  psar_open model fuel hdr0 pathname s = (Ret tt, s') ->
  psar_wf (ph s') /\ is_661 (metadata (ph s')) /\ table_version (ph s') = 4 /\
  model <> PSP_MODEL_other /\ (model <> PSP_MODEL_01G -> has_ipl (ph s')).
Proof. apply psar_open_Ret. Qed.

(** Psar_read_each_file visits exactly the rows of the table that are files, in
    the order of the table: it reads each one, decrypts it when it is an
    encrypted boot loader and hands it to the handler, and stops at the first
    error or when the handler asks for it. *)
Theorem psar_files_in_order model (func : list Z -> Z -> FileProperties -> PM Z) s :
  psar_wf (ph s) -> (forall p l pr, modest (func p l pr)) ->
  psar_read_each_file model func s
  = for_each (rows true (ph s) (table_list (ph s)))
      (fun r => visit_file model func (ph s) (fst r) (snd r)) s.
Proof.
  intros Hwf Hfunc. unfold psar_read_each_file, bind at 1, gets at 1.
  rewrite (each_file_from_rows model func (ph s)) by (rewrite ?(wf_num_table _ Hwf); done || lia).
  by rewrite drop_0.
Qed.

(** The iteration over directories hands exactly the directories of the table to the
    handler, in the order of the table. *)
Theorem psar_directories_in_order (func : list Z -> PM Z) s :
  psar_wf (ph s) -> (forall p, modest (func p)) ->
  psar_read_each_directory func s
  = for_each (rows false (ph s) (table_list (ph s)))
      (fun r => let* c := func (drop (path (fst r)) (table_text (ph s))) in
                if negb (c =? 0) then fail PSAR_ERR_HANDLER else ret tt) s.
Proof.
  intros Hwf Hfunc. unfold psar_read_each_directory, bind at 1, gets at 1.
  rewrite (each_directory_from_rows func (ph s)) by (rewrite ?(wf_num_table _ Hwf); done || lia).
  by rewrite drop_0.
Qed.

(** C20: parsing a table gives back what it was printed from: from the text of the
    lines "name,path" the parser makes one entry per line, in order, whose name
    and path are the strings of the line and which points at the first entry of
    the archive with that name. *)
Theorem table_roundtrip nms rs ks rest s :
  named (ph s) nms -> Forall row_ok rs -> Forall2 (indexed nms) rs ks ->
  (forall n (hp : H), fst (malloc n hp) = true) -> Z.of_nat (length rs) * 12 < 2 ^ 32 ->
  exists s', build_table_entry_list (concat (map line rs) ++ 0 :: rest) s = (Ret tt, s') /\
    num_table_entries (ph s') = length rs /\
    Forall2 (fun te r => cstr (fst r) (drop (name te) (table_text (ph s'))) /\
                         cstr (snd r) (drop (path te) (table_text (ph s'))) /\
                         list_find (fun x => x = fst r) nms = Some (entry te, fst r))
      (table_list (ph s')) rs.
Proof.
  intros Hn Hrs Hks Hmal Hsz. unfold build_table_entry_list.
  pose proof (no_nul_lines rs Hrs) as Hnn. set (t := concat (map line rs)) in *.
  rewrite (bind_deref _ (length t)) by (by apply strlen_lines).
  assert (Halloc : forall n s0, exists hp, alloc (F:=F) (W:=W) n s0 = (Ret true, Psar_state (ph s0) (kmem s0) hp (world s0))).
  { intros n s0. unfold alloc. specialize (Hmal n (heap s0)). destruct (malloc n (heap s0)) as [ok hp].
    cbn in Hmal. subst ok. by exists hp. }
  destruct (Halloc (Z.of_nat (length t + 1)) s) as [hp1 Ha1]. rewrite (bind_run _ _ _ _ _ Ha1). cbn [negb].
  rewrite (bind_deref _ (t ++ [0])).
  2: { unfold strcpy. rewrite (strcpy_loop_run t) by (by apply cstr_intro || (rewrite length_replicate; lia)).
       cbn [take app]. rewrite drop_ge by (rewrite length_replicate; lia). done. }
  assert (Hcount : forall s0, count_table_entries (H:=H) (W:=W) (F:=F) (t ++ [0]) s0 = (Ret (length rs), s0)).
  { intros s0. unfold count_table_entries, t. rewrite (count_loop_lines _ rs []) by
      (done || (rewrite length_app; cbn [length]; pose proof (lines_length rs); lia)). done. }
  rewrite (bind_run _ _ _ _ _ (Hcount _)). cbv zeta.
  destruct (Halloc (u32 (Z.of_nat (length rs) * sizeof_TableEntry)) (Psar_state (ph s) (kmem s) hp1 (world s))) as [hp2 Ha2].
  rewrite (bind_run _ _ _ _ _ Ha2). cbn [negb ph kmem world].
  set (s2 := Psar_state (ph s) (kmem s) hp2 (world s)).
  assert (Hroom : u32 (Z.of_nat (length rs) * sizeof_TableEntry) = Z.of_nat (length rs) * 12)
    by (apply u32_small; unfold sizeof_TableEntry; lia).
  destruct rs as [|r rs].
  - inversion Hks; subst. cbn [t map concat app].
    eexists. split; [by vm_compute|]. split; [done|constructor].
  - apply Forall_cons in Hrs as [Hr Hrs]. inversion Hks as [|? k ? ks' Hk Hks']; subst.
    assert (Ht : t ++ [0] = [] ++ [] ++ line_text r ++ 13 :: 10 :: concat (map line rs) ++ [0]).
    { unfold t. cbn [map concat app]. rewrite line_split, <- !app_assoc. done. }
    rewrite Ht. pose proof (strtok_token [13; 10] crlf crlf_cstr [] [] (line_text r) 13
      (10 :: concat (map line rs) ++ [0]) None true) as Htok. cbv zeta in Htok.
    rewrite (bind_deref _ _ _ s2 (Htok ltac:(constructor) ltac:(constructor) (text_no_nul _ (line_text_ok r Hr))
      (line_text_nonempty r) (text_token _ (line_text_ok r Hr)) ltac:(set_solver) ltac:(lia) ltac:(by right))).
    cbn beta iota. cbn [length app Nat.add].
    pose proof (parse_lines_run nms rs ks' r k [] 0 (u32 (Z.of_nat (length (r :: rs)) * sizeof_TableEntry)) [] s2
      Hn Hr Hrs Hk Hks') as Hp.
    cbn [length app Nat.add] in Hp, Hroom. rewrite Hroom in *.
    rewrite (bind_run _ _ _ _ _ (Hp ltac:(unfold sizeof_TableEntry; lia))). cbn beta iota.
    eexists. split; [done|]. split; [done|].
    apply (table_of_reads nms (r :: rs) (k :: ks') ltac:(by constructor) ltac:(by constructor) [] [0]).
Qed.
End properties.

(** ** Reading one file *)

Section reading.
Context {F H W : Type} `{HF : Fat W F} `{HFL : !FatLaws W F} `{HH : Heap H} `{HK : Kirk} `{HKL : !KirkLaws}
  `{HZ : Miniz} `{HZL : !MinizLaws} `{HD : Des}.
Implicit Types (s : psar_state F H W) (h : PsarHandle F).

Lemma wpe_with_kirk {A} (c : CM A) (Q : A -> psar_state F H W -> Prop) s :
  wp c (fun a m => Q a (Psar_state (ph s) m (heap s) (world s))) (kmem s) -> wpe (with_kirk c) Q s.
Proof. unfold wp, wpe, with_kirk. by destruct (c (kmem s)) as [[a|[]| | |] m]. Qed.

Lemma wpe_file_read n (Q : FRESULT * list Z -> psar_state F H W -> Prop) s :
  (forall r bs f, (length bs <= n)%nat ->
     Q (r, bs) (Psar_state (set_fp (ph s) f) (kmem s) (heap s) (world s))) ->
  wpe (file_read n) Q s.
Proof.
  intros HQ. unfold wpe, file_read. destruct (f_read n (fp (ph s))) as [[r bs] f] eqn:Hf.
  apply HQ. by eapply f_read_len.
Qed.

Lemma wpe_rd off len m (Q : list Z -> psar_state F H W -> Prop) s :
  (off + len <= length m)%nat -> Q (slice off len m) s -> wpe (E:=PsarResult) (rd off len m) Q s.
Proof. intros Hl HQ. unfold wpe, rd. by rewrite bool_decide_true. Qed.

Lemma wpe_wr off bs m (Q : list Z -> psar_state F H W -> Prop) s :
  (off + length bs <= length m)%nat -> Q (splice off bs m) s -> wpe (E:=PsarResult) (wr off bs m) Q s.
Proof. intros Hl HQ. unfold wpe, wr. by rewrite bool_decide_true. Qed.

Definition kmem_ok s : Prop := length (kmem s) = SCRATCH_SIZE.

Lemma decrypt_header_runs s :
  kmem_ok s -> (0x150 <= length (wb1 (ph s)))%nat ->
  wpe decrypt_header (fun _ s' => kmem_ok s' /\ length (wb1 (ph s')) = length (wb1 (ph s))) s.
Proof.
  intros Hk Hw. unfold decrypt_header. apply wpe_seq, wpe_gets.
  apply wpe_seq, wpe_rd; [unfold sizeof_PSP_Header; lia|]. cbv zeta.
  set (enc := slice 0x20 (sizeof_PSP_Header - 0x20) (wb1 (ph s))).
  assert (He : length enc = 0x130%nat) by (apply length_slice; unfold sizeof_PSP_Header; lia).
  set (enc' := if version (ph s) =? 5 then xor_cycle go_pre_key enc else enc).
  assert (He' : length enc' = 0x130%nat) by (unfold enc'; destruct (_ =? 5); by rewrite ?length_xor_cycle).
  apply wpe_seq, wpe_with_kirk, wp_kirk7_decrypt; [done|unfold sizeof_PSP_Header; lia|done|].
  intros m Hm. destruct (k7 0x55 enc') as [out|] eqn:Ek; cbn beta iota; [|done]. cbn [negb Z.eqb].
  apply k7_length in Ek. set (out' := if version (ph s) =? 5 then _ else out).
  assert (Ho : length out' = 0x130%nat) by (unfold out'; destruct (_ =? 5); rewrite ?length_xor_cycle; lia).
  apply wpe_seq, wpe_wr; [lia|]. apply wpe_modify. split; [done|]. cbn. by rewrite length_splice by lia.
Qed.

Lemma decrypt_block_runs s :
  kmem_ok s -> (0x150 <= length (wb1 (ph s)))%nat ->
  wpe decrypt_block_in_wb1 (fun _ s' => kmem_ok s') s.
Proof.
  intros Hk Hw. unfold decrypt_block_in_wb1. apply wpe_seq, wpe_gets. apply wpe_seq, wpe_with_kirk.
  unfold prx_decrypt. apply wp_seq, wp_rd; [lia|].
  apply wp_seq, prx_dispatch_runs; [repeat constructor|done|done|].
  intros m Hm. apply wp_ret. cbn beta iota. apply wpe_seq, wpe_modify.
  match goal with |- wpe (match ?r with _ => _ end) _ _ => by destruct r end.
Qed.

Lemma read_next_block_runs n s :
  kmem_ok s -> (0x150 <= length (wb1 (ph s)))%nat -> (n <= length (wb1 (ph s)))%nat ->
  wpe (read_next_block_wb1 n) (fun _ s' => kmem_ok s') s.
Proof.
  intros Hk Hw Hn. unfold read_next_block_wb1. apply wpe_seq, wpe_file_read. intros r bs f Hbs. cbn beta iota.
  apply wpe_seq, wpe_gets. apply wpe_seq, wpe_wr; [cbn; lia|]. apply wpe_seq, wpe_modify.
  destruct (negb (fr_ok r)); [done|]. destruct (negb (bool_decide _)); [done|].
  cbn [ph set_fp wb1 version]. destruct (negb (_ =? 1)).
  - apply wpe_seq. eapply wpe_mono; [apply decrypt_header_runs; [done|cbn; rewrite length_splice; lia]|].
    intros [] s' [Hk' Hl']. apply decrypt_block_runs; [done|]. rewrite Hl'. cbn. rewrite length_splice; lia.
  - apply wpe_seq, wpe_ret. apply decrypt_block_runs; [done|]. cbn. rewrite length_splice; lia.
Qed.

(** Decompressing into a buffer that is large enough only returns or fails. *)
Lemma zlib_calm n input (k : bool -> PM Z) s o s' :
  (n <= length (wb2 (ph s)))%nat -> (forall b s1, match fst (k b s1) with Ret _ | Err _ => True | _ => False end) ->
  bind (zlib_decompress n input) k s = (o, s') -> match o with Ret _ | Err _ => True | _ => False end.
Proof.
  intros Hn Hk. unfold zlib_decompress. destruct (tinfl_decompress_mem_to_mem n input) as [ok out] eqn:Ht.
  apply tinfl_length in Ht. unfold bind at 1, bind at 1, gets at 1. unfold bind at 1, wr.
  rewrite bool_decide_true by lia. unfold ret at 1, bind at 1, set_ph at 1, modify at 1. unfold ret at 1.
  intros Hrun. pose proof (Hk ok) as Hko. match type of Hrun with k ok ?s0 = _ => specialize (Hko s0) end.
  by rewrite Hrun in Hko.
Qed.

(** C36: reading a file of a well-formed handle never panics, hangs or leaves a
    buffer, with one exception: the size a block's own header announces is not
    compared with the buffer, and a block that announces more than the buffer
    holds makes the decompressor read behind it.  When it succeeds, the length is
    the unpacked size, which fits the second buffer. *)
Theorem read_file_safe e s :
  psar_wf (ph s) -> e ∈ entries (ph s) -> kmem_ok s -> (0x150 <= length (wb1 (ph s)))%nat ->
  match read_file_by_entry e s with
  | (Ret n, s') => n = expanded_size (header e) /\ n <= Z.of_nat (length (wb2 (ph s'))) /\ keeps s s'
  | (Err _, _) => True
  | (Fault, s') => exists s0 s1 len, file_lseek (file_offset e) s = (Ret FR_OK, s0) /\
      read_next_block_wb1 (Z.to_nat (size (header e))) s0 = (Ret len, s1) /\
      Z.of_nat (length (wb1 (ph s1))) < len
  | _ => False
  end.
Proof.
  intros Hwf He Hk Hw. pose proof (wf_fits _ Hwf) as Hfits. rewrite Forall_forall in Hfits.
  destruct (Hfits _ He) as (Hs1 & Hs2 & Hx1 & Hx2). clear Hfits.
  destruct (read_file_by_entry e s) as [o s'] eqn:Hrun. destruct o as [n|er| | |]; [|done|..].
  { pose proof (read_file_by_entry_keeps _ _ _ _ Hrun) as Hkeep.
    assert (Hn : n = expanded_size (header e)).
    { clear -Hrun. unfold read_file_by_entry, zlib_decompress in Hrun. by frame_run. }
    split_and!; [done| |done]. destruct Hkeep as [Ha _]. unfold archive in Ha. injection Ha as ?? _ Hl2 ??????.
    rewrite Hl2. lia. }
  all: unfold read_file_by_entry in Hrun; destruct (negb (is_entry_a_file e)); [discriminate|];
    unfold bind at 1 in Hrun; destruct (file_lseek (file_offset e) s) as [o1 s0] eqn:Hl;
    (destruct o1 as [fres|?| | |];
      [|exfalso; clear -Hl; unfold file_lseek in Hl; by destruct (f_lseek _ _)..]);
    destruct (fr_ok fres) eqn:Hfr; cbn [negb] in Hrun; [|discriminate];
    pose proof (file_lseek_Ret _ _ _ _ Hl) as (f & _ & ->);
    pose proof (read_next_block_runs (Z.to_nat (size (header e)))
      (Psar_state (set_fp (ph s) f) (kmem s) (heap s) (world s)) Hk Hw ltac:(cbn; lia)) as Hb;
    unfold bind at 1 in Hrun; unfold wpe in Hb;
    destruct (read_next_block_wb1 (Z.to_nat (size (header e))) _) as [o2 s1] eqn:Hblk;
    (destruct o2 as [len|?| | |]; [|discriminate|done..]);
    unfold bind at 1, gets at 1, rd in Hrun;
    (case_bool_decide as Hlen; [|unfold bind at 1, fault in Hrun; try discriminate]).
  all: try (unfold bind at 1, ret at 1 in Hrun; exfalso; apply zlib_calm in Hrun; [exact Hrun| |];
    [|intros [] s2; done]; pose proof (read_next_block_keeps _ _ _ _ Hblk) as [Ha _]; unfold archive in Ha;
    injection Ha as ?? _ Hl2 ??????; rewrite Hl2; cbn; lia).
  apply bool_decide_eq_true in Hfr. subst fres. eexists _, s1, len. split_and!; [reflexivity|exact Hblk|lia].
Qed.
End reading.

(** ** The header *)

Section header_search.
Context {F H W : Type} `{HF : Fat W F} `{HFL : !FatLaws W F} `{HH : Heap H}.
Implicit Types (s : psar_state F H W).

Definition has_magic (data : list Z) (off : Z) (magic : Z) : Prop :=
  le_decode (slice (Z.to_nat off) 4 data) = magic.

Lemma first_read (data hdr : list Z) :
  length hdr = 16%nat -> (16 <= length data)%nat ->
  splice 0 (slice (Z.to_nat 0) 16 data) hdr = slice 0 16 data.
Proof.
  intros Hh Hl. unfold splice. change (Z.to_nat 0) with 0%nat.
  rewrite length_slice, drop_ge by lia. apply app_nil_r.
Qed.

(** in an updater, whose PBP header points at the archive, two turns find the
    archive's header whatever the header variable held, and leave the file
    behind it. *)
Theorem get_header_finds fuel hdr0 s data :
  at_pos s data 0 -> readable (W:=W) (F:=F) -> length hdr0 = 16%nat -> (0x28 <= length data)%nat ->
  has_magic data 0 0x50425000 -> has_magic data (pbp_offset data) 0x52415350 ->
  0 <= pbp_offset data -> pbp_offset data + 16 <= Z.of_nat (length data) ->
  exists s', get_header (S (S fuel)) hdr0 s = (Ret (slice (Z.to_nat (pbp_offset data)) 16 data), s') /\
    at_pos s' data (pbp_offset data + 16).
Proof.
  intros Hat Hok Hh Hl Hpbp Hpsar Ho Hin.
  destruct (get_header_pbp Hok (S fuel) hdr0 s data 0 Hat) as (s1 & Hat1 & ->); [lia|done|done| |].
  { rewrite first_read, slice_slice by lia. exact Hpbp. }
  rewrite first_read by lia. rewrite Z.min_l in Hat1 by lia.
  apply (get_header_psar Hok fuel _ s1 data (pbp_offset data) Hat1 Ho Hin); [apply length_slice; lia|exact Hpsar].
Qed.

(** get_header has no bound: when the PBP header points at or behind the end of
    the file, the short read leaves the PBP header in the variable and the
    loop never ends. *)
Theorem get_header_hangs fuel hdr0 s data :
  at_pos s data 0 -> readable (W:=W) (F:=F) -> length hdr0 = 16%nat -> (0x28 <= length data)%nat ->
  has_magic data 0 0x50425000 -> Z.of_nat (length data) <= pbp_offset data ->
  fst (get_header fuel hdr0 s) = Hang.
Proof.
  intros Hat Hok Hh Hl Hpbp Ho. destruct fuel as [|fuel]; [done|].
  destruct (get_header_pbp Hok fuel hdr0 s data 0 Hat) as (s1 & Hat1 & ->); [lia|done|lia| |].
  { rewrite first_read, slice_slice by lia. exact Hpbp. }
  rewrite first_read by lia. rewrite Z.min_r in Hat1 by lia.
  apply (get_header_stuck Hok fuel _ s1 data Hat1 Hl Ho). rewrite slice_slice by lia. exact Hpbp.
Qed.
End header_search.

(** ** Runs *)

Module Runs.
Import Sample.

Definition on_file (data : list Z) : psar_state file unit (list Z) :=
  Psar_state (set_fp (ph (start data)) (File data 0)) (replicate SCRATCH_SIZE 0) tt data.

Ltac at_data := split; vm_compute; reflexivity.
Ltac by_leb := apply Nat.leb_le; vm_compute; reflexivity.

Lemma get_header_finds_witness :
  exists s', get_header 2 (replicate 16 0xCC) (on_file updater)
    = (Ret (slice (Z.to_nat (pbp_offset updater)) 16 updater), s') /\
    at_pos s' updater (pbp_offset updater + 16).
Proof.
  apply (get_header_finds 0 (replicate 16 0xCC) (on_file updater) updater).
  - split; reflexivity.
  - exact file_readable.
  - reflexivity.
  - by_leb.
  - vm_compute; reflexivity.
  - vm_compute; reflexivity.
  - apply Z.leb_le; vm_compute; reflexivity.
  - apply Z.leb_le; vm_compute; reflexivity.
Defined.

(** An updater cut off behind its header. *)
Definition truncated : list Z := take 0x28 updater.

Lemma get_header_hangs_witness : fst (get_header 1000 (replicate 16 0xCC) (on_file truncated)) = Hang.
Proof.
  apply (get_header_hangs 1000 (replicate 16 0xCC) (on_file truncated) truncated).
  - split; reflexivity.
  - exact file_readable.
  - reflexivity.
  - by_leb.
  - vm_compute; reflexivity.
  - apply Z.leb_le; vm_compute; reflexivity.
Defined.

Lemma psar_open_ok_witness : psar_wf (ph (snd opened)) /\ table_version (ph (snd opened)) = 4.
Proof.
  destruct (psar_open_ok PSP_MODEL_02G 4 (replicate 16 0) [] (start updater) (snd opened))
    as (Hwf & _ & Htv & _).
  - vm_compute. reflexivity.
  - split; [exact Hwf|exact Htv].
Defined.

(** A handler that keeps the paths and the data it gets. *)
Definition keep_file (p : list Z) (len : Z) (pr : FileProperties) : PM (F:=file) (H:=unit) (W:=list Z) Z :=
  fun s => (Ret 0, Psar_state (ph s) (kmem s) (heap s)
                     (world s ++ take 5 p ++ take (Z.to_nat len) (wb2 (ph s)))).
Definition keep_dir (p : list Z) : PM (F:=file) (H:=unit) (W:=list Z) Z :=
  fun s => (Ret 0, Psar_state (ph s) (kmem s) (heap s) (world s ++ take 5 p)).

Lemma keep_file_modest p l pr : modest (keep_file p l pr).
Proof. intros s a s' Hr. unfold keep_file in Hr. by simplify_eq. Qed.
Lemma keep_dir_modest p : modest (keep_dir p).
Proof. intros s a s' Hr. unfold keep_dir in Hr. by simplify_eq. Qed.

Definition emptied : psar_state file unit (list Z) :=
  Psar_state (ph (snd opened)) (kmem (snd opened)) tt [].

Lemma emptied_wf : psar_wf (ph emptied).
Proof.
  split.
  - vm_compute. reflexivity.
  - vm_compute. repeat constructor; discriminate.
  - vm_compute. reflexivity.
  - vm_compute. repeat constructor.
Qed.

Lemma psar_files_in_order_witness :
  psar_read_each_file PSP_MODEL_02G keep_file emptied
  = for_each (rows true (ph emptied) (table_list (ph emptied)))
      (fun r => visit_file PSP_MODEL_02G keep_file (ph emptied) (fst r) (snd r)) emptied.
Proof. exact (psar_files_in_order PSP_MODEL_02G keep_file emptied emptied_wf keep_file_modest). Defined.

Lemma psar_directories_in_order_witness :
  psar_read_each_directory keep_dir emptied
  = for_each (rows false (ph emptied) (table_list (ph emptied)))
      (fun r => let* c := keep_dir (drop (path (fst r)) (table_text (ph emptied))) in
                if negb (c =? 0) then fail PSAR_ERR_HANDLER else ret tt) emptied.
Proof. exact (psar_directories_in_order keep_dir emptied emptied_wf keep_dir_modest). Defined.

(** What the two iterations hand over: "ipl:/" with 1 2 3, "f:/x" with 7 8 9, and
    "f:/d". *)
Example files_handed_over :
  world (snd (psar_read_each_file PSP_MODEL_02G keep_file emptied))
  = [105; 112; 108; 58; 47; 1; 2; 3; 102; 58; 47; 120; 0; 7; 8; 9].
Proof. vm_compute. reflexivity. Qed.
Example directories_handed_over :
  world (snd (psar_read_each_directory keep_dir emptied)) = [102; 58; 47; 100; 0].
Proof. vm_compute. reflexivity. Qed.

Definition file3 : PsarEntry :=
  match entries (ph emptied) !! 3%nat with Some e => e | None => Psar_entry (file_header_of []) 0 end.

Lemma read_file_safe_witness :
  match read_file_by_entry file3 emptied with
  | (Ret n, s') => n = expanded_size (header file3) /\ n <= Z.of_nat (length (wb2 (ph s')))
  | _ => False
  end.
Proof.
  pose proof (read_file_safe file3 emptied emptied_wf) as Hr.
  assert (He : file3 ∈ entries (ph emptied)).
  { apply (list_elem_of_lookup_2 _ 3%nat). vm_compute. reflexivity. }
  specialize (Hr He ltac:(vm_compute; reflexivity) ltac:(by_leb)).
  destruct (read_file_by_entry file3 emptied) as [[n|er| | |] s'] eqn:Hrun.
  - destruct Hr as (Hn & Hl & _). split; [exact Hn|exact Hl].
  - apply (f_equal fst) in Hrun. vm_compute in Hrun. discriminate.
  - exact Hr.
  - apply (f_equal fst) in Hrun. vm_compute in Hrun. discriminate.
  - exact Hr.
Defined.

(** The heap of the witness grants every request. *)
Definition roomy : Heap unit := {| malloc n h := (true, h) |}.

Lemma table_roundtrip_witness :
  exists s', @build_table_entry_list file unit (list Z) roomy (concat (map line the_rows) ++ 0 :: [1]) emptied = (Ret tt, s') /\
    num_table_entries (ph s') = 3%nat.
Proof.
  destruct (table_roundtrip (HH := roomy) the_names the_rows [1; 2; 3]%nat [1] emptied) as (s' & Hrun & Hnum & _).
  - split; [vm_compute; reflexivity|]. vm_compute.
    repeat first [constructor | discriminate | eexists; reflexivity].
  - repeat constructor; vm_compute; repeat first [split | discriminate | intros Hc; repeat (inversion Hc; subst; clear Hc; rename select (_ ∈ _) into Hc) | reflexivity].
  - repeat constructor.
  - reflexivity.
  - reflexivity.
  - exists s'. split; [exact Hrun|exact Hnum].
Defined.

(** the size of the list of entries is computed modulo 2^32: with a metadata
    block that announces 15561477 entries the list gets 80 bytes, less than one
    entry, and the first entry is written behind its end. *)
Theorem psar_list_overflow :
  let data := psar_header ++ meta_block 15561477 ++ member [49] 1 0 (block [1; 2; 3]) in
  fst (read_psar_contents_list 2 (replicate 16 0) (on_file data)) = Fault /\
  u32 (sizeof_PsarEntry * u32 (15561477 - 1)) = 80.
Proof. split; vm_compute; reflexivity. Qed.
End Runs.
