(* ===== verification/Qsort.v ===== *)
(** * lib/libc/qsort.c: Bentley and McIlroy's quicksort

    The array is a list of elements, a pointer into it an index; a swap outside
    the array is [None].  The word-wise and byte-wise copies of swapfunc move one
    element, whatever the element size, and are one [swap] here.  The differences of
    pointers that the source keeps as bytes in an int are numbers of elements; the two
    agree for arrays of less than 2 GiB. *)

From stdpp Require Import prelude list sorting.
From Stdlib Require Import ZArith Lia.
From S2P Require Import Prelude.

Open Scope nat_scope.

Section qsort.
Context {A : Type} (cmp : A -> A -> Z).
Implicit Types (l x y z : list A) (i j n : nat).

Definition swap i j l : option (list A) :=
  a ← l !! i; b ← l !! j; Some (<[i := b]> (<[j := a]> l)).

(** swapfunc over [r] elements. *)
Fixpoint vecswap (i j r : nat) l : option (list A) :=
  match r with
  | O => Some l
  | S r' => l ← swap i j l; vecswap (S i) (S j) r' l
  end.

Definition cmp_at i j l : option Z := a ← l !! i; b ← l !! j; Some (cmp a b).

Definition med3 a b c l : option nat :=
  ab ← cmp_at a b l; bc ← cmp_at b c l; ac ← cmp_at a c l;
  Some (if (ab <? 0)%Z then (if (bc <? 0)%Z then b else if (ac <? 0)%Z then c else a)
        else (if (0 <? bc)%Z then b else if (ac <? 0)%Z then a else c)).

(** [for (pl = pm; pl > a && cmp(pl - 1, pl) > 0; pl--) swap(pl, pl - 1)] *)
Fixpoint sift_down (pl : nat) l : option (list A) :=
  match pl with
  | O => Some l
  | S pl' =>
      r ← cmp_at pl' pl l;
      if (0 <? r)%Z then l ← swap pl pl' l; sift_down pl' l else Some l
  end.

(** [for (pm = a + 1; pm < a + n; pm++)]: [n] elements from [pm] on are left. *)
Fixpoint insertion_from (pm n : nat) l : option (list A) :=
  match n with
  | O => Some l
  | S n' => l ← sift_down pm l; insertion_from (S pm) n' l
  end.

Definition insertion_sort l : option (list A) := insertion_from 1 (length l - 1) l.

(** The state of the partition: the pointers, the array and [swap_cnt].  [pc]
    is kept as [pc1], one past it: [pc] itself would step before the array. *)
Record part := Part { pa : nat; pb : nat; pc1 : nat; pd1 : nat; arr : list A; swap_cnt : bool }.

(** [while (pb <= pc && (r = cmp(pb, a)) <= 0)]; [n] elements are left. *)
Fixpoint scan_left (n : nat) (p : part) : option part :=
  match n with
  | O => Some p
  | S n' =>
      r ← cmp_at (pb p) 0 (arr p);
      if (0 <? r)%Z then Some p
      else if (r =? 0)%Z then
        l ← swap (pa p) (pb p) (arr p);
        scan_left n' (Part (S (pa p)) (S (pb p)) (pc1 p) (pd1 p) l true)
      else scan_left n' (Part (pa p) (S (pb p)) (pc1 p) (pd1 p) (arr p) (swap_cnt p))
  end.

(** [while (pb <= pc && (r = cmp(pc, a)) >= 0)] *)
Fixpoint scan_right (n : nat) (p : part) : option part :=
  match n with
  | O => Some p
  | S n' =>
      r ← cmp_at (pc1 p - 1) 0 (arr p);
      if (r <? 0)%Z then Some p
      else if (r =? 0)%Z then
        l ← swap (pc1 p - 1) (pd1 p - 1) (arr p);
        scan_right n' (Part (pa p) (pb p) (pc1 p - 1) (pd1 p - 1) l true)
      else scan_right n' (Part (pa p) (pb p) (pc1 p - 1) (pd1 p) (arr p) (swap_cnt p))
  end.

(** The [for (;;)]; each turn but the last takes two elements. *)
Fixpoint partition_loop (fuel : nat) (p : part) : option part :=
  match fuel with
  | O => None
  | S fuel' =>
      p ← scan_left (pc1 p - pb p) p;
      p ← scan_right (pc1 p - pb p) p;
      if pc1 p <=? pb p then Some p
      else
        l ← swap (pb p) (pc1 p - 1) (arr p);
        partition_loop fuel' (Part (pa p) (S (pb p)) (pc1 p - 1) (pd1 p) l true)
  end.

(** The choice of the pivot. *)
Definition choose_pivot l : option nat :=
  let n := length l in
  let pm := n / 2 in
  if 7 <? n then
    '(pl, pm, pn) ← (if 40 <? n then
                       let d := n / 8 in
                       pl ← med3 0 d (2 * d) l;
                       pm ← med3 (pm - d) pm (pm + d) l;
                       pn ← med3 (n - 1 - 2 * d) (n - 1 - d) (n - 1) l;
                       Some (pl, pm, pn)
                     else Some (0, pm, n - 1));
    med3 pl pm pn l
  else Some pm.

(** Sorts [r] elements from [a] on with [sort], in place. *)
Definition sort_range (sort : list A -> option (list A)) (a r : nat) l : option (list A) :=
  if 1 <? r then
    s ← sort (slice a r l); Some (splice a s l)
  else Some l.

(** The recursion and the jump back to [loop] both work on fewer elements. *)
Fixpoint qsort (fuel : nat) l : option (list A) :=
  match fuel with
  | O => None
  | S fuel' =>
      let n := length l in
      if n <? 7 then insertion_sort l
      else
        pm ← choose_pivot l;
        l ← swap 0 pm l;
        p ← partition_loop n (Part 1 1 n n l false);
        if negb (swap_cnt p) then insertion_sort (arr p)
        else
          let r := Nat.min (pa p) (pb p - pa p) in
          l ← vecswap 0 (pb p - r) r (arr p);
          let r := Nat.min (pd1 p - pc1 p) (n - pd1 p) in
          l ← vecswap (pb p) (n - r) r l;
          l ← sort_range (qsort fuel') 0 (pb p - pa p) l;
          let r := pd1 p - pc1 p in
          sort_range (qsort fuel') (n - r) r l
  end.
End qsort.

(** ** Swaps on segments *)

Section segments.
Context {A : Type}.
Implicit Types (x y z l : list A) (a b : A).

Lemma lookup_second x a y b z : (x ++ a :: y ++ b :: z) !! (length x + S (length y)) = Some b.
Proof.
  rewrite lookup_app_r by lia. replace (length x + S (length y) - length x) with (S (length y)) by lia.
  simpl. by apply list_lookup_middle.
Qed.

Lemma insert_second x a y b b' z :
  <[length x + S (length y) := b']> (x ++ a :: y ++ b :: z) = x ++ a :: y ++ b' :: z.
Proof.
  rewrite insert_app_r. simpl. do 2 f_equal.
  rewrite <- (Nat.add_0_r (length y)) at 1. by rewrite insert_app_r.
Qed.

Lemma insert_first x a a' z : <[length x := a']> (x ++ a :: z) = x ++ a' :: z.
Proof. rewrite <- (Nat.add_0_r (length x)) at 1. by rewrite insert_app_r. Qed.

Lemma swap_segments x a y b z i j :
  i = length x -> j = length x + S (length y) ->
  swap i j (x ++ a :: y ++ b :: z) = Some (x ++ b :: y ++ a :: z).
Proof.
  intros -> ->. unfold swap. rewrite (list_lookup_middle x _ _ _ eq_refl). cbn [mbind option_bind].
  rewrite lookup_second. cbn [mbind option_bind]. by rewrite insert_second, insert_first.
Qed.

Lemma swap_segments_sym x a y b z i j :
  i = length x -> j = length x + S (length y) ->
  swap j i (x ++ a :: y ++ b :: z) = Some (x ++ b :: y ++ a :: z).
Proof.
  intros -> ->. unfold swap. rewrite lookup_second. cbn [mbind option_bind].
  rewrite (list_lookup_middle x _ _ _ eq_refl). cbn [mbind option_bind]. by rewrite insert_first, insert_second.
Qed.

Lemma swap_same l i : i < length l -> swap i i l = Some l.
Proof.
  intros Hi. unfold swap. destruct (lookup_lt_is_Some_2 l i Hi) as [a Ha]. rewrite Ha.
  cbn [mbind option_bind]. by rewrite list_insert_insert_eq, list_insert_id.
Qed.

(** Exchanging two segments of the same length. *)
Lemma vecswap_segments s t : length s = length t -> forall x y z i j,
  i = length x -> j = length x + length s + length y ->
  vecswap i j (length s) (x ++ s ++ y ++ t ++ z) = Some (x ++ t ++ y ++ s ++ z).
Proof.
  revert t. induction s as [|a s IH]; intros [|b t] Hl x y z i j -> ->; try done.
  cbn [length vecswap app]. cbn [length] in Hl.
  assert (Hs : swap (length x) (length x + S (length s) + length y) (x ++ a :: (s ++ y) ++ b :: t ++ z)
               = Some (x ++ b :: (s ++ y) ++ a :: t ++ z)).
  { apply swap_segments; [done|]. rewrite length_app. lia. }
  rewrite <- app_assoc in Hs. rewrite Hs. cbn [mbind option_bind].
  specialize (IH t ltac:(lia) (x ++ [b]) (y ++ [a]) z (S (length x)) (S (length x + S (length s) + length y))).
  rewrite <- !app_assoc in IH. cbn [app] in IH. rewrite <- !app_assoc. cbn [app].
  apply IH; rewrite !length_app; simpl; lia.
Qed.

End segments.

(** ** Insertion sort *)

Section sort.
Context {A : Type} (cmp : A -> A -> Z).
Implicit Types (l p q : list A) (x y v : A).

(** [cmp] orders the elements: its sign is antisymmetric and transitive. *)
Definition ordering : Prop :=
  (forall x y, (cmp x y < 0)%Z <-> (0 < cmp y x)%Z) /\
  (forall x y z, (cmp x y <= 0)%Z -> (cmp y z <= 0)%Z -> (cmp x z <= 0)%Z).

Definition le_cmp x y : Prop := (cmp x y <= 0)%Z.
Notation sorted := (StronglySorted le_cmp).

Lemma gt_le x y : ordering -> (0 < cmp y x)%Z -> le_cmp x y.
Proof. intros [Ho _] H. unfold le_cmp. apply Ho in H. lia. Qed.

Lemma eq_le x y : ordering -> cmp y x = 0%Z -> le_cmp x y.
Proof.
  intros [Ho _] H. unfold le_cmp. destruct (Z.le_gt_cases (cmp x y) 0) as [|Hgt]; [done|].
  apply Z.lt_gt, Z.gt_lt, Ho in Hgt. lia.
Qed.

Lemma cmp_at_second p x q y l i j :
  i = length p -> j = length p + S (length q) ->
  cmp_at cmp i j (p ++ x :: q ++ y :: l) = Some (cmp x y).
Proof.
  intros -> ->. unfold cmp_at. rewrite (list_lookup_middle p _ _ _ eq_refl). cbn [mbind option_bind].
  by rewrite lookup_second.
Qed.

Lemma sift_down_run p : forall x q,
  exists p1 p2, sift_down cmp (length p) (p ++ x :: q) = Some (p1 ++ x :: p2 ++ q) /\ p = p1 ++ p2 /\
    Forall (fun y => 0 < cmp y x)%Z p2 /\ (forall y, last p1 = Some y -> (cmp y x <= 0)%Z).
Proof.
  induction p as [|y p IH] using rev_ind; intros x q.
  { exists [], []. by split_and!. }
  rewrite length_app, Nat.add_1_r. cbn [sift_down]. rewrite <- app_assoc. cbn [app].
  rewrite (cmp_at_second p y [] x q) by (simpl; lia). cbn [mbind option_bind].
  destruct (0 <? cmp y x)%Z eqn:E; bool_to_prop.
  - rewrite (swap_segments_sym p y [] x q) by (simpl; lia). cbn [mbind option_bind app].
    destruct (IH x (y :: q)) as (p1 & p2 & Hs & -> & Hf & Hl). exists p1, (p2 ++ [y]). cbn [app] in Hs.
    rewrite Hs, <- !app_assoc. split_and!; [done|done|apply Forall_app; by split; [|constructor]|done].
  - exists (p ++ [y]), []. rewrite <- app_assoc, app_nil_r. split_and!; [done|done|done|].
    intros y' Hy. rewrite last_snoc in Hy. by injection Hy as <-.
Qed.

Lemma sorted_app l1 l2 :
  sorted (l1 ++ l2) <-> sorted l1 /\ sorted l2 /\ (forall x y, x ∈ l1 -> y ∈ l2 -> le_cmp x y).
Proof.
  induction l1 as [|a l1 IH]; simpl.
  - split; [|naive_solver]. intros H. split_and!; [constructor|done|set_solver].
  - split.
    + intros H. apply StronglySorted_inv in H as [H Hf]. apply IH in H as (H1 & H2 & H12).
      apply Forall_app in Hf as [Hf1 Hf2]. split_and!; [by constructor|done|].
      intros x y Hx Hy. apply elem_of_cons in Hx as [->|Hx]; [|by apply H12].
      by eapply (proj1 (Forall_forall _ _) Hf2).
    + intros (H1 & H2 & H12). apply StronglySorted_inv in H1 as [H1 Hf]. constructor.
      * apply IH. split_and!; [done|done|]. intros x y Hx. apply H12. by right.
      * apply Forall_app. split; [done|]. apply Forall_forall. intros y Hy. apply H12; [by left|done].
Qed.

Lemma sorted_insert p1 p2 x :
  ordering -> sorted (p1 ++ p2) -> Forall (fun y => 0 < cmp y x)%Z p2 ->
  (forall y, last p1 = Some y -> (cmp y x <= 0)%Z) -> sorted (p1 ++ x :: p2).
Proof.
  intros Ho Hs Hf Hl. apply sorted_app in Hs as (H1 & H2 & H12).
  assert (Hx1 : forall y, y ∈ p1 -> le_cmp y x).
  { destruct p1 as [|z p1] using rev_ind; [set_solver|]. clear IHp1. specialize (Hl z ltac:(by rewrite last_snoc)).
    apply sorted_app in H1 as (_ & _ & Hz). intros y Hy. apply elem_of_app in Hy as [Hy|Hy].
    - eapply (proj2 Ho); [|exact Hl]. apply Hz; [done|by left].
    - apply list_elem_of_singleton in Hy as ->. exact Hl. }
  apply sorted_app. split_and!; [done| |].
  - constructor; [done|]. eapply Forall_impl; [exact Hf|]. intros y. by apply gt_le.
  - intros y z Hy Hz. apply elem_of_cons in Hz as [->|Hz]; [by apply Hx1|by apply H12].
Qed.

Lemma insertion_from_run q : forall p,
  exists l, insertion_from cmp (length p) (length q) (p ++ q) = Some l /\ l ≡ₚ p ++ q /\
    (ordering -> sorted p -> sorted l).
Proof.
  induction q as [|x q IH]; intros p.
  { exists p. rewrite app_nil_r. by split_and!. }
  cbn [length insertion_from]. destruct (sift_down_run p x q) as (p1 & p2 & -> & -> & Hf & Hl).
  cbn [mbind option_bind]. destruct (IH (p1 ++ x :: p2)) as (l & Hrun & Hp & Hs).
  rewrite <- app_assoc in Hrun, Hp. cbn [app] in Hrun, Hp. rewrite length_app in Hrun. cbn [length] in Hrun.
  rewrite length_app, <- Nat.add_succ_r. exists l. split_and!; [exact Hrun| |].
  - rewrite Hp, <- !app_assoc. apply Permutation_app_head. by rewrite Permutation_middle.
  - intros Ho Hso. apply Hs; [done|]. by apply sorted_insert.
Qed.

Lemma insertion_sort_run l :
  exists l', insertion_sort cmp l = Some l' /\ l' ≡ₚ l /\ (ordering -> sorted l').
Proof.
  unfold insertion_sort. destruct l as [|x l].
  { exists []. split_and!; [done|done|constructor]. }
  destruct (insertion_from_run l [x]) as (l' & Hrun & Hp & Hs). exists l'.
  cbn [length Nat.sub]. rewrite Nat.sub_0_r. split_and!; [exact Hrun|exact Hp|].
  intros Ho. apply Hs; [done|]. repeat constructor.
Qed.

(** ** The partition *)

(** The array in pieces: the pivot, its equals, the smaller, the unknown, the
    greater, more equals. *)
Record parted v (st : part) (e l u g r : list A) : Prop := {
  pt_arr : arr st = v :: e ++ l ++ u ++ g ++ r;
  pt_pa : pa st = S (length e);
  pt_pb : pb st = S (length e) + length l;
  pt_pc : pc1 st = pb st + length u;
  pt_pd : pd1 st = pc1 st + length g;
  pt_e : Forall (fun x => cmp x v = 0%Z) e;
  pt_l : Forall (fun x => cmp x v < 0)%Z l;
  pt_g : Forall (fun x => 0 < cmp x v)%Z g;
  pt_r : Forall (fun x => cmp x v = 0%Z) r
}.

Lemma cmp_at_pivot v x l p q i :
  l = v :: p ++ x :: q -> i = S (length p) -> cmp_at cmp i 0 l = Some (cmp x v).
Proof.
  intros -> ->. unfold cmp_at. simpl. by rewrite (list_lookup_middle p _ _ _ eq_refl).
Qed.

Lemma scan_left_run v u : forall st e l g r,
  parted v st e l u g r ->
  exists st' e' l' u', scan_left cmp (length u) st = Some st' /\ parted v st' e' l' u' g r /\
    arr st' ≡ₚ arr st /\ length u' <= length u /\
    (u' = [] \/ exists x u'', u' = x :: u'' /\ (0 < cmp x v)%Z).
Proof.
  induction u as [|x u IH]; intros st e l g r Hp; cbn [length scan_left].
  { exists st, e, l, []. split_and!; auto. }
  destruct Hp as [Harr Hpa Hpb Hpc Hpd He Hl Hg Hr].
  rewrite (cmp_at_pivot v x (arr st) (e ++ l) (u ++ g ++ r)) by
    (rewrite ?Harr, ?Hpb, ?length_app; simpl; by rewrite <- ?app_assoc).
  cbn [mbind option_bind]. destruct (0 <? cmp x v)%Z eqn:Egt; bool_to_prop.
  { exists st, e, l, (x :: u). split_and!; [done|by split|done|done|right; eauto]. }
  destruct (cmp x v =? 0)%Z eqn:Eeq; bool_to_prop.
  - assert (Hsw : exists l', swap (pa st) (pb st) (arr st) = Some (v :: (e ++ [x]) ++ l' ++ u ++ g ++ r) /\
        l' ≡ₚ l /\ Forall (fun x => cmp x v < 0)%Z l').
    { destruct l as [|y l].
      - exists []. rewrite Hpa, Hpb, Nat.add_0_r, swap_same by (rewrite Harr; simpl; rewrite !length_app; simpl; lia).
        rewrite Harr, <- app_assoc. done.
      - exists (l ++ [y]). rewrite Harr. change (v :: e ++ (y :: l) ++ (x :: u) ++ g ++ r) with ((v :: e) ++ y :: l ++ x :: u ++ g ++ r).
        rewrite (swap_segments (v :: e) y l x (u ++ g ++ r)) by (simpl in *; lia).
        rewrite <- !app_assoc. split_and!; [done|apply Permutation_app_comm|].
        apply Forall_cons in Hl as [Hy Hl]. apply Forall_app. split; [done|by repeat constructor]. }
    destruct Hsw as (l' & -> & Hl' & Hfl'). cbn [mbind option_bind].
    destruct (IH (Part (S (pa st)) (S (pb st)) (pc1 st) (pd1 st) (v :: (e ++ [x]) ++ l' ++ u ++ g ++ r) true)
      (e ++ [x]) l' g r) as (st' & e' & l'' & u' & Hrun & Hp' & Hperm & Hlen & Hstop).
    { apply Permutation_length in Hl'. split; cbn [pa pb pc1 pd1 arr]; rewrite ?length_app; simpl in *; try lia; try done.
      apply Forall_app. split; [done|by repeat constructor]. }
    exists st', e', l'', u'. split_and!; [done|done| |simpl; lia|done].
    rewrite Hperm, Harr. cbn [arr]. rewrite Hl'. solve_Permutation.
  - destruct (IH (Part (pa st) (S (pb st)) (pc1 st) (pd1 st) (arr st) (swap_cnt st)) e (l ++ [x]) g r)
      as (st' & e' & l' & u' & Hrun & Hp' & Hperm & Hlen & Hstop).
    { split; cbn [pa pb pc1 pd1 arr]; rewrite ?length_app; simpl in *; try lia; try done.
      - rewrite Harr, <- app_assoc. done.
      - apply Forall_app. split; [done|]. repeat constructor. lia. }
    exists st', e', l', u'. split_and!; [done|done|done|simpl; lia|done].
Qed.

Lemma scan_right_run v u : forall st e l g r,
  parted v st e l u g r ->
  exists st' g' r' u', scan_right cmp (length u) st = Some st' /\ parted v st' e l u' g' r' /\
    arr st' ≡ₚ arr st /\ (exists t, u = u' ++ t) /\
    (u' = [] \/ exists x u'', u' = u'' ++ [x] /\ (cmp x v < 0)%Z).
Proof.
  induction u as [|x u IH] using rev_ind; intros st e l g r Hp.
  { exists st, g, r, []. split_and!; [done|done|done|by exists []|by left]. }
  destruct Hp as [Harr Hpa Hpb Hpc Hpd He Hl Hg Hr].
  rewrite length_app in *. cbn [length] in *. rewrite Nat.add_1_r in *. cbn [scan_right].
  rewrite (cmp_at_pivot v x (arr st) (e ++ l ++ u) (g ++ r)) by
    (rewrite ?Harr, ?Hpc, ?Hpb, ?length_app; simpl; rewrite <- ?app_assoc; done || lia).
  cbn [mbind option_bind]. destruct (cmp x v <? 0)%Z eqn:Elt; bool_to_prop.
  { exists st, g, r, (u ++ [x]). split_and!; [done| |done|exists []; by rewrite app_nil_r|right; eauto].
    split; rewrite ?length_app; simpl; try done; lia. }
  destruct (cmp x v =? 0)%Z eqn:Eeq; bool_to_prop.
  - assert (Hsw : exists g', swap (pc1 st - 1) (pd1 st - 1) (arr st) = Some (v :: e ++ l ++ u ++ g' ++ x :: r) /\
        g' ≡ₚ g /\ Forall (fun x => 0 < cmp x v)%Z g').
    { destruct g as [|y g _] using rev_ind.
      - exists []. simpl in Hpd. rewrite Hpd, Nat.add_0_r, swap_same by
          (rewrite Harr; simpl; rewrite !length_app; simpl; lia).
        rewrite Harr, <- !app_assoc. done.
      - exists (y :: g). rewrite Harr.
        replace (v :: e ++ l ++ (u ++ [x]) ++ (g ++ [y]) ++ r) with ((v :: e ++ l ++ u) ++ x :: g ++ y :: r)
          by (simpl; by rewrite <- !app_assoc).
        rewrite length_app in Hpd. simpl in Hpd.
        rewrite (swap_segments (v :: e ++ l ++ u) x g y r) by (simpl; rewrite !length_app; lia).
        simpl. rewrite <- !app_assoc. split_and!; [done|by rewrite Permutation_app_comm|].
        apply Forall_app in Hg as [Hg Hy]. apply Forall_cons in Hy as [Hy _]. by constructor. }
    destruct Hsw as (g' & -> & Hg' & Hfg'). cbn [mbind option_bind].
    destruct (IH (Part (pa st) (pb st) (pc1 st - 1) (pd1 st - 1) (v :: e ++ l ++ u ++ g' ++ x :: r) true)
      e l g' (x :: r)) as (st' & g'' & r' & u' & Hrun & Hp' & Hperm & [t ->] & Hstop).
    { apply Permutation_length in Hg'. split; cbn [pa pb pc1 pd1 arr]; simpl in *; try lia; try done.
      by constructor. }
    exists st', g'', r', u'. split_and!; [done|done| |exists (t ++ [x]); by rewrite app_assoc|done].
    rewrite Hperm, Harr. cbn [arr]. rewrite Hg'. solve_Permutation.
  - destruct (IH (Part (pa st) (pb st) (pc1 st - 1) (pd1 st) (arr st) (swap_cnt st)) e l (x :: g) r)
      as (st' & g' & r' & u' & Hrun & Hp' & Hperm & [t ->] & Hstop).
    { split; cbn [pa pb pc1 pd1 arr]; simpl in *; try lia; try done.
      - rewrite Harr, <- !app_assoc. done.
      - constructor; [lia|done]. }
    exists st', g', r', u'. split_and!; [done|done|done|exists (t ++ [x]); by rewrite app_assoc|done].
Qed.

Lemma partition_run v fuel : forall u st e l g r,
  parted v st e l u g r -> length u < fuel ->
  exists st' e' l' g' r', partition_loop cmp fuel st = Some st' /\ parted v st' e' l' [] g' r' /\
    arr st' ≡ₚ arr st.
Proof.
  induction fuel as [|fuel IH]; intros u st e l g r Hp Hf; [lia|]. cbn [partition_loop].
  replace (pc1 st - pb st) with (length u) by (rewrite (pt_pc _ _ _ _ _ _ _ Hp); lia).
  destruct (scan_left_run v u st e l g r Hp) as (st1 & e1 & l1 & u1 & -> & Hp1 & Hperm1 & Hlen1 & Hstop1).
  cbn [mbind option_bind]. replace (pc1 st1 - pb st1) with (length u1) by (rewrite (pt_pc _ _ _ _ _ _ _ Hp1); lia).
  destruct (scan_right_run v u1 st1 e1 l1 g r Hp1) as (st2 & g2 & r2 & u2 & -> & Hp2 & Hperm2 & [t Ht] & Hstop2).
  cbn [mbind option_bind]. destruct Hp2 as [Harr Hpa Hpb Hpc Hpd He Hl Hg Hr]. rewrite Hpc.
  destruct (Nat.leb_spec (pb st2 + length u2) (pb st2)) as [Hle|Hgt].
  { assert (u2 = []) as -> by (apply nil_length_inv; lia).
    exists st2, e1, l1, g2, r2. split_and!; [done|by split|by rewrite Hperm2]. }
  destruct Hstop2 as [->|(w & u3 & -> & Hw)]; [simpl in Hgt; lia|].
  destruct Hstop1 as [->|(x & u4 & -> & Hx)]; [by destruct u3|].
  destruct u3 as [|x' m]; [simpl in Ht; injection Ht as -> _; lia|].
  simpl in Ht. injection Ht as -> Ht. simpl in Hlen1, Hpc. rewrite length_app in Hpc. simpl in Hpc.
  rewrite Harr.
  replace (v :: e1 ++ l1 ++ ((x' :: m) ++ [w]) ++ g2 ++ r2) with ((v :: e1 ++ l1) ++ x' :: m ++ w :: g2 ++ r2)
    by (simpl; by rewrite <- !app_assoc).
  rewrite (swap_segments (v :: e1 ++ l1) x' m w (g2 ++ r2)) by (simpl; rewrite ?length_app in *; simpl in *; lia).
  cbn [mbind option_bind].
  match goal with |- context [partition_loop cmp fuel ?s] => set (st3 := s) end.
  destruct (IH m st3 e1 (l1 ++ [w]) (x' :: g2) r2) as (st' & e' & l' & g' & r' & Hrun & Hp' & Hperm).
  { split; unfold st3; cbn [pa pb pc1 pd1 arr]; rewrite ?length_app in *; simpl in *; rewrite ?length_app in *; simpl in *; try lia; try done.
    - rewrite <- !app_assoc. done.
    - apply Forall_app. split; [done|by repeat constructor].
    - by constructor. }
  { apply (f_equal length) in Ht. rewrite !length_app in Ht. simpl in Ht. lia. }
  exists st', e', l', g', r'. split_and!; [done|done|].
  rewrite Hperm, <- Hperm1, <- Hperm2, Harr. unfold st3. cbn [arr]. solve_Permutation.
Qed.

(** ** The whole sort *)

Lemma cmp_at_in i j l : i < length l -> j < length l -> is_Some (cmp_at cmp i j l).
Proof.
  intros Hi Hj. unfold cmp_at. destruct (lookup_lt_is_Some_2 l i Hi) as [a ->].
  destruct (lookup_lt_is_Some_2 l j Hj) as [b ->]. by eexists.
Qed.

Lemma med3_in a b c l :
  a < length l -> b < length l -> c < length l ->
  exists m, med3 cmp a b c l = Some m /\ m < length l.
Proof.
  intros Ha Hb Hc. unfold med3. destruct (cmp_at_in a b l Ha Hb) as [ab ->].
  destruct (cmp_at_in b c l Hb Hc) as [bc ->]. destruct (cmp_at_in a c l Ha Hc) as [ac ->].
  cbn [mbind option_bind]. eexists. split; [done|]. by repeat case_match.
Qed.

Lemma choose_pivot_in l : 7 <= length l -> exists m, choose_pivot cmp l = Some m /\ m < length l.
Proof.
  intros Hn. unfold choose_pivot. set (n := length l) in *.
  assert (Hd2 : n / 2 < n) by (apply Nat.div_lt; lia).
  destruct (Nat.ltb_spec 7 n); [|by exists (n / 2)].
  destruct (Nat.ltb_spec 40 n).
  - pose proof (Nat.div_mod_eq n 8). pose proof (Nat.mod_upper_bound n 8).
    pose proof (Nat.div_mod_eq n 2). pose proof (Nat.mod_upper_bound n 2).
    destruct (med3_in 0 (n / 8) (2 * (n / 8)) l) as (m1 & -> & ?); [lia..|]. cbn [mbind option_bind].
    destruct (med3_in (n / 2 - n / 8) (n / 2) (n / 2 + n / 8) l) as (m2 & -> & ?); [lia..|]. cbn [mbind option_bind].
    destruct (med3_in (n - 1 - 2 * (n / 8)) (n - 1 - n / 8) (n - 1) l) as (m3 & -> & ?); [lia..|].
    cbn [mbind option_bind]. by apply med3_in.
  - cbn [mbind option_bind]. apply med3_in; lia.
Qed.

(** Two neighbouring segments change places, up to order, by swapping their ends. *)
Lemma exchange_ends p a b q i j :
  i = length p -> j = length p + length a + length b - Nat.min (length a) (length b) ->
  exists a' b', vecswap i j (Nat.min (length a) (length b)) (p ++ a ++ b ++ q) = Some (p ++ b' ++ a' ++ q) /\
    a' ≡ₚ a /\ b' ≡ₚ b.
Proof.
  intros Hi Hj. destruct (le_ge_dec (length a) (length b)) as [Hle|Hge].
  - rewrite Nat.min_l in * by done. set (k := length b - length a) in *.
    pose proof (take_drop k b) as Hb. assert (Hdl : length a = length (drop k b)) by (rewrite length_drop; lia).
    exists a, (drop k b ++ take k b). rewrite <- Hb at 1. rewrite <- !app_assoc.
    split_and!; [|done|by rewrite Permutation_app_comm, take_drop].
    apply (vecswap_segments a (drop k b) Hdl p (take k b) q); [done|]. rewrite length_take. lia.
  - rewrite Nat.min_r in * by done. set (k := length b) in *.
    pose proof (take_drop k a) as Ha. assert (Hdl : length (take k a) = length b) by (rewrite length_take; lia).
    exists (drop k a ++ take k a), b. rewrite <- Ha at 1. rewrite <- !app_assoc.
    split_and!; [|by rewrite Permutation_app_comm, take_drop|done].
    pose proof (vecswap_segments (take k a) b Hdl p (drop k a) q i j) as Hv.
    rewrite Hdl in Hv. apply Hv; [done|]. rewrite length_drop. lia.
Qed.

Definition sorts (sort : list A -> option (list A)) l : Prop :=
  exists l', sort l = Some l' /\ l' ≡ₚ l /\ (ordering -> sorted l').

Lemma sort_range_run sort p m q a :
  a = length p -> (1 < length m -> sorts sort m) ->
  exists m', sort_range sort a (length m) (p ++ m ++ q) = Some (p ++ m' ++ q) /\ m' ≡ₚ m /\
    (ordering -> sorted m').
Proof.
  intros -> Hs. unfold sort_range. destruct (Nat.ltb_spec 1 (length m)) as [Hl|Hl].
  - destruct (Hs Hl) as (m' & Hrun & Hp & Ho). exists m'. split_and!; [|done|done].
    unfold slice. rewrite drop_app_length, take_app_length, Hrun. cbn [mbind option_bind]. f_equal.
    unfold splice. rewrite take_app_length. do 2 f_equal. rewrite (Permutation_length Hp).
    by rewrite app_assoc, <- length_app, drop_app_length.
  - exists m. split_and!; [done|done|]. intros _. destruct m as [|x [|y m]]; [constructor| |simpl in Hl; lia].
    repeat constructor.
Qed.

(** Below, equal and above the pivot, in this order. *)
Lemma sorted_pieces v l e g :
  ordering -> sorted l -> sorted g ->
  Forall (fun x => cmp x v < 0)%Z l -> Forall (fun x => x = v \/ cmp x v = 0%Z) e ->
  Forall (fun x => 0 < cmp x v)%Z g -> sorted (l ++ e ++ g).
Proof.
  intros Ho Hl Hg Hfl Hfe Hfg. pose proof Ho as [Hanti Htrans].
  rewrite Forall_forall in Hfl, Hfe, Hfg.
  assert (Hvv : le_cmp v v).
  { unfold le_cmp. destruct (Z.le_gt_cases (cmp v v) 0) as [|Hgt]; [done|]. apply Z.lt_gt, Z.gt_lt, Hanti in Hgt. lia. }
  assert (Hev : forall x, x ∈ e -> le_cmp x v /\ le_cmp v x).
  { intros x Hx. destruct (Hfe x Hx) as [->|H]; [done|]. split; [unfold le_cmp; lia|by apply eq_le]. }
  assert (Hlv : forall x, x ∈ l -> le_cmp x v) by (intros x Hx; specialize (Hfl x Hx); unfold le_cmp; lia).
  assert (Hvg : forall x, x ∈ g -> le_cmp v x) by (intros x Hx; apply gt_le; auto).
  apply sorted_app. split_and!; [done| |].
  - apply sorted_app. split_and!; [|done|].
    + clear -Hev Htrans. induction e as [|x e IH]; [constructor|]. constructor.
      * apply IH. intros y Hy. apply Hev. by right.
      * apply Forall_forall. intros y Hy. eapply Htrans; [apply (Hev x); by left|apply (Hev y); by right].
    + intros x y Hx Hy. eapply Htrans; [by apply Hev|by apply Hvg].
  - intros x y Hx Hy. apply elem_of_app in Hy as [Hy|Hy]; (eapply Htrans; [by apply Hlv|]);
      [by apply Hev|by apply Hvg].
Qed.

Lemma Forall_perm (P : A -> Prop) l l' : l' ≡ₚ l -> Forall P l -> Forall P l'.
Proof. intros Hp. by rewrite Hp. Qed.

(** The pivot goes to the front. *)
Lemma swap_to_front m l :
  m < length l -> exists v t, swap 0 m l = Some (v :: t) /\ v :: t ≡ₚ l.
Proof.
  intros Hm. destruct l as [|x l]; [simpl in Hm; lia|]. destruct m as [|m].
  - exists x, l. split; [apply swap_same; simpl; lia|done].
  - simpl in Hm. destruct (lookup_lt_is_Some_2 l m) as [y Hy]; [lia|].
    exists y, (take m l ++ x :: drop (S m) l). pose proof (take_drop_middle l m y Hy) as Hl.
    split.
    + rewrite <- Hl at 1. apply (swap_segments [] x (take m l) y (drop (S m) l)); [done|].
      simpl. rewrite length_take. lia.
    + rewrite <- Hl at 3. rewrite <- !Permutation_middle. apply perm_swap.
Qed.

Lemma qsort_run fuel : forall l, length l < fuel -> sorts (qsort cmp fuel) l.
Proof.
  induction fuel as [|fuel IH]; intros l Hf; [lia|]. unfold sorts. cbn [qsort].
  destruct (Nat.ltb_spec (length l) 7) as [H7|H7]; [apply insertion_sort_run|].
  destruct (choose_pivot_in l H7) as (m & -> & Hm). cbn [mbind option_bind].
  destruct (swap_to_front m l Hm) as (v & t & -> & Hvt). cbn [mbind option_bind].
  pose proof (Permutation_length Hvt) as Hlen. cbn [length] in Hlen. rewrite <- Hlen in *.
  destruct (partition_run v (S (length t)) t (Part 1 1 (S (length t)) (S (length t)) (v :: t) false) [] [] [] [])
    as (st & e & lo & g & r & -> & Hst & Hperm); [|lia|].
  { split; cbn [pa pb pc1 pd1 arr length]; try done; try lia. by rewrite !app_nil_r. }
  cbn [mbind option_bind]. cbn [arr] in Hperm. destruct (swap_cnt st); cbn [negb].
  2: { destruct (insertion_sort_run (arr st)) as (l' & Hl' & Hp & Ho). exists l'. split_and!; [done| |done].
       by rewrite Hp, Hperm. }
  destruct Hst as [Harr Hpa Hpb Hpc Hpd He Hlo Hg Hr]. cbn [app] in Harr.
  pose proof (Permutation_length Hperm) as Hlen2. rewrite Harr in Hlen2. cbn [length] in Hlen2.
  rewrite !length_app in Hlen2. cbn [length] in Hpc. rewrite Harr.
  replace (pb st - pa st) with (length lo) by lia. replace (pa st) with (length (v :: e)) by (simpl; lia).
  destruct (exchange_ends [] (v :: e) lo (g ++ r) 0 (pb st - Nat.min (length (v :: e)) (length lo)))
    as (e' & lo' & Hv1 & Hpe & Hplo); [done|simpl in *; lia|].
  cbn [app] in Hv1. rewrite Hv1. cbn [mbind option_bind].
  pose proof (Permutation_length Hpe) as Hle. pose proof (Permutation_length Hplo) as Hll. cbn [length] in Hle.
  replace (pd1 st - pc1 st) with (length g) by lia.
  replace (S (length t) - pd1 st) with (length r) by (cbn [length] in *; lia).
  destruct (exchange_ends (lo' ++ e') g r [] (pb st) (S (length t) - Nat.min (length g) (length r)))
    as (g' & r' & Hv2 & Hpg & Hpr); [rewrite length_app; lia|rewrite length_app; lia|].
  rewrite !app_nil_r, <- !app_assoc in Hv2. rewrite Hv2. cbn [mbind option_bind].
  pose proof (Permutation_length Hpg) as Hlg. pose proof (Permutation_length Hpr) as Hlr.
  rewrite <- Hll. destruct (sort_range_run (qsort cmp fuel) [] lo' (e' ++ r' ++ g') 0)
    as (lo2 & Hs1 & Hplo2 & Hso1); [done|intros _; apply IH; lia|].
  cbn [app] in Hs1. rewrite Hs1. cbn [mbind option_bind].
  pose proof (Permutation_length Hplo2) as Hll2.
  rewrite <- Hlg. destruct (sort_range_run (qsort cmp fuel) (lo2 ++ e' ++ r') g' [] (S (length t) - length g'))
    as (g2 & Hs2 & Hpg2 & Hso2); [rewrite !length_app; lia|intros _; apply IH; lia|].
  rewrite !app_nil_r, <- !app_assoc in Hs2. rewrite Hs2. eexists. split; [done|]. split.
  - rewrite Hpg2, Hpg, Hplo2, Hplo, Hpe, Hpr, <- Hvt, <- Hperm, Harr. solve_Permutation.
  - intros Ho. rewrite (app_assoc e'). apply (sorted_pieces v); [done|by apply Hso1|by apply Hso2| | |].
    + apply (Forall_perm _ lo); [by rewrite Hplo2, Hplo|done].
    + apply Forall_app. split.
      * eapply Forall_perm; [exact Hpe|]. constructor; [by left|]. eapply Forall_impl; [exact He|]. by right.
      * eapply Forall_perm; [exact Hpr|]. eapply Forall_impl; [exact Hr|]. by right.
    + apply (Forall_perm _ g); [by rewrite Hpg2, Hpg|done].
Qed.

(** C19: qsort returns on every array and with every comparison function, however
    inconsistent: no access leaves the array, the recursion ends, and the result
    is a permutation; when the comparison orders the elements the result is
    sorted. *)
Theorem qsort_correct l :
  exists l', qsort cmp (S (length l)) l = Some l' /\ l' ≡ₚ l /\
    (ordering -> StronglySorted (fun x y => (cmp x y <= 0)%Z) l').
Proof. apply qsort_run. lia. Qed.
End sort.

Example qsort_50 :
  qsort Z.sub 51 (map (fun i => (Z.of_nat i * 37) mod 50)%Z (seq 0 50)) = Some (map Z.of_nat (seq 0 50)).
Proof. vm_compute. reflexivity. Qed.

Lemma qsort_correct_witness :
  exists l', qsort Z.sub 4 [3; 1; 2]%Z = Some l' /\ l' ≡ₚ [3; 1; 2]%Z /\
    (ordering Z.sub -> StronglySorted (fun x y => (Z.sub x y <= 0)%Z) l').
Proof. apply (qsort_correct Z.sub [3; 1; 2]%Z). Defined.
