(* ===== verification/Installer.v ===== *)
(** * app/aiseirigh: the installer's states (states/*.c) and its state machine
    (statemachine.c)

    The handlers of every state, composed from the components they call: the
    archive reader, fdisk, the IPL writer, personalisation, qsort and the event
    flag.  The state is that of the archive reader with the rest of the
    installer as its world; the two work buffers of the application state are
    those of the archive handle, where psar_init puts them.  The text that goes to
    the screen is kept as a list of strings, and the calls that change the console
    are recorded in [log]. *)

From stdpp Require Import prelude list gmap strings pretty.
From Stdlib Require Import ZArith Lia.
From S2P Require Import Prelude CMem CString Mutex Sync Fdisk Crypt Ipl Psar Qsort.

Open Scope Z_scope.
Open Scope lk_scope.

(** ** What the installer calls *)

(** FatFs on the memory card and the flash volumes.  Making a file system uses
    the work buffer that is passed in; one file is open for writing at a time. *)
Class Volumes (V F : Type) := {
  #[global] vol_fat :: Fat V F;
  f_size : F -> Z;
  f_close : F -> FRESULT;
  f_mount : list Z -> V -> FRESULT * V;
  f_mkfs : list Z -> list Z -> V -> FRESULT * list Z * V;
  f_mkdir : list Z -> V -> FRESULT * V;
  f_create : list Z -> V -> FRESULT * V;
  f_write : list Z -> V -> FRESULT * V;
  f_close_written : V -> FRESULT * V
}.

Class VolumesLaws V F `{Volumes V F} : Prop := {
  #[global] vol_fat_laws :: FatLaws V F;
  f_mkfs_buffer : forall p buf v r buf' v', f_mkfs p buf v = (r, buf', v') -> length buf' = length buf
}.

(** The NAND driver's switches. *)
Class NandSwitches (N : Type) := {
  emcsm_set_write_protect : bool -> N -> N;
  emcsm_set_scramble : Z -> N -> N
}.

(** mbedtls: the digest of the bytes fed to it. *)
Class Sha1 := { sha1 : list Z -> list Z }.

(** model.h *)
Record PspModelIdentity := Psp_identity {
  model : PspModel; model_str : string; motherboard : string; gen_str : string
}.

(** ** Data *)

Inductive State :=
| g_init_state | g_menu_state | g_mount_ms_state | g_check_updater_state | g_process_psar_state
| g_partition_flash_state | g_format_flash_state | g_mount_flash_state
| g_create_directories_state | g_flash_files_state | g_finish_state | g_error_state.

#[export] Instance state_eq_dec : EqDecision State.
Proof. solve_decision. Defined.

(** The mutex around single fields is not kept: its critical sections are
    assignments, and are steps of their own below. *)
Record StateMachine := State_machine {
  sm_state : option State; next_state : option State; evflag : evflag_t; on_press_keys : Z
}.

(** The calls that change the console, each recorded before it is made, what they
    answered, recorded behind the call before anything looks at the answer, and
    the decisions on the way there. *)
Inductive event :=
| Ev_press | Ev_card (r : FRESULT) | Ev_digest (d : list Z) | Ev_opened | Ev_unprotect
| Ev_fdisk (f0 f1 f2 f3 : Z) | Ev_partitioned (r : FdiskResult)
| Ev_mkfs (part : list Z) | Ev_formatted (part : list Z) (r : FRESULT)
| Ev_mount (part : list Z) | Ev_mounted (part : list Z) (r : FRESULT)
| Ev_mkdir (dir : list Z) | Ev_directories (r : FRESULT)
| Ev_create (file : list Z) | Ev_ipl_erase | Ev_ipl_write (data : list Z) | Ev_files (r : PsarResult)
| Ev_reset.

(** [directories]: the strings, terminator included. *)
Record installer (D N V : Type) := Installer {
  machine : StateMachine;
  identity : option PspModelIdentity;
  updater_path : string;
  directories : list (list Z);
  g_why : option string;
  screen : list string;
  disk : D; nand : N; vols : V;
  log : list event
}.
Arguments Installer {D N V}.
Arguments machine {D N V}.
Arguments identity {D N V}.
Arguments updater_path {D N V}.
Arguments directories {D N V}.
Arguments g_why {D N V}.
Arguments screen {D N V}.
Arguments disk {D N V}.
Arguments nand {D N V}.
Arguments vols {D N V}.
Arguments log {D N V}.

Definition SM_TRANSITION : Z := Z.shiftl 1 0.
Definition SM_ON_PRESS : Z := Z.shiftl 1 1.

(** The line feed of a C string literal. *)
Definition nl : string := String (Ascii.ascii_of_nat 10) EmptyString.

(** The bytes of a C string literal. *)
Definition cstring (s : string) : list Z :=
  map (fun c => Z.of_nat (Ascii.nat_of_ascii c)) (String.list_ascii_of_string s) ++ [0].

(** fferr.c: every FRESULT has a name, the assert behind the switch is not
    reached. *)
Definition ff_result_to_str (res : FRESULT) : string :=
  match res with
  | FR_OK => "FR_OK"
  | FR_DISK_ERR => "FR_DISK_ERR"
  | FR_INT_ERR => "FR_INT_ERR"
  | FR_NOT_READY => "FR_NOT_READY"
  | FR_NO_FILE => "FR_NO_FILE"
  | FR_NO_PATH => "FR_NO_PATH"
  | FR_INVALID_NAME => "FR_INVALID_NAME"
  | FR_DENIED => "FR_DENIED"
  | FR_EXIST => "FR_EXIST"
  | FR_INVALID_OBJECT => "FR_INVALID_OBJECT"
  | FR_WRITE_PROTECTED => "FR_WRITE_PROTECTED"
  | FR_INVALID_DRIVE => "FR_INVALID_DRIVE"
  | FR_NOT_ENABLED => "FR_NOT_ENABLED"
  | FR_NO_FILESYSTEM => "FR_NO_FILESYSTEM"
  | FR_MKFS_ABORTED => "FR_MKFS_ABORTED"
  | FR_TIMEOUT => "FR_TIMEOUT"
  | FR_LOCKED => "FR_LOCKED"
  | FR_NOT_ENOUGH_CORE => "FR_NOT_ENOUGH_CORE"
  | FR_TOO_MANY_OPEN_FILES => "FR_TOO_MANY_OPEN_FILES"
  | FR_INVALID_PARAMETER => "FR_INVALID_PARAMETER"
  end.

Definition psar_code (r : PsarResult) : Z :=
  match r with
  | PSAR_RESULT_OK => 0 | PSAR_ERR_OPEN => 1 | PSAR_ERR_READ_HEADER => 2 | PSAR_ERR_SEEK_HEADER => 3
  | PSAR_ERR_NOT_PSAR => 4 | PSAR_ERR_READ_DATA => 5 | PSAR_ERR_DECRYPT_HEADER => 6
  | PSAR_ERR_UNKNOWN_FIRMWARE => 7 | PSAR_ERR_SEEK_DATA => 8 | PSAR_ERR_PARSE_FILE_HEADER => 9
  | PSAR_ERR_OOM => 10 | PSAR_ERR_ENTRY_NOT_FOUND => 11 | PSAR_ERR_ENTRY_NOT_FILE => 12
  | PSAR_ERR_WORK_BUFFER_TOO_SMALL => 13 | PSAR_ERR_DECOMPRESSION => 14 | PSAR_ERR_PARSE_TABLE => 15
  | PSAR_ERR_DECRYPT_TABLE => 16 | PSAR_ERR_HANDLER => 17 | PSAR_ERR_DECRYPT_IPL => 18
  | PSAR_ERR_IPL_NOT_FOUND => 19 | PSAR_raw z => z
  end.

Definition fdisk_code (r : FdiskResult) : Z :=
  match r with
  | FDISK_RESULT_OK => 0 | FDISK_ERR_LBA_OUT_OF_CHS_RANGE => 1 | FDISK_ERR_WRITE => 2
  end.

Definition SHA1_DIGEST_SIZE : nat := 20.

Definition s_psp_661_update : list Z :=
  [0xBC; 0x10; 0xAD; 0x21; 0x14; 0xE1; 0xC3; 0x49; 0xF2; 0x3E;
   0xE2; 0xB1; 0x30; 0xD8; 0x2F; 0x7E; 0x86; 0x34; 0x60; 0xAC].
Definition s_psp_go_661_update : list Z :=
  [0x91; 0xF7; 0x8E; 0xCE; 0xC0; 0x25; 0x70; 0x5F; 0x38; 0xC3;
   0x68; 0x80; 0x59; 0xCB; 0x14; 0xFF; 0x42; 0x57; 0xAB; 0x8A].

Definition get_updater_sha1 (id : PspModelIdentity) : list Z :=
  if bool_decide (model id = PSP_MODEL_05G) then s_psp_go_661_update else s_psp_661_update.

Definition get_updater_path (id : PspModelIdentity) : string :=
  if bool_decide (model id = PSP_MODEL_05G) then "ms:/661GO.PBP" else "ms:/661.PBP".

Inductive FileHashResult := FILE_SHA_RES_OK | FILE_SHA_ERR_OPEN | FILE_SHA_ERR_READ | FILE_SHA_ERR_CLOSE.

(** IS_KEY_PRESSED *)
Definition IS_KEY_PRESSED (keys combo : Z) : bool := Z.land keys combo =? combo.

Definition strcmp_qsort (a b : list Z) : Z := default 0 (strcmp a b).

Section installer.
Context {F H D N V : Type} `{HV : Volumes V F} `{HH : Heap H} `{HK : Kirk} `{HZ : Miniz} `{HDes : Des}
  `{HL : LFlash D} `{HN : Nand N} `{HNS : NandSwitches N} `{HS : Sha1}.

(** The world of the archive reader: files are opened on the volumes. *)
#[export] Instance world_fat : Fat (installer D N V) F := {
  f_open p w := f_open (W:=V) p (vols w);
  f_read := f_read (W:=V);
  f_lseek := f_lseek (W:=V);
  f_tell := f_tell (W:=V);
  f_data := f_data (W:=V)
}.

Definition IM (A : Type) : Type := PM (F:=F) (H:=H) (W:=installer D N V) A.

(** ** Access to the parts of the state *)

Definition set_world (f : installer D N V -> installer D N V) : IM unit :=
  modify (fun s => Psar_state (ph s) (kmem s) (heap s) (f (world s))).

Definition set_machine (f : StateMachine -> StateMachine) : IM unit :=
  set_world (fun w => Installer (f (machine w)) (identity w) (updater_path w) (directories w) (g_why w)
                        (screen w) (disk w) (nand w) (vols w) (log w)).
Definition record_event (e : event) : IM unit :=
  set_world (fun w => Installer (machine w) (identity w) (updater_path w) (directories w) (g_why w)
                        (screen w) (disk w) (nand w) (vols w) (log w ++ [e])).
Definition set_screen (f : list string -> list string) : IM unit :=
  set_world (fun w => Installer (machine w) (identity w) (updater_path w) (directories w) (g_why w)
                        (f (screen w)) (disk w) (nand w) (vols w) (log w)).
Definition set_why (m : option string) : IM unit :=
  set_world (fun w => Installer (machine w) (identity w) (updater_path w) (directories w) m
                        (screen w) (disk w) (nand w) (vols w) (log w)).
Definition set_directories (l : list (list Z)) : IM unit :=
  set_world (fun w => Installer (machine w) (identity w) (updater_path w) l (g_why w)
                        (screen w) (disk w) (nand w) (vols w) (log w)).
Definition set_identity (id : PspModelIdentity) (p : string) : IM unit :=
  set_world (fun w => Installer (machine w) (Some id) p (directories w) (g_why w)
                        (screen w) (disk w) (nand w) (vols w) (log w)).
Definition set_nand (n : N) : IM unit :=
  set_world (fun w => Installer (machine w) (identity w) (updater_path w) (directories w) (g_why w)
                        (screen w) (disk w) n (vols w) (log w)).
Definition set_disk (d : D) : IM unit :=
  set_world (fun w => Installer (machine w) (identity w) (updater_path w) (directories w) (g_why w)
                        (screen w) d (nand w) (vols w) (log w)).
Definition set_vols (v : V) : IM unit :=
  set_world (fun w => Installer (machine w) (identity w) (updater_path w) (directories w) (g_why w)
                        (screen w) (disk w) (nand w) v (log w)).

(** A call on the volumes. *)
Definition on_vols (call : V -> FRESULT * V) : IM FRESULT :=
  let* w := gets world in
  let '(r, v) := call (vols w) in
  set_vols v ;; ret r.

(** A component that runs on the NAND. *)
Definition on_nand {A} (c : M N Empty_set A) : IM A :=
  let* w := gets world in
  match c (nand w) with
  | (Ret a, n) => set_nand n ;; ret a
  | (Err e, _) => match e with end
  | (Panic, n) => set_nand n ;; panic
  | (Fault, n) => set_nand n ;; fault
  | (Hang, n) => set_nand n ;; hang
  end.

Definition with_evflag {A} (c : FM A) : IM A :=
  let* w := gets world in
  let put_flag e := set_machine (fun m => State_machine (sm_state m) (next_state m) e (on_press_keys m)) in
  match c (evflag (machine w)) with
  | (Ret a, e) => put_flag e ;; ret a
  | (Err e, _) => match e with end
  | (Panic, e) => put_flag e ;; panic
  | (Fault, e) => put_flag e ;; fault
  | (Hang, e) => put_flag e ;; hang
  end.

(** An archive operation, with its result as a code. *)
Definition psar_call (c : IM unit) : IM PsarResult :=
  fun s => match c s with
           | (Ret _, s') => (Ret PSAR_RESULT_OK, s')
           | (Err e, s') => (Ret e, s')
           | (Panic, s') => (Panic, s')
           | (Fault, s') => (Fault, s')
           | (Hang, s') => (Hang, s')
           end.

(** ** primaryscreen.c *)

Definition primary_puts (msg : string) : IM unit := set_screen (fun l => l ++ [msg]).

Definition primary_printf (msg : string) : IM unit :=
  let* ok := alloc (Z.of_nat (String.length msg + 1)) in
  assert_ ok ;;
  primary_puts msg.

Definition primary_clear : IM unit := set_screen (fun _ => []).

(** ** statemachine.c *)

Definition statemachine_transition (state : State) : IM unit :=
  let* w := gets world in
  assert_ (bool_decide (next_state (machine w) = None)) ;;
  set_machine (fun m => State_machine (sm_state m) (Some state) (evflag m) (on_press_keys m)) ;;
  with_evflag (evflag_raise SM_TRANSITION) ;;
  ret tt.

(** errorstate.c *)
Definition error_state_set_message (why : string) : IM unit :=
  let* ok := alloc (Z.of_nat (String.length why + 1)) in
  set_why (if ok then Some why else None).

Definition statemachine_transition_error (msg : string) : IM unit :=
  let* ok := alloc (Z.of_nat (String.length msg + 1)) in
  assert_ ok ;;
  error_state_set_message msg ;;
  statemachine_transition g_error_state.

(** Runs [k], or goes to the error state with [msg res]. *)
Definition check_fr (res : FRESULT) (msg : string -> string) (k : IM unit) : IM unit :=
  if fr_ok res then k else statemachine_transition_error (msg (ff_result_to_str res)).

(** ** The states *)

(** initstate.c; [size] is WORK_BUFFER_SIZE. *)
Definition work_buffer_create (len : nat) : IM (option (list Z)) :=
  let* ok := alloc (Z.of_nat len) in
  ret (if (ok : bool) then Some (replicate len 0) else None).

Definition init_on_enter (id : PspModelIdentity) (size : nat) : IM unit :=
  set_identity id (get_updater_path id) ;;
  let* wb1 := work_buffer_create size in
  let* wb2 := work_buffer_create size in
  assert_ (bool_decide (is_Some wb1)) ;;
  assert_ (bool_decide (is_Some wb2)) ;;
  set_ph (fun h => set_wb2 (set_wb1 h (default [] wb1)) (default [] wb2)) ;;
  statemachine_transition g_menu_state.

(** menustate.c *)
Definition menu_on_key_press (CROSS : Z) (keys : Z) : IM unit :=
  if IS_KEY_PRESSED keys CROSS then
    record_event Ev_press ;;
    statemachine_transition g_mount_ms_state
  else ret tt.

Definition menu_on_enter (id : PspModelIdentity) : IM unit :=
  primary_clear ;;
  primary_puts ("aiseirigh v0.1" +:+ nl +:+ "by davee" +:+ nl +:+ nl) ;;
  primary_printf ("running on a " +:+ model_str id +:+ ", " +:+ motherboard id +:+ " generation " +:+ gen_str id
                  +:+ nl +:+ nl) ;;
  primary_puts ("press X to flash" +:+ nl).

(** mountmsstate.c *)
Definition mount_ms_on_enter : IM unit :=
  primary_puts "mounting memory card... " ;;
  let* res := on_vols (f_mount (cstring "ms:")) in
  record_event (Ev_card res) ;;
  check_fr res (fun s => "error " +:+ s +:+ " mounting memory card.")
    (primary_puts ("ok" +:+ nl) ;; statemachine_transition g_check_updater_state).

(** checkupdaterstate.c: the loop of file_sha1_calc; what is hashed is the
    buffer, whatever the read put there. *)
Fixpoint sha1_loop (fuel : nat) (fd : F) (remaining : Z) (hashed : list Z) : IM (FileHashResult * F * list Z) :=
  if remaining <=? 0 then ret (FILE_SHA_RES_OK, fd, hashed)
  else
    match fuel with
    | O => hang
    | S fuel' =>
        let* h := gets ph in
        let copylen := Z.min remaining (Z.of_nat (length (wb1 h))) in
        let '(res, bs, fd) := f_read (W:=V) (Z.to_nat copylen) fd in
        let* b := wr 0 bs (wb1 h) in
        set_ph (fun h => set_wb1 h b) ;;
        if negb (fr_ok res) then ret (FILE_SHA_ERR_READ, fd, hashed)
        else
          let* chunk := rd 0 (Z.to_nat copylen) b in
          sha1_loop fuel' fd (remaining - copylen) (hashed ++ chunk)
    end.

(** The result, and the digest when it was computed.  Every turn takes at least
    one byte. *)
Definition file_sha1_calc (pathname : list Z) : IM (FileHashResult * list Z) :=
  let* w := gets world in
  let '(res, fd) := f_open (W:=V) pathname (vols w) in
  if negb (fr_ok res) then ret (FILE_SHA_ERR_OPEN, [])
  else
    let* (r, fd, hashed) := sha1_loop (Z.to_nat (f_size fd)) fd (f_size fd) [] in
    match r with
    | FILE_SHA_RES_OK =>
        if negb (fr_ok (f_close fd)) then ret (FILE_SHA_ERR_CLOSE, [])
        else ret (FILE_SHA_RES_OK, sha1 hashed)
    | r => ret (r, [])
    end.

Definition check_updater_on_enter : IM unit :=
  primary_puts "checking 6.61 updater... " ;;
  let* w := gets world in
  let* id := deref (identity w) in
  let* (hash_res, digest) := file_sha1_calc (cstring (updater_path w)) in
  let* bad := match hash_res with
              | FILE_SHA_RES_OK =>
                  record_event (Ev_digest digest) ;;
                  let* c := deref (memcmp digest (get_updater_sha1 id) SHA1_DIGEST_SIZE) in
                  ret (negb (c =? 0))
              | _ => ret true
              end in
  if (bad : bool) then
    statemachine_transition_error ("check you have the correct updater in " +:+ updater_path w +:+ nl)
  else
    primary_puts ("ok" +:+ nl) ;; statemachine_transition g_process_psar_state.

(** processpsarstate.c: realloc and strdup are not checked, so running out of
    memory writes to a null pointer at once or when the list is sorted; the model
    stops at the allocation. *)
Definition read_directory (pathname : list Z) : IM Z :=
  let* w := gets world in
  let* ok := alloc (4 * (Z.of_nat (length (directories w)) + 1)) in
  (if (ok : bool) then ret tt else fault) ;;
  let* len := deref (strlen pathname) in
  let* ok := alloc (Z.of_nat (len + 1)) in
  (if (ok : bool) then ret tt else fault) ;;
  set_directories (directories w ++ [take (len + 1) pathname]) ;;
  ret 0.

Definition process_psar_on_enter (fuel : nat) (hdr0 : list Z) : IM unit :=
  primary_puts "reading 6.61 psar... " ;;
  let* h := gets ph in
  psar_init (fp h) (wb1 h) (wb2 h) ;;
  let* w := gets world in
  let* id := deref (identity w) in
  let* res := psar_call (psar_open (model id) fuel hdr0 (cstring (updater_path w))) in
  match res with
  | PSAR_RESULT_OK =>
      record_event Ev_opened ;;
      set_directories [] ;;
      psar_call (psar_read_each_directory read_directory) ;;
      let* w := gets world in
      let* sorted := deref (qsort strcmp_qsort (S (length (directories w))) (directories w)) in
      set_directories sorted ;;
      primary_puts ("ok" +:+ nl) ;;
      statemachine_transition g_partition_flash_state
  | e => statemachine_transition_error ("error " +:+ pretty (psar_code e) +:+ " opening 6.61 psar.")
  end.

(** partitionflashstate.c; 8280 is the size of fdisk's own state. *)
Definition run_fdisk (f0 f1 f2 f3 : Z) : IM FdiskResult :=
  record_event (Ev_fdisk f0 f1 f2 f3) ;;
  let* ok := alloc 8280 in
  let* w := gets world in
  match fdisk ok f0 f1 f2 f3 (disk w) with
  | (Ret r, d) => set_disk d ;; record_event (Ev_partitioned r) ;; ret r
  | (Err r, d) => set_disk d ;; record_event (Ev_partitioned r) ;; ret r
  | (Panic, d) => set_disk d ;; panic
  | (Fault, d) => set_disk d ;; fault
  | (Hang, d) => set_disk d ;; hang
  end.

Definition partition_flash (id : PspModelIdentity) : IM FdiskResult :=
  record_event Ev_unprotect ;;
  let* w := gets world in
  set_nand (emcsm_set_write_protect false (nand w)) ;;
  if bool_decide (model id = PSP_MODEL_01G) then run_fdisk 0xC000 0x2000 0x0800 0x780
  else run_fdisk 0x14800 0x2800 0x2000 0x4900.

Definition partition_flash_on_enter : IM unit :=
  primary_puts "partitioning flash... " ;;
  let* w := gets world in
  let* id := deref (identity w) in
  let* res := partition_flash id in
  match res with
  | FDISK_RESULT_OK => primary_puts ("ok" +:+ nl) ;; statemachine_transition g_format_flash_state
  | r => statemachine_transition_error ("error " +:+ pretty (fdisk_code r) +:+ " partitioning flash" +:+ nl)
  end.

(** formatflashstate.c *)
Definition flashes : list string := ["flash3"; "flash2"; "flash1"; "flash0"].

Definition format_flash (partition : list Z) : IM FRESULT :=
  record_event (Ev_mkfs partition) ;;
  let* h := gets ph in
  let* w := gets world in
  let '(res, buf, v) := f_mkfs partition (wb1 h) (vols w) in
  set_ph (fun h => set_wb1 h buf) ;;
  set_vols v ;;
  record_event (Ev_formatted partition res) ;;
  ret res.

Fixpoint format_each (l : list string) (k : IM unit) : IM unit :=
  match l with
  | [] => k
  | f :: l' =>
      primary_printf ("formatting " +:+ f +:+ "... ") ;;
      let* res := format_flash (cstring (f +:+ ":")) in
      check_fr res (fun s => "error " +:+ s +:+ " formatting " +:+ f +:+ ".")
        (primary_puts ("ok" +:+ nl) ;; format_each l' k)
  end.

Definition format_flash_on_enter : IM unit :=
  format_each flashes (statemachine_transition g_mount_flash_state).

(** mountflashstate.c *)
Definition mount_volume (name : string) : IM FRESULT :=
  record_event (Ev_mount (cstring name)) ;;
  let* res := on_vols (f_mount (cstring name)) in
  record_event (Ev_mounted (cstring name) res) ;;
  ret res.

Definition mount_flash_on_enter : IM unit :=
  primary_puts "mounting flash0... " ;;
  let* res := mount_volume "flash0:" in
  check_fr res (fun s => "error " +:+ s +:+ " mounting flash0.")
    (primary_puts ("ok" +:+ nl) ;;
     primary_puts "mounting flash1... " ;;
     let* res := mount_volume "flash1:" in
     check_fr res (fun s => "error " +:+ s +:+ " mounting flash1.")
       (primary_puts ("ok" +:+ nl) ;;
        statemachine_transition g_create_directories_state)).

(** createdirectoriesstate.c: up to [n] attempts. *)
Fixpoint mkdir_retry (n : nat) (dir : list Z) (res : FRESULT) : IM FRESULT :=
  match n with
  | O => ret res
  | S n' =>
      record_event (Ev_mkdir dir) ;;
      let* res := on_vols (f_mkdir dir) in
      if fr_ok res then ret res else mkdir_retry n' dir res
  end.

Definition MAX_RETRY : nat := 5.

Fixpoint create_each (dirs : list (list Z)) (result : FRESULT) : IM FRESULT :=
  match dirs with
  | [] => ret result
  | d :: dirs' =>
      let* res := mkdir_retry MAX_RETRY d FR_OK in
      create_each dirs' (if fr_ok res then result else res)
  end.

Definition create_directories_on_enter : IM unit :=
  primary_puts "creating directories... " ;;
  let* w := gets world in
  let* result := create_each (directories w) FR_OK in
  record_event (Ev_directories result) ;;
  check_fr result (fun s => "error " +:+ s +:+ " creating directories.")
    (primary_puts ("ok" +:+ nl) ;; statemachine_transition g_flash_files_state).

(** flashfilesstate.c; the data is in the second work buffer. *)
Definition flash_file (pathname : list Z) (len : Z) (prop : FileProperties) : IM Z :=
  record_event (Ev_create pathname) ;;
  let* res := on_vols (f_create pathname) in
  if negb (fr_ok res) then ret 1
  else
    let* pok := (match personalisation prop with
                 | PSAR_FILE_REQ_PERSONALISED =>
                     let* h := gets ph in
                     let* (pres, data) := with_kirk (personalise (wb2 h)) in
                     set_ph (fun h => set_wb2 h data) ;;
                     ret (match pres with PERSONALISATION_RESULT_OK => true | _ => false end)
                 | PSAR_FILE_NORMAL => ret true
                 end) in
    if negb pok then ret 1
    else
      let* h := gets ph in
      let* data := rd 0 (Z.to_nat len) (wb2 h) in
      let* res := on_vols (f_write data) in
      if negb (fr_ok res) then ret 1
      else
        let* res := on_vols f_close_written in
        if negb (fr_ok res) then ret 1 else ret 0.

(** The result of write_ipl is not used. *)
Definition on_read_psar_file (pathname : list Z) (len : Z) (prop : FileProperties) : IM Z :=
  match file_type prop with
  | PSAR_FILE_TYPE_IPL =>
      let* w := gets world in
      let* id := deref (identity w) in
      set_nand (emcsm_set_scramble 0 (nand w)) ;;
      record_event Ev_ipl_erase ;;
      on_nand clear_ipl ;;
      let* h := gets ph in
      record_event (Ev_ipl_write (take (Z.to_nat len) (wb2 h))) ;;
      on_nand (write_ipl (model id) (wb2 h) (Z.to_nat len)) ;;
      ret 0
  | PSAR_FILE_TYPE_NORMAL => flash_file pathname len prop
  end.

Definition flash_files_on_enter : IM unit :=
  primary_puts "flashing files... " ;;
  let* w := gets world in
  let* id := deref (identity w) in
  let* res := psar_call (psar_read_each_file (model id) on_read_psar_file) in
  record_event (Ev_files res) ;;
  match res with
  | PSAR_RESULT_OK => primary_puts ("ok" +:+ nl) ;; statemachine_transition g_finish_state
  | e => statemachine_transition_error ("error " +:+ pretty (psar_code e) +:+ " flashing files.")
  end.

(** finishstate.c, behind the pause of five seconds. *)
Definition finish_on_key_press (CROSS : Z) (keys : Z) : IM unit :=
  if IS_KEY_PRESSED keys CROSS then record_event Ev_reset else ret tt.

Definition finish_on_enter : IM unit := primary_puts (nl +:+ "Done. Press X to reboot." +:+ nl).

(** errorstate.c *)
Definition error_on_enter : IM unit :=
  primary_puts ("failed" +:+ nl) ;;
  let* w := gets world in
  match g_why w with Some m => primary_puts m | None => ret tt end.

(** ** The loop of the state machine *)

(** What the handlers depend on from outside: the key's bit, the console, the
    size of a work buffer, fuel for the header search and what the header
    variable of psar_open holds. *)
Record platform := Platform {
  CROSS : Z; console : PspModelIdentity; WORK_BUFFER_SIZE : nat; header_fuel : nat; stack_header : list Z
}.
Context (pf : platform).

(** The tables of the handlers: no state has an exit notification. *)
Definition on_enter (state : State) : IM unit :=
  match state with
  | g_init_state => init_on_enter (console pf) (WORK_BUFFER_SIZE pf)
  | g_menu_state => menu_on_enter (console pf)
  | g_mount_ms_state => mount_ms_on_enter
  | g_check_updater_state => check_updater_on_enter
  | g_process_psar_state => process_psar_on_enter (header_fuel pf) (stack_header pf)
  | g_partition_flash_state => partition_flash_on_enter
  | g_format_flash_state => format_flash_on_enter
  | g_mount_flash_state => mount_flash_on_enter
  | g_create_directories_state => create_directories_on_enter
  | g_flash_files_state => flash_files_on_enter
  | g_finish_state => finish_on_enter
  | g_error_state => error_on_enter
  end.

Definition on_key_press (state : State) : option (Z -> IM unit) :=
  match state with
  | g_menu_state => Some (menu_on_key_press (CROSS pf))
  | g_finish_state => Some (finish_on_key_press (CROSS pf))
  | _ => None
  end.

Definition perform_state_transition : IM unit :=
  let* w := gets world in
  match next_state (machine w) with
  | None => panic
  | Some next =>
      set_machine (fun m => State_machine (Some next) None (evflag m) (on_press_keys m)) ;;
      on_enter next
  end.

(** The branch on ON_PRESS. *)
Definition handle_press : IM unit :=
  let* w := gets world in
  match sm_state (machine w) ≫= on_key_press with
  | Some handler => handler (on_press_keys (machine w))
  | None => ret tt
  end.

Definition set_keys (keys : Z) : IM unit :=
  set_machine (fun m => State_machine (sm_state m) (next_state m) (evflag m) keys).

(** statemachine_init *)
Definition statemachine_init : IM unit :=
  set_machine (fun _ => State_machine None None (evflag_init 0) 0).

(** What the loop of statemachine_start does with the bits its wait returned,
    up to the reset of the keys; the result says whether that reset follows. *)
Definition statemachine_handle (b : Z) : IM bool :=
  if negb (Z.land b SM_TRANSITION =? 0) then perform_state_transition ;; ret true
  else if negb (Z.land b SM_ON_PRESS =? 0) then handle_press ;; ret true
  else ret false.
End installer.
