(* ===== verification/InstallerInv.v ===== *)
(** * What the installer's handlers do to the state machine and to the console:
    most of their code leaves the machine alone and cannot fail an assertion, and
    each handler asks for at most one transition. *)

From stdpp Require Import prelude list gmap strings pretty.
From Stdlib Require Import ZArith Lia.
From S2P Require Import Prelude CMem CString Kernel Mutex Sync Fdisk Crypt Ipl Psar Qsort Installer.

Open Scope Z_scope.
Open Scope lk_scope.

(** ** Code that cannot panic *)

Section nopanic.
Context {S E : Type}.

Definition nopanic {A} (c : M S E A) : Prop := forall s, fst (c s) <> Panic.

Lemma nopanic_bind {A B} (c : M S E A) (k : A -> M S E B) :
  nopanic c -> (forall a, nopanic (k a)) -> nopanic (bind c k).
Proof.
  intros Hc Hk s. unfold bind. specialize (Hc s). destruct (c s) as [[a|e| | |] s']; try done. apply Hk.
Qed.

Lemma nopanic_ret {A} (a : A) : nopanic (ret a).
Proof. by intros s. Qed.
Lemma nopanic_get : nopanic get.
Proof. by intros s. Qed.
Lemma nopanic_gets {A} (f : S -> A) : nopanic (gets f).
Proof. by intros s. Qed.
Lemma nopanic_put s0 : nopanic (put s0).
Proof. by intros s. Qed.
Lemma nopanic_modify f : nopanic (modify f).
Proof. by intros s. Qed.
Lemma nopanic_fail {A} e : nopanic (fail (A:=A) e).
Proof. by intros s. Qed.
Lemma nopanic_fault {A} : nopanic (fault (A:=A)).
Proof. by intros s. Qed.
Lemma nopanic_hang {A} : nopanic (hang (A:=A)).
Proof. by intros s. Qed.
Lemma nopanic_deref {A} (o : option A) : nopanic (deref o).
Proof. by destruct o; intros s. Qed.
Lemma nopanic_rd off len m : nopanic (rd off len m).
Proof. intros s. unfold rd. by case_bool_decide. Qed.
Lemma nopanic_wr off bs m : nopanic (wr off bs m).
Proof. intros s. unfold wr. by case_bool_decide. Qed.

Lemma nopanic_for_each {A} (l : list A) (body : A -> M S E unit) :
  (forall x, nopanic (body x)) -> nopanic (for_each l body).
Proof.
  intros Hb. induction l as [|x l IH]; [apply nopanic_ret|]. cbn [for_each]. by apply nopanic_bind.
Qed.
End nopanic.

Create HintDb calm.
#[export] Hint Resolve nopanic_ret nopanic_get nopanic_gets nopanic_put nopanic_modify nopanic_fail nopanic_fault
  nopanic_hang nopanic_deref nopanic_rd nopanic_wr : calm.

(** Walks through code by its binds and case distinctions. *)
Ltac nopanic_steps :=
  repeat first
    [ progress intros
    | solve [auto with calm nocore]
    | apply nopanic_bind
    | apply nopanic_for_each
    | match goal with
      | |- nopanic (let '(_, _) := ?p in _) => destruct p
      | |- nopanic (if ?b then _ else _) => destruct b
      | |- nopanic (match ?o with _ => _ end) => destruct o
      end ].

Lemma nopanic_kirk7_decrypt `{Kirk} src len id : nopanic (kirk7_decrypt src len id).
Proof. unfold kirk7_decrypt. nopanic_steps. Qed.
Lemma nopanic_kirk5_encrypt `{Kirk} src len : nopanic (kirk5_encrypt src len).
Proof. unfold kirk5_encrypt. nopanic_steps. Qed.
#[export] Hint Resolve nopanic_kirk7_decrypt nopanic_kirk5_encrypt : calm.

Lemma nopanic_prx2_decrypt `{Kirk} image mt : nopanic (prx2_decrypt image mt).
Proof. unfold prx2_decrypt, expand_seed. nopanic_steps. Qed.
Lemma nopanic_prx8_decrypt `{Kirk} image mt : nopanic (prx8_decrypt image mt).
Proof. unfold prx8_decrypt. nopanic_steps. Qed.
#[export] Hint Resolve nopanic_prx2_decrypt nopanic_prx8_decrypt : calm.

Lemma nopanic_prx_decrypt `{Kirk} data : nopanic (prx_decrypt data).
Proof.
  unfold prx_decrypt. nopanic_steps. induction g_prx_metatypes as [|mt l IH]; cbn [prx_dispatch]; nopanic_steps.
Qed.
Lemma nopanic_personalise `{Kirk} data : nopanic (personalise data).
Proof. unfold personalise. nopanic_steps. Qed.
#[export] Hint Resolve nopanic_prx_decrypt nopanic_personalise : calm.

Lemma nopanic_clear_ipl {N} `{Nand N} : nopanic clear_ipl.
Proof. unfold clear_ipl. nopanic_steps. Qed.

Lemma nopanic_fill_pages {N} `{Nand N} data w num l : nopanic (S:=N) (fill_pages data w num l).
Proof. induction l as [|i l IH]; cbn [fill_pages]; nopanic_steps. Qed.
#[export] Hint Resolve nopanic_clear_ipl nopanic_fill_pages : calm.

Lemma nopanic_write_chunks {N} `{Nand N} fuel data id num : forall b w,
  nopanic (S:=N) (write_chunks fuel data id num b w).
Proof. induction fuel as [|fuel IH]; intros b w; cbn [write_chunks]; nopanic_steps. Qed.

Lemma nopanic_write_index {N} `{Nand N} bs sp l : nopanic (S:=N) (write_index l bs sp).
Proof. induction l as [|b l IH]; cbn [write_index]; nopanic_steps. Qed.
#[export] Hint Resolve nopanic_write_chunks nopanic_write_index : calm.

Lemma nopanic_write_ipl {N} `{Nand N} model data len : nopanic (S:=N) (write_ipl model data len).
Proof. unfold write_ipl. nopanic_steps. Qed.
#[export] Hint Resolve nopanic_write_ipl : calm.

Lemma nopanic_fdisk {D} `{LFlash D} ok f0 f1 f2 f3 : nopanic (S:=D) (fdisk ok f0 f1 f2 f3).
Proof.
  unfold fdisk. nopanic_steps.
  all: intros d; unfold write_record; by destruct (lflash_write_sectors _ _ d) as [[] ?].
Qed.
#[export] Hint Resolve nopanic_fdisk : calm.

(** ** The heap along a run *)

Section growth.
Context {H : Type} `{HH : Heap H}.

(** Allocations led from one heap to the other. *)
Definition grown : relation H := rtc (fun h h' => exists n, h' = snd (malloc n h)).

(** One of the allocations on the way was refused. *)
Definition refused (h h' : H) : Prop :=
  exists n h1, grown h h1 /\ fst (malloc n h1) = false /\ grown (snd (malloc n h1)) h'.

Lemma grown_malloc n h : grown h (snd (malloc n h)).
Proof. apply rtc_once. by exists n. Qed.

Lemma refused_malloc n h : fst (malloc n h) = false -> refused h (snd (malloc n h)).
Proof. intros Hf. exists n, h. done. Qed.

Lemma refused_before h0 h h' : grown h0 h -> refused h h' -> refused h0 h'.
Proof. intros Hg (n & h1 & Hg1 & ? & ?). exists n, h1. split; [by etrans|done]. Qed.

Lemma refused_after h h' h1 : refused h h' -> grown h' h1 -> refused h h1.
Proof. intros (n & h2 & ? & ? & Hg) Hg1. exists n, h2. split_and!; [done|done|by etrans]. Qed.
End growth.

(** ** Code that leaves the machine alone *)

Section quiet.
Context {F H D N V : Type} `{HV : Volumes V F} `{HH : Heap H} `{HK : Kirk} `{HZ : Miniz} `{HDes : Des}
  `{HL : LFlash D} `{HN : Nand N} `{HNS : NandSwitches N} `{HS : Sha1}.
(** The events the code may record, and what besides a refused allocation may
    make one of its assertions fail. *)
Context (ok : event -> Prop) (odd : Prop).
Implicit Types (w : installer D N V) (s : psar_state F H (installer D N V)).

(** The machine and the identity are as before, only events in [ok] were
    recorded, and the heap was only allocated from. *)
Definition prog s s' : Prop :=
  machine (world s') = machine (world s) /\ identity (world s') = identity (world s) /\
  (exists l, log (world s') = log (world s) ++ l /\ Forall ok l) /\ grown (heap s) (heap s').

#[global] Instance prog_preorder : PreOrder prog.
Proof.
  split.
  - intros s. split_and!; [done|done| |done]. exists []. by rewrite app_nil_r.
  - intros s1 s2 s3 (? & ? & (l & Hl & Hf) & ?) (? & ? & (l' & Hl' & Hf') & ?).
    split_and!; [congruence|congruence| |by etrans].
    exists (l ++ l'). rewrite Hl', Hl, app_assoc. split; [done|by apply Forall_app].
Qed.

(** An assertion fails only behind a refused allocation, or for the other
    reason. *)
Definition excused s s' : Prop := refused (heap s) (heap s') \/ odd.

Definition quiet {A} (c : IM (F:=F) (H:=H) (D:=D) (N:=N) (V:=V) A) : Prop :=
  forall s, prog s (snd (c s)) /\ (fst (c s) = Panic -> excused s (snd (c s))).

Lemma excused_before s1 s2 s3 : prog s1 s2 -> excused s2 s3 -> excused s1 s3.
Proof. intros (_ & _ & _ & Hg) [He|He]; [left|by right]. by eapply refused_before. Qed.

Lemma quiet_bind {A B} (c : IM A) (k : A -> IM B) :
  quiet c -> (forall a, quiet (k a)) -> quiet (bind c k).
Proof.
  intros Hc Hk s. unfold bind. destruct (Hc s) as [Hp He]. destruct (c s) as [[a|e| | |] s'];
    try (split; [exact Hp|first [done|intros _; by apply He]]).
  destruct (Hk a s') as [Hp' He']. split; [by etrans|]. intros Hx. eapply excused_before; [done|by apply He'].
Qed.

Lemma prog_same s s' : world s' = world s -> heap s' = heap s -> prog s s'.
Proof. intros Hw Hh. unfold prog. rewrite Hw, Hh. change (prog s s). reflexivity. Qed.

(** Code that ends well, in the same world. *)
Lemma quiet_same {A} (c : IM A) :
  (forall s, fst (c s) <> Panic /\ world (snd (c s)) = world s /\ heap (snd (c s)) = heap s) -> quiet c.
Proof. intros Hc s. destruct (Hc s) as (Hn & Hw & Hh). split; [by apply prog_same|done]. Qed.

Lemma quiet_ret {A} (a : A) : quiet (ret a).
Proof. by apply quiet_same. Qed.
Lemma quiet_gets {A} (f : _ -> A) : quiet (gets f).
Proof. by apply quiet_same. Qed.
Lemma quiet_get : quiet get.
Proof. by apply quiet_same. Qed.
Lemma quiet_fail {A} e : quiet (fail (A:=A) e).
Proof. by apply quiet_same. Qed.
Lemma quiet_fault {A} : quiet (fault (A:=A)).
Proof. by apply quiet_same. Qed.
Lemma quiet_hang {A} : quiet (hang (A:=A)).
Proof. by apply quiet_same. Qed.
Lemma quiet_deref {A} (o : option A) : quiet (deref o).
Proof. by apply quiet_same; destruct o. Qed.
Lemma quiet_rd off len m : quiet (rd off len m).
Proof. apply quiet_same. intros s. unfold rd. by case_bool_decide. Qed.
Lemma quiet_wr off bs m : quiet (wr off bs m).
Proof. apply quiet_same. intros s. unfold wr. by case_bool_decide. Qed.
Lemma quiet_set_ph f : quiet (set_ph f).
Proof. by apply quiet_same. Qed.
Lemma quiet_file_read n : quiet (file_read n).
Proof. apply quiet_same. intros s. unfold file_read. by destruct (f_read n _) as [[? ?] ?]. Qed.
Lemma quiet_file_lseek n : quiet (file_lseek n).
Proof. apply quiet_same. intros s. unfold file_lseek. by destruct (f_lseek n _) as [? ?]. Qed.
Lemma quiet_file_tell : quiet file_tell.
Proof. by apply quiet_same. Qed.
Lemma quiet_with_kirk {A} (c : CM A) : nopanic c -> quiet (with_kirk c).
Proof.
  intros Hc. apply quiet_same. intros s. unfold with_kirk. specialize (Hc (kmem s)).
  by destruct (c (kmem s)) as [[?|[]| | |] ?].
Qed.

Lemma quiet_alloc n : quiet (alloc n).
Proof.
  intros s. unfold alloc. pose proof (grown_malloc n (heap s)) as Hg. destruct (malloc n (heap s)) as [b hp].
  split; [|done]. split_and!; [done|done| |done]. exists []. by rewrite app_nil_r.
Qed.

(** An allocation that is asserted to succeed. *)
Lemma quiet_alloc_assert {B} n (k : unit -> IM B) :
  (forall u, quiet (k u)) -> quiet (let* b := alloc n in bind (assert_ b) k).
Proof.
  intros Hk s. destruct (quiet_alloc n s) as [Hp _]. revert Hp. unfold bind, alloc.
  destruct (malloc n (heap s)) as [b hp] eqn:Hm. cbn [fst snd]. set (s1 := Psar_state _ _ hp _). intros Hp.
  destruct b; unfold assert_.
  - destruct (Hk tt s1) as [Hp' He]. split; [by etrans|]. intros Hx. eapply excused_before; [done|by apply He].
  - split; [done|]. intros _. left. pose proof (refused_malloc n (heap s)) as Hr. rewrite Hm in Hr. by apply Hr.
Qed.

Lemma quiet_world f : (forall s, prog s (Psar_state (ph s) (kmem s) (heap s) (f (world s)))) -> quiet (set_world f).
Proof. intros Hf s. split; [apply Hf|done]. Qed.

Lemma prog_fields s id p d y sc dk n v :
  id = identity (world s) ->
  prog s (Psar_state (ph s) (kmem s) (heap s)
            (Installer (machine (world s)) id p d y sc dk n v (log (world s)))).
Proof. intros ->. split_and!; [done|done| |done]. exists []. by rewrite app_nil_r. Qed.

Lemma quiet_set_screen f : quiet (set_screen f).
Proof. apply quiet_world. intros s. by apply prog_fields. Qed.
Lemma quiet_set_why m : quiet (set_why m).
Proof. apply quiet_world. intros s. by apply prog_fields. Qed.
Lemma quiet_set_directories l : quiet (set_directories l).
Proof. apply quiet_world. intros s. by apply prog_fields. Qed.
Lemma quiet_set_nand n : quiet (set_nand n).
Proof. apply quiet_world. intros s. by apply prog_fields. Qed.
Lemma quiet_set_disk d : quiet (set_disk d).
Proof. apply quiet_world. intros s. by apply prog_fields. Qed.
Lemma quiet_set_vols v : quiet (set_vols v).
Proof. apply quiet_world. intros s. by apply prog_fields. Qed.
Lemma quiet_record e : ok e -> quiet (record_event e).
Proof.
  intros He. apply quiet_world. intros s. split_and!; [done|done| |done]. exists [e].
  split; [done|by constructor].
Qed.

Lemma quiet_psar_call (c : IM unit) : quiet c -> quiet (psar_call c).
Proof.
  intros Hc s. unfold psar_call. destruct (Hc s) as [Hp He]. destruct (c s) as [[?|?| | |] ?];
    (split; [exact Hp|first [done|intros _; by apply He]]).
Qed.
End quiet.

#[export] Hint Resolve quiet_ret quiet_gets quiet_get quiet_fail quiet_fault quiet_hang quiet_deref quiet_rd
  quiet_wr quiet_set_ph quiet_file_read quiet_file_lseek quiet_file_tell quiet_alloc quiet_with_kirk
  quiet_set_screen quiet_set_why quiet_set_directories quiet_set_nand quiet_set_disk quiet_set_vols
  quiet_record : calm.

Ltac quiet_steps :=
  repeat first
    [ progress intros
    | solve [auto with calm nocore]
    | apply quiet_bind
    | apply quiet_psar_call
    | match goal with
      | |- quiet _ _ (let '(_, _) := ?p in _) => destruct p
      | |- quiet _ _ (if ?b then _ else _) => destruct b
      | |- quiet _ _ (match ?o with _ => _ end) => destruct o
      end ].

(** *** The archive reader *)

Section quiet_psar.
Context {F H D N V : Type} `{HV : Volumes V F} `{HH : Heap H} `{HK : Kirk} `{HZ : Miniz} `{HDes : Des}.
Context (ok : event -> Prop) (odd : Prop).
Notation quiet := (quiet (F:=F) (H:=H) (D:=D) (N:=N) (V:=V) ok odd).

Lemma quiet_get_header fuel hdr : quiet (get_header fuel hdr).
Proof. revert hdr. induction fuel as [|fuel IH]; intros hdr; cbn [get_header]; quiet_steps. Qed.

Lemma quiet_read_next_block n : quiet (read_next_block_wb1 n).
Proof. unfold read_next_block_wb1, decrypt_header, decrypt_block_in_wb1. quiet_steps. Qed.
#[local] Hint Resolve quiet_get_header quiet_read_next_block : calm.

Lemma quiet_read_entries n : forall i room, quiet (read_entries n i room).
Proof. induction n as [|n IH]; intros i room; cbn [read_entries]; quiet_steps. Qed.
#[local] Hint Resolve quiet_read_entries : calm.

Lemma quiet_read_contents fuel hdr : quiet (read_psar_contents_list fuel hdr).
Proof. unfold read_psar_contents_list. quiet_steps. Qed.

Lemma quiet_lookup_from n : forall i h nm, quiet (lookup_from n i h nm).
Proof. induction n as [|n IH]; intros i h nm; cbn [lookup_from]; quiet_steps. Qed.
#[local] Hint Resolve quiet_read_contents quiet_lookup_from : calm.

Lemma quiet_lookup_entry nm : quiet (lookup_entry_by_name nm).
Proof. unfold lookup_entry_by_name. quiet_steps. Qed.

Lemma quiet_read_file e : quiet (read_file_by_entry e).
Proof. unfold read_file_by_entry, zlib_decompress. quiet_steps. Qed.
#[local] Hint Resolve quiet_lookup_entry quiet_read_file : calm.

Lemma quiet_read_file_by_name nm : quiet (read_file_by_name nm).
Proof. unfold read_file_by_name. quiet_steps. Qed.

Lemma quiet_decrypt_table len : quiet (decrypt_table len 4).
Proof. unfold decrypt_table. change (get_table_keys 4) with (deref (S:=psar_state F H (installer D N V)) (E:=PsarResult) (table_keys !! Z.to_nat 4)). quiet_steps. Qed.
#[local] Hint Resolve quiet_read_file_by_name quiet_decrypt_table : calm.

Lemma quiet_count_loop fuel : forall t n, quiet (count_table_entries_loop fuel t n).
Proof. induction fuel as [|fuel IH]; intros t n; cbn [count_table_entries_loop]; quiet_steps. Qed.

Lemma quiet_parse_lines n : forall i room t sv tb, quiet (parse_lines n i room t sv tb).
Proof. unfold parse_line. induction n as [|n IH]; intros i room t sv tb; cbn [parse_lines]; unfold parse_line; quiet_steps. Qed.
#[local] Hint Resolve quiet_count_loop quiet_parse_lines : calm.

Lemma quiet_build_table t : quiet (build_table_entry_list t).
Proof. unfold build_table_entry_list, count_table_entries. quiet_steps. Qed.

Lemma quiet_decrypt_ipl : quiet decrypt_ipl.
Proof. unfold decrypt_ipl. quiet_steps. Qed.
#[local] Hint Resolve quiet_build_table quiet_decrypt_ipl : calm.

Lemma quiet_self_test n : forall i, quiet (self_test_from n i).
Proof. unfold is_ipl_path. induction n as [|n IH]; intros i; cbn [self_test_from]; unfold is_ipl_path; quiet_steps. Qed.
#[local] Hint Resolve quiet_self_test : calm.

(** A console the archive has no table for fails an assertion. *)
Lemma quiet_psar_open model fuel hdr p :
  (model = PSP_MODEL_other -> odd) -> quiet (psar_open model fuel hdr p).
Proof.
  intros Hm. unfold psar_open, self_test_ipl_decryption.
  assert (Ht : quiet (get_table_name_for_model model)).
  { destruct model; try apply quiet_ret. intros s. split; [reflexivity|]. intros _. right. by apply Hm. }
  quiet_steps.
Qed.

Lemma quiet_each_directory func n : (forall p, quiet (func p)) -> forall i, quiet (each_directory_from n i func).
Proof. intros Hf. induction n as [|n IH]; intros i; cbn [each_directory_from]; quiet_steps. Qed.

Lemma quiet_each_file model func n :
  (forall p l pr, quiet (func p l pr)) -> forall i, quiet (each_file_from model n i func).
Proof.
  intros Hf. induction n as [|n IH]; intros i; cbn [each_file_from]; unfold visit_file, is_ipl_path; quiet_steps.
Qed.
End quiet_psar.

(** ** Handlers *)

Section hands.
Context {F H D N V : Type} `{HV : Volumes V F} `{HH : Heap H} `{HK : Kirk} `{HZ : Miniz} `{HDes : Des}
  `{HL : LFlash D} `{HN : Nand N} `{HNS : NandSwitches N} `{HS : Sha1}.
Context (id : PspModelIdentity) (ok : event -> Prop) (odd : Prop).
Implicit Types (w : installer D N V) (s : psar_state F H (installer D N V)) (m : StateMachine)
  (T : State -> list event -> Prop).
Notation IM := (IM (F:=F) (H:=H) (D:=D) (N:=N) (V:=V)).

(** No transition is pending. *)
Definition idle w : Prop :=
  next_state (machine w) = None /\ evflag_magic (evflag (machine w)) = EVENT_FLAG_MAGIC /\
  identity w = Some id.

Definition raised (b : Z) (e : evflag_t) : evflag_t :=
  Evflag (evflag_magic e) (Z.lor (bits e) b) (snd (waitq_wake_all NO_ERROR (evflag_waitq e))).

Lemma evflag_raise_run b e :
  evflag_magic e = EVENT_FLAG_MAGIC -> evflag_raise b e = (Ret NO_ERROR, raised b e).
Proof. intros He. unfold evflag_raise, bind, get, assert_. by rewrite (proj2 (Z.eqb_eq _ _) He). Qed.

(** The machine is as before, or one transition was asked for: to a state that
    [T] allows after the events [l] of this handler. *)
Definition asked T m m' (l : list event) : Prop :=
  m' = m \/
  exists t, T t l /\ m' = State_machine (sm_state m) (Some t) (raised SM_TRANSITION (evflag m)) (on_press_keys m).

Definition goal_of {A} T (o : outcome PsarResult A) : State -> list event -> Prop :=
  match o with Ret _ => T | _ => fun _ _ => True end.

Definition handled {A} T s (r : outcome PsarResult A * psar_state F H (installer D N V)) : Prop :=
  (fst r = Panic -> excused odd s (snd r)) /\ grown (heap s) (heap (snd r)) /\
  exists l, log (world (snd r)) = log (world s) ++ l /\ Forall ok l /\ identity (world (snd r)) = Some id /\
    asked (goal_of T (fst r)) (machine (world s)) (machine (world (snd r))) l.

Definition hands {A} T (c : IM A) : Prop := forall s, idle (world s) -> handled T s (c s).

(** More events before do not hurt. *)
Definition mono T : Prop := forall t l l', T t l' -> T t (l ++ l').

Lemma idle_prog s s' : prog ok s s' -> idle (world s) -> idle (world s').
Proof. intros (Hm & Hi & _) (? & ? & ?). unfold idle. by rewrite Hm, Hi. Qed.

Lemma handled_prog {A} T s s' (r : outcome PsarResult A * _) :
  mono T -> prog ok s s' -> handled T s' r -> handled T s r.
Proof.
  intros HT Hpr (Hp & Hg & l' & Hl' & Hf' & Hi & Ha). pose proof Hpr as (Hm & _ & (l & Hl & Hf) & Hg0).
  split; [intros Hx; eapply excused_before; [done|by apply Hp]|]. split; [by etrans|].
  exists (l ++ l'). rewrite Hl', Hl, app_assoc. split; [done|].
  split; [by apply Forall_app|]. split; [done|]. rewrite <- Hm.
  destruct Ha as [Ha|(t & Ht & Ha)]; [by left|]. right. exists t. split; [|done].
  destruct (fst r); [by apply HT|done..].
Qed.

Lemma handled_quiet {A} T s (o : outcome PsarResult A) s' :
  (o = Panic -> excused odd s s') -> prog ok s s' -> idle (world s) -> handled T s (o, s').
Proof.
  intros Ho (Hm & Hid & (l & Hl & Hf) & Hg) (_ & _ & Hi). split; [done|]. split; [done|].
  exists l. cbn. rewrite Hid. repeat (split; [done|]). by left.
Qed.

Lemma hands_bind {A B} T (c : IM A) (k : A -> IM B) :
  mono T -> quiet ok odd c -> (forall a, hands T (k a)) -> hands T (bind c k).
Proof.
  intros HT Hc Hk s Hi. destruct (Hc s) as [Hp He]. unfold bind. destruct (c s) as [[a|e| | |] s'] eqn:Hcs.
  1: eapply handled_prog; [done|exact Hp|]; apply Hk; by eapply idle_prog.
  all: apply handled_quiet; [|exact Hp|done]; first [done|intros _; by apply He].
Qed.

Lemma hands_quiet {A} T (c : IM A) : quiet ok odd c -> hands T c.
Proof.
  intros Hc s Hi. destruct (Hc s) as [Hp He]. destruct (c s) as [o s']. by apply handled_quiet.
Qed.

Lemma hands_world {A} T (k : installer D N V -> IM A) :
  (forall w, identity w = Some id -> hands T (k w)) -> hands T (bind (gets world) k).
Proof. intros Hk s Hi. apply Hk; [apply Hi|done]. Qed.

Lemma hands_deref {A B} T (o : option A) a (k : A -> IM B) :
  o = Some a -> hands T (k a) -> hands T (bind (deref o) k).
Proof. by intros -> Hk. Qed.

Lemma hands_ret {A B} T (a : A) (k : A -> IM B) : hands T (k a) -> hands T (bind (ret a) k).
Proof. done. Qed.

Lemma hands_assoc {A B C} T (c : IM A) (k : A -> IM B) (k' : B -> IM C) :
  hands T (bind c (fun a => bind (k a) k')) -> hands T (bind (bind c k) k').
Proof.
  intros Hc s Hi. specialize (Hc s Hi). unfold bind in *. by destruct (c s) as [[a|e| | |] s'].
Qed.

Lemma hands_weaken {A} T T' (c : IM A) : (forall t l, T t l -> T' t l) -> hands T c -> hands T' c.
Proof.
  intros HT Hc s Hi. destruct (Hc s Hi) as (Hp & ? & l & ? & ? & ? & Ha).
  split; [done|]. split; [done|]. exists l. repeat (split; [done|]). destruct Ha as [?|(t & Ht & ?)]; [by left|right].
  exists t. split; [|done]. by destruct (fst (c s)); [apply HT|..].
Qed.

Lemma hands_record {A} T e (k : IM A) :
  ok e -> hands (fun t l => T t (e :: l)) k -> hands T (record_event e ;; k).
Proof.
  intros He Hk s Hi.
  set (s1 := snd (record_event e s)). change (handled T s (k s1)).
  destruct (Hk s1 Hi) as (Hp & ? & l & Hl & ? & ? & Ha). split; [done|]. split; [done|]. exists (e :: l).
  rewrite Hl. cbn. rewrite <- app_assoc. split; [done|]. split; [by constructor|]. split; [done|].
  destruct Ha as [?|(t & Ht & ?)]; [by left|right]. exists t. split; [|done].
  change (goal_of T (fst (k s1)) t (e :: l)). by destruct (fst (k s1)).
Qed.

Lemma hands_transition T t : T t [] -> hands T (statemachine_transition t).
Proof.
  intros Ht s (Hn & He & Hi). unfold statemachine_transition, bind, gets, assert_. rewrite bool_decide_true by done.
  unfold with_evflag, bind, gets, ret, set_machine, set_world, modify. cbn -[evflag_raise].
  rewrite evflag_raise_run by done. split; [done|]. split; [done|]. exists []. cbn. rewrite app_nil_r.
  repeat (split; [done|]). right. exists t. done.
Qed.
End hands.

(** The events of each state. *)
Definition allowed (t : State) (e : event) : Prop :=
  match t, e with
  | g_menu_state, Ev_press
  | g_mount_ms_state, Ev_card _
  | g_check_updater_state, Ev_digest _
  | g_process_psar_state, Ev_opened
  | g_partition_flash_state, Ev_unprotect
  | g_partition_flash_state, Ev_fdisk _ _ _ _
  | g_partition_flash_state, Ev_partitioned _
  | g_format_flash_state, Ev_mkfs _
  | g_format_flash_state, Ev_formatted _ _
  | g_mount_flash_state, Ev_mount _
  | g_mount_flash_state, Ev_mounted _ _
  | g_create_directories_state, Ev_mkdir _
  | g_create_directories_state, Ev_directories _
  | g_flash_files_state, Ev_create _
  | g_flash_files_state, Ev_ipl_erase
  | g_flash_files_state, Ev_ipl_write _
  | g_flash_files_state, Ev_files _
  | g_finish_state, Ev_reset => True
  | _, _ => False
  end.

(** The state that is asked for is [t] or the error state. *)
Definition to (t t' : State) (l : list event) : Prop := t' = t \/ t' = g_error_state.

(** [t] only behind an event in [need]. *)
Definition after (need : event -> Prop) (t t' : State) (l : list event) : Prop :=
  t' = g_error_state \/ t' = t /\ Exists need l.

(** [t] only behind all of [es]. *)
Definition after_all (es : list event) (t t' : State) (l : list event) : Prop :=
  t' = g_error_state \/ t' = t /\ es ⊆ l.

Lemma mono_after_all es t : mono (after_all es t).
Proof. intros t' l l' [->|[-> Ht]]; [by left|right]. split; [done|]. set_solver. Qed.

Lemma mono_to t : mono (to t).
Proof. by intros t' l l' Ht. Qed.
Lemma mono_after need t : mono (after need t).
Proof. intros t' l l' [->|[-> Ht]]; [by left|right]. split; [done|]. apply Exists_app. by right. Qed.
#[export] Hint Resolve mono_to mono_after mono_after_all : calm.

Ltac hands_steps :=
  repeat first
    [ progress intros
    | solve [auto with calm nocore]
    | match goal with
      | |- hands _ _ _ _ (bind (gets world) _) => apply hands_world
      | |- hands _ _ _ _ (bind (deref _) _) => eapply hands_deref; [eassumption|]
      | |- hands _ _ _ _ (bind (ret _) _) => apply hands_ret
      | |- hands _ _ _ _ (bind (bind _ _) _) => apply hands_assoc
      | |- hands _ _ _ _ (bind (record_event _) _) => fail 1
      | |- hands _ _ _ _ (bind (match _ with _ => _ end) _) => fail 1
      | |- hands _ _ _ _ (bind _ _) => apply hands_bind; [solve [auto with calm nocore]|solve [quiet_steps]|]
      | |- hands _ _ _ _ (if ?b then _ else _) => destruct b
      | |- hands _ _ _ _ (match ?o with _ => _ end) => destruct o
      end ].

Section handlers.
Context {F H D N V : Type} `{HV : Volumes V F} `{HH : Heap H} `{HK : Kirk} `{HZ : Miniz} `{HDes : Des}
  `{HL : LFlash D} `{HN : Nand N} `{HNS : NandSwitches N} `{HS : Sha1}.
Notation IM := (IM (F:=F) (H:=H) (D:=D) (N:=N) (V:=V)).
Context (id : PspModelIdentity).
Notation odd := (model id = PSP_MODEL_other).

Section any.
Context (ok : event -> Prop).
Notation quiet := (quiet (F:=F) (H:=H) (D:=D) (N:=N) (V:=V) ok odd).
Notation hands := (hands (F:=F) (H:=H) (D:=D) (N:=N) (V:=V) id ok odd).

Lemma hands_alloc_assert {B} T n (k : unit -> IM B) :
  mono T -> (forall u, hands T (k u)) -> hands T (let* b := alloc n in bind (assert_ b) k).
Proof.
  intros HT Hk s Hi. destruct (quiet_alloc_assert ok odd n (fun _ => ret tt) (fun _ => quiet_ret _ _ _) s) as [Hp He].
  revert Hp He. unfold bind, alloc. destruct (malloc n (heap s)) as [b hp]. set (s1 := Psar_state _ _ hp _).
  intros Hp He. destruct b; unfold assert_.
  - eapply handled_prog; [done|exact Hp|]. exact (Hk tt s1 Hi).
  - apply handled_quiet; [intros _; by apply He|exact Hp|done].
Qed.

Lemma quiet_puts msg : quiet (primary_puts msg).
Proof. unfold primary_puts. quiet_steps. Qed.
#[local] Hint Resolve quiet_puts : calm.

Lemma quiet_printf msg : quiet (primary_printf msg).
Proof. unfold primary_printf. apply quiet_alloc_assert. quiet_steps. Qed.
Lemma quiet_clear : quiet primary_clear.
Proof. unfold primary_clear. quiet_steps. Qed.
Lemma quiet_message why : quiet (error_state_set_message why).
Proof. unfold error_state_set_message. quiet_steps. Qed.

Lemma quiet_on_vols call : quiet (on_vols call).
Proof. unfold on_vols. quiet_steps. Qed.

Lemma quiet_on_nand {A} (c : M N Empty_set A) : nopanic c -> quiet (on_nand c).
Proof.
  intros Hc. unfold on_nand. apply quiet_bind; [quiet_steps|]. intros w. specialize (Hc (nand w)).
  destruct (c (nand w)) as [[a|[]| | |] n]; try done; quiet_steps.
Qed.
#[local] Hint Resolve quiet_printf quiet_clear quiet_message quiet_on_vols quiet_on_nand : calm.

Lemma hands_error T msg : mono T -> T g_error_state [] -> hands T (statemachine_transition_error msg).
Proof.
  intros HT Ht. apply hands_alloc_assert; [done|]. intros _. apply hands_bind; [done|quiet_steps|]. intros _.
  by apply hands_transition.
Qed.
Lemma hands_to t : hands (to t) (statemachine_transition t).
Proof. apply hands_transition. by left. Qed.
Lemma hands_to_error t msg : hands (to t) (statemachine_transition_error msg).
Proof. apply hands_error; [auto with calm|by right]. Qed.
Lemma hands_after_error need t msg : hands (after need t) (statemachine_transition_error msg).
Proof. apply hands_error; [auto with calm|by left]. Qed.

Lemma hands_after_all_error es t msg : hands (after_all es t) (statemachine_transition_error msg).
Proof. apply hands_error; [auto with calm|by left]. Qed.
Lemma hands_after_all t : hands (after_all [] t) (statemachine_transition t).
Proof. apply hands_transition. right. split; [done|]. set_solver. Qed.

(** The event that is recorded is one that was needed. *)
Lemma hands_need {A} (need : event -> Prop) t e (k : IM A) :
  need e -> ok e -> hands (to t) k -> hands (after need t) (record_event e ;; k).
Proof.
  intros Hn He Hk. apply hands_record; [done|]. eapply hands_weaken; [|exact Hk].
  intros t' l [->| ->]; [right|by left]. split; [done|]. by left.
Qed.

Lemma hands_need_all {A} es t e (k : IM A) :
  ok e -> hands (after_all es t) k -> hands (after_all (e :: es) t) (record_event e ;; k).
Proof.
  intros He Hk. apply hands_record; [done|]. eapply hands_weaken; [|exact Hk].
  intros t' l [->|[-> Hl]]; [by left|right]. split; [done|]. set_solver.
Qed.

(** The result of a call is recorded and looked at: behind [k] it was FR_OK. *)
Lemma hands_result es t (e : FRESULT -> event) res msg k :
  ok (e res) -> hands (after_all es t) k ->
  hands (after_all (e FR_OK :: es) t) (record_event (e res) ;; check_fr res msg k).
Proof.
  intros He Hk. unfold check_fr. destruct (fr_ok res) eqn:Hr.
  - assert (res = FR_OK) as -> by (by destruct res). by apply hands_need_all.
  - apply hands_bind; [auto with calm|by apply quiet_record|]. intros _. apply hands_after_all_error.
Qed.

Lemma quiet_sha1_loop fuel : forall fd rem hs, quiet (sha1_loop fuel fd rem hs).
Proof. induction fuel as [|fuel IH]; intros fd rem hs; cbn [sha1_loop]; quiet_steps. Qed.
#[local] Hint Resolve quiet_sha1_loop : calm.

Lemma quiet_file_sha1 p : quiet (file_sha1_calc p).
Proof. unfold file_sha1_calc. quiet_steps. Qed.

Lemma quiet_read_directory p : quiet (read_directory p).
Proof. unfold read_directory. quiet_steps. Qed.

End any.

(** *** The handler of each state *)

#[local] Hint Resolve quiet_puts quiet_printf quiet_clear quiet_message quiet_on_vols quiet_on_nand
  quiet_file_sha1 quiet_read_directory hands_to hands_to_error hands_after_error hands_after_all hands_after_all_error
  quiet_psar_open : calm.

Notation hands ok := (hands (F:=F) (H:=H) (D:=D) (N:=N) (V:=V) id ok odd).
Notation quiet ok := (quiet (F:=F) (H:=H) (D:=D) (N:=N) (V:=V) ok odd).

#[local] Hint Extern 1 (allowed _ _) => exact I : calm.

Definition good_digest (e : event) : Prop :=
  exists d, e = Ev_digest d /\ memcmp d (get_updater_sha1 id) SHA1_DIGEST_SIZE = Some 0.

Lemma hands_menu T : hands (allowed g_menu_state) T (menu_on_enter id).
Proof. apply hands_quiet. unfold menu_on_enter. quiet_steps. Qed.

Lemma hands_menu_press cross keys :
  hands (allowed g_menu_state) (fun t l => t = g_mount_ms_state /\ [Ev_press] ⊆ l)
    (menu_on_key_press cross keys).
Proof.
  unfold menu_on_key_press. destruct (IS_KEY_PRESSED keys cross); [|apply hands_quiet; quiet_steps].
  apply hands_record; [done|]. apply hands_transition. split; [done|]. set_solver.
Qed.

Lemma hands_mount_ms :
  hands (allowed g_mount_ms_state) (after_all [Ev_card FR_OK] g_check_updater_state) mount_ms_on_enter.
Proof. unfold mount_ms_on_enter. hands_steps. apply (hands_result _ _ _ Ev_card); [done|]. hands_steps. Qed.

Lemma hands_check_updater :
  hands (allowed g_check_updater_state) (after good_digest g_process_psar_state) check_updater_on_enter.
Proof.
  unfold check_updater_on_enter. hands_steps. destruct f; hands_steps.
  apply hands_record; [done|]. destruct (memcmp l (get_updater_sha1 id) SHA1_DIGEST_SIZE) as [c|] eqn:Hc.
  2: { apply hands_quiet. quiet_steps. }
  apply hands_assoc. eapply hands_deref; [done|]. apply hands_ret. destruct (Z.eqb_spec c 0) as [->|Hne]; cbn [negb].
  - eapply (hands_weaken _ _ _ (to g_process_psar_state)); [|hands_steps].
    intros t l' [->| ->]; [right|by left]. split; [done|]. left. by exists l.
  - eapply (hands_weaken _ _ _ (after good_digest g_process_psar_state)); [|hands_steps].
    intros t l' Ht. by apply (mono_after _ _ _ [_]).
Qed.

Lemma hands_process_psar fuel hdr :
  hands (allowed g_process_psar_state) (after_all [Ev_opened] g_partition_flash_state) (process_psar_on_enter fuel hdr).
Proof.
  unfold process_psar_on_enter, psar_init. hands_steps.
  apply hands_need_all; [done|].
  assert (Hd : quiet (allowed g_process_psar_state) (psar_read_each_directory read_directory)).
  { unfold psar_read_each_directory. quiet_steps. apply quiet_each_directory. auto with calm. }
  hands_steps.
Qed.

(** The partitions of this console. *)
Definition partition_event : event :=
  if bool_decide (model id = PSP_MODEL_01G) then Ev_fdisk 0xC000 0x2000 0x0800 0x780
  else Ev_fdisk 0x14800 0x2800 0x2000 0x4900.

Lemma hands_run_fdisk f0 f1 f2 f3 (k : FdiskResult -> IM unit) :
  hands (allowed g_partition_flash_state) (after_all [] g_format_flash_state) (k FDISK_RESULT_OK) ->
  (forall r es, r <> FDISK_RESULT_OK ->
     hands (allowed g_partition_flash_state) (after_all es g_format_flash_state) (k r)) ->
  hands (allowed g_partition_flash_state)
    (after_all [Ev_fdisk f0 f1 f2 f3; Ev_partitioned FDISK_RESULT_OK] g_format_flash_state)
    (bind (run_fdisk f0 f1 f2 f3) k).
Proof.
  intros Hok Hk. unfold run_fdisk. apply hands_assoc, hands_need_all; [done|]. hands_steps.
  pose proof (nopanic_fdisk a f0 f1 f2 f3 (disk w)) as Hf.
  assert (Hr : forall r, hands (allowed g_partition_flash_state)
    (after_all [Ev_partitioned FDISK_RESULT_OK] g_format_flash_state) (record_event (Ev_partitioned r) ;; k r)).
  { intros r. assert (r = FDISK_RESULT_OK \/ r <> FDISK_RESULT_OK) as [->|Hne] by (destruct r; [by left|by right..]);
      [by apply hands_need_all|].
    apply hands_bind; [auto with calm|by apply quiet_record|]. intros _. by apply Hk. }
  destruct (fdisk a f0 f1 f2 f3 (disk w)) as [[r|r| | |] d]; [..|done| |].
  1,2: hands_steps; apply Hr.
  all: apply hands_assoc, hands_bind; [auto with calm|quiet_steps|]; intros _; apply hands_quiet.
  - exact (quiet_fault _ _).
  - exact (quiet_hang _ _).
Qed.

Lemma hands_partition :
  hands (allowed g_partition_flash_state)
    (after_all [partition_event; Ev_partitioned FDISK_RESULT_OK] g_format_flash_state) partition_flash_on_enter.
Proof.
  unfold partition_flash_on_enter, partition_flash, partition_event. hands_steps.
  apply hands_bind; [auto with calm|by apply quiet_record|]. hands_steps.
  destruct (bool_decide _); apply hands_run_fdisk; hands_steps; done.
Qed.

Definition formatted_events : list event := map (fun f => Ev_formatted (cstring (f +:+ ":")) FR_OK) flashes.

Lemma hands_format :
  hands (allowed g_format_flash_state) (after_all formatted_events g_mount_flash_state) format_flash_on_enter.
Proof.
  unfold format_flash_on_enter, formatted_events. generalize flashes as l.
  induction l as [|f l IH]; cbn [format_each map]; [apply hands_after_all|].
  unfold format_flash. hands_steps. apply hands_bind; [auto with calm|by apply quiet_record|]. hands_steps.
  destruct (f_mkfs _ _ _) as [[res buf] v]. hands_steps.
  apply (hands_result _ _ _ (Ev_formatted _)); [done|]. hands_steps.
Qed.

Definition mounted_events : list event := [Ev_mounted (cstring "flash0:") FR_OK; Ev_mounted (cstring "flash1:") FR_OK].

Lemma hands_mount_volume es name msg (k : IM unit) :
  hands (allowed g_mount_flash_state) (after_all es g_create_directories_state) k ->
  hands (allowed g_mount_flash_state) (after_all (Ev_mounted (cstring name) FR_OK :: es) g_create_directories_state)
    (let* res := mount_volume name in check_fr res msg k).
Proof.
  intros Hk. unfold mount_volume. hands_steps. apply hands_bind; [auto with calm|by apply quiet_record|].
  hands_steps. by apply (hands_result _ _ _ (Ev_mounted _)).
Qed.

Lemma hands_mount :
  hands (allowed g_mount_flash_state) (after_all mounted_events g_create_directories_state) mount_flash_on_enter.
Proof.
  unfold mount_flash_on_enter. apply hands_bind; [auto with calm|quiet_steps|]. intros _.
  apply hands_mount_volume. do 2 (apply hands_bind; [auto with calm|quiet_steps|]; intros _).
  apply hands_mount_volume. hands_steps.
Qed.

Lemma hands_create :
  hands (allowed g_create_directories_state) (after_all [Ev_directories FR_OK] g_flash_files_state)
    create_directories_on_enter.
Proof.
  assert (Hr : forall n d r, quiet (allowed g_create_directories_state) (mkdir_retry n d r)).
  { induction n as [|n IH]; intros d r; cbn [mkdir_retry]; quiet_steps. }
  assert (Hc : forall l r, quiet (allowed g_create_directories_state) (create_each l r)).
  { induction l as [|d l IH]; intros r; cbn [create_each]; quiet_steps. }
  unfold create_directories_on_enter. hands_steps. apply (hands_result _ _ _ Ev_directories); [done|]. hands_steps.
Qed.

Lemma hands_flash :
  hands (allowed g_flash_files_state) (after_all [Ev_files PSAR_RESULT_OK] g_finish_state) flash_files_on_enter.
Proof.
  assert (Hr : forall p l pr, quiet (allowed g_flash_files_state) (on_read_psar_file p l pr)).
  { intros p l pr. unfold on_read_psar_file, flash_file. quiet_steps. }
  assert (He : forall m, quiet (allowed g_flash_files_state) (psar_read_each_file m on_read_psar_file)).
  { intros m. unfold psar_read_each_file. quiet_steps. apply quiet_each_file. auto. }
  unfold flash_files_on_enter. hands_steps.
  assert (a0 = PSAR_RESULT_OK \/ a0 <> PSAR_RESULT_OK) as [->|Hne] by (destruct a0; [by left|by right..]);
    [apply hands_need_all; [done|]; hands_steps|].
  apply hands_bind; [auto with calm|by apply quiet_record|]. intros _. destruct a0; first [done|hands_steps].
Qed.

Lemma hands_finish T : hands (allowed g_finish_state) T finish_on_enter.
Proof. apply hands_quiet. unfold finish_on_enter. quiet_steps. Qed.
Lemma hands_finish_press T cross keys : hands (allowed g_finish_state) T (finish_on_key_press cross keys).
Proof. apply hands_quiet. unfold finish_on_key_press. destruct (IS_KEY_PRESSED _ _); [by apply quiet_record|quiet_steps]. Qed.
Lemma hands_error_enter T : hands (allowed g_error_state) T error_on_enter.
Proof. apply hands_quiet. unfold error_on_enter. quiet_steps. Qed.
End handlers.
