(* ===== verification/InstallerRun.v ===== *)
(** * The installer as it runs: the main thread in the loop of
    statemachine_start, the thread that reports key presses, and every
    interleaving of the two.

    The two threads meet in the event flag and in [on_press_keys]; a handler
    touches the one only by its transition at the end and the other not at all, so a
    whole handler is one step of the main thread. *)

From stdpp Require Import prelude list gmap strings.
From Stdlib Require Import ZArith Lia.
From S2P Require Import Prelude CMem CString Kernel Mutex Sync Fdisk Crypt Ipl Psar Qsort Installer InstallerInv.

Open Scope Z_scope.
Open Scope lk_scope.

(** ** The order of the installation *)

(** What lets state [t] hand over to [t'] after the events [l]: each step of the
    installation was made, and answered that it went well. *)
Definition next_ok (id : PspModelIdentity) (t t' : State) (l : list event) : Prop :=
  match t, t' with
  | g_init_state, g_menu_state => True
  | g_menu_state, g_mount_ms_state => [Ev_press] ⊆ l
  | g_mount_ms_state, g_check_updater_state => [Ev_card FR_OK] ⊆ l
  | g_check_updater_state, g_process_psar_state => Exists (good_digest id) l
  | g_process_psar_state, g_partition_flash_state => [Ev_opened] ⊆ l
  | g_partition_flash_state, g_format_flash_state => [partition_event id; Ev_partitioned FDISK_RESULT_OK] ⊆ l
  | g_format_flash_state, g_mount_flash_state => formatted_events ⊆ l
  | g_mount_flash_state, g_create_directories_state => mounted_events ⊆ l
  | g_create_directories_state, g_flash_files_state => [Ev_directories FR_OK] ⊆ l
  | g_flash_files_state, g_finish_state => [Ev_files PSAR_RESULT_OK] ⊆ l
  | g_mount_ms_state, g_error_state
  | g_check_updater_state, g_error_state
  | g_process_psar_state, g_error_state
  | g_partition_flash_state, g_error_state
  | g_format_flash_state, g_error_state
  | g_mount_flash_state, g_error_state
  | g_create_directories_state, g_error_state
  | g_flash_files_state, g_error_state => True
  | _, _ => False
  end.

(** The abstract installer: the states it may come to, with everything it did
    before. *)
Inductive route (id : PspModelIdentity) : State -> list event -> Prop :=
| route_init : route id g_init_state []
| route_next t t' l l' :
    route id t l -> Forall (allowed t) l' -> next_ok id t t' l' -> route id t' (l ++ l').

(** Somewhere in state [t]. *)
Definition at_state (id : PspModelIdentity) (t : State) (lg : list event) : Prop :=
  exists l l', route id t l /\ lg = l ++ l' /\ Forall (allowed t) l'.

Lemma next_ok_mono id t t' l l' : next_ok id t t' l' -> next_ok id t t' (l ++ l').
Proof.
  assert (Hs : forall es : list event, es ⊆ l' -> es ⊆ l ++ l') by set_solver.
  destruct t, t'; cbn -[formatted_events mounted_events]; try done; try apply Hs; intros; apply Exists_app; by right.
Qed.

Lemma at_route id t l : route id t l -> at_state id t l.
Proof. intros Hr. exists l, []. by rewrite app_nil_r. Qed.

Lemma at_more id t lg l : at_state id t lg -> Forall (allowed t) l -> at_state id t (lg ++ l).
Proof.
  intros (l1 & l2 & Hr & -> & Hf) Hl. exists l1, (l2 ++ l). rewrite app_assoc.
  split; [done|]. split; [done|]. by apply Forall_app.
Qed.

Lemma at_next id t t' lg l :
  at_state id t lg -> Forall (allowed t) l -> next_ok id t t' l -> at_state id t' (lg ++ l).
Proof.
  intros (l1 & l2 & Hr & -> & Hf) Hl Hn. apply at_route. rewrite <- app_assoc.
  eapply route_next; [done|by apply Forall_app|by apply next_ok_mono].
Qed.

(** ** The two threads *)

Section run.
Context {F H D N V : Type} `{HV : Volumes V F} `{HH : Heap H} `{HK : Kirk} `{HZ : Miniz} `{HDes : Des}
  `{HL : LFlash D} `{HN : Nand N} `{HNS : NandSwitches N} `{HS : Sha1}.
Context (pf : platform).
Notation IM := (IM (F:=F) (H:=H) (D:=D) (N:=N) (V:=V)).

(** Where the main thread is: about to start the machine, about to wait, in the
    wait queue, back with bits, about to reset the keys, or stopped by a handler
    that did not come back. *)
Inductive main_pc :=
| Main_start | Main_wait | Main_blocked | Main_got (b : Z) | Main_reset
| Main_dead (o : outcome PsarResult unit).

(** Where on_press is: in gamepad_read, back with keys, about to raise the flag,
    or over. *)
Inductive key_pc := Key_read | Key_got (keys : Z) | Key_raise | Key_over.

Record config := Config { main : main_pc; keys : key_pc; st : psar_state F H (installer D N V) }.

Definition MAIN : tid := 1%nat.

(** The main thread runs [c] and goes on at [k]. *)
Definition main_run {A} (c : IM A) (k : A -> main_pc) (cf : config) : config :=
  match c (st cf) with
  | (Ret a, s) => Config (k a) (keys cf) s
  | (Err e, s) => Config (Main_dead (Err e)) (keys cf) s
  | (Panic, s) => Config (Main_dead Panic) (keys cf) s
  | (Fault, s) => Config (Main_dead Fault) (keys cf) s
  | (Hang, s) => Config (Main_dead Hang) (keys cf) s
  end.

(** Behind the wait: on failure the loop continues. *)
Definition waited (r : evflag_result) : main_pc :=
  match r with
  | Ev_blocked => Main_blocked
  | Ev_returned r (Some b) => if r =? NO_ERROR then Main_got b else Main_wait
  | Ev_returned r None => if r =? NO_ERROR then Main_got 0 else Main_wait
  end.

Definition PATTERN : Z := Z.lor SM_TRANSITION SM_ON_PRESS.
Definition WAIT_FLAGS : Z := Z.lor EVENT_FLAG_WAIT_MODE_OR EVENT_FLAG_AUTOCLEAR.

(** statemachine_start; a thread in the wait queue goes on once it was woken. *)
Definition main_step (cf : config) : option config :=
  match main cf with
  | Main_start => Some (main_run (statemachine_transition g_init_state) (fun _ => Main_wait) cf)
  | Main_wait => Some (main_run (with_evflag (evflag_wait_timeout MAIN PATTERN WAIT_FLAGS INFINITE_TIME)) waited cf)
  | Main_blocked =>
      if decide (MAIN ∈ waiting (evflag_waitq (evflag (machine (world (st cf)))))) then None
      else Some (main_run (with_evflag (evflag_wait_resume MAIN PATTERN WAIT_FLAGS INFINITE_TIME)) waited cf)
  | Main_got b => Some (main_run (statemachine_handle pf b) (fun r => if (r : bool) then Main_reset else Main_wait) cf)
  | Main_reset => Some (main_run (set_keys 0) (fun _ => Main_wait) cf)
  | Main_dead _ => None
  end.

(** A step of on_press; a failed assertion stops the whole program. *)
Definition key_run {A} (c : IM A) (k : key_pc) (cf : config) : config :=
  match c (st cf) with
  | (Ret _, s) => Config (main cf) k s
  | (_, s) => Config (Main_dead Panic) k s
  end.

(** on_press: gamepad_read may return any keys, or fail. *)
Inductive key_step : config -> config -> Prop :=
| key_pressed cf ks : keys cf = Key_read -> key_step cf (Config (main cf) (Key_got ks) (st cf))
| key_failed cf : keys cf = Key_read -> key_step cf (Config (main cf) Key_over (st cf))
| key_set cf ks : keys cf = Key_got ks -> key_step cf (key_run (set_keys ks) Key_raise cf)
| key_raise cf : keys cf = Key_raise -> key_step cf (key_run (with_evflag (evflag_raise SM_ON_PRESS)) Key_read cf).

Inductive step (cf cf' : config) : Prop :=
| step_main : main_step cf = Some cf' -> step cf cf'
| step_key : key_step cf cf' -> step cf cf'.

(** Before statemachine_init: nothing done yet. *)
Definition untouched (s : psar_state F H (installer D N V)) : Prop :=
  log (world s) = [] /\ identity (world s) = None.

Definition boot (s : psar_state F H (installer D N V)) : config :=
  Config Main_start Key_read (snd (statemachine_init s)).

Definition reachable (cf : config) : Prop := exists s, untouched s /\ rtc step (boot s) cf.
End run.

(** ** The flag *)

(** The two bits: a transition is pending, keys were pressed. *)
Definition code (p k : bool) : Z := (if p then SM_TRANSITION else 0) + (if k then SM_ON_PRESS else 0).

Record flag_ok (blocked : bool) (e : evflag_t) (p : bool) : Prop := {
  flag_magic : evflag_magic e = EVENT_FLAG_MAGIC;
  flag_bits : exists k, bits e = code p k;
  flag_waitq :
    if blocked
    then waiting (evflag_waitq e) = [MAIN] /\ results (evflag_waitq e) !! MAIN = None /\ bits e = 0 \/
         waiting (evflag_waitq e) = [] /\ results (evflag_waitq e) !! MAIN = Some NO_ERROR
    else waiting (evflag_waitq e) = [] /\ results (evflag_waitq e) !! MAIN = None
}.

Lemma flag_init : flag_ok false (evflag_init 0) false.
Proof. split; [done| |done]. by exists false. Qed.

Lemma raised_waitq bl b e p :
  flag_ok bl e p ->
  let q := evflag_waitq (raised b e) in
  waiting q = [] /\ results q !! MAIN = if bl then Some NO_ERROR else None.
Proof.
  intros [_ _ Hq]. unfold raised, waitq_wake_all; cbn. split; [done|].
  destruct bl.
  - destruct Hq as [(Hw & _)|[Hw Hr]]; rewrite Hw; cbn [record_all]; [|done].
    by rewrite lookup_insert_eq.
  - destruct Hq as [Hw Hr]. cbn. by rewrite Hw.
Qed.

Lemma flag_raise bl b e p :
  flag_ok bl e p -> b = SM_TRANSITION \/ b = SM_ON_PRESS ->
  flag_ok bl (raised b e) (if decide (b = SM_TRANSITION) then true else p).
Proof.
  intros He Hb. destruct (raised_waitq bl b e p He) as [Hw Hr]. destruct He as [Hm [k Hk] _]. split; [done| |].
  - cbn. rewrite Hk. destruct Hb as [-> | ->]; [exists k|exists true]; by destruct p, k.
  - destruct bl; [right|]; by split.
Qed.

(** One turn of the waiting loop by a main thread that is not queued. *)
Lemma flag_wait e p :
  flag_ok false e p ->
  exists r e', evflag_wait_loop MAIN PATTERN WAIT_FLAGS INFINITE_TIME e = (Ret r, e') /\
    (r = Ev_blocked /\ p = false /\ flag_ok true e' false \/
     exists k, r = Ev_returned NO_ERROR (Some (code p k)) /\ flag_ok false e' false).
Proof.
  intros [Hm [k Hk] [Hw Hr]]. unfold evflag_wait_loop, bind, get. rewrite Hk.
  destruct (orb p k) eqn:Hpk.
  - assert (Hc : check_pattern (code p k) PATTERN WAIT_FLAGS = true) by (destruct p, k; done).
    rewrite Hc. cbn. eexists _, _. split; [done|]. right. exists k. split; [done|].
    split; [done| |done]. exists false. by destruct p, k.
  - apply orb_false_elim in Hpk as [-> ->].
    assert (Hc : check_pattern (code false false) PATTERN WAIT_FLAGS = false) by done.
    rewrite Hc. unfold waitq_block. rewrite Hw. cbn.
    eexists _, _. split; [done|]. left. split; [done|]. split; [done|].
    split; [done|by exists false|]. left. by repeat split.
Qed.

Lemma flag_resume e p :
  flag_ok true e p -> MAIN ∉ waiting (evflag_waitq e) ->
  exists e1, flag_ok false e1 p /\
    evflag_wait_resume MAIN PATTERN WAIT_FLAGS INFINITE_TIME e =
    evflag_wait_loop MAIN PATTERN WAIT_FLAGS INFINITE_TIME e1.
Proof.
  intros [Hm Hk Hq] Hn. destruct Hq as [(Hw & _)|[Hw Hr]].
  { rewrite Hw in Hn. destruct Hn. by left. }
  exists (Evflag (evflag_magic e) (bits e) (Waitq [] (delete MAIN (results (evflag_waitq e))))).
  split; [split; [done|done|]; split; [done|apply lookup_delete_eq]|].
  unfold evflag_wait_resume, bind, get, waitq_resume. by rewrite Hr, Hw.
Qed.

(** ** The handlers along the route *)

Section run_inv.
Context {F H D N V : Type} `{HV : Volumes V F} `{HH : Heap H} `{HK : Kirk} `{HZ : Miniz} `{HDes : Des}
  `{HL : LFlash D} `{HN : Nand N} `{HNS : NandSwitches N} `{HS : Sha1}.
Context (pf : platform).
Notation config := (config (F:=F) (H:=H) (D:=D) (N:=N) (V:=V)).
Notation id := (console pf).
Implicit Types (cf : config) (s : psar_state F H (installer D N V)) (w : installer D N V).

(** The archive has no table for the console. *)
Notation odd := (model id = PSP_MODEL_other).

Lemma on_enter_hands t :
  t <> g_init_state -> hands (F:=F) (H:=H) (D:=D) (N:=N) (V:=V) id (allowed t) odd (next_ok id t) (on_enter pf t).
Proof.
  intros Hi.
  assert (Hall : forall es t' t0 l, (es ⊆ l -> next_ok id t t' l) -> next_ok id t g_error_state [] ->
    after_all es t' t0 l -> next_ok id t t0 l).
  { intros es t' t0 l H1 H2 [->|[-> Hl]]; [|by apply H1].
    rewrite <- (app_nil_r l). by apply next_ok_mono. }
  destruct t; try done; cbn [on_enter].
  - by apply hands_menu.
  - eapply hands_weaken; [|by apply hands_mount_ms]. intros t0 l Hl. eapply Hall; [|done|exact Hl]. done.
  - eapply hands_weaken; [|by apply hands_check_updater]. intros t0 l [->|[-> Hl]]; done.
  - eapply hands_weaken; [|by apply hands_process_psar]. intros t0 l Hl. eapply Hall; [|done|exact Hl]. done.
  - eapply hands_weaken; [|by apply hands_partition]. intros t0 l Hl. eapply Hall; [|done|exact Hl]. done.
  - eapply hands_weaken; [|by apply hands_format]. intros t0 l Hl. eapply Hall; [|done|exact Hl]. done.
  - eapply hands_weaken; [|by apply hands_mount]. intros t0 l Hl. eapply Hall; [|done|exact Hl]. done.
  - eapply hands_weaken; [|by apply hands_create]. intros t0 l Hl. eapply Hall; [|done|exact Hl]. done.
  - eapply hands_weaken; [|by apply hands_flash]. intros t0 l Hl. eapply Hall; [|done|exact Hl]. done.
  - by apply hands_finish.
  - by apply hands_error_enter.
Qed.

(** The two work buffers: both requests are made before they are asserted. *)
Lemma init_rest_hands :
  hands (F:=F) (H:=H) (D:=D) (N:=N) (V:=V) id (allowed g_init_state) odd (next_ok id g_init_state)
    (let* wb1 := work_buffer_create (WORK_BUFFER_SIZE pf) in
     let* wb2 := work_buffer_create (WORK_BUFFER_SIZE pf) in
     assert_ (bool_decide (is_Some wb1)) ;;
     assert_ (bool_decide (is_Some wb2)) ;;
     set_ph (fun h => set_wb2 (set_wb1 h (default [] wb1)) (default [] wb2)) ;;
     statemachine_transition g_menu_state).
Proof.
  assert (Hb : forall B (k : option (list Z) -> IM (F:=F) (H:=H) (D:=D) (N:=N) (V:=V) B) s n,
    let hp := snd (malloc (Z.of_nat n) (heap s)) in
    (let* wb := work_buffer_create n in k wb) s
    = k (if fst (malloc (Z.of_nat n) (heap s)) then Some (replicate n 0) else None) (Psar_state (ph s) (kmem s) hp (world s))).
  { intros B k s n. unfold work_buffer_create, bind, alloc, ret. by destruct (malloc (Z.of_nat n) (heap s)). }
  intros s Hidle. rewrite Hb, Hb. set (n := Z.of_nat (WORK_BUFFER_SIZE pf)).
  set (hp1 := snd (malloc n (heap s))). cbn [ph kmem heap world].
  assert (Hp : forall h, prog (allowed g_init_state) s (Psar_state h (kmem s) (snd (malloc n hp1)) (world s))).
  { intros h. split_and!; [done|done|by exists []; rewrite app_nil_r|]. etrans; apply grown_malloc. }
  destruct (fst (malloc n (heap s))) eqn:H1.
  - destruct (fst (malloc n hp1)) eqn:H2.
    + assert (Hk : hands (F:=F) (H:=H) (D:=D) (N:=N) (V:=V) id (allowed g_init_state) odd (next_ok id g_init_state)
        (statemachine_transition g_menu_state)) by (by apply hands_transition).
      eapply handled_prog; [|apply Hp|eapply (Hk (Psar_state _ _ _ _)); exact Hidle].
      intros t l l'. apply next_ok_mono.
    + apply handled_quiet; [|apply Hp|done]. intros _. left.
      eapply refused_before; [apply grown_malloc|by apply refused_malloc].
  - apply handled_quiet; [|apply Hp|done]. intros _. left.
    eapply refused_after; [by apply refused_malloc|apply grown_malloc].
Qed.

Lemma on_enter_handled t s :
  next_state (machine (world s)) = None -> evflag_magic (evflag (machine (world s))) = EVENT_FLAG_MAGIC ->
  (t <> g_init_state -> identity (world s) = Some id) ->
  handled id (allowed t) odd (next_ok id t) s (on_enter pf t s).
Proof.
  intros Hn Hm Hi. destruct (decide (t = g_init_state)) as [->|Hne].
  - cbn [on_enter]. unfold init_on_enter.
    set (s1 := snd (set_identity id (get_updater_path id) s)).
    change (handled id (allowed g_init_state) odd (next_ok id g_init_state) s1
      ((let* wb1 := work_buffer_create (WORK_BUFFER_SIZE pf) in
        let* wb2 := work_buffer_create (WORK_BUFFER_SIZE pf) in
        assert_ (bool_decide (is_Some wb1)) ;;
        assert_ (bool_decide (is_Some wb2)) ;;
        set_ph (fun h => set_wb2 (set_wb1 h (default [] wb1)) (default [] wb2)) ;;
        statemachine_transition g_menu_state) s1)).
    by apply init_rest_hands.
  - apply on_enter_hands; [done|]. split_and!; auto.
Qed.

(** A key press in state [t]. *)
Lemma press_handled t h ks s :
  on_key_press pf t = Some h -> idle id (world s) ->
  handled id (allowed t) odd (next_ok id t) s (h ks s).
Proof.
  intros Hh. revert s. destruct t; try done; injection Hh as <-; [|by apply hands_finish_press].
  eapply hands_weaken; [|by apply hands_menu_press]. by intros t l [-> Hl].
Qed.

(** ** The invariant of all runs *)

(** Where the installation stands: behind the last state, or in it. *)
Definition placed w : Prop :=
  match next_state (machine w), sm_state (machine w) with
  | None, None => log w = []
  | Some t, None => t = g_init_state /\ log w = []
  | None, Some t => identity w = Some id /\ at_state id t (log w)
  | Some t', Some t => identity w = Some id /\ t <> g_error_state /\ at_state id t' (log w)
  end.

(** The state that runs, or the one that was asked for. *)
Definition heading (m : StateMachine) : option State :=
  match next_state m with Some t => Some t | None => sm_state m end.

Definition is_blocked (pc : main_pc) : bool := match pc with Main_blocked => true | _ => false end.

Definition pending w : bool := bool_decide (is_Some (next_state (machine w))).

(** The main thread died of a failed assertion: memory had run out since the heap
    was [h0], or the archive has no table for the console. *)
Definition doomed (h0 : H) cf : Prop := refused h0 (heap (st cf)) \/ odd.

Definition inv (h0 : H) cf : Prop :=
  let w := world (st cf) in
  grown h0 (heap (st cf)) /\
  exists p, flag_ok (is_blocked (main cf)) (evflag (machine w)) p /\
  match main cf with
  | Main_dead o => (o = Panic -> doomed h0 cf) /\ exists t, sm_state (machine w) = Some t /\ at_state id t (log w)
  | Main_start => p = false /\ next_state (machine w) = None /\ sm_state (machine w) = None /\ log w = []
  | Main_got b => p = false /\ (exists k, b = code (pending w) k) /\ placed w
  | Main_wait | Main_blocked | Main_reset => p = pending w /\ placed w
  end.

(** The state with another machine. *)
Definition with_machine (f : StateMachine -> StateMachine) s : psar_state F H (installer D N V) :=
  snd (set_machine f s).

Definition put_flag (e : evflag_t) (m : StateMachine) : StateMachine :=
  State_machine (sm_state m) (next_state m) e (on_press_keys m).

Lemma with_evflag_run {A} (c : FM A) s a e :
  c (evflag (machine (world s))) = (Ret a, e) -> with_evflag c s = (Ret a, with_machine (put_flag e) s).
Proof. intros Hc. unfold with_evflag, bind, gets. by rewrite Hc. Qed.

Lemma inv_boot s : untouched s -> inv (heap s) (boot s).
Proof. intros [Hl Hi]. split; [done|]. exists false. split; [exact flag_init|done]. Qed.

Section from.
Context (h0 : H).
Notation inv := (inv h0).
Notation doomed := (doomed h0).

Lemma inv_key cf cf' : key_step cf cf' -> inv cf -> inv cf'.
Proof.
  intros Hs Hinv. destruct Hs as [cf ks _|cf _|cf ks _|cf _]; [exact Hinv|exact Hinv|exact Hinv|].
  destruct Hinv as (Hg & p & He & Hrest). unfold key_run.
  rewrite (with_evflag_run _ _ NO_ERROR (raised SM_ON_PRESS (evflag (machine (world (st cf))))))
    by (by apply evflag_raise_run, (flag_magic _ _ _ He)).
  split; [exact Hg|]. exists p. split; [|exact Hrest]. exact (flag_raise _ SM_ON_PRESS _ _ He (or_intror eq_refl)).
Qed.

(** The wait, from a flag the main thread is not queued at. *)
Lemma inv_wait cf e p (c : FM evflag_result) :
  grown h0 (heap (st cf)) -> flag_ok false e p -> p = pending (world (st cf)) -> placed (world (st cf)) ->
  c (evflag (machine (world (st cf)))) = evflag_wait_loop MAIN PATTERN WAIT_FLAGS INFINITE_TIME e ->
  inv (main_run (with_evflag c) waited cf).
Proof.
  intros Hg He Hp Hpl Hc. destruct (flag_wait e p He) as (r & e' & Hrun & Hr).
  unfold main_run. erewrite with_evflag_run by (by rewrite Hc). split; [exact Hg|].
  destruct Hr as [(-> & Hpf & He')|(k & -> & He')]; exists false; (split; [exact He'|]).
  - split; [by rewrite <- Hpf, Hp|exact Hpl].
  - split; [done|]. split; [|exact Hpl]. exists k. rewrite Hp. done.
Qed.

(** A handler that ran in state [t]: back in the loop with the machine where it
    was or with a transition, or stopped. *)
Lemma inv_handled cf t (o : outcome PsarResult unit) s s' :
  grown h0 (heap s) -> handled id (allowed t) odd (next_ok id t) s (o, s') -> sm_state (machine (world s)) = Some t -> next_state (machine (world s)) = None ->
  at_state id t (log (world s)) -> flag_ok false (evflag (machine (world s))) false ->
  inv (match o with
       | Ret _ => Config Main_reset (keys cf) s'
       | Err e => Config (Main_dead (Err e)) (keys cf) s'
       | Panic => Config (Main_dead Panic) (keys cf) s'
       | Fault => Config (Main_dead Fault) (keys cf) s'
       | Hang => Config (Main_dead Hang) (keys cf) s'
       end).
Proof.
  intros Hg0 (Hp & Hg & l & Hl & Hf & Hi & Ha) Hst Hnx Hat He. cbn in Hp, Hg, Hl, Hi, Ha.
  assert (Hgs : grown h0 (heap s')) by (by etrans).
  assert (Hstay : at_state id t (log (world s'))) by (rewrite Hl; by apply at_more).
  assert (Hdead : exists p, flag_ok false (evflag (machine (world s'))) p).
  { destruct Ha as [Ha|(t' & _ & Ha)]; rewrite Ha; [by exists false|]. exists true.
    exact (flag_raise _ SM_TRANSITION _ _ He (or_introl eq_refl)). }
  destruct Hdead as [p Hdead].
  assert (Hsm : sm_state (machine (world s')) = Some t) by (by destruct Ha as [->|(? & _ & ->)]).
  assert (Hd : o = Panic -> refused h0 (heap s') \/ odd).
  { intros Ho. destruct (Hp Ho) as [Hr|Hr]; [left|by right]. exact (refused_before _ _ _ Hg0 Hr). }
  destruct o as [u|e| | |];
    [|split; [exact Hgs|]; exists p; (split; [exact Hdead|split; [exact Hd|by exists t]])..].
  split; [exact Hgs|].
  destruct Ha as [Ha|(t' & Ht' & Ha)].
  - exists false. split; [cbn; by rewrite Ha|]. cbn. unfold pending, placed. by rewrite Ha, Hst, Hnx.
  - exists true. split; [cbn; rewrite Ha; exact (flag_raise _ SM_TRANSITION _ _ He (or_introl eq_refl))|].
    cbn. unfold pending, placed. rewrite Ha, Hst. cbn. split; [done|]. split; [done|].
    split; [intros ->; by destruct t'|]. rewrite Hl. by eapply at_next.
Qed.

Lemma main_run_true (c : IM (F:=F) (H:=H) (D:=D) (N:=N) (V:=V) unit) cf :
  main_run (c ;; ret true) (fun r => if (r : bool) then Main_reset else Main_wait) cf =
  let (o, s') := c (st cf) in
  match o with
  | Ret _ => Config Main_reset (keys cf) s'
  | Err e => Config (Main_dead (Err e)) (keys cf) s'
  | Panic => Config (Main_dead Panic) (keys cf) s'
  | Fault => Config (Main_dead Fault) (keys cf) s'
  | Hang => Config (Main_dead Hang) (keys cf) s'
  end.
Proof. unfold main_run, bind. by destruct (c (st cf)) as [[] ?]. Qed.

Lemma code_transition p k : negb (Z.land (code p k) SM_TRANSITION =? 0) = p.
Proof. by destruct p, k. Qed.

Lemma inv_start cf : main cf = Main_start -> inv cf ->
  inv (main_run (statemachine_transition g_init_state) (fun _ => Main_wait) cf).
Proof.
  intros Hpc (Hg & p & He & Hrest). rewrite Hpc in He, Hrest. destruct Hrest as (-> & Hn & Hs & Hl).
  unfold main_run, statemachine_transition, bind, gets, assert_. rewrite bool_decide_true by done.
  unfold ret at 1. cbn -[with_evflag]. unfold set_machine, set_world, modify. cbn -[with_evflag].
  erewrite with_evflag_run by (by apply evflag_raise_run, (flag_magic _ _ _ He)).
  split; [exact Hg|].
  exists true. split; [exact (flag_raise _ SM_TRANSITION _ _ He (or_introl eq_refl))|].
  cbn. unfold pending, placed. cbn. by rewrite Hs.
Qed.

Lemma inv_got cf b : main cf = Main_got b -> inv cf ->
  inv (main_run (statemachine_handle pf b) (fun r => if (r : bool) then Main_reset else Main_wait) cf).
Proof.
  intros Hpc (Hg & p & He & Hrest). rewrite Hpc in He, Hrest. destruct Hrest as (-> & (k & ->) & Hpl).
  unfold statemachine_handle. rewrite code_transition. unfold pending, placed in *.
  destruct (next_state (machine (world (st cf)))) as [t|] eqn:Hn; cbn [bool_decide].
  - rewrite bool_decide_true by done. rewrite main_run_true.
    unfold perform_state_transition, bind, gets. rewrite Hn.
    set (s1 := with_machine (fun m => State_machine (Some t) None (evflag m) (on_press_keys m)) (st cf)).
    change (inv (let (o, s') := on_enter pf t s1 in
      match o with
      | Ret _ => Config Main_reset (keys cf) s'
      | Err e => Config (Main_dead (Err e)) (keys cf) s'
      | Panic => Config (Main_dead Panic) (keys cf) s'
      | Fault => Config (Main_dead Fault) (keys cf) s'
      | Hang => Config (Main_dead Hang) (keys cf) s'
      end)).
    assert (Hat : at_state id t (log (world s1)) /\ (t <> g_init_state -> identity (world s1) = Some id)).
    { destruct (sm_state (machine (world (st cf)))); [by destruct Hpl as (? & ? & ?)|].
      destruct Hpl as [-> Hl]. cbn. rewrite Hl. split; [apply at_route; constructor|done]. }
    destruct Hat as [Hat Hid].
    assert (Hh : handled id (allowed t) odd (next_ok id t) s1 (on_enter pf t s1))
      by (by apply on_enter_handled; [|exact (flag_magic _ _ _ He)|]).
    destruct (on_enter pf t s1) as [o s']. by eapply (inv_handled cf t o s1).
  - rewrite bool_decide_false by (by intros [? ?]).
    destruct (negb (Z.land (code false k) SM_ON_PRESS =? 0)); 
      [|by split; [exact Hg|]; exists false; split; [exact He|]; cbn; unfold pending, placed; rewrite Hn].
    rewrite main_run_true. unfold handle_press, bind, gets.
    destruct (sm_state (machine (world (st cf)))) as [t|] eqn:Hs; cbn [mbind option_bind].
    2: { split; [exact Hg|]. exists false. split; [exact He|]. cbn. unfold pending, placed. by rewrite Hn, Hs. }
    destruct (on_key_press pf t) as [h|] eqn:Hh.
    2: { split; [exact Hg|]. exists false. split; [exact He|]. cbn. unfold pending, placed. by rewrite Hn, Hs. }
    destruct Hpl as [Hid Hat].
    pose proof (press_handled t h (on_press_keys (machine (world (st cf)))) (st cf) Hh
      (conj Hn (conj (flag_magic _ _ _ He) Hid))) as Hd.
    destruct (h _ (st cf)) as [o s']. by eapply (inv_handled cf t o (st cf)).
Qed.

Lemma inv_main cf cf' : main_step pf cf = Some cf' -> inv cf -> inv cf'.
Proof.
  unfold main_step. intros Hs Hinv. destruct (main cf) as [| | |b| |o] eqn:Hpc.
  - injection Hs as <-. by apply inv_start.
  - injection Hs as <-. destruct Hinv as (Hg & p & He & Hrest). rewrite Hpc in He, Hrest. destruct Hrest as [Hp Hpl].
    eapply inv_wait; [exact Hg|exact He|done|done|]. unfold evflag_wait_timeout, bind, get, assert_.
    by rewrite (flag_magic _ _ _ He).
  - destruct Hinv as (Hg & p & He & Hrest). rewrite Hpc in He, Hrest. destruct Hrest as [Hp Hpl].
    case_decide as Hw; [done|]. injection Hs as <-.
    destruct (flag_resume _ _ He Hw) as (e1 & He1 & Heq). by eapply inv_wait.
  - injection Hs as <-. by apply inv_got.
  - injection Hs as <-. destruct Hinv as (Hg & p & He & Hrest). rewrite Hpc in He, Hrest. split; [done|]. by exists p.
  - done.
Qed.

Lemma inv_step cf cf' : step pf cf cf' -> inv cf -> inv cf'.
Proof. intros [Hs|Hs]; [by apply inv_main|by apply inv_key]. Qed.

Lemma inv_cases cf :
  inv cf ->
  (exists o t, main cf = Main_dead o /\ (o = Panic -> doomed cf) /\ sm_state (machine (world (st cf))) = Some t /\
     at_state id t (log (world (st cf)))) \/
  (forall o, main cf <> Main_dead o) /\ placed (world (st cf)).
Proof.
  intros (_ & p & _ & Hinv). destruct (main cf) as [| | |b| |o].
  - right. split; [done|]. destruct Hinv as (_ & Hn & Hs & Hl). unfold placed. by rewrite Hn, Hs.
  - right. by destruct Hinv.
  - right. by destruct Hinv.
  - right. by destruct Hinv as (_ & _ & ?).
  - right. by destruct Hinv.
  - left. destruct Hinv as (? & t & ? & ?). by exists o, t.
Qed.

(** The error state: nothing happens any more. *)
Lemma error_step cf cf' :
  step pf cf cf' -> inv cf -> sm_state (machine (world (st cf))) = Some g_error_state ->
  next_state (machine (world (st cf))) = None ->
  log (world (st cf')) = log (world (st cf)) /\
  sm_state (machine (world (st cf'))) = Some g_error_state /\ next_state (machine (world (st cf'))) = None.
Proof.
  intros Hs (_ & p & He & Hrest) Hst Hn. destruct Hs as [Hs|Hs].
  - unfold main_step in Hs. destruct (main cf) as [| | |b| |o] eqn:Hpc.
    + by destruct Hrest as (_ & _ & Hbad & _); rewrite Hst in Hbad.
    + injection Hs as <-. destruct (flag_wait _ _ He) as (r & e' & Hrun & _). unfold main_run.
      erewrite with_evflag_run by (unfold evflag_wait_timeout, bind, get, assert_;
        rewrite (flag_magic _ _ _ He); exact Hrun). done.
    + case_decide as Hw; [done|]. injection Hs as <-. destruct (flag_resume _ _ He Hw) as (e1 & He1 & Heq).
      destruct (flag_wait _ _ He1) as (r & e' & Hrun & _). unfold main_run.
      by erewrite with_evflag_run by (by rewrite Heq).
    + injection Hs as <-. destruct Hrest as (_ & (k & ->) & _). unfold statemachine_handle, pending.
      rewrite code_transition, Hn, bool_decide_false by (by intros [? ?]).
      destruct (negb (Z.land (code false k) SM_ON_PRESS =? 0)); [|done].
      rewrite main_run_true. unfold handle_press, bind, gets. by rewrite Hst.
    + by injection Hs as <-.
    + done.
  - destruct Hs as [cf ks _|cf _|cf ks _|cf _]; [done|done|done|]. unfold key_run.
    by rewrite (with_evflag_run _ _ NO_ERROR (raised SM_ON_PRESS (evflag (machine (world (st cf))))))
      by (by apply evflag_raise_run, (flag_magic _ _ _ He)).
Qed.
End from.

Lemma inv_run s cf : untouched s -> rtc (step pf) (boot s) cf -> inv (heap s) cf.
Proof.
  intros Hf Hs. apply inv_boot in Hf. revert Hf. generalize (heap s) as h0. intros h0.
  induction Hs as [|c1 c2 c3 Hs _ IH]; [done|]. intros Hi. apply IH. by eapply inv_step.
Qed.

Lemma inv_reachable cf : reachable pf cf -> exists h0, inv h0 cf.
Proof. intros (s & Hf & Hs). exists (heap s). by apply inv_run. Qed.
End run_inv.

(** ** What the route guarantees *)

(** The user asked and the updater on the card is the right one. *)
Definition identified (id : PspModelIdentity) (l : list event) : Prop :=
  Ev_press ∈ l /\ Ev_card FR_OK ∈ l /\ Exists (good_digest id) l.

(** ... and its archive was opened. *)
Definition checked (id : PspModelIdentity) (l : list event) : Prop := identified id l /\ Ev_opened ∈ l.

(** The flash was partitioned as this console wants it, and the volumes were
    made. *)
Definition partitioned (id : PspModelIdentity) (l : list event) : Prop :=
  [partition_event id; Ev_partitioned FDISK_RESULT_OK] ⊆ l.

Definition formatted (id : PspModelIdentity) (l : list event) : Prop := partitioned id l /\ formatted_events ⊆ l.

Definition mounted (l : list event) : Prop := mounted_events ⊆ l.

(** What must have happened, with success, before an event. *)
Definition guard (id : PspModelIdentity) (e : event) (l : list event) : Prop :=
  match e with
  | Ev_press => True
  | Ev_card _ => Ev_press ∈ l
  | Ev_digest _ => Ev_press ∈ l /\ Ev_card FR_OK ∈ l
  | Ev_opened => identified id l
  | Ev_unprotect | Ev_fdisk _ _ _ _ | Ev_partitioned _ => checked id l
  | Ev_mkfs _ | Ev_formatted _ _ => checked id l /\ partitioned id l
  | Ev_mount _ | Ev_mounted _ _ => checked id l /\ formatted id l
  | Ev_mkdir _ | Ev_directories _ => checked id l /\ formatted id l /\ mounted l
  | Ev_create _ | Ev_ipl_erase | Ev_ipl_write _ | Ev_files _ =>
      checked id l /\ formatted id l /\ mounted l /\ Ev_directories FR_OK ∈ l
  | Ev_reset =>
      checked id l /\ formatted id l /\ mounted l /\ Ev_directories FR_OK ∈ l /\ Ev_files PSAR_RESULT_OK ∈ l
  end.

Definition guarded (id : PspModelIdentity) (l : list event) : Prop :=
  forall l1 e l2, l = l1 ++ e :: l2 -> guard id e l1.

(** What has been seen when a state is entered. *)
Definition seen (id : PspModelIdentity) (t : State) (l : list event) : Prop :=
  match t with
  | g_init_state | g_menu_state | g_error_state => True
  | g_mount_ms_state => Ev_press ∈ l
  | g_check_updater_state => Ev_press ∈ l /\ Ev_card FR_OK ∈ l
  | g_process_psar_state => identified id l
  | g_partition_flash_state => checked id l
  | g_format_flash_state => checked id l /\ partitioned id l
  | g_mount_flash_state => checked id l /\ formatted id l
  | g_create_directories_state => checked id l /\ formatted id l /\ mounted l
  | g_flash_files_state => checked id l /\ formatted id l /\ mounted l /\ Ev_directories FR_OK ∈ l
  | g_finish_state =>
      checked id l /\ formatted id l /\ mounted l /\ Ev_directories FR_OK ∈ l /\ Ev_files PSAR_RESULT_OK ∈ l
  end.

Section more.
Context (l l' : list event).

Lemma elem_more e : e ∈ l -> e ∈ l ++ l'.
Proof. intros. apply elem_of_app. by left. Qed.
Lemma elem_new e : e ∈ l' -> e ∈ l ++ l'.
Proof. intros. apply elem_of_app. by right. Qed.
Lemma Exists_more P : Exists P l -> Exists P (l ++ l').
Proof. intros. apply Exists_app. by left. Qed.
Lemma Exists_new P : Exists P l' -> Exists P (l ++ l').
Proof. intros. apply Exists_app. by right. Qed.
Lemma subset_more (es : list event) : es ⊆ l -> es ⊆ l ++ l'.
Proof. set_solver. Qed.
Lemma subset_new (es : list event) : es ⊆ l' -> es ⊆ l ++ l'.
Proof. set_solver. Qed.
#[local] Hint Resolve elem_more elem_new Exists_more Exists_new subset_more subset_new : core.

Lemma identified_more id : identified id l -> identified id (l ++ l').
Proof. intros (? & ? & ?). split_and!; auto. Qed.
Lemma checked_more id : checked id l -> checked id (l ++ l').
Proof. intros [? ?]. split; [by apply identified_more|auto]. Qed.
Lemma partitioned_more id : partitioned id l -> partitioned id (l ++ l').
Proof. intros ?. by apply subset_more. Qed.
Lemma formatted_more id : formatted id l -> formatted id (l ++ l').
Proof. intros [? ?]. split; [by apply partitioned_more|auto]. Qed.
Lemma mounted_more : mounted l -> mounted (l ++ l').
Proof. intros ?. by apply subset_more. Qed.
#[local] Hint Resolve identified_more checked_more partitioned_more formatted_more mounted_more : core.

Lemma seen_more id t : seen id t l -> seen id t (l ++ l').
Proof. destruct t; cbn; intuition auto. Qed.

Lemma single_new (e : event) : [e] ⊆ l' -> e ∈ l ++ l'.
Proof. set_solver. Qed.

Lemma seen_next id t t' : seen id t l -> next_ok id t t' l' -> seen id t' (l ++ l').
Proof.
  intros Hs%seen_more Hn. destruct t, t'; cbn -[formatted_events mounted_events partition_event] in *; try done;
    try apply single_new in Hn; unfold formatted, mounted, partitioned, checked, identified in *; intuition auto.
Qed.

Lemma guard_allowed id t e : seen id t l -> allowed t e -> guard id e l.
Proof. by destruct t, e. Qed.

Lemma guard_more id e : guard id e l -> guard id e (l ++ l').
Proof. destruct e; cbn; intuition auto. Qed.
End more.

Lemma guarded_more id t l l' : guarded id l -> seen id t l -> Forall (allowed t) l' -> guarded id (l ++ l').
Proof.
  intros Hg Hs Hf l1 e l2 Heq.
  apply app_eq_inv in Heq as [(k & -> & Hk)|(k & -> & ->)].
  - destruct k as [|e' k]; cbn in Hk.
    + subst l'. rewrite app_nil_r in *. apply Forall_cons in Hf as [Ha _]. by eapply guard_allowed.
    + injection Hk as <- Hk. by eapply Hg.
  - apply Forall_app in Hf as [_ [Ha _]%Forall_cons]. apply guard_more. by eapply guard_allowed.
Qed.

Lemma route_guarded id t l : route id t l -> seen id t l /\ guarded id l.
Proof.
  induction 1 as [|t t' l l' _ [IHs IHg] Hf Hn].
  - split; [done|]. intros [|x l1] e l2 Heq; discriminate Heq.
  - split; [by eapply seen_next|by eapply guarded_more].
Qed.

Lemma at_guarded id t l : at_state id t l -> seen id t l /\ guarded id l.
Proof.
  intros (l1 & l2 & Hr & -> & Hf). apply route_guarded in Hr as [Hs Hg].
  split; [by apply seen_more|by eapply guarded_more].
Qed.
