(* ===== verification/InstallerProps.v ===== *)
(** * Properties of the installer, and a console to run it on: a memory card with
    the updater of PsarProps.v, a working flash and a fresh NAND. *)

From stdpp Require Import prelude list gmap strings.
From Stdlib Require Import ZArith Lia.
From S2P Require Import Prelude CMem CString Kernel Mutex Sync Fdisk Crypt Ipl Psar PsarProps.
From S2P Require Import Qsort Installer InstallerInv InstallerRun.

Open Scope Z_scope.
Open Scope lk_scope.

Module Console.
Import Sample.

Record media := Media { card : list Z; opening : list Z; stored_files : list (list Z * list Z) }.

#[export] Instance media_volumes : Volumes media file := {
  vol_fat := {| f_open p v := (FR_OK, File (card v) 0); f_read := f_read (W:=list Z);
                f_lseek := f_lseek (W:=list Z); f_tell := f_tell (W:=list Z); f_data := f_data (W:=list Z) |};
  f_size f := Z.of_nat (length (bytes f));
  f_close _ := FR_OK;
  f_mount _ v := (FR_OK, v);
  f_mkfs _ buf v := (FR_OK, buf, v);
  f_mkdir _ v := (FR_OK, v);
  f_create p v := (FR_OK, Media (card v) p (stored_files v));
  f_write bs v := (FR_OK, Media (card v) (opening v) (stored_files v ++ [(opening v, bs)]));
  f_close_written v := (FR_OK, v)
}.

#[export] Instance endless : Heap unit := { malloc n h := (true, h) }.
#[export] Instance switches : NandSwitches fresh := {
  emcsm_set_write_protect _ n := n; emcsm_set_scramble _ n := n }.
#[export] Instance right_digest : Sha1 := { sha1 _ := s_psp_661_update }.
#[export] Instance flash : LFlash (gmap Z (list Z)) := sample_flash (2 ^ 32).

Definition psp : platform :=
  Platform 0x4000 (Psp_identity PSP_MODEL_02G "psp" "ta" "2g") 2048 4 (replicate 16 0).

(** A console of the other kind, for which this updater is the wrong one. *)
Definition psp_go : platform :=
  Platform 0x4000 (Psp_identity PSP_MODEL_05G "psp go" "ta" "5g") 2048 4 (replicate 16 0).

Definition conf : Type := config (F:=file) (H:=unit) (D:=gmap Z (list Z)) (N:=fresh) (V:=media).

(** The main thread runs [n] steps, or until it waits. *)
Fixpoint main_steps (pf : platform) (n : nat) (cf : conf) : conf :=
  match n with
  | O => cf
  | S n' => match main_step pf cf with Some cf' => main_steps pf n' cf' | None => cf end
  end.

Definition press (ks : Z) (cf : conf) : conf :=
  key_run (with_evflag (evflag_raise SM_ON_PRESS)) Key_read
    (key_run (set_keys ks) Key_raise (Config (main cf) (Key_got ks) (st cf))).

Definition start : psar_state file unit (installer (gmap Z (list Z)) fresh media) :=
  Psar_state (Psar_handle (File [] 0) 0 0 [] [] [] 0 [] [] 0 zero_metadata)
    (replicate SCRATCH_SIZE 0) tt
    (Installer (State_machine None None (evflag_init 0) 0) None "" [] None [] ∅ (Fresh ∅ ∅) (Media updater [] []) []).

(** The menu, and the end behind one press. *)
Definition at_menu (pf : platform) : conf := main_steps pf 20 (boot start).
Definition at_end (pf : platform) : conf := main_steps pf 100 (press 0x4000 (at_menu pf)).
End Console.
Import Sample Console.

Lemma main_steps_rtc pf n cf : rtc (step pf) cf (main_steps pf n cf).
Proof.
  revert cf. induction n as [|n IH]; intros cf; cbn [main_steps]; [done|].
  destruct (main_step pf cf) as [cf'|] eqn:Hs; [|done]. eapply rtc_l; [by apply step_main|apply IH].
Qed.

Lemma press_rtc pf ks cf : keys cf = Key_read -> rtc (step pf) cf (press ks cf).
Proof.
  intros Hk. eapply rtc_l; [apply step_key; by apply (key_pressed cf ks)|].
  set (cf1 := Config (main cf) (Key_got ks) (st cf)).
  eapply rtc_l; [apply step_key; by apply (key_set cf1 ks)|].
  eapply rtc_l; [apply step_key; by apply key_raise|]. done.
Qed.

Lemma rtc_join pf (x y z : conf) : rtc (step pf) x y -> rtc (step pf) y z -> rtc (step pf) x z.
Proof. intros Hx Hy. by etrans. Qed.

Lemma start_untouched : untouched start.
Proof. done. Qed.

Lemma at_end_run pf : keys (at_menu pf) = Key_read -> rtc (step pf) (boot start) (at_end pf).
Proof.
  intros Hk.
  refine (rtc_join pf (boot start) (at_menu pf) (at_end pf) (main_steps_rtc pf 20 (boot start)) _).
  refine (rtc_join pf (at_menu pf) (press 0x4000 (at_menu pf)) (at_end pf) (press_rtc pf 0x4000 (at_menu pf) Hk) _).
  exact (main_steps_rtc pf 100 (press 0x4000 (at_menu pf))).
Qed.

Lemma at_end_reachable pf : keys (at_menu pf) = Key_read -> reachable pf (at_end pf).
Proof. intros Hk. exact (ex_intro _ start (conj start_untouched (at_end_run pf Hk))). Qed.

(** ** Properties *)

Section properties.
Context {F H D N V : Type} `{HV : Volumes V F} `{HH : Heap H} `{HK : Kirk} `{HZ : Miniz} `{HDes : Des}
  `{HL : LFlash D} `{HN : Nand N} `{HNS : NandSwitches N} `{HS : Sha1}.
Context (pf : platform).
Implicit Types (cf : config (F:=F) (H:=H) (D:=D) (N:=N) (V:=V)).




(** the error state is final: once it is entered, nothing is done to the
    console any more and no other state is entered, whatever keys are pressed. *)
Theorem installer_error_final cf cf' :
  reachable pf cf -> sm_state (machine (world (st cf))) = Some g_error_state ->
  (forall o, main cf <> Main_dead o) -> rtc (step pf) cf cf' ->
  log (world (st cf')) = log (world (st cf)) /\ sm_state (machine (world (st cf'))) = Some g_error_state.
Proof.
  intros Hreach Hst Hal Hsteps. destruct (inv_reachable pf cf Hreach) as [h0 Hinv].
  assert (Hn : next_state (machine (world (st cf))) = None).
  { destruct (inv_cases pf h0 cf Hinv) as [(o & t & Ho & _)|[_ Hpl]]; [by destruct (Hal o)|].
    unfold placed in Hpl. rewrite Hst in Hpl. destruct (next_state _); [|done]. by destruct Hpl as (_ & ? & _). }
  clear Hreach Hal. revert Hinv Hst Hn. induction Hsteps as [cf|cf cf1 cf' Hs _ IH]; [done|].
  intros Hinv Hst Hn. destruct (error_step pf h0 cf cf1 Hs Hinv Hst Hn) as (Hl & Hst' & Hn').
  rewrite <- Hl. apply IH; [by eapply inv_step|done|done].
Qed.

Lemma on_nand_run {A} (c : M N Empty_set A) s a n :
  c (nand (world s)) = (Ret a, n) -> on_nand (F:=F) (H:=H) (D:=D) (V:=V) c s = (Ret a, snd (set_nand n s)).
Proof. intros Hc. unfold on_nand, bind, gets. by rewrite Hc. Qed.

Lemma clear_ipl_run (d : N) : exists d', clear_ipl d = (Ret 0, d').
Proof.
  unfold clear_ipl. generalize (seq 0 0x30) as l. intros l. revert d.
  induction l as [|b l IH]; intros d; cbn [for_each]; [by exists d|].
  destruct (IH (snd (emcsm_erase_block (Z.of_nat (b * 32)) d))) as [d' Hd]. exists d'. exact Hd.
Qed.

(** A failed write of the IPL is not noticed: whatever write_ipl returns, the
    handler of the archive's files reports success, and the installation goes on. *)
Theorem flash_ignores_ipl_failure p len pers s r n :
  identity (world s) = Some (console pf) ->
  write_ipl (model (console pf)) (wb2 (ph s)) (Z.to_nat len)
    (snd (clear_ipl (emcsm_set_scramble 0 (nand (world s))))) = (Ret r, n) ->
  exists s', on_read_psar_file (F:=F) (H:=H) (D:=D) (N:=N) (V:=V) p len (File_props pers PSAR_FILE_TYPE_IPL) s = (Ret 0, s') /\
    nand (world s') = n.
Proof.
  intros Hid Hw.
  destruct (clear_ipl_run (emcsm_set_scramble 0 (nand (world s)))) as [d' Hc]. rewrite Hc in Hw.
  unfold on_read_psar_file. cbn [file_type]. erewrite bind_run by reflexivity. cbn beta. rewrite Hid.
  repeat first
    [ erewrite bind_run by (apply on_nand_run; first [exact Hc|exact Hw])
    | erewrite bind_run by reflexivity ].
  eexists. split; reflexivity.
Qed.
End properties.

(** *** On the console of the examples *)

Lemma go_end : reachable psp_go (at_end psp_go).
Proof. apply at_end_reachable. vm_compute. reflexivity. Qed.





Lemma not_dead (pc : main_pc) : pc = Main_blocked -> forall o, pc <> Main_dead o.
Proof. by intros -> o. Qed.




(** On the other console the updater is refused; one more press changes nothing. *)
Lemma go_stopped : sm_state (machine (world (st (at_end psp_go)))) = Some g_error_state /\
  main (at_end psp_go) = Main_blocked /\ keys (at_end psp_go) = Key_read.
Proof. vm_compute. done. Qed.

Lemma installer_error_final_witness :
  let cf' := press 0x4000 (at_end psp_go) in
  log (world (st cf')) = log (world (st (at_end psp_go))) /\
  sm_state (machine (world (st cf'))) = Some g_error_state.
Proof.
  destruct go_stopped as (Hs & Hm & Hk).
  apply (installer_error_final psp_go (at_end psp_go) _ go_end Hs).
  - exact (not_dead _ Hm).
  - exact (press_rtc psp_go 0x4000 (at_end psp_go) Hk).
Defined.

(** All blocks marked bad: write_ipl fails. *)
Definition spoiled : psar_state file unit (installer (gmap Z (list Z)) fresh media) :=
  Psar_state (Psar_handle (File [] 0) 0 0 [] (replicate 2048 0) [] 0 [] [] 0 zero_metadata)
    (replicate SCRATCH_SIZE 0) tt
    (Installer (State_machine None None (evflag_init 0) 0) (Some (console psp)) "" [] None [] ∅
       (Fresh ∅ (list_to_set (map (fun b => Z.of_nat (b * 32)) (seq 0 48)))) (Media [] [] []) []).

Lemma flash_ignores_ipl_failure_witness :
  let w := write_ipl (model (console psp)) (wb2 (ph spoiled)) (Z.to_nat 512)
             (snd (clear_ipl (emcsm_set_scramble 0 (nand (world spoiled))))) in
  fst w = Ret (-1) /\
  exists s', on_read_psar_file [] 512 (File_props PSAR_FILE_NORMAL PSAR_FILE_TYPE_IPL) spoiled = (Ret 0, s') /\
    nand (world s') = snd w.
Proof.
  intros w. assert (Hr : fst w = Ret (-1)) by (vm_compute; reflexivity).
  split; [exact Hr|].
  apply (flash_ignores_ipl_failure psp [] 512 PSAR_FILE_NORMAL spoiled (-1) (snd w)); [reflexivity|].
  change (w = (Ret (-1), snd w)). rewrite <- Hr. by destruct w.
Defined.

(** Another key, and its handler; the main thread is about to reset the keys. *)
Definition about_to_reset : conf := main_steps psp 2 (press 0x1000 (at_menu psp)).

Lemma about_to_reset_reachable : reachable psp about_to_reset /\ keys about_to_reset = Key_read.
Proof.
  split; [|vm_compute; reflexivity].
  assert (Hk : keys (at_menu psp) = Key_read) by (vm_compute; reflexivity).
  refine (ex_intro _ start (conj start_untouched _)).
  refine (rtc_join psp (boot start) (at_menu psp) about_to_reset (main_steps_rtc psp 20 (boot start)) _).
  refine (rtc_join psp (at_menu psp) (press 0x1000 (at_menu psp)) about_to_reset (press_rtc psp 0x1000 (at_menu psp) Hk) _).
  exact (main_steps_rtc psp 2 (press 0x1000 (at_menu psp))).
Qed.

(** a key press can be lost: at the menu, the key that starts the
    installation is reported between a handler and the reset of the keys; its
    handler sees no keys, and the main thread waits at the menu again. *)
Theorem installer_press_lost :
  exists cf cf' : conf,
    reachable psp cf /\ sm_state (machine (world (st cf))) = Some g_menu_state /\
    rtc (step psp) (press (CROSS psp) cf) cf' /\ rtc (step psp) cf (press (CROSS psp) cf) /\
    main_step psp cf' = None /\ keys cf' = Key_read /\ log (world (st cf')) = [] /\
    sm_state (machine (world (st cf'))) = Some g_menu_state /\ next_state (machine (world (st cf'))) = None.
Proof.
  destruct about_to_reset_reachable as [Hr Hk].
  exists about_to_reset, (main_steps psp 20 (press (CROSS psp) about_to_reset)).
  split; [exact Hr|]. split; [vm_compute; reflexivity|].
  split; [exact (main_steps_rtc psp 20 (press (CROSS psp) about_to_reset))|].
  split; [exact (press_rtc psp (CROSS psp) about_to_reset Hk)|].
  vm_compute. repeat split.
Qed.
