(* ===== verification/Miniheap.v ===== *)
(** * lib/heap: the heap (miniheap/miniheap.c) and the calls on it
    (heap_wrapper.c)

    A free list of chunks in the memory they describe, and in front of every
    allocation a structure that says which chunk it came from.  The free list is
    the sequence of its chunks (address, length), the structures are a map from the
    pointers handed out.  The page allocator is a class (Novm.v implements it).
    LK_DEBUGLEVEL is 2: the structure has its magic and DEBUG_ASSERT is on.  The
    heap's mutex is held throughout each function and is not kept. *)

From stdpp Require Import prelude list gmap sorting.
From Stdlib Require Import ZArith Lia.
From S2P Require Import Prelude.

Open Scope Z_scope.
Open Scope lk_scope.

Definition PAGE_SIZE : Z := 4096.

(** ROUNDUP and ROUNDDOWN on size_t, for powers of two. *)
Definition ROUNDUP (a b : Z) : Z := Z.land (u32 (a + (b - 1))) (u32 (Z.lnot (b - 1))).
Definition ROUNDDOWN (a b : Z) : Z := Z.land a (u32 (Z.lnot (b - 1))).

(** [s, s + n) *)
Definition within (x : Z) (c : Z * Z) : Prop := fst c <= x < fst c + snd c.

(** The page allocator: NULL is [None]; freeing what is not a page faults.
    [pool] are the addresses it manages, [pool_free] those in free pages. *)
Class Pages (P : Type) := {
  page_alloc : Z -> P -> option Z * P;
  page_free : Z -> Z -> P -> option P;
  page_wf : P -> Prop;
  pool : P -> Z -> Prop;
  pool_free : P -> Z -> Prop
}.

Class PagesLaws P `{Pages P} : Prop := {
  page_alloc_some : forall n p a p', page_wf p -> 0 <= n -> page_alloc n p = (Some a, p') ->
    page_wf p' /\ 0 < n /\ 0 < a /\ a mod PAGE_SIZE = 0 /\ a + n * PAGE_SIZE < 2 ^ 32 /\
    (forall x, within x (a, n * PAGE_SIZE) -> pool_free p x) /\
    (forall x, pool p' x <-> pool p x) /\
    (forall x, pool_free p' x <-> pool_free p x /\ ~ within x (a, n * PAGE_SIZE));
  page_alloc_none : forall n p p', page_alloc n p = (None, p') -> p' = p;
  pool_free_in : forall p x, page_wf p -> pool_free p x -> pool p x;
  page_free_ok : forall a n p, page_wf p -> a mod PAGE_SIZE = 0 -> 0 < n ->
    (forall x, within x (a, n * PAGE_SIZE) -> pool p x) ->
    exists p', page_free a n p = Some p' /\ page_wf p' /\
      (forall x, pool p' x <-> pool p x) /\
      (forall x, pool_free p' x <-> pool_free p x \/ within x (a, n * PAGE_SIZE))
}.

(** The addresses of chunks and of the structures in front of allocations:
    sizes of struct free_heap_chunk and struct alloc_struct_begin. *)
Definition sizeof_chunk : Z := 12.
Definition sizeof_begin : Z := 12.
Definition ptr_size : Z := 4.

Record heap := Heap_state {
  base : Z;
  heap_len : Z;
  remaining : Z;
  low_watermark : Z;
  free_list : list (Z * Z);
  begins : gmap Z (Z * Z)
}.

Section miniheap.
Context {P : Type} `{HP : Pages P}.

(** The heap, the page allocator and heap_wrapper.c's list of delayed frees. *)
Record heaps := Heaps { theheap : heap; pages : P; delayed_free_list : list Z }.

(** [list_head] is the address of theheap.free_list. *)
Context (list_head : Z).

Definition HM (A : Type) : Type := M heaps Empty_set A.

Definition set_heap (f : heap -> heap) : HM unit :=
  modify (fun s => Heaps (f (theheap s)) (pages s) (delayed_free_list s)).

Definition set_free_list (l : list (Z * Z)) : HM unit :=
  set_heap (fun h => Heap_state (base h) (heap_len h) (remaining h) (low_watermark h) l (begins h)).
Definition set_remaining (r : Z) : HM unit :=
  set_heap (fun h => Heap_state (base h) (heap_len h) r (low_watermark h) (free_list h) (begins h)).
Definition set_watermark (r : Z) : HM unit :=
  set_heap (fun h => Heap_state (base h) (heap_len h) (remaining h) r (free_list h) (begins h)).
Definition set_begins (b : gmap Z (Z * Z)) : HM unit :=
  set_heap (fun h => Heap_state (base h) (heap_len h) (remaining h) (low_watermark h) (free_list h) b).
Definition set_range (b n : Z) : HM unit :=
  set_heap (fun h => Heap_state b n (remaining h) (low_watermark h) (free_list h) (begins h)).

(** ** miniheap.c *)

Definition heap_create_free_chunk (ptr len : Z) : HM (Z * Z) :=
  assert_ (len mod ptr_size =? 0) ;;
  assert_ (sizeof_chunk <=? len) ;;
  ret (ptr, len).

(** The walk of heap_insert_free_chunk: what is in front of the chunk, and
    the rest from the chunk to insert before. *)
Fixpoint free_walk (chunk : Z) (l : list (Z * Z)) : list (Z * Z) * list (Z * Z) :=
  match l with
  | [] => ([], [])
  | c :: l' => if chunk <? fst c then ([], l) else let '(b, a) := free_walk chunk l' in (c :: b, a)
  end.

(** Behind the walk [next_chunk] is the chunk inserted before, or, at the end of
    the list, the list head taken for a chunk. *)
Definition heap_insert_free_chunk (c : Z * Z) : HM Z :=
  let '(chunk, len) := c in
  let chunk_end := u32 (chunk + len) in
  let* s := get in
  set_remaining (u32 (remaining (theheap s) + len)) ;;
  let '(before, after) := free_walk chunk (free_list (theheap s)) in
  let next_chunk := match after with n :: _ => fst n | [] => list_head end in
  assert_ (match after with n :: _ => chunk_end <=? fst n | [] => true end) ;;
  let '(before, chunk, len) :=
    match last before with
    | Some (p, n) => if u32 (p + n) =? chunk then (removelast before, p, u32 (n + len)) else (before, chunk, len)
    | None => (before, chunk, len)
    end in
  if u32 (chunk + len) =? next_chunk then
    match after with
    | n :: after' => set_free_list (before ++ (chunk, u32 (len + snd n)) :: after') ;; ret chunk
    | [] => fault
    end
  else set_free_list (before ++ (chunk, len) :: after) ;; ret chunk.

(** The first chunk of at least [size] bytes; every chunk that is looked at is
    checked. *)
Fixpoint first_fit (size : Z) (l : list (Z * Z)) : HM (option (list (Z * Z) * (Z * Z) * list (Z * Z))) :=
  match l with
  | [] => ret None
  | c :: l' =>
      assert_ (snd c mod ptr_size =? 0) ;;
      if size <=? snd c then ret (Some ([], c, l'))
      else
        let* r := first_fit size l' in
        match r with
        | Some (b, c', a) => ret (Some (c :: b, c', a))
        | None => ret None
        end
  end.

(** The body of miniheap_alloc behind [retry]: the walk and the allocation out
    of the chunk found.  A structure that would not lie in the chunk faults. *)
Definition alloc_from_list (size alignment : Z) : HM (option Z) :=
  let* s := get in
  let* r := first_fit size (free_list (theheap s)) in
  match r with
  | None => ret None
  | Some (before, (chunk, len), after) =>
      let* len :=
        (if u32 (size + sizeof_chunk) <? len then
           let* newchunk := heap_create_free_chunk (u32 (chunk + size)) (len - size) in
           set_free_list (before ++ newchunk :: after) ;;
           ret (len - (len - size))
         else
           set_free_list (before ++ after) ;;
           ret len) in
      assert_ (size <=? len) ;;
      let ptr := u32 (chunk + sizeof_begin) in
      let ptr := if 0 <? alignment then ROUNDUP ptr alignment else ptr in
      (if (chunk <=? ptr - sizeof_begin) && (ptr <=? chunk + len) then ret tt else fault) ;;
      let* s := get in
      set_begins (<[ptr := (chunk, len)]> (begins (theheap s))) ;;
      let left := u32 (remaining (theheap s) - len) in
      set_remaining left ;;
      (if left <? low_watermark (theheap s) then set_watermark left else ret tt) ;;
      ret (Some ptr)
  end.

Definition heap_grow (size : Z) : HM Z :=
  let size := ROUNDUP size PAGE_SIZE in
  let* s := get in
  let '(r, p) := page_alloc (size / PAGE_SIZE) (pages s) in
  put (Heaps (theheap s) p (delayed_free_list s)) ;;
  match r with
  | None => ret (-5)
  | Some ptr =>
      let* c := heap_create_free_chunk ptr size in
      heap_insert_free_chunk c ;;
      let* s := get in
      let h := theheap s in
      let b := if (ptr <? base h) || (base h =? 0) then ptr else base h in
      let endptr := u32 (ptr + size) in
      set_range b (if u32 (b + heap_len h) <? endptr then u32 (endptr - b) else heap_len h) ;;
      ret (s32 size)
  end.

Definition miniheap_alloc (size alignment : Z) : HM (option Z) :=
  if negb (Z.land alignment (u32 (alignment - 1)) =? 0) then ret None
  else
    let size := u32 (size + sizeof_begin) in
    let size := if size <? sizeof_chunk then sizeof_chunk else size in
    let size := ROUNDUP size ptr_size in
    let alignment := if 0 <? alignment then (if alignment <? 16 then 16 else alignment) else 0 in
    let size := if 0 <? alignment then u32 (size + alignment) else size in
    let* ptr := alloc_from_list size alignment in
    match ptr with
    | Some ptr => ret (Some ptr)
    | None =>
        let* err := heap_grow size in
        if 0 <=? err then alloc_from_list size alignment else ret None
    end.

(** A pointer without its structure in front of it is not a live allocation. *)
Definition miniheap_free (ptr : Z) : HM unit :=
  if ptr =? 0 then ret tt
  else
    let* s := get in
    let* a := deref (begins (theheap s) !! ptr) in
    set_begins (delete ptr (begins (theheap s))) ;;
    let* c := heap_create_free_chunk (fst a) (snd a) in
    heap_insert_free_chunk c ;;
    ret tt.

(** The copy reads [size] bytes, the new size, from the old allocation. *)
Definition miniheap_realloc (ptr size : Z) : HM (option Z) :=
  if ptr =? 0 then miniheap_alloc size 0
  else if size =? 0 then miniheap_free ptr ;; ret None
  else
    let* p := miniheap_alloc size 0 in
    match p with
    | None => ret None
    | Some p =>
        let* s := get in
        let* a := deref (begins (theheap s) !! ptr) in
        (if ptr + size <=? fst a + snd a then ret tt else fault) ;;
        miniheap_free ptr ;;
        ret (Some p)
    end.

(** The pages of a free chunk that can be given back: [None] when there are none
    that leave room for a chunk on either side. *)
Fixpoint trim_bounds (fuel : nat) (start end_ start_page end_page : Z) : HM (option (Z * Z)) :=
  match fuel with
  | O => hang
  | S fuel' =>
      if start_page <? end_page then
        if (start_page =? start) && (end_page =? end_) then ret (Some (start_page, end_page))
        else if negb (start_page =? start) && (start_page - start <? sizeof_chunk)
        then trim_bounds fuel' start end_ (start_page + PAGE_SIZE) end_page
        else if (end_page <? end_) && (end_ - end_page <? sizeof_chunk)
        then trim_bounds fuel' start end_ start_page (end_page - PAGE_SIZE)
        else ret (Some (start_page, end_page))
      else ret None
  end.

(** One chunk: what is left of it before and after the pages. *)
Definition trim_chunk (c : Z * Z) : HM (list (Z * Z)) :=
  let start := fst c in
  let end_ := u32 (start + snd c) in
  assert_ (start <? end_) ;;
  let start_page := ROUNDUP start PAGE_SIZE in
  let end_page := ROUNDDOWN end_ PAGE_SIZE in
  assert_ (end_page <=? end_) ;;
  assert_ (start <=? start_page) ;;
  let* r := trim_bounds 3 start end_ start_page end_page in
  match r with
  | None => ret [c]
  | Some (start_page, end_page) =>
      let* tail :=
        (if end_page <? end_ then
           let* n := heap_create_free_chunk end_page (end_ - end_page) in ret [n]
         else ret []) in
      let* s := get in
      let* p := deref (page_free start_page ((end_page - start_page) / PAGE_SIZE) (pages s)) in
      put (Heaps (theheap s) p (delayed_free_list s)) ;;
      set_remaining (u32 (remaining (theheap s) - (end_page - start_page))) ;;
      ret ((if start <? start_page then [(start, start_page - start)] else []) ++ tail)
  end.

Fixpoint trim_each (l : list (Z * Z)) : HM (list (Z * Z)) :=
  match l with
  | [] => ret []
  | c :: l' => let* cs := trim_chunk c in let* rest := trim_each l' in ret (cs ++ rest)
  end.

Definition miniheap_trim : HM unit :=
  let* s := get in
  let* l := trim_each (free_list (theheap s)) in
  set_free_list l.

(** struct miniheap_stats: heap_start, heap_len, heap_free, heap_max_chunk and
    heap_low_watermark. *)
Definition miniheap_get_stats : HM (Z * Z * Z * Z * Z) :=
  gets (fun s =>
    let h := theheap s in
    (base h, heap_len h, fold_left (fun n c => u32 (n + snd c)) (free_list h) 0,
     fold_left (fun m c => if m <? snd c then snd c else m) (free_list h) 0, low_watermark h)).

Definition miniheap_init (ptr len : Z) : HM unit :=
  set_free_list [] ;;
  let* pl :=
    (if 0 <? ptr mod ptr_size then
       let aligned_ptr := ROUNDUP ptr ptr_size in
       assert_ (u32 (aligned_ptr - ptr) <? len) ;;
       ret (aligned_ptr, len - u32 (aligned_ptr - ptr))
     else ret (ptr, len)) in
  set_range (fst pl) (snd pl) ;;
  set_remaining 0 ;;
  set_watermark 0 ;;
  if 0 <? snd pl then
    let* c := heap_create_free_chunk (fst pl) (snd pl) in
    heap_insert_free_chunk c ;; ret tt
  else ret tt.

(** ** heap_wrapper.c *)

Definition set_delayed (l : list Z) : HM unit :=
  modify (fun s => Heaps (theheap s) (pages s) l).

(** Moving the list over turns it around. *)
Definition heap_free_delayed_list : HM unit :=
  let* s := get in
  set_delayed [] ;;
  for_each (rev (delayed_free_list s)) miniheap_free.

Definition pending_frees : HM unit :=
  let* s := get in
  match delayed_free_list s with [] => ret tt | _ => heap_free_delayed_list end.

Definition malloc (size : Z) : HM (option Z) := pending_frees ;; miniheap_alloc size 0.
Definition memalign (boundary size : Z) : HM (option Z) := pending_frees ;; miniheap_alloc size boundary.
Definition calloc (count size : Z) : HM (option Z) := pending_frees ;; miniheap_alloc (u32 (count * size)) 0.
Definition realloc (ptr size : Z) : HM (option Z) := pending_frees ;; miniheap_realloc ptr size.
Definition free (ptr : Z) : HM unit := miniheap_free ptr.
Definition heap_trim : HM unit := pending_frees ;; miniheap_trim.

(** The list node goes into the allocation. *)
Definition heap_delayed_free (ptr : Z) : HM unit :=
  let* s := get in
  let* a := deref (begins (theheap s) !! ptr) in
  (if ptr + 8 <=? fst a + snd a then ret tt else fault) ;;
  set_delayed (ptr :: delayed_free_list s).
End miniheap.
