(* ===== verification/MiniheapInv.v ===== *)
(** * The heap's invariant: free chunks and allocations share the heap's memory
    without overlap, and the free list is sorted and merged. *)

From stdpp Require Import prelude list gmap sorting.
From Stdlib Require Import ZArith Lia.
From S2P Require Import Prelude Miniheap.

Open Scope Z_scope.
Open Scope lk_scope.

(** ** Rounding *)

Lemma land_mask x k : 0 <= x < 2 ^ 32 -> 0 <= k -> Z.land x (u32 (Z.lnot (2 ^ k - 1))) = x - x mod 2 ^ k.
Proof.
  intros Hx Hk. unfold u32. rewrite <- Z.land_ones by lia.
  rewrite (Z.land_comm _ (Z.ones 32)), Z.land_assoc, Z.land_ones, Z.mod_small by lia.
  replace (2 ^ k - 1) with (Z.ones k) by (rewrite Z.ones_equiv; lia).
  rewrite <- Z.ldiff_land, Z.ldiff_ones_r, Z.shiftr_div_pow2, Z.shiftl_mul_pow2 by lia.
  pose proof (Z.div_mod x (2 ^ k)). lia.
Qed.

Lemma roundup_spec a k : 0 <= a -> 0 <= k -> a + 2 ^ k <= 2 ^ 32 ->
  a <= ROUNDUP a (2 ^ k) < a + 2 ^ k /\ ROUNDUP a (2 ^ k) mod 2 ^ k = 0.
Proof.
  intros Ha Hk Hr. assert (0 < 2 ^ k) by (apply Z.pow_pos_nonneg; lia).
  unfold ROUNDUP. rewrite u32_small, land_mask by lia.
  pose proof (Z.mod_pos_bound (a + (2 ^ k - 1)) (2 ^ k)). split; [lia|].
  pose proof (Z.div_mod (a + (2 ^ k - 1)) (2 ^ k)).
  replace (a + (2 ^ k - 1) - (a + (2 ^ k - 1)) mod 2 ^ k) with ((a + (2 ^ k - 1)) / 2 ^ k * 2 ^ k) by lia.
  apply Z.mod_mul. lia.
Qed.

Lemma rounddown_spec a k : 0 <= a < 2 ^ 32 -> 0 <= k ->
  a - 2 ^ k < ROUNDDOWN a (2 ^ k) <= a /\ 0 <= ROUNDDOWN a (2 ^ k) /\ ROUNDDOWN a (2 ^ k) mod 2 ^ k = 0.
Proof.
  intros Ha Hk. assert (0 < 2 ^ k) by (apply Z.pow_pos_nonneg; lia).
  unfold ROUNDDOWN. rewrite land_mask by lia.
  pose proof (Z.mod_pos_bound a (2 ^ k)). pose proof (Z.div_mod a (2 ^ k)).
  assert (0 <= a / 2 ^ k) by (apply Z.div_pos; lia).
  split; [lia|]. split; [nia|].
  replace (a - a mod 2 ^ k) with (a / 2 ^ k * 2 ^ k) by lia. apply Z.mod_mul. lia.
Qed.

(** Only powers of two pass the test of miniheap_alloc. *)
Lemma pow2_test a : 0 < a < 2 ^ 32 -> Z.land a (u32 (a - 1)) = 0 -> exists k, 0 <= k < 32 /\ a = 2 ^ k.
Proof.
  intros Ha Hl. rewrite u32_small in Hl by lia.
  pose proof (Z.log2_spec a ltac:(lia)) as Hs. set (k := Z.log2 a) in *.
  assert (0 <= k) by apply Z.log2_nonneg.
  assert (Hk32 : k < 32) by (apply Z.log2_lt_pow2; lia).
  exists k. split; [lia|]. destruct (Z.eq_dec a (2 ^ k)) as [|Hne]; [done|].
  assert (Hb : Z.testbit (Z.land a (a - 1)) k = true).
  { rewrite Z.land_spec. unfold k at 1. rewrite Z.bit_log2 by lia.
    assert (Hk : Z.log2 (a - 1) = k) by (apply Z.log2_unique; [done|lia]).
    rewrite <- Hk. by rewrite Z.bit_log2 by (assert (0 < 2 ^ k) by (apply Z.pow_pos_nonneg; lia); lia). }
  rewrite Hl in Hb. by rewrite Z.bits_0 in Hb.
Qed.

(** ** Chunks *)

Implicit Types (c : Z * Z) (l : list (Z * Z)).

Definition follows c c' : Prop := fst c + snd c < fst c'.

Definition apart c c' : Prop := fst c + snd c <= fst c' \/ fst c' + snd c' <= fst c.

Record chunk_ok c : Prop := {
  ok_addr : 0 < fst c;
  ok_addr_aligned : fst c mod ptr_size = 0;
  ok_len : sizeof_chunk <= snd c;
  ok_len_aligned : snd c mod ptr_size = 0;
  ok_end : fst c + snd c <= 2 ^ 32 - 4096
}.

Definition free_at l (x : Z) : Prop := Exists (within x) l.

Definition total l : Z := fold_right (fun c n => snd c + n) 0 l.

Lemma total_cons c l : total (c :: l) = snd c + total l.
Proof. done. Qed.

Lemma total_app l l' : total (l ++ l') = total l + total l'.
Proof. unfold total. induction l as [|c l IH]; cbn; [done|]. rewrite IH. lia. Qed.

Notation merged := (StronglySorted follows).

Lemma merged_mid l c l' :
  merged (l ++ c :: l') <->
  (forall x, x ∈ l -> follows x c) /\ (forall y, y ∈ l' -> follows c y) /\
  (forall x y, x ∈ l -> y ∈ l' -> follows x y) /\ merged l /\ merged l'.
Proof.
  rewrite StronglySorted_app, StronglySorted_cons, Forall_forall.
  split.
  - intros (H1 & H2 & H3 & H4). split_and!; auto; intros; apply H1; set_solver.
  - intros (H1 & H2 & H3 & H4 & H5). split_and!; auto.
    intros x1 x2 Hx [->|Hy]%elem_of_cons; auto.
Qed.

Lemma mod_add_0 (x y n : Z) : 0 < n -> x mod n = 0 -> y mod n = 0 -> (x + y) mod n = 0.
Proof. intros Hn Hx Hy. rewrite Z.add_mod by lia. by rewrite Hx, Hy. Qed.

Lemma free_walk_spec chunk l :
  let '(b, a) := free_walk chunk l in
  l = b ++ a /\ (forall x, x ∈ b -> fst x <= chunk) /\
  match a with n :: _ => chunk < fst n | [] => True end.
Proof.
  induction l as [|c l IH]; cbn [free_walk]; [split_and!; [done|set_solver|done]|].
  destruct (Z.ltb_spec chunk (fst c)) as [Hlt|Hge]; [split_and!; [done|set_solver|done]|].
  destruct (free_walk chunk l) as [b a]. destruct IH as (-> & Hb & Ha).
  split_and!; [done| |done]. intros x [->|Hx]%elem_of_cons; [lia|auto].
Qed.

(** A chunk is put between lists it does not touch on the left; it is merged with
    the head of the right list if it ends there. *)
Lemma join_right (bef aft : list (Z * Z)) c (lh : Z) :
  merged (bef ++ aft) -> Forall chunk_ok (bef ++ aft) -> chunk_ok c -> ~ within (lh - 1) c ->
  (forall x, x ∈ bef -> follows x c) -> (forall y, y ∈ aft -> fst c + snd c <= fst y) ->
  let nxt := match aft with n :: _ => fst n | [] => lh end in
  exists l', (if u32 (fst c + snd c) =? nxt
              then match aft with n :: aft' => Some (bef ++ (fst c, u32 (snd c + snd n)) :: aft') | [] => None end
              else Some (bef ++ c :: aft)) = Some l' /\
    merged l' /\ Forall chunk_ok l' /\ total l' = total (bef ++ aft) + snd c /\
    (forall x, free_at l' x <-> free_at (bef ++ aft) x \/ within x c).
Proof.
  intros Hs Hok Hc Hlh Hb Ha nxt. destruct Hc as [c1 c2 c3 c4 c5] eqn:Hceq; clear Hceq.
  rewrite u32_small by (unfold sizeof_chunk in *; lia).
  apply StronglySorted_app in Hs as (Hx & Hsb & Hsa). apply Forall_app in Hok as [Hokb Hoka].
  destruct (Z.eqb_spec (fst c + snd c) nxt) as [Heq|Hne].
  - destruct aft as [|n aft]; cbn in nxt; subst nxt.
    { exfalso. apply Hlh. unfold within, sizeof_chunk in *. lia. }
    apply Forall_cons in Hoka as [[n1 n2 n3 n4 n5] Hoka]. apply StronglySorted_cons in Hsa as [Hn Hsa].
    rewrite Forall_forall in Hn. unfold sizeof_chunk, ptr_size in *.
    exists (bef ++ (fst c, u32 (snd c + snd n)) :: aft). split; [done|].
    rewrite u32_small by lia. split_and!.
    + apply merged_mid. split_and!; [done| | |done|done].
      * intros y Hy. specialize (Hn y Hy). unfold follows in *. cbn. lia.
      * intros x y Hxb Hy. apply Hx; set_solver.
    + apply Forall_app. split; [done|]. constructor; [|done].
      split; cbn; unfold sizeof_chunk, ptr_size; try lia. apply mod_add_0; [lia|done|done].
    + rewrite !total_app, ?total_cons. cbn [snd]. lia.
    + intros x. unfold free_at. rewrite !Exists_app, !Exists_cons. unfold within; cbn.
      assert (fst c <= x < fst c + (snd c + snd n) <-> fst c <= x < fst c + snd c \/ fst n <= x < fst n + snd n)
        by lia. tauto.
  - exists (bef ++ c :: aft). split; [done|]. unfold sizeof_chunk, ptr_size in *. split_and!.
    + apply merged_mid. split_and!; [done| | |done|done].
      * destruct aft as [|n aft]; [set_solver|]. cbn in nxt. subst nxt.
        apply StronglySorted_cons in Hsa as [Hn _]. rewrite Forall_forall in Hn.
        apply Forall_cons in Hoka as [[n1 n2 n3 n4 n5] _]. unfold sizeof_chunk in *.
        assert (fst c + snd c <= fst n) by (apply Ha; left).
        intros y [->|Hy]%elem_of_cons; [unfold follows; lia|].
        specialize (Hn y Hy). unfold follows in *. lia.
      * intros x y Hxb Hy. by apply Hx.
    + apply Forall_app. split; [done|]. constructor; [|done]. by split.
    + rewrite !total_app, ?total_cons. cbn [snd]. lia.
    + intros x. unfold free_at. rewrite !Exists_app, !Exists_cons. tauto.
Qed.

(** ** Inserting a chunk *)

Section insert.
Context {P : Type} `{HP : Pages P} (list_head : Z).
Implicit Types (s : heaps (P:=P)) (h : heap).

(** The free list and the account of it. *)
Definition with_free l (r : Z) s : heaps (P:=P) :=
  Heaps (Heap_state (base (theheap s)) (heap_len (theheap s)) r (low_watermark (theheap s)) l (begins (theheap s)))
    (pages s) (delayed_free_list s).

Lemma apart_before c f : chunk_ok c -> chunk_ok f -> apart c f -> fst f <= fst c -> fst f + snd f <= fst c.
Proof. intros [] [] Ha Hf. unfold apart, sizeof_chunk in *. lia. Qed.

Lemma insert_run s c :
  merged (free_list (theheap s)) -> Forall chunk_ok (free_list (theheap s)) -> chunk_ok c ->
  (forall f, f ∈ free_list (theheap s) -> apart c f) ->
  ~ free_at (free_list (theheap s)) (list_head - 1) -> ~ within (list_head - 1) c ->
  exists r l', heap_insert_free_chunk list_head c s =
      (Ret r, with_free l' (u32 (remaining (theheap s) + snd c)) s) /\
    merged l' /\ Forall chunk_ok l' /\ total l' = total (free_list (theheap s)) + snd c /\
    (forall x, free_at l' x <-> free_at (free_list (theheap s)) x \/ within x c).
Proof.
  intros Hs Hok Hc Hap Hlh Hlhc. pose proof Hc as [c1 c2 c3 c4 c5].
  pose proof (free_walk_spec (fst c) (free_list (theheap s))) as Hw.
  unfold heap_insert_free_chunk. destruct c as [chunk len]; cbn [fst snd] in *.
  erewrite bind_run by reflexivity. erewrite bind_run by reflexivity. cbn beta.
  destruct (free_walk chunk (free_list (theheap s))) as [bef aft]. destruct Hw as (Hl & Hbef & Haft).
  rewrite Hl in Hs, Hok, Hap, Hlh.
  assert (Hokx : forall x, x ∈ bef ++ aft -> chunk_ok x) by (by apply Forall_forall).
  assert (Hb : forall x, x ∈ bef -> fst x + snd x <= chunk).
  { intros x Hx. apply (apart_before (chunk, len)); [done| | |by apply Hbef];
      [apply Hokx|apply Hap]; apply elem_of_app; by left. }
  assert (Ha : forall y, y ∈ aft -> chunk + len <= fst y).
  { intros y Hy. assert (Hya : y ∈ bef ++ aft) by (apply elem_of_app; by right).
    pose proof (Hokx y Hya) as [? ? Hy3 ? ?]. specialize (Hap y Hya). unfold apart, sizeof_chunk in *; cbn in Hap.
    assert (chunk < fst y); [|lia]. destruct aft as [|n aft]; [by apply elem_of_nil in Hy|].
    apply elem_of_cons in Hy as [->|Hy]; [done|].
    apply StronglySorted_app in Hs as (_ & _ & [Hn _]%StronglySorted_cons).
    rewrite Forall_forall in Hn. specialize (Hn y Hy). unfold follows in Hn.
    pose proof (Hokx n ltac:(set_solver)) as []. unfold sizeof_chunk in *. lia. }
  rewrite (u32_small (chunk + len)) by (unfold sizeof_chunk in *; lia).
  assert (Has : match aft with n :: _ => chunk + len <=? fst n | [] => true end = true).
  { destruct aft as [|n aft]; [done|]. apply Z.leb_le, Ha. left. }
  rewrite Has. erewrite bind_run by reflexivity. cbn beta.
  assert (Hfin : forall bef' c',
    merged (bef' ++ aft) -> Forall chunk_ok (bef' ++ aft) -> chunk_ok c' -> ~ within (list_head - 1) c' ->
    (forall x, x ∈ bef' -> follows x c') -> fst c' + snd c' = chunk + len ->
    total (bef' ++ aft) + snd c' = total (bef ++ aft) + len ->
    (forall x, free_at (bef' ++ aft) x \/ within x c' <-> free_at (bef ++ aft) x \/ within x (chunk, len)) ->
    exists r l',
      (if u32 (fst c' + snd c') =? match aft with n :: _ => fst n | [] => list_head end
       then match aft with
            | n :: aft' => set_free_list (bef' ++ (fst c', u32 (snd c' + snd n)) :: aft') ;; ret (fst c')
            | [] => fault
            end
       else set_free_list (bef' ++ (fst c', snd c') :: aft) ;; ret (fst c'))
        (with_free (bef ++ aft) (u32 (remaining (theheap s) + len)) s)
      = (Ret r, with_free l' (u32 (remaining (theheap s) + len)) s) /\
      merged l' /\ Forall chunk_ok l' /\ total l' = total (bef ++ aft) + len /\
      (forall x, free_at l' x <-> free_at (bef ++ aft) x \/ within x (chunk, len))).
  { intros bef' c' Hs' Hok' Hc' Hlh' Hb' He Ht Hx.
    destruct (join_right bef' aft c' list_head Hs' Hok' Hc' Hlh' Hb') as (l' & Hj & Hm & Hf & Htot & Hat).
    { intros y Hy. rewrite He. by apply Ha. }
    exists (fst c'), l'. split; [|split_and!; [done|done|lia|intros x; by rewrite Hat, Hx]].
    destruct c' as [ch ln]; cbn [fst snd] in *.
    destruct (u32 (ch + ln) =? _); [destruct aft as [|n aft']; [done|]|]; injection Hj as <-; reflexivity. }
  rewrite Hl. destruct (last bef) as [[p n]|] eqn:Hlast.
  2: { apply last_None in Hlast as ->. edestruct (Hfin [] (chunk, len)) as (r & l' & Hrun & Hrest);
       [try done; by intros x Hx%elem_of_nil..|]. exists r, l'. split; [exact Hrun|exact Hrest]. }
  apply last_Some in Hlast as [bef0 ->].
  pose proof (Hb (p, n) ltac:(set_solver)) as Hpn; cbn in Hpn.
  pose proof (Hokx (p, n) ltac:(set_solver)) as [p1 p2 p3 p4 p5]; cbn in p1, p2, p3, p4, p5.
  assert (Hlast : forall x, x ∈ bef0 -> follows x (p, n)).
  { intros x Hx. rewrite <- app_assoc in Hs. by apply merged_mid in Hs as (H1 & _); apply H1. }
  unfold sizeof_chunk, ptr_size in *. rewrite (u32_small (p + n)) by lia. rewrite removelast_last.
  destruct (Z.eqb_spec (p + n) chunk) as [Heq|Hne].
  - rewrite (u32_small (n + len)) by lia.
    edestruct (Hfin bef0 (p, n + len)) as (r & l' & Hrun & Hrest); cbn [fst snd];
      [..|exists r, l'; split; [exact Hrun|exact Hrest]].
    + rewrite <- app_assoc in Hs. apply merged_mid in Hs as (_ & _ & H3 & H4 & H5). by apply StronglySorted_app.
    + apply Forall_forall. intros x Hx. apply Hokx. set_solver.
    + split; cbn; unfold sizeof_chunk, ptr_size; try lia. apply mod_add_0; [lia|done|done].
    + intros Hin. unfold within in *; cbn in *. destruct (decide (list_head - 1 < chunk)); [|lia].
      apply Hlh. unfold free_at. rewrite !Exists_app. left. right. left. unfold within; cbn. lia.
    + intros x Hx. specialize (Hlast x Hx). unfold follows in *. cbn in *. lia.
    + lia.
    + rewrite !total_app, total_cons. cbn. lia.
    + intros x. unfold free_at. rewrite !Exists_app, Exists_cons, Exists_nil. unfold within; cbn.
      assert (p <= x < p + (n + len) <-> p <= x < p + n \/ chunk <= x < chunk + len) by lia. tauto.
  - edestruct (Hfin (bef0 ++ [(p, n)]) (chunk, len)) as (r & l' & Hrun & Hrest); try done;
      [|exists r, l'; split; [exact Hrun|exact Hrest]].
    intros x [Hx| ->%list_elem_of_singleton]%elem_of_app; [|unfold follows; cbn; lia].
    specialize (Hlast x Hx). unfold follows in *; cbn in *. lia.
Qed.
End insert.

(** ** Merged lists as sets of addresses *)

Lemma chunk_start c : chunk_ok c -> within (fst c) c.
Proof. intros []. unfold within, sizeof_chunk in *. lia. Qed.

(** Distinct chunks of a merged list are a gap apart. *)
Lemma merged_gap l c c' :
  merged l -> c ∈ l -> c' ∈ l -> c = c' \/ follows c c' \/ follows c' c.
Proof.
  intros Hs. induction Hs as [|d l Hs IH Hd]; [by intros ?%elem_of_nil|].
  rewrite Forall_forall in Hd. rewrite !elem_of_cons. intros [->|Hc] [->|Hc']; auto.
Qed.

(** A range of free addresses lies in one chunk. *)
Lemma merged_range l a n :
  merged l -> Forall chunk_ok l -> 0 < n -> (forall x, within x (a, n) -> free_at l x) ->
  exists c, c ∈ l /\ fst c <= a /\ a + n <= fst c + snd c.
Proof.
  intros Hs Hok Hn Hr. assert (Ha : free_at l a) by (apply Hr; unfold within; cbn; lia).
  apply Exists_exists in Ha as (c & Hc & Hac). exists c. unfold within in Hac.
  split; [done|]. split; [lia|]. destruct (decide (a + n <= fst c + snd c)) as [|Hlt]; [done|].
  assert (Hx : free_at l (fst c + snd c)) by (apply Hr; unfold within; cbn; lia).
  apply Exists_exists in Hx as (c' & Hc' & Hxc). unfold within in Hxc.
  rewrite Forall_forall in Hok. pose proof (Hok c Hc) as []. pose proof (Hok c' Hc') as [].
  unfold sizeof_chunk in *.
  destruct (merged_gap l c c' Hs Hc Hc') as [->|[Hf|Hf]]; unfold follows in *; lia.
Qed.

Lemma merged_same_elems l l' c :
  merged l -> merged l' -> Forall chunk_ok l -> Forall chunk_ok l' ->
  (forall x, free_at l x <-> free_at l' x) -> c ∈ l -> c ∈ l'.
Proof.
  intros Hs Hs' Hok Hok' Hx Hc.
  assert (Hin : forall l0 d, d ∈ l0 -> forall x, within x d -> free_at l0 x)
    by (intros l0 d Hd x Hw; apply Exists_exists; eauto).
  pose proof (proj1 (Forall_forall _ _) Hok c Hc) as Hco. pose proof Hco as [].
  unfold sizeof_chunk in *.
  destruct (merged_range l' (fst c) (snd c)) as (d & Hd & Hd1 & Hd2); [done|done|lia| |].
  { intros x Hw. apply Hx, (Hin l c Hc). by destruct c. }
  pose proof (proj1 (Forall_forall _ _) Hok' d Hd) as [].
  destruct (merged_range l (fst d) (snd d)) as (e & He & He1 & He2); [done|done|unfold sizeof_chunk in *; lia| |].
  { intros x Hw. apply Hx, (Hin l' d Hd). by destruct d. }
  assert (e = c) as ->.
  { destruct (merged_gap l e c Hs He Hc) as [|[Hf|Hf]]; [done|unfold follows in *; lia..]. }
  assert (d = c) as ->; [|done]. destruct c, d; cbn in *. f_equal; lia.
Qed.

(** The free list is determined by the free addresses. *)
Lemma merged_unique l l' :
  merged l -> merged l' -> Forall chunk_ok l -> Forall chunk_ok l' ->
  (forall x, free_at l x <-> free_at l' x) -> l = l'.
Proof.
  intros Hs Hs' Hok Hok' Hx.
  assert (Hnd : forall l0, merged l0 -> Forall chunk_ok l0 -> NoDup l0).
  { induction 1 as [|d l0 Hs0 IH Hd]; [constructor|]. intros [Hdo Hok0]%Forall_cons. constructor; [|by apply IH].
    intros Hin. rewrite Forall_forall in Hd. specialize (Hd d Hin). destruct Hdo. unfold follows, sizeof_chunk in *. lia. }
  apply (StronglySorted_unique_strong follows); [|done|done|].
  - intros c c' Hc Hc' H1 H2. pose proof (proj1 (Forall_forall _ _) Hok c Hc) as [].
    pose proof (proj1 (Forall_forall _ _) Hok' c' Hc') as []. unfold follows, sizeof_chunk in *. lia.
  - apply NoDup_Permutation; [by apply Hnd..|]. intros c.
    split; [by apply merged_same_elems|]. apply merged_same_elems; [done..|]. intros x. by rewrite Hx.
Qed.

(** ** The heap *)

Section heap_wf.
Context {P : Type} `{HPL : PagesLaws P} (list_head : Z).
Implicit Types (s : heaps (P:=P)) (h : heap).

Definition used_at (bs : gmap Z (Z * Z)) (x : Z) : Prop := exists p b, bs !! p = Some b /\ within x b.

Definition owned s (x : Z) : Prop := free_at (free_list (theheap s)) x \/ used_at (begins (theheap s)) x.

(** Free chunks and allocations are apart, in memory that is not the page
    allocator's and not the heap's own object; whole pages are given back to where
    they came from. *)
Record heap_wf s : Prop := {
  hw_merged : merged (free_list (theheap s));
  hw_free : Forall chunk_ok (free_list (theheap s));
  hw_begins : forall p b, begins (theheap s) !! p = Some b ->
    chunk_ok b /\ fst b + sizeof_begin <= p <= fst b + snd b;
  hw_free_apart : forall c p b, c ∈ free_list (theheap s) -> begins (theheap s) !! p = Some b -> apart c b;
  hw_apart : forall p b p' b', begins (theheap s) !! p = Some b -> begins (theheap s) !! p' = Some b' ->
    p <> p' -> apart b b';
  hw_remaining : remaining (theheap s) = u32 (total (free_list (theheap s)));
  hw_pages : page_wf (pages s);
  hw_head : ~ pool (pages s) (list_head - 1);
  hw_own : forall x, owned s x -> ~ pool_free (pages s) x /\ x <> list_head - 1;
  hw_whole : forall a, a mod PAGE_SIZE = 0 -> (forall x, within x (a, PAGE_SIZE) -> owned s x) ->
    forall x, within x (a, PAGE_SIZE) -> pool (pages s) x;
  hw_delayed : NoDup (delayed_free_list s) /\
    forall p, p ∈ delayed_free_list s -> is_Some (begins (theheap s) !! p)
}.

Lemma create_chunk_run ptr len s :
  len mod ptr_size = 0 -> sizeof_chunk <= len -> heap_create_free_chunk ptr len s = (Ret (ptr, len), s).
Proof.
  intros Hm Hl. unfold heap_create_free_chunk, bind, assert_.
  by rewrite (proj2 (Z.eqb_eq _ _) Hm), (proj2 (Z.leb_le _ _) Hl).
Qed.

Lemma apart_points c c' : chunk_ok c -> chunk_ok c' -> (forall x, within x c -> ~ within x c') -> apart c c'.
Proof.
  intros [] [] Hx. unfold apart, within, sizeof_chunk in *.
  destruct (decide (fst c <= fst c')); [left|right].
  - destruct (decide (fst c + snd c <= fst c')); [done|]. destruct (Hx (fst c')); lia.
  - destruct (decide (fst c' + snd c' <= fst c)); [done|]. destruct (Hx (fst c)); lia.
Qed.

Lemma apart_not_within c c' x : apart c c' -> within x c -> ~ within x c'.
Proof. unfold apart, within. lia. Qed.

Lemma free_not_used s x :
  heap_wf s -> free_at (free_list (theheap s)) x -> ~ used_at (begins (theheap s)) x.
Proof.
  intros Hwf (c & Hc & Hx)%Exists_exists (p & b & Hp & Hb).
  eapply apart_not_within; [by eapply (hw_free_apart s Hwf)|done|done].
Qed.

Lemma apart_sym c c' : apart c c' -> apart c' c.
Proof. unfold apart. lia. Qed.

(** *** miniheap_free *)

Definition with_begins (bs : gmap Z (Z * Z)) s : heaps (P:=P) :=
  Heaps (Heap_state (base (theheap s)) (heap_len (theheap s)) (remaining (theheap s)) (low_watermark (theheap s))
           (free_list (theheap s)) bs) (pages s) (delayed_free_list s).

Lemma used_delete bs p b : bs !! p = Some b -> forall x, used_at bs x <-> used_at (delete p bs) x \/ within x b.
Proof.
  intros Hp x. split.
  - intros (q & c & Hq & Hx). destruct (decide (q = p)) as [->|Hne]; [right; congruence|].
    left. exists q, c. by rewrite lookup_delete_ne.
  - intros [(q & c & Hq & Hx)|Hx]; [|by exists p, b].
    apply lookup_delete_Some in Hq as [_ Hq]. by exists q, c.
Qed.

Lemma free_run s ptr b :
  heap_wf s -> begins (theheap s) !! ptr = Some b -> ptr ∉ delayed_free_list s ->
  exists s', miniheap_free list_head ptr s = (Ret tt, s') /\ heap_wf s' /\
    begins (theheap s') = delete ptr (begins (theheap s)) /\ delayed_free_list s' = delayed_free_list s /\
    pages s' = pages s /\
    (forall x, free_at (free_list (theheap s')) x <-> free_at (free_list (theheap s)) x \/ within x b).
Proof.
  intros Hwf Hb Hd. destruct (hw_begins s Hwf ptr b Hb) as [Hbok Hptr]. pose proof Hbok as [b1 b2 b3 b4 b5].
  set (s1 := with_begins (delete ptr (begins (theheap s))) s).
  assert (Hown : forall x, owned s x <-> free_at (free_list (theheap s)) x \/ used_at (delete ptr (begins (theheap s))) x \/ within x b).
  { intros x. unfold owned. by rewrite (used_delete _ _ _ Hb). }
  destruct (insert_run list_head s1 b) as (r & l' & Hrun & Hm & Hf & Ht & Hat); try done.
  - apply (hw_merged s Hwf).
  - apply (hw_free s Hwf).
  - intros f Hin. apply apart_sym. by eapply (hw_free_apart s Hwf).
  - intros Hx. apply (hw_own s Hwf (list_head - 1)); [by left|done].
  - intros Hx. apply (hw_own s Hwf (list_head - 1)); [|done]. apply Hown. auto.
  - set (s' := with_free l' (u32 (remaining (theheap s1) + snd b)) s1).
    assert (Hown' : forall x, owned s' x <-> owned s x).
    { intros x. rewrite Hown. unfold owned. cbn [theheap s' with_free free_list begins s1 with_begins].
      rewrite Hat. cbn. tauto. }
    exists s'. split; [|split; [|split_and!; [done|done|done|exact Hat]]].
    + unfold miniheap_free. destruct (Z.eqb_spec ptr 0) as [->|_]; [unfold sizeof_begin in *; lia|].
      unfold bind at 1, get. erewrite bind_deref by exact Hb.
      unfold bind at 1, set_begins, set_heap, modify. cbn -[heap_create_free_chunk heap_insert_free_chunk].
      erewrite bind_run by (by apply create_chunk_run).
      erewrite bind_run; [reflexivity|]. destruct b as [ba bn]. exact Hrun.
    + assert (Hbs : forall p c, begins (theheap s') !! p = Some c -> delete ptr (begins (theheap s)) !! p = Some c) by done.
      split; try done.
      * intros p c [_ Hp]%Hbs%lookup_delete_Some. by apply (hw_begins s Hwf).
      * intros c p d Hc [Hne Hp]%Hbs%lookup_delete_Some. cbn in Hc.
        apply apart_points; [by apply (proj1 (Forall_forall _ _) Hf)|by apply (hw_begins s Hwf p)|].
        intros x Hx Hxd. assert (Hfx : free_at l' x) by (apply Exists_exists; eauto).
        apply Hat in Hfx as [Hfx|Hfx]; [by apply (free_not_used s x Hwf Hfx); exists p, d|].
        by eapply (apart_not_within b d); [eapply (hw_apart s Hwf)| |].
      * intros p c p' c' [_ Hp]%Hbs%lookup_delete_Some [_ Hp']%Hbs%lookup_delete_Some.
        by apply (hw_apart s Hwf p c p' c').
      * cbn [theheap s' with_free remaining free_list s1 with_begins]. rewrite Ht, (hw_remaining s Hwf).
        unfold u32. by rewrite Zplus_mod_idemp_l.
      * apply (hw_pages s Hwf).
      * apply (hw_head s Hwf).
      * intros x Hx. apply (hw_own s Hwf). by apply Hown'.
      * intros a Ha Hall. apply (hw_whole s Hwf a Ha). intros x Hx. by apply Hown', Hall.
      * destruct (hw_delayed s Hwf) as [Hnd Hall]. split; [done|]. intros p Hp. cbn.
        rewrite lookup_delete_ne; [by apply Hall|]. intros ->. by apply Hd.
Qed.

(** *** miniheap_alloc *)

Lemma first_fit_run size l s :
  Forall chunk_ok l ->
  exists r, first_fit size l s = (Ret r, s) /\
    match r with
    | Some (b, c, a) => l = b ++ c :: a /\ size <= snd c
    | None => forall c, c ∈ l -> snd c < size
    end.
Proof.
  induction l as [|c l IH]; intros Hok; cbn [first_fit]; [exists None; split; [done|by intros ? ?%elem_of_nil]|].
  apply Forall_cons in Hok as [[_ _ _ Hm _] Hok]. unfold bind at 1, assert_. rewrite (proj2 (Z.eqb_eq _ _) Hm). cbn.
  destruct (Z.leb_spec size (snd c)) as [Hle|Hgt]; [by exists (Some ([], c, l))|].
  destruct (IH Hok) as (r & Hr & Hspec). unfold bind. rewrite Hr. destruct r as [[[b c'] a]|].
  - destruct Hspec as [-> Hc']. by exists (Some (c :: b, c', a)).
  - exists None. split; [done|]. intros d [->|Hd]%elem_of_cons; auto.
Qed.

(** What the chunk found is cut into: [n] bytes for the allocation, the rest free. *)
Definition rest_of (c : Z * Z) (n : Z) : list (Z * Z) :=
  if n =? snd c then [] else [(fst c + n, snd c - n)].

Lemma take_chunk_lists bef aft c n :
  merged (bef ++ c :: aft) -> Forall chunk_ok (bef ++ c :: aft) ->
  n = snd c \/ sizeof_chunk <= n /\ n mod ptr_size = 0 /\ sizeof_chunk <= snd c - n ->
  let l' := bef ++ rest_of c n ++ aft in
  merged l' /\ Forall chunk_ok l' /\ total l' = total (bef ++ c :: aft) - n /\ chunk_ok (fst c, n) /\
  (forall x, free_at (bef ++ c :: aft) x <-> free_at l' x \/ within x (fst c, n)) /\
  (forall d, d ∈ l' -> apart d (fst c, n)).
Proof.
  intros Hs Hok Hn. apply merged_mid in Hs as (H1 & H2 & H3 & H4 & H5).
  apply Forall_app in Hok as [Hb [[c1 c2 c3 c4 c5] Ha]%Forall_cons].
  unfold sizeof_chunk, ptr_size in *. cbv zeta. unfold rest_of. destruct (Z.eqb_spec n (snd c)) as [->|Hne].
  - cbn. split_and!.
    + by apply StronglySorted_app.
    + by apply Forall_app.
    + rewrite !total_app, total_cons. lia.
    + by split.
    + intros x. unfold free_at. rewrite !Exists_app, Exists_cons. destruct c; cbn. tauto.
    + intros d [Hd|Hd]%elem_of_app; unfold apart; cbn; [specialize (H1 d Hd)|specialize (H2 d Hd)];
        unfold follows in *; lia.
  - destruct Hn as [->|(Hn1 & Hn2 & Hn3)]; [done|]. cbn. split_and!.
    + apply merged_mid. split_and!; try done.
      * intros x Hx. specialize (H1 x Hx). unfold follows in *. cbn. lia.
      * intros y Hy. specialize (H2 y Hy). unfold follows in *. cbn. lia.
    + apply Forall_app. split; [done|]. constructor; [|done].
      split; cbn; unfold sizeof_chunk, ptr_size; try lia; [by apply mod_add_0|].
      rewrite Zminus_mod, c4, Hn2. done.
    + rewrite !total_app, !total_cons. cbn [snd]. lia.
    + split; cbn; unfold sizeof_chunk, ptr_size; lia || done.
    + intros x. unfold free_at. rewrite !Exists_app, !Exists_cons. unfold within; cbn.
      assert (fst c <= x < fst c + snd c <-> fst c + n <= x < fst c + n + (snd c - n) \/ fst c <= x < fst c + n) by lia.
      tauto.
    + intros d [Hd|[->|Hd]%elem_of_cons]%elem_of_app; unfold apart; cbn; [specialize (H1 d Hd)|lia|specialize (H2 d Hd)];
        unfold follows in *; lia.
Qed.

Lemma used_insert bs p b x : bs !! p = None -> used_at (<[p := b]> bs) x <-> used_at bs x \/ within x b.
Proof.
  intros Hp. split.
  - intros (q & c & [[-> ->]|[Hne Hq]]%lookup_insert_Some & Hx); [by right|left; by exists q, c].
  - intros [(q & c & Hq & Hx)|Hx]; [|exists p, b; by rewrite lookup_insert_eq].
    exists q, c. rewrite lookup_insert_ne; [done|]. congruence.
Qed.

(** The heap with the allocation made. *)
Lemma alloc_wf s bef aft c n ptr w :
  heap_wf s -> free_list (theheap s) = bef ++ c :: aft ->
  n = snd c \/ sizeof_chunk <= n /\ n mod ptr_size = 0 /\ sizeof_chunk <= snd c - n ->
  fst c + sizeof_begin <= ptr <= fst c + n ->
  let h := theheap s in
  let s' := Heaps (Heap_state (base h) (heap_len h) (u32 (remaining h - n)) w (bef ++ rest_of c n ++ aft)
                     (<[ptr := (fst c, n)]> (begins h))) (pages s) (delayed_free_list s) in
  begins h !! ptr = None /\ heap_wf s' /\ (forall x, owned s' x <-> owned s x).
Proof.
  intros Hwf Hl Hn Hptr h s'.
  pose proof (hw_merged s Hwf) as Hm. pose proof (hw_free s Hwf) as Hok. rewrite Hl in Hm, Hok.
  destruct (take_chunk_lists bef aft c n Hm Hok Hn) as (Hm' & Hok' & Ht & Hb & Hat & Hap).
  assert (Hc : c ∈ free_list (theheap s)) by (rewrite Hl; set_solver).
  assert (Hin : forall x, within x (fst c, n) -> free_at (free_list (theheap s)) x)
    by (intros x Hx; rewrite Hl; apply Hat; by right).
  assert (Hcap : forall p b, begins h !! p = Some b -> apart (fst c, n) b).
  { intros p b Hp. apply apart_points; [done|by apply (hw_begins s Hwf p)|].
    intros x Hx Hxb. apply (free_not_used s x Hwf (Hin x Hx)). by exists p, b. }
  assert (Hnew : begins h !! ptr = None).
  { apply eq_None_not_Some. intros [b Hp]. destruct (hw_begins s Hwf ptr b Hp) as [[] Hpb].
    specialize (Hcap ptr b Hp). destruct Hb. unfold apart, sizeof_begin, sizeof_chunk in *; cbn in *. lia. }
  assert (Hown : forall x, owned s' x <-> owned s x).
  { intros x. unfold owned. cbn [theheap s' free_list begins]. rewrite used_insert by done. rewrite Hl, Hat.
    fold h. tauto. }
  split; [done|]. split; [|done].
  assert (Hbs : forall p b, begins (theheap s') !! p = Some b -> p = ptr /\ b = (fst c, n) \/ p <> ptr /\ begins h !! p = Some b).
  { intros p b Hp. change (<[ptr := (fst c, n)]> (begins h) !! p = Some b) in Hp.
    apply lookup_insert_Some in Hp as [[-> <-]|[Hne Hp]]; auto. }
  split; try done.
  - intros p b [[-> ->]|[_ Hp]]%Hbs; [done|]. by apply (hw_begins s Hwf).
  - intros d p b Hd [[-> ->]|[_ Hp]]%Hbs; [by apply Hap|].
    apply apart_points; [by apply (proj1 (Forall_forall _ _) Hok')|by apply (hw_begins s Hwf p)|].
    intros x Hx Hxb. apply (free_not_used s x Hwf); [|by exists p, b]. rewrite Hl. apply Hat. left.
    apply Exists_exists. eauto.
  - intros p b p' b' [[-> ->]|[_ Hp]]%Hbs [[-> ->]|[_ Hp']]%Hbs Hne; [done|by eapply Hcap| |by eapply (hw_apart s Hwf)].
    apply apart_sym. by eapply Hcap.
  - change (u32 (remaining (theheap s) - n) = u32 (total (bef ++ rest_of c n ++ aft))). rewrite Ht, (hw_remaining s Hwf), Hl. unfold u32.
    by rewrite Zminus_mod_idemp_l.
  - apply (hw_pages s Hwf).
  - apply (hw_head s Hwf).
  - intros x Hx. apply (hw_own s Hwf). by apply Hown.
  - intros a Ha Hall. apply (hw_whole s Hwf a Ha). intros x Hx. by apply Hown, Hall.
  - destruct (hw_delayed s Hwf) as [Hnd Hall]. split; [done|]. intros p Hp. cbn.
    destruct (decide (p = ptr)) as [->|]; [rewrite lookup_insert_eq; eauto|].
    rewrite lookup_insert_ne by done. by apply Hall.
Qed.

(** Alignments behind the test of miniheap_alloc. *)
Definition alignment_ok (al : Z) : Prop := al = 0 \/ exists k, 0 <= k < 32 /\ al = 2 ^ k.

Lemma align_ptr al a size :
  alignment_ok al -> 0 <= a -> al <= size -> a + size <= 2 ^ 32 ->
  let ptr := if 0 <? al then ROUNDUP a al else a in
  a <= ptr <= a + Z.max 0 (al - 1) /\ (0 < al -> ptr mod al = 0).
Proof.
  intros [->|(k & Hk & ->)] Ha Hs Hr; cbv zeta.
  - cbn. lia.
  - assert (0 < 2 ^ k) by (apply Z.pow_pos_nonneg; lia). rewrite (proj2 (Z.ltb_lt _ _)) by done.
    destruct (roundup_spec a k) as [? ?]; [lia..|]. split; [lia|done].
Qed.

Lemma alloc_list_run s size al :
  heap_wf s -> sizeof_begin <= size < 2 ^ 31 -> size mod ptr_size = 0 -> alignment_ok al -> sizeof_begin + al <= size ->
  exists r s', alloc_from_list size al s = (Ret r, s') /\
    match r with
    | None => s' = s /\ forall c, c ∈ free_list (theheap s) -> snd c < size
    | Some ptr =>
        heap_wf s' /\ pages s' = pages s /\ delayed_free_list s' = delayed_free_list s /\
        (forall x, owned s' x <-> owned s x) /\ begins (theheap s) !! ptr = None /\ (0 < al -> ptr mod al = 0) /\
        exists b, begins (theheap s') = <[ptr := b]> (begins (theheap s)) /\ size <= snd b /\
          ptr <= fst b + sizeof_begin + Z.max 0 (al - 1)
    end.
Proof.
  intros Hwf Hsize Hmod Hal Hfit. unfold sizeof_begin in *.
  destruct (first_fit_run size (free_list (theheap s)) s (hw_free s Hwf)) as (r & Hr & Hspec).
  unfold alloc_from_list. erewrite bind_run by reflexivity. erewrite bind_run by exact Hr.
  destruct r as [[[bef c] aft]|]; [|by exists None, s]. destruct Hspec as [Hl Hc].
  assert (Hcok : chunk_ok c).
  { apply (proj1 (Forall_forall _ _) (hw_free s Hwf)). rewrite Hl. set_solver. }
  pose proof Hcok as [c1 c2 c3 c4 c5]. destruct c as [chunk len]; cbn [fst snd] in *.
  unfold sizeof_chunk, ptr_size in *. rewrite (u32_small (size + 12)) by lia.
  rewrite (u32_small (chunk + sizeof_begin)) by (unfold sizeof_begin; lia).
  set (n := if size + 12 <? len then size else len).
  assert (Hn : n = len \/ 12 <= n /\ n mod 4 = 0 /\ 12 <= len - n).
  { unfold n. destruct (Z.ltb_spec (size + 12) len); [right|by left]. split_and!; [lia|done|lia]. }
  assert (Hsn : size <= n) by (unfold n; destruct (Z.ltb_spec (size + 12) len); lia).
  destruct (align_ptr al (chunk + 12) (size - 12)) as [Hp Hpm]; [done|lia|lia|lia|].
  set (ptr := if 0 <? al then ROUNDUP (chunk + sizeof_begin) al else chunk + sizeof_begin) in *.
  set (left_ := u32 (remaining (theheap s) - n)).
  set (w := if left_ <? low_watermark (theheap s) then left_ else low_watermark (theheap s)).
  destruct (alloc_wf s bef aft (chunk, len) n ptr w Hwf Hl) as (Hnone & Hwf' & Hown).
  { cbn. unfold sizeof_chunk, ptr_size. done. }
  { cbn. unfold ptr, sizeof_begin in *. destruct Hal as [->|(k & Hk & ->)]; lia. }
  eexists (Some ptr), _. split; [|split; [exact Hwf'|split_and!; [done|done|exact Hown|done|exact Hpm|]]].
  2: { exists (chunk, n). split; [done|]. cbn. unfold sizeof_begin in *. lia. }
  assert (Hcut : (if size + 12 <? len then
      let* newchunk := heap_create_free_chunk (u32 (chunk + size)) (len - size) in
      set_free_list (bef ++ newchunk :: aft) ;; ret (len - (len - size))
    else set_free_list (bef ++ aft) ;; ret len) s =
    (Ret n, with_free (bef ++ rest_of (chunk, len) n ++ aft) (remaining (theheap s)) s)).
  { unfold n, rest_of. destruct (Z.ltb_spec (size + 12) len); cbn [fst snd].
    - rewrite (proj2 (Z.eqb_neq _ _)) by lia. rewrite (u32_small (chunk + size)) by lia.
      erewrite bind_run by (apply create_chunk_run; [unfold ptr_size; by rewrite Zminus_mod, c4, Hmod|unfold sizeof_chunk; lia]).
      replace (len - (len - size)) with size by lia. reflexivity.
    - rewrite Z.eqb_refl. reflexivity. }
  erewrite bind_run by exact Hcut. cbn beta. unfold assert_.
  rewrite (proj2 (Z.leb_le _ _) Hsn). erewrite bind_run by reflexivity.
  rewrite (proj2 (Z.leb_le _ _)), (proj2 (Z.leb_le _ _)).
  - cbn [andb]. erewrite bind_run by reflexivity. erewrite bind_run by reflexivity.
    erewrite bind_run by reflexivity. erewrite bind_run by reflexivity.
    unfold with_free. cbn [theheap remaining low_watermark]. fold left_. unfold w.
    destruct (left_ <? low_watermark (theheap s)); reflexivity.
  - fold ptr. unfold sizeof_begin in *. destruct Hal as [->|(k & Hk & ->)]; lia.
  - fold ptr. unfold sizeof_begin in *. lia.
Qed.

(** *** Growing *)

Lemma multiple a : a mod PAGE_SIZE = 0 -> exists q, a = PAGE_SIZE * q.
Proof. intros Ha. exists (a / PAGE_SIZE). pose proof (Z.div_mod a PAGE_SIZE). unfold PAGE_SIZE in *. lia. Qed.

Lemma page_aligned_ptr a : a mod PAGE_SIZE = 0 -> a mod ptr_size = 0.
Proof.
  intros (q & ->)%multiple. unfold PAGE_SIZE, ptr_size.
  replace (4096 * q) with (q * 1024 * 4) by lia. apply Z.mod_mul. lia.
Qed.

(** A page that touches a range of pages lies in it. *)
Lemma page_in_range a ptr n x :
  a mod PAGE_SIZE = 0 -> ptr mod PAGE_SIZE = 0 -> within x (a, PAGE_SIZE) -> within x (ptr, n * PAGE_SIZE) ->
  forall y, within y (a, PAGE_SIZE) -> within y (ptr, n * PAGE_SIZE).
Proof.
  intros (q & ->)%multiple (v & ->)%multiple Hx Hr y Hy. unfold within, PAGE_SIZE in *; cbn in *.
  assert (v <= q < v + n) by lia. lia.
Qed.

Lemma own_not_free s x : heap_wf s -> owned s x -> ~ pool_free (pages s) x.
Proof. intros Hwf Hx. by apply (hw_own s Hwf x). Qed.

(** The heap with [n] more pages at [ptr]. *)
Lemma grown_wf s p' ptr n l' bs_ hl_ :
  heap_wf s -> 0 <= n -> page_alloc n (pages s) = (Some ptr, p') ->
  merged l' -> Forall chunk_ok l' -> total l' = total (free_list (theheap s)) + n * PAGE_SIZE ->
  (forall x, free_at l' x <-> free_at (free_list (theheap s)) x \/ within x (ptr, n * PAGE_SIZE)) ->
  heap_wf (Heaps (Heap_state bs_ hl_ (u32 (remaining (theheap s) + n * PAGE_SIZE)) (low_watermark (theheap s)) l'
                    (begins (theheap s))) p' (delayed_free_list s)).
Proof.
  intros Hwf Hn Hpa Hm Hf Ht Hat.
  destruct (page_alloc_some n _ _ _ (hw_pages s Hwf) Hn Hpa) as (Hpw & Hn0 & Hp0 & Hpm & Hpe & Hfree & Hpool & Hpf).
  assert (Hin : forall x, within x (ptr, n * PAGE_SIZE) -> pool (pages s) x)
    by (intros x Hx; apply pool_free_in; [apply (hw_pages s Hwf)|auto]).
  split; cbn [theheap pages delayed_free_list free_list begins remaining]; try done.
  - apply (hw_begins s Hwf).
  - intros c p b Hc Hb. apply apart_points;
      [by apply (proj1 (Forall_forall _ _) Hf)|by apply (hw_begins s Hwf p)|].
    intros x Hx Hxb. assert (Hfx : free_at l' x) by (apply Exists_exists; eauto).
    apply Hat in Hfx as [Hfx|Hfx]; [by apply (free_not_used s x Hwf Hfx); exists p, b|].
    apply (own_not_free s x Hwf); [right; by exists p, b|auto].
  - apply (hw_apart s Hwf).
  - rewrite Ht, (hw_remaining s Hwf). unfold u32. by rewrite Zplus_mod_idemp_l.
  - rewrite Hpool. apply (hw_head s Hwf).
  - assert (Hold : forall x, owned s x -> ~ pool_free p' x /\ x <> list_head - 1).
    { intros x Hx. destruct (hw_own s Hwf x Hx). split; [|done]. rewrite Hpf. tauto. }
    intros x [Hx|Hx]; [|by apply Hold; right]. cbn in Hx. apply Hat in Hx as [Hx|Hx]; [by apply Hold; left|].
    split; [rewrite Hpf; tauto|]. intros ->. by apply (hw_head s Hwf), Hin.
  - intros a Ha Hall x Hx. apply Hpool.
    destruct (decide (Z.le ptr x /\ x < ptr + n * PAGE_SIZE)) as [Hr|Hr]; [by apply Hin|].
    apply (hw_whole s Hwf a Ha); [|done]. intros y Hy. destruct (Hall y Hy) as [Hy'|Hy']; [|by right].
    cbn in Hy'. apply Hat in Hy' as [Hy'|Hy']; [by left|]. exfalso. apply Hr.
    exact (page_in_range a ptr n y Ha Hpm Hy Hy' x Hx).
  - apply (hw_delayed s Hwf).
Qed.

Lemma grow_run s size :
  heap_wf s -> sizeof_begin <= size < 2 ^ 31 - PAGE_SIZE ->
  exists r s', heap_grow list_head size s = (Ret r, s') /\ heap_wf s' /\
    begins (theheap s') = begins (theheap s) /\ delayed_free_list s' = delayed_free_list s /\
    (r = -5 /\ s' = s /\ fst (page_alloc (ROUNDUP size PAGE_SIZE / PAGE_SIZE) (pages s)) = None \/
     0 <= r /\ exists c, c ∈ free_list (theheap s') /\ size <= snd c).
Proof.
  intros Hwf Hsize. unfold sizeof_begin, PAGE_SIZE in Hsize.
  destruct (roundup_spec size 12) as [Hs Hm]; [lia|lia|change (2 ^ 12) with 4096; lia|].
  change (2 ^ 12) with PAGE_SIZE in Hs, Hm. unfold heap_grow. erewrite bind_run by reflexivity. cbv zeta.
  set (sz := ROUNDUP size PAGE_SIZE) in *.
  assert (Hsz : sz / PAGE_SIZE * PAGE_SIZE = sz).
  { pose proof (Z.div_mod sz PAGE_SIZE). unfold PAGE_SIZE in *. lia. }
  assert (Hn : 0 <= sz / PAGE_SIZE) by (unfold PAGE_SIZE in *; lia).
  destruct (page_alloc (sz / PAGE_SIZE) (pages s)) as [[ptr|] p'] eqn:Hpa.
  2: { apply page_alloc_none in Hpa as ->. exists (-5), s. split; [by destruct s|].
       split_and!; [done|done|done|]. by left. }
  destruct (page_alloc_some _ _ _ _ (hw_pages s Hwf) Hn Hpa) as (_ & Hn0 & Hp0 & Hpm & Hpe & Hfree & _ & _).
  rewrite Hsz in Hpe, Hfree.
  assert (Hc : chunk_ok (ptr, sz)).
  { split; cbn; unfold sizeof_chunk in *; [lia|by apply page_aligned_ptr|lia|by apply page_aligned_ptr|].
    apply multiple in Hpm as (q & ->). apply multiple in Hm as (v & Hv). unfold PAGE_SIZE in *. lia. }
  set (s1 := Heaps (theheap s) p' (delayed_free_list s)).
  destruct (insert_run list_head s1 (ptr, sz)) as (r & l' & Hrun & Hmg & Hf & Ht & Hat).
  - apply (hw_merged s Hwf).
  - apply (hw_free s Hwf).
  - done.
  - intros f Hin. apply apart_points; [done|by apply (proj1 (Forall_forall _ _) (hw_free s Hwf))|].
    intros x Hx Hxf. apply (own_not_free s x Hwf); [|by apply Hfree]. left. apply Exists_exists. eauto.
  - intros Hx. apply (hw_own s Hwf (list_head - 1)); [by left|done].
  - intros Hx. apply (hw_head s Hwf). apply pool_free_in; [apply (hw_pages s Hwf)|by apply Hfree].
  - cbn [theheap s1 free_list remaining snd] in *.
    eexists (s32 sz), _. split.
    { erewrite bind_run by reflexivity. cbv beta.
      erewrite bind_run by (apply create_chunk_run; [by apply page_aligned_ptr|unfold sizeof_chunk; lia]).
      erewrite bind_run by exact Hrun. cbv beta zeta. erewrite bind_run by reflexivity.
      erewrite bind_run by reflexivity. reflexivity. }
    split; [|split; [done|split; [done|right]]].
    + pose proof (grown_wf s p' ptr (sz / PAGE_SIZE) l'
        (if (ptr <? base (theheap s)) || (base (theheap s) =? 0) then ptr else base (theheap s))) as Hg.
      rewrite Hsz in Hg. apply Hg; done.
    + split; [rewrite s32_small; unfold PAGE_SIZE in *; lia|].
      destruct (merged_range l' ptr sz) as (c & Hc1 & Hc2 & Hc3); [done|done|lia| |].
      { intros x Hx. apply Hat. by right. }
      exists c. split; [done|]. lia.
Qed.
End heap_wf.
