(* ===== verification/MiniheapTrim.v ===== *)
(** * The heap's operations: what allocation, trimming and the calls of
    heap_wrapper.c do to a well-formed heap *)

From stdpp Require Import prelude list gmap sorting.
From Stdlib Require Import ZArith Lia.
From S2P Require Import Prelude Miniheap MiniheapInv.

Open Scope Z_scope.
Open Scope lk_scope.

Notation merged := (StronglySorted follows).

Section calls.
Context {P : Type} `{HPL : PagesLaws P} (list_head : Z).
Implicit Types (s : heaps (P:=P)) (h : heap).
Notation heap_wf := (heap_wf list_head).

(** ** Allocation *)

(** The bytes a request takes with its structure and the room to align it. *)
Definition needed (size al : Z) : Z :=
  ROUNDUP (size + sizeof_begin) ptr_size + (if 0 <? al then Z.max 16 al else 0).

(** The new allocation: [size] bytes behind the pointer lie in its block, and
    nothing else of the heap changed but the memory given out and got. *)
Record allocated s (size al ptr : Z) s' : Prop := {
  al_wf : heap_wf s';
  al_delayed : delayed_free_list s' = delayed_free_list s;
  al_fresh : begins (theheap s) !! ptr = None;
  al_word : ptr mod ptr_size = 0;
  al_aligned : 0 < al -> ptr mod al = 0;
  al_block : exists b, begins (theheap s') = <[ptr := b]> (begins (theheap s)) /\
    fst b + sizeof_begin <= ptr /\ ptr + size <= fst b + snd b
}.

Lemma alignment_test al :
  0 <= al < 2 ^ 32 -> alignment_ok al <-> Z.land al (u32 (al - 1)) = 0.
Proof.
  intros Ha. split.
  - intros [->|(k & Hk & ->)]; [done|]. assert (0 < 2 ^ k) by (apply Z.pow_pos_nonneg; lia).
    rewrite u32_small by lia. replace (2 ^ k - 1) with (Z.ones k) by (rewrite Z.ones_equiv; lia).
    rewrite Z.land_ones by lia.
    apply Z.mod_same. lia.
  - intros Hl. destruct (decide (al = 0)); [by left|]. right. apply pow2_test; [lia|done].
Qed.

(** At least 16 is still a power of two, and a multiple of what was asked for. *)
Lemma alignment_up al :
  alignment_ok al ->
  let al' := if 0 <? al then (if al <? 16 then 16 else al) else 0 in
  alignment_ok al' /\ (0 < al -> 0 < al' /\ forall p, p mod al' = 0 -> p mod al = 0).
Proof.
  intros [->|(k & Hk & ->)]; cbv zeta; [split; [by left|lia]|].
  assert (0 < 2 ^ k) by (apply Z.pow_pos_nonneg; lia). rewrite (proj2 (Z.ltb_lt _ _)) by done.
  destruct (Z.ltb_spec (2 ^ k) 16) as [Hlt|Hge].
  - split; [right; by exists 4|]. intros _. split; [lia|]. intros p Hp.
    assert (Hk4 : k < 4) by (apply (Z.pow_lt_mono_r_iff 2); lia).
    apply Z.mod_divide in Hp as [q ->]; [|lia]. change 16 with (2 ^ 4).
    replace 4 with (4 - k + k) by lia. rewrite Z.pow_add_r, Z.mul_assoc by lia. apply Z.mod_mul. lia.
  - split; [right; by exists k|]. by intros _.
Qed.

Lemma needed_spec size al :
  0 <= size -> alignment_ok al -> size + al + 64 <= 2 ^ 31 ->
  size + sizeof_begin <= ROUNDUP (size + sizeof_begin) ptr_size < size + sizeof_begin + 4 /\
  ROUNDUP (size + sizeof_begin) ptr_size mod ptr_size = 0.
Proof.
  intros Hs Hal Hb. unfold sizeof_begin. assert (0 <= al).
  { destruct Hal as [->|(k & Hk & ->)]; [lia|]. apply Z.pow_nonneg. lia. }
  apply (roundup_spec (size + 12) 2); lia.
Qed.

(** Taking the request from the free list. *)
Lemma take_request s size al n :
  heap_wf s -> alignment_ok al -> sizeof_begin <= n -> n + al < 2 ^ 31 -> n mod ptr_size = 0 ->
  al mod ptr_size = 0 -> size + sizeof_begin <= n ->
  exists r s', alloc_from_list (n + al) al s = (Ret r, s') /\
    match r with
    | None => s' = s /\ forall c, c ∈ free_list (theheap s) -> snd c < n + al
    | Some ptr => allocated s size al ptr s' /\ pages s' = pages s /\ forall x, owned s' x <-> owned s x
    end.
Proof.
  intros Hwf Hal Hn Hr Hm Ham Hsize.
  assert (0 <= al) by (destruct Hal as [->|(k & Hk & ->)]; [lia|apply Z.pow_nonneg; lia]).
  destruct (alloc_list_run list_head s (n + al) al Hwf) as (r & s' & Hrun & Hspec);
    [lia|by apply mod_add_0|done|lia|].
  exists r, s'. split; [done|]. destruct r as [ptr|]; [|done].
  destruct Hspec as (Hwf' & Hpg & Hd & Hown & Hnone & Halp & b & Hb & Hsz & Hptr).
  split; [|done]. destruct (hw_begins _ s' Hwf' ptr b) as [[] Hin]; [by rewrite Hb, lookup_insert_eq|].
  split; try done; [|exists b; split; [done|lia]].
  destruct (Z.eq_dec al 0) as [->|Hne].
  - replace ptr with (fst b + sizeof_begin) by lia. by apply mod_add_0.
  - apply Z.mod_divide in Halp as [q ->]; [|lia|lia]. by rewrite Z.mul_mod, Ham, Z.mul_0_r.
Qed.

Lemma miniheap_alloc_run s size al :
  heap_wf s -> 0 <= size -> 0 <= al < 2 ^ 32 -> (alignment_ok al -> size + al + 8192 <= 2 ^ 31) ->
  exists r s', miniheap_alloc list_head size al s = (Ret r, s') /\
    match r with
    | Some ptr => alignment_ok al /\ allocated s size al ptr s' /\
        (forall c, c ∈ free_list (theheap s) -> needed size al <= snd c ->
          pages s' = pages s /\ forall x, owned s' x <-> owned s x)
    | None => s' = s /\ (alignment_ok al ->
        (forall c, c ∈ free_list (theheap s) -> snd c < needed size al) /\
        fst (page_alloc (ROUNDUP (needed size al) PAGE_SIZE / PAGE_SIZE) (pages s)) = None)
    end.
Proof.
  intros Hwf Hsize Hal Hb. unfold miniheap_alloc.
  destruct (Z.eqb_spec (Z.land al (u32 (al - 1))) 0) as [Hok|Hbad]; cbn [negb].
  2: { exists None, s. split; [done|]. split; [done|]. by intros Hok%alignment_test. }
  apply alignment_test in Hok as Hok; [|done]. specialize (Hb Hok).
  destruct (needed_spec size al Hsize Hok) as [Hn Hm]; [lia|].
  destruct (alignment_up al Hok) as [Hok' Hup]. cbv zeta in *.
  rewrite (u32_small (size + sizeof_begin)) by (unfold sizeof_begin in *; lia).
  rewrite (proj2 (Z.ltb_ge (size + sizeof_begin) sizeof_chunk)) by (unfold sizeof_begin, sizeof_chunk in *; lia).
  set (n := ROUNDUP (size + sizeof_begin) ptr_size) in *.
  set (al' := if 0 <? al then if al <? 16 then 16 else al else 0) in *.
  assert (Hal' : 0 <= al' <= al + 16 /\ (if 0 <? al then Z.max 16 al else 0) = al').
  { unfold al'. destruct (Z.ltb_spec 0 al); [destruct (Z.ltb_spec al 16)|]; lia. }
  assert (Heq : (if 0 <? al' then u32 (n + al') else n) = needed size al).
  { unfold needed. fold n. rewrite (proj2 Hal'). unfold sizeof_begin in *.
    destruct (Z.ltb_spec 0 al'); [apply u32_small|]; lia. }
  rewrite Heq. assert (Hne : needed size al = n + al') by (unfold needed; fold n; by rewrite (proj2 Hal')).
  assert (Ham : al' mod ptr_size = 0).
  { destruct Hok' as [Hz|(k & Hk & Hp)]; [by rewrite Hz|].
    assert (H16 : 16 <= al') by (unfold al' in *; destruct (Z.ltb_spec 0 al); [destruct (Z.ltb_spec al 16)|]; lia).
    rewrite Hp in *. assert (4 <= k) by (apply (Z.pow_le_mono_r_iff 2); lia).
    unfold ptr_size. replace k with (k - 2 + 2) by lia. rewrite Z.pow_add_r by lia. apply Z.mod_mul. lia. }
  assert (Hfin : forall s1, heap_wf s1 -> delayed_free_list s1 = delayed_free_list s ->
    begins (theheap s1) = begins (theheap s) -> exists r s', alloc_from_list (needed size al) al' s1 = (Ret r, s') /\
    match r with
    | None => s' = s1 /\ forall c, c ∈ free_list (theheap s1) -> snd c < needed size al
    | Some ptr => alignment_ok al /\ allocated s size al ptr s' /\ pages s' = pages s1 /\
        forall x, owned s' x <-> owned s1 x
    end).
  { intros s1 Hwf1 Hd1 Hb1. rewrite Hne.
    destruct (take_request s1 size al' n Hwf1 Hok') as (r & s' & Hrun & Hspec);
      [unfold sizeof_begin in *; lia|unfold sizeof_begin in *; lia|done|done|lia|].
    exists r, s'. split; [done|]. destruct r as [ptr|]; [|done]. destruct Hspec as [[A1 A2 A3 Aw A4 A5] Hsame].
    split; [done|]. split; [|done]. rewrite Hb1 in A3, A5. rewrite Hd1 in A2. split; try done.
    intros Hpos. destruct (Hup Hpos) as [Hpos' Hdiv]. auto. }
  destruct (Hfin s Hwf) as (r & s1 & Hrun & Hspec); [done..|]. erewrite bind_run by exact Hrun.
  destruct r as [ptr|]; [exists (Some ptr), s1; naive_solver|]. destruct Hspec as [-> Hsmall].
  destruct (grow_run list_head s (needed size al) Hwf) as (e & s2 & Hg & Hwf2 & Hb2 & Hd2 & He);
    [rewrite Hne; unfold sizeof_begin, PAGE_SIZE in *; lia|].
  erewrite bind_run by exact Hg. destruct He as [(-> & -> & Hpa)|(He & c & Hc & Hcl)]; cbn [Z.leb].
  - exists None, s. split; [done|]. by split.
  - rewrite (proj2 (Z.leb_le 0 e)) by done. destruct (Hfin s2 Hwf2) as (r & s3 & Hrun3 & Hspec3); [done..|].
    exists r, s3. split; [exact Hrun3|]. destruct r as [ptr|].
    { destruct Hspec3 as (H1 & H2 & _). split_and!; [done|done|]. intros d Hd Hle. specialize (Hsmall d Hd). lia. }
    destruct Hspec3 as [_ Hsm]. specialize (Hsm c Hc). lia.
Qed.

(** The memory of an allocation comes from the free list when the page allocator
    is not asked. *)
Lemma allocated_memory s size al ptr s' b :
  heap_wf s -> allocated s size al ptr s' -> begins (theheap s') = <[ptr := b]> (begins (theheap s)) ->
  (forall x, owned s' x <-> owned s x) ->
  forall x, free_at (free_list (theheap s)) x <-> free_at (free_list (theheap s')) x \/ within x b.
Proof.
  intros Hwf [Hwf' _ Hfresh _ _ _] Hb Hown x.
  assert (Hu : used_at (begins (theheap s')) x <-> used_at (begins (theheap s)) x \/ within x b)
    by (rewrite Hb; by apply used_insert).
  specialize (Hown x). unfold owned in Hown. rewrite Hu in Hown.
  assert (Hd : free_at (free_list (theheap s)) x -> ~ used_at (begins (theheap s)) x)
    by apply (free_not_used _ s x Hwf).
  assert (Hd' : free_at (free_list (theheap s')) x -> ~ (used_at (begins (theheap s)) x \/ within x b)).
  { intros Hf. rewrite <- Hu. by apply (free_not_used _ s' x Hwf'). }
  assert (Hbu : within x b -> ~ used_at (begins (theheap s)) x).
  { intros Hx (q & c & Hq & Hxc). assert (Hne : q <> ptr) by congruence.
    eapply (apart_not_within b c x); [|done|done].
    eapply (hw_apart _ s' Hwf' ptr b q c); [by rewrite Hb, lookup_insert_eq| |done].
    by rewrite Hb, lookup_insert_ne. }
  tauto.
Qed.

(** ** Trimming *)

Lemma trim_bounds_run start end_ sp ep s :
  start <= sp -> ep <= end_ -> sp mod PAGE_SIZE = 0 -> ep mod PAGE_SIZE = 0 ->
  exists r, trim_bounds (P:=P) 3 start end_ sp ep s = (Ret r, s) /\
    match r with
    | None => True
    | Some (a, b) => a mod PAGE_SIZE = 0 /\ b mod PAGE_SIZE = 0 /\ start <= a /\ a < b /\ b <= end_ /\
        (a = start \/ sizeof_chunk <= a - start) /\ (b = end_ \/ sizeof_chunk <= end_ - b)
    end.
Proof.
  intros Hs He Hsm Hem. cbn [trim_bounds]. unfold sizeof_chunk, PAGE_SIZE in *.
  repeat case_match; (eexists; split; [reflexivity|]) || exfalso; try done; bool_to_prop; subst;
    repeat match goal with Hb : (_ && _) = false |- _ => apply andb_false_iff in Hb end;
    rewrite ?negb_false_iff, ?negb_true_iff, ?Z.eqb_eq, ?Z.eqb_neq, ?Z.ltb_lt, ?Z.ltb_ge in *;
    Z.to_euclidean_division_equations; lia.
Qed.

(** Whole pages of a range that lie in the pool. *)
Definition whole_in_pool (p : P) (c : Z * Z) : Prop :=
  forall a, a mod PAGE_SIZE = 0 -> (forall x, within x (a, PAGE_SIZE) -> within x c) ->
  forall x, within x (a, PAGE_SIZE) -> pool p x.

Lemma pages_in_pool (p : P) c sp n :
  whole_in_pool p c -> sp mod PAGE_SIZE = 0 -> fst c <= sp -> sp + n * PAGE_SIZE <= fst c + snd c ->
  forall x, within x (sp, n * PAGE_SIZE) -> pool p x.
Proof.
  intros Hw (v & ->)%multiple Hs He x Hx. unfold within, PAGE_SIZE in Hx, He; cbn in Hx.
  unfold PAGE_SIZE in Hs. pose proof (Z.div_mod x 4096 ltac:(lia)). pose proof (Z.mod_pos_bound x 4096 ltac:(lia)).
  apply (Hw (x / 4096 * PAGE_SIZE)); [apply Z.mod_mul; done| |].
  - intros y Hy. unfold within, PAGE_SIZE in *; cbn in *. lia.
  - unfold within, PAGE_SIZE; cbn. lia.
Qed.

(** The state with [k] bytes given back. *)
Definition trimmed s (p : P) (k : Z) : heaps (P:=P) :=
  Heaps (Heap_state (base (theheap s)) (heap_len (theheap s)) (u32 (remaining (theheap s) - k))
           (low_watermark (theheap s)) (free_list (theheap s)) (begins (theheap s))) p (delayed_free_list s).

(** What trimming leaves of a list of chunks, and what the page allocator gets. *)
Record trim_spec (p : P) (l cs : list (Z * Z)) (p' : P) : Prop := {
  ts_pages : page_wf p';
  ts_pool : forall x, pool p' x <-> pool p x;
  ts_merged : merged cs;
  ts_chunks : Forall chunk_ok cs;
  ts_within : forall x, free_at cs x -> free_at l x;
  ts_given : forall x, pool_free p' x <-> pool_free p x \/ free_at l x /\ ~ free_at cs x
}.

Lemma free_at_cons c (l : list (Z * Z)) x : free_at (c :: l) x <-> within x c \/ free_at l x.
Proof. apply Exists_cons. Qed.

Lemma free_at_nil x : ~ free_at [] x.
Proof. by intros ?%Exists_nil. Qed.

Lemma trim_chunk_run c s :
  chunk_ok c -> page_wf (pages s) -> whole_in_pool (pages s) c -> u32 (remaining (theheap s)) = remaining (theheap s) ->
  exists cs p', trim_chunk c s = (Ret cs, trimmed s p' (snd c - total cs)) /\ trim_spec (pages s) [c] cs p'.
Proof.
  intros Hc Hpw Hw Hrem. pose proof Hc as [c1 c2 c3 c4 c5]. destruct c as [start len]; cbn [fst snd] in *.
  unfold trim_chunk. cbn [fst snd]. unfold sizeof_chunk in c3. rewrite (u32_small (start + len)) by lia.
  assert (Hse : start < start + len) by lia. apply Z.ltb_lt in Hse as Hse'. rewrite Hse'.
  destruct (roundup_spec start 12) as [Hu Hum]; [lia|lia|change (2 ^ 12) with 4096; lia|].
  destruct (rounddown_spec (start + len) 12) as (Hd & _ & Hdm); [lia|lia|].
  change (2 ^ 12) with PAGE_SIZE in *.
  erewrite bind_run by reflexivity. cbn beta zeta. unfold assert_ at 1.
  rewrite (proj2 (Z.leb_le (ROUNDDOWN _ _) _)) by lia. erewrite bind_run by reflexivity.
  unfold assert_ at 1. rewrite (proj2 (Z.leb_le start _)) by lia. erewrite bind_run by reflexivity.
  destruct (trim_bounds_run start (start + len) (ROUNDUP start PAGE_SIZE) (ROUNDDOWN (start + len) PAGE_SIZE) s)
    as (r & Hrun & Hspec); [lia..|].
  erewrite bind_run by exact Hrun. destruct r as [[a b]|].
  2: { exists [(start, len)], (pages s). split.
       - unfold trimmed, total. cbn. replace (len - (len + 0)) with 0 by lia. rewrite Z.sub_0_r, Hrem. by destruct s as [[] ? ?].
       - split; try done; [repeat constructor|by constructor|]. intros x. tauto. }
  destruct Hspec as (Ham & Hbm & Ha & Hab & Hb & Hal & Hbl).
  set (tl := if b <? start + len then [(b, start + len - b)] else []).
  assert (Htl : (if b <? start + len
     then let* n := heap_create_free_chunk b (start + len - b) in ret [n] else ret []) s = (Ret tl, s)).
  { unfold tl. destruct (Z.ltb_spec b (start + len)); [|done].
    erewrite bind_run by (apply create_chunk_run; [|lia];
      apply page_aligned_ptr in Hbm; unfold ptr_size in *; Z.to_euclidean_division_equations; lia).
    done. }
  erewrite bind_run by exact Htl. erewrite bind_run by reflexivity.
  assert (Hq : (b - a) / PAGE_SIZE * PAGE_SIZE = b - a /\ 0 < (b - a) / PAGE_SIZE)
    by (unfold PAGE_SIZE in *; Z.to_euclidean_division_equations; lia).
  destruct Hq as [Hq Hq0].
  destruct (page_free_ok a ((b - a) / PAGE_SIZE) (pages s) Hpw Ham Hq0) as (p' & Hpf & Hpw' & Hpool & Hfree).
  { apply (pages_in_pool (pages s) (start, len)); [done..|]. cbn. lia. }
  rewrite Hq in Hfree. erewrite bind_deref by exact Hpf. erewrite bind_run by reflexivity.
  erewrite bind_run by reflexivity. cbn beta.
  set (hd := if start <? a then [(start, a - start)] else []).
  apply page_aligned_ptr in Ham as Ham4. apply page_aligned_ptr in Hbm as Hbm4.
  assert (Hin : forall x, free_at (hd ++ tl) x <-> start <= x < a \/ b <= x < start + len).
  { intros x. unfold free_at. rewrite Exists_app. unfold hd, tl.
    destruct (Z.ltb_spec start a), (Z.ltb_spec b (start + len)); rewrite ?Exists_cons, ?Exists_nil; unfold within; cbn; lia. }
  assert (Htot : total (hd ++ tl) = len - (b - a)).
  { rewrite total_app. unfold hd, tl, total. destruct (Z.ltb_spec start a), (Z.ltb_spec b (start + len)); cbn; lia. }
  exists (hd ++ tl), p'. split; [|split; [done|done| | |..]].
  - rewrite Htot. replace (len - (len - (b - a))) with (b - a) by lia. reflexivity.
  - unfold hd, tl. destruct (start <? a), (b <? start + len); cbn; repeat constructor. unfold follows; cbn. lia.
  - unfold hd, tl, sizeof_chunk, ptr_size in *. apply Forall_app.
    split; [destruct (Z.ltb_spec start a)|destruct (Z.ltb_spec b (start + len))]; constructor; try constructor; cbn;
      unfold sizeof_chunk, ptr_size; try lia; clear -Ham4 Hbm4 c2 c4; Z.to_euclidean_division_equations; lia.
  - intros x Hx%Hin. apply free_at_cons. left. unfold within; cbn. lia.
  - intros x. rewrite Hfree, Hin, free_at_cons. pose proof (free_at_nil x). unfold within; cbn. 
    destruct (decide (a <= x)), (decide (x < a + (b - a))); intuition lia.
Qed.

Lemma whole_in_pool_iff (p p' : P) c :
  (forall x, pool p' x <-> pool p x) -> whole_in_pool p c -> whole_in_pool p' c.
Proof. intros Hp Hw a Ha Hin x Hx. apply Hp. by apply (Hw a Ha Hin). Qed.

Lemma trim_each_run l s :
  merged l -> Forall chunk_ok l -> page_wf (pages s) -> (forall c, c ∈ l -> whole_in_pool (pages s) c) ->
  u32 (remaining (theheap s)) = remaining (theheap s) ->
  exists cs p', trim_each l s = (Ret cs, trimmed s p' (total l - total cs)) /\ trim_spec (pages s) l cs p'.
Proof.
  revert s. induction l as [|c l IH]; intros s Hm Hok Hpw Hw Hrem; cbn [trim_each].
  - exists [], (pages s). split.
    + unfold trimmed. cbn. rewrite Z.sub_0_r, Hrem. by destruct s as [[] ? ?].
    + split; try done. intros x. pose proof (free_at_nil x). tauto.
  - apply StronglySorted_cons in Hm as [Hc Hm]. apply Forall_cons in Hok as [Hco Hok].
    destruct (trim_chunk_run c s Hco Hpw) as (cs & p1 & Hrun & [T1 T2 T3 T4 T5 T6]); [apply Hw; left|done|].
    erewrite bind_run by exact Hrun. set (s1 := trimmed s p1 (snd c - total cs)).
    destruct (IH s1) as (rest & p2 & Hrun2 & [R1 R2 R3 R4 R5 R6]); [done|done|exact T1| | |].
    { intros d Hd. apply (whole_in_pool_iff (pages s)); [exact T2|]. apply Hw. by right. }
    { cbn. unfold u32. apply Z.mod_mod. lia. }
    erewrite bind_run by exact Hrun2. exists (cs ++ rest), p2. split.
    { unfold ret, trimmed. cbn. rewrite total_app. f_equal. f_equal. f_equal. unfold u32.
      rewrite Zminus_mod_idemp_l. f_equal. unfold total; lia. }
    assert (Hcs : forall x, free_at cs x -> within x c).
    { intros x Hx. apply T5, free_at_cons in Hx as [Hx|Hx]; [done|]. by apply free_at_nil in Hx. }
    assert (Hdis : forall x, within x c -> ~ free_at l x).
    { intros x Hx (d & Hd & Hxd)%Exists_exists. rewrite Forall_forall in Hc. specialize (Hc d Hd).
      unfold follows, within in *. lia. }
    assert (Happ : forall x, free_at (cs ++ rest) x <-> free_at cs x \/ free_at rest x) by (intros; apply Exists_app).
    split.
    + done.
    + intros x. rewrite R2. apply T2.
    + apply StronglySorted_app. split_and!; [|done|done].
      intros d e Hd He. rewrite Forall_forall in T4, R4. pose proof (T4 d Hd) as Hdo. pose proof (R4 e He) as Heo.
      assert (H1 : within (fst d + snd d - 1) c).
      { apply Hcs, Exists_exists. exists d. split; [done|]. destruct Hdo. unfold within, sizeof_chunk in *. lia. }
      assert (H2 : free_at l (fst e)).
      { apply R5, Exists_exists. exists e. split; [done|]. by apply chunk_start. }
      apply Exists_exists in H2 as (f & Hf & Hef). rewrite Forall_forall in Hc. specialize (Hc f Hf).
      unfold follows, within in *. lia.
    + by apply Forall_app.
    + intros x [Hx|Hx]%Happ; apply free_at_cons; auto.
    + intros x. rewrite R6. cbn [pages s1 trimmed]. rewrite T6, Happ, !free_at_cons.
      specialize (Hcs x). specialize (Hdis x). specialize (R5 x). pose proof (free_at_nil x). tauto.
Qed.

Lemma miniheap_trim_run s :
  heap_wf s ->
  exists l' p', miniheap_trim s = (Ret tt, with_free l' (u32 (total l')) (trimmed s p' 0)) /\
    trim_spec (pages s) (free_list (theheap s)) l' p' /\ heap_wf (with_free l' (u32 (total l')) (trimmed s p' 0)).
Proof.
  intros Hwf. destruct (trim_each_run (free_list (theheap s)) s) as (l' & p' & Hrun & Hspec).
  - apply (hw_merged _ s Hwf).
  - apply (hw_free _ s Hwf).
  - apply (hw_pages _ s Hwf).
  - intros c Hc a Ha Hin. apply (hw_whole _ s Hwf a Ha). intros x Hx. left.
    apply Exists_exists. eauto.
  - rewrite (hw_remaining _ s Hwf). unfold u32. apply Z.mod_mod. lia.
  - assert (Hr : u32 (remaining (theheap s) - (total (free_list (theheap s)) - total l')) = u32 (total l')).
    { rewrite (hw_remaining _ s Hwf). unfold u32. rewrite Zminus_mod_idemp_l. f_equal. lia. }
    exists l', p'. split; [|split; [done|]].
    + unfold miniheap_trim. erewrite bind_run by reflexivity. erewrite bind_run by exact Hrun.
      unfold set_free_list, set_heap, modify, trimmed, with_free. cbn. by rewrite Hr.
    + destruct Hspec as [T1 T2 T3 T4 T5 T6]. set (s' := with_free l' (u32 (total l')) (trimmed s p' 0)).
      assert (Hown : forall x, owned s' x -> owned s x) by (intros x [Hx|Hx]; [left; by apply T5|by right]).
      split; try done.
      * apply (hw_begins _ s Hwf).
      * intros c p b Hc Hb. apply apart_points; [by apply (proj1 (Forall_forall _ _) T4)|by apply (hw_begins _ s Hwf p)|].
        intros x Hx Hxb. apply (free_not_used _ s x Hwf); [|by exists p, b]. apply T5, Exists_exists. eauto.
      * apply (hw_apart _ s Hwf).
      * cbn. rewrite T2. apply (hw_head _ s Hwf).
      * intros x Hx. destruct (hw_own _ s Hwf x (Hown x Hx)) as [H1 H2]. split; [|done]. cbn. rewrite T6.
        intros [Hp|[Hf Hn]]; [done|]. destruct Hx as [Hx|Hx]; [done|]. by apply (free_not_used _ s x Hwf Hf).
      * intros a Ha Hall x Hx. cbn. apply T2. apply (hw_whole _ s Hwf a Ha); [|done]. intros y Hy. auto.
      * apply (hw_delayed _ s Hwf).
Qed.
End calls.
