(* ===== verification/HeapSpec.v ===== *)
(** * What malloc promises: the heap against an abstract one

    The abstract heap is the map of the live blocks and the sizes asked for.  The
    calls of heap_wrapper.c refine it: blocks are fresh, apart, aligned and large
    enough; the caller's own blocks stay where they are until he frees them. *)

From stdpp Require Import prelude list gmap sorting.
From Stdlib Require Import ZArith Lia.
From S2P Require Import Prelude Miniheap MiniheapInv MiniheapTrim.

Open Scope Z_scope.
Open Scope lk_scope.

(** ** The abstract heap *)

Inductive call :=
| Malloc (size : Z)
| Memalign (boundary size : Z)
| Calloc (count size : Z)
| Realloc (ptr size : Z)
| Free (ptr : Z)
| Delayed_free (ptr : Z)
| Trim.

(** A block of [n] bytes at [p] that no live block overlaps. *)
Definition fresh (live : gmap Z Z) (p n : Z) : Prop :=
  0 < p /\ p + n < 2 ^ 32 /\ p mod ptr_size = 0 /\ live !! p = None /\
  forall q m, live !! q = Some m -> p + n <= q \/ q + m <= p.

Inductive spec_step (live : gmap Z Z) : call -> option Z -> gmap Z Z -> Prop :=
| spec_null c : (match c with Malloc _ | Memalign _ _ | Calloc _ _ => True | Realloc p n => p = 0 \/ n <> 0 | _ => False end) ->
    spec_step live c None live
| spec_malloc n p : fresh live p n -> spec_step live (Malloc n) (Some p) (<[p := n]> live)
| spec_memalign b n p : fresh live p n -> alignment_ok b -> (0 < b -> p mod b = 0) ->
    spec_step live (Memalign b n) (Some p) (<[p := n]> live)
| spec_calloc k n p : fresh live p (k * n) -> spec_step live (Calloc k n) (Some p) (<[p := k * n]> live)
| spec_realloc_new n p : fresh live p n -> spec_step live (Realloc 0 n) (Some p) (<[p := n]> live)
| spec_realloc_free p : p <> 0 -> spec_step live (Realloc p 0) None (delete p live)
| spec_realloc_move p n q : p <> 0 -> n <> 0 -> fresh live q n ->
    spec_step live (Realloc p n) (Some q) (<[q := n]> (delete p live))
| spec_free p : spec_step live (Free p) None (delete p live)
| spec_delayed p : spec_step live (Delayed_free p) None (delete p live)
| spec_trim : spec_step live Trim None live.

(** Requests below [2 ^ 31 - 8192] bytes, with their alignment. *)
Definition small (size al : Z) : Prop := 0 <= size /\ 0 <= al < 2 ^ 32 /\ (alignment_ok al -> size + al + 8192 <= 2 ^ 31).

(** What the caller owes: he frees what is live, asks realloc for no more than
    the block has, and a block whose free is delayed holds a list node. *)
Definition allowed (live : gmap Z Z) (c : call) : Prop :=
  match c with
  | Malloc n => small n 0
  | Memalign b n => small n b
  | Calloc k n => small (k * n) 0
  | Realloc p n => small n 0 /\ (p <> 0 -> exists m, live !! p = Some m /\ n <= m)
  | Free p => p <> 0 -> is_Some (live !! p)
  | Delayed_free p => exists m, live !! p = Some m /\ 8 <= m
  | Trim => True
  end.

Section spec.
Context {P : Type} `{HPL : PagesLaws P} (list_head : Z).
Implicit Types (s : heaps (P:=P)) (live : gmap Z Z).
Notation heap_wf := (heap_wf list_head).

Definition exec (c : call) : HM (P:=P) (option Z) :=
  match c with
  | Malloc n => malloc list_head n
  | Memalign b n => memalign list_head b n
  | Calloc k n => calloc list_head k n
  | Realloc p n => realloc list_head p n
  | Free p => free list_head p ;; ret None
  | Delayed_free p => heap_delayed_free p ;; ret None
  | Trim => heap_trim list_head ;; ret None
  end.

(** The heap that the abstract one describes. *)
Record refines live s : Prop := {
  rf_wf : heap_wf s;
  rf_live : forall p n, live !! p = Some n ->
    0 <= n /\ p ∉ delayed_free_list s /\
    exists b, begins (theheap s) !! p = Some b /\ p + n <= fst b + snd b
}.

(** ** Freeing *)

Lemma refines_free live s p :
  refines live s -> is_Some (live !! p) ->
  exists s', miniheap_free list_head p s = (Ret tt, s') /\ refines (delete p live) s' /\
    delayed_free_list s' = delayed_free_list s.
Proof.
  intros [Hwf Hl] [n Hp]. destruct (Hl p n Hp) as (_ & Hd & b & Hb & _).
  destruct (free_run list_head s p b Hwf Hb Hd) as (s' & Hrun & Hwf' & Hbs & Hdl & _).
  exists s'. split; [done|]. split; [|done]. split; [done|].
  intros q m [Hne Hq]%lookup_delete_Some. rewrite Hdl, Hbs, lookup_delete_ne by done. by apply Hl.
Qed.

Lemma delayed_wf s l :
  heap_wf s -> NoDup l -> (forall p, p ∈ l -> is_Some (begins (theheap s) !! p)) ->
  heap_wf (Heaps (theheap s) (pages s) l).
Proof. intros Hwf Hnd Hl. split; try apply Hwf. done. Qed.

Lemma free_each_run (l : list Z) s :
  heap_wf s -> delayed_free_list s = [] -> NoDup l -> (forall p, p ∈ l -> is_Some (begins (theheap s) !! p)) ->
  exists s', for_each l (miniheap_free list_head) s = (Ret tt, s') /\ heap_wf s' /\ delayed_free_list s' = [] /\
    forall q, q ∉ l -> begins (theheap s') !! q = begins (theheap s) !! q.
Proof.
  revert s. induction l as [|p l IH]; intros s Hwf Hd Hnd Hl; cbn [for_each]; [by exists s|].
  apply NoDup_cons in Hnd as [Hp Hnd]. destruct (Hl p) as [b Hb]; [left|].
  destruct (free_run list_head s p b Hwf Hb) as (s1 & Hrun & Hwf1 & Hbs & Hdl & _); [rewrite Hd; apply not_elem_of_nil|].
  erewrite bind_run by exact Hrun. destruct (IH s1) as (s' & Hrun' & Hwf' & Hd' & Hq); [done|congruence|done| |].
  - intros q Hq. rewrite Hbs, lookup_delete_ne by (by intros ->). apply Hl. by right.
  - exists s'. split_and!; [done..|]. intros q [Hne Hnq]%not_elem_of_cons.
    rewrite Hq, Hbs, lookup_delete_ne by done. done.
Qed.

Lemma pending_run live s :
  refines live s ->
  exists s', pending_frees list_head s = (Ret tt, s') /\ refines live s' /\ delayed_free_list s' = [].
Proof.
  intros Hr. unfold pending_frees. erewrite bind_run by reflexivity.
  destruct (delayed_free_list s) as [|p l] eqn:Hd; [by exists s|]. clear p l Hd.
  destruct Hr as [Hwf Hl]. destruct (hw_delayed _ s Hwf) as [Hnd Hin].
  unfold heap_free_delayed_list. erewrite bind_run by reflexivity. erewrite bind_run by reflexivity.
  destruct (free_each_run (rev (delayed_free_list s)) (Heaps (theheap s) (pages s) [])) as (s' & Hrun & Hwf' & Hd' & Hq);
    [|done| | |].
  - apply delayed_wf; [done|constructor|by intros ? ?%elem_of_nil].
  - by apply NoDup_ListNoDup, List.NoDup_rev, NoDup_ListNoDup.
  - intros q Hq%list_elem_of_In%List.in_rev%list_elem_of_In. by apply Hin.
  - exists s'. split; [exact Hrun|]. split; [|done]. split; [done|].
    intros q n Hqn. destruct (Hl q n Hqn) as (Hn & Hnd' & b & Hb & Hle).
    split_and!; [done|rewrite Hd'; apply not_elem_of_nil|]. exists b. split; [|done].
    rewrite Hq; [done|]. by intros ?%list_elem_of_In%List.in_rev%list_elem_of_In.
Qed.

(** ** Allocating *)

Lemma allocated_refines live s size al ptr s' :
  refines live s -> 0 <= size -> allocated list_head s size al ptr s' ->
  fresh live ptr size /\ refines (<[ptr := size]> live) s'.
Proof.
  intros [Hwf Hl] Hsize [Hwf' Hd Hf Hw _ (b & Hb & Hlo & Hhi)].
  assert (Hbp : begins (theheap s') !! ptr = Some b) by (by rewrite Hb, lookup_insert_eq).
  destruct (hw_begins _ s' Hwf' ptr b Hbp) as [[b1 b2 b3 b4 b5] _]. unfold sizeof_begin, sizeof_chunk in *.
  assert (Hnl : live !! ptr = None).
  { apply eq_None_not_Some. intros [n Hn]. destruct (Hl ptr n Hn) as (_ & _ & b' & Hb' & _). congruence. }
  split.
  - split_and!; [lia|lia|done|done|]. intros q m Hq. destruct (Hl q m Hq) as (Hm & _ & c & Hc & Hcm).
    assert (Hne : ptr <> q) by congruence. destruct (hw_begins _ s Hwf q c Hc) as [_ Hqc].
    assert (Hap : apart b c).
    { eapply (hw_apart _ s' Hwf' ptr b q c); [done| |done]. by rewrite Hb, lookup_insert_ne. }
    unfold apart, sizeof_begin in *. lia.
  - split; [done|]. intros q m [[<- <-]|[Hne Hq]]%lookup_insert_Some.
    + split; [done|]. split; [|exists b; split; [done|lia]].
      rewrite Hd. intros Hin. apply (hw_delayed _ s Hwf) in Hin as [c Hc]. congruence.
    + destruct (Hl q m Hq) as (Hm & Hnd & c & Hc & Hcm). rewrite Hd. split_and!; [done|done|].
      exists c. by rewrite Hb, lookup_insert_ne.
Qed.

Lemma refines_alloc live s size al :
  refines live s -> small size al ->
  exists r s', miniheap_alloc list_head size al s = (Ret r, s') /\
    match r with
    | None => s' = s
    | Some ptr => alignment_ok al /\ (0 < al -> ptr mod al = 0) /\ fresh live ptr size /\
        refines (<[ptr := size]> live) s' /\ delayed_free_list s' = delayed_free_list s
    end.
Proof.
  intros Hr (Hsize & Hal & Hb). destruct (miniheap_alloc_run list_head s size al (rf_wf _ _ Hr) Hsize Hal Hb)
    as (r & s' & Hrun & Hspec).
  exists r, s'. split; [done|]. destruct r as [ptr|]; [|by destruct Hspec].
  destruct Hspec as (Hok & Ha & _). destruct (allocated_refines live s size al ptr s' Hr Hsize Ha) as [Hf Hr'].
  split_and!; try done; apply Ha.
Qed.

Lemma refines_sub live live' s : live' ⊆ live -> refines live s -> refines live' s.
Proof. intros Hs [Hwf Hl]. split; [done|]. intros p n Hp. apply Hl. by eapply lookup_weaken. Qed.

Lemma realloc_run live s p n :
  refines live s -> allowed live (Realloc p n) ->
  exists r s' live', miniheap_realloc list_head p n s = (Ret r, s') /\
    spec_step live (Realloc p n) r live' /\ refines live' s'.
Proof.
  intros Hr [Hs Hp]. unfold miniheap_realloc. destruct (Z.eqb_spec p 0) as [->|Hne].
  - destruct (refines_alloc live s n 0 Hr Hs) as (r & s' & Hrun & Hspec). rewrite Hrun.
    destruct r as [ptr|]; [destruct Hspec as (_ & _ & Hf & Hr' & _)|subst s'].
    + eexists _, _, _. split; [done|]. by split; [constructor|].
    + eexists _, _, _. split; [done|]. split; [by constructor; left|done].
  - destruct (Hp Hne) as (m & Hm & Hnm). destruct (Z.eqb_spec n 0) as [->|Hn0].
    + destruct (refines_free live s p Hr) as (s' & Hrun & Hr' & _); [eauto|].
      erewrite bind_run by exact Hrun. eexists _, _, _. split; [done|]. by split; [constructor|].
    + destruct (refines_alloc live s n 0 Hr Hs) as (r & s1 & Hrun & Hspec). erewrite bind_run by exact Hrun.
      destruct r as [q|]; [|subst s1; eexists _, _, _; split; [done|]; split; [by constructor; right|done]].
      destruct Hspec as (_ & _ & Hf & Hr1 & _). destruct Hs as [Hn _].
      assert (Hpq : q <> p) by (destruct Hf as (_ & _ & _ & Hq & _); congruence).
      assert (Hp1 : <[q := n]> live !! p = Some m) by (by rewrite lookup_insert_ne).
      destruct (rf_live _ _ Hr1 p m Hp1) as (_ & _ & b & Hb & Hle).
      erewrite bind_run by reflexivity. erewrite bind_deref by exact Hb.
      rewrite (proj2 (Z.leb_le (p + n) _)) by lia. erewrite bind_run by reflexivity.
      destruct (refines_free _ s1 p Hr1) as (s2 & Hrun2 & Hr2 & _); [eauto|].
      erewrite bind_run by exact Hrun2. rewrite delete_insert_ne in Hr2 by done.
      eexists _, _, _. split; [done|]. split; [by constructor|done].
Qed.
End spec.
