(* ===== verification/Novm.v ===== *)
(** * kernel/novm: the page allocator (novm.c) and lib/heap/page_alloc.c on it

    An arena is a range of pages with a map of one char a page.  The map is kept
    with its arena as the list of its [n->pages] entries; an access behind them
    faults.  The mutexes are held throughout each function and are not kept. *)

From stdpp Require Import prelude list gmap sorting.
From Stdlib Require Import ZArith Lia.
From S2P Require Import Prelude Miniheap MiniheapInv.

Open Scope Z_scope.
Open Scope lk_scope.

Definition PAGE_SIZE_SHIFT : Z := 12.
Definition MINIMUM_USEFUL_UNALIGNED_SIZE : Z := 64.
Definition NOVM_ARENA_ANY : Z := 2 ^ 32 - 1.
Definition ERR_NOT_FOUND : Z := -2.
Definition ERR_NO_MEMORY : Z := -5.

(** struct novm_arena; [map_addr] is where the map lies, [map] what it holds.
    NULL is 0. *)
Record novm_arena := Arena {
  map_addr : Z;
  map : list Z;
  abase : Z;
  asize : Z;
  unaligned_area : Z;
  unaligned_size : Z
}.

(** [n->pages], the number of the map's entries *)
Definition npages (n : novm_arena) : Z := Z.of_nat (length (map n)).

Definition set_map (m : list Z) (n : novm_arena) : novm_arena :=
  Arena (map_addr n) m (abase n) (asize n) (unaligned_area n) (unaligned_size n).

(** [arena[NOVM_MAX_ARENAS]] *)
Record novm := Novm { arena : list novm_arena }.

(** The scan of [pages] entries for one that is in use: the first one's index. *)
Fixpoint used_entry (m : list Z) (pages : nat) : option nat :=
  match pages, m with
  | O, _ | _, [] => None
  | S pages', b :: m' => if b =? 0 then S <$> used_entry m' pages' else Some O
  end.

(** The walk of novm_alloc_helper: behind an entry in use it goes on behind that
    entry. *)
Fixpoint find_run (fuel : nat) (m : list Z) (pages i : nat) : option nat :=
  match fuel with
  | O => None
  | S fuel' =>
      if (i <=? length m - pages)%nat then
        match used_entry (drop i m) pages with
        | Some j => find_run fuel' m pages (S (i + j))
        | None => Some i
        end
      else None
  end.

Definition novm_alloc_helper (n : novm_arena) (pages : Z) : option Z * novm_arena :=
  if (pages =? 0) || (npages n <? pages) then (None, n)
  else
    let k := Z.to_nat pages in
    match find_run (S (length (map n))) (map n) k 0 with
    | Some i =>
        (Some (u32 (abase n + Z.shiftl (Z.of_nat i) PAGE_SIZE_SHIFT)), set_map (splice i (replicate k 1) (map n)) n)
    | None => (None, n)
    end.

(** [i] is the index of the list's first arena. *)
Fixpoint alloc_pages_from (i pages arena_bitmap : Z) (l : list novm_arena) : option Z * list novm_arena :=
  match l with
  | [] => (None, [])
  | n :: l' =>
      let rest := let '(r, l'') := alloc_pages_from (i + 1) pages arena_bitmap l' in (r, n :: l'') in
      if Z.testbit arena_bitmap i then
        match novm_alloc_helper n pages with
        | (Some a, n') => (Some a, n' :: l')
        | (None, _) => rest
        end
      else rest
  end.

Definition novm_alloc_pages (pages arena_bitmap : Z) (v : novm) : option Z * novm :=
  let '(r, l) := alloc_pages_from 0 pages arena_bitmap (arena v) in (r, Novm l).

Definition in_arena (n : novm_arena) (p : Z) : bool :=
  if asize n =? 0 then false else (abase n <=? p) && (p <? u32 (abase n + asize n)).

Definition page_index (n : novm_arena) (address : Z) : nat :=
  Z.to_nat (Z.shiftr (address - abase n) PAGE_SIZE_SHIFT).

(** The first arena with the address gets the change; [None] is a fault. *)
Fixpoint free_pages_in (address pages : Z) (l : list novm_arena) : option (list novm_arena) :=
  match l with
  | [] => Some []
  | n :: l' =>
      if in_arena n address then
        let i := page_index n address in
        if Z.of_nat i + pages <=? npages n
        then Some (set_map (splice i (replicate (Z.to_nat pages) 0) (map n)) n :: l')
        else None
      else cons n <$> free_pages_in address pages l'
  end.

Definition novm_free_pages (address pages : Z) (v : novm) : option novm :=
  Novm <$> free_pages_in address pages (arena v).

(** Also a fault: entries behind the map are read before any that is in use. *)
Fixpoint alloc_specific_in (address pages : Z) (l : list novm_arena) : option (Z * list novm_arena) :=
  match l with
  | [] => Some (ERR_NOT_FOUND, [])
  | n :: l' =>
      if in_arena n address then
        let i := page_index n address in
        match used_entry (drop i (map n)) (Z.to_nat pages) with
        | Some _ => Some (ERR_NO_MEMORY, n :: l')
        | None =>
            if Z.of_nat i + pages <=? npages n
            then Some (0, set_map (splice i (replicate (Z.to_nat pages) 1) (map n)) n :: l')
            else None
        end
      else
        match alloc_specific_in address pages l' with
        | Some (err, l'') => Some (err, n :: l'')
        | None => None
        end
  end.

Definition novm_alloc_specific_pages (address pages : Z) (v : novm) : option (Z * novm) :=
  match alloc_specific_in address pages (arena v) with
  | Some (err, l) => Some (err, Novm l)
  | None => None
  end.

(** What an arena without memory before its pages leaves gives is one page, or
    NULL with the size of one. *)
Definition novm_alloc_unaligned (v : novm) : (option Z * Z) * novm :=
  match arena v with
  | n :: l =>
      if negb (unaligned_area n =? 0)
      then ((Some (unaligned_area n), unaligned_size n),
            Novm (Arena (map_addr n) (map n) (abase n) (asize n) 0 0 :: l))
      else let '(r, v') := novm_alloc_pages 1 NOVM_ARENA_ANY v in ((r, PAGE_SIZE), v')
  | [] => ((None, PAGE_SIZE), v)
  end.

(** The ranges written, and the index behind the last arena in use among them. *)
Fixpoint ranges_of (i number_of_ranges ranges_found : Z) (l : list novm_arena) : Z * list (Z * Z) :=
  match l with
  | n :: l' =>
      if i <? number_of_ranges then
        let '(r, ranges) := ranges_of (i + 1) number_of_ranges (if 0 <? npages n then i + 1 else ranges_found) l' in
        (r, (abase n, u32 (Z.shiftl (npages n) PAGE_SIZE_SHIFT)) :: ranges)
      else (ranges_found, [])
  | [] => (ranges_found, [])
  end.

Definition novm_get_arenas (number_of_ranges : Z) (v : novm) : Z * list (Z * Z) :=
  ranges_of 0 number_of_ranges 0 (arena v).

(** Room for the map before the pages: start, size and map_size. *)
Fixpoint map_room (fuel : nat) (arena_start start size map_size : Z) : option (Z * Z * Z) :=
  match fuel with
  | O => None
  | S fuel' =>
      if u32 (start - arena_start) <? map_size
      then map_room fuel' arena_start (u32 (start + PAGE_SIZE)) (u32 (size - PAGE_SIZE)) (u32 (map_size - 1))
      else Some (start, size, map_size)
  end.

(** [default_map] is NULL or the address of [default_map_size] chars; without a
    new one the arena's unaligned area stays. *)
Definition novm_init_helper (n : novm_arena) (arena_start arena_size default_map default_map_size : Z)
    : option novm_arena :=
  let start := ROUNDUP arena_start PAGE_SIZE in
  let size := u32 (ROUNDDOWN (u32 (arena_start + arena_size)) PAGE_SIZE - start) in
  let map_size := Z.shiftr size PAGE_SIZE_SHIFT in
  let keep := (unaligned_area n, unaligned_size n) in
  if (default_map =? 0) || (default_map_size <? map_size) then
    match map_room (S (Z.to_nat map_size)) arena_start start size map_size with
    | None => None
    | Some (start, size, map_size) =>
        let map_end := u32 (arena_start + ROUNDUP map_size 4) in
        let u := if MINIMUM_USEFUL_UNALIGNED_SIZE <=? s32 (start - map_end) then (map_end, u32 (start - map_end)) else keep in
        Some (Arena arena_start (replicate (Z.to_nat map_size) 0) start size (fst u) (snd u))
    end
  else
    let u := if MINIMUM_USEFUL_UNALIGNED_SIZE <=? u32 (start - arena_start)
             then (arena_start, u32 (start - arena_start)) else keep in
    Some (Arena default_map (replicate (Z.to_nat map_size) 0) start size (fst u) (snd u)).

(** [end_of_kernel] is the linker's _end.  The inner [None] is the panic of too
    many arenas, the outer one no end of the loop in novm_init_helper. *)
Fixpoint add_arena_in (end_of_kernel arena_start arena_size : Z) (l : list novm_arena)
    : option (option (list novm_arena)) :=
  match l with
  | [] => Some None
  | n :: l' =>
      if npages n =? 0 then
        let '(arena_start, arena_size) :=
          if (arena_start <? end_of_kernel) && (end_of_kernel <? u32 (arena_start + arena_size))
          then (end_of_kernel, u32 (arena_size - (end_of_kernel - arena_start)))
          else (arena_start, arena_size) in
        match novm_init_helper n arena_start arena_size 0 0 with
        | Some n' => Some (Some (n' :: l'))
        | None => None
        end
      else
        match add_arena_in end_of_kernel arena_start arena_size l' with
        | Some (Some l'') => Some (Some (n :: l''))
        | r => r
        end
  end.

Definition novm_add_arena (end_of_kernel arena_start arena_size : Z) (v : novm) : option (option novm) :=
  match add_arena_in end_of_kernel arena_start arena_size (arena v) with
  | Some (Some l) => Some (Some (Novm l))
  | Some None => Some None
  | None => None
  end.

(** The arena that the system starts with: from the kernel's end to the end of
    memory, its map the static mem_allocation_map. *)
Definition novm_init (membase memsize end_of_kernel mem_allocation_map : Z) (v : novm) : option novm :=
  match arena v with
  | n :: l =>
      match novm_init_helper n end_of_kernel (u32 (membase + memsize - end_of_kernel))
              mem_allocation_map (Z.shiftr memsize PAGE_SIZE_SHIFT) with
      | Some n' => Some (Novm (n' :: l))
      | None => None
      end
  | [] => None
  end.

(** ** page_alloc.c *)

(** PAGE_ALLOC_ANY_ARENA, -1, is passed on as an unsigned bitmap. *)
Definition page_alloc_novm (pages : Z) (v : novm) : option Z * novm := novm_alloc_pages pages (u32 (-1)) v.
Definition page_free_novm (ptr pages : Z) (v : novm) : option novm := novm_free_pages ptr pages v.
Definition page_first_alloc (v : novm) : (option Z * Z) * novm := novm_alloc_unaligned v.
Definition page_get_arenas (number_of_ranges : Z) (v : novm) : Z * list (Z * Z) := novm_get_arenas number_of_ranges v.

(** ** The arenas as a page allocator *)

Definition in_range (n : novm_arena) (x : Z) : Prop := abase n <= x < abase n + asize n.

Definition page_of (n : novm_arena) (x : Z) : nat := Z.to_nat ((x - abase n) / PAGE_SIZE).

Definition free_in (n : novm_arena) (x : Z) : Prop := in_range n x /\ map n !! page_of n x = Some 0.

Record arena_wf (n : novm_arena) : Prop := {
  aw_base : 0 < abase n;
  aw_aligned : abase n mod PAGE_SIZE = 0;
  aw_size : asize n = npages n * PAGE_SIZE;
  aw_end : abase n + asize n < 2 ^ 32
}.

(** No two arenas touch. *)
Definition gap (n n' : novm_arena) : Prop := abase n + asize n < abase n' \/ abase n' + asize n' < abase n.

Record novm_wf (v : novm) : Prop := {
  nw_arenas : Forall arena_wf (arena v);
  nw_gaps : StronglySorted gap (arena v)
}.

#[export] Instance novm_pages : Pages novm := {
  page_alloc := page_alloc_novm;
  page_free := page_free_novm;
  page_wf := novm_wf;
  pool v x := Exists (fun n => in_range n x) (arena v);
  pool_free v x := Exists (fun n => free_in n x) (arena v)
}.

(** ** lib/heap: heap_init *)

(** NULL from page_first_alloc is the address 0. *)
Definition heap_init (list_head : Z) : HM (P:=novm) unit :=
  let* s := get in
  let '((ptr, len), v) := page_first_alloc (pages s) in
  put (Heaps (theheap s) v (delayed_free_list s)) ;;
  miniheap_init list_head (default 0 ptr) len.
