(* ===== verification/NovmInv.v ===== *)
(** * The page allocator: the first run of free pages, and the laws the heap
    relies on *)

From stdpp Require Import prelude list gmap sorting.
From Stdlib Require Import ZArith Lia.
From S2P Require Import Prelude Miniheap MiniheapInv Novm.

Open Scope Z_scope.

(** ** Runs of free pages *)

Definition run_free (m : list Z) (k i : nat) : Prop := forall j, (j < k)%nat -> m !! (i + j)%nat = Some 0.

Lemma used_entry_spec m k :
  (k <= length m)%nat ->
  match used_entry m k with
  | None => run_free m k 0
  | Some j => (j < k)%nat /\ exists b, m !! j = Some b /\ b <> 0
  end.
Proof.
  revert k. induction m as [|b m IH]; intros [|k] Hk; cbn in *; try lia; [intros j; lia..|].
  destruct (Z.eqb_spec b 0) as [->|Hb]; [|split; [lia|by exists b]].
  specialize (IH k). destruct (used_entry m k) as [j|]; cbn.
  - destruct IH as (Hj & b & Hb & Hne); [lia|]. split; [lia|]. by exists b.
  - intros [|j] Hj; [done|]. apply IH; lia.
Qed.

Lemma used_entry_drop m k i :
  (i + k <= length m)%nat ->
  match used_entry (drop i m) k with
  | None => run_free m k i
  | Some j => (j < k)%nat /\ forall q, (i <= q <= i + j)%nat -> ~ run_free m k q
  end.
Proof.
  intros Hk. pose proof (used_entry_spec (drop i m) k) as Hs. rewrite length_drop in Hs.
  destruct (used_entry (drop i m) k) as [j|].
  - destruct Hs as (Hj & b & Hb & Hne); [lia|]. split; [done|]. intros q Hq Hrun. rewrite lookup_drop in Hb.
    specialize (Hrun (i + j - q)%nat). replace (q + (i + j - q))%nat with (i + j)%nat in Hrun by lia.
    rewrite Hrun in Hb by lia. congruence.
  - intros j Hj. rewrite <- lookup_drop. apply Hs; lia.
Qed.

(** The walk finds the first run there is: going on behind the entry in use
    skips none. *)
Lemma find_run_spec fuel m k i :
  (0 < k <= length m)%nat -> (length m < fuel + i)%nat ->
  match find_run fuel m k i with
  | Some r => (i <= r)%nat /\ (r + k <= length m)%nat /\ run_free m k r /\
      forall q, (i <= q < r)%nat -> ~ run_free m k q
  | None => forall q, (i <= q)%nat -> ~ run_free m k q
  end.
Proof.
  intros Hk. assert (Hend : forall q, (length m - k < q)%nat -> ~ run_free m k q).
  { intros q Hq Hrun. specialize (Hrun (k - 1)%nat ltac:(lia)). apply lookup_lt_Some in Hrun. lia. }
  revert i. induction fuel as [|fuel IH]; intros i Hf; cbn [find_run]; [intros q Hq; apply Hend; lia|].
  destruct (Nat.leb_spec i (length m - k)) as [Hle|Hgt]; [|intros q Hq; apply Hend; lia].
  pose proof (used_entry_drop m k i ltac:(lia)) as Hu. destruct (used_entry (drop i m) k) as [j|].
  - destruct Hu as [Hj Hu]. specialize (IH (S (i + j)) ltac:(lia)).
    assert (Hsplit : forall q, (i <= q)%nat -> (i <= q <= i + j)%nat \/ (S (i + j) <= q)%nat) by lia.
    destruct (find_run fuel m k (S (i + j))) as [r|].
    + destruct IH as (H1 & H2 & H3 & H4). split_and!; [lia|done|done|].
      intros q Hq. destruct (Hsplit q) as [Hq'|Hq']; [lia|by apply Hu|apply H4; lia].
    + intros q Hq. destruct (Hsplit q) as [Hq'|Hq']; [done|by apply Hu|by apply IH].
  - split_and!; [done|lia|done|]. intros q Hq. lia.
Qed.

(** ** One arena *)

Section arena.
Implicit Types (n : novm_arena).

Lemma page_of_page n i x :
  0 < abase n -> 0 <= i -> within x (abase n + i * PAGE_SIZE, PAGE_SIZE) -> page_of n x = Z.to_nat i.
Proof.
  intros Hb Hi Hx. unfold page_of, within, PAGE_SIZE in *; cbn in Hx. f_equal.
  symmetry. apply (Z.div_unique _ _ _ (x - abase n - i * 4096)); lia.
Qed.

Lemma page_of_range n x i k :
  abase n <= x -> within x (abase n + Z.of_nat i * PAGE_SIZE, Z.of_nat k * PAGE_SIZE) <-> (i <= page_of n x < i + k)%nat.
Proof.
  intros Hx. unfold page_of, within, PAGE_SIZE; cbn.
  pose proof (Z.div_mod (x - abase n) 4096 ltac:(lia)). pose proof (Z.mod_pos_bound (x - abase n) 4096 ltac:(lia)).
  assert (0 <= (x - abase n) / 4096) by (apply Z.div_pos; lia). lia.
Qed.

Lemma page_of_lt n x : arena_wf n -> in_range n x -> (page_of n x < length (map n))%nat.
Proof.
  intros [] Hx. unfold in_range, npages, page_of, PAGE_SIZE in *.
  assert ((x - abase n) / 4096 < Z.of_nat (length (map n))) by (apply Z.div_lt_upper_bound; lia). 
  assert (0 <= (x - abase n) / 4096) by (apply Z.div_pos; lia). lia.
Qed.

(** Overwriting the entries of [k] pages from page [i]. *)
Lemma splice_map_wf n i k b :
  arena_wf n -> (i + k <= length (map n))%nat -> arena_wf (set_map (splice i (replicate k b) (map n)) n).
Proof.
  intros [] Hk. split; try done. unfold npages in *. cbn. by rewrite length_splice by (rewrite length_replicate; lia).
Qed.

Lemma splice_map_free n i k b x :
  arena_wf n -> (i + k <= length (map n))%nat ->
  free_in (set_map (splice i (replicate k b) (map n)) n) x <->
  in_range n x /\ if decide (within x (abase n + Z.of_nat i * PAGE_SIZE, Z.of_nat k * PAGE_SIZE))
                  then b = 0 else free_in n x.
Proof.
  intros Hwf Hk. unfold free_in. change (in_range (set_map _ n) x) with (in_range n x).
  change (page_of (set_map _ n) x) with (page_of n x). cbn [set_map map].
  destruct (decide (in_range n x)) as [Hx|]; [|tauto].
  rewrite lookup_splice by (rewrite length_replicate; lia). rewrite length_replicate.
  pose proof (page_of_range n x i k (proj1 Hx)) as Hr.
  repeat case_decide; try tauto. rewrite lookup_replicate_2 by lia. naive_solver.
Qed.

Lemma helper_run n pages :
  arena_wf n -> 0 <= pages ->
  match novm_alloc_helper n pages with
  | (Some a, n') => exists i k, pages = Z.of_nat k /\ (0 < k)%nat /\ (i + k <= length (map n))%nat /\
      run_free (map n) k i /\ (forall q, (q < i)%nat -> ~ run_free (map n) k q) /\
      a = abase n + Z.of_nat i * PAGE_SIZE /\ n' = set_map (splice i (replicate k 1) (map n)) n
  | (None, n') => n' = n /\ (0 < pages -> forall q, ~ run_free (map n) (Z.to_nat pages) q)
  end.
Proof.
  intros [] Hp. unfold novm_alloc_helper. unfold npages in *.
  destruct (Z.eqb_spec pages 0) as [->|Hne]; [by split|]. cbn [orb].
  destruct (Z.ltb_spec (Z.of_nat (length (map n))) pages) as [Hlt|Hge].
  { split; [done|]. intros _ q Hrun. specialize (Hrun (Z.to_nat pages - 1)%nat ltac:(lia)).
    apply lookup_lt_Some in Hrun. lia. }
  pose proof (find_run_spec (S (length (map n))) (map n) (Z.to_nat pages) 0 ltac:(lia) ltac:(lia)) as Hf.
  destruct (find_run _ _ _ _) as [i|]; [|split; [done|]; intros _ q; apply Hf; lia].
  destruct Hf as (_ & Hi & Hrun & Hfst). exists i, (Z.to_nat pages).
  split_and!; [lia|lia|done|done|intros q Hq; apply Hfst; lia| |done].
  unfold PAGE_SIZE_SHIFT, PAGE_SIZE in *. rewrite Z.shiftl_mul_pow2 by lia. apply u32_small. lia.
Qed.

Lemma in_arena_spec n x : arena_wf n -> in_arena n x = true <-> in_range n x.
Proof.
  intros [aw1 aw2 aw3 aw4]. unfold in_arena, in_range. unfold npages in *.
  assert (0 <= asize n) by (unfold PAGE_SIZE in *; lia).
  destruct (Z.eqb_spec (asize n) 0); [lia|]. rewrite u32_small by lia.
  rewrite andb_true_iff, Z.leb_le, Z.ltb_lt. done.
Qed.

Lemma page_index_spec n i : 0 <= i -> page_index n (abase n + i * PAGE_SIZE) = Z.to_nat i.
Proof.
  intros Hi. unfold page_index, PAGE_SIZE_SHIFT. rewrite Z.shiftr_div_pow2 by lia. unfold PAGE_SIZE.
  f_equal. replace (abase n + i * 4096 - abase n) with (i * 2 ^ 12) by lia. apply Z.div_mul. lia.
Qed.

(** Pages of an arena by their number. *)
Lemma aligned_page n a : arena_wf n -> in_range n a -> a mod PAGE_SIZE = 0 ->
  exists i, a = abase n + Z.of_nat i * PAGE_SIZE.
Proof.
  intros [aw1 aw2 aw3 aw4] [Ha _] (q & ->)%multiple. apply multiple in aw2 as (v & Hv). rewrite Hv in *.
  exists (Z.to_nat (q - v)). unfold PAGE_SIZE in *. lia.
Qed.
End arena.

(** ** The arenas *)

Lemma sorted_cases {A} (R : A -> A -> Prop) (l : list A) x y :
  StronglySorted R l -> x ∈ l -> y ∈ l -> x = y \/ R x y \/ R y x.
Proof.
  induction 1 as [|z l _ IH Hz]; [by intros ?%elem_of_nil|].
  rewrite Forall_forall in Hz. rewrite !elem_of_cons. intros [->|Hx] [->|Hy]; auto.
Qed.

Lemma alloc_from_some i pages bm l a l' :
  alloc_pages_from i pages bm l = (Some a, l') ->
  exists l1 n n' l2, l = l1 ++ n :: l2 /\ l' = l1 ++ n' :: l2 /\ novm_alloc_helper n pages = (Some a, n').
Proof.
  revert i l'. induction l as [|n l IH]; intros i l'; cbn [alloc_pages_from]; [done|].
  destruct (alloc_pages_from (i + 1) pages bm l) as [r l''] eqn:Hrest.
  assert (Hr : forall l0, (r, n :: l'') = (Some a, l0) ->
    exists l1 m m' l2, n :: l = l1 ++ m :: l2 /\ l0 = l1 ++ m' :: l2 /\ novm_alloc_helper m pages = (Some a, m')).
  { intros l0 [= -> <-]. destruct (IH _ _ Hrest) as (l1 & m & m' & l2 & -> & -> & Hm).
    by exists (n :: l1), m, m', l2. }
  destruct (Z.testbit bm i); [|apply Hr].
  destruct (novm_alloc_helper n pages) as [[a'|] n'] eqn:Hn; [|apply Hr].
  intros [= -> <-]. by exists [], n, n', l.
Qed.

Lemma alloc_from_none i pages bm l l' :
  alloc_pages_from i pages bm l = (None, l') -> l' = l.
Proof.
  revert i l'. induction l as [|n l IH]; intros i l'; cbn [alloc_pages_from]; [by intros [= <-]|].
  destruct (alloc_pages_from (i + 1) pages bm l) as [r l''] eqn:Hrest.
  destruct (Z.testbit bm i); [destruct (novm_alloc_helper n pages) as [[a'|] n']; [done|]|];
    intros [= -> <-]; f_equal; by eapply IH.
Qed.

(** An arena replaced by one of the same range. *)
Section replace.
Context (l1 l2 : list novm_arena) (n n' : novm_arena).
Hypothesis (Hbase : abase n' = abase n) (Hsize : asize n' = asize n) (Hn' : arena_wf n').

Lemma replace_wf : novm_wf (Novm (l1 ++ n :: l2)) -> novm_wf (Novm (l1 ++ n' :: l2)).
Proof.
  intros [Ha Hg]. cbn in *. split; cbn.
  - apply Forall_app in Ha as [H1 [_ H2]%Forall_cons]. by apply Forall_app; split; [|constructor].
  - apply StronglySorted_app in Hg as (H1 & H2 & [H3 H4]%StronglySorted_cons). apply StronglySorted_app.
    split_and!; [|done|].
    + intros x y Hx [->|Hy]%elem_of_cons.
      * specialize (H1 x n Hx ltac:(left)). unfold gap in *. by rewrite Hbase, Hsize.
      * apply H1; [done|by right].
    + apply StronglySorted_cons. split; [|done]. eapply Forall_impl; [exact H3|].
      intros y Hy. unfold gap in *. by rewrite Hbase, Hsize.
Qed.

Lemma replace_pool x : pool (Novm (l1 ++ n' :: l2)) x <-> pool (Novm (l1 ++ n :: l2)) x.
Proof. cbn. rewrite !Exists_app, !Exists_cons. unfold in_range. by rewrite Hbase, Hsize. Qed.

(** Addresses of [n] are in no other arena. *)
Lemma replace_free x :
  novm_wf (Novm (l1 ++ n :: l2)) -> in_range n x ->
  (pool_free (Novm (l1 ++ n' :: l2)) x <-> free_in n' x) /\ (pool_free (Novm (l1 ++ n :: l2)) x <-> free_in n x).
Proof.
  intros [_ Hg] Hx. cbn in *. rewrite !Exists_app, !Exists_cons, !Exists_exists.
  apply StronglySorted_app in Hg as (H1 & H2 & [H3 H4]%StronglySorted_cons). rewrite Forall_forall in H3.
  assert (Hl1 : ~ exists m, m ∈ l1 /\ free_in m x).
  { intros (m & Hm & Hf & _). specialize (H1 m n Hm ltac:(left)). unfold gap, in_range in *. lia. }
  assert (Hl2 : ~ exists m, m ∈ l2 /\ free_in m x).
  { intros (m & Hm & Hf & _). specialize (H3 m Hm). unfold gap, in_range in *. lia. }
  tauto.
Qed.

Lemma replace_free_ne x :
  ~ in_range n x -> pool_free (Novm (l1 ++ n' :: l2)) x <-> pool_free (Novm (l1 ++ n :: l2)) x.
Proof.
  intros Hx. cbn. rewrite !Exists_app, !Exists_cons.
  assert (~ free_in n x) by (intros [? _]; done).
  assert (~ free_in n' x) by (intros [Hr _]; unfold in_range in *; by rewrite Hbase, Hsize in Hr). tauto.
Qed.
End replace.

Lemma free_pages_run n l1 l2 address pages :
  Forall (fun m => ~ in_range m address) l1 -> Forall arena_wf (l1 ++ n :: l2) -> in_range n address ->
  free_pages_in address pages (l1 ++ n :: l2) =
    if Z.of_nat (page_index n address) + pages <=? npages n
    then Some (l1 ++ set_map (splice (page_index n address) (replicate (Z.to_nat pages) 0) (map n)) n :: l2)
    else None.
Proof.
  intros Hl1 Hwf Hn. apply Forall_app in Hwf as [Hw1 [Hwn _]%Forall_cons].
  induction l1 as [|m l1 IH]; cbn [free_pages_in app].
  - by rewrite (proj2 (in_arena_spec n address Hwn) Hn).
  - apply Forall_cons in Hl1 as [Hm Hl1]. apply Forall_cons in Hw1 as [Hwm Hw1].
    destruct (in_arena m address) eqn:Hi; [by apply in_arena_spec in Hi|].
    rewrite (IH Hl1 Hw1). by destruct (_ <=? _).
Qed.

(** A range of the pool lies in one arena. *)
Lemma pool_range v a len :
  novm_wf v -> 0 < len -> (forall x, within x (a, len) -> pool v x) ->
  exists n l1 l2, arena v = l1 ++ n :: l2 /\ Forall (fun m => ~ in_range m a) l1 /\ in_range n a /\
    a + len <= abase n + asize n.
Proof.
  intros [Hw Hg] Hlen Hp. assert (Ha : pool v a) by (apply Hp; unfold within; cbn; lia).
  assert (Hfirst : exists n l1 l2, arena v = l1 ++ n :: l2 /\ Forall (fun m => ~ in_range m a) l1 /\ in_range n a).
  { clear -Ha. cbn in Ha. induction Ha as [n l Hn|m l Hl IH]; [by exists n, [], l|].
    destruct (decide (Z.le (abase m) a /\ a < abase m + asize m)) as [Hm|Hm]; [by exists m, [], l|].
    destruct IH as (n & l1 & l2 & -> & H1 & Hn). exists n, (m :: l1), l2. split; [done|]. split; [by constructor|done]. }
  destruct Hfirst as (n & l1 & l2 & Hl & H1 & Hn). exists n, l1, l2. split_and!; [done..|].
  destruct (decide (a + len <= abase n + asize n)) as [|Hgt]; [done|].
  assert (Hx : pool v (abase n + asize n)) by (apply Hp; unfold within, in_range in *; cbn; lia).
  apply Exists_exists in Hx as (m & Hm & Hx). unfold in_range in *.
  destruct (sorted_cases gap (arena v) n m Hg) as [->|[Hgap|Hgap]]; [rewrite Hl; set_solver|done|lia|..];
    unfold gap in Hgap; lia.
Qed.

#[export] Instance novm_pages_laws : PagesLaws novm.
Proof.
  split.
  - intros k [l] a [l'] Hwf Hk Hpa. cbn in Hpa. unfold page_alloc_novm, novm_alloc_pages in Hpa. cbn [arena] in Hpa.
    destruct (alloc_pages_from 0 k (u32 (-1)) l) as [r l0] eqn:Hal. injection Hpa as -> ->.
    destruct (alloc_from_some _ _ _ _ _ _ Hal) as (l1 & n & n' & l2 & -> & -> & Hh).
    assert (Hn : arena_wf n) by (apply (proj1 (Forall_forall _ _) (nw_arenas _ Hwf)); cbn; set_solver).
    pose proof (helper_run n k Hn Hk) as Hr. rewrite Hh in Hr.
    destruct Hr as (i & m & -> & Hm & Him & Hrun & _ & -> & ->). pose proof Hn as [n1 n2 n3 n4].
    assert (Hin : forall x, within x (abase n + Z.of_nat i * PAGE_SIZE, Z.of_nat m * PAGE_SIZE) -> in_range n x).
    { intros x Hx. unfold within, in_range, npages, PAGE_SIZE in *; cbn in *. lia. }
    assert (Hn' : arena_wf (set_map (splice i (replicate m 1) (map n)) n)) by by apply splice_map_wf.
    split_and!; [by apply (replace_wf _ _ n)|lia|unfold PAGE_SIZE in *; lia| | | |intros x; by apply replace_pool|].
    + apply mod_add_0; [done|done|]. by apply Z.mod_mul.
    + unfold npages, PAGE_SIZE in *. lia.
    + intros x Hx. specialize (Hin x Hx). apply (replace_free l1 l2 n n x Hwf Hin). split; [done|].
      apply (page_of_range n x i m) in Hx; [|apply Hin].
      specialize (Hrun (page_of n x - i)%nat ltac:(lia)). by replace (i + (page_of n x - i))%nat with (page_of n x) in Hrun by lia.
    + intros x. destruct (decide (Z.le (abase n) x /\ x < abase n + asize n)) as [Hx|Hx].
      * destruct (replace_free l1 l2 n (set_map (splice i (replicate m 1) (map n)) n) x Hwf Hx) as [-> ->].
        rewrite splice_map_free by done. case_decide; [split; [by intros [_ ?]|tauto]|]. unfold free_in. tauto.
      * rewrite (replace_free_ne l1 l2 n (set_map (splice i (replicate m 1) (map n)) n)) by done. split; [|by intros [? _]]. intros Hf. split; [done|]. by intros ?%Hin.
  - intros k [l] [l'] Hpa. cbn in Hpa. unfold page_alloc_novm, novm_alloc_pages in Hpa. cbn [arena] in Hpa.
    destruct (alloc_pages_from 0 k (u32 (-1)) l) as [r l0] eqn:Hal. injection Hpa as -> ->.
    by rewrite (alloc_from_none _ _ _ _ _ Hal).
  - intros v x _ Hf. cbn in *. eapply Exists_impl; [exact Hf|]. by intros n [? _].
  - intros a k v Hwf Ha Hk Hp. destruct (pool_range v a (k * PAGE_SIZE) Hwf) as (n & l1 & l2 & Hl & H1 & Hna & He);
      [unfold PAGE_SIZE; lia|done|]. destruct v as [l]; cbn in Hl; subst l.
    assert (Hn : arena_wf n) by (apply (proj1 (Forall_forall _ _) (nw_arenas _ Hwf)); cbn; set_solver).
    destruct (aligned_page n a Hn Hna Ha) as [i ->]. pose proof Hn as [n1 n2 n3 n4].
    assert (Hik : (i + Z.to_nat k <= length (map n))%nat) by (unfold npages, PAGE_SIZE in *; lia).
    set (n' := set_map (splice i (replicate (Z.to_nat k) 0) (map n)) n).
    assert (Hn' : arena_wf n') by by apply splice_map_wf.
    exists (Novm (l1 ++ n' :: l2)). split_and!; [|by apply (replace_wf _ _ n)|intros x; by apply replace_pool|].
    + cbn. unfold page_free_novm, novm_free_pages.
      rewrite free_pages_run; [|done|apply (nw_arenas _ Hwf)|done].
      rewrite page_index_spec, Nat2Z.id by lia. rewrite (proj2 (Z.leb_le _ _)) by (unfold npages; lia). done.
    + intros x. destruct (decide (Z.le (abase n) x /\ x < abase n + asize n)) as [Hx|Hx].
      * destruct (replace_free l1 l2 n n' x Hwf Hx) as [-> ->]. unfold n'. rewrite splice_map_free by done.
        change (in_range n x) in Hx. rewrite Z2Nat.id by lia. case_decide; [tauto|]. unfold free_in. tauto.
      * rewrite (replace_free_ne l1 l2 n n') by done. split; [by left|]. intros [|Hw]; [done|]. exfalso. apply Hx.
        unfold within, in_range in *; cbn in *. lia.
Qed.
