(* ===== verification/HeapInit.v ===== *)
(** * Starting the heap: novm_init, heap_init and miniheap_init *)

From stdpp Require Import prelude list gmap sorting.
From Stdlib Require Import ZArith Lia.
From S2P Require Import Prelude Miniheap MiniheapInv MiniheapTrim HeapSpec Novm NovmInv.

Open Scope Z_scope.
Open Scope lk_scope.

Notation merged := (StronglySorted follows).

(** ** novm_init_helper *)

Lemma map_room_run fuel arena_start start size ms :
  0 <= arena_start <= start -> size = ms * PAGE_SIZE -> 0 <= ms -> start + size < 2 ^ 32 -> ms < Z.of_nat fuel ->
  exists start' size' ms', map_room fuel arena_start start size ms = Some (start', size', ms') /\
    0 <= ms' <= ms /\ size' = ms' * PAGE_SIZE /\ start' + size' = start + size /\ start' = start + (ms - ms') * PAGE_SIZE /\
    ms' <= start' - arena_start.
Proof.
  unfold PAGE_SIZE. revert start size ms. induction fuel as [|fuel IH]; intros start size ms Hs -> Hms He Hf; [lia|].
  cbn [map_room]. rewrite (u32_small (start - arena_start)) by lia.
  destruct (Z.ltb_spec (start - arena_start) ms) as [Hlt|Hge].
  - unfold PAGE_SIZE. rewrite !u32_small by lia.
    destruct (IH (start + 4096) (ms * 4096 - 4096) (ms - 1)) as (st' & sz' & ms' & Hrun & H1 & H2 & H3 & H4 & H5); [lia..|].
    exists st', sz', ms'. split; [done|]. lia.
  - exists start, (ms * 4096), ms. split; [done|]. lia.
Qed.

(** An arena made out of [arena_start, arena_start + arena_size): its pages, its
    map when that is in it and its unaligned area are apart and lie in there. *)
Record arena_made (arena_start arena_size default_map : Z) (n : novm_arena) : Prop := {
  am_wf : arena_wf n;
  am_map : map n = replicate (length (map n)) 0;
  am_range : arena_start <= abase n /\ abase n + asize n <= arena_start + arena_size;
  am_map_addr : map_addr n = default_map \/ map_addr n = arena_start /\ arena_start + npages n <= abase n;
  am_unaligned : unaligned_area n = 0 \/
    arena_start <= unaligned_area n /\ MINIMUM_USEFUL_UNALIGNED_SIZE <= unaligned_size n /\
    unaligned_area n + unaligned_size n = abase n /\
    (map_addr n = arena_start -> map_addr n <> default_map -> arena_start + npages n <= unaligned_area n)
}.

Lemma novm_init_run n arena_start arena_size default_map default_map_size :
  0 < arena_start -> 0 <= arena_size -> arena_start + arena_size < 2 ^ 32 - PAGE_SIZE ->
  ROUNDUP arena_start PAGE_SIZE <= ROUNDDOWN (arena_start + arena_size) PAGE_SIZE ->
  unaligned_area n = 0 ->
  exists n', novm_init_helper n arena_start arena_size default_map default_map_size = Some n' /\
    arena_made arena_start arena_size default_map n' /\
    (default_map <> 0 -> arena_size <= default_map_size * PAGE_SIZE ->
      map_addr n' = default_map /\ abase n' = ROUNDUP arena_start PAGE_SIZE /\
      abase n' + asize n' = ROUNDDOWN (arena_start + arena_size) PAGE_SIZE /\
      (unaligned_area n' = 0 \/ unaligned_area n' = arena_start)).
Proof.
  intros Ha Hz He Hp Hu. unfold PAGE_SIZE in He.
  destruct (roundup_spec arena_start 12) as [Hs Hsm]; [lia|lia|change (2 ^ 12) with 4096; lia|].
  destruct (rounddown_spec (arena_start + arena_size) 12) as (Hd & Hd0 & Hdm); [lia|lia|].
  change (2 ^ 12) with PAGE_SIZE in *. unfold novm_init_helper. rewrite (u32_small (arena_start + arena_size)) by lia.
  set (start := ROUNDUP arena_start PAGE_SIZE) in *. set (end_ := ROUNDDOWN (arena_start + arena_size) PAGE_SIZE) in *.
  assert (Hsz : exists ms, end_ - start = ms * PAGE_SIZE /\ 0 <= ms).
  { apply multiple in Hsm as (q & Hq). apply multiple in Hdm as (v & Hv). exists (v - q). unfold PAGE_SIZE in *. lia. }
  destruct Hsz as (ms & Hms & Hms0). unfold PAGE_SIZE in *. rewrite (u32_small (end_ - start)) by lia.
  unfold PAGE_SIZE_SHIFT. rewrite Z.shiftr_div_pow2 by lia. rewrite Hms. change (2 ^ 12) with 4096.
  rewrite Z.div_mul by lia.
  destruct ((default_map =? 0) || (default_map_size <? ms)) eqn:Hin.
  - destruct (map_room_run (S (Z.to_nat ms)) arena_start start (ms * 4096) ms) as (st' & sz' & ms' & Hrun & H1 & H2 & H3 & H4 & H5);
      [lia|unfold PAGE_SIZE; lia|lia|lia|lia|].
    unfold PAGE_SIZE in *. rewrite Hrun. eexists. split; [reflexivity|]. split.
    2: { intros Hd1 Hd2. apply orb_true_iff in Hin as [Hin%Z.eqb_eq|Hin%Z.ltb_lt]; [done|]. lia. }
    destruct (roundup_spec ms' 2) as [Hr Hrm]; [lia|lia|change (2 ^ 2) with 4; lia|]. change (2 ^ 2) with 4 in *.
    rewrite (u32_small (arena_start + ROUNDUP ms' 4)) by lia.
    assert (Hst : st' mod 4096 = 0).
    { rewrite H4. apply mod_add_0; [lia|done|]. by apply Z.mod_mul. }
    assert (Hnp : Z.of_nat (length (replicate (Z.to_nat ms') 0)) = ms') by (rewrite length_replicate; lia).
    split; cbn [map abase asize map_addr unaligned_area unaligned_size].
    + split; unfold npages; cbn [map abase asize]; rewrite ?Hnp; unfold PAGE_SIZE; [lia|done|done|lia].
    + by rewrite length_replicate.
    + lia.
    + unfold npages; cbn [map]; rewrite Hnp. right. lia.
    + unfold MINIMUM_USEFUL_UNALIGNED_SIZE, npages. cbn [map]. rewrite Hnp.
      destruct (Z.leb_spec 64 (s32 (st' - (arena_start + ROUNDUP ms' 4)))) as [Hle|Hgt]; cbn [fst snd]; [|by left].
      right. assert (Hpos : 64 <= st' - (arena_start + ROUNDUP ms' 4)).
      { destruct (Z.leb_spec 0 (st' - (arena_start + ROUNDUP ms' 4))) as [Hge|Hneg].
        - unfold s32 in Hle. set (d := st' - (arena_start + ROUNDUP ms' 4)) in *.
          destruct (Z.ltb_spec d (2 ^ 31)); [rewrite Z.mod_small in Hle by lia; lia|].
          pose proof (Z.mod_pos_bound (d + 2 ^ 31) (2 ^ 32)). lia.
        - rewrite s32_small in Hle by lia. lia. }
      rewrite (u32_small (st' - (arena_start + ROUNDUP ms' 4))) by lia. lia.
  - apply orb_false_iff in Hin as [Hd1%Z.eqb_neq Hd2%Z.ltb_ge].
    rewrite (u32_small (start - arena_start)) by lia. eexists. split; [reflexivity|].
    assert (Hnp : Z.of_nat (length (replicate (Z.to_nat ms) 0)) = ms) by (rewrite length_replicate; lia).
    split; [split|]; cbn [map abase asize map_addr unaligned_area unaligned_size].
    + split; unfold npages; cbn [map abase asize]; rewrite ?Hnp; unfold PAGE_SIZE; [lia|done|done|lia].
    + by rewrite length_replicate.
    + lia.
    + by left.
    + unfold MINIMUM_USEFUL_UNALIGNED_SIZE. destruct (Z.leb_spec 64 (start - arena_start)); cbn [fst snd]; [right|by left].
      split_and!; [lia|lia|lia|]. intros Hm Hm'. lia.
    + intros _ _. split_and!; [done|done|lia|].
      destruct (MINIMUM_USEFUL_UNALIGNED_SIZE <=? start - arena_start); cbn [fst]; [by right|by left].
Qed.

(** ** miniheap_init *)

Section init.
Context {P : Type} `{HPL : PagesLaws P} (list_head : Z).
Implicit Types (s : heaps (P:=P)).

(** Memory that the heap may start with. *)
Record first_memory s (ptr len : Z) : Prop := {
  fm_ptr : 0 < ptr;
  fm_len : 16 <= len;
  fm_end : ptr + len <= 2 ^ 32 - 4096;
  fm_aligned : (ptr + len) mod ptr_size = 0;
  fm_free : forall x, within x (ptr, len) -> ~ pool_free (pages s) x /\ x <> list_head - 1;
  fm_whole : whole_in_pool (pages s) (ptr, len)
}.

Lemma miniheap_init_run s ptr len :
  page_wf (pages s) -> ~ pool (pages s) (list_head - 1) -> begins (theheap s) = ∅ -> delayed_free_list s = [] ->
  first_memory s ptr len ->
  exists s', miniheap_init list_head ptr len s = (Ret tt, s') /\ heap_wf list_head s' /\ begins (theheap s') = ∅ /\
    delayed_free_list s' = [] /\ total (free_list (theheap s')) = len - (ROUNDUP ptr ptr_size - ptr).
Proof.
  intros Hpw Hlh Hb Hd [f1 f2 f3 f4 f5 f6]. unfold miniheap_init. erewrite bind_run by reflexivity. cbn beta.
  destruct (roundup_spec ptr 2) as [Hu Hum]; [lia|lia|change (2 ^ 2) with 4; lia|].
  change (2 ^ 2) with ptr_size in *. set (p := ROUNDUP ptr ptr_size) in *. set (n := len - (p - ptr)).
  unfold ptr_size in *.
  set (s0 := with_free [] (remaining (theheap s)) s).
  assert (Hal : (if 0 <? ptr mod ptr_size then
       assert_ (u32 (p - ptr) <? len) ;; ret (p, len - u32 (p - ptr)) else ret (ptr, len) : HM (P:=P) (Z * Z)) s0 =
    (Ret (p, n), s0)).
  { unfold ptr_size. rewrite (u32_small (p - ptr)) by lia. destruct (Z.ltb_spec 0 (ptr mod 4)) as [Hm|Hm].
    - unfold assert_. rewrite (proj2 (Z.ltb_lt (p - ptr) len)) by lia. done.
    - pose proof (Z.mod_pos_bound ptr 4 ltac:(lia)).
      assert (p = ptr) as Hpp by (Z.to_euclidean_division_equations; lia). unfold n. rewrite Hpp. 
      replace (len - (ptr - ptr)) with len by lia. done. }
  erewrite bind_run by exact Hal. cbn [fst snd].
  erewrite bind_run by reflexivity. erewrite bind_run by reflexivity. erewrite bind_run by reflexivity. cbn beta.
  assert (Hn : 12 <= n) by lia. rewrite (proj2 (Z.ltb_lt 0 n)) by lia.
  assert (Hnm : n mod ptr_size = 0) by (unfold n, ptr_size; Z.to_euclidean_division_equations; lia).
  erewrite bind_run by (apply create_chunk_run; [exact Hnm|done]).
  set (s2 := Heaps (Heap_state p n 0 0 [] (begins (theheap s))) (pages s) (delayed_free_list s)).
  assert (Hc : chunk_ok (p, n)) by (split; unfold ptr_size; cbn; unfold sizeof_chunk; lia || done).
  assert (Hin : forall x, within x (p, n) -> within x (ptr, len)) by (unfold within; cbn; lia).
  destruct (insert_run list_head s2 (p, n)) as (r & l' & Hrun & Hm & Hf & Ht & Hat); try done.
  - constructor.
  - by intros f ?%elem_of_nil.
  - apply free_at_nil.
  - intros Hx%Hin%f5. by destruct Hx.
  - erewrite bind_run by exact Hrun. eexists. split; [reflexivity|].
    assert (Hatx : forall x, free_at l' x <-> within x (p, n)).
    { intros x. rewrite Hat. cbn. pose proof (free_at_nil x). tauto. }
    split; [|split; [exact Hb|split; [exact Hd|]]].
    2: { change (total l' = len - (p - ptr)). change (total (free_list (theheap s2))) with 0 in Ht.
         rewrite Ht. cbn [snd]. unfold n. lia. }
    split; cbn [theheap pages delayed_free_list free_list begins remaining with_free s2]; rewrite ?Hb, ?Hd; try done.
    + rewrite Ht. done.
    + intros x [Hx|(q & b & Hq & _)]; [by apply f5, Hin, Hatx|]. cbn in Hq. by rewrite Hb in Hq.
    + intros a Ha Hall x Hx. apply (f6 a Ha); [|done]. intros y Hy. apply Hin, Hatx.
      destruct (Hall y Hy) as [Hy'|(q & b & Hq & _)]; [done|]. cbn in Hq. by rewrite Hb in Hq.
    + split; [constructor|]. by intros q ?%elem_of_nil.
Qed.
End init.

(** ** heap_init on novm *)

(** The heap object before heap_init. *)
Definition heap_zero (v : novm) : heaps (P:=novm) := Heaps (Heap_state 0 0 0 0 [] ∅) v [].

(** [arena[]] before novm_init *)
Definition novm_zero : novm := Novm [Arena 0 [] 0 0 0 0].

(** Memory below an arena, less than a page, holds no whole page. *)
Lemma no_whole_page n x len (v : novm) :
  x + len = n -> n mod PAGE_SIZE = 0 -> len < PAGE_SIZE -> whole_in_pool v (x, len).
Proof.
  intros <- Hn Hl a Ha Hin. exfalso. unfold within, PAGE_SIZE in *; cbn in Hin.
  pose proof (Hin a ltac:(lia)). pose proof (Hin (a + 4095) ltac:(lia)). lia.
Qed.

Lemma heap_init_run list_head (n : novm_arena) :
  novm_wf (Novm [n]) -> map n = replicate (length (map n)) 0 -> 0 < npages n -> ~ in_range n (list_head - 1) ->
  (unaligned_area n = 0 \/ 0 < unaligned_area n /\ MINIMUM_USEFUL_UNALIGNED_SIZE <= unaligned_size n < PAGE_SIZE /\
     unaligned_area n + unaligned_size n = abase n /\ list_head <= unaligned_area n) ->
  exists s', heap_init list_head (heap_zero (Novm [n])) = (Ret tt, s') /\ refines list_head ∅ s'.
Proof.
  intros Hwf Hmap Hnp Hlh Hu.
  assert (Hn : arena_wf n) by (pose proof (nw_arenas _ Hwf) as Hf; cbn in Hf; by apply Forall_cons in Hf as [? _]).
  pose proof Hn as [n1 n2 n3 n4].
  assert (Hpool : forall m x, abase m = abase n -> asize m = asize n -> pool (Novm [m]) x <-> in_range n x).
  { intros m x Hb Hs. cbn. rewrite Exists_cons, Exists_nil. unfold in_range. rewrite Hb, Hs. tauto. }
  assert (Hfin : forall v ptr len, page_first_alloc (Novm [n]) = ((Some ptr, len), v) -> novm_wf v ->
    ~ pool v (list_head - 1) -> first_memory list_head (heap_zero v) ptr len ->
    exists s', heap_init list_head (heap_zero (Novm [n])) = (Ret tt, s') /\ refines list_head ∅ s').
  { intros v ptr len Hp Hv Hl Hfm. unfold heap_init. erewrite bind_run by reflexivity. cbn [pages heap_zero].
    rewrite Hp. erewrite bind_run by reflexivity. cbn [default].
    destruct (miniheap_init_run list_head (heap_zero v) ptr len) as (s' & Hrun & Hw & _ & _); try done.
    exists s'. split; [exact Hrun|]. split; [done|]. intros p m Hpm. by rewrite lookup_empty in Hpm. }
  unfold page_first_alloc, novm_alloc_unaligned in Hfin. cbn [arena] in Hfin.
  destruct Hu as [Hu|(Hu & Hus & Hue & Hul)].
  - rewrite Hu in Hfin. cbn [Z.eqb negb] in Hfin.
    destruct (novm_alloc_pages 1 NOVM_ARENA_ANY (Novm [n])) as [r v] eqn:Hpa. destruct r as [a|].
    + destruct (@page_alloc_some novm _ novm_pages_laws 1 (Novm [n]) a v Hwf ltac:(lia)) as (Hv & _ & Ha0 & Ham & Hae & Hfree & Hpl & Hpf); [exact Hpa|].
      unfold PAGE_SIZE in *. apply (Hfin v a 4096); [done|done|by rewrite Hpl, (Hpool n)|]. rewrite Z.mul_1_l in *.
      assert (Hain : forall x, within x (a, 4096) -> in_range n x).
      { intros x Hx. specialize (Hfree x Hx). apply pool_free_in in Hfree; [|done]. by apply (Hpool n) in Hfree. }
      split; [done|lia| | | |].
      * apply multiple in Ham as (q & ->). unfold PAGE_SIZE in *. lia.
      * apply mod_add_0; [done| |done]. by apply page_aligned_ptr.
      * intros x Hx. cbn [pages heap_zero]. rewrite Hpf. split; [by intros [_ ?]|]. intros ->. by apply Hlh, Hain.
      * intros b Hb Hin x Hx. cbn [pages heap_zero]. apply Hpl, (Hpool n); [done..|]. by apply Hain, Hin.
    + exfalso. unfold novm_alloc_pages in Hpa. cbn in Hpa.
      pose proof (helper_run n 1 Hn ltac:(lia)) as Hr.
      destruct (novm_alloc_helper n 1) as [[a|] n']; [done|]. destruct Hr as [_ Hr].
      apply (Hr ltac:(lia) 0%nat). intros j Hj. rewrite Hmap. apply lookup_replicate_2. unfold npages in Hnp. lia.
  - unfold MINIMUM_USEFUL_UNALIGNED_SIZE, PAGE_SIZE in *. rewrite (proj2 (Z.eqb_neq _ _)) in Hfin by lia. cbn [negb] in Hfin.
    eapply Hfin; [reflexivity| | |].
    + split; [|repeat constructor]. constructor; [by split|constructor].
    + by rewrite Hpool.
    + assert (Hx : forall x, in_range n x -> ~ within x (unaligned_area n, unaligned_size n))
        by (unfold in_range, within; cbn; lia).
      split; [done|lia| | | |].
      * apply multiple in n2 as (q & Hq). unfold PAGE_SIZE in *. unfold npages in *. lia.
      * rewrite Hue. by apply page_aligned_ptr.
      * intros x Hxw. split; [|unfold within in Hxw; cbn in Hxw; lia]. intros Hf.
        cbn in Hf. apply Exists_cons in Hf as [[Hf _]|Hf]; [|by apply Exists_nil in Hf]. by apply (Hx x).
      * apply (no_whole_page (abase n)); [exact Hue|exact n2|unfold PAGE_SIZE; lia].
Qed.
