(* ===== verification/HeapProps.v ===== *)
(** * The heap's properties, on the page allocator it runs on *)

From stdpp Require Import prelude list gmap sorting.
From Stdlib Require Import ZArith Lia.
From S2P Require Import Prelude Miniheap MiniheapInv MiniheapTrim HeapSpec Novm NovmInv HeapInit.

Open Scope Z_scope.
Open Scope lk_scope.

(** ** From boot *)

(** Where the kernel ends in memory; its heap object is in it, and at least two
    pages follow. *)
Record layout (membase memsize end_of_kernel mem_allocation_map list_head : Z) : Prop := {
  ly_base : 0 < membase < end_of_kernel;
  ly_base_page : membase mod PAGE_SIZE = 0;
  ly_size_page : memsize mod PAGE_SIZE = 0;
  ly_end : membase + memsize < 2 ^ 32 - PAGE_SIZE;
  ly_room : end_of_kernel + 2 * PAGE_SIZE <= membase + memsize;
  ly_map : 0 < mem_allocation_map;
  ly_head : list_head <= end_of_kernel
}.

Lemma boot_run membase memsize end_of_kernel mmap list_head :
  layout membase memsize end_of_kernel mmap list_head ->
  exists v s, novm_init membase memsize end_of_kernel mmap novm_zero = Some v /\ novm_wf v /\
    heap_init list_head (heap_zero v) = (Ret tt, s) /\ refines list_head ∅ s.
Proof.
  intros [l1 l2 l3 l4 l5 l6 l7]. unfold PAGE_SIZE in l4, l5. unfold novm_init, novm_zero. cbn [arena].
  rewrite (u32_small (membase + memsize - end_of_kernel)) by lia.
  set (size := membase + memsize - end_of_kernel).
  assert (Hend : end_of_kernel + size = membase + memsize) by lia.
  destruct (roundup_spec end_of_kernel 12) as [Hu Hum]; [lia|lia|change (2 ^ 12) with 4096; lia|].
  destruct (rounddown_spec (membase + memsize) 12) as (Hd & _ & Hdm); [lia|lia|].
  assert (Hdd : ROUNDDOWN (membase + memsize) PAGE_SIZE = membase + memsize).
  { assert (Hmm : (membase + memsize) mod PAGE_SIZE = 0) by by apply mod_add_0.
    unfold PAGE_SIZE in *. change (2 ^ 12) with 4096 in *. Z.to_euclidean_division_equations. lia. }
  change (2 ^ 12) with PAGE_SIZE in *.
  destruct (novm_init_run (Arena 0 [] 0 0 0 0) end_of_kernel size mmap (Z.shiftr memsize PAGE_SIZE_SHIFT))
    as (n & -> & [m1 m2 m3 m4 m5] & Hn); [lia|lia|unfold PAGE_SIZE; lia| |done|].
  { rewrite Hend, Hdd. unfold PAGE_SIZE in *. lia. }
  destruct Hn as (Hma & Hab & Hae & Hua); [lia| |].
  { unfold PAGE_SIZE_SHIFT. rewrite Z.shiftr_div_pow2 by lia. change (2 ^ 12) with PAGE_SIZE.
    apply multiple in l3 as (q & ->). unfold PAGE_SIZE in *. rewrite (Z.mul_comm 4096 q), Z.div_mul by lia. lia. }
  rewrite Hend, Hdd in Hae. pose proof m1 as [n1 n2 n3 n4].
  assert (Hwf : novm_wf (Novm [n])) by (split; repeat constructor; done).
  destruct (heap_init_run list_head n Hwf m2) as (s & Hs & Hr).
  - unfold PAGE_SIZE in *. lia.
  - unfold in_range. lia.
  - destruct m5 as [m5|(m5 & m6 & m7 & _)]; [by left|]. right.
    unfold MINIMUM_USEFUL_UNALIGNED_SIZE in *. destruct Hua as [Hua|Hua]; rewrite Hua in *; [lia|].
    split_and!; lia.
  - by exists (Novm [n]), s.
Qed.

(** What the calls so far may have led to. *)
Inductive history (list_head : Z) (s0 : heaps (P:=novm)) : gmap Z Z -> heaps (P:=novm) -> Prop :=
| history_boot : history list_head s0 ∅ s0
| history_call live s c r live' s' :
    history list_head s0 live s -> allowed live c -> exec list_head c s = (Ret r, s') -> spec_step live c r live' ->
    history list_head s0 live' s'.

Section calls.
Context {P : Type} `{HPL : PagesLaws P} (list_head : Z).
Implicit Types (s : heaps (P:=P)) (live : gmap Z Z).

Lemma pending_then {A} live s (c : HM (P:=P) A) (Q : A -> heaps -> Prop) :
  refines list_head live s ->
  (forall s1, refines list_head live s1 -> delayed_free_list s1 = [] -> exists r s', c s1 = (Ret r, s') /\ Q r s') ->
  exists r s', (pending_frees list_head ;; c) s = (Ret r, s') /\ Q r s'.
Proof.
  intros Hr Hc. destruct (pending_run list_head live s Hr) as (s1 & Hrun & Hr1 & Hd).
  destruct (Hc s1 Hr1 Hd) as (r & s' & Hrun' & HQ). exists r, s'. split; [|done]. by erewrite bind_run.
Qed.

(** The three calls that only allocate. *)
Lemma alloc_call_run live s size al (c : call) :
  refines list_head live s -> small size al ->
  (match c with Malloc _ | Memalign _ _ | Calloc _ _ => True | _ => False end) ->
  (forall p, fresh live p size -> alignment_ok al -> (0 < al -> p mod al = 0) -> spec_step live c (Some p) (<[p := size]> live)) ->
  exists r s', (pending_frees list_head ;; miniheap_alloc list_head size al) s = (Ret r, s') /\
    exists live', spec_step live c r live' /\ refines list_head live' s'.
Proof.
  intros Hr Hs Hc Hstep. apply (pending_then live s); [done|]. intros s1 Hr1 _.
  destruct (refines_alloc list_head live s1 size al Hr1 Hs) as (r & s' & Hrun & Hspec).
  exists r, s'. split; [done|]. destruct r as [p|].
  - destruct Hspec as (Hok & Ha & Hf & Hr' & _). eauto.
  - subst s'. exists live. split; [|done]. constructor. by destruct c.
Qed.

Lemma exec_run live s c :
  refines list_head live s -> allowed live c ->
  exists r s', exec list_head c s = (Ret r, s') /\ exists live', spec_step live c r live' /\ refines list_head live' s'.
Proof.
  intros Hr Ha. destruct c as [n|b n|k n|p n|p|p|]; cbn [exec].
  - apply alloc_call_run; [done|done|done|]. intros. by constructor.
  - apply alloc_call_run; [done|done|done|]. intros. by constructor.
  - unfold calloc. pose proof Ha as (H1 & H2 & H3). rewrite u32_small.
    + apply alloc_call_run; [done|exact Ha|done|]. intros. by constructor.
    + specialize (H3 (or_introl eq_refl)). lia.
  - apply (pending_then live s); [done|]. intros s1 Hr1 _.
    destruct (realloc_run list_head live s1 p n Hr1 Ha) as (r & s' & live' & Hrun & H1 & H2).
    exists r, s'. split; [done|]. by exists live'.
  - unfold free. destruct (decide (p = 0)) as [->|Hp].
    + eexists None, s. split; [done|]. exists (delete 0 live). split; [constructor|].
      eapply refines_sub; [|done]. apply delete_subseteq.
    + destruct (refines_free list_head live s p Hr (Ha Hp)) as (s' & Hrun & Hr' & _).
      exists None, s'. split; [by erewrite bind_run|]. eexists. split; [constructor|done].
  - destruct Ha as (m & Hm & Hm8). destruct (rf_live _ _ _ Hr p m Hm) as (_ & Hd & b & Hb & Hle).
    exists None, (Heaps (theheap s) (pages s) (p :: delayed_free_list s)). split.
    + erewrite bind_run; [reflexivity|]. unfold heap_delayed_free. erewrite bind_run by reflexivity.
      erewrite bind_deref by exact Hb. by rewrite (proj2 (Z.leb_le _ _)) by lia.
    + exists (delete p live). split; [constructor|]. split.
      * destruct (hw_delayed _ s (rf_wf _ _ _ Hr)) as [Hnd Hall].
        apply delayed_wf; [apply (rf_wf _ _ _ Hr)|by constructor|].
        intros q [->|Hq]%elem_of_cons; [by exists b|by apply Hall].
      * intros q n [Hne Hq]%lookup_delete_Some. destruct (rf_live _ _ _ Hr q n Hq) as (Hn & Hqd & Hqb).
        split; [done|]. split; [|done]. cbn. by apply not_elem_of_cons.
  - destruct (pending_run list_head live s Hr) as (s1 & Hrun & [Hwf1 Hl1] & Hd1).
    destruct (miniheap_trim_run list_head s1 Hwf1) as (l' & p' & Hrun' & _ & Hwf').
    eexists None, _. split.
    + erewrite bind_run; [reflexivity|]. unfold heap_trim. erewrite bind_run by exact Hrun. exact Hrun'.
    + exists live. split; [apply spec_trim|]. split; [done|]. exact Hl1.
Qed.

Lemma spec_step_det live c r live1 live2 : spec_step live c r live1 -> spec_step live c r live2 -> live1 = live2.
Proof. destruct 1; inversion 1; subst; try done; naive_solver. Qed.
End calls.

Lemma history_refines list_head s0 live s :
  refines list_head ∅ s0 -> history list_head s0 live s -> refines list_head live s.
Proof.
  intros H0. induction 1 as [|live s c r live' s' Hh IH Ha Hx Hstep]; [done|].
  destruct (exec_run list_head live s c IH Ha) as (r1 & s1 & Hx1 & live1 & Hst1 & Hr1).
  rewrite Hx in Hx1. injection Hx1 as <- <-. by rewrite (spec_step_det _ _ _ _ _ Hstep Hst1).
Qed.

Lemma alloc_from_refused i pages bm (l l' : list novm_arena) j n :
  alloc_pages_from i pages bm l = (None, l') -> l !! j = Some n -> Z.testbit bm (i + Z.of_nat j) = true ->
  fst (novm_alloc_helper n pages) = None.
Proof.
  revert i j l'. induction l as [|m l IH]; intros i j l'; cbn [alloc_pages_from]; [done|].
  destruct (alloc_pages_from (i + 1) pages bm l) as [r l''] eqn:Hrest.
  destruct j as [|j]; cbn [lookup list_lookup].
  - intros Ha [= ->] Hb. rewrite Z.add_0_r in Hb. rewrite Hb in Ha.
    by destruct (novm_alloc_helper n pages) as [[a|] n'].
  - intros Ha Hj Hb. apply (IH (i + 1) j l'').
    + rewrite Hrest. f_equal. destruct (Z.testbit bm i); [destruct (novm_alloc_helper m pages) as [[a|] m']; [done|]|];
        by injection Ha.
    + done.
    + by replace (i + 1 + Z.of_nat j) with (i + Z.of_nat (S j)) by lia.
Qed.

(** ** Properties *)

(** C7: every allowed call of heap_wrapper.c on a well-formed heap, over any page
    allocator that keeps its laws, returns and does what the abstract heap allows:
    blocks are fresh, apart, word-aligned and aligned as asked, NULL leaves the
    live blocks alone, and delayed frees are done before the next allocation.  Allowed
    ([HeapSpec.allowed]) are sizes that with the alignment stay 8192 below 2^31, a
    realloc that does not ask for more than the block has, a free or realloc of NULL or
    of a live block, and a delayed free of a live block of at least 8 bytes. *)
Theorem heap_refines {P : Type} `{HPL : PagesLaws P} (list_head : Z) (live : gmap Z Z) (s : heaps (P:=P)) (c : call) :
  refines list_head live s -> allowed live c ->
  exists r s', exec list_head c s = (Ret r, s') /\
    exists live', spec_step live c r live' /\ refines list_head live' s'.
Proof. apply exec_run. Qed.

(** C8: on every memory layout in which two pages follow the kernel, novm_init and
    heap_init return, and behind them no sequence of allowed calls runs into a
    failed assertion, an access outside a block or an endless loop. *)
Theorem heap_from_boot membase memsize end_of_kernel mmap list_head :
  layout membase memsize end_of_kernel mmap list_head ->
  exists v s0, novm_init membase memsize end_of_kernel mmap novm_zero = Some v /\
    heap_init list_head (heap_zero v) = (Ret tt, s0) /\
    forall live s c, history list_head s0 live s -> allowed live c ->
      exists r s', exec list_head c s = (Ret r, s') /\ exists live', history list_head s0 live' s'.
Proof.
  intros Hl. destruct (boot_run _ _ _ _ _ Hl) as (v & s0 & Hv & _ & Hs & Hr). exists v, s0. split_and!; [done..|].
  intros live s c Hh Ha. pose proof (history_refines _ _ _ _ Hr Hh) as Hrs.
  destruct (exec_run list_head live s c Hrs Ha) as (r & s' & Hx & live' & Hst & _).
  exists r, s'. split; [done|]. exists live'. by eapply history_call.
Qed.

(** C11: freeing what was just allocated from the free list gives back the very
    same free list: the split chunk is merged again on both sides. *)
Theorem heap_alloc_free {P : Type} `{HPL : PagesLaws P} (list_head : Z) (s : heaps (P:=P)) size al c p s1 :
  heap_wf list_head s -> small size al -> c ∈ free_list (theheap s) -> needed size al <= snd c ->
  miniheap_alloc list_head size al s = (Ret (Some p), s1) ->
  exists s2, miniheap_free list_head p s1 = (Ret tt, s2) /\ heap_wf list_head s2 /\ pages s2 = pages s /\
    free_list (theheap s2) = free_list (theheap s) /\ begins (theheap s2) = begins (theheap s) /\
    remaining (theheap s2) = remaining (theheap s).
Proof.
  intros Hwf (Hsz & Hal & Hb) Hc Hfit Hrun.
  destruct (miniheap_alloc_run list_head s size al Hwf Hsz Hal Hb) as (r & s1' & Hrun' & Hspec).
  rewrite Hrun in Hrun'. injection Hrun' as <- <-. destruct Hspec as (_ & Ha & Hsame).
  destruct (Hsame c Hc Hfit) as [Hpg Hown]. pose proof Ha as [Hwf1 Hd Hf _ _ (b & Hbs & _)].
  pose proof (allocated_memory list_head s size al p s1 b Hwf Ha Hbs Hown) as Hmem.
  destruct (free_run list_head s1 p b Hwf1) as (s2 & Hfree & Hwf2 & Hbs2 & _ & Hpg2 & Hat2).
  { by rewrite Hbs, lookup_insert_eq. }
  { rewrite Hd. intros Hin. apply (hw_delayed _ s Hwf) in Hin as [x Hx]. congruence. }
  assert (Hfl : free_list (theheap s2) = free_list (theheap s)).
  { apply merged_unique; [apply (hw_merged _ s2 Hwf2)|apply (hw_merged _ s Hwf)|apply (hw_free _ s2 Hwf2)|apply (hw_free _ s Hwf)|].
    intros x. by rewrite Hat2, <- Hmem. }
  exists s2. split_and!; [done|done|congruence|done| |].
  - by rewrite Hbs2, Hbs, delete_insert_id.
  - by rewrite (hw_remaining _ s2 Hwf2), (hw_remaining _ s Hwf), Hfl.
Qed.

(** malloc of a power-of-two alignment returns NULL only when no free chunk
    holds the request and no arena has a run of free pages for it; nothing has
    changed then. *)
Theorem heap_null_means_full list_head (s : heaps (P:=novm)) size al s' :
  heap_wf list_head s -> small size al -> alignment_ok al -> (length (arena (pages s)) <= 32)%nat ->
  miniheap_alloc list_head size al s = (Ret None, s') ->
  s' = s /\ (forall c, c ∈ free_list (theheap s) -> snd c < needed size al) /\
  forall n i, n ∈ arena (pages s) -> ~ run_free (map n) (Z.to_nat (ROUNDUP (needed size al) PAGE_SIZE / PAGE_SIZE)) i.
Proof.
  intros Hwf (Hsz & Hal & Hb) Hok Hlen Hrun.
  destruct (miniheap_alloc_run list_head s size al Hwf Hsz Hal Hb) as (r & s1 & Hrun' & Hspec).
  rewrite Hrun in Hrun'. injection Hrun' as <- <-. destruct Hspec as [-> Hspec].
  destruct (Hspec Hok) as [Hsmall Hpa]. split_and!; [done|done|].
  intros n i [j Hj]%list_elem_of_lookup.
  assert (Hn : arena_wf n).
  { apply (proj1 (Forall_forall _ _) (nw_arenas _ (hw_pages _ s Hwf))). by eapply list_elem_of_lookup_2. }
  set (k := ROUNDUP (needed size al) PAGE_SIZE / PAGE_SIZE) in *.
  assert (Hk : 0 < k).
  { unfold k. destruct (needed_spec size al Hsz Hok) as [Hn1 _]; [by specialize (Hb Hok); lia|].
    unfold needed, sizeof_begin in *. specialize (Hb Hok).
    set (m := ROUNDUP (size + 12) ptr_size + _).
    assert (Hm : 12 <= m < 2 ^ 31) by (unfold m; destruct (Z.ltb_spec 0 al); lia).
    destruct (roundup_spec m 12) as [Hr _]; [lia|lia|change (2 ^ 12) with 4096; lia|].
    change (2 ^ 12) with PAGE_SIZE in Hr. destruct (roundup_spec m 12) as [_ Hrm]; [lia|lia|change (2 ^ 12) with 4096; lia|].
    change (2 ^ 12) with PAGE_SIZE in Hrm. apply multiple in Hrm as (q & Hq). rewrite Hq in *.
    rewrite Z.mul_comm, Z.div_mul by done. unfold PAGE_SIZE in *. lia. }
  assert (Hh : fst (novm_alloc_helper n k) = None).
  { cbn in Hpa. unfold page_alloc_novm, novm_alloc_pages in Hpa.
    destruct (alloc_pages_from 0 k (u32 (-1)) (arena (pages s))) as [r l'] eqn:Haf. cbn in Hpa. subst r.
    eapply alloc_from_refused; [exact Haf|exact Hj|]. cbn [Z.add]. apply lookup_lt_Some in Hj.
    change (u32 (-1)) with (Z.ones 32). apply Z.ones_spec_low. lia. }
  pose proof (helper_run n k Hn ltac:(lia)) as Hrun'. destruct (novm_alloc_helper n k) as [[a|] n']; [done|].
  destruct Hrun' as [_ Hno]. by apply Hno.
Qed.

(** novm_alloc_helper takes the first run of free pages there is, marks
    exactly its entries, and fails only when there is none: going on behind the
    page in use skips no run. *)
Theorem novm_first_fit n pages :
  arena_wf n -> 0 < pages ->
  match novm_alloc_helper n pages with
  | (Some a, n') => exists i, a = abase n + Z.of_nat i * PAGE_SIZE /\ run_free (map n) (Z.to_nat pages) i /\
      (forall q, (q < i)%nat -> ~ run_free (map n) (Z.to_nat pages) q) /\
      arena_wf n' /\ forall x, free_in n' x <-> free_in n x /\ ~ within x (a, pages * PAGE_SIZE)
  | (None, n') => n' = n /\ forall q, ~ run_free (map n) (Z.to_nat pages) q
  end.
Proof.
  intros Hn Hp. pose proof (helper_run n pages Hn ltac:(lia)) as Hr.
  destruct (novm_alloc_helper n pages) as [[a|] n']; [|destruct Hr as [-> Hr]; split; [done|auto]].
  destruct Hr as (i & k & -> & Hk & Hik & Hrun & Hfst & -> & ->). rewrite Nat2Z.id. exists i.
  split_and!; [done..|by apply splice_map_wf|]. intros x. rewrite splice_map_free by done.
  case_decide as Hw; [split; [by intros [_ ?]|tauto]|]. unfold free_in. tauto.
Qed.

(** a request within 12 bytes of [2 ^ 32] wraps around when the structure's
    size is added and is granted: malloc returns a block that ends before the
    bytes asked for. *)
Theorem heap_size_wraps {P : Type} `{HPL : PagesLaws P} (list_head : Z) (s : heaps (P:=P)) size :
  heap_wf list_head s -> free_list (theheap s) <> [] -> 2 ^ 32 - sizeof_begin <= size < 2 ^ 32 ->
  exists p s', miniheap_alloc list_head size 0 s = (Ret (Some p), s') /\
    exists b, begins (theheap s') !! p = Some b /\ fst b + snd b < p + size.
Proof.
  intros Hwf Hne Hs. unfold sizeof_begin in Hs. unfold miniheap_alloc.
  replace (u32 (size + sizeof_begin)) with (size + 12 - 2 ^ 32)
    by (unfold u32, sizeof_begin; apply (Z.mod_unique _ _ 1); lia).
  change (negb (Z.land 0 (u32 (0 - 1)) =? 0)) with false. change (0 <? 0) with false. cbv iota zeta.
  rewrite (proj2 (Z.ltb_lt _ sizeof_chunk)) by (unfold sizeof_chunk; lia).
  change (ROUNDUP sizeof_chunk ptr_size) with 12.
  destruct (alloc_list_run list_head s 12 0 Hwf) as (r & s' & Hrun & Hspec);
    [unfold sizeof_begin; lia|done|by left|unfold sizeof_begin; lia|].
  destruct r as [p|].
  - exists p, s'. split; [by erewrite bind_run by exact Hrun|].
    destruct Hspec as (Hwf' & _ & _ & _ & _ & _ & b & Hb & _). exists b. rewrite Hb, lookup_insert_eq. split; [done|].
    destruct (hw_begins _ s' Hwf' p b) as [[] Hp]; [by rewrite Hb, lookup_insert_eq|]. unfold sizeof_begin in *. lia.
  - exfalso. destruct Hspec as [_ Hsm]. destruct (free_list (theheap s)) as [|c l] eqn:Hfl; [done|].
    specialize (Hsm c ltac:(left)).
    pose proof (proj1 (Forall_forall _ _) (hw_free _ s Hwf) c) as Hc. rewrite Hfl in Hc. destruct (Hc ltac:(left)).
    unfold sizeof_chunk in *. lia.
Qed.

(** realloc copies as many bytes as are asked for: growing a block beyond
    its end never succeeds without reading behind it. *)
Theorem heap_realloc_overreads {P : Type} `{HPL : PagesLaws P} (list_head : Z) live (s : heaps (P:=P)) p b n :
  refines list_head live s -> is_Some (live !! p) -> begins (theheap s) !! p = Some b ->
  small n 0 -> fst b + snd b < p + n ->
  miniheap_realloc list_head p n s = (Ret None, s) \/ exists s', miniheap_realloc list_head p n s = (Fault, s').
Proof.
  intros Hr [m Hm] Hb Hn Hgt. destruct (hw_begins _ s (rf_wf _ _ _ Hr) p b Hb) as [[] Hp].
  unfold miniheap_realloc, sizeof_begin in *.
  rewrite (proj2 (Z.eqb_neq p 0)), (proj2 (Z.eqb_neq n 0)) by lia.
  destruct Hn as (Hn0 & Hal & Hbd).
  destruct (miniheap_alloc_run list_head s n 0 (rf_wf _ _ _ Hr) Hn0 Hal Hbd) as (r & s1 & Hrun & Hspec).
  erewrite bind_run by exact Hrun. destruct r as [q|]; [right|left; by destruct Hspec as [-> _]].
  destruct Hspec as (_ & [_ _ Hf _ _ (c & Hc & _)] & _).
  assert (Hb1 : begins (theheap s1) !! p = Some b) by (rewrite Hc, lookup_insert_ne; congruence).
  exists s1. erewrite bind_run by reflexivity. erewrite bind_deref by exact Hb1.
  by rewrite (proj2 (Z.leb_gt _ _)) by lia.
Qed.

(** ** A small machine: 16 pages, the kernel in the first two *)

Module Machine.
Definition membase : Z := 2281701376.
Definition memsize : Z := 65536.
Definition end_of_kernel : Z := membase + 4352.
Definition mmap : Z := membase + 4096.
Definition head : Z := membase + 2048.
Definition v0 : novm := default novm_zero (novm_init membase memsize end_of_kernel mmap novm_zero).
Definition s0 : heaps (P:=novm) := snd (heap_init head (heap_zero v0)).
Definition p1 : Z := end_of_kernel + 12.
Definition s1 : heaps (P:=novm) := snd (miniheap_alloc head 100 0 s0).

Lemma machine_layout : layout membase memsize end_of_kernel mmap head.
Proof. split; unfold membase, memsize, end_of_kernel, mmap, head, membase, PAGE_SIZE; lia || done. Qed.

Lemma s0_refines : refines head ∅ s0.
Proof.
  destruct (boot_run _ _ _ _ _ machine_layout) as (v & s & Hv & _ & Hs & Hr).
  assert (Hv0 : v0 = v) by (unfold v0; by rewrite Hv). unfold s0. rewrite Hv0. by rewrite Hs.
Qed.

Lemma small_0 n : 0 <= n -> n + 8192 <= 2 ^ 31 -> small n 0.
Proof. intros. split_and!; [done|done|done|]. intros _. lia. Qed.

Lemma alloc_s1 : miniheap_alloc head 100 0 s0 = (Ret (Some p1), s1).
Proof. vm_compute. reflexivity. Qed.

Lemma s1_refines : refines head (<[p1 := 100]> ∅) s1.
Proof.
  destruct (refines_alloc head ∅ s0 100 0 s0_refines) as (r & s' & Hrun & Hspec); [by apply small_0|].
  rewrite alloc_s1 in Hrun. injection Hrun as <- <-. by destruct Hspec as (_ & _ & _ & Hr & _).
Qed.

Definition pages6 : novm_arena := Arena mmap [1; 0; 1; 0; 0; 0] (membase + 8192) 24576 0 0.

Lemma pages6_wf : arena_wf pages6.
Proof. split; done. Qed.

Lemma heap_refines_witness :
  (refines head ∅ s0 /\ allowed ∅ (Malloc 100)) /\
  exists r s', exec head (Malloc 100) s0 = (Ret r, s') /\
    exists live', spec_step ∅ (Malloc 100) r live' /\ refines head live' s'.
Proof.
  assert (Ha : allowed ∅ (Malloc 100)) by by apply small_0.
  split; [split; [exact s0_refines|exact Ha]|]. exact (heap_refines head ∅ s0 (Malloc 100) s0_refines Ha).
Defined.

Lemma heap_from_boot_witness :
  layout membase memsize end_of_kernel mmap head /\
  exists v s, novm_init membase memsize end_of_kernel mmap novm_zero = Some v /\
    heap_init head (heap_zero v) = (Ret tt, s) /\
    forall live s' c, history head s live s' -> allowed live c ->
      exists r s'', exec head c s' = (Ret r, s'') /\ exists live', history head s live' s''.
Proof. split; [exact machine_layout|]. exact (heap_from_boot _ _ _ _ _ machine_layout). Defined.

Lemma heap_alloc_free_witness :
  miniheap_alloc head 100 0 s0 = (Ret (Some p1), s1) /\ p1 <> 0 /\
  exists s2, miniheap_free head p1 s1 = (Ret tt, s2) /\ heap_wf head s2 /\ pages s2 = pages s0 /\
    free_list (theheap s2) = free_list (theheap s0) /\ begins (theheap s2) = begins (theheap s0) /\
    remaining (theheap s2) = remaining (theheap s0).
Proof.
  split; [exact alloc_s1|]. split; [done|].
  refine (heap_alloc_free head s0 100 0 (end_of_kernel, 3840) p1 s1 (rf_wf _ _ _ s0_refines) _ _ _ alloc_s1).
  - by apply small_0.
  - apply list_elem_of_here.
  - vm_compute. discriminate.
Defined.

Lemma heap_null_means_full_witness :
  miniheap_alloc head (2 ^ 20) 0 s0 = (Ret None, s0) /\
  (forall c, c ∈ free_list (theheap s0) -> snd c < needed (2 ^ 20) 0) /\
  forall n i, n ∈ arena (pages s0) -> ~ run_free (map n) (Z.to_nat (ROUNDUP (needed (2 ^ 20) 0) PAGE_SIZE / PAGE_SIZE)) i.
Proof.
  assert (Ha : miniheap_alloc head (2 ^ 20) 0 s0 = (Ret None, s0)) by (vm_compute; reflexivity).
  split; [exact Ha|].
  apply (heap_null_means_full head s0 (2 ^ 20) 0 s0 (rf_wf _ _ _ s0_refines)); [by apply small_0|by left| |exact Ha].
  vm_compute. lia.
Defined.

Lemma novm_first_fit_witness :
  novm_alloc_helper pages6 2 = (Some (membase + 20480), set_map [1; 0; 1; 1; 1; 0] pages6) /\
  match novm_alloc_helper pages6 2 with
  | (Some a, n') => exists i, a = abase pages6 + Z.of_nat i * PAGE_SIZE /\ run_free (map pages6) (Z.to_nat 2) i /\
      (forall q, (q < i)%nat -> ~ run_free (map pages6) (Z.to_nat 2) q) /\
      arena_wf n' /\ forall x, free_in n' x <-> free_in pages6 x /\ ~ within x (a, 2 * PAGE_SIZE)
  | (None, n') => n' = pages6 /\ forall q, ~ run_free (map pages6) (Z.to_nat 2) q
  end.
Proof. split; [vm_compute; reflexivity|]. exact (novm_first_fit pages6 2 pages6_wf eq_refl). Defined.

Lemma heap_size_wraps_witness :
  heap_wf head s0 /\
  exists p s', miniheap_alloc head (2 ^ 32 - 1) 0 s0 = (Ret (Some p), s') /\
    exists b, begins (theheap s') !! p = Some b /\ fst b + snd b < p + (2 ^ 32 - 1).
Proof.
  split; [exact (rf_wf _ _ _ s0_refines)|].
  apply (heap_size_wraps head s0 (2 ^ 32 - 1) (rf_wf _ _ _ s0_refines)); [vm_compute; discriminate|].
  unfold sizeof_begin. lia.
Defined.

Lemma heap_realloc_overreads_witness :
  refines head (<[p1 := 100]> ∅) s1 /\
  (miniheap_realloc head p1 200 s1 = (Ret None, s1) \/ exists s', miniheap_realloc head p1 200 s1 = (Fault, s')).
Proof.
  split; [exact s1_refines|].
  apply (heap_realloc_overreads head (<[p1 := 100]> ∅) s1 p1 (end_of_kernel, 112) 200 s1_refines).
  - exists 100. vm_compute. reflexivity.
  - vm_compute. reflexivity.
  - by apply small_0.
  - vm_compute. reflexivity.
Defined.
End Machine.
