(* ===== verification/Printf.v ===== *)
(** * lib/libc/printf.c: the formatting engine and the printing into a buffer

    A format string is the object it lies in, a va_list the sequence of the
    arguments that are left; taking one of another kind than the one passed is
    undefined in C and faults here.  A double is its 64 bits; its arithmetic is the
    Standard Library's IEEE 754 specification.  char is passed as an unsigned byte. *)

From stdpp Require Import prelude list strings.
From Stdlib Require Import ZArith Lia Ascii.
From Stdlib Require Import SpecFloat.
From S2P Require Import Prelude CMem CString.

Open Scope Z_scope.
Open Scope lk_scope.

Definition asc (a : Ascii.ascii) : Z := Z.of_N (N_of_ascii a).
Arguments asc a%_char_scope.

Definition u64 (z : Z) : Z := z mod 2 ^ 64.
Definition s16 (z : Z) : Z := (z + 2 ^ 15) mod 2 ^ 16 - 2 ^ 15.
Definition s64 (z : Z) : Z := (z + 2 ^ 63) mod 2 ^ 64 - 2 ^ 63.
Definition INT_MAX : Z := 2 ^ 31 - 1.

Definition LONGFLAG : Z := 1.
Definition LONGLONGFLAG : Z := 2.
Definition HALFFLAG : Z := 4.
Definition HALFHALFFLAG : Z := 8.
Definition SIZETFLAG : Z := 16.
Definition INTMAXFLAG : Z := 32.
Definition PTRDIFFFLAG : Z := 64.
Definition ALTFLAG : Z := 128.
Definition CAPSFLAG : Z := 256.
Definition SHOWSIGNFLAG : Z := 512.
Definition SIGNEDFLAG : Z := 1024.
Definition LEFTFORMATFLAG : Z := 2048.
Definition LEADZEROFLAG : Z := 4096.
Definition BLANKPOSFLAG : Z := 8192.

(** [flags & f] *)
Definition has (flags f : Z) : bool := negb (Z.land flags f =? 0).

(** ** Numbers as text *)

(** Writing into [buf] at [pos]; the error is a [goto done]. *)
Definition NB (A : Type) : Type := M (nat * list Z) unit A.

Definition get_pos : NB nat := gets fst.
Definition set_pos (p : nat) : NB unit := modify (fun s => (p, snd s)).

(** [buf[i] = c] *)
Definition wr (i : nat) (c : Z) : NB unit :=
  let* s := get in
  match store i c (snd s) with Some b => put (fst s, b) | None => fault end.

(** [buf[--pos] = c]: below the buffer's start it faults. *)
Definition rev_char (c : Z) : NB unit :=
  let* p := get_pos in
  match p with O => fault | S p' => set_pos p' ;; wr p' c end.

(** The loop that takes the decimal digits from the right: a digit a turn, so the
    buffer bounds it. *)
Fixpoint decimal_loop (pos : nat) (n : Z) : NB unit :=
  match pos with
  | O => fault
  | S pos' =>
      if n <? 10 then rev_char (n + asc "0")
      else rev_char (n mod 10 + asc "0") ;; decimal_loop pos' (n / 10)
  end.

(** The sign character is returned. *)
Definition longlong_to_string (n : Z) (len : nat) (flag : Z) : NB Z :=
  let negative := has flag SIGNEDFLAG && (s64 n <? 0) in
  let n := if negative then u64 (- n) else n in
  set_pos len ;;
  rev_char 0 ;;
  let* pos := get_pos in
  decimal_loop pos n ;;
  ret (if negative then asc "-"
       else if has flag SHOWSIGNFLAG then asc "+"
       else if has flag BLANKPOSFLAG then asc " "
       else 0).

(** hextable and hextable_caps at [d]. *)
Definition hextable (caps : bool) (d : Z) : Z :=
  if d <? 10 then d + asc "0" else if caps then d - 10 + asc "A" else d - 10 + asc "a".

Fixpoint hex_loop (caps : bool) (pos : nat) (u : Z) : NB unit :=
  match pos with
  | O => fault
  | S pos' =>
      rev_char (hextable caps (u mod 16)) ;;
      if u / 16 =? 0 then ret tt else hex_loop caps pos' (u / 16)
  end.

Definition longlong_to_hexstring (u : Z) (len : nat) (flag : Z) : NB unit :=
  set_pos len ;;
  rev_char 0 ;;
  let* pos := get_pos in
  hex_loop (has flag CAPSFLAG) pos u.

(** OUT and OUTSTR *)
Definition OUT (c : Z) : NB unit :=
  let* p := get_pos in wr p c ;; set_pos (S p).
Definition OUTSTR (l : list Z) : NB unit := for_each l OUT.

(** The characters of a string literal. *)
Fixpoint chars (s : String.string) : list Z :=
  match s with String.EmptyString => [] | String.String a s' => asc a :: chars s' end.
Arguments chars s%_string_scope.

(** The digits of [exponent] backwards to [from]. *)
Fixpoint exponent_loop (i : nat) (exponent : Z) : NB unit :=
  match i with
  | O => fault
  | S i' =>
      wr i' (exponent mod 10 + asc "0") ;;
      if exponent / 10 =? 0 then ret tt else exponent_loop i' (exponent / 10)
  end.

(** [buf] is &buf[pos] of the caller: [pos] is the position behind what is
    printed. *)
Definition exponent_to_string (exponent : Z) : NB unit :=
  (if exponent <? 0 then OUT (asc "-") else OUT (asc "+")) ;;
  let exponent := if exponent <? 0 then - exponent else exponent in
  let* p := get_pos in
  let pos := (p + (if (1000 <=? exponent)%Z then 4 else if (100 <=? exponent)%Z then 3 else if (10 <=? exponent)%Z then 2 else 1))%nat in
  set_pos pos ;;
  exponent_loop pos exponent.

(** The fields of a double. *)
Definition exponent_of (i : Z) : Z := Z.land (Z.shiftr i 52) 2047.
Definition fraction_of (i : Z) : Z := Z.land i (Z.shiftl 1 52 - 1).
Definition negative_of (i : Z) : bool := Z.testbit i 63.

(** |d| of a normalised double, conversions from and to integers. *)
Definition double_abs (i : Z) : spec_float :=
  S754_finite false (Z.to_pos (Z.lor (fraction_of i) (Z.shiftl 1 52))) (exponent_of i - 1075).
Definition double_of (z : Z) : spec_float := binary_normalize 53 1024 z 0 false.
Definition double_half : spec_float := binary_normalize 53 1024 1 (-1) false.
Definition double_trunc (d : spec_float) : Z :=
  match d with
  | S754_finite s m e => let a := Z.shiftl (Zpos m) e in if s then - a else a
  | _ => 0
  end.

(** [((d - u) * 1000000) + .5] as an unsigned int *)
Definition frac_of (d : spec_float) (u : Z) : Z :=
  u32 (double_trunc (SFadd 53 1024 (SFmul 53 1024 (SFsub 53 1024 d (double_of u)) (double_of 1000000)) double_half)).

(** OUTREV *)
Definition OUTREV (c : Z) : NB unit :=
  let* p := get_pos in
  match p with O => fail tt | S p' => set_pos p' ;; wr p' c end.

(** The decimal digits of [frac] backwards from [i]. *)
Fixpoint frac_loop (i : nat) (frac : Z) : NB unit :=
  if frac =? 0 then ret tt
  else match i with O => fault | S i' => wr i' (frac mod 10 + asc "0") ;; frac_loop i' (frac / 10) end.

Definition special (capital small : String.string) (flag : Z) : NB unit :=
  if has flag CAPSFLAG then OUTSTR (chars capital) else OUTSTR (chars small).
Arguments special (capital small)%_string_scope flag.

(** The printing backwards of a double within reach; [goto done] ends it. *)
Definition double_digits (len : nat) (d : spec_float) (exponent_signed fraction flag : Z) (neg : bool) : NB unit :=
  set_pos len ;;
  OUTREV 0 ;;
  for_each (seq 0 7) (fun _ => OUTREV (asc "0")) ;;
  let* decimal_spot := get_pos in
  let* u :=
    (if 0 <=? exponent_signed then
       let u := Z.shiftr (Z.lor fraction (Z.shiftl 1 52)) (52 - exponent_signed) in
       longlong_to_string u (decimal_spot + 1) flag ;; ret u
     else OUTREV (asc "0") ;; ret 0) in
  wr decimal_spot (asc ".") ;;
  frac_loop (decimal_spot + 6 + 1) (frac_of d u) ;;
  if neg then OUTREV (asc "-") else ret tt.

Definition catch_done (c : NB unit) : NB unit :=
  fun s => match c s with (Err _, s') => (Ret tt, s') | r => r end.

(** The position of the text is the result. *)
Definition double_to_string (len : nat) (i flag : Z) : NB nat :=
  set_pos 0 ;;
  let exponent := exponent_of i in
  let fraction := fraction_of i in
  let neg := negative_of i in
  (if neg then OUT (asc "-") else ret tt) ;;
  let finish := (let* p := get_pos in wr p 0 ;; ret O) in
  if exponent =? 2047 then
    (if fraction =? 0 then special "INF" "inf" flag else special "NAN" "nan" flag) ;; finish
  else if exponent =? 0 then
    (if fraction =? 0 then OUTSTR (chars "0.000000") else special "DEN" "den" flag) ;; finish
  else
    let exponent_signed := exponent - 1023 in
    if (exponent_signed <? -52) || (52 <? exponent_signed) then OUTSTR (chars "<range>") ;; finish
    else catch_done (double_digits len (double_abs i) exponent_signed fraction flag neg) ;; get_pos.

(** The hexadecimal digits of the fraction: [i] counts the digits left,
    [zero_count] zeroes are held back. *)
Fixpoint hex_fraction (i : nat) (fraction : Z) (caps : bool) (zero_count : nat) (output_dot : bool) : NB unit :=
  match i with
  | O => ret tt
  | S i' =>
      let digit := Z.land (Z.shiftr fraction (4 * Z.of_nat i')) 15 in
      if digit =? 0 then hex_fraction i' fraction caps (S zero_count) output_dot
      else
        (if output_dot then ret tt else OUT (asc ".")) ;;
        for_each (seq 0 zero_count) (fun _ => OUT (asc "0")) ;;
        OUT (hextable caps digit) ;;
        hex_fraction i' fraction caps 0 true
  end.

Definition double_to_hexstring (i flag : Z) : NB unit :=
  set_pos 0 ;;
  let exponent := exponent_of i in
  let fraction := fraction_of i in
  (if negative_of i then OUT (asc "-") else ret tt) ;;
  (if exponent =? 2047 then
     if fraction =? 0 then special "INF" "inf" flag else special "NAN" "nan" flag
   else if exponent =? 0 then
     if fraction =? 0 then special "0X0P+0" "0x0p+0" flag else special "DEN" "den" flag
   else
     special "0X1" "0x1" flag ;;
     hex_fraction 13 fraction (has flag CAPSFLAG) 0 false ;;
     special "P" "p" flag ;;
     exponent_to_string (exponent - 1023)) ;;
  let* p := get_pos in
  wr p 0.

(** ** The engine *)

(** The arguments: 32 and 64 bits wide integers, strings (NULL is [None]), doubles,
    and the pointers that %n stores through. *)
Inductive arg :=
| A32 (z : Z)
| A64 (z : Z)
| AStr (s : option (list Z))
| ADouble (bits : Z)
| AOut (p : nat).

(** num_buffer: sizeof, and its first contents, which nothing reads. *)
Definition num_buffer_size : nat := 32.
Definition num_buffer : list Z := replicate num_buffer_size 0.

(** The text in the buffer behind a conversion: its position, up to NUL. *)
Definition buffer_text (b : list Z) (pos : nat) : option (list Z) :=
  n ← strlen (drop pos b); Some (take n (drop pos b)).

Section engine.
Context {St : Type}.

(** [out] returns the characters it took or an error below 0; what %n stored is
    kept beside its state: pointer, bytes, value. *)
Context (out : list Z -> M St Z Z).

Definition stores : Type := list (nat * Z * Z).
Definition EM (A : Type) : Type := M (St * stores) Z A.

(** OUTPUT_STRING: the error leaves the engine. *)
Definition OUTPUT_STRING (str : list Z) : EM Z :=
  fun s =>
    let r := out str (fst s) in
    match fst r with
    | Ret err => (if err <? 0 then Err err else Ret err, (snd r, snd s))
    | Err e => (Err e, (snd r, snd s))
    | Panic => (Panic, (snd r, snd s))
    | Fault => (Fault, (snd r, snd s))
    | Hang => (Hang, (snd r, snd s))
    end.

(** Putting [str], counting: the new chars_written. *)
Definition put_string (str : list Z) (written : Z) : EM Z :=
  let* err := OUTPUT_STRING str in ret (u32 (written + err)).

Fixpoint put_chars (n : nat) (c written : Z) : EM Z :=
  match n with
  | O => ret written
  | S n' => let* written := put_string [c] written in put_chars n' c written
  end.

(** The code at _output_string. *)
Definition output_string (s : list Z) (flags format_num signchar written : Z) : EM Z :=
  let string_len := Z.of_nat (length s) in
  if has flags LEFTFORMATFLAG then
    let* err := OUTPUT_STRING s in
    let written := u32 (written + err) in
    put_chars (Z.to_nat (format_num - u32 err)) (asc " ") written
  else
    let signed := negb (signchar =? 0) in
    let format_num := if signed && (0 <? format_num) then format_num - 1 else format_num in
    let* written := (if has flags LEADZEROFLAG && signed then put_string [signchar] written else ret written) in
    let* written := put_chars (Z.to_nat (format_num - string_len)) (if has flags LEADZEROFLAG then asc "0" else asc " ") written in
    let* written := (if negb (has flags LEADZEROFLAG) && signed then put_string [signchar] written else ret written) in
    put_string s written.

(** The integer of a conversion: the modifiers from the widest down; [int_arg]
    for %d and %i, [uint_arg] for %u and %x. *)
Definition int_arg (flags : Z) (a : arg) : option Z :=
  match a with
  | A64 z => if has flags LONGLONGFLAG then Some (u64 z)
             else if has flags LONGFLAG || has flags HALFHALFFLAG || has flags HALFFLAG || has flags SIZETFLAG then None
             else if has flags INTMAXFLAG then Some (u64 z) else None
  | A32 z => if has flags LONGLONGFLAG then None
             else if has flags LONGFLAG then Some (u64 (s32 z))
             else if has flags HALFHALFFLAG then Some (u64 (s8 z))
             else if has flags HALFFLAG then Some (u64 (s16 z))
             else if has flags SIZETFLAG then Some (u64 (s32 z))
             else if has flags INTMAXFLAG then None
             else Some (u64 (s32 z))
  | _ => None
  end.

Definition uint_arg (flags : Z) (a : arg) : option Z :=
  match a with
  | A64 z => if has flags LONGLONGFLAG then Some (u64 z)
             else if has flags LONGFLAG || has flags HALFHALFFLAG || has flags HALFFLAG || has flags SIZETFLAG then None
             else if has flags INTMAXFLAG then Some (u64 z) else None
  | A32 z => if has flags LONGLONGFLAG then None
             else if has flags LONGFLAG then Some (u32 z)
             else if has flags HALFHALFFLAG then Some (u8 z)
             else if has flags HALFFLAG then Some (u16 z)
             else if has flags SIZETFLAG then Some (u32 z)
             else if has flags INTMAXFLAG then None
             else Some (u32 z)
  | _ => None
  end.

(** What %n stores: the bytes of the type and the value in them. *)
Definition stored (flags written : Z) : Z * Z :=
  if has flags LONGLONGFLAG then (8, written)
  else if has flags LONGFLAG then (4, written)
  else if has flags HALFHALFFLAG then (1, u8 written)
  else if has flags HALFFLAG then (2, u16 written)
  else (4, written).

Definition number (c : NB Z) : option (Z * list Z) :=
  match c (O, num_buffer) with
  | (Ret sign, (pos, b)) => t ← buffer_text b pos; Some (sign, t)
  | _ => None
  end.

(** va_arg *)
Definition next_arg (ap : list arg) : EM (arg * list arg) :=
  match ap with a :: ap' => ret (a, ap') | [] => fault end.

(** Where the engine is in the format: in text, with what it has seen of it, or in
    a conversion. *)
Inductive mode :=
| Text (seen : list Z)
| Format (flags format_num : Z).

(** The conversions that print something: the sign, the text, the flags and whether
    0x goes in front. *)
Definition conversion (c flags : Z) (a : arg) : option (Z * list Z * Z * bool) :=
  if (c =? asc "i") || (c =? asc "d") then
    n ← int_arg flags a;
    let flags := Z.lor flags SIGNEDFLAG in
    '(sign, t) ← number (longlong_to_string n num_buffer_size flags);
    Some (sign, t, flags, false)
  else if c =? asc "u" then
    n ← uint_arg flags a;
    '(sign, t) ← number (longlong_to_string n num_buffer_size flags);
    Some (sign, t, flags, false)
  else if (c =? asc "p") || (c =? asc "X") || (c =? asc "x") then
    let flags := if c =? asc "p" then Z.lor flags (Z.lor LONGFLAG ALTFLAG)
                 else if c =? asc "X" then Z.lor flags CAPSFLAG else flags in
    n ← uint_arg flags a;
    '(_, t) ← number (longlong_to_hexstring n num_buffer_size flags ;; ret 0);
    Some (0, t, flags, has flags ALTFLAG)
  else if c =? asc "s" then
    let flags := Z.land flags (Z.lnot LEADZEROFLAG) in
    match a with
    | AStr None => Some (0, chars "<null>", flags, false)
    | AStr (Some s) => n ← strlen s; Some (0, take n s, flags, false)
    | _ => None
    end
  else
    match a with
    | ADouble i =>
        let flags := if (c =? asc "F") || (c =? asc "A") then Z.lor flags CAPSFLAG else flags in
        '(_, t) ← number (if (c =? asc "F") || (c =? asc "f")
                          then (let* p := double_to_string num_buffer_size i flags in set_pos p ;; ret 0)
                          else (double_to_hexstring i flags ;; set_pos O ;; ret 0));
        Some (0, t, flags, false)
    | _ => None
    end.

Definition is_conversion (c : Z) : bool :=
  existsb (Z.eqb c) (chars "diupXxsFfAa").

(** The characters behind which the format goes on, with the new flags. *)
Definition modifier (c flags : Z) : option Z :=
  if c =? asc "." then Some flags
  else if c =? asc "-" then Some (Z.lor flags LEFTFORMATFLAG)
  else if c =? asc "+" then Some (Z.lor flags SHOWSIGNFLAG)
  else if c =? asc " " then Some (Z.lor flags BLANKPOSFLAG)
  else if c =? asc "#" then Some (Z.lor flags ALTFLAG)
  else if c =? asc "l" then Some (Z.lor (if has flags LONGFLAG then Z.lor flags LONGLONGFLAG else flags) LONGFLAG)
  else if c =? asc "h" then Some (Z.lor (if has flags HALFFLAG then Z.lor flags HALFHALFFLAG else flags) HALFFLAG)
  else if c =? asc "z" then Some (Z.lor flags SIZETFLAG)
  else if c =? asc "j" then Some (Z.lor flags INTMAXFLAG)
  else if c =? asc "t" then Some (Z.lor flags PTRDIFFFLAG)
  else None.

Fixpoint printf_loop (fmt : list Z) (m : mode) (ap : list arg) (written : Z) : EM Z :=
  match fmt with
  | [] => fault
  | c :: fmt' =>
      match m with
      | Text seen =>
          if c =? 0 then put_string seen written
          else if c =? asc "%" then
            let* written := put_string seen written in
            printf_loop fmt' (Format 0 0) ap written
          else printf_loop fmt' (Text (seen ++ [c])) ap written
      | Format flags format_num =>
          if c =? 0 then ret written
          else if isdigit c then
            let flags := if (c =? asc "0") && (format_num =? 0) then Z.lor flags LEADZEROFLAG else flags in
            printf_loop fmt' (Format flags (u32 (u32 (format_num * 10) + (c - asc "0")))) ap written
          else
            match modifier c flags with
            | Some flags => printf_loop fmt' (Format flags format_num) ap written
            | None =>
                if c =? asc "%" then
                  let* written := put_string [asc "%"] written in
                  printf_loop fmt' (Text []) ap written
                else if c =? asc "c" then
                  let* (a, ap') := next_arg ap in
                  match a with
                  | A32 z => let* written := put_string [u8 z] written in printf_loop fmt' (Text []) ap' written
                  | _ => fault
                  end
                else if c =? asc "n" then
                  let* (a, ap') := next_arg ap in
                  match a with
                  | AOut p =>
                      modify (fun s => (fst s, snd s ++ [(p, fst (stored flags written), snd (stored flags written))])) ;;
                      printf_loop fmt' (Text []) ap' written
                  | _ => fault
                  end
                else if is_conversion c then
                  let* (a, ap') := next_arg ap in
                  let* (signchar, t, flags, alt) := deref (conversion c flags a) in
                  let* written :=
                    (if alt then
                       let* written := put_string [asc "0"] written in
                       put_string [if has flags CAPSFLAG then asc "X" else asc "x"] written
                     else ret written) in
                  let* written := output_string t flags format_num signchar written in
                  printf_loop fmt' (Text []) ap' written
                else
                  let* written := put_string [asc "%"] written in
                  let* written := put_string [c] written in
                  printf_loop fmt' (Text []) ap written
            end
      end
  end.

(** The result is the error of [out] or the characters written, as an int. *)
Definition _printf_engine (fmt : list Z) (ap : list arg) : EM Z :=
  fun s =>
    match printf_loop fmt (Text []) ap 0 s with
    | (Ret written, s') => (Ret (s32 written), s')
    | (Err err, s') => (Ret err, s')
    | r => r
    end.
End engine.

(** ** Printing into a buffer *)

(** struct _output_args: the object at [outstr], the size given, the position. *)
Record _output_args := OutputArgs { outstr : list Z; len : Z; pos : nat }.

Fixpoint _vsnprintf_output_loop (str : list Z) : M _output_args Z unit :=
  match str with
  | [] => ret tt
  | c :: str' =>
      let* a := get in
      (if Z.of_nat (pos a) <? len a then
         let* o := deref (store (pos a) c (outstr a)) in
         put (OutputArgs o (len a) (S (pos a)))
       else ret tt) ;;
      _vsnprintf_output_loop str'
  end.

Definition _vsnprintf_output (str : list Z) : M _output_args Z Z :=
  _vsnprintf_output_loop str ;; ret (Z.of_nat (length str)).

(** [str[len-1]] with a [len] of 0 lies in front of the object. *)
Definition vsnprintf (len : Z) (fmt : list Z) (ap : list arg) : M (list Z * stores) Empty_set Z :=
  fun s =>
    match _printf_engine _vsnprintf_output fmt ap (OutputArgs (fst s) len 0, snd s) with
    | (Ret wlen, (a, st)) =>
        let i := if len <=? Z.of_nat (pos a) then len - 1 else wlen in
        match (if 0 <=? i then store (Z.to_nat i) 0 (outstr a) else None) with
        | Some o => (Ret wlen, (o, st))
        | None => (Fault, (outstr a, st))
        end
    | (Err _, (a, st)) | (Fault, (a, st)) => (Fault, (outstr a, st))
    | (Panic, (a, st)) => (Panic, (outstr a, st))
    | (Hang, (a, st)) => (Hang, (outstr a, st))
    end.

Definition vsprintf (fmt : list Z) (ap : list arg) : M (list Z * stores) Empty_set Z := vsnprintf INT_MAX fmt ap.
Definition snprintf (len : Z) (fmt : list Z) (ap : list arg) : M (list Z * stores) Empty_set Z := vsnprintf len fmt ap.
Definition sprintf (fmt : list Z) (ap : list arg) : M (list Z * stores) Empty_set Z := vsprintf fmt ap.
