(* ===== verification/PrintfNum.v ===== *)
(** * Numbers as text: longlong_to_string and longlong_to_hexstring against the
    digits of a number *)

From stdpp Require Import prelude list strings pretty.
From Stdlib Require Import ZArith Lia Ascii.
From S2P Require Import Prelude CMem CString Printf.

Open Scope Z_scope.
Open Scope lk_scope.

(** ** Decimal digits *)

Definition decimal (n : Z) : list Z := chars (pretty (Z.to_N n)).

Lemma chars_go x (s : string) : chars (pretty_N_go x s) = chars (pretty_N_go x "") ++ chars s.
Proof.
  revert s. induction (N.lt_wf_0 x) as [x _ IH]; intros s.
  destruct (decide (x = 0%N)) as [->|Hx]; [done|].
  rewrite pretty_N_go_step, (pretty_N_go_step _ "") by lia.
  assert (Hd : (x / 10 < x)%N) by (apply N.div_lt; lia).
  rewrite (IH _ Hd), (IH _ Hd (String.String _ "")). cbn [chars]. by rewrite <- app_assoc.
Qed.

Lemma asc_digit x : (x < 10)%N -> asc (pretty_N_char x) = Z.of_N x + asc "0".
Proof.
  intros Hx. assert (x = 0 \/ x = 1 \/ x = 2 \/ x = 3 \/ x = 4 \/ x = 5 \/ x = 6 \/ x = 7 \/ x = 8 \/ x = 9)%N as Hc by lia.
  by destruct_or! Hc; subst.
Qed.

Lemma decimal_small n : 0 <= n < 10 -> decimal n = [n + asc "0"].
Proof.
  intros Hn. unfold decimal, pretty, pretty_N. case_decide as H0.
  - by replace n with 0 by lia.
  - rewrite pretty_N_go_step by lia. rewrite N.div_small, N.mod_small, pretty_N_go_0 by lia.
    cbn [chars]. rewrite asc_digit by lia. f_equal. lia.
Qed.

Lemma decimal_step n : 10 <= n -> decimal n = decimal (n / 10) ++ [n mod 10 + asc "0"].
Proof.
  intros Hn. assert (1 <= n / 10) by (apply Z.div_le_lower_bound; lia).
  pose proof (Z.mod_pos_bound n 10). unfold decimal, pretty, pretty_N.
  rewrite decide_False by lia. rewrite decide_False by lia.
  rewrite pretty_N_go_step by lia. rewrite chars_go. f_equal.
  - rewrite Z2N.inj_div by lia. done.
  - cbn [chars]. rewrite asc_digit by (apply N.mod_lt; lia). do 2 f_equal. rewrite N2Z.inj_mod, Z2N.id by lia. done.
Qed.

(** Induction over the digits of a number, in any base. *)
Lemma digit_ind (base : Z) (Q : Z -> Prop) :
  1 < base -> (forall n, 0 <= n < base -> Q n) -> (forall n, base <= n -> Q (n / base) -> Q n) -> forall n, 0 <= n -> Q n.
Proof.
  intros Hb H1 H2 n Hn. apply (Z_lt_induction (fun n => 0 <= n -> Q n)); [|done|done].
  intros x IH Hx. destruct (decide (x < base)) as [|Hge]; [by apply H1|]. apply H2; [lia|].
  assert (0 <= x / base < x) by (split; [apply Z.div_pos; lia|apply Z.div_lt; lia]). apply IH; lia.
Qed.

Lemma decimal_digits n : 0 <= n -> Forall (fun c => asc "0" <= c <= asc "9") (decimal n).
Proof.
  revert n. refine (digit_ind 10 _ _ _ _); [lia| |]; change (asc "0") with 48; change (asc "9") with 57.
  - intros n Hn. rewrite decimal_small by done. repeat constructor; change (asc "0") with 48; lia.
  - intros n Hn IH. rewrite decimal_step by done. apply Forall_app. split; [done|].
    pose proof (Z.mod_pos_bound n 10). repeat constructor; change (asc "0") with 48; lia.
Qed.

Lemma decimal_length n k : 0 <= n < 10 ^ Z.of_nat k -> (0 < k)%nat -> (length (decimal n) <= k)%nat.
Proof.
  intros [Hn Hlt] Hk. revert k Hk Hlt. revert n Hn.
  apply (digit_ind 10 (fun n => forall k, (0 < k)%nat -> n < 10 ^ Z.of_nat k -> (length (decimal n) <= k)%nat)); [lia| |].
  - intros n Hn k Hk _. rewrite decimal_small by done. cbn. lia.
  - intros n Hn IH k Hk Hlt. rewrite decimal_step, length_app by done. cbn [length].
    destruct k as [|[|k]]; [lia|cbn in Hlt; lia|]. 
    assert (Hd : n / 10 < 10 ^ Z.of_nat (S k)).
    { apply Z.div_lt_upper_bound; [lia|]. rewrite <- Z.pow_succ_r by lia. by rewrite <- Nat2Z.inj_succ. }
    specialize (IH (S k) ltac:(lia) Hd). lia.
Qed.

(** What the digits mean. *)
Definition value_of (base : Z) (t : list Z) : Z := fold_left (fun v c => v * base + (c - asc "0")) t 0.

Lemma decimal_value n : 0 <= n -> value_of 10 (decimal n) = n.
Proof.
  revert n. refine (digit_ind 10 _ _ _ _); [lia| |].
  - intros n Hn. rewrite decimal_small by done. unfold value_of. cbn [fold_left]. lia.
  - intros n Hn IH. rewrite decimal_step by done. unfold value_of in *. rewrite fold_left_app, IH. cbn [fold_left].
    pose proof (Z.div_mod n 10). lia.
Qed.

(** ** Hexadecimal digits *)

Definition hexadecimal (caps : bool) (n : Z) : list Z :=
  let k := Z.log2 n / 4 + 1 in
  (fun i => hextable caps (Z.shiftr n (4 * (k - 1 - Z.of_nat i)) mod 16)) <$> seq 0 (Z.to_nat k).

Lemma hexadecimal_small caps n : 0 <= n < 16 -> hexadecimal caps n = [hextable caps n].
Proof.
  intros Hn. unfold hexadecimal. assert (Hl : Z.log2 n / 4 = 0).
  { apply Z.div_small. split; [apply Z.log2_nonneg|]. destruct (decide (n = 0)) as [->|]; [done|].
    apply Z.log2_lt_pow2; lia. }
  rewrite Hl. change (seq 0 (Z.to_nat (0 + 1))) with [0%nat]. cbn [fmap list_fmap].
  change (4 * (0 + 1 - 1 - Z.of_nat 0)) with 0. by rewrite Z.shiftr_0_r, Z.mod_small by lia.
Qed.

Lemma hexadecimal_step caps n : 16 <= n -> hexadecimal caps n = hexadecimal caps (n / 16) ++ [hextable caps (n mod 16)].
Proof.
  intros Hn. unfold hexadecimal. assert (H1 : 1 <= n / 16) by (apply Z.div_le_lower_bound; lia).
  assert (Hl : Z.log2 n = Z.log2 (n / 16) + 4).
  { change 16 with (2 ^ 4). rewrite <- Z.shiftr_div_pow2, Z.log2_shiftr by lia.
    assert (4 <= Z.log2 n) by (change 4 with (Z.log2 16); apply Z.log2_le_mono; lia). lia. }
  rewrite Hl. replace ((Z.log2 (n / 16) + 4) / 4) with (Z.log2 (n / 16) / 4 + 1)
    by (replace (Z.log2 (n / 16) + 4) with (Z.log2 (n / 16) + 1 * 4) by lia; rewrite Z.div_add by lia; lia).
  set (k := Z.log2 (n / 16) / 4). assert (0 <= k) by (apply Z.div_pos; [apply Z.log2_nonneg|lia]).
  replace (Z.to_nat (k + 1 + 1)) with (S (Z.to_nat (k + 1))) by lia.
  rewrite seq_S, fmap_app. cbn [list_fmap fmap]. f_equal.
  - apply list_fmap_ext. intros i j Hj%lookup_seq. 
    replace (4 * (k + 1 + 1 - 1 - Z.of_nat j)) with (4 + 4 * (k + 1 - 1 - Z.of_nat j)) by lia.
    rewrite <- Z.shiftr_shiftr by lia. by rewrite (Z.shiftr_div_pow2 n 4) by lia.
  - do 2 f_equal. replace (4 * (k + 1 + 1 - 1 - Z.of_nat (0 + Z.to_nat (k + 1)))) with 0 by lia. by rewrite Z.shiftr_0_r.
Qed.

Lemma hextable_digit caps d : 0 <= d < 16 -> hextable caps d <> 0.
Proof.
  intros Hd. unfold hextable. change (asc "0") with 48. change (asc "A") with 65. change (asc "a") with 97.
  destruct (d <? 10); [lia|]. destruct caps; lia.
Qed.

Lemma hexadecimal_no_nul caps n : 0 <= n -> no_nul (hexadecimal caps n).
Proof.
  revert n. refine (digit_ind 16 _ _ _ _); [lia| |].
  - intros n Hn. rewrite hexadecimal_small by done. repeat constructor. by apply hextable_digit.
  - intros n Hn IH. rewrite hexadecimal_step by done. apply Forall_app. split; [done|]. repeat constructor.
    apply hextable_digit, Z.mod_pos_bound. lia.
Qed.

Lemma decimal_no_nul n : 0 <= n -> no_nul (decimal n).
Proof.
  intros Hn. eapply Forall_impl; [by apply decimal_digits|]. change (asc "0") with 48. cbn. lia.
Qed.

(** ** The buffer *)

Lemma drop_insert_same {A} (p : nat) (c : A) (b : list A) :
  (p < length b)%nat -> drop p (<[p := c]> b) = c :: drop (S p) b.
Proof.
  intros Hp. rewrite (drop_S _ c) by by apply list_lookup_insert_eq. by rewrite drop_insert_lt by lia.
Qed.

Lemma rev_char_run c p b :
  (p < length b)%nat -> rev_char c (S p, b) = (Ret tt, (p, <[p := c]> b)).
Proof.
  intros Hp. unfold rev_char, get_pos, set_pos, wr, bind, gets, modify, get, put. cbn. unfold store.
  by rewrite (proj2 (Nat.ltb_lt _ _)).
Qed.

Lemma decimal_loop_run n :
  0 <= n -> forall pos b, (length (decimal n) <= pos)%nat -> (pos <= length b)%nat ->
  exists b', decimal_loop pos n (pos, b) = (Ret tt, ((pos - length (decimal n))%nat, b')) /\
    length b' = length b /\ drop (pos - length (decimal n)) b' = decimal n ++ drop pos b.
Proof.
  revert n. refine (digit_ind 10 _ _ _ _); [lia| |].
  - intros n Hn [|pos] b Hp Hb; rewrite decimal_small in * by done; cbn [length] in *; [lia|].
    cbn [decimal_loop]. rewrite (proj2 (Z.ltb_lt n 10)) by lia. rewrite rev_char_run by lia.
    replace (S pos - 1)%nat with pos by lia. eexists. split; [done|]. rewrite length_insert. split; [done|].
    by rewrite drop_insert_same by lia.
  - intros n Hn IH [|pos] b Hp Hb; rewrite decimal_step, length_app in * by done; cbn [length] in *; [lia|].
    cbn [decimal_loop]. rewrite (proj2 (Z.ltb_ge n 10)) by lia.
    erewrite bind_run by (apply rev_char_run; lia).
    destruct (IH pos (<[pos := n mod 10 + asc "0"]> b)) as (b' & Hrun & Hlen & Hdrop);
      [lia|rewrite length_insert; lia|].
    exists b'. rewrite length_insert in Hlen. rewrite drop_insert_same in Hdrop by lia.
    replace (S pos - (length (decimal (n / 10)) + 1))%nat with (pos - length (decimal (n / 10)))%nat by lia.
    split; [done|]. split; [done|]. rewrite Hdrop, <- app_assoc. done.
Qed.

Lemma hex_loop_run caps n :
  0 <= n -> forall pos b, (length (hexadecimal caps n) <= pos)%nat -> (pos <= length b)%nat ->
  exists b', hex_loop caps pos n (pos, b) = (Ret tt, ((pos - length (hexadecimal caps n))%nat, b')) /\
    length b' = length b /\ drop (pos - length (hexadecimal caps n)) b' = hexadecimal caps n ++ drop pos b.
Proof.
  revert n. refine (digit_ind 16 _ _ _ _); [lia| |].
  - intros n Hn [|pos] b Hp Hb; rewrite hexadecimal_small in * by done; cbn [length] in *; [lia|].
    cbn [hex_loop]. erewrite bind_run by (apply rev_char_run; lia).
    rewrite (Z.div_small n 16), (Z.mod_small n 16) by lia. cbn [Z.eqb].
    replace (S pos - 1)%nat with pos by lia. eexists. split; [done|]. rewrite length_insert. split; [done|].
    by rewrite drop_insert_same by lia.
  - intros n Hn IH [|pos] b Hp Hb; rewrite hexadecimal_step, length_app in * by done; cbn [length] in *; [lia|].
    cbn [hex_loop]. erewrite bind_run by (apply rev_char_run; lia).
    assert (1 <= n / 16) by (apply Z.div_le_lower_bound; lia). rewrite (proj2 (Z.eqb_neq (n / 16) 0)) by lia.
    destruct (IH pos (<[pos := hextable caps (n mod 16)]> b)) as (b' & Hrun & Hlen & Hdrop);
      [lia|rewrite length_insert; lia|].
    exists b'. rewrite length_insert in Hlen. rewrite drop_insert_same in Hdrop by lia.
    replace (S pos - (length (hexadecimal caps (n / 16)) + 1))%nat with (pos - length (hexadecimal caps (n / 16)))%nat by lia.
    split; [done|]. split; [done|]. rewrite Hdrop, <- app_assoc. done.
Qed.

Lemma buffer_text_run t b pos rest :
  no_nul t -> drop pos b = t ++ 0 :: rest -> buffer_text b pos = Some t.
Proof.
  intros Ht Hd. unfold buffer_text. rewrite Hd, (strlen_cstr t) by by apply cstr_intro.
  cbn. by rewrite take_app_length.
Qed.

(** The sign of a conversion. *)
Definition sign_char (flags z : Z) : Z :=
  if z <? 0 then asc "-" else if has flags SHOWSIGNFLAG then asc "+" else if has flags BLANKPOSFLAG then asc " " else 0.

Lemma u64_small z : 0 <= z < 2 ^ 64 -> u64 z = z.
Proof. apply Z.mod_small. Qed.

Lemma s64_u64 z : - 2 ^ 63 <= z < 2 ^ 63 -> s64 (u64 z) = z.
Proof.
  intros Hz. unfold s64, u64. rewrite Zplus_mod_idemp_l, Z.mod_small by lia. lia.
Qed.

Lemma digits_run t n (loop : nat -> Z -> NB unit) sign :
  (length t <= 31)%nat -> no_nul t ->
  (forall pos b, (length t <= pos)%nat -> (pos <= length b)%nat ->
    exists b', loop pos n (pos, b) = (Ret tt, ((pos - length t)%nat, b')) /\ length b' = length b /\
      drop (pos - length t) b' = t ++ drop pos b) ->
  number (set_pos num_buffer_size ;; rev_char 0 ;; let* pos := get_pos in loop pos n ;; ret sign : NB Z) = Some (sign, t).
Proof.
  intros Hlen Hnul Hloop. unfold number.
  destruct (Hloop 31%nat (<[31%nat := 0]> num_buffer)) as (b' & Hrun & Hl & Hd); [done|cbn; lia|].
  erewrite bind_run by reflexivity. erewrite bind_run by (apply rev_char_run; cbn; lia).
  erewrite bind_run by reflexivity. erewrite bind_run by exact Hrun. cbn beta iota delta [ret].
  rewrite (buffer_text_run t b' (31 - length t) (drop 32 num_buffer)); [done|done|].
  rewrite Hd. f_equal.
Qed.

Lemma signed_run z flags :
  - 2 ^ 63 <= z < 2 ^ 63 -> has flags SIGNEDFLAG = true ->
  number (longlong_to_string (u64 z) num_buffer_size flags) = Some (sign_char flags z, decimal (Z.abs z)).
Proof.
  intros Hz Hs. unfold longlong_to_string. rewrite Hs, s64_u64 by done. cbn [andb].
  assert (Hn : (if z <? 0 then u64 (- u64 z) else u64 z) = Z.abs z).
  { destruct (Z.ltb_spec z 0); [|rewrite u64_small; lia]. unfold u64.
    rewrite <- (Z.sub_0_l (z mod _)), Zminus_mod_idemp_r, Z.mod_small by lia. lia. }
  rewrite Hn. apply (digits_run _ _ decimal_loop).
  - apply decimal_length; [|lia]. split; [lia|]. apply Z.le_lt_trans with (2 ^ 63); [lia|]. vm_compute. done.
  - apply decimal_no_nul. lia.
  - apply decimal_loop_run. lia.
Qed.

Lemma unsigned_run n flags :
  0 <= n < 2 ^ 64 -> has flags SIGNEDFLAG = false ->
  number (longlong_to_string n num_buffer_size flags) = Some (sign_char flags n, decimal n).
Proof.
  intros Hn Hs. unfold longlong_to_string, sign_char. rewrite Hs. cbn [andb].
  rewrite (proj2 (Z.ltb_ge n 0)) by lia. apply (digits_run _ _ decimal_loop).
  - apply decimal_length; [|lia]. split; [lia|]. apply Z.lt_le_trans with (2 ^ 64); [lia|]. vm_compute. done.
  - apply decimal_no_nul. lia.
  - apply decimal_loop_run. lia.
Qed.

Lemma hex_run n flags :
  0 <= n < 2 ^ 64 ->
  number (longlong_to_hexstring n num_buffer_size flags ;; ret 0) = Some (0, hexadecimal (has flags CAPSFLAG) n).
Proof.
  intros Hn. rewrite <- (digits_run (hexadecimal (has flags CAPSFLAG) n) n (hex_loop (has flags CAPSFLAG)) 0).
  - unfold number, longlong_to_hexstring. by unfold bind, set_pos, modify, rev_char, get_pos, gets, wr, get, put, store, ret.
  - unfold hexadecimal. rewrite length_fmap, length_seq.
    assert (Z.log2 n / 4 < 16).
    { apply Z.div_lt_upper_bound; [lia|]. destruct (decide (n = 0)) as [->|]; [done|]. apply Z.log2_lt_pow2; lia. }
    lia.
  - apply hexadecimal_no_nul. lia.
  - apply hex_loop_run. lia.
Qed.
