(* ===== verification/PrintfSpec.v ===== *)
(** * What a format string means: the text of its pieces

    [collect] is the output function that keeps everything.  A format made of
    pieces (text and conversions with their flags, width and size) is shown to print
    what the C standard says. *)

From stdpp Require Import prelude list strings pretty.
From Stdlib Require Import ZArith Lia Ascii.
From S2P Require Import Prelude CMem CString Printf PrintfNum.

Open Scope Z_scope.
Open Scope lk_scope.

Definition collect (str : list Z) : M (list Z) Z Z := fun t => (Ret (Z.of_nat (length str)), t ++ str).

Notation len_Z t := (Z.of_nat (length t)).

Lemma u32_add a b : u32 (u32 a + b) = u32 (a + b).
Proof. unfold u32. by rewrite Zplus_mod_idemp_l. Qed.

(** ** The engine's output *)

Section collect.
Implicit Types (t : list Z) (st : stores).

(** [c] puts [d] and counts it. *)
Definition puts_ (c : Z -> EM (St:=list Z) Z) (d : list Z) : Prop :=
  forall w t st, c w (t, st) = (Ret (u32 (w + len_Z d)), (t ++ d, st)).

Lemma output_run d t st : OUTPUT_STRING collect d (t, st) = (Ret (len_Z d), (t ++ d, st)).
Proof. unfold OUTPUT_STRING, collect. cbn. by rewrite (proj2 (Z.ltb_ge _ 0)) by lia. Qed.

Lemma put_string_puts d : puts_ (put_string collect d) d.
Proof. intros w t st. unfold put_string. by erewrite bind_run by apply output_run. Qed.

Lemma puts_seq c d c' d' :
  puts_ c d -> puts_ c' d' -> puts_ (fun w => let* w := c w in c' w) (d ++ d').
Proof.
  intros Hc Hc' w t st. erewrite bind_run by apply Hc. rewrite Hc', u32_add, length_app, <- app_assoc.
  do 2 f_equal. f_equal. lia.
Qed.

(** Nothing put: only a count that is in range is left alone. *)
Lemma put_chars_run n c w t st :
  0 <= w < 2 ^ 32 ->
  put_chars collect n c w (t, st) = (Ret (u32 (w + Z.of_nat n)), (t ++ replicate n c, st)).
Proof.
  revert w t. induction n as [|n IH]; intros w t Hw; cbn [put_chars replicate].
  - unfold ret. rewrite Z.add_0_r, u32_small, app_nil_r by done. done.
  - erewrite bind_run by apply put_string_puts. rewrite IH by apply u32_range.
    rewrite u32_add, <- app_assoc. cbn. do 2 f_equal. f_equal. lia.
Qed.
End collect.

(** A text with its sign in a field. *)
Definition justify (left zero : bool) (width : Z) (sign text : list Z) : list Z :=
  let pad := Z.to_nat (width - len_Z (sign ++ text)) in
  if left then sign ++ text ++ replicate pad (asc " ")
  else if zero then sign ++ replicate pad (asc "0") ++ text
  else replicate pad (asc " ") ++ sign ++ text.

Definition sign_of (c : Z) : list Z := if c =? 0 then [] else [c].

(** Two runs that put the same text and count it. *)
Ltac count_text :=
  do 2 f_equal; f_equal; cbn [app length]; rewrite ?length_app, ?length_replicate; cbn [length];
  rewrite ?length_app, ?length_replicate; lia.

(** _output_string drops the sign of what it justifies to the left. *)
Lemma output_string_run text flags width signchar w t (st : stores) :
  0 <= w < 2 ^ 32 -> len_Z text < 2 ^ 32 ->
  let left := has flags LEFTFORMATFLAG in
  let d := justify left (has flags LEADZEROFLAG) width (if left then [] else sign_of signchar) text in
  output_string collect text flags width signchar w (t, st) = (Ret (u32 (w + len_Z d)), (t ++ d, st)).
Proof.
  intros Hw Ht. cbv zeta. unfold output_string, justify, sign_of. destruct (has flags LEFTFORMATFLAG).
  - erewrite bind_run by apply output_run. cbv zeta. rewrite put_chars_run by apply u32_range.
    rewrite u32_add, (u32_small (len_Z text)), <- app_assoc by lia. cbn [app].
    count_text.
  - set (zero := has flags LEADZEROFLAG). destruct (Z.eqb_spec signchar 0) as [->|Hs]; cbn [negb andb app].
    + rewrite !andb_false_r. erewrite bind_run by reflexivity. erewrite bind_run by (by apply put_chars_run).
      erewrite bind_run by reflexivity. rewrite put_string_puts, u32_add, <- app_assoc.
      destruct zero; count_text.
    + rewrite !andb_true_r.
      replace (Z.to_nat ((if 0 <? width then width - 1 else width) - len_Z text)) with (Z.to_nat (width - len_Z (signchar :: text))).
      2: { cbn [length]. destruct (Z.ltb_spec 0 width); lia. }
      set (pad := Z.to_nat (width - len_Z (signchar :: text))). destruct zero; cbn [negb].
      * erewrite bind_run by apply put_string_puts. erewrite bind_run by (apply put_chars_run, u32_range).
        erewrite bind_run by reflexivity. rewrite put_string_puts, u32_add, <- Z.add_assoc, u32_add, <- !app_assoc.
        count_text.
      * erewrite bind_run by reflexivity. erewrite bind_run by (by apply put_chars_run).
        erewrite bind_run by apply put_string_puts. rewrite put_string_puts, u32_add, <- Z.add_assoc, u32_add, <- !app_assoc.
        count_text.
Qed.

(** ** Formats as sequences of pieces *)

Record spec := Spec { left : bool; plus : bool; blank : bool; zero : bool; width : Z }.

Inductive size := Plain | Long | LongLong | Half | HalfHalf | Size | IntMax | PtrDiff.

Inductive piece :=
| Lit (l : list Z)
| Percent
| Char (c : Z)
| Str (sp : spec) (s : list Z)
| Dec (sp : spec) (sz : size) (z : Z)
| Uns (sp : spec) (sz : size) (n : Z)
| Hex (caps : bool) (sp : spec) (sz : size) (n : Z).

(** *** Their format string *)

Definition flag_chars (sp : spec) : list Z :=
  (if left sp then [asc "-"] else []) ++ (if plus sp then [asc "+"] else []) ++
  (if blank sp then [asc " "] else []) ++ (if zero sp then [asc "0"] else []).

Definition width_chars (sp : spec) : list Z := if 0 <? width sp then decimal (width sp) else [].

Definition size_chars (sz : size) : list Z :=
  match sz with
  | Plain => []
  | Long => [asc "l"]
  | LongLong => [asc "l"; asc "l"]
  | Half => [asc "h"]
  | HalfHalf => [asc "h"; asc "h"]
  | Size => [asc "z"]
  | IntMax => [asc "j"]
  | PtrDiff => [asc "t"]
  end.

Definition conv_chars (sp : spec) (sz : size) (c : Z) : list Z :=
  asc "%" :: flag_chars sp ++ width_chars sp ++ size_chars sz ++ [c].

Definition fmt_of (p : piece) : list Z :=
  match p with
  | Lit l => l
  | Percent => [asc "%"; asc "%"]
  | Char _ => [asc "%"; asc "c"]
  | Str sp _ => conv_chars sp Plain (asc "s")
  | Dec sp sz _ => conv_chars sp sz (asc "d")
  | Uns sp sz _ => conv_chars sp sz (asc "u")
  | Hex caps sp sz _ => conv_chars sp sz (if caps then asc "X" else asc "x")
  end.

(** *** Their arguments *)

Definition wide (sz : size) : bool := match sz with LongLong | IntMax => true | _ => false end.

Definition int_of (sz : size) (z : Z) : arg := if wide sz then A64 (u64 z) else A32 (u32 z).

Definition args_of (p : piece) : list arg :=
  match p with
  | Lit _ | Percent => []
  | Char c => [A32 c]
  | Str _ s => [AStr (Some (s ++ [0]))]
  | Dec _ sz z | Uns _ sz z | Hex _ _ sz z => [int_of sz z]
  end.

Definition bits (sz : size) : Z :=
  match sz with HalfHalf => 8 | Half => 16 | LongLong | IntMax => 64 | _ => 32 end.

Definition spec_ok (sp : spec) : Prop := 0 <= width sp < 2 ^ 31.

(** Values of their type; the sign of a number that is justified to the left is
    printed only when there is none. *)
Definition piece_ok (p : piece) : Prop :=
  match p with
  | Lit l => Forall (fun c => c <> 0 /\ c <> asc "%") l
  | Percent => True
  | Char c => 0 <= c < 256
  | Str sp s => spec_ok sp /\ no_nul s /\ len_Z s < 2 ^ 32
  | Dec sp sz z => spec_ok sp /\ - 2 ^ (bits sz - 1) <= z < 2 ^ (bits sz - 1) /\
      (left sp = true -> 0 <= z /\ plus sp = false /\ blank sp = false)
  | Uns sp sz n => spec_ok sp /\ 0 <= n < 2 ^ bits sz /\ plus sp = false /\ blank sp = false
  | Hex _ sp sz n => spec_ok sp /\ 0 <= n < 2 ^ bits sz
  end.

(** *** Their text *)

Definition dec_sign (sp : spec) (z : Z) : list Z :=
  if z <? 0 then [asc "-"] else if plus sp then [asc "+"] else if blank sp then [asc " "] else [].

Definition text_of (p : piece) : list Z :=
  match p with
  | Lit l => l
  | Percent => [asc "%"]
  | Char c => [c]
  | Str sp s => justify (left sp) false (width sp) [] s
  | Dec sp _ z => justify (left sp) (zero sp) (width sp) (dec_sign sp z) (decimal (Z.abs z))
  | Uns sp _ n => justify (left sp) (zero sp) (width sp) [] (decimal n)
  | Hex caps sp _ n => justify (left sp) (zero sp) (width sp) [] (hexadecimal caps n)
  end.
