(* ===== verification/PrintfProps.v ===== *)
(** * The formatting engine: formats print what they mean, whatever takes the
    output; printing into a buffer *)

From stdpp Require Import prelude list strings pretty.
From Stdlib Require Import ZArith Lia Ascii.
From S2P Require Import Prelude CMem CString Printf PrintfNum PrintfSpec.

Open Scope Z_scope.
Open Scope lk_scope.

(** ** Parsing a conversion *)

Definition flags_of (sp : spec) : Z :=
  Z.lor (Z.lor (Z.lor (if left sp then LEFTFORMATFLAG else 0) (if plus sp then SHOWSIGNFLAG else 0))
           (if blank sp then BLANKPOSFLAG else 0)) (if zero sp then LEADZEROFLAG else 0).

Definition size_flags (sz : size) : Z :=
  match sz with
  | Plain => 0
  | Long => LONGFLAG
  | LongLong => Z.lor LONGLONGFLAG LONGFLAG
  | Half => HALFFLAG
  | HalfHalf => Z.lor HALFHALFFLAG HALFFLAG
  | Size => SIZETFLAG
  | IntMax => INTMAXFLAG
  | PtrDiff => PTRDIFFFLAG
  end.

Definition conv_flags (sp : spec) (sz : size) : Z := Z.lor (flags_of sp) (size_flags sz).

Notation loop := (printf_loop collect).

Lemma flag_chars_run sp rest ap w :
  loop (flag_chars sp ++ rest) (Format 0 0) ap w = loop rest (Format (flags_of sp) 0) ap w.
Proof. destruct sp as [[] [] [] [] wd]; reflexivity. Qed.

Lemma digit_run d f k rest ap w :
  0 <= d < 10 -> 0 <= k -> k * 10 + d < 2 ^ 32 -> 0 < k * 10 + d ->
  loop (d + asc "0" :: rest) (Format f k) ap w = loop rest (Format f (k * 10 + d)) ap w.
Proof.
  intros Hd Hk Hr Hp. cbn [printf_loop]. unfold isdigit. change (asc "0") with 48.
  rewrite (proj2 (Z.eqb_neq (d + 48) 0)), (proj2 (Z.leb_le 48 (d + 48))), (proj2 (Z.leb_le (d + 48) 57)) by lia.
  cbn [andb]. replace ((d + 48 =? 48) && (k =? 0)) with false.
  - rewrite (u32_small (k * 10)), u32_small by lia. replace (k * 10 + (d + 48 - 48)) with (k * 10 + d) by lia. done.
  - symmetry. apply andb_false_iff. rewrite !Z.eqb_neq. lia.
Qed.

Lemma width_run n : 0 <= n -> forall f rest ap w, 0 < n < 2 ^ 32 ->
  loop (decimal n ++ rest) (Format f 0) ap w = loop rest (Format f n) ap w.
Proof.
  revert n. refine (digit_ind 10 _ _ _ _); [lia| |].
  - intros n Hn f rest ap w Hr. rewrite decimal_small by done. cbn [app]. rewrite digit_run by lia. done.
  - intros n Hn IH f rest ap w Hr. rewrite decimal_step, <- app_assoc by done. cbn [app].
    assert (1 <= n / 10) by (apply Z.div_le_lower_bound; lia). pose proof (Z.div_mod n 10).
    pose proof (Z.mod_pos_bound n 10). rewrite IH by (split; [lia|]; apply Z.div_lt_upper_bound; lia).
    rewrite digit_run by lia. do 2 f_equal. lia.
Qed.

Lemma size_chars_run sp sz n rest ap w :
  loop (size_chars sz ++ rest) (Format (flags_of sp) n) ap w = loop rest (Format (conv_flags sp sz) n) ap w.
Proof. unfold conv_flags. destruct sp as [[] [] [] [] wd], sz; reflexivity. Qed.

Lemma spec_run sp sz rest ap w :
  spec_ok sp ->
  loop (flag_chars sp ++ width_chars sp ++ size_chars sz ++ rest) (Format 0 0) ap w =
  loop rest (Format (conv_flags sp sz) (width sp)) ap w.
Proof.
  intros Hs. unfold spec_ok in Hs. rewrite flag_chars_run. unfold width_chars.
  destruct (Z.ltb_spec 0 (width sp)).
  - rewrite width_run by lia. apply size_chars_run.
  - replace (width sp) with 0 by lia. apply size_chars_run.
Qed.

(** A conversion without 0x. *)
Lemma conversion_run c F n a sign text F' rest ap w t (st : stores) :
  c <> 0 -> isdigit c = false -> modifier c F = None -> is_conversion c = true ->
  (c =? asc "%") || (c =? asc "c") || (c =? asc "n") = false ->
  conversion c F a = Some (sign, text, F', false) -> len_Z text < 2 ^ 32 -> 0 <= w < 2 ^ 32 ->
  let left := has F' LEFTFORMATFLAG in
  let d := justify left (has F' LEADZEROFLAG) n (if left then [] else sign_of sign) text in
  loop (c :: rest) (Format F n) (a :: ap) w (t, st) = loop rest (Text []) ap (u32 (w + len_Z d)) (t ++ d, st).
Proof.
  intros Hc Hd Hm Hcv Hx Hconv Hlen Hw. cbv zeta. cbn [printf_loop].
  rewrite (proj2 (Z.eqb_neq c 0) Hc), Hd, Hm, Hcv. apply orb_false_iff in Hx as [[-> ->]%orb_false_iff ->].
  erewrite bind_run by reflexivity. cbv iota beta. rewrite Hconv.
  erewrite bind_run by reflexivity. cbv iota beta. erewrite bind_run by reflexivity.
  erewrite bind_run by (by apply output_string_run). done.
Qed.

(** ** The values of the conversions *)

Lemma has_left sp sz x :
  x = 0 \/ x = SIGNEDFLAG \/ x = CAPSFLAG -> has (Z.lor (conv_flags sp sz) x) LEFTFORMATFLAG = left sp.
Proof. intros [->|[->| ->]]; destruct sp as [[] [] [] [] wd], sz; reflexivity. Qed.

Lemma has_zero sp sz x :
  x = 0 \/ x = SIGNEDFLAG \/ x = CAPSFLAG -> has (Z.lor (conv_flags sp sz) x) LEADZEROFLAG = zero sp.
Proof. intros [->|[->| ->]]; destruct sp as [[] [] [] [] wd], sz; reflexivity. Qed.

Lemma sign_char_spec sp sz z :
  sign_of (sign_char (Z.lor (conv_flags sp sz) SIGNEDFLAG) z) = dec_sign sp z.
Proof. unfold sign_char, dec_sign. destruct (z <? 0); [done|]. destruct sp as [[] [] [] [] wd], sz; reflexivity. Qed.

Lemma unsigned_sign sp sz n :
  0 <= n -> plus sp = false -> blank sp = false -> sign_of (sign_char (conv_flags sp sz) n) = [].
Proof.
  intros Hn Hp Hb. unfold sign_char. rewrite (proj2 (Z.ltb_ge n 0)) by done.
  destruct sp as [[] p b [] wd], sz; cbn in Hp, Hb; subst; reflexivity.
Qed.

Ltac int_flags :=
  unfold int_arg, uint_arg, int_of, args_of; cbn [wide];
  repeat match goal with |- context [has ?f ?x] => let v := eval vm_compute in (has f x) in change (has f x) with v end;
  cbn [orb andb].

(** Narrowing what was passed as 32 bits. *)
Lemma narrow k z : 0 < k <= 32 -> (u32 z) mod 2 ^ k = z mod 2 ^ k.
Proof.
  intros Hk. unfold u32. symmetry. apply Znumtheory.Zmod_div_mod; [lia|lia|].
  exists (2 ^ (32 - k)). rewrite <- Z.pow_add_r by lia. f_equal. lia.
Qed.

Lemma signed_narrow k z :
  0 < k <= 32 -> - 2 ^ (k - 1) <= z < 2 ^ (k - 1) -> (u32 z + 2 ^ (k - 1)) mod 2 ^ k - 2 ^ (k - 1) = z.
Proof.
  intros Hk Hz. assert (H2 : 2 ^ k = 2 * 2 ^ (k - 1)) by (rewrite <- Z.pow_succ_r by lia; f_equal; lia).
  rewrite <- Zplus_mod_idemp_l, narrow, Zplus_mod_idemp_l by lia. rewrite Z.mod_small by lia. lia.
Qed.

Lemma int_arg_run sp sz z :
  - 2 ^ (bits sz - 1) <= z < 2 ^ (bits sz - 1) -> int_arg (conv_flags sp sz) (int_of sz z) = Some (u64 z).
Proof.
  intros Hz. destruct sp as [l p b zr wd].
  assert (H32 : bits sz = 32 -> s32 (u32 z) = z) by (intros Hb; rewrite Hb in Hz; apply (signed_narrow 32); [lia|done]).
  assert (H16 : bits sz = 16 -> s16 (u32 z) = z) by (intros Hb; rewrite Hb in Hz; apply (signed_narrow 16); [lia|done]).
  assert (H8 : bits sz = 8 -> s8 (u32 z) = z) by (intros Hb; rewrite Hb in Hz; apply (signed_narrow 8); [lia|done]).
  assert (H64 : u64 (u64 z) = u64 z) by (unfold u64; apply Z.mod_mod; lia).
  destruct l, p, b, zr, sz; int_flags; cbn [bits] in *; rewrite ?H32, ?H16, ?H8, ?H64 by done; done.
Qed.

Lemma uint_arg_run sp sz x n :
  x = 0 \/ x = CAPSFLAG -> 0 <= n < 2 ^ bits sz -> uint_arg (Z.lor (conv_flags sp sz) x) (int_of sz n) = Some n.
Proof.
  intros Hx Hn. destruct sp as [l p b zr wd].
  assert (Hu : bits sz <= 32 -> u32 n = n).
  { intros Hb. apply u32_small. split; [lia|]. apply Z.lt_le_trans with (2 ^ bits sz); [lia|]. apply Z.pow_le_mono_r; lia. }
  assert (H16 : bits sz = 16 -> u16 n = n) by (intros Hb; rewrite Hb in Hn; apply Z.mod_small; lia).
  assert (H8 : bits sz = 8 -> u8 n = n) by (intros Hb; rewrite Hb in Hn; apply Z.mod_small; lia).
  assert (H64 : bits sz = 64 -> u64 n = n) by (intros Hb; rewrite Hb in Hn; apply Z.mod_small; lia).
  destruct Hx as [-> | ->]; destruct l, p, b, zr, sz; int_flags; cbn [bits] in *;
    rewrite ?Hu by lia; rewrite ?H16, ?H8, ?H64 by done; rewrite ?H64 by done; done.
Qed.

Lemma dec_conversion sp sz z :
  - 2 ^ (bits sz - 1) <= z < 2 ^ (bits sz - 1) ->
  conversion (asc "d") (conv_flags sp sz) (int_of sz z) =
  Some (sign_char (Z.lor (conv_flags sp sz) SIGNEDFLAG) z, decimal (Z.abs z), Z.lor (conv_flags sp sz) SIGNEDFLAG, false).
Proof.
  intros Hz. set (F := conv_flags sp sz).
  assert (HF : conversion (asc "d") F (int_of sz z) =
    (n ← int_arg F (int_of sz z);
     '(sign, t) ← number (longlong_to_string n num_buffer_size (Z.lor F SIGNEDFLAG));
     Some (sign, t, Z.lor F SIGNEDFLAG, false))) by done.
  rewrite HF. unfold F in *. clear F HF. rewrite int_arg_run by done. cbn [mbind option_bind].
  rewrite signed_run; [done| |destruct sp as [[] [] [] [] wd], sz; reflexivity].
  assert (2 ^ (bits sz - 1) <= 2 ^ 63) by (apply Z.pow_le_mono_r; destruct sz; cbn; lia). lia.
Qed.

Lemma bits_64 sz n : 0 <= n < 2 ^ bits sz -> 0 <= n < 2 ^ 64.
Proof. assert (2 ^ bits sz <= 2 ^ 64) by (apply Z.pow_le_mono_r; destruct sz; cbn; lia). lia. Qed.

Lemma uns_conversion sp sz n :
  0 <= n < 2 ^ bits sz ->
  conversion (asc "u") (conv_flags sp sz) (int_of sz n) =
  Some (sign_char (conv_flags sp sz) n, decimal n, conv_flags sp sz, false).
Proof.
  intros Hn. set (F := conv_flags sp sz).
  assert (HF : conversion (asc "u") F (int_of sz n) =
    (n ← uint_arg F (int_of sz n);
     '(sign, t) ← number (longlong_to_string n num_buffer_size F);
     Some (sign, t, F, false))) by done.
  rewrite HF. unfold F in *. clear F HF. pose proof (uint_arg_run sp sz 0 n (or_introl eq_refl) Hn) as Hu. rewrite Z.lor_0_r in Hu.
  rewrite Hu. cbn [mbind option_bind]. rewrite unsigned_run; [done|by eapply bits_64|].
  destruct sp as [[] [] [] [] wd], sz; reflexivity.
Qed.

Lemma hex_conversion (caps : bool) sp sz n :
  0 <= n < 2 ^ bits sz ->
  let F := Z.lor (conv_flags sp sz) (if caps then CAPSFLAG else 0) in
  conversion (if caps then asc "X" else asc "x") (conv_flags sp sz) (int_of sz n) = Some (0, hexadecimal caps n, F, false).
Proof.
  intros Hn. cbv zeta. set (F := Z.lor (conv_flags sp sz) (if caps then CAPSFLAG else 0)).
  assert (HF : conversion (if caps then asc "X" else asc "x") (conv_flags sp sz) (int_of sz n) =
    (n ← uint_arg F (int_of sz n);
     '(_, t) ← number (longlong_to_hexstring n num_buffer_size F ;; ret 0);
     Some (0, t, F, has F ALTFLAG))).
  { unfold F. destruct caps; [done|]. by rewrite Z.lor_0_r. }
  rewrite HF. assert (Hu : uint_arg F (int_of sz n) = Some n) by (apply uint_arg_run; [destruct caps; auto|done]).
  rewrite Hu. cbn [mbind option_bind].
  rewrite hex_run by by eapply bits_64.
  assert (Hc : has F CAPSFLAG = caps) by (unfold F; destruct caps, sp as [[] [] [] [] wd], sz; reflexivity).
  assert (Ha : has F ALTFLAG = false) by (unfold F; destruct caps, sp as [[] [] [] [] wd], sz; reflexivity).
  by rewrite Hc, Ha.
Qed.

(** ** Pieces *)

Definition is_lit (p : piece) : bool := match p with Lit _ => true | _ => false end.

Lemma lit_run l seen rest ap w :
  Forall (fun c => c <> 0 /\ c <> asc "%") l -> loop (l ++ rest) (Text seen) ap w = loop rest (Text (seen ++ l)) ap w.
Proof.
  intros Hl. revert seen. induction Hl as [|c l [H0 Hp] Hl IH]; intros seen; cbn [app]; [by rewrite app_nil_r|].
  cbn [printf_loop]. rewrite (proj2 (Z.eqb_neq _ _) H0), (proj2 (Z.eqb_neq _ _) Hp), IH. by rewrite <- app_assoc.
Qed.

(** The text in front of a conversion is put when its percent sign is seen. *)
Lemma percent_run rest seen ap w t (st : stores) :
  loop (asc "%" :: rest) (Text seen) ap w (t, st) = loop rest (Format 0 0) ap (u32 (w + len_Z seen)) (t ++ seen, st).
Proof.
  change (loop (asc "%" :: rest) (Text seen) ap w) with
    (let* written := put_string collect seen w in loop rest (Format 0 0) ap written).
  by erewrite bind_run by apply put_string_puts.
Qed.

Lemma percent_again rest ap w t (st : stores) :
  loop (asc "%" :: rest) (Format 0 0) ap w (t, st) = loop rest (Text []) ap (u32 (w + 1)) (t ++ [asc "%"], st).
Proof.
  change (loop (asc "%" :: rest) (Format 0 0) ap w) with
    (let* written := put_string collect [asc "%"] w in loop rest (Text []) ap written).
  by erewrite bind_run by apply put_string_puts.
Qed.

Lemma char_run c rest ap w t (st : stores) :
  0 <= c < 256 ->
  loop (asc "c" :: rest) (Format 0 0) (A32 c :: ap) w (t, st) = loop rest (Text []) ap (u32 (w + 1)) (t ++ [c], st).
Proof.
  intros Hc. change (loop (asc "c" :: rest) (Format 0 0) (A32 c :: ap) w) with
    (let* r := next_arg (A32 c :: ap) in
     match fst r with
     | A32 z => let* written := put_string collect [u8 z] w in loop rest (Text []) (snd r) written
     | _ => fault
     end).
  erewrite bind_run by reflexivity. cbn [fst snd]. erewrite bind_run by apply put_string_puts.
  unfold u8. by rewrite Z.mod_small by lia.
Qed.

Lemma conv_piece_run sp sz c a sign text F' seen rest ap w t (st : stores) :
  spec_ok sp -> isdigit c = false -> modifier c (conv_flags sp sz) = None -> is_conversion c = true ->
  (c =? 0) || (c =? asc "%") || (c =? asc "c") || (c =? asc "n") = false ->
  conversion c (conv_flags sp sz) a = Some (sign, text, F', false) -> len_Z text < 2 ^ 32 ->
  let left := has F' LEFTFORMATFLAG in
  let d := justify left (has F' LEADZEROFLAG) (width sp) (if left then [] else sign_of sign) text in
  loop (conv_chars sp sz c ++ rest) (Text seen) (a :: ap) w (t, st) =
  loop rest (Text []) ap (u32 (w + len_Z (seen ++ d))) (t ++ seen ++ d, st).
Proof.
  intros Hs Hd Hm Hcv Hx Hc Hlen. cbv zeta. unfold conv_chars. cbn [app]. rewrite <- !app_assoc.
  rewrite percent_run, spec_run by done. cbn [app].
  rewrite <- !orb_assoc in Hx. apply orb_false_iff in Hx as [H0%Z.eqb_neq Hx]. rewrite orb_assoc in Hx.
  rewrite (conversion_run c (conv_flags sp sz) (width sp) a sign text F') by (done || apply u32_range).
  rewrite u32_add, length_app, app_assoc. do 2 f_equal. lia.
Qed.

Lemma decimal_len z : 0 <= z < 2 ^ 64 -> len_Z (decimal z) < 2 ^ 32.
Proof.
  intros Hz. assert ((length (decimal z) <= 20)%nat); [|lia]. apply decimal_length; [|lia].
  split; [lia|]. apply Z.lt_le_trans with (2 ^ 64); [lia|]. vm_compute. done.
Qed.

Lemma hexadecimal_len caps n : 0 <= n < 2 ^ 64 -> len_Z (hexadecimal caps n) < 2 ^ 32.
Proof.
  intros Hn. unfold hexadecimal. rewrite length_fmap, length_seq.
  assert (Z.log2 n / 4 < 16).
  { apply Z.div_lt_upper_bound; [lia|]. destruct (decide (n = 0)) as [->|]; [done|]. apply Z.log2_lt_pow2; lia. }
  lia.
Qed.

Lemma left_sign (l : bool) (sign : list Z) : (l = true -> sign = []) -> (if l then [] else sign) = sign.
Proof. destruct l; [|done]. intros H. by rewrite H. Qed.

Lemma piece_run p seen rest ap w t (st : stores) :
  piece_ok p -> is_lit p = false ->
  loop (fmt_of p ++ rest) (Text seen) (args_of p ++ ap) w (t, st) =
  loop rest (Text []) ap (u32 (w + len_Z (seen ++ text_of p))) (t ++ seen ++ text_of p, st).
Proof.
  destruct p as [l| |c|sp s|sp sz z|sp sz n|caps sp sz n]; intros Hok Hl; [done| | | | | |]; cbn [fmt_of args_of text_of app].
  - rewrite percent_run, percent_again. rewrite u32_add, length_app, <- !app_assoc. do 2 f_equal. cbn [length]. lia.
  - rewrite percent_run, char_run by done. rewrite u32_add, length_app, <- !app_assoc. do 2 f_equal. cbn [length]. lia.
  - destruct Hok as (Hs & Hn & Hlen).
    set (F' := Z.land (conv_flags sp Plain) (Z.lnot LEADZEROFLAG)).
    rewrite (conv_piece_run sp Plain (asc "s") _ 0 s F') by
      (done || (unfold conversion; change ((asc "s" =? asc "i") || (asc "s" =? asc "d")) with false; cbv iota;
         rewrite (strlen_cstr s) by (by apply (cstr_intro s [])); cbn [mbind option_bind]; by rewrite take_app_length)).
    assert (H1 : has F' LEFTFORMATFLAG = left sp) by (unfold F'; destruct sp as [[] [] [] [] wd]; reflexivity).
    assert (H2 : has F' LEADZEROFLAG = false) by (unfold F'; destruct sp as [[] [] [] [] wd]; reflexivity).
    rewrite H1, H2. by rewrite left_sign.
  - destruct Hok as (Hs & Hz & Hleft). erewrite conv_piece_run; [|done..|by apply dec_conversion|].
    + rewrite has_left, has_zero, sign_char_spec by auto. rewrite left_sign; [done|].
      intros Hl'. destruct (Hleft Hl') as (H0 & Hp & Hb). unfold dec_sign. rewrite (proj2 (Z.ltb_ge z 0)) by done. by rewrite Hp, Hb.
    + assert (2 ^ (bits sz - 1) <= 2 ^ 63) by (apply Z.pow_le_mono_r; destruct sz; cbn; lia).
      apply decimal_len. lia.
  - destruct Hok as (Hs & Hn & Hp & Hb). erewrite conv_piece_run; [|done..|by apply uns_conversion|].
    + rewrite <- (Z.lor_0_r (conv_flags sp sz)). rewrite has_left, has_zero by auto. rewrite Z.lor_0_r.
      rewrite unsigned_sign by (done || lia). by rewrite left_sign.
    + apply decimal_len. by eapply bits_64.
  - destruct Hok as (Hs & Hn). pose proof (hex_conversion caps sp sz n Hn) as Hc. cbv zeta in Hc.
    rewrite (conv_piece_run _ _ _ _ _ _ _ _ _ _ _ _ _ Hs) with (5 := Hc).
    + rewrite has_left, has_zero by (destruct caps; auto). by rewrite left_sign.
    + by destruct caps.
    + by destruct caps.
    + by destruct caps.
    + by destruct caps.
    + apply hexadecimal_len. by eapply bits_64.
Qed.

Lemma pieces_run ps seen w t (st : stores) :
  Forall piece_ok ps ->
  loop (concat (fmt_of <$> ps) ++ [0]) (Text seen) (concat (args_of <$> ps)) w (t, st) =
  (Ret (u32 (w + len_Z (seen ++ concat (text_of <$> ps)))), (t ++ seen ++ concat (text_of <$> ps), st)).
Proof.
  intros Hok. revert seen w t. induction Hok as [|p ps Hp Hok IH]; intros seen w t; cbn [fmap list_fmap concat].
  - cbn [app printf_loop Z.eqb]. rewrite put_string_puts, app_nil_r. done.
  - rewrite <- app_assoc. destruct (is_lit p) eqn:Hl.
    + destruct p as [l| | | | | |]; try done. cbn [fmt_of args_of text_of app]. rewrite lit_run by done.
      rewrite IH, <- !app_assoc. done.
    + rewrite piece_run, IH by done. cbn [app]. rewrite u32_add, <- !app_assoc. do 2 f_equal. f_equal.
      rewrite !length_app. lia.
Qed.

(** ** Any output function that takes all it gets *)

Section simulation.
Context {St : Type} (out : list Z -> M St Z Z) (R : list Z -> St -> Prop) (Pok : list Z -> Prop).
Hypothesis (Hprefix : forall t u, Pok (t ++ u) -> Pok t).
Hypothesis (Hout : forall t s str, R t s -> Pok (t ++ str) -> exists s', out str s = (Ret (len_Z str), s') /\ R (t ++ str) s').

(** [c] does with [out] what [c'] does with [collect], and counts what is put, as
    long as the text is one that [out] takes. *)
Definition like (c : Z -> EM (St:=St) Z) (c' : Z -> EM (St:=list Z) Z) : Prop :=
  forall w t (st : stores), 0 <= w < 2 ^ 32 ->
  (exists d st', c' w (t, st) = (Ret (u32 (w + len_Z d)), (t ++ d, st')) /\
     forall s, R t s -> Pok (t ++ d) -> exists s', c w (s, st) = (Ret (u32 (w + len_Z d)), (s', st')) /\ R (t ++ d) s') \/
  (exists x', c' w (t, st) = (Fault, x')).

Lemma like_fault : like (fun _ => fault) (fun _ => fault).
Proof. intros w t st _. right. by eexists _. Qed.

Lemma like_ret : like ret ret.
Proof.
  intros w t st Hw. left. exists [], st. rewrite Z.add_0_r, u32_small, app_nil_r by done. split; [done|]. intros s HR _. by exists s.
Qed.

(** One part behind the other. *)
Lemma like_bind c c' k k' : like c c' -> like k k' -> like (fun w => let* w := c w in k w) (fun w => let* w := c' w in k' w).
Proof.
  intros Hc Hk w t st Hw. destruct (Hc w t st Hw) as [(d & st' & H1 & H2)|(x & H1)].
  - destruct (Hk (u32 (w + len_Z d)) (t ++ d) st' (u32_range _)) as [(d2 & st2 & H3 & H4)|(x & H3)].
    + left. exists (d ++ d2), st2. rewrite <- app_assoc in H3, H4. erewrite bind_run by exact H1. rewrite u32_add in H3, H4.
      replace (w + len_Z (d ++ d2)) with (w + len_Z d + len_Z d2) by (rewrite length_app; lia). split; [exact H3|].
      intros s HR HP. destruct (H2 s HR) as (s1 & Hr1 & HR1); [rewrite app_assoc in HP; by eapply Hprefix|].
      destruct (H4 s1 HR1 HP) as (s2 & Hr2 & HR2). exists s2. split; [|done]. by erewrite bind_run by exact Hr1.
    + right. exists x. by erewrite bind_run by exact H1.
  - right. exists x. unfold bind. by rewrite H1.
Qed.

Lemma like_output str t s (st : stores) :
  R t s -> Pok (t ++ str) -> exists s', OUTPUT_STRING out str (s, st) = (Ret (len_Z str), (s', st)) /\ R (t ++ str) s'.
Proof.
  intros HR HP. destruct (Hout t s str HR HP) as (s' & Ho & HR'). exists s'. split; [|done].
  unfold OUTPUT_STRING. cbn [fst snd]. rewrite Ho. cbn. by rewrite (proj2 (Z.ltb_ge _ 0)) by lia.
Qed.

Lemma like_put str : like (put_string out str) (put_string collect str).
Proof.
  intros w t st _. left. exists str, st. split; [by apply put_string_puts|]. intros s HR HP.
  destruct (like_output str t s st HR HP) as (s' & H1 & HR'). exists s'. split; [|done]. unfold put_string. by erewrite bind_run by exact H1.
Qed.

Lemma like_chars n ch : like (put_chars out n ch) (put_chars collect n ch).
Proof.
  induction n as [|n IH]; cbn [put_chars]; [apply like_ret|]. apply like_bind; [apply like_put|done].
Qed.

Lemma like_if (b : bool) c c' k k' : like c c' -> like k k' -> like (fun w => if b then c w else k w) (fun w => if b then c' w else k' w).
Proof. by destruct b. Qed.

Lemma like_output_string text flags num sign : like (output_string out text flags num sign) (output_string collect text flags num sign).
Proof.
  unfold output_string. destruct (has flags LEFTFORMATFLAG).
  - intros w t st _.
    destruct (like_chars (Z.to_nat (num - u32 (len_Z text))) (asc " ") (u32 (w + len_Z text)) (t ++ text) st (u32_range _))
      as [(d & st' & H3 & H4)|(x & H3)].
    + left. exists (text ++ d), st'. rewrite <- app_assoc in H3, H4. rewrite u32_add in H3, H4.
      replace (w + len_Z (text ++ d)) with (w + len_Z text + len_Z d) by (rewrite length_app; lia).
      split; [by erewrite bind_run by apply output_run|]. intros s HR HP.
      destruct (like_output text t s st HR) as (s1 & H1 & HR1); [rewrite app_assoc in HP; by eapply Hprefix|].
      destruct (H4 s1 HR1 HP) as (s2 & H2 & HR2). exists s2. split; [|done]. by erewrite bind_run by exact H1.
    + right. exists x. by erewrite bind_run by apply output_run.
  - apply like_bind; [apply like_if; [apply like_put|apply like_ret]|].
    apply like_bind; [apply like_chars|].
    apply like_bind; [apply like_if; [apply like_put|apply like_ret]|apply like_put].
Qed.

(** Steps that put nothing. *)
Lemma like_pure {A} (o : option A) (c c' : A -> Z -> EM Z) :
  (forall a, like (c a) (c' a)) -> like (fun w => let* a := deref o in c a w) (fun w => let* a := deref o in c' a w).
Proof. intros Hc. destruct o as [a|]; [apply Hc|apply like_fault]. Qed.

Lemma like_arg ap (c c' : arg -> list arg -> Z -> EM Z) :
  (forall a ap', like (c a ap') (c' a ap')) ->
  like (fun w => let* (a, ap') := next_arg ap in c a ap' w) (fun w => let* (a, ap') := next_arg ap in c' a ap' w).
Proof. intros Hc. destruct ap as [|a ap']; [apply like_fault|apply Hc]. Qed.

Lemma like_store (f : stores -> Z -> stores) c c' :
  like c c' ->
  like (fun w => modify (fun s => (fst s, f (snd s) w)) ;; c w) (fun w => modify (fun s => (fst s, f (snd s) w)) ;; c' w).
Proof. intros Hc w t st Hw. apply (Hc w t (f st w) Hw). Qed.

Lemma like_loop fmt : forall m ap, like (printf_loop out fmt m ap) (printf_loop collect fmt m ap).
Proof.
  induction fmt as [|c fmt IH]; intros m ap; [apply like_fault|]. cbn [printf_loop]. destruct m as [seen|flags num].
  - repeat apply like_if; [apply like_put| |apply IH]. apply like_bind; [apply like_put|apply IH].
  - apply like_if; [apply like_ret|]. apply like_if; [apply IH|].
    destruct (modifier c flags); [apply IH|]. repeat apply like_if.
    + apply like_bind; [apply like_put|apply IH].
    + apply like_arg. intros a ap'. destruct a; try apply like_fault. apply like_bind; [apply like_put|apply IH].
    + apply like_arg. intros a ap'. destruct a; try apply like_fault.
      apply (like_store (fun st w => st ++ [(p, fst (stored flags w), snd (stored flags w))])), IH.
    + apply like_arg. intros a ap'. apply like_pure. intros [[[sign text] F'] alt].
      apply like_bind; [apply like_if; [apply like_bind; apply like_put|apply like_ret]|].
      apply like_bind; [apply like_output_string|apply IH].
    + apply like_bind; [apply like_put|]. apply like_bind; [apply like_put|apply IH].
Qed.

(** The engine with [out] does what it does with [collect]; its result is the
    length of the text. *)
Lemma engine_like fmt ap s (st : stores) :
  R [] s ->
  match _printf_engine collect fmt ap ([], st) with
  | (Ret n, (text, st')) => n = s32 (len_Z text) /\ (Pok text -> exists s', _printf_engine out fmt ap (s, st) = (Ret n, (s', st')) /\ R text s')
  | (r, _) => r = Fault
  end.
Proof.
  intros HR. unfold _printf_engine.
  destruct (like_loop fmt (Text []) ap 0 [] st ltac:(lia)) as [(d & st' & -> & Hrun)|(x & ->)]; [|by destruct x].
  cbn [app] in *. split; [rewrite Z.add_0_l; unfold s32, u32; by rewrite Zplus_mod_idemp_l|].
  intros HP. destruct (Hrun s HR HP) as (s' & -> & HR'). by exists s'.
Qed.
End simulation.

(** ** Printing into a buffer *)

(** The buffer [obj] of at least [n] bytes behind [text]. *)
Definition buffered (obj : list Z) (n : nat) (text : list Z) (a : _output_args) : Prop :=
  outstr a = splice 0 (take n text) obj /\ len a = Z.of_nat n /\ pos a = Nat.min n (length text).

Lemma splice_snoc (obj text : list Z) c :
  (length text < length obj)%nat -> <[length text := c]> (splice 0 text obj) = splice 0 (text ++ [c]) obj.
Proof.
  intros Hl. unfold splice. rewrite take_0. cbn [app Nat.add]. rewrite length_app. cbn [length].
  rewrite insert_app_r_alt by done. rewrite Nat.sub_diag, <- app_assoc. f_equal.
  destruct (drop (length text) obj) as [|x l] eqn:Hd.
  { apply (f_equal length) in Hd. rewrite length_drop in Hd. cbn in Hd. lia. }
  cbn. f_equal. rewrite <- drop_drop, Hd. done.
Qed.

Lemma output_loop_run obj n str : forall text a,
  (n <= length obj)%nat -> buffered obj n text a ->
  exists a', _vsnprintf_output_loop str a = (Ret tt, a') /\ buffered obj n (text ++ str) a'.
Proof.
  induction str as [|c str IH]; intros text a Hn Hb; cbn [_vsnprintf_output_loop]; [exists a; by rewrite app_nil_r|].
  destruct a as [o ln p]. destruct Hb as (Ho & Hl & Hp); cbn in Ho, Hl, Hp. subst o ln.
  unfold bind at 1, get. cbn [outstr len pos].
  assert (Hstep : exists a', (if Z.of_nat p <? Z.of_nat n
     then let* o := deref (store p c (splice 0 (take n text) obj)) in put (OutputArgs o (Z.of_nat n) (S p))
     else ret tt : M _output_args Z unit)
       (OutputArgs (splice 0 (take n text) obj) (Z.of_nat n) p) = (Ret tt, a') /\ buffered obj n (text ++ [c]) a').
  { destruct (Z.ltb_spec (Z.of_nat p) (Z.of_nat n)) as [Hlt|Hge].
    - assert (p = length text) as -> by lia. rewrite (take_ge text) by lia.
      unfold store. rewrite length_splice by lia. rewrite (proj2 (Nat.ltb_lt _ _)) by lia.
      eexists. split; [reflexivity|]. unfold buffered; cbn [outstr len pos].
      rewrite splice_snoc by lia. rewrite take_ge by (rewrite length_app; cbn; lia).
      split_and!; [done|done|]. rewrite length_app. cbn. lia.
    - eexists. split; [reflexivity|]. unfold buffered; cbn [outstr len pos].
      rewrite take_app_le by lia. split_and!; [done|done|]. rewrite length_app. cbn. lia. }
  destruct Hstep as (a' & Hrun & Hb'). erewrite bind_run by exact Hrun.
  destruct (IH (text ++ [c]) a' Hn Hb') as (a2 & Hrun2 & Hb2). exists a2. split; [done|]. by rewrite <- app_assoc in Hb2.
Qed.

Lemma output_like obj n text a str :
  (n <= length obj)%nat -> buffered obj n text a ->
  exists a', _vsnprintf_output str a = (Ret (len_Z str), a') /\ buffered obj n (text ++ str) a'.
Proof.
  intros Hn Hb. destruct (output_loop_run obj n str text a Hn Hb) as (a' & Hrun & Hb'). exists a'. split; [|done].
  unfold _vsnprintf_output. by erewrite bind_run by exact Hrun.
Qed.

(** ** Properties *)

Lemma collect_pieces ps (st : stores) :
  Forall piece_ok ps ->
  _printf_engine collect (concat (fmt_of <$> ps) ++ [0]) (concat (args_of <$> ps)) ([], st) =
  (Ret (s32 (len_Z (concat (text_of <$> ps)))), (concat (text_of <$> ps), st)).
Proof.
  intros Hok. unfold _printf_engine. rewrite pieces_run by done. cbn [app]. rewrite Z.add_0_l.
  unfold s32, u32. by rewrite Zplus_mod_idemp_l.
Qed.

Lemma pieces_out {St} (out : list Z -> M St Z Z) (R : list Z -> St -> Prop) (Pok : list Z -> Prop) (s : St) (st : stores) ps :
  (forall t u, Pok (t ++ u) -> Pok t) ->
  (forall t s str, R t s -> Pok (t ++ str) -> exists s', out str s = (Ret (len_Z str), s') /\ R (t ++ str) s') ->
  R [] s -> Forall piece_ok ps -> Pok (concat (text_of <$> ps)) ->
  exists s', _printf_engine out (concat (fmt_of <$> ps) ++ [0]) (concat (args_of <$> ps)) (s, st) =
      (Ret (s32 (len_Z (concat (text_of <$> ps)))), (s', st)) /\ R (concat (text_of <$> ps)) s'.
Proof.
  intros Hpre Hout HR Hok HP.
  pose proof (engine_like out R Pok Hpre Hout (concat (fmt_of <$> ps) ++ [0]) (concat (args_of <$> ps)) s st HR) as He.
  rewrite collect_pieces in He by done. by apply He.
Qed.

(** C12: a format string made of text and the conversions [piece_ok] admits prints
    what the C standard says, through any output function that takes what it gets; the
    result is the length of the text.  Admitted are %d, %u, %x, %X and %s in every
    size with a width and the flags -, 0, + and blank, %c and %% alone; not admitted are a
    %d justified to the left that has a sign (a negative number, + or blank), + and
    blank on %u, a width on %c, the # flag and precisions of numbers. *)
Theorem printf_prints {St} (out : list Z -> M St Z Z) (R : list Z -> St -> Prop) (s : St) (st : stores) ps :
  (forall t s str, R t s -> exists s', out str s = (Ret (len_Z str), s') /\ R (t ++ str) s') ->
  R [] s -> Forall piece_ok ps ->
  exists s', _printf_engine out (concat (fmt_of <$> ps) ++ [0]) (concat (args_of <$> ps)) (s, st) =
      (Ret (s32 (len_Z (concat (text_of <$> ps)))), (s', st)) /\ R (concat (text_of <$> ps)) s'.
Proof.
  intros Hout HR Hok. apply (pieces_out out R (fun _ => True)); auto.
Qed.

(** Printing into a buffer against printing into a list. *)
Lemma vsnprintf_run n fmt ap obj (st : stores) m text st' :
  (0 < n <= length obj)%nat -> len_Z text < 2 ^ 31 ->
  _printf_engine collect fmt ap ([], st) = (Ret m, (text, st')) ->
  vsnprintf (Z.of_nat n) fmt ap (obj, st) = (Ret (len_Z text), (splice 0 (take (n - 1) text ++ [0]) obj, st')).
Proof.
  intros Hn Ht Hc.
  assert (Hb : buffered obj n [] (OutputArgs obj (Z.of_nat n) 0)).
  { unfold buffered. rewrite take_nil. split_and!; [|done|cbn; lia]. cbn. unfold splice. by rewrite take_0, drop_0. }
  pose proof (engine_like _vsnprintf_output (buffered obj n) (fun _ => True) ltac:(done)
    (fun t s str Hs _ => output_like obj n t s str (proj2 Hn) Hs) fmt ap _ st Hb) as He.
  rewrite Hc in He. destruct He as (-> & a & He & Ho & Hl & Hp); [done|]. unfold vsnprintf. cbn [fst snd]. rewrite He.
  rewrite s32_small by lia. rewrite Hp, Ho. destruct (Z.leb_spec (Z.of_nat n) (Z.of_nat (Nat.min n (length text)))) as [Hle|Hgt].
  - rewrite (proj2 (Z.leb_le 0 _)) by lia. replace (Z.to_nat (Z.of_nat n - 1)) with (n - 1)%nat by lia.
    unfold store. rewrite length_splice by (rewrite length_take; lia). rewrite (proj2 (Nat.ltb_lt _ _)) by lia.
    do 3 f_equal. apply list_eq. intros i.
    assert (Ht1 : length (take (n - 1) text) = (n - 1)%nat) by (rewrite length_take; lia).
    rewrite (lookup_splice 0 (take (n - 1) text ++ [0])) by (rewrite length_app, Ht1; cbn; lia). rewrite length_app, Ht1. cbn [length].
    destruct (decide (i = n - 1)%nat) as [->|Hi].
    + rewrite list_lookup_insert_eq by (rewrite length_splice; rewrite ?length_take; lia).
      rewrite decide_True by lia. rewrite lookup_app_r by lia. by replace (n - 1 - 0 - length (take (n - 1) text))%nat with 0%nat by lia.
    + rewrite list_lookup_insert_ne, lookup_splice by (rewrite ?length_take; lia). rewrite length_take.
      repeat case_decide; try lia; [|done]. rewrite lookup_app_l, !lookup_take_lt by lia. done.
  - assert (Hlt : (length text < n)%nat) by lia. rewrite (proj2 (Z.leb_le 0 _)) by lia. rewrite Nat2Z.id.
    rewrite !take_ge by lia. unfold store. rewrite length_splice by lia. rewrite (proj2 (Nat.ltb_lt _ _)) by lia.
    by rewrite splice_snoc by lia.
Qed.

(** C37: for every format and arguments, printing into a buffer of [n > 0] bytes
    stays inside it, leaves the first [n - 1] characters of the text with a
    terminator behind them, and returns the length of the whole text. *)
Theorem vsnprintf_truncates n fmt ap obj (st : stores) m text st' :
  (0 < n <= length obj)%nat -> len_Z text < 2 ^ 31 ->
  _printf_engine collect fmt ap ([], st) = (Ret m, (text, st')) ->
  vsnprintf (Z.of_nat n) fmt ap (obj, st) = (Ret (len_Z text), (splice 0 (take (n - 1) text ++ [0]) obj, st')).
Proof. apply vsnprintf_run. Qed.

(** with a size of 0 vsnprintf never returns without having written the
    terminator in front of the buffer. *)
Theorem vsnprintf_zero fmt ap obj (st : stores) : ~ exists n x, vsnprintf 0 fmt ap (obj, st) = (Ret n, x).
Proof.
  intros (n & x & Hr). unfold vsnprintf in Hr.
  destruct (_printf_engine _ _ _ _) as [[w|e| | |] [a st']]; try discriminate Hr.
  rewrite (proj2 (Z.leb_le 0 (Z.of_nat (pos a)))) in Hr by lia. discriminate Hr.
Qed.

(** a number that is justified to the left loses its sign: %-<width>d of a
    negative number prints what it prints for its absolute value. *)
Theorem printf_left_loses_sign w z (st : stores) :
  0 <= w < 2 ^ 31 -> - 2 ^ 31 <= z < 0 ->
  let text := decimal (- z) ++ replicate (Z.to_nat (w - len_Z (decimal (- z)))) (asc " ") in
  _printf_engine collect (conv_chars (Spec true false false false w) Plain (asc "d") ++ [0]) [A32 (u32 z)] ([], st) =
  (Ret (s32 (len_Z text)), (text, st)).
Proof.
  intros Hw Hz. cbv zeta. unfold _printf_engine. change (A32 (u32 z)) with (int_of Plain z).
  erewrite conv_piece_run; [|done..|apply dec_conversion; cbn; lia|apply decimal_len; lia].
  rewrite has_left by auto. cbn [left]. unfold justify. cbn [app printf_loop Z.eqb].
  rewrite put_string_puts, app_nil_r. replace (Z.abs z) with (- z) by lia.
  rewrite Z.add_0_l, u32_add. cbn [length Z.of_nat]. rewrite Z.add_0_r. unfold s32, u32. by rewrite Zplus_mod_idemp_l.
Qed.

(** a double just below 1 is printed without its point: rounding to six
    places gives seven digits, and the first of them overwrites it. *)
Theorem printf_float_carry :
  _printf_engine collect (chars "%f" ++ [0]) [ADouble 4607182415197137706] ([], []) = (Ret 8, (chars "01000000", [])) /\
  _printf_engine collect (chars "%f" ++ [0]) [ADouble 4609434218613702656] ([], []) = (Ret 8, (chars "1.500000", [])).
Proof. split; vm_compute; reflexivity. Qed.

(** *** On concrete formats *)

Definition sample : list piece :=
  [Lit (chars "n="); Dec (Spec false true false true 6) Plain (-42); Percent;
   Hex true (Spec true false false false 5) Long 48879; Str (Spec false false false false 4) (chars "ab");
   Uns (Spec false false false false 0) LongLong (2 ^ 63); Char 65].

Lemma sample_ok : Forall piece_ok sample.
Proof.
  unfold sample. repeat constructor; try discriminate; try (unfold spec_ok; cbn; lia); cbn; try lia.
  all: try (intros Hl; discriminate Hl).
Qed.

Lemma printf_prints_witness :
  concat (text_of <$> sample) = chars "n=-00042%BEEF   ab9223372036854775808A" /\
  exists s', _printf_engine collect (concat (fmt_of <$> sample) ++ [0]) (concat (args_of <$> sample)) ([], []) =
      (Ret (s32 (len_Z (concat (text_of <$> sample)))), (s', [])) /\ s' = concat (text_of <$> sample).
Proof.
  split; [vm_compute; reflexivity|].
  apply (printf_prints collect (fun t s => s = t) [] [] sample); [|reflexivity|exact sample_ok].
  intros t s str ->. exists (t ++ str). split; reflexivity.
Defined.

Lemma vsnprintf_truncates_witness :
  _printf_engine collect (chars "%s!" ++ [0]) [AStr (Some (chars "hello" ++ [0]))] ([], []) = (Ret 6, (chars "hello!", [])) /\
  vsnprintf (Z.of_nat 4) (chars "%s!" ++ [0]) [AStr (Some (chars "hello" ++ [0]))] (replicate 8 99, []) =
  (Ret 6, (chars "hel" ++ [0; 99; 99; 99; 99], [])).
Proof.
  assert (Hc : _printf_engine collect (chars "%s!" ++ [0]) [AStr (Some (chars "hello" ++ [0]))] ([], []) =
    (Ret 6, (chars "hello!", []))) by (vm_compute; reflexivity).
  split; [exact Hc|].
  apply (vsnprintf_truncates 4 _ _ (replicate 8 99) [] 6 (chars "hello!") []); [cbn; lia|cbn; lia|exact Hc].
Defined.

Lemma printf_left_loses_sign_witness :
  _printf_engine collect (conv_chars (Spec true false false false 5) Plain (asc "d") ++ [0]) [A32 (u32 (-3))] ([], []) =
  (Ret 5, (chars "3    ", [])).
Proof. apply (printf_left_loses_sign 5 (-3) []); lia. Defined.
