(* ===== verification/Number.v ===== *)
(** * lib/libc: strtol.c, strtoll.c, bsearch.c and rand.c

    A string is the object from the pointer on, a returned pointer an offset from it.
    [long] is 32 bits, [long long] 64. *)

From stdpp Require Import prelude list.
From Stdlib Require Import ZArith Lia Ascii.
From S2P Require Import Prelude CMem CString Printf PrintfNum PrintfSpec.

Open Scope Z_scope.

(** ** ctype.c *)

Definition isspace (c : Z) : bool :=
  (c =? asc " ") || (c =? 12) || (c =? 10) || (c =? 13) || (c =? 9) || (c =? 11).
Definition islower (c : Z) : bool := (asc "a" <=? c) && (c <=? asc "z").
Definition isupper (c : Z) : bool := (asc "A" <=? c) && (c <=? asc "Z").
Definition isalpha (c : Z) : bool := isupper c || islower c.

(** ** strtol.c and strtoll.c *)

(** The do loop: the first character that is no space, and what is behind it;
    [i] counts what has been read. *)
Fixpoint skip_spaces (s : list Z) (i : nat) : option (Z * list Z * nat) :=
  match s with
  | [] => None
  | c :: s' => if isspace c then skip_spaces s' (S i) else Some (c, s', S i)
  end.

(** The next character: as a [char], unless the code casts it. *)
Definition next_char (s : list Z) (i : nat) : option (Z * list Z * nat) :=
  match s with [] => None | c :: s' => Some (s8 c, s', S i) end.

(** The value of a digit in any base. *)
Definition digit_of (c : Z) : option Z :=
  if isdigit c then Some (c - asc "0")
  else if isalpha c then Some (c - (if isupper c then asc "A" - 10 else asc "a" - 10))
  else None.

Section strtox.
(** LONG_MIN and LONG_MAX, or LLONG_MIN and LLONG_MAX *)
Context (lmin lmax : Z).

(** The loop over the digits: [c] is the character looked at, [i] the number of
    characters read; behind it are the value, [any], that number and whether errno
    was set. *)
Fixpoint strtox_loop (s : list Z) (neg : bool) (base cutoff cutlim : Z) (c : Z) (i : nat) (acc any : Z) (erange : bool)
    : option (Z * Z * nat * bool) :=
  match digit_of c with
  | None => Some (acc, any, i, erange)
  | Some d =>
      if base <=? d then Some (acc, any, i, erange)
      else
        let '(acc, any, erange) :=
          if any <? 0 then (acc, any, erange)
          else if neg then
            if (acc <? cutoff) || ((acc =? cutoff) && (cutlim <? d)) then (lmin, -1, true)
            else (acc * base - d, 1, erange)
          else
            if (cutoff <? acc) || ((acc =? cutoff) && (cutlim <? d)) then (lmax, -1, true)
            else (acc * base + d, 1, erange) in
        match s with
        | [] => None
        | c' :: s' => strtox_loop s' neg base cutoff cutlim c' (S i) acc any erange
        end
  end.

(** The value, *endptr and whether errno is ERANGE. *)
Definition strtox (nptr : list Z) (base : Z) : option (Z * nat * bool) :=
  '(c, s, i) ← skip_spaces nptr 0;
  let neg := c =? asc "-" in
  '(c, s, i) ← (if neg || (c =? asc "+") then next_char s i else Some (c, s, i));
  hex ← (if ((base =? 0) || (base =? 16)) && (c =? asc "0")
         then x ← s !! 0%nat; Some ((x =? asc "x") || (x =? asc "X")) else Some false);
  '(c, s, i, base) ← (if hex : bool
                      then '(c, s, i) ← next_char (drop 1 s) (S i); Some (c, s, i, 16)
                      else Some (c, s, i, base));
  let base := if base =? 0 then (if c =? asc "0" then 8 else 10) else base in
  let cutoff := if neg then lmin else lmax in
  let cutlim := Z.rem cutoff base in
  let cutoff := Z.quot cutoff base in
  let '(cutoff, cutlim) :=
    if neg then
      let '(cutoff, cutlim) := if 0 <? cutlim then (cutoff + 1, cutlim - base) else (cutoff, cutlim) in
      (cutoff, - cutlim)
    else (cutoff, cutlim) in
  '(acc, any, i, erange) ← strtox_loop s neg base cutoff cutlim c i 0 0 false;
  Some (acc, if any =? 0 then 0%nat else (i - 1)%nat, erange).
End strtox.

Definition strtol (nptr : list Z) (base : Z) : option (Z * nat * bool) := strtox (- 2 ^ 31) (2 ^ 31 - 1) nptr base.
Definition strtoll (nptr : list Z) (base : Z) : option (Z * nat * bool) := strtox (- 2 ^ 63) (2 ^ 63 - 1) nptr base.

(** ** bsearch.c *)

Section bsearch.
Context {A : Type} (compare : A -> Z) (l : list A) (size : Z).

(** The element at [base + mid * size], by its index: the address wraps around, and
    what is not an element of the array is an access outside it. *)
Definition element (mid : Z) : option (nat * A) :=
  let off := u32 (mid * size) in
  if off mod size =? 0 then x ← l !! Z.to_nat (off / size); Some (Z.to_nat (off / size), x) else None.

Fixpoint bsearch_loop (fuel : nat) (low high : Z) : outcome Empty_set (option nat) :=
  match fuel with
  | O => Hang
  | S fuel' =>
      let mid := u32 (low + u32 (high - low) / 2) in
      match element mid with
      | None => Fault
      | Some (i, mid_elem) =>
          let r := compare mid_elem in
          if r <? 0 then
            if mid =? 0 then Ret None else bsearch_loop fuel' low (mid - 1)
          else if 0 <? r then
            let low := u32 (mid + 1) in
            if (low <? mid) || (high <? low) then Ret None else bsearch_loop fuel' low high
          else Ret (Some i)
      end
  end.

(** Every turn but the last takes at least one element away. *)
Definition bsearch : outcome Empty_set (option nat) :=
  let num_elems := Z.of_nat (length l) in
  if num_elems =? 0 then Ret None else bsearch_loop (S (S (length l))) 0 (num_elems - 1).
End bsearch.

(** ** rand.c: the functions on randseed *)

Definition srand (seed : Z) : Z := u32 seed.

Definition rand_add_entropy (buf : list Z) (randseed : Z) : Z :=
  match buf with
  | [] => randseed
  | _ => Z.lxor randseed
           (fold_left (fun enp c => Z.lxor (Z.lor (u32 (Z.shiftl enp 8)) (Z.shiftr enp 24)) c) buf 0)
  end.

(** The result, an int, and the new seed. *)
Definition rand (randseed : Z) : Z * Z :=
  let randseed := u32 (u32 (randseed * 1664525) + 1013904223) in (s32 randseed, randseed).

(** ** strtol: the digits *)

(** The number that digits in a base stand for. *)
Definition digits_ok (base : Z) (ds : list Z) : Prop := Forall (fun c => exists d, digit_of c = Some d /\ d < base) ds.
Definition digits_value (base : Z) (ds : list Z) (v : Z) : Z :=
  fold_left (fun v c => v * base + default 0 (digit_of c)) ds v.

(** A character that ends a number. *)
Definition ends (base c : Z) : Prop := match digit_of c with None => True | Some d => base <= d end.

Definition clamp (lmin lmax v : Z) : Z := Z.max lmin (Z.min lmax v).

Lemma digit_of_nonneg c d : digit_of c = Some d -> 0 <= d.
Proof.
  unfold digit_of, isdigit, isalpha, isupper, islower. change (asc "0") with 48. change (asc "A") with 65.
  change (asc "Z") with 90. change (asc "a") with 97. change (asc "z") with 122.
  repeat case_match; intros; simplify_eq; bool_to_prop;
    repeat match goal with Hb : (_ || _) = true |- _ => apply orb_prop in Hb as [?|?] end; bool_to_prop; lia.
Qed.

Lemma digits_value_mono base ds v : 1 < base -> 0 <= v -> digits_ok base ds -> v <= digits_value base ds v.
Proof.
  intros Hb Hv Hds. revert v Hv. induction Hds as [|c ds (d & Hc & Hd) Hds IH]; intros v Hv; cbn [digits_value fold_left]; [lia|].
  rewrite Hc. cbn [default from_option id]. pose proof (digit_of_nonneg c d Hc).
  assert (Hvb : v <= v * base + d) by nia. specialize (IH (v * base + d) ltac:(lia)). unfold digits_value in IH. lia.
Qed.

Section loop.
Context (lmin lmax base : Z).
Hypothesis (Hbase : 1 < base).
Hypothesis (Hmin : lmin < 0) (Hmax : 0 < lmax).

(** Behind an overflow the digits are only read. *)
Lemma loop_overflow neg cutoff cutlim c ds e rest i acc :
  digits_ok base (c :: ds) -> ends base e ->
  strtox_loop lmin lmax (ds ++ e :: rest) neg base cutoff cutlim c i acc (-1) true =
  Some (acc, -1, (i + length (c :: ds))%nat, true).
Proof.
  intros Hds He. revert c i Hds. induction ds as [|c' ds IH]; intros c i Hds;
    apply Forall_cons in Hds as [(d & Hc & Hd) Hds]; cbn [strtox_loop app]; rewrite Hc, (proj2 (Z.leb_gt base d)) by done;
    cbn [Z.ltb Z.compare].
  - destruct rest; cbn [strtox_loop]; unfold ends in He; destruct (digit_of e) as [x|];
      rewrite ?(proj2 (Z.leb_le base x)) by done; cbn [length]; do 3 f_equal; lia.
  - rewrite IH by done. cbn [length]. do 3 f_equal. lia.
Qed.

(** The test of the code: one more digit goes over the limit. *)
Lemma cutoff_test limit v d :
  0 < limit -> 0 <= v -> 0 <= d < base ->
  (Z.quot limit base <? v) || ((v =? Z.quot limit base) && (Z.rem limit base <? d)) = (limit <? v * base + d).
Proof.
  intros Hl Hv Hd. pose proof (Z.quot_rem limit base ltac:(lia)) as Hq.
  pose proof (Z.rem_bound_pos limit base ltac:(lia) ltac:(lia)) as Hr.
  set (q := Z.quot limit base) in *. set (r := Z.rem limit base) in *. clearbody q r.
  destruct (Z.ltb_spec q v) as [H1|H1]; cbn [orb]; [symmetry; apply Z.ltb_lt; nia|].
  destruct (Z.eqb_spec v q) as [->|H2]; cbn [andb].
  - destruct (Z.ltb_spec r d); symmetry; [apply Z.ltb_lt|apply Z.ltb_ge]; lia.
  - symmetry. apply Z.ltb_ge. nia.
Qed.

Lemma loop_pos c ds e rest i v any :
  0 <= v <= lmax -> 0 <= any -> digits_ok base (c :: ds) -> ends base e ->
  let v' := digits_value base (c :: ds) v in
  strtox_loop lmin lmax (ds ++ e :: rest) false base (Z.quot lmax base) (Z.rem lmax base) c i v any false =
  Some (Z.min lmax v', (if lmax <? v' then -1 else 1), (i + length (c :: ds))%nat, lmax <? v').
Proof.
  intros Hv Hany Hds He. cbv zeta. revert c i v any Hv Hany Hds.
  induction ds as [|c' ds IH]; intros c i v any Hv Hany Hds;
    pose proof Hds as [(d & Hc & Hd) Hds']%Forall_cons; pose proof (digit_of_nonneg c d Hc) as Hd0;
    cbn [strtox_loop app digits_value fold_left]; rewrite Hc, (proj2 (Z.leb_gt base d)) by done;
    rewrite (proj2 (Z.ltb_ge any 0)) by done; rewrite (cutoff_test lmax v d) by lia; cbn [default from_option id];
    destruct (Z.ltb_spec lmax (v * base + d)) as [Hov|Hin].
  - destruct rest; cbn [strtox_loop]; unfold ends in He; destruct (digit_of e) as [x|];
      rewrite ?(proj2 (Z.leb_le base x)) by done; cbn [length]; rewrite Z.min_l by lia; do 3 f_equal; lia.
  - destruct rest; cbn [strtox_loop]; unfold ends in He; destruct (digit_of e) as [x|];
      rewrite ?(proj2 (Z.leb_le base x)) by done; cbn [length]; rewrite Z.min_r by lia; do 3 f_equal; lia.
  - rewrite loop_overflow by done. pose proof (digits_value_mono base (c' :: ds) (v * base + d) Hbase ltac:(nia) Hds') as Hm.
    unfold digits_value in Hm. cbn [fold_left] in Hm. rewrite Z.min_l by lia. rewrite (proj2 (Z.ltb_lt _ _)) by lia.
    cbn [length]. do 3 f_equal. lia.
  - rewrite IH by (done || lia || nia). unfold digits_value. cbn [fold_left length]. do 3 f_equal. lia.
Qed.

Lemma loop_neg c ds e rest i v any :
  0 <= v <= - lmin -> 0 <= any -> digits_ok base (c :: ds) -> ends base e ->
  let v' := digits_value base (c :: ds) v in
  strtox_loop lmin lmax (ds ++ e :: rest) true base (- Z.quot (- lmin) base) (Z.rem (- lmin) base) c i (- v) any false =
  Some (Z.max lmin (- v'), (if - lmin <? v' then -1 else 1), (i + length (c :: ds))%nat, - lmin <? v').
Proof.
  intros Hv Hany Hds He. cbv zeta. revert c i v any Hv Hany Hds.
  induction ds as [|c' ds IH]; intros c i v any Hv Hany Hds;
    pose proof Hds as [(d & Hc & Hd) Hds']%Forall_cons; pose proof (digit_of_nonneg c d Hc) as Hd0;
    cbn [strtox_loop app digits_value fold_left]; rewrite Hc, (proj2 (Z.leb_gt base d)) by done;
    rewrite (proj2 (Z.ltb_ge any 0)) by done;
    replace ((- v <? - Z.quot (- lmin) base) || ((- v =? - Z.quot (- lmin) base) && (Z.rem (- lmin) base <? d)))
      with (- lmin <? v * base + d)
      by (rewrite <- cutoff_test by lia; f_equal; [apply eq_true_iff_eq; rewrite !Z.ltb_lt; lia|];
          f_equal; apply eq_true_iff_eq; rewrite !Z.eqb_eq; lia);
    cbn [default from_option id]; destruct (Z.ltb_spec (- lmin) (v * base + d)) as [Hov|Hin].
  - destruct rest; cbn [strtox_loop]; unfold ends in He; destruct (digit_of e) as [x|];
      rewrite ?(proj2 (Z.leb_le base x)) by done; cbn [length]; rewrite Z.max_l by lia; do 3 f_equal; lia.
  - replace (- v * base - d) with (- (v * base + d)) by lia.
    destruct rest; cbn [strtox_loop]; unfold ends in He; destruct (digit_of e) as [x|];
      rewrite ?(proj2 (Z.leb_le base x)) by done; cbn [length]; rewrite Z.max_r by lia; do 3 f_equal; lia.
  - rewrite loop_overflow by done. pose proof (digits_value_mono base (c' :: ds) (v * base + d) Hbase ltac:(nia) Hds') as Hm.
    unfold digits_value in Hm. cbn [fold_left] in Hm. rewrite Z.max_l by lia. rewrite (proj2 (Z.ltb_lt _ _)) by lia.
    cbn [length]. do 3 f_equal. lia.
  - replace (- v * base - d) with (- (v * base + d)) by lia.
    rewrite IH by (done || lia || nia). unfold digits_value. cbn [fold_left length]. do 3 f_equal. lia.
Qed.
End loop.
