(* ===== verification/NumberProps.v ===== *)
(** * Reading numbers and searching: strtol against the value of the digits, printf
    and strtol as inverses, bsearch *)

From stdpp Require Import prelude list strings pretty.
From Stdlib Require Import ZArith Lia Ascii.
From S2P Require Import Prelude CMem CString Printf PrintfNum PrintfSpec PrintfProps Number.

Open Scope Z_scope.
Open Scope lk_scope.

(** ** strtol *)

Lemma skip_spaces_run sp c rest i :
  Forall (fun c => isspace c = true) sp -> isspace c = false ->
  skip_spaces (sp ++ c :: rest) i = Some (c, rest, (i + length sp + 1)%nat).
Proof.
  intros Hsp Hc. revert i. induction Hsp as [|x sp Hx Hsp IH]; intros i; cbn [app skip_spaces].
  - rewrite Hc. cbn. do 2 f_equal. lia.
  - rewrite Hx, IH. cbn. do 2 f_equal. lia.
Qed.

(** Digits are neither spaces nor signs, and fit a char. *)
Lemma digit_char c d : digit_of c = Some d -> 48 <= c <= 122 /\ c <> asc "-" /\ c <> asc "+" /\ isspace c = false /\ s8 c = c.
Proof.
  unfold digit_of, isdigit, isalpha, isupper, islower, isspace. change (asc "0") with 48. change (asc "A") with 65.
  change (asc "Z") with 90. change (asc "a") with 97. change (asc "z") with 122. change (asc "-") with 45.
  change (asc "+") with 43. change (asc " ") with 32. intros H.
  assert (Hc : 48 <= c <= 122).
  { repeat case_match; simplify_eq; bool_to_prop;
    repeat match goal with Hb : (_ || _) = true |- _ => apply orb_prop in Hb as [?|?] end; bool_to_prop; lia. }
  split_and!; [lia|lia|lia|lia| |apply s8_small; lia].
  repeat (apply orb_false_iff; split); apply Z.eqb_neq; lia.
Qed.

Definition sign_ok (sign : list Z) : Prop := sign = [] \/ sign = [asc "-"] \/ sign = [asc "+"].
Definition is_neg (sign : list Z) : bool := match sign with c :: _ => c =? asc "-" | [] => false end.

Section strtox.
Context (lmin lmax : Z).
Hypothesis (Hmin : lmin < 0) (Hmax : 0 < lmax).

Lemma strtox_run sp sign ds e rest base :
  Forall (fun c => isspace c = true) sp -> sign_ok sign -> 2 <= base <= 36 ->
  ds <> [] -> digits_ok base ds -> ends base e -> (base = 16 -> e <> asc "x" /\ e <> asc "X") ->
  strtox lmin lmax (sp ++ sign ++ ds ++ e :: rest) base =
  let v := digits_value base ds 0 in
  let n := length (sp ++ sign ++ ds) in
  Some (if is_neg sign then (Z.max lmin (- v), n, - lmin <? v) else (Z.min lmax v, n, lmax <? v)).
Proof.
  intros Hsp Hsign Hbase Hne Hds He Hx. destruct ds as [|c ds]; [done|].
  pose proof Hds as [(d & Hd & Hdb) Hds']%Forall_cons.
  destruct (digit_char c d Hd) as (Hc & Hc1 & Hc2 & Hcs & Hc8).
  assert (Hhead : (if ((base =? 0) || (base =? 16)) && (c =? asc "0")
     then x ← (ds ++ e :: rest) !! 0%nat; Some ((x =? asc "x") || (x =? asc "X")) else Some false) = Some false).
  { rewrite (proj2 (Z.eqb_neq base 0)) by lia. cbn [orb].
    destruct (Z.eqb_spec base 16) as [->|]; [|done]. destruct (c =? asc "0"); [|done]. cbn [andb].
    destruct ds as [|x ds]; cbn.
    - destruct (Hx eq_refl) as [H1 H2]. by rewrite (proj2 (Z.eqb_neq _ _) H1), (proj2 (Z.eqb_neq _ _) H2).
    - apply Forall_cons in Hds' as [(dx & Hdx & Hlt) _].
      destruct (Z.eqb_spec x (asc "x")) as [->|]; [vm_compute in Hdx; injection Hdx as <-; lia|].
      destruct (Z.eqb_spec x (asc "X")) as [->|]; [vm_compute in Hdx; injection Hdx as <-; lia|done]. }
  assert (Hfin : forall neg i, (1 <= i)%nat ->
    (hex ← (if ((base =? 0) || (base =? 16)) && (c =? asc "0")
         then x ← (ds ++ e :: rest) !! 0%nat; Some ((x =? asc "x") || (x =? asc "X")) else Some false);
    '(c, s, i, base) ← (if hex : bool
                      then '(c, s, i) ← next_char (drop 1 (ds ++ e :: rest)) (S i); Some (c, s, i, 16)
                      else Some (c, (ds ++ e :: rest), i, base));
    let base := if base =? 0 then (if c =? asc "0" then 8 else 10) else base in
    let cutoff := if neg : bool then lmin else lmax in
    let cutlim := Z.rem cutoff base in
    let cutoff := Z.quot cutoff base in
    let '(cutoff, cutlim) :=
      if neg then
        let '(cutoff, cutlim) := if 0 <? cutlim then (cutoff + 1, cutlim - base) else (cutoff, cutlim) in
        (cutoff, - cutlim)
      else (cutoff, cutlim) in
    '(acc, any, i, erange) ← strtox_loop lmin lmax s neg base cutoff cutlim c i 0 0 false;
    Some (acc, if any =? 0 then 0%nat else (i - 1)%nat, erange)) =
    let v := digits_value base (c :: ds) 0 in
    Some (if neg then (Z.max lmin (- v), (i + length ds)%nat, - lmin <? v) else (Z.min lmax v, (i + length ds)%nat, lmax <? v))).
  { intros neg i Hi. rewrite Hhead. cbn [mbind option_bind]. rewrite (proj2 (Z.eqb_neq base 0)) by lia. cbv zeta.
    assert (Hlen : (i + length (c :: ds) - 1 = i + length ds)%nat) by (cbn; lia). destruct neg.
    - assert (Hr : Z.rem lmin base = - Z.rem (- lmin) base) by (rewrite Z.rem_opp_l by lia; lia).
      assert (Hq : Z.quot lmin base = - Z.quot (- lmin) base) by (rewrite Z.quot_opp_l by lia; lia).
      pose proof (Z.rem_bound_pos (- lmin) base ltac:(lia) ltac:(lia)).
      rewrite Hr, Hq, (proj2 (Z.ltb_ge 0 _)) by lia. rewrite Z.opp_involutive.
      pose proof (loop_neg lmin lmax base ltac:(lia) Hmin c ds e rest i 0 0 ltac:(lia) ltac:(lia) Hds He) as Hl.
      change (- 0) with 0 in Hl. rewrite Hl.
      cbn [mbind option_bind]. rewrite Hlen. by destruct (- lmin <? _).
    - rewrite (loop_pos lmin lmax base ltac:(lia) Hmax c ds e rest i 0 0) by (done || lia).
      cbn [mbind option_bind]. rewrite Hlen. by destruct (lmax <? _). }
  unfold strtox. destruct Hsign as [->|[->| ->]]; cbn [app is_neg].
  - rewrite skip_spaces_run by done. cbn [mbind option_bind].
    rewrite (proj2 (Z.eqb_neq c (asc "-")) Hc1), (proj2 (Z.eqb_neq c (asc "+")) Hc2). cbn [orb].
    cbn [mbind option_bind]. rewrite (Hfin false) by lia. rewrite length_app. cbn [length]. cbv zeta. do 3 f_equal. lia.
  - rewrite skip_spaces_run by done. cbn [mbind option_bind orb Z.eqb]. 
    change (asc "-" =? asc "-") with true. cbn [orb next_char mbind option_bind]. rewrite Hc8.
    rewrite (Hfin true) by lia. rewrite length_app. cbn [length]. cbv zeta. do 3 f_equal. lia.
  - rewrite skip_spaces_run by done. cbn [mbind option_bind]. change (asc "+" =? asc "-") with false.
    change (asc "+" =? asc "+") with true. cbn [orb next_char mbind option_bind]. rewrite Hc8.
    rewrite (Hfin false) by lia. rewrite length_app. cbn [length]. cbv zeta. do 3 f_equal. lia.
Qed.
End strtox.

(** C14: strtol and strtoll read spaces, a sign and digits of a base from 2 to 36: the
    result is the number they stand for, or the bound of the type it passes, exactly
    then with errno ERANGE; *endptr is the first character behind the digits. *)
Theorem strtol_correct sp sign ds e rest base :
  Forall (fun c => isspace c = true) sp -> sign_ok sign -> 2 <= base <= 36 ->
  ds <> [] -> digits_ok base ds -> ends base e -> (base = 16 -> e <> asc "x" /\ e <> asc "X") ->
  let s := sp ++ sign ++ ds ++ e :: rest in
  let v := if is_neg sign then - digits_value base ds 0 else digits_value base ds 0 in
  let n := length (sp ++ sign ++ ds) in
  strtol s base = Some (clamp (- 2 ^ 31) (2 ^ 31 - 1) v, n, bool_decide (~ - 2 ^ 31 <= v < 2 ^ 31)) /\
  strtoll s base = Some (clamp (- 2 ^ 63) (2 ^ 63 - 1) v, n, bool_decide (~ - 2 ^ 63 <= v < 2 ^ 63)).
Proof.
  intros Hsp Hsign Hbase Hne Hds He Hx. cbv zeta.
  pose proof (digits_value_mono base ds 0 ltac:(lia) ltac:(lia) Hds) as Hv. unfold strtol, strtoll, clamp.
  rewrite !strtox_run by (done || lia). cbv zeta. set (v := digits_value base ds 0) in *. clearbody v.
  split; destruct (is_neg sign); (f_equal; f_equal; [f_equal; lia|]); case_bool_decide; lia.
Qed.

Lemma strtol_correct_witness :
  let s := chars " -2147483649," in
  strtol s 10 = Some (- 2 ^ 31, 12%nat, true) /\ strtoll s 10 = Some (- 2147483649, 12%nat, false).
Proof.
  assert (Hds : digits_ok 10 (chars "2147483649")).
  { unfold digits_ok. repeat constructor; eexists; (split; [reflexivity|reflexivity]). }
  destruct (strtol_correct [32] [45] (chars "2147483649") 44 [] 10) as [H1 H2];
    [by constructor|right; by left|lia|done|exact Hds|done|lia|].
  split; [exact H1|exact H2].
Defined.

(** ** What printf prints, strtol reads *)

(** [ds] are the digits of [n]. *)
Definition reads (base : Z) (ds : list Z) (n : Z) : Prop := ds <> [] /\ digits_ok base ds /\ digits_value base ds 0 = n.

Lemma reads_one base c d : digit_of c = Some d -> d < base -> reads base [c] d.
Proof.
  intros Hc Hd. split_and!; [done|by repeat constructor; eexists|]. unfold digits_value. cbn [fold_left]. by rewrite Hc.
Qed.

Lemma reads_snoc base ds n c d : reads base ds n -> digit_of c = Some d -> d < base -> reads base (ds ++ [c]) (n * base + d).
Proof.
  intros (Hne & Hok & Hv) Hc Hd. split_and!; [by destruct ds| |].
  - apply Forall_app. split; [done|]. repeat constructor. by eexists.
  - unfold digits_value in *. rewrite fold_left_app, Hv. cbn [fold_left]. by rewrite Hc.
Qed.

Lemma reads_zeros base k ds n : 0 < base -> reads base ds n -> reads base (replicate k (asc "0") ++ ds) n.
Proof.
  intros Hb Hr. induction k as [|k IH]; cbn [replicate app]; [done|]. destruct IH as (Hne & Hok & Hv).
  split_and!; [done| |done]. constructor; [by exists 0|done].
Qed.

Lemma reads_by base f n :
  1 < base -> (forall n, 0 <= n < base -> exists c, f n = [c] /\ digit_of c = Some n) ->
  (forall n, base <= n -> exists c, f n = f (n / base) ++ [c] /\ digit_of c = Some (n mod base)) ->
  0 <= n -> reads base (f n) n.
Proof.
  intros Hb Hsmall Hstep. revert n. refine (digit_ind base _ Hb _ _).
  - intros n Hn. destruct (Hsmall n Hn) as (c & -> & Hc). apply reads_one; [done|lia].
  - intros n Hn IH. destruct (Hstep n Hn) as (c & -> & Hc). pose proof (Z.mod_pos_bound n base ltac:(lia)).
    replace (reads base _ n) with (reads base (f (n / base) ++ [c]) (n / base * base + n mod base))
      by (f_equal; pose proof (Z.div_mod n base); lia).
    apply reads_snoc; [done|done|lia].
Qed.

Lemma decimal_digit d : 0 <= d < 10 -> digit_of (d + asc "0") = Some d.
Proof.
  intros Hd. unfold digit_of, isdigit. change (asc "0") with 48. change (asc "9") with 57.
  rewrite (proj2 (Z.leb_le 48 _)), (proj2 (Z.leb_le _ 57)) by lia. cbn. f_equal. lia.
Qed.

Lemma reads_decimal n : 0 <= n -> reads 10 (decimal n) n.
Proof.
  apply reads_by; [lia| |]; intros m Hm; eexists; (split; [first [by apply decimal_small|by apply decimal_step]|]).
  - by apply decimal_digit.
  - apply decimal_digit, Z.mod_pos_bound. lia.
Qed.

Lemma hex_digit caps d : 0 <= d < 16 -> digit_of (hextable caps d) = Some d.
Proof.
  intros Hd. assert (d = 0 \/ d = 1 \/ d = 2 \/ d = 3 \/ d = 4 \/ d = 5 \/ d = 6 \/ d = 7 \/ d = 8 \/ d = 9 \/ d = 10 \/
    d = 11 \/ d = 12 \/ d = 13 \/ d = 14 \/ d = 15) as Hc by lia.
  by destruct caps; destruct_or! Hc; subst.
Qed.

Lemma reads_hexadecimal caps n : 0 <= n -> reads 16 (hexadecimal caps n) n.
Proof.
  apply reads_by; [lia| |]; intros m Hm; eexists; (split; [first [by apply hexadecimal_small|by apply hexadecimal_step]|]).
  - by apply hex_digit.
  - apply hex_digit, Z.mod_pos_bound. lia.
Qed.

(** A justified number: spaces, its sign, zeros, its digits, spaces. *)
Lemma justify_shape l z w sign text : exists k k0 k1,
  justify l z w sign text = replicate k (asc " ") ++ sign ++ (replicate k0 (asc "0") ++ text) ++ replicate k1 (asc " ").
Proof.
  unfold justify. set (pad := Z.to_nat _). destruct l; [exists 0%nat, 0%nat, pad; done|].
  destruct z; [exists 0%nat, pad, 0%nat|exists pad, 0%nat, 0%nat]; cbn; by rewrite app_nil_r.
Qed.

Lemma strtox_justified lmin lmax base l z w blanks sign text n :
  lmin < 0 < lmax -> base = 10 \/ base = 16 -> Forall (fun c => isspace c = true) blanks -> sign_ok sign ->
  reads base text n -> (if is_neg sign then n <= - lmin else n <= lmax) ->
  exists e, strtox lmin lmax (justify l z w (blanks ++ sign) text ++ [0]) base =
            Some (if is_neg sign then - n else n, e, false).
Proof.
  intros Hl Hbase Hbl Hsign Hr Hn. destruct (justify_shape l z w (blanks ++ sign) text) as (k & k0 & k1 & ->).
  apply (reads_zeros base k0) in Hr as (Hne & Hok & Hv); [|lia].
  set (ds := replicate k0 (asc "0") ++ text) in *. clearbody ds.
  assert (exists e rest, replicate k1 (asc " ") ++ [0] = e :: rest /\ (e = 0 \/ e = 32)) as (e & rest & He & Hcase).
  { destruct k1; cbn; eauto. }
  replace ((replicate k (asc " ") ++ (blanks ++ sign) ++ ds ++ replicate k1 (asc " ")) ++ [0])
    with ((replicate k (asc " ") ++ blanks) ++ sign ++ ds ++ e :: rest) by (rewrite <- He, <- !app_assoc; done).
  pose proof (digits_value_mono base ds 0 ltac:(lia) ltac:(lia) Hok).
  rewrite strtox_run; [|lia|lia| |done|lia|done|done| |].
  - cbv zeta. rewrite Hv. eexists. destruct (is_neg sign); do 3 f_equal; lia.
  - apply Forall_app. split; [|done]. by apply Forall_replicate.
  - destruct Hcase as [-> | ->]; done.
  - intros _. destruct Hcase as [-> | ->]; done.
Qed.

(** C13: a number printed with %d reads back with strtol in base 10, and one below
    2^(bits-1) printed with %x or %X in base 16, with the widths and the flags that
    [piece_ok] admits (a %d justified to the left only for a number without a sign, no
    # flag); strtoll reads back the numbers of %lld and %llx. *)
Theorem printf_strtol_roundtrip sp sz z caps st :
  (piece_ok (Dec sp sz z) -> exists text e, _printf_engine collect (fmt_of (Dec sp sz z) ++ [0]) (args_of (Dec sp sz z)) ([], st) =
      (Ret (s32 (len_Z text)), (text, st)) /\
    (if bits sz <? 64 then strtol else strtoll) (text ++ [0]) 10 = Some (z, e, false)) /\
  (piece_ok (Hex caps sp sz z) -> z < 2 ^ (bits sz - 1) ->
    exists text e, _printf_engine collect (fmt_of (Hex caps sp sz z) ++ [0]) (args_of (Hex caps sp sz z)) ([], st) =
      (Ret (s32 (len_Z text)), (text, st)) /\
    (if bits sz <? 64 then strtol else strtoll) (text ++ [0]) 16 = Some (z, e, false)).
Proof.
  assert (Hone : forall p, piece_ok p -> _printf_engine collect (fmt_of p ++ [0]) (args_of p) ([], st) =
    (Ret (s32 (len_Z (text_of p))), (text_of p, st))).
  { intros p Hp. pose proof (collect_pieces [p] st ltac:(by constructor)) as H. cbn [fmap list_fmap concat] in H.
    by rewrite !app_nil_r in H. }
  assert (Hlim : exists lmin lmax, (if bits sz <? 64 then strtol else strtoll) = strtox lmin lmax /\
    lmin < 0 < lmax /\ lmin <= - 2 ^ (bits sz - 1) /\ 2 ^ (bits sz - 1) - 1 <= lmax).
  { destruct sz; cbn; (exists (- 2 ^ 31), (2 ^ 31 - 1); by split_and!) || (exists (- 2 ^ 63), (2 ^ 63 - 1); by split_and!). }
  destruct Hlim as (lmin & lmax & -> & Hl & Hmin & Hmax). split; intros Hp; [exists (text_of (Dec sp sz z))|intros Hz; exists (text_of (Hex caps sp sz z))];
    (rewrite Hone by done).
  - destruct Hp as (_ & Hz & _). cbn [text_of].
    assert (exists blanks sign, dec_sign sp z = blanks ++ sign /\ Forall (fun c => isspace c = true) blanks /\ sign_ok sign /\
      is_neg sign = (z <? 0)) as (blanks & sign & -> & Hbl & Hs & Hneg).
    { unfold dec_sign. destruct (z <? 0); [by exists [], [asc "-"]; split_and!; [| |right; left|]|].
      destruct (plus sp); [by exists [], [asc "+"]; split_and!; [| |right; right|]|].
      destruct (blank sp); [exists [asc " "], []|exists [], []]; (split_and!; [done|by repeat constructor|by left|done]). }
    destruct (strtox_justified lmin lmax 10 (left sp) (zero sp) (width sp) blanks sign _ _ Hl ltac:(by left) Hbl Hs
      (reads_decimal (Z.abs z) ltac:(lia))) as [e He].
    { rewrite Hneg. destruct (Z.ltb_spec z 0); lia. }
    exists e. split; [reflexivity|]. rewrite He, Hneg. do 3 f_equal. destruct (Z.ltb_spec z 0); lia.
  - destruct Hp as [_ Hz']. cbn [text_of].
    destruct (strtox_justified lmin lmax 16 (left sp) (zero sp) (width sp) [] [] _ _ Hl ltac:(by right) ltac:(done)
      ltac:(by left) (reads_hexadecimal caps z ltac:(lia))) as [e He]; [cbn; lia|].
    exists e. split; [reflexivity|]. exact He.
Qed.

Lemma printf_strtol_roundtrip_witness :
  let p := Dec (Spec false true false true 7) Plain (-2147) in
  exists text e, _printf_engine collect (fmt_of p ++ [0]) (args_of p) ([], []) = (Ret (s32 (len_Z text)), (text, [])) /\
    strtol (text ++ [0]) 10 = Some (-2147, e, false).
Proof.
  destruct (printf_strtol_roundtrip (Spec false true false true 7) Plain (-2147) true []) as [H _].
  apply H. unfold piece_ok, spec_ok. cbn. lia.
Defined.

(** ** bsearch *)

Section bsearch.
Context {A : Type} (compare : A -> Z) (l : list A) (size : Z).
Hypothesis (Hsize : 0 < size) (Hfits : size * len_Z l < 2 ^ 32).

(** The array is sorted, seen from the key. *)
Definition sorted_for : Prop :=
  forall i j a b, (i < j)%nat -> l !! i = Some a -> l !! j = Some b -> Z.sgn (compare b) <= Z.sgn (compare a).

Definition search_result (r : outcome Empty_set (option nat)) : Prop :=
  match r with
  | Ret (Some i) => exists a, l !! i = Some a /\ compare a = 0
  | Ret None => forall i a, l !! i = Some a -> compare a <> 0
  | _ => False
  end.

Lemma element_in mid : 0 <= mid < len_Z l -> exists a, l !! Z.to_nat mid = Some a /\ element l size mid = Some (Z.to_nat mid, a).
Proof.
  intros Hm. destruct (lookup_lt_is_Some_2 l (Z.to_nat mid) ltac:(lia)) as [a Ha]. exists a. split; [done|].
  unfold element. rewrite u32_small by nia. by rewrite Z.mod_mul, Z.div_mul, Ha by lia.
Qed.

(** What is known of the elements outside the bounds. *)
Definition outside (low high : Z) : Prop :=
  forall i a, l !! i = Some a -> (Z.of_nat i < low -> 0 < compare a) /\ (high < Z.of_nat i -> compare a < 0).

Lemma outside_below low high i a :
  sorted_for -> outside low high -> l !! i = Some a -> 0 < compare a -> outside (Z.of_nat i + 1) high.
Proof.
  intros Hs Ho Hi Ha j b Hj. split; [|by apply (Ho j b)]. intros Hlt. destruct (decide (i = j)) as [->|Hne]; [by simplify_eq|].
  pose proof (Hs j i b a ltac:(lia) Hj Hi). lia.
Qed.

Lemma outside_above low high i a :
  sorted_for -> outside low high -> l !! i = Some a -> compare a < 0 -> outside low (Z.of_nat i - 1).
Proof.
  intros Hs Ho Hi Ha j b Hj. split; [by apply (Ho j b)|]. intros Hlt. destruct (decide (i = j)) as [->|Hne]; [by simplify_eq|].
  pose proof (Hs i j a b ltac:(lia) Hi Hj). lia.
Qed.

Lemma outside_empty low high : outside low high -> high < low -> forall i a, l !! i = Some a -> compare a <> 0.
Proof.
  intros Ho Hlt i a Hi. destruct (Ho i a Hi) as [H1 H2]. destruct (decide (Z.of_nat i < low)); [specialize (H1 ltac:(lia))|specialize (H2 ltac:(lia))]; lia.
Qed.

(** The bounds have crossed: the middle is 2^31 - 1 elements ahead, which is the
    element below both when the size is even. *)
Lemma crossed low : size mod 2 = 0 -> 1 <= low <= len_Z l ->
  u32 (low + u32 (low - 1 - low) / 2) = low + 2 ^ 31 - 1 /\ element l size (low + 2 ^ 31 - 1) = element l size (low - 1).
Proof.
  intros Hev Hlow. assert (Hn : low < 2 ^ 31) by (pose proof (Z.div_mod size 2); nia). split.
  - replace (low - 1 - low) with (-1) by lia. change (u32 (-1) / 2) with (2 ^ 31 - 1). rewrite u32_small; lia.
  - unfold element. replace (u32 ((low + 2 ^ 31 - 1) * size)) with (u32 ((low - 1) * size)); [done|].
    unfold u32. replace ((low + 2 ^ 31 - 1) * size) with ((low - 1) * size + (size / 2) * 2 ^ 32)
      by (pose proof (Z.div_mod size 2); lia). by rewrite Z_mod_plus_full.
Qed.

Lemma bsearch_loop_result fuel low high :
  size mod 2 = 0 -> sorted_for -> outside low high -> 0 <= low <= high + 1 -> 0 <= high < len_Z l -> high - low + 1 < Z.of_nat fuel ->
  search_result (bsearch_loop compare l size fuel low high).
Proof.
  intros Hev Hs. revert low high. induction fuel as [|fuel IH]; intros low high Ho Hlow Hhigh Hfuel; [lia|]. cbn [bsearch_loop].
  assert (Hmax : len_Z l < 2 ^ 32) by nia.
  destruct (decide (low = high + 1)) as [->|Hne].
  - destruct (crossed (high + 1) Hev ltac:(lia)) as [Hmid Hel]. replace (high + 1 - 1 - (high + 1)) with (high - (high + 1)) in Hmid by lia.
    rewrite Hmid, Hel. replace (high + 1 - 1) with high by lia. destruct (element_in high ltac:(lia)) as (a & Ha & ->).
    assert (0 < compare a) as Hpos by (apply (Ho _ _ Ha); lia).
    rewrite (proj2 (Z.ltb_ge _ _)), (proj2 (Z.ltb_lt _ _)) by lia.
    assert (Hn : high + 1 < 2 ^ 31) by (pose proof (Z.div_mod size 2); nia).
    rewrite u32_small by lia. rewrite (proj2 (Z.ltb_ge _ _)), (proj2 (Z.ltb_lt _ _)) by lia.
    cbn [orb search_result]. by apply (outside_empty (high + 1) high Ho ltac:(lia)).
  - pose proof (Z.div_pos (high - low) 2 ltac:(lia) ltac:(lia)) as Hp0.
    pose proof (Z.div_le_upper_bound (high - low) 2 (high - low) ltac:(lia) ltac:(lia)) as Hp1.
    rewrite (u32_small (high - low)) by lia. set (mid := low + (high - low) / 2) in *.
    rewrite (u32_small mid) by lia. destruct (element_in mid ltac:(lia)) as (a & Ha & ->). cbv zeta.
    destruct (Z.ltb_spec (compare a) 0) as [Hneg|Hge].
    + pose proof (outside_above low high _ a Hs Ho Ha Hneg) as Ho'. rewrite Z2Nat.id in Ho' by lia.
      destruct (Z.eqb_spec mid 0) as [Hz|Hz]; [refine (outside_empty low (mid - 1) Ho' _); lia|]. apply IH; [done|lia..].
    + destruct (Z.ltb_spec 0 (compare a)) as [Hpos|]; [|exists a; split; [done|lia]].
      pose proof (outside_below low high _ a Hs Ho Ha Hpos) as Ho'. rewrite Z2Nat.id in Ho' by lia.
      rewrite u32_small by lia. rewrite (proj2 (Z.ltb_ge (mid + 1) mid)) by lia. cbn [orb].
      destruct (Z.ltb_spec high (mid + 1)); [refine (outside_empty _ _ Ho' _); lia|]. apply IH; [done|lia..].
Qed.
End bsearch.

(** C38: bsearch in an array sorted for the key returns an element equal to it, or
    NULL when there is none: for elements of an even size, in at most two turns more
    than there are elements; its bounds may cross by one, and the address it then
    computes wraps around to the element below. *)
Theorem bsearch_correct {A} (compare : A -> Z) (l : list A) (size : Z) :
  0 < size -> size mod 2 = 0 -> size * len_Z l < 2 ^ 32 -> sorted_for compare l ->
  search_result compare l (bsearch compare l size).
Proof.
  intros Hsize Hev Hfits Hs. unfold bsearch. destruct (Z.eqb_spec (len_Z l) 0) as [Hz|Hz].
  - destruct l; [|done]. intros i a Hi. by rewrite lookup_nil in Hi.
  - apply bsearch_loop_result; [done..| |lia|lia|lia].
    intros i a Hi. apply lookup_lt_Some in Hi. lia.
Qed.

Lemma bsearch_correct_witness :
  search_result (fun x => 4 - x) [2; 4; 6] (bsearch (fun x => 4 - x) [2; 4; 6] 4) /\
  search_result (fun x => 3 - x) [2; 4; 6] (bsearch (fun x => 3 - x) [2; 4; 6] 4).
Proof.
  assert (Hs : forall k, sorted_for (fun x => k - x) [2; 4; 6]).
  { intros k i j a b Hij Hi Hj. destruct i as [|[|[|]]], j as [|[|[|]]]; cbn in *; simplify_eq; lia. }
  split; apply bsearch_correct; try done; apply Hs.
Defined.

(** with elements of an odd size the crossed bounds lead 2 GiB away from the
    array: searching two of them for a key between them reads out of bounds. *)
Theorem bsearch_odd_size {A} (compare : A -> Z) (a b : A) (size : Z) :
  0 < size < 2 ^ 31 -> size mod 2 = 1 -> 0 < compare a -> compare b < 0 ->
  bsearch compare [a; b] size = Fault.
Proof.
  intros Hsize Hodd Ha Hb. unfold bsearch. cbn [length bsearch_loop]. change (Z.of_nat 2 - 1) with 1.
  change (Z.of_nat 2 =? 0) with false. cbv iota.
  change (u32 (0 + u32 (1 - 0) / 2)) with 0. cbv zeta.
  assert (Hel : forall i, 0 <= i < 2 -> element [a; b] size i = Some (Z.to_nat i, if i =? 0 then a else b)).
  { intros i Hi. unfold element. rewrite u32_small by nia. rewrite Z.mod_mul, Z.div_mul by lia.
    assert (i = 0 \/ i = 1) as [-> | ->] by lia; done. }
  rewrite (Hel 0) by lia. cbn [Z.eqb]. rewrite (proj2 (Z.ltb_ge (compare a) 0)), (proj2 (Z.ltb_lt 0 (compare a))) by lia.
  change (u32 (0 + 1)) with 1. change ((1 <? 0) || (1 <? 1)) with false. cbv iota.
  change (u32 (1 + u32 (1 - 1) / 2)) with 1. rewrite (Hel 1) by lia. change (1 =? 0) with false. cbv iota.
  rewrite (proj2 (Z.ltb_lt (compare b) 0)) by lia. change (1 - 1) with 0.
  change (u32 (1 + u32 (0 - 1) / 2)) with (2 ^ 31).
  assert (Hoff : u32 (2 ^ 31 * size) = 2 ^ 31).
  { unfold u32. pose proof (Z.div_mod size 2 ltac:(lia)) as Hd. rewrite Hodd in Hd. rewrite Hd.
    replace (2 ^ 31 * (2 * (size / 2) + 1)) with (2 ^ 31 + size / 2 * 2 ^ 32) by lia. by rewrite Z_mod_plus_full. }
  unfold element. rewrite Hoff. destruct (Z.eqb_spec (2 ^ 31 mod size) 0) as [Hm|]; [|done].
  assert (Hq : 2 <= 2 ^ 31 / size).
  { apply Z.div_exact in Hm; [|lia]. destruct (decide (2 <= 2 ^ 31 / size)) as [|Hlt]; [done|].
    assert (0 <= 2 ^ 31 / size) by (apply Z.div_pos; lia). nia. }
  rewrite lookup_ge_None_2; [done|]. cbn [length]. lia.
Qed.

Lemma bsearch_odd_size_witness : bsearch (fun x => 3 - x) [2; 4] 5 = Fault.
Proof. apply bsearch_odd_size; done. Defined.
