(* ===== verification/Gfx.v ===== *)
(** * lib/gfx: surfaces and the drawing routines

    A surface is its description, [gfx_surface], and the memory at its [ptr] as the
    list of its pixels, [pixelsize] bytes each.  Beside the pixels the state keeps
    what was done to make them visible: the byte ranges cleaned out of the cache
    and the calls of the surface's flush. *)

From stdpp Require Import prelude list.
From Stdlib Require Import ZArith Lia.
From S2P Require Import Prelude.

Open Scope Z_scope.
Open Scope lk_scope.

(** ** Data *)

Inductive gfx_format :=
| GFX_FORMAT_NONE | GFX_FORMAT_RGB_565 | GFX_FORMAT_RGB_332 | GFX_FORMAT_RGB_2220 | GFX_FORMAT_ARGB_8888
| GFX_FORMAT_RGB_x888 | GFX_FORMAT_MONO | GFX_FORMAT_ABGR_8888 | GFX_FORMAT_MAX.

#[export] Instance gfx_format_eq_dec : EqDecision gfx_format.
Proof. solve_decision. Defined.

(** Which of the three families of routines the function pointers of a surface name:
    copyrect8, fillrect8 and putpixel8, or those for 16 or 32 bits. *)
Inductive routines := Routines8 | Routines16 | Routines32.

Record gfx_surface := Surface {
  free_on_destroy : bool;
  format : gfx_format;
  width : Z;
  height : Z;
  stride : Z;
  pixelsize : Z;
  len : Z;
  alpha : Z;
  translate_color : option (Z -> Z);
  routines_of : routines;
  flush : bool
}.

Record canvas := Canvas { pixels : list Z; cleaned : list (Z * Z); flushed : list (Z * Z) }.

Definition GM (A : Type) : Type := M canvas Empty_set A.

(** A pixel of the memory: an index outside it is an access outside the object. *)
Definition px (m : list Z) (i : Z) : option Z := if 0 <=? i then m !! Z.to_nat i else None.
Definition set_px (i v : Z) (m : list Z) : option (list Z) :=
  if (0 <=? i) && (i <? Z.of_nat (length m)) then Some (<[Z.to_nat i := v]> m) else None.

Definition rd_px (i : Z) : GM Z := let* s := get in deref (px (pixels s) i).
Definition wr_px (i v : Z) : GM unit :=
  let* s := get in
  let* m := deref (set_px i v (pixels s)) in
  put (Canvas m (cleaned s) (flushed s)).

(** [surface->flush(start, end)] where the pointer may be NULL *)
Definition call_flush (surface : gfx_surface) (start end_ : Z) : GM unit :=
  if flush surface then modify (fun s => Canvas (pixels s) (cleaned s) (flushed s ++ [(start, end_)])) else ret tt.

Definition arch_clean_cache_range (off n : Z) : GM unit :=
  modify (fun s => Canvas (pixels s) (cleaned s ++ [(off, n)]) (flushed s)).

(** ** Colours *)

Definition ARGB8888_to_Luma (in_ : Z) : Z :=
  let blue := u32 (Z.land in_ 255 * 74) in
  let green := u32 (Z.land (Z.shiftr in_ 8) 255 * 732) in
  let red := u32 (Z.land (Z.shiftr in_ 16) 255 * 218) in
  let intensity := u32 (u32 (red + blue) + green) in
  u8 (Z.land (Z.shiftr intensity 10) 255).

Definition ARGB8888_to_RGB565 (in_ : Z) : Z :=
  u16 (Z.lor (Z.lor (Z.land (Z.shiftr in_ 3) 31) (Z.shiftl (Z.land (Z.shiftr in_ 10) 63) 5))
         (Z.shiftl (Z.land (Z.shiftr in_ 19) 31) 11)).

Definition ARGB8888_to_RGB332 (in_ : Z) : Z :=
  u8 (Z.lor (Z.lor (Z.land (Z.shiftr in_ 6) 3) (Z.shiftl (Z.land (Z.shiftr in_ 13) 7) 2))
        (Z.shiftl (Z.land (Z.shiftr in_ 21) 7) 5)).

Definition ARGB8888_to_RGB2220 (in_ : Z) : Z :=
  u8 (Z.lor (Z.lor (Z.shiftl (Z.land (Z.shiftr in_ 6) 3) 2) (Z.shiftl (Z.land (Z.shiftr in_ 14) 3) 4))
        (Z.shiftl (Z.land (Z.shiftr in_ 22) 3) 6)).

Definition ARGB8888_to_ABGR8888 (in_ : Z) : Z :=
  Z.lor (Z.lor (Z.land in_ 0xFF00FF00) (Z.shiftr (Z.land in_ 0xFF0000) 16)) (Z.shiftl (Z.land in_ 0xFF) 16).

(** The three ways the routines use translate_color; calling NULL is a fault. *)
Definition translated (surface : gfx_surface) (color : Z) : option Z := f ← translate_color surface; Some (f color).

(** ** The routines of a surface *)

(** [&ptr[x + y * stride]] as an index *)
Definition pixel_at (surface : gfx_surface) (x y : Z) : Z := u32 (x + u32 (y * stride surface)).

Definition putpixel8 (surface : gfx_surface) (x y color : Z) : GM unit :=
  let* c := deref (translated surface color) in wr_px (pixel_at surface x y) (u8 c).
Definition putpixel16 (surface : gfx_surface) (x y color : Z) : GM unit :=
  let* c := deref (translated surface color) in wr_px (pixel_at surface x y) (u16 c).
Definition putpixel32 (surface : gfx_surface) (x y color : Z) : GM unit :=
  let color := match translate_color surface with Some f => f color | None => color end in
  wr_px (pixel_at surface x y) color.

Definition putpixel (surface : gfx_surface) : Z -> Z -> Z -> GM unit :=
  match routines_of surface with
  | Routines8 => putpixel8 surface | Routines16 => putpixel16 surface | Routines32 => putpixel32 surface
  end.

(** The inner loop: [n] pixels, the two pointers moved by [step]. *)
Fixpoint copy_row (n : nat) (step dest src : Z) : GM (Z * Z) :=
  match n with
  | O => ret (dest, src)
  | S n' =>
      let* v := rd_px src in
      wr_px dest v ;;
      copy_row n' step (dest + step) (src + step)
  end.

Fixpoint copy_rows (rows columns : nat) (step dest_diff src_diff dest src : Z) : GM unit :=
  match rows with
  | O => ret tt
  | S rows' =>
      let* (dest, src) := copy_row columns step dest src in
      copy_rows rows' columns step dest_diff src_diff (dest + dest_diff) (src + src_diff)
  end.

Definition copyrect_routine (surface : gfx_surface) (x y width height x2 y2 : Z) : GM unit :=
  let src := pixel_at surface x y in
  let dest := pixel_at surface x2 y2 in
  let stride_diff := u32 (stride surface - width) in
  if dest <? src then
    copy_rows (Z.to_nat height) (Z.to_nat width) 1 stride_diff stride_diff dest src
  else
    let off := u32 (u32 (height * stride surface) + width) in
    copy_rows (Z.to_nat height) (Z.to_nat width) (-1) (- stride_diff) (- stride_diff) (dest + off) (src + off).

(** They differ only in the type of a pixel. *)
Definition copyrect8 := copyrect_routine.
Definition copyrect16 := copyrect_routine.
Definition copyrect32 := copyrect_routine.

Definition copyrect (surface : gfx_surface) : Z -> Z -> Z -> Z -> Z -> Z -> GM unit :=
  match routines_of surface with
  | Routines8 => copyrect8 surface | Routines16 => copyrect16 surface | Routines32 => copyrect32 surface
  end.

Fixpoint fill_row (n : nat) (dest color : Z) : GM Z :=
  match n with
  | O => ret dest
  | S n' => wr_px dest color ;; fill_row n' (dest + 1) color
  end.

Fixpoint fill_rows (rows columns : nat) (dest stride_diff color : Z) : GM unit :=
  match rows with
  | O => ret tt
  | S rows' =>
      let* dest := fill_row columns dest color in
      fill_rows rows' columns (dest + stride_diff) stride_diff color
  end.

Definition fillrect_routine (surface : gfx_surface) (x y width height color : Z) : GM unit :=
  fill_rows (Z.to_nat height) (Z.to_nat width) (pixel_at surface x y) (u32 (stride surface - width)) color.

Definition fillrect8 (surface : gfx_surface) (x y width height color : Z) : GM unit :=
  let* color8 := deref (translated surface color) in fillrect_routine surface x y width height (u8 color8).
Definition fillrect16 (surface : gfx_surface) (x y width height color : Z) : GM unit :=
  let* color16 := deref (translated surface color) in fillrect_routine surface x y width height (u16 color16).
Definition fillrect32 (surface : gfx_surface) (x y width height color : Z) : GM unit :=
  fillrect_routine surface x y width height color.

Definition fillrect (surface : gfx_surface) : Z -> Z -> Z -> Z -> Z -> GM unit :=
  match routines_of surface with
  | Routines8 => fillrect8 surface | Routines16 => fillrect16 surface | Routines32 => fillrect32 surface
  end.

(** ** The drawing functions *)

Definition gfx_copyrect (surface : gfx_surface) (x y w h x2 y2 : Z) : GM unit :=
  if width surface <=? x then ret tt
  else if width surface <=? x2 then ret tt
  else if height surface <=? y then ret tt
  else if height surface <=? y2 then ret tt
  else if (w =? 0) || (h =? 0) then ret tt
  else
    let w := if width surface <? u32 (x + w) then u32 (width surface - x) else w in
    let w := if width surface <? u32 (x2 + w) then u32 (width surface - x2) else w in
    let h := if height surface <? u32 (y + h) then u32 (height surface - y) else h in
    let h := if height surface <? u32 (y2 + h) then u32 (height surface - y2) else h in
    copyrect surface x y w h x2 y2.

Definition gfx_fillrect (surface : gfx_surface) (x y w h color : Z) : GM unit :=
  if width surface <=? x then ret tt
  else if height surface <=? y then ret tt
  else if (w =? 0) || (h =? 0) then ret tt
  else
    let w := if width surface <? u32 (x + w) then u32 (width surface - x) else w in
    let h := if height surface <? u32 (y + h) then u32 (height surface - y) else h in
    fillrect surface x y w h color.

Definition gfx_putpixel (surface : gfx_surface) (x y color : Z) : GM unit :=
  if width surface <=? x then ret tt
  else if height surface <=? y then ret tt
  else putpixel surface x y color.

(** The loops of gfx_line: [acc] is the error term, [minor] and [major] the two
    distances; every turn moves in the major direction. *)
Fixpoint line_loop (n : nat) (surface : gfx_surface) (horizontal : bool) (acc minor major sdx sdy px_ py color : Z) : GM unit :=
  match n with
  | O => ret tt
  | S n' =>
      let acc := u32 (acc + minor) in
      let wrap := major <=? acc in
      let acc := if wrap then u32 (acc - major) else acc in
      let px_ := if horizontal || wrap then u32 (px_ + sdx) else px_ in
      let py := if negb horizontal || wrap then u32 (py + sdy) else py in
      putpixel surface px_ py color ;;
      line_loop n' surface horizontal acc minor major sdx sdy px_ py color
  end.

Definition sign_of_int (d : Z) : Z := (if 0 <? d then 1 else 0) - (if d <? 0 then 1 else 0).

Definition gfx_line (surface : gfx_surface) (x1 y1 x2 y2 color : Z) : GM unit :=
  if width surface <=? x1 then ret tt
  else if width surface <=? x2 then ret tt
  else if height surface <=? y1 then ret tt
  else if height surface <=? y2 then ret tt
  else
    let dx := s32 (x2 - x1) in
    let dy := s32 (y2 - y1) in
    let sdx := sign_of_int dx in
    let sdy := sign_of_int dy in
    let dxabs := u32 (if 0 <? dx then dx else - dx) in
    let dyabs := u32 (if 0 <? dy then dy else - dy) in
    let x := Z.shiftr dyabs 1 in
    let y := Z.shiftr dxabs 1 in
    if dyabs <=? dxabs
    then line_loop (Z.to_nat dxabs) surface true y dyabs dxabs sdx sdy x1 y1 color
    else line_loop (Z.to_nat dyabs) surface false x dxabs dyabs sdx sdy x1 y1 color.

Definition alpha32_add_ignore_destalpha (dest src : Z) : Z :=
  let srca := Z.land (Z.shiftr src 24) 255 in
  if srca =? 0 then dest
  else if srca =? 255 then src
  else
    let srca := u32 (srca + 1) in
    let srcainv := u32 (255 - srca) in
    let blended (shift : Z) : Z :=
      u32 (u32 (Z.land (Z.shiftr src shift) 255 * srca) / 256 + u32 (Z.land (Z.shiftr dest shift) 255 * srcainv) / 256) in
    Z.lor (Z.lor (Z.lor (u32 (Z.shiftl srca 24)) (u32 (Z.shiftl (blended 16) 16))) (u32 (Z.shiftl (blended 8) 8))) (blended 0).

(** The loops of gfx_surface_blend from [source], the pixels of another surface. *)
Fixpoint blend_row (n : nat) (op : Z -> Z -> Z) (source : list Z) (dest src : Z) : GM (Z * Z) :=
  match n with
  | O => ret (dest, src)
  | S n' =>
      let* d := rd_px dest in
      let* v := deref (px source src) in
      wr_px dest (op d v) ;;
      blend_row n' op source (dest + 1) (src + 1)
  end.

Fixpoint blend_rows (rows columns : nat) (op : Z -> Z -> Z) (source : list Z) (dest_diff src_diff dest src : Z) : GM unit :=
  match rows with
  | O => ret tt
  | S rows' =>
      let* (dest, src) := blend_row columns op source dest src in
      blend_rows rows' columns op source dest_diff src_diff (dest + dest_diff) (src + src_diff)
  end.

(** The formats that can be blended, with what is done to a pixel. *)
Definition blend_op (f : gfx_format) : option (Z -> Z -> Z) :=
  match f with
  | GFX_FORMAT_RGB_565 | GFX_FORMAT_RGB_x888 | GFX_FORMAT_MONO => Some (fun _ s => s)
  | GFX_FORMAT_ARGB_8888 => Some alpha32_add_ignore_destalpha
  | _ => None
  end.

Definition gfx_surface_blend (target source : gfx_surface) (source_pixels : list Z) (destx desty : Z) : GM unit :=
  assert_ (bool_decide (format target = format source)) ;;
  if width target <=? destx then ret tt
  else if height target <=? desty then ret tt
  else
    let w := width source in
    let w := if width target <? u32 (destx + w) then u32 (width target - destx) else w in
    let h := height source in
    let h := if height target <? u32 (desty + h) then u32 (height target - desty) else h in
    match blend_op (format source) with
    | Some op =>
        blend_rows (Z.to_nat h) (Z.to_nat w) op source_pixels (u32 (stride target - w)) (u32 (stride source - w))
          (pixel_at target destx desty) 0
    | None => panic
    end.

Definition gfx_flush (surface : gfx_surface) : GM unit :=
  arch_clean_cache_range 0 (len surface) ;; call_flush surface 0 (u32 (height surface - 1)).

Definition gfx_flush_rows (surface : gfx_surface) (start end_ : Z) : GM unit :=
  let '(start, end_) := if end_ <? start then (end_, start) else (start, end_) in
  if height surface <=? start then ret tt
  else
    let end_ := if height surface <=? end_ then u32 (height surface - 1) else end_ in
    let runlen := u32 (stride surface * pixelsize surface) in
    arch_clean_cache_range (u32 (start * runlen)) (u32 (u32 (end_ - start + 1) * runlen)) ;;
    call_flush surface start end_.

Definition gfx_clear (surface : gfx_surface) (color : Z) : GM unit :=
  fillrect surface 0 0 (width surface) (height surface) color ;;
  call_flush surface 0 (u32 (height surface - 1)).

(** ** Surfaces *)

Definition MAX_ALPHA : Z := 255.

(** translate_color, the family of routines and pixelsize of a format *)
Definition format_routines (f : gfx_format) : option (option (Z -> Z) * routines * Z) :=
  match f with
  | GFX_FORMAT_RGB_565 => Some (Some ARGB8888_to_RGB565, Routines16, 2)
  | GFX_FORMAT_RGB_x888 | GFX_FORMAT_ARGB_8888 => Some (None, Routines32, 4)
  | GFX_FORMAT_ABGR_8888 => Some (Some ARGB8888_to_ABGR8888, Routines32, 4)
  | GFX_FORMAT_MONO => Some (Some ARGB8888_to_Luma, Routines8, 1)
  | GFX_FORMAT_RGB_332 => Some (Some ARGB8888_to_RGB332, Routines8, 1)
  | GFX_FORMAT_RGB_2220 => Some (Some ARGB8888_to_RGB2220, Routines8, 1)
  | GFX_FORMAT_NONE | GFX_FORMAT_MAX => None
  end.

Section create.
(** malloc: whether it gives a surface, and the pixels of a buffer by its bytes. *)
Context (malloc_surface : bool) (malloc_pixels : Z -> option (list Z)).

Definition gfx_create_surface (ptr : option (list Z)) (width height stride : Z) (format : gfx_format) : outcome Empty_set (gfx_surface * list Z) :=
  if negb (0 <? width) then Panic
  else if negb (0 <? height) then Panic
  else if negb (width <=? stride) then Panic
  else if bool_decide (format = GFX_FORMAT_MAX) then Panic
  else if negb malloc_surface then Fault
  else
    match format_routines format with
    | None => Panic
    | Some (translate, routines, pixelsize) =>
        let len := u32 (u32 (height * stride) * pixelsize) in
        let surface (free_on_destroy : bool) :=
          Surface free_on_destroy format width height stride pixelsize len MAX_ALPHA translate routines false in
        match ptr with
        | Some m => Ret (surface false, m)
        | None => match malloc_pixels len with Some m => Ret (surface true, m) | None => Panic end
        end
    end.

(** struct display_framebuffer, as far as surfaces use it *)
Inductive image_format :=
| IMAGE_FORMAT_UNKNOWN | IMAGE_FORMAT_MONO_1 | IMAGE_FORMAT_MONO_8 | IMAGE_FORMAT_RGB_x111 | IMAGE_FORMAT_RGB_332
| IMAGE_FORMAT_RGB_565 | IMAGE_FORMAT_RGB_2220 | IMAGE_FORMAT_RGB_x888 | IMAGE_FORMAT_ARGB_8888 | IMAGE_FORMAT_ABGR_8888.

Record display_framebuffer := Framebuffer {
  fb_format : image_format;
  fb_pixels : option (list Z);
  fb_width : Z;
  fb_height : Z;
  fb_stride : Z;
  fb_flush : bool
}.

Definition gfx_format_of (f : image_format) : option gfx_format :=
  match f with
  | IMAGE_FORMAT_RGB_565 => Some GFX_FORMAT_RGB_565
  | IMAGE_FORMAT_RGB_332 => Some GFX_FORMAT_RGB_332
  | IMAGE_FORMAT_RGB_2220 => Some GFX_FORMAT_RGB_2220
  | IMAGE_FORMAT_ARGB_8888 => Some GFX_FORMAT_ARGB_8888
  | IMAGE_FORMAT_RGB_x888 => Some GFX_FORMAT_RGB_x888
  | IMAGE_FORMAT_MONO_8 => Some GFX_FORMAT_MONO
  | IMAGE_FORMAT_ABGR_8888 => Some GFX_FORMAT_ABGR_8888
  | _ => None
  end.

Definition gfx_create_surface_from_display (fb : display_framebuffer) : outcome Empty_set (gfx_surface * list Z) :=
  match gfx_format_of (fb_format fb) with
  | None => Panic
  | Some format =>
      match gfx_create_surface (fb_pixels fb) (fb_width fb) (fb_height fb) (fb_stride fb) format with
      | Ret (s, m) =>
          Ret (Surface (free_on_destroy s) (Gfx.format s) (width s) (height s) (stride s) (pixelsize s) (len s) (alpha s)
                 (translate_color s) (routines_of s) (fb_flush fb), m)
      | r => r
      end
  end.
End create.

(** ** Test patterns *)

(** The loops over all pixels: [columns] of row [y], then the rows. *)
Fixpoint draw_row (n : nat) (surface : gfx_surface) (color_at : Z -> Z -> Z) (x y : Z) : GM unit :=
  match n with
  | O => ret tt
  | S n' => gfx_putpixel surface x y (color_at x y) ;; draw_row n' surface color_at (x + 1) y
  end.

Fixpoint draw_rows (n : nat) (surface : gfx_surface) (color_at : Z -> Z -> Z) (y : Z) : GM unit :=
  match n with
  | O => ret tt
  | S n' => draw_row (Z.to_nat (width surface)) surface color_at 0 y ;; draw_rows n' surface color_at (y + 1)
  end.

Definition pattern_color (surface : gfx_surface) (x y : Z) : Z :=
  let scaledx := u32 (x * 256) / width surface in
  let scaledy := u32 (y * 256) / height surface in
  Z.lor (Z.lor (Z.lor (Z.shiftl 255 24) (u32 (Z.shiftl (u32 (scaledx * scaledy)) 16))) (u32 (Z.shiftl (Z.shiftr scaledx 1) 8)))
    (Z.shiftr scaledy 1).

Definition gfx_draw_pattern (surface : gfx_surface) : GM unit :=
  draw_rows (Z.to_nat (height surface)) surface (pattern_color surface) 0 ;; gfx_flush surface.
Definition gfx_draw_pattern_white (surface : gfx_surface) : GM unit :=
  draw_rows (Z.to_nat (height surface)) surface (fun _ _ => 0xFFFFFFFF) 0 ;; gfx_flush surface.
