(* ===== verification/GfxProps.v ===== *)
(** * What the drawing routines do to the pixels

    The loops are runs of single updates over the offsets of a rectangle; where no
    update reads or writes what an earlier one wrote they happen all at once. *)

From stdpp Require Import prelude list sorting.
From Stdlib Require Import ZArith Lia Sorting.Sorted.
From S2P Require Import Prelude Gfx.

Open Scope Z_scope.
Open Scope lk_scope.

(** ** The memory of a surface *)

Definition in_mem (m : list Z) (i : Z) : Prop := 0 <= i < Z.of_nat (length m).

Lemma px_in m i : in_mem m i -> is_Some (px m i).
Proof. intros Hi. unfold px. rewrite (proj2 (Z.leb_le 0 i)) by (unfold in_mem in Hi; lia). apply lookup_lt_is_Some_2. unfold in_mem in Hi. lia. Qed.

Lemma set_px_spec i v m :
  in_mem m i -> exists m', set_px i v m = Some m' /\ length m' = length m /\ px m' i = Some v /\ forall j, j <> i -> px m' j = px m j.
Proof.
  unfold in_mem. intros Hi. exists (<[Z.to_nat i := v]> m). unfold set_px, px.
  rewrite (proj2 (Z.leb_le 0 i)), (proj2 (Z.ltb_lt i _)) by lia. split_and!; [done|by rewrite length_insert| |].
  - apply list_lookup_insert_eq. lia.
  - intros j Hj. destruct (Z.leb_spec 0 j); [|done]. apply list_lookup_insert_ne. lia.
Qed.

Lemma set_px_out i v m : ~ in_mem m i -> set_px i v m = None.
Proof.
  unfold in_mem, set_px. intros Hi. destruct (Z.leb_spec 0 i); [|done]. destruct (Z.ltb_spec i (Z.of_nat (length m))); [lia|done].
Qed.

(** ** Runs of updates *)

Section updates.
Context {P : Type} (target reads : P -> Z) (F : P -> option Z -> option Z).

(** One update: a pixel from what is read at one place. *)
Definition update (p : P) : GM unit :=
  let* s := get in
  let* v := deref (F p (px (pixels s) (reads p))) in
  wr_px (target p) v.

Definition update_ok (m : list Z) (p : P) : Prop := in_mem m (target p) /\ is_Some (F p (px m (reads p))).

(** The later update does not see the earlier. *)
Definition apart (p q : P) : Prop := reads q <> target p /\ target q <> target p.

(** [m'] is [m] with all updates done at once. *)
Definition updated (l : list P) (m m' : list Z) : Prop :=
  length m' = length m /\ (forall p, p ∈ l -> px m' (target p) = F p (px m (reads p))) /\
  (forall i, (forall p, p ∈ l -> target p <> i) -> px m' i = px m i).

Lemma update_run p s :
  update_ok (pixels s) p -> exists m', update p s = (Ret tt, Canvas m' (cleaned s) (flushed s)) /\
    length m' = length (pixels s) /\ px m' (target p) = F p (px (pixels s) (reads p)) /\
    forall i, i <> target p -> px m' i = px (pixels s) i.
Proof.
  intros [Hin [v Hv]]. destruct (set_px_spec (target p) v (pixels s) Hin) as (m' & Hm & Hlen & Heq & Hne).
  exists m'. unfold update, wr_px, get, put, bind. cbn. rewrite Hv. cbn. rewrite Hm. cbn. by rewrite Heq.
Qed.

Lemma updates_run l s :
  StronglySorted apart l -> Forall (update_ok (pixels s)) l ->
  exists m', for_each l update s = (Ret tt, Canvas m' (cleaned s) (flushed s)) /\ updated l (pixels s) m'.
Proof.
  intros Hs. revert s. induction Hs as [|p l Hs IH Hp]; intros s Hok.
  - exists (pixels s). destruct s. split; [done|]. split_and!; [done| |done]. intros p Hp. by apply elem_of_nil in Hp.
  - apply Forall_cons in Hok as [Hpok Hok]. destruct (update_run p s Hpok) as (m1 & Hrun & Hlen & Heq & Hne).
    rewrite Forall_forall in Hp, Hok.
    destruct (IH (Canvas m1 (cleaned s) (flushed s))) as (m' & Hrun' & Hlen' & Heq' & Hne').
    { apply Forall_forall. intros q Hq. destruct (Hok q Hq) as [Hin HF], (Hp q Hq) as [H1 H2].
      split; cbn; [unfold in_mem in *; by rewrite Hlen|]. by rewrite Hne. }
    cbn [pixels cleaned flushed] in *. exists m'. cbn [for_each]. erewrite bind_run by exact Hrun. split; [done|].
    split_and!; [congruence| |].
    + intros q [->|Hq]%elem_of_cons.
      * rewrite Hne', Heq; [done|]. intros q Hq. by apply (Hp q Hq).
      * rewrite Heq' by done. f_equal. apply Hne. by apply (Hp q Hq).
    + intros i Hi. rewrite Hne', Hne; [done| |].
      * intros ->. by apply (Hi p); [left|].
      * intros q Hq. by apply Hi; right.
Qed.

(** The first update outside the memory ends the run. *)
Lemma updates_fault l1 p l2 s :
  StronglySorted apart l1 -> Forall (update_ok (pixels s)) l1 -> ~ in_mem (pixels s) (target p) ->
  fst (for_each (l1 ++ p :: l2) update s) = Fault.
Proof.
  intros Hs Hok Hp. destruct (updates_run l1 s Hs Hok) as (m' & Hrun & Hlen & _).
  rewrite for_each_app. erewrite bind_run by exact Hrun. cbn [for_each]. unfold update at 1, wr_px, get, put, bind. cbn.
  destruct (F p (px m' (reads p))) as [v|]; cbn; [|done]. rewrite set_px_out; [done|]. unfold in_mem in *. by rewrite Hlen.
Qed.
End updates.

(** ** Rectangles *)

(** The offsets of a rectangle from its corner, in the order of the loops. *)
Fixpoint row_offsets (n : nat) (o : Z) : list Z := match n with O => [] | S n' => o :: row_offsets n' (o + 1) end.
Fixpoint offsets (rows columns : nat) (stride o : Z) : list Z :=
  match rows with O => [] | S rows' => row_offsets columns o ++ offsets rows' columns stride (o + stride) end.

Lemma elem_of_row_offsets n o i : i ∈ row_offsets n o <-> o <= i < o + Z.of_nat n.
Proof.
  revert o. induction n as [|n IH]; intros o; cbn [row_offsets]; [rewrite elem_of_nil; lia|]. rewrite elem_of_cons, IH. lia.
Qed.

Lemma elem_of_offsets rows columns stride o i :
  i ∈ offsets rows columns stride o <->
  exists a b, 0 <= a < Z.of_nat columns /\ 0 <= b < Z.of_nat rows /\ i = o + b * stride + a.
Proof.
  revert o. induction rows as [|rows IH]; intros o; cbn [offsets].
  - rewrite elem_of_nil. split; [done|]. intros (a & b & _ & Hb & _). lia.
  - rewrite elem_of_app, elem_of_row_offsets, IH. split.
    + intros [Hi|(a & b & Ha & Hb & ->)]; [exists (i - o), 0|exists a, (b + 1)]; lia.
    + intros (a & b & Ha & Hb & ->). destruct (decide (b = 0)) as [->|]; [left; lia|]. right. exists a, (b - 1). lia.
Qed.

Lemma row_offsets_sorted n o : StronglySorted Z.lt (row_offsets n o).
Proof.
  revert o. induction n as [|n IH]; intros o; cbn [row_offsets]; constructor; [done|].
  apply Forall_forall. intros i Hi. apply elem_of_row_offsets in Hi. lia.
Qed.

Lemma offsets_sorted rows columns stride o :
  Z.of_nat columns <= stride -> StronglySorted Z.lt (offsets rows columns stride o).
Proof.
  intros Hc. revert o. induction rows as [|rows IH]; intros o; cbn [offsets]; [constructor|].
  apply StronglySorted_app_2; [|apply row_offsets_sorted|apply IH]. intros i j Hi Hj. apply elem_of_row_offsets in Hi. apply elem_of_offsets in Hj as (a & b & Ha & Hb & ->). nia.
Qed.

(** A strictly increasing list through a function. *)
Lemma sorted_fmap {A B} (R : A -> A -> Prop) (Q : B -> B -> Prop) (f : A -> B) l :
  (forall x y, R x y -> Q (f x) (f y)) -> StronglySorted R l -> StronglySorted Q (f <$> l).
Proof.
  intros Hf. induction 1 as [|x l Hs IH Hx]; cbn; constructor; [done|].
  apply Forall_fmap. eapply Forall_impl; [exact Hx|]. intros y Hy. by apply Hf.
Qed.

(** *** The loops over rectangles are runs of updates *)

Notation copied step dest src := (fun o => (dest + step * o, src + step * o)).

Section loops.
Context (step : Z).

(** A copy within the surface. *)
Definition copy_cell : Z * Z -> GM unit := update fst snd (fun _ v => v).

Lemma copy_row_run n dest src o s :
  copy_row n step (dest + step * o) (src + step * o) s =
  (for_each (copied step dest src <$> row_offsets n o) copy_cell ;;
   ret (dest + step * (o + Z.of_nat n), src + step * (o + Z.of_nat n))) s.
Proof.
  revert o s. induction n as [|n IH]; intros o s; cbn [copy_row row_offsets fmap list_fmap for_each].
  - unfold bind, ret. cbn. by rewrite !Z.add_0_r.
  - replace (dest + step * o + step) with (dest + step * (o + 1)) by lia.
    replace (src + step * o + step) with (src + step * (o + 1)) by lia.
    unfold bind at 1. unfold copy_cell at 1, update at 1, rd_px, bind, get, put. cbn. destruct (px (pixels s) _) as [v|]; [|done].
    cbn. unfold wr_px, bind, get, put. cbn. destruct (set_px _ v (pixels s)) as [m|]; [|done]. cbn.
    rewrite IH. unfold bind. cbn. destruct (for_each _ _ _) as [[u|e| | |] s1]; try done.
    unfold ret. do 2 f_equal; f_equal; lia.
Qed.

Lemma copy_rows_run rows columns stride dest src o s :
  copy_rows rows columns step (step * (stride - Z.of_nat columns)) (step * (stride - Z.of_nat columns)) (dest + step * o) (src + step * o) s =
  for_each (copied step dest src <$> offsets rows columns stride o) copy_cell s.
Proof.
  revert o s. induction rows as [|rows IH]; intros o s; cbn [copy_rows offsets fmap list_fmap for_each]; [done|].
  rewrite fmap_app, for_each_app. unfold bind at 1. rewrite copy_row_run. unfold bind, ret.
  destruct (for_each _ copy_cell s) as [[u|e| | |] s1]; try done. rewrite <- IH. f_equal; ring.
Qed.
End loops.

(** A fill, and a blend from other pixels. *)
Definition fill_cell (color : Z) : Z -> GM unit := update id id (fun _ _ => Some color).
Definition blend_cell (op : Z -> Z -> Z) (source : list Z) : Z * Z -> GM unit :=
  update fst fst (fun p v => d ← v; x ← px source (snd p); Some (op d x)).

Lemma fill_row_run n color o s :
  fill_row n o color s = (for_each (row_offsets n o) (fill_cell color) ;; ret (o + Z.of_nat n)) s.
Proof.
  revert o s. induction n as [|n IH]; intros o s; cbn [fill_row row_offsets for_each].
  - unfold bind, ret. cbn. by rewrite Z.add_0_r.
  - unfold fill_cell at 1, update at 1, wr_px, bind, get, put, deref, ret. cbn. destruct (set_px o color (pixels s)) as [m|]; [|done]. cbn.
    rewrite IH. unfold bind, ret. destruct (for_each _ _ _) as [[u|e| | |] s1]; try done. do 2 f_equal. lia.
Qed.

Lemma fill_rows_run rows columns stride color o s :
  fill_rows rows columns o (stride - Z.of_nat columns) color s = for_each (offsets rows columns stride o) (fill_cell color) s.
Proof.
  revert o s. induction rows as [|rows IH]; intros o s; cbn [fill_rows offsets for_each]; [done|].
  rewrite for_each_app. unfold bind at 1. rewrite fill_row_run. unfold bind, ret.
  destruct (for_each _ (fill_cell color) s) as [[u|e| | |] s1]; try done. rewrite <- IH. f_equal. lia.
Qed.

Lemma blend_row_run n op source dest src o s :
  blend_row n op source (dest + o) (src + o) s =
  (for_each ((fun o => (dest + o, src + o)) <$> row_offsets n o) (blend_cell op source) ;; ret (dest + (o + Z.of_nat n), src + (o + Z.of_nat n))) s.
Proof.
  revert o src s. induction n as [|n IH]; intros o src s; cbn [blend_row row_offsets fmap list_fmap for_each].
  - unfold bind, ret. cbn. by rewrite !Z.add_0_r.
  - rewrite <- !Z.add_assoc. unfold bind at 1. unfold blend_cell at 1, update at 1, rd_px, bind, get, put. cbn.
    destruct (px (pixels s) _) as [d|]; [|done]. cbn. destruct (px source _) as [v|]; [|done].
    cbn. unfold wr_px, bind, get, put. cbn. destruct (set_px _ _ (pixels s)) as [m|]; [|done]. cbn.
    rewrite IH. unfold bind. cbn. destruct (for_each _ _ _) as [[u|e| | |] s1]; try done.
    unfold ret. do 2 f_equal; f_equal; lia.
Qed.

(** ** Surfaces *)

Record wf_surface (surface : gfx_surface) (m : list Z) : Prop := {
  wf_width : 0 < width surface <= stride surface;
  wf_height : 0 < height surface;
  wf_mem : stride surface * height surface <= Z.of_nat (length m);
  wf_small : Z.of_nat (length m) < 2 ^ 31;
  wf_translate : translate_color surface = None -> routines_of surface = Routines32
}.

(** The index of a pixel. *)
Definition pos (surface : gfx_surface) (x y : Z) : Z := x + y * stride surface.

Definition inside (surface : gfx_surface) (x y : Z) : Prop := 0 <= x < width surface /\ 0 <= y < height surface.

Section wf.
Context (surface : gfx_surface) (m : list Z).
Hypothesis (Hwf : wf_surface surface m).

Lemma wf_bounds : width surface < 2 ^ 31 /\ height surface < 2 ^ 31 /\ stride surface < 2 ^ 31.
Proof. destruct Hwf. nia. Qed.

Lemma pos_in_mem x y : inside surface x y -> in_mem m (pos surface x y).
Proof. unfold inside, in_mem, pos. destruct Hwf. nia. Qed.

Lemma pixel_at_pos x y : inside surface x y -> pixel_at surface x y = pos surface x y.
Proof.
  intros Hxy. pose proof (pos_in_mem x y Hxy). pose proof wf_bounds. destruct Hwf. unfold inside, in_mem, pos, pixel_at in *.
  rewrite (u32_small (y * _)) by nia. apply u32_small. lia.
Qed.

Lemma pos_inj x y x' y' : inside surface x y -> inside surface x' y' -> pos surface x y = pos surface x' y' -> x = x' /\ y = y'.
Proof.
  unfold inside, pos. destruct Hwf as [[Hw Hws] _ _ _ _]. intros [Hx Hy] [Hx' Hy'] He.
  assert (Hd : y = y' \/ y < y' \/ y' < y) by lia. destruct Hd as [->|[|]]; [lia|nia|nia].
Qed.
End wf.

Lemma same_mem_in m m' i : length m' = length m -> in_mem m i -> in_mem m' i.
Proof. unfold in_mem. intros ->. done. Qed.

(** [m'] is [m] with the rectangle of [w] by [h] pixels at [src] copied to [dest]. *)
Definition moved (surface : gfx_surface) (dest src w h : Z) (m m' : list Z) : Prop :=
  length m' = length m /\
  (forall a b, 0 <= a < w -> 0 <= b < h -> px m' (dest + pos surface a b) = px m (src + pos surface a b)) /\
  (forall i, (forall a b, 0 <= a < w -> 0 <= b < h -> dest + pos surface a b <> i) -> px m' i = px m i).

(** A rectangle wholly in the memory, copied in an order that is safe. *)
Lemma copy_rows_moved surface s step dest src w h :
  0 <= w <= stride surface -> 0 <= h -> (step = 1 /\ dest < src) \/ (step = -1 /\ src <= dest) ->
  (forall a b, 0 <= a < w -> 0 <= b < h ->
     in_mem (pixels s) (dest + step * pos surface a b) /\ in_mem (pixels s) (src + step * pos surface a b)) ->
  exists m', copy_rows (Z.to_nat h) (Z.to_nat w) step (step * (stride surface - w)) (step * (stride surface - w)) dest src s =
      (Ret tt, Canvas m' (cleaned s) (flushed s)) /\
    length m' = length (pixels s) /\
    (forall a b, 0 <= a < w -> 0 <= b < h ->
       px m' (dest + step * pos surface a b) = px (pixels s) (src + step * pos surface a b)) /\
    (forall i, (forall a b, 0 <= a < w -> 0 <= b < h -> dest + step * pos surface a b <> i) -> px m' i = px (pixels s) i).
Proof.
  intros Hw Hh Hord Hin. set (l := copied step dest src <$> offsets (Z.to_nat h) (Z.to_nat w) (stride surface) 0).
  assert (Hel : forall p, p ∈ l <-> exists a b, 0 <= a < w /\ 0 <= b < h /\
    p = (dest + step * pos surface a b, src + step * pos surface a b)).
  { intros p. unfold l. rewrite list_elem_of_fmap. setoid_rewrite elem_of_offsets. split.
    - intros (o & -> & a & b & Ha & Hb & ->). exists a, b. split_and!; [lia..|]. unfold pos. f_equal; f_equal; f_equal; lia.
    - intros (a & b & Ha & Hb & ->). exists (pos surface a b). split; [done|]. exists a, b. unfold pos. lia. }
  destruct (updates_run fst snd (fun _ v => v) l s) as (m' & Hrun & Hlen & Heq & Hne).
  - eapply sorted_fmap; [|apply offsets_sorted; lia]. intros o o' Ho. unfold apart. cbn. lia.
  - apply Forall_forall. intros p (a & b & Ha & Hb & ->)%Hel. destruct (Hin a b Ha Hb) as [H1 H2].
    split; [done|]. by apply px_in.
  - exists m'. pose proof (copy_rows_run step (Z.to_nat h) (Z.to_nat w) (stride surface) dest src 0 s) as Hc.
    rewrite !Z2Nat.id, Z.mul_0_r, !Z.add_0_r in Hc by lia. split; [by rewrite Hc|]. split_and!; [done| |].
    + intros a b Ha Hb. apply (Heq (_, _)). apply Hel. by exists a, b.
    + intros i Hi. apply Hne. intros p (a & b & Ha & Hb & ->)%Hel. by apply Hi.
Qed.

(** ** gfx_copyrect *)

(** What is left of [w] from [x] and [x2] inside [W]. *)
Definition clip (W x x2 w : Z) : Z := Z.max 0 (Z.min w (Z.min (W - x) (W - x2))).

Lemma clip_code W x x2 w :
  0 <= x < W -> 0 <= x2 < W -> 0 < w < 2 ^ 31 -> W < 2 ^ 31 ->
  (let w := if W <? u32 (x + w) then u32 (W - x) else w in if W <? u32 (x2 + w) then u32 (W - x2) else w) = clip W x x2 w /\
  0 < clip W x x2 w <= W - x /\ clip W x x2 w <= W - x2.
Proof.
  intros Hx Hx2 Hw HW. unfold clip. rewrite !(u32_small (W - _)) by lia. rewrite (u32_small (x + w)) by lia.
  destruct (Z.ltb_spec W (x + w)); cbv zeta; rewrite u32_small by lia;
    match goal with |- context [W <? ?e] => destruct (Z.ltb_spec W e) end; lia.
Qed.

Section copyrect.
Context (surface : gfx_surface) (s : canvas).
Hypothesis (Hwf : wf_surface surface (pixels s)).

Lemma copyrect_clipped x y w h x2 y2 :
  inside surface x y -> inside surface x2 y2 -> 0 < w < 2 ^ 31 -> 0 < h < 2 ^ 31 ->
  gfx_copyrect surface x y w h x2 y2 s =
  copyrect_routine surface x y (clip (width surface) x x2 w) (clip (height surface) y y2 h) x2 y2 s.
Proof.
  intros [Hx Hy] [Hx2 Hy2] Hw Hh. pose proof (wf_bounds _ _ Hwf). unfold gfx_copyrect.
  rewrite !(proj2 (Z.leb_gt _ _)) by lia. rewrite !(proj2 (Z.eqb_neq _ 0)) by lia. cbn [orb]. cbv zeta.
  pose proof (clip_code (width surface) x x2 w) as Hcw. cbv zeta in Hcw. rewrite (proj1 (Hcw Hx Hx2 Hw ltac:(lia))).
  pose proof (clip_code (height surface) y y2 h) as Hch. cbv zeta in Hch. rewrite (proj1 (Hch Hy Hy2 Hh ltac:(lia))).
  unfold copyrect. by destruct (routines_of surface).
Qed.

Lemma diff_code w : 0 <= w <= width surface -> u32 (stride surface - w) = stride surface - w.
Proof. intros. pose proof (wf_bounds _ _ Hwf). destruct Hwf. apply u32_small. lia. Qed.

Lemma moved_nothing dest src w h m : w <= 0 \/ h <= 0 -> moved surface dest src w h m m.
Proof. intros Hwh. split_and!; [done| |done]. intros a b Ha Hb. lia. Qed.

(** copying a rectangle towards lower addresses moves exactly the part of it
    that lies inside the surface at both places, as if all pixels were read before
    any is written, however the two overlap; nothing else changes. *)
Theorem gfx_copyrect_up x y w h x2 y2 :
  0 <= x -> 0 <= y -> 0 <= x2 -> 0 <= y2 -> 0 <= w < 2 ^ 31 -> 0 <= h < 2 ^ 31 -> pos surface x2 y2 < pos surface x y ->
  exists m', gfx_copyrect surface x y w h x2 y2 s = (Ret tt, Canvas m' (cleaned s) (flushed s)) /\
    moved surface (pos surface x2 y2) (pos surface x y) (clip (width surface) x x2 w) (clip (height surface) y y2 h) (pixels s) m'.
Proof.
  intros Hx Hy Hx2 Hy2 Hw Hh Hlt.
  destruct (decide (inside surface x y /\ inside surface x2 y2 /\ 0 < w /\ 0 < h)) as [(H1 & H2 & Hw0 & Hh0)|Hout].
  - pose proof (wf_bounds _ _ Hwf). rewrite copyrect_clipped by (done || lia). destruct H1 as [H1x H1y], H2 as [H2x H2y].
    pose proof (proj2 (clip_code (width surface) x x2 w H1x H2x ltac:(lia) ltac:(lia))) as Hcw.
    pose proof (proj2 (clip_code (height surface) y y2 h H1y H2y ltac:(lia) ltac:(lia))) as Hch.
    set (w' := clip (width surface) x x2 w) in *. set (h' := clip (height surface) y y2 h) in *. clearbody w' h'.
    unfold copyrect_routine. rewrite !(pixel_at_pos surface _ Hwf) by done. rewrite (proj2 (Z.ltb_lt _ _)) by done.
    rewrite diff_code by lia.
    destruct (copy_rows_moved surface s 1 (pos surface x2 y2) (pos surface x y) w' h') as (m' & Hrun & Hlen & Heq & Hne).
    + destruct Hwf. lia.
    + lia.
    + by left.
    + intros a b Ha Hb. rewrite !Z.mul_1_l. split; [pose proof (pos_in_mem surface (pixels s) Hwf (x2 + a) (y2 + b)) as Hp
        |pose proof (pos_in_mem surface (pixels s) Hwf (x + a) (y + b)) as Hp]; unfold inside, in_mem, pos in *; lia.
    + exists m'. rewrite !Z.mul_1_l in Hrun. split; [exact Hrun|]. split_and!; [done| |].
      * intros a b Ha Hb. specialize (Heq a b Ha Hb). by rewrite !Z.mul_1_l in Heq.
      * intros i Hi. apply Hne. intros a b Ha Hb. rewrite Z.mul_1_l. by apply Hi.
  - exists (pixels s). split; [|apply moved_nothing; unfold clip, inside in *; lia].
    unfold gfx_copyrect. destruct (Z.leb_spec (width surface) x); [by destruct s|].
    destruct (Z.leb_spec (width surface) x2); [by destruct s|]. destruct (Z.leb_spec (height surface) y); [by destruct s|].
    destruct (Z.leb_spec (height surface) y2); [by destruct s|].
    destruct (Z.eqb_spec w 0); [by destruct s|]. destruct (Z.eqb_spec h 0); [by destruct s|]. unfold inside in Hout. lia.
Qed.

(** copying towards higher addresses, or onto itself, starts one row and one
    column too far: it moves the rectangle below and to the right of the one asked
    for, and where that reaches behind the memory the first write is out of bounds. *)
Theorem gfx_copyrect_down x y w h x2 y2 :
  inside surface x y -> inside surface x2 y2 -> 0 < w < 2 ^ 31 -> 0 < h < 2 ^ 31 -> pos surface x y <= pos surface x2 y2 ->
  let w' := clip (width surface) x x2 w in
  let h' := clip (height surface) y y2 h in
  let off := stride surface + 1 in
  if bool_decide (pos surface (x2 + w') (y2 + h') < Z.of_nat (length (pixels s))) then
    exists m', gfx_copyrect surface x y w h x2 y2 s = (Ret tt, Canvas m' (cleaned s) (flushed s)) /\
      moved surface (pos surface x2 y2 + off) (pos surface x y + off) w' h' (pixels s) m'
  else fst (gfx_copyrect surface x y w h x2 y2 s) = Fault.
Proof.
  intros H1 H2 Hw Hh Hle. cbv zeta. pose proof (wf_bounds _ _ Hwf). rewrite !copyrect_clipped by (done || lia).
  pose proof (pos_in_mem surface (pixels s) Hwf x y H1) as Hp1. pose proof (pos_in_mem surface (pixels s) Hwf x2 y2 H2) as Hp2.
  destruct H1 as [H1x H1y], H2 as [H2x H2y].
  pose proof (proj2 (clip_code (width surface) x x2 w H1x H2x ltac:(lia) ltac:(lia))) as Hcw.
  pose proof (proj2 (clip_code (height surface) y y2 h H1y H2y ltac:(lia) ltac:(lia))) as Hch.
  set (w' := clip (width surface) x x2 w) in *. set (h' := clip (height surface) y y2 h) in *. clearbody w' h'.
  unfold copyrect_routine. rewrite !(pixel_at_pos surface _ Hwf) by done. rewrite (proj2 (Z.ltb_ge _ _)) by done.
  rewrite diff_code by lia.
  assert (Hoff : u32 (u32 (h' * stride surface) + w') = h' * stride surface + w').
  { destruct Hwf. rewrite (u32_small (h' * _)) by nia. apply u32_small. nia. }
  rewrite Hoff. replace (- (stride surface - w')) with (-1 * (stride surface - w')) by lia.
  case_bool_decide as Hin.
  - destruct (copy_rows_moved surface s (-1) (pos surface x2 y2 + (h' * stride surface + w'))
      (pos surface x y + (h' * stride surface + w')) w' h') as (m' & Hrun & Hlen & Heq & Hne).
    + destruct Hwf. lia.
    + lia.
    + right. lia.
    + intros a b Ha Hb. assert (Hb' : 0 <= b * stride surface <= (h' - 1) * stride surface)
        by (pose proof (wf_width _ _ Hwf); split; [|apply Z.mul_le_mono_nonneg_r]; lia || (apply Z.mul_nonneg_nonneg; lia)).
      pose proof (wf_width _ _ Hwf). unfold in_mem, pos in *. clear Hwf Hcw Hch Hoff. lia.
    + exists m'. split; [exact Hrun|].
      assert (Hmir : forall base a b, base + (stride surface + 1) + pos surface a b =
        base + (h' * stride surface + w') + -1 * pos surface (w' - 1 - a) (h' - 1 - b)) by (intros; unfold pos; lia).
      split_and!; [done| |].
      * intros a b Ha Hb. rewrite !Hmir. apply Heq; lia.
      * intros i Hi. apply Hne. intros a b Ha Hb He. apply (Hi (w' - 1 - a) (h' - 1 - b)); [lia..|].
        rewrite Hmir, <- He. unfold pos. lia.
  - destruct (Z.to_nat h') as [|rows] eqn:Hrows; [lia|]. destruct (Z.to_nat w') as [|cols] eqn:Hcols; [lia|].
    cbn [copy_rows copy_row]. unfold rd_px, wr_px, bind, get, put. cbn.
    destruct (px (pixels s) _) as [v|]; [|done]. cbn. rewrite set_px_out; [done|]. unfold in_mem, pos in *. lia.
Qed.
End copyrect.

(** ** gfx_fillrect, gfx_clear and gfx_putpixel *)

(** What the routines of a surface store for a color: fillrect32 does not translate. *)
Definition stored_value (surface : gfx_surface) (translate32 : bool) (color : Z) : Z :=
  let c := match translate_color surface with Some f => f color | None => color end in
  match routines_of surface with
  | Routines8 => u8 c
  | Routines16 => u16 c
  | Routines32 => if translate32 then c else color
  end.

(** [m'] is [m] with the rectangle of [w] by [h] pixels at [dest] filled. *)
Definition filled (surface : gfx_surface) (dest w h v : Z) (m m' : list Z) : Prop :=
  length m' = length m /\
  (forall a b, 0 <= a < w -> 0 <= b < h -> px m' (dest + pos surface a b) = Some v) /\
  (forall i, (forall a b, 0 <= a < w -> 0 <= b < h -> dest + pos surface a b <> i) -> px m' i = px m i).

Lemma row_offsets_split k n o : row_offsets (k + n) o = row_offsets k o ++ row_offsets n (o + Z.of_nat k).
Proof.
  revert o. induction k as [|k IH]; intros o; cbn [Nat.add row_offsets app]; [by rewrite Z.add_0_r|].
  rewrite IH. do 3 f_equal. lia.
Qed.

Section fill.
Context (surface : gfx_surface) (s : canvas).
Hypothesis (Hwf : wf_surface surface (pixels s)).

Lemma fill_ok color l : Forall (in_mem (pixels s)) l -> Forall (update_ok id id (fun _ _ => Some color) (pixels s)) l.
Proof. intros Hl. eapply Forall_impl; [exact Hl|]. intros i Hi. by split. Qed.

Lemma fill_apart l : StronglySorted Z.lt l -> StronglySorted (apart id id) l.
Proof. intros Hl. rewrite <- (list_fmap_id l). eapply sorted_fmap; [|exact Hl]. intros i j Hij. unfold apart. cbn. lia. Qed.

Lemma fill_rows_filled dest w h v :
  0 <= w <= stride surface -> 0 <= h ->
  (forall a b, 0 <= a < w -> 0 <= b < h -> in_mem (pixels s) (dest + pos surface a b)) ->
  exists m', fill_rows (Z.to_nat h) (Z.to_nat w) dest (stride surface - w) v s = (Ret tt, Canvas m' (cleaned s) (flushed s)) /\
    filled surface dest w h v (pixels s) m'.
Proof.
  intros Hw Hh Hin. set (l := offsets (Z.to_nat h) (Z.to_nat w) (stride surface) dest).
  assert (Hel : forall i, i ∈ l <-> exists a b, 0 <= a < w /\ 0 <= b < h /\ i = dest + pos surface a b).
  { intros i. unfold l. rewrite elem_of_offsets. unfold pos.
    split; intros (a & b & Ha & Hb & ->); exists a, b; lia. }
  destruct (updates_run id id (fun _ _ => Some v) l s) as (m' & Hrun & Hlen & Heq & Hne).
  - apply fill_apart, offsets_sorted. lia.
  - apply fill_ok, Forall_forall. intros i (a & b & Ha & Hb & ->)%Hel. by apply Hin.
  - exists m'. pose proof (fill_rows_run (Z.to_nat h) (Z.to_nat w) (stride surface) v dest s) as Hf.
    rewrite Z2Nat.id in Hf by lia. split; [by rewrite Hf|]. split_and!; [done| |].
    + intros a b Ha Hb. apply Heq, Hel. by exists a, b.
    + intros i Hi. apply Hne. intros j (a & b & Ha & Hb & ->)%Hel. by apply Hi.
Qed.

Lemma fillrect_routine_stored x y w h color :
  fillrect surface x y w h color s = fillrect_routine surface x y w h (stored_value surface false color) s.
Proof.
  unfold fillrect, stored_value, fillrect8, fillrect16, translated. pose proof (wf_translate _ _ Hwf) as Ht.
  destruct (routines_of surface); try done; (destruct (translate_color surface); [done|by specialize (Ht eq_refl)]).
Qed.

Lemma fillrect_inside x y w h color :
  inside surface x y -> 0 <= w <= width surface - x -> 0 <= h <= height surface - y ->
  exists m', fillrect surface x y w h color s = (Ret tt, Canvas m' (cleaned s) (flushed s)) /\
    filled surface (pos surface x y) w h (stored_value surface false color) (pixels s) m'.
Proof.
  intros Hxy Hw Hh. pose proof (wf_width _ _ Hwf). rewrite fillrect_routine_stored. unfold fillrect_routine.
  rewrite (pixel_at_pos _ _ Hwf) by done. unfold inside in Hxy. rewrite (diff_code surface s Hwf) by lia.
  apply fill_rows_filled; [lia|lia|]. intros a b Ha Hb. replace (pos surface x y + pos surface a b) with (pos surface (x + a) (y + b)) by (unfold pos; lia).
  apply (pos_in_mem _ _ Hwf). unfold inside. lia.
Qed.

(** filling a rectangle sets exactly the pixels of it that are inside the
    surface, provided its far edges do not pass 2^32; if the right edge does, the
    width is not clipped and the fill runs out of the memory. *)
Theorem gfx_fillrect_clips x y w h color :
  0 <= x -> 0 <= y < 2 ^ 31 -> 0 <= w < 2 ^ 32 -> 0 <= h < 2 ^ 31 ->
  if bool_decide (x + w < 2 ^ 32) then
    exists m', gfx_fillrect surface x y w h color s = (Ret tt, Canvas m' (cleaned s) (flushed s)) /\
      filled surface (pos surface x y) (Z.min w (width surface - x)) (Z.min h (height surface - y)) (stored_value surface false color) (pixels s) m'
  else inside surface x y -> 0 < h -> fst (gfx_fillrect surface x y w h color s) = Fault.
Proof.
  intros Hx Hy Hw Hh. pose proof (wf_bounds _ _ Hwf). unfold gfx_fillrect.
  assert (Hnothing : width surface <= x \/ height surface <= y \/ w = 0 \/ h = 0 ->
    filled surface (pos surface x y) (Z.min w (width surface - x)) (Z.min h (height surface - y)) (stored_value surface false color) (pixels s) (pixels s))
    by (intros Hn; split_and!; [done| |done]; intros a b Ha Hb; lia).
  case_bool_decide as Hsum.
  - assert (Hid : ret (E:=Empty_set) tt s = (Ret tt, Canvas (pixels s) (cleaned s) (flushed s))) by by destruct s.
    destruct (Z.leb_spec (width surface) x); [exists (pixels s); split; [exact Hid|apply Hnothing; lia]|].
    destruct (Z.leb_spec (height surface) y); [exists (pixels s); split; [exact Hid|apply Hnothing; lia]|].
    destruct (Z.eqb_spec w 0); [exists (pixels s); split; [exact Hid|apply Hnothing; lia]|]. destruct (Z.eqb_spec h 0); [exists (pixels s); split; [exact Hid|apply Hnothing; lia]|].
    cbn [orb]. cbv zeta. rewrite (u32_small (x + w)), (u32_small (y + h)), !(u32_small (_ - _)) by lia.
    replace (if width surface <? x + w then width surface - x else w) with (Z.min w (width surface - x))
      by (destruct (Z.ltb_spec (width surface) (x + w)); lia).
    replace (if height surface <? y + h then height surface - y else h) with (Z.min h (height surface - y))
      by (destruct (Z.ltb_spec (height surface) (y + h)); lia).
    apply fillrect_inside; unfold inside; lia.
  - intros Hxy Hh0. pose proof (pos_in_mem _ _ Hwf x y Hxy) as Hp. destruct Hxy as [Hx' Hy'].
    rewrite !(proj2 (Z.leb_gt _ _)), !(proj2 (Z.eqb_neq _ 0)) by lia. cbn [orb]. cbv zeta.
    replace (u32 (x + w)) with (x + w - 2 ^ 32) by (symmetry; unfold u32; rewrite <- (Z_mod_plus_full _ (-1)); apply Z.mod_small; lia).
    rewrite (proj2 (Z.ltb_ge (width surface) _)) by lia. rewrite fillrect_routine_stored. unfold fillrect_routine.
    rewrite (pixel_at_pos _ _ Hwf) by done. set (v := stored_value surface false color). clearbody v. 
    match goal with |- context [if height surface <? ?e then ?t else h] => set (h' := if height surface <? e then t else h) end.
    assert (Hrows : exists rows, Z.to_nat h' = S rows).
    { exists (Z.to_nat h' - 1)%nat. unfold h'. rewrite (u32_small (y + h)), u32_small by lia. destruct (Z.ltb_spec (height surface) (y + h)); lia. }
    destruct Hrows as [rows ->]. cbn [fill_rows]. unfold bind at 1. rewrite fill_row_run.
    assert (Hsmall := wf_small _ _ Hwf). set (o := pos surface x y) in *. unfold in_mem in Hp.
    set (k := Z.to_nat (Z.of_nat (length (pixels s)) - o)).
    replace (Z.to_nat w) with (k + S (Z.to_nat w - k - 1))%nat by lia. rewrite row_offsets_split. cbn [row_offsets].
    set (rest := row_offsets _ (_ + 1)).
    pose proof (updates_fault id id (fun _ _ => Some v) (row_offsets k o) (o + Z.of_nat k) rest s) as Hf.
    unfold bind. unfold fill_cell. destruct (for_each _ _ s) as [r s1] eqn:Hr. cbn [fst] in Hf. rewrite Hf; [done|..].
    + apply fill_apart, row_offsets_sorted.
    + apply fill_ok, Forall_forall. intros i Hi%elem_of_row_offsets. unfold in_mem. lia.
    + unfold in_mem, id. lia.
Qed.

Lemma gfx_clear_run color :
  exists m', gfx_clear surface color s =
      (Ret tt, Canvas m' (cleaned s) (flushed s ++ if flush surface then [(0, height surface - 1)] else [])) /\
    filled surface 0 (width surface) (height surface) (stored_value surface false color) (pixels s) m'.
Proof.
  pose proof (wf_bounds _ _ Hwf). pose proof (wf_width _ _ Hwf). pose proof (wf_height _ _ Hwf).
  destruct (fillrect_inside 0 0 (width surface) (height surface) color) as (m' & Hrun & Hf); [unfold inside; lia..|].
  exists m'. split; [|exact Hf]. unfold gfx_clear. erewrite bind_run by exact Hrun. unfold call_flush. rewrite u32_small by lia.
  destruct (flush surface); [done|]. by rewrite app_nil_r.
Qed.

(** A pixel outside the surface is not drawn. *)
Lemma gfx_putpixel_run x y color :
  0 <= x -> 0 <= y ->
  exists m', gfx_putpixel surface x y color s = (Ret tt, Canvas m' (cleaned s) (flushed s)) /\ length m' = length (pixels s) /\
    forall i, px m' i = if bool_decide (inside surface x y /\ pos surface x y = i) then Some (stored_value surface true color)
                        else px (pixels s) i.
Proof.
  intros Hx Hy. unfold gfx_putpixel.
  assert (Hid : ret (E:=Empty_set) tt s = (Ret tt, Canvas (pixels s) (cleaned s) (flushed s))) by by destruct s.
  destruct (Z.leb_spec (width surface) x).
  { exists (pixels s). split_and!; [done|done|]. intros i. rewrite bool_decide_false; [done|]. unfold inside. lia. }
  destruct (Z.leb_spec (height surface) y).
  { exists (pixels s). split_and!; [done|done|]. intros i. rewrite bool_decide_false; [done|]. unfold inside. lia. }
  assert (Hin : inside surface x y) by (unfold inside; lia).
  destruct (set_px_spec (pos surface x y) (stored_value surface true color) (pixels s) (pos_in_mem _ _ Hwf x y Hin)) as (m' & Hset & Hlen & Heq & Hne).
  exists m'. split_and!; [|done|].
  - assert (Hput : putpixel surface x y color s = wr_px (pos surface x y) (stored_value surface true color) s).
    { unfold putpixel, stored_value, putpixel8, putpixel16, putpixel32, translated. rewrite <- (pixel_at_pos _ _ Hwf x y Hin).
      pose proof (wf_translate _ _ Hwf) as Ht. destruct (routines_of surface); destruct (translate_color surface); try done; by specialize (Ht eq_refl). }
    rewrite Hput. unfold wr_px, get, put, bind. cbn. by rewrite Hset.
  - intros i. case_bool_decide as Hi; [destruct Hi as [_ <-]; done|]. apply Hne. intros ->. by apply Hi.
Qed.
End fill.

(** ** gfx_line *)

(** The point [i] steps from the start of a line of [major] by [minor]. *)
Definition line_point (horizontal : bool) (x1 y1 sdx sdy minor major i : Z) : Z * Z :=
  let steps := (major / 2 + i * minor) / major in
  if horizontal then (x1 + sdx * i, y1 + sdy * steps) else (x1 + sdx * steps, y1 + sdy * i).

Section line.
Context (surface : gfx_surface) (horizontal : bool) (x1 y1 sdx sdy minor major color : Z).
Hypothesis (Hmajor : 0 <= minor <= major) (Hsmall : major < 2 ^ 31).

(** One turn of the error term. *)
Lemma line_step i :
  0 < major -> 0 <= i ->
  let acc := (major / 2 + i * minor) mod major in
  let steps i := (major / 2 + i * minor) / major in
  (if major <=? acc + minor then acc + minor - major else acc + minor) = (major / 2 + (i + 1) * minor) mod major /\
  steps (i + 1) = steps i + (if major <=? acc + minor then 1 else 0).
Proof.
  intros Hpos Hi. cbv beta zeta. set (t := major / 2 + i * minor).
  replace (major / 2 + (i + 1) * minor) with (t + minor) by lia.
  pose proof (Z.div_mod t major ltac:(lia)) as Hd. pose proof (Z.mod_pos_bound t major Hpos) as Hm.
  set (q := t / major) in *. set (r := t mod major) in *. clearbody q r. clearbody t. subst t.
  destruct (Z.leb_spec major (r + minor)).
  - split; [apply (Z.mod_unique_pos _ _ (q + 1)); lia|symmetry; apply (Z.div_unique_pos _ _ _ (r + minor - major)); lia].
  - split; [apply (Z.mod_unique_pos _ _ q); lia|symmetry; apply (Z.div_unique_pos _ _ _ (r + minor)); lia].
Qed.

(** All points so far are coordinates that did not wrap around. *)
Definition on_line (i : Z) : Prop := let '(x, y) := line_point horizontal x1 y1 sdx sdy minor major i in 0 <= x < 2 ^ 31 /\ 0 <= y < 2 ^ 31.

Lemma line_loop_run n i s :
  0 < major -> 0 <= i -> (forall j, i <= j <= i + Z.of_nat n -> on_line j) ->
  let p := line_point horizontal x1 y1 sdx sdy minor major i in
  line_loop n surface horizontal ((major / 2 + i * minor) mod major) minor major sdx sdy (fst p) (snd p) color s =
  for_each (row_offsets n (i + 1)) (fun j => let p := line_point horizontal x1 y1 sdx sdy minor major j in putpixel surface (fst p) (snd p) color) s.
Proof.
  intros Hpos. revert i s. induction n as [|n IH]; intros i s Hi Hon; cbv zeta; cbn [line_loop row_offsets for_each]; [done|].
  pose proof (line_step i Hpos Hi) as [Hacc Hsteps]. cbv beta zeta in Hacc, Hsteps.
  pose proof (Z.mod_pos_bound (major / 2 + i * minor) major Hpos) as Hm. cbv zeta.
  set (acc := (major / 2 + i * minor) mod major) in *.
  rewrite (u32_small (acc + minor)) by lia.
  assert (Hwrap : u32 (acc + minor - major) = acc + minor - major \/ acc + minor < major) by (destruct (decide (major <= acc + minor)); [left; apply u32_small; lia|right; lia]).
  assert (Hacc' : (if major <=? acc + minor then u32 (acc + minor - major) else acc + minor) = (major / 2 + (i + 1) * minor) mod major).
  { rewrite <- Hacc. destruct (Z.leb_spec major (acc + minor)); [|done]. destruct Hwrap as [->|]; [done|lia]. }
  rewrite Hacc'. pose proof (Hon (i + 1) ltac:(lia)) as Hnext. unfold on_line in Hnext.
  assert (Hx : (if horizontal || (major <=? acc + minor) then u32 (fst (line_point horizontal x1 y1 sdx sdy minor major i) + sdx)
      else fst (line_point horizontal x1 y1 sdx sdy minor major i)) = fst (line_point horizontal x1 y1 sdx sdy minor major (i + 1))).
  { unfold line_point in *. rewrite Hsteps in *. destruct horizontal; cbn [orb fst snd] in *; [rewrite u32_small; lia|].
    destruct (major <=? acc + minor); [rewrite u32_small; lia|]. f_equal. lia. }
  assert (Hy : (if negb horizontal || (major <=? acc + minor) then u32 (snd (line_point horizontal x1 y1 sdx sdy minor major i) + sdy)
      else snd (line_point horizontal x1 y1 sdx sdy minor major i)) = snd (line_point horizontal x1 y1 sdx sdy minor major (i + 1))).
  { unfold line_point in *. rewrite Hsteps in *. destruct horizontal; cbn [orb negb fst snd] in *; [|rewrite u32_small; lia].
    destruct (major <=? acc + minor); [rewrite u32_small; lia|]. f_equal. lia. }
  rewrite Hx, Hy. apply bind_cong. intros [] s'. apply IH; [lia|]. intros j Hj. apply Hon. lia.
Qed.
End line.

Lemma plot_run surface color pts s :
  wf_surface surface (pixels s) -> Forall (fun p => inside surface (fst p) (snd p)) pts ->
  exists m', for_each pts (fun p => putpixel surface (fst p) (snd p) color) s = (Ret tt, Canvas m' (cleaned s) (flushed s)) /\
    length m' = length (pixels s) /\
    forall i, px m' i = if bool_decide (i ∈ (fun p => pos surface (fst p) (snd p)) <$> pts) then Some (stored_value surface true color)
                        else px (pixels s) i.
Proof.
  intros Hwf Hin. revert s Hwf. induction Hin as [|p pts Hp Hin IH]; intros s Hwf; cbn [for_each fmap list_fmap].
  - exists (pixels s). destruct s. split_and!; [done|done|]. intros i. by rewrite bool_decide_false by (by intros ?%elem_of_nil).
  - destruct (gfx_putpixel_run surface s Hwf (fst p) (snd p) color) as (m1 & Hrun & Hlen & Hpx); [unfold inside in Hp; lia..|].
    unfold gfx_putpixel in Hrun. rewrite !(proj2 (Z.leb_gt _ _)) in Hrun by (unfold inside in Hp; lia).
    destruct (IH (Canvas m1 (cleaned s) (flushed s))) as (m' & Hrun' & Hlen' & Hpx').
    { destruct Hwf. constructor; cbn; rewrite ?Hlen; done. }
    cbn [pixels cleaned flushed] in *. exists m'. erewrite bind_run by exact Hrun. split_and!; [done|congruence|].
    intros i. rewrite Hpx', Hpx. set (ps := (fun p => pos surface p.1 p.2) <$> pts). destruct (decide (i ∈ ps)) as [Hi|Hi].
    + by rewrite !bool_decide_true by (try right; done).
    + rewrite (bool_decide_false (i ∈ ps)) by done. destruct (decide (pos surface p.1 p.2 = i)) as [<-|Hne].
      * by rewrite !bool_decide_true by (try left; done).
      * rewrite !bool_decide_false; [done|by intros [|]%elem_of_cons|by intros [_ ?]].
Qed.

Lemma sign_of_int_mul d : d = sign_of_int d * Z.abs d /\ (d <> 0 -> sign_of_int d * sign_of_int d = 1) /\ -1 <= sign_of_int d <= 1.
Proof. unfold sign_of_int. destruct (Z.ltb_spec 0 d), (Z.ltb_spec d 0); lia. Qed.

(** A point of the line is between the ends and half a pixel away at most. *)
Lemma line_point_near (horizontal : bool) x1 y1 dx dy i x y :
  let major := if horizontal then Z.abs dx else Z.abs dy in
  let minor := if horizontal then Z.abs dy else Z.abs dx in
  minor <= major -> 0 < major -> 0 <= i <= major ->
  line_point horizontal x1 y1 (sign_of_int dx) (sign_of_int dy) minor major i = (x, y) ->
  Z.min x1 (x1 + dx) <= x <= Z.max x1 (x1 + dx) /\ Z.min y1 (y1 + dy) <= y <= Z.max y1 (y1 + dy) /\
  2 * Z.abs ((y - y1) * dx - (x - x1) * dy) <= Z.max (Z.abs dx) (Z.abs dy) /\
  (i = major -> x = x1 + dx /\ y = y1 + dy).
Proof.
  cbv zeta. set (major := if horizontal then Z.abs dx else Z.abs dy). set (minor := if horizontal then Z.abs dy else Z.abs dx).
  intros Hle Hpos Hi. unfold line_point. set (steps := (major / 2 + i * minor) / major).
  assert (Hminor : 0 <= minor) by (unfold minor; destruct horizontal; lia).
  assert (Hhalf : 0 <= major / 2 < major) by (split; [apply Z.div_pos; lia|apply Z.div_lt; lia]).
  assert (H2 : major - 1 <= 2 * (major / 2) <= major) by (pose proof (Z.div_mod major 2); pose proof (Z.mod_pos_bound major 2); lia).
  assert (Hs1 : major * steps <= major / 2 + i * minor < major * steps + major).
  { unfold steps. pose proof (Z.div_mod (major / 2 + i * minor) major ltac:(lia)). pose proof (Z.mod_pos_bound (major / 2 + i * minor) major Hpos). lia. }
  assert (Hs : 0 <= steps <= minor) by nia.
  assert (Hend : i = major -> steps = minor) by (intros ->; nia).
  clearbody steps. intros Heq.
  pose proof (sign_of_int_mul dx) as (Hdx & _ & Hsx). pose proof (sign_of_int_mul dy) as (Hdy & _ & Hsy).
  assert (Hcase : forall d, sign_of_int d = 1 \/ sign_of_int d = -1 \/ sign_of_int d = 0) by (intros d; pose proof (proj2 (proj2 (sign_of_int_mul d))); lia).
  destruct horizontal; cbn [negb] in *; injection Heq as <- <-; subst major minor;
    set (sx := sign_of_int dx) in *; set (sy := sign_of_int dy) in *;
    pose proof (Hcase dx) as Hcx; pose proof (Hcase dy) as Hcy; fold sx in Hcx; fold sy in Hcy;
    clearbody sx sy; destruct Hcx as [->|[->| ->]], Hcy as [->|[->| ->]]; split_and!; nia.
Qed.

(** C17: gfx_line draws one pixel per step of the longer distance, all between the
    two ends and at most half a pixel off the ideal line, the last one on the second
    end; the first end is not drawn.  It never leaves the surface. *)
Theorem gfx_line_digital surface s x1 y1 x2 y2 color :
  wf_surface surface (pixels s) -> inside surface x1 y1 -> inside surface x2 y2 ->
  exists pts m', gfx_line surface x1 y1 x2 y2 color s = (Ret tt, Canvas m' (cleaned s) (flushed s)) /\
    Z.of_nat (length pts) = Z.max (Z.abs (x2 - x1)) (Z.abs (y2 - y1)) /\
    Forall (fun '(x, y) => Z.min x1 x2 <= x <= Z.max x1 x2 /\ Z.min y1 y2 <= y <= Z.max y1 y2 /\
      2 * Z.abs ((y - y1) * (x2 - x1) - (x - x1) * (y2 - y1)) <= Z.max (Z.abs (x2 - x1)) (Z.abs (y2 - y1))) pts /\
    (forall p, last pts = Some p -> p = (x2, y2)) /\
    forall i, px m' i = if bool_decide (i ∈ (fun p => pos surface (fst p) (snd p)) <$> pts) then Some (stored_value surface true color)
                        else px (pixels s) i.
Proof.
  intros Hwf H1 H2. pose proof (wf_bounds _ _ Hwf) as Hb. destruct H1 as [H1x H1y], H2 as [H2x H2y].
  set (dx := x2 - x1). set (dy := y2 - y1). set (horizontal := Z.abs dy <=? Z.abs dx).
  set (major := if horizontal then Z.abs dx else Z.abs dy). set (minor := if horizontal then Z.abs dy else Z.abs dx).
  assert (Hmm : 0 <= minor <= major /\ major = Z.max (Z.abs dx) (Z.abs dy) /\ major < 2 ^ 31).
  { unfold major, minor, horizontal. destruct (Z.leb_spec (Z.abs dy) (Z.abs dx)); lia. }
  destruct Hmm as (Hmm & Hmax & Hsm).
  set (point := line_point horizontal x1 y1 (sign_of_int dx) (sign_of_int dy) minor major).
  set (pts := point <$> row_offsets (Z.to_nat major) 1).
  assert (Hpt : forall i, 0 < major -> 0 <= i <= major -> let '(x, y) := point i in
    Z.min x1 x2 <= x <= Z.max x1 x2 /\ Z.min y1 y2 <= y <= Z.max y1 y2 /\
    2 * Z.abs ((y - y1) * dx - (x - x1) * dy) <= Z.max (Z.abs dx) (Z.abs dy) /\ (i = major -> x = x2 /\ y = y2)).
  { intros i Hpos Hi. destruct (point i) as [x y] eqn:Hp.
    pose proof (line_point_near horizontal x1 y1 dx dy i x y) as Hn. cbv zeta in Hn.
    specialize (Hn (proj2 Hmm) Hpos Hi Hp). replace (x1 + dx) with x2 in Hn by lia. by replace (y1 + dy) with y2 in Hn by lia. }
  assert (Hmem : Forall (fun p => exists i, 0 < major /\ 0 <= i <= major /\ p = point i) pts).
  { unfold pts. apply Forall_fmap, Forall_forall. intros i Hi%elem_of_row_offsets. exists i. cbn. split_and!; [lia..|done]. }
  assert (Hins : Forall (fun p => inside surface (fst p) (snd p)) pts).
  { eapply Forall_impl; [exact Hmem|]. intros p (i & Hpos & Hi & ->). specialize (Hpt i Hpos Hi). destruct (point i). unfold inside. cbn. lia. }
  destruct (plot_run surface color pts s Hwf Hins) as (m' & Hrun & Hlen & Hpx). exists pts, m'. split_and!; [|..|done].
  - rewrite <- Hrun. unfold gfx_line. rewrite !(proj2 (Z.leb_gt _ _)) by lia.
    rewrite !(s32_small (_ - _)) by lia. fold dx dy. cbv zeta.
    assert (Habs : forall d, - 2 ^ 31 < d < 2 ^ 31 -> u32 (if 0 <? d then d else - d) = Z.abs d).
    { intros d Hd. destruct (Z.ltb_spec 0 d); rewrite u32_small; lia. }
    rewrite !Habs, !Z.shiftr_div_pow2 by lia. change (2 ^ 1) with 2.
    unfold pts. rewrite for_each_fmap. destruct (decide (major = 0)) as [Hz|Hnz].
    { rewrite Hz. assert (Z.abs dx = 0 /\ Z.abs dy = 0) as [-> ->] by lia. done. }
    pose proof (line_loop_run surface horizontal x1 y1 (sign_of_int dx) (sign_of_int dy) minor major color Hmm Hsm (Z.to_nat major) 0 s ltac:(lia) ltac:(lia)) as Hloop.
    cbv zeta in Hloop. change (0 + 1) with 1 in Hloop. unfold point. rewrite <- Hloop.
    + rewrite Z.mul_0_l, Z.add_0_r, Z.mod_small by (split; [apply Z.div_pos; lia|apply Z.div_lt; lia]).
      assert (H0 : line_point horizontal x1 y1 (sign_of_int dx) (sign_of_int dy) minor major 0 = (x1, y1)).
      { unfold line_point. rewrite Z.mul_0_l, Z.add_0_r, (Z.div_small (major / 2)) by (split; [apply Z.div_pos; lia|apply Z.div_lt; lia]).
        destruct horizontal; f_equal; lia. }
      rewrite H0. cbn [fst snd]. unfold major, minor. fold horizontal. by destruct horizontal.
    + intros j Hj. specialize (Hpt j ltac:(lia) ltac:(lia)). unfold on_line. unfold point in Hpt. destruct (line_point _ _ _ _ _ _ _ j). lia.
  - unfold pts. rewrite length_fmap. assert (Hl : forall n o, length (row_offsets n o) = n) by (induction n; intros; cbn; auto). rewrite Hl. lia.
  - eapply Forall_impl; [exact Hmem|]. intros p (i & Hpos & Hi & ->). specialize (Hpt i Hpos Hi). destruct (point i). tauto.
  - intros p Hp. unfold pts in Hp. destruct (Z.to_nat major) as [|n] eqn:Hn; [done|].
    replace (S n) with (n + 1)%nat in Hp by lia. rewrite row_offsets_split, fmap_app in Hp. cbn in Hp. rewrite last_snoc in Hp.
    injection Hp as <-. specialize (Hpt (1 + Z.of_nat n) ltac:(lia) ltac:(lia)). destruct (point _). 
    destruct Hpt as (_ & _ & _ & He). destruct He as [-> ->]; [lia|done].
Qed.
