(* ===== verification/TextRaster.v ===== *)
(** * lib/font and the installer's text: font.c, screen.c and textraster.c *)

From stdpp Require Import prelude list.
From Stdlib Require Import ZArith Lia Ascii.
From S2P Require Import Prelude CMem CString Kernel Mutex Printf Gfx.

Open Scope Z_scope.
Open Scope lk_scope.

(** ** font.h and font.c *)

Definition FONT_X : Z := 6.
Definition FONT_Y : Z := 12.

(** The glyphs: FONT_Y bytes for each of 128 characters, the leftmost pixel in bit 0. *)
Definition FONT : list Z := [
  0; 0; 0; 0; 0; 0; 0; 0; 0; 0; 0; 0;
  0; 0; 0; 0; 0; 0; 0; 0; 0; 0; 0; 0;
  0; 0; 0; 0; 0; 0; 0; 0; 0; 0; 0; 0;
  0; 0; 0; 0; 0; 0; 0; 0; 0; 0; 0; 0;
  0; 0; 0; 0; 0; 0; 0; 0; 0; 0; 0; 0;
  0; 0; 0; 0; 0; 0; 0; 0; 0; 0; 0; 0;
  0; 0; 0; 0; 0; 0; 0; 0; 0; 0; 0; 0;
  0; 0; 0; 0; 0; 0; 0; 0; 0; 0; 0; 0;
  0; 0; 0; 0; 0; 0; 0; 0; 0; 0; 0; 0;
  0; 0; 0; 0; 0; 0; 0; 0; 0; 0; 0; 0;
  0; 0; 0; 0; 0; 0; 0; 0; 0; 0; 0; 0;
  0; 0; 0; 0; 0; 0; 0; 0; 0; 0; 0; 0;
  0; 0; 0; 0; 0; 0; 0; 0; 0; 0; 0; 0;
  0; 0; 0; 0; 0; 0; 0; 0; 0; 0; 0; 0;
  0; 0; 0; 0; 0; 0; 0; 0; 0; 0; 0; 0;
  0; 0; 0; 0; 0; 0; 0; 0; 0; 0; 0; 0;
  0; 0; 0; 0; 0; 0; 0; 0; 0; 0; 0; 0;
  0; 0; 0; 0; 0; 0; 0; 0; 0; 0; 0; 0;
  0; 0; 0; 0; 0; 0; 0; 0; 0; 0; 0; 0;
  0; 0; 0; 0; 0; 0; 0; 0; 0; 0; 0; 0;
  0; 0; 0; 0; 0; 0; 0; 0; 0; 0; 0; 0;
  0; 0; 0; 0; 0; 0; 0; 0; 0; 0; 0; 0;
  0; 0; 0; 0; 0; 0; 0; 0; 0; 0; 0; 0;
  0; 0; 0; 0; 0; 0; 0; 0; 0; 0; 0; 0;
  0; 0; 0; 0; 0; 0; 0; 0; 0; 0; 0; 0;
  0; 0; 0; 0; 0; 0; 0; 0; 0; 0; 0; 0;
  0; 0; 0; 0; 0; 0; 0; 0; 0; 0; 0; 0;
  0; 0; 0; 0; 0; 0; 0; 0; 0; 0; 0; 0;
  0; 0; 0; 0; 0; 0; 0; 0; 0; 0; 0; 0;
  0; 0; 0; 0; 0; 0; 0; 0; 0; 0; 0; 0;
  0; 0; 0; 0; 0; 0; 0; 0; 0; 0; 0; 0;
  0; 0; 0; 0; 0; 0; 0; 0; 0; 0; 0; 0;
  0; 0; 0; 0; 0; 0; 0; 0; 0; 0; 0; 0;
  0; 8; 8; 8; 8; 8; 8; 0; 8; 0; 0; 0;
  0; 20; 20; 20; 0; 0; 0; 0; 0; 0; 0; 0;
  0; 0; 20; 20; 62; 20; 62; 20; 20; 0; 0; 0;
  0; 0; 8; 60; 10; 28; 40; 30; 8; 0; 0; 0;
  0; 0; 6; 38; 16; 8; 4; 50; 48; 0; 0; 0;
  0; 0; 28; 2; 2; 4; 42; 18; 44; 0; 0; 0;
  0; 24; 8; 4; 0; 0; 0; 0; 0; 0; 0; 0;
  32; 16; 16; 8; 8; 8; 8; 8; 16; 16; 32; 0;
  2; 4; 4; 8; 8; 8; 8; 8; 4; 4; 2; 0;
  0; 0; 0; 8; 42; 28; 42; 8; 0; 0; 0; 0;
  0; 0; 0; 8; 8; 62; 8; 8; 0; 0; 0; 0;
  0; 0; 0; 0; 0; 0; 0; 24; 24; 8; 4; 0;
  0; 0; 0; 0; 0; 62; 0; 0; 0; 0; 0; 0;
  0; 0; 0; 0; 0; 0; 0; 24; 24; 0; 0; 0;
  32; 32; 16; 16; 8; 8; 4; 4; 2; 2; 0; 0;
  0; 28; 34; 50; 42; 38; 34; 34; 28; 0; 0; 0;
  0; 8; 12; 8; 8; 8; 8; 8; 8; 0; 0; 0;
  0; 28; 34; 32; 16; 8; 4; 2; 62; 0; 0; 0;
  0; 28; 34; 32; 24; 32; 32; 34; 28; 0; 0; 0;
  0; 16; 24; 24; 20; 20; 62; 16; 56; 0; 0; 0;
  0; 62; 2; 2; 30; 32; 32; 34; 28; 0; 0; 0;
  0; 24; 4; 2; 30; 34; 34; 34; 28; 0; 0; 0;
  0; 62; 34; 32; 32; 16; 16; 8; 8; 0; 0; 0;
  0; 28; 34; 34; 28; 34; 34; 34; 28; 0; 0; 0;
  0; 28; 34; 34; 34; 60; 32; 16; 12; 0; 0; 0;
  0; 0; 0; 24; 24; 0; 0; 24; 24; 0; 0; 0;
  0; 0; 0; 24; 24; 0; 0; 24; 24; 8; 4; 0;
  0; 0; 0; 48; 12; 3; 12; 48; 0; 0; 0; 0;
  0; 0; 0; 0; 62; 0; 62; 0; 0; 0; 0; 0;
  0; 0; 0; 3; 12; 48; 12; 3; 0; 0; 0; 0;
  0; 28; 34; 32; 16; 8; 8; 0; 8; 0; 0; 0;
  0; 0; 28; 34; 58; 58; 26; 2; 28; 0; 0; 0;
  0; 0; 8; 20; 34; 34; 62; 34; 34; 0; 0; 0;
  0; 0; 30; 34; 34; 30; 34; 34; 30; 0; 0; 0;
  0; 0; 28; 34; 2; 2; 2; 34; 28; 0; 0; 0;
  0; 0; 14; 18; 34; 34; 34; 18; 14; 0; 0; 0;
  0; 0; 62; 2; 2; 30; 2; 2; 62; 0; 0; 0;
  0; 0; 62; 2; 2; 30; 2; 2; 2; 0; 0; 0;
  0; 0; 28; 34; 2; 50; 34; 34; 60; 0; 0; 0;
  0; 0; 34; 34; 34; 62; 34; 34; 34; 0; 0; 0;
  0; 0; 62; 8; 8; 8; 8; 8; 62; 0; 0; 0;
  0; 0; 56; 32; 32; 32; 34; 34; 28; 0; 0; 0;
  0; 0; 34; 18; 10; 6; 10; 18; 34; 0; 0; 0;
  0; 0; 2; 2; 2; 2; 2; 2; 62; 0; 0; 0;
  0; 0; 34; 54; 42; 42; 34; 34; 34; 0; 0; 0;
  0; 0; 34; 38; 38; 42; 50; 50; 34; 0; 0; 0;
  0; 0; 28; 34; 34; 34; 34; 34; 28; 0; 0; 0;
  0; 0; 30; 34; 34; 30; 2; 2; 2; 0; 0; 0;
  0; 0; 28; 34; 34; 34; 34; 34; 28; 48; 0; 0;
  0; 0; 30; 34; 34; 30; 10; 18; 34; 0; 0; 0;
  0; 0; 28; 34; 2; 28; 32; 34; 28; 0; 0; 0;
  0; 0; 62; 8; 8; 8; 8; 8; 8; 0; 0; 0;
  0; 0; 34; 34; 34; 34; 34; 34; 28; 0; 0; 0;
  0; 0; 34; 34; 34; 20; 20; 8; 8; 0; 0; 0;
  0; 0; 34; 34; 34; 42; 42; 54; 34; 0; 0; 0;
  0; 0; 34; 34; 20; 8; 20; 34; 34; 0; 0; 0;
  0; 0; 34; 34; 20; 8; 8; 8; 8; 0; 0; 0;
  0; 0; 62; 32; 16; 8; 4; 2; 62; 0; 0; 0;
  56; 8; 8; 8; 8; 8; 8; 8; 8; 8; 56; 0;
  2; 2; 4; 4; 8; 8; 16; 16; 32; 32; 0; 0;
  14; 8; 8; 8; 8; 8; 8; 8; 8; 8; 14; 0;
  0; 8; 20; 34; 0; 0; 0; 0; 0; 0; 0; 0;
  0; 0; 0; 0; 0; 0; 0; 0; 0; 63; 0; 0;
  0; 12; 8; 16; 0; 0; 0; 0; 0; 0; 0; 0;
  0; 0; 0; 0; 60; 34; 34; 50; 44; 0; 0; 0;
  0; 2; 2; 2; 30; 34; 34; 34; 30; 0; 0; 0;
  0; 0; 0; 0; 60; 2; 2; 2; 60; 0; 0; 0;
  0; 32; 32; 32; 60; 34; 34; 34; 60; 0; 0; 0;
  0; 0; 0; 0; 28; 34; 62; 2; 28; 0; 0; 0;
  0; 56; 4; 4; 30; 4; 4; 4; 4; 0; 0; 0;
  0; 0; 0; 0; 60; 34; 34; 34; 60; 32; 32; 28;
  0; 2; 2; 2; 30; 34; 34; 34; 34; 0; 0; 0;
  0; 8; 8; 0; 12; 8; 8; 8; 28; 0; 0; 0;
  0; 16; 16; 0; 28; 16; 16; 16; 16; 16; 16; 14;
  0; 2; 2; 2; 18; 10; 6; 10; 18; 0; 0; 0;
  0; 12; 8; 8; 8; 8; 8; 8; 28; 0; 0; 0;
  0; 0; 0; 0; 22; 42; 42; 42; 34; 0; 0; 0;
  0; 0; 0; 0; 26; 38; 34; 34; 34; 0; 0; 0;
  0; 0; 0; 0; 28; 34; 34; 34; 28; 0; 0; 0;
  0; 0; 0; 0; 30; 34; 34; 34; 30; 2; 2; 2;
  0; 0; 0; 0; 60; 34; 34; 34; 60; 32; 32; 32;
  0; 0; 0; 0; 26; 6; 2; 2; 2; 0; 0; 0;
  0; 0; 0; 0; 60; 2; 28; 32; 30; 0; 0; 0;
  0; 8; 8; 8; 62; 8; 8; 8; 48; 0; 0; 0;
  0; 0; 0; 0; 34; 34; 34; 50; 44; 0; 0; 0;
  0; 0; 0; 0; 54; 20; 20; 8; 8; 0; 0; 0;
  0; 0; 0; 0; 34; 42; 42; 42; 20; 0; 0; 0;
  0; 0; 0; 0; 34; 20; 8; 20; 34; 0; 0; 0;
  0; 0; 0; 0; 34; 34; 34; 34; 60; 32; 32; 28;
  0; 0; 0; 0; 62; 16; 8; 4; 62; 0; 0; 0;
  32; 16; 16; 16; 16; 8; 16; 16; 16; 16; 32; 0;
  8; 8; 8; 8; 8; 8; 8; 8; 8; 8; 8; 0;
  2; 4; 4; 4; 4; 8; 4; 4; 4; 4; 2; 0;
  0; 4; 42; 16; 0; 0; 0; 0; 0; 0; 0; 0;
  0; 0; 0; 8; 8; 20; 20; 34; 62; 0; 0; 0
].

(** The columns of one line of a glyph, from [j] on. *)
Fixpoint draw_glyph_row (n : nat) (surface : gfx_surface) (line x y color : Z) : GM unit :=
  match n with
  | O => ret tt
  | S n' =>
      (if negb (Z.land line 1 =? 0) then gfx_putpixel surface x y color else ret tt) ;;
      draw_glyph_row n' surface (Z.shiftr line 1) (u32 (x + 1)) y color
  end.

(** The lines of a glyph from [i] on; the table ends behind character 127. *)
Fixpoint draw_glyph_rows (n : nat) (surface : gfx_surface) (c i x y color : Z) : GM unit :=
  match n with
  | O => ret tt
  | S n' =>
      let* line := deref (FONT !! Z.to_nat (c * FONT_Y + i)) in
      draw_glyph_row (Z.to_nat FONT_X) surface line (u32 x) (u32 (y + i)) color ;;
      draw_glyph_rows n' surface c (i + 1) x y color
  end.

(** [c] is an unsigned char, [x] and [y] are ints. *)
Definition font_draw_char (surface : gfx_surface) (c x y color : Z) : GM unit :=
  draw_glyph_rows (Z.to_nat FONT_Y) surface c 0 x y color ;;
  gfx_flush_rows surface (u32 y) (u32 (y + FONT_Y)).

(** ** screen.c *)

Record Cursor := Cur { cursor_x : Z; cursor_y : Z }.

(** A screen, its surface's memory with it. *)
Record Screen := Scr { surface : gfx_surface; mutex : mutex_t; cursor : Cursor; memory : canvas }.

Definition SM (A : Type) : Type := M Screen Empty_set A.

Definition screen_init (surface : gfx_surface) (memory : canvas) : Screen := Scr surface mutex_init (Cur 0 0) memory.

(** Drawing on the screen's surface. *)
Definition draw (c : gfx_surface -> GM unit) : SM unit :=
  fun s => let r := c (surface s) (memory s) in (fst r, Scr (surface s) (mutex s) (cursor s) (snd r)).

Definition get_cursor : SM Cursor := gets cursor.
Definition set_cursor (x y : Z) : SM unit := modify (fun s => Scr (surface s) (mutex s) (Cur x y) (memory s)).

(** A call on the screen's mutex. *)
Definition on_mutex {A} (c : MM A) : SM A :=
  fun s => let r := c (mutex s) in (fst r, Scr (surface s) (snd r) (cursor s) (memory s)).

Definition screen_fill (colour : Z) : SM unit := draw (fun surface => gfx_clear surface colour) ;; set_cursor 0 0.

Definition screen_width : SM Z := gets (fun s => width (surface s)).
Definition screen_height : SM Z := gets (fun s => height (surface s)).

Definition screen_set_pixel (x y colour : Z) : SM unit := draw (fun surface => gfx_putpixel surface x y colour).

(** ** textraster.c *)

Definition FONT_PIXEL_WIDTH : Z := FONT_X.
Definition FONT_PIXEL_HEIGHT : Z := FONT_Y.

Definition needs_x_wrap (x : Z) : SM bool := let* w := screen_width in ret (w <? u32 (x + FONT_PIXEL_WIDTH)).
Definition needs_y_wrap (y : Z) : SM bool := let* h := screen_height in ret (h <? u32 (y + FONT_PIXEL_HEIGHT)).

(** [ch] is a char, font_draw_char takes an unsigned one. *)
Definition blit_character (ch x y fg_colour : Z) : SM unit :=
  draw (fun surface => font_draw_char surface (u8 ch) (s32 x) (s32 y) fg_colour).

(** The inner loop of clear_line: [n] pixels of row [y] from column [x] on. *)
Fixpoint clear_row (n : nat) (x y colour : Z) : SM unit :=
  match n with
  | O => ret tt
  | S n' =>
      let* c := get_cursor in
      screen_set_pixel (u32 (cursor_x c + x)) (u32 (cursor_y c + y)) colour ;;
      clear_row n' (x + 1) y colour
  end.

Fixpoint clear_rows (n : nat) (y colour : Z) : SM unit :=
  match n with
  | O => ret tt
  | S n' =>
      let* w := screen_width in
      clear_row (Z.to_nat w) 0 y colour ;;
      clear_rows n' (y + 1) colour
  end.

Definition clear_line (colour : Z) : SM unit := clear_rows (Z.to_nat FONT_PIXEL_HEIGHT) 0 colour.

(** One turn of the loop of text_rasterise_string. *)
Definition rasterise_char (fg_colour bg_colour ch : Z) : SM unit :=
  let* c := get_cursor in
  let* wrap := needs_x_wrap (cursor_x c) in
  (if wrap || (ch =? asc "010") then
     set_cursor 0 (u32 (cursor_y c + FONT_PIXEL_HEIGHT)) ;;
     let* c := get_cursor in
     let* ywrap := needs_y_wrap (cursor_y c) in
     (if ywrap then set_cursor (cursor_x c) 0 else ret tt) ;;
     clear_line bg_colour
   else ret tt) ;;
  if ch =? asc "010" then ret tt
  else
    let* c := get_cursor in
    blit_character ch (cursor_x c) (cursor_y c) fg_colour ;;
    set_cursor (u32 (cursor_x c + FONT_PIXEL_WIDTH)) (cursor_y c).

(** The loop: [str] is the object from [&str[i]] on, [n] is [len - i]. *)
Fixpoint rasterise_loop (fg_colour bg_colour : Z) (str : list Z) (n : nat) : SM unit :=
  match str with
  | [] => fault
  | ch :: str' =>
      if ch =? 0 then ret tt
      else match n with
           | O => ret tt
           | S n' => rasterise_char fg_colour bg_colour ch ;; rasterise_loop fg_colour bg_colour str' n'
           end
  end.

(** text_rasterise_string behind the acquired mutex *)
Definition rasterise_locked (cur : tid) (fg_colour bg_colour : Z) (str : list Z) (len : nat) : SM call_result :=
  rasterise_loop fg_colour bg_colour str len ;;
  on_mutex (mutex_release cur) ;;
  ret (Returned 0).

(** Up to the context switch, when another thread draws on the screen. *)
Definition text_rasterise_string (cur : tid) (fg_colour bg_colour : Z) (str : list Z) (len : nat) : SM call_result :=
  let* r := on_mutex (mutex_acquire cur) in
  match r with
  | Returned _ => rasterise_locked cur fg_colour bg_colour str len
  | Blocked => ret Blocked
  end.

(** It goes on when the mutex was handed to it. *)
Definition text_rasterise_resume (cur : tid) (fg_colour bg_colour : Z) (str : list Z) (len : nat) : SM call_result :=
  on_mutex (mutex_acquire_resume cur) ;;
  rasterise_locked cur fg_colour bg_colour str len.

(** text_rasterise_stringf with [fullstr] as its buffer was *)
Definition text_rasterise_stringf (cur : tid) (fg_colour bg_colour : Z) (fullstr : list Z) (fmt : list Z) (ap : list arg) : SM call_result :=
  match vsnprintf (Z.of_nat (length fullstr)) fmt ap (fullstr, []) with
  | (Ret _, (fullstr, _)) =>
      let* n := deref (strlen fullstr) in
      text_rasterise_string cur fg_colour bg_colour fullstr n
  | _ => fault
  end.
