(* ===== verification/TextProps.v ===== *)
(** * The installer's text: the screen as a terminal

    What drawing does is described by the pixels it sets, as a function of their
    coordinates; drawing one thing behind another composes the functions. *)

From stdpp Require Import prelude list.
From Stdlib Require Import ZArith Lia Ascii.
From S2P Require Import Prelude CMem CString Kernel Mutex Printf PrintfNum PrintfSpec PrintfProps Gfx GfxProps TextRaster.

Open Scope Z_scope.
Open Scope lk_scope.

(** ** Painting *)

Definition picture : Type := Z -> Z -> option Z.

Definition over (f g : picture) : picture := fun x y => match g x y with Some v => Some v | None => f x y end.

(** [m'] is [m] with the picture painted on the visible part of the surface. *)
Definition paints (surface : gfx_surface) (f : picture) (m m' : list Z) : Prop :=
  length m' = length m /\
  (forall x y, inside surface x y -> px m' (pos surface x y) = match f x y with Some v => Some v | None => px m (pos surface x y) end) /\
  (forall i, (forall x y, inside surface x y -> pos surface x y <> i) -> px m' i = px m i).

Section paints.
Context (surface : gfx_surface).
Implicit Types (m : list Z) (f g : picture).

Lemma paints_nothing m : paints surface (fun _ _ => None) m m.
Proof. done. Qed.

Lemma paints_over f g m m1 m2 : paints surface f m m1 -> paints surface g m1 m2 -> paints surface (over f g) m m2.
Proof.
  intros (Hl1 & Hp1 & Ho1) (Hl2 & Hp2 & Ho2). split_and!; [congruence| |].
  - intros x y Hxy. rewrite Hp2 by done. unfold over. destruct (g x y); [done|]. by apply Hp1.
  - intros i Hi. by rewrite Ho2, Ho1.
Qed.

Lemma paints_ext f g m m' : (forall x y, inside surface x y -> f x y = g x y) -> paints surface f m m' -> paints surface g m m'.
Proof. intros Hfg (Hl & Hp & Ho). split_and!; [done| |done]. intros x y Hxy. by rewrite <- Hfg, Hp. Qed.

Lemma paints_wf f m m' : paints surface f m m' -> wf_surface surface m -> wf_surface surface m'.
Proof. intros (Hl & _ & _) []. constructor; by rewrite ?Hl. Qed.

(** A run that paints and changes nothing else but what is flushed. *)
Definition run_paints (c : GM unit) (f : picture) (s : canvas) : Prop :=
  exists m' cl fl, c s = (Ret tt, Canvas m' cl fl) /\ paints surface f (pixels s) m'.

Lemma run_paints_seq (c d : GM unit) f g s :
  run_paints c f s -> (forall s', paints surface f (pixels s) (pixels s') -> run_paints d g s') -> run_paints (c ;; d) (over f g) s.
Proof.
  intros (m1 & cl1 & fl1 & Hc & Hp1) Hd. destruct (Hd (Canvas m1 cl1 fl1) Hp1) as (m2 & cl2 & fl2 & Hrun & Hp2).
  exists m2, cl2, fl2. erewrite bind_run by exact Hc. split; [done|]. by eapply paints_over.
Qed.

Lemma run_paints_ext (c : GM unit) f g s : (forall x y, inside surface x y -> f x y = g x y) -> run_paints c f s -> run_paints c g s.
Proof. intros Hfg (m & cl & fl & Hc & Hp). exists m, cl, fl. split; [done|]. by eapply paints_ext. Qed.

Lemma run_paints_ret s : run_paints (ret tt) (fun _ _ => None) s.
Proof. exists (pixels s), (cleaned s), (flushed s). by destruct s. Qed.

Lemma putpixel_paints s x y color :
  wf_surface surface (pixels s) -> 0 <= x -> 0 <= y ->
  run_paints (gfx_putpixel surface x y color) (fun a b => if bool_decide (a = x /\ b = y) then Some (stored_value surface true color) else None) s.
Proof.
  intros Hwf Hx Hy. destruct (gfx_putpixel_run surface s Hwf x y color Hx Hy) as (m' & Hrun & Hlen & Hpx).
  exists m', (cleaned s), (flushed s). split; [done|]. split_and!; [done| |].
  - intros a b Hab. rewrite Hpx. case_bool_decide as H1; case_bool_decide as H2; try done.
    + destruct H1 as [Hin Heq]. destruct (pos_inj surface (pixels s) Hwf x y a b Hin Hab Heq) as [-> ->]. by destruct H2.
    + destruct H2 as [-> ->]. by destruct H1.
  - intros i Hi. rewrite Hpx. rewrite bool_decide_false; [done|]. intros [Hin Heq]. by apply (Hi x y).
Qed.

Lemma flush_paints s c : (forall s, exists cl fl, c s = (Ret tt, Canvas (pixels s) cl fl)) -> run_paints c (fun _ _ => None) s.
Proof. intros Hc. destruct (Hc s) as (cl & fl & Hrun). exists (pixels s), cl, fl. split; [done|]. apply paints_nothing. Qed.

Lemma flush_rows_paints s start end_ : run_paints (gfx_flush_rows surface start end_) (fun _ _ => None) s.
Proof.
  apply flush_paints. clear s. intros s. unfold gfx_flush_rows.
  assert (Hcore : forall a b, exists cl fl, (if height surface <=? a then ret tt
     else
      arch_clean_cache_range (u32 (a * u32 (stride surface * pixelsize surface)))
        (u32 (u32 ((if height surface <=? b then u32 (height surface - 1) else b) - a + 1) * u32 (stride surface * pixelsize surface))) ;;
      call_flush surface a (if height surface <=? b then u32 (height surface - 1) else b)) s = (Ret tt, Canvas (pixels s) cl fl)).
  { intros a b. destruct (height surface <=? a); [exists (cleaned s), (flushed s); by destruct s|].
    unfold arch_clean_cache_range, call_flush, bind, modify. destruct (flush surface); cbn; eauto. }
  destruct (end_ <? start); apply Hcore.
Qed.
End paints.

(** ** Characters *)

(** The pixel [a], [b] of the glyph of [c]. *)
Definition glyph (c a b : Z) : bool := match FONT !! Z.to_nat (c * FONT_Y + b) with Some l => Z.testbit l a | None => false end.

Section char.
Context (surface : gfx_surface) (color : Z).
Notation v := (stored_value surface true color).

Lemma glyph_row_paints n line x y s :
  wf_surface surface (pixels s) -> 0 <= x -> x + Z.of_nat n < 2 ^ 32 -> 0 <= y -> 0 <= line ->
  run_paints surface (draw_glyph_row n surface line x y color)
    (fun a b => if bool_decide (b = y /\ x <= a < x + Z.of_nat n) && Z.testbit line (a - x) then Some v else None) s.
Proof.
  revert line x s. induction n as [|n IH]; intros line x s Hwf Hx Hn Hy Hline; cbn [draw_glyph_row].
  - eapply run_paints_ext; [|apply run_paints_ret]. intros a b _. cbn. rewrite bool_decide_false by lia. done.
  - eapply run_paints_ext; [|apply (run_paints_seq _ _ _ (fun a b => if bool_decide (a = x /\ b = y) && Z.testbit line 0 then Some v else None)
      (fun a b => if bool_decide (b = y /\ x + 1 <= a < x + 1 + Z.of_nat n) && Z.testbit (Z.shiftr line 1) (a - (x + 1)) then Some v else None))].
    + intros a b _. unfold over. destruct (decide (b = y /\ x + 1 <= a < x + 1 + Z.of_nat n)) as [Hab|Hab].
      * rewrite (bool_decide_true _ Hab), Z.shiftr_spec by lia. rewrite (bool_decide_false (a = x /\ b = y)) by lia.
        rewrite bool_decide_true by lia. replace (a - (x + 1) + 1) with (a - x) by lia. by destruct (Z.testbit line (a - x)).
      * rewrite (bool_decide_false _ Hab). cbn [andb]. destruct (decide (a = x /\ b = y)) as [[-> ->]|Hne].
        -- rewrite !bool_decide_true by lia. by rewrite Z.sub_diag.
        -- rewrite !bool_decide_false by lia. done.
    + assert (Hbit : Z.land line 1 =? 0 = negb (Z.testbit line 0)).
      { change 1 with (Z.ones 1). rewrite Z.land_ones, Z.bit0_odd by lia. change (2 ^ 1) with 2. rewrite Zmod_odd. by destruct (Z.odd line). }
      rewrite Hbit, negb_involutive. destruct (Z.testbit line 0); cbn [andb].
      * eapply run_paints_ext; [|by apply putpixel_paints]. intros a b _. by rewrite andb_true_r.
      * eapply run_paints_ext; [|apply run_paints_ret]. intros a b _. by rewrite andb_false_r.
    + intros s' Hp. rewrite u32_small by lia. apply IH; [by eapply paints_wf|lia|lia|lia|]. apply Z.shiftr_nonneg. lia.
Qed.

Lemma FONT_line c b : 0 <= c < 128 -> 0 <= b < 12 -> exists l, FONT !! Z.to_nat (c * FONT_Y + b) = Some l /\ 0 <= l.
Proof.
  intros Hc Hb. destruct (lookup_lt_is_Some_2 FONT (Z.to_nat (c * FONT_Y + b))) as [l Hl].
  { change (length FONT) with 1536%nat. unfold FONT_Y. lia. }
  exists l. split; [done|]. assert (Hall : Forall (fun l => 0 <= l) FONT) by (apply (bool_decide_unpack _); vm_compute; exact I).
  by eapply Forall_lookup_1 in Hall.
Qed.

Lemma glyph_rows_paints n c i x y s :
  wf_surface surface (pixels s) -> 0 <= c < 128 -> 0 <= i -> i + Z.of_nat n <= 12 -> 0 <= x < 2 ^ 31 -> 0 <= y < 2 ^ 31 ->
  run_paints surface (draw_glyph_rows n surface c i x y color)
    (fun a b => if bool_decide (y + i <= b < y + i + Z.of_nat n /\ x <= a < x + 6) && glyph c (a - x) (b - y) then Some v else None) s.
Proof.
  revert i s. induction n as [|n IH]; intros i s Hwf Hc Hi Hn Hx Hy; cbn [draw_glyph_rows].
  - eapply run_paints_ext; [|apply run_paints_ret]. intros a b _. rewrite bool_decide_false by lia. done.
  - destruct (FONT_line c i Hc ltac:(lia)) as (l & Hl & Hl0). rewrite Hl. cbn [deref]. change (ret l) with (ret (S:=canvas) (E:=Empty_set) l).
    assert (Hbind : forall k, run_paints surface (k l) (fun a b => if bool_decide (y + i <= b < y + i + Z.of_nat (S n) /\ x <= a < x + 6) && glyph c (a - x) (b - y) then Some v else None) s ->
      run_paints surface (bind (ret l) k) (fun a b => if bool_decide (y + i <= b < y + i + Z.of_nat (S n) /\ x <= a < x + 6) && glyph c (a - x) (b - y) then Some v else None) s) by done.
    apply Hbind. clear Hbind. cbn beta.
    eapply run_paints_ext; [|eapply run_paints_seq;
      [apply glyph_row_paints; [done|rewrite u32_small; lia|rewrite u32_small by lia; change (Z.to_nat FONT_X) with 6%nat; lia|rewrite u32_small; lia|done]
      |intros s' Hp; apply (IH (i + 1)); [by eapply paints_wf|lia..]]].
    intros a b _. unfold over. rewrite !u32_small by lia. change (Z.of_nat (Z.to_nat FONT_X)) with 6.
    destruct (decide (b = y + i /\ x <= a < x + 6)) as [[-> Ha]|Hne].
    + rewrite (bool_decide_false (y + (i + 1) <= _ < _ /\ _)) by lia. cbn [andb]. rewrite !bool_decide_true by lia. cbn [andb].
      unfold glyph. replace (y + i - y) with i by lia. by rewrite Hl.
    + rewrite (bool_decide_false (b = y + i /\ _)) by done. cbn [andb].
      rewrite (bool_decide_ext (y + i <= b < y + i + Z.of_nat (S n) /\ x <= a < x + 6) (y + (i + 1) <= b < y + (i + 1) + Z.of_nat n /\ x <= a < x + 6)) by lia.
      by destruct (_ && _).
Qed.

(** What a character sets: the pixels of its glyph. *)
Definition char_picture (c x y : Z) : picture :=
  fun a b => if bool_decide (y <= b < y + 12 /\ x <= a < x + 6) && glyph c (a - x) (b - y) then Some v else None.

Lemma font_draw_char_paints c x y s :
  wf_surface surface (pixels s) -> 0 <= c < 128 -> 0 <= x < 2 ^ 31 -> 0 <= y < 2 ^ 31 ->
  run_paints surface (font_draw_char surface c x y color) (char_picture c x y) s.
Proof.
  intros Hwf Hc Hx Hy. unfold font_draw_char. eapply run_paints_ext;
    [|eapply run_paints_seq; [apply glyph_rows_paints; (done || lia)|intros s' _; apply flush_rows_paints]].
  intros a b _. unfold over, char_picture. change (Z.of_nat (Z.to_nat FONT_Y)) with 12. by rewrite Z.add_0_r.
Qed.
End char.

(** A character above 127 is looked up behind the font. *)
Lemma font_draw_char_high surface c x y color s : 128 <= c -> fst (font_draw_char surface c x y color s) = Fault.
Proof.
  intros Hc. unfold font_draw_char. change (Z.to_nat FONT_Y) with 12%nat. cbn [draw_glyph_rows].
  rewrite lookup_ge_None_2; [done|]. change (length FONT) with 1536%nat. unfold FONT_Y. lia.
Qed.

(** ** On a screen *)

(** A run on a screen that paints, moves the cursor and does nothing else. *)
Definition screen_run (c : SM unit) (f : picture) (x y : Z) (s : Screen) : Prop :=
  exists mem', c s = (Ret tt, Scr (surface s) (mutex s) (Cur x y) mem') /\ paints (surface s) f (pixels (memory s)) (pixels mem').

Lemma draw_run c f s :
  run_paints (surface s) (c (surface s)) f (memory s) -> screen_run (draw c) f (cursor_x (cursor s)) (cursor_y (cursor s)) s.
Proof.
  intros (m & cl & fl & Hc & Hp). exists (Canvas m cl fl). split; [|done]. unfold draw. rewrite Hc. by destruct s as [? ? []].
Qed.

Lemma screen_run_seq (c d : SM unit) f g x y x' y' s :
  screen_run c f x y s ->
  (forall mem', paints (surface s) f (pixels (memory s)) (pixels mem') -> screen_run d g x' y' (Scr (surface s) (mutex s) (Cur x y) mem')) ->
  screen_run (c ;; d) (over f g) x' y' s.
Proof.
  intros (m1 & Hc & Hp1) Hd. destruct (Hd m1 Hp1) as (m2 & Hrun & Hp2). exists m2. erewrite bind_run by exact Hc.
  split; [done|]. by eapply paints_over.
Qed.

Lemma screen_run_ext (c : SM unit) f g x y s :
  (forall a b, inside (surface s) a b -> f a b = g a b) -> screen_run c f x y s -> screen_run c g x y s.
Proof. intros Hfg (m & Hc & Hp). exists m. split; [done|]. by eapply paints_ext. Qed.

Lemma screen_run_ret s : screen_run (ret tt) (fun _ _ => None) (cursor_x (cursor s)) (cursor_y (cursor s)) s.
Proof. exists (memory s). split; [by destruct s as [? ? []]|]. apply paints_nothing. Qed.


Section clear.
Context (surface_ : gfx_surface) (mutex_ : Mutex.mutex_t) (colour cy : Z).
Notation v := (stored_value surface_ true colour).
Hypothesis (Hcy : 0 <= cy < 2 ^ 31).
Notation at_ mem := (Scr surface_ mutex_ (Cur 0 cy) mem).

Lemma clear_row_paints n x y mem :
  wf_surface surface_ (pixels mem) -> 0 <= x -> x + Z.of_nat n < 2 ^ 31 -> 0 <= y < 2 ^ 30 ->
  screen_run (clear_row n x y colour) (fun a b => if bool_decide (b = cy + y /\ x <= a < x + Z.of_nat n) then Some v else None) 0 cy (at_ mem).
Proof.
  revert x mem. induction n as [|n IH]; intros x mem Hwf Hx Hn Hy; cbn [clear_row].
  - eapply screen_run_ext; [|apply (screen_run_ret (at_ mem))]. intros a b _. by rewrite bool_decide_false by lia.
  - change (screen_run (screen_set_pixel (u32 (0 + x)) (u32 (cy + y)) colour ;; clear_row n (x + 1) y colour)
      (fun a b => if bool_decide (b = cy + y /\ x <= a < x + Z.of_nat (S n)) then Some v else None) 0 cy (at_ mem)).
    rewrite !u32_small, Z.add_0_l by lia. eapply screen_run_ext; [|eapply screen_run_seq;
      [apply (draw_run _ _ (at_ mem)); apply putpixel_paints; [done|lia|lia]|intros mem' Hp; apply IH; [by eapply paints_wf|lia..]]].
    intros a b _. unfold over. cbn [surface]. destruct (decide (a = x /\ b = cy + y)) as [[-> ->]|Hne].
    + rewrite (bool_decide_false (cy + y = cy + y /\ x + 1 <= _ < _)) by lia. by rewrite !bool_decide_true by lia.
    + rewrite (bool_decide_false (a = x /\ _)) by done.
      rewrite (bool_decide_ext (b = cy + y /\ x <= a < x + Z.of_nat (S n)) (b = cy + y /\ x + 1 <= a < x + 1 + Z.of_nat n)) by lia.
      by case_bool_decide.
Qed.

Lemma clear_rows_paints n y mem :
  wf_surface surface_ (pixels mem) -> 0 <= y -> y + Z.of_nat n < 2 ^ 30 ->
  screen_run (clear_rows n y colour) (fun _ b => if bool_decide (cy + y <= b < cy + y + Z.of_nat n) then Some v else None) 0 cy (at_ mem).
Proof.
  revert y mem. induction n as [|n IH]; intros y mem Hwf Hy Hn; cbn [clear_rows].
  - eapply screen_run_ext; [|apply (screen_run_ret (at_ mem))]. intros a b _. by rewrite bool_decide_false by lia.
  - change (screen_run (clear_row (Z.to_nat (width surface_)) 0 y colour ;; clear_rows n (y + 1) colour)
      (fun _ b => if bool_decide (cy + y <= b < cy + y + Z.of_nat (S n)) then Some v else None) 0 cy (at_ mem)).
    pose proof (wf_bounds _ _ Hwf) as Hb. pose proof (wf_width _ _ Hwf) as Hw. eapply screen_run_ext; [|eapply screen_run_seq;
      [apply clear_row_paints; [done|lia..]|intros mem' Hp; apply IH; [by eapply paints_wf|lia..]]].
    intros a b [Ha Hb']. unfold over. cbn [surface] in *. rewrite Z2Nat.id by lia. destruct (decide (b = cy + y)) as [->|Hne].
    + rewrite (bool_decide_false (cy + (y + 1) <= _ < _)) by lia. by rewrite !bool_decide_true by lia.
    + rewrite (bool_decide_false (b = cy + y /\ _)) by lia.
      rewrite (bool_decide_ext (cy + y <= b < cy + y + Z.of_nat (S n)) (cy + (y + 1) <= b < cy + (y + 1) + Z.of_nat n)) by lia.
      by case_bool_decide.
Qed.

(** clear_line fills the twelve rows from the cursor. *)
Lemma clear_line_paints mem :
  wf_surface surface_ (pixels mem) ->
  screen_run (clear_line colour) (fun _ b => if bool_decide (cy <= b < cy + 12) then Some v else None) 0 cy (at_ mem).
Proof.
  intros Hwf. eapply screen_run_ext; [|apply clear_rows_paints; [done|lia|reflexivity]]. intros a b _.
  change (Z.of_nat (Z.to_nat FONT_PIXEL_HEIGHT)) with 12. by rewrite Z.add_0_r.
Qed.
End clear.

(** ** The terminal *)

(** A line: what it was cleared with and its characters with their colour, as
    values of pixels. *)
Record line := Line { background : Z -> Z -> Z; text : list (Z * Z) }.
Record term := Term { lines : list line; row : nat }.

Section term.
Context (surface_ : gfx_surface).

Definition columns : nat := Z.to_nat (width surface_ / 6).
Definition rows : nat := Z.to_nat (height surface_ / 12).

Definition current (t : term) : list (Z * Z) := match lines t !! row t with Some l => text l | None => [] end.

(** The next line, or the first behind the last, cleared. *)
Definition newline (bg : Z) (t : term) : term :=
  let r := if bool_decide (S (row t) = rows) then 0%nat else S (row t) in
  Term (<[r := Line (fun _ _ => bg) []]> (lines t)) r.

Definition put_char (c fg : Z) (t : term) : term :=
  Term (alter (fun l => Line (background l) (text l ++ [(c, fg)])) (row t) (lines t)) (row t).

(** One character. *)
Definition term_char (fg bg c : Z) (t : term) : term :=
  let t := if bool_decide (length (current t) = columns \/ c = 10) then newline bg t else t in
  if bool_decide (c = 10) then t else put_char c fg t.

Definition term_string (fg bg : Z) (str : list Z) (t : term) : term := fold_left (fun t c => term_char fg bg c t) str t.

(** What a pixel of the terminal shows. *)
Definition render_line (l : line) (x y : Z) : Z :=
  match text l !! Z.to_nat (x / 6) with
  | Some (c, fg) => if glyph c (x mod 6) (y mod 12) then fg else background l x y
  | None => background l x y
  end.
Definition render (t : term) (x y : Z) : option Z := l ← lines t !! Z.to_nat (y / 12); Some (render_line l x y).

Record term_ok (t : term) : Prop := {
  term_lines : length (lines t) = rows;
  term_row : (row t < rows)%nat;
  term_columns : Forall (fun l => (length (text l) <= columns)%nat) (lines t)
}.

(** The screen shows the terminal. *)
Record shows (t : term) (s : Screen) : Prop := {
  shows_ok : term_ok t;
  shows_surface : surface s = surface_;
  shows_wf : wf_surface surface_ (pixels (memory s));
  shows_cursor : cursor s = Cur (6 * Z.of_nat (length (current t))) (12 * Z.of_nat (row t));
  shows_pixels : forall x y, 0 <= x < width surface_ -> 0 <= y < 12 * Z.of_nat rows ->
    px (pixels (memory s)) (pos surface_ x y) = render t x y
}.

Hypothesis (Hw : 6 <= width surface_) (Hh : 12 <= height surface_).

(** Nothing outside the lines of text changed. *)
Definition frame (m m' : list Z) : Prop :=
  length m' = length m /\
  forall i, (forall x y, 0 <= x < width surface_ -> 0 <= y < 12 * Z.of_nat rows -> pos surface_ x y <> i) -> px m' i = px m i.

Lemma frame_trans m m1 m2 : frame m m1 -> frame m1 m2 -> frame m m2.
Proof. intros [H1 H2] [H3 H4]. split; [congruence|]. intros i Hi. by rewrite H4, H2. Qed.

Lemma rows_height : 12 * Z.of_nat rows <= height surface_ < 12 * Z.of_nat rows + 12 /\ (0 < rows)%nat.
Proof. unfold rows. pose proof (Z.div_mod (height surface_) 12). pose proof (Z.mod_pos_bound (height surface_) 12). lia. Qed.

Lemma columns_width : 6 * Z.of_nat columns <= width surface_ < 6 * Z.of_nat columns + 6 /\ (0 < columns)%nat.
Proof. unfold columns. pose proof (Z.div_mod (width surface_) 6). pose proof (Z.mod_pos_bound (width surface_) 6). lia. Qed.

Lemma paints_frame f m m' :
  wf_surface surface_ m -> paints surface_ f m m' -> (forall x y, 12 * Z.of_nat rows <= y -> f x y = None) -> frame m m'.
Proof.
  intros Hwf (Hl & Hp & Ho) Hf. split; [done|]. intros i Hi. pose proof (wf_width _ _ Hwf) as Hws.
  pose proof (Z.div_mod i (stride surface_) ltac:(lia)) as Hd. pose proof (Z.mod_pos_bound i (stride surface_) ltac:(lia)) as Hm.
  set (x := i mod stride surface_) in *. set (y := i / stride surface_) in *.
  assert (Hxy : pos surface_ x y = i) by (unfold pos; lia).
  destruct (decide (0 <= x < width surface_ /\ 0 <= y < height surface_)) as [Hin|Hout].
  - rewrite <- Hxy, Hp by done. rewrite Hf; [done|]. destruct (decide (12 * Z.of_nat rows <= y)); [done|]. exfalso. apply (Hi x y); lia.
  - apply Ho. intros x' y' [Hx' Hy'] He. apply Hout.
    clearbody x y. unfold pos in He. assert (y' = y) as -> by (assert (y' = y \/ y' < y \/ y < y') as [|[|]] by lia; nia). lia.
Qed.

Lemma current_lookup t : term_ok t -> exists l, lines t !! row t = Some l /\ current t = text l /\ (length (current t) <= columns)%nat.
Proof.
  intros [Hl Hr Hc]. destruct (lookup_lt_is_Some_2 (lines t) (row t) ltac:(lia)) as [l Hlk]. exists l. unfold current. rewrite Hlk.
  split_and!; [done|done|]. by eapply Forall_lookup_1 in Hc.
Qed.

Lemma newline_ok bg t : term_ok t -> term_ok (newline bg t) /\ current (newline bg t) = [].
Proof.
  intros [Hl Hr Hc]. unfold newline. set (r := if bool_decide _ then _ else _).
  assert (Hlt : (r < rows)%nat) by (unfold r; case_bool_decide; lia). split.
  - constructor; cbn; [by rewrite length_insert|done|]. apply Forall_insert; [done|cbn; lia].
  - unfold current. cbn. by rewrite list_lookup_insert_eq by lia.
Qed.

Lemma put_char_ok c fg t : term_ok t -> (length (current t) < columns)%nat ->
  term_ok (put_char c fg t) /\ current (put_char c fg t) = current t ++ [(c, fg)].
Proof.
  intros Hok Hlen. destruct (current_lookup t Hok) as (l & Hl & Hcur & _). destruct Hok as [Hln Hr Hc]. unfold put_char. split.
  - constructor; cbn; [by rewrite length_alter|done|]. apply Forall_alter; [done|]. intros l' Hl' Hlen'. cbn.
    rewrite Hl in Hl'. simplify_eq. rewrite length_app. cbn. rewrite Hcur in Hlen. lia.
  - unfold current. cbn. rewrite list_lookup_alter_eq, Hl. cbn. unfold current in Hcur. by rewrite Hl in Hcur.
Qed.

(** The pixels of the terminal behind one step are those in front painted over. *)
Lemma render_newline bg t x y :
  term_ok t -> 0 <= y < 12 * Z.of_nat rows ->
  render (newline bg t) x y =
  if bool_decide (12 * Z.of_nat (row (newline bg t)) <= y < 12 * Z.of_nat (row (newline bg t)) + 12) then Some bg else render t x y.
Proof.
  intros Hok Hy. destruct (newline_ok bg t Hok) as [Hok' _]. destruct Hok as [Hl _ _], Hok' as [_ Hr _].
  unfold render. pose proof (Z.div_mod y 12 ltac:(lia)). pose proof (Z.mod_pos_bound y 12 ltac:(lia)). unfold newline in *. cbn [lines row] in *.
  set (r := if bool_decide _ then _ else _) in *. case_bool_decide as Hin.
  - replace (Z.to_nat (y / 12)) with r by lia. rewrite list_lookup_insert_eq by lia. done.
  - rewrite list_lookup_insert_ne by lia. done.
Qed.

Lemma render_put c fg t x y :
  term_ok t -> 0 <= x -> 0 <= y < 12 * Z.of_nat rows ->
  render (put_char c fg t) x y =
  match (if bool_decide (12 * Z.of_nat (row t) <= y < 12 * Z.of_nat (row t) + 12 /\
            6 * Z.of_nat (length (current t)) <= x < 6 * Z.of_nat (length (current t)) + 6) &&
            glyph c (x - 6 * Z.of_nat (length (current t))) (y - 12 * Z.of_nat (row t)) then Some fg else None) with
  | Some v => Some v
  | None => render t x y
  end.
Proof.
  intros Hok Hx Hy. destruct (current_lookup t Hok) as (l & Hl & Hcur & _). unfold render, put_char. cbn [lines row].
  pose proof (Z.div_mod y 12 ltac:(lia)). pose proof (Z.mod_pos_bound y 12 ltac:(lia)).
  pose proof (Z.div_mod x 6 ltac:(lia)). pose proof (Z.mod_pos_bound x 6 ltac:(lia)).
  destruct (decide (Z.to_nat (y / 12) = row t)) as [Heq|Hne].
  - rewrite Heq, list_lookup_alter_eq, Hl. cbn [fmap option_fmap option_map mbind option_bind]. unfold render_line. cbn [text background]. rewrite Hcur.
    destruct (decide (6 * Z.of_nat (length (text l)) <= x < 6 * Z.of_nat (length (text l)) + 6)) as [Hin|Hout].
    + replace (Z.to_nat (x / 6)) with (length (text l)) by lia. rewrite list_lookup_middle by done.
      rewrite bool_decide_true by lia. replace (x - 6 * Z.of_nat (length (text l))) with (x mod 6) by lia.
      replace (y - 12 * Z.of_nat (row t)) with (y mod 12) by lia. rewrite (lookup_ge_None_2 (text l)) by lia.
      cbn [andb]. by destruct (glyph c (x mod 6) (y mod 12)).
    + rewrite bool_decide_false by lia. cbn [andb]. destruct (decide (Z.to_nat (x / 6) < length (text l))%nat).
      * by rewrite lookup_app_l by done.
      * rewrite !lookup_ge_None_2; [done| |]; rewrite ?length_app; cbn; lia.
  - rewrite list_lookup_alter_ne by done. rewrite bool_decide_false by lia. done.
Qed.

Notation px_of c := (stored_value surface_ true c).

(** What a step of the loop does to the screen and to the terminal. *)
Definition step_shows (c : SM unit) (s : Screen) (t' : term) : Prop :=
  exists s', c s = (Ret tt, s') /\ shows t' s' /\ mutex s' = mutex s /\ frame (pixels (memory s)) (pixels (memory s')).

(** The coordinates of a terminal fit the integers of the code. *)
Lemma row_fits t s : shows t s -> 12 * Z.of_nat (row t) + 12 <= height surface_ < 2 ^ 31 /\ width surface_ < 2 ^ 31.
Proof. intros [[_ Hr _] _ Hwf _ _]. pose proof rows_height. pose proof (wf_bounds _ _ Hwf). lia. Qed.

Definition newline_code (bg_colour : Z) : SM unit :=
  let* c := get_cursor in
  set_cursor 0 (u32 (cursor_y c + FONT_PIXEL_HEIGHT)) ;;
  let* c := get_cursor in
  let* ywrap := needs_y_wrap (cursor_y c) in
  (if ywrap then set_cursor (cursor_x c) 0 else ret tt) ;;
  clear_line bg_colour.

Lemma newline_shows bg t s : shows t s -> step_shows (newline_code bg) s (newline (px_of bg) t).
Proof.
  intros Hs. destruct (row_fits t s Hs) as [Hrow Hwidth]. pose proof rows_height as [Hrows _]. destruct Hs as [Hok Hsf Hwf Hcur Hpx].
  destruct (newline_ok (px_of bg) t Hok) as [Hok' Hcur']. destruct s as [sf mu cu mem]. cbn [surface cursor memory mutex] in *. subst sf cu.
  set (cy := 12 * Z.of_nat (row (newline (px_of bg) t))).
  assert (Hcy : 0 <= cy < 2 ^ 31).
  { unfold cy. destruct Hok' as [_ Hr _]. pose proof (wf_bounds _ _ Hwf). lia. }
  destruct (clear_line_paints surface_ mu bg cy Hcy mem Hwf) as (mem' & Hrun & Hp).
  assert (Hcode : newline_code bg (Scr surface_ mu (Cur (6 * Z.of_nat (length (current t))) (12 * Z.of_nat (row t))) mem) =
    clear_line bg (Scr surface_ mu (Cur 0 cy) mem)).
  { unfold newline_code, get_cursor, set_cursor, needs_y_wrap, screen_height, gets, modify, bind, ret. cbn [cursor surface mutex memory cursor_x cursor_y].
    unfold FONT_PIXEL_HEIGHT, FONT_Y. rewrite (u32_small (12 * Z.of_nat (row t) + 12)), u32_small by lia.
    unfold cy, newline. cbn [row]. destruct Hok as [_ Hr _]. destruct (Z.ltb_spec (height surface_) (12 * Z.of_nat (row t) + 12 + 12)).
    - rewrite bool_decide_true by lia. done.
    - rewrite bool_decide_false by lia. replace (12 * Z.of_nat (S (row t))) with (12 * Z.of_nat (row t) + 12) by lia. done. }
  eexists. split; [by rewrite Hcode|]. split_and!; [|done|].
  - constructor; cbn [surface cursor memory]; [done|done|by eapply paints_wf|by rewrite Hcur'|].
    intros x y Hx Hy. rewrite render_newline by done. destruct Hp as (_ & Hp & _). rewrite Hp by (unfold inside; cbn [surface]; lia). fold cy.
    rewrite <- Hpx by done. case_bool_decide; done.
  - eapply paints_frame; [exact Hwf|exact Hp|]. intros x y Hy. cbn beta. rewrite bool_decide_false; [done|]. unfold cy.
    destruct Hok' as [_ Hr _]. lia.
Qed.

Definition put_code (fg_colour ch : Z) : SM unit :=
  let* c := get_cursor in
  blit_character ch (cursor_x c) (cursor_y c) fg_colour ;;
  set_cursor (u32 (cursor_x c + FONT_PIXEL_WIDTH)) (cursor_y c).

Lemma put_shows fg c t s :
  shows t s -> (length (current t) < columns)%nat -> 0 <= c < 128 -> step_shows (put_code fg c) s (put_char c (px_of fg) t).
Proof.
  intros Hs Hlen Hc. destruct (row_fits t s Hs) as [Hrow Hwidth]. pose proof columns_width as [Hcols _]. pose proof rows_height as [Hrows _].
  destruct Hs as [Hok Hsf Hwf Hcur Hpx]. destruct (put_char_ok c (px_of fg) t Hok Hlen) as [Hok' Hcur'].
  destruct s as [sf mu cu mem]. cbn [surface cursor memory mutex] in *. subst sf cu.
  set (x := 6 * Z.of_nat (length (current t))) in *. set (y := 12 * Z.of_nat (row t)) in *.
  destruct (font_draw_char_paints surface_ fg c x y mem Hwf Hc) as (m' & cl & fl & Hrun & Hp); [lia..|].
  eexists. split.
  { unfold put_code, get_cursor, gets, blit_character, draw, set_cursor, modify, bind. cbn [cursor surface memory cursor_x cursor_y].
    unfold u8. rewrite Z.mod_small, !s32_small by lia. rewrite Hrun. cbn. rewrite u32_small by (unfold FONT_PIXEL_WIDTH, FONT_X; lia). reflexivity. }
  split_and!; [|done|].
  - constructor; cbn [surface cursor memory pixels]; [done|done|by eapply paints_wf| |].
    + rewrite Hcur', length_app. cbn [length put_char row]. unfold FONT_PIXEL_WIDTH, FONT_X. f_equal. lia.
    + intros a b Ha Hb. rewrite render_put by (done || lia). destruct Hp as (_ & Hp & _). rewrite Hp by (unfold inside; lia).
      unfold char_picture. fold x y. by rewrite Hpx.
  - eapply paints_frame; [exact Hwf|exact Hp|]. intros a b Hb. unfold char_picture. rewrite bool_decide_false; [done|].
    destruct Hok as [_ Hr _]. lia.
Qed.

Lemma char_shows fg bg c t s :
  shows t s -> 0 <= c < 128 -> step_shows (rasterise_char fg bg c) s (term_char (px_of fg) (px_of bg) c t).
Proof.
  intros Hs Hc. pose proof columns_width as [Hcols Hpos].
  assert (Hcode : rasterise_char fg bg c s =
    (if bool_decide (length (current t) = columns \/ c = 10) then newline_code bg ;; (if c =? 10 then ret tt else put_code fg c)
     else if c =? 10 then ret tt else put_code fg c) s).
  { destruct (current_lookup t (shows_ok _ _ Hs)) as (_ & _ & _ & Hle). destruct (row_fits t s Hs) as [_ Hwd].
    pose proof (shows_surface _ _ Hs) as Hsf. pose proof (shows_cursor _ _ Hs) as Hcur. clear Hs.
    destruct s as [sf mu cu mem]. cbn [surface cursor] in *. subst sf cu.
    unfold rasterise_char. change (asc "010"%char) with 10.
    unfold get_cursor at 1, needs_x_wrap, screen_width, gets, ret. unfold bind at 1. unfold bind at 1. unfold bind at 1.
    cbn [surface cursor cursor_x]. unfold FONT_PIXEL_WIDTH, FONT_X. rewrite u32_small by lia.
    destruct (Z.ltb_spec (width surface_) (6 * Z.of_nat (length (current t)) + 6)); cbn [orb].
    - rewrite bool_decide_true by lia. done.
    - destruct (Z.eqb_spec c 10) as [->|Hne]; [by rewrite bool_decide_true by lia|by rewrite bool_decide_false by lia]. }
  unfold step_shows. rewrite Hcode. unfold term_char. case_bool_decide as Hwrap.
  - destruct (newline_shows bg t s Hs) as (s1 & Hrun & Hs1 & Hm1 & Hf1). erewrite bind_run by exact Hrun.
    destruct (newline_ok (px_of bg) t (shows_ok _ _ Hs)) as [_ Hcur]. case_bool_decide as Hnl.
    + rewrite (proj2 (Z.eqb_eq c 10)) by done. by exists s1.
    + rewrite (proj2 (Z.eqb_neq c 10)) by done. destruct (put_shows fg c _ s1 Hs1) as (s2 & Hrun2 & Hs2 & Hm2 & Hf2); [rewrite Hcur; cbn; lia|done|].
      exists s2. split_and!; [done|done|congruence|by eapply frame_trans].
  - rewrite (proj2 (Z.eqb_neq c 10)) by lia. rewrite bool_decide_false by lia. apply put_shows; [done| |done].
    destruct (current_lookup t (shows_ok _ _ Hs)) as (_ & _ & _ & Hle). lia.
Qed.

(** The loop ends at a terminator, or behind [n] characters, having looked at one
    more. *)
Lemma string_shows fg bg str e rest n t s :
  shows t s -> Forall (fun c => 0 < c < 128) str -> (e = 0 /\ (length str <= n)%nat) \/ n = length str ->
  step_shows (rasterise_loop fg bg (str ++ e :: rest) n) s (term_string (px_of fg) (px_of bg) str t).
Proof.
  intros Hs Hstr. revert n t s Hs. induction Hstr as [|c str Hc Hstr IH]; intros n t s Hs Hn; cbn [app rasterise_loop].
  - exists s. split_and!; [|done..]. destruct Hn as [[-> _]| ->]; [done|]. by destruct (e =? 0).
  - rewrite (proj2 (Z.eqb_neq c 0)) by lia. destruct n as [|n]; [cbn in Hn; lia|].
    destruct (char_shows fg bg c t s Hs ltac:(lia)) as (s1 & Hrun & Hs1 & Hm1 & Hf1). unfold step_shows. erewrite bind_run by exact Hrun.
    destruct (IH n _ s1 Hs1) as (s2 & Hrun2 & Hs2 & Hm2 & Hf2); [cbn in Hn; lia|].
    exists s2. split_and!; [done|done|congruence|by eapply frame_trans].
Qed.
End term.

(** ** text_rasterise_string and text_rasterise_stringf *)

(** The call of a thread: it draws its string, or waits for the mutex and has drawn
    nothing. *)
Definition drawn_or_waits (surface_ : gfx_surface) (cur : tid) (r : call_result) (t t' : term) (s s' : Screen) : Prop :=
  mutex_inv (mutex s') /\
  match r with
  | Returned _ => shows surface_ t' s' /\ frame surface_ (pixels (memory s)) (pixels (memory s'))
  | Blocked => shows surface_ t s' /\ memory s' = memory s /\ waiting (mutex_wait (mutex s')) = waiting (mutex_wait (mutex s)) ++ [cur]
  end.

Lemma shows_mutex surface_ t s m : shows surface_ t s -> shows surface_ t (Scr (surface s) m (cursor s) (memory s)).
Proof. intros []. by constructor. Qed.

Section calls.
Context (surface_ : gfx_surface) (cur : tid) (fg bg : Z).
Hypothesis (Hw : 6 <= width surface_) (Hh : 12 <= height surface_).
Notation px_of c := (stored_value surface_ true c).
Notation after str t := (term_string surface_ (px_of fg) (px_of bg) str t).

Lemma locked_draws str rest n t s :
  shows surface_ t s -> mutex_inv (mutex s) -> holder (mutex s) = Some cur ->
  Forall (fun c => 0 < c < 128) str -> (length str <= n)%nat ->
  exists s', rasterise_locked cur fg bg (str ++ 0 :: rest) n s = (Ret (Returned 0), s') /\
    drawn_or_waits surface_ cur (Returned 0) t (after str t) s s'.
Proof.
  intros Hs Hinv Hho Hstr Hn. destruct (string_shows surface_ Hw Hh fg bg str 0 rest n t s Hs Hstr (or_introl (conj eq_refl Hn))) as (s1 & Hrun & Hs1 & Hm1 & Hf1).
  rewrite <- Hm1 in Hinv, Hho. destruct (mutex_release_run (mutex s1) cur Hinv Hho) as (m2 & Hrel & Hinv2 & _ & _).
  exists (Scr (surface s1) m2 (cursor s1) (memory s1)). split.
  - unfold rasterise_locked. erewrite bind_run by exact Hrun. unfold bind, on_mutex. by rewrite Hrel.
  - split; [done|]. split; [by apply shows_mutex|done].
Qed.

Lemma string_draws str rest n t s :
  shows surface_ t s -> mutex_inv (mutex s) -> outside cur (mutex s) -> Forall (fun c => 0 < c < 128) str -> (length str <= n)%nat ->
  exists r s', text_rasterise_string cur fg bg (str ++ 0 :: rest) n s = (Ret r, s') /\ drawn_or_waits surface_ cur r t (after str t) s s'.
Proof.
  intros Hs Hinv Hout Hstr Hn.
  destruct (mutex_acquire_run (mutex s) cur INFINITE_TIME Hinv Hout) as (r & m1 & Hacq & Hinv1 & Hr).
  unfold text_rasterise_string. unfold bind, on_mutex. unfold mutex_acquire. rewrite Hacq. cbn [fst snd].
  destruct r as [[|p|p]|].
  - destruct Hr as [Hho _]. destruct (locked_draws str rest n t (Scr (surface s) m1 (cursor s) (memory s))) as (s' & Hrun & Hd); try done.
    { by apply shows_mutex. }
    exists (Returned 0), s'. done.
  - by destruct Hr as (_ & Hr & _).
  - by destruct Hr as (_ & Hr & _).
  - destruct Hr as (_ & _ & _ & Hq). eexists Blocked, _. split; [done|]. split; [done|]. cbn [memory mutex]. rewrite Hq.
    split_and!; [by apply shows_mutex|done|done].
Qed.

(** On a mutex that nobody holds or waits for. *)
Lemma string_draws_free str e rest n t s q :
  shows surface_ t s -> mutex s = Mutex MUTEX_MAGIC None 0 q -> Forall (fun c => 0 < c < 128) str ->
  (e = 0 /\ (length str <= n)%nat) \/ n = length str ->
  exists s', text_rasterise_string cur fg bg (str ++ e :: rest) n s = (Ret (Returned 0), s') /\
    shows surface_ (after str t) s' /\ mutex s' = mutex s /\ frame surface_ (pixels (memory s)) (pixels (memory s')).
Proof.
  intros Hs Hm Hstr Hn.
  assert (Hacq : mutex_acquire cur (mutex s) = (Ret (Returned 0), Mutex MUTEX_MAGIC (Some cur) 1 q)) by by rewrite Hm.
  destruct (string_shows surface_ Hw Hh fg bg str e rest n t (Scr (surface s) (Mutex MUTEX_MAGIC (Some cur) 1 q) (cursor s) (memory s)))
    as (s1 & Hrun & Hs1 & Hm1 & Hf1); [by apply shows_mutex|done|done|].
  assert (Hrel : mutex_release cur (mutex s1) = (Ret NO_ERROR, mutex s)).
  { rewrite Hm1, Hm. cbn [mutex]. unfold mutex_release, bind, get, assert_, modify. cbn.
    by rewrite bool_decide_false by naive_solver. }
  exists (Scr (surface s1) (mutex s) (cursor s1) (memory s1)). split_and!; [|by apply shows_mutex|done|done].
  unfold text_rasterise_string, bind at 1, on_mutex at 1. rewrite Hacq. cbn [fst snd]. unfold rasterise_locked.
  erewrite bind_run by exact Hrun. unfold bind, on_mutex. by rewrite Hrel.
Qed.

(** C15: the screen is a terminal: text_rasterise_string, by any thread, writes its
    characters, each from 1 to 127, into the lines of a terminal that wraps at the last column, starts a
    new line at a newline, goes from the last line to the first and clears the line
    it comes to; every pixel of the lines shows the terminal and no other changes.
    Or it waits for the mutex with nothing drawn, and draws when it is handed over. *)
Theorem text_refines_terminal str rest n t s :
  shows surface_ t s -> mutex_inv (mutex s) -> Forall (fun c => 0 < c < 128) str -> (length str <= n)%nat ->
  (outside cur (mutex s) ->
     exists r s', text_rasterise_string cur fg bg (str ++ 0 :: rest) n s = (Ret r, s') /\ drawn_or_waits surface_ cur r t (after str t) s s') /\
  (results (mutex_wait (mutex s)) !! cur = Some NO_ERROR ->
     exists s', text_rasterise_resume cur fg bg (str ++ 0 :: rest) n s = (Ret (Returned 0), s') /\
       drawn_or_waits surface_ cur (Returned 0) t (after str t) s s').
Proof.
  intros Hs Hinv Hstr Hn. split; [intros Hout; by apply string_draws|]. intros Hres.
  destruct (mutex_resume_run (mutex s) cur NO_ERROR Hinv Hres) as (m1 & Hrun & Hinv1 & Hho & _ & _).
  unfold text_rasterise_resume, bind at 1, on_mutex. rewrite Hrun. cbn [fst snd].
  destruct (locked_draws str rest n t (Scr (surface s) m1 (cursor s) (memory s))) as (s' & Hl & Hd); try done; [by apply shows_mutex|by apply Hho|].
  by exists s'.
Qed.

(** text_rasterise_stringf writes what the format means to the terminal, cut
    after the 255 characters its buffer holds. *)
Theorem stringf_refines_terminal fullstr ps t s :
  length fullstr = 256%nat -> shows surface_ t s -> mutex_inv (mutex s) -> outside cur (mutex s) ->
  Forall piece_ok ps -> Forall (fun c => 0 < c < 128) (concat (text_of <$> ps)) -> len_Z (concat (text_of <$> ps)) < 2 ^ 31 ->
  exists r s', text_rasterise_stringf cur fg bg fullstr (concat (fmt_of <$> ps) ++ [0]) (concat (args_of <$> ps)) s = (Ret r, s') /\
    drawn_or_waits surface_ cur r t (after (take 255 (concat (text_of <$> ps))) t) s s'.
Proof.
  intros Hfull Hs Hinv Hout Hps Hchars Hlen. set (txt := concat (text_of <$> ps)) in *.
  unfold text_rasterise_stringf. rewrite Hfull.
  rewrite (vsnprintf_run 256 _ _ fullstr [] (s32 (len_Z txt)) txt []) by (lia || by apply collect_pieces).
  change (256 - 1)%nat with 255%nat. set (str := take 255 txt).
  assert (Hstr : Forall (fun c => 0 < c < 128) str) by by apply Forall_take.
  assert (Hsp : exists rest, splice 0 (str ++ [0]) fullstr = str ++ 0 :: rest).
  { unfold splice. rewrite take_0. cbn [app]. rewrite <- app_assoc. cbn [app]. by eexists. }
  destruct Hsp as [rest ->]. rewrite (strlen_cstr str) by (apply cstr_intro; eapply Forall_impl; [exact Hstr|]; cbn; lia). cbn [deref].
  by apply string_draws.
Qed.
End calls.

(** ** Starting, clearing, and what is read behind the string and the font *)

Section start.
Context (surface_ : gfx_surface).
Hypothesis (Hw : 6 <= width surface_) (Hh : 12 <= height surface_).

Definition empty_term (background : Z -> Z -> Z) : term := Term (replicate (rows surface_) (Line background [])) 0.

Lemma empty_ok b : term_ok surface_ (empty_term b) /\ current (empty_term b) = [].
Proof.
  pose proof (rows_height surface_ Hh) as [_ Hr]. split.
  - constructor; cbn; [by rewrite length_replicate|done|]. apply Forall_replicate. cbn. lia.
  - unfold current, empty_term. cbn. by rewrite lookup_replicate_2.
Qed.

Lemma render_empty b x y : 0 <= y < 12 * Z.of_nat (rows surface_) -> render (empty_term b) x y = Some (b x y).
Proof.
  intros Hy. unfold render, empty_term. cbn [lines]. rewrite lookup_replicate_2; [done|].
  pose proof (Z.div_mod y 12). pose proof (Z.mod_pos_bound y 12). lia.
Qed.

(** A new screen shows what its memory holds. *)
Lemma screen_init_shows mem :
  wf_surface surface_ (pixels mem) ->
  shows surface_ (empty_term (fun x y => default 0 (px (pixels mem) (pos surface_ x y)))) (screen_init surface_ mem).
Proof.
  intros Hwf. pose proof (rows_height surface_ Hh) as [Hr _]. destruct (empty_ok (fun x y => default 0 (px (pixels mem) (pos surface_ x y)))) as [Hok Hcur].
  constructor; [done|done|done|by rewrite Hcur|]. intros x y Hx Hy. rewrite render_empty by done. cbn [memory screen_init].
  destruct (px_in (pixels mem) (pos surface_ x y)) as [v Hv]; [apply (pos_in_mem _ _ Hwf); unfold inside; lia|]. by rewrite Hv.
Qed.

(** screen_fill leaves an empty terminal in the colour - as the fill routine
    stores it, which for 32 bits is not translated to the format of the surface. *)
Theorem screen_fill_shows t colour s :
  shows surface_ t s ->
  exists s', screen_fill colour s = (Ret tt, s') /\ shows surface_ (empty_term (fun _ _ => stored_value surface_ false colour)) s'.
Proof.
  intros Hs. pose proof (rows_height surface_ Hh) as [Hr _]. destruct (empty_ok (fun _ _ => stored_value surface_ false colour)) as [Hok Hcur].
  destruct Hs as [_ Hsf Hwf _ _]. destruct s as [sf mu cu mem]. cbn in Hsf, Hwf. subst sf.
  destruct (gfx_clear_run surface_ mem Hwf colour) as (m' & Hrun & Hlen & Hin & _).
  eexists. split; [unfold screen_fill, draw, bind, set_cursor, modify; cbn; rewrite Hrun; reflexivity|].
  constructor; cbn [surface memory cursor pixels snd fst]; [done|done|destruct Hwf; constructor; rewrite ?Hlen; done|by rewrite Hcur|].
  intros x y Hx Hy. rewrite render_empty by done. rewrite <- (Z.add_0_l (pos surface_ x y)). apply Hin; lia.
Qed.

(** a character above 127 is looked up behind the font, and the character
    behind the string is looked at before its length: both are reads out of bounds. *)
Theorem text_reads_behind fg bg str c rest n t s :
  shows surface_ t s -> Forall (fun c => 0 < c < 128) str ->
  fst (rasterise_loop fg bg str (length str) s) = Fault /\
  (128 <= c < 256 -> (length str < n)%nat -> fst (rasterise_loop fg bg (str ++ c :: rest) n s) = Fault).
Proof.
  intros Hs Hstr.
  assert (Hpre : forall tail n, (length str <= n)%nat -> exists s', shows surface_ (term_string surface_ (stored_value surface_ true fg) (stored_value surface_ true bg) str t) s' /\
    rasterise_loop fg bg (str ++ tail) n s = rasterise_loop fg bg tail (n - length str) s').
  { intros tail. revert t s Hs. induction Hstr as [|x str Hx Hstr IH]; intros t s Hs k Hk; cbn [app length rasterise_loop].
    - exists s. split; [done|]. by rewrite Nat.sub_0_r.
    - rewrite (proj2 (Z.eqb_neq x 0)) by lia. destruct k as [|k]; [cbn in Hk; lia|].
      destruct (char_shows surface_ Hw Hh fg bg x t s Hs ltac:(lia)) as (s1 & Hrun & Hs1 & _ & _).
      destruct (IH _ s1 Hs1 k ltac:(cbn in Hk; lia)) as (s2 & Hs2 & Hrun2). exists s2. split; [done|].
      erewrite bind_run by exact Hrun. exact Hrun2. }
  split.
  - destruct (Hpre [] (length str) ltac:(lia)) as (s' & _ & Hrun). rewrite app_nil_r in Hrun. by rewrite Hrun.
  - intros Hc Hn. destruct (Hpre (c :: rest) n ltac:(lia)) as (s' & Hs' & ->). cbn [rasterise_loop].
    rewrite (proj2 (Z.eqb_neq c 0)) by lia. destruct (n - length str)%nat as [|k] eqn:Hk; [lia|].
    assert (Hchar : fst (rasterise_char fg bg c s') = Fault).
    { unfold rasterise_char. change (asc "010"%char) with 10. rewrite (proj2 (Z.eqb_neq c 10)) by lia.
      assert (Hput : forall s, fst ((let* c0 := get_cursor in blit_character c (cursor_x c0) (cursor_y c0) fg ;;
        set_cursor (u32 (cursor_x c0 + FONT_PIXEL_WIDTH)) (cursor_y c0)) s) = Fault).
      { intros s0. unfold get_cursor, gets, bind, blit_character, draw. cbn [fst snd].
        pose proof (font_draw_char_high (surface s0) (u8 c) (s32 (cursor_x (cursor s0))) (s32 (cursor_y (cursor s0))) fg (memory s0)) as Hf.
        destruct (font_draw_char _ _ _ _ _ _) as [r m]. cbn [fst] in *. rewrite Hf; [done|]. unfold u8. rewrite Z.mod_small; lia. }
      destruct (newline_shows surface_ Hw Hh bg _ s' Hs') as (s1 & Hnl & _). unfold newline_code in Hnl.
      unfold get_cursor at 1, gets, bind at 1. unfold needs_x_wrap, screen_width, gets, bind at 1. unfold bind at 1, ret at 1.
      cbn [fst snd]. rewrite orb_false_r. destruct (_ <? _).
      - erewrite bind_run by exact Hnl. apply Hput.
      - erewrite bind_run by reflexivity. apply Hput. }
    unfold bind. destruct (rasterise_char fg bg c s') as [r s2]. cbn [fst] in Hchar. by rewrite Hchar.
Qed.
End start.
