(* ===== verification/Stdio.v ===== *)
(** * Output: stdio.c, lib/io, and what the installer's main.c hangs on it

    What is written goes to the registered print callbacks, newest first, and to the
    serial port.  The installer registers one callback, which draws on its debug
    screen; [primary_puts] draws on the other screen as well. *)

From stdpp Require Import prelude list.
From Stdlib Require Import ZArith Lia Ascii.
From S2P Require Import Prelude CMem CString Kernel Mutex Printf PrintfNum PrintfSpec PrintfProps Gfx GfxProps TextRaster TextProps.

Open Scope Z_scope.
Open Scope lk_scope.

(** ** platform_dputc: the bytes sent on the serial line *)

Definition platform_dputc (c : Z) (serial : list Z) : list Z :=
  if c =? asc "010" then serial ++ [asc "013"; c] else serial ++ [c].

(** ** stdio.c on console.c and io.c *)

Section stdio.
Context {St : Type}.

(** The callbacks, the head of the list first; their state and the serial line. *)
Context (print_callbacks : list (list Z -> M St Empty_set unit)).

Definition OM (A : Type) : Type := M (St * list Z) Empty_set A.

Definition call_back (cb : list Z -> M St Empty_set unit) (str : list Z) : OM unit :=
  fun s => let r := cb str (fst s) in (fst r, (snd r, snd s)).

Definition out_count (str : list Z) : OM unit :=
  for_each print_callbacks (fun cb => call_back cb str) ;;
  for_each str (fun c => modify (fun s => (fst s, platform_dputc c (snd s)))).

Definition debug_stdio_write (str : list Z) : OM Z := out_count str ;; ret (Z.of_nat (length str)).

(** io_write on the console, which has the hook *)
Definition io_write (str : list Z) : OM Z := debug_stdio_write str.

Definition fputc (c : Z) : OM Z := io_write [u8 c].
Definition putchar (c : Z) : OM Z := fputc c.

(** [s] is the object from the pointer on. *)
Definition fputs (s : list Z) : OM Z :=
  let* n := deref (strlen s) in io_write (take n s).

Definition puts (str : list Z) : OM Z :=
  let* err := fputs str in
  if 0 <=? err then fputc (asc "010") else ret err.

Definition fwrite (ptr : list Z) (size count : Z) : OM Z :=
  if (size =? 0) || (count =? 0) then ret 0
  else if size =? 1 then io_write (take (Z.to_nat count) ptr)
  else
    let* bytes_written := io_write (take (Z.to_nat (u32 (size * count))) ptr) in
    ret (bytes_written / size).

(** The output function of the printf family. *)
Definition fprintf_output_func (str : list Z) : M (St * list Z) Z Z :=
  fun s => match io_write str s with
           | (Ret n, s') => (Ret n, s')
           | (Err e, _) => match e with end
           | (Panic, s') => (Panic, s')
           | (Fault, s') => (Fault, s')
           | (Hang, s') => (Hang, s')
           end.

Definition vfprintf (fmt : list Z) (ap : list arg) : EM (St:=St * list Z) Z := _printf_engine fprintf_output_func fmt ap.
Definition vprintf := vfprintf.
Definition fprintf := vfprintf.
Definition printf := vfprintf.
End stdio.

(** ** main.c and primaryscreen.c *)

Definition COLOUR_RGB (r g b : Z) : Z :=
  Z.lor (Z.lor (Z.land b 255) (Z.shiftl (Z.land g 255) 8)) (Z.shiftl (Z.land r 255) 16).
Definition FG_COLOUR : Z := COLOUR_RGB 241 143 1.
Definition FG_COLOUR_ERR : Z := COLOUR_RGB 255 0 0.
Definition FG_COLOUR_SUCCESS : Z := COLOUR_RGB 0 255 0.
Definition FG_COLOUR_DBG : Z := COLOUR_RGB 0 230 0.
Definition BG_COLOUR : Z := COLOUR_RGB 0 0 0.

Section screens.
(** The running thread, and the byte in memory behind what is printed:
    text_rasterise_string looks at it before it looks at the length. *)
Context (cur : tid) (behind : Z).

(** The callback runs in out_count with interrupts off: a wait for the mutex would
    be one with the print lock held. *)
Definition debug_surface_print (str : list Z) : SM unit :=
  let* r := text_rasterise_string cur FG_COLOUR_DBG BG_COLOUR (str ++ [behind]) (length str) in
  match r with Returned _ => ret tt | Blocked => hang end.

(** The two screens and the serial line. *)
Record screens := Screens { primary_screen : Screen; debug_screen : Screen; serial : list Z }.
Definition XM (A : Type) : Type := M screens Empty_set A.

Definition on_primary {A} (c : SM A) : XM A :=
  fun s => let r := c (primary_screen s) in (fst r, Screens (snd r) (debug_screen s) (serial s)).

(** stdio with debug_surface_print registered *)
Definition on_stdout {A} (c : OM (St:=Screen) A) : XM A :=
  fun s => let r := c (debug_screen s, serial s) in (fst r, Screens (primary_screen s) (fst (snd r)) (snd (snd r))).

Definition g_callbacks : list (list Z -> SM unit) := [debug_surface_print].

Definition primary_puts (colour : Z) (msg : list Z) : XM call_result :=
  let* n := deref (strlen msg) in
  let* r := on_primary (text_rasterise_string cur colour BG_COLOUR msg n) in
  match r with
  | Returned _ => on_stdout (puts g_callbacks msg) ;; ret r
  | Blocked => ret Blocked
  end.

Definition primary_clear : XM unit := on_primary (screen_fill BG_COLOUR).
End screens.
