(* ===== verification/StdioProps.v ===== *)
(** * Output reaches the screens: printf and primary_puts against two terminals *)

From stdpp Require Import prelude list.
From Stdlib Require Import ZArith Lia Ascii.
From S2P Require Import Prelude CMem CString Kernel Mutex Printf PrintfNum PrintfSpec PrintfProps Gfx GfxProps TextRaster TextProps Stdio.

Open Scope Z_scope.
Open Scope lk_scope.

(** The bytes on the serial line for a text. *)
Definition serial_text (str : list Z) : list Z := concat ((fun c => if c =? 10 then [13; 10] else [c]) <$> str).

Definition printable (str : list Z) : Prop := Forall (fun c => 0 < c < 128) str.

Lemma serial_text_app a b : serial_text (a ++ b) = serial_text a ++ serial_text b.
Proof. unfold serial_text. by rewrite fmap_app, concat_app. Qed.

Lemma dputc_run {St} str (s : St) (ser : list Z) :
  for_each (E:=Empty_set) str (fun c => modify (fun s => (fst s, platform_dputc c (snd s)))) (s, ser) = (Ret tt, (s, ser ++ serial_text str)).
Proof.
  revert ser. induction str as [|c str IH]; intros ser; cbn [for_each].
  - unfold ret. by rewrite app_nil_r.
  - unfold bind, modify at 1. cbn [fst snd]. rewrite IH. do 2 f_equal. unfold platform_dputc. change (asc "010"%char) with 10. change (asc "013"%char) with 13.
    unfold serial_text. cbn [fmap list_fmap concat]. destruct (c =? 10) eqn:Hc; rewrite <- app_assoc; [|done].
    apply Z.eqb_eq in Hc. by subst.
Qed.

Section output.
Context (surface_ : gfx_surface) (cur : tid) (behind : Z) (q : waitq).
Hypothesis (Hw : 6 <= width surface_) (Hh : 12 <= height surface_).

(** What [str] in a colour does to the terminal of a screen. *)
Definition written (fg : Z) (str : list Z) (t : term) : term :=
  term_string surface_ (stored_value surface_ true fg) (stored_value surface_ true BG_COLOUR) str t.

(** A screen that shows the terminal, its mutex free. *)
Definition shows_free (t : term) (s : Screen) : Prop := shows surface_ t s /\ mutex s = Mutex MUTEX_MAGIC None 0 q.

Lemma written_app fg a b t : written fg (a ++ b) t = written fg b (written fg a t).
Proof. unfold written, term_string. apply fold_left_app. Qed.

(** The debug screen and the serial line with [str] written on top of [t], [ser]. *)
Definition output_shows (t : term) (ser : list Z) (str : list Z) (s : Screen * list Z) : Prop :=
  shows_free (written FG_COLOUR_DBG str t) (fst s) /\ snd s = ser ++ serial_text str.

Notation cbs := (g_callbacks cur behind).

Lemma io_write_run t ser a str s :
  output_shows t ser a s -> printable str ->
  exists s', io_write cbs str s = (Ret (len_Z str), s') /\ output_shows t ser (a ++ str) s'.
Proof.
  intros [[Hs Hm] Hser] Hstr. destruct s as [dbg ser']. cbn [fst snd] in *. subst ser'.
  destruct (string_draws_free surface_ cur FG_COLOUR_DBG BG_COLOUR Hw Hh str behind [] (length str) _ dbg q Hs Hm Hstr ltac:(by right))
    as (dbg' & Hrun & Hs' & Hm' & _).
  exists (dbg', (ser ++ serial_text a) ++ serial_text str). split.
  - unfold io_write, debug_stdio_write, out_count, g_callbacks. cbn [for_each].
    unfold bind, call_back, debug_surface_print, ret. cbn [fst snd]. unfold bind. rewrite Hrun. cbn [fst snd]. by rewrite dputc_run.
  - split; cbn [fst snd].
    + split; [|by rewrite Hm', Hm]. unfold written. unfold written in Hs'. unfold term_string in *. by rewrite fold_left_app.
    + by rewrite serial_text_app, app_assoc.
Qed.

Lemma output_none t ser s : shows_free t (fst s) -> snd s = ser -> output_shows t ser [] s.
Proof. intros Hs <-. split; [done|]. cbn. by rewrite app_nil_r. Qed.

(** C16: while nobody holds or awaits the mutex of the debug screen, printf of the
    conversions [piece_ok] admits into 7-bit text writes what its format means to
    that screen and sends it down the serial line, newlines as CR LF there; the result
    is the length. *)
Theorem printf_shows t dbg ser (st : stores) ps :
  shows_free t dbg -> Forall piece_ok ps -> printable (concat (text_of <$> ps)) ->
  let text := concat (text_of <$> ps) in
  exists dbg', printf cbs (concat (fmt_of <$> ps) ++ [0]) (concat (args_of <$> ps)) ((dbg, ser), st) =
      (Ret (s32 (len_Z text)), ((dbg', ser ++ serial_text text), st)) /\ shows_free (written FG_COLOUR_DBG text t) dbg'.
Proof.
  intros Hs Hps Hchars. cbv zeta.
  destruct (pieces_out (fprintf_output_func cbs) (output_shows t ser) printable (dbg, ser) st ps) as ([dbg' ser'] & Hrun & [Hs' Hser]).
  - intros a b Hab. by apply Forall_app in Hab as [].
  - intros a s str Ha Hstr. apply Forall_app in Hstr as [_ Hstr]. destruct (io_write_run t ser a str s Ha Hstr) as (s' & Hrun & Hs').
    exists s'. split; [|done]. unfold fprintf_output_func. by rewrite Hrun.
  - by apply output_none.
  - done.
  - done.
  - exists dbg'. cbn [fst snd] in *. subst ser'. done.
Qed.

Lemma puts_run t ser s str rest :
  shows_free t (fst s) -> snd s = ser -> printable str ->
  exists s', puts cbs (str ++ 0 :: rest) s = (Ret 1, s') /\ output_shows t ser (str ++ [10]) s'.
Proof.
  intros Hs Hser Hstr. destruct (io_write_run t ser [] str s) as (s1 & Hrun1 & Hs1); [by apply output_none|done|].
  destruct (io_write_run t ser str [10] s1) as (s2 & Hrun2 & Hs2); [done|by repeat constructor|].
  assert (Hputs : fputs cbs (str ++ 0 :: rest) s = io_write cbs str s).
  { unfold fputs. rewrite (strlen_cstr str) by (apply cstr_intro; eapply Forall_impl; [exact Hstr|]; cbn; lia).
    cbn [deref]. erewrite bind_run by reflexivity. by rewrite take_app_length. }
  exists s2. split; [|done]. unfold puts. erewrite bind_run by (rewrite Hputs; exact Hrun1).
  rewrite (proj2 (Z.leb_le 0 _)) by lia. exact Hrun2.
Qed.

(** primary_puts writes its message to the installer's screen in its colour, and
    with a newline to the debug screen and the serial line. *)
Theorem primary_puts_shows colour msg rest t_primary t_debug x :
  shows_free t_primary (primary_screen x) -> shows_free t_debug (debug_screen x) -> printable msg ->
  exists x', primary_puts cur behind colour (msg ++ 0 :: rest) x = (Ret (Returned 0), x') /\
    shows_free (written colour msg t_primary) (primary_screen x') /\
    shows_free (written FG_COLOUR_DBG (msg ++ [10]) t_debug) (debug_screen x') /\
    serial x' = serial x ++ serial_text (msg ++ [10]).
Proof.
  intros [Hp Hpm] Hd Hmsg.
  destruct (string_draws_free surface_ cur colour BG_COLOUR Hw Hh msg 0 rest (length msg) _ (primary_screen x) q Hp Hpm Hmsg ltac:(by left))
    as (p' & Hrun & Hp' & Hpm' & _).
  destruct (puts_run t_debug (serial x) (debug_screen x, serial x) msg rest Hd eq_refl Hmsg) as ([d' ser'] & Hputs & [Hd' Hser]).
  exists (Screens p' d' ser'). split_and!; [|split; [done|by rewrite <- Hpm]|done|done].
  unfold primary_puts. rewrite (strlen_cstr msg) by (apply cstr_intro; eapply Forall_impl; [exact Hmsg|]; cbn; lia). cbn [deref].
  erewrite bind_run by reflexivity. unfold bind, on_primary. rewrite Hrun. cbn [fst snd]. unfold on_stdout. cbn [debug_screen Stdio.serial].
  by rewrite Hputs.
Qed.
End output.
