(* ===== verification/DisplayRuns.v ===== *)
(** * The display theorems on concrete surfaces

    A surface of 14 by 25 pixels with rows of 16, in the format of the console's
    display: two lines of two characters. *)

From stdpp Require Import prelude list gmap strings.
From Stdlib Require Import ZArith Lia Ascii.
From S2P Require Import Prelude CMem CString Kernel Mutex Printf PrintfNum PrintfSpec PrintfProps Gfx GfxProps TextRaster TextProps Stdio StdioProps.

Open Scope Z_scope.
Open Scope lk_scope.

Definition small : gfx_surface :=
  Surface false GFX_FORMAT_ABGR_8888 14 25 16 4 1600 MAX_ALPHA (Some ARGB8888_to_ABGR8888) Routines32 false.

Definition black : canvas := Canvas (replicate 400 0) [] [].
Definition counted : canvas := Canvas (Z.of_nat <$> seq 0 400) [] [].

Lemma small_wf (s : canvas) : length (pixels s) = 400%nat -> wf_surface small (pixels s).
Proof. intros Hl. constructor; rewrite ?Hl; cbn; (done || lia). Qed.

(** It is what gfx_create_surface makes. *)
Lemma small_created : gfx_create_surface true (fun _ => None) (Some (replicate 400 0)) 14 25 16 GFX_FORMAT_ABGR_8888 = Ret (small, replicate 400 0).
Proof. reflexivity. Qed.

Lemma gfx_copyrect_up_witness :
  exists m', gfx_copyrect small 1 1 5 30 0 0 counted = (Ret tt, Canvas m' [] []) /\
    moved small (pos small 0 0) (pos small 1 1) (clip 14 1 0 5) (clip 25 1 0 30) (pixels counted) m'.
Proof. apply (gfx_copyrect_up small counted (small_wf counted eq_refl) 1 1 5 30 0 0); done. Defined.

Lemma gfx_copyrect_down_witness :
  (exists m', gfx_copyrect small 0 0 2 2 1 1 counted = (Ret tt, Canvas m' [] []) /\
     moved small (pos small 1 1 + 17) (pos small 0 0 + 17) 2 2 (pixels counted) m') /\
  fst (gfx_copyrect small 0 0 2 24 1 1 counted) = Fault.
Proof.
  split.
  - exact (gfx_copyrect_down small counted (small_wf counted eq_refl) 0 0 2 2 1 1 ltac:(done) ltac:(done) ltac:(done) ltac:(done) ltac:(done)).
  - exact (gfx_copyrect_down small counted (small_wf counted eq_refl) 0 0 2 24 1 1 ltac:(done) ltac:(done) ltac:(done) ltac:(done) ltac:(done)).
Defined.

Lemma gfx_fillrect_clips_witness :
  (exists m', gfx_fillrect small 10 20 100 100 7 black = (Ret tt, Canvas m' [] []) /\
     filled small (pos small 10 20) 4 5 7 (pixels black) m') /\
  fst (gfx_fillrect small 10 20 (2 ^ 32 - 1) 1 7 black) = Fault.
Proof.
  split.
  - exact (gfx_fillrect_clips small black (small_wf black eq_refl) 10 20 100 100 7 ltac:(done) ltac:(done) ltac:(done) ltac:(done)).
  - exact (gfx_fillrect_clips small black (small_wf black eq_refl) 10 20 (2 ^ 32 - 1) 1 7 ltac:(done) ltac:(done) ltac:(done) ltac:(done)
      ltac:(done) ltac:(done)).
Defined.

Lemma gfx_line_digital_witness :
  exists pts m', gfx_line small 1 2 9 5 7 black = (Ret tt, Canvas m' [] []) /\ Z.of_nat (length pts) = 8 /\
    Forall (fun '(x, y) => 1 <= x <= 9 /\ 2 <= y <= 5 /\ 2 * Z.abs ((y - 2) * 8 - (x - 1) * 3) <= 8) pts /\
    (forall p, last pts = Some p -> p = (9, 5)) /\
    forall i, px m' i = if bool_decide (i ∈ (fun p => pos small (fst p) (snd p)) <$> pts) then Some (stored_value small true 7) else px (pixels black) i.
Proof. exact (gfx_line_digital small black 1 2 9 5 7 (small_wf black eq_refl) ltac:(done) ltac:(done)). Defined.

(** ** Text *)

Definition screen0 : Screen := screen_init small black.
Definition term0 : term := empty_term small (fun x y => default 0 (px (pixels black) (pos small x y))).

Lemma term0_shown : shows small term0 screen0.
Proof. apply screen_init_shows; [done|by apply small_wf]. Qed.

Lemma term0_free : shows_free small waitq_init term0 screen0.
Proof. split; [apply term0_shown|done]. Qed.

Lemma screen0_outside : outside 1%nat (mutex screen0).
Proof. split_and!; [discriminate|cbn; set_solver|reflexivity]. Qed.

(** Six characters, a newline among them, on a screen of two lines by two. *)
Lemma text_refines_terminal_witness :
  exists r s', text_rasterise_string 1%nat FG_COLOUR BG_COLOUR ((chars "abc" ++ 10 :: chars "d") ++ 0 :: []) 9 screen0 = (Ret r, s') /\
    drawn_or_waits small 1%nat r term0
      (Term [Line (fun _ _ => 0) [(100, stored_value small true FG_COLOUR)];
             Line (fun _ _ => 0) [(99, stored_value small true FG_COLOUR)]] 0) screen0 s'.
Proof.
  destruct (text_refines_terminal small 1%nat FG_COLOUR BG_COLOUR ltac:(done) ltac:(done) (chars "abc" ++ 10 :: chars "d") [] 9 term0 screen0 term0_shown mutex_init_inv) as [H _].
  - repeat constructor; done.
  - cbn. lia.
  - apply H, screen0_outside.
Defined.

Lemma stringf_refines_terminal_witness :
  exists r s', text_rasterise_stringf 1%nat FG_COLOUR BG_COLOUR (replicate 256 0) (concat (fmt_of <$> sample) ++ [0]) (concat (args_of <$> sample)) screen0 = (Ret r, s') /\
    drawn_or_waits small 1%nat r term0
      (term_string small (stored_value small true FG_COLOUR) (stored_value small true BG_COLOUR) (take 255 (concat (text_of <$> sample))) term0) screen0 s'.
Proof.
  apply (stringf_refines_terminal small 1%nat FG_COLOUR BG_COLOUR ltac:(done) ltac:(done) (replicate 256 0) sample term0 screen0);
    [done|apply term0_shown|apply mutex_init_inv|apply screen0_outside|apply sample_ok| |vm_compute; reflexivity].
  apply (bool_decide_unpack _). vm_compute. exact I.
Defined.

Lemma screen_fill_shows_witness :
  exists s', screen_fill FG_COLOUR_ERR screen0 = (Ret tt, s') /\ shows small (empty_term small (fun _ _ => 0xFF0000)) s'.
Proof. exact (screen_fill_shows small ltac:(done) term0 FG_COLOUR_ERR screen0 term0_shown). Defined.

Lemma text_reads_behind_witness :
  fst (rasterise_loop FG_COLOUR BG_COLOUR (chars "ok") 2 screen0) = Fault /\
  fst (rasterise_loop FG_COLOUR BG_COLOUR (chars "ok" ++ [233; 0]) 4 screen0) = Fault.
Proof.
  assert (Hok : Forall (fun c => 0 < c < 128) (chars "ok")) by (repeat constructor; done).
  split.
  - exact (proj1 (text_reads_behind small ltac:(done) ltac:(done) FG_COLOUR BG_COLOUR (chars "ok") 233 [0] 4 term0 screen0 term0_shown Hok)).
  - apply (text_reads_behind small ltac:(done) ltac:(done) FG_COLOUR BG_COLOUR (chars "ok") 233 [0] 4 term0 screen0 term0_shown Hok); cbn; lia.
Defined.

(** ** printf and primary_puts *)

Lemma printf_shows_witness :
  exists dbg', printf (g_callbacks 1%nat 0) (concat (fmt_of <$> sample) ++ [0]) (concat (args_of <$> sample)) ((screen0, []), []) =
      (Ret (s32 (len_Z (concat (text_of <$> sample)))), ((dbg', serial_text (concat (text_of <$> sample))), [])) /\
    shows_free small waitq_init (written small FG_COLOUR_DBG (concat (text_of <$> sample)) term0) dbg'.
Proof.
  apply (printf_shows small 1%nat 0 waitq_init ltac:(done) ltac:(done) term0 screen0 [] [] sample); [apply term0_free|apply sample_ok|].
  apply (bool_decide_unpack _). vm_compute. exact I.
Defined.

Lemma primary_puts_shows_witness :
  exists x', primary_puts 1%nat 0 FG_COLOUR (chars "hi" ++ 0 :: []) (Screens screen0 screen0 []) = (Ret (Returned 0), x') /\
    shows_free small waitq_init (written small FG_COLOUR (chars "hi") term0) (primary_screen x') /\
    shows_free small waitq_init (written small FG_COLOUR_DBG (chars "hi" ++ [10]) term0) (debug_screen x') /\
    Stdio.serial x' = [] ++ serial_text (chars "hi" ++ [10]).
Proof.
  apply (primary_puts_shows small 1%nat 0 waitq_init ltac:(done) ltac:(done) FG_COLOUR (chars "hi") [] term0 term0 (Screens screen0 screen0 []));
    [apply term0_free|apply term0_free|]. repeat constructor; done.
Defined.
