(* ===== verification/LkList.v ===== *)
(** * lk/list.h: doubly linked lists through their nodes

    Memory is a map from the addresses of nodes to their two pointers; a list is the
    node that heads it.  The models of the kernel use lists of identifiers for its
    queues: the theorems here are why. *)

From stdpp Require Import prelude list gmap.
From Stdlib Require Import ZArith Lia.
From S2P Require Import Prelude.

Open Scope Z_scope.
Open Scope lk_scope.

(** ** Operations *)

Record list_node := Node { prev : Z; next : Z }.
Notation nodes := (gmap Z list_node).
Definition LM (A : Type) : Type := M nodes Empty_set A.

Definition NULL : Z := 0.

(** Accesses; what is not a node is outside every object. *)
Definition get_prev (a : Z) : LM Z := let* m := get in deref (prev <$> m !! a).
Definition get_next (a : Z) : LM Z := let* m := get in deref (next <$> m !! a).
Definition set_prev (a v : Z) : LM unit :=
  let* m := get in let* n := deref (m !! a) in put (<[a := Node v (next n)]> m).
Definition set_next (a v : Z) : LM unit :=
  let* m := get in let* n := deref (m !! a) in put (<[a := Node (prev n) v]> m).

Definition list_initialize (list : Z) : LM unit := set_next list list ;; set_prev list list.
Definition list_clear_node (item : Z) : LM unit := set_next item NULL ;; set_prev item NULL.

Definition list_in_list (item : Z) : LM bool :=
  let* p := get_prev item in
  let* n := get_next item in
  ret (negb ((p =? NULL) && (n =? NULL))).

Definition list_add_head (list item : Z) : LM unit :=
  let* n := get_next list in set_next item n ;;
  set_prev item list ;;
  let* n := get_next list in set_prev n item ;;
  set_next list item.
Definition list_add_after (entry new_entry : Z) : LM unit := list_add_head entry new_entry.

Definition list_add_tail (list item : Z) : LM unit :=
  let* p := get_prev list in set_prev item p ;;
  set_next item list ;;
  let* p := get_prev list in set_next p item ;;
  set_prev list item.
Definition list_add_before (entry new_entry : Z) : LM unit := list_add_tail entry new_entry.

Definition list_delete (item : Z) : LM unit :=
  let* n := get_next item in let* p := get_prev item in set_prev n p ;;
  let* p := get_prev item in let* n := get_next item in set_next p n ;;
  set_next item NULL ;; set_prev item NULL.

Definition list_remove_head (list : Z) : LM Z :=
  let* n := get_next list in
  if n =? list then ret NULL else list_delete n ;; ret n.

Definition list_remove_tail (list : Z) : LM Z :=
  let* p := get_prev list in
  if p =? list then ret NULL else list_delete p ;; ret p.

Definition list_peek_head (list : Z) : LM Z :=
  let* n := get_next list in ret (if n =? list then NULL else n).
Definition list_peek_tail (list : Z) : LM Z :=
  let* p := get_prev list in ret (if p =? list then NULL else p).

Definition list_prev (list item : Z) : LM Z :=
  let* p := get_prev item in ret (if p =? list then NULL else p).
Definition list_next (list item : Z) : LM Z :=
  let* n := get_next item in ret (if n =? list then NULL else n).

Definition list_prev_wrap (list item : Z) : LM Z :=
  let* p := get_prev item in
  if negb (p =? list) then ret p
  else let* pp := get_prev p in ret (if pp =? list then NULL else pp).
Definition list_next_wrap (list item : Z) : LM Z :=
  let* n := get_next item in
  if negb (n =? list) then ret n
  else let* nn := get_next n in ret (if nn =? list then NULL else nn).

Definition list_is_empty (list : Z) : LM bool := let* n := get_next list in ret (n =? list).

(** list_for_every and list_for_every_safe: the code bounds them by nothing, so they
    have fuel; a loop over more nodes than there are never ends. *)
Fixpoint for_every_from (fuel : nat) (list node : Z) (body : Z -> LM unit) : LM unit :=
  match fuel with
  | O => hang
  | S fuel' =>
      if node =? list then ret tt
      else body node ;; let* node := get_next node in for_every_from fuel' list node body
  end.
Definition list_for_every (list : Z) (body : Z -> LM unit) : LM unit :=
  let* m := get in let* node := get_next list in for_every_from (S (size m)) list node body.

Fixpoint for_every_safe_from (fuel : nat) (list node temp : Z) (body : Z -> LM unit) : LM unit :=
  match fuel with
  | O => hang
  | S fuel' =>
      if node =? list then ret tt
      else body node ;; let* temp' := get_next temp in for_every_safe_from fuel' list temp temp' body
  end.
Definition list_for_every_safe (list : Z) (body : Z -> LM unit) : LM unit :=
  let* m := get in
  let* node := get_next list in let* temp := get_next node in
  for_every_safe_from (S (size m)) list node temp body.

Fixpoint length_from (fuel : nat) (list node cnt : Z) : LM Z :=
  match fuel with
  | O => hang
  | S fuel' => if node =? list then ret cnt else let* node := get_next node in length_from fuel' list node (u32 (cnt + 1))
  end.
Definition list_length (list : Z) : LM Z :=
  let* m := get in let* node := get_next list in length_from (S (size m)) list node 0.

(** ** Lists in memory *)

Definition prev_of (m : nodes) (a : Z) : option Z := prev <$> m !! a.
Definition next_of (m : nodes) (a : Z) : option Z := next <$> m !! a.

Definition linked (m : nodes) (a b : Z) : Prop := next_of m a = Some b /\ prev_of m b = Some a.

(** Neighbours all along. *)
Fixpoint chain (m : nodes) (xs : list Z) : Prop :=
  match xs with a :: ((b :: _) as xs') => linked m a b /\ chain m xs' | _ => True end.

(** The list headed by [h] has the nodes [l]. *)
Definition is_list (m : nodes) (h : Z) (l : list Z) : Prop := NoDup (h :: l) /\ NULL ∉ h :: l /\ chain m (h :: l ++ [h]).

Lemma chain_app m xs a ys : chain m (xs ++ a :: ys) <-> chain m (xs ++ [a]) /\ chain m (a :: ys).
Proof.
  induction xs as [|x xs IH]; [cbn; tauto|]. destruct xs as [|y xs]; [cbn; tauto|].
  change (chain m ((x :: y :: xs) ++ a :: ys)) with (linked m x y /\ chain m ((y :: xs) ++ a :: ys)).
  change (chain m ((x :: y :: xs) ++ [a])) with (linked m x y /\ chain m ((y :: xs) ++ [a])). rewrite IH. tauto.
Qed.

(** A chain sees the next pointers of all but its end, and the previous pointers of
    all but its start. *)
Lemma chain_frame m m' xs :
  chain m xs -> (forall c, c ∈ removelast xs -> next_of m' c = next_of m c) -> (forall c, c ∈ tail xs -> prev_of m' c = prev_of m c) -> chain m' xs.
Proof.
  induction xs as [|a xs IH]; [done|]. destruct xs as [|b xs]; [done|].
  intros [[H1 H2] Hc] Hn Hp. split; [split; [rewrite Hn by (cbn; set_solver)|rewrite Hp by (cbn; set_solver)]; done|].
  apply IH; [done|intros c Hin; apply Hn; cbn in *; set_solver|intros c Hin; apply Hp; cbn in *; set_solver].
Qed.

Lemma removelast_elem (xs : list Z) c : c ∈ removelast xs -> c ∈ xs.
Proof. induction xs as [|a [|b xs] IH]; cbn; [done|set_solver|]. intros [->|H]%elem_of_cons; set_solver. Qed.

Section splice.
Context (m m' : nodes) (xs ys : list Z) (e b x : Z).
Hypothesis (He1 : e ∉ xs) (He2 : e ∉ removelast (b :: ys)) (Hb1 : b ∉ ys) (Hb2 : b ∉ tail (xs ++ [e])).
Hypothesis (Hx : x ∉ xs ++ e :: b :: ys).

(** [x] between its neighbours. *)
Lemma chain_insert :
  chain m (xs ++ e :: b :: ys) ->
  (forall c, next_of m' c = if bool_decide (c = e) then Some x else if bool_decide (c = x) then Some b else next_of m c) ->
  (forall c, prev_of m' c = if bool_decide (c = b) then Some x else if bool_decide (c = x) then Some e else prev_of m c) ->
  chain m' (xs ++ e :: x :: b :: ys).
Proof.
  rewrite elem_of_app, !elem_of_cons in Hx. intros [H1 [_ H2]]%chain_app Hn Hp. apply chain_app. split.
  - eapply chain_frame; [exact H1|intros c Hc|intros c Hc].
    + rewrite removelast_last in Hc. rewrite Hn, !bool_decide_false; [done|set_solver|set_solver].
    + rewrite Hp, !bool_decide_false; [done| |set_solver]. intros ->. apply Hx. destruct xs; cbn in Hc; set_solver.
  - split; [split|split; [split|]].
    + by rewrite Hn, bool_decide_true.
    + rewrite Hp, bool_decide_false, bool_decide_true; naive_solver.
    + rewrite Hn, bool_decide_false, bool_decide_true; naive_solver.
    + by rewrite Hp, bool_decide_true.
    + eapply chain_frame; [exact H2|intros c Hc|intros c Hc].
      * rewrite Hn, !bool_decide_false; [done| |set_solver]. intros ->. apply removelast_elem in Hc. set_solver.
      * cbn in Hc. rewrite Hp, !bool_decide_false; [done|set_solver|set_solver].
Qed.

(** [x] taken out. *)
Lemma chain_remove :
  chain m (xs ++ e :: x :: b :: ys) ->
  (forall c, c <> x -> next_of m' c = if bool_decide (c = e) then Some b else next_of m c) ->
  (forall c, c <> x -> prev_of m' c = if bool_decide (c = b) then Some e else prev_of m c) ->
  chain m' (xs ++ e :: b :: ys).
Proof.
  rewrite elem_of_app, !elem_of_cons in Hx. intros [H1 (_ & _ & H2)]%chain_app Hn Hp. apply chain_app. split.
  - eapply chain_frame; [exact H1|intros c Hc|intros c Hc].
    + rewrite removelast_last in Hc. rewrite Hn, !bool_decide_false; [done|set_solver|set_solver].
    + assert (c <> x) by (intros ->; apply Hx; destruct xs; cbn in Hc; set_solver). rewrite Hp, !bool_decide_false; [done|set_solver|done].
  - split; [split|].
    + rewrite Hn by naive_solver. by rewrite bool_decide_true.
    + rewrite Hp by naive_solver. by rewrite bool_decide_true.
    + eapply chain_frame; [exact H2|intros c Hc|intros c Hc].
      * assert (c <> x) by (intros ->; apply removelast_elem in Hc; set_solver). rewrite Hn, !bool_decide_false; [done|set_solver|done].
      * cbn in Hc. rewrite Hp, !bool_decide_false; [done|set_solver|set_solver].
Qed.
End splice.

(** Where a node of the list, or its head, has its neighbours. *)
Lemma list_split (h : Z) (l1 l2 : list Z) :
  NoDup (h :: l1 ++ l2) -> exists (xs : list Z) (e b : Z) (ys : list Z), h :: l1 = xs ++ [e] /\ l2 ++ [h] = b :: ys /\
    e ∉ xs /\ e ∉ removelast (b :: ys) /\ b ∉ ys /\ b ∉ tail (xs ++ [e]) /\
    (forall c, c ∈ xs ++ e :: b :: ys <-> c ∈ h :: l1 ++ l2).
Proof.
  intros Hnd. destruct (@exists_last _ (h :: l1) ltac:(done)) as (xs & e & Hxs). exists xs, e.
  assert (exists b ys, l2 ++ [h] = b :: ys) as (b & ys & Hys) by (destruct l2; cbn; eauto). exists b, ys.
  rewrite app_comm_cons in Hnd. apply NoDup_app in Hnd as (Hnd1 & Hdis & Hnd2).
  assert (Hrl : removelast (b :: ys) = l2) by (rewrite <- Hys; apply removelast_last).
  split_and!; [done|done| | | | |].
  - rewrite Hxs in Hnd1. apply NoDup_app in Hnd1 as (_ & Hd & _). intros He. apply (Hd e He). set_solver.
  - rewrite Hrl. apply Hdis. rewrite Hxs. set_solver.
  - destruct l2 as [|y l2]; cbn in Hys; injection Hys as <- <-; [set_solver|]. apply NoDup_cons in Hnd2 as [Hy _].
    rewrite elem_of_app. intros [Hin|Hin]; [done|]. apply (Hdis h); set_solver.
  - rewrite <- Hxs. cbn. apply NoDup_cons in Hnd1 as [Hh _].
    destruct l2 as [|y l2]; cbn in Hys; injection Hys as <- <-; [done|]. intros Hin. apply (Hdis y); set_solver.
  - intros c.
    replace (xs ++ e :: b :: ys) with ((h :: l1) ++ l2 ++ [h]) by (rewrite Hxs, Hys, <- app_assoc; done). set_solver.
Qed.

(** ** Accesses in runs *)

Lemma get_next_run m a b : next_of m a = Some b -> get_next a m = (Ret b, m).
Proof. intros H. unfold get_next, get, bind. change (next <$> m !! a) with (next_of m a). by rewrite H. Qed.

Lemma get_prev_run m a b : prev_of m a = Some b -> get_prev a m = (Ret b, m).
Proof. intros H. unfold get_prev, get, bind. change (prev <$> m !! a) with (prev_of m a). by rewrite H. Qed.

(** What a store changes. *)
Record stored_next (a v : Z) (m m' : nodes) : Prop := {
  sn_next : forall c, next_of m' c = if bool_decide (c = a) then Some v else next_of m c;
  sn_prev : forall c, prev_of m' c = prev_of m c;
  sn_dom : dom m' = dom m
}.
Record stored_prev (a v : Z) (m m' : nodes) : Prop := {
  sp_prev : forall c, prev_of m' c = if bool_decide (c = a) then Some v else prev_of m c;
  sp_next : forall c, next_of m' c = next_of m c;
  sp_dom : dom m' = dom m
}.

Lemma set_next_run m a v : a ∈ dom m -> exists m', set_next a v m = (Ret tt, m') /\ stored_next a v m m'.
Proof.
  intros [n Hn]%elem_of_dom. exists (<[a := Node (prev n) v]> m). unfold set_next, get, put, bind. cbn. rewrite Hn. split; [done|].
  constructor; [| |rewrite dom_insert_L; assert (a ∈ dom m) by (by apply elem_of_dom_2 in Hn); set_solver];
    intros c; unfold next_of, prev_of; destruct (decide (c = a)) as [->|Hne]; rewrite ?lookup_insert_eq, ?lookup_insert_ne by done.
  - by rewrite bool_decide_true.
  - by rewrite bool_decide_false.
  - by rewrite Hn.
  - done.
Qed.

Lemma set_prev_run m a v : a ∈ dom m -> exists m', set_prev a v m = (Ret tt, m') /\ stored_prev a v m m'.
Proof.
  intros [n Hn]%elem_of_dom. exists (<[a := Node v (next n)]> m). unfold set_prev, get, put, bind. cbn. rewrite Hn. split; [done|].
  constructor; [| |rewrite dom_insert_L; assert (a ∈ dom m) by (by apply elem_of_dom_2 in Hn); set_solver];
    intros c; unfold next_of, prev_of; destruct (decide (c = a)) as [->|Hne]; rewrite ?lookup_insert_eq, ?lookup_insert_ne by done.
  - by rewrite bool_decide_true.
  - by rewrite bool_decide_false.
  - by rewrite Hn.
  - done.
Qed.

Lemma next_of_dom m a b : next_of m a = Some b -> a ∈ dom m.
Proof. unfold next_of. destruct (m !! a) eqn:Ha; [intros; by eapply elem_of_dom_2|done]. Qed.

Lemma prev_of_dom m a b : prev_of m a = Some b -> a ∈ dom m.
Proof. unfold prev_of. destruct (m !! a) eqn:Ha; [intros; by eapply elem_of_dom_2|done]. Qed.

Lemma node_ext m m' a : next_of m' a = next_of m a -> prev_of m' a = prev_of m a -> m' !! a = m !! a.
Proof.
  unfold next_of, prev_of. destruct (m !! a) as [[]|], (m' !! a) as [[]|]; cbn; intros H1 H2; congruence.
Qed.

(** ** What an operation does to the nodes *)

Record inserted (e x b : Z) (m m' : nodes) : Prop := {
  in_next : forall c, next_of m' c = if bool_decide (c = e) then Some x else if bool_decide (c = x) then Some b else next_of m c;
  in_prev : forall c, prev_of m' c = if bool_decide (c = b) then Some x else if bool_decide (c = x) then Some e else prev_of m c;
  in_dom : dom m' = dom m
}.
Record removed (e x b : Z) (m m' : nodes) : Prop := {
  rm_next : forall c, next_of m' c = if bool_decide (c = x) then Some NULL else if bool_decide (c = e) then Some b else next_of m c;
  rm_prev : forall c, prev_of m' c = if bool_decide (c = x) then Some NULL else if bool_decide (c = b) then Some e else prev_of m c;
  rm_dom : dom m' = dom m
}.

(** One store after another. *)
Ltac store_next := match goal with |- context [set_next ?a ?v ?m] =>
  let m1 := fresh "m" in let E := fresh "E" in let S := fresh "S" in
  destruct (set_next_run m a v) as (m1 & E & S); [|rewrite E; cbn beta iota] end.
Ltac store_prev := match goal with |- context [set_prev ?a ?v ?m] =>
  let m1 := fresh "m" in let E := fresh "E" in let S := fresh "S" in
  destruct (set_prev_run m a v) as (m1 & E & S); [|rewrite E; cbn beta iota] end.

Lemma list_add_head_run m e x b :
  linked m e b -> x ∈ dom m -> x <> e -> x <> b -> exists m', list_add_head e x m = (Ret tt, m') /\ inserted e x b m m'.
Proof.
  intros [Hn Hp] Hx Hxe Hxb. pose proof (next_of_dom _ _ _ Hn) as He. pose proof (prev_of_dom _ _ _ Hp) as Hb.
  unfold list_add_head, bind. rewrite (get_next_run _ _ _ Hn). cbn beta iota. store_next; [done|].
  store_prev; [by rewrite (sn_dom _ _ _ _ S)|].
  assert (Hn' : next_of m1 e = Some b) by (rewrite (sp_next _ _ _ _ S0), (sn_next _ _ _ _ S), bool_decide_false; done).
  rewrite (get_next_run _ _ _ Hn'). cbn beta iota. store_prev; [by rewrite (sp_dom _ _ _ _ S0), (sn_dom _ _ _ _ S)|].
  store_next; [by rewrite (sp_dom _ _ _ _ S1), (sp_dom _ _ _ _ S0), (sn_dom _ _ _ _ S)|].
  exists m3. split; [done|]. constructor.
  - intros c. by rewrite (sn_next _ _ _ _ S2), (sp_next _ _ _ _ S1), (sp_next _ _ _ _ S0), (sn_next _ _ _ _ S).
  - intros c. by rewrite (sn_prev _ _ _ _ S2), (sp_prev _ _ _ _ S1), (sp_prev _ _ _ _ S0), (sn_prev _ _ _ _ S).
  - by rewrite (sn_dom _ _ _ _ S2), (sp_dom _ _ _ _ S1), (sp_dom _ _ _ _ S0), (sn_dom _ _ _ _ S).
Qed.

Lemma list_add_tail_run m e x b :
  linked m e b -> x ∈ dom m -> x <> e -> x <> b -> exists m', list_add_tail b x m = (Ret tt, m') /\ inserted e x b m m'.
Proof.
  intros [Hn Hp] Hx Hxe Hxb. pose proof (next_of_dom _ _ _ Hn) as He. pose proof (prev_of_dom _ _ _ Hp) as Hb.
  unfold list_add_tail, bind. rewrite (get_prev_run _ _ _ Hp). cbn beta iota. store_prev; [done|].
  store_next; [by rewrite (sp_dom _ _ _ _ S)|].
  assert (Hp' : prev_of m1 b = Some e) by (rewrite (sn_prev _ _ _ _ S0), (sp_prev _ _ _ _ S), bool_decide_false; done).
  rewrite (get_prev_run _ _ _ Hp'). cbn beta iota. store_next; [by rewrite (sn_dom _ _ _ _ S0), (sp_dom _ _ _ _ S)|].
  store_prev; [by rewrite (sn_dom _ _ _ _ S1), (sn_dom _ _ _ _ S0), (sp_dom _ _ _ _ S)|].
  exists m3. split; [done|]. constructor.
  - intros c. by rewrite (sp_next _ _ _ _ S2), (sn_next _ _ _ _ S1), (sn_next _ _ _ _ S0), (sp_next _ _ _ _ S).
  - intros c. by rewrite (sp_prev _ _ _ _ S2), (sn_prev _ _ _ _ S1), (sn_prev _ _ _ _ S0), (sp_prev _ _ _ _ S).
  - by rewrite (sp_dom _ _ _ _ S2), (sn_dom _ _ _ _ S1), (sn_dom _ _ _ _ S0), (sp_dom _ _ _ _ S).
Qed.

Lemma list_delete_run m e x b :
  linked m e x -> linked m x b -> x <> e -> x <> b -> exists m', list_delete x m = (Ret tt, m') /\ removed e x b m m'.
Proof.
  intros [Hn Hp] [Hn2 Hp2] Hxe Hxb.
  pose proof (next_of_dom _ _ _ Hn) as He. pose proof (prev_of_dom _ _ _ Hp2) as Hb. pose proof (prev_of_dom _ _ _ Hp) as Hx.
  unfold list_delete, bind. rewrite (get_next_run _ _ _ Hn2). cbn beta iota. rewrite (get_prev_run _ _ _ Hp). cbn beta iota.
  store_prev; [done|].
  assert (Hp' : prev_of m0 x = Some e) by (rewrite (sp_prev _ _ _ _ S), bool_decide_false; done).
  assert (Hn' : next_of m0 x = Some b) by (rewrite (sp_next _ _ _ _ S); done).
  rewrite (get_prev_run _ _ _ Hp'). cbn beta iota. rewrite (get_next_run _ _ _ Hn'). cbn beta iota.
  store_next; [by rewrite (sp_dom _ _ _ _ S)|].
  store_next; [by rewrite (sn_dom _ _ _ _ S0), (sp_dom _ _ _ _ S)|].
  store_prev; [by rewrite (sn_dom _ _ _ _ S1), (sn_dom _ _ _ _ S0), (sp_dom _ _ _ _ S)|].
  exists m3. split; [done|]. constructor.
  - intros c. by rewrite (sp_next _ _ _ _ S2), (sn_next _ _ _ _ S1), (sn_next _ _ _ _ S0), (sp_next _ _ _ _ S).
  - intros c. by rewrite (sp_prev _ _ _ _ S2), (sn_prev _ _ _ _ S1), (sn_prev _ _ _ _ S0), (sp_prev _ _ _ _ S).
  - by rewrite (sp_dom _ _ _ _ S2), (sn_dom _ _ _ _ S1), (sn_dom _ _ _ _ S0), (sp_dom _ _ _ _ S).
Qed.

(** ** The same on lists *)

Lemma inserted_frame e x b m m' c : inserted e x b m m' -> c <> e -> c <> x -> c <> b -> m' !! c = m !! c.
Proof. intros [Hn Hp _] H1 H2 H3. apply node_ext; [rewrite Hn|rewrite Hp]; by rewrite !bool_decide_false. Qed.

Lemma removed_frame e x b m m' c : removed e x b m m' -> c <> e -> c <> x -> c <> b -> m' !! c = m !! c.
Proof. intros [Hn Hp _] H1 H2 H3. apply node_ext; [rewrite Hn|rewrite Hp]; by rewrite !bool_decide_false. Qed.

Lemma chain_same m m' xs : chain m xs -> (forall c, c ∈ xs -> m' !! c = m !! c) -> chain m' xs.
Proof.
  intros Hc Hs. eapply chain_frame; [done|intros c Hc'%removelast_elem|intros c Hc'].
  - unfold next_of. by rewrite Hs.
  - unfold prev_of. rewrite Hs; [done|]. destruct xs; cbn in Hc'; set_solver.
Qed.

Lemma is_list_frame m m' h l : is_list m h l -> (forall c, c ∈ h :: l -> m' !! c = m !! c) -> is_list m' h l.
Proof. intros (Hnd & Hnn & Hc) Hs. split_and!; [done|done|]. eapply chain_same; [done|]. set_solver. Qed.

(** The entries before and after a place in the list, the head closing the circle. *)
Notation before l1 h := (List.last l1 h).
Notation after l2 h := (List.hd h l2).

Lemma before_split (xs : list Z) (h e : Z) l1 : h :: l1 = xs ++ [e] -> before l1 h = e.
Proof.
  destruct l1 as [|y l1] using rev_ind; intros H.
  - change [h] with ([] ++ [h]) in H. by apply app_inj_tail in H as [_ ->].
  - rewrite app_comm_cons in H. apply app_inj_tail in H as [_ ->]. apply List.last_last.
Qed.

Lemma after_split (ys : list Z) (h b : Z) l2 : l2 ++ [h] = b :: ys -> after l2 h = b.
Proof. destruct l2; cbn; congruence. Qed.

Lemma before_elem (h : Z) l1 : before l1 h ∈ h :: l1.
Proof. destruct l1 as [|y l1] using rev_ind; [set_solver|rewrite List.last_last; set_solver]. Qed.

Lemma after_elem (h : Z) l2 : after l2 h ∈ h :: l2.
Proof. destruct l2; set_solver. Qed.

Lemma list_split' (h : Z) (l1 l2 : list Z) :
  NoDup (h :: l1 ++ l2) -> exists (xs ys : list Z), h :: l1 = xs ++ [before l1 h] /\ l2 ++ [h] = after l2 h :: ys /\
    before l1 h ∉ xs /\ before l1 h ∉ removelast (after l2 h :: ys) /\ after l2 h ∉ ys /\ after l2 h ∉ tail (xs ++ [before l1 h]) /\
    (forall c, c ∈ xs ++ before l1 h :: after l2 h :: ys <-> c ∈ h :: l1 ++ l2).
Proof.
  intros (xs & e & b & ys & H1 & H2 & H)%list_split. exists xs, ys.
  rewrite (before_split _ _ _ _ H1), (after_split _ _ _ _ H2). tauto.
Qed.

Lemma is_list_linked m h l1 l2 : is_list m h (l1 ++ l2) -> linked m (before l1 h) (after l2 h).
Proof.
  intros (Hnd & _ & Hc). destruct (list_split' _ _ _ Hnd) as (xs & ys & H1 & H2 & _).
  replace (h :: (l1 ++ l2) ++ [h]) with (xs ++ before l1 h :: after l2 h :: ys) in Hc.
  - by apply chain_app in Hc as [_ [? _]].
  - rewrite <- H2, <- app_assoc, !app_comm_cons, H1, <- app_assoc. done.
Qed.

Lemma is_list_inserted m m' h l1 l2 x :
  is_list m h (l1 ++ l2) -> x ∉ h :: l1 ++ l2 -> x <> NULL -> inserted (before l1 h) x (after l2 h) m m' -> is_list m' h (l1 ++ x :: l2).
Proof.
  intros (Hnd & Hnn & Hc) Hx Hx0 [Hn Hp _]. destruct (list_split' _ _ _ Hnd) as (xs & ys & H1 & H2 & Ha & Hb & Hc1 & Hd & He).
  assert (Hperm : h :: l1 ++ x :: l2 ≡ₚ x :: h :: l1 ++ l2) by solve_Permutation. split_and!.
  - rewrite Hperm. by constructor.
  - rewrite Hperm, elem_of_cons. intros [?|?]; [congruence|done].
  - replace (h :: (l1 ++ x :: l2) ++ [h]) with (xs ++ before l1 h :: x :: after l2 h :: ys).
    + eapply (chain_insert m); [exact Ha|exact Hb|exact Hc1|exact Hd|by rewrite He| |exact Hn|exact Hp].
      replace (xs ++ before l1 h :: after l2 h :: ys) with (h :: (l1 ++ l2) ++ [h]); [done|].
      rewrite <- H2, <- app_assoc, !app_comm_cons, H1, <- app_assoc. done.
    + rewrite <- H2, <- app_assoc, !app_comm_cons, H1, <- app_assoc. done.
Qed.

Lemma is_list_removed m m' h l1 x l2 :
  is_list m h (l1 ++ x :: l2) -> removed (before l1 h) x (after l2 h) m m' -> is_list m' h (l1 ++ l2).
Proof.
  intros (Hnd & Hnn & Hc) [Hn Hp _].
  assert (Hperm : h :: l1 ++ x :: l2 ≡ₚ x :: h :: l1 ++ l2) by solve_Permutation. rewrite Hperm in Hnd. apply NoDup_cons in Hnd as [Hx Hnd].
  destruct (list_split' _ _ _ Hnd) as (xs & ys & H1 & H2 & Ha & Hb & Hc1 & Hd & He). split_and!; [done|set_solver|].
  replace (h :: (l1 ++ l2) ++ [h]) with (xs ++ before l1 h :: after l2 h :: ys).
  - eapply (chain_remove m m' _ _ _ _ x); [exact Ha|exact Hb|exact Hc1|exact Hd|by rewrite He| | |].
    + replace (xs ++ before l1 h :: x :: after l2 h :: ys) with (h :: (l1 ++ x :: l2) ++ [h]); [done|].
      rewrite <- H2, <- app_assoc, !app_comm_cons, H1, <- app_assoc. done.
    + intros c Hcx. by rewrite Hn, bool_decide_false.
    + intros c Hcx. by rewrite Hp, bool_decide_false.
  - rewrite <- H2, <- app_assoc, !app_comm_cons, H1, <- app_assoc. done.
Qed.
