(* ===== verification/LkListProps.v ===== *)
(** * lk/list.h: the operations on nodes refine operations on lists

    Several lists and the cleared nodes live in one memory; an operation does to them
    what the same operation does to a map from heads to lists.  The iteration macros
    visit each entry once, the safe one also when the body unlinks what it visits. *)

From stdpp Require Import prelude list gmap.
From Stdlib Require Import ZArith Lia.
From S2P Require Import Prelude LkList.

Open Scope Z_scope.
Open Scope lk_scope.

(** ** The calls *)

Inductive list_op : Type -> Type :=
  | Initialize (h : Z) : list_op unit
  | ClearNode (x : Z) : list_op unit
  | InList (x : Z) : list_op bool
  | AddHead (h x : Z) : list_op unit
  | AddTail (h x : Z) : list_op unit
  | AddAfter (e x : Z) : list_op unit
  | AddBefore (e x : Z) : list_op unit
  | Delete (x : Z) : list_op unit
  | RemoveHead (h : Z) : list_op Z
  | RemoveTail (h : Z) : list_op Z
  | PeekHead (h : Z) : list_op Z
  | PeekTail (h : Z) : list_op Z
  | Prev (h x : Z) : list_op Z
  | Next (h x : Z) : list_op Z
  | PrevWrap (h x : Z) : list_op Z
  | NextWrap (h x : Z) : list_op Z
  | IsEmpty (h : Z) : list_op bool
  | Length (h : Z) : list_op Z.

Definition run_list_op {A} (o : list_op A) : LM A :=
  match o in list_op A return LM A with
  | Initialize h => list_initialize h
  | ClearNode x => list_clear_node x
  | InList x => list_in_list x
  | AddHead h x => list_add_head h x
  | AddTail h x => list_add_tail h x
  | AddAfter e x => list_add_after e x
  | AddBefore e x => list_add_before e x
  | Delete x => list_delete x
  | RemoveHead h => list_remove_head h
  | RemoveTail h => list_remove_tail h
  | PeekHead h => list_peek_head h
  | PeekTail h => list_peek_tail h
  | Prev h x => list_prev h x
  | Next h x => list_next h x
  | PrevWrap h x => list_prev_wrap h x
  | NextWrap h x => list_next_wrap h x
  | IsEmpty h => list_is_empty h
  | Length h => list_length h
  end.

(** ** What they promise *)

(** The lists, by their heads, and the nodes known to be in none. *)
Record alists := ALists { al : gmap Z (list Z); cleared : gset Z }.

Definition loose (L : alists) (x : Z) : Prop := forall h l, al L !! h = Some l -> x ∉ h :: l.

Definition upd (L : alists) (h : Z) (l : list Z) (c : gset Z) : alists := ALists (<[h := l]> (al L)) c.

Inductive list_spec : forall {A}, list_op A -> alists -> A -> alists -> Prop :=
  | SInitialize L h : loose L h -> h <> NULL -> list_spec (Initialize h) L tt (upd L h [] (cleared L ∖ {[h]}))
  | SClearNode L x : loose L x -> list_spec (ClearNode x) L tt (ALists (al L) (cleared L ∪ {[x]}))
  | SInListYes L h l x : al L !! h = Some l -> x ∈ h :: l -> list_spec (InList x) L true L
  | SInListNo L x : x ∈ cleared L -> list_spec (InList x) L false L
  | SAddHead L h l x : al L !! h = Some l -> loose L x -> x <> NULL ->
      list_spec (AddHead h x) L tt (upd L h (x :: l) (cleared L ∖ {[x]}))
  | SAddTail L h l x : al L !! h = Some l -> loose L x -> x <> NULL ->
      list_spec (AddTail h x) L tt (upd L h (l ++ [x]) (cleared L ∖ {[x]}))
  | SAddAfter L h l1 e l2 x : al L !! h = Some (l1 ++ e :: l2) -> loose L x -> x <> NULL ->
      list_spec (AddAfter e x) L tt (upd L h (l1 ++ e :: x :: l2) (cleared L ∖ {[x]}))
  | SAddBefore L h l1 e l2 x : al L !! h = Some (l1 ++ e :: l2) -> loose L x -> x <> NULL ->
      list_spec (AddBefore e x) L tt (upd L h (l1 ++ x :: e :: l2) (cleared L ∖ {[x]}))
  | SDelete L h l1 x l2 : al L !! h = Some (l1 ++ x :: l2) -> list_spec (Delete x) L tt (upd L h (l1 ++ l2) (cleared L ∪ {[x]}))
  | SRemoveHeadNone L h : al L !! h = Some [] -> list_spec (RemoveHead h) L NULL L
  | SRemoveHead L h x l : al L !! h = Some (x :: l) -> list_spec (RemoveHead h) L x (upd L h l (cleared L ∪ {[x]}))
  | SRemoveTailNone L h : al L !! h = Some [] -> list_spec (RemoveTail h) L NULL L
  | SRemoveTail L h l x : al L !! h = Some (l ++ [x]) -> list_spec (RemoveTail h) L x (upd L h l (cleared L ∪ {[x]}))
  | SPeekHead L h l : al L !! h = Some l -> list_spec (PeekHead h) L (List.hd NULL l) L
  | SPeekTail L h l : al L !! h = Some l -> list_spec (PeekTail h) L (List.last l NULL) L
  | SPrev L h l1 x l2 : al L !! h = Some (l1 ++ x :: l2) -> list_spec (Prev h x) L (List.last l1 NULL) L
  | SNext L h l1 x l2 : al L !! h = Some (l1 ++ x :: l2) -> list_spec (Next h x) L (List.hd NULL l2) L
  | SPrevWrap L h l1 x l2 : al L !! h = Some (l1 ++ x :: l2) -> list_spec (PrevWrap h x) L (List.last l1 (List.last l2 x)) L
  | SNextWrap L h l1 x l2 : al L !! h = Some (l1 ++ x :: l2) -> list_spec (NextWrap h x) L (List.hd (List.hd x l1) l2) L
  | SIsEmpty L h l : al L !! h = Some l -> list_spec (IsEmpty h) L (bool_decide (l = [])) L
  | SLength L h l : al L !! h = Some l -> list_spec (Length h) L (u32 (Z.of_nat (length l))) L.

(** ** Memory that holds them *)

Record holds (m : nodes) (L : alists) : Prop := {
  hd_lists : forall h l, al L !! h = Some l -> is_list m h l;
  hd_disj : forall h h' l l' c, al L !! h = Some l -> al L !! h' = Some l' -> c ∈ h :: l -> c ∈ h' :: l' -> h = h';
  hd_cleared : forall x, x ∈ cleared L -> m !! x = Some (Node NULL NULL)
}.

(** Each entry, and the head, seen as a place in the list. *)
Lemma before_place (h : Z) l c : c ∈ h :: l -> exists l1 l2, l = l1 ++ l2 /\ c = before l1 h.
Proof.
  intros [->|(l1 & l2 & ->)%list_elem_of_split]%elem_of_cons; [by exists [], l|].
  exists (l1 ++ [c]), l2. split; [by rewrite <- app_assoc|by rewrite List.last_last].
Qed.

Lemma after_place (h : Z) l c : c ∈ h :: l -> exists l1 l2, l = l1 ++ l2 /\ c = after l2 h.
Proof.
  intros [->|(l1 & l2 & ->)%list_elem_of_split]%elem_of_cons; [exists l, []; by rewrite app_nil_r|]. by exists l1, (c :: l2).
Qed.

Section lists.
Context (m : nodes) (h : Z).

Lemma entry_next l c : is_list m h l -> c ∈ h :: l -> exists n, next_of m c = Some n /\ n ∈ h :: l.
Proof.
  intros Hl (l1 & l2 & -> & ->)%before_place. destruct (is_list_linked _ _ _ _ Hl) as [Hn _].
  exists (after l2 h). split; [done|]. pose proof (after_elem h l2). set_solver.
Qed.

Lemma entry_dom l c : is_list m h l -> c ∈ h :: l -> c ∈ dom m.
Proof. intros Hl (n & Hn & _)%(entry_next l); [by eapply next_of_dom|done]. Qed.

Lemma next_entry l1 x l2 : is_list m h (l1 ++ x :: l2) -> next_of m x = Some (after l2 h).
Proof.
  intros Hl. replace (l1 ++ x :: l2) with ((l1 ++ [x]) ++ l2) in Hl by (by rewrite <- app_assoc).
  apply is_list_linked in Hl as [Hl _]. by rewrite List.last_last in Hl.
Qed.

Lemma prev_entry l1 x l2 : is_list m h (l1 ++ x :: l2) -> prev_of m x = Some (before l1 h).
Proof. intros Hl. by apply (is_list_linked m h l1 (x :: l2)) in Hl as [_ Hl]. Qed.

Lemma next_head l : is_list m h l -> next_of m h = Some (after l h).
Proof. intros Hl. by apply (is_list_linked m h [] l) in Hl as [Hl _]. Qed.

Lemma prev_head l : is_list m h l -> prev_of m h = Some (before l h).
Proof. intros Hl. rewrite <- (app_nil_r l) in Hl. by apply is_list_linked in Hl as [_ Hl]. Qed.

(** An entry is never the head. *)
Lemma after_head l1 l2 : is_list m h (l1 ++ l2) -> (after l2 h =? h) = bool_decide (l2 = []).
Proof.
  intros (Hnd & _). destruct l2 as [|y l2]; [cbn; by rewrite Z.eqb_refl|]. rewrite bool_decide_false by done. cbn [List.hd].
  apply Z.eqb_neq. intros ->. apply NoDup_cons in Hnd as [Hh _]. set_solver.
Qed.

Lemma before_head l1 l2 : is_list m h (l1 ++ l2) -> (before l1 h =? h) = bool_decide (l1 = []).
Proof.
  intros (Hnd & _). destruct l1 as [|y l1 _] using rev_ind; [cbn; by rewrite Z.eqb_refl|]. rewrite List.last_last. rewrite bool_decide_false by (by destruct l1).
  apply Z.eqb_neq. intros ->. apply NoDup_cons in Hnd as [Hh _]. set_solver.
Qed.
End lists.

Lemma cleared_loose m L x : holds m L -> x ∈ cleared L -> loose L x.
Proof.
  intros [Hl _ Hc] Hx h l Hh Hin. pose proof (Hl h l Hh) as His. destruct (entry_next m h l x His Hin) as (n & Hn & Hnl).
  unfold next_of in Hn. rewrite (Hc x Hx) in Hn. injection Hn as <-. by destruct His as (_ & His & _).
Qed.

(** One list changed, the nodes it had or has included. *)
Lemma holds_upd m m' L h l l' C :
  holds m L -> al L !! h = Some l -> is_list m' h l' ->
  (forall c, c ∈ l' -> c ∈ l \/ loose L c) ->
  (forall c, c ∉ h :: l -> c ∉ l' -> m' !! c = m !! c) ->
  (forall c, c ∈ C -> (c ∈ cleared L /\ c ∉ l') \/ m' !! c = Some (Node NULL NULL)) ->
  holds m' (upd L h l' C).
Proof.
  intros HL Hh Hl' Hnew Hsame HC. pose proof HL as [Hl Hd Hc]. constructor; cbn [al cleared upd].
  - intros h2 l2. destruct (decide (h2 = h)) as [->|Hne]; [rewrite lookup_insert_eq; by intros [= <-]|].
    rewrite lookup_insert_ne by done. intros H2. eapply is_list_frame; [by apply Hl|].
    intros c Hin. apply Hsame; intros Hin2; apply Hne; [by eapply Hd|].
    destruct (Hnew c Hin2) as [Hc2|Hc2]; [eapply (Hd _ _ _ _ c H2 Hh); set_solver|by destruct (Hc2 h2 l2 H2)].
  - intros h1 h2 l1 l2 c. destruct (decide (h1 = h)) as [->|Hne1]; destruct (decide (h2 = h)) as [->|Hne2]; rewrite ?lookup_insert_eq, ?lookup_insert_ne by done.
    + done.
    + intros [= <-] H2 Hin1 Hin2. apply elem_of_cons in Hin1 as [->|Hin1]; [eapply (Hd h h2); [done|done| |exact Hin2]; set_solver|].
      destruct (Hnew c Hin1) as [H|H]; [eapply (Hd h h2); [done|done| |exact Hin2]; set_solver|by destruct (H h2 l2 H2)].
    + intros H1 [= <-] Hin1 Hin2. apply elem_of_cons in Hin2 as [->|Hin2]; [eapply (Hd h1 h); [done|done|exact Hin1|]; set_solver|].
      destruct (Hnew c Hin2) as [H|H]; [eapply (Hd h1 h); [done|done|exact Hin1|]; set_solver|by destruct (H h1 l1 H1)].
    + intros H1 H2. by eapply Hd.
  - intros c Hin. destruct (HC c Hin) as [[Hcl Hnl]|H]; [|done]. rewrite Hsame; [by apply Hc|by eapply cleared_loose|done].
Qed.

(** The two changes of a list. *)
Lemma holds_inserted m m' L h l1 l2 x :
  holds m L -> al L !! h = Some (l1 ++ l2) -> loose L x -> x <> NULL ->
  inserted (before l1 h) x (after l2 h) m m' -> holds m' (upd L h (l1 ++ x :: l2) (cleared L ∖ {[x]})).
Proof.
  intros HL Hh Hx Hx0 Hi. pose proof (hd_lists _ _ HL h _ Hh) as Hl. pose proof (Hx h _ Hh) as Hxl.
  pose proof (before_elem h l1). pose proof (after_elem h l2). eapply holds_upd; [done|done| | | |].
  - by eapply is_list_inserted.
  - intros c Hin. destruct (decide (c = x)) as [->|]; [by right|left; set_solver].
  - intros c H1 H2. eapply inserted_frame; [done|set_solver..].
  - intros c Hc. left. split; [set_solver|]. assert (Hl2 : loose L c) by (eapply cleared_loose; [done|set_solver]).
    specialize (Hl2 h _ Hh). set_solver.
Qed.

Lemma removed_node e x b m m' : removed e x b m m' -> m' !! x = Some (Node NULL NULL).
Proof.
  intros [Hn Hp _]. specialize (Hn x). specialize (Hp x). rewrite bool_decide_true in Hn, Hp by done.
  unfold next_of, prev_of in *. destruct (m' !! x) as [[]|]; cbn in *; congruence.
Qed.

Lemma holds_removed m m' L h l1 x l2 :
  holds m L -> al L !! h = Some (l1 ++ x :: l2) ->
  removed (before l1 h) x (after l2 h) m m' -> holds m' (upd L h (l1 ++ l2) (cleared L ∪ {[x]})).
Proof.
  intros HL Hh Hr. pose proof (hd_lists _ _ HL h _ Hh) as Hl.
  pose proof (before_elem h l1). pose proof (after_elem h l2). eapply holds_upd; [done|done| | | |].
  - by eapply is_list_removed.
  - intros c Hin. left. set_solver.
  - intros c H1 H2. eapply removed_frame; [done|set_solver..].
  - intros c [Hc| ->%elem_of_singleton]%elem_of_union; [left|right; by eapply removed_node].
    split; [done|]. assert (Hl2 : loose L c) by (by eapply cleared_loose). specialize (Hl2 h _ Hh). set_solver.
Qed.

(** ** The operations *)

Section operations.
Context (m : nodes) (L : alists).
Hypothesis (HL : holds m L).

Lemma loose_ne h l x : al L !! h = Some l -> loose L x -> x <> h /\ x ∉ l.
Proof. intros Hh Hx. specialize (Hx h l Hh). set_solver. Qed.

Lemma add_head_holds h l1 l2 x :
  al L !! h = Some (l1 ++ l2) -> loose L x -> x <> NULL -> x ∈ dom m ->
  exists m', list_add_head (before l1 h) x m = (Ret tt, m') /\ dom m' = dom m /\ holds m' (upd L h (l1 ++ x :: l2) (cleared L ∖ {[x]})).
Proof.
  intros Hh Hx Hx0 Hd. pose proof (hd_lists _ _ HL h _ Hh) as Hl. pose proof (Hx h _ Hh) as Hxl.
  pose proof (before_elem h l1). pose proof (after_elem h l2).
  destruct (list_add_head_run m (before l1 h) x (after l2 h)) as (m' & E & Hi); [by apply is_list_linked|done|set_solver|set_solver|].
  exists m'. split_and!; [done|by destruct Hi|by eapply holds_inserted].
Qed.

Lemma add_tail_holds h l1 l2 x :
  al L !! h = Some (l1 ++ l2) -> loose L x -> x <> NULL -> x ∈ dom m ->
  exists m', list_add_tail (after l2 h) x m = (Ret tt, m') /\ dom m' = dom m /\ holds m' (upd L h (l1 ++ x :: l2) (cleared L ∖ {[x]})).
Proof.
  intros Hh Hx Hx0 Hd. pose proof (hd_lists _ _ HL h _ Hh) as Hl. pose proof (Hx h _ Hh) as Hxl.
  pose proof (before_elem h l1). pose proof (after_elem h l2).
  destruct (list_add_tail_run m (before l1 h) x (after l2 h)) as (m' & E & Hi); [by apply is_list_linked|done|set_solver|set_solver|].
  exists m'. split_and!; [done|by destruct Hi|by eapply holds_inserted].
Qed.

Lemma delete_holds h l1 x l2 :
  al L !! h = Some (l1 ++ x :: l2) ->
  exists m', list_delete x m = (Ret tt, m') /\ dom m' = dom m /\ holds m' (upd L h (l1 ++ l2) (cleared L ∪ {[x]})).
Proof.
  intros Hh. pose proof (hd_lists _ _ HL h _ Hh) as Hl.
  pose proof (before_elem h l1). pose proof (after_elem h l2). assert (Hnd := proj1 Hl).
  assert (Hperm : h :: l1 ++ x :: l2 ≡ₚ x :: h :: l1 ++ l2) by solve_Permutation. rewrite Hperm in Hnd. apply NoDup_cons in Hnd as [Hx _].
  destruct (list_delete_run m (before l1 h) x (after l2 h)) as (m' & E & Hr); [by apply (is_list_linked m h l1 (x :: l2))| |set_solver|set_solver|].
  - replace (l1 ++ x :: l2) with ((l1 ++ [x]) ++ l2) in Hl by (by rewrite <- app_assoc).
    apply is_list_linked in Hl. by rewrite List.last_last in Hl.
  - exists m'. split_and!; [done|by destruct Hr|by eapply holds_removed].
Qed.
End operations.

Lemma initialize_holds m L h :
  holds m L -> loose L h -> h <> NULL -> h ∈ dom m ->
  exists m', list_initialize h m = (Ret tt, m') /\ dom m' = dom m /\ holds m' (upd L h [] (cleared L ∖ {[h]})).
Proof.
  intros [Hl Hd Hc] Hh Hh0 Hdom. unfold list_initialize, bind. store_next; [done|]. store_prev; [by rewrite (sn_dom _ _ _ _ S)|].
  assert (Hfr : forall c, c <> h -> m1 !! c = m !! c).
  { intros c Hne. apply node_ext; [rewrite (sp_next _ _ _ _ S0), (sn_next _ _ _ _ S)|rewrite (sp_prev _ _ _ _ S0), (sn_prev _ _ _ _ S)]; by rewrite bool_decide_false. }
  exists m1. split_and!; [done|by rewrite (sp_dom _ _ _ _ S0), (sn_dom _ _ _ _ S)|]. constructor; cbn [al cleared upd].
  - intros h2 l2. destruct (decide (h2 = h)) as [->|Hne]; [rewrite lookup_insert_eq; intros [= <-]|rewrite lookup_insert_ne by done].
    + split_and!; [apply NoDup_singleton|set_solver|]. cbn. split; [|done].
      split; [by rewrite (sp_next _ _ _ _ S0), (sn_next _ _ _ _ S), bool_decide_true|by rewrite (sp_prev _ _ _ _ S0), bool_decide_true].
    + intros H2. eapply is_list_frame; [by apply Hl|]. intros c Hin. apply Hfr. intros ->. by apply (Hh h2 l2).
  - intros h1 h2 l1 l2 c. destruct (decide (h1 = h)) as [->|Hne1]; destruct (decide (h2 = h)) as [->|Hne2]; rewrite ?lookup_insert_eq, ?lookup_insert_ne by done.
    + done.
    + intros [= <-] H2 ->%list_elem_of_singleton Hin2. by destruct (Hh h2 l2).
    + intros H1 [= <-] Hin1 ->%list_elem_of_singleton. by destruct (Hh h1 l1).
    + intros H1 H2. by eapply Hd.
  - intros c Hin. rewrite Hfr by set_solver. apply Hc. set_solver.
Qed.

Lemma clear_node_holds m L x :
  holds m L -> loose L x -> x ∈ dom m ->
  exists m', list_clear_node x m = (Ret tt, m') /\ dom m' = dom m /\ holds m' (ALists (al L) (cleared L ∪ {[x]})).
Proof.
  intros [Hl Hd Hc] Hx Hdom. unfold list_clear_node, bind. store_next; [done|]. store_prev; [by rewrite (sn_dom _ _ _ _ S)|].
  assert (Hfr : forall c, c <> x -> m1 !! c = m !! c).
  { intros c Hne. apply node_ext; [rewrite (sp_next _ _ _ _ S0), (sn_next _ _ _ _ S)|rewrite (sp_prev _ _ _ _ S0), (sn_prev _ _ _ _ S)]; by rewrite bool_decide_false. }
  exists m1. split_and!; [done|by rewrite (sp_dom _ _ _ _ S0), (sn_dom _ _ _ _ S)|]. constructor; cbn [al cleared].
  - intros h l Hh. eapply is_list_frame; [by apply Hl|]. intros c Hin. apply Hfr. intros ->. by apply (Hx h l).
  - done.
  - intros c Hin. destruct (decide (c = x)) as [->|Hne]; [|rewrite Hfr by done; apply Hc; set_solver].
    assert (Hn := sp_next _ _ _ _ S0 x). assert (Hp := sp_prev _ _ _ _ S0 x). rewrite (sn_next _ _ _ _ S), bool_decide_true in Hn by done.
    rewrite bool_decide_true in Hp by done. unfold next_of, prev_of in Hn, Hp. destruct (m1 !! x) as [[]|]; cbn in *; congruence.
Qed.

(** ** Walks *)

Lemma length_size m h l : is_list m h l -> (length l < size m)%nat.
Proof.
  intros Hl. assert (Hnd := proj1 Hl). apply NoDup_cons in Hnd as [Hh Hnd].
  assert (Hs : list_to_set (C := gset Z) (h :: l) ⊆ dom m) by (intros c Hc%elem_of_list_to_set; by eapply entry_dom).
  apply subseteq_size in Hs. rewrite size_list_to_set in Hs by (by apply NoDup_cons). rewrite size_dom in Hs. cbn in Hs. lia.
Qed.

Lemma length_walk m h l1 l2 fuel cnt :
  is_list m h (l1 ++ l2) -> (length l2 < fuel)%nat -> u32 cnt = cnt ->
  length_from fuel h (after l2 h) cnt m = (Ret (u32 (cnt + Z.of_nat (length l2))), m).
Proof.
  revert l1 fuel cnt. induction l2 as [|x l2 IH]; intros l1 [|fuel] cnt Hl Hf Hc; cbn in Hf; try lia.
  - cbn. rewrite Z.eqb_refl, Z.add_0_r, Hc. done.
  - cbn [length_from List.hd]. pose proof (after_head m h l1 (x :: l2) Hl) as Hx. cbn [List.hd] in Hx. rewrite Hx, bool_decide_false by done.
    unfold bind. rewrite (get_next_run _ _ _ (next_entry _ _ _ _ _ Hl)). cbn beta iota.
    replace (l1 ++ x :: l2) with ((l1 ++ [x]) ++ l2) in Hl by (by rewrite <- app_assoc).
    rewrite (IH (l1 ++ [x])); [|done|lia|unfold u32; by rewrite Zmod_mod]. do 2 f_equal. unfold u32.
    rewrite Zplus_mod_idemp_l. f_equal. cbn. lia.
Qed.

Lemma next_places m h l1 x l2 : is_list m h (l1 ++ x :: l2) -> is_list m h ((l1 ++ [x]) ++ l2).
Proof. by rewrite <- app_assoc. Qed.

(** The answer of a peek or a step, which is NULL at the end of the list. *)
Lemma after_or_null m h l1 l2 : is_list m h (l1 ++ l2) -> (if after l2 h =? h then NULL else after l2 h) = List.hd NULL l2.
Proof. intros Hl. rewrite (after_head m h l1 l2 Hl). by destruct l2. Qed.

Lemma before_or_null m h l1 l2 : is_list m h (l1 ++ l2) -> (if before l1 h =? h then NULL else before l1 h) = List.last l1 NULL.
Proof.
  intros Hl. rewrite (before_head m h l1 l2 Hl). destruct l1 as [|y l1 _] using rev_ind; [done|]. rewrite bool_decide_false by (by destruct l1). by rewrite !List.last_last.
Qed.

Section reads.
Context (m : nodes) (h : Z).

Lemma peek_head_run l : is_list m h l -> list_peek_head h m = (Ret (List.hd NULL l), m).
Proof. intros Hl. unfold list_peek_head, bind, ret. rewrite (get_next_run _ _ _ (next_head _ _ _ Hl)). cbn beta iota. by rewrite (after_or_null m h [] l). Qed.

Lemma peek_tail_run l : is_list m h l -> list_peek_tail h m = (Ret (List.last l NULL), m).
Proof.
  intros Hl. unfold list_peek_tail, bind, ret. rewrite (get_prev_run _ _ _ (prev_head _ _ _ Hl)). cbn beta iota.
  rewrite (before_or_null m h l []); [done|by rewrite app_nil_r].
Qed.

Lemma next_run l1 x l2 : is_list m h (l1 ++ x :: l2) -> list_next h x m = (Ret (List.hd NULL l2), m).
Proof.
  intros Hl. unfold list_next, bind, ret. rewrite (get_next_run _ _ _ (next_entry _ _ _ _ _ Hl)). cbn beta iota.
  by rewrite (after_or_null m h (l1 ++ [x]) l2) by by apply next_places.
Qed.

Lemma prev_run l1 x l2 : is_list m h (l1 ++ x :: l2) -> list_prev h x m = (Ret (List.last l1 NULL), m).
Proof.
  intros Hl. unfold list_prev, bind, ret. rewrite (get_prev_run _ _ _ (prev_entry _ _ _ _ _ Hl)). cbn beta iota.
  by rewrite (before_or_null m h l1 (x :: l2)).
Qed.

Lemma next_wrap_run l1 x l2 : is_list m h (l1 ++ x :: l2) -> list_next_wrap h x m = (Ret (List.hd (List.hd x l1) l2), m).
Proof.
  intros Hl. unfold list_next_wrap, bind, ret. rewrite (get_next_run _ _ _ (next_entry _ _ _ _ _ Hl)). cbn beta iota.
  rewrite (after_head m h (l1 ++ [x]) l2) by by apply next_places. destruct l2 as [|y l2]; [|done]. cbn [List.hd].
  rewrite bool_decide_true by done. cbn [negb]. rewrite (get_next_run _ _ _ (next_head _ _ _ Hl)). cbn beta iota.
  rewrite (after_or_null m h [] _ Hl). by destruct l1.
Qed.

Lemma prev_wrap_run l1 x l2 : is_list m h (l1 ++ x :: l2) -> list_prev_wrap h x m = (Ret (List.last l1 (List.last l2 x)), m).
Proof.
  intros Hl. unfold list_prev_wrap, bind, ret. rewrite (get_prev_run _ _ _ (prev_entry _ _ _ _ _ Hl)). cbn beta iota.
  rewrite (before_head m h l1 (x :: l2)) by done. destruct l1 as [|y l1 _] using rev_ind.
  - rewrite bool_decide_true by done. cbn [negb List.last]. rewrite (get_prev_run _ _ _ (prev_head _ _ _ Hl)). cbn beta iota.
    rewrite (before_or_null m h ([] ++ x :: l2) []) by by rewrite app_nil_r. destruct l2 as [|z l2 _] using rev_ind; [done|].
    change ([] ++ x :: l2 ++ [z]) with ((x :: l2) ++ [z]). by rewrite !List.last_last.
  - rewrite bool_decide_false by (by destruct l1). cbn [negb]. by rewrite !List.last_last.
Qed.

Lemma is_empty_run l : is_list m h l -> list_is_empty h m = (Ret (bool_decide (l = [])), m).
Proof. intros Hl. unfold list_is_empty, bind, ret. rewrite (get_next_run _ _ _ (next_head _ _ _ Hl)). cbn beta iota. by rewrite (after_head m h [] l). Qed.

Lemma list_length_run l : is_list m h l -> list_length h m = (Ret (u32 (Z.of_nat (length l))), m).
Proof.
  intros Hl. unfold list_length, bind, get. cbn beta iota. rewrite (get_next_run _ _ _ (next_head _ _ _ Hl)). cbn beta iota.
  rewrite (length_walk m h [] l); [done|done| |done]. pose proof (length_size _ _ _ Hl). lia.
Qed.

Lemma in_list_run x : (exists l, is_list m h l /\ x ∈ h :: l) -> list_in_list x m = (Ret true, m).
Proof.
  intros (l & Hl & Hx). unfold list_in_list, bind, ret. destruct (entry_next m h l x Hl Hx) as (n & Hn & Hnl).
  assert (exists p, prev_of m x = Some p) as [p Hp].
  { destruct (after_place h l x Hx) as (l1 & l2 & -> & ->). destruct (is_list_linked _ _ _ _ Hl). eauto. }
  rewrite (get_prev_run _ _ _ Hp). cbn beta iota. rewrite (get_next_run _ _ _ Hn). cbn beta iota.
  assert (n <> NULL) by (intros ->; by destruct Hl as (_ & Hl & _)). rewrite (proj2 (Z.eqb_neq n NULL)) by done. by rewrite andb_false_r.
Qed.
End reads.

Lemma remove_head_holds m L h x l :
  holds m L -> al L !! h = Some (x :: l) ->
  exists m', list_remove_head h m = (Ret x, m') /\ dom m' = dom m /\ holds m' (upd L h l (cleared L ∪ {[x]})).
Proof.
  intros HL Hh. pose proof (hd_lists _ _ HL h _ Hh) as Hl. unfold list_remove_head, bind. rewrite (get_next_run _ _ _ (next_head _ _ _ Hl)). cbn beta iota.
  rewrite (after_head m h [] _ Hl), bool_decide_false by done. cbn [List.hd]. destruct (delete_holds m L HL h [] x l Hh) as (m' & -> & Hd & HL').
  by exists m'.
Qed.

Lemma remove_tail_holds m L h x l :
  holds m L -> al L !! h = Some (l ++ [x]) ->
  exists m', list_remove_tail h m = (Ret x, m') /\ dom m' = dom m /\ holds m' (upd L h l (cleared L ∪ {[x]})).
Proof.
  intros HL Hh. pose proof (hd_lists _ _ HL h _ Hh) as Hl. unfold list_remove_tail, bind. rewrite (get_prev_run _ _ _ (prev_head _ _ _ Hl)). cbn beta iota.
  rewrite (before_head m h (l ++ [x]) []) by by rewrite app_nil_r. rewrite bool_decide_false by (by destruct l). rewrite List.last_last.
  destruct (delete_holds m L HL h l x [] Hh) as (m' & -> & Hd & HL'). rewrite app_nil_r in HL'. by exists m'.
Qed.

(** The node an operation links or clears, when it is one the lists do not have. *)
Definition op_node {A} (o : list_op A) : option Z :=
  match o with
  | Initialize x | ClearNode x | AddHead _ x | AddTail _ x | AddAfter _ x | AddBefore _ x => Some x
  | _ => None
  end.

Lemma in_list_cleared m L x : holds m L -> x ∈ cleared L -> list_in_list x m = (Ret false, m).
Proof.
  intros HL Hx. pose proof (hd_cleared _ _ HL x Hx) as Hm. unfold list_in_list, bind, ret.
  rewrite (get_prev_run m x NULL) by (unfold prev_of; by rewrite Hm). cbn beta iota.
  by rewrite (get_next_run m x NULL) by (unfold next_of; by rewrite Hm).
Qed.

(** The state after an operation that reads. *)
Ltac unchanged := match goal with |- exists m', _ ?m = _ /\ _ => exists m end; split_and!; [|done|done].

(** C30: Every operation on the nodes in memory does to the lists they are, and answers,
    what the operation on lists does: insertion at either end, after and before any
    entry, deletion, removal at either end, the peeks and the steps (with and without
    wrapping), the emptiness and membership tests and the length modulo 2^32.  Other
    lists and the cleared nodes are as they were. *)
Theorem list_refines A (o : list_op A) m L v L' :
  holds m L -> list_spec o L v L' -> (forall x, op_node o = Some x -> x ∈ dom m) ->
  exists m', run_list_op o m = (Ret v, m') /\ dom m' = dom m /\ holds m' L'.
Proof.
  intros HL Hs Hop. pose proof (hd_lists _ _ HL) as Hl.
  destruct Hs as [L h|L x|L h l x Hh|L x Hx|L h l x Hh|L h l x Hh|L h l1 e l2 x Hh|L h l1 e l2 x Hh|L h l1 x l2 Hh|L h Hh|L h x l Hh|L h Hh
    |L h l x Hh|L h l Hh|L h l Hh|L h l1 x l2 Hh|L h l1 x l2 Hh|L h l1 x l2 Hh|L h l1 x l2 Hh|L h l Hh|L h l Hh]; cbn [run_list_op]; try specialize (Hl h _ Hh).
  - apply initialize_holds; auto.
  - apply clear_node_holds; auto.
  - unchanged. apply (in_list_run m h). eauto.
  - unchanged. by eapply in_list_cleared.
  - apply (add_head_holds m L HL h [] l x); auto.
  - apply (add_tail_holds m L HL h l [] x); rewrite ?app_nil_r; auto.
  - destruct (add_head_holds m L HL h (l1 ++ [e]) l2 x) as (m' & H1 & H2 & H3); rewrite <- ?app_assoc; auto. rewrite List.last_last in H1. rewrite <- app_assoc in H3. eauto.
  - apply (add_tail_holds m L HL h l1 (e :: l2) x); auto.
  - by apply delete_holds.
  - unchanged. unfold list_remove_head, bind. rewrite (get_next_run _ _ _ (next_head _ _ _ Hl)). cbn. by rewrite Z.eqb_refl.
  - by apply remove_head_holds.
  - unchanged. unfold list_remove_tail, bind. rewrite (get_prev_run _ _ _ (prev_head _ _ _ Hl)). cbn. by rewrite Z.eqb_refl.
  - by apply remove_tail_holds.
  - unchanged. by apply peek_head_run.
  - unchanged. by apply peek_tail_run.
  - unchanged. by eapply prev_run.
  - unchanged. by eapply next_run.
  - unchanged. by apply prev_wrap_run.
  - unchanged. by apply next_wrap_run.
  - unchanged. by apply is_empty_run.
  - unchanged. by apply list_length_run.
Qed.

(** ** The iteration macros *)

Section for_every.
Context (h : Z) (body : Z -> LM unit).

Lemma for_every_walk l1 l2 fuel m :
  is_list m h (l1 ++ l2) -> (length l2 < fuel)%nat ->
  (forall x m1 r m2, x ∈ l2 -> is_list m1 h (l1 ++ l2) -> body x m1 = (Ret r, m2) -> is_list m2 h (l1 ++ l2)) ->
  for_every_from fuel h (after l2 h) body m = for_each l2 body m.
Proof.
  revert l1 fuel m. induction l2 as [|x l2 IH]; intros l1 [|fuel] m Hl Hf Hb; cbn in Hf; try lia.
  - cbn. by rewrite Z.eqb_refl.
  - cbn [for_every_from for_each List.hd]. pose proof (after_head m h l1 (x :: l2) Hl) as Hx. cbn [List.hd] in Hx. rewrite Hx, bool_decide_false by done.
    unfold bind. destruct (body x m) as [[[]| | | |] m1] eqn:E; try done. cbn beta iota.
    assert (Hl1 : is_list m1 h (l1 ++ x :: l2)) by (apply (Hb x m tt m1); [set_solver|exact Hl|exact E]).
    rewrite (get_next_run _ _ _ (next_entry _ _ _ _ _ Hl1)). cbn beta iota.
    apply (IH (l1 ++ [x])); [by apply next_places|lia|]. intros y m2 r m3 Hy. rewrite <- app_assoc. apply Hb. set_solver.
Qed.
End for_every.

Lemma list_for_every_visits h l body m :
  is_list m h l ->
  (forall x m1 r m2, x ∈ l -> is_list m1 h l -> body x m1 = (Ret r, m2) -> is_list m2 h l) ->
  list_for_every h body m = for_each l body m.
Proof.
  intros Hl Hb. unfold list_for_every, bind, get. cbn beta iota. rewrite (get_next_run _ _ _ (next_head _ _ _ Hl)). cbn beta iota.
  apply (for_every_walk h body []); [exact Hl| |exact Hb]. pose proof (length_size _ _ _ Hl). lia.
Qed.

(** The next pointers along some entries. *)
Fixpoint nexts (m : nodes) (xs : list Z) : Prop :=
  match xs with a :: ((b :: _) as xs') => next_of m a = Some b /\ nexts m xs' | _ => True end.

Lemma chain_nexts m xs : chain m xs -> nexts m xs.
Proof. induction xs as [|a [|b xs] IH]; [done|done|]. intros [[H _] Hc]. split; [done|by apply IH]. Qed.

Lemma nexts_head m (xs : list Z) x h : nexts m (x :: xs ++ [h]) -> next_of m x = Some (after xs h) /\ nexts m (xs ++ [h]).
Proof. destruct xs; cbn; tauto. Qed.

Section for_every_safe.
(** What the body keeps: the entries to come are linked up to the head. *)
Context (h : Z) (body : Z -> LM unit) (I : list Z -> nodes -> Prop).
Hypothesis (HI : forall rest m, I rest m -> nexts m (rest ++ [h]) /\ h ∈ dom m).
Hypothesis (Hbody : forall x rest m1 r m2, I (x :: rest) m1 -> body x m1 = (Ret r, m2) -> I rest m2).

Lemma for_every_safe_walk (rest : list Z) fuel m temp :
  I rest m -> h ∉ rest -> (length rest < fuel)%nat -> (rest = [] \/ temp = after (tail rest) h) ->
  for_every_safe_from fuel h (after rest h) temp body m = for_each rest body m.
Proof.
  revert fuel m temp. induction rest as [|x rest IH]; intros [|fuel] m temp Hi Hh Hf Ht; cbn in Hf; try lia.
  - cbn. by rewrite Z.eqb_refl.
  - destruct Ht as [?| ->]; [done|]. cbn [for_every_safe_from for_each List.hd tail].
    rewrite (proj2 (Z.eqb_neq x h)) by (intros ->; set_solver). unfold bind.
    destruct (body x m) as [[[]| | | |] m1] eqn:E; try done. cbn beta iota.
    pose proof (Hbody _ _ _ _ _ Hi E) as Hi1. destruct (HI _ _ Hi1) as [Hn1 Hd1].
    assert (exists t, get_next (after rest h) m1 = (Ret t, m1) /\ (rest = [] \/ t = after (tail rest) h)) as (t & -> & Ht).
    { destruct rest as [|y rest]; cbn [List.hd tail].
      - apply elem_of_dom in Hd1 as [[p n] Hnode]. exists n. split; [|by left]. apply get_next_run. unfold next_of. by rewrite Hnode.
      - apply nexts_head in Hn1 as [Hy _]. eexists. split; [by apply get_next_run|by right]. }
    cbn beta iota. apply IH; [done|set_solver|lia|done].
Qed.
End for_every_safe.

(** list_for_every_safe visits the entries the list has at its start, in order, when
    the body at an entry leaves the ones after it linked ([I]): it may unlink the
    entry, or free it. *)
Theorem list_for_every_safe_visits h l body m (I : list Z -> nodes -> Prop) :
  is_list m h l -> I l m ->
  (forall rest m, I rest m -> nexts m (rest ++ [h]) /\ h ∈ dom m) ->
  (forall x rest m1 r m2, I (x :: rest) m1 -> body x m1 = (Ret r, m2) -> I rest m2) ->
  list_for_every_safe h body m = for_each l body m.
Proof.
  intros Hl Hi HI Hb. unfold list_for_every_safe, bind, get. cbn beta iota. rewrite (get_next_run _ _ _ (next_head _ _ _ Hl)). cbn beta iota.
  destruct (entry_next m h l (after l h) Hl (after_elem h l)) as (t & Ht & _). rewrite (get_next_run _ _ _ Ht). cbn beta iota.
  pose proof (length_size _ _ _ Hl) as Hs. destruct Hl as (Hnd & _). apply NoDup_cons in Hnd as [Hh _].
  eapply for_every_safe_walk; [exact HI|exact Hb|done|done|lia|]. destruct (HI _ _ Hi) as [Hn _].
  destruct l as [|x l]; [by left|right]. apply nexts_head in Hn as [Hx _]. cbn [List.hd] in Ht. rewrite Hx in Ht. by injection Ht.
Qed.

(** Unlinking an entry as it is visited is such a body. *)
Lemma is_list_nexts m h l : is_list m h l -> nexts m (l ++ [h]) /\ h ∈ dom m.
Proof.
  intros Hl. split; [|eapply entry_dom; [done|set_solver]]. destruct Hl as (_ & _ & Hc). apply chain_nexts in Hc. by destruct l; [|apply Hc].
Qed.

Lemma delete_first x rest h m1 r m2 : is_list m1 h (x :: rest) -> list_delete x m1 = (Ret r, m2) -> is_list m2 h rest.
Proof.
  intros Hl E. set (L := ALists {[h := x :: rest]} ∅). assert (HL : holds m1 L).
  { constructor; cbn.
    - intros h' l'. rewrite lookup_singleton_Some. by intros [-> <-].
    - intros h1 h2 l1 l2 c. rewrite !lookup_singleton_Some. by intros [-> _] [-> _].
    - set_solver. }
  destruct (delete_holds m1 L HL h [] x rest) as (m' & E' & _ & HL'); [apply lookup_singleton_eq|].
  rewrite E in E'. injection E' as _ <-. apply (hd_lists _ _ HL'). cbn. by rewrite lookup_insert_eq.
Qed.

(** ** A memory with two lists *)

Definition node_mem : nodes :=
  list_to_map [(1, Node 4 2); (2, Node 1 3); (3, Node 2 4); (4, Node 3 1); (5, Node 6 6); (6, Node 5 5); (7, Node 0 0)].
Definition node_lists : alists := ALists (list_to_map [(1, [2; 3; 4]); (5, [6])]) {[7]}.

Lemma node_mem_list h l : al node_lists !! h = Some l -> is_list node_mem h l.
Proof.
  unfold node_lists. cbn. rewrite lookup_insert_Some. intros [[<- <-]|[_ H]].
  - split_and!; [by apply (bool_decide_unpack _)|by apply (bool_decide_unpack _)|by repeat split].
  - apply lookup_insert_Some in H as [[<- <-]|[_ H]]; [|done].
    split_and!; [by apply (bool_decide_unpack _)|by apply (bool_decide_unpack _)|by repeat split].
Qed.

Lemma node_mem_holds : holds node_mem node_lists.
Proof.
  constructor; [exact node_mem_list| |].
  - unfold node_lists. cbn. intros h h' l l' c H1 H2. apply lookup_insert_Some in H1 as [[<- <-]|[_ H1]]; [|apply lookup_insert_Some in H1 as [[<- <-]|[_ H1]]; [|done]];
      (apply lookup_insert_Some in H2 as [[<- <-]|[_ H2]]; [|apply lookup_insert_Some in H2 as [[<- <-]|[_ H2]]; [|done]]); try done; rewrite !elem_of_cons, ?elem_of_nil; lia.
  - cbn. intros x ->%elem_of_singleton. by vm_compute.
Qed.

Lemma list_refines_witness :
  (exists m', list_add_after 3 7 node_mem = (Ret tt, m') /\ dom m' = dom node_mem /\ holds m' (upd node_lists 1 [2; 3; 7; 4] ∅)) /\
  (exists m', list_next_wrap 1 4 node_mem = (Ret 2, m') /\ dom m' = dom node_mem /\ holds m' node_lists).
Proof.
  split.
  - apply (list_refines unit (AddAfter 3 7) node_mem node_lists tt); [exact node_mem_holds| |intros x [= <-]; apply elem_of_dom_2 with (Node 0 0); by vm_compute].
    replace ∅ with (cleared node_lists ∖ {[7]}) by (by vm_compute). apply (SAddAfter node_lists 1 [2] 3 [4] 7); [by vm_compute| |done].
    apply (cleared_loose node_mem); [exact node_mem_holds|]. cbn. set_solver.
  - apply (list_refines Z (NextWrap 1 4) node_mem node_lists 2); [exact node_mem_holds| |done].
    by apply (SNextWrap node_lists 1 [2; 3] 4 []).
Defined.

Lemma list_for_every_safe_visits_witness :
  list_for_every_safe 1 list_delete node_mem = for_each [2; 3; 4] list_delete node_mem.
Proof.
  apply (list_for_every_safe_visits 1 [2; 3; 4] list_delete node_mem (fun rest m => is_list m 1 rest)).
  - by apply node_mem_list.
  - by apply node_mem_list.
  - intros rest m. apply is_list_nexts.
  - intros x rest m1 r m2. apply delete_first.
Defined.
