(* ===== verification/Port.v ===== *)
(** * kernel/port.c: named ports between threads

    A write port has a name; read ports are opened on it, and groups collect read
    ports.  Objects and buffers are in maps from addresses, so a pointer that
    outlives its object faults; what malloc returns is an argument of the call that
    needs it (NULL when it fails).  Queues of threads keep the contract of Mutex.v;
    the results of woken threads are in the threads and outlive the queue.  A call
    that blocks, or switches to a thread it woke, returns; the rest of it is a
    [_resume] or [_finish]. *)

From stdpp Require Import prelude list gmap.
From Stdlib Require Import ZArith Lia.
From S2P Require Import Prelude Pow2 Timer Kernel Mutex.

Open Scope Z_scope.
Open Scope lk_scope.

Definition NULL : Z := 0.

Definition ERR_NOT_FOUND : Z := -2.
Definition ERR_NO_MSG : Z := -4.
Definition ERR_NO_MEMORY : Z := -5.
Definition ERR_NOT_ENOUGH_BUFFER : Z := -9.
Definition ERR_ALREADY_EXISTS : Z := -14.
Definition ERR_NOT_ALLOWED : Z := -17.
Definition ERR_TOO_BIG : Z := -25.
Definition ERR_CANCELLED : Z := -26.
Definition ERR_BUSY : Z := -33.
Definition ERR_BAD_HANDLE : Z := -42.
Definition ERR_PARTIAL_WRITE : Z := -44.

(** ** Data *)

Definition WRITEPORT_MAGIC_W : Z := 0x70727477.
Definition WRITEPORT_MAGIC_X : Z := 0x70727478.
Definition READPORT_MAGIC : Z := 0x70727472.
Definition PORTGROUP_MAGIC : Z := 0x70727467.

Definition PORT_BUFF_SIZE : Z := 8.
Definition PORT_BUFF_SIZE_BIG : Z := 64.
Definition MAX_PORT_GROUP_COUNT : Z := 256.
Definition PORT_NAME_LEN : Z := 12.

Definition PORT_MODE_UNICAST : Z := 1.
Definition PORT_MODE_BIG_BUFFER : Z := 2.
(** PORT_MODE_BROADCAST is 0, so no mode has it. *)
Definition PORT_MODE_BROADCAST : Z := 0.

(** The bytes of a name, or of a packet. *)
Notation cstr := (list Z) (only parsing).
Notation port_packet := (list Z) (only parsing).

Record port_result := Port_result { res_ctx : Z; res_packet : port_packet }.

Record port_buf := Port_buf { log2 : Z; avail : Z; head : Z; tail : Z; packet : list port_packet }.

Record write_port := Write_port {
  wp_magic : Z;
  wp_buf : Z;
  wp_rp_list : list Z;
  wp_mode : Z;
  wp_name : cstr
}.
Record port_group := Port_group { pg_magic : Z; pg_wait : list tid; pg_rp_list : list Z }.
Record read_port := Read_port {
  rp_magic : Z;
  rp_buf : Z;
  rp_ctx : Z;
  rp_wait : list tid;
  rp_wport : Z;
  rp_gport : Z
}.

(** What a port_t points to. *)
Inductive port_obj := WritePort (w : write_port) | ReadPort (r : read_port) | PortGroup (g : port_group).

(** [thread_lock] and [ints]: the spin lock and whether interrupts are enabled. *)
Record ports := Ports {
  write_port_list : list Z;
  objs : gmap Z port_obj;
  bufs : gmap Z port_buf;
  woken : gmap tid Z;
  thread_lock : bool;
  ints : bool
}.

Definition PM (A : Type) : Type := M ports Empty_set A.

(** ** Memory *)

Definition set_list (l : list Z) : PM unit :=
  modify (fun s => Ports l (objs s) (bufs s) (woken s) (thread_lock s) (ints s)).
Definition set_objs (o : gmap Z port_obj) : PM unit :=
  modify (fun s => Ports (write_port_list s) o (bufs s) (woken s) (thread_lock s) (ints s)).
Definition set_bufs (b : gmap Z port_buf) : PM unit :=
  modify (fun s => Ports (write_port_list s) (objs s) b (woken s) (thread_lock s) (ints s)).

Definition get_obj (p : Z) : PM port_obj := let* s := get in deref (objs s !! p).
Definition put_obj (p : Z) (o : port_obj) : PM unit := let* s := get in set_objs (<[p := o]> (objs s)).
Definition get_buf (b : Z) : PM port_buf := let* s := get in deref (bufs s !! b).
Definition put_buf (b : Z) (x : port_buf) : PM unit := let* s := get in set_bufs (<[b := x]> (bufs s)).

Definition as_wp (o : port_obj) : option write_port := match o with WritePort w => Some w | _ => None end.
Definition as_rp (o : port_obj) : option read_port := match o with ReadPort r => Some r | _ => None end.
Definition as_pg (o : port_obj) : option port_group := match o with PortGroup g => Some g | _ => None end.

Definition get_wp (p : Z) : PM write_port := let* o := get_obj p in deref (as_wp o).
Definition get_rp (p : Z) : PM read_port := let* o := get_obj p in deref (as_rp o).
Definition get_pg (p : Z) : PM port_group := let* o := get_obj p in deref (as_pg o).

(** The first field of every object. *)
Definition magic (o : port_obj) : Z :=
  match o with WritePort w => wp_magic w | ReadPort r => rp_magic r | PortGroup g => pg_magic g end.
Definition get_magic (p : Z) : PM Z := let* o := get_obj p in ret (magic o).

Definition set_rp_gport (p g : Z) : PM unit :=
  let* r := get_rp p in put_obj p (ReadPort (Read_port (rp_magic r) (rp_buf r) (rp_ctx r) (rp_wait r) (rp_wport r) g)).
Definition set_rp_wport (p w : Z) : PM unit :=
  let* r := get_rp p in put_obj p (ReadPort (Read_port (rp_magic r) (rp_buf r) (rp_ctx r) (rp_wait r) w (rp_gport r))).
Definition set_rp_buf (p b : Z) : PM unit :=
  let* r := get_rp p in put_obj p (ReadPort (Read_port (rp_magic r) b (rp_ctx r) (rp_wait r) (rp_wport r) (rp_gport r))).
Definition set_rp_magic (p m : Z) : PM unit :=
  let* r := get_rp p in put_obj p (ReadPort (Read_port m (rp_buf r) (rp_ctx r) (rp_wait r) (rp_wport r) (rp_gport r))).
Definition set_wp_buf (p b : Z) : PM unit :=
  let* w := get_wp p in put_obj p (WritePort (Write_port (wp_magic w) b (wp_rp_list w) (wp_mode w) (wp_name w))).
Definition set_wp_magic (p m : Z) : PM unit :=
  let* w := get_wp p in put_obj p (WritePort (Write_port m (wp_buf w) (wp_rp_list w) (wp_mode w) (wp_name w))).
Definition set_wp_rp_list (p : Z) (l : list Z) : PM unit :=
  let* w := get_wp p in put_obj p (WritePort (Write_port (wp_magic w) (wp_buf w) l (wp_mode w) (wp_name w))).
Definition set_pg_rp_list (p : Z) (l : list Z) : PM unit :=
  let* g := get_pg p in put_obj p (PortGroup (Port_group (pg_magic g) (pg_wait g) l)).
Definition set_pg_magic (p m : Z) : PM unit :=
  let* g := get_pg p in put_obj p (PortGroup (Port_group m (pg_wait g) (pg_rp_list g))).

Definition free_obj (p : Z) : PM unit :=
  let* _ := get_obj p in let* s := get in set_objs (delete p (objs s)).
Definition free_buf (b : Z) : PM unit :=
  if b =? NULL then ret tt else let* _ := get_buf b in let* s := get in set_bufs (delete b (bufs s)).

(** The queue of threads in an object, as the wait queue it is. *)
Definition queue_of (o : port_obj) : option (list tid) :=
  match o with WritePort _ => None | ReadPort r => Some (rp_wait r) | PortGroup g => Some (pg_wait g) end.
Definition with_queue (o : port_obj) (q : list tid) : port_obj :=
  match o with
  | WritePort w => WritePort w
  | ReadPort r => ReadPort (Read_port (rp_magic r) (rp_buf r) (rp_ctx r) q (rp_wport r) (rp_gport r))
  | PortGroup g => PortGroup (Port_group (pg_magic g) q (pg_rp_list g))
  end.
Definition on_queue {A} (p : Z) (f : waitq -> A * waitq) : PM A :=
  let* o := get_obj p in
  let* q := deref (queue_of o) in
  let* s := get in
  let '(a, q') := f (Waitq q (woken s)) in
  put (Ports (write_port_list s) (<[p := with_queue o (waiting q')]> (objs s)) (bufs s) (results q') (thread_lock s) (ints s)) ;;
  ret a.

(** ** The lock *)

Definition set_lock (l i : bool) : PM unit :=
  modify (fun s => Ports (write_port_list s) (objs s) (bufs s) (woken s) l i).

(** Answers whether interrupts were on. *)
Definition THREAD_LOCK : PM bool := let* s := get in set_lock true false ;; ret (ints s).
Definition THREAD_UNLOCK (state : bool) : PM unit := let* s := get in set_lock false (state || ints s).

(** The threads that run while this one is switched out release the lock. *)
Definition switch_away : PM unit := set_lock false true.

(** ** Buffers *)

(** [b] is what malloc returns; it leaves the packets as they were. *)
Definition make_buf (big : bool) (b : Z) : PM Z :=
  let pk_count := if big then PORT_BUFF_SIZE_BIG else PORT_BUFF_SIZE in
  if b =? NULL then ret NULL
  else
    let* s := get in
    set_bufs (<[b := Port_buf (log2_uint pk_count) pk_count 0 0 (replicate (Z.to_nat pk_count) [])]> (bufs s)) ;;
    ret b.

Definition buf_is_empty (buf : port_buf) : bool := avail buf =? valpow2 (log2 buf).

(** The packets of an array that the loop reaches. *)
Fixpoint buf_store (packets : list port_packet) (ixs : list nat) (buf : port_buf) : option port_buf :=
  match ixs with
  | [] => Some buf
  | ix :: ixs' =>
      pk ← packets !! ix;
      _ ← packet buf !! Z.to_nat (tail buf);
      buf_store packets ixs'
        (Port_buf (log2 buf) (avail buf) (head buf) (modpow2 (u32 (tail buf + 1)) (log2 buf))
           (<[Z.to_nat (tail buf) := pk]> (packet buf)))
  end.

Definition buf_write (b : Z) (packets : list port_packet) (count : Z) : PM Z :=
  let* buf := get_buf b in
  if avail buf <? count then ret ERR_NOT_ENOUGH_BUFFER
  else
    let* buf := deref (buf_store packets (seq 0 (Z.to_nat count)) buf) in
    put_buf b (Port_buf (log2 buf) (u32 (avail buf - count)) (head buf) (tail buf) (packet buf)) ;;
    ret NO_ERROR.

Definition buf_read (b : Z) (pr : port_result) : PM (Z * port_result) :=
  let* buf := get_buf b in
  if buf_is_empty buf then ret (ERR_NO_MSG, pr)
  else
    let* pk := deref (packet buf !! Z.to_nat (head buf)) in
    put_buf b (Port_buf (log2 buf) (u32 (avail buf + 1)) (modpow2 (u32 (head buf + 1)) (log2 buf)) (tail buf) (packet buf)) ;;
    ret (NO_ERROR, Port_result (res_ctx pr) pk).

(** ** Making ports *)

Definition port_init : PM unit := set_list [].

Definition has_bit (mode bit : Z) : bool := negb (Z.land mode bit =? 0).

(** list_for_every_entry with strcmp. *)
Fixpoint find_port (name : cstr) (l : list Z) : PM (option Z) :=
  match l with
  | [] => ret None
  | wp :: l' =>
      let* w := get_wp wp in
      if bool_decide (wp_name w = name) then ret (Some wp) else find_port name l'
  end.

(** port_create up to the release of the lock: the answer, if it has one. *)
Definition port_create_lookup (name : option cstr) (mode : Z) (port : bool) : PM (option (Z * Z)) :=
  match name with
  | None => ret (Some (ERR_INVALID_ARGS, NULL))
  | Some name =>
      if negb port then ret (Some (ERR_INVALID_ARGS, NULL))
      else if has_bit mode PORT_MODE_BROADCAST && has_bit mode PORT_MODE_BIG_BUFFER then ret (Some (ERR_INVALID_ARGS, NULL))
      else if PORT_NAME_LEN <=? Z.of_nat (length name) then ret (Some (ERR_INVALID_ARGS, NULL))
      else
        let* state1 := THREAD_LOCK in
        let* s := get in
        let* found := find_port name (write_port_list s) in
        match found with
        | Some wp =>
            let* m := get_magic wp in
            THREAD_UNLOCK state1 ;;
            if m =? WRITEPORT_MAGIC_X then ret (Some (ERR_BUSY, NULL)) else ret (Some (ERR_ALREADY_EXISTS, wp))
        | None => THREAD_UNLOCK state1 ;; ret None
        end
  end.

(** The rest; [a] and [b] are what calloc and malloc return. *)
Definition port_create_new (name : cstr) (mode : Z) (a b : Z) : PM (Z * Z) :=
  if a =? NULL then ret (ERR_NO_MEMORY, NULL)
  else
    put_obj a (WritePort (Write_port WRITEPORT_MAGIC_W NULL [] mode name)) ;;
    let* buf := make_buf (has_bit mode PORT_MODE_BIG_BUFFER) b in
    set_wp_buf a buf ;;
    if buf =? NULL then free_obj a ;; ret (ERR_NO_MEMORY, NULL)
    else
      let* state2 := THREAD_LOCK in
      let* s := get in
      set_list (write_port_list s ++ [a]) ;;
      THREAD_UNLOCK state2 ;;
      ret (NO_ERROR, a).

Definition port_create (name : option cstr) (mode : Z) (port : bool) (a b : Z) : PM (Z * Z) :=
  let* r := port_create_lookup name mode port in
  match r with
  | Some r => ret r
  | None => let* name := deref name in port_create_new name mode a b
  end.

(** The status, and the buffer left over, when the port of that name is found. *)
Definition attach (rp wp buf : Z) : PM (Z * Z) :=
  set_rp_wport rp wp ;;
  let* w := get_wp wp in
  if negb (wp_buf w =? NULL) then
    set_wp_rp_list wp (wp_rp_list w ++ [rp]) ;;
    set_rp_buf rp (wp_buf w) ;;
    set_wp_buf wp NULL ;;
    ret (NO_ERROR, buf)
  else if negb (buf =? NULL) then
    if has_bit (wp_mode w) PORT_MODE_UNICAST then ret (ERR_NOT_ALLOWED, buf)
    else
      set_wp_rp_list wp (wp_rp_list w ++ [rp]) ;;
      set_rp_buf rp buf ;;
      ret (NO_ERROR, NULL)
  else ret (ERR_NO_MEMORY, buf).

Definition port_open (name : option cstr) (ctx : Z) (port : bool) (a b : Z) : PM (Z * Z) :=
  match name with
  | None => ret (ERR_INVALID_ARGS, NULL)
  | Some name =>
      if negb port then ret (ERR_INVALID_ARGS, NULL)
      else if a =? NULL then ret (ERR_NO_MEMORY, NULL)
      else
        put_obj a (ReadPort (Read_port READPORT_MAGIC NULL ctx [] NULL NULL)) ;;
        let* buf := make_buf false b in
        if buf =? NULL then free_obj a ;; ret (ERR_NO_MEMORY, NULL)
        else
          let* state := THREAD_LOCK in
          let* s := get in
          let* found := find_port name (write_port_list s) in
          let* rb := match found with
                     | Some wp => attach a wp buf
                     | None => ret (ERR_NOT_FOUND, buf)
                     end in
          let '(rc, buf) := rb in
          THREAD_UNLOCK state ;;
          free_buf buf ;;
          if rc =? NO_ERROR then ret (rc, a) else free_obj a ;; ret (rc, NULL)
  end.

(** ** Groups *)

Definition port_at (handles : option (list Z)) (ix : nat) : PM Z := deref (handles ≫= fun l => l !! ix).

(** The loop of port_group over the rest of the indices. *)
Fixpoint link_ports (handles : option (list Z)) (pg : Z) (ixs : list nat) : PM Z :=
  match ixs with
  | [] => ret NO_ERROR
  | ix :: ixs' =>
      let* rp := port_at handles ix in
      let* m := get_magic rp in
      let* bad := (if negb (m =? READPORT_MAGIC) then ret true else let* r := get_rp rp in ret (negb (rp_gport r =? NULL))) in
      if bad then
        for_each (seq 0 ix) (fun jx => let* rp := port_at handles jx in set_rp_gport rp NULL) ;;
        ret ERR_BAD_HANDLE
      else
        set_rp_gport rp pg ;;
        (let* g := get_pg pg in set_pg_rp_list pg (pg_rp_list g ++ [rp])) ;;
        link_ports handles pg ixs'
  end.

(** [a] is what calloc returns. *)
Definition port_group_make (handles : option (list Z)) (count : Z) (group : bool) (a : Z) : PM (Z * Z) :=
  if MAX_PORT_GROUP_COUNT <? count then ret (ERR_TOO_BIG, NULL)
  else if negb (count =? 0) && bool_decide (handles = None) then ret (ERR_INVALID_ARGS, NULL)
  else if negb group then ret (ERR_INVALID_ARGS, NULL)
  else if a =? NULL then ret (ERR_NO_MEMORY, NULL)
  else
    put_obj a (PortGroup (Port_group PORTGROUP_MAGIC [] [])) ;;
    let* state := THREAD_LOCK in
    let* rc := link_ports handles a (seq 0 (Z.to_nat count)) in
    THREAD_UNLOCK state ;;
    if rc =? NO_ERROR then ret (rc, a) else free_obj a ;; ret (rc, NULL).

(** port_group_add in front of the lock: the answer, if it has one.  What is
    checked here may have changed when the lock is taken. *)
Definition port_group_add_check (group port : Z) : PM (option Z) :=
  if (port =? NULL) || (group =? NULL) then ret (Some ERR_INVALID_ARGS)
  else
    let* m := get_magic group in
    if negb (m =? PORTGROUP_MAGIC) then ret (Some ERR_INVALID_ARGS)
    else
      let* m := get_magic port in
      let* bad := (if negb (m =? READPORT_MAGIC) then ret true else let* r := get_rp port in ret (negb (rp_gport r =? NULL))) in
      ret (if bad then Some ERR_BAD_HANDLE else None).

(** The rest, under the lock. *)
Definition port_group_add_link (group port : Z) : PM Z :=
  let* state := THREAD_LOCK in
  let* g := get_pg group in
  let* rc :=
    (if Z.of_nat (length (pg_rp_list g)) =? MAX_PORT_GROUP_COUNT then ret ERR_TOO_BIG
     else
       set_rp_gport port group ;;
       set_pg_rp_list group (pg_rp_list g ++ [port]) ;;
       let* r := get_rp port in
       let* buf := get_buf (rp_buf r) in
       (if negb (buf_is_empty buf) then let* _ := on_queue group (waitq_wake_one NO_ERROR) in ret tt else ret tt) ;;
       ret NO_ERROR) in
  THREAD_UNLOCK state ;;
  ret rc.

Definition port_group_add (group port : Z) : PM Z :=
  let* r := port_group_add_check group port in
  match r with Some e => ret e | None => port_group_add_link group port end.

(** A node that is in no list is all NULL: list_delete follows that. *)
Definition delete_node (l : list Z) (p : Z) : PM (list Z) :=
  if bool_decide (p ∈ l) then ret (filter (fun x => x <> p) l) else fault.

(** The early return keeps the lock. *)
Definition port_group_remove (group port : Z) : PM Z :=
  if (port =? NULL) || (group =? NULL) then ret ERR_INVALID_ARGS
  else
    let* m := get_magic group in
    if negb (m =? PORTGROUP_MAGIC) then ret ERR_INVALID_ARGS
    else
      let* m := get_magic port in
      let* bad := (if negb (m =? READPORT_MAGIC) then ret true else let* r := get_rp port in ret (negb (rp_gport r =? group))) in
      if bad then ret ERR_BAD_HANDLE
      else
        let* state := THREAD_LOCK in
        let* g := get_pg group in
        if negb (bool_decide (port ∈ pg_rp_list g)) then ret ERR_BAD_HANDLE
        else
          let* l := delete_node (pg_rp_list g) port in
          set_pg_rp_list group l ;;
          THREAD_UNLOCK state ;;
          ret NO_ERROR.

(** ** Writing *)

(** The loop of port_write over the read ports; the status and the threads woken. *)
Fixpoint write_readers (pk : list port_packet) (count : Z) (l : list Z) (status awake_count : Z) : PM (Z * Z) :=
  match l with
  | [] => ret (status, awake_count)
  | rp :: l' =>
      let* r := get_rp rp in
      let* e := buf_write (rp_buf r) pk count in
      if e <? 0 then write_readers pk count l' ERR_PARTIAL_WRITE awake_count
      else
        let* r := get_rp rp in
        let* awaken := (if negb (rp_gport r =? NULL) then on_queue (rp_gport r) (waitq_wake_one NO_ERROR) else ret 0) in
        let* awaken := (if awaken =? 0 then on_queue rp (waitq_wake_one NO_ERROR) else ret awaken) in
        write_readers pk count l' status (awake_count + awaken)
  end.

(** The thread_yield behind the lock only says when other threads run. *)
Definition port_write (port : Z) (pk : option (list port_packet)) (count : Z) : PM Z :=
  match pk with
  | None => ret ERR_INVALID_ARGS
  | Some pk =>
      if port =? NULL then ret ERR_INVALID_ARGS
      else
        let* state := THREAD_LOCK in
        let* m := get_magic port in
        if negb (m =? WRITEPORT_MAGIC_W) then THREAD_UNLOCK state ;; ret ERR_BAD_HANDLE
        else
          let* w := get_wp port in
          let* status :=
            (if negb (wp_buf w =? NULL) then buf_write (wp_buf w) pk count
             else let* sa := write_readers pk count (wp_rp_list w) NO_ERROR 0 in ret (fst sa)) in
          THREAD_UNLOCK state ;;
          ret status
  end.

(** ** Reading *)

(** One turn of read_no_lock: a thread that was woken without an error takes another. *)
Definition read_no_lock (cur : tid) (rp timeout : Z) (result : port_result) : PM (call_result * port_result) :=
  let* r := get_rp rp in
  let* sr := buf_read (rp_buf r) result in
  let '(status, result) := sr in
  let result := Port_result (rp_ctx r) (res_packet result) in
  if negb (status =? ERR_NO_MSG) then ret (Returned status, result)
  else if timeout =? 0 then ret (Returned ERR_TIMED_OUT, result)
  else
    let* wr := on_queue rp (waitq_block cur timeout) in
    ret (wr, result).

(** The ports of a group in turn, with no timeout. *)
Fixpoint read_group (cur : tid) (l : list Z) (result : port_result) : PM (Z * port_result) :=
  match l with
  | [] => ret (ERR_TIMED_OUT, result)
  | rp :: l' =>
      let* rr := read_no_lock cur rp 0 result in
      match fst rr with
      | Returned rc => if negb (rc =? ERR_TIMED_OUT) then ret (rc, snd rr) else read_group cur l' (snd rr)
      | Blocked => fault
      end
  end.

(** One turn of the loop over the group. *)
Definition read_group_turn (cur : tid) (pg timeout : Z) (result : port_result) : PM (call_result * port_result) :=
  let* g := get_pg pg in
  let* rr := read_group cur (pg_rp_list g) result in
  let '(rc, result) := rr in
  if negb (rc =? ERR_TIMED_OUT) then ret (Returned rc, result)
  else let* r := on_queue pg (waitq_block cur timeout) in ret (r, result).

(** The exit of port_read, unless the thread has been switched out. *)
Definition read_exit (state : bool) (rr : call_result * port_result) : PM (call_result * port_result) :=
  match fst rr with
  | Returned rc => THREAD_UNLOCK state ;; ret rr
  | Blocked => switch_away ;; ret rr
  end.

Definition port_read (cur : tid) (port timeout : Z) (result : option port_result) : PM (call_result * option port_result) :=
  match result with
  | None => ret (Returned ERR_INVALID_ARGS, None)
  | Some result0 =>
      if port =? NULL then ret (Returned ERR_INVALID_ARGS, result)
      else
        let* state := THREAD_LOCK in
        let* m := get_magic port in
        let* rr :=
          (if m =? READPORT_MAGIC then read_no_lock cur port timeout result0
           else if m =? PORTGROUP_MAGIC then read_group_turn cur port timeout result0
           else ret (Returned ERR_BAD_HANDLE, result0)) in
        let* rr := read_exit state rr in
        ret (fst rr, Some (snd rr))
  end.

(** port_read from the return of wait_queue_block on; [group] is the branch it is in. *)
Definition port_read_resume (cur : tid) (group : bool) (port timeout : Z) (result : port_result) : PM (call_result * port_result) :=
  let* state := THREAD_LOCK in
  let* s := get in
  let* wr := deref (woken s !! cur) in
  put (Ports (write_port_list s) (objs s) (bufs s) (delete cur (woken s)) (thread_lock s) (ints s)) ;;
  let* rr :=
    (if negb (wr =? NO_ERROR) then ret (Returned wr, result)
     else if group then read_group_turn cur port timeout result
     else read_no_lock cur port timeout result) in
  read_exit state rr.

(** ** Destroying and closing *)

Definition port_destroy (port : Z) : PM Z :=
  if port =? NULL then ret ERR_INVALID_ARGS
  else
    let* state := THREAD_LOCK in
    let* m := get_magic port in
    if negb (m =? WRITEPORT_MAGIC_X) then THREAD_UNLOCK state ;; ret ERR_BAD_HANDLE
    else
      let* s := get in
      let* l := delete_node (write_port_list s) port in
      set_list l ;;
      let* w := get_wp port in
      (if negb (wp_buf w =? NULL) then ret tt
       else
         for_each (wp_rp_list w) (fun rp =>
           let* _ := on_queue rp (waitq_wake_all ERR_CANCELLED) in
           let* r := get_rp rp in
           (if negb (rp_gport r =? NULL) then let* _ := on_queue (rp_gport r) (waitq_wake_all ERR_CANCELLED) in ret tt else ret tt) ;;
           set_rp_wport rp NULL)) ;;
      set_wp_magic port 0 ;;
      THREAD_UNLOCK state ;;
      free_buf (wp_buf w) ;;
      free_obj port ;;
      ret NO_ERROR.

(** The end of port_close for a read port, behind the wake-up; [buf] is the local. *)
Definition close_read_port (port buf : Z) (state : bool) : PM Z :=
  set_rp_magic port 0 ;;
  THREAD_UNLOCK state ;;
  free_buf buf ;;
  free_obj port ;;
  ret NO_ERROR.

Definition close_group (port : Z) (state : bool) : PM Z :=
  let* g := get_pg port in
  for_each (pg_rp_list g) (fun rp => set_rp_gport rp NULL) ;;
  set_pg_magic port 0 ;;
  THREAD_UNLOCK state ;;
  free_obj port ;;
  ret NO_ERROR.

(** The answer, or the buffer to free once the woken threads have run. *)
Inductive close_result := Closed (status : Z) | Switched (buf : Z).

(** wait_queue_destroy switches when it wakes a thread. *)
Definition port_close (port : Z) : PM close_result :=
  if port =? NULL then ret (Closed ERR_INVALID_ARGS)
  else
    let* state := THREAD_LOCK in
    let* m := get_magic port in
    if m =? READPORT_MAGIC then
      let* r := get_rp port in
      let* buf :=
        (if negb (rp_wport r =? NULL) then
           let* w := get_wp (rp_wport r) in
           let* l := delete_node (wp_rp_list w) port in
           set_wp_rp_list (rp_wport r) l ;;
           if bool_decide (l = []) then set_wp_buf (rp_wport r) (rp_buf r) ;; set_rp_buf port NULL ;; ret NULL
           else ret (rp_buf r)
         else ret NULL) in
      (if negb (rp_gport r =? NULL) then
         let* s := get in
         let* l := delete_node (match objs s !! rp_gport r with Some (PortGroup g) => pg_rp_list g | _ => [] end) port in
         set_pg_rp_list (rp_gport r) l
       else ret tt) ;;
      let* n := on_queue port (waitq_wake_all ERR_OBJECT_DESTROYED) in
      if 0 <? n then switch_away ;; ret (Switched buf)
      else let* e := close_read_port port buf state in ret (Closed e)
    else if m =? PORTGROUP_MAGIC then
      let* n := on_queue port (waitq_wake_all ERR_OBJECT_DESTROYED) in
      if 0 <? n then switch_away ;; ret (Switched NULL)
      else let* e := close_group port state in ret (Closed e)
    else if m =? WRITEPORT_MAGIC_W then
      set_wp_magic port WRITEPORT_MAGIC_X ;;
      THREAD_UNLOCK state ;;
      ret (Closed NO_ERROR)
    else THREAD_UNLOCK state ;; ret (Closed ERR_BAD_HANDLE).

(** port_close when its thread runs again. *)
Definition port_close_finish (group : bool) (port buf : Z) : PM Z :=
  let* state := THREAD_LOCK in
  if group then close_group port state else close_read_port port buf state.
