(* ===== verification/PortInv.v ===== *)
(** * Ports: the ring buffers, and what the objects look like between calls *)

From stdpp Require Import prelude list gmap.
From Stdlib Require Import ZArith Lia.
From S2P Require Import Prelude Pow2 Timer Kernel Mutex Port.

Open Scope Z_scope.
Open Scope lk_scope.

(** ** Ring buffers are bounded queues *)

Definition size_of (buf : port_buf) : Z := 2 ^ log2 buf.

(** The packets of [q], oldest first, from the head on. *)
Record ring_at (buf : port_buf) (q : list port_packet) : Prop := {
  ra_log2 : 0 <= log2 buf < 31;
  ra_len : Z.of_nat (length (packet buf)) = size_of buf;
  ra_head : 0 <= head buf < size_of buf;
  ra_tail : tail buf = (head buf + Z.of_nat (length q)) mod size_of buf;
  ra_fits : Z.of_nat (length q) <= size_of buf;
  ra_at : forall i x, q !! i = Some x -> packet buf !! Z.to_nat ((head buf + Z.of_nat i) mod size_of buf) = Some x
}.

Definition ring (buf : port_buf) (q : list port_packet) : Prop :=
  ring_at buf q /\ avail buf = size_of buf - Z.of_nat (length q).

Lemma size_of_pos buf : 0 <= log2 buf < 31 -> 0 < size_of buf <= 2 ^ 30.
Proof. intros H. unfold size_of. split; [apply Z.pow_pos_nonneg; lia|apply Z.pow_le_mono_r; lia]. Qed.

Lemma valpow2_size buf : 0 <= log2 buf < 31 -> valpow2 (log2 buf) = size_of buf.
Proof.
  intros H. pose proof (size_of_pos buf H). unfold valpow2, u32. rewrite Z.shiftl_1_l. unfold size_of in *. apply Z.mod_small. lia.
Qed.

(** Two places that differ by less than the size are different. *)
Lemma ring_slots h n i k : 0 < n -> 0 <= i < k -> k < n -> (h + i) mod n <> (h + k) mod n.
Proof.
  intros Hn Hi Hk He. assert (Hd : (k - i) mod n = 0).
  { replace (k - i) with ((h + k) - (h + i)) by lia. rewrite Zminus_mod, He, Z.sub_diag. apply Z.mod_0_l. lia. }
  rewrite Z.mod_small in Hd by lia. lia.
Qed.

Lemma ring_store1 buf q pk :
  ring_at buf q -> Z.of_nat (length q) < size_of buf ->
  is_Some (packet buf !! Z.to_nat (tail buf)) /\
  ring_at (Port_buf (log2 buf) (avail buf) (head buf) (modpow2 (u32 (tail buf + 1)) (log2 buf)) (<[Z.to_nat (tail buf) := pk]> (packet buf)))
    (q ++ [pk]).
Proof.
  intros [Hl Hlen Hh Ht Hf Hat] Hroom. pose proof (size_of_pos buf Hl) as Hs.
  assert (Htb : 0 <= tail buf < size_of buf) by (rewrite Ht; apply Z.mod_pos_bound; lia).
  split; [apply lookup_lt_is_Some; lia|]. constructor; unfold size_of in *; cbn [log2 packet head tail]; rewrite ?length_insert, ?length_app; cbn [length]; try done; try lia.
  - rewrite modpow2_mod by lia. unfold u32. rewrite (Z.mod_small (tail buf + 1)) by lia. rewrite Ht, Zplus_mod_idemp_l. f_equal. lia.
  - intros i x [Hi|[Hi Hx]]%lookup_app_Some.
    + rewrite list_lookup_insert_ne; [by apply Hat|]. apply lookup_lt_Some in Hi.
      pose proof (ring_slots (head buf) (2 ^ log2 buf) (Z.of_nat i) (Z.of_nat (length q)) ltac:(lia) ltac:(lia) ltac:(lia)).
      pose proof (Z.mod_pos_bound (head buf + Z.of_nat i) (2 ^ log2 buf) ltac:(lia)). lia.
    + apply list_lookup_singleton_Some in Hx as [Hi0 <-]. assert (i = length q) as -> by lia. rewrite <- Ht. apply list_lookup_insert_eq. lia.
Qed.

Lemma ring_store packets n k buf q :
  ring_at buf q -> Z.of_nat (length q + n) <= size_of buf -> (k + n <= length packets)%nat ->
  exists buf', buf_store packets (seq k n) buf = Some buf' /\ ring_at buf' (q ++ take n (drop k packets)) /\
    avail buf' = avail buf /\ log2 buf' = log2 buf.
Proof.
  revert k buf q. induction n as [|n IH]; intros k buf q Hr Hroom Hk; cbn [seq buf_store].
  - exists buf. rewrite take_0, app_nil_r. by split_and!.
  - destruct (lookup_lt_is_Some_2 packets k ltac:(lia)) as [pk Hpk]. rewrite Hpk. cbn [mbind option_bind].
    destruct (ring_store1 buf q pk Hr ltac:(lia)) as [[old Hold] Hr1]. rewrite Hold. cbn [mbind option_bind].
    edestruct (IH (S k)) as (buf' & -> & Hr' & Ha & Hl); [exact Hr1| |lia|].
    + rewrite length_app. unfold size_of in *. cbn [log2 length]. lia.
    + exists buf'. split_and!; [done| |by rewrite Ha|by rewrite Hl]. rewrite (drop_S packets pk k Hpk). cbn [take]. by rewrite <- app_assoc in Hr'.
Qed.

Lemma ring_empty buf q : ring buf q -> buf_is_empty buf = bool_decide (q = []).
Proof.
  intros [Hr Ha]. unfold buf_is_empty. rewrite valpow2_size by apply Hr. rewrite Ha.
  destruct q as [|x q]; [rewrite bool_decide_true by done; apply Z.eqb_eq; cbn; lia|].
  rewrite bool_decide_false by done. apply Z.eqb_neq. cbn. lia.
Qed.

(** What a read leaves. *)
Lemma ring_next buf x q :
  ring buf (x :: q) ->
  packet buf !! Z.to_nat (head buf) = Some x /\
  ring (Port_buf (log2 buf) (u32 (avail buf + 1)) (modpow2 (u32 (head buf + 1)) (log2 buf)) (tail buf) (packet buf)) q.
Proof.
  intros [[Hl Hlen Hh Ht Hf Hat] Ha]. pose proof (size_of_pos buf Hl) as Hs. cbn [length] in *. split.
  - specialize (Hat 0%nat x eq_refl). rewrite Z.add_0_r, Z.mod_small in Hat by lia. done.
  - split; [constructor|]; unfold size_of in *; cbn [log2 packet head tail avail]; try done; try lia.
    + rewrite modpow2_mod by lia. apply Z.mod_pos_bound. lia.
    + rewrite modpow2_mod by lia. rewrite Ht. unfold u32. rewrite (Z.mod_small (head buf + 1)) by lia. rewrite Zplus_mod_idemp_l. f_equal. lia.
    + intros i y Hi. specialize (Hat (S i) y Hi). rewrite modpow2_mod by lia. unfold u32. rewrite (Z.mod_small (head buf + 1)) by lia.
      rewrite Zplus_mod_idemp_l. rewrite <- Hat. do 3 f_equal. lia.
    + unfold u32. rewrite Z.mod_small by lia. lia.
Qed.

(** A new buffer is empty. *)
Lemma ring_new (n : Z) : n = PORT_BUFF_SIZE \/ n = PORT_BUFF_SIZE_BIG -> ring (Port_buf (log2_uint n) n 0 0 (replicate (Z.to_nat n) [])) [].
Proof. intros [-> | ->]; (split; [constructor; try (cbn; lia); try done|done]); cbn; by intros [|?] ?. Qed.

(** ** Lists and the pointers back *)

(** [L] has the lists of some heads, [B] the pointer every node has to its head, NULL
    when it is in no list. *)
Record backlinks (L : Z -> option (list Z)) (B : Z -> option Z) : Prop := {
  bl_fwd : forall h l r, L h = Some l -> r ∈ l -> B r = Some h;
  bl_nodup : forall h l, L h = Some l -> NoDup l;
  bl_bwd : forall h r, B r = Some h -> h <> NULL -> exists l, L h = Some l /\ r ∈ l;
  bl_null : L NULL = None
}.

Definition fupd {A} (f : Z -> option A) (p : Z) (v : option A) : Z -> option A := fun x => if bool_decide (x = p) then v else f x.

Lemma fupd_eq {A} (f : Z -> option A) p v : fupd f p v p = v.
Proof. unfold fupd. by rewrite bool_decide_true. Qed.
Lemma fupd_ne {A} (f : Z -> option A) p v x : x <> p -> fupd f p v x = f x.
Proof. intros. unfold fupd. by rewrite bool_decide_false. Qed.

Ltac fupd_cases := repeat match goal with
  | H : context [fupd ?f ?p ?v ?x] |- _ => destruct (decide (x = p)); [subst; rewrite fupd_eq in H|rewrite (fupd_ne f p v x) in H by done]
  | |- context [fupd ?f ?p ?v ?x] => destruct (decide (x = p)); [subst; rewrite fupd_eq|rewrite (fupd_ne f p v x) by done]
  end.

Section backlinks.
Context (L L' : Z -> option (list Z)) (B B' : Z -> option Z).

Lemma backlinks_ext : backlinks L B -> (forall p, L' p = L p) -> (forall p, B' p = B p) -> backlinks L' B'.
Proof.
  intros [Hf Hn Hb H0] HL HB. constructor; [| | |by rewrite HL].
  - intros h l r. rewrite HL, HB. apply Hf.
  - intros h l. rewrite HL. apply Hn.
  - intros h r. rewrite HB. setoid_rewrite HL. apply Hb.
Qed.

Lemma backlinks_add h l r :
  backlinks L B -> L h = Some l -> B r = Some NULL -> h <> NULL ->
  (forall p, L' p = fupd L h (Some (l ++ [r])) p) -> (forall p, B' p = fupd B r (Some h) p) -> backlinks L' B'.
Proof.
  intros [Hf Hn Hb H0] Hh Hr Hh0 HL HB. assert (Hloose : forall h' l', L h' = Some l' -> r ∈ l' -> False).
  { intros h' l' Hl Hin. pose proof (Hf _ _ _ Hl Hin) as E. rewrite Hr in E. injection E as <-. congruence. }
  constructor; [| | |rewrite HL, fupd_ne; done].
  - intros h' l' x. rewrite HL, HB. intros Hl Hx. fupd_cases; simplify_eq; try done; try (by eapply Hf); try (exfalso; by eapply Hloose).
    all: apply elem_of_app in Hx as [Hx|Hx]; [by eapply Hf|set_solver].
  - intros h' l'. rewrite HL. intros Hl. fupd_cases; [simplify_eq|by eapply Hn].
    apply NoDup_app. split_and!; [by eapply Hn| |apply NoDup_singleton]. intros x Hx ->%list_elem_of_singleton. by eapply Hloose.
  - intros h' x. rewrite HB. setoid_rewrite HL. intros Hx Hne. fupd_cases; simplify_eq.
    all: try (eexists; split; [done|]; set_solver).
    all: destruct (Hb _ _ Hx Hne) as (l' & Hl' & Hin); simplify_eq; eexists; split; [done|]; set_solver.
Qed.

(** [r] out of its list; what it points to then is [b], NULL or nothing any more. *)
Lemma backlinks_remove h l r b :
  backlinks L B -> L h = Some l -> r ∈ l -> (b = None \/ b = Some NULL) ->
  (forall p, L' p = fupd L h (Some (filter (fun x => x <> r) l)) p) -> (forall p, B' p = fupd B r b p) -> backlinks L' B'.
Proof.
  intros [Hf Hn Hb H0] Hh Hr Hbv HL HB. assert (Hh0 : h <> NULL) by congruence. constructor; [| | |rewrite HL, fupd_ne; done].
  - intros h' l' x. rewrite HL, HB. intros Hl Hx. fupd_cases; simplify_eq; try (apply list_elem_of_filter in Hx as [Hxr Hx]); try done; try (by eapply Hf).
    all: pose proof (Hf _ _ _ Hl Hx); pose proof (Hf _ _ _ Hh Hr); congruence.
  - intros h' l'. rewrite HL. intros Hl. fupd_cases; [simplify_eq; apply NoDup_filter|]; by eapply Hn.
  - intros h' x. rewrite HB. setoid_rewrite HL. intros Hx Hne. fupd_cases; try (destruct Hbv; simplify_eq; done).
    all: destruct (Hb _ _ Hx Hne) as (l' & Hl' & Hin); simplify_eq; eexists; split; [done|]; rewrite ?list_elem_of_filter; done.
Qed.

(** A node in no list comes or goes. *)
Lemma backlinks_node r b :
  backlinks L B -> (B r = None \/ B r = Some NULL) -> (b = None \/ b = Some NULL) ->
  (forall p, L' p = L p) -> (forall p, B' p = fupd B r b p) -> backlinks L' B'.
Proof.
  intros [Hf Hn Hb H0] Hr Hbv HL HB. constructor; [| | |by rewrite HL].
  - intros h l x. rewrite HL, HB. intros Hl Hx. pose proof (Hf _ _ _ Hl Hx) as E. fupd_cases; [|done]. destruct Hr; simplify_eq; congruence.
  - intros h l. rewrite HL. apply Hn.
  - intros h x. rewrite HB. setoid_rewrite HL. intros Hx Hne. fupd_cases; [destruct Hbv; simplify_eq|by apply Hb].
Qed.

(** A head comes with an empty list, or goes and its nodes point to nothing. *)
Lemma backlinks_head h :
  backlinks L B -> L h = None -> h <> NULL -> (forall p, L' p = fupd L h (Some []) p) -> (forall p, B' p = B p) -> backlinks L' B'.
Proof.
  intros [Hf Hn Hb H0] Hh Hne HL HB. constructor; [| | |rewrite HL, fupd_ne; done].
  - intros h' l x. rewrite HL, HB. intros Hl Hx. fupd_cases; [simplify_eq; set_solver|by eapply Hf].
  - intros h' l. rewrite HL. intros Hl. fupd_cases; [simplify_eq; constructor|by eapply Hn].
  - intros h' x. rewrite HB. setoid_rewrite HL. intros Hx Hx0. destruct (Hb _ _ Hx Hx0) as (l & Hl & Hin).
    exists l. rewrite fupd_ne by congruence. done.
Qed.

Lemma backlinks_drop h l :
  backlinks L B -> L h = Some l -> (forall p, L' p = fupd L h None p) ->
  (forall p, B' p = if bool_decide (p ∈ l) then Some NULL else B p) -> backlinks L' B'.
Proof.
  intros [Hf Hn Hb H0] Hh HL HB. assert (Hh0 : h <> NULL) by congruence. constructor; [| | |rewrite HL, fupd_ne; done].
  - intros h' l' x. rewrite HL, HB. intros Hl Hx. fupd_cases; [done|]. rewrite bool_decide_false; [by eapply Hf|].
    intros Hin. pose proof (Hf _ _ _ Hl Hx). pose proof (Hf _ _ _ Hh Hin). congruence.
  - intros h' l'. rewrite HL. intros Hl. fupd_cases; [done|by eapply Hn].
  - intros h' x. rewrite HB. setoid_rewrite HL. intros Hx Hne. destruct (bool_decide_reflect (x ∈ l)); [simplify_eq|].
    destruct (Hb _ _ Hx Hne) as (l' & Hl' & Hin). exists l'. rewrite fupd_ne by (intros ->; congruence). done.
Qed.
End backlinks.

(** ** Buffers and their owners *)

Record owned (w : Z -> option Z) (Bf : gmap Z port_buf) : Prop := {
  ow_ring : forall p b, w p = Some b -> b <> NULL -> exists buf q, Bf !! b = Some buf /\ ring buf q;
  ow_inj : forall p p' b, w p = Some b -> w p' = Some b -> b <> NULL -> p = p'
}.

Section owned.
Context (w w' : Z -> option Z) (Bf : gmap Z port_buf).
Hypothesis (Hw : owned w Bf).

Lemma owned_ext : (forall p, w' p = w p) -> owned w' Bf.
Proof. intros H. destruct Hw as [Hr Hi]. constructor; intros *; rewrite ?H; [apply Hr|apply Hi]. Qed.

(** A new buffer, and an owner that had none. *)
Lemma owned_new p b buf :
  (w p = None \/ w p = Some NULL) -> Bf !! b = None -> ring buf [] -> (forall x, w' x = fupd w p (Some b) x) -> owned w' (<[b := buf]> Bf).
Proof.
  intros Hp Hb Hring H. destruct Hw as [Hr Hi].
  assert (Hnb : forall x, w x = Some b -> b <> NULL -> False) by (intros x Hx Hx0; destruct (Hr x b Hx Hx0) as (? & ? & ? & _); congruence).
  constructor.
  - intros x b'. rewrite H. intros Hx Hne. fupd_cases; simplify_eq; [rewrite lookup_insert_eq; eauto|].
    destruct (decide (b' = b)) as [->|]; [by destruct (Hnb x)|]. rewrite lookup_insert_ne by done. by eapply Hr.
  - intros x y b'. rewrite !H. intros Hx Hy Hne. fupd_cases; simplify_eq; try done; try (exfalso; by eapply Hnb). by eapply Hi.
Qed.

(** An owner that owns nothing any more. *)
Lemma owned_less p v : (v = None \/ v = Some NULL) -> (forall x, w' x = fupd w p v x) -> owned w' Bf.
Proof.
  intros Hv H. destruct Hw as [Hr Hi]. constructor.
  - intros x b. rewrite H. intros Hx Hne. fupd_cases; [destruct Hv; simplify_eq|by eapply Hr].
  - intros x y b. rewrite !H. intros Hx Hy Hne. fupd_cases; try (destruct Hv; simplify_eq; done). by eapply Hi.
Qed.

Lemma owned_free p b v : w p = Some b -> (v = None \/ v = Some NULL) -> (forall x, w' x = fupd w p v x) -> owned w' (delete b Bf).
Proof.
  intros Hp Hv H. destruct (owned_less p v Hv H) as [Hr Hi]. constructor; [|done]. intros x b' Hx Hne.
  destruct (Hr x b' Hx Hne) as (buf & q & Hb & Hq). exists buf, q. split; [|done]. rewrite lookup_delete_ne; [done|]. intros ->.
  rewrite H in Hx. fupd_cases; [destruct Hv; simplify_eq|]. destruct Hw as [_ Hi2]. by pose proof (Hi2 _ _ _ Hx Hp Hne).
Qed.

Lemma owned_move p p' b v :
  w p = Some b -> p' <> p -> (v = None \/ v = Some NULL) -> (w p' = None \/ w p' = Some NULL) ->
  (forall x, w' x = fupd (fupd w p v) p' (Some b) x) -> owned w' Bf.
Proof.
  intros Hp Hne Hv Hp' H. destruct Hw as [Hr Hi]. constructor.
  - intros x b'. rewrite H. intros Hx Hb. fupd_cases; simplify_eq; try (by eapply Hr). all: destruct Hv; simplify_eq.
  - intros x y b'. rewrite !H. intros Hx Hy Hb. fupd_cases; simplify_eq; try done; try (by eapply Hi); try (destruct Hv; simplify_eq; done).
    all: match goal with H1 : w ?x = Some ?b, H2 : w ?p = Some ?b |- _ => pose proof (Hi _ _ _ H1 H2 Hb); congruence end.
Qed.

Lemma owned_buf b buf q : ring buf q -> owned w (<[b := buf]> Bf).
Proof.
  intros Hring. destruct Hw as [Hr Hi]. constructor; [|done]. intros x b' Hx Hne. destruct (decide (b' = b)) as [->|].
  - rewrite lookup_insert_eq. eauto.
  - rewrite lookup_insert_ne by done. by eapply Hr.
Qed.
End owned.

(** ** The objects between calls *)

(** A read in progress: the branch of port_read, the port, the timeout, the result so far. *)
Record read_call := Read_call { rc_group : bool; rc_port : Z; rc_timeout : Z; rc_result : port_result }.

(** [O]: the objects; [K]: what is being closed, with the branch and the buffer still
    to free; [R]: the reads in progress. *)
Notation objects := (gmap Z port_obj).
Notation closers := (gmap Z (bool * Z)).
Notation readers := (gmap tid read_call).

Definition readers_of (O : objects) (p : Z) : option (list Z) := o ← O !! p; wp_rp_list <$> as_wp o.
Definition members_of (O : objects) (p : Z) : option (list Z) := o ← O !! p; pg_rp_list <$> as_pg o.
Definition wport_of (O : objects) (K : closers) (p : Z) : option Z :=
  if K !! p then None else o ← O !! p; rp_wport <$> as_rp o.
Definition gport_of (O : objects) (K : closers) (p : Z) : option Z :=
  if K !! p then None else o ← O !! p; rp_gport <$> as_rp o.
Definition queue_at (O : objects) (p : Z) : option (list tid) := o ← O !! p; queue_of o.

Definition buf_of (o : port_obj) : Z :=
  match o with WritePort w => wp_buf w | ReadPort r => rp_buf r | PortGroup _ => NULL end.
(** The buffer an object frees, or a call that closes it will free. *)
Definition own (O : objects) (K : closers) (p : Z) : option Z :=
  match K !! p with Some (_, b) => Some b | None => buf_of <$> O !! p end.

Definition good_magic (o : port_obj) : Prop :=
  match o with
  | WritePort w => wp_magic w = WRITEPORT_MAGIC_W \/ wp_magic w = WRITEPORT_MAGIC_X
  | ReadPort r => rp_magic r = READPORT_MAGIC
  | PortGroup g => pg_magic g = PORTGROUP_MAGIC
  end.

(** A write port has a buffer just when it has no readers; a read port has one. *)
Definition good_buf (K : closers) (p : Z) (o : port_obj) : Prop :=
  match o with
  | WritePort w => wp_buf w = NULL <-> wp_rp_list w <> []
  | ReadPort r => K !! p = None -> rp_buf r <> NULL
  | PortGroup _ => True
  end.

Definition is_group (o : port_obj) : option bool :=
  match o with WritePort _ => None | ReadPort _ => Some false | PortGroup _ => Some true end.

Record links (O : objects) (Bf : gmap Z port_buf) (wl : list Z) (K : closers) : Prop := {
  li_null : O !! NULL = None;
  li_list : NoDup wl /\ forall p, p ∈ wl <-> is_Some (readers_of O p);
  li_magic : forall p o, O !! p = Some o -> good_magic o;
  li_buf : forall p o, O !! p = Some o -> good_buf K p o;
  li_w : backlinks (readers_of O) (wport_of O K);
  li_g : backlinks (members_of O) (gport_of O K);
  li_own : owned (own O K) Bf;
  li_closing : forall p g b, K !! p = Some (g, b) -> (O !! p ≫= is_group) = Some g /\ queue_at O p = Some []
}.

(** Queues and the threads in them or woken from them. *)
Record waits (O : objects) (W : gmap tid Z) (K : closers) (R : readers) : Prop := {
  wa_nodup : forall p q, queue_at O p = Some q -> NoDup q;
  wa_queue : forall p q t, queue_at O p = Some q -> t ∈ q -> W !! t = None /\ exists c, R !! t = Some c /\ rc_port c = p;
  wa_wait : forall t c, R !! t = Some c -> W !! t = None -> exists q, queue_at O (rc_port c) = Some q /\ t ∈ q;
  wa_read : forall t c, R !! t = Some c -> W !! t = None \/ W !! t = Some NO_ERROR ->
    (O !! rc_port c ≫= is_group) = Some (rc_group c) /\ K !! rc_port c = None;
  wa_woken : forall t e, W !! t = Some e -> is_Some (R !! t)
}.

Record inv (s : ports) (K : closers) (R : readers) : Prop := {
  inv_lock : thread_lock s = false;
  inv_ints : ints s = true;
  inv_links : links (objs s) (bufs s) (write_port_list s) K;
  inv_waits : waits (objs s) (woken s) K R
}.

(** ** What queues do not matter for *)

Definition shape (o : port_obj) : port_obj := with_queue o [].

Definition same_shape (O O' : objects) : Prop := forall p, shape <$> O' !! p = shape <$> O !! p.

Lemma same_shape_use {A} (f : port_obj -> A) (O O' : objects) p :
  (forall o, f (shape o) = f o) -> same_shape O O' -> f <$> O' !! p = f <$> O !! p.
Proof.
  intros Hf Hs. specialize (Hs p). destruct (O' !! p) as [o'|], (O !! p) as [o|]; cbn in *; try done.
  injection Hs as Hs. f_equal. by rewrite <- (Hf o'), <- (Hf o), Hs.
Qed.

Lemma same_shape_bind {A} (f : port_obj -> option A) (O O' : objects) p :
  (forall o, f (shape o) = f o) -> same_shape O O' -> O' !! p ≫= f = O !! p ≫= f.
Proof.
  intros Hf Hs. pose proof (same_shape_use f O O' p Hf Hs) as H. destruct (O' !! p), (O !! p); cbn in *; congruence.
Qed.

Lemma same_shape_lookup (O O' : objects) p o' :
  same_shape O O' -> O' !! p = Some o' -> exists o, O !! p = Some o /\ shape o = shape o'.
Proof. intros Hs Ho'. specialize (Hs p). rewrite Ho' in Hs. destruct (O !! p) as [o|]; cbn in Hs; [|done]. exists o. split; congruence. Qed.

Lemma links_shape O O' Bf wl K :
  same_shape O O' -> (forall p g b, K !! p = Some (g, b) -> queue_at O' p = Some []) -> links O Bf wl K -> links O' Bf wl K.
Proof.
  intros Hs HK [H0 Hl Hm Hb Hw Hg Ho Hc].
  assert (Hro : forall p, readers_of O' p = readers_of O p) by (intros p; apply same_shape_bind; [by intros []|done]).
  assert (Hmo : forall p, members_of O' p = members_of O p) by (intros p; apply same_shape_bind; [by intros []|done]).
  assert (Hwo : forall p, wport_of O' K p = wport_of O K p) by (intros p; unfold wport_of; destruct (K !! p); [done|]; apply same_shape_bind; [by intros []|done]).
  assert (Hgo : forall p, gport_of O' K p = gport_of O K p) by (intros p; unfold gport_of; destruct (K !! p); [done|]; apply same_shape_bind; [by intros []|done]).
  assert (Hoo : forall p, own O' K p = own O K p) by (intros p; unfold own; destruct (K !! p); [done|]; apply same_shape_use; [by intros []|done]).
  constructor.
  - specialize (Hs NULL). rewrite H0 in Hs. by destruct (O' !! NULL).
  - setoid_rewrite Hro. done.
  - intros p o' (o & Ho1 & Ho2)%(same_shape_lookup O O' p); [|done]. apply Hm in Ho1. destruct o, o'; cbn in *; congruence.
  - intros p o' (o & Ho1 & Ho2)%(same_shape_lookup O O' p); [|done]. apply Hb in Ho1.
    assert (Hsh : forall o, good_buf K p (shape o) = good_buf K p o) by by intros []. by rewrite <- Hsh, <- Ho2, Hsh.
  - by apply (backlinks_ext _ _ _ _ Hw).
  - by apply (backlinks_ext _ _ _ _ Hg).
  - by apply (owned_ext _ _ _ Ho).
  - intros p g b Hp. split; [|by eapply HK]. rewrite (same_shape_bind is_group O O'); [by eapply Hc|by intros []|done].
Qed.

(** ** What happens to the queues *)

Lemma record_all_at l e (W : gmap tid Z) t : record_all l e W !! t = if bool_decide (t ∈ l) then Some e else W !! t.
Proof.
  revert W. induction l as [|x l IH]; intros W; [done|]. cbn [record_all]. rewrite IH.
  destruct (bool_decide_reflect (t ∈ l)), (bool_decide_reflect (t ∈ x :: l)); try done; try set_solver.
  - assert (t = x) as -> by set_solver. apply lookup_insert_eq.
  - rewrite lookup_insert_ne; [done|]. set_solver.
Qed.

Lemma queue_at_insert O p o x : queue_at (<[p := o]> O) x = if bool_decide (x = p) then queue_of o else queue_at O x.
Proof.
  unfold queue_at. destruct (bool_decide_reflect (x = p)) as [->|]; [by rewrite lookup_insert_eq|by rewrite lookup_insert_ne].
Qed.

Lemma queue_of_with o q q' : queue_of o = Some q' -> queue_of (with_queue o q) = Some q.
Proof. by destruct o. Qed.

Lemma same_shape_queue O p o q : O !! p = Some o -> same_shape O (<[p := with_queue o q]> O).
Proof.
  intros Ho x. destruct (decide (x = p)) as [->|]; [rewrite lookup_insert_eq, Ho; cbn; by destruct o|by rewrite lookup_insert_ne].
Qed.

Lemma kind_shape O O' p : same_shape O O' -> O' !! p ≫= is_group = O !! p ≫= is_group.
Proof. apply same_shape_bind. by intros []. Qed.

Section waits.
Context (O : objects) (W : gmap tid Z) (K : closers) (R : readers).
Hypothesis (HW : waits O W K R).

(** The oldest waiting threads woken with [e]. *)
Lemma waits_wake p o l rest e :
  O !! p = Some o -> queue_of o = Some (l ++ rest) -> waits (<[p := with_queue o rest]> O) (record_all l e W) K R.
Proof.
  intros Ho Hq. destruct HW as [Hn Hqu Hwt Hrd Hwk]. assert (Hqa : queue_at O p = Some (l ++ rest)) by (unfold queue_at; by rewrite Ho).
  pose proof (Hn _ _ Hqa) as Hnd. apply NoDup_app in Hnd as (_ & Hdis & Hndr). constructor.
  - intros p' q'. rewrite queue_at_insert. destruct (bool_decide_reflect (p' = p)); [|apply Hn].
    rewrite (queue_of_with _ _ _ Hq). by intros [= <-].
  - intros p' q' t. rewrite queue_at_insert, record_all_at. destruct (bool_decide_reflect (p' = p)) as [->|Hne].
    + rewrite (queue_of_with _ _ _ Hq). intros [= <-] Ht. rewrite bool_decide_false by (intros Hl; by eapply Hdis). eapply Hqu; [done|set_solver].
    + intros Hq' Ht. destruct (Hqu _ _ _ Hq' Ht) as (HWt & c & Hc & Hp). rewrite bool_decide_false; [eauto|].
      intros Hl. destruct (Hqu p _ t Hqa ltac:(set_solver)) as (_ & c' & Hc' & Hp'). congruence.
  - intros t c Hc. rewrite record_all_at. destruct (bool_decide_reflect (t ∈ l)) as [|Hl]; [done|]. intros HWt.
    destruct (Hwt t c Hc HWt) as (q & Hq1 & Hin). rewrite queue_at_insert. destruct (bool_decide_reflect (rc_port c = p)) as [Hp|]; [|eauto].
    rewrite (queue_of_with _ _ _ Hq). exists rest. split; [done|]. rewrite Hp, Hqa in Hq1. injection Hq1 as <-. set_solver.
  - intros t c Hc Ht. rewrite (kind_shape O) by by apply same_shape_queue. apply (Hrd t c Hc). rewrite record_all_at in Ht.
    destruct (bool_decide_reflect (t ∈ l)) as [Hl|]; [|done]. left. eapply (Hqu p); [done|set_solver].
  - intros t e'. rewrite record_all_at. destruct (bool_decide_reflect (t ∈ l)) as [Hl|]; [|by apply Hwk].
    intros _. destruct (Hqu p _ t Hqa ltac:(set_solver)) as (_ & c & -> & _). done.
Qed.

(** A thread goes to sleep: a new read, or one that was woken and found nothing. *)
Lemma waits_block p o q t c :
  O !! p = Some o -> queue_of o = Some q -> is_group o = Some (rc_group c) -> K !! p = None -> rc_port c = p ->
  (R !! t = None \/ exists c' e, R !! t = Some c' /\ W !! t = Some e) ->
  waits (<[p := with_queue o (q ++ [t])]> O) (delete t W) K (<[t := c]> R).
Proof.
  intros Ho Hq Hk HK Hp Ht. destruct HW as [Hn Hqu Hwt Hrd Hwk]. assert (Hqa : queue_at O p = Some q) by (unfold queue_at; by rewrite Ho).
  assert (Hfresh : forall p' q', queue_at O p' = Some q' -> t ∉ q').
  { intros p' q' Hq' Hin. destruct (Hqu _ _ _ Hq' Hin) as (HWt & c' & Hc' & _). destruct Ht as [Ht|(? & ? & ? & Ht)]; congruence. }
  constructor.
  - intros p' q'. rewrite queue_at_insert. destruct (bool_decide_reflect (p' = p)); [|apply Hn].
    rewrite (queue_of_with _ _ _ Hq). intros [= <-]. apply NoDup_app. split_and!; [by eapply Hn| |apply NoDup_singleton].
    intros x Hx ->%list_elem_of_singleton. by eapply Hfresh.
  - intros p' q' t'. rewrite queue_at_insert. destruct (bool_decide_reflect (p' = p)) as [->|Hne].
    + rewrite (queue_of_with _ _ _ Hq). intros [= <-] [Hin| ->%list_elem_of_singleton]%elem_of_app.
      * assert (t' <> t) by (intros ->; by eapply Hfresh). rewrite lookup_delete_ne, lookup_insert_ne by done. by eapply Hqu.
      * rewrite lookup_delete_eq, lookup_insert_eq. eauto.
    + intros Hq' Hin. assert (t' <> t) by (intros ->; by eapply Hfresh). rewrite lookup_delete_ne, lookup_insert_ne by done. by eapply Hqu.
  - intros t' c'. destruct (decide (t' = t)) as [->|].
    + rewrite lookup_insert_eq. intros [= <-] _. rewrite queue_at_insert, Hp, bool_decide_true by done. rewrite (queue_of_with _ _ _ Hq).
      eexists. split; [done|set_solver].
    + rewrite lookup_insert_ne, lookup_delete_ne by done. intros Hc' HWt. destruct (Hwt _ _ Hc' HWt) as (q' & Hq' & Hin).
      rewrite queue_at_insert. destruct (bool_decide_reflect (rc_port c' = p)) as [E|]; [|eauto]. rewrite (queue_of_with _ _ _ Hq).
      eexists. split; [done|]. rewrite E, Hqa in Hq'. injection Hq' as <-. set_solver.
  - intros t' c' Hc' Ht'. rewrite (kind_shape O) by by apply same_shape_queue. destruct (decide (t' = t)) as [->|].
    + rewrite lookup_insert_eq in Hc'. injection Hc' as <-. rewrite Hp, Ho. done.
    + rewrite lookup_insert_ne in Hc' by done. rewrite lookup_delete_ne in Ht' by done. by eapply Hrd.
  - intros t' e. destruct (decide (t' = t)) as [->|]; [by rewrite lookup_delete_eq|]. rewrite lookup_delete_ne, lookup_insert_ne by done. apply Hwk.
Qed.

(** A read that was woken returns. *)
Lemma waits_return t e : W !! t = Some e -> waits O (delete t W) K (delete t R).
Proof.
  intros Ht. destruct HW as [Hn Hqu Hwt Hrd Hwk]. constructor; [done| | | |].
  - intros p q t' Hq Hin. assert (t' <> t) by (intros ->; destruct (Hqu _ _ _ Hq Hin); congruence). rewrite !lookup_delete_ne by done. by eapply Hqu.
  - intros t' c. rewrite lookup_delete_Some. intros [Hne Hc]. rewrite lookup_delete_ne by done. by apply Hwt.
  - intros t' c. rewrite lookup_delete_Some. intros [Hne Hc]. rewrite lookup_delete_ne by done. by apply Hrd.
  - intros t' e'. rewrite lookup_delete_Some. intros [Hne He]. rewrite lookup_delete_ne by done. by eapply Hwk.
Qed.

(** The timer finds the thread still in the queue. *)
Lemma waits_timeout p o q t :
  O !! p = Some o -> queue_of o = Some q -> t ∈ q -> waits (<[p := with_queue o (filter (fun x => x <> t) q)]> O) (<[t := ERR_TIMED_OUT]> W) K R.
Proof.
  intros Ho Hq Ht. destruct HW as [Hn Hqu Hwt Hrd Hwk]. assert (Hqa : queue_at O p = Some q) by (unfold queue_at; by rewrite Ho).
  destruct (Hqu _ _ _ Hqa Ht) as (HWt & c & Hc & Hp). constructor.
  - intros p' q'. rewrite queue_at_insert. destruct (bool_decide_reflect (p' = p)); [|apply Hn].
    rewrite (queue_of_with _ _ _ Hq). intros [= <-]. apply NoDup_filter. by eapply Hn.
  - intros p' q' t'. rewrite queue_at_insert. destruct (bool_decide_reflect (p' = p)) as [->|Hne].
    + rewrite (queue_of_with _ _ _ Hq). intros [= <-] [Hne Hin]%list_elem_of_filter. rewrite lookup_insert_ne by done. by eapply Hqu.
    + intros Hq' Hin. destruct (Hqu _ _ _ Hq' Hin) as (HW' & c' & Hc' & Hp'). rewrite lookup_insert_ne; [eauto|]. intros ->. congruence.
  - intros t' c' Hc'. destruct (decide (t' = t)) as [->|]; [by rewrite lookup_insert_eq|rewrite lookup_insert_ne by done]. intros HW'.
    destruct (Hwt _ _ Hc' HW') as (q' & Hq' & Hin). rewrite queue_at_insert. destruct (bool_decide_reflect (rc_port c' = p)) as [E|]; [|eauto].
    rewrite (queue_of_with _ _ _ Hq). eexists. split; [done|]. rewrite E, Hqa in Hq'. injection Hq' as <-. by apply list_elem_of_filter.
  - intros t' c' Hc' Ht'. rewrite (kind_shape O) by by apply same_shape_queue. apply (Hrd t' c' Hc'). destruct (decide (t' = t)) as [->|]; [by left|].
    by rewrite lookup_insert_ne in Ht'.
  - intros t' e. destruct (decide (t' = t)) as [->|]; [by rewrite Hc|rewrite lookup_insert_ne by done; apply Hwk].
Qed.

(** Other fields, and objects nobody waits for. *)
Lemma waits_ext O' K' :
  (forall p q, queue_at O' p = Some q -> q = [] \/ queue_at O p = Some q) ->
  (forall t c, R !! t = Some c -> W !! t = None \/ W !! t = Some NO_ERROR ->
    queue_at O' (rc_port c) = queue_at O (rc_port c) /\ O' !! rc_port c ≫= is_group = O !! rc_port c ≫= is_group /\ K' !! rc_port c = K !! rc_port c) ->
  waits O' W K' R.
Proof.
  intros Hq HR. destruct HW as [Hn Hqu Hwt Hrd Hwk]. constructor; [| | | |done].
  - intros p q [->|H]%Hq; [constructor|by eapply Hn].
  - intros p q t [->|H]%Hq Ht; [set_solver|by eapply Hqu].
  - intros t c Hc Ht. destruct (HR t c Hc (or_introl Ht)) as (-> & _). by apply Hwt.
  - intros t c Hc Ht. destruct (HR t c Hc Ht) as (_ & -> & ->). by apply (Hrd t).
Qed.
End waits.
