(* ===== verification/PortLinks.v ===== *)
(** * Ports: how the calls change the objects

    Every change a call of port.c makes to the objects, and that it keeps the lists,
    the pointers back and the ownership of buffers consistent. *)

From stdpp Require Import prelude list gmap.
From Stdlib Require Import ZArith Lia.
From S2P Require Import Prelude Pow2 Timer Kernel Mutex Port PortInv.

Open Scope Z_scope.
Open Scope lk_scope.

Notation objects := (gmap Z port_obj).
Notation closers := (gmap Z (bool * Z)).

(** A projection of changed objects, at every address. *)
Ltac proj :=
  let x := fresh "x" in
  intros x; unfold readers_of, members_of, wport_of, gport_of, own, fupd;
  repeat case_bool_decide; subst; simplify_map_eq; try done;
  repeat match goal with
    | |- context [<[?k := _]> _ !! ?y] => destruct (decide (y = k)); [subst|]; simplify_map_eq; try done
    | |- context [delete ?k _ !! ?y] => destruct (decide (y = k)); [subst|]; simplify_map_eq; try done
    end.

Section changes.
Context (O : objects) (Bf : gmap Z port_buf) (wl : list Z) (K : closers).
Hypothesis (HL : links O Bf wl K).

(** The clauses that look at one object: only the changed ones are new. *)
Lemma magic_insert (O1 : objects) p o : (forall x y, O1 !! x = Some y -> good_magic y) -> good_magic o ->
  forall x y, <[p := o]> O1 !! x = Some y -> good_magic y.
Proof. intros H1 H2 x y [[<- <-]|[_ Hx]]%lookup_insert_Some; [done|by eapply H1]. Qed.

Lemma buf_insert (O1 : objects) (K1 : closers) p o : (forall x y, O1 !! x = Some y -> good_buf K1 x y) -> good_buf K1 p o ->
  forall x y, <[p := o]> O1 !! x = Some y -> good_buf K1 x y.
Proof. intros H1 H2 x y [[<- <-]|[_ Hx]]%lookup_insert_Some; [done|by eapply H1]. Qed.

Lemma null_insert (O1 : objects) p o : O1 !! NULL = None -> p <> NULL -> <[p := o]> O1 !! NULL = None.
Proof. intros. by rewrite lookup_insert_ne. Qed.

Lemma closing_insert (O1 : objects) (K1 : closers) p o :
  (forall x g b, K1 !! x = Some (g, b) -> (O1 !! x ≫= is_group) = Some g /\ queue_at O1 x = Some []) ->
  (forall g b, K1 !! p = Some (g, b) -> is_group o = Some g /\ queue_of o = Some []) ->
  forall x g b, K1 !! x = Some (g, b) -> (<[p := o]> O1 !! x ≫= is_group) = Some g /\ queue_at (<[p := o]> O1) x = Some [].
Proof.
  intros H1 H2 x g b Hx. rewrite queue_at_insert. destruct (bool_decide_reflect (x = p)) as [->|Hne].
  - rewrite lookup_insert_eq. cbn. by eapply H2.
  - rewrite lookup_insert_ne by done. by eapply H1.
Qed.

Lemma list_same O1 :
  (forall x, is_Some (readers_of O1 x) <-> is_Some (readers_of O x)) -> NoDup wl /\ forall p, p ∈ wl <-> is_Some (readers_of O1 p).
Proof. intros H. destruct (li_list _ _ _ _ HL) as [Hn Hl]. split; [done|]. intros p. by rewrite H. Qed.

Lemma unclosed p : O !! p = None -> K !! p = None.
Proof. intros Hp. destruct (K !! p) as [[g b]|] eqn:E; [|done]. apply (li_closing _ _ _ _ HL) in E as [E _]. by rewrite Hp in E. Qed.

(** port_create. *)
Lemma links_create a b buf mode name :
  a <> NULL -> b <> NULL -> O !! a = None -> Bf !! b = None -> ring buf [] ->
  links (<[a := WritePort (Write_port WRITEPORT_MAGIC_W b [] mode name)]> O) (<[b := buf]> Bf) (wl ++ [a]) K.
Proof.
  intros Ha Hb HO HB Hr. pose proof (unclosed a HO) as HK. destruct HL as [H0 [Hn Hl] Hm Hbf Hw Hg Ho Hc]. constructor.
  - by apply null_insert.
  - assert (Hal : a ∉ wl) by (rewrite Hl; unfold readers_of; rewrite HO; by intros [? ?]). split.
    + apply NoDup_app. split_and!; [done| |apply NoDup_singleton]. intros x Hx ->%list_elem_of_singleton. done.
    + intros p. rewrite elem_of_app, list_elem_of_singleton, Hl. unfold readers_of. destruct (decide (p = a)) as [->|].
      * rewrite lookup_insert_eq. cbn. split; [done|by right].
      * rewrite lookup_insert_ne by done. naive_solver.
  - apply magic_insert; [done|by left].
  - apply buf_insert; [done|done].
  - apply (backlinks_head (readers_of O) _ (wport_of O K) _ a); [done|unfold readers_of; by rewrite HO|done|proj|proj].
  - apply (backlinks_ext (members_of O) _ (gport_of O K)); [done|proj|proj].
  - apply (owned_new (own O K) _ Bf Ho a b); [left; unfold own; by rewrite HK, HO|done|done|proj].
  - apply closing_insert; [done|]. intros g b'. by rewrite HK.
Qed.

(** A read port that is not opened on anything yet. *)
Lemma links_read_port a b buf ctx :
  a <> NULL -> b <> NULL -> O !! a = None -> Bf !! b = None -> ring buf [] ->
  links (<[a := ReadPort (Read_port READPORT_MAGIC b ctx [] NULL NULL)]> O) (<[b := buf]> Bf) wl K.
Proof.
  intros Ha Hb HO HB Hr. pose proof (unclosed a HO) as HK. pose proof HL as [H0 _ Hm Hbf Hw Hg Ho Hc]. constructor.
  - by apply null_insert.
  - apply list_same. intros x. unfold readers_of. destruct (decide (x = a)) as [->|]; [|by rewrite lookup_insert_ne].
    rewrite lookup_insert_eq, HO. cbn. tauto.
  - by apply magic_insert.
  - apply buf_insert; [done|cbn; auto].
  - apply (backlinks_node (readers_of O) _ (wport_of O K) _ a (Some NULL)); [done|left; unfold wport_of; by rewrite HK, HO|by right|proj|proj].
  - apply (backlinks_node (members_of O) _ (gport_of O K) _ a (Some NULL)); [done|left; unfold gport_of; by rewrite HK, HO|by right|proj|proj].
  - apply (owned_new (own O K) _ Bf Ho a b); [left; unfold own; by rewrite HK, HO|done|done|proj].
  - apply closing_insert; [done|]. intros g b'. by rewrite HK.
Qed.

Definition rp_linked (r : read_port) (b w : Z) : port_obj := ReadPort (Read_port (rp_magic r) b (rp_ctx r) (rp_wait r) w (rp_gport r)).
Definition wp_linked (w : write_port) (b : Z) (l : list Z) : port_obj := WritePort (Write_port (wp_magic w) b l (wp_mode w) (wp_name w)).

(** port_open on a port that has readers. *)
Lemma links_attach_next a p r w :
  O !! a = Some (ReadPort r) -> K !! a = None -> rp_wport r = NULL -> O !! p = Some (WritePort w) -> wp_buf w = NULL ->
  links (<[p := wp_linked w NULL (wp_rp_list w ++ [a])]> (<[a := rp_linked r (rp_buf r) p]> O)) Bf wl K.
Proof.
  intros Ha HK Hr Hp Hwb. assert (Hap : a <> p) by congruence. pose proof HL as [H0 _ Hm Hbf Hw Hg Ho Hc]. assert (Hp0 : p <> NULL) by congruence.
  assert (HKp : K !! p = None).
  { destruct (K !! p) as [[g b]|] eqn:E; [|done]. apply Hc in E as [E _]. by rewrite Hp in E. }
  assert (Ha0 : a <> NULL) by congruence. constructor.
  - by repeat apply null_insert.
  - apply list_same. intros x. unfold readers_of. destruct (decide (x = p)) as [->|]; [by rewrite lookup_insert_eq, Hp|].
    rewrite lookup_insert_ne by done. destruct (decide (x = a)) as [->|]; [by rewrite lookup_insert_eq, Ha|by rewrite lookup_insert_ne].
  - apply magic_insert; [apply magic_insert; [done|apply (Hm _ _ Ha)]|apply (Hm _ _ Hp)].
  - apply buf_insert; [apply buf_insert; [done|apply (Hbf _ _ Ha)]|]. split; [by destruct (wp_rp_list w)|done].
  - apply (backlinks_add (readers_of O) _ (wport_of O K) _ p (wp_rp_list w) a); [done|unfold readers_of; by rewrite Hp|unfold wport_of; rewrite HK, Ha; cbn; by rewrite Hr|done|proj|proj].
  - apply (backlinks_ext (members_of O) _ (gport_of O K)); [done|proj|proj].
  - apply (owned_ext (own O K) _ Bf Ho); proj. cbn. by rewrite Hwb.
  - apply closing_insert; [apply closing_insert; [done|]|]; intros g b'; by rewrite ?HK, ?HKp.
Qed.

(** port_open on a port that has none: the buffer of the port changes hands. *)
Lemma links_attach_first a p r w :
  O !! a = Some (ReadPort r) -> K !! a = None -> rp_wport r = NULL -> O !! p = Some (WritePort w) -> wp_buf w <> NULL ->
  links (<[p := wp_linked w NULL (wp_rp_list w ++ [a])]> (<[a := rp_linked r (wp_buf w) p]> O)) (delete (rp_buf r) Bf) wl K.
Proof.
  intros Ha HK Hr Hp Hwb. assert (Hap : a <> p) by congruence. pose proof HL as [H0 _ Hm Hbf Hw Hg Ho Hc]. assert (Hp0 : p <> NULL) by congruence.
  assert (HKp : K !! p = None).
  { destruct (K !! p) as [[g b]|] eqn:E; [|done]. apply Hc in E as [E _]. by rewrite Hp in E. }
  assert (Ha0 : a <> NULL) by congruence. assert (Hoa : own O K a = Some (rp_buf r)) by (unfold own; by rewrite HK, Ha).
  assert (Hop : own O K p = Some (wp_buf w)) by (unfold own; by rewrite HKp, Hp). constructor.
  - by repeat apply null_insert.
  - apply list_same. intros x. unfold readers_of. destruct (decide (x = p)) as [->|]; [by rewrite lookup_insert_eq, Hp|].
    rewrite lookup_insert_ne by done. destruct (decide (x = a)) as [->|]; [by rewrite lookup_insert_eq, Ha|by rewrite lookup_insert_ne].
  - apply magic_insert; [apply magic_insert; [done|apply (Hm _ _ Ha)]|apply (Hm _ _ Hp)].
  - apply buf_insert; [apply buf_insert; [done|cbn; auto]|]. split; [by destruct (wp_rp_list w)|done].
  - apply (backlinks_add (readers_of O) _ (wport_of O K) _ p (wp_rp_list w) a); [done|unfold readers_of; by rewrite Hp|unfold wport_of; rewrite HK, Ha; cbn; by rewrite Hr|done|proj|proj].
  - apply (backlinks_ext (members_of O) _ (gport_of O K)); [done|proj|proj].
  - pose proof (owned_free (own O K) (fupd (own O K) a (Some NULL)) Bf Ho a (rp_buf r) (Some NULL) Hoa ltac:(by right) ltac:(done)) as Ho1.
    apply (owned_move (fupd (own O K) a (Some NULL)) _ _ Ho1 p a (wp_buf w) (Some NULL)); [by rewrite fupd_ne|done|by right|right; by rewrite fupd_eq|proj].
  - apply closing_insert; [apply closing_insert; [done|]|]; intros g b'; by rewrite ?HK, ?HKp.
Qed.

Lemma unclosed_kind p o : O !! p = Some o -> is_group o = None -> K !! p = None.
Proof.
  intros Hp Hk. destruct (K !! p) as [[g b]|] eqn:E; [|done]. apply (li_closing _ _ _ _ HL) in E as [E _]. rewrite Hp in E. cbn in E. congruence.
Qed.

(** port_group: the empty group. *)
Lemma links_group a : a <> NULL -> O !! a = None -> links (<[a := PortGroup (Port_group PORTGROUP_MAGIC [] [])]> O) Bf wl K.
Proof.
  intros Ha HO. pose proof (unclosed a HO) as HK. pose proof HL as [H0 _ Hm Hbf Hw Hg Ho Hc]. constructor.
  - by apply null_insert.
  - apply list_same. intros x. unfold readers_of. destruct (decide (x = a)) as [->|]; [|by rewrite lookup_insert_ne].
    rewrite lookup_insert_eq, HO. cbn. tauto.
  - by apply magic_insert.
  - apply buf_insert; [done|cbn; auto].
  - apply (backlinks_ext (readers_of O) _ (wport_of O K)); [done|proj|proj].
  - apply (backlinks_head (members_of O) _ (gport_of O K) _ a); [done|unfold members_of; by rewrite HO|done|proj|proj].
  - apply (owned_less (own O K) _ Bf Ho a (Some NULL)); [by right|proj].
  - apply closing_insert; [done|]. intros g b'. by rewrite HK.
Qed.

Definition rp_grouped (r : read_port) (g : Z) : port_obj := ReadPort (Read_port (rp_magic r) (rp_buf r) (rp_ctx r) (rp_wait r) (rp_wport r) g).
Definition pg_listed (g : port_group) (l : list Z) : port_obj := PortGroup (Port_group (pg_magic g) (pg_wait g) l).

(** A port joins a group. *)
Lemma links_join r rp g pg :
  O !! r = Some (ReadPort rp) -> K !! r = None -> rp_gport rp = NULL -> O !! g = Some (PortGroup pg) ->
  links (<[g := pg_listed pg (pg_rp_list pg ++ [r])]> (<[r := rp_grouped rp g]> O)) Bf wl K.
Proof.
  intros Hr HK Hrg Hg'. assert (Hne : r <> g) by congruence. pose proof HL as [H0 _ Hm Hbf Hw Hg Ho Hc].
  assert (Hg0 : g <> NULL) by congruence. assert (Hr0 : r <> NULL) by congruence. constructor.
  - by repeat apply null_insert.
  - apply list_same. intros x. unfold readers_of. destruct (decide (x = g)) as [->|]; [by rewrite lookup_insert_eq, Hg'|].
    rewrite lookup_insert_ne by done. destruct (decide (x = r)) as [->|]; [by rewrite lookup_insert_eq, Hr|by rewrite lookup_insert_ne].
  - apply magic_insert; [apply magic_insert; [done|apply (Hm _ _ Hr)]|apply (Hm _ _ Hg')].
  - apply buf_insert; [apply buf_insert; [done|apply (Hbf _ _ Hr)]|done].
  - apply (backlinks_ext (readers_of O) _ (wport_of O K)); [done|proj|proj].
  - apply (backlinks_add (members_of O) _ (gport_of O K) _ g (pg_rp_list pg) r); [done|unfold members_of; by rewrite Hg'|unfold gport_of; rewrite HK, Hr; cbn; by rewrite Hrg|done|proj|proj].
  - apply (owned_ext (own O K) _ Bf Ho); proj.
  - apply closing_insert; [apply closing_insert; [done|]|]; intros g' b' Hk; [by rewrite HK in Hk|].
    apply Hc in Hk as [Hk1 Hk2]. unfold queue_at in Hk2. rewrite Hg' in Hk1, Hk2. done.
Qed.

(** Closing the write side. *)
Lemma links_closed p w :
  O !! p = Some (WritePort w) ->
  links (<[p := WritePort (Write_port WRITEPORT_MAGIC_X (wp_buf w) (wp_rp_list w) (wp_mode w) (wp_name w))]> O) Bf wl K.
Proof.
  intros Hp. pose proof (unclosed_kind p _ Hp eq_refl) as HK. pose proof HL as [H0 _ Hm Hbf Hw Hg Ho Hc]. assert (Hp0 : p <> NULL) by congruence. constructor.
  - by apply null_insert.
  - apply list_same. intros x. unfold readers_of. destruct (decide (x = p)) as [->|]; [by rewrite lookup_insert_eq, Hp|by rewrite lookup_insert_ne].
  - apply magic_insert; [done|by right].
  - apply buf_insert; [done|apply (Hbf _ _ Hp)].
  - apply (backlinks_ext (readers_of O) _ (wport_of O K)); [done|proj|proj].
  - apply (backlinks_ext (members_of O) _ (gport_of O K)); [done|proj|proj].
  - apply (owned_ext (own O K) _ Bf Ho); proj.
  - apply closing_insert; [done|]. intros g b. by rewrite HK.
Qed.

(** New contents of a buffer. *)
Lemma links_buf b buf q : ring buf q -> links O (<[b := buf]> Bf) wl K.
Proof. intros Hq. pose proof HL as [H0 Hl Hm Hbf Hw Hg Ho Hc]. constructor; try done. by eapply owned_buf. Qed.

(** An object that nothing points to goes, with its buffer. *)
Lemma links_gone p g b Bf' :
  K !! p = Some (g, b) -> (g = true -> members_of O p = Some []) -> (Bf' = Bf \/ Bf' = delete b Bf) ->
  links (delete p O) Bf' wl (delete p K).
Proof.
  intros HK Hmem HB. pose proof HL as [H0 Hl Hm Hbf Hw Hg Ho Hc]. destruct (Hc _ _ _ HK) as [Hkind Hq].
  assert (Hr : readers_of O p = None) by (unfold readers_of; destruct (O !! p) as [[]|]; done).
  assert (Hwp : wport_of O K p = None) by (unfold wport_of; by rewrite HK). assert (Hgp : gport_of O K p = None) by (unfold gport_of; by rewrite HK).
  assert (Hop : own O K p = Some b) by (unfold own; by rewrite HK).
  assert (Hown : forall x, own (delete p O) (delete p K) x = fupd (own O K) p None x) by proj. constructor.
  - rewrite lookup_delete_ne; [done|]. intros ->. by rewrite H0 in Hkind.
  - apply list_same. intros x. destruct (decide (x = p)) as [->|]; [rewrite Hr; unfold readers_of; by rewrite lookup_delete_eq|].
    unfold readers_of. by rewrite lookup_delete_ne.
  - intros x o [Hne Hx]%lookup_delete_Some. by eapply Hm.
  - intros x o [Hne Hx]%lookup_delete_Some. apply Hbf in Hx. destruct o; cbn in *; [done| |done]. by rewrite lookup_delete_ne.
  - apply (backlinks_node (readers_of O) _ (wport_of O K) _ p None); [done|by left|by left| |proj].
    intros x. destruct (decide (x = p)) as [->|]; [rewrite Hr; unfold readers_of; by rewrite lookup_delete_eq|]. unfold readers_of. by rewrite lookup_delete_ne.
  - destruct g.
    + apply (backlinks_drop (members_of O) _ (gport_of O K) _ p []); [done|by apply Hmem|proj|].
      intros x. rewrite bool_decide_false by set_solver. destruct (decide (x = p)) as [->|]; [rewrite Hgp; unfold gport_of; by rewrite !lookup_delete_eq|].
      unfold gport_of. by rewrite !lookup_delete_ne.
    + assert (Hmp : members_of O p = None) by (unfold members_of; destruct (O !! p) as [[]|]; done).
      apply (backlinks_node (members_of O) _ (gport_of O K) _ p None); [done|by left|by left| |proj].
      intros x. destruct (decide (x = p)) as [->|]; [rewrite Hmp; unfold members_of; by rewrite lookup_delete_eq|]. unfold members_of. by rewrite lookup_delete_ne.
  - destruct HB as [-> | ->].
    + apply (owned_less (own O K) _ Bf Ho p None); [by left|done].
    + apply (owned_free (own O K) _ Bf Ho p b None); [done|by left|done].
  - intros x g' b' [Hne Hx]%lookup_delete_Some. unfold queue_at. rewrite lookup_delete_ne by done. by eapply Hc.
Qed.

(** A member of a group leaves it when the group goes. *)
Definition ungroup (l : list Z) (O1 : objects) : Prop :=
  forall x, O1 !! x = (if bool_decide (x ∈ l) then (fun o => match o with ReadPort r => rp_grouped r NULL | _ => o end) <$> O !! x else O !! x).

(** The members of a group forget it, and it forgets them. *)
Lemma links_ungroup O1 g pg :
  O !! g = Some (PortGroup pg) -> ungroup (pg_rp_list pg) O1 -> links (<[g := pg_listed pg []]> O1) Bf wl K.
Proof.
  intros Hg' Hun. pose proof HL as [H0 Hl Hm Hbf Hw Hg Ho Hc]. assert (Hg0 : g <> NULL) by congruence.
  assert (Hmem : members_of O g = Some (pg_rp_list pg)) by (unfold members_of; by rewrite Hg').
  assert (Hrp : forall x, x ∈ pg_rp_list pg -> exists r, O !! x = Some (ReadPort r) /\ K !! x = None).
  { intros x Hx. pose proof (bl_fwd _ _ Hg _ _ _ Hmem Hx) as E. unfold gport_of in E. destruct (K !! x); [done|]. destruct (O !! x) as [[]|]; try done. eauto. }
  assert (Hgl : g ∉ pg_rp_list pg) by (intros Hx; destruct (Hrp g Hx) as (? & ? & _); congruence).
  assert (Hcase : forall x, (x = g /\ <[g := pg_listed pg []]> O1 !! x = Some (pg_listed pg []) /\ O !! x = Some (PortGroup pg)) \/
    (x <> g /\ x ∈ pg_rp_list pg /\ K !! x = None /\ exists r, O !! x = Some (ReadPort r) /\ <[g := pg_listed pg []]> O1 !! x = Some (rp_grouped r NULL)) \/
    (x <> g /\ x ∉ pg_rp_list pg /\ <[g := pg_listed pg []]> O1 !! x = O !! x)).
  { intros x. destruct (decide (x = g)) as [->|Hne]; [left; by rewrite lookup_insert_eq|right; rewrite lookup_insert_ne by done; rewrite Hun].
    destruct (bool_decide_reflect (x ∈ pg_rp_list pg)) as [Hx|Hx]; [left|by right]. destruct (Hrp x Hx) as (r & Hr & HKx). rewrite Hr.
    split_and!; [done|done|done|]. exists r. split; [done|]. rewrite ?Hun, bool_decide_true, Hr by done. done. }
  constructor.
  - destruct (Hcase NULL) as [(E & _)|[(_ & _ & _ & r & E & _)|(_ & _ & ->)]]; [congruence|congruence|done].
  - apply list_same. intros x. unfold readers_of. destruct (Hcase x) as [(_ & -> & ->)|[(_ & _ & _ & r & -> & ->)|(_ & _ & ->)]]; cbn; tauto.
  - intros x o. destruct (Hcase x) as [(_ & -> & Hx)|[(_ & _ & _ & r & Hx & ->)|(_ & _ & ->)]]; [intros [= <-]; apply (Hm _ _ Hx)|intros [= <-]; apply (Hm _ _ Hx)|apply Hm].
  - intros x o. destruct (Hcase x) as [(_ & -> & Hx)|[(_ & _ & _ & r & Hx & ->)|(_ & _ & ->)]]; [intros [= <-]; apply (Hbf _ _ Hx)|intros [= <-]; apply (Hbf _ _ Hx)|apply Hbf].
  - apply (backlinks_ext (readers_of O) _ (wport_of O K)); [done| |]; intros x; unfold readers_of, wport_of;
      destruct (Hcase x) as [(_ & -> & ->)|[(_ & _ & _ & r & -> & ->)|(_ & _ & ->)]]; done.
  - pose proof (backlinks_drop (members_of O) (fupd (members_of O) g None) (gport_of O K)
      (fun x => if bool_decide (x ∈ pg_rp_list pg) then Some NULL else gport_of O K x) g _ Hg Hmem ltac:(done) ltac:(done)) as Hg1.
    eapply (backlinks_head _ _ _ _ g Hg1); [by rewrite fupd_eq|done| |]; intros x; unfold fupd, members_of, gport_of;
      destruct (Hcase x) as [(-> & -> & Hx)|[(Hne & Hx & HKx & r & Hx2 & ->)|(Hne & Hx & ->)]]; repeat case_bool_decide; try done; first [by rewrite Hx|by rewrite HKx, Hx2|by rewrite Hx2|by rewrite HKx].
  - apply (owned_ext (own O K) _ Bf Ho). intros x. unfold own. destruct (Hcase x) as [(_ & -> & ->)|[(_ & _ & _ & r & -> & ->)|(_ & _ & ->)]]; done.
  - intros x g' b Hx. destruct (Hc _ _ _ Hx) as [H1 H2]. unfold queue_at in *.
    destruct (Hcase x) as [(_ & -> & Hx')|[(_ & _ & HKx & _)|(_ & _ & ->)]]; [by rewrite Hx' in H1, H2|congruence|done].
Qed.

(** A closing call has woken everybody: a group. *)
Lemma links_close_group g pg :
  O !! g = Some (PortGroup pg) -> pg_wait pg = [] -> links O Bf wl (<[g := (true, NULL)]> K).
Proof.
  intros Hg' Hq. pose proof HL as [H0 Hl Hm Hbf Hw Hg Ho Hc].
  constructor; try done.
  - intros x o Hx. pose proof (Hbf _ _ Hx) as Hb. destruct o; cbn in *; [done| |done]. rewrite lookup_insert_ne; [done|congruence].
  - apply (backlinks_ext (readers_of O) _ (wport_of O K)); [done|proj|]. intros x. unfold wport_of. destruct (decide (x = g)) as [->|].
    + rewrite lookup_insert_eq, Hg'. by destruct (K !! g).
    + by rewrite lookup_insert_ne.
  - apply (backlinks_ext (members_of O) _ (gport_of O K)); [done|proj|]. intros x. unfold gport_of. destruct (decide (x = g)) as [->|].
    + rewrite lookup_insert_eq, Hg'. by destruct (K !! g).
    + by rewrite lookup_insert_ne.
  - apply (owned_less (own O K) _ Bf Ho g (Some NULL)); [by right|proj].
  - intros x g' b [[<- [= <- <-]]|[_ Hx]]%lookup_insert_Some; [|by eapply Hc]. unfold queue_at. rewrite Hg'. cbn. by rewrite Hq.
Qed.

(** A read port that leaves its group. *)
Lemma links_leave r rp g pg :
  O !! r = Some (ReadPort rp) -> K !! r = None -> rp_gport rp = g -> g <> NULL -> O !! g = Some (PortGroup pg) -> r ∈ pg_rp_list pg ->
  links (<[g := pg_listed pg (filter (fun x => x <> r) (pg_rp_list pg))]> (<[r := rp_grouped rp NULL]> O)) Bf wl K.
Proof.
  intros Hr HK Hrg Hg0 Hg' Hin. assert (Hne : r <> g) by congruence. pose proof HL as [H0 _ Hm Hbf Hw Hg Ho Hc]. assert (Hr0 : r <> NULL) by congruence. constructor.
  - by repeat apply null_insert.
  - apply list_same. intros x. unfold readers_of. destruct (decide (x = g)) as [->|]; [by rewrite lookup_insert_eq, Hg'|].
    rewrite lookup_insert_ne by done. destruct (decide (x = r)) as [->|]; [by rewrite lookup_insert_eq, Hr|by rewrite lookup_insert_ne].
  - apply magic_insert; [apply magic_insert; [done|apply (Hm _ _ Hr)]|apply (Hm _ _ Hg')].
  - apply buf_insert; [apply buf_insert; [done|apply (Hbf _ _ Hr)]|done].
  - apply (backlinks_ext (readers_of O) _ (wport_of O K)); [done|proj|proj].
  - apply (backlinks_remove (members_of O) _ (gport_of O K) _ g (pg_rp_list pg) r (Some NULL)); [done|unfold members_of; by rewrite Hg'|done|by right|proj|proj].
  - apply (owned_ext (own O K) _ Bf Ho); proj.
  - apply closing_insert; [apply closing_insert; [done|]|]; intros g' b' Hk; [by rewrite HK in Hk|].
    apply Hc in Hk as [Hk1 Hk2]. unfold queue_at in Hk2. rewrite Hg' in Hk1, Hk2. done.
Qed.

(** What a read port points to does not matter once it is being closed. *)
Lemma links_closing_any p r r' b :
  O !! p = Some (ReadPort r) -> K !! p = Some (false, b) -> rp_magic r' = READPORT_MAGIC -> rp_wait r' = [] ->
  links (<[p := ReadPort r']> O) Bf wl K.
Proof.
  intros Hp HK Hmg Hwt. pose proof HL as [H0 _ Hm Hbf Hw Hg Ho Hc]. assert (Hp0 : p <> NULL) by congruence. constructor.
  - by apply null_insert.
  - apply list_same. intros x. unfold readers_of. destruct (decide (x = p)) as [->|]; [by rewrite lookup_insert_eq, Hp|by rewrite lookup_insert_ne].
  - by apply magic_insert.
  - apply buf_insert; [done|cbn; congruence].
  - apply (backlinks_ext (readers_of O) _ (wport_of O K)); [done|proj|proj].
  - apply (backlinks_ext (members_of O) _ (gport_of O K)); [done|proj|proj].
  - apply (owned_ext (own O K) _ Bf Ho); proj.
  - apply closing_insert; [done|]. intros g' b' Hk. rewrite HK in Hk. injection Hk as <- <-. cbn. by rewrite Hwt.
Qed.

(** A closing call has woken everybody: a read port in no list, whose buffer is forgotten. *)
Lemma links_close_orphan p r :
  O !! p = Some (ReadPort r) -> K !! p = None -> rp_wport r = NULL -> rp_gport r = NULL -> rp_wait r = [] ->
  links O Bf wl (<[p := (false, NULL)]> K).
Proof.
  intros Hp HK Hrw Hrg Hq. pose proof HL as [H0 Hl Hm Hbf Hw Hg Ho Hc]. constructor; try done.
  - intros x o Hx. pose proof (Hbf _ _ Hx) as Hb. destruct o; cbn in *; [done| |done]. destruct (decide (x = p)) as [->|]; [by rewrite lookup_insert_eq|by rewrite lookup_insert_ne].
  - apply (backlinks_node (readers_of O) _ (wport_of O K) _ p None); [done|right; unfold wport_of; rewrite HK, Hp; cbn; by rewrite Hrw|by left|done|proj].
  - apply (backlinks_node (members_of O) _ (gport_of O K) _ p None); [done|right; unfold gport_of; rewrite HK, Hp; cbn; by rewrite Hrg|by left|done|proj].
  - apply (owned_less (own O K) _ Bf Ho p (Some NULL)); [by right|proj].
  - intros x g' b [[<- [= <- <-]]|[_ Hx]]%lookup_insert_Some; [|by eapply Hc]. unfold queue_at. rewrite Hp. cbn. by rewrite Hq.
Qed.

(** One that leaves its write port: the last reader gives its buffer back. *)
Lemma links_close_reader p r wp w l' :
  O !! p = Some (ReadPort r) -> K !! p = None -> rp_wport r = wp -> wp <> NULL -> rp_gport r = NULL -> rp_wait r = [] ->
  O !! wp = Some (WritePort w) -> p ∈ wp_rp_list w -> l' = filter (fun x => x <> p) (wp_rp_list w) ->
  links (<[wp := wp_linked w (if bool_decide (l' = []) then rp_buf r else wp_buf w) l']> O) Bf wl
    (<[p := (false, if bool_decide (l' = []) then NULL else rp_buf r)]> K).
Proof.
  intros Hp HK Hrw Hw0 Hrg Hq Hwp Hin Hl'. assert (Hne : p <> wp) by congruence. pose proof HL as [H0 Hl Hm Hbf Hw Hg Ho Hc]. assert (Hp0 : p <> NULL) by congruence.
  pose proof (unclosed_kind wp _ Hwp eq_refl) as HKw. pose proof (Hbf _ _ Hwp) as Hbw. pose proof (Hbf _ _ Hp HK) as Hbp. cbn in Hbw.
  assert (Hwb : wp_buf w = NULL) by (apply Hbw; intros E; rewrite E in Hin; set_solver). constructor.
  - by apply null_insert.
  - apply list_same. intros x. unfold readers_of. destruct (decide (x = wp)) as [->|]; [by rewrite lookup_insert_eq, Hwp|by rewrite lookup_insert_ne].
  - apply magic_insert; [done|apply (Hm _ _ Hwp)].
  - apply buf_insert.
    + intros x o Hx. pose proof (Hbf _ _ Hx) as Hb. destruct o; cbn in *; [done| |done]. destruct (decide (x = p)) as [->|]; [by rewrite lookup_insert_eq|by rewrite lookup_insert_ne].
    + cbn. rewrite Hwb. destruct (bool_decide_reflect (l' = [])); naive_solver.
  - apply (backlinks_remove (readers_of O) _ (wport_of O K) _ wp (wp_rp_list w) p None); [done|unfold readers_of; by rewrite Hwp|done|by left| |proj].
    rewrite <- Hl'. proj.
  - apply (backlinks_node (members_of O) _ (gport_of O K) _ p None); [done|right; unfold gport_of; rewrite HK, Hp; cbn; by rewrite Hrg|by left|proj|proj].
  - assert (Hop : own O K p = Some (rp_buf r)) by (unfold own; by rewrite HK, Hp). assert (How : own O K wp = Some NULL) by (unfold own; rewrite HKw, Hwp; cbn; by rewrite Hwb).
    destruct (bool_decide_reflect (l' = [])).
    + apply (owned_move (own O K) _ Bf Ho p wp (rp_buf r) (Some NULL)); [done|done|by right|by right|proj].
    + apply (owned_ext (own O K) _ Bf Ho). proj.
  - intros x g' b [[<- [= <- _]]|[Hxp Hx]]%lookup_insert_Some.
    + unfold queue_at. rewrite lookup_insert_ne, Hp by done. cbn. by rewrite Hq.
    + eapply (closing_insert O K wp _ Hc); [|exact Hx]. intros g'' b''. by rewrite HKw.
Qed.

(** port_destroy: the readers of the port forget it. *)
Definition unport (l : list Z) (O1 : objects) : Prop :=
  forall x, O1 !! x = (if bool_decide (x ∈ l) then (fun o => match o with ReadPort r => rp_linked r (rp_buf r) NULL | _ => o end) <$> O !! x else O !! x).

Lemma links_destroy O1 p w :
  O !! p = Some (WritePort w) -> unport (wp_rp_list w) O1 ->
  links (delete p O1) (if wp_buf w =? NULL then Bf else delete (wp_buf w) Bf) (filter (fun x => x <> p) wl) K.
Proof.
  intros Hp Hun. pose proof HL as [H0 [Hn Hl] Hm Hbf Hw Hg Ho Hc]. pose proof (unclosed_kind p _ Hp eq_refl) as HK.
  assert (Hrd : readers_of O p = Some (wp_rp_list w)) by (unfold readers_of; by rewrite Hp).
  assert (Hrp : forall x, x ∈ wp_rp_list w -> exists r, O !! x = Some (ReadPort r) /\ K !! x = None).
  { intros x Hx. pose proof (bl_fwd _ _ Hw _ _ _ Hrd Hx) as E. unfold wport_of in E. destruct (K !! x); [done|]. destruct (O !! x) as [[]|]; try done. eauto. }
  assert (Hcase : forall x, (x = p /\ delete p O1 !! x = None) \/
    (x <> p /\ x ∈ wp_rp_list w /\ K !! x = None /\ exists r, O !! x = Some (ReadPort r) /\ delete p O1 !! x = Some (rp_linked r (rp_buf r) NULL)) \/
    (x <> p /\ x ∉ wp_rp_list w /\ delete p O1 !! x = O !! x)).
  { intros x. destruct (decide (x = p)) as [->|Hne]; [left; by rewrite lookup_delete_eq|right; rewrite lookup_delete_ne by done; rewrite Hun].
    destruct (bool_decide_reflect (x ∈ wp_rp_list w)) as [Hx|Hx]; [left|by right]. destruct (Hrp x Hx) as (r & Hr & HKx). rewrite Hr.
    split_and!; [done|done|done|]. exists r. split; [done|]. rewrite ?lookup_delete_ne by done. rewrite ?Hun, bool_decide_true, Hr by done. done. }
  assert (Hpl : p ∉ wp_rp_list w) by (intros Hx; destruct (Hrp p Hx) as (? & ? & _); congruence).
  constructor.
  - destruct (Hcase NULL) as [(_ & E)|[(_ & _ & _ & r & E & _)|(_ & _ & ->)]]; [done|congruence|done].
  - split; [by apply NoDup_filter|]. intros x. rewrite list_elem_of_filter, Hl. unfold readers_of.
    destruct (Hcase x) as [(-> & ->)|[(Hne & _ & _ & r & -> & ->)|(Hne & _ & ->)]]; cbn; [|tauto|tauto].
    split; [intros [? _]; done|by intros [? ?]].
  - intros x o. destruct (Hcase x) as [(_ & ->)|[(_ & _ & _ & r & Hx & ->)|(_ & _ & ->)]]; [done|intros [= <-]; apply (Hm _ _ Hx)|apply Hm].
  - intros x o. destruct (Hcase x) as [(_ & ->)|[(_ & _ & _ & r & Hx & ->)|(_ & _ & ->)]]; [done|intros [= <-]; apply (Hbf _ _ Hx)|apply Hbf].
  - apply (backlinks_drop (readers_of O) _ (wport_of O K) _ p (wp_rp_list w)); [done|done| |]; intros x; unfold fupd, readers_of, wport_of;
      destruct (Hcase x) as [(-> & ->)|[(Hne & Hx & HKx & r & Hx2 & ->)|(Hne & Hx & ->)]]; repeat case_bool_decide; try done;
      first [by rewrite HK, Hp|by rewrite HKx, Hx2|by rewrite Hx2|by rewrite HKx].
  - apply (backlinks_ext (members_of O) _ (gport_of O K)); [done| |]; intros x; unfold members_of, gport_of;
      destruct (Hcase x) as [(-> & ->)|[(_ & _ & _ & r & -> & ->)|(_ & _ & ->)]]; try done; by rewrite ?HK, Hp.
  - assert (Hop : own O K p = Some (wp_buf w)) by (unfold own; by rewrite HK, Hp).
    assert (Hown : forall x, own (delete p O1) K x = fupd (own O K) p None x).
    { intros x. unfold own, fupd. destruct (Hcase x) as [(-> & ->)|[(Hne & Hx & HKx & r & Hx2 & ->)|(Hne & Hx & ->)]]; repeat case_bool_decide; try done;
        [by rewrite HK|by rewrite HKx, Hx2]. }
    destruct (wp_buf w =? NULL); [apply (owned_less (own O K) _ Bf Ho p None)|apply (owned_free (own O K) _ Bf Ho p (wp_buf w) None)]; try done; by left.
  - intros x g' b Hx. destruct (Hc _ _ _ Hx) as [H1 H2]. unfold queue_at in *.
    destruct (Hcase x) as [(-> & _)|[(_ & _ & HKx & _)|(_ & _ & ->)]]; [congruence|congruence|done].
Qed.
End changes.
