(* ===== verification/PortOps.v ===== *)
(** * Ports: every call returns, keeps the objects consistent, and moves the packets *)

From stdpp Require Import prelude list gmap.
From Stdlib Require Import ZArith Lia.
From S2P Require Import Prelude Pow2 Timer Kernel Mutex Port PortInv PortLinks.

Open Scope Z_scope.
Open Scope lk_scope.

Notation readers := (gmap tid read_call).

(** ** The packets of a port *)

Definition contents (buf : port_buf) : list (list Z) :=
  (fun i => default [] (packet buf !! Z.to_nat ((head buf + Z.of_nat i) mod size_of buf))) <$> seq 0 (Z.to_nat (size_of buf - avail buf)).

Lemma ring_contents buf q : ring buf q -> contents buf = q.
Proof.
  intros [[Hl Hlen Hh Ht Hf Hat] Ha]. apply list_eq. intros i. unfold contents. rewrite list_lookup_fmap.
  replace (Z.to_nat (size_of buf - avail buf)) with (length q) by lia. destruct (q !! i) as [x|] eqn:E.
  - rewrite lookup_seq_lt by by eapply lookup_lt_Some. cbn. by rewrite (Hat i x E).
  - rewrite lookup_seq_ge by by apply lookup_ge_None. done.
Qed.

(** What is queued at a port (at a write port while it has no readers), and the room left. *)
Definition buf_at (O : objects) (Bf : gmap Z port_buf) (p : Z) : option port_buf := o ← O !! p; Bf !! buf_of o.
Definition pkts (O : objects) (Bf : gmap Z port_buf) (p : Z) : list (list Z) :=
  match buf_at O Bf p with Some buf => contents buf | None => [] end.
Definition room (O : objects) (Bf : gmap Z port_buf) (p : Z) : Z :=
  match buf_at O Bf p with Some buf => avail buf | None => 0 end.

Lemma buf_at_shape O O' Bf p : same_shape O O' -> buf_at O' Bf p = buf_at O Bf p.
Proof. apply same_shape_bind. by intros []. Qed.

Lemma own_buf O K p o : O !! p = Some o -> K !! p = None -> own O K p = Some (buf_of o).
Proof. intros Hp HK. unfold own. by rewrite HK, Hp. Qed.

(** A buffer has one owner: other ports do not see it change. *)
Lemma buf_at_insert O Bf wl K p o b buf x :
  links O Bf wl K -> O !! p = Some o -> buf_of o = b -> b <> NULL -> K !! p = None -> K !! x = None ->
  buf_at O (<[b := buf]> Bf) x = if bool_decide (x = p) then Some buf else buf_at O Bf x.
Proof.
  intros HL Hp Hb Hb0 HK HKx. unfold buf_at. destruct (bool_decide_reflect (x = p)) as [->|Hne]; [rewrite Hp; cbn; rewrite Hb; apply lookup_insert_eq|].
  destruct (O !! x) as [o'|] eqn:Hx; [|done]. cbn. rewrite lookup_insert_ne; [done|]. intros E. apply Hne.
  apply (ow_inj _ _ (li_own _ _ _ _ HL) x p b); [rewrite (own_buf _ _ _ _ Hx HKx); congruence|rewrite (own_buf _ _ _ _ Hp HK); congruence|done].
Qed.

(** The buffer a port has. *)
Lemma port_ring O Bf wl K p o :
  links O Bf wl K -> O !! p = Some o -> K !! p = None -> buf_of o <> NULL ->
  exists buf q, Bf !! buf_of o = Some buf /\ ring buf q /\ pkts O Bf p = q /\ room O Bf p = avail buf.
Proof.
  intros HL Hp HK Hb. destruct (ow_ring _ _ (li_own _ _ _ _ HL) p (buf_of o)) as (buf & q & E & Hr); [by apply own_buf|done|].
  exists buf, q. unfold pkts, room, buf_at. rewrite Hp. cbn. rewrite E. split_and!; [done|done|by apply ring_contents|done].
Qed.

(** ** Accesses *)

Section accesses.
Context (wl : list Z) (O : objects) (Bf : gmap Z port_buf) (W : gmap tid Z) (lk it : bool).
Notation st := (Ports wl O Bf W lk it).

Lemma wp_get_magic p o (Q : Z -> ports -> Prop) : O !! p = Some o -> Q (magic o) st -> wp (get_magic p) Q st.
Proof. intros Hp HQ. unfold wp, get_magic, get_obj, bind, get. cbn. by rewrite Hp. Qed.

Lemma wp_get_wp p w (Q : write_port -> ports -> Prop) : O !! p = Some (WritePort w) -> Q w st -> wp (get_wp p) Q st.
Proof. intros Hp HQ. unfold wp, get_wp, get_obj, bind, get. cbn. by rewrite Hp. Qed.

Lemma wp_get_rp p r (Q : read_port -> ports -> Prop) : O !! p = Some (ReadPort r) -> Q r st -> wp (get_rp p) Q st.
Proof. intros Hp HQ. unfold wp, get_rp, get_obj, bind, get. cbn. by rewrite Hp. Qed.

Lemma wp_get_pg p g (Q : port_group -> ports -> Prop) : O !! p = Some (PortGroup g) -> Q g st -> wp (get_pg p) Q st.
Proof. intros Hp HQ. unfold wp, get_pg, get_obj, bind, get. cbn. by rewrite Hp. Qed.

Lemma wp_get_buf b buf (Q : port_buf -> ports -> Prop) : Bf !! b = Some buf -> Q buf st -> wp (get_buf b) Q st.
Proof. intros Hb HQ. unfold wp, get_buf, bind, get. cbn. by rewrite Hb. Qed.

Lemma wp_put_obj p o (Q : unit -> ports -> Prop) : Q tt (Ports wl (<[p := o]> O) Bf W lk it) -> wp (put_obj p o) Q st.
Proof. done. Qed.

Lemma wp_set_rp_gport p r g (Q : unit -> ports -> Prop) :
  O !! p = Some (ReadPort r) -> Q tt (Ports wl (<[p := rp_grouped r g]> O) Bf W lk it) -> wp (set_rp_gport p g) Q st.
Proof. intros Hp HQ. unfold set_rp_gport. apply wp_seq. by eapply wp_get_rp. Qed.

Lemma wp_set_rp_wport p r w (Q : unit -> ports -> Prop) :
  O !! p = Some (ReadPort r) -> Q tt (Ports wl (<[p := rp_linked r (rp_buf r) w]> O) Bf W lk it) -> wp (set_rp_wport p w) Q st.
Proof. intros Hp HQ. unfold set_rp_wport. apply wp_seq. by eapply wp_get_rp. Qed.

Lemma wp_set_rp_buf p r b (Q : unit -> ports -> Prop) :
  O !! p = Some (ReadPort r) -> Q tt (Ports wl (<[p := rp_linked r b (rp_wport r)]> O) Bf W lk it) -> wp (set_rp_buf p b) Q st.
Proof. intros Hp HQ. unfold set_rp_buf. apply wp_seq. by eapply wp_get_rp. Qed.

Lemma wp_set_rp_magic p r m (Q : unit -> ports -> Prop) :
  O !! p = Some (ReadPort r) ->
  Q tt (Ports wl (<[p := ReadPort (Read_port m (rp_buf r) (rp_ctx r) (rp_wait r) (rp_wport r) (rp_gport r))]> O) Bf W lk it) ->
  wp (set_rp_magic p m) Q st.
Proof. intros Hp HQ. unfold set_rp_magic. apply wp_seq. by eapply wp_get_rp. Qed.

Lemma wp_set_wp_buf p w b (Q : unit -> ports -> Prop) :
  O !! p = Some (WritePort w) -> Q tt (Ports wl (<[p := wp_linked w b (wp_rp_list w)]> O) Bf W lk it) -> wp (set_wp_buf p b) Q st.
Proof. intros Hp HQ. unfold set_wp_buf. apply wp_seq. by eapply wp_get_wp. Qed.

Lemma wp_set_wp_rp_list p w l (Q : unit -> ports -> Prop) :
  O !! p = Some (WritePort w) -> Q tt (Ports wl (<[p := wp_linked w (wp_buf w) l]> O) Bf W lk it) -> wp (set_wp_rp_list p l) Q st.
Proof. intros Hp HQ. unfold set_wp_rp_list. apply wp_seq. by eapply wp_get_wp. Qed.

Lemma wp_set_wp_magic p w m (Q : unit -> ports -> Prop) :
  O !! p = Some (WritePort w) ->
  Q tt (Ports wl (<[p := WritePort (Write_port m (wp_buf w) (wp_rp_list w) (wp_mode w) (wp_name w))]> O) Bf W lk it) -> wp (set_wp_magic p m) Q st.
Proof. intros Hp HQ. unfold set_wp_magic. apply wp_seq. by eapply wp_get_wp. Qed.

Lemma wp_set_pg_rp_list p g l (Q : unit -> ports -> Prop) :
  O !! p = Some (PortGroup g) -> Q tt (Ports wl (<[p := pg_listed g l]> O) Bf W lk it) -> wp (set_pg_rp_list p l) Q st.
Proof. intros Hp HQ. unfold set_pg_rp_list. apply wp_seq. by eapply wp_get_pg. Qed.

Lemma wp_set_pg_magic p g m (Q : unit -> ports -> Prop) :
  O !! p = Some (PortGroup g) ->
  Q tt (Ports wl (<[p := PortGroup (Port_group m (pg_wait g) (pg_rp_list g))]> O) Bf W lk it) -> wp (set_pg_magic p m) Q st.
Proof. intros Hp HQ. unfold set_pg_magic. apply wp_seq. by eapply wp_get_pg. Qed.

Lemma wp_free_obj p o (Q : unit -> ports -> Prop) : O !! p = Some o -> Q tt (Ports wl (delete p O) Bf W lk it) -> wp (free_obj p) Q st.
Proof. intros Hp HQ. unfold wp, free_obj, get_obj, bind, get. cbn. by rewrite Hp. Qed.

Lemma wp_free_buf b (Q : unit -> ports -> Prop) :
  (b <> NULL -> is_Some (Bf !! b)) -> Q tt (Ports wl O (if b =? NULL then Bf else delete b Bf) W lk it) -> wp (free_buf b) Q st.
Proof.
  intros Hb HQ. unfold wp, free_buf. destruct (Z.eqb_spec b NULL); [done|]. destruct (Hb n) as [buf E].
  unfold get_buf, bind, get. cbn. by rewrite E.
Qed.

Lemma wp_on_queue {A} p o q (f : waitq -> A * waitq) (Q : A -> ports -> Prop) :
  O !! p = Some o -> queue_of o = Some q ->
  (let '(a, q') := f (Waitq q W) in Q a (Ports wl (<[p := with_queue o (waiting q')]> O) Bf (results q') lk it)) -> wp (on_queue p f) Q st.
Proof.
  intros Hp Hq HQ. unfold wp, on_queue, get_obj, bind, get. cbn. rewrite Hp. cbn. rewrite Hq. cbn. by destruct (f (Waitq q W)).
Qed.

Lemma wp_lock (Q : bool -> ports -> Prop) : Q it (Ports wl O Bf W true false) -> wp THREAD_LOCK Q st.
Proof. done. Qed.

Lemma wp_unlock state (Q : unit -> ports -> Prop) : Q tt (Ports wl O Bf W false (state || it)) -> wp (THREAD_UNLOCK state) Q st.
Proof. done. Qed.
End accesses.

(** ** Buffers *)

Lemma wp_buf_write wl O Bf W lk it b buf q pk count (Q : Z -> ports -> Prop) :
  Bf !! b = Some buf -> ring buf q -> 0 <= count <= Z.of_nat (length pk) ->
  (avail buf < count -> Q ERR_NOT_ENOUGH_BUFFER (Ports wl O Bf W lk it)) ->
  (count <= avail buf -> forall buf', ring buf' (q ++ take (Z.to_nat count) pk) -> Q NO_ERROR (Ports wl O (<[b := buf']> Bf) W lk it)) ->
  wp (buf_write b pk count) Q (Ports wl O Bf W lk it).
Proof.
  intros Hb [Hr Ha] Hc Hfull Hok. pose proof (ra_fits _ _ Hr) as Hf. pose proof (size_of_pos buf (ra_log2 _ _ Hr)) as Hs.
  unfold buf_write. apply wp_seq. eapply wp_get_buf; [done|]. destruct (Z.ltb_spec (avail buf) count) as [Hlt|Hle]; [by apply Hfull|].
  destruct (ring_store pk (Z.to_nat count) 0 buf q Hr) as (buf1 & E & Hr1 & Ha1 & Hl1); [lia|lia|]. rewrite drop_0 in Hr1.
  apply wp_seq. eapply wp_deref; [done|]. apply wp_seq. unfold put_buf. apply wp_seq, wp_get, wp_modify, wp_ret. cbn.
  apply Hok; [done|]. assert (Hs1 : size_of buf1 = size_of buf) by (unfold size_of; by rewrite Hl1). destruct Hr1. split; [constructor; done|].
  unfold size_of in *. cbn [log2 avail]. rewrite length_app, length_take in *. unfold u32. rewrite Z.mod_small; lia.
Qed.

Lemma wp_buf_read wl O Bf W lk it b buf q pr (Q : Z * port_result -> ports -> Prop) :
  Bf !! b = Some buf -> ring buf q ->
  (q = [] -> Q (ERR_NO_MSG, pr) (Ports wl O Bf W lk it)) ->
  (forall x q' buf', q = x :: q' -> ring buf' q' -> Q (NO_ERROR, Port_result (res_ctx pr) x) (Ports wl O (<[b := buf']> Bf) W lk it)) ->
  wp (buf_read b pr) Q (Ports wl O Bf W lk it).
Proof.
  intros Hb Hr Hempty Hok. unfold buf_read. apply wp_seq. eapply wp_get_buf; [done|]. rewrite (ring_empty _ _ Hr).
  destruct q as [|x q']; [rewrite bool_decide_true by done; by apply Hempty|]. rewrite bool_decide_false by done.
  destruct (ring_next _ _ _ Hr) as [Hx Hr']. apply wp_seq. eapply wp_deref; [done|]. apply wp_seq. unfold put_buf. apply wp_seq, wp_get, wp_modify, wp_ret. cbn.
  by eapply Hok.
Qed.

(** ** Waking *)

(** Only queues, and the results of the woken, have changed. *)
Definition woke (K : closers) (R : readers) (s s' : ports) : Prop :=
  write_port_list s' = write_port_list s /\ bufs s' = bufs s /\ thread_lock s' = thread_lock s /\ ints s' = ints s /\
  same_shape (objs s) (objs s') /\ links (objs s') (bufs s') (write_port_list s') K /\ waits (objs s') (woken s') K R.

Lemma same_shape_refl O : same_shape O O.
Proof. by intros p. Qed.

Lemma same_shape_trans O1 O2 O3 : same_shape O1 O2 -> same_shape O2 O3 -> same_shape O1 O3.
Proof. intros H1 H2 p. by rewrite H2, H1. Qed.

Lemma wake_links wl O Bf K p o rest l :
  links O Bf wl K -> O !! p = Some o -> queue_of o = Some (l ++ rest) ->
  same_shape O (<[p := with_queue o rest]> O) /\ links (<[p := with_queue o rest]> O) Bf wl K.
Proof.
  intros HL Hp Hq. assert (Hs : same_shape O (<[p := with_queue o rest]> O)) by by apply same_shape_queue. split; [done|].
  eapply links_shape; [done| |done]. intros x g b Hx. pose proof (li_closing _ _ _ _ HL _ _ _ Hx) as [_ Hqx]. rewrite queue_at_insert.
  destruct (bool_decide_reflect (x = p)) as [->|]; [|done]. unfold queue_at in Hqx. rewrite Hp in Hqx. cbn in Hqx. rewrite Hq in Hqx.
  injection Hqx as Hqx. apply app_eq_nil in Hqx as [_ ->]. by eapply queue_of_with.
Qed.

Section wake.
Context (wl : list Z) (O : objects) (Bf : gmap Z port_buf) (W : gmap tid Z) (lk it : bool) (K : closers) (R : readers).
Hypothesis (HL : links O Bf wl K) (HW : waits O W K R).
Notation st := (Ports wl O Bf W lk it).

Lemma wp_port_wake_one p o q e (Q : Z -> ports -> Prop) :
  O !! p = Some o -> queue_of o = Some q -> (forall n s', 0 <= n -> woke K R st s' -> Q n s') -> wp (on_queue p (waitq_wake_one e)) Q st.
Proof.
  intros Hp Hq HQ. eapply wp_on_queue; [done|done|]. unfold waitq_wake_one. cbn [waiting results]. destruct q as [|t q]; cbn [waiting results].
  - apply HQ; [done|]. destruct (wake_links wl O Bf K p o [] [] HL Hp Hq) as [Hs HL']. split_and!; try done.
    apply (waits_wake O W K R HW p o [] [] e Hp Hq).
  - apply HQ; [done|]. destruct (wake_links wl O Bf K p o q [t] HL Hp Hq) as [Hs HL']. split_and!; try done.
    apply (waits_wake O W K R HW p o [t] q e Hp Hq).
Qed.

Lemma wp_port_wake_all p o q e (Q : Z -> ports -> Prop) :
  O !! p = Some o -> queue_of o = Some q ->
  (let O' := <[p := with_queue o []]> O in links O' Bf wl K -> waits O' (record_all q e W) K R ->
    Q (Z.of_nat (length q)) (Ports wl O' Bf (record_all q e W) lk it)) -> wp (on_queue p (waitq_wake_all e)) Q st.
Proof.
  intros Hp Hq HQ. eapply wp_on_queue; [done|done|]. unfold waitq_wake_all. cbn [waiting results].
  rewrite <- (app_nil_r q) in Hq. apply HQ; [by eapply wake_links|]. by eapply waits_wake.
Qed.
End wake.

Lemma shape_rp O O' p r : same_shape O O' -> O !! p = Some (ReadPort r) ->
  exists r', O' !! p = Some (ReadPort r') /\ rp_buf r' = rp_buf r /\ rp_ctx r' = rp_ctx r /\ rp_gport r' = rp_gport r /\ rp_wport r' = rp_wport r.
Proof.
  intros Hs Hp. specialize (Hs p). rewrite Hp in Hs. destruct (O' !! p) as [[| r'|]|]; cbn in Hs; try done. injection Hs as ?????. eauto 10.
Qed.

(** The group of a read port is there. *)
Lemma gport_group O Bf wl K p r :
  links O Bf wl K -> O !! p = Some (ReadPort r) -> K !! p = None -> rp_gport r <> NULL ->
  exists g, O !! rp_gport r = Some (PortGroup g) /\ p ∈ pg_rp_list g.
Proof.
  intros HL Hp HK Hg. destruct (bl_bwd _ _ (li_g _ _ _ _ HL) (rp_gport r) p) as (l & Hl & Hin); [unfold gport_of; by rewrite HK, Hp|done|].
  unfold members_of in Hl. destruct (O !! rp_gport r) as [[| |g]|]; try done. injection Hl as <-. eauto.
Qed.

Lemma wport_port O Bf wl K p r :
  links O Bf wl K -> O !! p = Some (ReadPort r) -> K !! p = None -> rp_wport r <> NULL ->
  exists w, O !! rp_wport r = Some (WritePort w) /\ p ∈ wp_rp_list w.
Proof.
  intros HL Hp HK Hg. destruct (bl_bwd _ _ (li_w _ _ _ _ HL) (rp_wport r) p) as (l & Hl & Hin); [unfold wport_of; by rewrite HK, Hp|done|].
  unfold readers_of in Hl. destruct (O !! rp_wport r) as [[w| |]|]; try done. injection Hl as <-. eauto.
Qed.

(** The readers of a write port, and the members of a group. *)
Lemma reader_port O Bf wl K p w r :
  links O Bf wl K -> O !! p = Some (WritePort w) -> r ∈ wp_rp_list w -> exists rp, O !! r = Some (ReadPort rp) /\ K !! r = None /\ rp_wport rp = p.
Proof.
  intros HL Hp Hr. assert (E : readers_of O p = Some (wp_rp_list w)) by (unfold readers_of; by rewrite Hp).
  pose proof (bl_fwd _ _ (li_w _ _ _ _ HL) _ _ _ E Hr) as Hw. unfold wport_of in Hw. destruct (K !! r); [done|]. destruct (O !! r) as [[]|]; try done.
  injection Hw as ?. eauto.
Qed.

Lemma member_port O Bf wl K p g r :
  links O Bf wl K -> O !! p = Some (PortGroup g) -> r ∈ pg_rp_list g -> exists rp, O !! r = Some (ReadPort rp) /\ K !! r = None /\ rp_gport rp = p.
Proof.
  intros HL Hp Hr. assert (E : members_of O p = Some (pg_rp_list g)) by (unfold members_of; by rewrite Hp).
  pose proof (bl_fwd _ _ (li_g _ _ _ _ HL) _ _ _ E Hr) as Hw. unfold gport_of in Hw. destruct (K !! r); [done|]. destruct (O !! r) as [[]|]; try done.
  injection Hw as ?. eauto.
Qed.

Lemma forallb_same {A} (f g : A -> bool) l : (forall x, x ∈ l -> f x = g x) -> forallb f l = forallb g l.
Proof. induction l as [|x l IH]; intros H; [done|]. cbn. rewrite H by set_solver. f_equal. apply IH. set_solver. Qed.

(** ** Writing *)

Definition fits (count : Z) (O : objects) (Bf : gmap Z port_buf) (r : Z) : bool := count <=? room O Bf r.

(** Each port of [l] with room has the packets, and nothing else has changed. *)
Record delivered (K : closers) (R : readers) (l : list Z) (count : Z) (pk : list (list Z)) (s s' : ports) : Prop := {
  de_list : write_port_list s' = write_port_list s;
  de_lock : thread_lock s' = thread_lock s;
  de_ints : ints s' = ints s;
  de_shape : same_shape (objs s) (objs s');
  de_links : links (objs s') (bufs s') (write_port_list s') K;
  de_waits : waits (objs s') (woken s') K R;
  de_other : forall p, K !! p = None -> p ∉ l -> buf_at (objs s') (bufs s') p = buf_at (objs s) (bufs s) p;
  de_to : forall p, p ∈ l -> pkts (objs s') (bufs s') p =
    if fits count (objs s) (bufs s) p then pkts (objs s) (bufs s) p ++ take (Z.to_nat count) pk else pkts (objs s) (bufs s) p
}.

Lemma delivered_refl K R count pk s :
  links (objs s) (bufs s) (write_port_list s) K -> waits (objs s) (woken s) K R -> delivered K R [] count pk s s.
Proof. intros HL HW. constructor; try done. intros p Hp. set_solver. Qed.

(** One port and then the others. *)
Lemma delivered_cons K R r l count pk s s1 s' :
  delivered K R [r] count pk s s1 -> delivered K R l count pk s1 s' -> K !! r = None -> (forall x, x ∈ l -> K !! x = None) -> r ∉ l ->
  delivered K R (r :: l) count pk s s'.
Proof.
  intros H1 H2 HK HKl Hr. constructor; try apply H2.
  - by rewrite (de_list _ _ _ _ _ _ _ H2), (de_list _ _ _ _ _ _ _ H1).
  - by rewrite (de_lock _ _ _ _ _ _ _ H2), (de_lock _ _ _ _ _ _ _ H1).
  - by rewrite (de_ints _ _ _ _ _ _ _ H2), (de_ints _ _ _ _ _ _ _ H1).
  - eapply same_shape_trans; [apply H1|apply H2].
  - intros p HKp Hp. rewrite (de_other _ _ _ _ _ _ _ H2), (de_other _ _ _ _ _ _ _ H1); [done|done|set_solver|done|set_solver].
  - intros p [->|Hp]%elem_of_cons.
    + rewrite <- (de_to _ _ _ _ _ _ _ H1) by set_solver. unfold pkts. by rewrite (de_other _ _ _ _ _ _ _ H2).
    + rewrite (de_to _ _ _ _ _ _ _ H2) by done. unfold fits, room, pkts. rewrite (de_other _ _ _ _ _ _ _ H1); [done|by apply HKl|set_solver].
Qed.

(** Waking somebody afterwards changes nothing more. *)
Lemma delivered_woke K R l count pk s s1 s' : delivered K R l count pk s s1 -> woke K R s1 s' -> delivered K R l count pk s s'.
Proof.
  intros H (E1 & E2 & E3 & E4 & Hs & HL & HW). constructor; rewrite ?E2.
  - by rewrite E1, (de_list _ _ _ _ _ _ _ H).
  - by rewrite E3, (de_lock _ _ _ _ _ _ _ H).
  - by rewrite E4, (de_ints _ _ _ _ _ _ _ H).
  - eapply same_shape_trans; [apply H|done].
  - by rewrite <- E2.
  - done.
  - intros p HKp Hp. rewrite (buf_at_shape (objs s1)) by done. by apply H.
  - intros p Hp. unfold pkts at 1. rewrite (buf_at_shape (objs s1)) by done. by apply H.
Qed.

(** Writing into one buffer. *)
Lemma delivered_one K R O Bf W wl lk it p o count pk (Q : Z -> ports -> Prop) :
  links O Bf wl K -> waits O W K R -> O !! p = Some o -> K !! p = None -> buf_of o <> NULL -> 0 <= count <= Z.of_nat (length pk) ->
  (forall e s', e = (if fits count O Bf p then NO_ERROR else ERR_NOT_ENOUGH_BUFFER) -> objs s' = O -> woken s' = W ->
    delivered K R [p] count pk (Ports wl O Bf W lk it) s' -> Q e s') ->
  wp (buf_write (buf_of o) pk count) Q (Ports wl O Bf W lk it).
Proof.
  intros HL HW Hp HK Hb Hc HQ. destruct (port_ring _ _ _ _ _ _ HL Hp HK Hb) as (buf & q & E & Hr & Hpk & Hroom).
  eapply wp_buf_write; [done|done|done| |].
  - intros Hlt. assert (Hf : fits count O Bf p = false) by (unfold fits; rewrite Hroom; by apply Z.leb_gt).
    apply HQ; [by rewrite Hf|done|done|]. constructor; try done. cbn. intros x ->%list_elem_of_singleton. by rewrite Hf.
  - intros Hle buf' Hr'. assert (Hf : fits count O Bf p = true) by (unfold fits; rewrite Hroom; by apply Z.leb_le).
    apply HQ; [by rewrite Hf|done|done|]. constructor; try done; cbn.
    + by eapply links_buf.
    + intros x HKx Hx. rewrite (buf_at_insert O Bf wl K p o) by done. rewrite bool_decide_false by set_solver. done.
    + intros x ->%list_elem_of_singleton. rewrite Hf. unfold pkts at 1. rewrite (buf_at_insert O Bf wl K p o) by done. rewrite bool_decide_true by done.
      rewrite Hpk. by apply ring_contents.
Qed.

Lemma shape_pg O O' p g : same_shape O O' -> O !! p = Some (PortGroup g) -> exists g', O' !! p = Some (PortGroup g') /\ pg_rp_list g' = pg_rp_list g.
Proof. intros Hs Hp. specialize (Hs p). rewrite Hp in Hs. destruct (O' !! p) as [[| |g']|]; cbn in Hs; try done. injection Hs as ??. eauto. Qed.

Lemma waking_group O Bf wl K R W lk it p r (Q : Z -> ports -> Prop) :
  links O Bf wl K -> waits O W K R -> O !! p = Some (ReadPort r) -> K !! p = None ->
  (forall n s', 0 <= n -> woke K R (Ports wl O Bf W lk it) s' -> Q n s') ->
  wp (if negb (rp_gport r =? NULL) then on_queue (rp_gport r) (waitq_wake_one NO_ERROR) else ret 0) Q (Ports wl O Bf W lk it).
Proof.
  intros HL HW Hp HK HQ. destruct (Z.eqb_spec (rp_gport r) NULL) as [E|E]; cbn [negb].
  - apply wp_ret, HQ; [done|]. by split_and!.
  - destruct (gport_group _ _ _ _ _ _ HL Hp HK E) as (g & Hg & _). eapply wp_port_wake_one; [done|done|done|done|done].
Qed.

Lemma wp_write_readers K R pk count l O Bf W wl lk it status awake (Q : Z * Z -> ports -> Prop) :
  links O Bf wl K -> waits O W K R -> NoDup l -> (forall r, r ∈ l -> exists rp, O !! r = Some (ReadPort rp) /\ K !! r = None) ->
  0 <= count <= Z.of_nat (length pk) ->
  (forall sa s', fst sa = (if forallb (fits count O Bf) l then status else ERR_PARTIAL_WRITE) ->
    delivered K R l count pk (Ports wl O Bf W lk it) s' -> Q sa s') ->
  wp (write_readers pk count l status awake) Q (Ports wl O Bf W lk it).
Proof.
  revert O Bf W wl lk it status awake Q. induction l as [|r l IH]; intros O Bf W wl lk it status awake Q HL HW Hnd Hl Hc HQ.
  - apply wp_ret, HQ; [done|by apply delivered_refl].
  - apply NoDup_cons in Hnd as [Hrl Hnd]. destruct (Hl r ltac:(set_solver)) as (rp & Hr & HK). cbn [write_readers].
    assert (HKl : forall x, x ∈ l -> K !! x = None) by (intros x Hx; destruct (Hl x ltac:(set_solver)) as (_ & _ & ?); done).
    pose proof (li_buf _ _ _ _ HL _ _ Hr HK) as Hb. apply wp_seq. eapply wp_get_rp; [done|]. apply wp_seq.
    apply (delivered_one K R O Bf W wl lk it r (ReadPort rp)); [done..|]. intros e [wl1 O1 Bf1 W1 lk1 it1] He HO1 HW1 H1. cbn in HO1, HW1. subst O1 W1.
    (* the rest, from any state that has the packets in [r] *)
    assert (Hrest : forall st0 aw s2, delivered K R [r] count pk (Ports wl O Bf W lk it) s2 ->
      st0 = (if fits count O Bf r then status else ERR_PARTIAL_WRITE) -> wp (write_readers pk count l st0 aw) Q s2).
    { intros st0 aw [wl2 O2 Bf2 W2 lk2 it2] H2 Hst. apply IH; [apply H2|apply H2|done| |done|].
      - intros x Hx. destruct (Hl x ltac:(set_solver)) as (rx & Hrx & HKx). destruct (shape_rp _ _ _ _ (de_shape _ _ _ _ _ _ _ H2) Hrx) as (rx' & ? & _). eauto.
      - intros sa s' Hsa Hs'. apply HQ; [|eapply delivered_cons; [exact H2|done|done|done|done]]. rewrite Hsa, Hst. cbn [forallb].
        replace (forallb (fits count O2 Bf2) l) with (forallb (fits count O Bf) l).
        + destruct (fits count O Bf r), (forallb (fits count O Bf) l); done.
        + apply forallb_same. intros x Hx. unfold fits, room. pose proof (de_other _ _ _ _ _ _ _ H2 x (HKl x Hx)) as E. cbn in E. rewrite E by set_solver. done. }
    destruct (fits count O Bf r) eqn:Hfit; subst e; cbn [Z.ltb Z.compare].
    + change (NO_ERROR <? 0) with false. apply wp_seq. eapply wp_get_rp; [done|].
      apply wp_seq. eapply waking_group; [apply H1|apply H1|done|done|]. intros n s2 Hn H2. apply wp_seq.
      pose proof (delivered_woke _ _ _ _ _ _ _ _ H1 H2) as H12. destruct s2 as [wl2 O2 Bf2 W2 lk2 it2].
      destruct (shape_rp _ _ _ _ (de_shape _ _ _ _ _ _ _ H12) Hr) as (rp2 & Hr2 & _).
      destruct (n =? 0).
      * eapply wp_port_wake_one; [apply H12|apply H12|done|done|]. intros n' s3 _ H3. eapply Hrest; [by eapply delivered_woke|done].
      * apply wp_ret. eapply Hrest; done.
    + change (ERR_NOT_ENOUGH_BUFFER <? 0) with true. eapply Hrest; done.
Qed.

(** port_write: without readers all packets or none go to the port's own buffer;
    otherwise each reader with room gets all of them. *)
Definition write_status (O : objects) (Bf : gmap Z port_buf) (w : write_port) (p count : Z) : Z :=
  if wp_buf w =? NULL then (if forallb (fits count O Bf) (wp_rp_list w) then NO_ERROR else ERR_PARTIAL_WRITE)
  else if fits count O Bf p then NO_ERROR else ERR_NOT_ENOUGH_BUFFER.
Definition write_to (w : write_port) (p : Z) : list Z := if wp_buf w =? NULL then wp_rp_list w else [p].

Lemma inv_delivered K R l count pk s s' : inv s K R -> delivered K R l count pk s s' -> inv s' K R.
Proof. intros [H1 H2 _ _] H. constructor; [by rewrite (de_lock _ _ _ _ _ _ _ H)|by rewrite (de_ints _ _ _ _ _ _ _ H)|apply H|apply H]. Qed.

Lemma port_write_ok K R s p w pk count :
  inv s K R -> objs s !! p = Some (WritePort w) -> wp_magic w = WRITEPORT_MAGIC_W -> 0 <= count <= Z.of_nat (length pk) ->
  wp (port_write p (Some pk) count) (fun e s' => inv s' K R /\ e = write_status (objs s) (bufs s) w p count /\
    delivered K R (write_to w p) count pk s s') s.
Proof.
  intros Hinv Hp Hm Hc. pose proof Hinv as [Hlk Hit HL HW]. destruct s as [wl O Bf W lk it]. cbn in *. subst lk it.
  assert (Hp0 : p <> NULL) by (intros ->; by rewrite (li_null _ _ _ _ HL) in Hp). pose proof (unclosed_kind _ _ _ _ HL p _ Hp eq_refl) as HK.
  unfold port_write. rewrite (proj2 (Z.eqb_neq p NULL)) by done. apply wp_seq, wp_lock. apply wp_seq. eapply wp_get_magic; [done|]. cbn [magic]. rewrite Hm. cbn [negb Z.eqb Pos.eqb].
  apply wp_seq. eapply wp_get_wp; [done|]. apply wp_seq.
  assert (Hend : forall e s', e = write_status O Bf w p count -> delivered K R (write_to w p) count pk (Ports wl O Bf W true false) s' ->
    wp (THREAD_UNLOCK true ;; ret e) (fun e s' => inv s' K R /\ e = write_status O Bf w p count /\ delivered K R (write_to w p) count pk (Ports wl O Bf W false true) s') s').
  { intros e [wl' O' Bf' W' lk' it'] He H. apply wp_seq, wp_unlock, wp_ret.
    assert (H' : delivered K R (write_to w p) count pk (Ports wl O Bf W false true) (Ports wl' O' Bf' W' false (true || it'))).
    { destruct H. constructor; try done. }
    split_and!; [by eapply inv_delivered|done|done]. }
  unfold write_status, write_to in *. destruct (Z.eqb_spec (wp_buf w) NULL) as [E|E]; cbn [negb].
  - apply wp_seq. eapply wp_write_readers; [done|done| | |done|].
    + apply (bl_nodup _ _ (li_w _ _ _ _ HL) p). unfold readers_of. by rewrite Hp.
    + intros r Hr. destruct (reader_port _ _ _ _ _ _ _ HL Hp Hr) as (rp & ? & ? & _). eauto.
    + intros sa s' Hsa H. apply wp_ret. by apply Hend.
  - apply (delivered_one K R O Bf W wl true false p (WritePort w)); [done..|]. intros e s' He _ _ H. by apply Hend.
Qed.

(** ** Reading *)

(** The oldest packet of [p] is gone, and nothing else has changed. *)
Record took (K : closers) (p : Z) (x : list Z) (s s' : ports) : Prop := {
  tk_objs : objs s' = objs s;
  tk_list : write_port_list s' = write_port_list s;
  tk_woken : woken s' = woken s;
  tk_links : links (objs s') (bufs s') (write_port_list s') K;
  tk_pkts : pkts (objs s) (bufs s) p = x :: pkts (objs s') (bufs s') p;
  tk_other : forall y, K !! y = None -> y <> p -> buf_at (objs s') (bufs s') y = buf_at (objs s) (bufs s) y
}.

(** A read from a buffer. *)
Lemma wp_read_buf K O Bf W wl lk it p r pr (Q : Z * port_result -> ports -> Prop) :
  links O Bf wl K -> O !! p = Some (ReadPort r) -> K !! p = None ->
  (pkts O Bf p = [] -> Q (ERR_NO_MSG, pr) (Ports wl O Bf W lk it)) ->
  (forall x s', thread_lock s' = lk -> ints s' = it -> took K p x (Ports wl O Bf W lk it) s' -> Q (NO_ERROR, Port_result (res_ctx pr) x) s') ->
  wp (buf_read (rp_buf r) pr) Q (Ports wl O Bf W lk it).
Proof.
  intros HL Hp HK Hempty HQ. pose proof (li_buf _ _ _ _ HL _ _ Hp HK) as Hb. destruct (port_ring _ _ _ _ _ _ HL Hp HK Hb) as (buf & q & E & Hr & Hpk & _).
  eapply wp_buf_read; [done|done| |].
  - intros ->. by apply Hempty.
  - intros x q' buf' -> Hr'. apply HQ; [done|done|]. constructor; try done; cbn.
    + by eapply links_buf.
    + rewrite Hpk. f_equal. unfold pkts. rewrite (buf_at_insert O Bf wl K p (ReadPort r)) by done. rewrite bool_decide_true by done.
      symmetry. by apply ring_contents.
    + intros y HKy Hy. rewrite (buf_at_insert O Bf wl K p (ReadPort r)) by done. by rewrite bool_decide_false.
Qed.

(** Where a read looks: the port, or the members of the group in their order. *)
Definition sources (O : objects) (g : bool) (p : Z) : list Z := if g then default [] (members_of O p) else [p].

Definition empty_ports (O : objects) (Bf : gmap Z port_buf) (l : list Z) : Prop := Forall (fun p => pkts O Bf p = []) l.

(** The first source with a packet gives its oldest one. *)
Definition got (K : closers) (l : list Z) (result : port_result) (s s' : ports) : Prop :=
  exists l1 r l2 rp, l = l1 ++ r :: l2 /\ empty_ports (objs s) (bufs s) l1 /\
    objs s !! r = Some (ReadPort rp) /\ res_ctx result = rp_ctx rp /\ took K r (res_packet result) s s'.

Lemma wp_read_group K cur l O Bf W wl lk it pr (Q : Z * port_result -> ports -> Prop) :
  links O Bf wl K -> (forall r, r ∈ l -> exists rp, O !! r = Some (ReadPort rp) /\ K !! r = None) ->
  (forall pr', empty_ports O Bf l -> Q (ERR_TIMED_OUT, pr') (Ports wl O Bf W lk it)) ->
  (forall pr' s', thread_lock s' = lk -> ints s' = it -> got K l pr' (Ports wl O Bf W lk it) s' -> Q (NO_ERROR, pr') s') ->
  wp (read_group cur l pr) Q (Ports wl O Bf W lk it).
Proof.
  intros HL. revert pr Q. induction l as [|r l IH]; intros pr Q Hl Hempty HQ; cbn [read_group].
  - apply wp_ret, Hempty. constructor.
  - destruct (Hl r ltac:(set_solver)) as (rp & Hr & HK). apply wp_seq. unfold read_no_lock. apply wp_seq. eapply wp_get_rp; [done|].
    apply wp_seq. eapply wp_read_buf; [done|done|done| |].
    + intros Hpk. change (negb (ERR_NO_MSG =? ERR_NO_MSG)) with false. cbn iota. change (0 =? 0) with true. cbn iota. apply wp_ret. cbn [fst snd].
      change (negb (ERR_TIMED_OUT =? ERR_TIMED_OUT)) with false. cbn iota. apply IH.
      * intros x Hx. apply Hl. set_solver.
      * intros pr' Hall. apply Hempty. by constructor.
      * intros pr' s' Hs1 Hs2 (l1 & r' & l2 & rp' & -> & Hall & Hg). apply HQ; [done|done|]. exists (r :: l1), r', l2, rp'. split; [done|]. split; [by constructor|done].
    + intros x s' Hs1 Hs2 Htk. change (negb (NO_ERROR =? ERR_NO_MSG)) with true. cbn iota. apply wp_ret. cbn [fst snd res_packet].
      change (negb (NO_ERROR =? ERR_TIMED_OUT)) with true. cbn iota. apply wp_ret. apply HQ; [done|done|].
      exists [], r, l, rp. split_and!; [done|by constructor|done|done|done].
Qed.

(** What a read answers, or leaves behind when it blocks. *)
Definition read_post (K : closers) (R : readers) (cur : tid) (g : bool) (p timeout : Z) (s : ports) (rr : call_result * port_result) (s' : ports) : Prop :=
  match fst rr with
  | Returned e =>
      inv s' K R /\
      (e = NO_ERROR /\ got K (sources (objs s) g p) (snd rr) s s' \/
       e = ERR_TIMED_OUT /\ timeout = 0 /\ empty_ports (objs s) (bufs s) (sources (objs s) g p) /\ objs s' = objs s /\ bufs s' = bufs s /\ woken s' = woken s)
  | Blocked =>
      timeout <> 0 /\ empty_ports (objs s) (bufs s) (sources (objs s) g p) /\ same_shape (objs s) (objs s') /\ bufs s' = bufs s /\
      inv s' K (<[cur := Read_call g p timeout (snd rr)]> R)
  end.

Lemma inv_took K R p x s s' : links (objs s) (bufs s) (write_port_list s) K -> waits (objs s) (woken s) K R -> took K p x s s' -> waits (objs s') (woken s') K R.
Proof. intros HL HW H. by rewrite (tk_objs _ _ _ _ _ H), (tk_woken _ _ _ _ _ H). Qed.

(** The way out of a read, from behind its look at the buffers. *)
Lemma wp_read_exit K R cur g p timeout s wl O Bf W pr res :
  write_port_list s = wl -> objs s = O -> bufs s = Bf -> woken s = W -> links O Bf wl K -> waits O W K R ->
  forall s1, thread_lock s1 = true -> ints s1 = false ->
  (res = Returned NO_ERROR /\ got K (sources O g p) pr s s1 \/
   res = Returned ERR_TIMED_OUT /\ timeout = 0 /\ empty_ports O Bf (sources O g p) /\ objs s1 = O /\ bufs s1 = Bf /\ write_port_list s1 = wl /\ woken s1 = W \/
   res = Blocked /\ timeout <> 0 /\ empty_ports O Bf (sources O g p) /\ same_shape O (objs s1) /\ bufs s1 = Bf /\
     links (objs s1) Bf (write_port_list s1) K /\ waits (objs s1) (woken s1) K (<[cur := Read_call g p timeout pr]> R)) ->
  wp (read_exit true (res, pr)) (fun rr s' => read_post K R cur g p timeout s rr s') s1.
Proof.
  intros <- <- <- <- HL HW [wl1 O1 Bf1 W1 lk1 it1] Hlk Hit H. cbn in Hlk, Hit. subst lk1 it1. unfold read_exit. cbn [fst].
  destruct H as [[-> Hg]|[(-> & Ht & He & HO & HB & Hwl & HW1)|(-> & Ht & He & Hs & HB & HL1 & HW1)]]; apply wp_seq.
  - apply wp_unlock, wp_ret. unfold read_post. cbn [fst snd]. destruct Hg as (l1 & r & l2 & rp & E1 & E2 & E3 & E4 & Htk).
    assert (Htk' : took K r (res_packet pr) s (Ports wl1 O1 Bf1 W1 false (true || false))) by (destruct Htk; by constructor).
    split; [constructor; [done|done|apply Htk'|by eapply inv_took]|]. left. split; [done|]. by exists l1, r, l2, rp.
  - apply wp_unlock, wp_ret. unfold read_post. cbn [fst snd] in *. cbn in HO, HB, Hwl, HW1. subst. split; [by constructor|]. right. by split_and!.
  - apply wp_modify, wp_ret. unfold read_post. cbn [fst snd] in *. cbn in HB, Hs, HL1, HW1. subst. split_and!; try done.
Qed.

Section turn.
Context (wl : list Z) (O : objects) (Bf : gmap Z port_buf) (W : gmap tid Z) (K : closers) (R : readers).
Context (cur : tid) (g : bool) (p timeout : Z) (o : port_obj).
Hypothesis (HL : links O Bf wl K) (HW : waits O W K R) (Hcur : R !! cur = None).
Hypothesis (Hp : O !! p = Some o) (Hg : is_group o = Some g) (HK : K !! p = None).
Notation st := (Ports wl O Bf W true false).
Notation s0 := (Ports wl O Bf W false true).

(** Falling asleep in the queue of the port. *)
Lemma wp_fall_asleep pr (Q : call_result * port_result -> ports -> Prop) :
  (forall res s1, thread_lock s1 = true -> ints s1 = false ->
    (res = Returned ERR_TIMED_OUT /\ timeout = 0 /\ objs s1 = O /\ bufs s1 = Bf /\ write_port_list s1 = wl /\ woken s1 = W \/
     res = Blocked /\ timeout <> 0 /\ same_shape O (objs s1) /\ bufs s1 = Bf /\
       links (objs s1) Bf (write_port_list s1) K /\ waits (objs s1) (woken s1) K (<[cur := Read_call g p timeout pr]> R)) -> Q (res, pr) s1) ->
  wp (let* r := on_queue p (waitq_block cur timeout) in ret (r, pr)) Q st.
Proof.
  intros HQ. apply wp_seq. assert (exists q, queue_of o = Some q) as [q Hq] by (destruct o; [done|eauto|eauto]).
  eapply wp_on_queue; [done|done|]. unfold waitq_block. destruct (Z.eqb_spec timeout 0) as [Ht|Ht]; cbn [waiting results]; apply wp_ret.
  - replace (<[p := with_queue o q]> O) with O by (symmetry; apply insert_id; rewrite Hp; f_equal; destruct o as [|[]|[]]; cbn in *; congruence).
    apply HQ; [done|done|]. left. by split_and!.
  - apply HQ; [done|done|]. right. cbn [objs bufs write_port_list woken].
    assert (Hs : same_shape O (<[p := with_queue o (q ++ [cur])]> O)) by by apply same_shape_queue. split_and!; [done|done|done|done| |].
    + eapply links_shape; [done| |done]. intros x g' b Hx. rewrite queue_at_insert. destruct (bool_decide_reflect (x = p)) as [->|]; [congruence|].
      by eapply (li_closing _ _ _ _ HL).
    + assert (HWc : W !! cur = None) by (destruct (W !! cur) eqn:E; [|done]; destruct (wa_woken _ _ _ _ HW _ _ E); congruence).
      rewrite <- (delete_id W cur HWc). by apply (waits_block O W K R HW p o q cur (Read_call g p timeout pr)); auto.
Qed.

End turn.

Lemma wp_turn wl O Bf W K R cur g p timeout o pr :
  links O Bf wl K -> waits O W K R -> R !! cur = None -> O !! p = Some o -> is_group o = Some g -> K !! p = None ->
  wp (let* rr := (if g then read_group_turn cur p timeout pr else read_no_lock cur p timeout pr) in read_exit true rr)
    (fun rr s' => read_post K R cur g p timeout (Ports wl O Bf W false true) rr s') (Ports wl O Bf W true false).
Proof.
  intros HL HW Hcur Hp Hg HK. apply wp_seq. destruct g.
  - destruct o as [| |pg]; try done. unfold read_group_turn. apply wp_seq. eapply wp_get_pg; [done|]. apply wp_seq.
    assert (Hsrc : sources O true p = pg_rp_list pg) by (unfold sources, members_of; by rewrite Hp).
    apply (wp_read_group K); [done| | |].
    + intros r Hr. destruct (member_port _ _ _ _ _ _ _ HL Hp Hr) as (rp & ? & ? & _). eauto.
    + intros pr' He. change (negb (ERR_TIMED_OUT =? ERR_TIMED_OUT)) with false. cbn iota.
      eapply (wp_fall_asleep wl O Bf W K R cur true p timeout); [done..|]. intros res s1 Hs1 Hs2 H.
      apply (wp_read_exit K R cur true p timeout _ wl O Bf W); try done. rewrite Hsrc. destruct H as [H|H]; [right; left|right; right]; tauto.
    + intros pr' s1 Hs1 Hs2 Hgot. change (negb (NO_ERROR =? ERR_TIMED_OUT)) with true. cbn iota. apply wp_ret.
      apply (wp_read_exit K R cur true p timeout _ wl O Bf W); try done. left. split; [done|]. rewrite Hsrc.
      destruct Hgot as (l1 & r & l2 & rp & H1 & H2 & H3 & H4 & H5). exists l1, r, l2, rp. split_and!; try done. destruct H5. by constructor.
  - destruct o as [|r|]; try done. unfold read_no_lock. apply wp_seq. eapply wp_get_rp; [done|]. apply wp_seq. eapply wp_read_buf; [done|done|done| |].
    + intros He. change (negb (ERR_NO_MSG =? ERR_NO_MSG)) with false. cbn iota.
      assert (Hes : empty_ports O Bf (sources O false p)) by (by constructor).
      destruct (Z.eqb_spec timeout 0) as [Ht|Ht].
      * apply wp_ret. apply (wp_read_exit K R cur false p timeout _ wl O Bf W); try done. right. left. by split_and!.
      * eapply (wp_fall_asleep wl O Bf W K R cur false p timeout); [done..|]. intros res s1 Hs1 Hs2 H.
        apply (wp_read_exit K R cur false p timeout _ wl O Bf W); try done. destruct H as [H|H]; [right; left|right; right]; tauto.
    + intros x s1 Hs1 Hs2 Htk. change (negb (NO_ERROR =? ERR_NO_MSG)) with true. cbn iota. apply wp_ret.
      apply (wp_read_exit K R cur false p timeout _ wl O Bf W); try done. left. split; [done|].
      exists [], p, [], r. split_and!; [done|by constructor|done|done|]. destruct Htk. by constructor.
Qed.

(** port_read on a read port or a group. *)
Lemma port_read_ok K R s cur g p o timeout pr :
  inv s K R -> R !! cur = None -> objs s !! p = Some o -> is_group o = Some g -> K !! p = None ->
  wp (port_read cur p timeout (Some pr)) (fun rr s' => exists r, snd rr = Some r /\ read_post K R cur g p timeout s (fst rr, r) s') s.
Proof.
  intros [Hlk Hit HL HW] Hcur Hp Hg HK. destruct s as [wl O Bf W lk it]. cbn in *. subst lk it.
  assert (Hp0 : p <> NULL) by (intros ->; by rewrite (li_null _ _ _ _ HL) in Hp).
  unfold port_read. rewrite (proj2 (Z.eqb_neq p NULL)) by done. apply wp_seq, wp_lock. apply wp_seq. eapply wp_get_magic; [done|].
  pose proof (li_magic _ _ _ _ HL _ _ Hp) as Hm.
  pose proof (wp_turn wl O Bf W K R cur g p timeout o pr HL HW Hcur Hp Hg HK) as H. rewrite wp_bind in H.
  assert (Hsel : (magic o =? READPORT_MAGIC) = negb g /\ (g = true -> (magic o =? PORTGROUP_MAGIC) = true))
    by (destruct o; cbn in Hg, Hm |- *; [done| |]; injection Hg as <-; rewrite Hm; done).
  destruct Hsel as [-> Hsel]. destruct g; cbn [negb]; [rewrite Hsel by done|].
  all: apply wp_seq; (eapply wp_mono; [exact H|]); intros rr s1 H1; apply wp_seq; (eapply wp_mono; [exact H1|]); intros [rc pr'] s' H2; apply wp_ret; by exists pr'.
Qed.

(** The thread has its result. *)
Definition runs_again (cur : tid) (s : ports) : ports :=
  Ports (write_port_list s) (objs s) (bufs s) (delete cur (woken s)) (thread_lock s) (ints s).

(** The rest of port_read in a thread that was woken. *)
Lemma port_read_resume_ok K R s cur c e :
  inv s K R -> R !! cur = Some c -> woken s !! cur = Some e ->
  wp (port_read_resume cur (rc_group c) (rc_port c) (rc_timeout c) (rc_result c))
    (fun rr s' => if e =? NO_ERROR then read_post K (delete cur R) cur (rc_group c) (rc_port c) (rc_timeout c) (runs_again cur s) rr s'
                  else rr = (Returned e, rc_result c) /\ inv s' K (delete cur R) /\ objs s' = objs s /\ bufs s' = bufs s) s.
Proof.
  intros [Hlk Hit HL HW] Hc He. destruct s as [wl O Bf W lk it]. cbn in *. subst lk it.
  pose proof (waits_return O W K R HW cur e He) as HW'. unfold port_read_resume. apply wp_seq, wp_lock. apply wp_seq, wp_get. apply wp_seq.
  eapply wp_deref; [done|]. apply wp_seq, wp_put. cbn [write_port_list objs bufs woken thread_lock ints].
  destruct (Z.eqb_spec e NO_ERROR) as [->|Hne]; cbn [negb].
  - destruct (wa_read _ _ _ _ HW cur c Hc ltac:(by right)) as (Hk & HK).
    destruct (O !! rc_port c) as [o|] eqn:Hp; [|done]. cbn in Hk.
    apply (wp_turn wl O Bf (delete cur W) K (delete cur R) cur (rc_group c) (rc_port c) (rc_timeout c) o); try done. apply lookup_delete_eq.
  - apply wp_seq, wp_ret. unfold read_exit. cbn [fst]. apply wp_seq, wp_unlock, wp_ret. split_and!; [done|by constructor|done|done].
Qed.
