(* ===== verification/PortClose.v ===== *)
(** * Ports: making, closing and destroying them *)

From stdpp Require Import prelude list gmap.
From Stdlib Require Import ZArith Lia.
From S2P Require Import Prelude Pow2 Timer Kernel Mutex Port PortInv PortLinks PortOps.

Open Scope Z_scope.
Open Scope lk_scope.

(** ** Closing a read port *)

(** What the two lists of a read port that closes become, and the buffer it leaves to free. *)
Definition unread (O OW : objects) (p : Z) (r : read_port) (b : Z) : Prop :=
  (rp_wport r = NULL /\ OW = O /\ b = NULL) \/
  (rp_wport r <> NULL /\ exists w l', O !! rp_wport r = Some (WritePort w) /\ p ∈ wp_rp_list w /\ l' = filter (fun x => x <> p) (wp_rp_list w) /\
    OW = <[rp_wport r := wp_linked w (if bool_decide (l' = []) then rp_buf r else wp_buf w) l']> O /\ b = if bool_decide (l' = []) then NULL else rp_buf r).
Definition ungrouped (O OG : objects) (p : Z) (r : read_port) : Prop :=
  (rp_gport r = NULL /\ OG = O) \/
  (rp_gport r <> NULL /\ exists g, O !! rp_gport r = Some (PortGroup g) /\ p ∈ pg_rp_list g /\
    OG = <[rp_gport r := pg_listed g (filter (fun x => x <> p) (pg_rp_list g))]> O).

Ltac map_cases := apply map_eq; intros x;
  repeat match goal with |- context [<[?k := _]> _ !! x] => destruct (decide (x = k)); [subst x|]; simplify_map_eq; try done end; try done.

Lemma links_close_step O OW Bf wl K p r r' b :
  links O Bf wl K -> O !! p = Some (ReadPort r) -> K !! p = None -> rp_wait r = [] -> rp_gport r = NULL -> unread O OW p r b ->
  rp_magic r' = READPORT_MAGIC -> rp_wait r' = [] ->
  links (<[p := ReadPort r']> OW) Bf wl (<[p := (false, b)]> K).
Proof.
  intros HL Hp HK Hq Hg [(Hw & -> & ->)|(Hw & w & l' & Hwp & Hin & Hl' & -> & ->)] Hm' Hq'.
  - eapply links_closing_any; [by eapply links_close_orphan|done|apply lookup_insert_eq|done|done].
  - eapply links_closing_any; [by eapply (links_close_reader O Bf wl K HL p r (rp_wport r) w l')| |apply lookup_insert_eq|done|done].
    rewrite lookup_insert_ne by congruence. done.
Qed.

Lemma links_close O OW OG Bf wl K p r r' b :
  links O Bf wl K -> O !! p = Some (ReadPort r) -> K !! p = None -> unread O OW p r b -> ungrouped OW OG p r ->
  rp_magic r' = READPORT_MAGIC -> rp_wait r' = [] ->
  links (<[p := ReadPort r']> OG) Bf wl (<[p := (false, b)]> K).
Proof.
  intros HL Hp HK Hu Hg Hm' Hq'.
  (* as if everybody had been woken before *)
  set (r1 := Read_port (rp_magic r) (rp_buf r) (rp_ctx r) [] (rp_wport r) (rp_gport r)).
  assert (HL1 : links (<[p := ReadPort r1]> O) Bf wl K).
  { apply (wake_links wl O Bf K p (ReadPort r) [] (rp_wait r)); [done|done|cbn; by rewrite app_nil_r]. }
  assert (Hp1 : <[p := ReadPort r1]> O !! p = Some (ReadPort r1)) by apply lookup_insert_eq.
  destruct Hg as [[Hg ->]|(Hg & g & Hgp & Hin & ->)].
  - replace (<[p := ReadPort r']> OW) with (<[p := ReadPort r']> (<[p := ReadPort r1]> OW)) by apply insert_insert_eq.
    eapply links_close_step; [exact HL1|exact Hp1|done|done|done| |done|done].
    destruct Hu as [(Hw & -> & ->)|(Hw & w & l' & Hwp & Hinw & Hl' & -> & ->)]; [by left|right]. split; [done|]. exists w, l'.
    assert (rp_wport r <> p) by congruence. split_and!; [by rewrite lookup_insert_ne|done|done|by rewrite insert_insert_ne|done].
  - assert (Hgp0 : O !! rp_gport r = Some (PortGroup g)).
    { destruct Hu as [(Hw & -> & ->)|(Hw & w & l' & Hwp & Hinw & Hl' & -> & ->)]; [done|]. rewrite lookup_insert_ne in Hgp; [done|]. intros E.
      rewrite E, lookup_insert_eq in Hgp. done. }
    assert (Hne : rp_gport r <> p) by congruence.
    pose proof (links_leave (<[p := ReadPort r1]> O) Bf wl K HL1 p r1 (rp_gport r) g Hp1 HK eq_refl Hg ltac:(by rewrite lookup_insert_ne) Hin) as HL2.
    set (O2 := <[rp_gport r := pg_listed g (filter (fun x => x <> p) (pg_rp_list g))]> (<[p := rp_grouped r1 NULL]> (<[p := ReadPort r1]> O))) in *.
    set (r2 := Read_port (rp_magic r) (rp_buf r) (rp_ctx r) [] (rp_wport r) NULL).
    assert (Hp2 : O2 !! p = Some (ReadPort r2)) by (unfold O2; rewrite lookup_insert_ne by done; by rewrite lookup_insert_eq).
    destruct Hu as [(Hw & -> & ->)|(Hw & w & l' & Hwp & Hinw & Hl' & -> & ->)].
    + replace (<[p := ReadPort r']> _) with (<[p := ReadPort r']> O2) by (unfold O2; map_cases).
      eapply links_close_step; [exact HL2|exact Hp2|done|done|done|by left|done|done].
    + assert (Hwg : rp_wport r <> rp_gport r) by congruence. assert (Hwp' : rp_wport r <> p) by congruence.
      replace (<[p := ReadPort r']> _) with (<[p := ReadPort r']> (<[rp_wport r := wp_linked w (if bool_decide (l' = []) then rp_buf r else wp_buf w) l']> O2))
        by (unfold O2; map_cases).
      eapply links_close_step; [exact HL2|exact Hp2|done|done|done| |done|done]. right. split; [done|]. exists w, l'.
      split_and!; [unfold O2; by rewrite lookup_insert_ne, !lookup_insert_ne by done|done|done|done|done].
Qed.

Lemma wp_delete_node l p s (Q : list Z -> ports -> Prop) : p ∈ l -> Q (filter (fun x => x <> p) l) s -> wp (delete_node l p) Q s.
Proof. intros Hp HQ. unfold delete_node. by rewrite bool_decide_true. Qed.

(** The port is the last reader of its write port. *)
Definition last_reader (O : objects) (p : Z) (r : read_port) : bool :=
  negb (rp_wport r =? NULL) && bool_decide (filter (fun x => x <> p) (default [] (readers_of O (rp_wport r))) = []).

(** Nobody is about to read from it. *)
Definition unread_by (s : ports) (R : readers) (p : Z) : Prop := forall t c, R !! t = Some c -> rc_port c = p -> woken s !! t <> Some NO_ERROR.

(** The packets that readers have not taken go back to the write port with the last of them. *)
Definition gives_back (s : ports) (K : closers) (p : Z) (r : read_port) (s' : ports) : Prop :=
  forall x, K !! x = None -> x <> p -> is_Some (objs s !! x) ->
    pkts (objs s') (bufs s') x = if last_reader (objs s) p r && bool_decide (x = rp_wport r) then pkts (objs s) (bufs s) p else pkts (objs s) (bufs s) x.

Section close_read.
Context (wl : list Z) (O : objects) (Bf : gmap Z port_buf) (W : gmap tid Z) (p : Z) (r : read_port).
Hypothesis (Hp : O !! p = Some (ReadPort r)).
Notation st := (Ports wl O Bf W true false).

Lemma unread_run (Q : Z -> ports -> Prop) :
  (rp_wport r <> NULL -> exists w, O !! rp_wport r = Some (WritePort w) /\ p ∈ wp_rp_list w) ->
  (forall OW b r1, unread O OW p r b -> rp_magic r1 = rp_magic r -> rp_wait r1 = rp_wait r -> rp_gport r1 = rp_gport r ->
    (forall x, x <> p -> OW !! x = O !! x \/ exists w w', O !! x = Some (WritePort w) /\ OW !! x = Some (WritePort w')) ->
    Q b (Ports wl (<[p := ReadPort r1]> OW) Bf W true false)) ->
  wp (if negb (rp_wport r =? NULL) then
        let* w := get_wp (rp_wport r) in
        let* l := delete_node (wp_rp_list w) p in
        set_wp_rp_list (rp_wport r) l ;;
        if bool_decide (l = []) then set_wp_buf (rp_wport r) (rp_buf r) ;; set_rp_buf p NULL ;; ret NULL
        else ret (rp_buf r)
      else ret NULL) Q st.
Proof.
  intros Hport HQ. destruct (Z.eqb_spec (rp_wport r) NULL) as [Hw|Hw]; cbn [negb].
  - apply wp_ret. rewrite <- (insert_id O p (ReadPort r) Hp). apply HQ; [by left|done|done|done|by left].
  - destruct (Hport Hw) as (w & Hwp & Hin). assert (Hne : rp_wport r <> p) by congruence.
    apply wp_seq. eapply wp_get_wp; [done|]. apply wp_seq. apply wp_delete_node; [done|]. set (l' := filter (fun x => x <> p) (wp_rp_list w)).
    apply wp_seq. eapply wp_set_wp_rp_list; [done|].
    assert (Hu : unread O (<[rp_wport r := wp_linked w (if bool_decide (l' = []) then rp_buf r else wp_buf w) l']> O) p r (if bool_decide (l' = []) then NULL else rp_buf r)).
    { right. split; [done|]. by exists w, l'. }
    assert (Hother : forall w' x, x <> p -> <[rp_wport r := WritePort w']> O !! x = O !! x \/ exists w0 w1, O !! x = Some (WritePort w0) /\ <[rp_wport r := WritePort w']> O !! x = Some (WritePort w1)).
    { intros w' x Hx. destruct (decide (x = rp_wport r)) as [->|]; [right; rewrite lookup_insert_eq; eauto|left; by rewrite lookup_insert_ne]. }
    destruct (bool_decide_reflect (l' = [])) as [E|E].
    + apply wp_seq. eapply wp_set_wp_buf; [apply lookup_insert_eq|]. cbn [wp_linked wp_rp_list wp_magic wp_mode wp_name]. rewrite insert_insert_eq.
      apply wp_seq. eapply wp_set_rp_buf; [by rewrite lookup_insert_ne|]. apply wp_ret. rewrite E in *. apply HQ; [done|done|done|done|]. apply Hother.
    + apply wp_ret. rewrite <- (insert_id (<[rp_wport r := _]> O) p (ReadPort r)) by (by rewrite lookup_insert_ne). apply HQ; [done|done|done|done|]. apply Hother.
Qed.

Lemma ungrouped_run OW r1 (Q : unit -> ports -> Prop) :
  (rp_gport r <> NULL -> exists g, O !! rp_gport r = Some (PortGroup g) /\ p ∈ pg_rp_list g) ->
  rp_gport r1 = rp_gport r -> (forall x, x <> p -> OW !! x = O !! x \/ exists w w', O !! x = Some (WritePort w) /\ OW !! x = Some (WritePort w')) ->
  (forall OG, ungrouped OW OG p r -> Q tt (Ports wl (<[p := ReadPort r1]> OG) Bf W true false)) ->
  wp (if negb (rp_gport r =? NULL) then
        let* s := get in
        let* l := delete_node (match objs s !! rp_gport r with Some (PortGroup g) => pg_rp_list g | _ => [] end) p in
        set_pg_rp_list (rp_gport r) l
      else ret tt) Q (Ports wl (<[p := ReadPort r1]> OW) Bf W true false).
Proof.
  intros Hgroup Hg1 Hother HQ. destruct (Z.eqb_spec (rp_gport r) NULL) as [Hg|Hg]; cbn [negb].
  - apply wp_ret, HQ. by left.
  - destruct (Hgroup Hg) as (g & Hgp & Hin). assert (Hne : rp_gport r <> p) by congruence.
    assert (Hgp' : OW !! rp_gport r = Some (PortGroup g)) by (destruct (Hother _ Hne) as [->|(? & ? & ? & _)]; congruence).
    apply wp_seq, wp_get. cbn [objs]. rewrite lookup_insert_ne, Hgp' by done. apply wp_seq, wp_delete_node; [done|].
    eapply wp_set_pg_rp_list; [by rewrite lookup_insert_ne|]. rewrite insert_insert_ne by done. apply HQ. right. split; [done|]. by exists g.
Qed.
End close_read.

(** ** The end of a closing call *)

Lemma waits_closed O W K R p v : waits O W K R -> K !! p = Some v -> waits (delete p O) W (delete p K) R.
Proof.
  intros HW HK. apply (waits_ext O W K R HW).
  - intros x q. unfold queue_at. destruct (decide (x = p)) as [->|]; [by rewrite lookup_delete_eq|rewrite lookup_delete_ne by done; by right].
  - intros t c Hc Ht. destruct (wa_read _ _ _ _ HW t c Hc Ht) as [_ HKc]. assert (rc_port c <> p) by congruence.
    unfold queue_at. by rewrite !lookup_delete_ne.
Qed.

Lemma wp_close_read_port wl O Bf W K R p b :
  links O Bf wl K -> waits O W K R -> K !! p = Some (false, b) ->
  wp (close_read_port p b true) (fun e s' => e = NO_ERROR /\ inv s' (delete p K) R /\ objs s' = delete p O /\
    bufs s' = (if b =? NULL then Bf else delete b Bf) /\ woken s' = W /\ write_port_list s' = wl) (Ports wl O Bf W true false).
Proof.
  intros HL HW HK. destruct (li_closing _ _ _ _ HL _ _ _ HK) as [Hk _]. destruct (O !! p) as [[|r|]|] eqn:Hp; try done.
  unfold close_read_port. apply wp_seq. eapply wp_set_rp_magic; [done|]. apply wp_seq, wp_unlock. apply wp_seq, wp_free_buf.
  - intros Hb. destruct (ow_ring _ _ (li_own _ _ _ _ HL) p b) as (buf & _ & -> & _); [unfold own; by rewrite HK|done|done].
  - apply wp_seq. eapply wp_free_obj; [apply lookup_insert_eq|]. apply wp_ret. rewrite delete_insert_eq. split; [done|]. split_and!; try done.
    constructor; [done|done|cbn|cbn; by eapply waits_closed]. eapply links_gone; [done|done|done|]. destruct (b =? NULL); auto.
Qed.

Lemma wp_ungroup_loop wl O Bf W lk it l (Q : unit -> ports -> Prop) :
  (forall r, r ∈ l -> exists rp, O !! r = Some (ReadPort rp)) ->
  (forall O1, ungroup O l O1 -> Q tt (Ports wl O1 Bf W lk it)) ->
  wp (for_each l (fun rp => set_rp_gport rp NULL)) Q (Ports wl O Bf W lk it).
Proof.
  revert O Q. induction l as [|r l IH]; intros O Q Hl HQ; cbn [for_each].
  - apply wp_ret, HQ. done.
  - destruct (Hl r ltac:(set_solver)) as [rp Hr]. apply wp_seq. eapply wp_set_rp_gport; [done|]. apply IH.
    + intros x Hx. destruct (decide (x = r)) as [->|]; [rewrite lookup_insert_eq; eauto|rewrite lookup_insert_ne by done; apply Hl; set_solver].
    + intros O1 H1. apply HQ. intros x. rewrite (H1 x). destruct (decide (x = r)) as [->|Hx].
      * rewrite lookup_insert_eq, Hr. rewrite (bool_decide_true (r ∈ r :: l)) by set_solver. by destruct (bool_decide (r ∈ l)).
      * rewrite lookup_insert_ne by done. destruct (bool_decide_reflect (x ∈ l)); destruct (bool_decide_reflect (x ∈ r :: l)); try done; set_solver.
Qed.

Lemma ungroup_queue O l O1 x : ungroup O l O1 -> queue_at O1 x = queue_at O x /\ O1 !! x ≫= is_group = O !! x ≫= is_group /\ buf_of <$> O1 !! x = buf_of <$> O !! x.
Proof. intros H. unfold queue_at. rewrite (H x). destruct (bool_decide (x ∈ l)); [|done]. by destruct (O !! x) as [[]|]. Qed.

Lemma wp_close_group wl O Bf W K R p b :
  links O Bf wl K -> waits O W K R -> K !! p = Some (true, b) ->
  wp (close_group p true) (fun e s' => e = NO_ERROR /\ inv s' (delete p K) R /\ bufs s' = Bf /\
    (forall x, x <> p -> buf_of <$> objs s' !! x = buf_of <$> O !! x) /\ objs s' !! p = None /\ woken s' = W) (Ports wl O Bf W true false).
Proof.
  intros HL HW HK. destruct (li_closing _ _ _ _ HL _ _ _ HK) as [Hk Hq]. destruct (O !! p) as [[| |g]|] eqn:Hp; try done.
  unfold close_group. apply wp_seq. eapply wp_get_pg; [done|]. apply wp_seq. apply wp_ungroup_loop.
  { intros r Hr. destruct (member_port _ _ _ _ _ _ _ HL Hp Hr) as (rp & ? & _). eauto. }
  intros O1 H1. assert (Hp1 : O1 !! p = Some (PortGroup g)).
  { rewrite (H1 p), bool_decide_false; [done|]. intros Hin. destruct (member_port _ _ _ _ _ _ _ HL Hp Hin) as (? & ? & _). congruence. }
  apply wp_seq. eapply wp_set_pg_magic; [done|]. apply wp_seq, wp_unlock. apply wp_seq. eapply wp_free_obj; [apply lookup_insert_eq|]. apply wp_ret.
  rewrite delete_insert_eq. split; [done|]. split_and!; cbn; [|done| |apply lookup_delete_eq|done].
  - pose proof (links_ungroup O Bf wl K HL O1 p g Hp H1) as HL1.
    assert (HW1 : waits (delete p O1) W (delete p K) R).
    { eapply waits_closed; [|done]. apply (waits_ext O W K R HW); [intros x q|intros t c _ _].
      - destruct (ungroup_queue O _ O1 x H1) as (-> & _). by right.
      - destruct (ungroup_queue O _ O1 (rc_port c) H1) as (-> & -> & _). done. }
    constructor; [done|done|cbn|done]. rewrite <- (delete_insert_eq O1 p (pg_listed g [])).
    eapply links_gone; [exact HL1|exact HK| |by left]. intros _. unfold members_of. by rewrite lookup_insert_eq.
  - intros x Hx. rewrite lookup_delete_ne by done. by destruct (ungroup_queue O _ O1 x H1) as (_ & _ & ->).
Qed.

(** ** port_close *)

Lemma buf_at_freed O Bf wl K p g b x :
  links O Bf wl K -> K !! p = Some (g, b) -> K !! x = None -> x <> p ->
  buf_at (delete p O) (if b =? NULL then Bf else delete b Bf) x = buf_at O Bf x.
Proof.
  intros HL HK HKx Hx. unfold buf_at. rewrite lookup_delete_ne by done. destruct (O !! x) as [o|] eqn:Ho; [|done]. cbn.
  destruct (Z.eqb_spec b NULL) as [|Hb]; [done|]. rewrite lookup_delete_ne; [done|]. intros E. apply Hx.
  apply (ow_inj _ _ (li_own _ _ _ _ HL) x p b); [rewrite (own_buf _ _ _ _ Ho HKx); congruence|unfold own; by rewrite HK|done].
Qed.

Lemma unread_bufs O OW OG Bf wl K p r b x :
  links O Bf wl K -> O !! p = Some (ReadPort r) -> K !! p = None -> unread O OW p r b -> ungrouped OW OG p r -> x <> p ->
  buf_at OG Bf x = if last_reader O p r && bool_decide (x = rp_wport r) then buf_at O Bf p else buf_at O Bf x.
Proof.
  intros HL Hp HK Hu Hg Hx.
  assert (HG : buf_at OG Bf x = buf_at OW Bf x).
  { destruct Hg as [[_ ->]|(_ & g & Hgp & _ & ->)]; [done|]. unfold buf_at. destruct (decide (x = rp_gport r)) as [->|]; [by rewrite lookup_insert_eq, Hgp|by rewrite lookup_insert_ne]. }
  rewrite HG. unfold last_reader, readers_of. destruct Hu as [(Hw & -> & _)|(Hw & w & l' & Hwp & Hin & -> & -> & _)].
  - by rewrite Hw.
  - rewrite (proj2 (Z.eqb_neq (rp_wport r) NULL)), Hwp by done. cbn [mbind option_bind as_wp fmap option_fmap option_map default negb andb].
    unfold buf_at. destruct (decide (x = rp_wport r)) as [->|Hne].
    + rewrite lookup_insert_eq, Hwp, Hp, (bool_decide_true (rp_wport r = rp_wport r)), andb_true_r by done. cbn. by destruct (bool_decide (filter _ _ = [])).
    + rewrite lookup_insert_ne by done. rewrite (bool_decide_false (x = rp_wport r)), andb_false_r by done. done.
Qed.

(** Everybody is awake: the waits of a port that starts closing. *)
Lemma waits_closing O O' W K R p o o1 q v :
  waits O W K R -> O !! p = Some o -> queue_of o = Some q -> queue_of o1 = Some q -> is_group o1 = is_group o ->
  (forall x, x <> p -> queue_at O' x = queue_at O x /\ O' !! x ≫= is_group = O !! x ≫= is_group) ->
  (forall t c, R !! t = Some c -> rc_port c = p -> W !! t <> Some NO_ERROR) ->
  waits (<[p := with_queue o1 []]> O') (record_all q ERR_OBJECT_DESTROYED W) (<[p := v]> K) R.
Proof.
  intros HW Hp Hq Hq1 Hk HO Hun. assert (Hqp : queue_at O p = Some q) by (unfold queue_at; by rewrite Hp).
  assert (HW0 : waits (<[p := o1]> O') W K R).
  { apply (waits_ext O W K R HW).
    - intros x q'. rewrite queue_at_insert. destruct (bool_decide_reflect (x = p)) as [->|Hx]; [|by rewrite (proj1 (HO x Hx)); right].
      rewrite Hq1, Hqp. by right.
    - intros t c _ _. rewrite queue_at_insert. destruct (bool_decide_reflect (rc_port c = p)) as [E|Hx].
      + rewrite E, lookup_insert_eq, Hp, Hqp. cbn. by rewrite Hq1, Hk.
      + rewrite lookup_insert_ne by done. by destruct (HO _ Hx) as [-> ->]. }
  pose proof (waits_wake _ W K R HW0 p o1 q [] ERR_OBJECT_DESTROYED (lookup_insert_eq _ _ _) ltac:(by rewrite Hq1, app_nil_r)) as HW1.
  rewrite insert_insert_eq in HW1. apply (waits_ext _ _ K R HW1); [by right|]. intros t c Hc Ht. split_and!; [done|done|].
  rewrite lookup_insert_ne; [done|]. intros E. rewrite record_all_at in Ht. destruct (bool_decide_reflect (t ∈ q)) as [Hin|Hin].
  - destruct Ht as [Ht|Ht]; done.
  - destruct Ht as [Ht|Ht]; [|by eapply Hun]. destruct (wa_wait _ _ _ _ HW t c Hc Ht) as (q' & Hq' & Hin'). congruence.
Qed.

(** A call that closes has finished, or switched to a thread it woke. *)
Definition close_post (g : bool) (p : Z) (K : closers) (R : readers) (res : close_result) (s' : ports) : Prop :=
  match res with
  | Closed e => e = NO_ERROR /\ inv s' K R /\ objs s' !! p = None
  | Switched b => inv s' (<[p := (g, b)]> K) R
  end.

Lemma port_close_read_ok K R s p r :
  inv s K R -> objs s !! p = Some (ReadPort r) -> K !! p = None -> unread_by s R p ->
  wp (port_close p) (fun res s' => close_post false p K R res s' /\ gives_back s K p r s') s.
Proof.
  intros [Hlk Hit HL HW] Hp HK Hun. destruct s as [wl O Bf W lk it]. cbn in *. subst lk it.
  assert (Hp0 : p <> NULL) by (intros ->; by rewrite (li_null _ _ _ _ HL) in Hp). pose proof (li_magic _ _ _ _ HL _ _ Hp) as Hm. cbn in Hm.
  unfold port_close. rewrite (proj2 (Z.eqb_neq p NULL)) by done. apply wp_seq, wp_lock. apply wp_seq. eapply wp_get_magic; [done|].
  cbn [magic]. rewrite Hm, Z.eqb_refl. apply wp_seq. eapply wp_get_rp; [done|]. apply wp_seq. apply (unread_run wl O Bf W p r Hp); [by apply (wport_port O Bf wl K p r)|].
  intros OW b r1 Hu Hm1 Hq1 Hg1 Hother. apply wp_seq. apply (ungrouped_run wl O Bf W p r Hp); [by apply (gport_group O Bf wl K p r)|done|done|]. intros OG Hg.
  apply wp_seq. eapply wp_on_queue; [apply lookup_insert_eq|done|]. unfold waitq_wake_all. cbn [waiting results]. rewrite Hq1, insert_insert_eq.
  set (O1 := <[p := with_queue (ReadPort r1) []]> OG). set (W1 := record_all (rp_wait r) ERR_OBJECT_DESTROYED W).
  assert (HL1 : links O1 Bf wl (<[p := (false, b)]> K)) by (apply (links_close O OW OG Bf wl K p r); try done; cbn; by rewrite Hm1).
  assert (HW1 : waits O1 W1 (<[p := (false, b)]> K) R).
  { apply (waits_closing O OG W K R p (ReadPort r) (ReadPort r1)); [done|done|done|cbn; by rewrite Hq1|done| |exact Hun]. intros x Hx.
    assert (HWx : queue_at OW x = queue_at O x /\ OW !! x ≫= is_group = O !! x ≫= is_group).
    { unfold queue_at. destruct (Hother x Hx) as [->|(w & w' & -> & ->)]; done. }
    destruct Hg as [[_ ->]|(_ & g & Hgp & _ & ->)]; [done|]. rewrite queue_at_insert. destruct (bool_decide_reflect (x = rp_gport r)) as [->|]; [|by rewrite lookup_insert_ne].
    rewrite lookup_insert_eq. unfold queue_at in HWx. rewrite Hgp in HWx. unfold queue_at. done. }
  assert (HK1 : <[p := (false, b)]> K !! p = Some (false, b)) by apply lookup_insert_eq.
  assert (Hback : forall O' Bf', (forall x, K !! x = None -> x <> p -> buf_at O' Bf' x = buf_at OG Bf x) -> gives_back (Ports wl O Bf W false true) K p r (Ports wl O' Bf' W1 false true)).
  { intros O' Bf' HO' x HKx Hx _. unfold pkts at 1. cbn [objs bufs]. rewrite HO' by done. rewrite (unread_bufs O OW OG Bf wl K p r b x) by done.
    by destruct (last_reader O p r && bool_decide (x = rp_wport r)). }
  assert (HG1 : forall x, x <> p -> buf_at O1 Bf x = buf_at OG Bf x) by (intros x Hx; unfold buf_at, O1; by rewrite lookup_insert_ne).
  destruct (0 <? Z.of_nat (length (rp_wait r))).
  - apply wp_seq, wp_modify, wp_ret. split; [by constructor|]. cbn. apply Hback. intros x _ Hx. by apply HG1.
  - apply wp_seq. eapply wp_mono; [apply (wp_close_read_port wl O1 Bf W1 _ R p b HL1 HW1 HK1)|].
    intros e s' (-> & Hinv & HO' & HB' & HW' & Hwl'). apply wp_ret. rewrite delete_insert_id in Hinv by done. split.
    + split_and!; [done|done|]. rewrite HO'. apply lookup_delete_eq.
    + destruct s' as [wl' O' Bf' W' lk' it']. cbn in HO', HB'. subst O' Bf'. intros x HKx Hx Hox. refine (Hback (delete p O1) (if b =? NULL then Bf else delete b Bf) _ x HKx Hx Hox).
      intros y HKy Hy. rewrite <- HG1 by done. eapply buf_at_freed; [exact HL1|exact HK1|by rewrite lookup_insert_ne|done].
Qed.

Lemma buf_of_pkts O O' Bf x : buf_of <$> O' !! x = buf_of <$> O !! x -> pkts O' Bf x = pkts O Bf x.
Proof. intros H. unfold pkts, buf_at. destruct (O' !! x), (O !! x); cbn in H; try done. injection H as H. cbn. by rewrite H. Qed.

Lemma port_close_group_ok K R s p g :
  inv s K R -> objs s !! p = Some (PortGroup g) -> K !! p = None -> unread_by s R p ->
  wp (port_close p) (fun res s' => close_post true p K R res s' /\
    forall x, x <> p -> pkts (objs s') (bufs s') x = pkts (objs s) (bufs s) x) s.
Proof.
  intros [Hlk Hit HL HW] Hp HK Hun. destruct s as [wl O Bf W lk it]. cbn in *. subst lk it.
  assert (Hp0 : p <> NULL) by (intros ->; by rewrite (li_null _ _ _ _ HL) in Hp). pose proof (li_magic _ _ _ _ HL _ _ Hp) as Hm. cbn in Hm.
  unfold port_close. rewrite (proj2 (Z.eqb_neq p NULL)) by done. apply wp_seq, wp_lock. apply wp_seq. eapply wp_get_magic; [done|].
  cbn [magic]. rewrite Hm. change (PORTGROUP_MAGIC =? READPORT_MAGIC) with false. rewrite Z.eqb_refl. cbn iota.
  apply wp_seq. eapply wp_on_queue; [done|done|]. unfold waitq_wake_all. cbn [waiting results].
  set (O1 := <[p := with_queue (PortGroup g) []]> O). set (W1 := record_all (pg_wait g) ERR_OBJECT_DESTROYED W).
  assert (HL1 : links O1 Bf wl (<[p := (true, NULL)]> K)).
  { eapply (links_close_group O1 Bf wl K); [|apply lookup_insert_eq|done]. apply (wake_links wl O Bf K p (PortGroup g) [] (pg_wait g)); [done|done|cbn; by rewrite app_nil_r]. }
  assert (HW1 : waits O1 W1 (<[p := (true, NULL)]> K) R) by (by apply (waits_closing O O W K R p (PortGroup g) (PortGroup g))).
  assert (HB1 : forall x, x <> p -> buf_of <$> O1 !! x = buf_of <$> O !! x) by (intros x Hx; unfold O1; by rewrite lookup_insert_ne).
  destruct (0 <? Z.of_nat (length (pg_wait g))).
  - apply wp_seq, wp_modify, wp_ret. split; [by constructor|]. intros x Hx. by apply buf_of_pkts, HB1.
  - apply wp_seq. eapply wp_mono; [apply (wp_close_group wl O1 Bf W1 _ R p NULL HL1 HW1); apply lookup_insert_eq|].
    intros e s' (-> & Hinv & HB' & Hbf & Hgone & _). apply wp_ret. rewrite delete_insert_id in Hinv by done. split; [by split_and!|].
    intros x Hx. rewrite HB'. cbn. apply buf_of_pkts. by rewrite Hbf, HB1.
Qed.

Lemma port_close_write_ok K R s p w :
  inv s K R -> objs s !! p = Some (WritePort w) ->
  wp (port_close p) (fun res s' => inv s' K R /\ res = Closed (if wp_magic w =? WRITEPORT_MAGIC_W then NO_ERROR else ERR_BAD_HANDLE) /\
    objs s' = <[p := WritePort (Write_port WRITEPORT_MAGIC_X (wp_buf w) (wp_rp_list w) (wp_mode w) (wp_name w))]> (objs s) /\ bufs s' = bufs s) s.
Proof.
  intros [Hlk Hit HL HW] Hp. destruct s as [wl O Bf W lk it]. cbn in *. subst lk it.
  assert (Hp0 : p <> NULL) by (intros ->; by rewrite (li_null _ _ _ _ HL) in Hp). pose proof (li_magic _ _ _ _ HL _ _ Hp) as Hm. cbn in Hm.
  unfold port_close. rewrite (proj2 (Z.eqb_neq p NULL)) by done. apply wp_seq, wp_lock. apply wp_seq. eapply wp_get_magic; [done|]. cbn [magic].
  destruct Hm as [Hm|Hm]; rewrite Hm; cbn [Z.eqb Pos.eqb WRITEPORT_MAGIC_W WRITEPORT_MAGIC_X READPORT_MAGIC PORTGROUP_MAGIC].
  - apply wp_seq. eapply wp_set_wp_magic; [done|]. apply wp_seq, wp_unlock, wp_ret. split_and!; [|done|done|done].
    constructor; [done|done|by apply links_closed|]. cbn. apply (waits_ext O W K R HW).
    + intros x q. rewrite queue_at_insert. destruct (bool_decide_reflect (x = p)); [done|by right].
    + intros t c Hc Ht. destruct (wa_read _ _ _ _ HW t c Hc Ht) as [Hk _]. rewrite queue_at_insert. destruct (bool_decide_reflect (rc_port c = p)) as [E|Hx].
      * rewrite E, Hp in Hk. done.
      * by rewrite lookup_insert_ne.
  - apply wp_seq, wp_unlock, wp_ret. split_and!; [by constructor|done| |done]. cbn. rewrite insert_id; [done|]. rewrite Hp, <- Hm. by destruct w.
Qed.

(** The rest of port_close in a thread that let others run. *)
Lemma port_close_finish_ok K R s g p b :
  inv s K R -> K !! p = Some (g, b) ->
  wp (port_close_finish g p b) (fun e s' => e = NO_ERROR /\ inv s' (delete p K) R /\ objs s' !! p = None /\
    forall x, x <> p -> K !! x = None -> pkts (objs s') (bufs s') x = pkts (objs s) (bufs s) x) s.
Proof.
  intros [Hlk Hit HL HW] HK. destruct s as [wl O Bf W lk it]. cbn in *. subst lk it. unfold port_close_finish. apply wp_seq, wp_lock.
  destruct g.
  - eapply wp_mono; [by apply (wp_close_group wl O Bf W K R p b)|]. intros e s' (-> & Hinv & HB' & Hbf & Hgone & _). split_and!; [done|done|done|].
    intros x Hx _. rewrite HB'. apply buf_of_pkts. by rewrite Hbf.
  - eapply wp_mono; [by apply (wp_close_read_port wl O Bf W K R p b)|]. intros e s' (-> & Hinv & HO' & HB' & _). split_and!; [done|done|rewrite HO'; apply lookup_delete_eq|].
    intros x Hx HKx. unfold pkts at 1. rewrite HO', HB', (buf_at_freed O Bf wl K p false b) by done. done.
Qed.

(** ** port_destroy *)

Definition unwrite (o : port_obj) : port_obj := match o with ReadPort r => rp_linked r (rp_buf r) NULL | _ => o end.

(** The readers have forgotten their write port, and some threads are awake. *)
Record forgot (l : list Z) (O O1 : objects) : Prop := {
  fo_shape : forall x, shape <$> O1 !! x = shape <$> (if bool_decide (x ∈ l) then unwrite <$> O !! x else O !! x);
  fo_queue : forall x, queue_at O x = Some [] -> queue_at O1 x = Some []
}.

Lemma forgot_refl O : forgot [] O O.
Proof. by constructor. Qed.

Lemma forgot_trans r l O O2 O1 : forgot [r] O O2 -> forgot l O2 O1 -> forgot (r :: l) O O1.
Proof.
  intros [Hs1 Hq1] [Hs2 Hq2]. constructor; [|auto]. intros x. rewrite Hs2. specialize (Hs1 x).
  assert (Hu : forall o : option port_obj, shape <$> (unwrite <$> o) = unwrite <$> (shape <$> o)) by (by intros [[]|]).
  assert (Hi : forall o : option port_obj, unwrite <$> (unwrite <$> o) = unwrite <$> o) by (by intros [[]|]).
  destruct (decide (x = r)) as [->|Hx].
  - rewrite (bool_decide_true (r ∈ r :: l)) by (by left). rewrite bool_decide_true in Hs1 by (by left).
    destruct (bool_decide (r ∈ l)); [|done]. by rewrite Hu, Hs1, <- Hu, Hi.
  - rewrite (bool_decide_ext (x ∈ r :: l) (x ∈ l)) by (rewrite elem_of_cons; tauto).
    rewrite bool_decide_false in Hs1 by (rewrite list_elem_of_singleton; done). destruct (bool_decide (x ∈ l)); [|done]. by rewrite Hu, Hs1, <- Hu.
Qed.

Lemma forgot_wake O p o q : O !! p = Some o -> queue_of o = Some q -> forgot [] O (<[p := with_queue o []]> O).
Proof.
  intros Hp Hq. constructor.
  - intros x. rewrite bool_decide_false by set_solver. by apply same_shape_queue.
  - intros x. rewrite queue_at_insert. destruct (bool_decide_reflect (x = p)); [|done]. intros _. by eapply queue_of_with.
Qed.

Lemma forgot_none l O O2 O1 : forgot [] O O2 -> forgot l O2 O1 -> forgot l O O1.
Proof.
  intros [Hs1 Hq1] [Hs2 Hq2]. constructor; [|auto]. intros x. rewrite Hs2. specialize (Hs1 x). rewrite bool_decide_false in Hs1 by set_solver.
  assert (Hu : forall o : option port_obj, shape <$> (unwrite <$> o) = unwrite <$> (shape <$> o)) by (by intros [[]|]).
  destruct (bool_decide (x ∈ l)); [|done]. by rewrite Hu, Hs1, <- Hu.
Qed.

Lemma forgot_rp l O O1 p r : forgot l O O1 -> O !! p = Some (ReadPort r) -> exists r', O1 !! p = Some (ReadPort r') /\ rp_gport r' = rp_gport r /\ rp_buf r' = rp_buf r.
Proof.
  intros [Hs _] Hp. specialize (Hs p). rewrite Hp in Hs. destruct (bool_decide (p ∈ l)), (O1 !! p) as [[| r'|]|]; cbn in Hs; try done; injection Hs; eauto.
Qed.

Lemma forgot_pg l O O1 p g : forgot l O O1 -> O !! p = Some (PortGroup g) -> exists g', O1 !! p = Some (PortGroup g').
Proof.
  intros [Hs _] Hp. specialize (Hs p). rewrite Hp in Hs. destruct (bool_decide (p ∈ l)), (O1 !! p) as [[| |g']|]; cbn in Hs; try done; eauto.
Qed.

Lemma wp_destroy_loop K R wl Bf lk it l O W (Q : unit -> ports -> Prop) :
  waits O W K R -> (forall r, r ∈ l -> exists rp, O !! r = Some (ReadPort rp) /\ (rp_gport rp <> NULL -> exists g, O !! rp_gport rp = Some (PortGroup g))) ->
  (forall O1 W1, forgot l O O1 -> waits O1 W1 K R -> Q tt (Ports wl O1 Bf W1 lk it)) ->
  wp (for_each l (fun rp =>
        let* _ := on_queue rp (waitq_wake_all ERR_CANCELLED) in
        let* r := get_rp rp in
        (if negb (rp_gport r =? NULL) then let* _ := on_queue (rp_gport r) (waitq_wake_all ERR_CANCELLED) in ret tt else ret tt) ;;
        set_rp_wport rp NULL)) Q (Ports wl O Bf W lk it).
Proof.
  revert O W Q. induction l as [|r l IH]; intros O W Q HW Hl HQ; cbn [for_each]; [by apply wp_ret, HQ; [apply forgot_refl|]|].
  destruct (Hl r ltac:(set_solver)) as (rp & Hr & Hg).
  (* the end of the turn, and the others *)
  assert (Hend : forall O2 W2, forgot [] O O2 -> waits O2 W2 K R -> wp (set_rp_wport r NULL ;; for_each l (fun rp =>
        let* _ := on_queue rp (waitq_wake_all ERR_CANCELLED) in
        let* r := get_rp rp in
        (if negb (rp_gport r =? NULL) then let* _ := on_queue (rp_gport r) (waitq_wake_all ERR_CANCELLED) in ret tt else ret tt) ;;
        set_rp_wport rp NULL)) Q (Ports wl O2 Bf W2 lk it)).
  { intros O2 W2 Hf HW2. destruct (forgot_rp _ _ _ _ _ Hf Hr) as (r2 & Hr2 & _ & _). apply wp_seq. eapply wp_set_rp_wport; [done|].
    assert (Hf2 : forgot [r] O2 (<[r := rp_linked r2 (rp_buf r2) NULL]> O2)).
    { constructor; intros x.
      - destruct (decide (x = r)) as [->|]; [rewrite lookup_insert_eq, bool_decide_true, Hr2 by set_solver; done|rewrite lookup_insert_ne, bool_decide_false by set_solver; done].
      - rewrite queue_at_insert. unfold queue_at. destruct (bool_decide_reflect (x = r)) as [->|]; [by rewrite Hr2|done]. }
    apply IH.
    - apply (waits_ext O2 W2 K R HW2); [intros x q|intros t c _ _]; rewrite queue_at_insert.
      + unfold queue_at at 2. destruct (bool_decide_reflect (x = r)) as [->|]; [rewrite Hr2|]; by right.
      + unfold queue_at at 2. destruct (bool_decide_reflect (rc_port c = r)) as [->|]; [by rewrite lookup_insert_eq, Hr2|by rewrite lookup_insert_ne].
    - intros x Hx. destruct (Hl x ltac:(set_solver)) as (rx & Hrx & Hgx). pose proof (forgot_none _ _ _ _ Hf Hf2) as Hf3.
      destruct (forgot_rp _ _ _ _ _ Hf3 Hrx) as (rx' & -> & Eg & _). exists rx'. split; [done|]. rewrite Eg. intros H0. destruct (Hgx H0) as [g Hgg].
      by eapply forgot_pg.
    - intros O1 W1 Hf1 HW1. apply HQ; [|done]. eapply forgot_trans; [by eapply forgot_none|done]. }
  rewrite wp_bind. rewrite wp_bind. eapply wp_on_queue; [done|done|]. unfold waitq_wake_all. cbn [waiting results].
  assert (Hf1 : forgot [] O (<[r := with_queue (ReadPort rp) []]> O)) by by eapply forgot_wake.
  assert (HW1 : waits (<[r := with_queue (ReadPort rp) []]> O) (record_all (rp_wait rp) ERR_CANCELLED W) K R) by (apply waits_wake; [done|done|cbn; by rewrite app_nil_r]).
  rewrite wp_bind. eapply wp_get_rp; [apply lookup_insert_eq|]. cbn [rp_gport]. rewrite wp_bind.
  destruct (Z.eqb_spec (rp_gport rp) NULL) as [E|E]; cbn [negb].
  - apply wp_ret. rewrite <- wp_bind. by apply Hend.
  - destruct (Hg E) as [g Hgg]. destruct (forgot_pg _ _ _ _ _ Hf1 Hgg) as [g1 Hg1]. rewrite wp_bind. eapply wp_on_queue; [done|done|]. unfold waitq_wake_all. cbn [waiting results].
    apply wp_ret. rewrite <- wp_bind. apply Hend; [eapply forgot_none; [done|by eapply forgot_wake]|]. apply waits_wake; [done|done|cbn; by rewrite app_nil_r].
Qed.

Definition unport_map (l : list Z) (O : objects) : objects := map_imap (fun x o => Some (if bool_decide (x ∈ l) then unwrite o else o)) O.

Lemma unport_map_spec l O : unport O l (unport_map l O).
Proof.
  intros x. unfold unport_map. rewrite map_lookup_imap. destruct (O !! x) as [o|]; cbn; [|by destruct (bool_decide (x ∈ l))].
  by destruct (bool_decide (x ∈ l)).
Qed.

Lemma destroyed_links O O1 Bf wl K p w :
  links O Bf wl K -> O !! p = Some (WritePort w) -> forgot (wp_rp_list w) O O1 ->
  links (delete p O1) (if wp_buf w =? NULL then Bf else delete (wp_buf w) Bf) (filter (fun x => x <> p) wl) K.
Proof.
  intros HL Hp [Hs Hq]. eapply links_shape; [| |apply (links_destroy O Bf wl K HL _ p w Hp (unport_map_spec _ _))].
  - intros x. destruct (decide (x = p)) as [->|]; [by rewrite !lookup_delete_eq|]. rewrite !lookup_delete_ne, Hs by done.
    by rewrite (unport_map_spec (wp_rp_list w) O x).
  - intros x g b Hx. pose proof (unclosed_kind _ _ _ _ HL p _ Hp eq_refl) as HK. assert (x <> p) by congruence.
    pose proof (Hq x) as Hqx. unfold queue_at in *. rewrite lookup_delete_ne by done. apply Hqx. by eapply (li_closing _ _ _ _ HL).
Qed.

Lemma port_destroy_ok K R s p w :
  inv s K R -> objs s !! p = Some (WritePort w) ->
  wp (port_destroy p) (fun e s' => inv s' K R /\
    if wp_magic w =? WRITEPORT_MAGIC_X
    then e = NO_ERROR /\ objs s' !! p = None /\ forall x, x <> p -> K !! x = None -> pkts (objs s') (bufs s') x = pkts (objs s) (bufs s) x
    else e = ERR_BAD_HANDLE /\ s' = s) s.
Proof.
  intros [Hlk Hit HL HW] Hp. destruct s as [wl O Bf W lk it]. cbn in *. subst lk it.
  assert (Hp0 : p <> NULL) by (intros ->; by rewrite (li_null _ _ _ _ HL) in Hp). pose proof (unclosed_kind _ _ _ _ HL p _ Hp eq_refl) as HK.
  unfold port_destroy. rewrite (proj2 (Z.eqb_neq p NULL)) by done. apply wp_seq, wp_lock. apply wp_seq. eapply wp_get_magic; [done|]. cbn [magic].
  destruct (Z.eqb_spec (wp_magic w) WRITEPORT_MAGIC_X) as [Hm|Hm]; cbn [negb]; [|apply wp_seq, wp_unlock, wp_ret; by split_and!].
  apply wp_seq, wp_get. cbn [write_port_list]. apply wp_seq. apply wp_delete_node; [apply (li_list _ _ _ _ HL); unfold readers_of; by rewrite Hp|].
  apply wp_seq, wp_modify. cbn [write_port_list objs bufs woken thread_lock ints]. apply wp_seq. eapply wp_get_wp; [done|].
  assert (Hend : forall O1 W1, forgot (wp_rp_list w) O O1 -> waits O1 W1 K R ->
    wp (set_wp_magic p 0 ;; THREAD_UNLOCK true ;; free_buf (wp_buf w) ;; free_obj p ;; ret NO_ERROR) (fun e s' => inv s' K R /\ e = NO_ERROR /\ objs s' !! p = None /\
      forall x, x <> p -> K !! x = None -> pkts (objs s') (bufs s') x = pkts O Bf x) (Ports (filter (fun x => x <> p) wl) O1 Bf W1 true false)).
  { intros O1 W1 Hf HW1. assert (Hp1 : O1 !! p = Some (WritePort w)).
    { pose proof (fo_shape _ _ _ Hf p) as E. rewrite Hp in E. destruct (bool_decide _), (O1 !! p) as [[]|]; cbn in E; congruence. }
    apply wp_seq. eapply wp_set_wp_magic; [done|]. apply wp_seq, wp_unlock. apply wp_seq, wp_free_buf.
    { intros Hb. destruct (port_ring _ _ _ _ _ _ HL Hp HK Hb) as (buf & _ & E & _). cbn in E. rewrite E. done. }
    apply wp_seq. eapply wp_free_obj; [apply lookup_insert_eq|]. apply wp_ret. rewrite delete_insert_eq.
    pose proof (destroyed_links O O1 Bf wl K p w HL Hp Hf) as HL1. split; [constructor; [done|done|done|]|].
    - cbn. apply (waits_ext O1 W1 K R HW1).
      + intros x q. unfold queue_at. destruct (decide (x = p)) as [->|]; [by rewrite lookup_delete_eq|rewrite lookup_delete_ne by done; by right].
      + intros t c Hc Ht. destruct (wa_read _ _ _ _ HW1 t c Hc Ht) as [Hk _]. assert (rc_port c <> p) by (intros E; rewrite E, Hp1 in Hk; done).
        unfold queue_at. by rewrite !lookup_delete_ne.
    - cbn. split_and!; [done|apply lookup_delete_eq|]. intros x Hx HKx. unfold pkts, buf_at. rewrite lookup_delete_ne by done.
      pose proof (fo_shape _ _ _ Hf x) as E. assert (Hb : buf_of <$> O1 !! x = buf_of <$> O !! x).
      { destruct (O !! x) as [o|] eqn:Ho, (O1 !! x) as [o1|]; destruct (bool_decide (x ∈ wp_rp_list w)); cbn in E |- *; try done; injection E as E; f_equal; destruct o, o1; cbn in *; congruence. }
      destruct (O1 !! x) as [o1|], (O !! x) as [o|] eqn:Ho; cbn in Hb; try done. injection Hb as Hb. cbn. rewrite Hb.
      destruct (Z.eqb_spec (wp_buf w) NULL) as [|Hwb]; [done|]. rewrite lookup_delete_ne; [done|]. intros E2. apply Hx.
      apply (ow_inj _ _ (li_own _ _ _ _ HL) x p (wp_buf w)); [rewrite (own_buf _ _ _ _ Ho HKx); congruence|by rewrite (own_buf _ _ _ _ Hp HK)|done]. }
  destruct (Z.eqb_spec (wp_buf w) NULL) as [Hb|Hb]; cbn [negb].
  - apply wp_seq. eapply wp_destroy_loop; [done| |].
    + intros r Hr. destruct (reader_port _ _ _ _ _ _ _ HL Hp Hr) as (rp & Hrp & HKr & _). exists rp. split; [done|]. intros Hg0.
      destruct (gport_group _ _ _ _ _ _ HL Hrp HKr Hg0) as (g & ? & _). eauto.
    + intros O1 W1 Hf HW1. by apply Hend.
  - apply wp_seq, wp_ret. assert (Hl : wp_rp_list w = []) by (pose proof (li_buf _ _ _ _ HL _ _ Hp) as H; cbn in H; destruct (wp_rp_list w); [done|]; destruct Hb; by apply H).
    apply Hend; [rewrite Hl; apply forgot_refl|done].
Qed.
