(* ===== verification/PortOpen.v ===== *)
(** * Ports: making them, opening them, putting them in groups *)

From stdpp Require Import prelude list gmap.
From Stdlib Require Import ZArith Lia.
From S2P Require Import Prelude Pow2 Timer Kernel Mutex Port PortInv PortLinks PortOps PortClose.

Open Scope Z_scope.
Open Scope lk_scope.

(** A change to an object nobody waits at, or only to its other fields. *)
Lemma waits_insert O W K R p o :
  waits O W K R -> (queue_of o = None \/ queue_of o = Some [] \/ exists o', O !! p = Some o' /\ queue_of o' = queue_of o) ->
  (forall o', O !! p = Some o' -> is_group o' = is_group o /\ queue_of o' = queue_of o) -> waits (<[p := o]> O) W K R.
Proof.
  intros HW Hq Ho. apply (waits_ext O W K R HW).
  - intros x q. rewrite queue_at_insert. destruct (bool_decide_reflect (x = p)) as [->|]; [|by right].
    intros H. destruct Hq as [Hq|[Hq|(o' & Hp & Hq)]]; [congruence|left; congruence|right; unfold queue_at; rewrite Hp; cbn; congruence].
  - intros t c Hc Ht. destruct (wa_read _ _ _ _ HW t c Hc Ht) as [Hk _]. rewrite queue_at_insert.
    destruct (bool_decide_reflect (rc_port c = p)) as [E|Hx]; [|by rewrite lookup_insert_ne]. rewrite E in *. destruct (O !! p) as [o'|] eqn:Hp; [|done].
    destruct (Ho o' eq_refl) as [H1 H2]. rewrite lookup_insert_eq. unfold queue_at. rewrite Hp. cbn. by rewrite H1, H2.
Qed.

Lemma waits_new O W K R p o : waits O W K R -> O !! p = None -> (queue_of o = None \/ queue_of o = Some []) -> waits (<[p := o]> O) W K R.
Proof. intros HW Hp Hq. apply waits_insert; [done|tauto|congruence]. Qed.

(** ** Names *)

Definition name_of (O : objects) (p : Z) : option (list Z) := o ← O !! p; wp_name <$> as_wp o.

Lemma wp_find_port name l s (Q : option Z -> ports -> Prop) :
  (forall p, p ∈ l -> is_Some (name_of (objs s) p)) ->
  (forall l1 p l2, l = l1 ++ p :: l2 -> name_of (objs s) p = Some name -> (forall x, x ∈ l1 -> name_of (objs s) x <> Some name) -> Q (Some p) s) ->
  ((forall p, p ∈ l -> name_of (objs s) p <> Some name) -> Q None s) ->
  wp (find_port name l) Q s.
Proof.
  revert Q. induction l as [|p l IH]; intros Q Hl Hyes Hno; cbn [find_port].
  - apply wp_ret, Hno. set_solver.
  - destruct (Hl p ltac:(set_solver)) as [n Hn]. unfold name_of in Hn. destruct (objs s !! p) as [[w| |]|] eqn:Hp; try done. injection Hn as Hn.
    assert (Hnp : name_of (objs s) p = Some n) by (unfold name_of; rewrite Hp; cbn; congruence).
    apply wp_seq. destruct s as [wl O Bf W lk it]. cbn in Hp. eapply wp_get_wp; [done|]. destruct (bool_decide_reflect (wp_name w = name)) as [E|E].
    + apply wp_ret. apply (Hyes [] p l); [done|congruence|set_solver].
    + apply IH.
      * intros x Hx. apply Hl. set_solver.
      * intros l1 x l2 -> Hx Hl1. apply (Hyes (p :: l1) x l2); [done|done|]. intros y [->|Hy]%elem_of_cons; [congruence|by apply Hl1].
      * intros Hall. apply Hno. intros y [->|Hy]%elem_of_cons; [congruence|by apply Hall].
Qed.

Lemma listed_names O Bf wl K p : links O Bf wl K -> p ∈ wl -> is_Some (name_of O p).
Proof.
  intros HL Hp. apply (li_list _ _ _ _ HL) in Hp. unfold readers_of, name_of in *. destruct (O !! p) as [[]|]; cbn in *; eauto; by destruct Hp.
Qed.

(** The port of a name is the first in the list. *)
Definition named (s : ports) (name : list Z) (p : Z) : Prop :=
  exists l1 l2, write_port_list s = l1 ++ p :: l2 /\ name_of (objs s) p = Some name /\ forall x, x ∈ l1 -> name_of (objs s) x <> Some name.
Definition unnamed (s : ports) (name : list Z) : Prop := forall p, p ∈ write_port_list s -> name_of (objs s) p <> Some name.

Lemma port_create_lookup_ok K R s name mode port :
  inv s K R ->
  wp (port_create_lookup name mode port) (fun r s' => s' = s /\
    match name with
    | None => r = Some (ERR_INVALID_ARGS, NULL)
    | Some n =>
        if negb port || (PORT_NAME_LEN <=? Z.of_nat (length n)) then r = Some (ERR_INVALID_ARGS, NULL)
        else (exists p w, named s n p /\ objs s !! p = Some (WritePort w) /\
                r = Some (if wp_magic w =? WRITEPORT_MAGIC_X then (ERR_BUSY, NULL) else (ERR_ALREADY_EXISTS, p))) \/
             (unnamed s n /\ r = None)
    end) s.
Proof.
  intros [Hlk Hit HL HW]. destruct s as [wl O Bf W lk it]. cbn in *. subst lk it. unfold port_create_lookup. destruct name as [n|]; [|by apply wp_ret].
  destruct port; cbn [negb orb]; [|by apply wp_ret]. replace (has_bit mode PORT_MODE_BROADCAST) with false by (unfold has_bit, PORT_MODE_BROADCAST; by rewrite Z.land_0_r). cbn [andb].
  destruct (PORT_NAME_LEN <=? Z.of_nat (length n)) eqn:El; [by apply wp_ret|]. apply wp_seq, wp_lock. apply wp_seq, wp_get. apply wp_seq. apply wp_find_port.
  - intros p Hp. by eapply listed_names.
  - intros l1 p l2 Hl Hn Hfirst. cbn in Hl, Hn, Hfirst. assert (Hw : exists w, O !! p = Some (WritePort w)).
    { unfold name_of in Hn. destruct (O !! p) as [[w| |]|]; try done. eauto. }
    destruct Hw as [w Hw]. apply wp_seq. eapply wp_get_magic; [done|]. apply wp_seq, wp_unlock. cbn [magic].
    assert (Hnd : named (Ports wl O Bf W false true) n p) by by exists l1, l2.
    destruct (wp_magic w =? WRITEPORT_MAGIC_X) eqn:Em; apply wp_ret; (split; [done|]); left; exists p, w; rewrite Em; by split_and!.
  - intros Hall. apply wp_seq, wp_unlock, wp_ret. split; [done|]. by right.
Qed.

(** ** port_create *)

Lemma wp_make_buf wl O (Bf : gmap Z port_buf) W lk it (big : bool) b (Q : Z -> ports -> Prop) :
  (b = NULL -> Q NULL (Ports wl O Bf W lk it)) ->
  (b <> NULL -> forall buf, ring buf [] -> size_of buf = (if big then PORT_BUFF_SIZE_BIG else PORT_BUFF_SIZE) -> Q b (Ports wl O (<[b := buf]> Bf) W lk it)) ->
  wp (make_buf big b) Q (Ports wl O Bf W lk it).
Proof.
  intros H0 H1. unfold make_buf. destruct (Z.eqb_spec b NULL) as [->|Hb]; [by apply wp_ret, H0|]. apply wp_seq, wp_get, wp_seq, wp_modify, wp_ret. cbn.
  apply H1; [done|apply ring_new; destruct big; auto|by destruct big].
Qed.

Lemma pkts_new_buf O Bf wl K a o b buf x :
  links O Bf wl K -> K !! x = None -> x <> a -> Bf !! b = None -> b <> NULL -> pkts (<[a := o]> O) (<[b := buf]> Bf) x = pkts O Bf x.
Proof.
  intros HL HK Hx Hb Hb0. unfold pkts, buf_at. rewrite lookup_insert_ne by done. destruct (O !! x) as [o'|] eqn:Ho; [|done]. cbn.
  destruct (decide (buf_of o' = b)) as [E|]; [|by rewrite lookup_insert_ne].
  destruct (ow_ring _ _ (li_own _ _ _ _ HL) x b) as (buf' & _ & E' & _); [rewrite (own_buf _ _ _ _ Ho HK); congruence|done|congruence].
Qed.

Lemma port_create_new_ok K R s name mode a b :
  inv s K R -> (a <> NULL -> objs s !! a = None) -> (b <> NULL -> bufs s !! b = None) ->
  wp (port_create_new name mode a b) (fun r s' => inv s' K R /\
    if bool_decide (a <> NULL /\ b <> NULL)
    then r = (NO_ERROR, a) /\ write_port_list s' = write_port_list s ++ [a] /\ name_of (objs s') a = Some name /\ pkts (objs s') (bufs s') a = [] /\
         forall x, K !! x = None -> x <> a -> objs s' !! x = objs s !! x /\ pkts (objs s') (bufs s') x = pkts (objs s) (bufs s) x
    else r = (ERR_NO_MEMORY, NULL) /\ s' = s) s.
Proof.
  intros [Hlk Hit HL HW] Ha Hb. destruct s as [wl O Bf W lk it]. cbn in *. subst lk it. unfold port_create_new.
  destruct (Z.eqb_spec a NULL) as [->|Ha0]; [apply wp_ret; rewrite bool_decide_false by tauto; by split_and!|]. specialize (Ha Ha0).
  apply wp_seq, wp_put_obj. apply wp_seq, wp_make_buf.
  - intros ->. apply wp_seq. eapply wp_set_wp_buf; [apply lookup_insert_eq|]. rewrite Z.eqb_refl. apply wp_seq. eapply wp_free_obj; [apply lookup_insert_eq|].
    apply wp_ret. rewrite bool_decide_false by tauto. rewrite insert_insert_eq, delete_insert_id by done. by split_and!.
  - intros Hb0 buf Hr _. apply wp_seq. eapply wp_set_wp_buf; [apply lookup_insert_eq|]. rewrite (proj2 (Z.eqb_neq b NULL)) by done. rewrite insert_insert_eq.
    apply wp_seq, wp_lock. apply wp_seq, wp_get. apply wp_seq, wp_modify. cbn [write_port_list objs bufs woken thread_lock ints].
    apply wp_seq, wp_unlock, wp_ret. rewrite bool_decide_true by done. specialize (Hb Hb0). split.
    + constructor; [done|done|by apply (links_create O Bf wl K HL)|]. apply waits_new; [done|done|by left].
    + cbn. split_and!; [done|done|unfold name_of; by rewrite lookup_insert_eq| |].
      * unfold pkts, buf_at. rewrite lookup_insert_eq. cbn. rewrite lookup_insert_eq. by apply ring_contents.
      * intros x HK Hx. split; [by rewrite lookup_insert_ne|]. by eapply pkts_new_buf.
Qed.

(** ** port_open *)

(** The new read port [a] on the port [p]. *)
Definition opened (ctx a p : Z) (O O' : objects) (w : write_port) (rb : Z) : Prop :=
  O' = <[p := wp_linked w NULL (wp_rp_list w ++ [a])]> (<[a := ReadPort (Read_port READPORT_MAGIC rb ctx [] p NULL)]> O).

Lemma opened_links O Bf wl K a b buf ctx p w :
  links O Bf wl K -> a <> NULL -> b <> NULL -> O !! a = None -> Bf !! b = None -> ring buf [] -> O !! p = Some (WritePort w) ->
  forall O', opened ctx a p O O' w (if wp_buf w =? NULL then b else wp_buf w) ->
  links O' (if wp_buf w =? NULL then <[b := buf]> Bf else Bf) wl K.
Proof.
  intros HL Ha Hb HO HB Hr Hp O' ->. assert (Hne : a <> p) by congruence.
  pose proof (links_read_port O Bf wl K HL a b buf ctx Ha Hb HO HB Hr) as HL1. set (Oa := <[a := _]> O) in HL1.
  assert (HK : K !! a = None) by (exact (unclosed O Bf wl K HL a HO)). assert (Hp1 : Oa !! p = Some (WritePort w)) by (unfold Oa; by rewrite lookup_insert_ne).
  destruct (Z.eqb_spec (wp_buf w) NULL) as [E|E].
  - pose proof (links_attach_next Oa _ _ _ HL1 a p _ w (lookup_insert_eq _ _ _) HK eq_refl Hp1 E) as H. unfold Oa in H. rewrite insert_insert_eq in H. exact H.
  - pose proof (links_attach_first Oa _ _ _ HL1 a p _ w (lookup_insert_eq _ _ _) HK eq_refl Hp1 E) as H. unfold Oa in H. rewrite insert_insert_eq in H.
    cbn [rp_buf] in H. rewrite delete_insert_id in H by done. exact H.
Qed.

Lemma opened_waits O W K R ctx a p w rb O' :
  waits O W K R -> O !! a = None -> O !! p = Some (WritePort w) -> opened ctx a p O O' w rb -> waits O' W K R.
Proof.
  intros HW HO Hp ->. assert (Hne : a <> p) by congruence. apply waits_insert; [apply waits_new; [done|done|by right]|by left|].
  intros o'. rewrite lookup_insert_ne, Hp by done. by intros [= <-].
Qed.

Section open_run.
Context (wl : list Z) (O : objects) (Bf : gmap Z port_buf) (W : gmap tid Z) (ctx a b p : Z) (buf : port_buf) (w : write_port).
Hypothesis (HO : O !! a = None) (Hb0 : b <> NULL) (Hp : O !! p = Some (WritePort w)).
Notation rp0 := (Read_port READPORT_MAGIC NULL ctx [] NULL NULL).

Lemma attach_run lk it (Q : Z * Z -> ports -> Prop) :
  (wp_buf w <> NULL -> forall O', opened ctx a p O O' w (wp_buf w) -> Q (NO_ERROR, b) (Ports wl O' (<[b := buf]> Bf) W lk it)) ->
  (wp_buf w = NULL -> has_bit (wp_mode w) PORT_MODE_UNICAST = true -> forall o, Q (ERR_NOT_ALLOWED, b) (Ports wl (<[a := o]> O) (<[b := buf]> Bf) W lk it)) ->
  (wp_buf w = NULL -> has_bit (wp_mode w) PORT_MODE_UNICAST = false -> forall O', opened ctx a p O O' w b -> Q (NO_ERROR, NULL) (Ports wl O' (<[b := buf]> Bf) W lk it)) ->
  wp (attach a p b) Q (Ports wl (<[a := ReadPort rp0]> O) (<[b := buf]> Bf) W lk it).
Proof.
  intros H1 H2 H3. assert (Hne : a <> p) by congruence. unfold attach. apply wp_seq. eapply wp_set_rp_wport; [apply lookup_insert_eq|]. rewrite insert_insert_eq.
  apply wp_seq. eapply wp_get_wp; [by rewrite lookup_insert_ne|]. destruct (Z.eqb_spec (wp_buf w) NULL) as [E|E]; cbn [negb].
  - rewrite (proj2 (Z.eqb_neq b NULL)) by done. cbn [negb]. destruct (has_bit (wp_mode w) PORT_MODE_UNICAST) eqn:Eu; [apply wp_ret; by apply H2|].
    apply wp_seq. eapply wp_set_wp_rp_list; [by rewrite lookup_insert_ne|]. apply wp_seq. eapply wp_set_rp_buf; [rewrite lookup_insert_ne by done; apply lookup_insert_eq|].
    apply wp_ret. apply H3; [done|done|]. unfold opened. rewrite E. map_cases.
  - apply wp_seq. eapply wp_set_wp_rp_list; [by rewrite lookup_insert_ne|]. apply wp_seq. eapply wp_set_rp_buf; [rewrite lookup_insert_ne by done; apply lookup_insert_eq|].
    apply wp_seq. eapply wp_set_wp_buf; [rewrite lookup_insert_ne by done; apply lookup_insert_eq|]. apply wp_ret. apply H1; [done|]. unfold opened. map_cases.
Qed.
End open_run.

(** What port_open answers and leaves. *)
Inductive open_post (K : closers) (name : list Z) (ctx a b : Z) (s : ports) : Z * Z -> ports -> Prop :=
  | open_no_memory : a = NULL \/ b = NULL -> open_post K name ctx a b s (ERR_NO_MEMORY, NULL) s
  | open_not_found : a <> NULL -> b <> NULL -> unnamed s name -> open_post K name ctx a b s (ERR_NOT_FOUND, NULL) s
  | open_not_allowed p w : a <> NULL -> b <> NULL -> named s name p -> objs s !! p = Some (WritePort w) ->
      wp_rp_list w <> [] -> has_bit (wp_mode w) PORT_MODE_UNICAST = true -> open_post K name ctx a b s (ERR_NOT_ALLOWED, NULL) s
  | open_first p w rp s' : a <> NULL -> b <> NULL -> named s name p -> objs s !! p = Some (WritePort w) -> wp_rp_list w = [] ->
      objs s' !! a = Some (ReadPort rp) -> rp_wport rp = p -> rp_ctx rp = ctx -> rp_gport rp = NULL ->
      pkts (objs s') (bufs s') a = pkts (objs s) (bufs s) p ->
      (forall x, K !! x = None -> x <> a -> x <> p -> pkts (objs s') (bufs s') x = pkts (objs s) (bufs s) x) -> open_post K name ctx a b s (NO_ERROR, a) s'
  | open_next p w rp s' : a <> NULL -> b <> NULL -> named s name p -> objs s !! p = Some (WritePort w) -> wp_rp_list w <> [] ->
      has_bit (wp_mode w) PORT_MODE_UNICAST = false ->
      objs s' !! a = Some (ReadPort rp) -> rp_wport rp = p -> rp_ctx rp = ctx -> rp_gport rp = NULL ->
      pkts (objs s') (bufs s') a = [] ->
      (forall x, K !! x = None -> x <> a -> x <> p -> pkts (objs s') (bufs s') x = pkts (objs s) (bufs s) x) -> open_post K name ctx a b s (NO_ERROR, a) s'.

Lemma opened_pkts O Bf wl K ctx a p w rb O' b buf x :
  links O Bf wl K -> Bf !! b = None -> b <> NULL -> opened ctx a p O O' w rb -> K !! x = None -> x <> a -> x <> p ->
  pkts O' (<[b := buf]> Bf) x = pkts O Bf x /\ pkts O' Bf x = pkts O Bf x.
Proof.
  intros HL Hb Hb0 -> HK Hxa Hxp. split; [|unfold pkts, buf_at; by rewrite !lookup_insert_ne by done].
  rewrite <- (pkts_new_buf O Bf wl K a (ReadPort (Read_port READPORT_MAGIC rb ctx [] p NULL)) b buf x) by done.
  unfold pkts at 1, buf_at. by rewrite lookup_insert_ne.
Qed.

Lemma port_open_ok K R s name ctx a b :
  inv s K R -> (a <> NULL -> objs s !! a = None) -> (b <> NULL -> bufs s !! b = None) ->
  wp (port_open (Some name) ctx true a b) (fun r s' => inv s' K R /\ open_post K name ctx a b s r s') s.
Proof.
  intros Hinv Ha Hb. pose proof Hinv as [Hlk Hit HL HW]. destruct s as [wl O Bf W lk it]. cbn in *. subst lk it. unfold port_open. cbn [negb].
  destruct (Z.eqb_spec a NULL) as [->|Ha0]; [apply wp_ret; split; [done|]; apply open_no_memory; by left|]. specialize (Ha Ha0).
  apply wp_seq, wp_put_obj. apply wp_seq, wp_make_buf.
  { intros ->. rewrite Z.eqb_refl. apply wp_seq. eapply wp_free_obj; [apply lookup_insert_eq|]. apply wp_ret. rewrite delete_insert_id by done.
    split; [done|]. apply open_no_memory. by right. }
  intros Hb0 buf Hr _. rewrite (proj2 (Z.eqb_neq b NULL)) by done. specialize (Hb Hb0). apply wp_seq, wp_lock. apply wp_seq, wp_get.
  assert (Hnames : forall x n, name_of (<[a := ReadPort (Read_port READPORT_MAGIC NULL ctx [] NULL NULL)]> O) x = Some n <-> name_of O x = Some n).
  { intros x n. unfold name_of. destruct (decide (x = a)) as [->|]; [by rewrite lookup_insert_eq, Ha|by rewrite lookup_insert_ne]. }
  assert (Hback : forall o e, wp (THREAD_UNLOCK true ;; free_buf b ;; (if e =? NO_ERROR then ret (e, a) else free_obj a ;; ret (e, NULL)))
      (fun r s' => e <> NO_ERROR -> r = (e, NULL) /\ s' = Ports wl O Bf W false true) (Ports wl (<[a := o]> O) (<[b := buf]> Bf) W true false)).
  { intros o e. apply wp_seq, wp_unlock. apply wp_seq, wp_free_buf; [by rewrite lookup_insert_eq|]. rewrite (proj2 (Z.eqb_neq b NULL)) by done.
    destruct (Z.eqb_spec e NO_ERROR); [by apply wp_ret|]. apply wp_seq. eapply wp_free_obj; [apply lookup_insert_eq|]. apply wp_ret. intros _.
    by rewrite !delete_insert_id by done. }
  apply wp_seq, wp_find_port; cbn [write_port_list objs].
  - intros p Hp. destruct (listed_names _ _ _ _ _ HL Hp) as [n Hn]. exists n. by apply Hnames.
  - intros l1 p l2 Hl Hn Hfirst. apply Hnames in Hn. assert (Hnd : named (Ports wl O Bf W false true) name p).
    { exists l1, l2. split_and!; [done|done|]. intros x Hx E. apply (Hfirst x Hx). by apply Hnames. }
    assert (exists w, O !! p = Some (WritePort w)) as [w Hp] by (unfold name_of in Hn; destruct (O !! p) as [[w| |]|]; try done; eauto).
    pose proof (li_buf _ _ _ _ HL _ _ Hp) as Hgb. cbn in Hgb. assert (Hne : a <> p) by congruence.
    apply wp_seq. apply (attach_run wl O Bf W ctx a b p buf w); [done|done|done| | |].
    + intros Hwb O' Ho. apply wp_seq, wp_unlock. apply wp_seq, wp_free_buf; [by rewrite lookup_insert_eq|]. rewrite (proj2 (Z.eqb_neq b NULL)), delete_insert_id by done.
      apply wp_ret. assert (Hl0 : wp_rp_list w = []) by (destruct (wp_rp_list w); [done|]; destruct Hwb; by apply Hgb).
      pose proof (opened_links O Bf wl K a b buf ctx p w HL Ha0 Hb0 Ha Hb Hr Hp O') as HL'. rewrite (proj2 (Z.eqb_neq (wp_buf w) NULL)) in HL' by done.
      split; [constructor; [done|done|by apply HL'|by eapply opened_waits]|].
      eapply (open_first K name ctx a b _ p w (Read_port READPORT_MAGIC (wp_buf w) ctx [] p NULL)); [done|done|done|done|done| |done|done|done| |]; cbn.
      * rewrite Ho. rewrite lookup_insert_ne by done. apply lookup_insert_eq.
      * unfold pkts, buf_at. rewrite Ho, lookup_insert_ne, lookup_insert_eq, Hp by done. done.
      * intros x HK Hxa Hxp. by eapply opened_pkts.
    + intros Hwb Hu o. eapply wp_mono; [apply Hback|]. intros r s' H. destruct (H ltac:(done)) as [-> ->]. split; [done|].
      eapply (open_not_allowed K name ctx a b _ p w); [done|done|done|done|by apply Hgb|done].
    + intros Hwb Hu O' Ho. apply wp_seq, wp_unlock. apply wp_seq, wp_free_buf; [done|]. cbn [Z.eqb NULL]. apply wp_ret.
      pose proof (opened_links O Bf wl K a b buf ctx p w HL Ha0 Hb0 Ha Hb Hr Hp O') as HL'. rewrite (proj2 (Z.eqb_eq (wp_buf w) NULL)) in HL' by done.
      split; [constructor; [done|done|by apply HL'|by eapply opened_waits]|].
      eapply (open_next K name ctx a b _ p w (Read_port READPORT_MAGIC b ctx [] p NULL)); [done|done|done|done|by apply Hgb|done| |done|done|done| |]; cbn.
      * rewrite Ho. rewrite lookup_insert_ne by done. apply lookup_insert_eq.
      * unfold pkts, buf_at. rewrite Ho, lookup_insert_ne, lookup_insert_eq by done. cbn. rewrite lookup_insert_eq. by apply ring_contents.
      * intros x HK Hxa Hxp. by eapply opened_pkts.
  - intros Hall. apply wp_seq, wp_ret. eapply wp_mono; [apply Hback|]. intros r s' H. destruct (H ltac:(done)) as [-> ->]. split; [done|].
    apply open_not_found; [done|done|]. intros p Hp E. apply (Hall p Hp). by apply Hnames.
Qed.

(** ** Groups *)

Definition regroup (g : Z) (o : port_obj) : port_obj := match o with ReadPort r => rp_grouped r g | _ => o end.

(** The ports can make a group: different read ports, in no group. *)
Definition groupable (O : objects) (l : list Z) : Prop :=
  NoDup l /\ forall x, x ∈ l -> exists r, O !! x = Some (ReadPort r) /\ rp_gport r = NULL.

(** The objects of [O] with the group [a] of [l]. *)
Definition grouping (O : objects) (a : Z) (l : list Z) (O' : objects) : Prop :=
  O' !! a = Some (PortGroup (Port_group PORTGROUP_MAGIC [] l)) /\
  forall x, x <> a -> O' !! x = if bool_decide (x ∈ l) then regroup a <$> O !! x else O !! x.

Section group.
Context (wl : list Z) (Bf : gmap Z port_buf) (W : gmap tid Z) (lk it : bool) (K : closers) (R : readers) (a : Z) (O : objects) (handles : list Z).
Hypothesis (HOa : O !! a = None) (Ha : a <> NULL).
Hypothesis (Hlive : forall x, x ∈ handles -> is_Some (O !! x) /\ K !! x = None).

(** Undoing: the group and its members as they were. *)
Lemma undo_run l O' (n : nat) (Q : unit -> ports -> Prop) :
  grouping O a l O' -> l = take n handles -> (n <= length handles)%nat -> groupable O l ->
  (forall O1, delete a O1 = O -> is_Some (O1 !! a) -> Q tt (Ports wl O1 Bf W lk it)) ->
  wp (for_each (seq 0 n) (fun jx => let* rp := port_at (Some handles) jx in set_rp_gport rp NULL)) Q (Ports wl O' Bf W lk it).
Proof.
  intros [Hga Hgx] -> Hn [Hnd Hl] HQ.
  assert (Hgen : forall m O2, (m <= n)%nat -> O2 !! a = Some (PortGroup (Port_group PORTGROUP_MAGIC [] (take n handles))) ->
    (forall x, x <> a -> O2 !! x = if bool_decide (x ∈ drop (n - m) (take n handles)) then regroup a <$> O !! x else O !! x) ->
    wp (for_each (seq (n - m) m) (fun jx => let* rp := port_at (Some handles) jx in set_rp_gport rp NULL)) Q (Ports wl O2 Bf W lk it)).
  { induction m as [|m IH]; intros O2 Hm Ha2 Hx2; cbn [seq for_each].
    - apply wp_ret, HQ; [|by rewrite Ha2]. apply map_eq. intros x. destruct (decide (x = a)) as [->|Hx]; [by rewrite lookup_delete_eq|].
      rewrite lookup_delete_ne, Hx2 by done. rewrite drop_ge, bool_decide_false; [done|set_solver|rewrite length_take; lia].
    - destruct (lookup_lt_is_Some_2 handles (n - S m) ltac:(lia)) as [p Hp].
      assert (Hpt : take n handles !! (n - S m)%nat = Some p) by (rewrite lookup_take_lt by lia; done).
      assert (Hdrop : drop (n - S m) (take n handles) = p :: drop (n - m) (take n handles)).
      { rewrite (drop_S _ p) by done. do 2 f_equal. lia. }
      destruct (Hl p ltac:(by eapply list_elem_of_lookup_2)) as (r & Hr & Hg0). assert (Hpa : p <> a) by congruence.
      assert (Hr2 : O2 !! p = Some (rp_grouped r a)) by (rewrite Hx2, Hdrop, bool_decide_true, Hr by (done || by left); done).
      apply wp_seq. apply wp_seq. unfold port_at. cbn [mbind option_bind]. rewrite Hp. apply wp_ret. eapply wp_set_rp_gport; [done|].
      replace (S (n - S m))%nat with (n - m)%nat by lia. apply IH; [lia|by rewrite lookup_insert_ne|]. intros x Hxa.
      assert (Hpn : p ∉ drop (n - m) (take n handles)) by (pose proof Hnd as H; rewrite <- (take_drop (n - S m) (take n handles)), Hdrop in H; apply NoDup_app in H as (_ & _ & H); by apply NoDup_cons in H as [H _]).
      destruct (decide (x = p)) as [->|Hxp].
      + rewrite lookup_insert_eq, bool_decide_false, Hr by done. unfold rp_grouped. cbn. f_equal. f_equal. destruct r; cbn in *; congruence.
      + rewrite lookup_insert_ne, Hx2, Hdrop by done. rewrite (bool_decide_ext (x ∈ p :: _) (x ∈ drop (n - m) (take n handles))) by (rewrite elem_of_cons; tauto). done. }
  specialize (Hgen n O' ltac:(lia) Hga). replace (n - n)%nat with 0%nat in Hgen by lia. apply Hgen. by rewrite drop_0.
Qed.

Lemma link_run (n k : nat) O' (Q : Z -> ports -> Prop) :
  (k + n = length handles)%nat -> grouping O a (take k handles) O' -> groupable O (take k handles) -> links O' Bf wl K -> waits O' W K R ->
  (groupable O handles -> forall O1, grouping O a handles O1 -> links O1 Bf wl K -> waits O1 W K R -> Q NO_ERROR (Ports wl O1 Bf W lk it)) ->
  (~ groupable O handles -> forall O1, delete a O1 = O -> is_Some (O1 !! a) -> Q ERR_BAD_HANDLE (Ports wl O1 Bf W lk it)) ->
  wp (link_ports (Some handles) a (seq k n)) Q (Ports wl O' Bf W lk it).
Proof.
  revert k O'. induction n as [|n IH]; intros k O' Hk Hg Hgr HL HW Hok Hbad; cbn [seq link_ports].
  - rewrite take_ge in Hg, Hgr by lia. apply wp_ret. by apply Hok.
  - destruct (lookup_lt_is_Some_2 handles k ltac:(lia)) as [p Hp]. apply wp_seq. unfold port_at at 1. cbn [mbind option_bind]. rewrite Hp. apply wp_ret.
    destruct (Hlive p ltac:(by eapply list_elem_of_lookup_2)) as [[o Ho] HKp]. assert (Hpa : p <> a) by congruence. pose proof Hg as [Hga Hgx].
    assert (Ho' : O' !! p = Some (if bool_decide (p ∈ take k handles) then regroup a o else o)) by (rewrite (Hgx p Hpa), Ho; by destruct (bool_decide _)).
    pose proof (li_magic _ _ _ _ HL _ _ Ho') as Hm. apply wp_seq. eapply wp_get_magic; [done|]. apply wp_seq.
    (* a port that cannot join *)
    assert (Hno : forall e, e = true -> ~ groupable O handles -> wp (if e then for_each (seq 0 k) (fun jx => let* rp := port_at (Some handles) jx in set_rp_gport rp NULL) ;; ret ERR_BAD_HANDLE
        else (set_rp_gport p a ;; (let* g := get_pg a in set_pg_rp_list a (pg_rp_list g ++ [p])) ;; link_ports (Some handles) a (seq (S k) n))) Q (Ports wl O' Bf W lk it)).
    { intros e -> Hn. apply wp_seq. eapply undo_run; [done|done|lia|done|]. intros O1 H1 H2. apply wp_ret. by apply Hbad. }
    destruct (bool_decide_reflect (p ∈ take k handles)) as [Hin|Hin].
    + (* already in the group *)
      destruct Hgr as [_ Hgr]. destruct (Hgr p Hin) as (r & Hr & Hg0). assert (o = ReadPort r) as -> by congruence. cbn in Hm, Ho' |- *. rewrite Hm. cbn [negb Z.eqb READPORT_MAGIC Pos.eqb].
      apply wp_seq. eapply wp_get_rp; [done|]. apply wp_ret. cbn [rp_gport]. rewrite (proj2 (Z.eqb_neq a NULL)) by done. cbn [negb]. refine (Hno true eq_refl _).
      intros [Hnd _]. apply list_elem_of_lookup in Hin as [j Hj]. apply lookup_take_Some in Hj as [Hj Hjk]. pose proof (NoDup_lookup _ _ _ _ Hnd Hj Hp). lia.
    + assert (Hnot : (forall r, o = ReadPort r -> rp_gport r = NULL -> False) -> ~ groupable O handles).
      { intros H [_ Hall]. destruct (Hall p ltac:(by eapply list_elem_of_lookup_2)) as (r & Hr & Hg0). apply (H r); congruence. }
      destruct o as [w|r|g]; cbn in Hm |- *.
      * rewrite (proj2 (Z.eqb_neq (wp_magic w) READPORT_MAGIC)) by (destruct Hm as [-> | ->]; done). apply wp_ret. refine (Hno true eq_refl _). apply Hnot. by intros.
      * rewrite Hm. cbn [negb Z.eqb READPORT_MAGIC Pos.eqb]. apply wp_seq. eapply wp_get_rp; [done|]. apply wp_ret.
        destruct (Z.eqb_spec (rp_gport r) NULL) as [Hg0|Hg0]; cbn [negb]; [|refine (Hno true eq_refl _); apply Hnot; intros ? [= <-]; done].
        apply wp_seq. eapply wp_set_rp_gport; [done|]. apply wp_seq. apply wp_seq. eapply wp_get_pg; [rewrite lookup_insert_ne by done; exact Hga|].
        eapply wp_set_pg_rp_list; [rewrite lookup_insert_ne by done; exact Hga|]. cbn [pg_rp_list].
        assert (Htk : take (S k) handles = take k handles ++ [p]) by (by apply take_S_r).
        apply IH; [lia| | | | |done|done]; rewrite ?Htk.
        -- split; [apply lookup_insert_eq|]. intros x Hx. rewrite lookup_insert_ne by done. destruct (decide (x = p)) as [->|Hxp].
           ++ rewrite lookup_insert_eq, bool_decide_true, Ho by set_solver. done.
           ++ rewrite lookup_insert_ne, (Hgx x Hx) by done. rewrite (bool_decide_ext (x ∈ take k handles ++ [p]) (x ∈ take k handles)); [done|].
              rewrite elem_of_app, list_elem_of_singleton. tauto.
        -- destruct Hgr as [Hnd Hall]. split; [apply NoDup_app; split_and!; [done|intros x Hx ->%list_elem_of_singleton; done|apply NoDup_singleton]|].
           intros x [Hx| ->%list_elem_of_singleton]%elem_of_app; [by apply Hall|eauto].
        -- exact (links_join O' Bf wl K HL p r a _ Ho' HKp Hg0 Hga).
        -- apply waits_insert; [apply waits_insert; [done|right; right; eauto|]|right; left; done|].
           ++ intros o'. rewrite Ho'. by intros [= <-].
           ++ intros o'. rewrite lookup_insert_ne, Hga by done. by intros [= <-].
      * rewrite Hm. cbn [negb Z.eqb READPORT_MAGIC PORTGROUP_MAGIC Pos.eqb]. apply wp_ret. refine (Hno true eq_refl _). apply Hnot. by intros.
Qed.
End group.

(** A group comes or changes: packets stay where they are. *)
Lemma grouping_pkts O a l O' Bf x : grouping O a l O' -> x <> a -> pkts O' Bf x = pkts O Bf x.
Proof.
  intros [_ H] Hx. apply buf_of_pkts. rewrite (H x Hx). destruct (bool_decide (x ∈ l)); [|done]. by destruct (O !! x) as [[]|].
Qed.

Lemma port_group_ok K R s (handles : list Z) a :
  inv s K R -> (a <> NULL -> objs s !! a = None) -> (forall x, x ∈ handles -> is_Some (objs s !! x) /\ K !! x = None) ->
  wp (port_group_make (Some handles) (Z.of_nat (length handles)) true a) (fun r s' => inv s' K R /\
    if MAX_PORT_GROUP_COUNT <? Z.of_nat (length handles) then r = (ERR_TOO_BIG, NULL) /\ s' = s
    else if a =? NULL then r = (ERR_NO_MEMORY, NULL) /\ s' = s
    else (groupable (objs s) handles /\ r = (NO_ERROR, a) /\ grouping (objs s) a handles (objs s') /\ bufs s' = bufs s) \/
         (~ groupable (objs s) handles /\ r = (ERR_BAD_HANDLE, NULL) /\ s' = s)) s.
Proof.
  intros Hinv Ha Hlive. pose proof Hinv as [Hlk Hit HL HW]. destruct s as [wl O Bf W lk it]. cbn in *. subst lk it. unfold port_group_make.
  destruct (MAX_PORT_GROUP_COUNT <? Z.of_nat (length handles)) eqn:Emax; [by apply wp_ret|].
  rewrite (bool_decide_false (Some handles = None)), andb_false_r by done. cbn [negb]. destruct (Z.eqb_spec a NULL) as [->|Ha0]; [by apply wp_ret|]. specialize (Ha Ha0).
  apply wp_seq, wp_put_obj. apply wp_seq, wp_lock. apply wp_seq. rewrite Nat2Z.id.
  eapply (link_run wl Bf W true false K R a O handles Ha Ha0 Hlive (length handles) 0); [done| | |by apply links_group|apply waits_new; [done|done|by right]| |].
  - split; [apply lookup_insert_eq|]. intros x Hx. by rewrite lookup_insert_ne.
  - split; [constructor|]. intros x Hx. set_solver.
  - intros Hg O1 Hgr HL1 HW1. apply wp_seq, wp_unlock. rewrite Z.eqb_refl. apply wp_ret. split; [by constructor|]. left. by split_and!.
  - intros Hg O1 HO1 [o Ho]. apply wp_seq, wp_unlock. change (ERR_BAD_HANDLE =? NO_ERROR) with false. cbn iota. apply wp_seq. eapply wp_free_obj; [done|]. apply wp_ret.
    rewrite HO1. split; [done|]. right. by split_and!.
Qed.

(** Under the lock, while the port is in no group. *)
Lemma port_group_add_link_ok K R s g pg p r :
  inv s K R -> objs s !! g = Some (PortGroup pg) -> objs s !! p = Some (ReadPort r) -> K !! p = None ->
  rp_gport r = NULL ->
  wp (port_group_add_link g p) (fun e s' => inv s' K R /\
    if Z.of_nat (length (pg_rp_list pg)) =? MAX_PORT_GROUP_COUNT then e = ERR_TOO_BIG /\ s' = s
    else e = NO_ERROR /\ same_shape (<[g := pg_listed pg (pg_rp_list pg ++ [p])]> (<[p := rp_grouped r g]> (objs s))) (objs s') /\ bufs s' = bufs s) s.
Proof.
  intros Hinv Hg Hp HK Hr0. pose proof Hinv as [Hlk Hit HL HW]. destruct s as [wl O Bf W lk it]. cbn in *. subst lk it.
  assert (Hg0 : g <> NULL) by (intros ->; by rewrite (li_null _ _ _ _ HL) in Hg).
  assert (Hne : p <> g) by congruence. unfold port_group_add_link.
  apply wp_seq, wp_lock. apply wp_seq. eapply wp_get_pg; [done|]. apply wp_seq.
  destruct (Z.eqb_spec (Z.of_nat (length (pg_rp_list pg))) MAX_PORT_GROUP_COUNT) as [Hc|Hc].
  - apply wp_ret. apply wp_seq, wp_unlock, wp_ret. split; [by constructor|done].
  - pose proof (links_join O Bf wl K HL p r g pg Hp HK Hr0 Hg) as HL1. set (O1 := <[g := pg_listed pg (pg_rp_list pg ++ [p])]> (<[p := rp_grouped r g]> O)) in *.
    assert (HW1 : waits O1 W K R).
    { apply waits_insert; [apply waits_insert; [done|right; right; eauto|]|right; right|].
      - intros o'. rewrite Hp. by intros [= <-].
      - exists (PortGroup pg). by rewrite lookup_insert_ne.
      - intros o'. rewrite lookup_insert_ne, Hg by done. by intros [= <-]. }
    assert (Hp1 : O1 !! p = Some (rp_grouped r g)) by (unfold O1; rewrite lookup_insert_ne by done; apply lookup_insert_eq).
    apply wp_seq. eapply wp_set_rp_gport; [done|]. apply wp_seq. eapply wp_set_pg_rp_list; [by rewrite lookup_insert_ne|]. fold O1.
    apply wp_seq. eapply wp_get_rp; [done|]. cbn [rp_buf]. apply wp_seq.
    destruct (port_ring O1 Bf wl K p _ HL1 Hp1 HK) as (buf & q & E & Hr & _); [apply (li_buf _ _ _ _ HL _ _ Hp HK)|]. eapply wp_get_buf; [exact E|].
    assert (Hend : forall s1, woke K R (Ports wl O1 Bf W true false) s1 -> wp (ret NO_ERROR : PM Z) (fun e s' => wp (THREAD_UNLOCK true ;; ret e) (fun e s' => inv s' K R /\
      e = NO_ERROR /\ same_shape O1 (objs s') /\ bufs s' = Bf) s') s1).
    { intros [wl1 O2 B1 W1 lk1 it1] (E1 & E2 & E3 & E4 & Hs & HL2 & HW2). apply wp_ret. apply wp_seq, wp_unlock, wp_ret. cbn in *. split; [by constructor|done]. }
    rewrite wp_bind. destruct (buf_is_empty buf); cbn [negb].
    + apply wp_ret, Hend. by split_and!.
    + apply wp_seq. eapply wp_port_wake_one; [exact HL1|exact HW1|unfold O1; apply lookup_insert_eq|done|]. intros n s1 _ Hwk. apply wp_ret. by apply Hend.
Qed.
