(* ===== verification/PortProps.v ===== *)
(** * Ports: any threads, any interleaving

    [step] is one call, or the rest of one, on the ports with the reads and the closing
    calls in progress; [allowed] is what callers must keep to.  Under it no call
    faults, and a reader gets what was written for it once and in order.  Calls that
    leave objects broken: port_group_remove, and closing a port whose reader was
    woken and has not run. *)

From stdpp Require Import prelude list gmap.
From Stdlib Require Import ZArith Lia.
From S2P Require Import Prelude Pow2 Timer Kernel Mutex Port PortInv PortLinks PortOps PortClose PortOpen.

Open Scope Z_scope.
Open Scope lk_scope.

(** ** Steps *)

Record config := Config { cf_ports : ports; cf_closing : closers; cf_reads : readers }.

Definition CM (A : Type) : Type := M config Empty_set A.

Inductive call :=
  | CreateLookup (name : list Z) (mode : Z)
  | CreateNew (name : list Z) (mode a b : Z)
  | Open (name : list Z) (ctx a b : Z)
  | Group (handles : list Z) (a : Z)
  | GroupCheck (g p : Z)
  | GroupLink (g p : Z)
  | Write (p : Z) (pk : list (list Z)) (count : Z)
  | Read (t : tid) (p timeout : Z) (result : port_result)
  | Resume (t : tid)
  | Timeout (t : tid)
  | Destroy (p : Z)
  | Close (p : Z)
  | Finish (p : Z).

(** What a step shows: the end of a read, from where it looked. *)
Inductive event := Quiet | Got (g : bool) (p : Z) (status : Z) (result : port_result).

Definition on_ports {A} (c : PM A) : CM A :=
  fun cf => match c (cf_ports cf) with
            | (Ret a, s') => (Ret a, Config s' (cf_closing cf) (cf_reads cf))
            | (Err e, s') => (Err e, cf)
            | (Panic, _) => (Panic, cf)
            | (Fault, _) => (Fault, cf)
            | (Hang, _) => (Hang, cf)
            end.

Definition set_closing (K : closers) : CM unit := modify (fun cf => Config (cf_ports cf) K (cf_reads cf)).
Definition set_reads (R : readers) : CM unit := modify (fun cf => Config (cf_ports cf) (cf_closing cf) R).

Definition group_at (s : ports) (p : Z) : bool := match objs s !! p with Some (PortGroup _) => true | _ => false end.

(** The end of a turn of port_read in the thread [t]. *)
Definition read_done (t : tid) (g : bool) (p timeout : Z) (rr : call_result * port_result) : CM event :=
  let* cf := get in
  match fst rr with
  | Returned e => set_reads (delete t (cf_reads cf)) ;; ret (Got g p e (snd rr))
  | Blocked => set_reads (<[t := Read_call g p timeout (snd rr)]> (cf_reads cf)) ;; ret Quiet
  end.

Definition quietly {A} (c : PM A) : CM event := let* _ := on_ports c in ret Quiet.

Definition step (c : call) : CM event :=
  let* cf := get in
  match c with
  | CreateLookup name mode => quietly (port_create_lookup (Some name) mode true)
  | CreateNew name mode a b => quietly (port_create_new name mode a b)
  | Open name ctx a b => quietly (port_open (Some name) ctx true a b)
  | Group handles a => quietly (port_group_make (Some handles) (Z.of_nat (length handles)) true a)
  | GroupCheck g p => quietly (port_group_add_check g p)
  | GroupLink g p => quietly (port_group_add_link g p)
  | Write p pk count => quietly (port_write p (Some pk) count)
  | Read t p timeout result =>
      let* rr := on_ports (port_read t p timeout (Some result)) in
      read_done t (group_at (cf_ports cf) p) p timeout (fst rr, default result (snd rr))
  | Resume t =>
      let* c := deref (cf_reads cf !! t) in
      let* rr := on_ports (port_read_resume t (rc_group c) (rc_port c) (rc_timeout c) (rc_result c)) in
      read_done t (rc_group c) (rc_port c) (rc_timeout c) rr
  | Timeout t =>
      let* c := deref (cf_reads cf !! t) in
      quietly (on_queue (rc_port c) (fun q => (tt, waitq_timeout t q)))
  | Destroy p => quietly (port_destroy p)
  | Close p =>
      let* r := on_ports (port_close p) in
      match r with
      | Closed _ => ret Quiet
      | Switched b => set_closing (<[p := (group_at (cf_ports cf) p, b)]> (cf_closing cf)) ;; ret Quiet
      end
  | Finish p =>
      let* gb := deref (cf_closing cf !! p) in
      let* _ := on_ports (port_close_finish (fst gb) p (snd gb)) in
      set_closing (delete p (cf_closing cf)) ;; ret Quiet
  end.

(** ** The contract *)

(** A handle that has not been closed or destroyed. *)
Definition handle (cf : config) (p : Z) : Prop := is_Some (objs (cf_ports cf) !! p) /\ cf_closing cf !! p = None.

(** What malloc may return. *)
Definition fresh (cf : config) (a b : Z) : Prop := (a <> NULL -> objs (cf_ports cf) !! a = None) /\ (b <> NULL -> bufs (cf_ports cf) !! b = None).

(** A port is added to a group under the lock only while what port_group_add
    checked in front of the lock still holds: two adds of one port, or an add and the
    end of its handles, do not overlap. *)
Definition allowed (c : call) (cf : config) : Prop :=
  match c with
  | CreateLookup _ _ => True
  | CreateNew _ _ a b | Open _ _ a b => fresh cf a b
  | Group handles a => fresh cf a NULL /\ forall x, x ∈ handles -> handle cf x
  | GroupCheck g p => handle cf g /\ handle cf p
  | GroupLink g p => handle cf g /\ handle cf p /\ fst (port_group_add_check g p (cf_ports cf)) = Ret None
  | Write p pk count => handle cf p /\ 0 <= count <= Z.of_nat (length pk)
  | Read t p timeout result => handle cf p /\ cf_reads cf !! t = None
  | Resume t => is_Some (cf_reads cf !! t) /\ is_Some (woken (cf_ports cf) !! t)
  | Timeout t => is_Some (cf_reads cf !! t) /\ woken (cf_ports cf) !! t = None
  | Destroy p => handle cf p
  | Close p => handle cf p /\ unread_by (cf_ports cf) (cf_reads cf) p
  | Finish p => is_Some (cf_closing cf !! p)
  end.

Definition port_start : config := Config (Ports [] ∅ ∅ ∅ false true) ∅ ∅.

Inductive reachable : config -> Prop :=
  | reach_start : reachable port_start
  | reach_step cf c e cf' : reachable cf -> allowed c cf -> step c cf = (Ret e, cf') -> reachable cf'.

Definition cf_inv (cf : config) : Prop := inv (cf_ports cf) (cf_closing cf) (cf_reads cf).

(** ** Handles of the wrong kind *)

Section wrong_kind.
Context (s : ports) (K : closers) (R : readers) (p : Z) (o : port_obj).
Hypothesis (Hinv : inv s K R) (Hp : objs s !! p = Some o).

Lemma handle_not_null : p <> NULL.
Proof. intros ->. by rewrite (li_null _ _ _ _ (inv_links _ _ _ Hinv)) in Hp. Qed.

Lemma read_write_port_magic : magic o = match is_group o with Some true => PORTGROUP_MAGIC | Some false => READPORT_MAGIC | None => magic o end.
Proof. pose proof (li_magic _ _ _ _ (inv_links _ _ _ Hinv) _ _ Hp) as Hm. by destruct o. Qed.

Lemma unlocked : s = Ports (write_port_list s) (objs s) (bufs s) (woken s) false true.
Proof. destruct Hinv as [H1 H2 _ _]. destruct s. cbn in *. congruence. Qed.

Lemma port_write_wrong pk count (Q : Z -> ports -> Prop) :
  magic o <> WRITEPORT_MAGIC_W -> Q ERR_BAD_HANDLE s -> wp (port_write p (Some pk) count) Q s.
Proof.
  intros Hm HQ. pose proof Hp as Hp'. rewrite unlocked in HQ |- *. unfold port_write. rewrite (proj2 (Z.eqb_neq _ _) handle_not_null). apply wp_seq, wp_lock.
  apply wp_seq. eapply wp_get_magic; [done|]. rewrite (proj2 (Z.eqb_neq _ _) Hm). cbn [negb]. by apply wp_seq, wp_unlock, wp_ret.
Qed.

Lemma port_read_wrong t timeout pr (Q : call_result * option port_result -> ports -> Prop) :
  is_group o = None -> Q (Returned ERR_BAD_HANDLE, Some pr) s -> wp (port_read t p timeout (Some pr)) Q s.
Proof.
  intros Hk HQ. pose proof Hp as Hp'. pose proof (li_magic _ _ _ _ (inv_links _ _ _ Hinv) _ _ Hp) as Hm. rewrite unlocked in HQ |- *.
  unfold port_read. rewrite (proj2 (Z.eqb_neq _ _) handle_not_null). apply wp_seq, wp_lock. apply wp_seq. eapply wp_get_magic; [done|].
  destruct o as [w| |]; try done. cbn [magic]. cbn in Hm.
  replace (wp_magic w =? READPORT_MAGIC) with false by (by destruct Hm as [-> | ->]). replace (wp_magic w =? PORTGROUP_MAGIC) with false by (by destruct Hm as [-> | ->]).
  apply wp_seq, wp_ret. apply wp_seq. unfold read_exit. cbn [fst]. apply wp_seq, wp_unlock, wp_ret. by apply wp_ret.
Qed.

Lemma port_destroy_wrong (Q : Z -> ports -> Prop) : is_group o <> None -> Q ERR_BAD_HANDLE s -> wp (port_destroy p) Q s.
Proof.
  intros Hk HQ. pose proof Hp as Hp'. pose proof read_write_port_magic as Hm. rewrite unlocked in HQ |- *.
  unfold port_destroy. rewrite (proj2 (Z.eqb_neq _ _) handle_not_null). apply wp_seq, wp_lock. apply wp_seq. eapply wp_get_magic; [done|].
  replace (magic o =? WRITEPORT_MAGIC_X) with false by (destruct (is_group o) as [[]|]; [rewrite Hm; done|rewrite Hm; done|done]).
  cbn [negb]. by apply wp_seq, wp_unlock, wp_ret.
Qed.

Lemma magic_kind x : good_magic x ->
  (magic x =? PORTGROUP_MAGIC) = bool_decide (is_group x = Some true) /\
  (magic x =? READPORT_MAGIC) = bool_decide (is_group x = Some false).
Proof. destruct x as [w|r|g]; cbn; [by intros [-> | ->]|by intros ->|by intros ->]. Qed.

(** The checks of port_group_add change nothing, and pass for a group and a read
    port in no group. *)
Lemma port_group_add_check_run p' o' :
  objs s !! p' = Some o' -> p' <> NULL ->
  exists a, port_group_add_check p p' s = (Ret a, s) /\
    (a = None -> exists pg r, o = PortGroup pg /\ o' = ReadPort r /\ rp_gport r = NULL).
Proof.
  intros Hp' Hp'0.
  enough (H : wp (port_group_add_check p p') (fun a s' => s' = s /\
    (a = None -> exists pg r, o = PortGroup pg /\ o' = ReadPort r /\ rp_gport r = NULL)) s)
    by (apply wp_run in H as (a & s' & H & -> & ?); eauto).
  destruct (magic_kind o) as [Hm _]; [apply (li_magic _ _ _ _ (inv_links _ _ _ Hinv) _ _ Hp)|].
  destruct (magic_kind o') as [_ Hm']; [apply (li_magic _ _ _ _ (inv_links _ _ _ Hinv) _ _ Hp')|].
  unfold port_group_add_check. rewrite (proj2 (Z.eqb_neq _ _) handle_not_null), (proj2 (Z.eqb_neq _ _) Hp'0). cbn [orb].
  pose proof Hp as Hq. pose proof Hp' as Hq'. destruct s as [wl O Bf W lk it]. cbn in Hq, Hq'.
  apply wp_seq. eapply wp_get_magic; [done|]. rewrite Hm.
  destruct (bool_decide_reflect (is_group o = Some true)) as [Hk|Hk]; cbn [negb]; [|by apply wp_ret].
  apply wp_seq. eapply wp_get_magic; [done|]. rewrite Hm'.
  destruct (bool_decide_reflect (is_group o' = Some false)) as [Hk'|Hk']; cbn [negb]; [|by apply wp_seq, wp_ret, wp_ret].
  destruct o as [| |pg]; try done. destruct o' as [|r|]; try done.
  apply wp_seq, wp_seq. eapply wp_get_rp; [done|]. apply wp_ret, wp_ret. split; [done|].
  destruct (Z.eqb_spec (rp_gport r) NULL) as [Hr|Hr]; [|done]. intros _. by exists pg, r.
Qed.
End wrong_kind.

(** ** What a step does *)

Lemma wp_on_ports {A} (c : PM A) cf (Q : A -> config -> Prop) :
  wp c (fun a s' => Q a (Config s' (cf_closing cf) (cf_reads cf))) (cf_ports cf) -> wp (on_ports c) Q cf.
Proof. unfold wp, on_ports. destruct (c (cf_ports cf)) as [[] s']; done. Qed.

Lemma wp_quietly {A} (c : PM A) cf (Q : event -> config -> Prop) :
  wp c (fun _ s' => Q Quiet (Config s' (cf_closing cf) (cf_reads cf))) (cf_ports cf) -> wp (quietly c) Q cf.
Proof. intros H. unfold quietly. apply wp_seq, wp_on_ports. eapply wp_mono; [exact H|]. done. Qed.

(** A read port that is open. *)
Definition open_reader (cf : config) (p : Z) : Prop := (exists r, objs (cf_ports cf) !! p = Some (ReadPort r)) /\ cf_closing cf !! p = None.

Definition cf_pkts (cf : config) (p : Z) : list (list Z) := pkts (objs (cf_ports cf)) (bufs (cf_ports cf)) p.

(** The packets a call writes to [p]. *)
Definition accepted (p : Z) (c : call) (cf : config) : list (list Z) :=
  match c with
  | Write w pk count =>
      match objs (cf_ports cf) !! w with
      | Some (WritePort wp) =>
          if (wp_magic wp =? WRITEPORT_MAGIC_W) && bool_decide (p ∈ write_to wp w) && fits count (objs (cf_ports cf)) (bufs (cf_ports cf)) p
          then take (Z.to_nat count) pk else []
      | _ => []
      end
  | _ => []
  end.

(** The port a read takes its packet from. *)
Definition first_full (s : ports) (g : bool) (q : Z) : option Z := List.find (fun r => negb (bool_decide (pkts (objs s) (bufs s) r = []))) (sources (objs s) g q).

(** The packets a call reads from [p]. *)
Definition taken (p : Z) (e : event) (cf : config) : list (list Z) :=
  match e with
  | Got g q status result => if (status =? NO_ERROR) && bool_decide (first_full (cf_ports cf) g q = Some p) then [res_packet result] else []
  | Quiet => []
  end.

(** The balance of one step. *)
Definition balanced (c : call) (cf : config) (e : event) (cf' : config) : Prop :=
  forall p, open_reader cf p -> open_reader cf' p -> cf_pkts cf p ++ accepted p c cf = taken p e cf ++ cf_pkts cf' p.

Lemma balanced_same c cf cf' : (forall p, open_reader cf p -> open_reader cf' p -> cf_pkts cf' p = cf_pkts cf p) -> (forall p, open_reader cf p -> accepted p c cf = []) -> balanced c cf Quiet cf'.
Proof. intros H1 H2 p Hp Hp'. cbn [taken]. rewrite H1, H2 by done. by rewrite app_nil_r. Qed.

Lemma find_first {A} (f : A -> bool) l1 r l2 : Forall (fun x => f x = false) l1 -> f r = true -> List.find f (l1 ++ r :: l2) = Some r.
Proof. intros Hl Hr. induction Hl as [|x l1 Hx _ IH]; cbn; [by rewrite Hr|by rewrite Hx]. Qed.

Lemma got_first K g q result s s' : got K (sources (objs s) g q) result s s' ->
  exists r rp, first_full s g q = Some r /\ objs s !! r = Some (ReadPort rp) /\ res_ctx result = rp_ctx rp /\ took K r (res_packet result) s s'.
Proof.
  intros (l1 & r & l2 & rp & Hl & He & Hr & Hc & Ht). exists r, rp. split_and!; try done. unfold first_full. rewrite Hl. apply find_first.
  - eapply Forall_impl; [exact He|]. intros x Hx. cbn in Hx. by rewrite Hx.
  - by rewrite (tk_pkts _ _ _ _ _ Ht).
Qed.

(** The end of a read. *)
Lemma read_balanced K R R1 t g q timeout s rr s' c R0 :
  read_post K R t g q timeout s rr s' -> delete t R1 = R -> (forall p, accepted p c (Config s K R0) = []) ->
  wp (read_done t g q timeout rr) (fun e cf' => cf_inv cf' /\ balanced c (Config s K R0) e cf') (Config s' K R1).
Proof.
  intros H <- Hacc. unfold read_done. apply wp_seq, wp_get. destruct rr as [[e|] result]; cbn [fst snd] in *; unfold read_post in H; cbn [fst snd] in H.
  - destruct H as [Hinv H]. apply wp_seq, wp_modify, wp_ret. cbn [cf_ports cf_closing cf_reads]. split; [done|].
    intros p Hp Hp'. rewrite Hacc, app_nil_r. unfold cf_pkts. cbn [cf_ports taken]. destruct H as [[-> Hgot]|(-> & _ & _ & HO & HB & _)].
    + destruct (got_first _ _ _ _ _ _ Hgot) as (r & rp & Hfirst & Hr & _ & Htk). rewrite Z.eqb_refl, Hfirst. cbn [andb].
      destruct (bool_decide_reflect (Some r = Some p)) as [[= ->]|Hne]; [apply Htk|]. unfold pkts. cbn [app].
      rewrite (tk_other _ _ _ _ _ Htk); [done|apply Hp|congruence].
    + cbn [andb Z.eqb NO_ERROR ERR_TIMED_OUT]. by rewrite HO, HB.
  - destruct H as (_ & _ & Hs & HB & Hinv). apply wp_seq, wp_modify, wp_ret. cbn [cf_ports cf_closing cf_reads]. rewrite insert_delete_eq in Hinv. split; [done|].
    apply balanced_same; [|done]. intros p _ _. unfold cf_pkts, pkts. cbn [cf_ports]. by rewrite HB, (buf_at_shape (objs s)).
Qed.

Section steps.
Context (s : ports) (K : closers) (R : readers).
Hypothesis (Hinv : inv s K R).
Notation cf := (Config s K R).
Notation post c := (fun e cf' => cf_inv cf' /\ balanced c cf e cf').

(** A call that moves no packets of open read ports. *)
Lemma quiet_ok {A} (m : PM A) c :
  (forall p, open_reader cf p -> accepted p c cf = []) ->
  wp m (fun _ s' => inv s' K R /\ forall p, open_reader cf p -> open_reader (Config s' K R) p -> pkts (objs s') (bufs s') p = pkts (objs s) (bufs s) p) s ->
  wp (quietly m) (post c) cf.
Proof. intros Hacc H. apply wp_quietly. eapply wp_mono; [exact H|]. intros _ s' [H1 H2]. split; [done|]. by apply balanced_same. Qed.

Lemma step_create_new name mode a b : allowed (CreateNew name mode a b) cf -> wp (quietly (port_create_new name mode a b)) (post (CreateNew name mode a b)) cf.
Proof.
  intros [Ha Hb]. apply quiet_ok; [done|]. eapply wp_mono; [by apply (port_create_new_ok K R)|]. intros r s' [H1 H2]. split; [done|]. intros p [[rp Hp] HK] _.
  destruct (bool_decide_reflect (a <> NULL /\ b <> NULL)) as [[Ha0 _]|_]; [|by destruct H2 as [_ ->]].
  destruct H2 as (_ & _ & _ & _ & H2). apply H2; [done|]. intros ->. specialize (Ha Ha0). cbn in *. congruence.
Qed.

Lemma named_write_port name p : named s name p -> exists w, objs s !! p = Some (WritePort w).
Proof. intros (l1 & l2 & _ & Hn & _). unfold name_of in Hn. destruct (objs s !! p) as [[w| |]|]; try done. eauto. Qed.

Lemma step_open name ctx a b : allowed (Open name ctx a b) cf -> wp (quietly (port_open (Some name) ctx true a b)) (post (Open name ctx a b)) cf.
Proof.
  intros [Ha Hb]. apply quiet_ok; [done|]. eapply wp_mono; [by apply (port_open_ok K R)|]. intros r s' [H1 H2]. split; [done|]. intros p [[rp Hp] HK] _. cbn in *.
  assert (Hpa : a <> NULL -> p <> a) by (intros Ha0 ->; specialize (Ha Ha0); congruence).
  destruct H2 as [| | |q w rp' s' Ha0 _ Hn Hw _ _ _ _ _ _ Hx|q w rp' s' Ha0 _ Hn Hw _ _ _ _ _ _ _ Hx]; try done; apply Hx; [done|by apply Hpa|congruence|done|by apply Hpa|congruence].
Qed.

Lemma step_group l a : allowed (Group l a) cf -> wp (quietly (port_group_make (Some l) (Z.of_nat (length l)) true a)) (post (Group l a)) cf.
Proof.
  intros [[Ha _] Hl]. apply quiet_ok; [done|]. eapply wp_mono; [apply (port_group_ok K R); [done|done|exact Hl]|]. intros r s' [H1 H2]. split; [done|]. intros p [[rp Hp] HK] _. cbn in *.
  destruct (MAX_PORT_GROUP_COUNT <? _); [by destruct H2 as [_ ->]|]. destruct (Z.eqb_spec a NULL) as [|Ha0]; [by destruct H2 as [_ ->]|].
  destruct H2 as [(_ & _ & Hg & HB)|(_ & _ & ->)]; [|done]. rewrite HB. eapply grouping_pkts; [done|]. intros ->. specialize (Ha Ha0). congruence.
Qed.

Lemma joined_pkts O g pg p r x Bf l : O !! g = Some (PortGroup pg) -> O !! p = Some (ReadPort r) -> p <> g ->
  pkts (<[g := pg_listed pg l]> (<[p := rp_grouped r g]> O)) Bf x = pkts O Bf x.
Proof.
  intros Hg Hp Hne. apply buf_of_pkts. destruct (decide (x = g)) as [->|]; [by rewrite lookup_insert_eq, Hg|rewrite lookup_insert_ne by done].
  destruct (decide (x = p)) as [->|]; [by rewrite lookup_insert_eq, Hp|by rewrite lookup_insert_ne].
Qed.

Lemma step_group_check g p : allowed (GroupCheck g p) cf -> wp (quietly (port_group_add_check g p)) (post (GroupCheck g p)) cf.
Proof.
  intros [[[og Hg] HKg] [[op Hp] HKp]]. cbn in *. apply quiet_ok; [done|].
  destruct (port_group_add_check_run s K R g og Hinv Hg p op Hp) as (a & Ha & _); [by eapply handle_not_null|].
  unfold wp. rewrite Ha. done.
Qed.

Lemma step_group_link g p : allowed (GroupLink g p) cf -> wp (quietly (port_group_add_link g p)) (post (GroupLink g p)) cf.
Proof.
  intros [[[og Hg] HKg] [[[op Hp] HKp] Hchk]]. cbn in *. apply quiet_ok; [done|].
  destruct (port_group_add_check_run s K R g og Hinv Hg p op Hp) as (a & Ha & Hk); [by eapply handle_not_null|].
  rewrite Ha in Hchk. cbn in Hchk. destruct Hk as (pg & r & -> & -> & Hr); [congruence|].
  eapply wp_mono; [by apply (port_group_add_link_ok K R s g pg p r)|]. intros e s' [H1 H2]. split; [done|]. intros x _ _.
  destruct (_ =? MAX_PORT_GROUP_COUNT); [by destruct H2 as [_ ->]|]. destruct H2 as (_ & Hs & ->).
  unfold pkts at 1. rewrite (buf_at_shape _ _ _ _ Hs). apply joined_pkts; [done|done|congruence].
Qed.

Lemma step_write p pk count : allowed (Write p pk count) cf -> wp (quietly (port_write p (Some pk) count)) (post (Write p pk count)) cf.
Proof.
  intros [[[o Hp] HK] Hc]. cbn in *. assert (Hm : (exists w, o = WritePort w /\ wp_magic w = WRITEPORT_MAGIC_W) \/ magic o <> WRITEPORT_MAGIC_W).
  { pose proof (li_magic _ _ _ _ (inv_links _ _ _ Hinv) _ _ Hp) as Hm. destruct o as [w|r|g]; cbn in *; [|right; by rewrite Hm..]. destruct Hm as [Hm|Hm]; [left; eauto|right; by rewrite Hm]. }
  destruct Hm as [(w & -> & Hm)|Hm].
  - apply wp_quietly. eapply wp_mono; [by apply (port_write_ok K R s p w)|]. intros e s' (H1 & _ & Hd). split; [done|]. intros x [[r Hx] HKx] _. unfold cf_pkts, accepted, taken. cbn [cf_ports app] in *. rewrite Hp, Hm, Z.eqb_refl. cbn [andb].
    destruct (bool_decide_reflect (x ∈ write_to w p)) as [Hin|Hin]; cbn [andb].
    + rewrite (de_to _ _ _ _ _ _ _ Hd x Hin). destruct (fits count (objs s) (bufs s) x); [done|by rewrite app_nil_r].
    + rewrite app_nil_r. unfold pkts. by rewrite (de_other _ _ _ _ _ _ _ Hd).
  - apply quiet_ok.
    + intros x _. cbn. rewrite Hp. destruct o as [w| |]; try done. cbn in Hm. by rewrite (proj2 (Z.eqb_neq _ _) Hm).
    + by eapply port_write_wrong.
Qed.

Lemma step_destroy p : allowed (Destroy p) cf -> wp (quietly (port_destroy p)) (post (Destroy p)) cf.
Proof.
  intros [[o Hp] HK]. cbn in *. apply quiet_ok; [done|]. destruct o as [w|r|g]; [|by eapply port_destroy_wrong..].
  eapply wp_mono; [by apply (port_destroy_ok K R s p w)|]. intros e s' [H1 H2]. split; [done|]. intros x [[r Hx] HKx] _. cbn in *.
  destruct (wp_magic w =? WRITEPORT_MAGIC_X); [apply H2; [congruence|done]|by destruct H2 as [_ ->]].
Qed.

Lemma step_timeout t c : R !! t = Some c -> woken s !! t = None -> wp (quietly (on_queue (rc_port c) (fun q => (tt, waitq_timeout t q)))) (post (Timeout t)) cf.
Proof.
  intros Hc Ht. apply quiet_ok; [done|]. pose proof Hinv as [Hlk Hit HL HW]. destruct s as [wl O Bf W lk it]. cbn in *. subst lk it.
  destruct (wa_wait _ _ _ _ HW t c Hc Ht) as (q & Hq & Hin). unfold queue_at in Hq. destruct (O !! rc_port c) as [o|] eqn:Ho; [|done]. cbn in Hq.
  eapply wp_on_queue; [done|done|]. cbn [waitq_timeout waiting results]. split.
  - constructor; [done|done| |by apply (waits_timeout O W K R HW (rc_port c) o q t)]. cbn. eapply links_shape; [by apply same_shape_queue| |done].
    intros x g b Hx. rewrite queue_at_insert. destruct (bool_decide_reflect (x = rc_port c)) as [->|]; [|by eapply (li_closing _ _ _ _ HL)].
    destruct (wa_read _ _ _ _ HW t c Hc ltac:(by left)) as [_ HKc]. congruence.
  - intros p _ _. cbn. unfold pkts. by rewrite (buf_at_shape O) by by apply same_shape_queue.
Qed.

Lemma group_at_kind p o : objs s !! p = Some o -> group_at s p = match is_group o with Some g => g | None => false end.
Proof. intros Hp. unfold group_at. rewrite Hp. by destruct o. Qed.

Lemma step_close p : allowed (Close p) cf ->
  wp (let* r := on_ports (port_close p) in
      match r with
      | Closed _ => ret Quiet
      | Switched b => set_closing (<[p := (group_at s p, b)]> K) ;; ret Quiet
      end) (post (Close p)) cf.
Proof.
  intros [[[o Hp] HK] Hun]. cbn in *. apply wp_seq, wp_on_ports. cbn [cf_ports cf_closing cf_reads].
  (* a port that is gone, or on its way *)
  assert (Hend : forall g res s', is_group o = Some g -> close_post g p K R res s' ->
    (forall x, open_reader cf x -> x <> p -> pkts (objs s') (bufs s') x = pkts (objs s) (bufs s) x) ->
    wp (match res with Closed _ => ret Quiet | Switched b => set_closing (<[p := (group_at s p, b)]> K) ;; ret Quiet end) (post (Close p)) (Config s' K R)).
  { intros g res s' Hg Hpost Hx. destruct res as [e|b]; cbn in Hpost.
    - destruct Hpost as (_ & Hinv' & Hgone). apply wp_ret. split; [done|]. apply balanced_same; [|done]. intros x Hox [[r Hr] _]. cbn in Hr.
      apply Hx; [done|]. intros ->. congruence.
    - apply wp_seq, wp_modify, wp_ret. rewrite (group_at_kind p o Hp), Hg. split; [done|]. apply balanced_same; [|done]. intros x Hox [_ HKx]. cbn in HKx.
      apply Hx; [done|]. intros ->. by rewrite lookup_insert_eq in HKx. }
  destruct o as [w|r|g].
  - eapply wp_mono; [by apply (port_close_write_ok K R s p w)|]. intros res s' (Hinv' & -> & HO & HB). apply wp_ret. split; [done|]. apply balanced_same; [|done].
    intros x [[r Hr] _] _. unfold cf_pkts. cbn in *. rewrite HB, HO. apply buf_of_pkts. by rewrite lookup_insert_ne by congruence.
  - eapply wp_mono; [by apply (port_close_read_ok K R s p r)|]. intros res s' [Hpost Hback]. eapply Hend; [done|exact Hpost|]. intros x [[rx Hx] HKx] Hne. cbn in *.
    rewrite (Hback x) by eauto. destruct (last_reader (objs s) p r) eqn:El; [|done]. cbn [andb]. rewrite bool_decide_false; [done|]. intros ->.
    unfold last_reader, readers_of in El. rewrite Hx in El. destruct (Z.eqb_spec (rp_wport r) NULL) as [E|E]; [cbn in El; done|].
    destruct (wport_port _ _ _ _ _ _ (inv_links _ _ _ Hinv) Hp HK E) as (w & Hw & _). congruence.
  - eapply wp_mono; [by apply (port_close_group_ok K R s p g)|]. intros res s' [Hpost Hsame]. eapply Hend; [done|exact Hpost|]. intros x _ Hne. by apply Hsame.
Qed.

Lemma step_finish p g b : K !! p = Some (g, b) ->
  wp (let* _ := on_ports (port_close_finish g p b) in set_closing (delete p K) ;; ret Quiet) (post (Finish p)) cf.
Proof.
  intros HK. apply wp_seq, wp_on_ports. cbn [cf_ports cf_closing cf_reads]. eapply wp_mono; [by apply (port_close_finish_ok K R s g p b)|].
  intros e s' (_ & Hinv' & Hgone & Hx). apply wp_seq, wp_modify, wp_ret. split; [done|]. apply balanced_same; [|done].
  intros x [_ HKx] [[r Hr] _]. cbn in *. apply Hx; [congruence|done].
Qed.

Lemma step_read t p timeout result : allowed (Read t p timeout result) cf ->
  wp (let* rr := on_ports (port_read t p timeout (Some result)) in
      read_done t (group_at s p) p timeout (fst rr, default result (snd rr))) (post (Read t p timeout result)) cf.
Proof.
  intros [[[o Hp] HK] Ht]. cbn in *. apply wp_seq, wp_on_ports. cbn [cf_ports cf_closing cf_reads]. rewrite (group_at_kind p o Hp).
  destruct (is_group o) as [g|] eqn:Hg.
  - eapply wp_mono; [by apply (port_read_ok K R s t g p o timeout result)|]. intros [res o'] s' (r & E & Hpost). cbn in E, Hpost |- *. subst o'. cbn [default].
    eapply read_balanced; [done|by apply delete_id|done].
  - eapply (port_read_wrong s K R p o); [done|done|done|]. cbn [fst snd default]. unfold read_done. apply wp_seq, wp_get. cbn [fst snd].
    apply wp_seq, wp_modify, wp_ret. cbn [cf_ports cf_closing cf_reads]. rewrite delete_id by done. split; [done|]. intros x _ _. cbn. by rewrite app_nil_r.
Qed.

Lemma step_resume t c e : R !! t = Some c -> woken s !! t = Some e ->
  wp (let* rr := on_ports (port_read_resume t (rc_group c) (rc_port c) (rc_timeout c) (rc_result c)) in
      read_done t (rc_group c) (rc_port c) (rc_timeout c) rr) (post (Resume t)) cf.
Proof.
  intros Hc He. apply wp_seq, wp_on_ports. cbn [cf_ports cf_closing cf_reads]. eapply wp_mono; [by apply (port_read_resume_ok K R s t c e)|].
  intros rr s' H. destruct (Z.eqb_spec e NO_ERROR) as [->|Hne].
  - eapply wp_mono; [eapply (read_balanced K (delete t R) R t _ _ _ (runs_again t s) rr s' (Resume t) R); [exact H|done|done]|]. intros ev cf' [H1 H2]. split; [done|]. exact H2.
  - destruct H as (-> & Hinv' & HO & HB). unfold read_done. apply wp_seq, wp_get. cbn [fst snd]. apply wp_seq, wp_modify, wp_ret. split; [done|].
    intros x _ _. cbn. rewrite (proj2 (Z.eqb_neq e NO_ERROR)) by done. unfold cf_pkts. cbn. by rewrite HO, HB, app_nil_r.
Qed.
End steps.

Lemma step_ok c cf : cf_inv cf -> allowed c cf -> wp (step c) (fun e cf' => cf_inv cf' /\ balanced c cf e cf') cf.
Proof.
  destruct cf as [s K R]. intros Hinv Hc. unfold cf_inv in Hinv. cbn in Hinv. unfold step. apply wp_seq, wp_get.
  destruct c as [name mode|name mode a b|name ctx a b|l a|g p|g p|p pk count|t p timeout result|t|t|p|p|p].
  - apply (quiet_ok s K R); [done|]. eapply wp_mono; [by apply (port_create_lookup_ok K R)|]. by intros r s' [-> _].
  - by apply step_create_new.
  - by apply step_open.
  - by apply step_group.
  - by apply step_group_check.
  - by apply step_group_link.
  - by apply step_write.
  - by apply step_read.
  - destruct Hc as [[c Hc] [e He]]. cbn in *. apply wp_seq. eapply wp_deref; [done|]. by eapply step_resume.
  - destruct Hc as [[c Hc] He]. cbn in *. apply wp_seq. eapply wp_deref; [done|]. by apply step_timeout.
  - by apply step_destroy.
  - by apply step_close.
  - destruct Hc as [[g b] Hc]. cbn in *. apply wp_seq. eapply wp_deref; [done|]. by apply step_finish.
Qed.

Lemma start_inv : cf_inv port_start.
Proof.
  constructor; [done|done| |].
  - constructor; cbn; try done. split; [constructor|]. intros p. unfold readers_of. rewrite lookup_empty. split; [set_solver|by intros [? ?]].
  - constructor; cbn; try done; intros *; unfold queue_at; by rewrite ?lookup_empty.
Qed.

Lemma reachable_inv cf : reachable cf -> cf_inv cf.
Proof.
  induction 1 as [|cf c e cf' _ IH Hc Hs]; [apply start_inv|]. pose proof (step_ok c cf IH Hc) as H. unfold wp in H. rewrite Hs in H. apply H.
Qed.

(** ** The theorems *)

(** C23: From port_init on, under any interleaving of calls, timeouts, the rest of calls
    that blocked, and the unlocked and locked halves of port_create and
    port_group_add, whatever malloc answers, a call within the contract returns: no
    object is used after it was freed, none is freed twice, no list is followed out of
    its nodes.  The contract: handles are open; a read port is not closed while a thread
    reads from it or was woken for it; a port's adds to groups do not overlap
    each other or the end of their handles; port_group_remove is not used. *)
Theorem port_safe cf c : reachable cf -> allowed c cf -> exists e cf', step c cf = (Ret e, cf').
Proof.
  intros Hr Hc. pose proof (step_ok c cf (reachable_inv cf Hr) Hc) as H. apply wp_run in H as (e & cf' & H & _). eauto.
Qed.

(** The steps while the read port [p] is open, with what was written for it and what
    was read from it. *)
Inductive open_run (p : Z) : config -> list (list Z) -> list (list Z) -> config -> Prop :=
  | open_run_nil cf : open_reader cf p -> open_run p cf [] [] cf
  | open_run_step cf sent got cf1 c e cf2 :
      open_run p cf sent got cf1 -> allowed c cf1 -> step c cf1 = (Ret e, cf2) -> open_reader cf2 p ->
      open_run p cf (sent ++ accepted p c cf1) (got ++ taken p e cf1) cf2.

Lemma open_run_open p cf sent got cf' : open_run p cf sent got cf' -> open_reader cf' p.
Proof. by destruct 1. Qed.

Lemma open_run_reachable p cf sent got cf' : reachable cf -> open_run p cf sent got cf' -> reachable cf'.
Proof. intros Hr. induction 1 as [|cf sent got cf1 c e cf2 _ IH Hc Hs _]; [done|]. by eapply reach_step; [apply IH| |]. Qed.

(** C24: Whatever is written for an open read port is read from it once, in order, or still
    waits in it: nothing is lost, doubled or overtaken, whoever writes and reads,
    directly or through a group. *)
Theorem port_fifo p cf sent got cf' :
  reachable cf -> open_run p cf sent got cf' -> cf_pkts cf p ++ sent = got ++ cf_pkts cf' p.
Proof.
  intros Hr. induction 1 as [cf Ho|cf sent got cf1 c e cf2 Hrun IH Hc Hs Ho]; [by rewrite app_nil_r|].
  pose proof (step_ok c cf1 (reachable_inv _ (open_run_reachable _ _ _ _ _ Hr Hrun)) Hc) as H. unfold wp in H. rewrite Hs in H. destruct H as [_ Hb].
  rewrite app_assoc, (IH Hr), <- !app_assoc. f_equal. apply Hb; [by eapply open_run_open|done].
Qed.

(** ** port_group_remove *)

Lemma fault_seq {A B} (c : PM A) (k : A -> PM B) s : wp c (fun a s' => fst (k a s') = Fault) s -> fst (bind c k s) = Fault.
Proof. unfold wp, bind. by destruct (c s) as [[] s']. Qed.

Section removed.
Context (K : closers) (wl : list Z) (O : objects) (Bf : gmap Z port_buf) (W : gmap tid Z) (p : Z) (r : read_port) (pg : port_group).
Hypothesis (HL : links O Bf wl K) (HK : K !! p = None) (Hp : O !! p = Some (ReadPort r)) (Hg : O !! rp_gport r = Some (PortGroup pg)) (Hin : p ∈ pg_rp_list pg).

Definition after_remove : ports :=
  Ports wl (<[rp_gport r := pg_listed pg (filter (fun x => x <> p) (pg_rp_list pg))]> O) Bf W false true.

Lemma not_null x o : O !! x = Some o -> (x =? NULL) = false.
Proof. intros Hx. apply Z.eqb_neq. intros ->. by rewrite (li_null _ _ _ _ HL) in Hx. Qed.

Lemma removed_port : objs after_remove !! p = Some (ReadPort r).
Proof. cbn. rewrite lookup_insert_ne; [done|congruence]. Qed.

(** The checks of both calls pass as before, whatever group record is there. *)
Lemma wp_remove_checks O1 g1 it (Q : Z -> ports -> Prop) :
  O1 !! p = Some (ReadPort r) -> O1 !! rp_gport r = Some (PortGroup g1) -> pg_magic g1 = PORTGROUP_MAGIC ->
  wp (if negb (bool_decide (p ∈ pg_rp_list g1)) then ret ERR_BAD_HANDLE
      else let* l := delete_node (pg_rp_list g1) p in set_pg_rp_list (rp_gport r) l ;; THREAD_UNLOCK it ;; ret NO_ERROR) Q (Ports wl O1 Bf W true false) ->
  wp (port_group_remove (rp_gport r) p) Q (Ports wl O1 Bf W false it).
Proof.
  intros Hp1 Hg1 Hm1 HQ. pose proof (li_magic _ _ _ _ HL _ _ Hp) as Hmp. cbn in Hmp. unfold port_group_remove. rewrite (not_null _ _ Hp), (not_null _ _ Hg). cbn [orb].
  apply wp_seq. eapply wp_get_magic; [done|]. cbn [magic]. rewrite Hm1, Z.eqb_refl. cbn [negb].
  apply wp_seq. eapply wp_get_magic; [done|]. cbn [magic]. rewrite Hmp, Z.eqb_refl. cbn [negb]. apply wp_seq, wp_seq. eapply wp_get_rp; [done|]. apply wp_ret. rewrite Z.eqb_refl. cbn [negb].
  apply wp_seq, wp_lock. apply wp_seq. by eapply wp_get_pg.
Qed.

Lemma group_magic : pg_magic pg = PORTGROUP_MAGIC.
Proof. apply (li_magic _ _ _ _ HL _ _ Hg). Qed.

Lemma remove_run : port_group_remove (rp_gport r) p (Ports wl O Bf W false true) = (Ret NO_ERROR, after_remove).
Proof.
  enough (H : wp (port_group_remove (rp_gport r) p) (fun e s' => e = NO_ERROR /\ s' = after_remove) (Ports wl O Bf W false true)) by (apply wp_run in H as (e & s' & H & -> & ->); done).
  eapply wp_remove_checks; [done|done|apply group_magic|]. rewrite bool_decide_true by done. cbn [negb]. apply wp_seq, wp_delete_node; [done|].
  apply wp_seq. eapply wp_set_pg_rp_list; [done|]. by apply wp_seq, wp_unlock, wp_ret.
Qed.

Lemma remove_again : exists s2, port_group_remove (rp_gport r) p after_remove = (Ret ERR_BAD_HANDLE, s2) /\ thread_lock s2 = true /\ ints s2 = false.
Proof.
  enough (H : wp (port_group_remove (rp_gport r) p) (fun e s' => e = ERR_BAD_HANDLE /\ thread_lock s' = true /\ ints s' = false) after_remove) by (apply wp_run in H as (e & s' & H & -> & ?); eauto).
  eapply wp_remove_checks; [apply removed_port|apply lookup_insert_eq|apply group_magic|]. cbn [pg_rp_list]. rewrite bool_decide_false; [by apply wp_ret|].
  intros [? _]%list_elem_of_filter. done.
Qed.

(** Its gport is not NULL, so no group takes it. *)
Lemma add_again g' pg' :
  objs after_remove !! g' = Some (PortGroup pg') -> pg_magic pg' = PORTGROUP_MAGIC ->
  port_group_add g' p after_remove = (Ret ERR_BAD_HANDLE, after_remove).
Proof.
  intros Hg' Hm'. pose proof (li_magic _ _ _ _ HL _ _ Hp) as Hmp. cbn in Hmp. pose proof removed_port as Hp1.
  assert (Hn : (g' =? NULL) = false).
  { apply Z.eqb_neq. intros ->. cbn in Hg'. rewrite lookup_insert_ne in Hg' by (intros E; rewrite E, (li_null _ _ _ _ HL) in Hg; done).
    by rewrite (li_null _ _ _ _ HL) in Hg'. }
  enough (H : wp (port_group_add g' p) (fun e s' => e = ERR_BAD_HANDLE /\ s' = after_remove) after_remove) by (apply wp_run in H as (e & s' & H & -> & ->); done).
  unfold port_group_add, port_group_add_check. rewrite (not_null _ _ Hp), Hn. cbn [orb]. apply wp_seq, wp_seq. eapply wp_get_magic; [exact Hg'|]. cbn [magic].
  rewrite Hm', Z.eqb_refl. cbn [negb]. apply wp_seq. eapply wp_get_magic; [exact Hp1|]. cbn [magic]. rewrite Hmp, Z.eqb_refl. cbn [negb]. apply wp_seq, wp_seq.
  eapply wp_get_rp; [exact Hp1|]. apply wp_ret, wp_ret. rewrite (not_null _ _ Hg). by apply wp_ret.
Qed.

Lemma close_removed : fst (port_close p after_remove) = Fault.
Proof.
  pose proof (li_magic _ _ _ _ HL _ _ Hp) as Hmp. cbn in Hmp. pose proof removed_port as Hp1. cbn [objs after_remove] in Hp1.
  unfold port_close. rewrite (not_null _ _ Hp). apply fault_seq, wp_lock, fault_seq. eapply wp_get_magic; [exact Hp1|]. cbn [magic]. rewrite Hmp, Z.eqb_refl.
  apply fault_seq. eapply wp_get_rp; [exact Hp1|]. apply fault_seq. apply (unread_run wl _ Bf W p r Hp1).
  { intros Hw. destruct (wport_port _ _ _ _ _ _ HL Hp HK Hw) as (w & Hw1 & Hw2). exists w. rewrite lookup_insert_ne; [done|congruence]. }
  intros OW b r1 Hu _ _ _ Hother. rewrite (not_null _ _ Hg). cbn [negb].
  assert (HgW : <[p := ReadPort r1]> OW !! rp_gport r = Some (pg_listed pg (filter (fun x => x <> p) (pg_rp_list pg)))).
  { rewrite lookup_insert_ne by congruence. destruct (Hother (rp_gport r) ltac:(congruence)) as [->|(w & w' & E & _)]; [apply lookup_insert_eq|]. by rewrite lookup_insert_eq in E. }
  unfold bind at 1. unfold bind at 1. cbn [get objs]. rewrite HgW. cbn [pg_listed pg_rp_list]. unfold bind, delete_node.
  rewrite bool_decide_false; [done|]. intros [? _]%list_elem_of_filter. done.
Qed.
End removed.

(** C39: port_group_remove unlinks the port and leaves its gport: the port can then not be
    closed (NULL is followed), no group takes it again, neither this one nor any
    other, and a second remove keeps the thread lock with interrupts off. *)
Theorem port_group_remove_breaks K R s g pg p :
  inv s K R -> objs s !! g = Some (PortGroup pg) -> p ∈ pg_rp_list pg ->
  exists s', port_group_remove g p s = (Ret NO_ERROR, s') /\
    fst (port_close p s') = Fault /\
    (forall g' pg', objs s' !! g' = Some (PortGroup pg') -> port_group_add g' p s' = (Ret ERR_BAD_HANDLE, s')) /\
    exists s2, port_group_remove g p s' = (Ret ERR_BAD_HANDLE, s2) /\ thread_lock s2 = true /\ ints s2 = false.
Proof.
  intros Hinv Hg Hin. pose proof Hinv as [Hlk Hit HL HW]. destruct (member_port _ _ _ _ _ _ _ HL Hg Hin) as (r & Hp & HK & <-).
  destruct s as [wl O Bf W lk it]. cbn in *. subst lk it. exists (after_remove wl O Bf W p r pg). split_and!.
  - by eapply remove_run.
  - by eapply close_removed.
  - intros g' pg' Hg'. eapply add_again; [done..|exact Hg'|]. cbn in Hg'.
    apply lookup_insert_Some in Hg' as [[_ E]|[_ Hg']]; [|apply (li_magic _ _ _ _ HL _ _ Hg')].
    injection E as <-. apply (li_magic _ _ _ _ HL _ _ Hg).
  - by eapply remove_again.
Qed.
