(* ===== verification/PortRuns.v ===== *)
(** * Ports: runs

    The theorems of PortProps at work, and runs that show what the code does not do. *)

From stdpp Require Import prelude list gmap.
From Stdlib Require Import ZArith Lia.
From S2P Require Import Prelude Pow2 Timer Kernel Mutex Port PortInv PortLinks PortOps PortClose PortOpen PortProps.

Open Scope Z_scope.

(** A port called "a" at 100 with its buffer at 101, a reader of it at 102. *)
Definition name_a : list Z := [97].
Definition no_result : port_result := Port_result 0 [].

Fixpoint run_calls (l : list call) (cf : config) : config := match l with [] => cf | c :: l' => run_calls l' (snd (step c cf)) end.

Definition opened_calls : list call := [CreateNew name_a PORT_MODE_UNICAST 100 101; Open name_a 7 102 103].
Definition cf_opened : config := run_calls opened_calls port_start.

(** What a call needs, decided. *)
Ltac solve_allowed :=
  repeat match goal with
  | |- _ /\ _ => split
  | |- is_Some _ => eexists; vm_compute; reflexivity
  | |- unread_by _ _ _ => let t := fresh in let c := fresh in let H := fresh in intros t c H; vm_compute in H; done
  | |- forall x, x ∈ [] -> _ => let H := fresh in intros ? H; by apply elem_of_nil in H
  | |- forall x, x ∈ [_] -> _ => intros ? ->%list_elem_of_singleton; unfold handle
  | |- _ -> _ => intros _
  | |- _ => first [vm_compute; reflexivity|lia|done]
  end.

(** Every call of a list is allowed and returns. *)
Fixpoint calls_ok (l : list call) (cf : config) : Prop :=
  match l with [] => True | c :: l' => allowed c cf /\ (exists e, fst (step c cf) = Ret e) /\ calls_ok l' (snd (step c cf)) end.

Lemma reach_calls l cf : reachable cf -> calls_ok l cf -> reachable (run_calls l cf).
Proof.
  revert cf. induction l as [|c l IH]; intros cf Hr; [done|]. intros (Ha & (e & He) & Hgo). cbn [run_calls]. apply IH; [|done].
  eapply reach_step; [exact Hr|exact Ha|]. destruct (step c cf); cbn in *. by rewrite He.
Qed.

Ltac solve_calls := repeat match goal with
  | |- calls_ok ?l _ => let l' := eval hnf in l in change l with l'; cbn [calls_ok]
  | |- allowed _ _ /\ _ => split; [cbn [allowed]; unfold fresh, handle; solve_allowed|]
  | |- (exists e, _) /\ _ => split; [eexists; vm_compute; reflexivity|]
  | |- True => done
  end.

Lemma opened_reachable : reachable cf_opened.
Proof. apply reach_calls; [constructor|]. solve_calls. Qed.

(** Two threads wait and one call writes two packets: it wakes one of them. *)
Definition two_readers : list call :=
  [Read 1%nat 102 INFINITE_TIME no_result; Read 2%nat 102 INFINITE_TIME no_result; Write 100 [[1]; [2]] 2; Resume 1%nat].

(** port_write wakes one thread for any number of packets: a state is reachable in
    which a thread waits without a timeout at a port that has a packet, and no thread
    is about to run that would take it. *)
Theorem port_write_strands_reader :
  exists cf t c, reachable cf /\ cf_reads cf !! t = Some c /\ rc_timeout c = INFINITE_TIME /\ t ∈ default [] (queue_at (objs (cf_ports cf)) (rc_port c)) /\
    cf_pkts cf (rc_port c) = [[2]] /\ woken (cf_ports cf) = ∅ /\ cf_closing cf = ∅.
Proof.
  exists (run_calls two_readers cf_opened), 2%nat, (Read_call false 102 INFINITE_TIME (Port_result 7 [])).
  split; [apply reach_calls; [exact opened_reachable|]; solve_calls|]. split_and!; try (vm_compute; reflexivity). vm_compute. left.
Qed.

(** A reader was woken by a write and has not run. *)
Definition woken_reader : list call := [Read 1%nat 102 INFINITE_TIME no_result; Write 100 [[1]] 1].

(** port_close frees a read port although a thread that port_write woke is still to
    read from it: that thread then reads from freed memory. *)
Theorem port_close_races_reader :
  exists cf cf' t, reachable cf /\ handle cf 102 /\ step (Close 102) cf = (Ret Quiet, cf') /\ allowed (Resume t) cf' /\ fst (step (Resume t) cf') = Fault.
Proof.
  exists (run_calls woken_reader cf_opened), (snd (step (Close 102) (run_calls woken_reader cf_opened))), 1%nat.
  split; [apply reach_calls; [exact opened_reachable|]; solve_calls|]. split; [unfold handle; solve_allowed|]. split; [vm_compute; reflexivity|].
  split; [cbn [allowed]; solve_allowed|vm_compute; reflexivity].
Qed.

(** A read port that outlives its write port loses its buffer when it is closed: all
    ports are gone and the memory is not. *)
Definition destroyed_first : list call := [Close 100; Destroy 100; Close 102].

Theorem port_close_leaks :
  exists cf, reachable cf /\ objs (cf_ports cf) = ∅ /\ cf_reads cf = ∅ /\ cf_closing cf = ∅ /\ is_Some (bufs (cf_ports cf) !! 101).
Proof.
  exists (run_calls destroyed_first cf_opened). split.
  - apply reach_calls; [exact opened_reachable|]. solve_calls.
  - split_and!; try (vm_compute; reflexivity). eexists. vm_compute. reflexivity.
Qed.

(** Two groups, and two threads that add the port at 102 to one each: both checks
    are made before either takes the lock. *)
Definition two_adds : list call := [Group [] 110; Group [] 120; GroupCheck 110 102; GroupCheck 120 102; GroupLink 110 102].

(** port_group_add checks in front of the lock that the port is in no group: of
    two threads that add one port both may pass the check, and the second one links
    it, through its single g_node, into a second group while it is in the first. *)
Theorem port_group_add_races :
  exists cf cf' pg1 pg2,
    reachable cf /\ handle cf 120 /\ handle cf 102 /\ step (GroupLink 120 102) cf = (Ret Quiet, cf') /\
    objs (cf_ports cf') !! 110 = Some (PortGroup pg1) /\ objs (cf_ports cf') !! 120 = Some (PortGroup pg2) /\
    102 ∈ pg_rp_list pg1 /\ 102 ∈ pg_rp_list pg2.
Proof.
  exists (run_calls two_adds cf_opened), (snd (step (GroupLink 120 102) (run_calls two_adds cf_opened))),
    (Port_group PORTGROUP_MAGIC [] [102]), (Port_group PORTGROUP_MAGIC [] [102]).
  split; [apply reach_calls; [exact opened_reachable|]; solve_calls|].
  split; [unfold handle; solve_allowed|]. split; [unfold handle; solve_allowed|].
  split_and!; first [vm_compute; reflexivity|by left].
Qed.

(** ** The theorems on these runs *)

Definition cf_woken : config := run_calls woken_reader cf_opened.

Lemma woken_reachable : reachable cf_woken.
Proof. apply reach_calls; [exact opened_reachable|]. solve_calls. Qed.

Lemma port_safe_witness : exists e cf', step (Resume 1%nat) cf_woken = (Ret e, cf').
Proof. apply (port_safe cf_woken (Resume 1%nat)); [exact woken_reachable|cbn [allowed]; solve_allowed]. Defined.

Lemma open_run_calls p l cf cf0 sent got :
  open_run p cf0 sent got cf ->
  calls_ok l cf -> (forall n, (n <= length l)%nat -> open_reader (run_calls (take n l) cf) p) ->
  exists sent' got', open_run p cf0 sent' got' (run_calls l cf).
Proof.
  revert cf sent got. induction l as [|c l IH]; intros cf sent got Hr; [eauto|]. intros (Ha & (e & He) & Hgo) Hop. cbn [run_calls].
  eapply IH; [|done|intros n Hn; apply (Hop (S n)); cbn; lia]. eapply open_run_step; [exact Hr|exact Ha| |apply (Hop 1%nat); cbn; lia].
  destruct (step c cf); cbn in *. by rewrite He.
Qed.

Lemma port_fifo_witness :
  exists sent got, open_run 102 cf_opened sent got (run_calls [Write 100 [[1]; [2]; [3]] 3; Read 1%nat 102 0 no_result] cf_opened) /\
    cf_pkts cf_opened 102 ++ sent = got ++ [[2]; [3]].
Proof.
  destruct (open_run_calls 102 [Write 100 [[1]; [2]; [3]] 3; Read 1%nat 102 0 no_result] cf_opened cf_opened [] []) as (sent & got & H).
  - constructor. split; [eexists; vm_compute; reflexivity|vm_compute; reflexivity].
  - solve_calls.
  - intros [|[|[|n]]] Hn; [..|cbn in Hn; lia]; (split; [eexists; vm_compute; reflexivity|vm_compute; reflexivity]).
  - exists sent, got. split; [exact H|]. exact (port_fifo 102 cf_opened sent got _ opened_reachable H).
Defined.

Definition cf_grouped : config := run_calls [Group [102] 110] cf_opened.

Lemma port_group_remove_breaks_witness :
  exists s', port_group_remove 110 102 (cf_ports cf_grouped) = (Ret NO_ERROR, s') /\ fst (port_close 102 s') = Fault /\
    (forall g' pg', objs s' !! g' = Some (PortGroup pg') -> port_group_add g' 102 s' = (Ret ERR_BAD_HANDLE, s')) /\
    exists s2, port_group_remove 110 102 s' = (Ret ERR_BAD_HANDLE, s2) /\ thread_lock s2 = true /\ ints s2 = false.
Proof.
  apply (port_group_remove_breaks (cf_closing cf_grouped) (cf_reads cf_grouped) (cf_ports cf_grouped) 110 (Port_group PORTGROUP_MAGIC [] [102]) 102).
  - apply (reachable_inv cf_grouped). apply (reach_calls [Group [102] 110]); [exact opened_reachable|]. solve_calls.
  - vm_compute. reflexivity.
  - by left.
Defined.
