(* ===== verification/Cbuf.v ===== *)
(** * lib/cbuf: the circular buffer of bytes between a writer and its readers

    The console's input goes through one.  A call takes the buffer's spin lock for
    its whole body, so the body is one step; a reader that waits does so outside of
    the lock, on the buffer's event (Sync.v), so a blocking read is a wait
    ([cbuf_wait]), a body ([cbuf_read_locked]) and, when the body found nothing,
    the same again.  A pointer to the caller's buffer that may be NULL is an option. *)

From stdpp Require Import prelude list gmap.
From Stdlib Require Import ZArith Lia.
From S2P Require Import Prelude Pow2 Timer Kernel Mutex Sync.

Open Scope Z_scope.
Open Scope lk_scope.

Record cbuf_t := Cbuf {
  cb_head : Z;
  cb_tail : Z;
  len_pow2 : Z;
  cb_buf : list Z;
  cb_event : event_t
}.

Definition CM (A : Type) : Type := M cbuf_t Empty_set A.

Definition set_head (h : Z) : CM unit := modify (fun c => Cbuf h (cb_tail c) (len_pow2 c) (cb_buf c) (cb_event c)).
Definition set_tail (t : Z) : CM unit := modify (fun c => Cbuf (cb_head c) t (len_pow2 c) (cb_buf c) (cb_event c)).
Definition set_buf (b : list Z) : CM unit := modify (fun c => Cbuf (cb_head c) (cb_tail c) (len_pow2 c) b (cb_event c)).

(** A call on the buffer's event. *)
Definition on_event {A} (m : EM A) : CM A :=
  fun c => let r := m (cb_event c) in (fst r, Cbuf (cb_head c) (cb_tail c) (len_pow2 c) (cb_buf c) (snd r)).

Definition INC_POINTER (c : cbuf_t) (ptr inc : Z) : Z := modpow2 (u32 (ptr + inc)) (len_pow2 c).

(** [buf] is what the memory was given with. *)
Definition cbuf_initialize_etc (len : Z) (buf : list Z) : CM unit :=
  assert_ (0 <? len) ;;
  assert_ (ispow2 len) ;;
  put (Cbuf 0 0 (log2_uint len) buf (event_init false 0)).

Definition cbuf_space_avail (c : cbuf_t) : Z :=
  let consumed := modpow2 (u32 (cb_head c - cb_tail c)) (len_pow2 c) in
  u32 (u32 (valpow2 (len_pow2 c) - consumed) - 1).

Definition cbuf_space_used (c : cbuf_t) : Z := modpow2 (u32 (cb_head c - cb_tail c)) (len_pow2 c).

Definition cbuf_size (c : cbuf_t) : Z := u32 (Z.shiftl 1 (len_pow2 c)).

(** memcpy into the buffer and out of it, and what it is given *)
Definition buf_put (off : Z) (src : list Z) : CM unit :=
  let* c := get in
  if off + Z.of_nat (length src) <=? Z.of_nat (length (cb_buf c)) then set_buf (splice (Z.to_nat off) src (cb_buf c))
  else fault.

Definition buf_get (off len : Z) : CM (list Z) :=
  let* c := get in
  if off + len <=? Z.of_nat (length (cb_buf c)) then ret (slice (Z.to_nat off) (Z.to_nat len) (cb_buf c)) else fault.

Definition source (buf : option (list Z)) (pos len : Z) : CM (list Z) :=
  match buf with
  | None => ret (replicate (Z.to_nat len) 0)
  | Some b => if pos + len <=? Z.of_nat (length b) then ret (slice (Z.to_nat pos) (Z.to_nat len) b) else fault
  end.

(** The bytes that the next turn of cbuf_write's loop can store *)
Definition write_room (c : cbuf_t) (want : Z) : Z :=
  if cb_tail c <=? cb_head c then
    if cb_tail c =? 0 then Z.min (u32 (u32 (valpow2 (len_pow2 c) - cb_head c) - 1)) want
    else Z.min (u32 (valpow2 (len_pow2 c) - cb_head c)) want
  else Z.min (u32 (u32 (cb_tail c - cb_head c) - 1)) want.

Fixpoint write_loop (fuel : nat) (buf : option (list Z)) (pos len : Z) : CM Z :=
  match fuel with
  | O => hang
  | S fuel =>
      let* c := get in
      if (pos <? len) && (0 <? cbuf_space_avail c) then
        let write_len := write_room c (u32 (len - pos)) in
        if write_len =? 0 then ret pos
        else
          let* src := source buf pos write_len in
          buf_put (cb_head c) src ;;
          set_head (INC_POINTER c (cb_head c) write_len) ;;
          write_loop fuel buf (u32 (pos + write_len)) len
      else ret pos
  end.

(** The loop stores up to the end of the memory, then from its start on, and looks
    once more. *)
Definition WRITE_TURNS : nat := 3.

Definition cbuf_write (buf : option (list Z)) (len : Z) : CM Z :=
  let* c := get in
  assert_ (len <? valpow2 (len_pow2 c)) ;;
  let* pos := write_loop WRITE_TURNS buf 0 len in
  let* c := get in
  (if negb (cb_head c =? cb_tail c) then on_event event_signal ;; ret tt else ret tt) ;;
  ret pos.

(** The body of cbuf_read under the lock: the count it returns, and the bytes that
    it stored at [_buf] (if that is not NULL). *)
Fixpoint read_loop (fuel : nat) (pos buflen : Z) (out : list Z) : CM (Z * list Z) :=
  match fuel with
  | O => hang
  | S fuel =>
      let* c := get in
      if (pos <? buflen) && negb (cb_tail c =? cb_head c) then
        let read_len :=
          if cb_tail c <? cb_head c then Z.min (u32 (cb_head c - cb_tail c)) (u32 (buflen - pos))
          else Z.min (u32 (valpow2 (len_pow2 c) - cb_tail c)) (u32 (buflen - pos)) in
        let* bytes := buf_get (cb_tail c) read_len in
        set_tail (INC_POINTER c (cb_tail c) read_len) ;;
        read_loop fuel (u32 (pos + read_len)) buflen (out ++ bytes)
      else ret (pos, out)
  end.

Definition READ_TURNS : nat := 3.

Definition cbuf_read_locked (buf : bool) (buflen : Z) : CM (Z * list Z) :=
  let* c := get in
  if negb (cb_tail c =? cb_head c) then
    let* r := read_loop READ_TURNS 0 buflen [] in
    let* c := get in
    (if cb_tail c =? cb_head c then
       assert_ (0 <? fst r) ;;
       on_event event_unsignal ;; ret tt
     else ret tt) ;;
    ret (fst r, if buf then snd r else [])
  else ret (0, []).

(** What a read has come to: it waits for the event, or it is done. *)
Inductive read_result :=
| Read_waits
| Read_done (n : Z) (bytes : list Z).

(** event_wait at the top of a blocking read. *)
Definition cbuf_wait (cur : tid) : CM call_result := on_event (event_wait_timeout cur INFINITE_TIME).

(** [retry:], while no other thread runs: a thread that finds the event signaled
    goes on to the locked part in the same step.  In the code another reader may empty
    the buffer in between; the thread then finds no bytes and retries, as it does here
    from [cbuf_read_resume]. *)
Fixpoint cbuf_read_retry (fuel : nat) (cur : tid) (buf : bool) (buflen : Z) : CM read_result :=
  match fuel with
  | O => hang
  | S fuel =>
      let* r := cbuf_wait cur in
      match r with
      | Blocked => ret Read_waits
      | Returned _ =>
          let* r := cbuf_read_locked buf buflen in
          if fst r =? 0 then cbuf_read_retry fuel cur buf buflen else ret (Read_done (fst r) (snd r))
      end
  end.

(** A turn finds bytes, or it finds that the event is not signaled. *)
Definition RETRY_TURNS : nat := 2.

Definition cbuf_read (cur : tid) (buf : bool) (buflen : Z) (block : bool) : CM read_result :=
  if block then cbuf_read_retry RETRY_TURNS cur buf buflen
  else let* r := cbuf_read_locked buf buflen in ret (Read_done (fst r) (snd r)).

(** event_wait from the return of its wait on; cbuf_read ignores what it returns *)
Definition cbuf_woken (cur : tid) : CM Z :=
  on_event (let* e := get in
            let* rq := deref (waitq_resume cur (event_waitq e)) in
            put (Event (event_magic e) (signaled e) (event_flags e) (snd rq)) ;;
            ret (fst rq)).

(** The thread that waited was woken and goes on. *)
Definition cbuf_read_resume (cur : tid) (buf : bool) (buflen : Z) : CM read_result :=
  cbuf_woken cur ;;
  let* r := cbuf_read_locked buf buflen in
  if fst r =? 0 then cbuf_read_retry RETRY_TURNS cur buf buflen else ret (Read_done (fst r) (snd r)).

(** A region's base is an index into the buffer, or NULL. *)
Record iovec_t := Iovec { iov_base : option Z; iov_len : Z }.

Definition cbuf_peek : CM (Z * (iovec_t * iovec_t)) :=
  let* c := get in
  let r := cbuf_space_used c in
  let sz := cbuf_size c in
  assert_ (cb_tail c <? sz) ;;
  assert_ (r <=? sz) ;;
  let base := if negb (r =? 0) then Some (cb_tail c) else None in
  if sz <? u32 (r + cb_tail c) then
    let len0 := u32 (sz - cb_tail c) in
    ret (r, (Iovec base len0, Iovec (Some 0) (u32 (r - len0))))
  else ret (r, (Iovec base r, Iovec None 0)).

Definition cbuf_write_char (ch : Z) : CM Z :=
  let* c := get in
  if 0 <? cbuf_space_avail c then
    buf_put (cb_head c) [ch] ;;
    set_head (INC_POINTER c (cb_head c) 1) ;;
    let* c := get in
    (if negb (cb_head c =? cb_tail c) then on_event event_signal ;; ret tt else ret tt) ;;
    ret 1
  else ret 0.

Definition cbuf_read_char_locked : CM (Z * list Z) :=
  let* c := get in
  if negb (cb_tail c =? cb_head c) then
    let* bytes := buf_get (cb_tail c) 1 in
    set_tail (INC_POINTER c (cb_tail c) 1) ;;
    let* c := get in
    (if cb_tail c =? cb_head c then on_event event_unsignal ;; ret tt else ret tt) ;;
    ret (1, bytes)
  else ret (0, []).

Fixpoint cbuf_read_char_retry (fuel : nat) (cur : tid) : CM read_result :=
  match fuel with
  | O => hang
  | S fuel =>
      let* r := cbuf_wait cur in
      match r with
      | Blocked => ret Read_waits
      | Returned _ =>
          let* r := cbuf_read_char_locked in
          if fst r =? 0 then cbuf_read_char_retry fuel cur else ret (Read_done (fst r) (snd r))
      end
  end.

Definition cbuf_read_char (cur : tid) (block : bool) : CM read_result :=
  if block then cbuf_read_char_retry RETRY_TURNS cur
  else let* r := cbuf_read_char_locked in ret (Read_done (fst r) (snd r)).

Definition cbuf_read_char_resume (cur : tid) : CM read_result :=
  cbuf_woken cur ;;
  let* r := cbuf_read_char_locked in
  if fst r =? 0 then cbuf_read_char_retry RETRY_TURNS cur else ret (Read_done (fst r) (snd r)).

Definition cbuf_reset : CM unit :=
  let* c := get in
  cbuf_read_locked false (cbuf_size c) ;; ret tt.
