(* ===== verification/CbufInv.v ===== *)
(** * The bytes in a circular buffer, and what the loops of lib/cbuf do to them

    [pending] is the queue that a buffer holds; [pending_wrote] and [pending_read]
    say what one turn of a loop does to it, [wp_write_loop] and [wp_read_loop] what
    all turns do, and that there are at most two. *)

From stdpp Require Import prelude list gmap.
From Stdlib Require Import ZArith Lia.
From S2P Require Import Prelude Pow2 Timer Kernel Mutex Sync Cbuf.

Open Scope Z_scope.
Open Scope lk_scope.

Definition size_of (c : cbuf_t) : Z := 2 ^ len_pow2 c.

(** The two segments of a buffer that wraps around, or the one of a buffer that
    does not. *)
Definition pending (c : cbuf_t) : list Z :=
  let h := Z.to_nat (cb_head c) in
  let t := Z.to_nat (cb_tail c) in
  if cb_tail c <=? cb_head c then slice t (h - t) (cb_buf c) else drop t (cb_buf c) ++ take h (cb_buf c).

Record geometry (c : cbuf_t) : Prop := {
  g_log : 0 <= len_pow2 c < 32;
  g_buf : Z.of_nat (length (cb_buf c)) = size_of c;
  g_head : 0 <= cb_head c < size_of c;
  g_tail : 0 <= cb_tail c < size_of c
}.

(** The event is signaled when there is something to read, and then nobody waits. *)
Record event_matches (c : cbuf_t) : Prop := {
  em_magic : event_magic (cb_event c) = EVENT_MAGIC;
  em_flags : event_flags (cb_event c) = 0;
  em_signaled : signaled (cb_event c) = negb (cb_head c =? cb_tail c);
  em_waiting : signaled (cb_event c) = true -> waiting (event_waitq (cb_event c)) = []
}.

Lemma geometry_event c e : geometry c -> geometry (Cbuf (cb_head c) (cb_tail c) (len_pow2 c) (cb_buf c) e).
Proof. intros []. by constructor. Qed.

(** ** Counters *)

Section geometry.
Context (c : cbuf_t) (G : geometry c).

Lemma size_range : 0 < size_of c < 2 ^ 32.
Proof. apply pow2_range, G. Qed.

Lemma space_used : cbuf_space_used c = Z.of_nat (length (pending c)).
Proof.
  destruct G as [Hl Hb Hh Ht]. pose proof size_range.
  unfold cbuf_space_used. rewrite modpow2_mod by done. fold (size_of c).
  assert ((u32 (cb_head c - cb_tail c)) mod size_of c = (cb_head c - cb_tail c) mod size_of c) as ->.
  { unfold u32. rewrite <- Znumtheory.Zmod_div_mod; [done|lia|lia|].
    unfold size_of. exists (2 ^ (32 - len_pow2 c)). rewrite <- Z.pow_add_r by lia. f_equal. lia. }
  unfold pending. case_match eqn:Hc; [apply Z.leb_le in Hc|apply Z.leb_gt in Hc].
  - rewrite Z.mod_small by lia. unfold slice. rewrite length_take, length_drop. lia.
  - rewrite length_app, length_drop, length_take.
    rewrite <- (Z.mod_add _ 1), Z.mod_small by lia. lia.
Qed.

Lemma pending_short : Z.of_nat (length (pending c)) < size_of c.
Proof.
  rewrite <- space_used. unfold cbuf_space_used. rewrite modpow2_mod by apply G.
  apply Z.mod_pos_bound, size_range.
Qed.

Lemma space_avail : cbuf_space_avail c = size_of c - 1 - Z.of_nat (length (pending c)).
Proof.
  pose proof pending_short as Hp. pose proof size_range. rewrite <- space_used in *. unfold cbuf_space_avail, cbuf_space_used in *.
  rewrite valpow2_pow by apply G. fold (size_of c).
  remember (modpow2 _ _) as m. assert (0 <= m).
  { subst m. rewrite modpow2_mod by apply G. apply Z.mod_pos_bound, size_range. }
  rewrite !u32_small by (rewrite ?u32_small; lia). lia.
Qed.

Lemma head_tail_pending : cb_head c = cb_tail c <-> pending c = [].
Proof.
  destruct G as [Hl Hb Hh Ht]. rewrite <- length_zero_iff_nil. unfold pending.
  case_match eqn:Hc; [apply Z.leb_le in Hc|apply Z.leb_gt in Hc]; unfold slice;
    rewrite ?length_app, ?length_take, ?length_drop; lia.
Qed.

Lemma inc_pointer p n : INC_POINTER c p n = (p + n) mod size_of c.
Proof.
  unfold INC_POINTER. rewrite modpow2_mod by apply G. fold (size_of c).
  unfold u32. rewrite <- Znumtheory.Zmod_div_mod; [done| |lia|].
  - apply size_range.
  - destruct G as [Hl _ _ _]. unfold size_of. exists (2 ^ (32 - len_pow2 c)). rewrite <- Z.pow_add_r by lia. f_equal. lia.
Qed.
End geometry.

(** ** One turn *)

Definition wrote (c : cbuf_t) (src : list Z) : cbuf_t :=
  Cbuf ((cb_head c + Z.of_nat (length src)) mod size_of c) (cb_tail c) (len_pow2 c)
    (splice (Z.to_nat (cb_head c)) src (cb_buf c)) (cb_event c).

Definition was_read (c : cbuf_t) (n : Z) : cbuf_t :=
  Cbuf (cb_head c) ((cb_tail c + n) mod size_of c) (len_pow2 c) (cb_buf c) (cb_event c).

(** The places from the head on that a turn may fill, and those from the tail on
    that one may read *)
Definition room_ahead (c : cbuf_t) : Z :=
  if cb_tail c <=? cb_head c then
    if cb_tail c =? 0 then size_of c - cb_head c - 1 else size_of c - cb_head c
  else cb_tail c - cb_head c - 1.

Definition data_ahead (c : cbuf_t) : Z :=
  if cb_tail c <? cb_head c then cb_head c - cb_tail c
  else if cb_tail c =? cb_head c then 0 else size_of c - cb_tail c.

Lemma take_splice h (src m : list Z) :
  (h + length src <= length m)%nat -> take (h + length src) (splice h src m) = take h m ++ src.
Proof.
  intros H. unfold splice. rewrite app_assoc. apply take_app_length'. rewrite length_app, length_take. lia.
Qed.

Lemma drop_splice t h (src m : list Z) :
  (h + length src <= t)%nat -> (t <= length m)%nat -> drop t (splice h src m) = drop t m.
Proof.
  intros H Hm. unfold splice. rewrite app_assoc, drop_app_ge by (rewrite length_app, length_take; lia).
  rewrite drop_drop. f_equal. rewrite length_app, length_take. lia.
Qed.

Lemma drop_take_slice t h (m : list Z) : drop t (take h m) = slice t (h - t) m.
Proof. apply skipn_firstn_comm. Qed.

Lemma pending_wrote c src :
  geometry c -> 0 < Z.of_nat (length src) <= room_ahead c ->
  geometry (wrote c src) /\ pending (wrote c src) = pending c ++ src.
Proof.
  intros G Hr. pose proof (size_range c G). destruct G as [Hl Hb Hh Ht].
  assert (Hsp : Z.of_nat (length (splice (Z.to_nat (cb_head c)) src (cb_buf c))) = size_of c).
  { rewrite length_splice; [done|]. unfold room_ahead in Hr. repeat case_match; lia. }
  split; [constructor; unfold wrote, was_read, size_of in *; cbn [cb_head cb_tail cb_buf len_pow2]; try done; apply Z.mod_pos_bound; lia|].
  unfold pending, wrote; cbn [cb_head cb_tail cb_buf]. unfold room_ahead in Hr.
  destruct (cb_tail c <=? cb_head c) eqn:Hc; [apply Z.leb_le in Hc|apply Z.leb_gt in Hc].
  - assert (cb_head c + Z.of_nat (length src) = size_of c /\ 0 < cb_tail c \/ cb_head c + Z.of_nat (length src) < size_of c)
      as [[He Hp]|Hlt] by (case_match eqn:Hz; [apply Z.eqb_eq in Hz|apply Z.eqb_neq in Hz]; lia).
    + rewrite He, Z_mod_same_full. replace (cb_tail c <=? 0) with false by lia.
      rewrite take_0, app_nil_r. rewrite <- drop_take_slice. rewrite <- drop_app_le by (rewrite length_take; lia).
      rewrite <- take_splice by lia. rewrite take_ge; [done|]. lia.
    + rewrite Z.mod_small by lia. replace (cb_tail c <=? _) with true by lia.
      rewrite <- !drop_take_slice. rewrite <- drop_app_le by (rewrite length_take; lia).
      rewrite <- take_splice by lia. do 2 f_equal. lia.
  - rewrite Z.mod_small by lia. replace (cb_tail c <=? _) with false by lia.
    rewrite drop_splice by lia. rewrite <- app_assoc. f_equal. rewrite <- take_splice by lia. f_equal. lia.
Qed.

Lemma pending_read c n :
  geometry c -> 0 <= n <= data_ahead c ->
  geometry (was_read c n) /\
  slice (Z.to_nat (cb_tail c)) (Z.to_nat n) (cb_buf c) = take (Z.to_nat n) (pending c) /\
  pending (was_read c n) = drop (Z.to_nat n) (pending c) /\
  n <= Z.of_nat (length (pending c)).
Proof.
  intros G Hr. pose proof (size_range c G). destruct G as [Hl Hb Hh Ht].
  split; [constructor; unfold wrote, was_read, size_of in *; cbn [cb_head cb_tail cb_buf len_pow2]; try done; apply Z.mod_pos_bound; lia|].
  unfold pending, was_read; cbn [cb_head cb_tail cb_buf]. unfold data_ahead in Hr.
  destruct (cb_tail c <? cb_head c) eqn:Hc; [apply Z.ltb_lt in Hc|apply Z.ltb_ge in Hc].
  - rewrite Z.mod_small by lia. replace (cb_tail c <=? cb_head c) with true by lia. replace (cb_tail c + n <=? cb_head c) with true by lia.
    unfold slice. rewrite take_take, length_take, length_drop. split_and!; [f_equal; lia| |lia].
    rewrite skipn_firstn_comm, drop_drop. f_equal; [lia|f_equal; lia].
  - destruct (cb_tail c =? cb_head c) eqn:He; [apply Z.eqb_eq in He|apply Z.eqb_neq in He].
    + assert (n = 0) as -> by lia. rewrite Z.add_0_r, Z.mod_small by lia.
      replace (cb_tail c <=? cb_head c) with true by lia. cbn [Z.to_nat]. unfold slice. rewrite !take_0, drop_0. split_and!; [done|done|lia].
    + replace (cb_tail c <=? cb_head c) with false by lia.
      rewrite take_app_le, drop_app_le by (rewrite length_drop; lia).
      rewrite length_app, length_drop. split_and!; [done| |lia].
      destruct (decide (cb_tail c + n = size_of c)) as [Hs|Hs].
      * rewrite Hs, Z_mod_same_full. replace (0 <=? cb_head c) with true by lia.
        rewrite drop_drop, drop_ge by lia. unfold slice. cbn. f_equal. lia.
      * rewrite Z.mod_small by lia. replace (cb_tail c + n <=? cb_head c) with false by lia.
        rewrite drop_drop. do 2 f_equal. lia.
Qed.

(** ** The loops *)

Section loops.
Context (c : cbuf_t) (G : geometry c).

Lemma length_pending :
  Z.of_nat (length (pending c)) =
    if cb_tail c <=? cb_head c then cb_head c - cb_tail c else size_of c - cb_tail c + cb_head c.
Proof.
  destruct G as [Hl Hb Hh Ht]. unfold pending.
  case_match eqn:Hc; [apply Z.leb_le in Hc|apply Z.leb_gt in Hc]; unfold slice;
    rewrite ?length_app, ?length_take, ?length_drop; lia.
Qed.

Lemma write_room_ahead want : 0 <= want < 2 ^ 32 -> write_room c want = Z.min (room_ahead c) want.
Proof.
  intros Hw. pose proof (size_range c G). destruct G as [Hl Hb Hh Ht].
  unfold write_room, room_ahead. rewrite valpow2_pow by done. fold (size_of c).
  repeat case_match; rewrite ?u32_small; rewrite ?u32_small; lia.
Qed.

Lemma read_len_ahead want :
  cb_tail c <> cb_head c ->
  (if cb_tail c <? cb_head c then Z.min (u32 (cb_head c - cb_tail c)) want
   else Z.min (u32 (valpow2 (len_pow2 c) - cb_tail c)) want) = Z.min (data_ahead c) want.
Proof.
  intros Hne. pose proof (size_range c G). destruct G as [Hl Hb Hh Ht].
  unfold data_ahead. rewrite valpow2_pow by done. fold (size_of c).
  repeat case_match; rewrite ?u32_small; lia.
Qed.
End loops.

Lemma wp_buf_put c off src Q :
  0 <= off -> off + Z.of_nat (length src) <= Z.of_nat (length (cb_buf c)) ->
  Q tt (Cbuf (cb_head c) (cb_tail c) (len_pow2 c) (splice (Z.to_nat off) src (cb_buf c)) (cb_event c)) ->
  wp (buf_put off src) Q c.
Proof. intros Ho Hl HQ. unfold buf_put. apply wp_seq, wp_get. replace (off + _ <=? _) with true by lia. by apply wp_modify. Qed.

Lemma wp_buf_get c off len Q :
  off + len <= Z.of_nat (length (cb_buf c)) -> Q (slice (Z.to_nat off) (Z.to_nat len) (cb_buf c)) c -> wp (buf_get off len) Q c.
Proof. intros Hl HQ. unfold buf_get. apply wp_seq, wp_get. replace (off + len <=? _) with true by lia. by apply wp_ret. Qed.

(** What is written: the caller's bytes, or zeros *)
Definition bytes_of (buf : option (list Z)) (len : Z) : list Z :=
  match buf with Some b => take (Z.to_nat len) b | None => replicate (Z.to_nat len) 0 end.

Definition source_ok (buf : option (list Z)) (len : Z) : bool :=
  match buf with Some b => len <=? Z.of_nat (length b) | None => true end.

Lemma length_bytes_of buf len : 0 <= len -> source_ok buf len = true -> Z.of_nat (length (bytes_of buf len)) = len.
Proof.
  intros Hp. destruct buf as [b|]; cbn.
  - intros H%Z.leb_le. rewrite length_take. lia.
  - intros _. rewrite length_replicate. lia.
Qed.

Lemma wp_source buf len pos n c Q :
  0 <= pos -> 0 <= n -> pos + n <= len -> source_ok buf len = true ->
  Q (slice (Z.to_nat pos) (Z.to_nat n) (bytes_of buf len)) c -> wp (source buf pos n) Q c.
Proof.
  intros Hp Hn Hl Hs HQ. destruct buf as [b|]; cbn in *.
  - apply Z.leb_le in Hs. replace (pos + n <=? _) with true by lia. apply wp_ret.
    unfold slice in *. rewrite skipn_firstn_comm, take_take in HQ. by rewrite Nat.min_l in HQ by lia.
  - unfold wp, ret. unfold slice in HQ. rewrite drop_replicate, take_replicate in HQ. by rewrite Nat.min_l in HQ by lia.
Qed.

Lemma wp_write_loop fuel buf len : forall c pos,
  geometry c -> source_ok buf len = true -> 0 <= pos <= len -> len < 2 ^ 32 ->
  (3 <= fuel)%nat \/ (2 <= fuel)%nat /\ room_ahead c = cbuf_space_avail c \/
    (1 <= fuel)%nat /\ (pos = len \/ cbuf_space_avail c = 0) ->
  wp (write_loop fuel buf pos len) (fun p c' =>
    let n := Z.min (len - pos) (cbuf_space_avail c) in
    p = pos + n /\ geometry c' /\
    pending c' = pending c ++ slice (Z.to_nat pos) (Z.to_nat n) (bytes_of buf len) /\
    cb_event c' = cb_event c /\ len_pow2 c' = len_pow2 c /\ cb_tail c' = cb_tail c) c.
Proof.
  induction fuel as [|fuel IH]; intros c pos G Hs Hp Hlen Hf; [lia|].
  pose proof (space_avail c G) as Hav. pose proof (pending_short c G). pose proof (size_range c G).
  cbn [write_loop]. apply wp_seq, wp_get.
  destruct ((pos <? len) && (0 <? cbuf_space_avail c)) eqn:Hgo.
  2: { apply wp_ret. cbn zeta. replace (Z.min _ _) with 0 by lia.
       split_and!; [lia|done| |done..]. unfold slice. cbn. by rewrite app_nil_r. }
  apply andb_true_iff in Hgo as [Hgo1%Z.ltb_lt Hgo2%Z.ltb_lt].
  rewrite (u32_small (len - pos)), write_room_ahead by (done || lia).
  set (k := Z.min (room_ahead c) (len - pos)).
  pose proof (length_pending c G) as Hlp. destruct (g_head _ G) as [Hh0 Hh1], (g_tail _ G) as [Ht0 Ht1].
  assert (Hroom : 0 < room_ahead c <= cbuf_space_avail c /\
    (room_ahead c < cbuf_space_avail c -> 0 < cb_tail c <= cb_head c /\ cb_head c + room_ahead c = size_of c)).
  { rewrite Hav. unfold room_ahead. repeat case_match; lia. }
  replace (k =? 0) with false by lia.
  apply wp_seq, (wp_source _ len); [lia..|done|].
  set (src := slice _ _ _).
  assert (Hsrc : Z.of_nat (length src) = k).
  { unfold src. pose proof (length_bytes_of buf len ltac:(lia) Hs). rewrite length_slice; lia. }
  destruct (pending_wrote c src G ltac:(lia)) as [G1 Hp1].
  apply wp_seq, wp_buf_put; [lia|pose proof (g_buf _ G); unfold room_ahead in *; repeat case_match; lia|].
  apply wp_seq, wp_modify. cbn [cb_head cb_tail len_pow2 cb_buf cb_event].
  rewrite inc_pointer, <- Hsrc by done. fold (wrote c src).
  rewrite u32_small by lia.
  pose proof (space_avail _ G1) as Hav1. rewrite Hp1, length_app in Hav1. change (size_of (wrote c src)) with (size_of c) in Hav1.
  eapply wp_mono; [apply IH; [done|done|lia|lia|]|].
  - destruct (decide (k = len - pos)) as [Hk|Hk]; [right; right; lia|].
    destruct (decide (room_ahead c = cbuf_space_avail c)) as [Hra|Hra]; [right; right; lia|].
    right; left. split; [lia|]. destruct Hroom as [_ [Hr1 Hr2]]; [lia|].
    rewrite Hav1. unfold room_ahead, wrote; cbn [cb_head cb_tail size_of len_pow2].
    change (size_of (Cbuf _ _ _ _ _)) with (size_of c).
    rewrite Hsrc. replace (cb_head c + k) with (size_of c) by lia. rewrite Z_mod_same_full.
    replace (cb_tail c <=? 0) with false by lia. revert Hlp. case_match; lia.
  - intros p c' (-> & G' & Hp' & He & Hl & Ht). cbn zeta.
    assert (Hn : Z.min (len - (pos + Z.of_nat (length src))) (cbuf_space_avail (wrote c src)) = Z.min (len - pos) (cbuf_space_avail c) - k) by lia.
    rewrite Hn in *. split_and!; [lia|done| |done..].
    rewrite Hp', Hp1, Hsrc, <- app_assoc. f_equal. unfold src, slice.
    replace (Z.to_nat (pos + k)) with (Z.to_nat pos + Z.to_nat k)%nat by lia. rewrite <- drop_drop.
    rewrite <- (take_drop (Z.to_nat k) (take (Z.to_nat (Z.min (len - pos) (cbuf_space_avail c))) _)).
    rewrite take_take. f_equal; [f_equal; lia|]. rewrite skipn_firstn_comm. f_equal. lia.
Qed.

Lemma wp_read_loop fuel buflen : forall c pos out,
  geometry c -> 0 <= pos <= buflen -> buflen < 2 ^ 32 ->
  (3 <= fuel)%nat \/ (2 <= fuel)%nat /\ data_ahead c = cbuf_space_used c \/
    (1 <= fuel)%nat /\ (pos = buflen \/ cbuf_space_used c = 0) ->
  wp (read_loop fuel pos buflen out) (fun r c' =>
    let n := Z.min (buflen - pos) (cbuf_space_used c) in
    r = (pos + n, out ++ take (Z.to_nat n) (pending c)) /\ geometry c' /\
    pending c' = drop (Z.to_nat n) (pending c) /\
    cb_event c' = cb_event c /\ len_pow2 c' = len_pow2 c /\ cb_head c' = cb_head c) c.
Proof.
  induction fuel as [|fuel IH]; intros c pos out G Hp Hlen Hf; [lia|].
  pose proof (space_used c G) as Hus. pose proof (pending_short c G). pose proof (size_range c G).
  pose proof (head_tail_pending c G) as Hht. pose proof (length_pending c G) as Hlp.
  destruct (g_head _ G) as [Hh0 Hh1], (g_tail _ G) as [Ht0 Ht1].
  cbn [read_loop]. apply wp_seq, wp_get.
  destruct ((pos <? buflen) && negb (cb_tail c =? cb_head c)) eqn:Hgo.
  2: { apply wp_ret. cbn zeta. assert (Z.min (buflen - pos) (cbuf_space_used c) = 0) as ->.
       { rewrite Hus, Hlp. repeat case_match; lia. }
       cbn [Z.to_nat]. rewrite take_0, drop_0, app_nil_r, Z.add_0_r. done. }
  apply andb_true_iff in Hgo as [Hgo1%Z.ltb_lt Hgo2%negb_true_iff%Z.eqb_neq].
  rewrite (u32_small (buflen - pos)), read_len_ahead by (done || lia).
  set (k := Z.min (data_ahead c) (buflen - pos)).
  assert (Hda : 0 < data_ahead c <= cbuf_space_used c /\
    (data_ahead c < cbuf_space_used c -> cb_tail c + data_ahead c = size_of c)).
  { rewrite Hus, Hlp. unfold data_ahead. repeat case_match; lia. }
  destruct (pending_read c k G ltac:(lia)) as (G1 & Hb1 & Hp1 & Hk).
  apply wp_seq, wp_buf_get.
  { pose proof (g_buf _ G). unfold k, data_ahead. repeat case_match; lia. }
  rewrite Hb1. apply wp_seq, wp_modify. cbn [cb_head cb_tail len_pow2 cb_buf cb_event].
  rewrite inc_pointer by done. fold (was_read c k). rewrite u32_small by lia.
  pose proof (space_used _ G1) as Hus1. rewrite Hp1, length_drop in Hus1.
  eapply wp_mono; [apply IH; [done|lia|lia|]|].
  - destruct (decide (k = buflen - pos)) as [Hkb|Hkb]; [right; right; lia|].
    destruct (decide (data_ahead c = cbuf_space_used c)) as [Hra|Hra]; [right; right; lia|].
    right; left. split; [lia|]. destruct Hda as [Hd0 Hd1].
    rewrite Hus1. unfold data_ahead, was_read; cbn [cb_head cb_tail].
    replace (cb_tail c + k) with (size_of c) by lia. rewrite Z_mod_same_full.
    rewrite Hus, Hlp in *. unfold data_ahead in *. repeat case_match; lia.
  - intros r c' (-> & G' & Hp' & He & Hl & Hhd). cbn zeta.
    assert (Hn : Z.min (buflen - (pos + k)) (cbuf_space_used (was_read c k)) = Z.min (buflen - pos) (cbuf_space_used c) - k) by lia.
    rewrite Hn in *. rewrite Hp1 in *. rewrite drop_drop in Hp'. split_and!; [|done| |done..].
    + f_equal; [lia|]. rewrite <- app_assoc. f_equal.
      rewrite <- (take_drop (Z.to_nat k) (take (Z.to_nat (Z.min (buflen - pos) (cbuf_space_used c))) _)).
      rewrite take_take, skipn_firstn_comm. f_equal; [f_equal; lia|f_equal; lia].
    + rewrite Hp'. f_equal. lia.
Qed.
