(* ===== verification/CbufProps.v ===== *)
(** * The circular buffer is a bounded queue of bytes

    The abstract buffer [queue] with its operations, each call of lib/cbuf as one of
    them ([refines]), and sequences of calls. *)

From stdpp Require Import prelude list gmap.
From Stdlib Require Import ZArith Lia.
From S2P Require Import Prelude Pow2 Timer Kernel Mutex Sync Cbuf CbufInv.

Open Scope Z_scope.
Open Scope lk_scope.

(** ** The abstract buffer *)

Record queue := Queue { q_size : Z; q_bytes : list Z; q_waitq : waitq }.

Definition q_length (a : queue) : Z := Z.of_nat (length (q_bytes a)).
Definition q_space (a : queue) : Z := q_size a - 1 - q_length a.

(** Bytes that arrive wake every reader. *)
Definition q_push (bytes : list Z) (a : queue) : queue :=
  let all := q_bytes a ++ bytes in
  Queue (q_size a) all (if bool_decide (all = []) then q_waitq a else snd (waitq_wake_all NO_ERROR (q_waitq a))).

Definition q_write (buf : option (list Z)) (len : Z) (a : queue) : option (Z * queue) :=
  if (0 <=? len) && (len <? q_size a) && source_ok buf len then
    let n := Z.min len (q_space a) in Some (n, q_push (take (Z.to_nat n) (bytes_of buf len)) a)
  else None.

Definition q_take (buf : bool) (buflen : Z) (a : queue) : read_result * queue :=
  let n := Z.min buflen (q_length a) in
  (Read_done n (if buf then take (Z.to_nat n) (q_bytes a) else []),
   Queue (q_size a) (drop (Z.to_nat n) (q_bytes a)) (q_waitq a)).

(** A read of nothing that may block does not return. *)
Definition q_read (cur : tid) (buf : bool) (buflen : Z) (block : bool) (a : queue) : option (read_result * queue) :=
  if (0 <=? buflen) && (buflen <? 2 ^ 32) then
    if block then
      if bool_decide (q_bytes a = []) then
        Some (Read_waits, Queue (q_size a) [] (snd (waitq_block cur INFINITE_TIME (q_waitq a))))
      else if buflen =? 0 then None
      else Some (q_take buf buflen a)
    else Some (q_take buf buflen a)
  else None.

Definition q_resume (cur : tid) (buf : bool) (buflen : Z) (a : queue) : option (read_result * queue) :=
  rw ← waitq_resume cur (q_waitq a);
  q_read cur buf buflen true (Queue (q_size a) (q_bytes a) (snd rw)).

(** ** The calls implement it *)

Record refines (c : cbuf_t) (a : queue) : Prop := {
  rf_geometry : geometry c;
  rf_event : event_matches c;
  rf_size : size_of c = q_size a;
  rf_bytes : pending c = q_bytes a;
  rf_waitq : event_waitq (cb_event c) = q_waitq a
}.

Lemma refines_used c a : refines c a -> cbuf_space_used c = q_length a.
Proof. intros [G _ _ Hb _]. by rewrite space_used, Hb. Qed.

Lemma refines_avail c a : refines c a -> cbuf_space_avail c = q_space a.
Proof. intros [G _ Hs Hb _]. rewrite space_avail, Hs, Hb by done. done. Qed.

Lemma head_tail_eqb c : geometry c -> (cb_head c =? cb_tail c) = bool_decide (pending c = []).
Proof.
  intros G. pose proof (head_tail_pending c G). case_bool_decide as Hp; [apply Z.eqb_eq|apply Z.eqb_neq]; naive_solver.
Qed.

Lemma tail_head_eqb c : geometry c -> (cb_tail c =? cb_head c) = bool_decide (pending c = []).
Proof. intros. rewrite Z.eqb_sym. by apply head_tail_eqb. Qed.

Lemma waitq_wake_nobody w : waiting w = [] -> snd (waitq_wake_all NO_ERROR w) = w.
Proof. intros H. unfold waitq_wake_all. rewrite H. destruct w. cbn in *. by subst. Qed.

Lemma event_match_empty c :
  geometry c -> event_matches c -> signaled (cb_event c) = negb (bool_decide (pending c = [])).
Proof. intros G [_ _ Hs _]. by rewrite Hs, head_tail_eqb. Qed.

Lemma event_signal_run e :
  event_magic e = EVENT_MAGIC -> event_flags e = 0 ->
  event_signal e = (Ret NO_ERROR,
    if signaled e then e else Event EVENT_MAGIC true 0 (snd (waitq_wake_all NO_ERROR (event_waitq e)))).
Proof.
  intros Hm Hf. unfold event_signal, bind, get, assert_, autounsignal, ret, put. rewrite Hm, Hf. cbn.
  by destruct (signaled e).
Qed.

(** event_signal behind a write: [c'] is the buffer after it, its event that of before. *)
Lemma wp_signal c a bytes c' Q :
  refines c a -> geometry c' -> pending c' = pending c ++ bytes -> cb_event c' = cb_event c -> len_pow2 c' = len_pow2 c ->
  (forall c2, refines c2 (q_push bytes a) -> Q tt c2) ->
  wp (let* c := get in
      if negb (cb_head c =? cb_tail c) then on_event event_signal ;; ret tt else ret tt) Q c'.
Proof.
  intros [G Em Hs Hb Hw] G' Hp He Hl HQ. pose proof (event_match_empty c G Em) as Hsig.
  destruct Em as [Hm Hf Hsg Hwt].
  assert (Hsz : size_of c' = q_size a) by (rewrite <- Hs; unfold size_of; by rewrite Hl).
  apply wp_seq, wp_get. rewrite head_tail_eqb by done. unfold q_push in HQ. rewrite <- Hb, <- Hp in HQ.
  destruct (bool_decide (pending c' = [])) eqn:Hd; cbn [negb].
  - apply wp_ret. apply HQ. apply bool_decide_eq_true in Hd. rewrite Hp in Hd. apply app_eq_nil in Hd as [Hd Hd2].
    constructor; cbn; try done; [|by rewrite He].
    assert (pending c' = []) as Hd' by (by rewrite Hp, Hd, Hd2).
    constructor; rewrite ?He; try done. rewrite Hsig, Hd. by rewrite head_tail_eqb, Hd' by done.
  - unfold wp, on_event, bind. rewrite He, event_signal_run, Hsig by done. cbn [fst snd ret].
    destruct (bool_decide (pending c = [])) eqn:Hd2; cbn [negb].
    + apply HQ. constructor; [by apply geometry_event| |done|done|cbn; by rewrite Hw].
      constructor; cbn; try done. rewrite head_tail_eqb by done. by rewrite Hd.
    + apply HQ. rewrite <- He. constructor; [by apply geometry_event| |done|done|].
      * constructor; cbn [cb_event cb_head cb_tail]; rewrite ?He; try done. rewrite Hsig, (head_tail_eqb c'), Hd by done. done.
      * cbn [cb_event q_waitq]. rewrite He, <- Hw. rewrite waitq_wake_nobody; [done|]. apply Hwt. by rewrite Hsig.
Qed.

Lemma write_refines c a buf len r a' :
  refines c a -> q_write buf len a = Some (r, a') ->
  wp (cbuf_write buf len) (fun n c' => n = r /\ refines c' a') c.
Proof.
  intros R. pose proof (refines_avail c a R) as Hav. pose proof R as [G Em Hs Hb Hw].
  pose proof (size_range c G). unfold q_write.
  destruct (_ && _) eqn:Hg; [|done]. intros [= <- <-].
  apply andb_true_iff in Hg as [[Hg1%Z.leb_le Hg2%Z.ltb_lt]%andb_true_iff Hg3].
  unfold cbuf_write. apply wp_seq, wp_get, wp_seq, wp_assert.
  { rewrite valpow2_pow by apply G. fold (size_of c). apply Z.ltb_lt. lia. }
  apply wp_seq. eapply wp_mono; [apply wp_write_loop; [done|done|lia|lia|left; unfold WRITE_TURNS; lia]|].
  intros p c1 (-> & G1 & Hp1 & He1 & Hl1 & _). rewrite Z.sub_0_r, Hav in *.
  assert (wp (let* c := get in
      if negb (cb_head c =? cb_tail c) then on_event event_signal ;; ret tt else ret tt)
      (fun _ c2 => refines c2 (q_push (take (Z.to_nat (Z.min len (q_space a))) (bytes_of buf len)) a)) c1) as Hsig.
  { eapply (wp_signal c a); [done|done|rewrite Hp1; unfold slice; by rewrite drop_0|done|done|done]. }
  apply wp_bind in Hsig. apply wp_seq. eapply wp_mono; [exact Hsig|]. intros c2 c3 H3. cbn beta in *.
  apply wp_seq. eapply wp_mono; [exact H3|]. intros [] c4 H4. by apply wp_ret.
Qed.

Lemma wp_unsignal c (Q : Z -> cbuf_t -> Prop) :
  event_magic (cb_event c) = EVENT_MAGIC ->
  Q NO_ERROR (Cbuf (cb_head c) (cb_tail c) (len_pow2 c) (cb_buf c)
                (Event EVENT_MAGIC false (event_flags (cb_event c)) (event_waitq (cb_event c)))) ->
  wp (on_event event_unsignal) Q c.
Proof.
  intros Hm HQ. unfold wp, on_event, event_unsignal, bind, get, assert_, put. rewrite Hm, Z.eqb_refl. exact HQ.
Qed.

(** Taking [n] bytes off, and the event when they were the last *)
Lemma refines_taken c a n c' :
  refines c a -> geometry c' -> pending c' = drop n (pending c) -> cb_event c' = cb_event c -> len_pow2 c' = len_pow2 c ->
  pending c' <> [] -> refines c' (Queue (q_size a) (drop n (q_bytes a)) (q_waitq a)).
Proof.
  intros [G Em Hs Hb Hw] G' Hp He Hl Hne. pose proof (event_match_empty c G Em) as Hsig. destruct Em as [Hm Hf Hsg Hwt].
  constructor; cbn; [done| |unfold size_of in *; by rewrite Hl|by rewrite Hp, Hb|by rewrite He].
  assert (pending c <> []) as Hn by (intros Hn; rewrite Hn, drop_nil in Hp; done).
  constructor; rewrite ?He; try done.
  rewrite Hsig, (head_tail_eqb c') by done. by rewrite !bool_decide_eq_false_2.
Qed.

Lemma refines_emptied c a n c' :
  refines c a -> geometry c' -> pending c' = drop n (pending c) -> cb_event c' = cb_event c -> len_pow2 c' = len_pow2 c ->
  pending c' = [] ->
  refines (Cbuf (cb_head c') (cb_tail c') (len_pow2 c') (cb_buf c')
             (Event EVENT_MAGIC false (event_flags (cb_event c')) (event_waitq (cb_event c'))))
    (Queue (q_size a) (drop n (q_bytes a)) (q_waitq a)).
Proof.
  intros [G Em Hs Hb Hw] G' Hp He Hl Hne. destruct Em as [Hm Hf Hsg Hwt].
  constructor; cbn.
  - by apply geometry_event.
  - constructor; cbn; [done|by rewrite He| |done]. rewrite head_tail_eqb by done. by rewrite Hne.
  - unfold size_of in *. cbn. by rewrite Hl.
  - change (pending (Cbuf _ _ _ _ _)) with (pending c'). by rewrite Hp, Hb.
  - by rewrite He.
Qed.

Lemma read_locked_refines c a buf buflen :
  refines c a -> 0 <= buflen < 2 ^ 32 ->
  wp (cbuf_read_locked buf buflen) (fun r c' =>
    Read_done (fst r) (snd r) = fst (q_take buf buflen a) /\ refines c' (snd (q_take buf buflen a))) c.
Proof.
  intros R Hl. pose proof (refines_used c a R) as Hu. pose proof R as [G Em Hs Hb Hw].
  unfold cbuf_read_locked, q_take. apply wp_seq, wp_get. rewrite tail_head_eqb by done.
  destruct (bool_decide (pending c = [])) eqn:Hd; cbn [negb].
  { apply bool_decide_eq_true in Hd. apply wp_ret. cbn [fst snd]. unfold q_length. rewrite <- Hb, Hd. cbn [length].
    replace (Z.min _ _) with 0 by lia. cbn. split; [by destruct buf|]. destruct a. cbn in *. rewrite <- Hd, Hb in *. by constructor. }
  apply bool_decide_eq_false in Hd.
  apply wp_seq. eapply wp_mono; [apply wp_read_loop; [done|lia|lia|left; unfold READ_TURNS; lia]|].
  intros r c1 (-> & G1 & Hp1 & He1 & Hl1 & _). rewrite Z.sub_0_r, Z.add_0_l, Hu in *. cbn [fst snd app].
  set (n := Z.min buflen (q_length a)) in *.
  apply wp_seq, wp_get. rewrite tail_head_eqb by done.
  destruct (bool_decide (pending c1 = [])) eqn:Hd1.
  - apply bool_decide_eq_true in Hd1. apply wp_seq, wp_seq, wp_assert.
    { apply Z.ltb_lt. rewrite Hd1 in Hp1. apply (f_equal length) in Hp1. rewrite length_drop in Hp1. cbn in Hp1.
      destruct (pending c); [done|]. cbn in Hp1. lia. }
    apply wp_seq, wp_unsignal; [rewrite He1; apply Em|]. apply wp_ret, wp_ret. cbn [fst snd].
    split; [by rewrite Hb|]. by eapply refines_emptied.
  - apply bool_decide_eq_false in Hd1. apply wp_seq, wp_ret, wp_ret. cbn [fst snd]. split; [by rewrite Hb|]. by eapply refines_taken.
Qed.

Lemma q_push_nothing c a : refines c a -> q_push [] a = a.
Proof.
  intros [G Em Hs Hb Hw]. pose proof (event_match_empty c G Em) as Hsig. unfold q_push. rewrite app_nil_r.
  destruct a as [sz l w]. cbn in *. subst l w. case_bool_decide as Hp; [done|]. f_equal.
  apply waitq_wake_nobody, Em. by rewrite Hsig.
Qed.

Definition q_write_char (ch : Z) (a : queue) : Z * queue :=
  let n := Z.min 1 (q_space a) in (n, q_push (take (Z.to_nat n) [ch]) a).

Lemma write_char_refines c a ch :
  refines c a -> wp (cbuf_write_char ch) (fun n c' => n = fst (q_write_char ch a) /\ refines c' (snd (q_write_char ch a))) c.
Proof.
  intros R. pose proof (refines_avail c a R) as Hav. pose proof (q_push_nothing c a R) as Hnil.
  pose proof R as [G Em Hs Hb Hw]. pose proof (space_avail c G) as Hsa. pose proof (pending_short c G).
  unfold cbuf_write_char, q_write_char. apply wp_seq, wp_get. cbn zeta. cbn [fst snd].
  destruct (0 <? cbuf_space_avail c) eqn:Hc; [apply Z.ltb_lt in Hc|apply Z.ltb_ge in Hc].
  2: { apply wp_ret. replace (Z.min 1 (q_space a)) with 0 by lia. cbn [Z.to_nat]. rewrite take_0, Hnil. done. }
  replace (Z.min 1 (q_space a)) with 1 by lia. change (take (Z.to_nat 1) [ch]) with [ch].
  destruct (g_head _ G), (g_tail _ G). pose proof (g_buf _ G). pose proof (length_pending c G) as Hlp.
  destruct (pending_wrote c [ch] G) as [G1 Hp1].
  { unfold room_ahead. cbn. repeat case_match; lia. }
  apply wp_seq, wp_buf_put; [lia|cbn; lia|]. apply wp_seq, wp_modify. cbn [cb_head cb_tail len_pow2 cb_buf cb_event].
  rewrite inc_pointer by done. change 1 with (Z.of_nat (length [ch])). fold (wrote c [ch]). cbn [length Z.of_nat].
  pose proof (wp_signal c a [ch] (wrote c [ch]) (fun _ c' => refines c' (q_push [ch] a)) R G1 Hp1 eq_refl eq_refl (fun c2 H => H)) as Hsg.
  apply wp_bind in Hsg. apply wp_seq. eapply wp_mono; [exact Hsg|]. intros c2 c3 Hc3. cbn beta in *.
  apply wp_seq. eapply wp_mono; [exact Hc3|]. intros [] c4 Hc4. by apply wp_ret.
Qed.

Lemma read_char_locked_refines c a :
  refines c a ->
  wp cbuf_read_char_locked (fun r c' =>
    Read_done (fst r) (snd r) = fst (q_take true 1 a) /\ refines c' (snd (q_take true 1 a))) c.
Proof.
  intros R. pose proof (refines_used c a R) as Hu. pose proof R as [G Em Hs Hb Hw].
  unfold cbuf_read_char_locked, q_take. apply wp_seq, wp_get. rewrite tail_head_eqb by done.
  destruct (bool_decide (pending c = [])) eqn:Hd; cbn [negb].
  { apply bool_decide_eq_true in Hd. apply wp_ret. cbn [fst snd]. unfold q_length. rewrite <- Hb, Hd. cbn.
    split; [done|]. destruct a. cbn in *. rewrite <- Hd, Hb in *. by constructor. }
  apply bool_decide_eq_false in Hd.
  assert (1 <= q_length a) by (unfold q_length; rewrite <- Hb; destruct (pending c); [done|cbn; lia]).
  rewrite Z.min_l by lia. pose proof (g_buf _ G). pose proof (length_pending c G) as Hlp.
  destruct (g_head _ G), (g_tail _ G).
  destruct (pending_read c 1 G) as (G1 & Hb1 & Hp1 & Hk).
  { unfold data_ahead. pose proof (head_tail_pending c G). repeat case_match; naive_solver lia. }
  apply wp_seq, wp_buf_get; [lia|]. rewrite Hb1. apply wp_seq, wp_modify.
  rewrite inc_pointer by done. fold (was_read c 1).
  apply wp_seq, wp_get. rewrite tail_head_eqb by done. cbn [fst snd].
  destruct (bool_decide (pending (was_read c 1) = [])) eqn:Hd1.
  - apply bool_decide_eq_true in Hd1. apply wp_seq, wp_seq, wp_unsignal; [apply Em|]. apply wp_ret, wp_ret.
    split; [by rewrite Hb|]. by apply (refines_emptied c a _ (was_read c 1)).
  - apply bool_decide_eq_false in Hd1. apply wp_seq, wp_ret, wp_ret. split; [by rewrite Hb|]. by apply (refines_taken c).
Qed.

Lemma event_wait_run cur e :
  event_magic e = EVENT_MAGIC -> event_flags e = 0 ->
  event_wait_timeout cur INFINITE_TIME e =
    if signaled e then (Ret (Returned NO_ERROR), e)
    else (Ret Blocked, Event EVENT_MAGIC false 0 (snd (waitq_block cur INFINITE_TIME (event_waitq e)))).
Proof.
  intros Hm Hf. unfold event_wait_timeout, bind, get, assert_, autounsignal, ret, put. rewrite Hm, Hf. cbn.
  destruct e as [m s f w]. cbn in *. subst. by destruct s.
Qed.

Lemma wait_refines c a cur :
  refines c a ->
  wp (cbuf_wait cur) (fun r c' =>
    if bool_decide (q_bytes a = []) then
      r = Blocked /\ refines c' (Queue (q_size a) [] (snd (waitq_block cur INFINITE_TIME (q_waitq a))))
    else r = Returned NO_ERROR /\ c' = c) c.
Proof.
  intros [G Em Hs Hb Hw]. pose proof (event_match_empty c G Em) as Hsig. destruct Em as [Hm Hf Hsg Hwt].
  unfold wp, cbuf_wait, on_event. rewrite event_wait_run, Hsig, Hb by done.
  destruct (bool_decide (q_bytes a = [])) eqn:Hd; cbn [negb fst snd].
  - apply bool_decide_eq_true in Hd. split; [done|].
    constructor; [by apply geometry_event| |done|cbn [q_bytes]; by rewrite <- Hd, <- Hb|cbn [q_waitq cb_event event_waitq]; by rewrite Hw].
    constructor; cbn [cb_event cb_head cb_tail event_magic event_flags signaled]; try done.
    rewrite <- Hsg, Hsig, Hb. by rewrite bool_decide_eq_true_2.
  - split; [done|]. by destruct c.
Qed.

Lemma q_take_some buf buflen a :
  q_bytes a <> [] -> 0 < buflen -> exists n l, fst (q_take buf buflen a) = Read_done n l /\ n <> 0.
Proof.
  intros Hne Hb. unfold q_take, q_length. eexists _, _. split; [done|]. destruct (q_bytes a); [done|cbn; lia].
Qed.

Lemma read_retry_refines c a cur buf buflen fuel r a' :
  refines c a -> q_read cur buf buflen true a = Some (r, a') ->
  wp (cbuf_read_retry (S fuel) cur buf buflen) (fun x c' => x = r /\ refines c' a') c.
Proof.
  intros R. unfold q_read. destruct (_ && _) eqn:Hg; [|done]. apply andb_true_iff in Hg as [Hg1%Z.leb_le Hg2%Z.ltb_lt].
  intros Hq. cbn [cbuf_read_retry]. apply wp_seq. eapply wp_mono; [by apply wait_refines|]. cbn beta. intros w c1.
  destruct (bool_decide (q_bytes a = [])) eqn:Hd.
  - injection Hq as <- <-. intros [-> R1]. by apply wp_ret.
  - intros [-> ->]. apply bool_decide_eq_false in Hd. destruct (buflen =? 0) eqn:Hz; [done|]. apply Z.eqb_neq in Hz.
    assert (Hq' : q_take buf buflen a = (r, a')) by congruence. destruct (q_take_some buf buflen a) as (n & l & Hn & Hn0); [done|lia|].
    apply wp_seq. eapply wp_mono; [by apply read_locked_refines|]. intros rr c2 [He R2]. rewrite Hn in He. injection He as <- <-.
    replace (fst rr =? 0) with false by lia. apply wp_ret. rewrite Hq' in Hn, R2. by rewrite <- Hn.
Qed.

Lemma read_refines c a cur buf buflen block r a' :
  refines c a -> q_read cur buf buflen block a = Some (r, a') ->
  wp (cbuf_read cur buf buflen block) (fun x c' => x = r /\ refines c' a') c.
Proof.
  intros R Hq. unfold cbuf_read, RETRY_TURNS. destruct block; [by eapply read_retry_refines|].
  unfold q_read in Hq. destruct (_ && _) eqn:Hg; [|done]. apply andb_true_iff in Hg as [Hg1%Z.leb_le Hg2%Z.ltb_lt].
  apply wp_seq. eapply wp_mono; [by apply read_locked_refines|]. intros rr c2 [He R2]. apply wp_ret.
  assert (Hq' : q_take buf buflen a = (r, a')) by congruence. by rewrite Hq' in He, R2.
Qed.

Lemma woken_refines c a cur rw :
  refines c a -> waitq_resume cur (q_waitq a) = Some rw ->
  wp (cbuf_woken cur) (fun _ c' => refines c' (Queue (q_size a) (q_bytes a) (snd rw))) c.
Proof.
  intros [G Em Hs Hb Hw] Hr. destruct Em as [Hm Hf Hsg Hwt].
  unfold wp, cbuf_woken, on_event, bind, get, deref, put, ret. rewrite Hw, Hr. cbn.
  constructor; cbn; [by apply geometry_event| |done|done|done].
  constructor; cbn; try done. intros H. specialize (Hwt H). rewrite Hw in Hwt. unfold waitq_resume in Hr.
  destruct (results (q_waitq a) !! cur); [|done]. by injection Hr as <-.
Qed.

Lemma read_resume_refines c a cur buf buflen r a' :
  refines c a -> q_resume cur buf buflen a = Some (r, a') ->
  wp (cbuf_read_resume cur buf buflen) (fun x c' => x = r /\ refines c' a') c.
Proof.
  intros R Hq. unfold q_resume in Hq. destruct (waitq_resume cur (q_waitq a)) as [rw|] eqn:Hrw; [cbn in Hq|done].
  unfold cbuf_read_resume. apply wp_seq. eapply wp_mono; [by eapply woken_refines|]. cbn beta. intros _ c1 R1.
  set (a1 := Queue _ _ _) in *. clearbody a1. pose proof Hq as Hq0. unfold q_read in Hq.
  destruct (_ && _) eqn:Hg; [|done]. apply andb_true_iff in Hg as [Hg1%Z.leb_le Hg2%Z.ltb_lt].
  apply wp_seq. eapply wp_mono; [by apply read_locked_refines|]. intros rr c2 [He R2]. cbn beta.
  destruct (bool_decide (q_bytes a1 = [])) eqn:Hd.
  - apply bool_decide_eq_true in Hd. unfold q_take, q_length in He, R2. rewrite Hd in He, R2. cbn [length] in He, R2.
    rewrite Z.min_r, drop_nil in R2 by lia. rewrite Z.min_r in He by lia. injection He as He1 He2. rewrite He1, Z.eqb_refl. cbn [snd] in R2.
    eapply read_retry_refines; [|exact Hq0]. destruct a1 as [sz l w]. cbn in Hd, R2 |- *. by rewrite Hd.
  - apply bool_decide_eq_false in Hd. destruct (buflen =? 0) eqn:Hz; [done|]. apply Z.eqb_neq in Hz.
    assert (Hq' : q_take buf buflen a1 = (r, a')) by congruence.
    destruct (q_take_some buf buflen a1) as (n & l & Hn & Hn0); [done|lia|].
    rewrite Hn in He. injection He as <- <-. replace (fst rr =? 0) with false by lia. apply wp_ret.
    rewrite Hq' in Hn, R2. by rewrite <- Hn.
Qed.

Lemma read_char_retry_refines c a cur fuel r a' :
  refines c a -> q_read cur true 1 true a = Some (r, a') ->
  wp (cbuf_read_char_retry (S fuel) cur) (fun x c' => x = r /\ refines c' a') c.
Proof.
  intros R Hq. unfold q_read in Hq. cbn [Z.leb Z.ltb Z.eqb andb] in Hq. cbn [cbuf_read_char_retry].
  apply wp_seq. eapply wp_mono; [by apply wait_refines|]. cbn beta. intros w c1.
  destruct (bool_decide (q_bytes a = [])) eqn:Hd.
  - change ((0 <=? 1) && (1 <? 2 ^ 32)) with true in Hq. injection Hq as <- <-. intros [-> R1]. by apply wp_ret.
  - intros [-> ->]. apply bool_decide_eq_false in Hd. change ((0 <=? 1) && (1 <? 2 ^ 32)) with true in Hq.
    assert (Hq' : q_take true 1 a = (r, a')) by congruence. destruct (q_take_some true 1 a) as (n & l & Hn & Hn0); [done|lia|].
    apply wp_seq. eapply wp_mono; [by apply read_char_locked_refines|]. intros rr c2 [He R2]. rewrite Hn in He. injection He as <- <-.
    replace (fst rr =? 0) with false by lia. apply wp_ret. rewrite Hq' in Hn, R2. by rewrite <- Hn.
Qed.

(** A byte is read as a buffer of one byte is. *)
Lemma read_char_refines c a cur block r a' :
  refines c a -> q_read cur true 1 block a = Some (r, a') ->
  wp (cbuf_read_char cur block) (fun x c' => x = r /\ refines c' a') c.
Proof.
  intros R Hq. unfold cbuf_read_char, RETRY_TURNS. destruct block; [by eapply read_char_retry_refines|].
  unfold q_read in Hq. change ((0 <=? 1) && (1 <? 2 ^ 32)) with true in Hq. assert (Hq' : q_take true 1 a = (r, a')) by congruence.
  apply wp_seq. eapply wp_mono; [by apply read_char_locked_refines|]. intros rr c2 [He R2]. apply wp_ret. by rewrite Hq' in He, R2.
Qed.

Lemma read_char_resume_refines c a cur r a' :
  refines c a -> q_resume cur true 1 a = Some (r, a') ->
  wp (cbuf_read_char_resume cur) (fun x c' => x = r /\ refines c' a') c.
Proof.
  intros R Hq. unfold q_resume in Hq. destruct (waitq_resume cur (q_waitq a)) as [rw|] eqn:Hrw; [cbn in Hq|done].
  unfold cbuf_read_char_resume. apply wp_seq. eapply wp_mono; [by eapply woken_refines|]. cbn beta. intros _ c1 R1.
  set (a1 := Queue _ _ _) in *. clearbody a1. pose proof Hq as Hq0. unfold q_read in Hq. change ((0 <=? 1) && (1 <? 2 ^ 32)) with true in Hq.
  apply wp_seq. eapply wp_mono; [by apply read_char_locked_refines|]. intros rr c2 [He R2]. cbn beta.
  destruct (bool_decide (q_bytes a1 = [])) eqn:Hd.
  - apply bool_decide_eq_true in Hd. unfold q_take, q_length in He, R2. rewrite Hd in He, R2. cbn in He, R2.
    injection He as He1 He2. rewrite He1, Z.eqb_refl.
    eapply read_char_retry_refines; [|exact Hq0]. destruct a1 as [sz l w]. cbn in Hd, R2 |- *. by rewrite Hd.
  - apply bool_decide_eq_false in Hd. assert (Hq' : q_take true 1 a1 = (r, a')) by (cbn [Z.eqb] in Hq; congruence).
    destruct (q_take_some true 1 a1) as (n & l & Hn & Hn0); [done|lia|].
    rewrite Hn in He. injection He as <- <-. replace (fst rr =? 0) with false by lia. apply wp_ret.
    rewrite Hq' in Hn, R2. by rewrite <- Hn.
Qed.

(** What a caller finds in the regions of cbuf_peek *)
Definition region (c : cbuf_t) (v : iovec_t) : list Z :=
  match iov_base v with Some b => slice (Z.to_nat b) (Z.to_nat (iov_len v)) (cb_buf c) | None => [] end.

Definition peek_bytes : CM (Z * list Z) :=
  let* r := cbuf_peek in
  let* c := get in
  ret (fst r, region c (fst (snd r)) ++ region c (snd (snd r))).

Lemma peek_refines c a :
  refines c a -> wp peek_bytes (fun r c' => r = (q_length a, q_bytes a) /\ c' = c) c.
Proof.
  intros R. pose proof (refines_used c a R) as Hu. pose proof R as [G Em Hs Hb Hw].
  pose proof (pending_short c G). pose proof (size_range c G). pose proof (length_pending c G) as Hlp.
  destruct (g_head _ G), (g_tail _ G). pose proof (g_buf _ G) as Hlb.
  assert (Hsz : cbuf_size c = size_of c) by (unfold cbuf_size, size_of; apply (valpow2_pow _ (g_log _ G))).
  assert (Hq : q_length a = Z.of_nat (length (pending c))) by (unfold q_length; by rewrite Hb).
  unfold peek_bytes, cbuf_peek. apply wp_seq, wp_seq, wp_get. rewrite Hsz, Hu.
  apply wp_seq, wp_assert; [by apply Z.ltb_lt|]. apply wp_seq, wp_assert; [apply Z.leb_le; lia|].
  assert (Hsmall : size_of c <= 2 ^ 31) by (apply Z.pow_le_mono_r; pose proof (g_log _ G); lia).
  rewrite (u32_small (q_length a + _)) by lia.
  destruct (size_of c <? q_length a + cb_tail c) eqn:Hc; [apply Z.ltb_lt in Hc|apply Z.ltb_ge in Hc].
  - rewrite (u32_small (size_of c - _)) by lia. rewrite u32_small by lia.
    apply wp_ret, wp_seq, wp_get. cbn [fst snd]. unfold region; cbn [iov_base iov_len]. replace (q_length a =? 0) with false by lia. cbn [negb].
    apply wp_ret. split; [|done]. f_equal. rewrite <- Hb. unfold pending.
    destruct (cb_tail c <=? cb_head c) eqn:Hth; [apply Z.leb_le in Hth; lia|apply Z.leb_gt in Hth].
    unfold slice. rewrite (take_ge (drop _ _)) by (rewrite length_drop; lia). f_equal. cbn. f_equal. lia.
  - apply wp_ret, wp_seq, wp_get. cbn [fst snd]. unfold region; cbn [iov_base iov_len]. apply wp_ret. split; [|done]. f_equal.
    rewrite app_nil_r, <- Hb. unfold pending.
    destruct (q_length a =? 0) eqn:Hz; cbn [negb].
    { apply Z.eqb_eq in Hz. destruct (cb_tail c <=? cb_head c) eqn:Hth; [apply Z.leb_le in Hth|apply Z.leb_gt in Hth; lia].
      replace (Z.to_nat (cb_head c) - Z.to_nat (cb_tail c))%nat with 0%nat by lia. done. }
    destruct (cb_tail c <=? cb_head c) eqn:Hth; [apply Z.leb_le in Hth|apply Z.leb_gt in Hth].
    + unfold slice. f_equal. lia.
    + replace (Z.to_nat (cb_head c)) with 0%nat by lia. rewrite take_0, app_nil_r. unfold slice. apply take_ge. rewrite length_drop. lia.
Qed.

Definition q_reset (a : queue) : queue := Queue (q_size a) [] (q_waitq a).

Lemma reset_refines c a : refines c a -> wp cbuf_reset (fun _ c' => refines c' (q_reset a)) c.
Proof.
  intros R. pose proof R as [G Em Hs Hb Hw]. pose proof (size_range c G). pose proof (pending_short c G).
  unfold cbuf_reset. apply wp_seq, wp_get, wp_seq.
  assert (Hsz : cbuf_size c = size_of c) by (unfold cbuf_size, size_of; apply (valpow2_pow _ (g_log _ G))). rewrite Hsz.
  eapply wp_mono; [apply read_locked_refines; [exact R|lia]|]. intros r c1 [_ R1]. cbn beta. apply wp_ret.
  unfold q_take in R1. cbn [snd] in R1. rewrite drop_ge in R1; [exact R1|]. unfold q_length. rewrite <- Hb. lia.
Qed.

(** ** Sequences of calls *)

Inductive cbuf_call :=
| Write (buf : option (list Z)) (len : Z)
| Write_char (ch : Z)
| Read (cur : tid) (buf : bool) (buflen : Z) (block : bool)
| Read_resume (cur : tid) (buf : bool) (buflen : Z)
| Read_char (cur : tid) (block : bool)
| Read_char_resume (cur : tid)
| Peek
| Space
| Reset_all.

Inductive reply :=
| Count (n : Z)
| Got (r : read_result)
| Seen (n : Z) (bytes : list Z)
| Nothing.

Definition run_call (op : cbuf_call) : CM reply :=
  match op with
  | Write buf len => let* n := cbuf_write buf len in ret (Count n)
  | Write_char ch => let* n := cbuf_write_char ch in ret (Count n)
  | Read cur buf buflen block => let* r := cbuf_read cur buf buflen block in ret (Got r)
  | Read_resume cur buf buflen => let* r := cbuf_read_resume cur buf buflen in ret (Got r)
  | Read_char cur block => let* r := cbuf_read_char cur block in ret (Got r)
  | Read_char_resume cur => let* r := cbuf_read_char_resume cur in ret (Got r)
  | Peek => let* r := peek_bytes in ret (Seen (fst r) (snd r))
  | Space => let* c := get in ret (Count (cbuf_space_avail c))
  | Reset_all => cbuf_reset ;; ret Nothing
  end.

Definition q_call (op : cbuf_call) (a : queue) : option (reply * queue) :=
  match op with
  | Write buf len => (fun r => (Count (fst r), snd r)) <$> q_write buf len a
  | Write_char ch => Some (Count (fst (q_write_char ch a)), snd (q_write_char ch a))
  | Read cur buf buflen block => (fun r => (Got (fst r), snd r)) <$> q_read cur buf buflen block a
  | Read_resume cur buf buflen => (fun r => (Got (fst r), snd r)) <$> q_resume cur buf buflen a
  | Read_char cur block => (fun r => (Got (fst r), snd r)) <$> q_read cur true 1 block a
  | Read_char_resume cur => (fun r => (Got (fst r), snd r)) <$> q_resume cur true 1 a
  | Peek => Some (Seen (q_length a) (q_bytes a), a)
  | Space => Some (Count (q_space a), a)
  | Reset_all => Some (Nothing, q_reset a)
  end.

Fixpoint run_calls (ops : list cbuf_call) : CM (list reply) :=
  match ops with
  | [] => ret []
  | op :: ops => let* r := run_call op in let* rs := run_calls ops in ret (r :: rs)
  end.

(** [None]: a call that the buffer does not allow. *)
Fixpoint q_calls (ops : list cbuf_call) (a : queue) : option (list reply * queue) :=
  match ops with
  | [] => Some ([], a)
  | op :: ops =>
      ra ← q_call op a;
      rsa ← q_calls ops (snd ra);
      Some (fst ra :: fst rsa, snd rsa)
  end.

Lemma call_refines op c a r a' :
  refines c a -> q_call op a = Some (r, a') -> wp (run_call op) (fun x c' => x = r /\ refines c' a') c.
Proof.
  intros R Hq.
  assert (Hwrap : forall {A} (m : CM A) (f : A -> reply) (o : option (A * queue)),
    (fun r => (f (fst r), snd r)) <$> o = Some (r, a') ->
    (forall x y, o = Some (x, y) -> wp m (fun z c' => z = x /\ refines c' y) c) ->
    wp (let* z := m in ret (f z)) (fun x c' => x = r /\ refines c' a') c).
  { intros A m f [[x y]|]; [|done]. intros [= <- <-] Hm. apply wp_seq. eapply wp_mono; [by apply Hm|].
    intros z c1 [-> R1]. by apply wp_ret. }
  destruct op; cbn [q_call run_call] in *.
  - eapply Hwrap; [exact Hq|]. intros x y. by apply write_refines.
  - injection Hq as <- <-. apply wp_seq. eapply wp_mono; [by apply write_char_refines|]. intros n c1 [-> R1]. by apply wp_ret.
  - eapply Hwrap; [exact Hq|]. intros x y. by apply read_refines.
  - eapply Hwrap; [exact Hq|]. intros x y. by apply read_resume_refines.
  - eapply Hwrap; [exact Hq|]. intros x y. by apply read_char_refines.
  - eapply Hwrap; [exact Hq|]. intros x y. by apply read_char_resume_refines.
  - injection Hq as <- <-. apply wp_seq. eapply wp_mono; [by apply peek_refines|]. intros z c1 [-> ->]. by apply wp_ret.
  - injection Hq as <- <-. apply wp_seq, wp_get, wp_ret. by rewrite (refines_avail c a).
  - injection Hq as <- <-. apply wp_seq. eapply wp_mono; [by apply reset_refines|]. intros z c1 R1. by apply wp_ret.
Qed.

Lemma calls_refine ops : forall c a rs a',
  refines c a -> q_calls ops a = Some (rs, a') -> wp (run_calls ops) (fun x c' => x = rs /\ refines c' a') c.
Proof.
  induction ops as [|op ops IH]; intros c a rs a' R Hq; cbn [q_calls run_calls] in *.
  { injection Hq as <- <-. by apply wp_ret. }
  destruct (q_call op a) as [[r a1]|] eqn:Hop; [cbn in Hq|done].
  destruct (q_calls ops a1) as [[rs1 a2]|] eqn:Hops; [cbn in Hq|done]. injection Hq as <- <-.
  apply wp_seq. eapply wp_mono; [by eapply call_refines|]. intros x c1 [-> R1].
  apply wp_seq. eapply wp_mono; [by eapply IH|]. intros y c2 [-> R2]. by apply wp_ret.
Qed.

Lemma initialize_refines len buf c0 :
  0 < len < 2 ^ 32 -> ispow2 len = true -> Z.of_nat (length buf) = len ->
  wp (cbuf_initialize_etc len buf) (fun _ c => refines c (Queue len [] waitq_init)) c0.
Proof.
  intros Hl Hp Hb. pose proof (ispow2_pow len Hl Hp) as Hpow.
  assert (0 <= log2_uint len < 32) as Hlog.
  { unfold log2_uint. case_match; [lia|]. split; [apply Z.log2_nonneg|]. apply Z.log2_lt_pow2; lia. }
  unfold cbuf_initialize_etc. apply wp_seq, wp_assert; [apply Z.ltb_lt; lia|]. apply wp_seq, wp_assert; [done|]. apply wp_put.
  constructor; cbn; [constructor; unfold size_of; cbn; [done|..]; rewrite <- ?Hpow; lia|by constructor|done|done|done].
Qed.

(** C29: A circular buffer is a first-in first-out queue of at most [len - 1] bytes:
    whatever calls that the queue allows are made on it, by however many readers, every
    one returns what the queue would answer (how many bytes a write stored, the oldest
    bytes for a read, all of them in the two regions of cbuf_peek), the waits included,
    and no reader waits while there is a byte.  Not allowed ([q_calls] is [None]) are a
    write of [len] bytes or more (which fails an assertion) or from a source that is too
    short, a blocking read of no bytes while there are some (which never returns), and
    going on with a read in a thread that was not woken. *)
Theorem cbuf_refines len buf c0 ops rs a :
  0 < len < 2 ^ 32 -> ispow2 len = true -> Z.of_nat (length buf) = len ->
  q_calls ops (Queue len [] waitq_init) = Some (rs, a) ->
  exists c, (cbuf_initialize_etc len buf ;; run_calls ops) c0 = (Ret rs, c) /\
    pending c = q_bytes a /\ event_waitq (cb_event c) = q_waitq a /\
    (pending c <> [] -> waiting (event_waitq (cb_event c)) = []).
Proof.
  intros Hl Hp Hb Hq.
  assert (wp (cbuf_initialize_etc len buf ;; run_calls ops) (fun x c => x = rs /\ refines c a) c0) as H.
  { apply wp_seq. eapply wp_mono; [by apply initialize_refines|]. intros [] c R. by eapply calls_refine. }
  apply wp_run in H as (x & c & Hrun & -> & R). exists c. destruct R as [G Em Hs Hbs Hw].
  split_and!; [done..|]. intros Hne. apply Em. rewrite event_match_empty by done. by rewrite bool_decide_eq_false_2.
Qed.

(** A reader of an empty buffer waits; a write of nine bytes into eight wakes it, the
    read wraps around the end of the memory. *)
Definition sample_calls : list cbuf_call :=
  [Write (Some [1; 2; 3; 4; 5]) 5; Read 1%nat true 4 true; Read_char 1%nat true; Read 2%nat true 4 true;
   Write (Some [6; 7; 8; 9; 10; 11; 12]) 7; Write_char 13; Peek; Read_resume 2%nat true 9; Space].

Lemma cbuf_refines_witness :
  exists c, (cbuf_initialize_etc 8 (replicate 8 0) ;; run_calls sample_calls) (Cbuf 0 0 0 [] (event_init false 0)) =
      (Ret [Count 5; Got (Read_done 4 [1; 2; 3; 4]); Got (Read_done 1 [5]); Got Read_waits; Count 7; Count 0;
            Seen 7 [6; 7; 8; 9; 10; 11; 12]; Got (Read_done 7 [6; 7; 8; 9; 10; 11; 12]); Count 7], c) /\
    pending c = [] /\ event_waitq (cb_event c) = waitq_init /\
    (pending c <> [] -> waiting (event_waitq (cb_event c)) = []).
Proof.
  apply (cbuf_refines 8 (replicate 8 0) (Cbuf 0 0 0 [] (event_init false 0)) sample_calls _ (Queue 8 [] waitq_init));
    [lia|reflexivity|reflexivity|vm_compute; reflexivity].
Defined.

(** A read of nothing that may block does not return when there are bytes: it looks
    for them for ever. *)
Theorem cbuf_read_nothing_spins c a cur buf fuel :
  refines c a -> q_bytes a <> [] -> fst (cbuf_read_retry fuel cur buf 0 c) = Hang.
Proof.
  intros R Hne. revert c R. induction fuel as [|fuel IH]; intros c R; [done|]. cbn [cbuf_read_retry].
  pose proof (wait_refines c a cur R) as Hw. apply wp_run in Hw as (r & c1 & Hrun & Hr).
  rewrite bool_decide_eq_false_2 in Hr by done. destruct Hr as [-> ->]. rewrite (bind_run _ _ _ _ _ Hrun).
  pose proof (read_locked_refines c a buf 0 R ltac:(lia)) as Hl. apply wp_run in Hl as (rr & c2 & Hrun2 & He & R2).
  rewrite (bind_run _ _ _ _ _ Hrun2). unfold q_take in He, R2.
  assert (Z.min 0 (q_length a) = 0) as Hz by (unfold q_length; lia). rewrite Hz in He, R2.
  injection He as -> _. cbn in R2. rewrite drop_0 in R2. apply IH. by destruct a.
Qed.
