(* ===== verification/Bio.v ===== *)
(** * lib/bio: block devices, their windows, and memory as a device

    bio.c, subdev.c and mem.c.  Devices are in a map from their addresses; a function
    pointer of a device is the name of the function it points to.  A driver of a real
    disk fills in the two block hooks only and is a class [Driver].  A call on a
    subdevice calls its parent, so these calls have the nesting depth as fuel, and
    the number of devices is enough ([BioProps]).  The list of devices is read and
    changed under its mutex, each time as one step.

    A read answers its return code and the bytes it stored from the start of the
    caller's buffer; the buffer's address decides about alignment only.  The buffers
    of block calls are objects of their callers, so DEBUG_ASSERT(buf) holds there. *)

From stdpp Require Import prelude list gmap.
From Stdlib Require Import ZArith Lia.
From S2P Require Import Prelude Pow2 Timer Kernel.

Open Scope Z_scope.
Open Scope lk_scope.

Definition ERR_NOT_FOUND : Z := -2.
Definition ERR_NO_MEMORY : Z := -5.
Definition ERR_IO : Z := -20.
Definition ERR_NOT_SUPPORTED : Z := -24.

Definition NULL : Z := 0.
Definition CACHE_LINE : Z := 32.
Definition BLOCKSIZE : Z := 512.
Definition BIO_FLAGS_NONE : Z := 0.
Definition BIO_FLAG_CACHE_ALIGNED_READS : Z := 1.
Definition BIO_FLAG_CACHE_ALIGNED_WRITES : Z := 2.

(** ** Data *)

Record bio_erase_geometry_info := Erase_geometry { geo_start : Z; geo_size : Z; geo_erase_size : Z; geo_erase_shift : Z }.

Inductive byte_hook := Default_bytes | Mem_bytes | Subdev_bytes.
Inductive block_hook := Default_blocks | Mem_blocks | Subdev_blocks | Driver_blocks.
Inductive erase_hook := Default_erase | Subdev_erase.

(** What follows bdev_t in the object: mem_bdev_t, subdev_t or a driver's own *)
Inductive private :=
| Mem_bdev (ptr : Z)
| Subdev (parent : Z) (offset : Z)
| Driver_private.

(** [geometry] is [] when there is none; a freed name is [None]. *)
Record bdev := Bdev {
  ref : Z;
  name : option (list Z);
  total_size : Z;
  block_size : Z;
  block_shift : Z;
  block_count : Z;
  geometry : list bio_erase_geometry_info;
  erase_byte : Z;
  flags : Z;
  dev_read : byte_hook;
  dev_read_block : block_hook;
  dev_write : byte_hook;
  dev_write_block : block_hook;
  dev_erase : erase_hook;
  dev_close : bool;
  priv : private
}.

(** A driver's read_block and write_block, by the device they are called on *)
Class Driver (D : Type) := {
  drv_read_block : Z -> Z -> Z -> D -> (Z * list Z) * D;
  drv_write_block : Z -> list Z -> Z -> Z -> D -> Z * D
}.

Section bio.
Context {D : Type} {HD : Driver D}.

(** [ram] has the memory behind memory devices, by its address. *)
Record world := World {
  bdevs : list Z;
  devs : gmap Z bdev;
  ram : gmap Z (list Z);
  disk : D
}.

Definition BM (A : Type) : Type := M world Empty_set A.
(** Code with a [goto err] that returns what it is given *)
Definition IM (A B : Type) : Type := M world A B.

Definition catch {A} (c : IM A A) : BM A :=
  fun s => match c s with
           | (Ret a, s') | (Err a, s') => (Ret a, s')
           | (Panic, s') => (Panic, s') | (Fault, s') => (Fault, s') | (Hang, s') => (Hang, s')
           end.

Definition lift {A B} (c : BM B) : IM A B :=
  fun s => match c s with
           | (Ret a, s') => (Ret a, s')
           | (Err e, s') => match e with end
           | (Panic, s') => (Panic, s') | (Fault, s') => (Fault, s') | (Hang, s') => (Hang, s')
           end.

Definition get_dev (d : Z) : BM bdev := let* w := get in deref (devs w !! d).
Definition put_dev (d : Z) (dev : bdev) : BM unit := modify (fun w => World (bdevs w) (<[d := dev]> (devs w)) (ram w) (disk w)).
Definition set_bdevs (l : list Z) : BM unit := modify (fun w => World l (devs w) (ram w) (disk w)).
Definition set_ram (m : gmap Z (list Z)) : BM unit := modify (fun w => World (bdevs w) (devs w) m (disk w)).

Definition with_ref (r : Z) (b : bdev) : bdev :=
  Bdev r (name b) (total_size b) (block_size b) (block_shift b) (block_count b) (geometry b) (erase_byte b) (flags b)
    (dev_read b) (dev_read_block b) (dev_write b) (dev_write_block b) (dev_erase b) (dev_close b) (priv b).
Definition with_name (n : option (list Z)) (b : bdev) : bdev :=
  Bdev (ref b) n (total_size b) (block_size b) (block_shift b) (block_count b) (geometry b) (erase_byte b) (flags b)
    (dev_read b) (dev_read_block b) (dev_write b) (dev_write_block b) (dev_erase b) (dev_close b) (priv b).
Definition with_priv (p : private) (b : bdev) : bdev :=
  Bdev (ref b) (name b) (total_size b) (block_size b) (block_shift b) (block_count b) (geometry b) (erase_byte b) (flags b)
    (dev_read b) (dev_read_block b) (dev_write b) (dev_write_block b) (dev_erase b) (dev_close b) p.

Definition depth (w : world) : nat := S (size (devs w)).

(** ** Ranges *)

Definition bio_trim_range (dev : bdev) (offset len : Z) : Z :=
  if offset <? 0 then 0
  else if total_size dev <=? offset then 0
  else if len =? 0 then 0
  else if total_size dev <? offset + len then u32 (total_size dev - offset)
  else len.

Definition bio_trim_block_range (dev : bdev) (block count : Z) : Z :=
  if block_count dev <? block then 0
  else if count =? 0 then 0
  else if block_count dev <? u32 (block + count) then u32 (block_count dev - block)
  else count.

(** uint64_t arithmetic, with its assertions *)
Definition bio_contains_range (container_start container_len contained_start contained_len : Z) : BM bool :=
  let container_end := (container_start + container_len) mod 2 ^ 64 in
  let contained_end := (contained_start + contained_len) mod 2 ^ 64 in
  assert_ (container_start <=? container_end) ;;
  assert_ (contained_start <=? contained_end) ;;
  ret ((container_start <=? contained_start) && (contained_end <=? container_end)).

Definition bio_does_overlap (start1 len1 start2 len2 : Z) : BM bool :=
  let end1 := (start1 + len1) mod 2 ^ 64 in
  let end2 := (start2 + len2) mod 2 ^ 64 in
  assert_ (start1 <=? end1) ;;
  assert_ (start2 <=? end2) ;;
  ret ((start2 <=? start1) && (start1 <? end2) || (start1 <=? start2) && (start2 <? end1)).

(** ** Blocks *)

(** memcpy from and to the memory of a memory device *)
Definition ram_read (ptr off len : Z) : BM (list Z) :=
  let* w := get in
  let* m := deref (ram w !! ptr) in
  if off + len <=? Z.of_nat (length m) then ret (slice (Z.to_nat off) (Z.to_nat len) m) else fault.

Definition ram_write (ptr off : Z) (src : list Z) (len : Z) : BM unit :=
  let* w := get in
  let* m := deref (ram w !! ptr) in
  if (off + len <=? Z.of_nat (length m)) && (len <=? Z.of_nat (length src)) then
    set_ram (<[ptr := splice (Z.to_nat off) (take (Z.to_nat len) src) m]> (ram w))
  else fault.

Definition mem_bdev_read_block (dev : bdev) (block count : Z) : BM (Z * list Z) :=
  match priv dev with
  | Mem_bdev ptr =>
      let* bytes := ram_read ptr (u32 (block * BLOCKSIZE)) (u32 (count * BLOCKSIZE)) in
      ret (s32 (count * BLOCKSIZE), bytes)
  | _ => fault
  end.

Definition mem_bdev_write_block (dev : bdev) (src : list Z) (block count : Z) : BM Z :=
  match priv dev with
  | Mem_bdev ptr =>
      ram_write ptr (u32 (block * BLOCKSIZE)) src (u32 (count * BLOCKSIZE)) ;;
      ret (s32 (count * BLOCKSIZE))
  | _ => fault
  end.

Definition subdev_read_block (bio_read_block : Z -> Z -> Z -> BM (Z * list Z)) (dev : bdev) (block count : Z) : BM (Z * list Z) :=
  match priv dev with Subdev parent off => bio_read_block parent (u32 (block + off)) count | _ => fault end.

Definition subdev_write_block (bio_write_block : Z -> list Z -> Z -> Z -> BM Z) (dev : bdev) (src : list Z) (block count : Z) : BM Z :=
  match priv dev with Subdev parent off => bio_write_block parent src (u32 (block + off)) count | _ => fault end.

Definition bio_default_read_block : BM (Z * list Z) := ret (ERR_NOT_SUPPORTED, []).
Definition bio_default_write_block : BM Z := ret ERR_NOT_SUPPORTED.

Definition driver_read_block (d block count : Z) : BM (Z * list Z) :=
  fun w => let '(r, dk) := drv_read_block d block count (disk w) in (Ret r, World (bdevs w) (devs w) (ram w) dk).
Definition driver_write_block (d : Z) (src : list Z) (block count : Z) : BM Z :=
  fun w => let '(r, dk) := drv_write_block d src block count (disk w) in (Ret r, World (bdevs w) (devs w) (ram w) dk).

Fixpoint bio_read_block_n (fuel : nat) (d block count : Z) : BM (Z * list Z) :=
  match fuel with
  | O => hang
  | S fuel =>
      let* dev := get_dev d in
      assert_ (0 <? ref dev) ;;
      let count := bio_trim_block_range dev block count in
      if count =? 0 then ret (0, [])
      else
        match dev_read_block dev with
        | Default_blocks => bio_default_read_block
        | Mem_blocks => mem_bdev_read_block dev block count
        | Subdev_blocks => subdev_read_block (bio_read_block_n fuel) dev block count
        | Driver_blocks => driver_read_block d block count
        end
  end.

Fixpoint bio_write_block_n (fuel : nat) (d : Z) (src : list Z) (block count : Z) : BM Z :=
  match fuel with
  | O => hang
  | S fuel =>
      let* dev := get_dev d in
      assert_ (0 <? ref dev) ;;
      let count := bio_trim_block_range dev block count in
      if count =? 0 then ret 0
      else
        match dev_write_block dev with
        | Default_blocks => bio_default_write_block
        | Mem_blocks => mem_bdev_write_block dev src block count
        | Subdev_blocks => subdev_write_block (bio_write_block_n fuel) dev src block count
        | Driver_blocks => driver_write_block d src block count
        end
  end.

Definition bio_read_block (d block count : Z) : BM (Z * list Z) :=
  let* w := get in bio_read_block_n (depth w) d block count.
Definition bio_write_block (d : Z) (src : list Z) (block count : Z) : BM Z :=
  let* w := get in bio_write_block_n (depth w) d src block count.

(** ** Bytes, a block at a time *)

(** What every transfer of blocks is followed by: [out] is what the caller's buffer
    holds by then. *)
Definition checked (err : Z) (out : list Z) (want : Z) : IM (Z * list Z) unit :=
  if err <? 0 then fail (err, out)
  else if negb (u32 err =? want) then fail (ERR_IO, out)
  else ret tt.

(** memcpy from the temporary block *)
Definition from_temp {A} (temp : list Z) (off len : Z) : IM A (list Z) :=
  if off + len <=? Z.of_nat (length temp) then ret (slice (Z.to_nat off) (Z.to_nat len) temp) else fault.

Definition requires_alignment (dev : bdev) (flag buf : Z) : bool :=
  negb (Z.land (flags dev) flag =? 0) && negb (buf mod CACHE_LINE =? 0).

(** The state of a transfer: [len] bytes are left, [bytes_read] are done. *)
Record progress := Progress { p_buf : Z; p_len : Z; p_done : Z; p_block : Z; p_out : list Z }.

Definition read_first (d : Z) (dev : bdev) (buf offset len block : Z) : IM (Z * list Z) progress :=
  if negb (offset mod block_size dev =? 0) then
    let* r := lift (bio_read_block d block 1) in
    checked (fst r) [] (block_size dev) ;;
    let block_offset := u32 (offset mod block_size dev) in
    let tocopy := Z.min (u32 (block_size dev - block_offset)) len in
    let* bytes := from_temp (snd r) block_offset tocopy in
    ret (Progress (u32 (buf + tocopy)) (u32 (len - tocopy)) tocopy (u32 (block + 1)) bytes)
  else ret (Progress buf len 0 block []).

Fixpoint read_singly (fuel : nat) (d : Z) (dev : bdev) (p : progress) : IM (Z * list Z) progress :=
  match fuel with
  | O => hang
  | S fuel =>
      if block_size dev <=? p_len p then
        let* r := lift (bio_read_block d (p_block p) 1) in
        checked (fst r) (p_out p) (block_size dev) ;;
        let* bytes := from_temp (snd r) 0 (block_size dev) in
        read_singly fuel d dev
          (Progress (u32 (p_buf p + block_size dev)) (u32 (p_len p - block_size dev)) (s32 (p_done p + block_size dev))
             (u32 (p_block p + 1)) (p_out p ++ bytes))
      else ret p
  end.

Definition read_run (d : Z) (dev : bdev) (p : progress) : IM (Z * list Z) progress :=
  let num_blocks := divpow2 (p_len p) (block_shift dev) in
  let* r := lift (bio_read_block d (p_block p) num_blocks) in
  checked (fst r) (p_out p ++ snd r) (u32 (block_size dev * num_blocks)) ;;
  ret (Progress (u32 (p_buf p + fst r)) (u32 (p_len p - fst r)) (s32 (p_done p + fst r)) (u32 (p_block p + num_blocks)) (p_out p ++ snd r)).

(** The turns of a loop over whole blocks, and the look that ends it *)
Definition block_turns (dev : bdev) (len : Z) : nat := S (Z.to_nat (len / block_size dev)).

Definition bio_default_read (d : Z) (dev : bdev) (buf offset len : Z) : BM (Z * list Z) :=
  catch (
    let block := u32 (offset / block_size dev) in
    let* p := read_first d dev buf offset len block in
    let* p := (if requires_alignment dev BIO_FLAG_CACHE_ALIGNED_READS (p_buf p)
               then read_singly (block_turns dev (p_len p)) d dev p
               else read_run d dev p) in
    if 0 <? p_len p then
      let* r := lift (bio_read_block d (p_block p) 1) in
      checked (fst r) (p_out p) (block_size dev) ;;
      let* bytes := from_temp (snd r) 0 (p_len p) in
      ret (s32 (p_done p + p_len p), p_out p ++ bytes)
    else ret (p_done p, p_out p)).

(** memcpy of [len] bytes of the caller's buffer *)
Definition from_source {A} (src : list Z) (len : Z) : IM A (list Z) :=
  if len <=? Z.of_nat (length src) then ret (take (Z.to_nat len) src) else fault.

Definition checked_write (err want : Z) : IM Z unit :=
  if err <? 0 then fail err else if negb (u32 err =? want) then fail ERR_IO else ret tt.

(** Reads a block, changes [bytes] of it at [off], and writes it back. *)
Definition rewrite_block (d : Z) (dev : bdev) (block off : Z) (bytes : list Z) : IM Z unit :=
  let* r := lift (bio_read_block d block 1) in
  checked_write (fst r) (block_size dev) ;;
  (if off + Z.of_nat (length bytes) <=? Z.of_nat (length (snd r)) then ret tt else fault) ;;
  let* err := lift (bio_write_block d (splice (Z.to_nat off) bytes (snd r)) block 1) in
  checked_write err (block_size dev).

(** [p_out] is what is left of the source. *)
Definition write_first (d : Z) (dev : bdev) (buf : Z) (src : list Z) (offset len block : Z) : IM Z progress :=
  if negb (offset mod block_size dev =? 0) then
    let block_offset := u32 (offset mod block_size dev) in
    let tocopy := Z.min (u32 (block_size dev - block_offset)) len in
    let* bytes := from_source src tocopy in
    rewrite_block d dev block block_offset bytes ;;
    ret (Progress (u32 (buf + tocopy)) (u32 (len - tocopy)) tocopy (u32 (block + 1)) (drop (Z.to_nat tocopy) src))
  else ret (Progress buf len 0 block src).

Fixpoint write_singly (fuel : nat) (d : Z) (dev : bdev) (p : progress) : IM Z progress :=
  match fuel with
  | O => hang
  | S fuel =>
      if block_size dev <=? p_len p then
        let* temp := from_source (p_out p) (block_size dev) in
        let* err := lift (bio_write_block d temp (p_block p) 1) in
        checked_write err (block_size dev) ;;
        write_singly fuel d dev
          (Progress (u32 (p_buf p + block_size dev)) (u32 (p_len p - block_size dev)) (s32 (p_done p + block_size dev))
             (u32 (p_block p + 1)) (drop (Z.to_nat (block_size dev)) (p_out p)))
      else ret p
  end.

Definition write_run (d : Z) (dev : bdev) (p : progress) : IM Z progress :=
  let block_count := divpow2 (p_len p) (block_shift dev) in
  let* err := lift (bio_write_block d (p_out p) (p_block p) block_count) in
  checked_write err (u32 (block_size dev * block_count)) ;;
  assert_ (u32 err =? u32 (block_count * block_size dev)) ;;
  ret (Progress (u32 (p_buf p + err)) (u32 (p_len p - err)) (s32 (p_done p + err)) (u32 (p_block p + block_count))
         (drop (Z.to_nat err) (p_out p))).

Definition bio_default_write (d : Z) (dev : bdev) (buf : Z) (src : list Z) (offset len : Z) : BM Z :=
  catch (
    let block := u32 (offset / block_size dev) in
    let* p := write_first d dev buf src offset len block in
    let* p := (if requires_alignment dev BIO_FLAG_CACHE_ALIGNED_WRITES (p_buf p)
               then write_singly (block_turns dev (p_len p)) d dev p
               else write_run d dev p) in
    if 0 <? p_len p then
      let* bytes := from_source (p_out p) (p_len p) in
      rewrite_block d dev (p_block p) 0 bytes ;;
      ret (s32 (p_done p + p_len p))
    else ret (p_done p)).

Definition mem_bdev_read (dev : bdev) (offset len : Z) : BM (Z * list Z) :=
  match priv dev with
  | Mem_bdev ptr => let* bytes := ram_read ptr offset len in ret (s32 len, bytes)
  | _ => fault
  end.

Definition mem_bdev_write (dev : bdev) (src : list Z) (offset len : Z) : BM Z :=
  match priv dev with
  | Mem_bdev ptr => ram_write ptr offset src len ;; ret (s32 len)
  | _ => fault
  end.

(** Where a byte of a subdevice is in its parent: the product is of 32 bits. *)
Definition subdev_offset (dev : bdev) (off offset : Z) : Z := offset + u32 (off * block_size dev).

Definition subdev_read (bio_read : Z -> Z -> Z -> Z -> BM (Z * list Z)) (dev : bdev) (buf offset len : Z) : BM (Z * list Z) :=
  match priv dev with Subdev parent off => bio_read parent buf (subdev_offset dev off offset) len | _ => fault end.
Definition subdev_write (bio_write : Z -> Z -> list Z -> Z -> Z -> BM Z) (dev : bdev) (buf : Z) (src : list Z) (offset len : Z) : BM Z :=
  match priv dev with Subdev parent off => bio_write parent buf src (subdev_offset dev off offset) len | _ => fault end.

Fixpoint bio_read_n (fuel : nat) (d buf offset len : Z) : BM (Z * list Z) :=
  match fuel with
  | O => hang
  | S fuel =>
      let* dev := get_dev d in
      assert_ (0 <? ref dev) ;;
      assert_ (negb (buf =? NULL)) ;;
      let len := bio_trim_range dev offset len in
      if len =? 0 then ret (0, [])
      else
        match dev_read dev with
        | Default_bytes => bio_default_read d dev buf offset len
        | Mem_bytes => mem_bdev_read dev offset len
        | Subdev_bytes => subdev_read (bio_read_n fuel) dev buf offset len
        end
  end.

Fixpoint bio_write_n (fuel : nat) (d buf : Z) (src : list Z) (offset len : Z) : BM Z :=
  match fuel with
  | O => hang
  | S fuel =>
      let* dev := get_dev d in
      assert_ (0 <? ref dev) ;;
      assert_ (negb (buf =? NULL)) ;;
      let len := bio_trim_range dev offset len in
      if len =? 0 then ret 0
      else
        match dev_write dev with
        | Default_bytes => bio_default_write d dev buf src offset len
        | Mem_bytes => mem_bdev_write dev src offset len
        | Subdev_bytes => subdev_write (bio_write_n fuel) dev buf src offset len
        end
  end.

Definition bio_read (d buf offset len : Z) : BM (Z * list Z) := let* w := get in bio_read_n (depth w) d buf offset len.
Definition bio_write (d buf : Z) (src : list Z) (offset len : Z) : BM Z := let* w := get in bio_write_n (depth w) d buf src offset len.

(** ** Erasing *)

Fixpoint erase_loop (fuel : nat) (d : Z) (dev : bdev) (erase_buf : Z) (pos remaining erased : Z) : BM Z :=
  match fuel with
  | O => hang
  | S fuel =>
      if 0 <? remaining then
        let towrite := Z.min remaining (block_size dev) in
        let* written := bio_write d erase_buf (replicate (Z.to_nat (block_size dev)) (erase_byte dev)) pos towrite in
        if written <? 0 then ret written
        else
          let erased := s32 (erased + written) in
          if u32 written <? towrite then ret erased
          else erase_loop fuel d dev erase_buf (pos + written) (u32 (remaining - written)) erased
      else ret erased
  end.

(** [erase_buf] is the address of its block on the stack, not NULL and aligned. *)
Definition bio_default_erase (d : Z) (dev : bdev) (offset len : Z) : BM Z :=
  erase_loop (S (block_turns dev len)) d dev CACHE_LINE offset len 0.

Definition subdev_erase (bio_erase : Z -> Z -> Z -> BM Z) (dev : bdev) (offset len : Z) : BM Z :=
  match priv dev with Subdev parent off => bio_erase parent (subdev_offset dev off offset) len | _ => fault end.

Fixpoint bio_erase_n (fuel : nat) (d offset len : Z) : BM Z :=
  match fuel with
  | O => hang
  | S fuel =>
      let* dev := get_dev d in
      assert_ (0 <? ref dev) ;;
      let len := bio_trim_range dev offset len in
      if len =? 0 then ret 0
      else
        match dev_erase dev with
        | Default_erase => bio_default_erase d dev offset len
        | Subdev_erase => subdev_erase (bio_erase_n fuel) dev offset len
        end
  end.

Definition bio_erase (d offset len : Z) : BM Z := let* w := get in bio_erase_n (depth w) d offset len.

(** ** References *)

Definition bdev_inc_ref (d : Z) : BM unit := let* dev := get_dev d in put_dev d (with_ref (ref dev + 1) dev).

(** bdev_dec_ref, subdev_close and bio_close, which call each other up the parents.
    What free returns to the heap here is the name only. *)
Definition subdev_close (bio_close : Z -> BM unit) (d : Z) : BM unit :=
  let* dev := get_dev d in
  match priv dev with
  | Subdev parent off =>
      bio_close parent ;;
      let* dev := get_dev d in
      put_dev d (with_priv (Subdev NULL off) dev)
  | _ => fault
  end.

Definition bdev_dec_ref_step (bio_close : Z -> BM unit) (d : Z) : BM unit :=
  let* dev := get_dev d in
  let oldval := ref dev in
  put_dev d (with_ref (oldval - 1) dev) ;;
  if oldval =? 1 then
    let* w := get in
    assert_ (bool_decide (d ∉ bdevs w)) ;;
    (if dev_close dev then subdev_close bio_close d else ret tt) ;;
    let* dev := get_dev d in
    put_dev d (with_name None dev)
  else ret tt.

Fixpoint bio_close_n (fuel : nat) (d : Z) : BM unit :=
  match fuel with
  | O => hang
  | S fuel => assert_ (negb (d =? NULL)) ;; bdev_dec_ref_step (bio_close_n fuel) d
  end.

Definition bio_close (d : Z) : BM unit := let* w := get in bio_close_n (depth w) d.
Definition bdev_dec_ref (d : Z) : BM unit := let* w := get in bdev_dec_ref_step (bio_close_n (depth w)) d.

(** The walk through the list: strcmp of a name that was freed is a fault. *)
Fixpoint find_dev (n : list Z) (l : list Z) : BM Z :=
  match l with
  | [] => ret NULL
  | d :: l =>
      let* dev := get_dev d in
      assert_ (0 <? ref dev) ;;
      let* dn := deref (name dev) in
      if bool_decide (dn = n) then bdev_inc_ref d ;; ret d else find_dev n l
  end.

Definition bio_open (n : list Z) : BM Z := let* w := get in find_dev n (bdevs w).

(** ** Devices come and go *)

(** The checks that an #if DEBUG around them leaves out are not translated. *)
Definition bio_initialize_bdev (n : list Z) (bsize bcount : Z) (geo : list bio_erase_geometry_info) (fl : Z) (p : private) : BM bdev :=
  assert_ (negb (bsize =? 0) && ispow2 bsize) ;;
  let shift := log2_uint bsize in
  ret (Bdev 0 (Some n) (Z.shiftl bcount shift) bsize shift bcount geo 0 fl
         Default_bytes Default_blocks Default_bytes Default_blocks Default_erase false p).

Definition with_hooks (b : byte_hook) (k : block_hook) (e : erase_hook) (close : bool) (byte : Z) (v : bdev) : bdev :=
  Bdev (ref v) (name v) (total_size v) (block_size v) (block_shift v) (block_count v) (geometry v) byte (flags v)
    b k b k e close (priv v).

(** list_add_tail of a node that is linked already would damage the list. *)
Definition bio_register_device (d : Z) : BM unit :=
  bdev_inc_ref d ;;
  let* w := get in
  if bool_decide (d ∈ bdevs w) then fault else set_bdevs (bdevs w ++ [d]).

(** list_delete of a node that is not linked follows NULL. *)
Definition bio_unregister_device (d : Z) : BM unit :=
  let* w := get in
  if bool_decide (d ∈ bdevs w) then
    set_bdevs (filter (fun x => x <> d) (bdevs w)) ;;
    bdev_dec_ref d
  else fault.

(** [d] is what malloc returned, an address where no object is, or NULL; writing
    there is a fault then. *)
Definition place (d : Z) (dev : bdev) : BM unit :=
  let* w := get in
  if (d =? NULL) || bool_decide (is_Some (devs w !! d)) then fault else put_dev d dev.

Definition create_membdev (n : list Z) (ptr len d : Z) : BM Z :=
  let* dev := bio_initialize_bdev n BLOCKSIZE (len / BLOCKSIZE) [] BIO_FLAGS_NONE (Mem_bdev ptr) in
  place d (with_hooks Mem_bytes Mem_blocks Default_erase false (erase_byte dev) dev) ;;
  bio_register_device d ;;
  ret 0.

(** What drivers do: the block hooks are their own. *)
Definition driver_register (n : list Z) (bsize bcount : Z) (geo : list bio_erase_geometry_info) (fl byte d : Z) : BM unit :=
  let* dev := bio_initialize_bdev n bsize bcount geo fl Driver_private in
  place d (with_hooks Default_bytes Driver_blocks Default_erase false byte dev) ;;
  bio_register_device d.

(** The search for the erase region: the last one if none contains the range *)
Fixpoint find_geometry (geo : list bio_erase_geometry_info) (last : option bio_erase_geometry_info) (start len : Z)
  : BM (option bio_erase_geometry_info) :=
  match geo with
  | [] => ret last
  | g :: geo =>
      let* c := bio_contains_range (geo_start g) (geo_size g) start len in
      if c then ret (Some g) else find_geometry geo (Some g) start len
  end.

(** bail: the parent is closed again and [sub] is freed *)
Definition bail (parent err : Z) : BM Z :=
  (if negb (parent =? NULL) then bio_close parent else ret tt) ;; ret err.

(** The erase geometry of the subdevice, or the error *)
Definition sub_geometry (dev : bdev) (startblock count : Z) : BM (option (list bio_erase_geometry_info)) :=
  match geometry dev with
  | [] =>
      let endblock := u32 (startblock + count) in
      ret (if (endblock <? startblock) || (block_count dev <? endblock) then None else Some [])
  | geo =>
      let byte_start := (Z.shiftl startblock (block_shift dev)) mod 2 ^ 64 in
      let byte_size := (Z.shiftl count (block_shift dev)) mod 2 ^ 64 in
      let* g := find_geometry geo None byte_start byte_size in
      match g with
      | None => ret None
      | Some g =>
          let erase_mask := (Z.shiftl 1 (geo_erase_shift g) - 1) mod 2 ^ 64 in
          ret (if negb (Z.land byte_start erase_mask =? 0) || negb (Z.land byte_size erase_mask =? 0) then None
               else Some [Erase_geometry 0 byte_size (geo_erase_size g) (geo_erase_shift g)])
      end
  end.

Definition bio_publish_subdevice (parent_dev subdev : list Z) (startblock count sub : Z) : BM Z :=
  let* parent := bio_open parent_dev in
  if parent =? NULL then bail parent ERR_NOT_FOUND
  else if sub =? NULL then bail parent ERR_NO_MEMORY
  else
    let* pdev := get_dev parent in
    let* geo := sub_geometry pdev startblock count in
    match geo with
    | None => bail parent ERR_INVALID_ARGS
    | Some geo =>
        let* dev := bio_initialize_bdev subdev (block_size pdev) count geo BIO_FLAGS_NONE (Subdev parent startblock) in
        place sub (with_hooks Subdev_bytes Subdev_blocks Subdev_erase true (erase_byte pdev) dev) ;;
        bio_register_device sub ;;
        ret NO_ERROR
    end.
End bio.
Arguments world : clear implicits.
Arguments BM : clear implicits.
Arguments IM : clear implicits.
