(* ===== verification/BioInv.v ===== *)
(** * Devices as windows into stores

    A store is the memory behind a memory device or the disk behind a driver;
    [window] follows a device up its parents to the store its bytes are in.
    [dev_ok] is what holds of every device. *)

From stdpp Require Import prelude list gmap.
From Stdlib Require Import ZArith Lia.
From S2P Require Import Prelude Pow2 Timer Kernel Bio.

Open Scope Z_scope.
Open Scope lk_scope.

(** ** Total correctness with an early return *)

Section wpx.
Context {St E : Type}.

(** [c] returns with [Q], or early with [R]. *)
Definition wpx {A} (c : M St E A) (Q : A -> St -> Prop) (R : E -> St -> Prop) (s : St) : Prop :=
  match c s with (Ret a, s') => Q a s' | (Err e, s') => R e s' | _ => False end.

Lemma wpx_seq {A B} (c : M St E A) (k : A -> M St E B) Q R s :
  wpx c (fun a s' => wpx (k a) Q R s') R s -> wpx (bind c k) Q R s.
Proof. unfold wpx, bind. by destruct (c s) as [[] ?]. Qed.

Lemma wpx_mono {A} (c : M St E A) (Q Q' : A -> St -> Prop) (R R' : E -> St -> Prop) s :
  wpx c Q R s -> (forall a s', Q a s' -> Q' a s') -> (forall e s', R e s' -> R' e s') -> wpx c Q' R' s.
Proof. unfold wpx. destruct (c s) as [[] ?]; auto. Qed.

Lemma wpx_ret {A} (a : A) (Q : A -> St -> Prop) R s : Q a s -> wpx (ret a) Q R s.
Proof. done. Qed.

Lemma wpx_fail {A} (e : E) (Q : A -> St -> Prop) (R : E -> St -> Prop) s : R e s -> wpx (fail e) Q R s.
Proof. done. Qed.

Lemma wpx_assert b (Q : unit -> St -> Prop) R s : b = true -> Q tt s -> wpx (assert_ b) Q R s.
Proof. by intros -> ?. Qed.
End wpx.

(** ** Drivers that do what is asked of them, or say that they did not *)

(** [drv_bytes]: what is on the disk of a device.  A transfer either moves all of
    its blocks, or answers another count; then it has changed nothing outside of them,
    and stored nothing behind the buffer. *)
Class DriverLaws (D : Type) {HD : Driver D} := {
  drv_bytes : D -> Z -> list Z;
  drv_bsize : Z -> Z;
  drv_read_law d block count dk r dk' :
    0 < drv_bsize d -> 0 <= block -> 0 < count -> count * drv_bsize d < 2 ^ 31 ->
    (block + count) * drv_bsize d <= Z.of_nat (length (drv_bytes dk d)) ->
    drv_read_block d block count dk = (r, dk') ->
    (forall e, drv_bytes dk' e = drv_bytes dk e) /\
    (fst r = count * drv_bsize d /\
       snd r = slice (Z.to_nat (block * drv_bsize d)) (Z.to_nat (count * drv_bsize d)) (drv_bytes dk d) \/
     fst r <> count * drv_bsize d /\ - 2 ^ 31 <= fst r < 2 ^ 31 /\ Z.of_nat (length (snd r)) <= count * drv_bsize d);
  drv_write_law d src block count dk r dk' :
    0 < drv_bsize d -> 0 <= block -> 0 < count -> count * drv_bsize d < 2 ^ 31 ->
    (block + count) * drv_bsize d <= Z.of_nat (length (drv_bytes dk d)) ->
    count * drv_bsize d <= Z.of_nat (length src) ->
    drv_write_block d src block count dk = (r, dk') ->
    (forall e, e <> d -> drv_bytes dk' e = drv_bytes dk e) /\
    (r = count * drv_bsize d /\
       drv_bytes dk' d = splice (Z.to_nat (block * drv_bsize d)) (take (Z.to_nat (count * drv_bsize d)) src) (drv_bytes dk d) \/
     r <> count * drv_bsize d /\ - 2 ^ 31 <= r < 2 ^ 31 /\ length (drv_bytes dk' d) = length (drv_bytes dk d) /\
       (forall i : nat, Z.of_nat i < block * drv_bsize d \/ (block + count) * drv_bsize d <= Z.of_nat i ->
          drv_bytes dk' d !! i = drv_bytes dk d !! i))
}.

Section bio.
Context {D : Type} {HD : Driver D} {HL : DriverLaws D}.
Notation world := (world D).
Notation BM := (BM D).
Implicit Types (w : world) (dev : bdev) (d : Z).

Lemma wp_catch {A} (c : IM D A A) (Q : A -> world -> Prop) w : wpx c Q Q w -> wp (catch c) Q w.
Proof. unfold wpx, wp, catch. by destruct (c w) as [[] ?]. Qed.

Lemma wpx_lift {A B} (c : BM B) (Q : B -> world -> Prop) (R : A -> world -> Prop) w : wp c Q w -> wpx (lift c) Q R w.
Proof. unfold wpx, wp, lift. by destruct (c w) as [[] ?]. Qed.

(** ** Stores *)

Inductive store := Ram (ptr : Z) | Disk (d : Z).

#[global] Instance store_eq_dec : EqDecision store.
Proof. solve_decision. Defined.

Definition store_bytes w (st : store) : list Z :=
  match st with Ram ptr => default [] (ram w !! ptr) | Disk d => drv_bytes (disk w) d end.

(** A call that only transfers bytes *)
Record frame w w' : Prop := {
  fr_bdevs : bdevs w' = bdevs w;
  fr_devs : devs w' = devs w;
  fr_ram : forall ptr, is_Some (ram w' !! ptr) <-> is_Some (ram w !! ptr);
  fr_length : forall st, length (store_bytes w' st) = length (store_bytes w st)
}.

Definition unchanged w w' : Prop := frame w w' /\ forall st, store_bytes w' st = store_bytes w st.

(** [bytes] are now at [off] of a store, and nothing else changed. *)
Definition wrote w w' (st : store) (off : Z) (bytes : list Z) : Prop :=
  frame w w' /\ store_bytes w' st = splice (Z.to_nat off) bytes (store_bytes w st) /\
  (forall st', st' <> st -> store_bytes w' st' = store_bytes w st').

(** The bounds of the blocks of [bs] bytes that the bytes from [lo] up to [hi]
    meet. *)
Definition blocks_from (bs lo : Z) : Z := lo / bs * bs.
Definition blocks_to (bs hi : Z) : Z := (hi + bs - 1) / bs * bs.

Lemma blocks_from_spec bs lo : 0 < bs -> blocks_from bs lo <= lo < blocks_from bs lo + bs.
Proof. intros Hb. unfold blocks_from. pose proof (Z.div_mod lo bs). pose proof (Z.mod_pos_bound lo bs). lia. Qed.

Lemma blocks_to_spec bs hi : 0 < bs -> blocks_to bs hi - bs < hi <= blocks_to bs hi.
Proof.
  intros Hb. unfold blocks_to. pose proof (Z.div_mod (hi + bs - 1) bs). pose proof (Z.mod_pos_bound (hi + bs - 1) bs). lia.
Qed.

(** A block that meets the range is one of them. *)
Lemma blocks_meet bs lo hi q :
  0 < bs -> q * bs < hi -> lo < (q + 1) * bs -> blocks_from bs lo <= q * bs /\ (q + 1) * bs <= blocks_to bs hi.
Proof.
  intros Hb Hhi Hlo. pose proof (blocks_from_spec bs lo Hb). pose proof (blocks_to_spec bs hi Hb).
  unfold blocks_from, blocks_to in *. set (a := lo / bs) in *. set (b := (hi + bs - 1) / bs) in *.
  assert (a < q + 1 /\ q < b) by (split; apply (Z.mul_lt_mono_pos_r bs); lia). nia.
Qed.

Lemma blocks_mono bs lo lo' hi hi' :
  0 < bs -> lo' <= lo -> hi <= hi' -> blocks_from bs lo' <= blocks_from bs lo /\ blocks_to bs hi <= blocks_to bs hi'.
Proof.
  intros Hb Hl Hh. unfold blocks_from, blocks_to.
  split; (apply Z.mul_le_mono_nonneg_r; [lia|]; apply Z.div_le_mono; lia).
Qed.

(** Whole blocks further on *)
Lemma blocks_shift bs off x : 0 < bs ->
  blocks_from bs (x + off * bs) = blocks_from bs x + off * bs /\ blocks_to bs (x + off * bs) = blocks_to bs x + off * bs.
Proof.
  intros Hb. unfold blocks_from, blocks_to. replace (x + off * bs + bs - 1) with (x + bs - 1 + off * bs) by lia.
  rewrite !Z.div_add by lia. lia.
Qed.

(** Changes of a store are between [lo] and [hi]. *)
Definition confined w w' (st : store) (lo hi : Z) : Prop :=
  frame w w' /\
  (forall i : nat, Z.of_nat i < lo \/ hi <= Z.of_nat i -> store_bytes w' st !! i = store_bytes w st !! i) /\
  (forall st', st' <> st -> store_bytes w' st' = store_bytes w st').

#[global] Instance frame_preorder : PreOrder frame.
Proof.
  split; [done|]. intros w1 w2 w3 [H1 H2 H3 H4] [H5 H6 H7 H8]. constructor; [congruence|congruence| |].
  - intros ptr. by rewrite H7, H3.
  - intros st. by rewrite H8, H4.
Qed.

Lemma unchanged_refl w : unchanged w w.
Proof. split; [done|done]. Qed.

Lemma unchanged_trans w1 w2 w3 : unchanged w1 w2 -> unchanged w2 w3 -> unchanged w1 w3.
Proof. intros [F1 H1] [F2 H2]. split; [by etrans|]. intros st. by rewrite H2, H1. Qed.

Lemma unchanged_confined w w' st lo hi : unchanged w w' -> confined w w' st lo hi.
Proof. intros [F H]. split; [done|]. split; intros; by rewrite H. Qed.

Lemma confined_trans w1 w2 w3 st lo hi : confined w1 w2 st lo hi -> confined w2 w3 st lo hi -> confined w1 w3 st lo hi.
Proof.
  intros (F1 & H1 & K1) (F2 & H2 & K2). split; [by etrans|]. split; intros; [by rewrite H2, H1|by rewrite K2, K1].
Qed.

Lemma confined_weaken w w' st lo hi lo' hi' : confined w w' st lo hi -> lo' <= lo -> hi <= hi' -> confined w w' st lo' hi'.
Proof. intros (F & H & K) Hlo Hhi. split; [done|]. split; [|done]. intros i Hi. apply H. lia. Qed.

Lemma wrote_confined w w' st off bytes :
  wrote w w' st off bytes -> 0 <= off -> off + Z.of_nat (length bytes) <= Z.of_nat (length (store_bytes w st)) ->
  confined w w' st off (off + Z.of_nat (length bytes)).
Proof.
  intros (F & H & K) Ho Hl. split; [done|]. split; [|done]. intros i Hi. rewrite H, lookup_splice by lia.
  rewrite decide_False by lia. done.
Qed.

(** ** Devices *)

Definition alive w d : Prop := exists dev, devs w !! d = Some dev /\ 0 < ref dev.

Record shape dev : Prop := {
  sh_shift : 0 <= block_shift dev < 31;
  sh_size : block_size dev = 2 ^ block_shift dev;
  sh_count : 0 <= block_count dev < 2 ^ 32;
  sh_total : total_size dev = block_count dev * block_size dev
}.

Definition hooks (b : byte_hook) (k : block_hook) (e : erase_hook) (close : bool) dev : Prop :=
  dev_read dev = b /\ dev_read_block dev = k /\ dev_write dev = b /\ dev_write_block dev = k /\
  dev_erase dev = e /\ dev_close dev = close.

Definition kind_ok w d dev : Prop :=
  match priv dev with
  | Mem_bdev ptr =>
      hooks Mem_bytes Mem_blocks Default_erase false dev /\ block_size dev = BLOCKSIZE /\
      exists m, ram w !! ptr = Some m /\ total_size dev <= Z.of_nat (length m) < 2 ^ 32
  | Driver_private =>
      hooks Default_bytes Driver_blocks Default_erase false dev /\ block_size dev = drv_bsize d /\
      Z.of_nat (length (drv_bytes (disk w) d)) = total_size dev
  | Subdev parent off =>
      hooks Subdev_bytes Subdev_blocks Subdev_erase true dev /\
      (0 < ref dev -> exists pdev, devs w !! parent = Some pdev /\ 0 < ref pdev /\ block_size pdev = block_size dev /\
         0 <= off /\ off + block_count dev <= block_count pdev /\ off * block_size dev < 2 ^ 32 /\
         erase_byte pdev = erase_byte dev)
  end.

Definition dev_ok w d dev : Prop := shape dev /\ kind_ok w d dev.

Definition devs_ok w : Prop := forall d dev, devs w !! d = Some dev -> dev_ok w d dev.

(** [window w n d st base]: the bytes of [d] are those of [st] from [base] on, [n]
    parents up. *)
Inductive window w : nat -> Z -> store -> Z -> Prop :=
| window_mem d dev ptr : devs w !! d = Some dev -> 0 < ref dev -> priv dev = Mem_bdev ptr -> window w 0 d (Ram ptr) 0
| window_driver d dev : devs w !! d = Some dev -> 0 < ref dev -> priv dev = Driver_private -> window w 0 d (Disk d) 0
| window_sub n d dev parent off st base :
    devs w !! d = Some dev -> 0 < ref dev -> priv dev = Subdev parent off -> window w n parent st base ->
    window w (S n) d st (base + off * block_size dev).

Lemma block_size_pos dev : shape dev -> 0 < block_size dev < 2 ^ 32.
Proof. intros [H1 H2 _ _]. rewrite H2. apply pow2_range. lia. Qed.

Lemma frame_devs_ok w w' : frame w w' -> devs_ok w -> devs_ok w'.
Proof.
  intros F Hok d dev Hd. pose proof F as [Hb Hv Hr Hl]. rewrite Hv in Hd. destruct (Hok d dev Hd) as [Hs Hk]. split; [done|].
  unfold kind_ok in *. destruct (priv dev) as [ptr|p off|].
  - destruct Hk as (Hh & Hbs & m & Hm & Hlen). split_and!; [done..|]. destruct (proj2 (Hr ptr)) as [m' Hm']; [by eexists|].
    exists m'. split; [done|]. specialize (Hl (Ram ptr)). cbn in Hl. rewrite Hm, Hm' in Hl. cbn in Hl. lia.
  - by rewrite Hv.
  - destruct Hk as (Hh & Hbs & Hlen). split_and!; [done..|]. specialize (Hl (Disk d)). cbn in Hl. lia.
Qed.

Lemma frame_window w w' n d st base : devs w' = devs w -> window w n d st base -> window w' n d st base.
Proof. intros Hv Hw. induction Hw; econstructor; rewrite ?Hv; eauto. Qed.

(** A device is inside its store. *)
Lemma window_bounds w n d st base :
  devs_ok w -> window w n d st base ->
  exists dev, devs w !! d = Some dev /\ 0 < ref dev /\ shape dev /\ 0 <= base /\
    base + total_size dev <= Z.of_nat (length (store_bytes w st)).
Proof.
  intros Hok Hw. induction Hw as [d dev ptr Hd Hr Hp|d dev Hd Hr Hp|n d dev p off st base Hd Hr Hp Hw IH].
  - destruct (Hok d dev Hd) as [Hs Hk]. unfold kind_ok in Hk. rewrite Hp in Hk. destruct Hk as (_ & _ & m & Hm & Hl).
    exists dev. cbn. rewrite Hm. cbn. split_and!; [done..|lia|lia].
  - destruct (Hok d dev Hd) as [Hs Hk]. unfold kind_ok in Hk. rewrite Hp in Hk. destruct Hk as (_ & _ & Hl).
    exists dev. cbn. split_and!; [done..|lia|lia].
  - destruct (Hok d dev Hd) as [Hs Hk]. unfold kind_ok in Hk. rewrite Hp in Hk. destruct Hk as (_ & Hk).
    destruct (Hk Hr) as (pdev & Hpd & Hpr & Hbs & Ho & Hc & Hf). destruct IH as (pdev' & Hpd' & _ & Hps & Hb & Ht).
    rewrite Hpd in Hpd'. injection Hpd' as <-. exists dev. split_and!; [done..| |].
    + pose proof (block_size_pos _ Hs). nia.
    + rewrite (sh_total _ Hs). rewrite (sh_total _ Hps), Hbs in Ht. pose proof (block_size_pos _ Hs). nia.
Qed.
End bio.

