(* ===== verification/BioIo.v ===== *)
(** * Transfers: what reading, writing and erasing do to the stores

    From the block hooks up the parents, through the deblocking of bio.c, to the
    calls on bytes.  Every lemma is about a device with a window; transfers of a
    memory device cannot fail, those of a driver may. *)

From stdpp Require Import prelude list gmap.
From Stdlib Require Import ZArith Lia.
From S2P Require Import Prelude Pow2 Timer Kernel Bio BioInv.

Open Scope Z_scope.
Open Scope lk_scope.

Section bio.
Context {D : Type} {HD : Driver D} {HL : DriverLaws D}.
Notation world := (world D).
Notation BM := (BM D).
Implicit Types (w : world) (dev : bdev) (d : Z).

Definition is_disk (st : store) : Prop := match st with Disk _ => True | Ram _ => False end.

(** ** Ranges *)

Lemma trim_range dev offset len :
  0 <= offset -> 0 <= len < 2 ^ 32 -> bio_trim_range dev offset len = Z.max 0 (Z.min len (total_size dev - offset)).
Proof.
  intros Ho Hl. unfold bio_trim_range. replace (offset <? 0) with false by lia.
  repeat case_match; rewrite ?u32_small; lia.
Qed.

Lemma trim_block_range dev block count :
  0 <= block -> 0 <= count -> block + count < 2 ^ 32 -> block_count dev < 2 ^ 32 ->
  bio_trim_block_range dev block count = Z.max 0 (Z.min count (block_count dev - block)).
Proof.
  intros Hb Hc Hs Hn. unfold bio_trim_block_range. rewrite (u32_small (block + count)) by lia.
  repeat case_match; rewrite ?u32_small; lia.
Qed.

(** ** Blocks *)

(** The answer to a read of [k] blocks from [block] on: they, or a failure *)
Definition blocks_read w w' (st : store) (base bs k block : Z) (r : Z * list Z) : Prop :=
  unchanged w w' /\
  (fst r = k * bs /\ snd r = slice (Z.to_nat (base + block * bs)) (Z.to_nat (k * bs)) (store_bytes w st) \/
   is_disk st /\ fst r <> k * bs /\ - 2 ^ 31 <= fst r < 2 ^ 31 /\ Z.of_nat (length (snd r)) <= k * bs).

Definition blocks_written w w' (st : store) (base bs k block : Z) (src : list Z) (r : Z) : Prop :=
  r = k * bs /\ wrote w w' st (base + block * bs) (take (Z.to_nat (k * bs)) src) \/
  is_disk st /\ r <> k * bs /\ - 2 ^ 31 <= r < 2 ^ 31 /\
    confined w w' st (base + block * bs) (base + (block + k) * bs).

Lemma wp_get_dev w d dev (Q : bdev -> world -> Prop) : devs w !! d = Some dev -> Q dev w -> wp (get_dev d) Q w.
Proof. intros Hd HQ. unfold get_dev. apply wp_seq, wp_get. by eapply wp_deref. Qed.

Lemma frame_disk w dk d0 :
  (forall e, e <> d0 -> drv_bytes dk e = drv_bytes (disk w) e) -> length (drv_bytes dk d0) = length (drv_bytes (disk w) d0) ->
  frame w (World (bdevs w) (devs w) (ram w) dk).
Proof.
  intros Hne Hl. constructor; [done|done|done|]. intros [ptr|e]; cbn; [done|]. destruct (decide (e = d0)) as [->|He]; [done|].
  by rewrite Hne.
Qed.

Lemma frame_ram w ptr m m' :
  ram w !! ptr = Some m -> length m' = length m -> frame w (World (bdevs w) (devs w) (<[ptr := m']> (ram w)) (disk w)).
Proof.
  intros Hm Hl. constructor; [done|done| |].
  - intros p. cbn. destruct (decide (p = ptr)) as [->|Hp]; [rewrite lookup_insert_eq, Hm|by rewrite lookup_insert_ne].
    split; intros _; by eexists.
  - intros [p|e]; cbn; [|done]. destruct (decide (p = ptr)) as [->|Hp]; [by rewrite lookup_insert_eq, Hm|by rewrite lookup_insert_ne].
Qed.

Lemma wp_ram_read w ptr m off len (Q : list Z -> world -> Prop) :
  ram w !! ptr = Some m -> off + len <= Z.of_nat (length m) -> Q (slice (Z.to_nat off) (Z.to_nat len) m) w -> wp (ram_read ptr off len) Q w.
Proof.
  intros Hm Hl HQ. unfold ram_read. apply wp_seq, wp_get, wp_seq. eapply wp_deref; [done|].
  replace (off + len <=? _) with true by lia. exact HQ.
Qed.

Lemma wp_ram_write w ptr m off src len (Q : unit -> world -> Prop) :
  ram w !! ptr = Some m -> 0 <= off -> 0 <= len -> off + len <= Z.of_nat (length m) -> len <= Z.of_nat (length src) ->
  (forall w', wrote w w' (Ram ptr) off (take (Z.to_nat len) src) -> Q tt w') -> wp (ram_write ptr off src len) Q w.
Proof.
  intros Hm Ho Hlen Hl Hs HQ. unfold ram_write. apply wp_seq, wp_get, wp_seq. eapply wp_deref; [done|].
  replace (off + len <=? _) with true by lia. replace (len <=? _) with true by lia. cbn [andb].
  unfold set_ram. apply wp_modify, HQ. split; [|split].
  - eapply frame_ram; [done|]. rewrite length_splice; [done|]. rewrite length_take. lia.
  - cbn. by rewrite lookup_insert_eq, Hm.
  - intros [p|e] Hne; cbn; [|done]. rewrite lookup_insert_ne; [done|]. intros ->. done.
Qed.

Lemma total_small w n d st base dev :
  devs_ok w -> window w n d st base -> devs w !! d = Some dev ->
  shape dev /\ 0 <= base /\ base + block_count dev * block_size dev <= Z.of_nat (length (store_bytes w st)).
Proof.
  intros Hok Hw Hd. destruct (window_bounds w n d st base Hok Hw) as (dev' & Hd' & _ & Hs & Hb & Ht).
  rewrite Hd in Hd'. injection Hd' as <-. rewrite (sh_total _ Hs) in Ht. done.
Qed.

Lemma wp_read_block_n n : forall fuel w d dev st base block count,
  devs_ok w -> window w n d st base -> devs w !! d = Some dev -> (n < fuel)%nat ->
  0 <= block -> 0 <= count -> block + count < 2 ^ 32 ->
  let k := Z.max 0 (Z.min count (block_count dev - block)) in
  k * block_size dev < 2 ^ 31 ->
  wp (bio_read_block_n fuel d block count) (fun r w' => blocks_read w w' st base (block_size dev) k block r) w.
Proof.
  induction n as [|n IH]; intros fuel w d dev st base block count Hok Hw Hd Hf Hb Hc Hsum k Hk;
    (destruct fuel as [|fuel]; [lia|]); cbn [bio_read_block_n];
    destruct (total_small _ _ _ _ _ _ Hok Hw Hd) as (Hs & Hbase & Htot); pose proof (block_size_pos _ Hs) as Hbs;
    apply wp_seq; (eapply wp_get_dev; [done|]).
  all: assert (0 < ref dev) as Hr by (inversion Hw; subst; congruence).
  all: apply wp_seq, wp_assert; [by apply Z.ltb_lt|]; rewrite trim_block_range by (pose proof (sh_count _ Hs); lia); fold k.
  all: destruct (k =? 0) eqn:Hk0; [apply Z.eqb_eq in Hk0; apply wp_ret; split; [apply unchanged_refl|left; rewrite Hk0; done]|apply Z.eqb_neq in Hk0].
  - inversion Hw as [? dev' ptr Hd' _ Hp|? dev' Hd' _ Hp|]; subst; rewrite Hd in Hd'; injection Hd' as <-;
      destruct (Hok d dev Hd) as [_ Hkd]; unfold kind_ok in Hkd; rewrite Hp in Hkd.
    + destruct Hkd as ((Hh1 & Hh2 & _) & HB & m & Hm & Hl). rewrite Hh2. unfold mem_bdev_read_block. rewrite Hp, <- HB.
      cbn in Htot. rewrite Hm in Htot. cbn in Htot. rewrite (sh_total _ Hs) in Hl.
      rewrite (u32_small (block * _)), (u32_small (k * _)), s32_small by nia.
      apply wp_seq. eapply wp_ram_read; [done|nia|]. apply wp_ret. split; [apply unchanged_refl|]. left. split; [done|].
      cbn. rewrite Hm. done.
    + destruct Hkd as ((Hh1 & Hh2 & _) & HB & Hl). rewrite Hh2. unfold driver_read_block, wp. cbn in Htot.
      destruct (drv_read_block d block k (disk w)) as [r dk'] eqn:Hdr. rewrite HB in *.
      destruct (drv_read_law d block k (disk w) r dk') as [Hsame Hres]; [lia|lia|lia|lia|nia|done|].
      split; [split; [apply (frame_disk w dk' d); [done|by rewrite Hsame]|intros []; cbn; by rewrite ?Hsame]|].
      cbn [store_bytes]. destruct Hres as [[Hr1 Hr2]|[Hr1 Hr2]]; [left|right]; done.
  - inversion Hw as [| |n' ? dev' p off ? base' Hd' _ Hp Hw']; subst. rewrite Hd in Hd'. injection Hd' as <-.
    destruct (Hok d dev Hd) as [_ Hkd]. unfold kind_ok in Hkd. rewrite Hp in Hkd.
    destruct Hkd as ((Hh1 & Hh2 & _) & Hpar). destruct (Hpar Hr) as (pdev & Hpd & Hpr & Hpb & Ho & Hoc & Hof & Heb).
    rewrite Hh2. unfold subdev_read_block. rewrite Hp.
    destruct (total_small _ _ _ _ _ _ Hok Hw' Hpd) as (Hps & Hpbase & Hptot). destruct (sh_count _ Hps), (sh_count _ Hs).
    rewrite u32_small by lia.
    assert (Hk' : Z.max 0 (Z.min k (block_count pdev - (block + off))) = k) by lia.
    eapply wp_mono; [eapply (IH fuel w p pdev st base' (block + off) k); [done|done|done|lia|lia|lia|lia|rewrite Hk', Hpb; done]|].
    cbn beta. intros r w' Hres. rewrite Hk', Hpb in Hres. unfold blocks_read in *.
    replace (base' + off * block_size dev + block * block_size dev) with (base' + (block + off) * block_size dev) by lia. done.
Qed.

Lemma wp_write_block_n n : forall fuel w d dev st base src block count,
  devs_ok w -> window w n d st base -> devs w !! d = Some dev -> (n < fuel)%nat ->
  0 <= block -> 0 <= count -> block + count < 2 ^ 32 ->
  let k := Z.max 0 (Z.min count (block_count dev - block)) in
  k * block_size dev < 2 ^ 31 -> k * block_size dev <= Z.of_nat (length src) ->
  wp (bio_write_block_n fuel d src block count) (fun r w' =>
    k = 0 /\ r = 0 /\ w' = w \/ 0 < k /\ blocks_written w w' st base (block_size dev) k block src r) w.
Proof.
  induction n as [|n IH]; intros fuel w d dev st base src block count Hok Hw Hd Hf Hb Hc Hsum k Hk Hsrc;
    (destruct fuel as [|fuel]; [lia|]); cbn [bio_write_block_n];
    destruct (total_small _ _ _ _ _ _ Hok Hw Hd) as (Hs & Hbase & Htot); pose proof (block_size_pos _ Hs) as Hbs;
    apply wp_seq; (eapply wp_get_dev; [done|]).
  all: assert (0 < ref dev) as Hr by (inversion Hw; subst; congruence).
  all: apply wp_seq, wp_assert; [by apply Z.ltb_lt|]; rewrite trim_block_range by (pose proof (sh_count _ Hs); lia); fold k.
  all: destruct (k =? 0) eqn:Hk0; [apply Z.eqb_eq in Hk0; apply wp_ret; by left|apply Z.eqb_neq in Hk0].
  - inversion Hw as [? dev' ptr Hd' _ Hp|? dev' Hd' _ Hp|]; subst; rewrite Hd in Hd'; injection Hd' as <-;
      destruct (Hok d dev Hd) as [_ Hkd]; unfold kind_ok in Hkd; rewrite Hp in Hkd.
    + destruct Hkd as ((_ & _ & _ & Hh4 & _) & HB & m & Hm & Hl). rewrite Hh4. unfold mem_bdev_write_block. rewrite Hp, <- HB.
      cbn in Htot. rewrite Hm in Htot. cbn in Htot. rewrite (sh_total _ Hs) in Hl.
      rewrite (u32_small (block * _)), (u32_small (k * _)), s32_small by nia.
      apply wp_seq. eapply wp_ram_write; [done|nia|nia|nia|nia|]. intros w' Hwr. apply wp_ret. right. split; [lia|]. by left.
    + destruct Hkd as ((_ & _ & _ & Hh4 & _) & HB & Hl). rewrite Hh4. unfold driver_write_block, wp. cbn in Htot.
      destruct (drv_write_block d src block k (disk w)) as [r dk'] eqn:Hdr. rewrite HB in *.
      destruct (drv_write_law d src block k (disk w) r dk') as [Hsame Hres]; [lia|lia|lia|lia|nia|lia|done|].
      assert (forall st', st' <> Disk d -> store_bytes (World (bdevs w) (devs w) (ram w) dk') st' = store_bytes w st') as Hst.
      { intros [p|e] Hne; cbn; [done|]. apply Hsame. congruence. }
      right. split; [lia|]. destruct Hres as [[Hr1 Hr2]|(Hr1 & Hr2 & Hr3 & Hr4)]; [left|right].
      * split; [done|]. split; [|split; [exact Hr2|done]]. apply (frame_disk w dk' d); [done|].
        rewrite Hr2, length_splice; [done|]. rewrite length_take. nia.
      * split_and!; [done|done|lia|lia|]. split; [by apply (frame_disk w dk' d)|]. split; [|done]. intros i Hi. cbn. apply Hr4. lia.
  - inversion Hw as [| |n' ? dev' p off ? base' Hd' _ Hp Hw']; subst. rewrite Hd in Hd'. injection Hd' as <-.
    destruct (Hok d dev Hd) as [_ Hkd]. unfold kind_ok in Hkd. rewrite Hp in Hkd.
    destruct Hkd as ((_ & _ & _ & Hh4 & _) & Hpar). destruct (Hpar Hr) as (pdev & Hpd & Hpr & Hpb & Ho & Hoc & Hof & Heb).
    rewrite Hh4. unfold subdev_write_block. rewrite Hp.
    destruct (total_small _ _ _ _ _ _ Hok Hw' Hpd) as (Hps & Hpbase & Hptot). destruct (sh_count _ Hps), (sh_count _ Hs).
    rewrite u32_small by lia.
    assert (Hk' : Z.max 0 (Z.min k (block_count pdev - (block + off))) = k) by lia.
    eapply wp_mono; [eapply (IH fuel w p pdev st base' src (block + off) k); [done|done|done|lia|lia|lia|lia|rewrite Hk', Hpb; done..]|].
    cbn beta. intros r w' Hres. rewrite Hk', Hpb in Hres. unfold blocks_written in *.
    replace (base' + off * block_size dev + block * block_size dev) with (base' + (block + off) * block_size dev) by lia.
    replace (base' + off * block_size dev + (block + k) * block_size dev) with (base' + (block + off + k) * block_size dev) by lia. done.
Qed.

(** ** The nesting is less deep than there are devices *)

Lemma window_fun w n d st base n' st' base' :
  window w n d st base -> window w n' d st' base' -> n = n' /\ st = st' /\ base = base'.
Proof.
  intros Hw. revert n' st' base'.
  induction Hw as [d dev ptr Hd Hr Hp|d dev Hd Hr Hp|n d dev p off st base Hd Hr Hp Hw IH]; intros n' st' base' Hw';
    inversion Hw' as [? dev' ptr' Hd' _ Hp'|? dev' Hd' _ Hp'|m ? dev' p' off' ? base2 Hd' _ Hp' Hw2]; subst;
    rewrite Hd in Hd'; injection Hd' as <-; rewrite Hp in Hp'; simplify_eq; [done|done|].
  destruct (IH _ _ _ Hw2) as (-> & -> & ->). done.
Qed.

Lemma window_depth w n d st base : window w n d st base -> (n < depth w)%nat.
Proof.
  intros Hw. assert (exists X : gset Z, size X = S n /\ X ⊆ dom (devs w) /\ forall e, e ∈ X -> exists m st' base', (m <= n)%nat /\ window w m e st' base')
    as (X & Hs & Hsub & _).
  { induction Hw as [d dev ptr Hd Hr Hp|d dev Hd Hr Hp|n d dev p off st base Hd Hr Hp Hw IH].
    1,2: exists {[ d ]}; split_and!; [apply size_singleton|apply singleton_subseteq_l, elem_of_dom; by eexists|];
      intros e ->%elem_of_singleton; eexists _, _, _; split; [done|by econstructor].
    destruct IH as (X & Hs & Hsub & HX).
    assert (Hn : d ∉ X).
    { intros Hin. destruct (HX d Hin) as (m & st' & base' & Hm & Hw2).
      destruct (window_fun _ _ _ _ _ _ _ _ (window_sub _ _ _ _ _ _ _ _ Hd Hr Hp Hw) Hw2) as [Heq _]. lia. }
    exists ({[ d ]} ∪ X). split_and!.
    - rewrite size_union, size_singleton, Hs by set_solver. done.
    - apply union_subseteq. split; [|done]. apply singleton_subseteq_l, elem_of_dom. by eexists.
    - intros e [->%elem_of_singleton|He]%elem_of_union.
      + eexists _, _, _. split; [done|]. by econstructor.
      + destruct (HX e He) as (m & st' & base' & Hm & Hw2). exists m, st', base'. split; [lia|done]. }
  unfold depth. rewrite <- size_dom. apply subseteq_size in Hsub. lia.
Qed.

Lemma wp_read_block w n d dev st base block count :
  devs_ok w -> window w n d st base -> devs w !! d = Some dev ->
  0 <= block -> 0 <= count -> block + count < 2 ^ 32 ->
  let k := Z.max 0 (Z.min count (block_count dev - block)) in
  k * block_size dev < 2 ^ 31 ->
  wp (bio_read_block d block count) (fun r w' => blocks_read w w' st base (block_size dev) k block r) w.
Proof.
  intros Hok Hw Hd Hb Hc Hs k Hk. unfold bio_read_block. apply wp_seq, wp_get.
  eapply wp_read_block_n; [done|done|done|by eapply window_depth|done..].
Qed.

Lemma wp_write_block w n d dev st base src block count :
  devs_ok w -> window w n d st base -> devs w !! d = Some dev ->
  0 <= block -> 0 <= count -> block + count < 2 ^ 32 ->
  let k := Z.max 0 (Z.min count (block_count dev - block)) in
  k * block_size dev < 2 ^ 31 -> k * block_size dev <= Z.of_nat (length src) ->
  wp (bio_write_block d src block count) (fun r w' =>
    k = 0 /\ r = 0 /\ w' = w \/ 0 < k /\ blocks_written w w' st base (block_size dev) k block src r) w.
Proof.
  intros Hok Hw Hd Hb Hc Hs k Hk Hsrc. unfold bio_write_block. apply wp_seq, wp_get.
  eapply wp_write_block_n; [done|done|done|by eapply window_depth|done..].
Qed.
End bio.
