(* ===== verification/BioBytes.v ===== *)
(** * The deblocking of bio.c: bytes by way of blocks

    A disk behind a driver is read and written in whole blocks; [wp_default_read] and
    [wp_default_write] show that what comes out is the bytes asked for.  [wp_read]
    and [wp_write] are the calls on any device. *)

From stdpp Require Import prelude list gmap.
From Stdlib Require Import ZArith Lia.
From S2P Require Import Prelude Pow2 Timer Kernel Bio BioInv BioIo.

Open Scope Z_scope.
Open Scope lk_scope.

Section bio.
Context {D : Type} {HD : Driver D} {HL : DriverLaws D}.
Notation world := (world D).
Notation BM := (BM D).
Implicit Types (w : world) (dev : bdev) (d : Z).

(** ** Reading a disk *)

Section read.
Context (w : world) (d : Z) (dev : bdev) (offset len : Z).
Context (Hok : devs_ok w) (Hd : devs w !! d = Some dev) (Hr : 0 < ref dev) (Hp : priv dev = Driver_private).
Context (Ho : 0 <= offset) (Hl : 0 < len < 2 ^ 31) (Ht : offset + len <= total_size dev).

Let bs := block_size dev.
Let bytes := drv_bytes (disk w) d.

Lemma disk_shape : shape dev /\ 0 < bs < 2 ^ 31 /\ Z.of_nat (length bytes) = block_count dev * bs.
Proof.
  destruct (Hok d dev Hd) as [Hs Hk]. unfold kind_ok in Hk. rewrite Hp in Hk. destruct Hk as (_ & _ & Hlen).
  split; [done|]. split; [|unfold bytes, bs; rewrite Hlen; apply Hs].
  destruct Hs as [Hsh Hsz _ _]. unfold bs. rewrite Hsz. split; [apply Z.pow_pos_nonneg; lia|apply Z.pow_lt_mono_r; lia].
Qed.

Lemma unchanged_disk w' : unchanged w w' -> devs_ok w' /\ window w' 0 d (Disk d) 0 /\ devs w' !! d = Some dev /\ drv_bytes (disk w') d = bytes.
Proof.
  intros [F Hst]. pose proof (fr_devs _ _ F) as Hv. split_and!.
  - by eapply frame_devs_ok.
  - eapply frame_window; [done|]. by econstructor.
  - by rewrite Hv.
  - apply (Hst (Disk d)).
Qed.

(** A failure: nothing changed, and the code is negative. *)
Definition read_failed (e : Z * list Z) (w' : world) : Prop := unchanged w w' /\ fst e < 0 /\ Z.of_nat (length (snd e)) <= len.

(** One transfer of [k] blocks and the test behind it *)
Lemma wpx_blocks {A} w' block k want out (f : Z * list Z -> IM D (Z * list Z) A) (Q : A -> world -> Prop) :
  unchanged w w' -> 0 <= block -> 0 <= k -> block + k <= block_count dev -> k * bs < 2 ^ 31 -> want = k * bs ->
  (forall r, Z.of_nat (length (snd r)) <= k * bs -> Z.of_nat (length (out r)) <= len) ->
  (forall w'' r, unchanged w w'' -> fst r = k * bs -> snd r = slice (Z.to_nat (block * bs)) (Z.to_nat (k * bs)) bytes ->
     wpx (f r) Q read_failed w'') ->
  wpx (let* r := lift (bio_read_block d block k) in checked (fst r) (out r) want ;; f r) Q read_failed w'.
Proof.
  intros Hu Hb Hk Hbk Hsz -> Hout Hf. destruct (unchanged_disk w' Hu) as (Hok' & Hw' & Hd' & Hby). destruct disk_shape as (Hs & Hbs & Hlen).
  pose proof (sh_count _ Hs). apply wpx_seq, wpx_lift.
  assert (Hkk : Z.max 0 (Z.min k (block_count dev - block)) = k) by lia.
  eapply wp_mono; [eapply wp_read_block; [done|done|done|lia|lia|lia|rewrite Hkk; done]|].
  cbn beta. rewrite Hkk. intros r w'' [Hu' Hres]. pose proof (unchanged_trans _ _ _ Hu Hu') as Hu''.
  apply wpx_seq. unfold checked.
  destruct (fst r <? 0) eqn:Hneg; [apply Z.ltb_lt in Hneg; apply wpx_fail|apply Z.ltb_ge in Hneg].
  { destruct Hres as [[Hr1 _]|(_ & _ & _ & Hr2)]; [nia|]. split_and!; [done|done|by apply Hout]. }
  destruct Hres as [[Hr1 Hr2]|(_ & Hr1 & Hr2 & Hr3)].
  - rewrite Hr1, u32_small by nia. fold bs. rewrite Z.eqb_refl. cbn [negb]. apply wpx_ret.
    apply Hf; [done|done|]. rewrite Hr2. cbn [store_bytes]. rewrite Hby. done.
  - rewrite u32_small by lia. fold bs in Hr1. replace (fst r =? k * bs) with false by lia. cbn [negb]. apply wpx_fail. split_and!; [done|cbn [fst]; unfold ERR_IO; lia|by apply Hout].
Qed.

(** The bytes up to [p_done] are read, and the rest starts at a block. *)
Definition reading (p : progress) (w' : world) : Prop :=
  unchanged w w' /\ 0 <= p_done p /\ 0 <= p_len p /\ p_done p + p_len p = len /\
  p_out p = slice (Z.to_nat offset) (Z.to_nat (p_done p)) bytes /\
  0 <= p_block p <= block_count dev /\ (p_len p = 0 \/ offset + p_done p = p_block p * bs).

Lemma reading_out p w' : reading p w' -> Z.of_nat (length (p_out p)) <= p_done p.
Proof. intros (_ & Hd0 & _ & _ & -> & _). unfold slice. rewrite length_take. lia. Qed.

Lemma reading_more p w' n w'' block' buf' data :
  reading p w' -> unchanged w w'' -> 0 <= n <= p_len p ->
  data = slice (Z.to_nat (offset + p_done p)) (Z.to_nat n) bytes ->
  0 <= block' <= block_count dev -> (p_len p - n = 0 \/ offset + p_done p + n = block' * bs) ->
  reading (Progress buf' (u32 (p_len p - n)) (s32 (p_done p + n)) block' (p_out p ++ data)) w''.
Proof.
  intros (Hu & Hd0 & Hl0 & Hsum & Hout & Hb & Hal) Hu'' Hn -> Hb' Hal'.
  unfold reading; cbn [p_done p_len p_out p_block]. rewrite u32_small, s32_small by lia. split_and!; try lia; [done|].
  rewrite Hout. replace (Z.to_nat (offset + p_done p)) with (Z.to_nat offset + Z.to_nat (p_done p))%nat by lia.
  rewrite slice_adjacent. f_equal. lia.
Qed.

Lemma wpx_read_first buf : wpx (read_first d dev buf offset len (u32 (offset / bs))) reading read_failed w.
Proof.
  destruct disk_shape as (Hs & Hbs & Hlen). pose proof (sh_count _ Hs). pose proof (sh_total _ Hs) as Htot. fold bs in Htot.
  pose proof (Z.div_mod offset bs ltac:(lia)) as Hdm. pose proof (Z.mod_pos_bound offset bs ltac:(lia)) as Hm.
  assert (0 <= offset / bs < block_count dev) as Hq.
  { split; [apply Z.div_pos; lia|]. apply Z.div_lt_upper_bound; lia. }
  rewrite u32_small by lia. unfold read_first. fold bs.
  destruct (offset mod bs =? 0) eqn:Hz; cbn [negb]; [apply Z.eqb_eq in Hz|apply Z.eqb_neq in Hz].
  { apply wpx_ret. unfold reading; cbn. split_and!; try lia; [apply unchanged_refl|by unfold slice; rewrite take_0]. }
  apply (wpx_blocks w (offset / bs) 1 bs (fun _ => [])); [apply unchanged_refl|lia|lia|lia|lia|lia|cbn; lia|].
  intros w' r Hu Hr1 Hr2. rewrite (u32_small (offset mod bs)), (u32_small (bs - _)) by lia.
  rewrite Z.mul_1_l in *. set (tocopy := Z.min (bs - offset mod bs) len).
  assert (Hlr : Z.of_nat (length (snd r)) = bs) by (rewrite Hr2, length_slice; nia).
  unfold from_temp. rewrite Hlr. replace (offset mod bs + tocopy <=? bs) with true by lia.
  apply wpx_seq, wpx_ret, wpx_ret.
  unfold reading; cbn [p_done p_len p_out p_block]. rewrite !u32_small by lia. split_and!; try lia; [done|].
  rewrite Hr2, slice_slice by lia. f_equal. nia.
Qed.

(** Some whole blocks more, from the next one on *)
Lemma wpx_more_blocks {A} p w' k want out (f : Z * list Z -> IM D (Z * list Z) A) (Q : A -> world -> Prop) :
  reading p w' -> 0 <= k -> k * bs <= p_len p -> (p_len p = 0 -> k = 0) -> want = k * bs ->
  (forall r, (length (out r) <= length (p_out p) + length (snd r))%nat) ->
  (forall w'' r, fst r = k * bs -> Z.of_nat (length (snd r)) = k * bs ->
     (forall buf', reading (Progress buf' (u32 (p_len p - k * bs)) (s32 (p_done p + k * bs)) (u32 (p_block p + k)) (p_out p ++ snd r)) w'') ->
     wpx (f r) Q read_failed w'') ->
  wpx (let* r := lift (bio_read_block d (p_block p) k) in checked (fst r) (out r) want ;; f r) Q read_failed w'.
Proof.
  intros Hrd Hk Hkl Hk0 Hw Hlo Hf. destruct disk_shape as (Hs & Hbs & Hlen). pose proof (sh_total _ Hs) as Htot. fold bs in Htot. pose proof (sh_count _ Hs).
  pose proof Hrd as (Hu & Hd0 & Hl0 & Hsum & Hout & Hb & Hal).
  assert (p_block p + k <= block_count dev /\ (p_len p = 0 \/ offset + p_done p = p_block p * bs)) as [Hbk Hal2].
  { split; [|done]. destruct Hal as [Hz|Hal]; [rewrite (Hk0 Hz); lia|]. nia. }
  apply wpx_blocks; [done|lia|lia|lia|lia|done| |].
  { intros r Hrl. specialize (Hlo r). pose proof (reading_out p w' Hrd). lia. }
  intros w'' r Hu'' Hr1 Hr2.
  assert (Hblk : k * bs = 0 \/ offset + p_done p = p_block p * bs) by (destruct Hal as [Hz|Hal]; [left; rewrite (Hk0 Hz); lia|by right]).
  apply Hf; [done| |].
  - rewrite Hr2, length_slice; [lia|]. destruct Hblk as [Hz|Hblk]; [|nia].
    assert (k = 0) as -> by nia. nia.
  - intros buf'. rewrite (u32_small (p_block p + k)).
    2: { destruct Hal as [Hz|Hal]; [rewrite (Hk0 Hz); lia|]. nia. }
    eapply reading_more; [exact Hrd|done|lia| |lia|].
    + rewrite Hr2. destruct Hblk as [Hz|Hblk]; [rewrite Hz; by unfold slice; rewrite !take_0|by rewrite Hblk].
    + destruct Hal as [Hz|Hal]; [left; rewrite (Hk0 Hz) in *; lia|]. right. lia.
Qed.

Lemma wpx_read_singly fuel : forall p w',
  reading p w' -> p_len p < Z.of_nat fuel * bs -> wpx (read_singly fuel d dev p) (fun p' w'' => reading p' w'' /\ p_len p' < bs) read_failed w'.
Proof.
  induction fuel as [|fuel IH]; intros p w' Hrd Hfuel; cbn [read_singly].
  { destruct Hrd as (_ & _ & H & _). lia. }
  fold bs. destruct disk_shape as (Hs & Hbs & Hlen). pose proof Hrd as (_ & Hd0 & Hl0 & Hsum & _).
  destruct (bs <=? p_len p) eqn:Hc; [apply Z.leb_le in Hc|apply Z.leb_gt in Hc; by apply wpx_ret].
  apply (wpx_more_blocks p w' 1 bs (fun _ => p_out p)); [done|lia|lia|lia|lia|lia|]. rewrite Z.mul_1_l.
  intros w'' r Hr1 Hr2 Hnext. unfold from_temp. rewrite Hr2. replace (0 + bs <=? bs) with true by lia.
  apply wpx_seq, wpx_ret. replace (slice (Z.to_nat 0) (Z.to_nat bs) (snd r)) with (snd r).
  2: { rewrite <- (slice_all (snd r)) at 1. f_equal. lia. }
  apply IH; [apply Hnext|]. cbn [p_len]. rewrite u32_small by lia. nia.
Qed.

Lemma wpx_read_run p w' : reading p w' -> wpx (read_run d dev p) (fun p' w'' => reading p' w'' /\ p_len p' < bs) read_failed w'.
Proof.
  intros Hrd. destruct disk_shape as (Hs & Hbs & Hlen). pose proof Hrd as (_ & Hd0 & Hl0 & Hsum & _).
  unfold read_run. rewrite divpow2_div by apply Hs. rewrite <- (sh_size _ Hs). fold bs.
  pose proof (Z.div_mod (p_len p) bs ltac:(lia)) as Hdm. pose proof (Z.mod_pos_bound (p_len p) bs ltac:(lia)).
  assert (0 <= p_len p / bs) as Hq by (apply Z.div_pos; lia).
  apply (wpx_more_blocks p w' (p_len p / bs) _ (fun r => p_out p ++ snd r)); [done|lia|lia| | | |].
  - intros ->. by rewrite Z.div_0_l by lia.
  - rewrite u32_small by nia. lia.
  - intros r. by rewrite length_app.
  - intros w'' r Hr1 Hr2 Hnext. apply wpx_ret. rewrite Hr1. split; [apply Hnext|]. cbn [p_len]. rewrite u32_small by nia. lia.
Qed.

Lemma wp_default_read buf :
  wp (bio_default_read d dev buf offset len) (fun r w' =>
    unchanged w w' /\ (r = (len, slice (Z.to_nat offset) (Z.to_nat len) bytes) \/ fst r < 0 /\ Z.of_nat (length (snd r)) <= len)) w.
Proof.
  destruct disk_shape as (Hs & Hbs & Hlen). pose proof (sh_total _ Hs) as Htot. fold bs in Htot.
  assert (Hend : forall r w', reading (Progress 0 0 (fst r) 0 (snd r)) w' ->
    unchanged w w' /\ (r = (len, slice (Z.to_nat offset) (Z.to_nat len) bytes) \/ fst r < 0 /\ Z.of_nat (length (snd r)) <= len)).
  { intros [n out] w' (Hu & _ & _ & Hsum & Hout & _). cbn in Hsum, Hout. assert (n = len) as -> by lia. cbn.
    split; [done|]. left. by rewrite Hout. }
  unfold bio_default_read. apply wp_catch. fold bs.
  apply wpx_seq. eapply wpx_mono; [apply wpx_read_first| |intros e w' [Hu He]; split; [done|by right]].
  intros p w' Hrd. apply wpx_seq.
  eapply wpx_mono with (Q := fun p' w'' => reading p' w'' /\ p_len p' < bs) (R := read_failed); [| |intros e w'' [Hu He]; split; [done|by right]].
  { destruct (requires_alignment _ _ _); [|by apply wpx_read_run]. apply wpx_read_singly; [done|].
    unfold block_turns. fold bs. destruct Hrd as (_ & _ & Hl0 & _). pose proof (Z.div_mod (p_len p) bs ltac:(lia)).
    pose proof (Z.mod_pos_bound (p_len p) bs ltac:(lia)). assert (0 <= p_len p / bs) by (apply Z.div_pos; lia). nia. }
  intros p' w'' [Hrd' Hlt]. pose proof Hrd' as (Hu & Hd0 & Hl0 & Hsum & Hout & Hb & Hal).
  destruct (0 <? p_len p') eqn:Hc; [apply Z.ltb_lt in Hc|apply Z.ltb_ge in Hc].
  2: { apply wpx_ret, Hend. cbn. assert (p_len p' = 0) by lia. unfold reading; cbn. split_and!; (done || lia || by left). }
  destruct Hal as [Hal|Hal]; [lia|].
  assert (p_block p' < block_count dev) as Hblk by (apply (Z.mul_lt_mono_pos_r bs); lia).
  eapply wpx_mono with (R := read_failed); [|intros r w3 H; exact H|intros e w3 [Hu3 He3]; split; [done|by right]].
  apply (wpx_blocks w'' (p_block p') 1 bs (fun _ => p_out p')); [done|lia|lia|lia|lia|lia| |].
  { intros r _. pose proof (reading_out p' w'' Hrd'). lia. }
  intros w3 r Hu3 Hr1 Hr2. rewrite Z.mul_1_l in *.
  assert (Hlr : Z.of_nat (length (snd r)) = bs) by (rewrite Hr2, length_slice; nia).
  unfold from_temp. rewrite Hlr. replace (0 + p_len p' <=? bs) with true by lia.
  apply wpx_seq, wpx_ret, wpx_ret, Hend. cbn [fst snd].
  assert (Hm : reading (Progress 0 (u32 (p_len p' - p_len p')) (s32 (p_done p' + p_len p')) 0 (p_out p' ++ slice (Z.to_nat 0) (Z.to_nat (p_len p')) (snd r))) w3).
  { eapply reading_more; [exact Hrd'|done|lia| |lia|left; lia]. rewrite Hr2, slice_slice by lia. f_equal. nia. }
  rewrite Z.sub_diag in Hm. exact Hm.
Qed.
End read.

(** ** Writing a disk *)

Lemma splice_block b o (c m : list Z) n :
  (b + n <= length m)%nat -> (o + length c <= n)%nat -> splice b (splice o c (slice b n m)) m = splice (b + o) c m.
Proof.
  intros Hb Ho. assert (length (slice b n m) = n) as Hl by (apply length_slice; lia).
  apply list_eq. intros i. rewrite !lookup_splice by (rewrite ?length_splice; rewrite ?Hl; lia).
  rewrite length_splice by lia. rewrite Hl, lookup_slice. repeat case_decide; try lia; try done; f_equal; lia.
Qed.

Lemma wrote_nothing w st off : wrote w w st off [].
Proof.
  split; [done|]. split; [|done]. unfold splice. cbn. rewrite Nat.add_0_r. by rewrite take_drop.
Qed.

Lemma wrote_more w1 w2 w3 st off a b :
  wrote w1 w2 st off a -> wrote w2 w3 st (off + Z.of_nat (length a)) b -> 0 <= off ->
  off + Z.of_nat (length a) + Z.of_nat (length b) <= Z.of_nat (length (store_bytes w1 st)) -> wrote w1 w3 st off (a ++ b).
Proof.
  intros (F1 & H1 & K1) (F2 & H2 & K2) Ho Hl. split; [by etrans|]. split; [|intros; by rewrite K2, K1].
  rewrite H2, H1. replace (Z.to_nat (off + _)) with (Z.to_nat off + length a)%nat by lia. apply splice_splice_app. lia.
Qed.

Lemma wrote_weaken w w' st off bytes lo hi :
  wrote w w' st off bytes -> 0 <= off -> off + Z.of_nat (length bytes) <= Z.of_nat (length (store_bytes w st)) ->
  lo <= off -> off + Z.of_nat (length bytes) <= hi -> confined w w' st lo hi.
Proof. intros Hw Ho Hl Hlo Hhi. eapply confined_weaken; [by eapply wrote_confined|done|done]. Qed.

Lemma wrote_frame w w' st off bytes : wrote w w' st off bytes -> frame w w'.
Proof. by intros []. Qed.

Section write.
Context (w : world) (d : Z) (dev : bdev) (offset len : Z) (src : list Z).
Context (Hok : devs_ok w) (Hd : devs w !! d = Some dev) (Hr : 0 < ref dev) (Hp : priv dev = Driver_private).
Context (Ho : 0 <= offset) (Hl : 0 < len < 2 ^ 31) (Ht : offset + len <= total_size dev) (Hsrc : len <= Z.of_nat (length src)).

Let bs := block_size dev.

Lemma disk_sizes w' : frame w w' ->
  shape dev /\ 0 < bs < 2 ^ 31 /\ Z.of_nat (length (drv_bytes (disk w') d)) = block_count dev * bs /\ total_size dev = block_count dev * bs.
Proof.
  intros F. destruct (disk_shape w d dev Hok Hd Hp) as (Hs & Hbs & Hlen). split; [done|]. split; [done|]. split; [|apply Hs].
  pose proof (fr_length _ _ F (Disk d)) as Hf. cbn in Hf. unfold bs. lia.
Qed.

Lemma frame_disk_window w' : frame w w' -> devs_ok w' /\ window w' 0 d (Disk d) 0 /\ devs w' !! d = Some dev.
Proof.
  intros F. pose proof (fr_devs _ _ F) as Hv. split_and!; [by eapply frame_devs_ok| |by rewrite Hv].
  eapply frame_window; [done|]. by econstructor.
Qed.

Let lo := blocks_from bs offset.
Let hi := blocks_to bs (offset + len).

Lemma block_range : lo <= offset /\ offset + len <= hi.
Proof.
  destruct (disk_sizes w ltac:(done)) as (_ & Hbs & _).
  pose proof (blocks_from_spec bs offset). pose proof (blocks_to_spec bs (offset + len)). unfold lo, hi. lia.
Qed.

(** A failure: at most the blocks that the range meets changed, and the code is
    negative. *)
Definition write_failed (e : Z) (w' : world) : Prop := confined w w' (Disk d) lo hi /\ e < 0.

Lemma wpx_checked_write err k want (Q : unit -> world -> Prop) w' :
  0 <= k -> k * bs < 2 ^ 31 -> want = k * bs -> - 2 ^ 31 <= err < 2 ^ 31 ->
  (err = k * bs -> Q tt w') -> (err <> k * bs -> confined w w' (Disk d) lo hi) ->
  wpx (checked_write err want) Q write_failed w'.
Proof.
  intros Hk Hsz -> Herr Hf Hc. destruct (disk_sizes w ltac:(done)) as (Hs & Hbs & _). unfold checked_write.
  destruct (Z.eq_dec err (k * bs)) as [He|He].
  - replace (err <? 0) with false by nia. rewrite u32_small by nia. replace (err =? k * bs) with true by lia. apply wpx_ret. by apply Hf.
  - destruct (err <? 0) eqn:Hneg; [apply wpx_fail; split; [by apply Hc|lia]|apply Z.ltb_ge in Hneg].
    rewrite u32_small by lia. replace (err =? k * bs) with false by lia. cbn [negb]. apply wpx_fail. split; [by apply Hc|]. unfold ERR_IO. lia.
Qed.

(** Where the transfers may be *)
Definition inside (from to_ : Z) : Prop := lo <= from /\ to_ <= hi.

Lemma inside_blocks q k : 0 < k -> offset < (q + 1) * bs -> (q + k - 1) * bs < offset + len -> inside (q * bs) ((q + k) * bs).
Proof.
  intros Hk H1 H2. destruct (disk_sizes w ltac:(done)) as (_ & Hbs & _).
  destruct (blocks_meet bs offset (offset + len) q) as [? _]; [lia|nia|lia|].
  destruct (blocks_meet bs offset (offset + len) (q + k - 1)) as [_ ?]; [lia|lia|nia|].
  unfold inside, lo, hi. split; [done|]. replace (q + k) with (q + k - 1 + 1) by lia. done.
Qed.

(** Writing [k] blocks, with the test behind it *)
Lemma wpx_put_blocks w' block k want data (Q : Z -> world -> Prop) :
  confined w w' (Disk d) lo hi ->
  0 <= block -> 0 <= k -> block + k <= block_count dev -> k * bs < 2 ^ 31 -> want = k * bs -> k * bs <= Z.of_nat (length data) ->
  (0 < k -> inside (block * bs) ((block + k) * bs)) ->
  (forall w'', wrote w' w'' (Disk d) (block * bs) (take (Z.to_nat (k * bs)) data) -> Q (k * bs) w'') ->
  wpx (lift (bio_write_block d data block k)) (fun err w'' => wpx (checked_write err want) (fun _ => Q err) write_failed w'') write_failed w'.
Proof.
  intros Hu Hb Hk Hbk Hsz Hw Hdat Hin Hf. pose proof Hu as (F & _). destruct (frame_disk_window w' F) as (Hok' & Hw' & Hd').
  destruct (disk_sizes w' F) as (Hs & Hbs & Hlen & Htot). pose proof (sh_count _ Hs).
  apply wpx_lift. assert (Hkk : Z.max 0 (Z.min k (block_count dev - block)) = k) by lia.
  eapply wp_mono; [eapply wp_write_block; [done|done|done|lia|lia|lia|rewrite Hkk; done..]|].
  cbn beta. rewrite Hkk. intros r w'' Hres. fold bs in Hres.
  destruct Hres as [(Hk0 & -> & ->)|[Hk0 [[Hr1 Hwr]|(_ & Hr1 & Hr2 & Hc)]]].
  - subst k. apply wpx_checked_write with (k := 0); [lia|lia|lia|lia| |by intros].
    intros _. apply Hf. replace (take _ _) with (@nil Z) by done. apply wrote_nothing.
  - apply wpx_checked_write with (k := k); [lia|lia|lia|nia| |done]. intros ->. by apply Hf.
  - apply wpx_checked_write with (k := k); [lia|lia|lia|lia|done|]. intros _.
    eapply confined_trans; [done|]. destruct (Hin Hk0). eapply confined_weaken; [done|lia|lia].
Qed.

Lemma wpx_rewrite_block w' block off bytes (Q : unit -> world -> Prop) :
  confined w w' (Disk d) lo hi ->
  0 <= block < block_count dev -> 0 <= off -> off + Z.of_nat (length bytes) <= bs -> inside (block * bs) ((block + 1) * bs) ->
  (forall w'', wrote w' w'' (Disk d) (block * bs + off) bytes -> Q tt w'') ->
  wpx (rewrite_block d dev block off bytes) Q write_failed w'.
Proof.
  intros Hu Hb Ho0 Hfit Hin Hf. pose proof Hu as (F & _). destruct (frame_disk_window w' F) as (Hok' & Hw' & Hd').
  destruct (disk_sizes w' F) as (Hs & Hbs & Hlen & Htot). pose proof (sh_count _ Hs).
  assert (Hkk : Z.max 0 (Z.min 1 (block_count dev - block)) = 1) by lia.
  unfold rewrite_block. fold bs. apply wpx_seq, wpx_lift.
  eapply wp_mono; [eapply wp_read_block; [done|done|done|lia|lia|lia|rewrite Hkk; fold bs; lia]|].
  cbn beta. intros r w1 Hres. unfold blocks_read in Hres. rewrite Hkk in Hres. fold bs in Hres. rewrite Z.mul_1_l in Hres. destruct Hres as [Hu1 Hres].
  assert (confined w w1 (Disk d) lo hi) as Hc1 by (eapply confined_trans; [done|by apply unchanged_confined]).
  apply wpx_seq. apply wpx_checked_write with (k := 1); [lia|lia|lia|destruct Hres as [[-> _]|(_ & _ & ?)]; lia| |done].
  rewrite Z.mul_1_l. intros Hr1. destruct Hres as [[_ Hr2]|(_ & Hr2 & _)]; [|done]. cbn [store_bytes] in Hr2. rewrite Z.add_0_l in Hr2.
  assert (Hlr : Z.of_nat (length (snd r)) = bs) by (rewrite Hr2, length_slice; nia).
  apply wpx_seq. rewrite Hlr. replace (off + _ <=? bs) with true by lia. apply wpx_ret.
  apply wpx_seq. eapply wpx_mono; [apply wpx_put_blocks with (k := 1) (want := bs) (Q := fun _ w'' => Q tt w'')| |done].
  - done.
  - lia.
  - lia.
  - lia.
  - lia.
  - lia.
  - rewrite length_splice; lia.
  - done.
  - intros w'' Hwr. rewrite Z.mul_1_l, take_ge in Hwr by (rewrite length_splice; lia). apply Hf.
    destruct Hu1 as [F1 Hst1]. destruct Hwr as (F2 & Hst2 & Hne2). split; [by etrans|]. split; [|intros; by rewrite Hne2, Hst1].
    rewrite Hst2, Hst1, Hr2. cbn [store_bytes]. rewrite splice_block by nia. f_equal. nia.
  - intros err w'' Hq. eapply wpx_mono; [exact Hq|by intros []|done].
Qed.

(** The bytes up to [p_done] are written, [p_out] is left of the source, and the rest
    starts at a block. *)
Definition writing (p : progress) (w' : world) : Prop :=
  wrote w w' (Disk d) offset (take (Z.to_nat (p_done p)) src) /\ 0 <= p_done p /\ 0 <= p_len p /\ p_done p + p_len p = len /\
  p_out p = drop (Z.to_nat (p_done p)) src /\
  0 <= p_block p <= block_count dev /\ (p_len p = 0 \/ offset + p_done p = p_block p * bs).

Lemma writing_confined p w' : writing p w' -> confined w w' (Disk d) lo hi.
Proof.
  intros (Hw & Hd0 & Hl0 & Hsum & _). destruct (disk_sizes w ltac:(done)) as (Hs & Hbs & Hlen & Htot).
  destruct block_range. eapply wrote_weaken; [exact Hw|done|..]; rewrite ?length_take; cbn [store_bytes]; lia.
Qed.

Lemma writing_more p w' n w'' block' buf' :
  writing p w' -> 0 <= n <= p_len p -> wrote w' w'' (Disk d) (offset + p_done p) (take (Z.to_nat n) (p_out p)) ->
  0 <= block' <= block_count dev -> (p_len p - n = 0 \/ offset + p_done p + n = block' * bs) ->
  writing (Progress buf' (u32 (p_len p - n)) (s32 (p_done p + n)) block' (drop (Z.to_nat n) (p_out p))) w''.
Proof.
  intros (Hw & Hd0 & Hl0 & Hsum & Hout & Hb & Hal) Hn Hwr Hb' Hal'. destruct (disk_sizes w ltac:(done)) as (Hs & Hbs & Hlen & Htot).
  unfold writing; cbn [p_done p_len p_out p_block]. rewrite u32_small, s32_small by lia. split_and!; try lia.
  - rewrite Hout in Hwr. replace (offset + p_done p) with (offset + Z.of_nat (length (take (Z.to_nat (p_done p)) src))) in Hwr by (rewrite length_take; lia).
    replace (take (Z.to_nat (p_done p + n)) src) with (take (Z.to_nat (p_done p)) src ++ take (Z.to_nat n) (drop (Z.to_nat (p_done p)) src)).
    { eapply wrote_more; [done|done|done|]. rewrite !length_take, length_drop. cbn [store_bytes]. lia. }
    rewrite <- (take_drop (Z.to_nat (p_done p)) (take (Z.to_nat (p_done p + n)) src)), take_take, skipn_firstn_comm. do 2 f_equal; lia.
  - rewrite Hout, drop_drop. f_equal. lia.
Qed.

Lemma wpx_write_first buf : wpx (write_first d dev buf src offset len (u32 (offset / bs))) writing write_failed w.
Proof.
  destruct (disk_sizes w ltac:(done)) as (Hs & Hbs & Hlen & Htot). pose proof (sh_count _ Hs).
  pose proof (Z.div_mod offset bs ltac:(lia)) as Hdm. pose proof (Z.mod_pos_bound offset bs ltac:(lia)) as Hm.
  assert (0 <= offset / bs < block_count dev) as Hq.
  { split; [apply Z.div_pos; lia|]. apply Z.div_lt_upper_bound; lia. }
  rewrite u32_small by lia. unfold write_first. fold bs.
  destruct (offset mod bs =? 0) eqn:Hz; cbn [negb]; [apply Z.eqb_eq in Hz|apply Z.eqb_neq in Hz].
  { apply wpx_ret. unfold writing; cbn [p_done p_len p_out p_block]. split_and!; try (done || lia).
    cbn. rewrite take_0. apply wrote_nothing. }
  rewrite (u32_small (offset mod bs)), (u32_small (bs - _)) by lia. set (tocopy := Z.min (bs - offset mod bs) len).
  apply wpx_seq. unfold from_source. replace (tocopy <=? _) with true by lia. apply wpx_ret.
  apply wpx_seq. apply wpx_rewrite_block; [apply unchanged_confined, unchanged_refl|lia|lia|rewrite length_take; lia|apply inside_blocks; nia|].
  intros w'' Hwr. apply wpx_ret. unfold writing; cbn [p_done p_len p_out p_block]. rewrite !u32_small by lia. split_and!; try (done || lia).
  replace offset with (offset / bs * bs + offset mod bs) at 1 by lia. exact Hwr.
Qed.

(** Some whole blocks more, from the next one on *)
Lemma wpx_put_more p w' k want data (Q : Z -> world -> Prop) :
  writing p w' -> 0 <= k -> k * bs <= p_len p -> (p_len p = 0 -> k = 0) -> want = k * bs ->
  k * bs <= Z.of_nat (length data) -> take (Z.to_nat (k * bs)) data = take (Z.to_nat (k * bs)) (p_out p) ->
  (forall w'', (forall buf', writing (Progress buf' (u32 (p_len p - k * bs)) (s32 (p_done p + k * bs)) (u32 (p_block p + k))
                 (drop (Z.to_nat (k * bs)) (p_out p))) w'') -> Q (k * bs) w'') ->
  wpx (lift (bio_write_block d data (p_block p) k)) (fun err w'' => wpx (checked_write err want) (fun _ => Q err) write_failed w'') write_failed w'.
Proof.
  intros Hwr Hk Hkl Hk0 Hw Hdat Hdo Hf. destruct (disk_sizes w ltac:(done)) as (Hs & Hbs & Hlen & Htot). pose proof (sh_count _ Hs).
  pose proof Hwr as (Hu & Hd0 & Hl0 & Hsum & Hout & Hb & Hal).
  assert (p_block p + k <= block_count dev) as Hbk.
  { destruct Hal as [Hz|Hal]; [rewrite (Hk0 Hz); lia|]. nia. }
  apply wpx_put_blocks; [by eapply writing_confined|lia|lia|lia|lia|done|done| |].
  { intros Hkp. destruct Hal as [Hz|Hal]; [rewrite (Hk0 Hz) in Hkp; lia|]. apply inside_blocks; nia. }
  intros w'' Hput. apply Hf. intros buf'. rewrite (u32_small (p_block p + k)).
  2: { destruct Hal as [Hz|Hal]; [rewrite (Hk0 Hz); lia|]. nia. }
  eapply writing_more; [exact Hwr|lia| |lia|].
  - destruct Hal as [Hz|Hal]; [|by rewrite Hal, <- Hdo].
    rewrite (Hk0 Hz) in *. cbn in *. rewrite take_0 in *. destruct Hput as (F & Hst & Hne). split; [done|]. split; [|done].
    rewrite Hst. unfold splice. cbn. by rewrite !Nat.add_0_r, !take_drop.
  - destruct Hal as [Hz|Hal]; [left; rewrite (Hk0 Hz) in *; lia|right; lia].
Qed.

Lemma wpx_write_singly fuel : forall p w',
  writing p w' -> p_len p < Z.of_nat fuel * bs -> wpx (write_singly fuel d dev p) (fun p' w'' => writing p' w'' /\ p_len p' < bs) write_failed w'.
Proof.
  induction fuel as [|fuel IH]; intros p w' Hwr Hfuel; cbn [write_singly].
  { destruct Hwr as (_ & _ & H & _). lia. }
  fold bs. destruct (disk_sizes w ltac:(done)) as (Hs & Hbs & Hlen & Htot). pose proof Hwr as (_ & Hd0 & Hl0 & Hsum & Hout & _).
  destruct (bs <=? p_len p) eqn:Hc; [apply Z.leb_le in Hc|apply Z.leb_gt in Hc; by apply wpx_ret].
  assert (Hlo : Z.of_nat (length (p_out p)) = Z.of_nat (length src) - p_done p) by (rewrite Hout, length_drop; lia).
  apply wpx_seq. unfold from_source. replace (bs <=? _) with true by lia. apply wpx_ret, wpx_seq.
  eapply wpx_mono; [apply wpx_put_more with (k := 1) (p := p) (want := bs) (data := take (Z.to_nat bs) (p_out p))
    (Q := fun _ => wpx (write_singly fuel d dev (Progress (u32 (p_buf p + bs)) (u32 (p_len p - bs)) (s32 (p_done p + bs)) (u32 (p_block p + 1)) (drop (Z.to_nat bs) (p_out p))))
       (fun p' w'' => writing p' w'' /\ p_len p' < bs) write_failed)| |done].
  - done.
  - lia.
  - lia.
  - lia.
  - lia.
  - rewrite length_take. lia.
  - rewrite take_take. f_equal. lia.
  - rewrite Z.mul_1_l. intros w'' Hnext. apply IH; [apply Hnext|]. cbn [p_len]. rewrite u32_small by lia. nia.
  - intros err w'' Hq. apply wpx_seq. eapply wpx_mono; [exact Hq|by intros []|done].
Qed.

Lemma wpx_write_run p w' : writing p w' -> wpx (write_run d dev p) (fun p' w'' => writing p' w'' /\ p_len p' < bs) write_failed w'.
Proof.
  intros Hwr. destruct (disk_sizes w ltac:(done)) as (Hs & Hbs & Hlen & Htot). pose proof Hwr as (_ & Hd0 & Hl0 & Hsum & Hout & _).
  unfold write_run. rewrite divpow2_div by apply Hs. rewrite <- (sh_size _ Hs). fold bs.
  pose proof (Z.div_mod (p_len p) bs ltac:(lia)) as Hdm. pose proof (Z.mod_pos_bound (p_len p) bs ltac:(lia)).
  assert (0 <= p_len p / bs) as Hq by (apply Z.div_pos; lia). set (k := p_len p / bs) in *.
  assert (Hlo : Z.of_nat (length (p_out p)) = Z.of_nat (length src) - p_done p) by (rewrite Hout, length_drop; lia).
  apply wpx_seq. eapply wpx_mono; [apply wpx_put_more with (k := k) (p := p) (want := u32 (bs * k)) (data := p_out p)
    (Q := fun err w'' => err = k * bs /\ forall buf', writing (Progress buf' (u32 (p_len p - k * bs)) (s32 (p_done p + k * bs)) (u32 (p_block p + k))
                 (drop (Z.to_nat (k * bs)) (p_out p))) w'')| |done].
  - done.
  - lia.
  - lia.
  - unfold k. intros ->. by rewrite Z.div_0_l by lia.
  - rewrite u32_small by nia. lia.
  - lia.
  - done.
  - done.
  - intros err w'' Hq'. apply wpx_seq. eapply wpx_mono; [exact Hq'| |done]. intros [] w3 [-> Hnext].
    apply wpx_seq, wpx_assert; [rewrite Z.eqb_eq; f_equal; lia|]. apply wpx_ret. split; [apply Hnext|].
    cbn [p_len]. rewrite u32_small by nia. lia.
Qed.

Lemma wp_default_write buf :
  wp (bio_default_write d dev buf src offset len) (fun r w' =>
    r = len /\ wrote w w' (Disk d) offset (take (Z.to_nat len) src) \/ write_failed r w') w.
Proof.
  destruct (disk_sizes w ltac:(done)) as (Hs & Hbs & Hlen & Htot).
  unfold bio_default_write. apply wp_catch. fold bs.
  apply wpx_seq. eapply wpx_mono; [apply wpx_write_first| |intros e w' He; by right].
  intros p w' Hwr. apply wpx_seq.
  eapply wpx_mono with (Q := fun p' w'' => writing p' w'' /\ p_len p' < bs) (R := write_failed); [| |intros e w'' He; by right].
  { destruct (requires_alignment _ _ _); [|by apply wpx_write_run]. apply wpx_write_singly; [done|].
    unfold block_turns. fold bs. destruct Hwr as (_ & _ & Hl0 & _). pose proof (Z.div_mod (p_len p) bs ltac:(lia)).
    pose proof (Z.mod_pos_bound (p_len p) bs ltac:(lia)). assert (0 <= p_len p / bs) by (apply Z.div_pos; lia). nia. }
  intros p' w'' [Hwr' Hlt]. pose proof Hwr' as (Hu & Hd0 & Hl0 & Hsum & Hout & Hb & Hal).
  destruct (0 <? p_len p') eqn:Hc; [apply Z.ltb_lt in Hc|apply Z.ltb_ge in Hc].
  2: { apply wpx_ret. left. assert (p_done p' = len) as Hdn by lia. rewrite Hdn in Hu. done. }
  destruct Hal as [Hal|Hal]; [lia|].
  assert (p_block p' < block_count dev) as Hblk by (apply (Z.mul_lt_mono_pos_r bs); lia).
  assert (Hlo : Z.of_nat (length (p_out p')) = Z.of_nat (length src) - p_done p') by (rewrite Hout, length_drop; lia).
  apply wpx_seq. unfold from_source. replace (p_len p' <=? _) with true by lia. apply wpx_ret.
  apply wpx_seq. eapply wpx_mono with (R := write_failed);
    [apply wpx_rewrite_block with (Q := fun _ w3 => wrote w'' w3 (Disk d) (p_block p' * bs + 0) (take (Z.to_nat (p_len p')) (p_out p')))
    | |intros e w3 He; by right].
  - by eapply writing_confined.
  - lia.
  - lia.
  - rewrite length_take. lia.
  - apply inside_blocks; nia.
  - done.
  - intros [] w3 Hput. apply wpx_ret. left. rewrite s32_small by lia. split; [lia|].
    rewrite Z.add_0_r, <- Hal in Hput.
    assert (writing (Progress 0 (u32 (p_len p' - p_len p')) (s32 (p_done p' + p_len p')) 0 (drop (Z.to_nat (p_len p')) (p_out p'))) w3) as Hend.
    { eapply writing_more; [exact Hwr'|lia|exact Hput|lia|left; lia]. }
    destruct Hend as (Hend & _). cbn [p_done] in Hend. rewrite s32_small in Hend by lia. by rewrite Hsum in Hend.
Qed.
End write.

(** ** Any device *)

Lemma wp_read_n n : forall fuel w d dev st base buf offset len,
  devs_ok w -> window w n d st base -> devs w !! d = Some dev -> (n < fuel)%nat -> buf <> NULL -> 0 <= offset -> 0 <= len < 2 ^ 31 ->
  let k := Z.max 0 (Z.min len (total_size dev - offset)) in
  wp (bio_read_n fuel d buf offset len) (fun r w' =>
    unchanged w w' /\
    (r = (k, slice (Z.to_nat (base + offset)) (Z.to_nat k) (store_bytes w st)) \/ is_disk st /\ fst r < 0 /\ Z.of_nat (length (snd r)) <= k)) w.
Proof.
  induction n as [|n IH]; intros fuel w d dev st base buf offset len Hok Hw Hd Hf Hbuf Ho Hl k;
    (destruct fuel as [|fuel]; [lia|]); cbn [bio_read_n];
    destruct (window_bounds _ _ _ _ _ Hok Hw) as (dev' & Hd' & Hr & Hs & Hbase & Htot);
    rewrite Hd in Hd'; injection Hd' as <-; pose proof (block_size_pos _ Hs) as Hbs.
  all: apply wp_seq; (eapply wp_get_dev; [done|]); apply wp_seq, wp_assert; [by apply Z.ltb_lt|];
    apply wp_seq, wp_assert; [by apply negb_true_iff, Z.eqb_neq|]; rewrite trim_range by lia; fold k.
  all: destruct (k =? 0) eqn:Hk0; [apply Z.eqb_eq in Hk0; apply wp_ret; split; [apply unchanged_refl|left; rewrite Hk0; done]|apply Z.eqb_neq in Hk0].
  - inversion Hw as [? dev' ptr Hd' _ Hp|? dev' Hd' _ Hp|]; subst; rewrite Hd in Hd'; injection Hd' as <-;
      destruct (Hok d dev Hd) as [_ Hkd]; unfold kind_ok in Hkd; rewrite Hp in Hkd.
    + destruct Hkd as ((Hh1 & _) & _ & m & Hm & Hlm). rewrite Hh1. unfold mem_bdev_read. rewrite Hp.
      apply wp_seq. eapply wp_ram_read; [done|lia|]. apply wp_ret. rewrite s32_small by lia.
      split; [apply unchanged_refl|]. left. cbn [store_bytes]. rewrite Hm. done.
    + destruct Hkd as ((Hh1 & _) & _). rewrite Hh1.
      eapply wp_mono; [apply (wp_default_read w d dev offset k); (done || lia)|]. cbn beta. intros r w' [Hu Hres].
      split; [done|]. destruct Hres as [->|Hneg]; [by left|by right].
  - inversion Hw as [| |n' ? dev' p off ? base' Hd' _ Hp Hw']; subst. rewrite Hd in Hd'. injection Hd' as <-.
    destruct (Hok d dev Hd) as [_ Hkd]. unfold kind_ok in Hkd. rewrite Hp in Hkd.
    destruct Hkd as ((Hh1 & _) & Hpar). destruct (Hpar Hr) as (pdev & Hpd & Hpr & Hpb & Hoff & Hoc & Hof & Heb).
    rewrite Hh1. unfold subdev_read, subdev_offset. rewrite Hp, u32_small by nia.
    destruct (window_bounds _ _ _ _ _ Hok Hw') as (pdev' & Hpd' & _ & Hps & Hpbase & Hptot). rewrite Hpd in Hpd'. injection Hpd' as <-.
    assert (off * block_size dev + total_size dev <= total_size pdev) as Hfit by (rewrite (sh_total _ Hs), (sh_total _ Hps), Hpb; nia).
    assert (Hk' : Z.max 0 (Z.min k (total_size pdev - (offset + off * block_size dev))) = k) by lia.
    eapply wp_mono; [eapply (IH fuel w p pdev st base' buf); [done|done|done|lia|done|nia|lia]|].
    cbn beta zeta. intros r w'. rewrite Hk'. intros [Hu Hres]. split; [done|].
    replace (base' + off * block_size dev + offset) with (base' + (offset + off * block_size dev)) by lia. done.
Qed.

Lemma wp_write_n n : forall fuel w d dev st base buf src offset len,
  devs_ok w -> window w n d st base -> devs w !! d = Some dev -> (n < fuel)%nat -> buf <> NULL -> 0 <= offset -> 0 <= len < 2 ^ 31 ->
  len <= Z.of_nat (length src) ->
  let k := Z.max 0 (Z.min len (total_size dev - offset)) in
  wp (bio_write_n fuel d buf src offset len) (fun r w' =>
    r = k /\ wrote w w' st (base + offset) (take (Z.to_nat k) src) \/
    is_disk st /\ r < 0 /\ confined w w' st (base + blocks_from (block_size dev) offset) (base + blocks_to (block_size dev) (offset + k))) w.
Proof.
  induction n as [|n IH]; intros fuel w d dev st base buf src offset len Hok Hw Hd Hf Hbuf Ho Hl Hsrc k;
    (destruct fuel as [|fuel]; [lia|]); cbn [bio_write_n];
    destruct (window_bounds _ _ _ _ _ Hok Hw) as (dev' & Hd' & Hr & Hs & Hbase & Htot);
    rewrite Hd in Hd'; injection Hd' as <-; pose proof (block_size_pos _ Hs) as Hbs.
  all: apply wp_seq; (eapply wp_get_dev; [done|]); apply wp_seq, wp_assert; [by apply Z.ltb_lt|];
    apply wp_seq, wp_assert; [by apply negb_true_iff, Z.eqb_neq|]; rewrite trim_range by lia; fold k.
  all: destruct (k =? 0) eqn:Hk0; [apply Z.eqb_eq in Hk0; apply wp_ret; left; rewrite Hk0; split; [done|cbn; rewrite take_0; apply wrote_nothing]|apply Z.eqb_neq in Hk0].
  - inversion Hw as [? dev' ptr Hd' _ Hp|? dev' Hd' _ Hp|]; subst; rewrite Hd in Hd'; injection Hd' as <-;
      destruct (Hok d dev Hd) as [_ Hkd]; unfold kind_ok in Hkd; rewrite Hp in Hkd.
    + destruct Hkd as ((_ & _ & Hh3 & _) & _ & m & Hm & Hlm). rewrite Hh3. unfold mem_bdev_write. rewrite Hp.
      apply wp_seq. eapply wp_ram_write; [done|lia..|]. intros w' Hwr. apply wp_ret. rewrite s32_small by lia. by left.
    + destruct Hkd as ((_ & _ & Hh3 & _) & _). rewrite Hh3.
      eapply wp_mono; [apply (wp_default_write w d dev offset k src); (done || lia)|]. cbn beta. intros r w' [[Hrr Hwr]|[Hc Hneg]]; [by left|].
      right. split_and!; [done|done|]. rewrite !Z.add_0_l. done.
  - inversion Hw as [| |n' ? dev' p off ? base' Hd' _ Hp Hw']; subst. rewrite Hd in Hd'. injection Hd' as <-.
    destruct (Hok d dev Hd) as [_ Hkd]. unfold kind_ok in Hkd. rewrite Hp in Hkd.
    destruct Hkd as ((_ & _ & Hh3 & _) & Hpar). destruct (Hpar Hr) as (pdev & Hpd & Hpr & Hpb & Hoff & Hoc & Hof & Heb).
    rewrite Hh3. unfold subdev_write, subdev_offset. rewrite Hp, u32_small by nia.
    destruct (window_bounds _ _ _ _ _ Hok Hw') as (pdev' & Hpd' & _ & Hps & Hpbase & Hptot). rewrite Hpd in Hpd'. injection Hpd' as <-.
    assert (off * block_size dev + total_size dev <= total_size pdev) as Hfit by (rewrite (sh_total _ Hs), (sh_total _ Hps), Hpb; nia).
    assert (Hk' : Z.max 0 (Z.min k (total_size pdev - (offset + off * block_size dev))) = k) by lia.
    eapply wp_mono; [eapply (IH fuel w p pdev st base' buf src); [done|done|done|lia|done|nia|lia|lia]|].
    cbn beta zeta. intros r w'. rewrite Hk', Hpb. replace (offset + off * block_size dev + k) with (offset + k + off * block_size dev) by lia.
    destruct (blocks_shift (block_size dev) off offset) as [-> _]; [lia|]. destruct (blocks_shift (block_size dev) off (offset + k)) as [_ ->]; [lia|].
    replace (base' + off * block_size dev + offset) with (base' + (offset + off * block_size dev)) by lia.
    replace (base' + off * block_size dev + blocks_from (block_size dev) offset) with (base' + (blocks_from (block_size dev) offset + off * block_size dev)) by lia.
    replace (base' + off * block_size dev + blocks_to (block_size dev) (offset + k)) with (base' + (blocks_to (block_size dev) (offset + k) + off * block_size dev)) by lia. done.
Qed.

Lemma wp_read w n d dev st base buf offset len :
  devs_ok w -> window w n d st base -> devs w !! d = Some dev -> buf <> NULL -> 0 <= offset -> 0 <= len < 2 ^ 31 ->
  let k := Z.max 0 (Z.min len (total_size dev - offset)) in
  wp (bio_read d buf offset len) (fun r w' =>
    unchanged w w' /\
    (r = (k, slice (Z.to_nat (base + offset)) (Z.to_nat k) (store_bytes w st)) \/ is_disk st /\ fst r < 0 /\ Z.of_nat (length (snd r)) <= k)) w.
Proof.
  intros Hok Hw Hd Hbuf Ho Hl k. unfold bio_read. apply wp_seq, wp_get.
  eapply wp_read_n; [done|done|done|by eapply window_depth|done..].
Qed.

Lemma wp_write w n d dev st base buf src offset len :
  devs_ok w -> window w n d st base -> devs w !! d = Some dev -> buf <> NULL -> 0 <= offset -> 0 <= len < 2 ^ 31 ->
  len <= Z.of_nat (length src) ->
  let k := Z.max 0 (Z.min len (total_size dev - offset)) in
  wp (bio_write d buf src offset len) (fun r w' =>
    r = k /\ wrote w w' st (base + offset) (take (Z.to_nat k) src) \/
    is_disk st /\ r < 0 /\ confined w w' st (base + blocks_from (block_size dev) offset) (base + blocks_to (block_size dev) (offset + k))) w.
Proof.
  intros Hok Hw Hd Hbuf Ho Hl Hsrc k. unfold bio_write. apply wp_seq, wp_get.
  eapply wp_write_n; [done|done|done|by eapply window_depth|done..].
Qed.

(** ** Erasing *)

Lemma frame_io w w' n d st base : devs_ok w -> window w n d st base -> frame w w' -> devs_ok w' /\ window w' n d st base.
Proof. intros Hok Hw F. split; [by eapply frame_devs_ok|]. eapply frame_window; [apply F|done]. Qed.

Lemma wp_erase_loop fuel : forall w n d dev st base pos remaining erased,
  devs_ok w -> window w n d st base -> devs w !! d = Some dev -> 0 <= pos -> 0 <= remaining -> pos + remaining <= total_size dev ->
  0 <= erased -> erased + remaining < 2 ^ 31 -> (0 < fuel)%nat -> remaining <= (Z.of_nat fuel - 1) * block_size dev ->
  wp (erase_loop fuel d dev CACHE_LINE pos remaining erased) (fun r w' =>
    r = erased + remaining /\ wrote w w' st (base + pos) (replicate (Z.to_nat remaining) (erase_byte dev)) \/
    is_disk st /\ r < 0 /\ confined w w' st (base + blocks_from (block_size dev) pos) (base + blocks_to (block_size dev) (pos + remaining))) w.
Proof.
  induction fuel as [|fuel IH]; intros w n d dev st base pos remaining erased Hok Hw Hd Hp Hr Ht He Hs Hf0 Hf; [lia|].
  destruct (window_bounds _ _ _ _ _ Hok Hw) as (dev' & Hd' & _ & Hsh & Hbase & Htot). rewrite Hd in Hd'; injection Hd' as <-.
  pose proof (block_size_pos _ Hsh) as Hbs. cbn [erase_loop].
  destruct (0 <? remaining) eqn:Hc; [apply Z.ltb_lt in Hc|apply Z.ltb_ge in Hc].
  2: { apply wp_ret. left. assert (remaining = 0) as -> by lia. split; [lia|]. cbn. apply wrote_nothing. }
  set (t := Z.min remaining (block_size dev)).
  apply wp_seq. eapply wp_mono; [eapply (wp_write w n d dev st base); [done|done|done|done|lia|lia|rewrite length_replicate; lia]|].
  cbn beta zeta. assert (Z.max 0 (Z.min t (total_size dev - pos)) = t) as -> by lia.
  intros r w1 [[-> Hwr]|(Hdisk & Hneg & Hc1)].
  2: { replace (r <? 0) with true by lia. apply wp_ret. right. split_and!; [done..|].
       destruct (blocks_mono (block_size dev) pos pos (pos + t) (pos + remaining)); [lia..|]. eapply confined_weaken; [exact Hc1|lia|lia]. }
  replace (t <? 0) with false by lia. rewrite u32_small, s32_small by lia. replace (t <? t) with false by lia. rewrite u32_small by lia.
  rewrite take_replicate, Nat.min_l in Hwr by lia.
  pose proof (wrote_frame _ _ _ _ _ Hwr) as F. destruct (frame_io _ _ _ _ _ _ Hok Hw F) as [Hok1 Hw1].
  eapply wp_mono; [apply (IH w1 n d dev st base); [done|done|by rewrite (fr_devs _ _ F)|lia|lia|lia|lia|lia|destruct fuel; lia|]|].
  - destruct fuel as [|fuel']; [lia|]. nia.
  - cbn beta. intros r w2 [[-> Hwr2]|(Hdisk & Hneg & Hc2)].
    + left. split; [lia|]. replace (Z.to_nat remaining) with (Z.to_nat t + Z.to_nat (remaining - t))%nat by lia. rewrite replicate_add.
      eapply wrote_more; [exact Hwr| |lia|]; rewrite ?length_replicate; [|lia].
      replace (base + pos + Z.of_nat (Z.to_nat t)) with (base + (pos + t)) by lia. done.
    + right. split_and!; [done..|]. pose proof (blocks_from_spec (block_size dev) pos). pose proof (blocks_to_spec (block_size dev) (pos + remaining)).
      destruct (blocks_mono (block_size dev) (pos + t) pos (pos + t + (remaining - t)) (pos + remaining)); [lia..|].
      eapply confined_trans; [eapply wrote_weaken; [exact Hwr|lia|..]; rewrite ?length_replicate; lia|].
      eapply confined_weaken; [exact Hc2|lia|lia].
Qed.

Lemma wp_erase_n n : forall fuel w d dev st base offset len,
  devs_ok w -> window w n d st base -> devs w !! d = Some dev -> (n < fuel)%nat -> 0 <= offset -> 0 <= len < 2 ^ 31 ->
  let k := Z.max 0 (Z.min len (total_size dev - offset)) in
  wp (bio_erase_n fuel d offset len) (fun r w' =>
    r = k /\ wrote w w' st (base + offset) (replicate (Z.to_nat k) (erase_byte dev)) \/
    is_disk st /\ r < 0 /\ confined w w' st (base + blocks_from (block_size dev) offset) (base + blocks_to (block_size dev) (offset + k))) w.
Proof.
  induction n as [|n IH]; intros fuel w d dev st base offset len Hok Hw Hd Hf Ho Hl k;
    (destruct fuel as [|fuel]; [lia|]); cbn [bio_erase_n];
    destruct (window_bounds _ _ _ _ _ Hok Hw) as (dev' & Hd' & Hr & Hs & Hbase & Htot);
    rewrite Hd in Hd'; injection Hd' as <-; pose proof (block_size_pos _ Hs) as Hbs.
  all: apply wp_seq; (eapply wp_get_dev; [done|]); apply wp_seq, wp_assert; [by apply Z.ltb_lt|]; rewrite trim_range by lia; fold k.
  all: destruct (k =? 0) eqn:Hk0; [apply Z.eqb_eq in Hk0; apply wp_ret; left; rewrite Hk0; split; [done|cbn; apply wrote_nothing]|apply Z.eqb_neq in Hk0].
  - assert (dev_erase dev = Default_erase) as ->.
    { destruct (Hok d dev Hd) as [_ Hkd]. unfold kind_ok in Hkd.
      inversion Hw as [? dev' ptr Hd' _ Hp|? dev' Hd' _ Hp|]; subst; rewrite Hd in Hd'; injection Hd' as <-; rewrite Hp in Hkd; apply Hkd. }
    unfold bio_default_erase. eapply wp_mono; [eapply (wp_erase_loop _ w 0 d dev st base); [done|done|done|lia|lia|lia|lia|lia|lia|]|].
    + unfold block_turns. pose proof (Z.div_mod k (block_size dev) ltac:(lia)). pose proof (Z.mod_pos_bound k (block_size dev) ltac:(lia)).
      assert (0 <= k / block_size dev) by (apply Z.div_pos; lia). nia.
    + cbn beta. intros r w' [[-> Hwr]|Hfail]; [left|by right]. split; [lia|done].
  - inversion Hw as [| |n' ? dev' p off ? base' Hd' _ Hp Hw']; subst. rewrite Hd in Hd'. injection Hd' as <-.
    destruct (Hok d dev Hd) as [_ Hkd]. unfold kind_ok in Hkd. rewrite Hp in Hkd.
    destruct Hkd as ((_ & _ & _ & _ & Hh5 & _) & Hpar). destruct (Hpar Hr) as (pdev & Hpd & Hpr & Hpb & Hoff & Hoc & Hof & Heb).
    rewrite Hh5. unfold subdev_erase, subdev_offset. rewrite Hp, u32_small by nia.
    destruct (window_bounds _ _ _ _ _ Hok Hw') as (pdev' & Hpd' & _ & Hps & Hpbase & Hptot). rewrite Hpd in Hpd'. injection Hpd' as <-.
    assert (off * block_size dev + total_size dev <= total_size pdev) as Hfit by (rewrite (sh_total _ Hs), (sh_total _ Hps), Hpb; nia).
    assert (Hk' : Z.max 0 (Z.min k (total_size pdev - (offset + off * block_size dev))) = k) by lia.
    eapply wp_mono; [eapply (IH fuel w p pdev st base'); [done|done|done|lia|nia|lia]|].
    cbn beta zeta. intros r w'. rewrite Hk', Hpb, Heb. replace (offset + off * block_size dev + k) with (offset + k + off * block_size dev) by lia.
    destruct (blocks_shift (block_size dev) off offset) as [-> _]; [lia|]. destruct (blocks_shift (block_size dev) off (offset + k)) as [_ ->]; [lia|].
    replace (base' + off * block_size dev + offset) with (base' + (offset + off * block_size dev)) by lia.
    replace (base' + off * block_size dev + blocks_from (block_size dev) offset) with (base' + (blocks_from (block_size dev) offset + off * block_size dev)) by lia.
    replace (base' + off * block_size dev + blocks_to (block_size dev) (offset + k)) with (base' + (blocks_to (block_size dev) (offset + k) + off * block_size dev)) by lia. done.
Qed.

Lemma wp_erase w n d dev st base offset len :
  devs_ok w -> window w n d st base -> devs w !! d = Some dev -> 0 <= offset -> 0 <= len < 2 ^ 31 ->
  let k := Z.max 0 (Z.min len (total_size dev - offset)) in
  wp (bio_erase d offset len) (fun r w' =>
    r = k /\ wrote w w' st (base + offset) (replicate (Z.to_nat k) (erase_byte dev)) \/
    is_disk st /\ r < 0 /\ confined w w' st (base + blocks_from (block_size dev) offset) (base + blocks_to (block_size dev) (offset + k))) w.
Proof.
  intros Hok Hw Hd Ho Hl k. unfold bio_erase. apply wp_seq, wp_get.
  eapply wp_erase_n; [done|done|done|by eapply window_depth|done..].
Qed.
End bio.
