(* ===== verification/BioRef.v ===== *)
(** * References: who keeps a device alive

    A device is counted once for the list of devices, once for every live window on
    it and once for every handle.  [inv] says so, with the handles as a function;
    every call of bio.c that takes or gives back references keeps it, and no call
    follows a pointer to a device that is gone. *)

From stdpp Require Import prelude list gmap.
From Stdlib Require Import ZArith Lia.
From S2P Require Import Prelude Pow2 Timer Kernel Bio BioInv BioIo.

Open Scope Z_scope.
Open Scope lk_scope.

(** ** Counting the windows on a device *)

Definition on_parent (d : Z) (dev : bdev) : Prop :=
  0 < ref dev /\ match priv dev with Subdev p _ => p = d | _ => False end.

#[global] Instance on_parent_dec d dev : Decision (on_parent d dev).
Proof. unfold on_parent. destruct (priv dev); apply _. Defined.

Definition children (m : gmap Z bdev) (d : Z) : Z := Z.of_nat (size (filter (fun kv => on_parent d (snd kv)) m)).

Definition counts (d : Z) (o : option bdev) : Z :=
  match o with Some dev => if bool_decide (on_parent d dev) then 1 else 0 | None => 0 end.

Lemma children_delete (m : gmap Z bdev) i d : children m d = children (delete i m) d + counts d (m !! i).
Proof.
  unfold children, counts. rewrite map_filter_delete. destruct (m !! i) as [dev|] eqn:Hi.
  - case_bool_decide as Hp.
    + assert (filter (fun kv => on_parent d (snd kv)) m !! i = Some dev) as Hf by (by apply map_lookup_filter_Some).
      rewrite map_size_delete, Hf. apply elem_of_dom_2 in Hf.
      assert (size (filter (fun kv => on_parent d (snd kv)) m) <> 0%nat); [|lia].
      intros Hz. apply map_size_empty_iff in Hz. rewrite Hz in Hf. set_solver.
    + rewrite delete_id; [lia|]. apply map_lookup_filter_None. right. intros x Hx. rewrite Hi in Hx. by injection Hx as <-.
  - rewrite delete_id; [lia|]. apply map_lookup_filter_None. by left.
Qed.

Lemma children_insert (m : gmap Z bdev) i dev d : children (<[i := dev]> m) d = children m d - counts d (m !! i) + counts d (Some dev).
Proof.
  rewrite (children_delete (<[i := dev]> m) i), (children_delete m i), lookup_insert_eq, delete_insert_eq. lia.
Qed.

Lemma children_pos (m : gmap Z bdev) d i dev : m !! i = Some dev -> on_parent d dev -> 0 < children m d.
Proof.
  intros Hi Hp. rewrite (children_delete m i), Hi. cbn. rewrite bool_decide_eq_true_2 by done. unfold children. lia.
Qed.

Lemma children_nonneg (m : gmap Z bdev) d : 0 <= children m d.
Proof. unfold children. lia. Qed.

Section bio.
Context {D : Type} {HD : Driver D} {HL : DriverLaws D}.
Notation world := (world D).
Notation BM := (BM D).
Implicit Types (w : world) (dev : bdev) (d : Z).

Definition listed w d : Z := if bool_decide (d ∈ bdevs w) then 1 else 0.

(** [h d]: the handles to [d] *)
Record inv w (h : Z -> Z) : Prop := {
  iv_ok : devs_ok w;
  iv_window : forall d, alive w d -> exists n st base, window w n d st base;
  iv_ref : forall d dev, devs w !! d = Some dev -> ref dev = listed w d + children (devs w) d + h d;
  iv_list : forall d, d ∈ bdevs w -> is_Some (devs w !! d);
  iv_nodup : NoDup (bdevs w);
  iv_handles : forall d, 0 <= h d /\ (0 < h d -> is_Some (devs w !! d));
  iv_name : forall d dev, devs w !! d = Some dev -> 0 < ref dev -> is_Some (name dev);
  iv_null : devs w !! NULL = None
}.

Definition plus1 (d : Z) (h : Z -> Z) : Z -> Z := fun e => if e =? d then h e + 1 else h e.

Lemma plus1_same d h : plus1 d h d = h d + 1.
Proof. unfold plus1. by rewrite Z.eqb_refl. Qed.

Lemma plus1_ne d h e : e <> d -> plus1 d h e = h e.
Proof. intros. unfold plus1. by rewrite (proj2 (Z.eqb_neq _ _)). Qed.

(** Devices that live on are the same but for their references. *)
Record evolves w w' : Prop := {
  ev_bdevs : bdevs w' = bdevs w;
  ev_ram : ram w' = ram w;
  ev_disk : disk w' = disk w;
  ev_dom : forall e, is_Some (devs w' !! e) <-> is_Some (devs w !! e);
  ev_live : forall e v', devs w' !! e = Some v' -> 0 < ref v' -> exists v, devs w !! e = Some v /\ 0 < ref v /\ v' = with_ref (ref v') v;
  ev_dead : forall e v, devs w !! e = Some v -> ref v <= 0 -> devs w' !! e = Some v
}.

#[global] Instance evolves_preorder : PreOrder evolves.
Proof.
  split.
  - intros w. constructor; [done..| |done]. intros e v' Hv Hr. exists v'. split_and!; [done..|]. by destruct v'.
  - intros w1 w2 w3 [H1 H2 H3 H4 H5 H6] [K1 K2 K3 K4 K5 K6]. constructor; [congruence..| | |].
    + intros e. by rewrite K4, H4.
    + intros e v' Hv Hr. destruct (K5 e v' Hv Hr) as (v & Hv2 & Hr2 & Heq). destruct (H5 e v Hv2 Hr2) as (v0 & Hv0 & Hr0 & Heq0).
      exists v0. split_and!; [done..|]. rewrite Heq. cbn. rewrite Heq0. done.
    + intros e v Hv Hr. apply K6; [by apply H6|done].
Qed.

Lemma alive_iff w h d : inv w h -> is_Some (devs w !! d) -> 0 < listed w d + children (devs w) d + h d -> alive w d.
Proof. intros I [dev Hd] Hp. exists dev. split; [done|]. rewrite (iv_ref _ _ I d dev Hd). done. Qed.

Lemma held_alive w h d : inv w h -> 0 < h d -> alive w d.
Proof.
  intros I Hh. destruct (iv_handles _ _ I d) as [_ Hs]. apply (alive_iff w h); [done|by apply Hs|].
  pose proof (children_nonneg (devs w) d). unfold listed. case_bool_decide; lia.
Qed.

Lemma listed_alive w h d : inv w h -> d ∈ bdevs w -> alive w d.
Proof.
  intros I Hd. apply (alive_iff w h); [done|by apply (iv_list _ _ I)|].
  pose proof (children_nonneg (devs w) d). destruct (iv_handles _ _ I d). unfold listed. rewrite bool_decide_eq_true_2 by done. lia.
Qed.

(** Windows outlive a change of the devices that keeps bodies and parents. *)
Lemma window_keep w w' n e st base :
  devs_ok w' ->
  (forall e v', devs w' !! e = Some v' -> 0 < ref v' -> forall v, devs w !! e = Some v -> priv v' = priv v /\ block_size v' = block_size v) ->
  window w n e st base -> alive w' e -> window w' n e st base.
Proof.
  intros Hok Hsame Hw. induction Hw as [d dev ptr Hd Hr Hp|d dev Hd Hr Hp|n d dev p off st base Hd Hr Hp Hw IH]; intros (v' & Hv' & Hr');
    destruct (Hsame d v' Hv' Hr' dev Hd) as [Hpr Hbs].
  - econstructor; [done|done|congruence].
  - econstructor; [done|done|congruence].
  - destruct (Hok d v' Hv') as [_ Hk]. unfold kind_ok in Hk. rewrite Hpr, Hp in Hk. destruct Hk as [_ Hk].
    destruct (Hk Hr') as (pdev & Hpd & Hpr' & _). rewrite <- Hbs. eapply (window_sub w' n d v' p off); [done|done|congruence|]. apply IH. by exists pdev.
Qed.

(** ** Changing the reference count *)

Definition set_dev w d dev : world := World (bdevs w) (<[d := dev]> (devs w)) (ram w) (disk w).

Lemma kind_ref w d dev r : kind_ok w d dev -> (0 < r -> 0 < ref dev) -> kind_ok w d (with_ref r dev).
Proof.
  unfold kind_ok, hooks. cbn. destruct (priv dev) as [ptr|p off|]; [done| |done]. intros [Hh Hp] Hr. split; [done|].
  intros Hr'. exact (Hp (Hr Hr')).
Qed.

Lemma set_ref_ok w d dev r :
  devs_ok w -> devs w !! d = Some dev -> (0 < r -> 0 < ref dev) -> (0 < r \/ children (devs w) d = 0) -> devs_ok (set_dev w d (with_ref r dev)).
Proof.
  intros Hok Hd Hr Hc e v He. cbn in He.
  assert (Hkeep : forall e v, devs_ok w -> shape v -> kind_ok w e v -> (d <> e -> devs w !! e = Some v) -> (0 < ref v -> 0 < r \/ e <> d) ->
            kind_ok (set_dev w d (with_ref r dev)) e v).
  { intros e0 v0 _ Hs Hk Hin Hal. unfold kind_ok in *. cbn. destruct (priv v0) as [ptr|p off|] eqn:Hpv; [done| |done].
    destruct Hk as [Hh Hpar]. split; [done|]. intros Hrv. destruct (Hpar Hrv) as (pdev & Hpd & Hpr & Hrest).
    destruct (decide (p = d)) as [->|Hne].
    - rewrite lookup_insert_eq. assert (pdev = dev) as -> by congruence. exists (with_ref r dev). split_and!; [done| |apply Hrest..].
      cbn. destruct Hc as [Hc|Hc]; [done|]. destruct (decide (d = e0)) as [Heq|Hne2]; [destruct (Hal Hrv); [done|congruence]|].
      pose proof (children_pos (devs w) d e0 v0 (Hin Hne2)). unfold on_parent in *. rewrite Hpv in *. assert (0 < children (devs w) d) by auto. lia.
    - rewrite lookup_insert_ne by done. by exists pdev. }
  destruct (decide (e = d)) as [->|Hne].
  - rewrite lookup_insert_eq in He. injection He as <-. destruct (Hok d dev Hd) as [Hs Hk].
    split; [destruct Hs; by constructor|]. apply Hkeep; [done|destruct Hs; by constructor|by apply kind_ref|done|]. cbn. tauto.
  - rewrite lookup_insert_ne in He by done. destruct (Hok e v He) as [Hs Hk]. split; [done|]. apply Hkeep; [done..|]. by right.
Qed.

Lemma on_parent_ref e dev r : 0 < r -> 0 < ref dev -> on_parent e (with_ref r dev) <-> on_parent e dev.
Proof. unfold on_parent. cbn. tauto. Qed.

Lemma set_ref_keeps w d dev r : devs w !! d = Some dev -> 0 < ref dev ->
  forall e v', devs (set_dev w d (with_ref r dev)) !! e = Some v' -> 0 < ref v' -> forall v, devs w !! e = Some v -> priv v' = priv v /\ block_size v' = block_size v.
Proof.
  intros Hd Hr e v' Hv' _ v Hv. cbn in Hv'. destruct (decide (e = d)) as [->|Hne].
  - rewrite lookup_insert_eq in Hv'. injection Hv' as <-. rewrite Hd in Hv. by injection Hv as <-.
  - rewrite lookup_insert_ne, Hv in Hv' by done. by injection Hv' as <-.
Qed.

Lemma set_ref_evolves w d dev r : devs w !! d = Some dev -> 0 < ref dev -> evolves w (set_dev w d (with_ref r dev)).
Proof.
  intros Hd Hr. constructor; [done|done|done| | |].
  - intros e. cbn. destruct (decide (e = d)) as [->|Hne]; [rewrite lookup_insert_eq, Hd|by rewrite lookup_insert_ne].
    split; intros _; by eexists.
  - intros e v' Hv' Hr'. cbn in Hv'. destruct (decide (e = d)) as [->|Hne].
    + rewrite lookup_insert_eq in Hv'. injection Hv' as <-. by exists dev.
    + rewrite lookup_insert_ne in Hv' by done. exists v'. split_and!; [done..|]. by destruct v'.
  - intros e v Hv Hrv. cbn. destruct (decide (e = d)) as [->|Hne]; [|by rewrite lookup_insert_ne].
    rewrite Hd in Hv. injection Hv as <-. lia.
Qed.

(** One more or one less reference, but not the last *)
Lemma inv_set_ref w h h' d dev r :
  inv w h -> devs w !! d = Some dev -> 0 < ref dev -> 0 < r ->
  (forall e, e <> d -> h' e = h e) -> h' d = h d + (r - ref dev) -> 0 <= h' d -> inv (set_dev w d (with_ref r dev)) h'.
Proof.
  intros I Hd Hr Hr' Hne Heq Hpos. pose proof I as [Hok Hwin Href Hlist Hnd Hh Hname Hnull].
  assert (Hok' : devs_ok (set_dev w d (with_ref r dev))) by (apply set_ref_ok; [done|done|done|by left]).
  assert (Hch : forall e, children (<[d := with_ref r dev]> (devs w)) e = children (devs w) e).
  { intros e. rewrite children_insert, Hd. cbn. rewrite (bool_decide_ext _ _ (on_parent_ref e dev r Hr' Hr)). lia. }
  constructor.
  - done.
  - intros e (v & Hv & Hrv). pose proof Hv as Hv0. cbn in Hv. assert (alive w e) as Hal.
    { destruct (decide (e = d)) as [->|Hned]; [by exists dev|]. rewrite lookup_insert_ne in Hv by done. by exists v. }
    destruct (Hwin e Hal) as (n & st & base & Hw). exists n, st, base.
    eapply window_keep; [done|by apply set_ref_keeps|done|]. by exists v.
  - intros e v Hv. cbn in Hv |- *. rewrite Hch. destruct (decide (e = d)) as [->|Hned].
    + rewrite lookup_insert_eq in Hv. injection Hv as <-. cbn. unfold listed in *. cbn. rewrite Heq. pose proof (Href d dev Hd). lia.
    + rewrite lookup_insert_ne in Hv by done. rewrite Hne by done. apply (Href e v Hv).
  - intros e He. cbn in *. destruct (decide (e = d)) as [->|Hned]; [rewrite lookup_insert_eq; by eexists|].
    rewrite lookup_insert_ne by done. by apply Hlist.
  - done.
  - intros e. cbn. destruct (decide (e = d)) as [->|Hned]; [split; [done|]; intros _; rewrite lookup_insert_eq; by eexists|].
    rewrite lookup_insert_ne, Hne by done. apply Hh.
  - intros e v Hv Hrv. cbn in Hv. destruct (decide (e = d)) as [->|Hned].
    + rewrite lookup_insert_eq in Hv. injection Hv as <-. cbn. by apply (Hname d dev).
    + rewrite lookup_insert_ne in Hv by done. by apply (Hname e v).
  - cbn. rewrite lookup_insert_ne; [done|]. intros ->. congruence.
Qed.

(** The last reference goes: a window gives its parent's reference to whoever closes it. *)
Lemma inv_last_ref w h d dev :
  inv w (plus1 d h) -> 0 <= h d -> devs w !! d = Some dev -> ref dev = 1 ->
  d ∉ bdevs w /\
  inv (set_dev w d (with_ref 0 dev)) (match priv dev with Subdev p _ => plus1 p h | _ => h end).
Proof.
  intros I Hpos Hd Hr. pose proof I as [Hok Hwin Href Hlist Hnd Hh Hname Hnull].
  pose proof (Href d dev Hd) as Hrd. rewrite plus1_same, Hr in Hrd. pose proof (children_nonneg (devs w) d).
  assert (listed w d = 0 /\ children (devs w) d = 0 /\ h d = 0) as (Hl0 & Hc0 & Hh0).
  { unfold listed in *. case_bool_decide; lia. }
  assert (d ∉ bdevs w) as Hnl by (unfold listed in Hl0; by case_bool_decide).
  split; [done|].
  assert (Hok' : devs_ok (set_dev w d (with_ref 0 dev))) by (apply set_ref_ok; [done|done|lia|by right]).
  set (h1 := match priv dev with Subdev p _ => plus1 p h | _ => h end).
  assert (Hch : forall e, children (<[d := with_ref 0 dev]> (devs w)) e + (h1 e - h e) = children (devs w) e).
  { intros e. rewrite children_insert, Hd. cbn. rewrite (bool_decide_eq_false_2 (on_parent e (with_ref 0 dev))) by (unfold on_parent; cbn; lia).
    unfold h1. destruct (priv dev) as [ptr|p off|] eqn:Hpv.
    - rewrite (bool_decide_eq_false_2 (on_parent e dev)) by (unfold on_parent; rewrite Hpv; tauto). lia.
    - unfold plus1. destruct (e =? p) eqn:He; [apply Z.eqb_eq in He|apply Z.eqb_neq in He].
      + rewrite (bool_decide_eq_true_2 (on_parent e dev)) by (unfold on_parent; rewrite Hpv; split; [lia|done]). lia.
      + rewrite (bool_decide_eq_false_2 (on_parent e dev)) by (unfold on_parent; rewrite Hpv; intros [_ Hep]; done). lia.
    - rewrite (bool_decide_eq_false_2 (on_parent e dev)) by (unfold on_parent; rewrite Hpv; tauto). lia. }
  assert (Hparent : forall p off, priv dev = Subdev p off -> is_Some (devs w !! p) /\ p <> d).
  { intros p off Hp. destruct (Hok d dev Hd) as [_ Hk]. unfold kind_ok in Hk. rewrite Hp in Hk. destruct Hk as [_ Hk].
    destruct (Hk ltac:(lia)) as (pdev & Hpd & _). split; [by eexists|]. intros ->.
    assert (0 < children (devs w) d); [|lia]. apply (children_pos (devs w) d d dev Hd). unfold on_parent. rewrite Hp. split; [lia|done]. }
  constructor.
  - done.
  - intros e (v & Hv & Hrv). pose proof Hv as Hv0. cbn in Hv. destruct (decide (e = d)) as [->|Hned].
    { rewrite lookup_insert_eq in Hv. injection Hv as <-. cbn in Hrv. lia. }
    rewrite lookup_insert_ne in Hv by done. destruct (Hwin e) as (n & st & base & Hw); [by exists v|]. exists n, st, base.
    eapply window_keep; [done|apply set_ref_keeps; [done|lia]|done|]. by exists v.
  - intros e v Hv. cbn in Hv |- *. specialize (Hch e). destruct (decide (e = d)) as [->|Hned].
    + rewrite lookup_insert_eq in Hv. injection Hv as <-. cbn. unfold listed in *. cbn.
      assert (h1 d = h d) as Hh1.
      { unfold h1. destruct (priv dev) as [|p off|] eqn:Hp; [done| |done]. apply plus1_ne. destruct (Hparent p off eq_refl). congruence. }
      lia.
    + rewrite lookup_insert_ne in Hv by done. pose proof (Href e v Hv) as Hre. rewrite plus1_ne in Hre by done. unfold listed in *. cbn. lia.
  - intros e He. cbn in *. destruct (decide (e = d)) as [->|Hned]; [rewrite lookup_insert_eq; by eexists|].
    rewrite lookup_insert_ne by done. by apply Hlist.
  - done.
  - intros e. cbn. assert (0 <= h e) as Hhe.
    { destruct (decide (e = d)) as [->|Hned]; [lia|]. destruct (Hh e) as [Hp _]. by rewrite plus1_ne in Hp. }
    split.
    + unfold h1. destruct (priv dev); [done| |done]. unfold plus1. case_match; lia.
    + intros Hp. destruct (decide (e = d)) as [->|Hned]; [rewrite lookup_insert_eq; by eexists|]. rewrite lookup_insert_ne by done.
      unfold h1 in Hp. destruct (priv dev) as [|p off|] eqn:Hpv.
      * destruct (Hh e) as [_ Hs]. rewrite plus1_ne in Hs by done. by apply Hs.
      * destruct (decide (e = p)) as [->|Hnep]; [by eapply Hparent|]. rewrite plus1_ne in Hp by done.
        destruct (Hh e) as [_ Hs]. rewrite plus1_ne in Hs by done. by apply Hs.
      * destruct (Hh e) as [_ Hs]. rewrite plus1_ne in Hs by done. by apply Hs.
  - intros e v Hv Hrv. cbn in Hv. destruct (decide (e = d)) as [->|Hned].
    + rewrite lookup_insert_eq in Hv. injection Hv as <-. cbn in Hrv. lia.
    + rewrite lookup_insert_ne in Hv by done. by apply (Hname e v).
  - cbn. rewrite lookup_insert_ne; [done|]. intros ->. congruence.
Qed.

(** What is left of a device that is gone does not matter. *)
Lemma inv_dead w h d dev dev' :
  inv w h -> devs w !! d = Some dev -> ref dev = 0 -> ref dev' = 0 -> shape dev' -> (kind_ok w d dev -> kind_ok (set_dev w d dev') d dev') ->
  inv (set_dev w d dev') h.
Proof.
  intros I Hd Hr Hr' Hs Hk. pose proof I as [Hok Hwin Href Hlist Hnd Hh Hname Hnull].
  assert (Hnp : forall e v, ref v = 0 -> ~ on_parent e v) by (intros e v Hv [Hp _]; lia).
  assert (Hch : forall e, children (<[d := dev']> (devs w)) e = children (devs w) e).
  { intros e. rewrite children_insert, Hd. cbn. rewrite !bool_decide_eq_false_2 by (by apply Hnp). lia. }
  assert (Hok' : devs_ok (set_dev w d dev')).
  { intros e v Hv. cbn in Hv. destruct (decide (e = d)) as [->|Hne].
    - rewrite lookup_insert_eq in Hv. injection Hv as <-. destruct (Hok d dev Hd) as [_ Hkd]. split; [done|]. by apply Hk.
    - rewrite lookup_insert_ne in Hv by done. destruct (Hok e v Hv) as [Hsv Hkv]. split; [done|]. unfold kind_ok in *. cbn.
      destruct (priv v) as [|p off|]; [done| |done]. destruct Hkv as [Hhv Hpar]. split; [done|]. intros Hrv.
      destruct (Hpar Hrv) as (pdev & Hpd & Hpr & Hrest). exists pdev. rewrite lookup_insert_ne; [done|]. intros ->. rewrite Hd in Hpd. injection Hpd as <-. lia. }
  constructor.
  - done.
  - intros e (v & Hv & Hrv). pose proof Hv as Hv0. cbn in Hv. destruct (decide (e = d)) as [->|Hne].
    { rewrite lookup_insert_eq in Hv. injection Hv as <-. lia. }
    rewrite lookup_insert_ne in Hv by done. destruct (Hwin e) as (n & st & base & Hw); [by exists v|]. exists n, st, base.
    eapply window_keep; [done| |done|by exists v]. intros e2 v2 Hv2 Hr2 v3 Hv3. cbn in Hv2. destruct (decide (e2 = d)) as [->|Hne2].
    + rewrite lookup_insert_eq in Hv2. injection Hv2 as <-. lia.
    + rewrite lookup_insert_ne, Hv3 in Hv2 by done. by injection Hv2 as <-.
  - intros e v Hv. cbn in Hv |- *. rewrite Hch. destruct (decide (e = d)) as [->|Hne].
    + rewrite lookup_insert_eq in Hv. injection Hv as <-. pose proof (Href d dev Hd). unfold listed in *. cbn. lia.
    + rewrite lookup_insert_ne in Hv by done. apply (Href e v Hv).
  - intros e He. cbn in *. destruct (decide (e = d)) as [->|Hne]; [rewrite lookup_insert_eq; by eexists|].
    rewrite lookup_insert_ne by done. by apply Hlist.
  - done.
  - intros e. cbn. destruct (Hh e) as [H1 H2]. split; [done|]. intros Hp. destruct (decide (e = d)) as [->|Hne]; [rewrite lookup_insert_eq; by eexists|].
    rewrite lookup_insert_ne by done. by apply H2.
  - intros e v Hv Hrv. cbn in Hv. destruct (decide (e = d)) as [->|Hne].
    + rewrite lookup_insert_eq in Hv. injection Hv as <-. lia.
    + rewrite lookup_insert_ne in Hv by done. by apply (Hname e v).
  - cbn. rewrite lookup_insert_ne; [done|]. intros ->. congruence.
Qed.

Lemma dead_evolves w d dev dev' : devs w !! d = Some dev -> ref dev' <= 0 -> forall w0, evolves w0 w -> (exists v0, devs w0 !! d = Some v0 /\ 0 < ref v0) -> evolves w0 (set_dev w d dev').
Proof.
  intros Hd Hr w0 [H1 H2 H3 H4 H5 H6] (v0 & Hv0 & Hrv0). constructor; [done..| | |].
  - intros e. rewrite <- H4. cbn. destruct (decide (e = d)) as [->|Hne]; [rewrite lookup_insert_eq, Hd|by rewrite lookup_insert_ne].
    split; intros _; by eexists.
  - intros e v' Hv' Hr'. cbn in Hv'. destruct (decide (e = d)) as [->|Hne].
    + rewrite lookup_insert_eq in Hv'. injection Hv' as <-. lia.
    + rewrite lookup_insert_ne in Hv' by done. by apply H5.
  - intros e v Hv Hrv. cbn. destruct (decide (e = d)) as [->|Hne].
    + rewrite Hv0 in Hv. injection Hv as <-. lia.
    + rewrite lookup_insert_ne by done. by apply H6.
Qed.

(** ** Giving a reference back *)

Lemma wp_put_dev w d dev (Q : unit -> world -> Prop) : Q tt (set_dev w d dev) -> wp (put_dev d dev) Q w.
Proof. done. Qed.

Lemma wp_dec_ref_step n : forall fuel w h d st base,
  inv w (plus1 d h) -> 0 <= h d -> window w n d st base -> (n <= fuel)%nat ->
  wp (bdev_dec_ref_step (bio_close_n fuel) d) (fun _ w' => inv w' h /\ evolves w w') w.
Proof.
  induction n as [|n IH]; intros fuel w h d st base I Hpos Hw Hf;
    destruct (window_bounds _ _ _ _ _ (iv_ok _ _ I) Hw) as (dev & Hd & Hr & Hs & _);
    unfold bdev_dec_ref_step; apply wp_seq; (eapply wp_get_dev; [done|]); apply wp_seq, wp_put_dev.
  all: destruct (ref dev =? 1) eqn:H1; [apply Z.eqb_eq in H1|apply Z.eqb_neq in H1].
  2, 4: apply wp_ret; split; [|by apply set_ref_evolves];
    apply (inv_set_ref w (plus1 d h)); [done|done|done|lia| |rewrite plus1_same; lia|done]; intros e He; by rewrite plus1_ne.
  all: destruct (inv_last_ref w h d dev I Hpos Hd H1) as [Hnl I1]; rewrite H1 in *; cbn [Z.sub Z.add Z.opp] in *;
    change (1 - 1) with 0; set (w1 := set_dev w d (with_ref 0 dev)) in *;
    assert (Hd1 : devs w1 !! d = Some (with_ref 0 dev)) by (cbn; by rewrite lookup_insert_eq);
    pose proof (set_ref_evolves w d dev 0 Hd ltac:(lia)) as Hev; fold w1 in Hev;
    assert (Hsh : forall r n, shape (with_name n (with_ref r dev))) by (intros; destruct Hs; by constructor);
    apply wp_seq, wp_get, wp_seq, wp_assert; [by apply bool_decide_eq_true|].
  - assert (dev_close (with_ref 0 dev) = false /\ match priv dev with Subdev _ _ => False | _ => True end) as [Hcl Hpv].
    { destruct (iv_ok _ _ I d dev Hd) as [_ Hk]. unfold kind_ok in Hk. cbn.
      inversion Hw as [? dev' ptr Hd' _ Hp|? dev' Hd' _ Hp|]; subst; rewrite Hd in Hd'; injection Hd' as <-; rewrite Hp in *; split; try done; apply Hk. }
    cbn in Hcl. cbn [dev_close with_ref]. rewrite Hcl. apply wp_seq, wp_ret, wp_seq. eapply wp_get_dev; [done|]. apply wp_put_dev. split.
    + assert (I1' : inv w1 h) by (destruct (priv dev); done).
      eapply (inv_dead w1 h d); [done|done|done|done|apply Hsh|]. unfold kind_ok, hooks; cbn. by destruct (priv dev).
    + eapply dead_evolves; [done|cbn; lia|done|exists dev; split; [done|lia]].
  - inversion Hw as [| |n' ? dev' p off ? base' Hd' _ Hp Hw']; subst. rewrite Hd in Hd'. injection Hd' as <-. rewrite Hp in I1.
    destruct (iv_ok _ _ I d dev Hd) as [_ Hk]. unfold kind_ok in Hk. rewrite Hp in Hk. destruct Hk as [Hhk Hpar].
    destruct (Hpar ltac:(lia)) as (pdev & Hpd & Hpr & _).
    assert (Hpd' : p <> d).
    { intros ->. destruct (window_fun _ _ _ _ _ _ _ _ Hw Hw') as [Heq _]. lia. }
    assert (Hpnull : p <> NULL) by (intros ->; rewrite (iv_null _ _ I) in Hpd; done).
    assert (Hw1 : window w1 n p st base').
    { eapply window_keep; [apply I1|apply set_ref_keeps; [done|lia]|done|]. exists pdev. cbn. rewrite lookup_insert_ne by done. done. }
    cbn [dev_close with_ref]. destruct Hhk as (_ & _ & _ & _ & _ & ->).
    assert (Hposp : 0 <= h p) by (destruct (iv_handles _ _ I p) as [Hq _]; by rewrite plus1_ne in Hq).
    destruct fuel as [|fuel]; [lia|].
    apply wp_seq. unfold subdev_close. apply wp_seq. eapply wp_get_dev; [exact Hd1|]. cbn [priv with_ref]. rewrite Hp. apply wp_seq.
    cbn [bio_close_n]. apply wp_seq, wp_assert; [by apply negb_true_iff, Z.eqb_neq|].
    eapply wp_mono; [apply (IH fuel w1 h p st base'); [done|done|done|lia]|]. cbn beta. intros [] w2 [I2 Ev2].
    assert (Hd2 : devs w2 !! d = Some (with_ref 0 dev)) by (apply (ev_dead _ _ Ev2); [done|cbn; lia]).
    apply wp_seq. eapply wp_get_dev; [done|]. apply wp_put_dev. set (w3 := set_dev w2 d _).
    assert (Hd3 : devs w3 !! d = Some (with_priv (Subdev NULL off) (with_ref 0 dev))) by (cbn; by rewrite lookup_insert_eq).
    apply wp_seq. eapply wp_get_dev; [done|]. apply wp_put_dev.
    assert (Hsh2 : forall r n q, shape (with_name n (with_priv q (with_ref r dev)))) by (intros; destruct Hs; by constructor).
    assert (Hkd : forall w0 n, kind_ok w2 d (with_ref 0 dev) -> kind_ok w0 d (with_name n (with_priv (Subdev NULL off) (with_ref 0 dev)))).
    { intros w0 nn. unfold kind_ok, hooks; cbn. rewrite Hp. intros [Hhk _]. split; [done|lia]. }
    assert (I3 : inv w3 h).
    { eapply (inv_dead w2 h d); [done|done|done|done| |].
      - destruct Hs; by constructor.
      - intros Hk. exact (Hkd w3 (name dev) Hk). }
    split.
    + eapply (inv_dead w3 h d); [done|done|done|done|apply Hsh2|]. intros _. apply Hkd. destruct (iv_ok _ _ I2 d _ Hd2) as [_ Hk]. done.
    + assert (Hlive : exists v0, devs w !! d = Some v0 /\ 0 < ref v0) by (exists dev; split; [done|lia]).
      eapply dead_evolves; [done|cbn; lia| |done]. eapply dead_evolves; [done|cbn; lia| |done]. by etrans.
Qed.

Lemma wp_close w h d :
  inv w (plus1 d h) -> 0 <= h d -> wp (bio_close d) (fun _ w' => inv w' h /\ evolves w w') w.
Proof.
  intros I Hpos. assert (Hh : 0 < plus1 d h d) by (rewrite plus1_same; lia).
  destruct (iv_window _ _ I d (held_alive _ _ _ I Hh)) as (n & st & base & Hw).
  pose proof (window_depth _ _ _ _ _ Hw) as Hn. unfold bio_close. apply wp_seq, wp_get. unfold depth in *. cbn [bio_close_n].
  apply wp_seq, wp_assert.
  - apply negb_true_iff, Z.eqb_neq. intros ->. destruct (iv_handles _ _ I NULL) as [_ Hs]. destruct (Hs Hh) as [v Hv].
    rewrite (iv_null _ _ I) in Hv. done.
  - eapply wp_dec_ref_step; [done|done|done|lia].
Qed.

(** ** Opening *)

Lemma inv_inc w h d dev : inv w h -> devs w !! d = Some dev -> 0 < ref dev -> inv (set_dev w d (with_ref (ref dev + 1) dev)) (plus1 d h).
Proof.
  intros I Hd Hr. destruct (iv_handles _ _ I d) as [Hp _].
  apply (inv_set_ref w h); [done|done|done|lia| |rewrite plus1_same; lia|rewrite plus1_same; lia]. intros e He. by rewrite plus1_ne.
Qed.

Definition opened w (n : list Z) (r : Z) w' : Prop :=
  r <> NULL /\ r ∈ bdevs w /\
  exists dev, devs w !! r = Some dev /\ name dev = Some n /\ 0 < ref dev /\ w' = set_dev w r (with_ref (ref dev + 1) dev).

Lemma wp_find_dev n : forall l w h,
  inv w h -> (forall d, d ∈ l -> d ∈ bdevs w) ->
  wp (find_dev n l) (fun r w' =>
    r = NULL /\ w' = w /\ (forall d dev, d ∈ l -> devs w !! d = Some dev -> name dev <> Some n) \/
    opened w n r w' /\ inv w' (plus1 r h)) w.
Proof.
  induction l as [|d l IH]; intros w h I Hl; cbn [find_dev].
  { apply wp_ret. left. split_and!; [done|done|]. intros d dev Hd. by apply not_elem_of_nil in Hd. }
  assert (Hdl : d ∈ bdevs w) by (apply Hl; left). destruct (listed_alive _ _ _ I Hdl) as (dev & Hd & Hr).
  apply wp_seq. eapply wp_get_dev; [done|]. apply wp_seq, wp_assert; [by apply Z.ltb_lt|].
  destruct (iv_name _ _ I d dev Hd Hr) as [dn Hdn]. apply wp_seq. eapply wp_deref; [done|].
  case_bool_decide as Hn.
  - apply wp_seq. unfold bdev_inc_ref. apply wp_seq. eapply wp_get_dev; [done|]. apply wp_put_dev, wp_ret. right.
    split; [|by apply inv_inc]. split.
    + intros ->. rewrite (iv_null _ _ I) in Hd. done.
    + split; [done|]. exists dev. subst dn. done.
  - eapply wp_mono; [apply (IH w h); [done|]|].
    + intros e He. apply Hl. by right.
    + cbn beta. intros r w' [(-> & -> & Hno)|Hop]; [left|by right]. split_and!; [done|done|].
      intros e v [->|He]%elem_of_cons Hv; [|by eapply Hno]. rewrite Hd in Hv. injection Hv as <-. rewrite Hdn. congruence.
Qed.

Lemma wp_open w h n :
  inv w h ->
  wp (bio_open n) (fun r w' =>
    r = NULL /\ w' = w /\ (forall d dev, d ∈ bdevs w -> devs w !! d = Some dev -> name dev <> Some n) \/
    opened w n r w' /\ inv w' (plus1 r h)) w.
Proof. intros I. unfold bio_open. apply wp_seq, wp_get. by apply wp_find_dev. Qed.

(** ** Registering and unregistering *)

Lemma children_none (m : gmap Z bdev) d : (forall i dev, m !! i = Some dev -> ~ on_parent d dev) -> children m d = 0.
Proof.
  intros Hno. unfold children. assert (filter (fun kv => on_parent d (snd kv)) m = ∅) as ->; [|by rewrite map_size_empty].
  apply map_empty. intros i. apply map_lookup_filter_None. right. intros dev Hi. by apply (Hno i).
Qed.

(** The parent's reference that a new window takes over *)
Definition taken (p : private) (h : Z -> Z) : Z -> Z := match p with Subdev q _ => plus1 q h | _ => h end.

Definition add_dev w d dev : world := World (bdevs w ++ [d]) (<[d := dev]> (devs w)) (ram w) (disk w).

Lemma inv_add w h d dev :
  inv w (taken (priv dev) h) -> (forall e, 0 <= h e) -> devs w !! d = None -> d <> NULL ->
  ref dev = 1 -> shape dev -> is_Some (name dev) -> kind_ok (add_dev w d dev) d dev ->
  inv (add_dev w d dev) h.
Proof.
  intros I Hpos Hd Hnull0 Hr Hs Hnm Hk. pose proof I as [Hok Hwin Href Hlist Hnd Hh Hname Hnull].
  assert (Hnl : d ∉ bdevs w) by (intros Hin; destruct (Hlist d Hin); congruence).
  assert (Hpar : forall p off, priv dev = Subdev p off -> p <> d /\ is_Some (devs w !! p)).
  { intros p off Hp. unfold taken in *. rewrite Hp in *. destruct (Hh p) as [_ Hsp]. rewrite plus1_same in Hsp.
    destruct Hsp as [v Hv]; [specialize (Hpos p); lia|]. split; [congruence|by eexists]. }
  assert (Hch : forall e, children (<[d := dev]> (devs w)) e = children (devs w) e + (taken (priv dev) h e - h e)).
  { intros e. rewrite children_insert, Hd. cbn. unfold taken. destruct (priv dev) as [ptr|p off|] eqn:Hp.
    - rewrite bool_decide_eq_false_2 by (unfold on_parent; rewrite Hp; tauto). lia.
    - unfold plus1. destruct (e =? p) eqn:He; [apply Z.eqb_eq in He|apply Z.eqb_neq in He].
      + rewrite bool_decide_eq_true_2 by (unfold on_parent; rewrite Hp; split; [lia|done]). lia.
      + rewrite bool_decide_eq_false_2 by (unfold on_parent; rewrite Hp; intros [_ Hep]; done). lia.
    - rewrite bool_decide_eq_false_2 by (unfold on_parent; rewrite Hp; tauto). lia. }
  assert (Hc0 : children (devs w) d = 0).
  { apply children_none. intros i v Hi [Hrv Hpv]. destruct (Hok i v Hi) as [_ Hkv]. unfold kind_ok in Hkv.
    destruct (priv v) as [|p off|]; [done| |done]. subst p. destruct Hkv as [_ Hkv]. destruct (Hkv Hrv) as (pdev & Hpd & _). congruence. }
  assert (Hok' : devs_ok (add_dev w d dev)).
  { intros e v Hv. cbn in Hv. destruct (decide (e = d)) as [->|Hne].
    - rewrite lookup_insert_eq in Hv. by injection Hv as <-.
    - rewrite lookup_insert_ne in Hv by done. destruct (Hok e v Hv) as [Hsv Hkv]. split; [done|]. unfold kind_ok in *. cbn.
      destruct (priv v) as [|p off|]; [done| |done]. destruct Hkv as [Hhv Hpv]. split; [done|]. intros Hrv.
      destruct (Hpv Hrv) as (pdev & Hpd & Hrest). exists pdev. rewrite lookup_insert_ne; [done|congruence]. }
  assert (Hkeep : forall e n st base, window w n e st base -> alive (add_dev w d dev) e -> window (add_dev w d dev) n e st base).
  { intros e n st base Hw Hal. eapply window_keep; [done| |done|done]. intros e2 v' Hv' Hr' v Hv. cbn in Hv'.
    rewrite lookup_insert_ne, Hv in Hv' by congruence. by injection Hv' as <-. }
  constructor.
  - done.
  - intros e (v & Hv & Hrv). pose proof Hv as Hv0. cbn in Hv. destruct (decide (e = d)) as [->|Hne].
    + rewrite lookup_insert_eq in Hv. injection Hv as <-. unfold kind_ok in Hk. destruct (priv dev) as [ptr|p off|] eqn:Hp.
      * exists 0%nat, (Ram ptr), 0. by econstructor.
      * destruct (Hpar p off eq_refl) as [Hpd [pv Hpv]]. destruct Hk as [_ Hk]. destruct (Hk Hrv) as (pdev & Hpdev & Hprr & _).
        cbn in Hpdev. rewrite lookup_insert_ne in Hpdev by congruence.
        destruct (Hwin p) as (n & st & base & Hw); [by exists pdev|]. exists (S n), st, (base + off * block_size dev).
        eapply window_sub; [done|done|done|]. apply Hkeep; [done|]. exists pdev. cbn. rewrite lookup_insert_ne by congruence. done.
      * exists 0%nat, (Disk d), 0. by econstructor.
    + rewrite lookup_insert_ne in Hv by done. destruct (Hwin e) as (n & st & base & Hw); [by exists v|]. exists n, st, base.
      apply Hkeep; [done|by exists v].
  - intros e v Hv. cbn in Hv |- *. rewrite Hch. unfold listed in *. cbn. destruct (decide (e = d)) as [->|Hne].
    + rewrite lookup_insert_eq in Hv. injection Hv as <-. rewrite bool_decide_eq_true_2 by (apply elem_of_app; right; apply list_elem_of_singleton; done).
      assert (taken (priv dev) h d = 0) as Ht.
      { destruct (Hh d) as [H1 H2]. destruct (Z.eq_dec (taken (priv dev) h d) 0) as [|Hz]; [done|]. destruct H2 as [x Hx]; [lia|congruence]. }
      assert (taken (priv dev) h d = h d); [|lia].
      unfold taken. destruct (priv dev) as [|p off|] eqn:Hp; [done| |done]. apply plus1_ne. destruct (Hpar p off eq_refl). congruence.
    + rewrite lookup_insert_ne in Hv by done. rewrite (Href e v Hv). unfold listed.
      rewrite (bool_decide_ext (e ∈ bdevs w ++ [d]) (e ∈ bdevs w)); [lia|]. rewrite elem_of_app, list_elem_of_singleton. naive_solver.
  - intros e. cbn. rewrite elem_of_app, list_elem_of_singleton. intros [He| ->]; [|rewrite lookup_insert_eq; by eexists].
    rewrite lookup_insert_ne; [by apply Hlist|]. intros ->. done.
  - cbn. apply NoDup_app. split_and!; [done| |apply NoDup_singleton]. intros x Hx ->%list_elem_of_singleton. done.
  - intros e. cbn. split; [done|]. intros He. destruct (decide (e = d)) as [->|Hne]; [rewrite lookup_insert_eq; by eexists|].
    rewrite lookup_insert_ne by done. destruct (Hh e) as [_ Hse]. apply Hse. unfold taken. destruct (priv dev); [done| |done].
    unfold plus1. case_match; lia.
  - intros e v Hv Hrv. cbn in Hv. destruct (decide (e = d)) as [->|Hne].
    + rewrite lookup_insert_eq in Hv. by injection Hv as <-.
    + rewrite lookup_insert_ne in Hv by done. by apply (Hname e v).
  - cbn. by rewrite lookup_insert_ne.
Qed.

Lemma wp_place w d dev (Q : unit -> world -> Prop) : d <> NULL -> devs w !! d = None -> Q tt (set_dev w d dev) -> wp (place d dev) Q w.
Proof.
  intros Hn Hd HQ. unfold place. apply wp_seq, wp_get. rewrite (proj2 (Z.eqb_neq _ _)) by done.
  rewrite bool_decide_eq_false_2; [exact HQ|]. rewrite Hd. by intros [].
Qed.

Lemma wp_register w h d dev (Q : unit -> world -> Prop) :
  inv w (taken (priv dev) h) -> (forall e, 0 <= h e) -> devs w !! d = None -> d <> NULL ->
  ref dev = 0 -> shape dev -> is_Some (name dev) -> kind_ok (add_dev w d (with_ref 1 dev)) d (with_ref 1 dev) ->
  (inv (add_dev w d (with_ref 1 dev)) h -> Q tt (add_dev w d (with_ref 1 dev))) ->
  wp (bio_register_device d) Q (set_dev w d dev).
Proof.
  intros I Hpos Hd Hn Hr Hs Hnm Hk HQ. unfold bio_register_device, bdev_inc_ref.
  apply wp_seq, wp_seq. eapply wp_get_dev; [cbn; by rewrite lookup_insert_eq|]. apply wp_put_dev, wp_seq, wp_get.
  rewrite bool_decide_eq_false_2 by (cbn; intros Hin; destruct (iv_list _ _ I d Hin); congruence).
  unfold set_bdevs. apply wp_modify. cbn. rewrite insert_insert_eq, Hr. apply HQ.
  apply inv_add; try done. destruct Hs; by constructor.
Qed.

Lemma inv_unlist w h d :
  inv w h -> d ∈ bdevs w -> inv (World (filter (fun x => x <> d) (bdevs w)) (devs w) (ram w) (disk w)) (plus1 d h).
Proof.
  intros I Hin. pose proof I as [Hok Hwin Href Hlist Hnd Hh Hname Hnull]. constructor; try done.
  - intros e He. destruct (Hwin e He) as (n & st & base & Hw). exists n, st, base. apply (frame_window w); [done|exact Hw].
  - intros e v Hv. cbn in *. rewrite (Href e v Hv). unfold listed. cbn. destruct (decide (e = d)) as [->|Hne].
    + rewrite plus1_same, bool_decide_eq_true_2, bool_decide_eq_false_2 by (rewrite ?list_elem_of_filter; naive_solver). lia.
    + rewrite plus1_ne by done. rewrite (bool_decide_ext (e ∈ filter (fun x => x <> d) (bdevs w)) (e ∈ bdevs w)); [lia|].
      rewrite list_elem_of_filter. naive_solver.
  - intros e. cbn. rewrite list_elem_of_filter. intros [_ He]. by apply Hlist.
  - cbn. by apply NoDup_filter.
  - intros e. cbn. unfold plus1. destruct (Hh e) as [H1 H2]. destruct (e =? d) eqn:He; [|done]. apply Z.eqb_eq in He. subst e.
    split; [lia|]. intros _. by apply Hlist.
Qed.

Lemma wp_unregister w h d :
  inv w h -> d ∈ bdevs w ->
  wp (bio_unregister_device d) (fun _ w' => inv w' h /\ bdevs w' = filter (fun x => x <> d) (bdevs w) /\
    evolves (World (filter (fun x => x <> d) (bdevs w)) (devs w) (ram w) (disk w)) w') w.
Proof.
  intros I Hin. unfold bio_unregister_device. apply wp_seq, wp_get. rewrite bool_decide_eq_true_2 by done.
  apply wp_seq. unfold set_bdevs. apply wp_modify. pose proof (inv_unlist w h d I Hin) as I1.
  set (w1 := World _ _ _ _) in *. unfold bdev_dec_ref. apply wp_seq, wp_get.
  destruct (iv_handles _ _ I d) as [Hpos _].
  assert (Hh : 0 < plus1 d h d) by (rewrite plus1_same; lia).
  destruct (iv_window _ _ I1 d (held_alive _ _ _ I1 Hh)) as (n & st & base & Hw).
  pose proof (window_depth _ _ _ _ _ Hw) as Hdep.
  eapply wp_mono; [eapply wp_dec_ref_step; [done|done|done|lia]|]. intros [] w' [I' Ev]. split_and!; [done| |done].
  apply (ev_bdevs _ _ Ev).
Qed.
End bio.
