(* ===== verification/BioProps.v ===== *)
(** * Block devices: what every sequence of calls can rely on

    [bio_step] is one call, of whoever holds the handles it uses; [bio_reachable]
    closes it from an empty list of devices. *)

From stdpp Require Import prelude list gmap.
From Stdlib Require Import ZArith Lia.
From S2P Require Import Prelude Pow2 Timer Kernel Bio BioInv BioIo BioBytes BioRef.

Open Scope Z_scope.
Open Scope lk_scope.

Section bio.
Context {D : Type} {HD : Driver D} {HL : DriverLaws D}.
Notation world := (world D).
Notation BM := (BM D).
Implicit Types (w : world) (dev : bdev) (d : Z) (h : Z -> Z).

(** ** New devices *)

Lemma initialize_run n bsize bcount geo fl p (Q : bdev -> world -> Prop) w :
  0 < bsize < 2 ^ 31 -> ispow2 bsize = true -> 0 <= bcount < 2 ^ 32 ->
  (forall dev, shape dev -> block_size dev = bsize -> block_count dev = bcount ->
     dev = Bdev 0 (Some n) (total_size dev) bsize (block_shift dev) bcount geo 0 fl
             Default_bytes Default_blocks Default_bytes Default_blocks Default_erase false p -> Q dev w) ->
  wp (bio_initialize_bdev n bsize bcount geo fl p) Q w.
Proof.
  intros Hb Hp Hc HQ. pose proof (ispow2_pow bsize ltac:(lia) Hp) as Hpow.
  unfold bio_initialize_bdev. apply wp_seq, wp_assert; [rewrite Hp, andb_true_r; apply negb_true_iff, Z.eqb_neq; lia|]. apply wp_ret.
  assert (0 <= log2_uint bsize < 31).
  { unfold log2_uint. case_match; [lia|]. split; [apply Z.log2_nonneg|apply Z.log2_lt_pow2; lia]. }
  apply HQ; [|done|done|done]. constructor; cbn; [done|done|done|]. rewrite Z.shiftl_mul_pow2 by lia. by rewrite <- Hpow.
Qed.

Lemma hooks_shape b k e c byte dev : shape dev -> shape (with_hooks b k e c byte dev).
Proof. intros []. by constructor. Qed.

Definition fresh w d : Prop := d <> NULL /\ devs w !! d = None.

Lemma inv_nonneg w h e : inv w h -> 0 <= h e.
Proof. intros I. by destruct (iv_handles _ _ I e). Qed.

(** A device was registered: what it is, and its window. *)
Definition registered w w' (d : Z) (dev : bdev) (st : store) (base : Z) : Prop :=
  w' = add_dev w d dev /\ exists k, window w' k d st base.

Lemma wp_create_membdev w h n ptr len d m :
  inv w h -> fresh w d -> ram w !! ptr = Some m -> 0 <= len <= Z.of_nat (length m) -> Z.of_nat (length m) < 2 ^ 32 ->
  wp (create_membdev n ptr len d) (fun r w' => r = 0 /\ inv w' h /\
    exists dev, registered w w' d dev (Ram ptr) 0 /\ name dev = Some n /\ total_size dev = len / BLOCKSIZE * BLOCKSIZE) w.
Proof.
  intros I [Hn Hd] Hm Hl Hml. unfold create_membdev. apply wp_seq.
  pose proof (Z.div_mod len BLOCKSIZE ltac:(done)) as Hdm. pose proof (Z.mod_pos_bound len BLOCKSIZE ltac:(done)).
  assert (0 <= len / BLOCKSIZE) by (apply Z.div_pos; [lia|done]). assert (BLOCKSIZE = 512) as HB by done.
  apply initialize_run; [lia|done|lia|]. intros dev Hs Hbs Hbc Heq.
  assert (Hp : priv dev = Mem_bdev ptr) by (by rewrite Heq).
  apply wp_seq, wp_place; [done|done|]. apply wp_seq.
  apply (wp_register w h); [cbn [priv with_hooks]; by rewrite Hp|intros e; by apply (inv_nonneg w)|done|done|by rewrite Heq|by apply hooks_shape|by rewrite Heq| |].
  - unfold kind_ok. cbn [priv with_ref with_hooks]. rewrite Hp. split; [by split_and!|]. split; [done|]. exists m. split; [done|].
    cbn [total_size with_ref with_hooks]. rewrite (sh_total _ Hs), Hbs, Hbc. lia.
  - intros I'. apply wp_ret. split_and!; [done|done|]. eexists. split; [split; [done|]|].
    + exists 0%nat. eapply window_mem; [cbn; by rewrite lookup_insert_eq|done|cbn; by rewrite Hp].
    + split; [by rewrite Heq|]. cbn [total_size with_ref with_hooks]. by rewrite (sh_total _ Hs), Hbs, Hbc.
Qed.

Lemma wp_driver_register w h n bsize bcount fl byte d :
  inv w h -> fresh w d -> ispow2 bsize = true -> 0 < bsize < 2 ^ 31 -> 0 <= bcount < 2 ^ 32 ->
  drv_bsize d = bsize -> Z.of_nat (length (drv_bytes (disk w) d)) = bcount * bsize ->
  wp (driver_register n bsize bcount [] fl byte d) (fun _ w' => inv w' h /\
    exists dev, registered w w' d dev (Disk d) 0 /\ name dev = Some n /\ total_size dev = bcount * bsize) w.
Proof.
  intros I [Hn Hd] Hpow Hb Hc Hdb Hlen. unfold driver_register. apply wp_seq.
  apply initialize_run; [done|done|done|]. intros dev Hs Hbs Hbc Heq.
  assert (Hp : priv dev = Driver_private) by (by rewrite Heq).
  apply wp_seq, wp_place; [done|done|].
  apply (wp_register w h); [cbn [priv with_hooks]; by rewrite Hp|intros e; by apply (inv_nonneg w)|done|done|by rewrite Heq|by apply hooks_shape|by rewrite Heq| |].
  - unfold kind_ok. cbn [priv with_ref with_hooks]. rewrite Hp. split; [by split_and!|].
    cbn [total_size block_size with_ref with_hooks]. rewrite (sh_total _ Hs), Hbs, Hbc. done.
  - intros I'. split; [done|]. eexists. split; [split; [done|]|].
    + exists 0%nat. eapply window_driver; [cbn; by rewrite lookup_insert_eq|done|cbn; by rewrite Hp].
    + split; [by rewrite Heq|]. cbn [total_size with_ref with_hooks]. by rewrite (sh_total _ Hs), Hbs, Hbc.
Qed.

(** ** Windows *)

Lemma opened_evolves w n r w' : opened w n r w' -> evolves w w'.
Proof. intros (_ & _ & dev & Hd & _ & Hr & ->). by apply set_ref_evolves. Qed.

Lemma evolves_window w w' h n d st base :
  evolves w w' -> inv w' h -> window w n d st base -> alive w' d -> window w' n d st base.
Proof.
  intros Ev I Hw Hal. eapply window_keep; [apply I| |done|done]. intros e v' Hv' Hr' v Hv.
  destruct (ev_live _ _ Ev e v' Hv' Hr') as (v0 & Hv0 & _ & Heq). rewrite Hv in Hv0. injection Hv0 as <-. by rewrite Heq.
Qed.

(** bio_publish_subdevice did what it was asked for: [sub] is a window on the first
    device of the parent's name. *)
Definition published w w' (parent_name sub_name : list Z) (startblock count sub : Z) : Prop :=
  exists parent pdev dev k st base,
    parent ∈ bdevs w /\ devs w !! parent = Some pdev /\ name pdev = Some parent_name /\
    window w k parent st base /\ window w' (S k) sub st (base + startblock * block_size pdev) /\
    bdevs w' = bdevs w ++ [sub] /\ devs w' !! sub = Some dev /\ name dev = Some sub_name /\
    block_size dev = block_size pdev /\ total_size dev = count * block_size pdev /\
    startblock + count <= block_count pdev.

(** What a publisher must know of the parent: no erase geometry, and the window's
    start below 2^32 *)
Definition may_publish w (parent_name : list Z) (startblock : Z) : Prop :=
  forall d dev, d ∈ bdevs w -> devs w !! d = Some dev -> name dev = Some parent_name ->
    geometry dev = [] /\ startblock * block_size dev < 2 ^ 32.

Lemma wp_bail w h d err : inv w (plus1 d h) -> 0 <= h d -> d <> NULL -> wp (bail d err) (fun r w' => r = err /\ inv w' h /\ evolves w w') w.
Proof.
  intros I Hp Hd. unfold bail. rewrite (proj2 (Z.eqb_neq _ _)) by done. cbn [negb]. apply wp_seq.
  eapply wp_mono; [by apply wp_close|]. intros [] w' [I' Ev]. by apply wp_ret.
Qed.

Lemma wp_publish w h parent_name sub_name startblock count sub :
  inv w h -> 0 <= startblock < 2 ^ 32 -> 0 <= count < 2 ^ 32 -> may_publish w parent_name startblock ->
  (sub = NULL \/ devs w !! sub = None) ->
  wp (bio_publish_subdevice parent_name sub_name startblock count sub) (fun r w' => inv w' h /\
    (r = NO_ERROR /\ published w w' parent_name sub_name startblock count sub \/ r < 0 /\ evolves w w')) w.
Proof.
  intros I Hs Hc Hmay Hsub. unfold bio_publish_subdevice. apply wp_seq. eapply wp_mono; [by apply wp_open|]. cbn beta.
  intros p w1 [(-> & -> & _)|[Hop I1]].
  { unfold bail. cbn [Z.eqb NULL negb]. apply wp_seq, wp_ret, wp_ret. split; [done|]. by right. }
  pose proof (opened_evolves _ _ _ _ Hop) as Ev. pose proof (inv_nonneg _ _ p I) as Hhp.
  destruct Hop as (Hpn & Hpl & pdev & Hpd & Hpname & Hpr & Hw1). rewrite (proj2 (Z.eqb_neq p NULL)) by done.
  assert (Hbail : forall err, err < 0 -> wp (bail p err) (fun r w' => inv w' h /\
    (r = NO_ERROR /\ published w w' parent_name sub_name startblock count sub \/ r < 0 /\ evolves w w')) w1).
  { intros err He. eapply wp_mono; [by apply (wp_bail w1 h)|]. cbn beta. intros r w2 (-> & I2 & Ev2). split; [done|]. right. split; [done|]. by etrans. }
  destruct (sub =? NULL) eqn:Hsn; [by apply Hbail|apply Z.eqb_neq in Hsn].
  destruct Hsub as [|Hsd]; [done|]. destruct (Hmay p pdev Hpl Hpd Hpname) as [Hgeo Hfit].
  assert (Hd1 : devs w1 !! p = Some (with_ref (ref pdev + 1) pdev)) by (rewrite Hw1; cbn; by rewrite lookup_insert_eq).
  assert (Hsd1 : devs w1 !! sub = None) by (rewrite Hw1; cbn; rewrite lookup_insert_ne; [done|congruence]).
  apply wp_seq. eapply wp_get_dev; [done|]. apply wp_seq. unfold sub_geometry. cbn [geometry with_ref]. rewrite Hgeo. apply wp_ret.
  cbn [block_count with_ref]. destruct ((u32 (startblock + count) <? startblock) || (block_count pdev <? u32 (startblock + count))) eqn:Hchk; [by apply Hbail|].
  apply orb_false_iff in Hchk as [Hc1%Z.ltb_ge Hc2%Z.ltb_ge].
  destruct (iv_ok _ _ I p pdev Hpd) as [Hps _]. pose proof (sh_count _ Hps).
  assert (u32 (startblock + count) = startblock + count) as Hu.
  { unfold u32 in *. destruct (Z.lt_ge_cases (startblock + count) (2 ^ 32)) as [Hlt|Hge]; [by apply Z.mod_small; lia|].
    assert ((startblock + count) mod 2 ^ 32 = startblock + count - 2 ^ 32); [|lia].
    symmetry. apply (Z.mod_unique_pos _ _ 1); lia. }
  rewrite Hu in *. pose proof (block_size_pos _ Hps) as Hbs.
  assert (Hb31 : block_size pdev < 2 ^ 31) by (rewrite (sh_size _ Hps); apply Z.pow_lt_mono_r; [lia|lia|apply Hps]).
  apply wp_seq. apply initialize_run; [cbn; lia| |done|].
  { cbn [block_size with_ref]. rewrite (sh_size _ Hps). apply pow2_ispow2. pose proof (sh_shift _ Hps). lia. }
  intros dev Hds Hdb Hdc Heq. cbn [block_size with_ref] in Hdb. assert (Hdp : priv dev = Subdev p startblock) by (by rewrite Heq).
  apply wp_seq, wp_place; [done|done|]. apply wp_seq.
  apply (wp_register w1 h); [cbn [priv with_hooks]; by rewrite Hdp|intros e; by apply (inv_nonneg w)|done|done|by rewrite Heq|by apply hooks_shape|by rewrite Heq| |].
  - unfold kind_ok. cbn [priv with_ref with_hooks]. rewrite Hdp. split; [by split_and!|]. intros _.
    exists (with_ref (ref pdev + 1) pdev). cbn [devs add_dev]. rewrite lookup_insert_ne by congruence.
    cbn [block_size block_count ref with_ref with_hooks erase_byte]. rewrite Hdb, Hdc. split_and!; try lia; done.
  - intros I2. apply wp_ret. split; [done|]. left. split; [done|].
    destruct (iv_window _ _ I p) as (k & st & base & Hw); [by exists pdev|].
    assert (Hw1p : window w1 k p st base).
    { eapply evolves_window; [done|done|done|]. eexists. split; [done|]. cbn. lia. }
    eexists p, pdev, _, k, st, base. split_and!; [done|done|done|done| | |cbn; by rewrite lookup_insert_eq|by rewrite Heq|done| |done].
    + rewrite <- Hdb. apply (window_sub _ k sub (with_ref 1 (with_hooks Subdev_bytes Subdev_blocks Subdev_erase true (erase_byte (with_ref (ref pdev + 1) pdev)) dev)) p startblock st base);
        [cbn; by rewrite lookup_insert_eq|done|done|].
      eapply window_keep; [apply I2| |exact Hw1p|].
      * intros e v' Hv' _ v Hv. cbn in Hv'. rewrite lookup_insert_ne, Hv in Hv' by congruence. by injection Hv' as <-.
      * eexists. cbn. rewrite lookup_insert_ne by congruence. split; [done|]. cbn. lia.
    + rewrite Hw1. done.
    + cbn [total_size with_ref with_hooks]. by rewrite (sh_total _ Hds), Hdb, Hdc.
Qed.

(** ** Sequences of calls *)

Inductive call :=
| Create_membdev (n : list Z) (ptr len d : Z)
| Driver_register (n : list Z) (bsize bcount fl byte d : Z)
| Publish (parent sub : list Z) (startblock count d : Z)
| Open (n : list Z)
| Close (d : Z)
| Unregister (d : Z)
| Read (d buf offset len : Z)
| Write (d buf : Z) (src : list Z) (offset len : Z)
| Erase (d offset len : Z)
| Read_block (d block count : Z)
| Write_block (d : Z) (src : list Z) (block count : Z).

Definition run_call (c : call) : BM (Z * list Z) :=
  match c with
  | Create_membdev n ptr len d => let* r := create_membdev n ptr len d in ret (r, [])
  | Driver_register n bsize bcount fl byte d => driver_register n bsize bcount [] fl byte d ;; ret (0, [])
  | Publish parent sub startblock count d => let* r := bio_publish_subdevice parent sub startblock count d in ret (r, [])
  | Open n => let* r := bio_open n in ret (r, [])
  | Close d => bio_close d ;; ret (0, [])
  | Unregister d => bio_unregister_device d ;; ret (0, [])
  | Read d buf offset len => bio_read d buf offset len
  | Write d buf src offset len => let* r := bio_write d buf src offset len in ret (r, [])
  | Erase d offset len => let* r := bio_erase d offset len in ret (r, [])
  | Read_block d block count => bio_read_block d block count
  | Write_block d src block count => let* r := bio_write_block d src block count in ret (r, [])
  end.

(** The handles that were opened and not closed *)
Record config := Config { cf_world : world; held : list Z }.

Definition handles (l : list Z) : Z -> Z := fun d => Z.of_nat (length (filter (fun x => x = d) l)).

Fixpoint give_back (d : Z) (l : list Z) : list Z :=
  match l with [] => [] | x :: l => if x =? d then l else x :: give_back d l end.

Definition held_after (c : call) (r : Z * list Z) (l : list Z) : list Z :=
  match c with
  | Open _ => if fst r =? NULL then l else fst r :: l
  | Close d => give_back d l
  | _ => l
  end.

(** Transfers of at most 2^31 bytes, through a handle, between objects that are big enough *)
Definition allowed (cf : config) (c : call) : Prop :=
  let w := cf_world cf in
  match c with
  | Create_membdev _ ptr len d =>
      fresh w d /\ exists m, ram w !! ptr = Some m /\ 0 <= len <= Z.of_nat (length m) /\ Z.of_nat (length m) < 2 ^ 32
  | Driver_register _ bsize bcount _ _ d =>
      fresh w d /\ ispow2 bsize = true /\ 0 < bsize < 2 ^ 31 /\ 0 <= bcount < 2 ^ 32 /\ drv_bsize d = bsize /\
      Z.of_nat (length (drv_bytes (disk w) d)) = bcount * bsize
  | Publish parent _ startblock count d =>
      0 <= startblock < 2 ^ 32 /\ 0 <= count < 2 ^ 32 /\ may_publish w parent startblock /\ (d = NULL \/ devs w !! d = None)
  | Open _ => True
  | Close d => d ∈ held cf
  | Unregister d => d ∈ held cf /\ d ∈ bdevs w
  | Read d buf offset len => d ∈ held cf /\ buf <> NULL /\ 0 <= offset /\ 0 <= len < 2 ^ 31
  | Write d buf src offset len => d ∈ held cf /\ buf <> NULL /\ 0 <= offset /\ 0 <= len < 2 ^ 31 /\ len <= Z.of_nat (length src)
  | Erase d offset len => d ∈ held cf /\ 0 <= offset /\ 0 <= len < 2 ^ 31
  | Read_block d block count =>
      d ∈ held cf /\ 0 <= block /\ 0 <= count /\ block + count < 2 ^ 32 /\
      forall dev, devs w !! d = Some dev -> count * block_size dev < 2 ^ 31
  | Write_block d src block count =>
      d ∈ held cf /\ 0 <= block /\ 0 <= count /\ block + count < 2 ^ 32 /\
      forall dev, devs w !! d = Some dev -> count * block_size dev < 2 ^ 31 /\ count * block_size dev <= Z.of_nat (length src)
  end.

Inductive bio_reachable (m : gmap Z (list Z)) (dk : D) : config -> Prop :=
| bio_start : bio_reachable m dk (Config (World [] ∅ m dk) [])
| bio_step cf c r w' :
    bio_reachable m dk cf -> allowed cf c -> run_call c (cf_world cf) = (Ret r, w') ->
    bio_reachable m dk (Config w' (held_after c r (held cf))).

Definition good (cf : config) : Prop := inv (cf_world cf) (handles (held cf)).

Lemma inv_ext w h h' : (forall e, h e = h' e) -> inv w h -> inv w h'.
Proof.
  intros He [H1 H2 H3 H4 H5 H6 H7 H8]. constructor; try done.
  - intros d dev Hd. rewrite <- He. by apply H3.
  - intros d. rewrite <- He. apply H6.
Qed.

Lemma handles_cons d l e : handles (d :: l) e = plus1 d (handles l) e.
Proof.
  unfold handles, plus1. rewrite filter_cons. destruct (Z.eqb_spec e d) as [->|Hne].
  - rewrite decide_True by done. cbn [length]. lia.
  - rewrite decide_False by done. done.
Qed.

Lemma handles_give_back d l e : d ∈ l -> handles l e = plus1 d (handles (give_back d l)) e.
Proof.
  induction l as [|x l IH]; intros Hin; [by apply not_elem_of_nil in Hin|]. cbn [give_back].
  destruct (Z.eqb_spec x d) as [->|Hne]; [apply handles_cons|].
  apply elem_of_cons in Hin as [->|Hin]; [done|]. rewrite handles_cons. specialize (IH Hin).
  unfold plus1 in *. rewrite handles_cons. unfold plus1. repeat case_match; lia.
Qed.

Lemma handles_pos d l : d ∈ l -> 0 < handles l d.
Proof.
  intros Hin. rewrite (handles_give_back d l d Hin), plus1_same. unfold handles. lia.
Qed.

Lemma held_device cf d : good cf -> d ∈ held cf -> exists n st base dev,
  window (cf_world cf) n d st base /\ devs (cf_world cf) !! d = Some dev /\ shape dev.
Proof.
  intros G Hin. pose proof (held_alive _ _ _ G (handles_pos _ _ Hin)) as Hal.
  destruct (iv_window _ _ G d Hal) as (n & st & base & Hw). destruct Hal as (dev & Hd & _).
  exists n, st, base, dev. split_and!; [done|done|]. apply (iv_ok _ _ G d dev Hd).
Qed.

(** Bytes do not count. *)
Lemma frame_inv w w' h : frame w w' -> inv w h -> inv w' h.
Proof.
  intros F [H1 H2 H3 H4 H5 H6 H7 H8]. pose proof (fr_devs _ _ F) as Hv. pose proof (fr_bdevs _ _ F) as Hb.
  constructor; unfold listed, alive in *; rewrite ?Hv, ?Hb; try done; [by eapply frame_devs_ok|].
  intros d Hd. destruct (H2 d Hd) as (n & st & base & Hw). exists n, st, base. by eapply frame_window.
Qed.

Lemma call_good cf c :
  good cf -> allowed cf c -> wp (run_call c) (fun r w' => good (Config w' (held_after c r (held cf)))) (cf_world cf).
Proof.
  intros G Ha. destruct cf as [w l]. unfold good in *. cbn [cf_world held] in *.
  destruct c as [n ptr len d|n bsize bcount fl byte d|parent sub s cnt d|n|d|d|d buf off len|d buf src off len|d off len|d block cnt|d src block cnt];
    cbn [run_call held_after] in *; unfold allowed in Ha; cbn [cf_world held] in Ha.
  - destruct Ha as (Hf & m & Hm & Hl & Hml). apply wp_seq. eapply wp_mono; [by eapply wp_create_membdev|].
    intros r w' (-> & I & _). by apply wp_ret.
  - destruct Ha as (Hf & Hp & Hb & Hc & Hd & Hl). apply wp_seq. eapply wp_mono; [by apply (wp_driver_register w (handles l))|].
    intros r w' (I & _). by apply wp_ret.
  - destruct Ha as (Hs & Hc & Hm & Hd). apply wp_seq. eapply wp_mono; [by apply (wp_publish w (handles l))|].
    intros r w' (I & _). by apply wp_ret.
  - apply wp_seq. eapply wp_mono; [by apply (wp_open w (handles l))|]. intros r w' [(-> & -> & _)|[Hop I]]; apply wp_ret; [done|].
    cbn [fst]. rewrite (proj2 (Z.eqb_neq r NULL)) by apply Hop. eapply inv_ext; [|exact I]. intros e. by rewrite handles_cons.
  - apply wp_seq. eapply wp_mono; [apply (wp_close w (handles (give_back d l)))|].
    + eapply inv_ext; [|exact G]. intros e. by apply handles_give_back.
    + unfold handles. lia.
    + intros r w' [I _]. by apply wp_ret.
  - destruct Ha as [_ Hin]. apply wp_seq. eapply wp_mono; [by apply (wp_unregister w (handles l))|]. intros r w' [I _]. by apply wp_ret.
  - destruct Ha as (Hin & Hb & Ho & Hl). destruct (held_device (Config w l) d G Hin) as (n & st & base & dev & Hw & Hd & Hs).
    eapply wp_mono; [eapply wp_read; [apply G|done..]|]. cbn beta zeta. intros r w' [[F _] _]. by eapply frame_inv.
  - destruct Ha as (Hin & Hb & Ho & Hl & Hsrc). destruct (held_device (Config w l) d G Hin) as (n & st & base & dev & Hw & Hd & Hs).
    apply wp_seq. eapply wp_mono; [eapply wp_write; [apply G|done..]|]. cbn beta zeta.
    intros r w' [[_ [F _]]|(_ & _ & F & _)]; apply wp_ret; by eapply frame_inv.
  - destruct Ha as (Hin & Ho & Hl). destruct (held_device (Config w l) d G Hin) as (n & st & base & dev & Hw & Hd & Hs).
    apply wp_seq. eapply wp_mono; [eapply wp_erase; [apply G|done..]|]. cbn beta zeta.
    intros r w' [[_ [F _]]|(_ & _ & F & _)]; apply wp_ret; by eapply frame_inv.
  - destruct Ha as (Hin & Hb & Hc & Hs & Hsz). destruct (held_device (Config w l) d G Hin) as (n & st & base & dev & Hw & Hd & Hsh).
    pose proof (block_size_pos _ Hsh). specialize (Hsz dev Hd).
    eapply wp_mono; [eapply wp_read_block; [apply G|done|done|done|done|done|nia]|]. cbn beta zeta. intros r w' [[F _] _]. by eapply frame_inv.
  - destruct Ha as (Hin & Hb & Hc & Hs & Hsz). destruct (held_device (Config w l) d G Hin) as (n & st & base & dev & Hw & Hd & Hsh).
    pose proof (block_size_pos _ Hsh). destruct (Hsz dev Hd) as [Hsz1 Hsz2].
    apply wp_seq. eapply wp_mono; [eapply wp_write_block; [apply G|done|done|done|done|done|nia|nia]|]. cbn beta zeta.
    intros r w' [(_ & _ & ->)|[_ [[_ [F _]]|(_ & _ & _ & F & _)]]]; apply wp_ret; [done|by eapply frame_inv..].
Qed.

Lemma reachable_good m dk cf : bio_reachable m dk cf -> good cf.
Proof.
  intros Hr. induction Hr as [|cf c r w' Hr IH Ha Hrun].
  - unfold good; cbn. constructor; cbn.
    + intros d dev Hd. done.
    + intros d (dev & Hd & _). done.
    + intros d dev Hd. done.
    + intros d Hd. by apply not_elem_of_nil in Hd.
    + apply NoDup_nil_2.
    + intros d. done.
    + intros d dev Hd. done.
    + done.
  - pose proof (call_good cf c IH Ha) as Hw. unfold wp in Hw. by rewrite Hrun in Hw.
Qed.

(** C26: Block devices under any sequence of calls by holders of handles, the parents of
    windows and failures of the disks included: every call returns.  No device is
    used when it is gone, none loses its last reference while it is listed, no
    transfer leaves its memory, and the nesting of windows ends. *)
Theorem bio_safe m dk cf c :
  bio_reachable m dk cf -> allowed cf c -> exists r w', run_call c (cf_world cf) = (Ret r, w').
Proof.
  intros Hr Ha. pose proof (call_good cf c (reachable_good m dk cf Hr) Ha) as Hw.
  apply wp_run in Hw as (r & w' & Hrun & _). by exists r, w'.
Qed.

(** C25: Every device that can be reached through a handle is a window into the memory
    or the disk at the bottom: for an offset of at least 0 and a length below 2^31,
    reading answers its bytes, writing and erasing change exactly those (cut to the
    device's size), whichever blocks the disk is made of, or, on a disk only, answer an
    error, and then nothing outside of the blocks that the range meets has changed. *)
Theorem bio_windows m dk cf d :
  bio_reachable m dk cf -> d ∈ held cf ->
  let w := cf_world cf in
  exists n st base dev, window w n d st base /\ devs w !! d = Some dev /\
    base + total_size dev <= Z.of_nat (length (store_bytes w st)) /\
    (forall buf offset len, buf <> NULL -> 0 <= offset -> 0 <= len < 2 ^ 31 ->
       let k := Z.max 0 (Z.min len (total_size dev - offset)) in
       exists r w', bio_read d buf offset len w = (Ret r, w') /\ unchanged w w' /\
         (r = (k, slice (Z.to_nat (base + offset)) (Z.to_nat k) (store_bytes w st)) \/ is_disk st /\ fst r < 0 /\ Z.of_nat (length (snd r)) <= k)) /\
    (forall buf src offset len, buf <> NULL -> 0 <= offset -> 0 <= len < 2 ^ 31 -> len <= Z.of_nat (length src) ->
       let k := Z.max 0 (Z.min len (total_size dev - offset)) in
       exists r w', bio_write d buf src offset len w = (Ret r, w') /\
         (r = k /\ wrote w w' st (base + offset) (take (Z.to_nat k) src) \/
          is_disk st /\ r < 0 /\ confined w w' st (base + blocks_from (block_size dev) offset) (base + blocks_to (block_size dev) (offset + k)))) /\
    (forall offset len, 0 <= offset -> 0 <= len < 2 ^ 31 ->
       let k := Z.max 0 (Z.min len (total_size dev - offset)) in
       exists r w', bio_erase d offset len w = (Ret r, w') /\
         (r = k /\ wrote w w' st (base + offset) (replicate (Z.to_nat k) (erase_byte dev)) \/
          is_disk st /\ r < 0 /\ confined w w' st (base + blocks_from (block_size dev) offset) (base + blocks_to (block_size dev) (offset + k)))).
Proof.
  intros Hr Hin w. pose proof (reachable_good m dk cf Hr) as G.
  destruct (held_device cf d G Hin) as (n & st & base & dev & Hw & Hd & Hs).
  destruct (window_bounds _ _ _ _ _ (iv_ok _ _ G) Hw) as (dev' & Hd' & _ & _ & _ & Hfit). rewrite Hd in Hd'. injection Hd' as <-.
  exists n, st, base, dev. split_and!; [done|done|done|..].
  - intros buf offset len Hb Ho Hl k. by apply wp_run, (wp_read w n d dev st base); [apply G|..].
  - intros buf src offset len Hb Ho Hl Hsrc k. by apply wp_run, (wp_write w n d dev st base); [apply G|..].
  - intros offset len Ho Hl k. by apply wp_run, (wp_erase w n d dev st base); [apply G|..].
Qed.
End bio.
