(* ===== verification/BioRuns.v ===== *)
(** * Block devices on samples

    A disk of blocks of four bytes with a bad block, a window on it, and the cases in
    which bio.c does not do what it means to. *)

From stdpp Require Import prelude list gmap.
From Stdlib Require Import ZArith Lia.
From S2P Require Import Prelude Pow2 Timer Kernel Bio BioInv BioIo BioBytes BioRef BioProps.

Open Scope Z_scope.
Open Scope lk_scope.

(** ** A driver *)

Definition sample_bsize : Z := 4.
Definition bad_block : Z := 7.

Notation sample_disks := (gmap Z (list Z)).

(** The transfer is good: inside the disk and without the bad block. *)
Definition transfer_ok (m : list Z) (block count : Z) : bool :=
  (0 <=? block) && (0 <? count) && ((block + count) * sample_bsize <=? Z.of_nat (length m)) &&
  ((bad_block <? block) || (block + count <=? bad_block)).

#[export] Instance sample_driver : Driver sample_disks := {|
  drv_read_block d block count dk :=
    let m := default [] (dk !! d) in
    if transfer_ok m block count
    then ((count * sample_bsize, slice (Z.to_nat (block * sample_bsize)) (Z.to_nat (count * sample_bsize)) m), dk)
    else ((ERR_IO, []), dk);
  drv_write_block d src block count dk :=
    let m := default [] (dk !! d) in
    if transfer_ok m block count
    then (count * sample_bsize, <[d := splice (Z.to_nat (block * sample_bsize)) (take (Z.to_nat (count * sample_bsize)) src) m]> dk)
    else (ERR_IO, dk)
|}.

#[export] Instance sample_driver_laws : DriverLaws sample_disks.
Proof.
  refine {| drv_bytes := fun dk d => default [] (dk !! d); drv_bsize := fun _ => sample_bsize |}.
  - intros d block count dk r dk' _ Hb Hc Hs Hin. cbn. destruct (transfer_ok _ _ _); intros [= <- <-]; (split; [done|]).
    + left. done.
    + right. cbn. unfold ERR_IO, sample_bsize. lia.
  - intros d src block count dk r dk' _ Hb Hc Hs Hin Hsrc. cbn. destruct (transfer_ok _ _ _); intros [= <- <-]; split.
    + intros e He. by rewrite lookup_insert_ne by congruence.
    + left. by rewrite lookup_insert_eq.
    + done.
    + right. unfold ERR_IO, sample_bsize in *. cbn. split_and!; (lia || done).
Defined.

(** ** A run *)

Definition disk_name : list Z := [104; 100].
Definition window_name : list Z := [104; 100; 112; 48].
Definition disk_bytes : list Z := seqZ 0 32.
Definition sample_start : config (D := sample_disks) := Config (World [] ∅ ∅ {[ 300 := disk_bytes ]}) [].

Definition after (c : call) (cf : config (D := sample_disks)) : config :=
  let '(r, w') := run_call c (cf_world cf) in
  Config w' (held_after c (match r with Ret r => r | _ => (0, []) end) (held cf)).

(** A disk of eight blocks, a window on blocks 2 to 4, and a handle to it *)
Definition cf1 : config := after (Driver_register disk_name 4 8 0 255 300) sample_start.
Definition cf2 : config := after (Publish disk_name window_name 2 3 301) cf1.
Definition cf3 : config := after (Open window_name) cf2.

Lemma cf3_reachable : bio_reachable ∅ {[ 300 := disk_bytes ]} cf3.
Proof.
  assert (H0 : bio_reachable ∅ {[ 300 := disk_bytes ]} sample_start) by apply bio_start.
  assert (H1 : bio_reachable ∅ {[ 300 := disk_bytes ]} cf1).
  { apply (bio_step ∅ {[ 300 := disk_bytes ]} sample_start (Driver_register disk_name 4 8 0 255 300) (0, []) (cf_world cf1)); [done| |reflexivity].
    cbn. split; [by split|]. split_and!; (reflexivity || lia || done). }
  assert (H2 : bio_reachable ∅ {[ 300 := disk_bytes ]} cf2).
  { apply (bio_step ∅ {[ 300 := disk_bytes ]} cf1 (Publish disk_name window_name 2 3 301) (0, []) (cf_world cf2)); [done| |reflexivity].
    cbn [allowed]. split; [lia|]. split; [lia|]. split; [|by right].
    intros d dev Hd Hdev _. assert (d = 300) as ->. { apply list_elem_of_singleton. exact Hd. }
    assert (devs (cf_world cf1) !! 300 = Some dev) as Hx by exact Hdev. vm_compute in Hx. injection Hx as <-. split; [done|cbn [block_size]; lia]. }
  apply (bio_step ∅ {[ 300 := disk_bytes ]} cf2 (Open window_name) (301, []) (cf_world cf3)); [done|done|reflexivity].
Qed.

(** Writing five bytes over the end of a block of the window *)
Lemma bio_safe_witness :
  exists r w', run_call (Write 301 64 [1; 2; 3; 4; 5] 2 5) (cf_world cf3) = (Ret r, w').
Proof.
  apply (bio_safe ∅ {[ 300 := disk_bytes ]} cf3 (Write 301 64 [1; 2; 3; 4; 5] 2 5) cf3_reachable).
  cbn [allowed]. split; [by apply list_elem_of_singleton|]. split_and!; (done || cbn; lia).
Defined.

(** ... changes the bytes 10 to 14 of the disk; through the window they are bytes 2
    to 6. *)
Example window_write :
  let '(r, w') := bio_write 301 64 [1; 2; 3; 4; 5] 2 5 (cf_world cf3) in
  r = Ret 5 /\ store_bytes w' (Disk 300) = seqZ 0 10 ++ [1; 2; 3; 4; 5] ++ seqZ 15 17 /\
  fst (bio_read 301 64 0 20 w') = Ret (12, [8; 9; 1; 2; 3; 4; 5; 15; 16; 17; 18; 19]).
Proof. vm_compute. done. Qed.

Lemma bio_windows_witness :
  let w := cf_world cf3 in
  exists n st base dev, window w n 301 st base /\ devs w !! 301 = Some dev /\
    base + total_size dev <= Z.of_nat (length (store_bytes w st)) /\
    (forall buf offset len, buf <> NULL -> 0 <= offset -> 0 <= len < 2 ^ 31 ->
       let k := Z.max 0 (Z.min len (total_size dev - offset)) in
       exists r w', bio_read 301 buf offset len w = (Ret r, w') /\ unchanged w w' /\
         (r = (k, slice (Z.to_nat (base + offset)) (Z.to_nat k) (store_bytes w st)) \/ is_disk st /\ fst r < 0 /\ Z.of_nat (length (snd r)) <= k)) /\
    (forall buf src offset len, buf <> NULL -> 0 <= offset -> 0 <= len < 2 ^ 31 -> len <= Z.of_nat (length src) ->
       let k := Z.max 0 (Z.min len (total_size dev - offset)) in
       exists r w', bio_write 301 buf src offset len w = (Ret r, w') /\
         (r = k /\ wrote w w' st (base + offset) (take (Z.to_nat k) src) \/
          is_disk st /\ r < 0 /\ confined w w' st (base + blocks_from (block_size dev) offset) (base + blocks_to (block_size dev) (offset + k)))) /\
    (forall offset len, 0 <= offset -> 0 <= len < 2 ^ 31 ->
       let k := Z.max 0 (Z.min len (total_size dev - offset)) in
       exists r w', bio_erase 301 offset len w = (Ret r, w') /\
         (r = k /\ wrote w w' st (base + offset) (replicate (Z.to_nat k) (erase_byte dev)) \/
          is_disk st /\ r < 0 /\ confined w w' st (base + blocks_from (block_size dev) offset) (base + blocks_to (block_size dev) (offset + k)))).
Proof. apply (bio_windows ∅ {[ 300 := disk_bytes ]} cf3 301 cf3_reachable). by apply list_elem_of_singleton. Defined.

(** ** Where bio.c does something else *)

Definition run_all {A} (c : BM sample_disks A) : outcome Empty_set A :=
  fst (c (World [] ∅ {[ 400 := seqZ 0 2048 ]} {[ 300 := disk_bytes ]})).

(** bio_trim_block_range adds in 32 bits: a count close to 2^32 is not cut, and the
    read leaves the memory. *)
Theorem block_trim_wraps :
  run_all (create_membdev disk_name 400 2048 302 ;; bio_read_block 302 1 3) = Ret (1536, seqZ 512 1536) /\
  run_all (create_membdev disk_name 400 2048 302 ;; bio_read_block 302 1 (2 ^ 32 - 2)) = Ret (1536, seqZ 512 1536) /\
  run_all (create_membdev disk_name 400 2048 302 ;; bio_read_block 302 1 (2 ^ 32 - 1)) = Fault.
Proof. split_and!; vm_compute; reflexivity. Qed.

(** A disk of 2^31 blocks whose bytes are the numbers of their blocks *)
#[export] Instance numbered_driver : Driver unit := {|
  drv_read_block _ block count dk := ((count * 4, concat (map (fun b => replicate 4 b) (seqZ block count))), dk);
  drv_write_block _ _ _ _ dk := (ERR_IO, dk)
|}.

Definition run_numbered {A} (c : BM unit A) : outcome Empty_set A := fst (c (World [] ∅ ∅ tt)).

(** The byte offset of a subdevice is a product of 32 bits: a window that begins at
    4 GiB shows other bytes to bio_read than to bio_read_block. *)
Theorem subdev_wraps :
  let publish := driver_register disk_name 4 (2 ^ 31) [] 0 255 300 ;;
                 bio_publish_subdevice disk_name window_name (2 ^ 30) 2 301 in
  run_numbered (publish ;; bio_read_block 301 0 1) = Ret (4, replicate 4 (2 ^ 30)) /\
  run_numbered (publish ;; bio_read 301 64 0 4) = Ret (4, replicate 4 0).
Proof. split; vm_compute; reflexivity. Qed.

(** The search for the erase region always ends with one: with a geometry a window
    outside of its device is published. *)
Theorem publish_outside :
  let register geo := driver_register disk_name 4 8 geo 0 255 300 in
  let publish := bio_publish_subdevice disk_name window_name 100 2 301 in
  run_numbered (register [] ;; publish) = Ret ERR_INVALID_ARGS /\
  run_numbered (register [Erase_geometry 0 32 4 2] ;; publish) = Ret NO_ERROR.
Proof. split; vm_compute; reflexivity. Qed.
