(* ===== verification/Bcache.v ===== *)
(** * lib/bcache: a cache of the blocks of a device

    The two lists of the cache are those of list.h, on nodes in memory ([LkList]): a
    block is known by the address of its node, which is its first member.  Its
    buffer is another object, whose address bcache_get_block hands out, so buffers
    are in a map of their own.  The device is behind the class [Blockdev], the calls
    of lib/bio that the cache makes. *)

From stdpp Require Import prelude list gmap.
From Stdlib Require Import ZArith Lia.
From S2P Require Import Prelude LkList.

Open Scope Z_scope.
Open Scope lk_scope.

(** bio_read answers its code and the bytes it stored from the start of the buffer;
    the buffers are addresses, bio_write gets the bytes at its address too. *)
Class Blockdev (W : Type) := {
  blk_read : Z -> Z -> Z -> Z -> M W Empty_set (Z * list Z);
  blk_write : Z -> Z -> list Z -> Z -> Z -> M W Empty_set Z
}.

(** ** Data *)

Record bcache_block := Block { blocknum : Z; ref_count : Z; is_dirty : bool; ptr : Z }.

Record bcache_stats := Stats { st_hits : Z; st_depth : Z; st_misses : Z; st_reads : Z; st_writes : Z }.

(** What a malloc of create returned: where, and what is there by then *)
Record raw := Raw { raw_ptr : Z; raw_bytes : list Z; raw_num : Z }.

Section bcache.
Context {W : Type} {HW : Blockdev W}.

(** The cache at address [self], its array of blocks at [blocks_at], and the device *)
Record bcache := Bcache {
  self : Z;
  dev : Z;
  block_size : Z;
  count : Z;
  stats : bcache_stats;
  links : nodes;
  blocks_at : Z;
  blocks : gmap Z bcache_block;
  bufs : gmap Z (list Z);
  io : W
}.

Definition CM (A : Type) : Type := M bcache Empty_set A.

(** sizeof(struct bcache_block), and the offsets of the lists in struct bcache *)
Definition sizeof_block : Z := 24.
Definition free_list (c : bcache) : Z := self c + 32.
Definition lru_list (c : bcache) : Z := self c + 40.
Definition block_at (c : bcache) (i : Z) : Z := blocks_at c + sizeof_block * i.

Definition with_stats (st : bcache_stats) (c : bcache) : bcache :=
  Bcache (self c) (dev c) (block_size c) (count c) st (links c) (blocks_at c) (blocks c) (bufs c) (io c).
Definition with_links (m : nodes) (c : bcache) : bcache :=
  Bcache (self c) (dev c) (block_size c) (count c) (stats c) m (blocks_at c) (blocks c) (bufs c) (io c).
Definition with_blocks (bs : gmap Z bcache_block) (c : bcache) : bcache :=
  Bcache (self c) (dev c) (block_size c) (count c) (stats c) (links c) (blocks_at c) bs (bufs c) (io c).
Definition with_bufs (m : gmap Z (list Z)) (c : bcache) : bcache :=
  Bcache (self c) (dev c) (block_size c) (count c) (stats c) (links c) (blocks_at c) (blocks c) m (io c).
Definition with_io (w : W) (c : bcache) : bcache :=
  Bcache (self c) (dev c) (block_size c) (count c) (stats c) (links c) (blocks_at c) (blocks c) (bufs c) w.

(** Code of list.h and of lib/bio *)
Definition in_links {A} (f : LM A) : CM A :=
  fun c => let '(o, m) := f (links c) in (o, with_links m c).
Definition in_io {A} (f : M W Empty_set A) : CM A :=
  fun c => let '(o, w) := f (io c) in (o, with_io w c).

Definition get_block (b : Z) : CM bcache_block := let* c := get in deref (blocks c !! b).
Definition put_block (b : Z) (v : bcache_block) : CM unit := modify (fun c => with_blocks (<[b := v]> (blocks c)) c).
Definition get_buf (p : Z) : CM (list Z) := let* c := get in deref (bufs c !! p).
Definition put_buf (p : Z) (m : list Z) : CM unit := modify (fun c => with_bufs (<[p := m]> (bufs c)) c).

Definition set_blocknum (n : Z) (v : bcache_block) := Block n (ref_count v) (is_dirty v) (ptr v).
Definition set_ref_count (n : Z) (v : bcache_block) := Block (blocknum v) n (is_dirty v) (ptr v).
Definition set_dirty (d : bool) (v : bcache_block) := Block (blocknum v) (ref_count v) d (ptr v).

(** Stores into a buffer *)
Definition store_buf (p off : Z) (bytes : list Z) : CM unit :=
  match bytes with
  | [] => ret tt
  | _ =>
      let* m := get_buf p in
      if (0 <=? off) && (off + Z.of_nat (length bytes) <=? Z.of_nat (length m))
      then put_buf p (splice (Z.to_nat off) bytes m) else fault
  end.

(** ** Create and destroy *)

(** malloc(0) or NULL: what is not an object is not put into the maps. *)
Definition place_buf (r : raw) : CM unit := if raw_ptr r =? NULL then ret tt else put_buf (raw_ptr r) (raw_bytes r).

(** A new object has nodes with what was there before; nothing reads them. *)
Definition place_node (a : Z) : CM unit := modify (fun c => with_links (<[a := Node NULL NULL]> (links c)) c).

Definition create_block (heap : Z -> raw) (i : Z) : CM unit :=
  let* c := get in
  let b := block_at c i in
  (if blocks_at c =? NULL then fault else ret tt) ;;
  place_node b ;;
  put_block b (Block (raw_num (heap i)) 0 false (raw_ptr (heap i))) ;;
  place_buf (heap i) ;;
  in_links (list_add_head (free_list c) b).

(** [cache], [at] and [heap] are what the calls of malloc returned. *)
Definition bcache_create (d bsize block_count cache at_ : Z) (heap : Z -> raw) : CM unit :=
  (if cache =? NULL then fault else ret tt) ;;
  modify (fun c => Bcache cache d bsize block_count (Stats 0 0 0 0 0) ∅ at_ ∅ ∅ (io c)) ;;
  let* c := get in
  place_node (free_list c) ;;
  place_node (lru_list c) ;;
  in_links (list_initialize (free_list c)) ;;
  in_links (list_initialize (lru_list c)) ;;
  for_each (seqZ 0 block_count) (create_block heap).

(** free of a buffer, and of a pointer that is none *)
Definition free_buf (p : Z) : CM unit :=
  let* c := get in
  if p =? NULL then ret tt
  else let* _ := deref (bufs c !! p) in modify (fun c => with_bufs (delete p (bufs c)) c).

(** The array of blocks is not freed. *)
Definition bcache_destroy : CM unit :=
  let* c := get in
  for_each (seqZ 0 (count c)) (fun i =>
    let* b := get_block (block_at c i) in
    assert_ (ref_count b =? 0) ;;
    free_buf (ptr b)) ;;
  modify (fun c => with_links (delete (free_list c) (delete (lru_list c) (links c))) c).

(** ** Blocks *)

Definition count_hit (depth : Z) : CM unit :=
  modify (fun c => let s := stats c in
    with_stats (Stats (u32 (st_hits s + 1)) (u32 (st_depth s + depth)) (st_misses s) (st_reads s) (st_writes s)) c).
Definition count_miss : CM unit :=
  modify (fun c => let s := stats c in
    with_stats (Stats (st_hits s) (st_depth s) (u32 (st_misses s + 1)) (st_reads s) (st_writes s)) c).
Definition count_read : CM unit :=
  modify (fun c => let s := stats c in
    with_stats (Stats (st_hits s) (st_depth s) (st_misses s) (u32 (st_reads s + 1)) (st_writes s)) c).
Definition count_write : CM unit :=
  modify (fun c => let s := stats c in
    with_stats (Stats (st_hits s) (st_depth s) (st_misses s) (st_reads s) (u32 (st_writes s + 1))) c).

Definition flush_block (b : Z) : CM Z :=
  let* c := get in
  let* v := get_block b in
  let* rc := in_io (blk_write (dev c) (ptr v) (default [] (bufs c !! ptr v)) (blocknum v * block_size c) (block_size c)) in
  if rc <? 0 then ret rc
  else put_block b (set_dirty false v) ;; count_write ;; ret 0.

(** list_delete and list_add_tail to the list of used blocks *)
Definition to_tail (b : Z) : CM unit :=
  let* c := get in
  in_links (list_delete b) ;; in_links (list_add_tail (lru_list c) b).

(** The walks over the used blocks have the nodes in memory as fuel. *)
Fixpoint find_from (fuel : nat) (b depth num : Z) : CM Z :=
  match fuel with
  | O => hang
  | S fuel =>
      let* c := get in
      if b =? lru_list c then count_miss ;; ret NULL
      else
        let* v := get_block b in
        if blocknum v =? num then
          to_tail b ;; count_hit (u32 (depth + 1)) ;; ret b
        else
          let* b := in_links (get_next b) in
          find_from fuel b (u32 (depth + 1)) num
  end.

Definition find_block (num : Z) : CM Z :=
  let* c := get in
  let* b := in_links (get_next (lru_list c)) in
  find_from (S (size (links c))) b 0 num.

Fixpoint alloc_from (fuel : nat) (b : Z) : CM Z :=
  match fuel with
  | O => hang
  | S fuel =>
      let* c := get in
      if b =? lru_list c then ret NULL
      else
        let* v := get_block b in
        if ref_count v =? 0 then
          let* err := (if is_dirty v then flush_block b else ret 0) in
          if negb (err =? 0) then ret NULL
          else to_tail b ;; ret b
        else
          let* b := in_links (get_next b) in
          alloc_from fuel b
  end.

Definition alloc_block : CM Z :=
  let* c := get in
  let* b := in_links (list_remove_head (free_list c)) in
  if negb (b =? NULL) then
    let* v := get_block b in
    put_block b (set_ref_count 0 v) ;;
    in_links (list_add_tail (lru_list c) b) ;;
    ret b
  else
    let* b := in_links (get_next (lru_list c)) in
    alloc_from (S (size (links c))) b.

(** bio_read into the buffer of a block *)
Definition read_into (b : Z) (num : Z) : CM Z :=
  let* c := get in
  let* v := get_block b in
  let* r := in_io (blk_read (dev c) (ptr v) (num * block_size c) (block_size c)) in
  store_buf (ptr v) 0 (snd r) ;;
  ret (fst r).

Definition find_or_fill_block (num : Z) : CM Z :=
  let* b := find_block num in
  let* b :=
    (if b =? NULL then
       let* b := alloc_block in
       assert_ (negb (b =? NULL)) ;;
       let* v := get_block b in
       put_block b (set_blocknum num v) ;;
       let* err := read_into b num in
       if err <? 0 then let* c := get in in_links (list_add_tail (free_list c) b) ;; ret NULL
       else count_read ;; ret b
     else ret b) in
  if b =? NULL then ret NULL
  else
    let* v := get_block b in
    assert_ (blocknum v =? num) ;;
    ret b.

(** ** Calls *)

(** The code, and what was copied to the caller *)
Definition bcache_read_block (num : Z) : CM (Z * list Z) :=
  let* b := find_or_fill_block num in
  if b =? NULL then ret (-1, [])
  else
    let* c := get in
    let* v := get_block b in
    let* m := get_buf (ptr v) in
    if block_size c <=? Z.of_nat (length m) then ret (0, take (Z.to_nat (block_size c)) m) else fault.

(** The code, and the address of the buffer *)
Definition bcache_get_block (num : Z) : CM (Z * Z) :=
  let* b := find_or_fill_block num in
  if b =? NULL then ret (-1, NULL)
  else
    let* v := get_block b in
    put_block b (set_ref_count (s32 (ref_count v + 1)) v) ;;
    ret (0, ptr v).

Definition bcache_put_block (num : Z) : CM Z :=
  let* b := find_block num in
  assert_ (negb (b =? NULL)) ;;
  let* v := get_block b in
  assert_ (0 <? ref_count v) ;;
  put_block b (set_ref_count (s32 (ref_count v - 1)) v) ;;
  ret 0.

Definition bcache_mark_block_dirty (num : Z) : CM Z :=
  let* b := find_block num in
  if b =? NULL then ret (-1)
  else
    let* v := get_block b in
    put_block b (set_dirty true v) ;;
    ret 0.

Definition zero_buf (b : Z) : CM Z :=
  let* c := get in
  let* v := get_block b in
  store_buf (ptr v) 0 (replicate (Z.to_nat (block_size c)) 0) ;;
  put_block b (set_dirty true v) ;;
  ret 0.

Definition bcache_zero_block (num : Z) : CM Z :=
  let* b := find_block num in
  if b =? NULL then
    let* b := alloc_block in
    if b =? NULL then ret (-1)
    else
      let* v := get_block b in
      put_block b (set_blocknum num v) ;;
      zero_buf b
  else zero_buf b.

Fixpoint flush_from (fuel : nat) (b : Z) : CM Z :=
  match fuel with
  | O => hang
  | S fuel =>
      let* c := get in
      if b =? lru_list c then ret 0
      else
        let* v := get_block b in
        let* err := (if is_dirty v then flush_block b else ret 0) in
        if negb (err =? 0) then ret err
        else
          let* b := in_links (get_next b) in
          flush_from fuel b
  end.

Definition bcache_flush : CM Z :=
  let* c := get in
  let* b := in_links (get_next (lru_list c)) in
  flush_from (S (size (links c))) b.
End bcache.
Arguments bcache : clear implicits.
Arguments CM : clear implicits.
