(* ===== verification/BcacheInv.v ===== *)
(** * What the cache holds

    [rel] relates a cache to the blocks its clients see ([cview]: the contents and
    the pins): the used blocks are those of the list, a clean one is on the device,
    and what is not cached is there too.  A block between the two states (taken, not
    yet filled) is a list of its own. *)

From stdpp Require Import prelude list gmap.
From Stdlib Require Import ZArith Lia.
From S2P Require Import Prelude LkList LkListProps Bcache.

Open Scope Z_scope.
Open Scope lk_scope.

(** ** Devices that do what is asked of them, or say that they did not *)

Class BlockdevLaws (W : Type) {HW : Blockdev W} (d : Z) := {
  bd_ok : W -> Prop;
  bd_bytes : W -> list Z;
  bd_fails : Prop;
  bd_read buf off len w :
    bd_ok w -> buf <> NULL -> 0 <= off -> 0 <= len < 2 ^ 31 -> off + len <= Z.of_nat (length (bd_bytes w)) ->
    wp (blk_read d buf off len) (fun r w' => bd_ok w' /\ bd_bytes w' = bd_bytes w /\
      (r = (len, slice (Z.to_nat off) (Z.to_nat len) (bd_bytes w)) \/ bd_fails /\ fst r < 0 /\ Z.of_nat (length (snd r)) <= len)) w;
  bd_write buf src off len w :
    bd_ok w -> buf <> NULL -> 0 <= off -> 0 <= len < 2 ^ 31 -> off + len <= Z.of_nat (length (bd_bytes w)) ->
    len <= Z.of_nat (length src) ->
    wp (blk_write d buf src off len) (fun r w' => bd_ok w' /\
      (r = len /\ bd_bytes w' = splice (Z.to_nat off) (take (Z.to_nat len) src) (bd_bytes w) \/ bd_fails /\ r < 0)) w
}.

Arguments bd_ok {W HW} d {_} _.
Arguments bd_bytes {W HW} d {_} _.
Arguments bd_fails {W HW} d {_}.

(** ** The client's view *)

Record cview := Cview { content : Z -> list Z; pins : gmap Z (Z * Z) }.

(** How often a block is pinned, and where its buffer is *)
Definition pin_of (v : bcache_block) : option (Z * Z) := if ref_count v =? 0 then None else Some (ref_count v, ptr v).

Section state.
Context {W : Type} {HW : Blockdev W}.
Notation bcache := (bcache W).
Notation CM := (CM W).
Implicit Types (c : bcache) (fl ll lx : list Z).

Lemma wp_in_links {T} (f : LM T) a m (Q : T -> bcache -> Prop) c : f (links c) = (Ret a, m) -> Q a (with_links m c) -> wp (in_links f) Q c.
Proof. unfold wp, in_links. by intros ->. Qed.

Lemma wp_in_io {T} (f : M W Empty_set T) (Q : T -> bcache -> Prop) c :
  wp f (fun a w => Q a (with_io w c)) (io c) -> wp (in_io f) Q c.
Proof. unfold wp, in_io. by destruct (f (io c)) as [[] ?]. Qed.

Lemma wp_get_block b v (Q : bcache_block -> bcache -> Prop) c : blocks c !! b = Some v -> Q v c -> wp (get_block b) Q c.
Proof. intros Hv HQ. unfold get_block. apply wp_seq, wp_get. by eapply wp_deref. Qed.

Lemma wp_cache_buf p m (Q : list Z -> bcache -> Prop) c : bufs c !! p = Some m -> Q m c -> wp (get_buf p) Q c.
Proof. intros Hm HQ. unfold get_buf. apply wp_seq, wp_get. by eapply wp_deref. Qed.

Lemma wp_store_buf p off bytes m (Q : unit -> bcache -> Prop) c :
  bufs c !! p = Some m -> 0 <= off -> off + Z.of_nat (length bytes) <= Z.of_nat (length m) ->
  Q tt (with_bufs (<[p := splice (Z.to_nat off) bytes m]> (bufs c)) c) -> wp (store_buf p off bytes) Q c.
Proof.
  intros Hm Ho Hl HQ. unfold store_buf. destruct bytes as [|x bytes].
  - apply wp_ret. unfold splice in HQ. cbn in HQ. rewrite Nat.add_0_r, take_drop, insert_id in HQ by done. by destruct c.
  - apply wp_seq. eapply wp_cache_buf; [done|]. replace (_ && _) with true by lia. done.
Qed.

(** ** The lists *)

(** The free blocks, the used blocks, and nodes in no list *)
Definition lists c fl l (out : list Z) : Prop :=
  exists L, holds (links c) L /\ al L !! free_list c = Some fl /\ al L !! lru_list c = Some l /\ forall x, x ∈ out -> x ∈ cleared L.

Lemma heads_ne c : free_list c <> lru_list c.
Proof. unfold free_list, lru_list. lia. Qed.

Lemma lists_is_list c fl l out : lists c fl l out -> is_list (links c) (free_list c) fl /\ is_list (links c) (lru_list c) l.
Proof. intros (L & HL' & Hf & Hl & _). split; by apply (hd_lists _ _ HL'). Qed.

Lemma lists_next c fl l1 b l2 out (Q : Z -> bcache -> Prop) :
  lists c fl (l1 ++ b :: l2) out -> Q (after l2 (lru_list c)) c -> wp (in_links (get_next b)) Q c.
Proof.
  intros [_ Hl]%lists_is_list HQ. apply next_entry in Hl. eapply wp_in_links; [by apply get_next_run|]. by destruct c.
Qed.

Lemma lists_first c fl l out (Q : Z -> bcache -> Prop) :
  lists c fl l out -> Q (after l (lru_list c)) c -> wp (in_links (get_next (lru_list c))) Q c.
Proof.
  intros [_ Hl]%lists_is_list HQ. apply next_head in Hl. eapply wp_in_links; [by apply get_next_run|]. by destruct c.
Qed.

Lemma lists_end c fl l1 l2 out : lists c fl (l1 ++ l2) out -> (after l2 (lru_list c) =? lru_list c) = bool_decide (l2 = []).
Proof. intros [_ Hl]%lists_is_list. by apply (after_head (links c) (lru_list c) l1). Qed.

Lemma lists_fuel c fl l out : lists c fl l out -> (length l < size (links c))%nat.
Proof. intros [_ Hl]%lists_is_list. by eapply length_size. Qed.

Lemma lists_null c fl l out b : lists c fl l out -> b ∈ fl ++ l -> b <> NULL.
Proof. intros [(_ & Hf & _) (_ & Hl & _)]%lists_is_list. set_solver. Qed.

Lemma lists_nodup c fl l out : lists c fl l out -> NoDup (fl ++ l).
Proof.
  intros (L & HL' & Hf & Hl & _). destruct (hd_lists _ _ HL' _ _ Hf) as (Hn1 & _). destruct (hd_lists _ _ HL' _ _ Hl) as (Hn2 & _).
  apply NoDup_app. apply NoDup_cons in Hn1 as [_ Hn1]. apply NoDup_cons in Hn2 as [_ Hn2]. split_and!; [done| |done].
  intros x Hx1 Hx2. apply (heads_ne c). apply (hd_disj _ _ HL' _ _ _ _ x Hf Hl); set_solver.
Qed.

(** Deletion from the used blocks *)
Lemma lists_delete c fl l1 b l2 :
  lists c fl (l1 ++ b :: l2) [] -> wp (in_links (list_delete b)) (fun _ c' => exists m, c' = with_links m c /\ lists c' fl (l1 ++ l2) [b]) c.
Proof.
  intros (L & HL' & Hf & Hl & _). destruct (delete_holds _ _ HL' _ _ _ _ Hl) as (m & E & _ & Hm).
  eapply wp_in_links; [exact E|]. exists m. split; [done|]. eexists. split; [exact Hm|]. cbn. pose proof (heads_ne c).
  split_and!; [by rewrite lookup_insert_ne|by rewrite lookup_insert_eq|]. set_solver.
Qed.

Lemma lists_add_tail c fl l b :
  lists c fl l [b] -> b <> NULL -> wp (in_links (list_add_tail (lru_list c) b)) (fun _ c' => exists m, c' = with_links m c /\ lists c' fl (l ++ [b]) []) c.
Proof.
  intros (L & HL' & Hf & Hl & Hout) Hn. assert (Hb : b ∈ cleared L) by (apply Hout; set_solver).
  destruct (add_tail_holds _ _ HL' (lru_list c) l [] b) as (m & E & _ & Hm).
  { by rewrite app_nil_r. } { by eapply cleared_loose. } { done. } { apply elem_of_dom. eexists. by eapply hd_cleared. }
  eapply wp_in_links; [exact E|]. exists m. split; [done|]. eexists. split; [exact Hm|]. cbn. pose proof (heads_ne c).
  split_and!; [by rewrite lookup_insert_ne|by rewrite lookup_insert_eq|]. set_solver.
Qed.

Lemma lists_remove_head c fl l b :
  lists c (b :: fl) l [] -> wp (in_links (list_remove_head (free_list c))) (fun r c' => r = b /\ exists m, c' = with_links m c /\ lists c' fl l [b]) c.
Proof.
  intros (L & HL' & Hf & Hl & _). destruct (remove_head_holds _ _ _ _ _ HL' Hf) as (m & E & _ & Hm).
  eapply wp_in_links; [exact E|]. split; [done|]. exists m. split; [done|]. eexists. split; [exact Hm|]. cbn. pose proof (heads_ne c).
  split_and!; [by rewrite lookup_insert_eq|by rewrite lookup_insert_ne|]. set_solver.
Qed.

Lemma lists_remove_none c l out (Q : Z -> bcache -> Prop) :
  lists c [] l out -> Q NULL c -> wp (in_links (list_remove_head (free_list c))) Q c.
Proof.
  intros [Hf _]%lists_is_list HQ. apply (wp_in_links _ NULL (links c)); [|by destruct c].
  unfold list_remove_head, bind. rewrite (get_next_run _ _ _ (next_head _ _ _ Hf)). cbn. by rewrite Z.eqb_refl.
Qed.

(** A block that is still in use put to the free ones: the code runs, the lists are no
    lists any more. *)
Lemma lists_add_free c fl l b out :
  lists c fl l out -> b ∈ l -> wp (in_links (list_add_tail (free_list c) b)) (fun _ _ => True) c.
Proof.
  intros (L & HL' & Hf & Hl & _) Hb. pose proof (hd_lists _ _ HL' _ _ Hf) as Hfl. pose proof (hd_lists _ _ HL' _ _ Hl) as Hll.
  assert (Hne : b ∉ free_list c :: fl).
  { intros Hin. apply (heads_ne c). apply (hd_disj _ _ HL' _ _ _ _ b Hf Hl); set_solver. }
  destruct (list_add_tail_run (links c) (before fl (free_list c)) b (free_list c)) as (m & E & _).
  - apply (is_list_linked _ _ fl []). by rewrite app_nil_r.
  - eapply entry_dom; [exact Hll|set_solver].
  - pose proof (before_elem (free_list c) fl). set_solver.
  - set_solver.
  - by eapply wp_in_links.
Qed.

Lemma lists_to_tail c fl l1 b l2 :
  lists c fl (l1 ++ b :: l2) [] -> wp (to_tail b) (fun _ c' => exists m, c' = with_links m c /\ lists c' fl ((l1 ++ l2) ++ [b]) []) c.
Proof.
  intros Hl. assert (b <> NULL) by (eapply lists_null; [done|set_solver]).
  unfold to_tail. apply wp_seq, wp_get, wp_seq. eapply wp_mono; [by apply lists_delete|]. cbn beta.
  intros _ c' (m & -> & Hd). eapply wp_mono; [by apply (lists_add_tail (with_links m c))|]. cbn beta.
  intros _ c' (m' & -> & Ht). by exists m'.
Qed.
Definition uncached (bl : gmap Z bcache_block) ll (n : Z) : Prop :=
  forall b v, b ∈ ll -> bl !! b = Some v -> blocknum v <> n.

(** A node of a new object is in no list. *)
Lemma is_list_insert m h l b nd : is_list m h l -> b ∉ h :: l -> is_list (<[b := nd]> m) h l.
Proof.
  intros (Hnd & Hn & Hc) Hb. split_and!; [done|done|]. eapply chain_frame; [exact Hc|intros x Hx|intros x Hx].
  - unfold next_of. rewrite lookup_insert_ne; [done|]. intros <-. apply Hb. change (h :: l ++ [h]) with ((h :: l) ++ [h]) in Hx.
    by rewrite removelast_last in Hx.
  - unfold prev_of. rewrite lookup_insert_ne; [done|]. intros <-. apply Hb. cbn in Hx. set_solver.
Qed.

Lemma lists_place c fl l b :
  lists c fl l [] -> b ∉ free_list c :: fl -> b ∉ lru_list c :: l ->
  lists (with_links (<[b := Node NULL NULL]> (links c)) c) fl l [b].
Proof.
  intros (L & HL' & Hf & Hl & _) Hbf Hbl. pose proof (hd_lists _ _ HL' _ _ Hf) as Hfl. pose proof (hd_lists _ _ HL' _ _ Hl) as Hll.
  pose proof (heads_ne c) as Hne. set (f := free_list c) in *. set (u := lru_list c) in *.
  assert (Hal : forall h k, <[f := fl]> ({[u := l]} : gmap Z (list Z)) !! h = Some k -> al L !! h = Some k).
  { intros h k. destruct (decide (h = f)) as [->|Hhf]; [rewrite lookup_insert_eq; by intros [= <-]|].
    rewrite lookup_insert_ne by done. rewrite lookup_singleton_Some. by intros [<- <-]. }
  exists (ALists (<[f := fl]> ({[u := l]} : gmap Z (list Z))) {[b]}). cbn. split_and!.
  - constructor; cbn.
    + intros h k Hk. assert (Hk' := Hal h k Hk). apply is_list_insert; [by apply (hd_lists _ _ HL')|].
      destruct (decide (h = f)) as [->|Hhf]; [rewrite lookup_insert_eq in Hk; by injection Hk as <-|].
      rewrite lookup_insert_ne, lookup_singleton_Some in Hk by done. by destruct Hk as [<- <-].
    + intros h h' k k' x Hk%Hal Hk'%Hal. by apply (hd_disj _ _ HL').
    + intros x ->%elem_of_singleton. by rewrite lookup_insert_eq.
  - apply lookup_insert_eq.
  - rewrite lookup_insert_ne by done. apply lookup_singleton_eq.
  - set_solver.
Qed.

Lemma lists_add_head c fl l b :
  lists c fl l [b] -> b <> NULL -> wp (in_links (list_add_head (free_list c) b)) (fun _ c' => exists m, c' = with_links m c /\ lists c' (b :: fl) l []) c.
Proof.
  intros (L & HL' & Hf & Hl & Hout) Hn. assert (Hb : b ∈ cleared L) by (apply Hout; set_solver).
  destruct (add_head_holds _ _ HL' (free_list c) [] fl b) as (m & E & _ & Hm).
  { done. } { by eapply cleared_loose. } { done. } { apply elem_of_dom. eexists. by eapply hd_cleared. }
  eapply wp_in_links; [exact E|]. exists m. split; [done|]. eexists. split; [exact Hm|]. cbn. pose proof (heads_ne c).
  split_and!; [by rewrite lookup_insert_eq|by rewrite lookup_insert_ne|]. set_solver.
Qed.

(** list_initialize of both lists of a new cache *)
Lemma lists_initialize c {T} (k : CM T) (Q : T -> bcache -> Prop) :
  self c > 0 -> links c = <[lru_list c := Node NULL NULL]> (<[free_list c := Node NULL NULL]> ∅) ->
  (forall m, lists (with_links m c) [] [] [] -> wp k Q (with_links m c)) ->
  wp (in_links (list_initialize (free_list c)) ;; in_links (list_initialize (lru_list c)) ;; k) Q c.
Proof.
  intros Hs Hlk HQ. pose proof (heads_ne c) as Hne.
  assert (H0 : holds (links c) (ALists ∅ ∅)) by (constructor; cbn; [intros h l; by rewrite lookup_empty|intros h h' l l' x; by rewrite lookup_empty|set_solver]).
  destruct (initialize_holds _ _ (free_list c) H0) as (m1 & E1 & D1 & H1).
  { intros h l. cbn. by rewrite lookup_empty. } { unfold free_list, NULL. lia. } { rewrite Hlk. set_solver. }
  destruct (initialize_holds _ _ (lru_list c) H1) as (m2 & E2 & D2 & H2).
  { intros h l. cbn. rewrite lookup_insert_Some, lookup_empty. intros [[<- <-]|[_ ?]]; [|done]. set_solver. }
  { unfold lru_list, NULL. lia. } { rewrite D1, Hlk. set_solver. }
  apply wp_seq. eapply wp_in_links; [exact E1|]. apply wp_seq. eapply (wp_in_links _ _ m2); [exact E2|]. apply (HQ m2).
  eexists. split; [exact H2|]. cbn. split_and!; [by rewrite lookup_insert_ne, lookup_insert_eq|by rewrite lookup_insert_eq|]. set_solver.
Qed.

(** find_block walks the used blocks and moves the one it finds to their end. *)
Definition found c c' fl ll (num b : Z) : Prop :=
  exists m st, c' = with_stats st (with_links m c) /\
    (b = NULL /\ lists c' fl ll [] /\ uncached (blocks c) ll num \/
     b <> NULL /\ exists ll' v, ll ≡ₚ ll' /\ lists c' fl ll' [] /\ b ∈ ll' /\ blocks c !! b = Some v /\ blocknum v = num).

Lemma wp_find_from c fl num l2 : forall l1 fuel depth,
  lists c fl (l1 ++ l2) [] -> (forall b, b ∈ l1 ++ l2 -> is_Some (blocks c !! b)) -> (length l2 < fuel)%nat -> uncached (blocks c) l1 num ->
  wp (find_from fuel (after l2 (lru_list c)) depth num) (fun b c' => found c c' fl (l1 ++ l2) num b) c.
Proof.
  induction l2 as [|b l2 IH]; intros l1 [|fuel] depth Hl Hbl Hf Hu; cbn [length] in Hf; try lia; cbn [find_from];
    apply wp_seq, wp_get; rewrite (lists_end _ _ _ _ _ Hl).
  - rewrite bool_decide_true by done. apply wp_seq, wp_modify, wp_ret. exists (links c). eexists.
    split; [by destruct c|]. left. rewrite app_nil_r in *. by destruct c.
  - rewrite bool_decide_false by done. cbn [List.hd]. destruct (Hbl b) as [v Hv]; [set_solver|].
    apply wp_seq. eapply wp_get_block; [done|]. destruct (blocknum v =? num) eqn:Hn; [apply Z.eqb_eq in Hn|apply Z.eqb_neq in Hn].
    + apply wp_seq. eapply wp_mono; [by apply lists_to_tail|]. cbn beta. intros _ c' (m & -> & Hl').
      apply wp_seq, wp_modify, wp_ret. exists m. eexists. split; [done|]. right. split; [eapply lists_null; [done|set_solver]|].
      exists ((l1 ++ l2) ++ [b]), v. split_and!; [solve_Permutation|done|set_solver|done|done].
    + apply wp_seq. eapply lists_next; [done|].
      replace (l1 ++ b :: l2) with ((l1 ++ [b]) ++ l2) in * by (by rewrite <- app_assoc).
      apply IH; [done|done|lia|]. intros b' v' [Hin| ->%list_elem_of_singleton]%elem_of_app Hv'; [by eapply Hu|]. rewrite Hv in Hv'. by injection Hv' as <-.
Qed.

Lemma wp_find_listed c fl num ll :
  lists c fl ll [] -> (forall b, b ∈ ll -> is_Some (blocks c !! b)) -> wp (find_block num) (fun b c' => found c c' fl ll num b) c.
Proof.
  intros Hl Hbl. unfold find_block. apply wp_seq, wp_get, wp_seq. eapply lists_first; [done|].
  apply (wp_find_from c fl num ll []); [done|done|pose proof (lists_fuel _ _ _ _ Hl); lia|].
  intros b v Hb. by apply not_elem_of_nil in Hb.
Qed.
End state.

Section bcache.
Context {W : Type} {HW : Blockdev W} (d : Z) {HL : BlockdevLaws W d}.
Notation bcache := (bcache W).
Notation CM := (CM W).
Implicit Types (c : bcache) (A : cview) (fl ll lx : list Z).

(** [c] returns with [Q], or trips an assertion because the device failed. *)
Definition wpf {T} (f : CM T) (Q : T -> bcache -> Prop) c : Prop :=
  match f c with (Ret a, c') => Q a c' | (Panic, _) => bd_fails d | _ => False end.

Lemma wpf_seq {T U} (f : CM T) (k : T -> CM U) Q c : wpf f (fun a c' => wpf (k a) Q c') c -> wpf (bind f k) Q c.
Proof. unfold wpf, bind. by destruct (f c) as [[] ?]. Qed.

Lemma wpf_mono {T} (f : CM T) (Q Q' : T -> bcache -> Prop) c : wpf f Q c -> (forall a c', Q a c' -> Q' a c') -> wpf f Q' c.
Proof. unfold wpf. destruct (f c) as [[] ?]; auto. Qed.

Lemma wp_wpf {T} (f : CM T) Q c : wp f Q c -> wpf f Q c.
Proof. unfold wp, wpf. by destruct (f c) as [[] ?]. Qed.

Lemma wpf_wp_seq {T U} (f : CM T) (k : T -> CM U) Q c : wp f (fun a c' => wpf (k a) Q c') c -> wpf (bind f k) Q c.
Proof. intros H. by apply wpf_seq, wp_wpf. Qed.

Lemma wpf_ret {T} (a : T) (Q : T -> bcache -> Prop) c : Q a c -> wpf (ret a) Q c.
Proof. done. Qed.

Lemma wpf_get (Q : bcache -> bcache -> Prop) c : Q c c -> wpf get Q c.
Proof. done. Qed.

(** An assertion that only a failed device trips *)
Lemma wpf_assert b (Q : unit -> bcache -> Prop) c : (b = true -> Q tt c) -> (b = false -> bd_fails d) -> wpf (assert_ b) Q c.
Proof. intros H1 H2. destruct b; [by apply H1|]. by apply H2. Qed.

Context (bs : Z) (Hbs : 0 < bs < 2 ^ 31).

(** ** The blocks *)

Definition in_range (w : W) (n : Z) : Prop := 0 <= n /\ (n + 1) * bs <= Z.of_nat (length (bd_bytes d w)).

Definition on_dev (w : W) (n : Z) : list Z := slice (Z.to_nat (n * bs)) (Z.to_nat bs) (bd_bytes d w).

(** The free blocks [fl], the used ones [ll] and those just taken [lx] *)
Record facts (bl : gmap Z bcache_block) (bu : gmap Z (list Z)) (w : W) A fl ll lx : Prop := {
  f_ok : bd_ok d w;
  f_blk b : b ∈ fl ++ ll ++ lx -> exists v m, bl !! b = Some v /\ ptr v <> NULL /\ bu !! ptr v = Some m /\ Z.of_nat (length m) = bs;
  f_inj b b' v v' : b ∈ fl ++ ll ++ lx -> b' ∈ fl ++ ll ++ lx -> bl !! b = Some v -> bl !! b' = Some v' -> ptr v = ptr v' -> b = b';
  f_spare b v : b ∈ fl ++ lx -> bl !! b = Some v -> is_dirty v = false;
  f_taken b v : b ∈ fl ++ lx -> bl !! b = Some v -> ref_count v = 0;
  f_num b b' v v' : b ∈ ll -> b' ∈ ll -> bl !! b = Some v -> bl !! b' = Some v' -> blocknum v = blocknum v' -> b = b';
  f_used b v : b ∈ ll -> bl !! b = Some v ->
    in_range w (blocknum v) /\ bu !! ptr v = Some (content A (blocknum v)) /\ pins A !! blocknum v = pin_of v /\
    0 <= ref_count v < 2 ^ 31 /\ (is_dirty v = false -> on_dev w (blocknum v) = content A (blocknum v));
  f_out n : in_range w n -> uncached bl ll n -> on_dev w n = content A n /\ pins A !! n = None
}.

Definition all_blocks c : list Z := map (block_at c) (seqZ 0 (count c)).

Definition rel c A fl ll lx : Prop :=
  dev c = d /\ block_size c = bs /\ fl ++ ll ++ lx ≡ₚ all_blocks c /\ lists c fl (ll ++ lx) [] /\ facts (blocks c) (bufs c) (io c) A fl ll lx.

Lemma facts_perm bl bu w A fl ll lx ll' : ll ≡ₚ ll' -> facts bl bu w A fl ll lx -> facts bl bu w A fl ll' lx.
Proof.
  intros Hp [H1 H2 H3 H4 H5 H6 H7 H8]. unfold uncached in *.
  assert (Hin : forall x, x ∈ ll' <-> x ∈ ll) by (intros x; by rewrite Hp).
  assert (Hall : forall x, x ∈ fl ++ ll' ++ lx <-> x ∈ fl ++ ll ++ lx) by (intros x; by rewrite Hp).
  constructor; intros *; rewrite ?Hall, ?Hin; eauto.
  intros Hr Hu. apply H8; [done|]. intros b v Hb. apply Hu. by apply Hin.
Qed.

Lemma on_dev_length w n : in_range w n -> Z.of_nat (length (on_dev w n)) = bs.
Proof. intros [H1 H2]. unfold on_dev. rewrite length_slice; nia. Qed.

(** A block written to the device *)
Lemma on_dev_written w w' n data :
  in_range w n -> Z.of_nat (length data) = bs -> bd_bytes d w' = splice (Z.to_nat (n * bs)) data (bd_bytes d w) ->
  (forall k, in_range w' k <-> in_range w k) /\ on_dev w' n = data /\ forall k, in_range w k -> k <> n -> on_dev w' k = on_dev w k.
Proof.
  intros [Hn1 Hn2] Hl Hw. assert (Hlen : length (bd_bytes d w') = length (bd_bytes d w)) by (rewrite Hw; apply length_splice; nia).
  split_and!.
  - intros k. unfold in_range. by rewrite Hlen.
  - unfold on_dev. rewrite Hw. replace (Z.to_nat bs) with (length data) by lia. apply slice_splice_same. nia.
  - intros k [Hk1 Hk2] Hne. unfold on_dev. rewrite Hw. apply slice_splice_ne; [nia|]. nia.
Qed.

(** ** Looking for a block *)

Definition cached c A (num : Z) (b : Z) : Prop :=
  exists fl ll v, rel c A fl ll [] /\ b ∈ ll /\ blocks c !! b = Some v /\ blocknum v = num.

Definition keeps c c' : Prop := count c' = count c /\ blocks c' = blocks c /\ bufs c' = bufs c /\ io c' = io c.

Lemma wp_find_block fl A num ll c :
  rel c A fl ll [] ->
  wp (find_block num) (fun b c' => keeps c c' /\
    (b = NULL /\ rel c' A fl ll [] /\ uncached (blocks c') ll num \/ b <> NULL /\ cached c' A num b)) c.
Proof.
  intros (Hd & Hb & Hall & Hl & F). rewrite app_nil_r in Hl. eapply wp_mono; [eapply wp_find_listed; [exact Hl|]|].
  - intros b Hi. destruct (f_blk _ _ _ _ _ _ _ F b) as (v & _ & Hv & _); [set_solver|]. by exists v.
  - cbn beta. intros b c' (m & st & -> & [(-> & Hl' & Hu)|(Hn & ll' & v & Hp & Hl' & Hi & Hv & Hbn)]); (split; [by split_and!|]).
    + left. split_and!; [done| |done]. split_and!; [done|done|done|by rewrite app_nil_r|done].
    + right. split; [done|]. exists fl, ll', v. split; [|by split_and!].
      split_and!; [done|done|by rewrite <- Hp|by rewrite app_nil_r|by eapply facts_perm].
Qed.
End bcache.
