(* ===== verification/BcacheOps.v ===== *)
(** * Taking and filling blocks of the cache

    Writing a dirty block back, taking a block that is free or not pinned, and
    reading the device into it. *)

From stdpp Require Import prelude list gmap.
From Stdlib Require Import ZArith Lia.
From S2P Require Import Prelude LkList LkListProps Bcache BcacheInv.

Open Scope Z_scope.
Open Scope lk_scope.

Section bcache.
Context {W : Type} {HW : Blockdev W} (d : Z) {HL : BlockdevLaws W d}.
Context (bs : Z) (Hbs : 0 < bs < 2 ^ 31).
Notation bcache := (bcache W).
Notation CM := (CM W).
Notation rel := (rel d bs).
Notation facts := (facts d bs).
Notation in_range := (in_range d bs).
Notation on_dev := (on_dev d bs).
Notation wpf := (wpf d).
Implicit Types (c : bcache) (A : cview) (fl ll lx : list Z).

Definition same_range (w w' : W) : Prop := forall n, in_range w' n <-> in_range w n.

(** ** Writing back *)

Lemma facts_clean bl bu w w' A fl ll lx b v :
  facts bl bu w A fl ll lx -> b ∈ ll -> bl !! b = Some v -> bd_ok d w' ->
  same_range w w' -> on_dev w' (blocknum v) = content A (blocknum v) ->
  (forall k, in_range w k -> k <> blocknum v -> on_dev w' k = on_dev w k) ->
  facts (<[b := set_dirty false v]> bl) bu w' A fl ll lx.
Proof.
  intros F Hb Hv Hok Hr Hn Hk. pose proof F as [H1 H2 H3 H4 H5 H6 H7 H8].
  (* what a block is, but for the dirty mark *)
  assert (Hget : forall b' v', <[b := set_dirty false v]> bl !! b' = Some v' -> exists v0, bl !! b' = Some v0 /\
    blocknum v' = blocknum v0 /\ ref_count v' = ref_count v0 /\ ptr v' = ptr v0 /\ (b' = b /\ is_dirty v' = false \/ v' = v0)).
  { intros b' v' Hv'. destruct (decide (b' = b)) as [->|Hne].
    - rewrite lookup_insert_eq in Hv'. injection Hv' as <-. exists v. split_and!; [done..|by left].
    - rewrite lookup_insert_ne in Hv' by done. exists v'. split_and!; [done..|by right]. }
  constructor.
  - done.
  - intros b' Hin. destruct (H2 b' Hin) as (v' & m & Hv' & Hp & Hm & Hl). destruct (decide (b' = b)) as [->|Hne].
    + rewrite lookup_insert_eq. rewrite Hv in Hv'. injection Hv' as <-. exists (set_dirty false v), m. done.
    + rewrite lookup_insert_ne by done. by exists v', m.
  - intros b1 b2 v1 v2 Hi1 Hi2 (u1 & G1 & _ & _ & P1 & _)%Hget (u2 & G2 & _ & _ & P2 & _)%Hget. rewrite P1, P2. by apply H3.
  - intros b' v' Hin (v0 & G & _ & _ & _ & [[_ Hd]| ->])%Hget; [done|by eapply H4].
  - intros b' v' Hin (v0 & G & _ & -> & _)%Hget. by eapply H5.
  - intros b1 b2 v1 v2 Hi1 Hi2 (u1 & G1 & -> & _)%Hget (u2 & G2 & -> & _)%Hget. by apply H6.
  - intros b' v' Hin (v0 & G & En & Er & Ep & Hd)%Hget. destruct (H7 b' v0 Hin G) as (Hrg & Hbu & Hpin & Hrc & Hcl).
    unfold pin_of in *. rewrite En, Er, Ep. split_and!; [by apply Hr|done|done|lia|lia|]. intros Hdv'.
    destruct (decide (blocknum v0 = blocknum v)) as [Heq|Hne]; [by rewrite Heq|]. rewrite Hk by done. apply Hcl.
    destruct Hd as [[-> Hd]|Hd]; [rewrite Hv in G; by injection G as <-|by rewrite Hd in Hdv'].
  - intros n Hin Hu. apply Hr in Hin. assert (uncached bl ll n) as Hu'.
    { intros b' v0 Hb' G. destruct (decide (b' = b)) as [->|Hne].
      - rewrite Hv in G. injection G as <-. apply (Hu b (set_dirty false v) Hb). by rewrite lookup_insert_eq.
      - apply (Hu b' v0 Hb'). by rewrite lookup_insert_ne. }
    rewrite Hk; [by apply H8|done|]. intros ->. by apply (Hu' b v).
Qed.

Lemma wp_flush_block c A fl ll lx b v :
  rel c A fl ll lx -> b ∈ ll -> blocks c !! b = Some v ->
  wp (flush_block b) (fun rc c' => rc < 0 /\ bd_fails d \/
    rc = 0 /\ rel c' A fl ll lx /\ blocks c' = <[b := set_dirty false v]> (blocks c) /\ links c' = links c /\ lru_list c' = lru_list c /\
    same_range (io c) (io c')) c.
Proof.
  intros (Hd & Hb & Hall & Hl & F) Hin Hv. destruct (f_used _ _ _ _ _ _ _ _ _ F b v Hin Hv) as (Hrg & Hbu & _).
  destruct (f_blk _ _ _ _ _ _ _ _ _ F b) as (v' & m & Hv' & Hp & Hm & Hlm); [set_solver|]. rewrite Hv in Hv'. injection Hv' as <-.
  rewrite Hbu in Hm. injection Hm as <-. pose proof Hrg as [Hn Hfit].
  unfold flush_block. apply wp_seq, wp_get, wp_seq. eapply wp_get_block; [done|]. rewrite Hbu, Hd, Hb. cbn [from_option id].
  apply wp_seq, wp_in_io. eapply wp_mono; [apply bd_write; [by apply F|done|nia|lia|lia|lia]|]. cbn beta.
  intros rc w' [Hok [[-> Hw]|[Hf Hneg]]].
  - replace (bs <? 0) with false by lia. apply wp_seq, wp_modify, wp_seq, wp_modify, wp_ret. right. split; [done|].
    rewrite take_ge in Hw by lia. destruct (on_dev_written d bs Hbs (io c) w' (blocknum v) (content A (blocknum v)) Hrg Hlm Hw) as (Hr & Hn' & Hk).
    split_and!; [|done..]. split_and!; [done..|]. by eapply facts_clean.
  - replace (rc <? 0) with true by lia. apply wp_ret. by left.
Qed.

(** ** Taking a block *)

(** A block was taken out of the free ones or the used ones. *)
Definition taken c c' A fl ll (b : Z) : Prop :=
  exists fl' ll', rel c' A fl' ll' [b] /\ b <> NULL /\ same_range (io c) (io c') /\
    (forall n, uncached (blocks c) ll n -> uncached (blocks c') ll' n).

Lemma facts_take_free bl bu w A fl ll b v :
  facts bl bu w A (b :: fl) ll [] -> NoDup ((b :: fl) ++ ll) -> bl !! b = Some v ->
  facts (<[b := set_ref_count 0 v]> bl) bu w A fl ll [b].
Proof.
  intros [H1 H2 H3 H4 H5 H6 H7 H8] Hnd Hv.
  assert (Hb : b ∉ fl ++ ll) by (by apply NoDup_cons in Hnd as [Hb _]).
  assert (Hget : forall b', b' ∈ fl ++ ll -> <[b := set_ref_count 0 v]> bl !! b' = bl !! b').
  { intros b' Hin. apply lookup_insert_ne. by intros <-. }
  assert (Hall : forall x, x ∈ fl ++ ll ++ [b] -> x ∈ (b :: fl) ++ ll ++ []) by set_solver.
  assert (Hptr : forall b' v', <[b := set_ref_count 0 v]> bl !! b' = Some v' -> exists v0, bl !! b' = Some v0 /\ ptr v' = ptr v0 /\ is_dirty v' = is_dirty v0).
  { intros b' v' Hv'. destruct (decide (b = b')) as [<-|Hne].
    - rewrite lookup_insert_eq in Hv'. injection Hv' as <-. by exists v.
    - rewrite lookup_insert_ne in Hv' by done. by exists v'. }
  constructor.
  - done.
  - intros b' Hin%Hall. destruct (H2 b' Hin) as (v' & m & Hv' & Hp & Hm & Hl). destruct (decide (b = b')) as [<-|Hne].
    + rewrite lookup_insert_eq. rewrite Hv in Hv'. injection Hv' as <-. by exists (set_ref_count 0 v), m.
    + rewrite lookup_insert_ne by done. by exists v', m.
  - intros b1 b2 v1 v2 Hi1%Hall Hi2%Hall (u1 & G1 & P1 & _)%Hptr (u2 & G2 & P2 & _)%Hptr. rewrite P1, P2. by apply H3.
  - intros b' v' Hin (v0 & G & _ & ->)%Hptr. apply (H4 b'); [set_solver|done].
  - intros b' v' [Hi| ->%list_elem_of_singleton]%elem_of_app.
    + rewrite Hget by set_solver. apply H5. set_solver.
    + rewrite lookup_insert_eq. by intros [= <-].
  - intros b1 b2 v1 v2 Hi1 Hi2. rewrite !Hget by set_solver. by apply H6.
  - intros b' v' Hi. rewrite Hget by set_solver. by apply H7.
  - intros n Hin Hu. apply H8; [done|]. intros b' v' Hb' Hv'. apply (Hu b'); [done|]. rewrite Hget by set_solver. done.
Qed.

(** A block that is clean and not pinned is not missed. *)
Lemma facts_take_used bl bu w A fl l1 b l2 v :
  facts bl bu w A fl (l1 ++ b :: l2) [] -> NoDup (l1 ++ b :: l2) -> bl !! b = Some v -> ref_count v = 0 -> is_dirty v = false ->
  facts bl bu w A fl (l1 ++ l2) [b].
Proof.
  intros [H1 H2 H3 H4 H5 H6 H7 H8] Hnd Hv Hr Hd.
  assert (Hall : forall x, x ∈ fl ++ (l1 ++ l2) ++ [b] <-> x ∈ fl ++ (l1 ++ b :: l2) ++ []) by set_solver.
  constructor; intros *; rewrite ?Hall; eauto.
  - rewrite elem_of_app, list_elem_of_singleton. intros [Hin| ->] Hv'; [apply (H4 b0); [set_solver|done]|]. rewrite Hv in Hv'. by injection Hv' as <-.
  - rewrite elem_of_app, list_elem_of_singleton. intros [Hin| ->] Hv'; [apply (H5 b0); [set_solver|done]|]. rewrite Hv in Hv'. by injection Hv' as <-.
  - intros Hi1 Hi2. apply H6; set_solver.
  - intros Hi. apply H7. set_solver.
  - intros Hin Hu. destruct (decide (blocknum v = n)) as [<-|Hne].
    + destruct (H7 b v) as (_ & _ & Hp & _ & Hc); [set_solver|done|]. split; [by apply Hc|]. rewrite Hp. unfold pin_of. by rewrite Hr.
    + apply H8; [done|]. intros b' v' [Hi|[->|Hi]%elem_of_cons]%elem_of_app Hv'; [apply (Hu b'); [set_solver|done]| |apply (Hu b'); [set_solver|done]].
      rewrite Hv in Hv'. by injection Hv' as <-.
Qed.

(** The walk looks for a block without pins. *)
Lemma wp_alloc_from A l2 : forall l1 c fuel,
  rel c A [] (l1 ++ l2) [] -> (length l2 < fuel)%nat ->
  (exists b v, b ∈ l2 /\ blocks c !! b = Some v /\ ref_count v = 0) ->
  wp (alloc_from fuel (after l2 (lru_list c))) (fun r c' => r = NULL /\ bd_fails d \/ taken c c' A [] (l1 ++ l2) r) c.
Proof.
  induction l2 as [|b l2 IH]; intros l1 c [|fuel] R Hf (b0 & v0 & Hb0 & Hv0 & Hr0); cbn [length] in Hf; try lia; [by apply not_elem_of_nil in Hb0|].
  cbn [alloc_from]. pose proof R as (Hd & Hb & Hall & Hl & F); rewrite app_nil_r in Hl; apply wp_seq, wp_get; rewrite (lists_end _ _ _ _ _ Hl).
  rewrite bool_decide_false by done. cbn [List.hd]. destruct (f_blk _ _ _ _ _ _ _ _ _ F b) as (v & m & Hv & Hp & Hm & Hlm); [set_solver|].
  apply wp_seq. eapply wp_get_block; [done|]. destruct (ref_count v =? 0) eqn:Hr; [apply Z.eqb_eq in Hr|apply Z.eqb_neq in Hr].
  - (* the block, clean by then *)
    assert (Htake : forall c1 v1, rel c1 A [] (l1 ++ b :: l2) [] -> blocks c1 = <[b := v1]> (blocks c) -> blocknum v1 = blocknum v -> ref_count v1 = 0 -> is_dirty v1 = false ->
              same_range (io c) (io c1) -> wp (to_tail b ;; ret b) (fun r c' => r = NULL /\ bd_fails d \/ taken c c' A [] (l1 ++ b :: l2) r) c1).
    { intros c1 v1 R1 Hbl Hbn Hr1 Hd1 Hrg. pose proof R1 as (Hcd & Hcb & Hall1 & Hl1 & F1); rewrite app_nil_r in Hl1.
      apply wp_seq. eapply wp_mono; [by apply lists_to_tail|]. cbn beta. intros _ c' (m' & -> & Hl'). apply wp_ret. right.
      pose proof (lists_nodup _ _ _ _ Hl1) as Hnd. exists [], (l1 ++ l2). split_and!.
      - split_and!; [done|done| |done|].
        { etrans; [|exact Hall1]. solve_Permutation. }
        eapply facts_take_used; [exact F1|exact Hnd|cbn; rewrite Hbl; apply lookup_insert_eq|done|done].
      - eapply lists_null; [exact Hl1|set_solver].
      - done.
      - intros n Hu b' v' Hi. cbn. rewrite Hbl. intros Hv'. destruct (decide (b = b')) as [<-|Hne].
        + rewrite lookup_insert_eq in Hv'. injection Hv' as <-. rewrite Hbn. apply (Hu b); [set_solver|done].
        + rewrite lookup_insert_ne in Hv' by done. apply (Hu b'); [set_solver|done]. }
    destruct (is_dirty v) eqn:Hdv.
    + apply wp_seq. eapply wp_mono; [eapply wp_flush_block; [exact R|set_solver|exact Hv]|]. cbn beta.
      intros rc c1 [[Hneg Hfail]|(-> & R1 & Hbl & Hlk & _ & Hrg)].
      * replace (rc =? 0) with false by lia. cbn [negb]. apply wp_ret. by left.
      * cbn [Z.eqb negb]. apply (Htake c1 (set_dirty false v) R1 Hbl); done.
    + apply wp_seq, wp_ret. cbn [Z.eqb negb]. eapply (Htake c v); by rewrite ?insert_id.
  - apply wp_seq. eapply lists_next; [done|]. replace (l1 ++ b :: l2) with ((l1 ++ [b]) ++ l2) in * by (by rewrite <- app_assoc).
    apply IH; [done|lia|]. exists b0, v0. split_and!; [|done|done]. apply elem_of_cons in Hb0 as [->|]; [|done]. rewrite Hv in Hv0. injection Hv0 as <-. done.
Qed.

(** Whether there is a block to take *)
Definition available c fl ll : Prop := fl <> [] \/ exists b v, b ∈ ll /\ blocks c !! b = Some v /\ ref_count v = 0.

Lemma wp_alloc_block c A fl ll :
  rel c A fl ll [] -> available c fl ll ->
  wp alloc_block (fun b c' => b = NULL /\ bd_fails d \/ taken c c' A fl ll b) c.
Proof.
  intros R Hav. pose proof R as (Hd & Hb & Hall & Hl & F). rewrite app_nil_r in Hl. unfold alloc_block. apply wp_seq, wp_get, wp_seq.
  destruct fl as [|b fl].
  - eapply lists_remove_none; [done|]. cbn [Z.eqb NULL negb]. apply wp_seq. eapply lists_first; [done|].
    apply (wp_alloc_from A ll []); [done|pose proof (lists_fuel _ _ _ _ Hl); lia|]. by destruct Hav.
  - pose proof (lists_nodup _ _ _ _ Hl) as Hnd. assert (Hbn : b <> NULL) by (eapply lists_null; [done|set_solver]).
    eapply wp_mono; [by apply lists_remove_head|]. cbn beta. intros r c1 (-> & m1 & -> & Hl1).
    rewrite (proj2 (Z.eqb_neq b NULL)) by done. cbn [negb]. destruct (f_blk _ _ _ _ _ _ _ _ _ F b) as (v & m & Hv & _); [set_solver|].
    apply wp_seq. eapply wp_get_block; [exact Hv|]. apply wp_seq, wp_modify, wp_seq.
    eapply wp_mono; [apply (lists_add_tail (with_blocks _ (with_links m1 c))); [exact Hl1|done]|]. cbn beta. intros _ c' (m2 & -> & Hl2).
    apply wp_ret. right. exists fl, ll. split_and!.
    + split_and!; [done|done| |exact Hl2|by apply facts_take_free]. etrans; [|exact Hall]. rewrite app_nil_r. solve_Permutation.
    + done.
    + done.
    + intros n Hu b' v' Hi. cbn. apply NoDup_cons in Hnd as [Hnb _]. rewrite lookup_insert_ne by (intros <-; set_solver). by apply Hu.
Qed.

(** Somebody's block is not missed as long as not all of them are pinned. *)
Lemma pinned_available c A fl ll : rel c A fl ll [] -> (size (pins A) < Z.to_nat (count c))%nat -> available c fl ll.
Proof.
  intros (_ & _ & Hall & Hl & F) Hsz. unfold available. destruct fl as [|b fl]; [right|by left].
  set (v_of := fun b => default (Block 0 0 false 0) (blocks c !! b)).
  assert (Hv : forall b, b ∈ ll -> blocks c !! b = Some (v_of b)).
  { intros b Hb. destruct (f_blk _ _ _ _ _ _ _ _ _ F b) as (v & m & Hv & _); [set_solver|]. unfold v_of. by rewrite Hv. }
  destruct (decide (Exists (fun b => ref_count (v_of b) = 0) ll)) as [(b & Hb & Hr)%Exists_exists|Hno].
  { exists b, (v_of b). split_and!; [done|by apply Hv|done]. }
  exfalso. rewrite app_nil_r in *. pose proof (lists_nodup _ _ _ _ Hl) as Hnd. cbn in Hnd, Hall.
  assert (length ll = Z.to_nat (count c)) as Hlen by (rewrite Hall; unfold all_blocks; by rewrite length_map, length_seqZ).
  assert (Hinj : NoDup (map (fun b => blocknum (v_of b)) ll)).
  { apply NoDup_fmap_2_strong; [|done]. intros b b' Hb Hb'. apply (f_num _ _ _ _ _ _ _ _ _ F); auto. }
  assert (Hsub : list_to_set (C := gset Z) (map (fun b => blocknum (v_of b)) ll) ⊆ dom (pins A)).
  { intros n (b & -> & Hb)%elem_of_list_to_set%list_elem_of_fmap. apply elem_of_dom.
    destruct (f_used _ _ _ _ _ _ _ _ _ F b _ Hb (Hv b Hb)) as (_ & _ & -> & _). unfold pin_of.
    destruct (ref_count (v_of b) =? 0) eqn:Hr; [|by eexists]. apply Z.eqb_eq in Hr. exfalso. apply Hno, Exists_exists. by exists b. }
  apply subseteq_size in Hsub. rewrite size_list_to_set, size_dom, length_map in Hsub by done. lia.
Qed.

(** Block [n] has a place: it is pinned, or not all blocks of the cache are. *)
Definition room c A (n : Z) : Prop := is_Some (pins A !! n) \/ (size (pins A) < Z.to_nat (count c))%nat.

Lemma room_available c c1 A fl ll n fl1 ll1 :
  rel c A fl ll [] -> in_range (io c) n -> room c A n -> io c1 = io c -> rel c1 A fl1 ll1 [] -> count c1 = count c ->
  uncached (blocks c1) ll1 n -> available c1 fl1 ll1.
Proof.
  intros R Hr Hav Kio R1 Hc Hu. destruct Hav as [[p Hp]|Hav].
  - destruct R1 as (_ & _ & _ & _ & F1). destruct (f_out _ _ _ _ _ _ _ _ _ F1 n) as [_ Hpn]; [by rewrite Kio|done|congruence].
  - eapply pinned_available; [exact R1|]. by rewrite Hc.
Qed.

(** ** Filling a block *)

Lemma facts_fill bl bu w A A' fl ll b v num data dirty :
  facts bl bu w A fl ll [b] -> NoDup (fl ++ ll ++ [b]) -> bl !! b = Some v -> uncached bl ll num -> in_range w num ->
  Z.of_nat (length data) = bs -> (dirty = false -> on_dev w num = data) ->
  pins A' = pins A -> content A' num = data -> (forall n, n <> num -> content A' n = content A n) ->
  facts (<[b := Block num 0 dirty (ptr v)]> bl) (<[ptr v := data]> bu) w A' fl (ll ++ [b]) [].
Proof.
  intros F Hnd Hv Hu Hr Hlen Hdirty Hpins Hc Hcne. pose proof F as [H1 H2 H3 H4 H5 H6 H7 H8].
  assert (Hb : b ∉ fl ++ ll) by (rewrite app_assoc in Hnd; apply NoDup_app in Hnd as (_ & Hd & _); intros Hin; apply (Hd b Hin); set_solver).
  assert (Hget : forall b', b' ∈ fl ++ ll -> <[b := Block num 0 dirty (ptr v)]> bl !! b' = bl !! b') by (intros b' Hin; apply lookup_insert_ne; by intros <-).
  assert (Hall : forall x, x ∈ fl ++ (ll ++ [b]) ++ [] -> x ∈ fl ++ ll ++ [b]) by set_solver.
  assert (Hptr : forall b' v', <[b := Block num 0 dirty (ptr v)]> bl !! b' = Some v' -> exists v0, bl !! b' = Some v0 /\ ptr v' = ptr v0).
  { intros b' v' Hv'. destruct (decide (b = b')) as [<-|Hne].
    - rewrite lookup_insert_eq in Hv'. injection Hv' as <-. by exists v.
    - rewrite lookup_insert_ne in Hv' by done. by exists v'. }
  constructor.
  - done.
  - intros b' Hin%Hall. destruct (H2 b' Hin) as (v' & m & Hv' & Hp & Hm & Hl). destruct (decide (b = b')) as [<-|Hne].
    + rewrite lookup_insert_eq. rewrite Hv in Hv'. injection Hv' as <-. exists (Block num 0 dirty (ptr v)), data.
      split_and!; [done|done|apply lookup_insert_eq|done].
    + rewrite lookup_insert_ne by done. exists v', m. rewrite lookup_insert_ne; [done|]. intros Heq. apply Hne. eapply (H3 b b'); [set_solver|done|done|done|done].
  - intros b1 b2 v1 v2 Hi1%Hall Hi2%Hall (u1 & G1 & P1)%Hptr (u2 & G2 & P2)%Hptr. rewrite P1, P2. by apply H3.
  - intros b' v'. rewrite app_nil_r. intros Hin. rewrite Hget by set_solver. apply H4. set_solver.
  - intros b' v'. rewrite app_nil_r. intros Hin. rewrite Hget by set_solver. apply H5. set_solver.
  - assert (Hone : forall b' v', b' ∈ ll -> bl !! b' = Some v' -> num = blocknum v' -> False) by (intros b' v' Hi G ->; by eapply Hu).
    intros b1 b2 v1 v2 [Hi1| ->%list_elem_of_singleton]%elem_of_app [Hi2| ->%list_elem_of_singleton]%elem_of_app.
    + rewrite !Hget by set_solver. by apply H6.
    + rewrite lookup_insert_eq, Hget by set_solver. intros G [= <-] Heq. exfalso. by apply (Hone b1 v1).
    + rewrite lookup_insert_eq, Hget by set_solver. intros [= <-] G Heq. exfalso. by apply (Hone b2 v2).
    + done.
  - intros b' v' [Hi| ->%list_elem_of_singleton]%elem_of_app.
    + rewrite Hget by set_solver. intros G. destruct (H7 b' v' Hi G) as (Hrg & Hbu & Hpin & Hrc & Hcl).
      assert (blocknum v' <> num) by by apply (Hu b'). rewrite Hpins, Hcne by done. split_and!; try (done || lia).
      rewrite lookup_insert_ne; [done|]. intros Heq. apply Hb. assert (b = b') as ->; [|set_solver]. eapply (H3 b b'); [set_solver|set_solver|done|done|done].
    + rewrite lookup_insert_eq. intros [= <-]. cbn. rewrite lookup_insert_eq, Hpins, Hc. destruct (H8 num Hr Hu) as [_ ->].
      split_and!; (done || lia).
  - intros n Hin Hun. assert (n <> num) as Hne. { intros ->. apply (Hun b (Block num 0 dirty (ptr v))); [set_solver|by rewrite lookup_insert_eq|done]. }
    rewrite Hpins, Hcne by done. apply H8; [done|]. intros b' v' Hi G. apply (Hun b'); [set_solver|]. rewrite Hget; [done|set_solver].
Qed.

Lemma wpf_find_or_fill_block c A fl ll num :
  rel c A fl ll [] -> in_range (io c) num -> room c A num ->
  wpf (find_or_fill_block num) (fun b c' => b = NULL /\ bd_fails d \/ b <> NULL /\ cached d bs c' A num b) c.
Proof.
  intros R Hrg Hav. unfold find_or_fill_block. apply wpf_wp_seq.
  eapply wp_mono; [by apply (wp_find_block d bs Hbs fl A num ll)|]. cbn beta. intros b0 c1 [(Kc & Kb & Kbu & Kio) Hfind].
  apply wpf_seq. apply (wpf_mono _ _ (fun b c' => b = NULL /\ bd_fails d \/ b <> NULL /\ cached d bs c' A num b)).
  - destruct Hfind as [(-> & R1 & Hu)|[Hn Hc]]; [|rewrite (proj2 (Z.eqb_neq b0 NULL)) by done; apply wpf_ret; by right].
    cbn [Z.eqb NULL]. assert (available c1 fl ll) as Hav1 by (eapply room_available; [exact R|done|done|exact Kio|exact R1|exact Kc|done]).
    apply wpf_wp_seq. eapply wp_mono; [by eapply wp_alloc_block|]. cbn beta. intros b c2 [[-> Hf]|(fl' & ll' & R2 & Hn & Hrg2 & Hu2)].
    { apply wpf_seq, wpf_assert; [done|]. by intros. }
    apply wpf_seq, wpf_assert; [intros _|by rewrite (proj2 (Z.eqb_neq b NULL))].
    pose proof R2 as (Hd & Hbz & Hall & Hl & F). specialize (Hu2 num Hu).
    destruct (f_blk _ _ _ _ _ _ _ _ _ F b) as (v & m & Hv & Hp & Hm & Hlm); [set_solver|].
    assert (Hrg' : in_range (io c2) num) by (apply Hrg2; by rewrite Kio). pose proof Hrg' as [Hn0 Hfit].
    apply wpf_wp_seq. eapply wp_get_block; [done|]. apply wpf_wp_seq, wp_modify.
    apply wpf_wp_seq. unfold read_into. apply wp_seq, wp_get, wp_seq. eapply wp_get_block; [apply lookup_insert_eq|].
    cbn [ptr set_blocknum dev block_size with_blocks]. rewrite Hd, Hbz. apply wp_seq, wp_in_io. cbn [io with_blocks].
    eapply wp_mono; [apply bd_read; [by apply F|done|nia|lia|lia]|]. cbn beta. intros r w' (Hok & Hw & Hres). apply wp_seq.
    assert (Z.of_nat (length (snd r)) <= bs) as Hrl.
    { destruct Hres as [->|(_ & _ & Hrl)]; [|done]. cbn [snd]. fold (on_dev (io c2) num). rewrite on_dev_length; [lia|done|done]. }
    eapply (wp_store_buf _ 0); [exact Hm|lia|lia|]. apply wp_ret.
    destruct Hres as [->|(Hf & Hneg & _)]; cbn [fst snd].
    + replace (bs <? 0) with false by lia. apply wpf_wp_seq, wp_modify, wpf_ret. right. split; [done|].
      exists fl', (ll' ++ [b]), (Block num (ref_count v) (is_dirty v) (ptr v)). split; [|split_and!; [set_solver|apply lookup_insert_eq|done]].
      rewrite <- (app_nil_r (ll' ++ [b])) in Hl. fold (on_dev (io c2) num).
      assert (Hdl : Z.of_nat (length (on_dev (io c2) num)) = bs) by by apply on_dev_length.
      split_and!; [done|done|by rewrite app_nil_r|exact Hl|]. cbn -[on_dev]. unfold set_blocknum.
      rewrite (f_taken _ _ _ _ _ _ _ _ _ F b v), (f_spare _ _ _ _ _ _ _ _ _ F b v) by (done || set_solver).
      replace (splice (Z.to_nat 0) (on_dev (io c2) num) m) with (on_dev (io c2) num).
      2: { unfold splice. cbn. rewrite drop_ge by lia. by rewrite app_nil_r. }
      assert (Hond : forall n, on_dev w' n = on_dev (io c2) n) by (intros n; unfold BcacheInv.on_dev; by rewrite Hw).
      eapply facts_fill with (A := A); [|rewrite app_nil_r in Hl; exact (lists_nodup _ _ _ _ Hl)|done|done| |done| |done| |done].
      * destruct F as [F1 F2 F3 F4 F5 F6 F7 F8]. constructor; try done.
        -- intros b' v' Hi Hv'. rewrite Hond. unfold BcacheInv.in_range. rewrite Hw. by apply (F7 b').
        -- intros n. rewrite Hond. unfold BcacheInv.in_range. rewrite Hw. by apply F8.
      * unfold BcacheInv.in_range. by rewrite Hw.
      * intros _. apply Hond.
      * symmetry. by apply (f_out _ _ _ _ _ _ _ _ _ F).
    + replace (fst r <? 0) with true by lia.
      apply wpf_wp_seq, wp_get, wpf_wp_seq. eapply wp_mono; [eapply (lists_add_free (with_bufs _ (with_io w' (with_blocks _ c2)))); [exact Hl|set_solver]|].
      intros _ c3 _. apply wpf_ret. by left.
  - cbn beta. intros b c2 [[-> Hf]|[Hn Hc]]; [cbn [Z.eqb NULL]; apply wpf_ret; by left|].
    rewrite (proj2 (Z.eqb_neq b NULL)) by done. pose proof Hc as (fl2 & ll2 & v & _ & _ & Hv & Hbn).
    apply wpf_wp_seq. eapply wp_get_block; [done|]. apply wpf_wp_seq, wp_assert; [by apply Z.eqb_eq|]. apply wpf_ret. by right.
Qed.
End bcache.
