(* ===== verification/BcacheProps.v ===== *)
(** * The cache is transparent

    Its clients read and change blocks of the device, whichever of them are cached
    ([bcache_refines]). *)

From stdpp Require Import prelude list gmap.
From Stdlib Require Import ZArith Lia.
From S2P Require Import Prelude LkList LkListProps Bcache BcacheInv BcacheOps.

Open Scope Z_scope.
Open Scope lk_scope.

(** ** The calls of a client *)

(** A [Store] is a copy to the address that bcache_get_block answered, followed by
    bcache_mark_block_dirty. *)
Inductive call :=
| Read (n : Z)
| Get (n : Z)
| Put (n : Z)
| Store (p n off : Z) (bytes : list Z)
| Zero (n : Z)
| Flush.

Definition set_content (n : Z) (data : list Z) (A : cview) : cview :=
  Cview (fun k => if k =? n then data else content A k) (pins A).
Definition set_pins (n k p : Z) (A : cview) : cview :=
  Cview (content A) (if k =? 0 then delete n (pins A) else <[n := (k, p)]> (pins A)).

(** What a client is promised, for blocks of [bs] bytes *)
Inductive view_step (bs : Z) (A : cview) : call -> Z * list Z -> cview -> Prop :=
| VRead n : view_step bs A (Read n) (0, content A n) A
| VGet n k p : pins A !! n = None /\ k = 0 \/ pins A !! n = Some (k, p) -> view_step bs A (Get n) (0, [p]) (set_pins n (k + 1) p A)
| VPut n k p : pins A !! n = Some (k, p) -> view_step bs A (Put n) (0, []) (set_pins n (k - 1) p A)
| VStore p n off bytes :
    view_step bs A (Store p n off bytes) (0, []) (set_content n (splice (Z.to_nat off) bytes (content A n)) A)
| VZero n : view_step bs A (Zero n) (0, []) (set_content n (replicate (Z.to_nat bs) 0) A)
| VFlush : view_step bs A Flush (0, []) A.

Section bcache.
Context {W : Type} {HW : Blockdev W} (d : Z) {HL : BlockdevLaws W d}.
Context (bs : Z) (Hbs : 0 < bs < 2 ^ 31).
Notation bcache := (bcache W).
Notation CM := (CM W).
Notation rel := (rel d bs).
Notation facts := (facts d bs).
Notation in_range := (in_range d bs).
Notation on_dev := (on_dev d bs).
Notation wpf := (wpf d).
Notation cached := (cached d bs).
Implicit Types (c : bcache) (A : cview) (fl ll lx : list Z).

Definition run_call (cl : call) : CM (Z * list Z) :=
  match cl with
  | Read n => bcache_read_block n
  | Get n => let* r := bcache_get_block n in ret (fst r, [snd r])
  | Put n => let* r := bcache_put_block n in ret (r, [])
  | Store p n off bytes => store_buf p off bytes ;; let* r := bcache_mark_block_dirty n in ret (r, [])
  | Zero n => let* r := bcache_zero_block n in ret (r, [])
  | Flush => let* r := bcache_flush in ret (r, [])
  end.

Definition allowed c A (cl : call) : Prop :=
  match cl with
  | Read n | Zero n => in_range (io c) n /\ room c A n
  | Get n => in_range (io c) n /\ room c A n /\ forall k p, pins A !! n = Some (k, p) -> k < 2 ^ 31 - 1
  | Put n => in_range (io c) n /\ is_Some (pins A !! n)
  | Store p n off bytes => in_range (io c) n /\ (exists k, pins A !! n = Some (k, p)) /\ 0 <= off /\ off + Z.of_nat (length bytes) <= bs
  | Flush => True
  end.

(** ** A used block changes *)

Lemma facts_set bl bu w A A' fl ll b v v' data :
  facts bl bu w A fl ll [] -> b ∈ ll -> bl !! b = Some v ->
  blocknum v' = blocknum v -> ptr v' = ptr v -> 0 <= ref_count v' < 2 ^ 31 ->
  Z.of_nat (length data) = bs -> (is_dirty v' = false -> on_dev w (blocknum v) = data) ->
  content A' (blocknum v) = data -> pins A' !! blocknum v = pin_of v' ->
  (forall n, n <> blocknum v -> content A' n = content A n /\ pins A' !! n = pins A !! n) ->
  NoDup (fl ++ ll) ->
  facts (<[b := v']> bl) (<[ptr v := data]> bu) w A' fl ll [].
Proof.
  intros F Hb Hv Hbn Hp Hrc Hlen Hd Hc Hpin Hne Hnd. pose proof F as [H1 H2 H3 H4 H5 H6 H7 H8]. rewrite !app_nil_r in *.
  assert (Hget : forall b' u, <[b := v']> bl !! b' = Some u -> b' = b /\ u = v' \/ b' <> b /\ bl !! b' = Some u).
  { intros b' u. destruct (decide (b' = b)) as [->|Hn]; [rewrite lookup_insert_eq; intros [= <-]; by left|rewrite lookup_insert_ne by done; by right]. }
  assert (Hold : forall b' u, <[b := v']> bl !! b' = Some u -> exists u0, bl !! b' = Some u0 /\ blocknum u = blocknum u0 /\ ptr u = ptr u0).
  { intros b' u [[-> ->]|[_ Hu]]%Hget; [by exists v|by exists u]. }
  assert (Hptr : forall b' u, b' ∈ fl ++ ll -> bl !! b' = Some u -> b' <> b -> ptr u <> ptr v).
  { intros b' u Hi Hu Hn Heq. apply Hn. apply (H3 b' b u v); [done|set_solver|done..]. }
  assert (Hbfl : b ∉ fl) by (apply NoDup_app in Hnd as (_ & Hx & _); intros Hin; by apply (Hx b)).
  constructor; rewrite ?app_nil_r.
  - done.
  - intros b' Hi. destruct (H2 b' Hi) as (u & m & Hu & Hpn & Hm & Hlm). destruct (decide (b' = b)) as [->|Hn].
    + rewrite lookup_insert_eq. exists v', data. rewrite Hp, lookup_insert_eq. rewrite Hv in Hu. injection Hu as <-. done.
    + rewrite lookup_insert_ne by done. exists u, m. rewrite lookup_insert_ne; [done|]. intros Heq. by apply (Hptr b' u).
  - intros b1 b2 u1 u2 Hi1 Hi2 (w1 & G1 & _ & P1)%Hold (w2 & G2 & _ & P2)%Hold. rewrite P1, P2. by apply H3.
  - intros b' u Hi [[-> ->]|[Hn Hu]]%Hget; [done|by eapply H4].
  - intros b' u Hi [[-> ->]|[Hn Hu]]%Hget; [done|by eapply H5].
  - intros b1 b2 u1 u2 Hi1 Hi2 (w1 & G1 & P1 & _)%Hold (w2 & G2 & P2 & _)%Hold. rewrite P1, P2. by apply H6.
  - intros b' u Hi [[-> ->]|[Hn Hu]]%Hget.
    + destruct (H7 b v Hb Hv) as (Hrg & _). rewrite Hbn, Hp, lookup_insert_eq, Hc. split_and!; (done || lia || by apply Hd).
    + destruct (H7 b' u Hi Hu) as (Hrg & Hbu & Hpu & Hru & Hcu).
      destruct (Hne (blocknum u)) as [-> ->]; [intros Heq; apply Hn; by apply (H6 b' b u v)|].
      rewrite lookup_insert_ne by (intros Heq; apply (Hptr b' u); [set_solver|done|done|done]). split_and!; (done || lia).
  - intros n Hi Hu. assert (n <> blocknum v) as Hn by (intros ->; apply (Hu b v' Hb); [by rewrite lookup_insert_eq|done]).
    destruct (Hne n Hn) as [-> ->]. apply H8; [done|]. intros b' u Hib Hbu. destruct (decide (b' = b)) as [->|Hnb].
    + rewrite Hv in Hbu. injection Hbu as <-. done.
    + apply (Hu b'); [done|]. by rewrite lookup_insert_ne.
Qed.

Lemma rel_set c A A' fl ll b v v' data :
  rel c A fl ll [] -> b ∈ ll -> blocks c !! b = Some v ->
  blocknum v' = blocknum v -> ptr v' = ptr v -> 0 <= ref_count v' < 2 ^ 31 ->
  Z.of_nat (length data) = bs -> (is_dirty v' = false -> on_dev (io c) (blocknum v) = data) ->
  content A' (blocknum v) = data -> pins A' !! blocknum v = pin_of v' ->
  (forall n, n <> blocknum v -> content A' n = content A n /\ pins A' !! n = pins A !! n) ->
  rel (with_bufs (<[ptr v := data]> (bufs c)) (with_blocks (<[b := v']> (blocks c)) c)) A' fl ll [].
Proof.
  intros (Hd & Hb & Hall & Hl & F). intros. split_and!; [done|done|done|done|]. eapply facts_set; try done.
  rewrite app_nil_r in Hl. by apply (lists_nodup _ _ _ _ Hl).
Qed.

(** The buffer stays. *)
Lemma rel_mark c A A' fl ll b v v' :
  rel c A fl ll [] -> b ∈ ll -> blocks c !! b = Some v ->
  blocknum v' = blocknum v -> ptr v' = ptr v -> 0 <= ref_count v' < 2 ^ 31 ->
  (is_dirty v' = false -> is_dirty v = false) ->
  (forall n, content A' n = content A n) -> pins A' !! blocknum v = pin_of v' ->
  (forall n, n <> blocknum v -> pins A' !! n = pins A !! n) ->
  rel (with_blocks (<[b := v']> (blocks c)) c) A' fl ll [].
Proof.
  intros R Hb Hv Hbn Hp Hr Hd Hc Hpin Hne. pose proof R as (_ & _ & _ & _ & F).
  destruct (f_used _ _ _ _ _ _ _ _ _ F b v Hb Hv) as (_ & Hbu & _ & _ & Hcl).
  destruct (f_blk _ _ _ _ _ _ _ _ _ F b) as (u & m & Hu & _ & Hm & Hlm); [set_solver|]. rewrite Hv in Hu. injection Hu as <-.
  rewrite Hbu in Hm. injection Hm as <-.
  pose proof (rel_set c A A' fl ll b v v' (content A (blocknum v)) R Hb Hv Hbn Hp Hr Hlm) as R'.
  rewrite insert_id in R' by done. destruct c. apply R'; auto.
Qed.

(** What is known of a block that was found *)
Lemma cached_view c A n b : cached c A n b -> exists fl ll v,
  rel c A fl ll [] /\ b ∈ ll /\ blocks c !! b = Some v /\ blocknum v = n /\ bufs c !! ptr v = Some (content A n) /\
  Z.of_nat (length (content A n)) = bs /\ pins A !! n = pin_of v /\ 0 <= ref_count v < 2 ^ 31 /\ ptr v <> NULL.
Proof.
  intros (fl & ll & v & R & Hb & Hv & <-). pose proof R as (_ & _ & _ & _ & F).
  destruct (f_used _ _ _ _ _ _ _ _ _ F b v Hb Hv) as (_ & Hbu & Hp & Hr & _).
  destruct (f_blk _ _ _ _ _ _ _ _ _ F b) as (u & m & Hu & Hpn & Hm & Hlm); [set_solver|]. rewrite Hv in Hu. injection Hu as <-.
  rewrite Hbu in Hm. injection Hm as <-. by exists fl, ll, v.
Qed.

(** A cache that shows [A] *)
Definition good c A : Prop := exists fl ll, rel c A fl ll [].

Lemma cached_good c A n b : cached c A n b -> good c A.
Proof. intros (fl & ll & v & R & _). by exists fl, ll. Qed.

Definition flushed (w : W) A : Prop := forall n, in_range w n -> on_dev w n = content A n.

Definition answered A (cl : call) (r : Z * list Z) c' : Prop :=
  (exists A', view_step bs A cl r A' /\ good c' A' /\ (cl = Flush -> flushed (io c') A')) \/ bd_fails d /\ fst r < 0.

Lemma read_ok c A n : good c A -> in_range (io c) n -> room c A n -> wpf (run_call (Read n)) (answered A (Read n)) c.
Proof.
  intros (fl & ll & R) Hr Hroom. cbn [run_call]. unfold bcache_read_block. apply wpf_seq.
  eapply wpf_mono; [by eapply wpf_find_or_fill_block|]. cbn beta. intros b c1 [[-> Hf]|[Hn Hc]]; [apply wpf_ret; by right|].
  rewrite (proj2 (Z.eqb_neq b NULL)) by done. pose proof (cached_good _ _ _ _ Hc) as Hg.
  destruct (cached_view _ _ _ _ Hc) as (fl1 & ll1 & v & (_ & Hb & _) & Hi & Hv & Hbn & Hbu & Hlen & _).
  apply wpf_wp_seq, wp_get, wpf_wp_seq. eapply wp_get_block; [done|]. apply wpf_wp_seq. eapply wp_cache_buf; [done|].
  rewrite Hb. replace (bs <=? _) with true by lia. rewrite take_ge by lia. apply wpf_ret. left. exists A. split; [constructor|]. by split.
Qed.

Lemma pin_cases v n A : pins A !! n = pin_of v ->
  pins A !! n = None /\ ref_count v = 0 \/ pins A !! n = Some (ref_count v, ptr v) /\ ref_count v <> 0.
Proof. unfold pin_of. destruct (ref_count v =? 0) eqn:Hr; [apply Z.eqb_eq in Hr; by left|apply Z.eqb_neq in Hr; by right]. Qed.

Lemma set_pins_pin n v k A : pins (set_pins n k (ptr v) A) !! n = pin_of (set_ref_count k v).
Proof. unfold set_pins, pin_of. cbn. destruct (k =? 0); [apply lookup_delete_eq|apply lookup_insert_eq]. Qed.

Lemma set_pins_ne n m k p A : m <> n -> pins (set_pins n k p A) !! m = pins A !! m.
Proof. intros. unfold set_pins. cbn. destruct (k =? 0); [by apply lookup_delete_ne|by apply lookup_insert_ne]. Qed.

Lemma get_ok c A n :
  good c A -> in_range (io c) n -> room c A n -> (forall k p, pins A !! n = Some (k, p) -> k < 2 ^ 31 - 1) ->
  wpf (run_call (Get n)) (answered A (Get n)) c.
Proof.
  intros (fl & ll & R) Hr Hroom Hk. cbn [run_call]. unfold bcache_get_block. apply wpf_seq, wpf_seq.
  eapply wpf_mono; [by eapply wpf_find_or_fill_block|]. cbn beta. intros b c1 [[-> Hf]|[Hn Hc]]; [apply wpf_ret, wpf_ret; by right|].
  rewrite (proj2 (Z.eqb_neq b NULL)) by done.
  destruct (cached_view _ _ _ _ Hc) as (fl1 & ll1 & v & R1 & Hi & Hv & Hbn & Hbu & Hlen & Hpin & Hrc & _).
  apply wpf_wp_seq. eapply wp_get_block; [done|]. apply wpf_wp_seq, wp_modify, wpf_ret, wpf_ret. left. cbn [fst snd].
  assert (Hv1 : ref_count v + 1 < 2 ^ 31) by (destruct (pin_cases _ _ _ Hpin) as [[_ ->]|[Hp _]]; [lia|]; specialize (Hk _ _ Hp); lia).
  exists (set_pins n (ref_count v + 1) (ptr v) A). split; [|split; [|done]].
  - constructor. destruct (pin_cases _ _ _ Hpin) as [[-> ->]|[-> _]]; [by left|by right].
  - rewrite s32_small by lia. exists fl1, ll1. eapply rel_mark; [done|done|done|done|done|cbn; lia|done|done|rewrite Hbn; apply set_pins_pin|].
    rewrite Hbn. intros m Hm. by apply set_pins_ne.
Qed.

(** A pinned block is found. *)
Lemma wp_find_pinned c A n : good c A -> in_range (io c) n -> is_Some (pins A !! n) -> wp (find_block n) (fun b c' => b <> NULL /\ cached c' A n b) c.
Proof.
  intros (fl & ll & R) Hr [p Hp]. eapply wp_mono; [by apply (wp_find_block d bs Hbs fl A n ll)|]. cbn beta.
  intros b c1 [(Kc & Kb & _ & Kio) [(_ & (_ & _ & _ & _ & F) & Hu)|Hc]]; [|done].
  destruct (f_out _ _ _ _ _ _ _ _ _ F n) as [_ Hn]; [by rewrite Kio|done|congruence].
Qed.

Lemma put_ok c A n : good c A -> in_range (io c) n -> is_Some (pins A !! n) -> wpf (run_call (Put n)) (answered A (Put n)) c.
Proof.
  intros G Hr Hp. cbn [run_call]. unfold bcache_put_block. apply wpf_seq, wpf_wp_seq.
  eapply wp_mono; [by apply wp_find_pinned|]. cbn beta. intros b c1 [Hn Hc].
  apply wpf_wp_seq, wp_assert; [by rewrite (proj2 (Z.eqb_neq b NULL))|].
  destruct (cached_view _ _ _ _ Hc) as (fl1 & ll1 & v & R1 & Hi & Hv & Hbn & Hbu & Hlen & Hpin & Hrc & _).
  assert (pins A !! n = Some (ref_count v, ptr v) /\ ref_count v <> 0) as [Hpv Hnz].
  { destruct (pin_cases _ _ _ Hpin) as [[Hx _]|Hx]; [|done]. destruct Hp as [? Hp]. congruence. }
  apply wpf_wp_seq. eapply wp_get_block; [done|]. apply wpf_wp_seq, wp_assert; [lia|]. apply wpf_wp_seq, wp_modify, wpf_ret, wpf_ret. left.
  exists (set_pins n (ref_count v - 1) (ptr v) A). split; [by constructor|]. split; [|done].
  rewrite s32_small by lia. exists fl1, ll1. eapply rel_mark; [done|done|done|done|done|cbn; lia|done|done|rewrite Hbn; apply set_pins_pin|].
  rewrite Hbn. intros m Hm. by apply set_pins_ne.
Qed.

Lemma set_content_same n data A : content (set_content n data A) n = data.
Proof. cbn. by rewrite Z.eqb_refl. Qed.

Lemma set_content_ne n m data A : m <> n -> content (set_content n data A) m = content A m.
Proof. intros. cbn. by rewrite (proj2 (Z.eqb_neq m n)). Qed.

Lemma pinned_block c A fl ll n k p :
  rel c A fl ll [] -> in_range (io c) n -> pins A !! n = Some (k, p) ->
  exists b v, b ∈ ll /\ blocks c !! b = Some v /\ blocknum v = n /\ ptr v = p.
Proof.
  intros R Hr Hp. destruct (decide (Exists (fun b => blocknum <$> blocks c !! b = Some n) ll)) as [(b & Hb & Hx)%Exists_exists|Hno].
  - destruct (blocks c !! b) as [v|] eqn:Hv; [|done]. injection Hx as Hbn. exists b, v. split_and!; [done..|].
    destruct R as (_ & _ & _ & _ & F). destruct (f_used _ _ _ _ _ _ _ _ _ F b v Hb Hv) as (_ & _ & Hpin & _).
    rewrite Hbn, Hp in Hpin. unfold pin_of in Hpin. destruct (ref_count v =? 0); congruence.
  - destruct R as (_ & _ & _ & _ & F). destruct (f_out _ _ _ _ _ _ _ _ _ F n Hr) as [_ Hn]; [|congruence].
    intros b v Hb Hv Hbn. apply Hno, Exists_exists. exists b. split; [done|]. by rewrite Hv, <- Hbn.
Qed.

Lemma store_ok c A p n off bytes :
  good c A -> in_range (io c) n -> (exists k, pins A !! n = Some (k, p)) -> 0 <= off -> off + Z.of_nat (length bytes) <= bs ->
  wpf (run_call (Store p n off bytes)) (answered A (Store p n off bytes)) c.
Proof.
  intros (fl & ll & R) Hr [k Hp] Ho Hfit. destruct (pinned_block _ _ _ _ _ _ _ R Hr Hp) as (b & v & Hb & Hv & Hbn & <-).
  pose proof R as (Hd & Hbz & Hall & Hl & F). rewrite app_nil_r in Hl.
  destruct (cached_view c A n b) as (_ & _ & v' & _ & _ & Hv' & _ & Hbu & Hlen & Hpin & Hrc & _); [by exists fl, ll, v|].
  rewrite Hv in Hv'. injection Hv' as <-. set (data := splice (Z.to_nat off) bytes (content A n)).
  assert (Hdl : Z.of_nat (length data) = bs) by (unfold data; rewrite length_splice; lia).
  cbn [run_call]. apply wpf_wp_seq. eapply (wp_store_buf _ off); [exact Hbu|done|lia|]. fold data.
  unfold bcache_mark_block_dirty. apply wpf_wp_seq, wp_seq.
  eapply wp_mono; [apply (wp_find_listed (with_bufs (<[ptr v := data]> (bufs c)) c) fl n ll); [exact Hl|]|].
  { intros b' Hi. destruct (f_blk _ _ _ _ _ _ _ _ _ F b') as (u & _ & Hu & _); [set_solver|]. by exists u. }
  cbn beta. intros b1 c1 (m & st & -> & [(_ & _ & Hu)|(Hn & ll' & u & Hperm & Hl' & Hi & Hu & Hun)]); [by destruct (Hu b v Hb Hv)|].
  rewrite (proj2 (Z.eqb_neq b1 NULL)) by done. cbn in Hu.
  assert (b1 = b) as -> by (apply (f_num _ _ _ _ _ _ _ _ _ F b1 b u v); [by rewrite Hperm|done|done|done|congruence]).
  rewrite Hv in Hu. injection Hu as <-.
  apply wp_seq. eapply wp_get_block; [exact Hv|]. apply wp_seq, wp_modify, wp_ret, wpf_ret. left.
  exists (set_content n data A). split; [constructor|]. split; [|done]. exists fl, ll'.
  split_and!; [done|done|by rewrite <- Hperm|by rewrite app_nil_r|].
  eapply facts_perm; [exact Hperm|]. cbn [blocks bufs io with_blocks with_stats with_links with_bufs].
  apply facts_set with (A := A) (v := v); [exact F|exact Hb|exact Hv|done|done|done|done|done|..].
  - rewrite Hbn. apply set_content_same.
  - by rewrite Hbn.
  - rewrite Hbn. intros m' Hm. split; [by apply set_content_ne|done].
  - exact (lists_nodup _ _ _ _ Hl).
Qed.

(** Zeros over the buffer of a block *)
Lemma wp_zero_buf c b v m (Q : Z -> bcache -> Prop) :
  block_size c = bs -> blocks c !! b = Some v -> bufs c !! ptr v = Some m -> Z.of_nat (length m) = bs ->
  Q 0 (with_blocks (<[b := set_dirty true v]> (blocks c)) (with_bufs (<[ptr v := replicate (Z.to_nat bs) 0]> (bufs c)) c)) ->
  wp (zero_buf b) Q c.
Proof.
  intros Hb Hv Hm Hlm HQ. unfold zero_buf. apply wp_seq, wp_get, wp_seq. eapply wp_get_block; [done|]. rewrite Hb.
  apply wp_seq. eapply (wp_store_buf _ 0); [exact Hm|lia|rewrite length_replicate; lia|]. apply wp_seq, wp_modify, wp_ret.
  replace (splice (Z.to_nat 0) (replicate (Z.to_nat bs) 0) m) with (replicate (Z.to_nat bs) 0); [done|].
  unfold splice. cbn. rewrite length_replicate, drop_ge by lia. by rewrite app_nil_r.
Qed.

Lemma zero_ok c A n : good c A -> in_range (io c) n -> room c A n -> wpf (run_call (Zero n)) (answered A (Zero n)) c.
Proof.
  intros (fl & ll & R) Hr Hroom. cbn [run_call]. unfold bcache_zero_block. apply wpf_seq, wpf_wp_seq.
  eapply wp_mono; [by apply (wp_find_block d bs Hbs fl A n ll)|]. cbn beta.
  intros b c1 [(Kc & Kb & _ & Kio) [(-> & R1 & Hu)|[Hn Hc]]].
  - cbn [Z.eqb NULL]. apply wpf_wp_seq. eapply wp_mono; [eapply wp_alloc_block; [done|exact R1|eapply room_available; [exact Hbs|exact R|done|done|exact Kio|exact R1|exact Kc|done]]|].
    cbn beta. intros b c2 [[-> Hf]|(fl' & ll' & R2 & Hn & Hrg2 & Hu2)]; [apply wpf_ret, wpf_ret; by right|].
    rewrite (proj2 (Z.eqb_neq b NULL)) by done. pose proof R2 as (Hd & Hbz & Hall & Hl & F). specialize (Hu2 n Hu).
    destruct (f_blk _ _ _ _ _ _ _ _ _ F b) as (v & m & Hv & Hp & Hm & Hlm); [set_solver|].
    apply wpf_wp_seq. eapply wp_get_block; [done|]. apply wpf_wp_seq, wp_modify, wp_wpf.
    eapply (wp_zero_buf _ _ (set_blocknum n v)); [done|apply lookup_insert_eq|exact Hm|done|]. apply wpf_ret. left.
    exists (set_content n (replicate (Z.to_nat bs) 0) A). split; [constructor|]. split; [|done]. exists fl', (ll' ++ [b]).
    split_and!; [done|done|by rewrite app_nil_r|by rewrite app_nil_r|]. cbn [blocks bufs io with_blocks with_bufs].
    rewrite insert_insert_eq. unfold set_dirty, set_blocknum. cbn [blocknum ref_count ptr].
    rewrite (f_taken _ _ _ _ _ _ _ _ _ F b v) by (done || set_solver).
    eapply facts_fill; [exact Hbs|exact F|exact (lists_nodup _ _ _ _ Hl)|done|done| |rewrite length_replicate; lia|done|done|apply set_content_same|by intros; apply set_content_ne].
    apply Hrg2. by rewrite Kio.
  - rewrite (proj2 (Z.eqb_neq b NULL)) by done.
    destruct (cached_view _ _ _ _ Hc) as (fl1 & ll1 & v & R1 & Hi & Hv & Hbn & Hbu & Hlen & Hpin & Hrc & _).
    apply wp_wpf. eapply wp_zero_buf; [by apply R1|exact Hv|exact Hbu|done|]. apply wpf_ret. left.
    exists (set_content n (replicate (Z.to_nat bs) 0) A). split; [constructor|]. split; [|done]. exists fl1, ll1.
    apply (rel_set c1 A _ fl1 ll1 b v (set_dirty true v)); try done; rewrite ?Hbn; [rewrite length_replicate; lia|apply set_content_same|done|].
    intros m Hm. split; [by apply set_content_ne|done].
Qed.

(** ** Flushing *)

Definition clean c ll : Prop := forall b v, b ∈ ll -> blocks c !! b = Some v -> is_dirty v = false.

Lemma wp_flush_from A fl l2 : forall l1 c fuel,
  rel c A fl (l1 ++ l2) [] -> (length l2 < fuel)%nat -> clean c l1 ->
  wp (flush_from fuel (after l2 (lru_list c))) (fun rc c' => rc < 0 /\ bd_fails d \/ rc = 0 /\ rel c' A fl (l1 ++ l2) [] /\ clean c' (l1 ++ l2)) c.
Proof.
  induction l2 as [|b l2 IH]; intros l1 c [|fuel] R Hf Hcl; cbn [length] in Hf; try lia; cbn [flush_from];
    pose proof R as (Hd & Hb & Hall & Hl & F); rewrite app_nil_r in Hl; apply wp_seq, wp_get; rewrite (lists_end _ _ _ _ _ Hl).
  - rewrite bool_decide_true by done. apply wp_ret. right. rewrite app_nil_r in *. done.
  - rewrite bool_decide_false by done. cbn [List.hd]. destruct (f_blk _ _ _ _ _ _ _ _ _ F b) as (v & m & Hv & Hp & Hm & Hlm); [set_solver|].
    apply wp_seq. eapply wp_get_block; [done|].
    assert (Hnext : forall c1 v1, rel c1 A fl (l1 ++ b :: l2) [] -> blocks c1 = <[b := v1]> (blocks c) -> is_dirty v1 = false -> lru_list c1 = lru_list c ->
      wp (let* b := in_links (get_next b) in flush_from fuel b)
        (fun rc c' => rc < 0 /\ bd_fails d \/ rc = 0 /\ rel c' A fl (l1 ++ b :: l2) [] /\ clean c' (l1 ++ b :: l2)) c1).
    { intros c1 v1 R1 Hbl Hd1 Hlru. pose proof R1 as (_ & _ & _ & Hl1 & _). rewrite app_nil_r in Hl1.
      apply wp_seq. eapply lists_next; [done|]. replace (l1 ++ b :: l2) with ((l1 ++ [b]) ++ l2) in * by (by rewrite <- app_assoc).
      apply IH; [done|lia|]. intros b' v'. rewrite Hbl. destruct (decide (b' = b)) as [->|Hne].
      - rewrite lookup_insert_eq. by intros _ [= <-].
      - rewrite lookup_insert_ne by done. intros Hi. apply Hcl. set_solver. }
    destruct (is_dirty v) eqn:Hdv.
    + apply wp_seq. eapply wp_mono; [eapply (wp_flush_block d bs Hbs c A fl (l1 ++ b :: l2) [] b v); [exact R|set_solver|exact Hv]|]. cbn beta.
      intros rc c1 [[Hneg Hfail]|(-> & R1 & Hbl & _ & Hlru & _)].
      * replace (rc =? 0) with false by lia. cbn [negb]. apply wp_ret. by left.
      * cbn [Z.eqb negb]. by apply (Hnext c1 (set_dirty false v)).
    + apply wp_seq, wp_ret. cbn [Z.eqb negb]. apply (Hnext c v); by rewrite ?insert_id.
Qed.

(** When every block is clean, the device has the contents. *)
Lemma clean_flushed c A fl ll : rel c A fl ll [] -> clean c ll -> flushed (io c) A.
Proof.
  intros (_ & _ & _ & _ & F) Hcl n Hr.
  destruct (decide (Exists (fun b => blocknum <$> blocks c !! b = Some n) ll)) as [(b & Hb & Hx)%Exists_exists|Hno].
  - destruct (blocks c !! b) as [v|] eqn:Hv; [|done]. injection Hx as <-.
    destruct (f_used _ _ _ _ _ _ _ _ _ F b v Hb Hv) as (_ & _ & _ & _ & Hd). by apply Hd, (Hcl b).
  - apply (f_out _ _ _ _ _ _ _ _ _ F n Hr). intros b v Hb Hv Hbn. apply Hno, Exists_exists. exists b. split; [done|]. by rewrite Hv, <- Hbn.
Qed.

Lemma flush_ok c A : good c A -> wpf (run_call Flush) (answered A Flush) c.
Proof.
  intros (fl & ll & R). pose proof R as (_ & _ & _ & Hl & _). rewrite app_nil_r in Hl. cbn [run_call]. apply wp_wpf, wp_seq.
  unfold bcache_flush. apply wp_seq, wp_get, wp_seq. eapply lists_first; [done|].
  eapply wp_mono; [apply (wp_flush_from A fl ll []); [done|pose proof (lists_fuel _ _ _ _ Hl); lia|intros b v Hb; by apply not_elem_of_nil in Hb]|].
  cbn beta. intros rc c1 [[Hneg Hf]|(-> & R1 & Hcl)]; apply wp_ret; [by right|left]. cbn [app] in *.
  exists A. split; [constructor|]. split; [by exists fl, ll|]. intros _. by eapply clean_flushed.
Qed.

Lemma call_ok c A cl : good c A -> allowed c A cl -> wpf (run_call cl) (answered A cl) c.
Proof.
  intros G Ha. destruct cl as [n|n|n|p n off bytes|n|]; cbn [allowed] in Ha.
  - destruct Ha. by apply read_ok.
  - destruct Ha as (? & ? & ?). by apply get_ok.
  - destruct Ha. by apply put_ok.
  - destruct Ha as (? & ? & ? & ?). by apply store_ok.
  - destruct Ha. by apply zero_ok.
  - by apply flush_ok.
Qed.

(** ** The end *)

(** Nobody has a block, so the buffers can be freed. *)
Lemma wp_free_blocks l : forall c,
  NoDup l ->
  (forall i, i ∈ l -> exists v, blocks c !! block_at c i = Some v /\ ref_count v = 0 /\ is_Some (bufs c !! ptr v)) ->
  (forall i j v v', i ∈ l -> j ∈ l -> blocks c !! block_at c i = Some v -> blocks c !! block_at c j = Some v' -> ptr v = ptr v' -> i = j) ->
  wp (for_each l (fun i => let* b := get_block (block_at c i) in assert_ (ref_count b =? 0) ;; free_buf (ptr b))) (fun _ _ => True) c.
Proof.
  induction l as [|i l IH]; intros c Hnd Hv Hinj; cbn [for_each]; [by apply wp_ret|].
  apply NoDup_cons in Hnd as [Hi Hnd]. destruct (Hv i) as (v & Hbl & Hr & [m Hm]); [set_solver|].
  apply wp_seq, wp_seq. eapply wp_get_block; [done|]. apply wp_seq, wp_assert; [by apply Z.eqb_eq|].
  unfold free_buf. apply wp_seq, wp_get. destruct (ptr v =? NULL).
  - apply wp_ret. apply IH; [done|intros j Hj; apply Hv; set_solver|intros j k ? ? Hj Hk; apply Hinj; set_solver].
  - apply wp_seq. eapply wp_deref; [done|]. apply wp_modify.
    apply (IH (with_bufs (delete (ptr v) (bufs c)) c)); [done| |intros j k ? ? Hj Hk; apply Hinj; set_solver].
    intros j Hj. destruct (Hv j) as (u & Hu & Hru & Hbu); [set_solver|]. exists u. split_and!; [done|done|]. cbn.
    rewrite lookup_delete_ne; [done|]. intros Heq. assert (i = j) as ->; [|done]. apply (Hinj i j v u); [set_solver|set_solver|done|done|done].
Qed.

Lemma wp_destroy c A : good c A -> pins A = ∅ -> wp bcache_destroy (fun _ _ => True) c.
Proof.
  intros (fl & ll & _ & _ & Hall & _ & F) Hp. rewrite app_nil_r in Hall. unfold bcache_destroy. apply wp_seq, wp_get, wp_seq.
  assert (Hin : forall i, i ∈ seqZ 0 (count c) -> block_at c i ∈ fl ++ ll).
  { intros i Hi. rewrite Hall. unfold all_blocks. apply list_elem_of_fmap. by exists i. }
  eapply wp_mono; [apply wp_free_blocks; [apply NoDup_seqZ| |]|intros; by apply wp_modify].
  - intros i Hi. destruct (f_blk _ _ _ _ _ _ _ _ _ F (block_at c i)) as (v & m & Hv & _ & Hm & _); [rewrite app_nil_r; by apply Hin|].
    exists v. split_and!; [done| |by eexists]. specialize (Hin i Hi). apply elem_of_app in Hin as [Hin|Hin].
    + apply (f_taken _ _ _ _ _ _ _ _ _ F (block_at c i) v); [by rewrite app_nil_r|done].
    + destruct (f_used _ _ _ _ _ _ _ _ _ F _ v Hin Hv) as (_ & _ & Hpin & _). rewrite Hp in Hpin. unfold pin_of in Hpin.
      rewrite lookup_empty in Hpin. destruct (ref_count v =? 0) eqn:Hr; [by apply Z.eqb_eq|done].
  - intros i j v v' Hi Hj Hv Hv' Heq. assert (block_at c i = block_at c j) as Hb.
    { apply (f_inj _ _ _ _ _ _ _ _ _ F _ _ v v'); [rewrite app_nil_r; by apply Hin|rewrite app_nil_r; by apply Hin|done|done|done]. }
    unfold block_at, sizeof_block in Hb. lia.
Qed.

(** ** The start *)

(** sizeof(struct bcache) *)
Definition sizeof_bcache : Z := 52.

(** malloc's answers for a cache of [n] blocks: objects that do not overlap *)
Record malloc_ok (n cache at_ : Z) (heap : Z -> raw) : Prop := {
  mo_count : 0 <= n;
  mo_null : 0 < cache /\ 0 < at_;
  mo_apart : cache + sizeof_bcache <= at_ \/ at_ + sizeof_block * n <= cache;
  mo_bufs i : 0 <= i < n -> raw_ptr (heap i) <> NULL /\ Z.of_nat (length (raw_bytes (heap i))) = bs;
  mo_distinct i j : 0 <= i < n -> 0 <= j < n -> raw_ptr (heap i) = raw_ptr (heap j) -> i = j
}.

(** The first [k] blocks are made. *)
Definition created (n cache at_ : Z) (heap : Z -> raw) (w : W) (k : Z) c : Prop :=
  (self c = cache /\ dev c = d /\ block_size c = bs /\ count c = n /\ blocks_at c = at_ /\ io c = w) /\
  (exists fl, fl ≡ₚ map (block_at c) (seqZ 0 k) /\ lists c fl [] []) /\
  forall i, 0 <= i < k ->
    blocks c !! block_at c i = Some (Block (raw_num (heap i)) 0 false (raw_ptr (heap i))) /\
    bufs c !! raw_ptr (heap i) = Some (raw_bytes (heap i)).

Lemma wp_create_block n cache at_ heap w k c :
  malloc_ok n cache at_ heap -> 0 <= k < n -> created n cache at_ heap w k c ->
  wp (create_block heap k) (fun _ => created n cache at_ heap w (k + 1)) c.
Proof.
  intros Hm Hk ((Hs & Hd & Hb & Hc & Ha & Hio) & (fl & Hfl & Hl) & Hold). destruct (mo_null _ _ _ _ Hm) as [Hs0 Ha0].
  destruct (mo_bufs _ _ _ _ Hm k Hk) as [Hp Hpl]. pose proof (mo_apart _ _ _ _ Hm) as Hap. unfold sizeof_bcache, sizeof_block in Hap.
  assert (Hbk : block_at c k = at_ + 24 * k) by (unfold block_at, sizeof_block; by rewrite Ha).
  assert (Hfresh : block_at c k ∉ fl).
  { rewrite Hfl. intros (i & Heq & Hi%elem_of_seqZ)%list_elem_of_fmap. unfold block_at, sizeof_block in Heq. lia. }
  assert (Hnull : block_at c k <> NULL) by (unfold NULL; lia).
  unfold create_block. apply wp_seq, wp_get, wp_seq. rewrite Ha. replace (at_ =? NULL) with false by (unfold NULL; lia). apply wp_ret.
  apply wp_seq, wp_modify, wp_seq, wp_modify, wp_seq. unfold place_buf. rewrite (proj2 (Z.eqb_neq _ _)) by done. apply wp_modify.
  eapply wp_mono; [apply (lists_add_head (with_bufs _ (with_blocks _ (with_links _ c))) fl [] (block_at c k))|].
  - apply (lists_place c fl []); [done| |].
    + apply not_elem_of_cons. split; [|done]. unfold free_list. lia.
    + apply not_elem_of_cons. split; [|apply not_elem_of_nil]. unfold lru_list. lia.
  - done.
  - cbn beta. intros _ c' (m & -> & Hl'). split; [done|]. split.
    + exists (block_at c k :: fl). split; [|exact Hl']. replace (k + 1) with (Z.of_nat (S (Z.to_nat k))) by lia. rewrite seqZ_S, map_app.
      cbn [map]. rewrite <- Permutation_cons_append. replace (0 + Z.of_nat (Z.to_nat k)) with k by lia. apply Permutation_cons; [done|].
      rewrite Hfl, Z2Nat.id by lia. done.
    + intros i Hi. change (block_at _ i) with (block_at c i). cbn [blocks bufs with_links with_bufs with_blocks].
      destruct (decide (i = k)) as [->|Hne]; [by rewrite !lookup_insert_eq|].
      rewrite !lookup_insert_ne; [apply Hold; lia| |].
      * intros Heq. apply Hne. symmetry. apply (mo_distinct _ _ _ _ Hm); [done|lia|done].
      * unfold block_at, sizeof_block. lia.
Qed.

Lemma wp_create_blocks n cache at_ heap w m : forall k c,
  malloc_ok n cache at_ heap -> 0 <= k -> k + Z.of_nat m = n -> created n cache at_ heap w k c ->
  wp (for_each (seqZ k (Z.of_nat m)) (create_block heap)) (fun _ => created n cache at_ heap w n) c.
Proof.
  induction m as [|m IH]; intros k c Hm Hk Hsum Hc.
  - rewrite seqZ_nil by lia. apply wp_ret. by replace k with n in Hc by lia.
  - rewrite seqZ_cons by lia. cbn [for_each]. apply wp_seq. eapply wp_mono; [apply (wp_create_block n cache at_ heap w k c Hm); [lia|done]|].
    cbn beta. intros _ c' Hc'. replace (Z.pred (Z.of_nat (S m))) with (Z.of_nat m) by lia. apply IH; [done|lia|lia|]. by rewrite <- Z.add_1_r.
Qed.

Lemma wp_create c n cache at_ heap :
  bd_ok d (io c) -> malloc_ok n cache at_ heap ->
  wp (bcache_create d bs n cache at_ heap) (fun _ c' => good c' (Cview (on_dev (io c)) ∅) /\ io c' = io c /\ count c' = n) c.
Proof.
  intros Hok Hm. destruct (mo_null _ _ _ _ Hm) as [Hs0 Ha0]. pose proof (mo_count _ _ _ _ Hm) as Hn. unfold bcache_create.
  apply wp_seq. replace (cache =? NULL) with false by (unfold NULL; lia). apply wp_ret.
  apply wp_seq, wp_modify, wp_seq, wp_get, wp_seq, wp_modify, wp_seq, wp_modify.
  match goal with |- wp _ _ ?c1 => apply (lists_initialize c1) end; [cbn; lia|done|]. intros m Hl. rewrite <- (Z2Nat.id n) at 1 by lia.
  eapply wp_mono; [apply (wp_create_blocks n cache at_ heap (io c)); [done|lia|lia|]|].
  - split; [by split_and!|]. split; [|intros i Hi; lia]. exists []. split; [done|exact Hl].
  - cbn beta. intros _ c' ((Hs & Hd & Hb & Hc & Ha & Hio) & (fl & Hfl & Hl') & Hall). split; [|by rewrite Hio].
    assert (Hin : forall b, b ∈ fl -> exists i, 0 <= i < n /\ b = block_at c' i).
    { intros b. rewrite Hfl. intros (i & -> & Hi%elem_of_seqZ)%list_elem_of_fmap. exists i. split; [lia|done]. }
    exists fl, []. split_and!; [done|done|rewrite app_nil_r; by rewrite Hfl, <- Hc|exact Hl'|]. constructor.
    + by rewrite Hio.
    + rewrite app_nil_r. intros b (i & Hi & ->)%Hin. destruct (Hall i Hi) as [Hv Hbu]. destruct (mo_bufs _ _ _ _ Hm i Hi).
      eexists _, _. split_and!; [exact Hv|done|exact Hbu|done].
    + rewrite app_nil_r. intros b b' v v' (i & Hi & ->)%Hin (j & Hj & ->)%Hin. destruct (Hall i Hi) as [-> _], (Hall j Hj) as [-> _].
      intros [= <-] [= <-] Heq. cbn in Heq. by rewrite (mo_distinct _ _ _ _ Hm i j).
    + rewrite app_nil_r. intros b v (i & Hi & ->)%Hin. destruct (Hall i Hi) as [-> _]. by intros [= <-].
    + rewrite app_nil_r. intros b v (i & Hi & ->)%Hin. destruct (Hall i Hi) as [-> _]. by intros [= <-].
    + intros b b' v v' Hb0. by apply not_elem_of_nil in Hb0.
    + intros b v Hb0. by apply not_elem_of_nil in Hb0.
    + intros k Hk _. rewrite Hio. done.
Qed.

(** ** Any sequence of calls *)

Inductive cache_reachable : bcache -> cview -> Prop :=
| cache_start c0 n cache at_ heap c :
    bd_ok d (io c0) -> malloc_ok n cache at_ heap -> bcache_create d bs n cache at_ heap c0 = (Ret tt, c) ->
    cache_reachable c (Cview (on_dev (io c0)) ∅)
| cache_step c A cl r c' A' :
    cache_reachable c A -> allowed c A cl -> run_call cl c = (Ret r, c') -> view_step bs A cl r A' -> cache_reachable c' A'.

Lemma view_step_fun A cl r A1 A2 : view_step bs A cl r A1 -> view_step bs A cl r A2 -> A1 = A2.
Proof.
  intros H1 H2. inversion H1; subst; inversion H2; subst; try done.
  - repeat match goal with H : _ \/ _ |- _ => destruct H as [[? ?]|?] end; congruence.
  - congruence.
Qed.

Lemma view_step_code A cl r A' : view_step bs A cl r A' -> fst r = 0.
Proof. by intros []. Qed.

Lemma cache_good c A : cache_reachable c A -> good c A.
Proof.
  induction 1 as [c0 n cache at_ heap c Hok Hm Hrun|c A cl r c' A' Hr IH Ha Hrun Hv].
  - pose proof (wp_create c0 n cache at_ heap Hok Hm) as Hw. unfold wp in Hw. rewrite Hrun in Hw. apply Hw.
  - pose proof (call_ok c A cl IH Ha) as Hw. unfold wpf in Hw. rewrite Hrun in Hw.
    destruct Hw as [(A1 & Hv1 & Hg & _)|[_ Hneg]]; [by rewrite (view_step_fun _ _ _ _ _ Hv Hv1)|].
    rewrite (view_step_code _ _ _ _ Hv) in Hneg. lia.
Qed.

(** C27: The cache is transparent: after bcache_create and any calls that succeeded, every
    allowed call returns what the contents of the device with the changes of the
    clients say, whatever was evicted by then; after bcache_flush the device has
    those contents; bcache_destroy returns when nothing is pinned.  Allowed is a call for
    a block of the device that is pinned, or while not all blocks of the cache are, a put
    only of a pinned block, and fewer than 2^31 - 1 pins of one block.  Such a call
    answers an error or trips the assertion of find_or_fill_block only when a transfer
    of the device fails. *)
Theorem bcache_refines c A cl :
  cache_reachable c A -> allowed c A cl ->
  (exists o c', run_call cl c = (o, c') /\
    ((exists r A', o = Ret r /\ view_step bs A cl r A' /\ (cl = Flush -> flushed (io c') A')) \/
     bd_fails d /\ (o = Panic \/ exists r, o = Ret r /\ fst r < 0))) /\
  (pins A = ∅ -> exists c', bcache_destroy c = (Ret tt, c')).
Proof.
  intros Hr Ha. pose proof (cache_good c A Hr) as G. split.
  - pose proof (call_ok c A cl G Ha) as Hw. unfold wpf in Hw. destruct (run_call cl c) as [o c']. exists o, c'. split; [done|].
    destruct o as [r| | | |]; try done; [|right; split; [done|by left]].
    destruct Hw as [(A' & Hv & _ & Hf)|[Hf Hneg]]; [left; by exists r, A'|right; split; [done|right; by exists r]].
  - intros Hp. destruct (proj1 (wp_run _ _ _) (wp_destroy c A G Hp)) as ([] & c' & Hrun & _). by exists c'.
Qed.
End bcache.
