(* ===== verification/BcacheRuns.v ===== *)
(** * The cache on a block device

    bio_read and bio_write of a device that is open keep the promise of [BlockdevLaws],
    so the cache is transparent on it; runs on a memory device, and on a disk that
    fails. *)

From stdpp Require Import prelude list gmap.
From Stdlib Require Import ZArith Lia.
From S2P Require Import Prelude Pow2 Bio BioInv BioIo BioBytes BioRef BioProps LkList Bcache BcacheInv BcacheOps BcacheProps.

Open Scope Z_scope.
Open Scope lk_scope.

#[export] Instance bio_blockdev {D} {HD : Driver D} : Blockdev (world D) := {|
  blk_read := Bio.bio_read;
  blk_write := Bio.bio_write
|}.

(** What is written inside of a range *)
Lemma slice_splice_inside off len k (a m : list Z) :
  (off + len <= length m)%nat -> (k + length a <= len)%nat -> slice off len (splice (off + k) a m) = splice k a (slice off len m).
Proof.
  intros Hm Hk. apply list_eq. intros i. rewrite lookup_slice, !lookup_splice, lookup_slice by (rewrite ?length_slice; lia).
  repeat case_decide; try lia; try done. f_equal. lia.
Qed.

Section laws.
Context {D : Type} {HD : Driver D} {HL : DriverLaws D}.
Context (d : Z) (h : Z -> Z) (depth : nat) (st : store) (base : Z) (v : bdev).
Implicit Types (w : world D).

Definition open_at w : Prop := inv w h /\ window w depth d st base /\ devs w !! d = Some v.
Definition dev_bytes w : list Z := slice (Z.to_nat base) (Z.to_nat (total_size v)) (store_bytes w st).

Lemma open_fits w : open_at w -> 0 <= base /\ 0 <= total_size v /\ base + total_size v <= Z.of_nat (length (store_bytes w st)) /\
  Z.of_nat (length (dev_bytes w)) = total_size v.
Proof.
  intros (I & Hw & Hv). destruct (window_bounds _ _ _ _ _ (iv_ok _ _ I) Hw) as (v' & Hv' & _ & Hs & Hb & Hf).
  rewrite Hv in Hv'. injection Hv' as <-. assert (0 <= total_size v).
  { rewrite (sh_total _ Hs). pose proof (sh_count _ Hs). pose proof (block_size_pos _ Hs). nia. }
  split_and!; [done|done|done|]. unfold dev_bytes. rewrite length_slice; lia.
Qed.

Lemma open_frame w w' : open_at w -> frame w w' -> open_at w'.
Proof.
  intros (I & Hw & Hv) F. pose proof (fr_devs _ _ F) as Hd. split_and!; [by eapply frame_inv|by eapply frame_window|by rewrite Hd].
Qed.

(** An open device is a device for a cache. *)
#[refine] Definition bio_blockdev_laws : BlockdevLaws (world D) d := {|
  bd_ok := open_at;
  bd_bytes := dev_bytes;
  bd_fails := is_disk st
|}.
Proof.
  - intros buf off len w O Hbuf Ho Hl Hfit. destruct (open_fits w O) as (Hb & Ht & Hin & Hlen). pose proof O as (I & Hw & Hv). rewrite Hlen in Hfit.
    eapply wp_mono; [by apply (wp_read w depth d v st base); [apply I|..]|]. cbn beta zeta. intros r w' [[F Hsame] Hres].
    replace (Z.max 0 (Z.min len (total_size v - off))) with len in Hres by lia. split; [by eapply open_frame|].
    split; [unfold dev_bytes; by rewrite Hsame|]. destruct Hres as [->|Hres]; [left|by right]. f_equal.
    unfold dev_bytes. rewrite slice_slice by lia. f_equal. lia.
  - intros buf src off len w O Hbuf Ho Hl Hfit Hsrc. destruct (open_fits w O) as (Hb & Ht & Hin & Hlen). pose proof O as (I & Hw & Hv). rewrite Hlen in Hfit.
    eapply wp_mono; [by apply (wp_write w depth d v st base); [apply I|..]|]. cbn beta zeta. intros r w' Hres.
    replace (Z.max 0 (Z.min len (total_size v - off))) with len in Hres by lia.
    destruct Hres as [[-> (F & Hst & _)]|(Hf & Hneg & F & _)]; (split; [by eapply open_frame|]); [left|by right].
    split; [done|]. unfold dev_bytes. rewrite Hst.
    replace (Z.to_nat (base + off)) with (Z.to_nat base + Z.to_nat off)%nat by lia.
    apply slice_splice_inside; [lia|]. rewrite length_take. lia.
Defined.
End laws.

(** ** On a memory device *)

Notation no_disk := (gmap Z (list Z)).

#[local] Instance no_driver : Driver no_disk := {|
  drv_read_block _ _ _ dk := ((ERR_IO, []), dk);
  drv_write_block _ _ _ _ dk := (ERR_IO, dk)
|}.

#[local] Instance no_driver_laws : DriverLaws no_disk.
Proof.
  refine {| drv_bytes := fun dk d => default [] (dk !! d); drv_bsize := fun _ => 4 |}.
  - intros d block count dk r dk' _ Hb Hc Hs Hin [= <- <-]. split; [done|]. right. cbn. unfold ERR_IO. lia.
  - intros d src block count dk r dk' _ Hb Hc Hs Hin Hsrc [= <- <-]. split; [done|]. right. unfold ERR_IO. split_and!; (done || lia).
Defined.

Definition mem_name : list Z := [109].
Definition mem_bytes : list Z := seqZ 0 512.

(** A memory device of 512 bytes, opened *)
Definition mem_start : BioProps.config (D := no_disk) := BioProps.Config (World [] ∅ {[ 400 := mem_bytes ]} ∅) [].
Definition mem_after (c : BioProps.call) (cf : BioProps.config (D := no_disk)) : BioProps.config :=
  let '(r, w') := BioProps.run_call c (cf_world cf) in
  BioProps.Config w' (held_after c (match r with Ret r => r | _ => (0, []) end) (held cf)).
Definition mem1 : BioProps.config := mem_after (Create_membdev mem_name 400 512 302) mem_start.
Definition mem2 : BioProps.config := mem_after (Open mem_name) mem1.

Lemma mem_reachable : bio_reachable {[ 400 := mem_bytes ]} ∅ mem2.
Proof.
  assert (H0 : bio_reachable {[ 400 := mem_bytes ]} ∅ mem_start) by apply bio_start.
  assert (H1 : bio_reachable {[ 400 := mem_bytes ]} ∅ mem1).
  { apply (bio_step {[ 400 := mem_bytes ]} ∅ mem_start (Create_membdev mem_name 400 512 302) (0, []) (cf_world mem1)); [done| |reflexivity].
    cbn. split; [by split|]. exists mem_bytes. split; [done|]. vm_compute. repeat split; discriminate. }
  apply (bio_step {[ 400 := mem_bytes ]} ∅ mem1 (Open mem_name) (302, []) (cf_world mem2)); [done|done|reflexivity].
Qed.

Definition mem_dev : bdev := default (Bdev 0 None 0 0 0 0 [] 0 0 Default_bytes Default_blocks Default_bytes Default_blocks Default_erase false Driver_private) (devs (cf_world mem2) !! 302).

#[local] Instance mem_laws : BlockdevLaws (world no_disk) 302 := bio_blockdev_laws 302 (handles (held mem2)) 0 (Ram 400) 0 mem_dev.

Lemma mem_ok : bd_ok 302 (cf_world mem2).
Proof.
  split; [exact (BioProps.reachable_good _ _ _ mem_reachable)|]. split; [|by vm_compute].
  apply (window_mem _ 302 mem_dev); by vm_compute.
Qed.

(** ** A run: two blocks of four bytes *)

Definition sample_heap (i : Z) : raw := Raw (1000 + 16 * i) [238; 238; 238; 238] 77.

Definition run_of {A} (f : CM (world no_disk) A) (c : bcache (world no_disk)) : bcache (world no_disk) := snd (f c).
Definition empty_cache : bcache (world no_disk) := Bcache 0 0 0 0 (Stats 0 0 0 0 0) ∅ 0 ∅ ∅ (cf_world mem2).

Definition c1 := run_of (bcache_create 302 4 2 64 128 sample_heap) empty_cache.
Definition c2 := run_of (run_call (Get 3)) c1.
Definition c3 := run_of (run_call (Store 1016 3 1 [7; 8])) c2.
Definition c4 := run_of (run_call (Put 3)) c3.
Definition c5 := run_of (run_call (Read 0)) c4.

Definition view0 : cview := Cview (on_dev 302 4 (io empty_cache)) ∅.
Definition view2 : cview := set_pins 3 1 1016 view0.
Definition view3 : cview := set_content 3 (splice 1 [7; 8] (content view2 3)) view2.
Definition view4 : cview := set_pins 3 0 1016 view3.


Lemma c1_reachable : cache_reachable 302 4 c1 view0.
Proof.
  apply (cache_start 302 4 empty_cache 2 64 128 sample_heap); [exact mem_ok| |by vm_compute].
  constructor.
  - lia.
  - lia.
  - unfold sizeof_bcache. lia.
  - intros i Hi. split; [unfold sample_heap, LkList.NULL; cbn; lia|done].
  - intros i j Hi Hj. unfold sample_heap. cbn. lia.
Qed.

Ltac in_device := vm_compute; repeat split; discriminate.

Lemma c5_reachable : cache_reachable 302 4 c5 view4.
Proof.
  assert (H2 : cache_reachable 302 4 c2 view2).
  { apply (cache_step 302 4 c1 view0 (Get 3) (0, [1016]) c2 view2); [exact c1_reachable| |by vm_compute|].
    - split; [in_device|]. split; [right; vm_compute; lia|]. intros k p Hp. by vm_compute in Hp.
    - apply (VGet 4 view0 3 0 1016). by left. }
  assert (H3 : cache_reachable 302 4 c3 view3).
  { apply (cache_step 302 4 c2 view2 (Store 1016 3 1 [7; 8]) (0, []) c3 view3); [exact H2| |by vm_compute|].
    - split; [in_device|]. split; [by exists 1|]. cbn. lia.
    - apply (VStore 4 view2 1016 3 1 [7; 8]). }
  assert (H4 : cache_reachable 302 4 c4 view4).
  { apply (cache_step 302 4 c3 view3 (Put 3) (0, []) c4 view4); [exact H3| |by vm_compute|].
    - split; [in_device|]. by exists (1, 1016).
    - by apply (VPut 4 view3 3 1 1016). }
  apply (cache_step 302 4 c4 view4 (Read 0) (0, content view4 0) c5 view4); [exact H4| |by vm_compute|constructor].
  split; [in_device|]. right. vm_compute. lia.
Qed.

(** Block 1 takes the place of block 3, which is dirty. *)
Lemma bcache_refines_witness :
  (exists o c', run_call (Read 1) c5 = (o, c') /\
    ((exists r A', o = Ret r /\ view_step 4 view4 (Read 1) r A' /\ (Read 1 = Flush -> flushed 302 4 (io c') A')) \/
     bd_fails 302 /\ (o = Panic \/ exists r, o = Ret r /\ fst r < 0))) /\
  (pins view4 = ∅ -> exists c', bcache_destroy c5 = (Ret tt, c')).
Proof.
  apply (bcache_refines 302 4 ltac:(lia) c5 view4 (Read 1) c5_reachable).
  split; [in_device|]. right. vm_compute. lia.
Defined.

(** ... and block 3 is read again from the device, with the change. *)
Example cache_evicts :
  fst ((run_call (Read 1) ;; run_call (Read 3)) c5) = Ret (0, [12; 7; 8; 15]) /\
  store_bytes (io (run_of (run_call (Read 1)) c5)) (Ram 400) = seqZ 0 13 ++ [7; 8] ++ seqZ 15 497.
Proof. split; vm_compute; reflexivity. Qed.

(** ** Where the cache does something else *)

(** A disk of three blocks of four bytes: block 1 cannot be read and block 2 not
    written. *)
#[local] Instance bad_disk : Blockdev (list Z) := {|
  blk_read _ _ off len w :=
    let k := Z.max 0 (Z.min len (Z.of_nat (length w) - off)) in
    (Ret (if off =? 4 then (ERR_IO, []) else (k, slice (Z.to_nat off) (Z.to_nat k) w)), w);
  blk_write _ _ src off len w :=
    let k := Z.max 0 (Z.min len (Z.of_nat (length w) - off)) in
    if off =? 8 then (Ret ERR_IO, w) else (Ret k, splice (Z.to_nat off) (take (Z.to_nat k) src) w)
|}.

Definition run_bad {A} (n : Z) (f : CM (list Z) A) : outcome Empty_set A :=
  fst ((bcache_create 0 4 n 64 128 sample_heap ;; f) (Bcache 0 0 0 0 (Stats 0 0 0 0 0) ∅ 0 ∅ ∅ (seqZ 0 12))).

(** After a read that failed its block is in both lists: another read walks off the
    list of used blocks, and a second try finds the block, and answers what was in its
    buffer before, with the code of success. *)
Theorem bcache_read_error_breaks :
  run_bad 2 (run_call (Read 1)) = Ret (-1, []) /\
  run_bad 2 (run_call (Read 1) ;; run_call (Read 0)) = Fault /\
  run_bad 2 (run_call (Read 1) ;; run_call (Read 1)) = Ret (0, [238; 238; 238; 238]).
Proof. split_and!; vm_compute; reflexivity. Qed.

(** A dirty block that cannot be written back stops the system when its place is
    needed. *)
Theorem bcache_write_error_panics :
  run_bad 1 (run_call (Zero 2)) = Ret (0, []) /\
  run_bad 1 (run_call (Zero 2) ;; run_call Flush) = Ret (ERR_IO, []) /\
  run_bad 1 (run_call (Zero 2) ;; run_call (Read 0)) = Panic.
Proof. split_and!; vm_compute; reflexivity. Qed.

(** Behind the end of the device a read answers what malloc left in the buffer, and
    what is written there is gone, both with the code of success. *)
Theorem bcache_past_end :
  run_bad 2 (run_call (Read 3)) = Ret (0, [238; 238; 238; 238]) /\
  run_bad 1 (run_call (Zero 3) ;; run_call Flush ;; run_call (Read 0) ;; run_call (Read 3)) = Ret (0, [0; 1; 2; 3]).
Proof. split_and!; vm_compute; reflexivity. Qed.
