(* ===== verification/FsPath.v ===== *)
(** * lib/fs: the paths of files

    fs_normalize_path, the state machine of fs.c that rewrites a path in its buffer,
    and trim_name.  [normalize] says what a path means: its fields between the
    separators, with empty and "." fields left out and ".." taking the field before
    it away, or, when there is none, the leading separator. *)

From stdpp Require Import prelude list.
From Stdlib Require Import ZArith Lia.
From S2P Require Import Prelude CString.

Open Scope Z_scope.

Definition slash : Z := 47.
Definition dot : Z := 46.

(** ** The code *)

Inductive path_state := INITIAL | FIELD_START | IN_FIELD | SEP | SEEN_SEP | DOT | SEEN_DOT | DOTDOT | SEEN_DOTDOT.

(** The variables of the loop *)
Record walk := Walk { w_state : path_state; w_pos : nat; w_outpos : nat; w_path : list Z }.

(** The walk back to the start of a field *)
Fixpoint walk_back (outpos : nat) (path : list Z) : option nat :=
  match outpos with
  | O => Some O
  | S o => c ← path !! o; if c =? slash then Some outpos else walk_back o path
  end.

(** One turn of the loop; [true]: done *)
Definition normalize_step (w : walk) : option (walk * bool) :=
  let '(Walk st pos outpos path) := w in
  c ← path !! pos;
  match st with
  | INITIAL =>
      if c =? slash then Some (Walk SEP pos outpos path, false)
      else if c =? dot then Some (Walk DOT pos outpos path, false)
      else Some (Walk FIELD_START pos outpos path, false)
  | FIELD_START =>
      if c =? dot then Some (Walk DOT pos outpos path, false)
      else if c =? 0 then Some (w, true)
      else Some (Walk IN_FIELD pos outpos path, false)
  | IN_FIELD =>
      if c =? slash then Some (Walk SEP pos outpos path, false)
      else if c =? 0 then Some (w, true)
      else path ← store outpos c path; Some (Walk IN_FIELD (S pos) (S outpos) path, false)
  | SEP => path ← store outpos slash path; Some (Walk SEEN_SEP (S pos) (S outpos) path, false)
  | SEEN_SEP =>
      if c =? slash then Some (Walk SEEN_SEP (S pos) outpos path, false)
      else if c =? 0 then Some (w, true)
      else Some (Walk FIELD_START pos outpos path, false)
  | DOT => Some (Walk SEEN_DOT (S pos) outpos path, false)
  | SEEN_DOT =>
      if c =? dot then Some (Walk DOTDOT pos outpos path, false)
      else if c =? slash then Some (Walk SEEN_SEP (S pos) outpos path, false)
      else if c =? 0 then Some (w, true)
      else path ← store outpos dot path; Some (Walk IN_FIELD pos (S outpos) path, false)
  | DOTDOT => Some (Walk SEEN_DOTDOT (S pos) outpos path, false)
  | SEEN_DOTDOT =>
      if (c =? slash) || (c =? 0) then
        outpos ← (match outpos with O => Some O | S o => walk_back o path end);
        Some (Walk SEEN_SEP (S pos) outpos path, c =? 0)
      else
        path ← store outpos dot path;
        path ← store (S outpos) dot path;
        Some (Walk IN_FIELD pos (S (S outpos)) path, false)
  end.

(** No character takes more than four turns. *)
Fixpoint normalize_loop (fuel : nat) (w : walk) : option walk :=
  match fuel with
  | O => None
  | S fuel => '(w, fin) ← normalize_step w; if (fin : bool) then Some w else normalize_loop fuel w
  end.

Definition fs_normalize_path (path : list Z) : option (list Z) :=
  w ← normalize_loop (4 * S (length path)) (Walk INITIAL 0 0 path);
  let outpos := w_outpos w in
  outpos ← (match outpos with
            | O => Some O
            | S o => c ← w_path w !! o; Some (if c =? slash then o else outpos)
            end);
  store outpos 0 (w_path w).

(** What is left of a pointer that skips characters *)
Fixpoint skip (c : Z) (name : list Z) : option (list Z) :=
  match name with
  | [] => None
  | x :: name' => if x =? c then skip c name' else Some name
  end.

Definition trim_name (name : list Z) : option (list Z) := name ← skip 32 name; skip slash name.

(** ** What a path means *)

Fixpoint fields (s : list Z) : list (list Z) :=
  match s with
  | [] => [[]]
  | c :: s => if c =? slash then [] :: fields s
              else match fields s with f :: fs => (c :: f) :: fs | [] => [[c]] end
  end.

(** Whether a path is absolute, and its fields *)
Definition meaning : Type := bool * list (list Z).

Definition add_field (p : meaning) (f : list Z) : meaning :=
  if bool_decide (f = [] \/ f = [dot]) then p
  else if bool_decide (f = [dot; dot]) then match snd p with [] => (false, []) | _ => (fst p, removelast (snd p)) end
  else (fst p, snd p ++ [f]).

Definition path_meaning (s : list Z) : meaning :=
  foldl add_field (match s with c :: _ => c =? slash | [] => false end, []) (fields s).

(** Fields, each behind a separator *)
Definition behind (fs : list (list Z)) : list Z := concat (map (cons slash) fs).

Definition path_of (p : meaning) : list Z := if fst p then behind (snd p) else tail (behind (snd p)).

Definition normalize (s : list Z) : list Z := path_of (path_meaning s).

(** ** Fields *)

Definition plain (f : list Z) : Prop := Forall (fun c => c <> slash /\ c <> 0) f.

Fixpoint join (fs : list (list Z)) : list Z :=
  match fs with
  | [] => []
  | [f] => f
  | f :: fs => f ++ slash :: join fs
  end.

Lemma fields_cons s : exists f fs, fields s = f :: fs.
Proof. destruct s as [|c s]; cbn; [by eexists _, _|]. destruct (c =? slash); [by eexists _, _|]. destruct (fields s); by eexists _, _. Qed.

Lemma join_fields s : join (fields s) = s.
Proof.
  induction s as [|c s IH]; [done|]. cbn [fields]. destruct (fields_cons s) as (f & fs & E). rewrite E in *.
  destruct (Z.eqb_spec c slash) as [->|Hc]; [change (slash :: join (f :: fs) = slash :: s); by rewrite IH|]. rewrite <- IH. by destruct fs.
Qed.

Lemma fields_plain s : no_nul s -> Forall plain (fields s).
Proof.
  induction 1 as [|c s Hc Hs IH]; cbn [fields]; [by repeat constructor|].
  destruct (Z.eqb_spec c slash) as [->|Hcs]; [by constructor; [constructor|]|].
  destruct (fields s); [by repeat constructor|]. apply Forall_cons in IH as [Hf Hfs]. constructor; [by constructor|done].
Qed.

(** The buffer while the fields are written: each with the separator behind it *)
Definition opened (p : meaning) : list Z := (if fst p then [slash] else []) ++ concat (map (fun f => f ++ [slash]) (snd p)).

Lemma behind_app fs gs : behind (fs ++ gs) = behind fs ++ behind gs.
Proof. unfold behind. by rewrite map_app, concat_app. Qed.

Lemma opened_behind fs : slash :: concat (map (fun f => f ++ [slash]) fs) = behind fs ++ [slash].
Proof.
  induction fs as [|f fs IH]; [done|]. cbn [map concat]. unfold behind in *. cbn [map concat].
  rewrite <- !app_comm_cons, <- !app_assoc. do 2 f_equal. cbn [app]. by rewrite IH.
Qed.

Lemma opened_path p : opened p = [] /\ path_of p = [] \/ opened p = path_of p ++ [slash].
Proof.
  destruct p as [[] fs]; unfold opened, path_of; cbn [fst snd]; [right; apply opened_behind|]. destruct fs as [|f fs]; [by left|right].
  cbn [app]. pose proof (opened_behind (f :: fs)) as H. apply (f_equal tail) in H. cbn [tail] in H. rewrite H. by unfold behind.
Qed.

Lemma opened_last p f : opened (fst p, snd p ++ [f]) = opened p ++ f ++ [slash].
Proof. unfold opened. cbn [fst snd]. rewrite map_app, concat_app. cbn. by rewrite app_nil_r, !app_assoc. Qed.

Lemma path_of_last p f : path_of (fst p, snd p ++ [f]) = opened p ++ f.
Proof.
  pose proof (opened_last p f) as H. rewrite app_assoc in H. destruct (opened_path (fst p, snd p ++ [f])) as [[E _]|E].
  - rewrite E in H. by destruct (opened p ++ f).
  - rewrite E in H. by apply app_inj_tail in H as [-> _].
Qed.

(** The fields written so far have no separators. *)
Definition tidy (p : meaning) : Prop := Forall (fun f => plain f /\ f <> [] /\ f <> [dot] /\ f <> [dot; dot]) (snd p).

Lemma add_field_tidy p f : tidy p -> plain f -> tidy (add_field p f).
Proof.
  intros Hp Hf. unfold add_field, tidy in *. case_bool_decide as H1; [done|]. case_bool_decide as H2; cbn.
  - destruct (snd p) as [|g gs] eqn:E; [done|]. rewrite <- E in *. clear E. cbn [snd]. induction (snd p) as [|x [|y l] IH]; [done|done|].
    apply Forall_cons in Hp as [Hx Hp]. constructor; [done|by apply IH].
  - apply Forall_app. split; [done|]. constructor; [|done]. split; [done|]. naive_solver.
Qed.

(** ** Turns of the loop *)

Implicit Types (out mid rest f : list Z) (w : walk) (st : path_state) (c x : Z).

(** At most [k] turns from [w] to [w'], or to the end at [w'] *)
Definition reach (k : nat) (w w' : walk) : Prop :=
  exists n, (n <= k)%nat /\ forall fuel, normalize_loop (n + fuel) w = normalize_loop fuel w'.
Definition finish (k : nat) (w w' : walk) : Prop :=
  exists n, (n <= k)%nat /\ forall fuel, normalize_loop (n + fuel) w = Some w'.

Lemma reach_0 k w : reach k w w.
Proof. exists 0%nat. split; [lia|done]. Qed.

Lemma reach_turn k w w1 w2 : normalize_step w = Some (w1, false) -> reach k w1 w2 -> reach (S k) w w2.
Proof. intros Hs (n & Hn & H). exists (S n). split; [lia|]. intros fuel. cbn. rewrite Hs. cbn. apply H. Qed.

Lemma finish_turn k w w1 w2 : normalize_step w = Some (w1, false) -> finish k w1 w2 -> finish (S k) w w2.
Proof. intros Hs (n & Hn & H). exists (S n). split; [lia|]. intros fuel. cbn. rewrite Hs. cbn. apply H. Qed.

Lemma finish_now k w w' : normalize_step w = Some (w', true) -> finish (S k) w w'.
Proof. intros Hs. exists 1%nat. split; [lia|]. intros fuel. cbn. by rewrite Hs. Qed.

Lemma reach_finish k k' w w1 w2 : reach k w w1 -> finish k' w1 w2 -> finish (k + k') w w2.
Proof.
  intros (n & Hn & H) (n' & Hn' & H'). exists (n + n')%nat. split; [lia|]. intros fuel. rewrite <- Nat.add_assoc, H. apply H'.
Qed.

Lemma reach_trans k k' w w1 w2 : reach k w w1 -> reach k' w1 w2 -> reach (k + k') w w2.
Proof.
  intros (n & Hn & H) (n' & Hn' & H'). exists (n + n')%nat. split; [lia|]. intros fuel. rewrite <- Nat.add_assoc, H. apply H'.
Qed.

Lemma finish_weaken k k' w w' : finish k w w' -> (k <= k')%nat -> finish k' w w'.
Proof. intros (n & Hn & H) Hk. exists n. split; [lia|done]. Qed.

Lemma reach_weaken k k' w w' : reach k w w' -> (k <= k')%nat -> reach k' w w'.
Proof. intros (n & Hn & H) Hk. exists n. split; [lia|done]. Qed.

(** [out] is written, [rest] not yet read; between them are characters that were read. *)
Definition at_ (st : path_state) (out rest : list Z) (len : nat) (w : walk) : Prop :=
  exists mid, w = Walk st (length out + length mid) (length out) (out ++ mid ++ rest) /\ length (out ++ mid ++ rest) = len.

Lemma at_read_next out mid c rest : (out ++ mid ++ c :: rest) !! (length out + length mid)%nat = Some c.
Proof.
  rewrite lookup_app_r, lookup_app_r by lia. by replace (_ - _ - _)%nat with 0%nat by lia.
Qed.

(** The turns that read a character, or none *)
Lemma store_out out y mid rest c : store (length out) c (out ++ (y :: mid) ++ rest) = Some ((out ++ [c]) ++ mid ++ rest).
Proof.
  unfold store. rewrite (proj2 (Nat.ltb_lt _ _)) by (rewrite length_app; cbn; lia). f_equal.
  rewrite insert_app_r_alt, Nat.sub_diag by lia. cbn. by rewrite <- app_assoc.
Qed.

(** A character is read and another one written. *)
Lemma store_read out mid x rest c :
  store (length out) c (out ++ mid ++ x :: rest) = Some ((out ++ [c]) ++ tail (mid ++ [x]) ++ rest) /\
  (length out + S (length mid) = length (out ++ [c]) + length (tail (mid ++ [x])))%nat.
Proof.
  split.
  - destruct mid as [|y mid]; [apply (store_out out x [])|]. cbn [tail app]. rewrite <- (app_assoc mid [x]). cbn [app].
    apply (store_out out y).
  - rewrite length_app. destruct mid; cbn; [lia|]. rewrite length_app. cbn. lia.
Qed.

Section turns.
Context (len : nat).

Lemma at_chars f t rest : plain f -> t = slash \/ t = 0 -> forall out w,
  at_ IN_FIELD out (f ++ t :: rest) len w -> exists w', reach (length f) w w' /\ at_ IN_FIELD (out ++ f) (t :: rest) len w'.
Proof.
  intros Hf Ht. induction Hf as [|c f [Hc1 Hc2] Hf IH]; intros out w (mid & -> & Hlen).
  - exists (Walk IN_FIELD (length out + length mid) (length out) (out ++ mid ++ t :: rest)). split; [apply reach_0|].
    rewrite app_nil_r. by exists mid.
  - destruct (store_read out mid c (f ++ t :: rest) c) as [Hst Hpos].
    destruct (IH (out ++ [c]) (Walk IN_FIELD (S (length out + length mid)) (S (length out)) ((out ++ [c]) ++ tail (mid ++ [c]) ++ f ++ t :: rest))) as (w' & Hr & Hat).
    + exists (tail (mid ++ [c])). split; [f_equal; rewrite ?length_app in *; cbn in *; lia|].
      rewrite <- Hlen. cbn [app]. rewrite !length_app in *. cbn in *. rewrite !length_app in *. cbn in *. lia.
    + exists w'. rewrite <- app_assoc in Hat. split; [|done]. eapply reach_turn; [|exact Hr]. unfold normalize_step.
      cbn [app] in *. rewrite at_read_next. cbn [mbind option_bind]. rewrite (proj2 (Z.eqb_neq _ _) Hc1), (proj2 (Z.eqb_neq _ _) Hc2).
      rewrite Hst. done.
Qed.

(** A turn that does not move, and one that reads *)
Lemma at_stay st st' out c rest w :
  (forall pos outpos path, path !! pos = Some c -> normalize_step (Walk st pos outpos path) = Some (Walk st' pos outpos path, false)) ->
  at_ st out (c :: rest) len w -> exists w', normalize_step w = Some (w', false) /\ at_ st' out (c :: rest) len w'.
Proof. intros Hs (mid & -> & Hl). eexists. split; [apply Hs, at_read_next|]. by exists mid. Qed.

Lemma at_read st st' out c rest w :
  (forall pos outpos path, path !! pos = Some c -> normalize_step (Walk st pos outpos path) = Some (Walk st' (S pos) outpos path, false)) ->
  at_ st out (c :: rest) len w -> exists w', normalize_step w = Some (w', false) /\ at_ st' out rest len w'.
Proof.
  intros Hs (mid & -> & Hl). eexists. split; [apply Hs, at_read_next|]. exists (mid ++ [c]).
  rewrite <- app_assoc. cbn [app]. split; [|done]. f_equal. rewrite length_app. cbn. lia.
Qed.

(** A character that was read is written. *)
Lemma at_write st st' c out x mid rest pos :
  len = length (out ++ mid ++ x :: rest) -> pos = (length out + length mid + 1)%nat ->
  exists path, store (length out) c (out ++ mid ++ x :: rest) = Some path /\ at_ st' (out ++ [c]) rest len (Walk st' pos (S (length out)) path).
Proof.
  intros Hl Hp. destruct (store_read out mid x rest c) as [Hst Hpos]. eexists. split; [exact Hst|].
  exists (tail (mid ++ [x])). split; [f_equal; rewrite ?length_app in *; cbn in *; lia|].
  rewrite Hl, !length_app in *. destruct mid; cbn in *; rewrite ?length_app in *; cbn in *; lia.
Qed.

Ltac step_chars := unfold normalize_step; intros ? ? ? ->; cbn [mbind option_bind];
  repeat match goal with H : ?c <> ?d |- context [?c =? ?d] => rewrite (proj2 (Z.eqb_neq c d) H) end; try done.

Lemma at_sep out rest w : at_ IN_FIELD out (slash :: rest) len w -> exists w', reach 2 w w' /\ at_ SEEN_SEP (out ++ [slash]) rest len w'.
Proof.
  intros H. destruct (at_stay IN_FIELD SEP out slash rest w) as (w1 & E1 & mid & -> & Hl); [step_chars|done|].
  destruct (at_write SEP SEEN_SEP slash out slash mid rest (S (length out + length mid))) as (path & Hst & Hat); [done|lia|].
  eexists. split; [|exact Hat]. eapply reach_turn; [exact E1|]. eapply reach_turn; [|apply reach_0].
  unfold normalize_step. rewrite at_read_next. cbn [mbind option_bind]. by rewrite Hst.
Qed.

(** A field that is written, up to where its characters are copied one by one *)
Lemma at_field out f t rest w :
  plain f -> f <> [] -> f <> [dot] -> f <> [dot; dot] ->
  at_ FIELD_START out (f ++ t :: rest) len w ->
  exists w' f1 f2, f = f1 ++ f2 /\ reach (1 + 2 * length f1) w w' /\ at_ IN_FIELD (out ++ f1) (f2 ++ t :: rest) len w'.
Proof.
  intros Hf Hn H1 H2 H. destruct f as [|c f]; [done|]. apply Forall_cons in Hf as [[Hc1 Hc2] Hf]. cbn [app] in H.
  destruct (Z.eq_dec c dot) as [->|Hd].
  2: { destruct (at_stay FIELD_START IN_FIELD out c (f ++ t :: rest) w) as (w1 & E1 & Hat); [step_chars|done|].
       exists w1, [], (c :: f). rewrite app_nil_r. split_and!; [done| |done]. eapply reach_turn; [exact E1|apply reach_0]. }
  destruct (at_stay FIELD_START DOT out dot (f ++ t :: rest) w) as (w1 & E1 & Hat1); [step_chars|done|].
  destruct f as [|c f]; [done|]. apply Forall_cons in Hf as [[Hc3 Hc4] Hf]. cbn [app] in Hat1.
  destruct Hat1 as (mid & -> & Hl).
  assert (E2 : normalize_step (Walk DOT (length out + length mid) (length out) (out ++ mid ++ dot :: c :: f ++ t :: rest)) =
    Some (Walk SEEN_DOT (S (length out + length mid)) (length out) (out ++ mid ++ dot :: c :: f ++ t :: rest), false)).
  { unfold normalize_step. by rewrite at_read_next. }
  assert (Hnext : (out ++ mid ++ dot :: c :: f ++ t :: rest) !! S (length out + length mid) = Some c).
  { rewrite !lookup_app_r by lia. by replace (S _ - _ - _)%nat with 1%nat by lia. }
  destruct (Z.eq_dec c dot) as [->|Hd].
  - destruct f as [|c f]; [done|]. apply Forall_cons in Hf as [[Hc5 Hc6] Hf].
    set (path := out ++ mid ++ dot :: dot :: (c :: f) ++ t :: rest) in *.
    assert (E3 : normalize_step (Walk SEEN_DOT (S (length out + length mid)) (length out) path) =
      Some (Walk DOTDOT (S (length out + length mid)) (length out) path, false)) by (unfold normalize_step; by rewrite Hnext).
    assert (E4 : normalize_step (Walk DOTDOT (S (length out + length mid)) (length out) path) =
      Some (Walk SEEN_DOTDOT (S (S (length out + length mid))) (length out) path, false)) by (unfold normalize_step; by rewrite Hnext).
    destruct (at_write SEEN_DOTDOT IN_FIELD dot out dot mid (dot :: (c :: f) ++ t :: rest) (S (length out + length mid))) as (p1 & Hs1 & mid1 & E & Hl1); [done|lia|].
    injection E as Epos Eout ->.
    destruct (at_write SEEN_DOTDOT IN_FIELD dot (out ++ [dot]) dot mid1 ((c :: f) ++ t :: rest) (S (S (length out + length mid)))) as (p2 & Hs2 & Hat2); [done|lia|].
    exists (Walk IN_FIELD (S (S (length out + length mid))) (S (length (out ++ [dot]))) p2), [dot; dot], (c :: f).
    rewrite <- app_assoc in Hat2. split_and!; [done| |exact Hat2].
    eapply reach_turn; [exact E1|]. eapply reach_turn; [exact E2|]. eapply reach_turn; [exact E3|]. eapply reach_turn; [exact E4|].
    eapply reach_turn; [|apply reach_0]. unfold normalize_step.
    assert (Hn2 : path !! S (S (length out + length mid)) = Some c).
    { unfold path. rewrite !lookup_app_r by lia. by replace (S (S _) - _ - _)%nat with 2%nat by lia. }
    rewrite Hn2. cbn [mbind option_bind]. rewrite (proj2 (Z.eqb_neq _ _) Hc5), (proj2 (Z.eqb_neq _ _) Hc6). cbn [orb].
    unfold path. rewrite Hs1. cbn [mbind option_bind]. cbn [app] in Hs2. by rewrite Eout, Hs2.
  - destruct (at_write SEEN_DOT IN_FIELD dot out dot mid (c :: f ++ t :: rest) (S (length out + length mid))) as (p1 & Hs1 & Hat2); [done|lia|].
    eexists _, [dot], (c :: f). split_and!; [done| |exact Hat2].
    eapply reach_turn; [exact E1|]. eapply reach_turn; [exact E2|]. eapply reach_turn; [|apply reach_0].
    unfold normalize_step. rewrite Hnext. cbn [mbind option_bind].
    rewrite (proj2 (Z.eqb_neq _ _) Hd), (proj2 (Z.eqb_neq _ _) Hc3), (proj2 (Z.eqb_neq _ _) Hc4). by rewrite Hs1.
Qed.

(** The end of the loop, with [out] in the buffer *)
Definition ended (out : list Z) (w : walk) : Prop :=
  exists rest, w_path w = out ++ rest /\ w_outpos w = length out /\ (length out < len)%nat /\ length (w_path w) = len.

Lemma at_ended st out c rest w : at_ st out (c :: rest) len w -> ended out w.
Proof.
  intros (mid & -> & Hl). exists (mid ++ c :: rest). cbn. split_and!; [done|done| |done].
  rewrite !length_app in Hl. cbn in Hl. lia.
Qed.

(** "." leaves the buffer as it is. *)
Lemma at_dot out t rest w :
  t = slash \/ t = 0 -> at_ FIELD_START out (dot :: t :: rest) len w ->
  exists w', t = slash /\ reach 3 w w' /\ at_ SEEN_SEP out rest len w' \/ t = 0 /\ finish 3 w w' /\ ended out w'.
Proof.
  intros Ht H. destruct (at_stay FIELD_START DOT out dot (t :: rest) w) as (w1 & E1 & H1); [step_chars|done|].
  destruct (at_read DOT SEEN_DOT out dot (t :: rest) w1) as (w2 & E2 & H2); [step_chars|done|].
  destruct Ht as [->| ->].
  - destruct (at_read SEEN_DOT SEEN_SEP out slash rest w2) as (w3 & E3 & H3); [step_chars|done|].
    exists w3. left. split_and!; [done| |done]. eapply reach_turn; [done|]. eapply reach_turn; [done|]. eapply reach_turn; [done|apply reach_0].
  - exists w2. right. split_and!; [done| |by eapply at_ended]. eapply finish_turn; [done|]. eapply finish_turn; [done|]. apply finish_now.
    destruct H2 as (mid & -> & _). unfold normalize_step. by rewrite at_read_next.
Qed.

(** walk_back finds the start of a field. *)
Lemma walk_back_field p f rest : plain f -> walk_back (length (opened p) + length f) (opened p ++ f ++ rest) = Some (length (opened p)).
Proof.
  revert rest. induction f as [|c f IH] using rev_ind; intros rest Hf.
  - cbn. rewrite Nat.add_0_r. destruct (opened_path p) as [[-> _]|E]; [done|]. rewrite E, length_app. cbn [length].
    rewrite Nat.add_1_r. cbn [walk_back]. rewrite <- app_assoc, lookup_app_r, Nat.sub_diag by lia. done.
  - apply Forall_app in Hf as [Hf Hc]. apply Forall_cons in Hc as [[Hc _] _]. rewrite length_app. cbn [length].
    rewrite Nat.add_1_r, Nat.add_succ_r. cbn [walk_back]. rewrite <- app_assoc. cbn [app].
    rewrite at_read_next. cbn [mbind option_bind]. rewrite (proj2 (Z.eqb_neq _ _) Hc). by apply IH.
Qed.

Lemma pop_back p rest : tidy p ->
  (match length (opened p) with O => Some O | S o => walk_back o (opened p ++ rest) end) =
    Some (length (opened (add_field p [dot; dot]))) /\
  exists mid, opened p = opened (add_field p [dot; dot]) ++ mid.
Proof.
  intros Hp. unfold add_field. rewrite bool_decide_false by naive_solver. rewrite bool_decide_true by done.
  destruct p as [abs fs]. cbn [fst snd]. destruct fs as [|f fs _] using rev_ind.
  - unfold opened. destruct abs; cbn; [split; [done|by exists [slash]]|]. split; [done|by exists []].
  - assert (removelast (fs ++ [f]) = fs) as Hrl by apply removelast_last.
    destruct (fs ++ [f]) as [|g gs] eqn:E; [by destruct fs|]. rewrite Hrl. clear Hrl. rewrite <- E in *. clear E g gs.
    pose proof (opened_last (abs, fs) f) as Hol. cbn [fst snd] in Hol. rewrite Hol. split; [|by exists (f ++ [slash])]. rewrite !length_app. cbn [length].
    replace (length (opened (abs, fs)) + (length f + 1))%nat with (S (length (opened (abs, fs)) + length f)) by lia.
    rewrite <- !app_assoc. apply walk_back_field. unfold tidy in Hp. cbn in Hp. apply Forall_app in Hp as [_ Hf]. by apply Forall_cons in Hf as [[Hf _] _].
Qed.

Lemma at_dotdot p t rest w :
  tidy p -> t = slash \/ t = 0 -> at_ FIELD_START (opened p) (dot :: dot :: t :: rest) len w ->
  exists w', t = slash /\ reach 5 w w' /\ at_ SEEN_SEP (opened (add_field p [dot; dot])) rest len w' \/
    t = 0 /\ finish 5 w w' /\ ended (opened (add_field p [dot; dot])) w'.
Proof.
  intros Hp Ht H. set (out := opened p) in *.
  destruct (at_stay FIELD_START DOT out dot (dot :: t :: rest) w) as (w1 & E1 & H1); [step_chars|done|].
  destruct (at_read DOT SEEN_DOT out dot (dot :: t :: rest) w1) as (w2 & E2 & H2); [step_chars|done|].
  destruct (at_stay SEEN_DOT DOTDOT out dot (t :: rest) w2) as (w3 & E3 & H3); [step_chars|done|].
  destruct (at_read DOTDOT SEEN_DOTDOT out dot (t :: rest) w3) as (w4 & E4 & mid & -> & Hl); [step_chars|done|].
  destruct (pop_back p (mid ++ t :: rest) Hp) as (Hback & mid' & Hout). fold out in Hback, Hout. set (out' := opened (add_field p [dot; dot])) in *.
  assert (E5 : normalize_step (Walk SEEN_DOTDOT (length out + length mid) (length out) (out ++ mid ++ t :: rest)) =
    Some (Walk SEEN_SEP (S (length out + length mid)) (length out') (out ++ mid ++ t :: rest), t =? 0)).
  { unfold normalize_step. rewrite at_read_next. cbn [mbind option_bind]. replace ((t =? slash) || (t =? 0)) with true by (destruct Ht; subst; done).
    rewrite Hback. done. }
  destruct Ht as [->| ->].
  - eexists. left. split_and!; [done| |].
    + do 4 (eapply reach_turn; [done|]). eapply reach_turn; [exact E5|apply reach_0].
    + exists (mid' ++ mid ++ [slash]). rewrite Hout, <- !app_assoc. cbn [app]. split; [f_equal; rewrite !length_app; cbn; lia|].
      rewrite <- Hl, Hout, <- !app_assoc. done.
  - eexists. right. split_and!; [done| |].
    + do 4 (eapply finish_turn; [done|]). apply finish_now. exact E5.
    + exists (mid' ++ mid ++ 0 :: rest). cbn. rewrite Hout, <- app_assoc. split_and!; [done|done| |rewrite <- Hl, Hout, <- app_assoc; done].
      rewrite <- Hl, Hout, !length_app. cbn. lia.
Qed.

(** A whole field *)
Lemma field_turns p f t rest w :
  tidy p -> plain f -> f <> [] -> t = slash \/ t = 0 -> at_ FIELD_START (opened p) (f ++ t :: rest) len w ->
  exists w', t = slash /\ reach (4 * length f + 2) w w' /\ at_ SEEN_SEP (opened (add_field p f)) rest len w' \/
    t = 0 /\ finish (4 * length f + 2) w w' /\
      (ended (opened (add_field p f)) w' \/ ended (path_of (add_field p f)) w' /\ exists out c, path_of (add_field p f) = out ++ [c] /\ c <> slash).
Proof.
  intros Hp Hf Hn Ht H. destruct (decide (f = [dot])) as [->|H1].
  { destruct (at_dot (opened p) t rest w Ht H) as (w' & Hr). exists w'. unfold add_field. rewrite bool_decide_true by naive_solver.
    destruct Hr as [(-> & Hr & Ha)|(-> & Hr & Ha)]; [left|right; split_and!; [done| |by left]].
    - split_and!; [done|eapply reach_weaken; [done|cbn; lia]|done].
    - eapply finish_weaken; [done|cbn; lia]. }
  destruct (decide (f = [dot; dot])) as [->|H2].
  { destruct (at_dotdot p t rest w Hp Ht H) as (w' & Hr). exists w'.
    destruct Hr as [(-> & Hr & Ha)|(-> & Hr & Ha)]; [left|right; split_and!; [done| |by left]].
    - split_and!; [done|eapply reach_weaken; [done|cbn; lia]|done].
    - eapply finish_weaken; [done|cbn; lia]. }
  assert (Hadd : add_field p f = (fst p, snd p ++ [f])) by (unfold add_field; by rewrite !bool_decide_false by naive_solver).
  destruct (at_field (opened p) f t rest w Hf Hn H1 H2 H) as (w1 & f1 & f2 & Hff & Hr1 & Ha1).
  assert (plain f2) as Hf2 by (rewrite Hff in Hf; by apply Forall_app in Hf as [_ Hf]).
  destruct (at_chars f2 t rest Hf2 Ht _ _ Ha1) as (w2 & Hr2 & Ha2). rewrite <- app_assoc, <- Hff in Ha2.
  pose proof (reach_trans _ _ _ _ _ Hr1 Hr2) as Hr. assert (Hk : (length f = length f1 + length f2)%nat) by (by rewrite Hff, length_app).
  assert (length f <> 0)%nat by (destruct f; [done|cbn; lia]).
  destruct Ht as [->| ->].
  - destruct (at_sep _ _ _ Ha2) as (w3 & Hr3 & Ha3). exists w3. left. split_and!; [done| |].
    + eapply reach_weaken; [eapply reach_trans; [exact Hr|exact Hr3]|lia].
    + by rewrite Hadd, opened_last, app_assoc.
  - exists w2. right. split_and!; [done| |right].
    + eapply finish_weaken; [eapply (reach_finish _ 1); [exact Hr|]|lia]. apply finish_now. destruct Ha2 as (mid & -> & _).
      unfold normalize_step. by rewrite at_read_next.
    + rewrite Hadd, path_of_last. split; [by eapply at_ended|]. destruct (exists_last Hn) as (f' & c & E). rewrite E in *.
      exists (opened p ++ f'), c. rewrite app_assoc. split; [done|]. apply Forall_app in Hf as [_ Hf]. by apply Forall_cons in Hf as [[Hf _] _].
Qed.

(** What is left when the trailing separator is cut off *)
Definition stripped (out q : list Z) : Prop :=
  out = [] /\ q = [] \/ out = q ++ [slash] \/ out = q /\ exists o c, q = o ++ [c] /\ c <> slash.

Lemma stripped_opened p : stripped (opened p) (path_of p).
Proof. destruct (opened_path p) as [?|?]; [by left|by right; left]. Qed.

Lemma field_end p f w : ended (opened (add_field p f)) w \/ ended (path_of (add_field p f)) w /\ (exists out c, path_of (add_field p f) = out ++ [c] /\ c <> slash) ->
  exists out, ended out w /\ stripped out (path_of (add_field p f)).
Proof. intros [H|[H Hc]]; [exists (opened (add_field p f)); split; [done|apply stripped_opened]|exists (path_of (add_field p f)); split; [done|]]. by right; right. Qed.

Lemma fields_turns rest fs : forall p w,
  fs <> [] -> tidy p -> Forall plain fs -> at_ SEEN_SEP (opened p) (join fs ++ 0 :: rest) len w ->
  exists w' out, finish (4 * length (join fs) + 4) w w' /\ ended out w' /\ stripped out (path_of (foldl add_field p fs)).
Proof.
  induction fs as [|f fs IH]; intros p w Hne Hp Hfs H; [done|]. apply Forall_cons in Hfs as [Hf Hfs]. cbn [foldl].
  destruct f as [|c f].
  - assert (Hadd : add_field p [] = p) by (unfold add_field; by rewrite bool_decide_true by (by left)). rewrite Hadd.
    destruct fs as [|g fs]; cbn [join app foldl] in *.
    + exists w, (opened p). split_and!; [|by eapply at_ended|apply stripped_opened]. apply finish_now. destruct H as (mid & -> & _).
      unfold normalize_step. by rewrite at_read_next.
    + destruct (at_read SEEN_SEP SEEN_SEP (opened p) slash (join (g :: fs) ++ 0 :: rest) w) as (w1 & E1 & H1); [step_chars|done|].
      destruct (IH p w1) as (w' & out & Hfin & He); [done|done|done|done|]. exists w', out. split; [|done].
      eapply finish_weaken; [eapply finish_turn; [done|exact Hfin]|]. cbn [length]. change (fix join (fs : list (list Z)) := _) with join. lia.
  - assert (exists t more, join ((c :: f) :: fs) ++ 0 :: rest = (c :: f) ++ t :: more /\
      (fs = [] /\ t = 0 \/ fs <> [] /\ t = slash /\ more = join fs ++ 0 :: rest /\ length (join ((c :: f) :: fs)) = (length (c :: f) + S (length (join fs)))%nat)) as (t & more & Hj & Ht).
    { destruct fs as [|g fs]; [exists 0, rest; split; [done|by left]|]. exists slash, (join (g :: fs) ++ 0 :: rest).
      change (join ((c :: f) :: g :: fs)) with ((c :: f) ++ slash :: join (g :: fs)). split; [by rewrite <- app_assoc|right].
      split_and!; [done|done|done|]. by rewrite length_app. }
    rewrite Hj in H. assert (Hc := Hf). apply Forall_cons in Hc as [[Hc1 Hc2] _].
    destruct (at_stay SEEN_SEP FIELD_START (opened p) c (f ++ t :: more) w) as (w1 & E1 & H1); [step_chars|done|].
    destruct (field_turns p (c :: f) t more w1) as (w2 & Hr); [done|done|done|naive_solver|done|].
    destruct Ht as [[-> ->]|(Hfs0 & -> & -> & Hlen)].
    + destruct Hr as [(Ht & _)|(_ & Hfin & He)]; [done|]. destruct (field_end _ _ _ He) as (out & He' & Hst).
      exists w2, out. split_and!; [|done|done]. eapply finish_weaken; [eapply finish_turn; [done|exact Hfin]|]. cbn [join]. lia.
    + destruct Hr as [(_ & Hr & Ha)|(Ht & _)]; [|done].
      destruct (IH (add_field p (c :: f)) w2) as (w' & out & Hfin & He & Hst); [done|by apply add_field_tidy|done|done|].
      exists w', out. split_and!; [|done|done]. eapply finish_weaken; [eapply finish_turn; [done|eapply reach_finish; [exact Hr|exact Hfin]]|]. rewrite Hlen. lia.
Qed.
End turns.

Lemma same_step w1 w2 : normalize_step w1 = normalize_step w2 -> forall fuel, normalize_loop fuel w1 = normalize_loop fuel w2.
Proof. intros H [|fuel]; cbn; [done|]. by rewrite H. Qed.

(** From the start of the path *)
Lemma path_turns s rest :
  no_nul s -> let m := s ++ 0 :: rest in
  exists w' out, finish (4 * length s + 6) (Walk INITIAL 0 0 m) w' /\ ended (length m) out w' /\ stripped out (normalize s).
Proof.
  intros Hs m. destruct s as [|c s].
  { exists (Walk FIELD_START 0 0 m), []. split_and!; [|by exists m; cbn; split_and!; [..|lia|]|by left].
    eapply finish_turn; [done|]. by apply finish_now. }
  pose proof (fields_plain (c :: s) Hs) as Hpl. pose proof (join_fields (c :: s)) as Hj. pose proof Hs as Hs'. apply Forall_cons in Hs' as [Hc0 Hs'].
  unfold normalize, path_meaning. destruct (Z.eq_dec c slash) as [->|Hc].
  - cbn [Z.eqb Pos.eqb slash]. destruct (fields_turns (length m) rest (fields s) (true, []) (Walk SEEN_SEP 1 1 m)) as (w' & out & Hfin & He & Hst).
    { destruct (fields_cons s) as (f & fs & ->). done. } { constructor. } { by apply fields_plain. }
    { rewrite join_fields. exists []. by split. }
    rewrite join_fields in Hfin. exists w', out. split_and!; [|done|].
    + eapply finish_weaken; [eapply finish_turn; [done|]; eapply finish_turn; [done|exact Hfin]|]. cbn. lia.
    + cbn [fields foldl]. rewrite Z.eqb_refl. cbn [foldl]. exact Hst.
  - rewrite (proj2 (Z.eqb_neq c slash) Hc). destruct (fields (c :: s)) as [|f fs] eqn:Ef; [by destruct (fields_cons (c :: s)) as (? & ? & ?); congruence|].
    apply Forall_cons in Hpl as [Hf Hfs]. assert (f <> []) as Hfn.
    { cbn [fields] in Ef. rewrite (proj2 (Z.eqb_neq c slash) Hc) in Ef. destruct (fields s); by injection Ef as <- _. }
    assert (exists t more, m = f ++ t :: more /\ (fs = [] /\ t = 0 /\ length (c :: s) = length f \/
      fs <> [] /\ t = slash /\ more = join fs ++ 0 :: rest /\ length (c :: s) = (length f + S (length (join fs)))%nat)) as (t & more & Hm & Ht).
    { unfold m. rewrite <- Hj. destruct fs as [|g fs]; [exists 0, rest; split; [done|left; by split_and!]|]. exists slash, (join (g :: fs) ++ 0 :: rest).
      change (join (f :: g :: fs)) with (f ++ slash :: join (g :: fs)). split; [by rewrite <- app_assoc|right].
      split_and!; [done|done|done|]. by rewrite length_app. }
    destruct (field_turns (length m) (false, []) f t more (Walk FIELD_START 0 0 m)) as (w2 & Hr); [constructor|done|done|naive_solver|exists []; by rewrite Hm|].
    (* the first turn *)
    assert (Hfirst : forall k w', finish k (Walk FIELD_START 0 0 m) w' -> finish (S k) (Walk INITIAL 0 0 m) w').
    { intros k w' Hfin. assert (m !! 0%nat = Some c) as Hm0 by done. destruct (Z.eq_dec c dot) as [->|Hd].
      - eapply finish_weaken; [|exact (Nat.le_succ_diag_r k)]. destruct Hfin as (n & Hn & H). exists n. split; [done|]. intros fuel. rewrite <- (H fuel). by apply same_step.
      - eapply finish_turn; [|exact Hfin]. unfold normalize_step. rewrite Hm0. cbn [mbind option_bind].
        by rewrite (proj2 (Z.eqb_neq _ _) Hc), (proj2 (Z.eqb_neq _ _) Hd). }
    destruct Ht as [(-> & -> & Hlen)|(Hfs0 & -> & -> & Hlen)].
    + destruct Hr as [(Ht & _)|(_ & Hfin & He)]; [done|]. destruct (field_end _ _ _ _ He) as (out & He' & Hst).
      exists w2, out. split_and!; [|done|done]. eapply finish_weaken; [by apply Hfirst|]. lia.
    + destruct Hr as [(_ & Hr & Ha)|(Ht & _)]; [|done].
      destruct (fields_turns (length m) rest fs (add_field (false, []) f) w2) as (w' & out & Hfin & He & Hst); [done|apply add_field_tidy; [constructor|done]|done|done|].
      exists w', out. split_and!; [|done|done]. eapply finish_weaken; [apply Hfirst; eapply reach_finish; [exact Hr|exact Hfin]|]. rewrite Hlen. lia.
Qed.

(** ** Paths in normal form *)

Lemma foldl_tidy fs p : tidy p -> Forall plain fs -> tidy (foldl add_field p fs).
Proof. intros Hp Hfs. revert p Hp. induction Hfs as [|f fs Hf Hfs IH]; intros p Hp; [done|]. cbn. by apply IH, add_field_tidy. Qed.

Lemma path_meaning_tidy s : no_nul s -> tidy (path_meaning s).
Proof. intros Hs. apply foldl_tidy; [constructor|by apply fields_plain]. Qed.

Lemma path_of_no_nul p : tidy p -> no_nul (path_of p).
Proof.
  intros Hp. assert (no_nul (behind (snd p))) as Hb.
  { unfold tidy in Hp. induction Hp as [|f fs (Hf & _) Hfs IH]; [constructor|]. constructor; [done|]. apply Forall_app. split; [|done].
    eapply Forall_impl; [exact Hf|]. by intros ? []. }
  unfold path_of. destruct (fst p); [done|]. destruct Hb; [constructor|done].
Qed.

Lemma fields_app f s : plain f -> exists g gs, fields s = g :: gs /\ fields (f ++ s) = (f ++ g) :: gs.
Proof.
  intros Hf. destruct (fields_cons s) as (g & gs & E). exists g, gs. split; [done|]. induction Hf as [|c f [Hc _] Hf IH]; [done|].
  cbn [app fields]. by rewrite (proj2 (Z.eqb_neq _ _) Hc), IH.
Qed.

Lemma fields_join fs : fs <> [] -> Forall plain fs -> fields (join fs) = fs.
Proof.
  intros Hn Hfs. induction Hfs as [|f fs Hf Hfs IH]; [done|]. destruct fs as [|g fs].
  - destruct (fields_app f [] Hf) as (? & ? & [= <- <-] & E). cbn [join]. by rewrite !app_nil_r in E.
  - change (join (f :: g :: fs)) with (f ++ slash :: join (g :: fs)). destruct (fields_app f (slash :: join (g :: fs)) Hf) as (x & xs & E & ->).
    cbn [fields] in E. rewrite Z.eqb_refl, IH in E by done. injection E as <- <-. by rewrite app_nil_r.
Qed.

Lemma behind_join fs : fs <> [] -> behind fs = slash :: join fs.
Proof.
  induction fs as [|f [|g fs] IH]; [done| |]; intros _; [cbn; by rewrite app_nil_r|].
  change (behind (f :: g :: fs)) with ((slash :: f) ++ behind (g :: fs)). rewrite IH by done. done.
Qed.

Lemma add_fields fs p : Forall (fun f => plain f /\ f <> [] /\ f <> [dot] /\ f <> [dot; dot]) fs -> foldl add_field p fs = (fst p, snd p ++ fs).
Proof.
  intros Hfs. revert p. induction Hfs as [|f fs (_ & H1 & H2 & H3) Hfs IH]; intros p; [cbn; rewrite app_nil_r; by destruct p|].
  cbn [foldl]. rewrite IH. unfold add_field. rewrite !bool_decide_false by naive_solver. cbn. by rewrite <- app_assoc.
Qed.

(** A path in normal form means its fields. *)
Lemma path_meaning_of p : tidy p -> path_meaning (path_of p) = match snd p with [] => (false, []) | _ => p end.
Proof.
  destruct p as [abs fs]. intros Hp. unfold tidy in Hp. cbn [snd] in *. destruct fs as [|f fs]; [by destruct abs|].
  assert (Hpl : Forall plain (f :: fs)) by (eapply Forall_impl; [exact Hp|]; by intros ? []).
  unfold path_of. cbn [fst snd]. rewrite behind_join by done. unfold path_meaning. destruct abs.
  - cbn [fields]. rewrite Z.eqb_refl, fields_join by done. change (foldl add_field (true, []) (f :: fs) = (true, f :: fs)). by rewrite add_fields.
  - cbn [tail]. rewrite fields_join by done. rewrite add_fields by done. cbn. f_equal.
    apply Forall_cons in Hp as [(Hf & Hfn & _) _]. destruct f as [|c f]; [done|]. apply Forall_cons in Hf as [[Hc _] _].
    destruct fs; cbn; by apply Z.eqb_neq.
Qed.

Lemma normalize_idem s : no_nul s -> normalize (normalize s) = normalize s.
Proof.
  intros Hs. unfold normalize at 1 3. unfold normalize. rewrite path_meaning_of by by apply path_meaning_tidy.
  destruct (path_meaning s) as [abs [|f fs]]; [|done]. by destruct abs.
Qed.

Lemma normalize_runs s m :
  cstr s m -> exists m', fs_normalize_path m = Some m' /\ length m' = length m /\ cstr (normalize s) m'.
Proof.
  intros [Hs [rest ->]].
  destruct (path_turns s rest Hs) as (w' & out & (n & Hn & Hfin) & (tl & Hp & Ho & Hl & Hlen) & Hst).
  unfold fs_normalize_path. replace (4 * S (length (s ++ 0%Z :: rest)))%nat with (n + (4 * S (length (s ++ 0%Z :: rest)) - n))%nat.
  2: { rewrite length_app. cbn. lia. }
  rewrite Hfin. cbn [mbind option_bind]. rewrite Ho, Hp in *.
  assert (Hput : forall q, (exists r, out = q ++ r) -> no_nul q -> store (length q) 0 (out ++ tl) = Some (<[length q := 0%Z]> (out ++ tl)) /\
    length (<[length q := 0%Z]> (out ++ tl)) = length (s ++ 0%Z :: rest) /\ cstr q (<[length q := 0%Z]> (out ++ tl))).
  { intros q [r ->] Hq. rewrite length_app in Hl. unfold store. rewrite (proj2 (Nat.ltb_lt _ _)) by lia. split; [done|]. rewrite length_insert.
    split; [done|]. split; [done|]. rewrite <- app_assoc, insert_app_r_alt, Nat.sub_diag by lia.
    destruct (r ++ tl) as [|x l] eqn:E; [|by exists l]. apply app_nil in E as [-> ->]. rewrite !length_app in *. cbn in *. lia. }
  pose proof (path_of_no_nul _ (path_meaning_tidy s Hs)) as Hnn. fold (normalize s) in Hnn.
  assert (exists o, (match length out with O => Some O | S o => c ← (out ++ tl) !! o; Some (if c =? slash then o else length out) end) = Some (length (normalize s)) /\
    out = normalize s ++ o) as (o & Hcut & Hout).
  { destruct Hst as [[-> ->]|[->|[-> (q & c & Hq & Hc)]]].
    - by exists [].
    - exists [slash]. split; [|done]. rewrite length_app. cbn [length]. rewrite Nat.add_1_r.
      rewrite <- app_assoc, lookup_app_r, Nat.sub_diag by lia. done.
    - exists []. split; [|by rewrite app_nil_r]. rewrite Hq, length_app. cbn [length]. rewrite Nat.add_1_r, <- app_assoc, lookup_app_r, Nat.sub_diag by lia.
      cbn [lookup list_lookup app mbind option_bind]. by rewrite (proj2 (Z.eqb_neq _ _) Hc). }
  rewrite Hcut. cbn [mbind option_bind]. destruct (Hput (normalize s)) as (Hs1 & Hs2 & Hs3); [by exists o|done|]. rewrite Hs1. by eexists.
Qed.

(** What holds of all characters of a path and of the separator holds of its normal form. *)
Lemma normalize_Forall (P : Z -> Prop) s : P slash -> Forall P s -> Forall P (normalize s).
Proof.
  intros H0 Hs. assert (Forall (Forall P) (fields s)) as Hf.
  { induction Hs as [|c s Hc Hs IH]; cbn [fields]; [by repeat constructor|]. destruct (c =? slash); [by constructor|].
    destruct (fields s); [by repeat constructor|]. apply Forall_cons in IH as [? ?]. by repeat constructor. }
  assert (forall fs p, Forall (Forall P) (snd p) -> Forall (Forall P) fs -> Forall (Forall P) (snd (foldl add_field p fs))) as Hfold.
  { induction fs as [|f fs IH]; intros p Hp Hfs; [done|]. apply Forall_cons in Hfs as [Hf1 Hfs]. apply IH; [|done]. unfold add_field.
    destruct (bool_decide _); [done|]. destruct (bool_decide _); cbn [snd]; [|apply Forall_app_2; [done|by repeat constructor]].
    destruct (snd p) as [|g gs] eqn:E; [constructor|]. rewrite <- E in *. cbn [snd]. destruct (@exists_last _ (snd p)) as (l & x & Hl); [by rewrite E|].
    rewrite Hl in *. rewrite removelast_last. by apply Forall_app in Hp as [? _]. }
  unfold normalize, path_of. pose proof (Hfold (fields s) (match s with c :: _ => c =? slash | [] => false end, []) ltac:(constructor) Hf) as Hm.
  fold (path_meaning s) in Hm.
  assert (Forall P (behind (snd (path_meaning s)))) as Hb.
  { unfold behind. induction Hm; [constructor|]. cbn [map concat]. apply Forall_app_2; [by constructor|done]. }
  destruct (fst _); [done|]. destruct Hb; [constructor|done].
Qed.

(** C18: fs_normalize_path stays inside of its buffer, ends, and leaves the normal form of
    the path in it: the fields that are not empty and not ".", without those a ".."
    took away, between single separators and none at the end.  Doing it again changes
    nothing. *)
Theorem fs_normalize_path_correct s m :
  cstr s m ->
  (exists m', fs_normalize_path m = Some m' /\ length m' = length m /\ cstr (normalize s) m') /\
  normalize (normalize s) = normalize s.
Proof. intros H. split; [by apply normalize_runs|]. destruct H as [Hs _]. by apply normalize_idem. Qed.

(** A path like [/a/.//bc/../d/], in a buffer of twenty bytes *)
Lemma fs_normalize_path_correct_witness :
  (exists m', fs_normalize_path ([47; 97; 47; 46; 47; 47; 98; 99; 47; 46; 46; 47; 100; 47] ++ 0 :: [1; 2; 3; 4; 5]) = Some m' /\ length m' = 20%nat /\
    cstr [47; 97; 47; 100] m') /\
  normalize [47; 97; 47; 100] = [47; 97; 47; 100].
Proof.
  apply (fs_normalize_path_correct [47; 97; 47; 46; 47; 47; 98; 99; 47; 46; 46; 47; 100; 47]).
  apply cstr_intro. repeat (constructor; [lia|]). constructor.
Defined.
