(* ===== verification/Vfs.v ===== *)
(** * lib/fs: the mounts and the handles of fs.c

    Mounts and handles are objects in maps from their addresses; the list of mounts
    is a list.  The file systems behind it are a class [FileSystems]: their table (the
    section fs_impl of the linker), their functions, which may be NULL, and the two
    calls of lib/bio.  Paths are C strings in their buffers until a file system gets
    them.  mount_lock makes each search of the list and each put_mount one step; what
    malloc returns is an argument. *)

From stdpp Require Import prelude list gmap.
From Stdlib Require Import ZArith Lia.
From S2P Require Import Prelude CMem CString FsPath.

Open Scope Z_scope.
Open Scope lk_scope.

Definition ERR_NOT_FOUND : Z := -2.
Definition ERR_NO_MEMORY : Z := -5.
Definition ERR_INVALID_ARGS : Z := -8.
Definition ERR_BAD_PATH : Z := -18.
Definition ERR_ALREADY_MOUNTED : Z := -19.
Definition ERR_NOT_SUPPORTED : Z := -24.

Definition NULL : Z := 0.
Definition FS_MAX_PATH_LEN : nat := 128.

(** ** File systems *)

(** A call through struct fs_api: the cookie of the file system, file or directory (or
    the device), and the arguments *)
Inductive fs_request :=
| Format (dev : Z)
| Fs_stat (cookie : Z)
| Mount (dev : Z)
| Unmount (cookie : Z)
| Open (cookie : Z) (path : list Z)
| Create (cookie : Z) (path : list Z) (len : Z)
| Remove (cookie : Z) (path : list Z)
| Truncate (file len : Z)
| Stat (file : Z)
| Read (file offset len : Z)
| Write (file : Z) (buf : list Z) (offset len : Z)
| Close (file : Z)
| Mkdir (cookie : Z) (path : list Z)
| Opendir (cookie : Z) (path : list Z)
| Readdir (dir : Z)
| Closedir (dir : Z)
| File_ioctl (file request : Z).

(** What comes back: the code, a cookie or a size, and bytes *)
Record answer := Answer { code : Z; value : Z; data : list Z }.

(** The pointers of struct fs_api *)
Inductive fs_api :=
| Api_format | Api_fs_stat | Api_mount | Api_unmount | Api_open | Api_create | Api_remove | Api_truncate | Api_stat | Api_read
| Api_write | Api_close | Api_mkdir | Api_opendir | Api_readdir | Api_closedir | Api_file_ioctl.

Definition pointer (rq : fs_request) : fs_api :=
  match rq with
  | Format _ => Api_format | Fs_stat _ => Api_fs_stat | Mount _ => Api_mount | Unmount _ => Api_unmount
  | Open _ _ => Api_open | Create _ _ _ => Api_create | Remove _ _ => Api_remove | Truncate _ _ => Api_truncate
  | Stat _ => Api_stat | Read _ _ _ => Api_read | Write _ _ _ _ => Api_write | Close _ => Api_close
  | Mkdir _ _ => Api_mkdir | Opendir _ _ => Api_opendir | Readdir _ => Api_readdir | Closedir _ => Api_closedir
  | File_ioctl _ _ => Api_file_ioctl
  end.

(** [fs_impls]: the names, without their terminators; [api_has]: a pointer is not NULL *)
Class FileSystems (F : Type) := {
  fs_impls : list (list Z);
  api_has : Z -> fs_api -> bool;
  api : Z -> fs_request -> F -> answer * F;
  dev_open : list Z -> F -> Z * F;
  dev_close : Z -> F -> F
}.

Record fs_mount := Fs_mount { path : list Z; pathlen : nat; mdev : Z; mcookie : Z; mref : Z; mfs : Z }.

(** filehandle and dirhandle *)
Record handle := Handle { cookie : Z; hmount : Z }.

Section fs.
Context {F : Type} {HF : FileSystems F}.

Record vfs := Vfs {
  mounts : list Z;
  mount_objs : gmap Z fs_mount;
  filehandles : gmap Z handle;
  dirhandles : gmap Z handle;
  under : F
}.

Definition VM (A : Type) : Type := M vfs Empty_set A.

Definition set_mounts (l : list Z) : VM unit :=
  modify (fun v => Vfs l (mount_objs v) (filehandles v) (dirhandles v) (under v)).
Definition set_objs (m : gmap Z fs_mount) : VM unit :=
  modify (fun v => Vfs (mounts v) m (filehandles v) (dirhandles v) (under v)).
Definition set_files (m : gmap Z handle) : VM unit :=
  modify (fun v => Vfs (mounts v) (mount_objs v) m (dirhandles v) (under v)).
Definition set_dirs (m : gmap Z handle) : VM unit :=
  modify (fun v => Vfs (mounts v) (mount_objs v) (filehandles v) m (under v)).
Definition set_under (f : F) : VM unit :=
  modify (fun v => Vfs (mounts v) (mount_objs v) (filehandles v) (dirhandles v) f).

Definition get_mount (m : Z) : VM fs_mount := let* v := get in deref (mount_objs v !! m).
Definition set_ref (r : Z) (mt : fs_mount) : fs_mount :=
  Fs_mount (path mt) (pathlen mt) (mdev mt) (mcookie mt) r (mfs mt).

(** Through a function pointer, which is followed if it is NULL *)
Definition call_api (fs : Z) (rq : fs_request) : VM answer :=
  let* v := get in
  if api_has fs (pointer rq) then let '(a, f) := api fs rq (under v) in set_under f ;; ret a else fault.

Definition call_bio_open (name : list Z) : VM Z := let* v := get in let '(d, f) := dev_open name (under v) in set_under f ;; ret d.
Definition call_bio_close (d : Z) : VM unit := let* v := get in set_under (dev_close d (under v)).

(** The string at a pointer *)
Definition string_at (p : list Z) : VM (list Z) := let* n := deref (strlen p) in ret (take n p).

(** [if (device && device[0] != '\0')] *)
Definition named (device : option (list Z)) : VM bool :=
  match device with
  | None => ret false
  | Some p => let* c := deref (p !! 0%nat) in ret (negb (c =? 0))
  end.

Fixpoint find_fs_from (i : Z) (names : list (list Z)) (name : list Z) : VM (option Z) :=
  match names with
  | [] => ret None
  | n :: names => let* r := deref (strcmp name (n ++ [0])) in if r =? 0 then ret (Some i) else find_fs_from (i + 1) names name
  end.

Definition find_fs (name : list Z) : VM (option Z) := find_fs_from 0 fs_impls name.

(** ** Mounts *)

Fixpoint find_mount_from (l : list Z) (p : list Z) (plen : nat) : VM (Z * list Z) :=
  match l with
  | [] => ret (NULL, [])
  | m :: l =>
      let* mt := get_mount m in
      if (plen <? pathlen mt)%nat then find_mount_from l p plen
      else
        let* r := deref (memcmp p (path mt) (pathlen mt)) in
        if r =? 0 then
          let* c := deref (p !! pathlen mt) in
          if negb (c =? slash) && negb (c =? 0) then find_mount_from l p plen
          else
            let* v := get in
            set_objs (<[m := set_ref (s32 (mref mt + 1)) mt]> (mount_objs v)) ;;
            ret (m, if c =? 0 then [slash; 0] else drop (pathlen mt) p)
        else find_mount_from l p plen
  end.

(** The mount (NULL: none) and trimmed_path *)
Definition find_mount (p : list Z) : VM (Z * list Z) :=
  let* c := deref (p !! 0%nat) in
  if negb (c =? slash) then ret (NULL, [])
  else
    let* plen := deref (strlen p) in
    let* v := get in
    find_mount_from (mounts v) p plen.

Definition put_mount (m : Z) : VM unit :=
  let* mt := get_mount m in
  let* v := get in
  set_objs (<[m := set_ref (s32 (mref mt - 1)) mt]> (mount_objs v)) ;;
  if s32 (mref mt - 1) =? 0 then
    let* v := get in
    (if bool_decide (m ∈ mounts v) then set_mounts (filter (fun x => x <> m) (mounts v)) else fault) ;;
    call_api (mfs mt) (Unmount (mcookie mt)) ;;
    (if negb (mdev mt =? NULL) then call_bio_close (mdev mt) else ret tt) ;;
    let* v := get in
    set_objs (delete m (mount_objs v))
  else ret tt.

(** strlcpy to temppath and fs_normalize_path; the stack's old bytes are not read. *)
Definition temppath (p : list Z) : VM (list Z) :=
  let* r := deref (strlcpy (replicate FS_MAX_PATH_LEN 0) p FS_MAX_PATH_LEN) in
  deref (fs_normalize_path (snd r)).

(** bio_open of the device, if there is a name *)
Definition open_device (device : option (list Z)) : VM (option Z) :=
  let* nm := named device in
  if nm : bool then
    let* name := string_at (default [] device) in
    let* d := call_bio_open name in
    ret (if d =? NULL then None else Some d)
  else ret (Some NULL).

Definition close_device (d : Z) : VM unit := if negb (d =? NULL) then call_bio_close d else ret tt.

Definition mount (p : list Z) (device : option (list Z)) (fs m : Z) (malloc : nat -> option (list Z)) : VM Z :=
  let* temp := temppath p in
  let* c := deref (temp !! 0%nat) in
  if negb (c =? slash) then ret ERR_BAD_PATH
  else
    let* old := find_mount temp in
    if negb (fst old =? NULL) then put_mount (fst old) ;; ret ERR_ALREADY_MOUNTED
    else
      let* dev := open_device device in
      match dev with
      | None => ret ERR_NOT_FOUND
      | Some dev =>
          let* a := call_api fs (Mount dev) in
          if code a <? 0 then close_device dev ;; ret (code a)
          else if m =? NULL then close_device dev ;; ret ERR_NO_MEMORY
          else
            let* dup := deref (strdup malloc temp) in
            match dup with
            | None => close_device dev ;; ret ERR_NO_MEMORY
            | Some mpath =>
                let* len := deref (strlen mpath) in
                let* v := get in
                set_objs (<[m := Fs_mount mpath len dev (value a) 1 fs]> (mount_objs v)) ;;
                set_mounts (m :: mounts v) ;;
                ret 0
            end
      end.

Definition fs_format_device (fsname : list Z) (device : option (list Z)) : VM Z :=
  let* fs := find_fs fsname in
  match fs with
  | None => ret ERR_NOT_FOUND
  | Some fs =>
      if negb (api_has fs Api_format) then ret ERR_NOT_SUPPORTED
      else
        let* dev := open_device device in
        match dev with
        | None => ret ERR_NOT_FOUND
        | Some dev => let* a := call_api fs (Format dev) in ret (code a)
        end
  end.

Definition fs_mount_at (p fsname : list Z) (device : option (list Z)) (m : Z) (malloc : nat -> option (list Z)) : VM Z :=
  let* fs := find_fs fsname in
  match fs with
  | None => ret ERR_NOT_FOUND
  | Some fs => mount p device fs m malloc
  end.

Definition fs_unmount (p : list Z) : VM Z :=
  let* temp := temppath p in
  let* m := find_mount temp in
  if fst m =? NULL then ret ERR_NOT_FOUND
  else put_mount (fst m) ;; put_mount (fst m) ;; ret 0.

(** ** Calls on paths *)

(** What they share: the mount of the path, the check of a pointer that may be NULL,
    and the request with what is left of the path; then [k] with its answer *)
Definition on_path (p : list Z) (optional : option fs_api) (rq : Z -> list Z -> fs_request) (k : Z -> answer -> VM Z) : VM Z :=
  let* temp := temppath p in
  let* found := find_mount temp in
  let (m, newpath) := found : Z * list Z in
  if m =? NULL then ret ERR_NOT_FOUND
  else
    let* mt := get_mount m in
    if match optional with Some fn => negb (api_has (mfs mt) fn) | None => false end then put_mount m ;; ret ERR_NOT_SUPPORTED
    else
      let* name := string_at newpath in
      let* a := call_api (mfs mt) (rq (mcookie mt) name) in
      k m a.

Definition new_file (h : Z) (f : handle) : VM unit :=
  let* v := get in if h =? NULL then fault else set_files (<[h := f]> (filehandles v)).
Definition new_dir (h : Z) (f : handle) : VM unit :=
  let* v := get in if h =? NULL then fault else set_dirs (<[h := f]> (dirhandles v)).

Definition fs_open_file (p : list Z) (h : Z) : VM Z :=
  on_path p None Open (fun m a =>
    if code a <? 0 then put_mount m ;; ret (code a)
    else new_file h (Handle (value a) m) ;; ret 0).

Definition fs_create_file (p : list Z) (len h : Z) : VM Z :=
  on_path p (Some Api_create) (fun c n => Create c n len) (fun m a =>
    if code a <? 0 then put_mount m ;; ret (code a)
    else if h =? NULL then put_mount m ;; ret (code a)
    else new_file h (Handle (value a) m) ;; ret 0).

Definition fs_remove_file (p : list Z) : VM Z :=
  on_path p (Some Api_remove) Remove (fun m a => put_mount m ;; ret (code a)).

Definition fs_make_dir (p : list Z) : VM Z :=
  on_path p (Some Api_mkdir) Mkdir (fun m a => put_mount m ;; ret (code a)).

Definition fs_open_dir (p : list Z) (h : Z) : VM Z :=
  on_path p (Some Api_opendir) Opendir (fun m a =>
    if code a <? 0 then put_mount m ;; ret (code a)
    else if h =? NULL then put_mount m ;; ret ERR_NO_MEMORY
    else new_dir h (Handle (value a) m) ;; ret 0).

(** The path of fs_stat_fs is not normalized.  [stat] is where the answer goes. *)
Definition fs_stat_fs (p : list Z) (stat : Z) : VM answer :=
  if stat =? NULL then ret (Answer ERR_INVALID_ARGS 0 [])
  else
    let* found := find_mount p in
    let m := fst found in
    if m =? NULL then ret (Answer ERR_NOT_FOUND 0 [])
    else
      let* mt := get_mount m in
      if negb (api_has (mfs mt) Api_fs_stat) then put_mount m ;; ret (Answer ERR_NOT_SUPPORTED 0 [])
      else
        let* a := call_api (mfs mt) (Fs_stat (mcookie mt)) in
        put_mount m ;;
        ret a.

(** ** Calls on handles *)

Definition get_file (h : Z) : VM handle := let* v := get in deref (filehandles v !! h).
Definition get_dir (h : Z) : VM handle := let* v := get in deref (dirhandles v !! h).

(** handle->mount->api *)
Definition on_file (h : Z) (rq : Z -> fs_request) : VM answer :=
  let* f := get_file h in
  let* mt := get_mount (hmount f) in
  call_api (mfs mt) (rq (cookie f)).

Definition fs_file_ioctl (h request : Z) : VM answer :=
  if h =? NULL then ret (Answer ERR_INVALID_ARGS 0 [])
  else
    let* f := get_file h in
    let* mt := get_mount (hmount f) in
    if negb (api_has (mfs mt) Api_file_ioctl) then ret (Answer ERR_INVALID_ARGS 0 [])
    else call_api (mfs mt) (File_ioctl (cookie f) request).

Definition fs_truncate_file (h len : Z) : VM answer :=
  if h =? NULL then ret (Answer ERR_INVALID_ARGS 0 []) else on_file h (fun f => Truncate f len).

Definition fs_read_file (h offset len : Z) : VM answer := on_file h (fun f => Read f offset len).

Definition fs_write_file (h : Z) (buf : list Z) (offset len : Z) : VM answer :=
  let* f := get_file h in
  let* mt := get_mount (hmount f) in
  if negb (api_has (mfs mt) Api_write) then ret (Answer ERR_NOT_SUPPORTED 0 [])
  else call_api (mfs mt) (Write (cookie f) buf offset len).

Definition fs_stat_file (h : Z) : VM answer := on_file h Stat.

Definition fs_close_file (h : Z) : VM Z :=
  let* a := on_file h Close in
  if code a <? 0 then ret (code a)
  else
    let* f := get_file h in
    put_mount (hmount f) ;;
    let* v := get in
    set_files (delete h (filehandles v)) ;;
    ret 0.

Definition fs_read_dir (h : Z) : VM answer :=
  let* f := get_dir h in
  let* mt := get_mount (hmount f) in
  if negb (api_has (mfs mt) Api_readdir) then ret (Answer ERR_NOT_SUPPORTED 0 [])
  else call_api (mfs mt) (Readdir (cookie f)).

Definition fs_close_dir (h : Z) : VM Z :=
  let* f := get_dir h in
  let* mt := get_mount (hmount f) in
  if negb (api_has (mfs mt) Api_closedir) then ret ERR_NOT_SUPPORTED
  else
    let* a := call_api (mfs mt) (Closedir (cookie f)) in
    if code a <? 0 then ret (code a)
    else
      put_mount (hmount f) ;;
      let* v := get in
      set_dirs (delete h (dirhandles v)) ;;
      ret 0.

(** The code of fs_stat_file is not looked at; stat.size is what it stored. *)
Definition fs_load_file (p : list Z) (maxlen h : Z) : VM answer :=
  let* err := fs_open_file p h in
  if err <? 0 then ret (Answer err 0 [])
  else
    let* st := fs_stat_file h in
    let* r := fs_read_file h 0 (u32 (Z.min maxlen (value st))) in
    fs_close_file h ;;
    ret r.
End fs.
Arguments vfs : clear implicits.
Arguments VM : clear implicits.
