(* ===== verification/VfsInv.v ===== *)
(** * What the file system layer promises

    A [table] has the mounts with the strings of their paths, the open handles and,
    instead of references, whether a mount is still up: it stays until it is down and
    has no handle.  [core] relates the state of fs.c to it, with at most one reference
    that is held by the call that runs. *)

From stdpp Require Import prelude list gmap.
From Stdlib Require Import ZArith Lia.
From S2P Require Import Prelude CMem CString FsPath Vfs.

Open Scope Z_scope.
Open Scope lk_scope.

Definition text (s : list Z) : Prop := no_nul s /\ bytes_ok s.

(** A file system mounts, opens, reads and closes. *)
Definition mandatory (fn : fs_api) : bool :=
  match fn with Api_mount | Api_unmount | Api_open | Api_read | Api_stat | Api_close => true | _ => false end.

Class FileSystemsLaws (F : Type) {HF : FileSystems F} := {
  impls_text : Forall text fs_impls;
  api_always i fn : mandatory fn = true -> 0 <= i < Z.of_nat (length fs_impls) -> api_has i fn = true
}.

(** ** The table *)

Record entry := Entry { e_path : list Z; e_dev : Z; e_cookie : Z; e_fs : Z; up : bool }.

(** The youngest mount comes first. *)
Record table (F : Type) := Table {
  order : list Z;
  entries : gmap Z entry;
  files : gmap Z handle;
  dirs : gmap Z handle;
  disk : F
}.
Arguments Table {F}.
Arguments order {F}.
Arguments entries {F}.
Arguments files {F}.
Arguments dirs {F}.
Arguments disk {F}.

Definition on_mount (m : Z) (kv : Z * handle) : Prop := hmount (snd kv) = m.
#[export] Instance on_mount_dec m kv : Decision (on_mount m kv) := ltac:(unfold on_mount; apply _).

Definition count (m : Z) (hs : gmap Z handle) : Z := Z.of_nat (size (filter (on_mount m) hs)).

(** A mount's path is a prefix of a path that ends where a field ends. *)
Definition covers (q p : list Z) : bool :=
  bool_decide (take (length q) p = q) && match drop (length q) p with [] => true | c :: _ => c =? slash end.

Definition rest_of (q p : list Z) : list Z := match drop (length q) p with [] => [slash] | r => r end.

Section table.
Context {F : Type} {HF : FileSystems F}.
Notation table := (table F).
Implicit Types (A : table) (c : vfs F).

Definition handles A (m : Z) : Z := count m (files A) + count m (dirs A).

Definition with_disk (f : F) A : table := Table (order A) (entries A) (files A) (dirs A) f.
Definition with_files (hs : gmap Z handle) A : table := Table (order A) (entries A) hs (dirs A) (disk A).
Definition with_dirs (hs : gmap Z handle) A : table := Table (order A) (entries A) (files A) hs (disk A).
Definition with_entry (m : Z) (e : entry) A : table := Table (order A) (<[m := e]> (entries A)) (files A) (dirs A) (disk A).
Definition down (e : entry) : entry := Entry (e_path e) (e_dev e) (e_cookie e) (e_fs e) false.

Fixpoint route_from (l : list Z) (es : gmap Z entry) (p : list Z) : option (Z * entry * list Z) :=
  match l with
  | [] => None
  | m :: l =>
      match es !! m with
      | Some e => if covers (e_path e) p then Some (m, e, rest_of (e_path e) p) else route_from l es p
      | None => None
      end
  end.

(** Which mount a path is on, and what is left of it *)
Definition route A (p : list Z) : option (Z * entry * list Z) :=
  match p with c :: _ => if c =? slash then route_from (order A) (entries A) p else None | [] => None end.

(** A mount that is down and has no handles ends: the file system unmounts, and its
    device is closed. *)
Definition release (m : Z) (e : entry) A : table :=
  let f := snd (api (e_fs e) (Unmount (e_cookie e)) (disk A)) in
  Table (filter (fun x => x <> m) (order A)) (delete m (entries A)) (files A) (dirs A)
    (if e_dev e =? NULL then f else dev_close (e_dev e) f).

Definition settle (m : Z) A : table :=
  match entries A !! m with
  | Some e => if negb (up e) && (handles A m =? 0) then release m e A else A
  | None => A
  end.

(** ** The relation *)

Definition held (x : option Z) (m : Z) : Z := if decide (x = Some m) then 1 else 0.
Definition refs A (x : option Z) (m : Z) (e : entry) : Z := Z.b2z (up e) + handles A m + held x m.

Record same_mount (mt : fs_mount) (e : entry) (r : Z) : Prop := Same_mount {
  sm_path : cstr (e_path e) (path mt) /\ bytes_ok (e_path e);
  sm_len : pathlen mt = length (e_path e);
  sm_dev : mdev mt = e_dev e;
  sm_cookie : mcookie mt = e_cookie e;
  sm_ref : mref mt = r /\ 0 < r;
  sm_fs : mfs mt = e_fs e /\ 0 <= e_fs e < Z.of_nat (length fs_impls)
}.

Record core c A (x : option Z) : Prop := Core {
  c_mounts : mounts c = order A;
  c_order : NoDup (order A) /\ NULL ∉ order A;
  c_entries : forall m, m ∈ order A <-> is_Some (entries A !! m);
  c_objs : forall m, is_Some (mount_objs c !! m) -> m ∈ order A;
  c_same : forall m e, entries A !! m = Some e -> exists mt, mount_objs c !! m = Some mt /\ same_mount mt e (refs A x m e);
  c_files : map_Forall (fun _ f => hmount f ∈ order A) (files A);
  c_dirs : map_Forall (fun _ f => hmount f ∈ order A) (dirs A);
  c_held : forall m, x = Some m -> m ∈ order A;
  c_under : under c = disk A
}.

Definition rel c A (x : option Z) : Prop := core c A x /\ filehandles c = files A /\ dirhandles c = dirs A.

(** Fewer handles than a reference count can count *)
Definition small A : Prop := Z.of_nat (size (files A) + size (dirs A)) < 2 ^ 31 - 3.

(** ** Counting handles *)

Lemma count_insert m h f hs : hs !! h = None -> count m (<[h := f]> hs) = count m hs + held (Some (hmount f)) m.
Proof.
  intros Hh. unfold count, held. rewrite map_filter_insert. unfold on_mount at 1. cbn [snd].
  destruct (decide (hmount f = m)) as [->|Hn].
  - rewrite decide_True by done. rewrite map_size_insert_None by (by apply map_lookup_filter_None; left). lia.
  - rewrite decide_False by congruence. rewrite delete_id by done. lia.
Qed.

Lemma count_delete m h f hs : hs !! h = Some f -> count m hs = count m (delete h hs) + held (Some (hmount f)) m.
Proof. intros Hh. rewrite <- (count_insert m h f) by apply lookup_delete_eq. by rewrite insert_delete_id. Qed.

Lemma count_zero m h f hs : count m hs = 0 -> hs !! h = Some f -> hmount f <> m.
Proof.
  intros H0 Hh <-. unfold count in H0. assert (size (filter (on_mount (hmount f)) hs) = 0%nat) as Hz by lia.
  apply map_size_empty_inv in Hz. assert (filter (on_mount (hmount f)) hs !! h = Some f) as Hf by (by apply map_lookup_filter_Some).
  by rewrite Hz in Hf.
Qed.

Lemma count_le m hs : 0 <= count m hs <= Z.of_nat (size hs).
Proof. unfold count. pose proof (map_subseteq_size _ _ (map_filter_subseteq (on_mount m) hs)). lia. Qed.

Lemma held_range x m : 0 <= held x m <= 1.
Proof. unfold held. case_decide; lia. Qed.

Lemma handles_zero A m : handles A m = 0 -> count m (files A) = 0 /\ count m (dirs A) = 0.
Proof. unfold handles. pose proof (count_le m (files A)). pose proof (count_le m (dirs A)). lia. Qed.

Lemma refs_range A x m e : small A -> 0 <= refs A x m e < 2 ^ 31 - 1.
Proof.
  unfold small, refs, handles. intros Hs. pose proof (count_le m (files A)). pose proof (count_le m (dirs A)). pose proof (held_range x m).
  assert (0 <= Z.b2z (up e) <= 1) by (destruct (up e); cbn; lia). lia.
Qed.

(** A mount that no call holds is up or has handles. *)
Definition live A (m : Z) : Prop := forall e, entries A !! m = Some e -> negb (up e) && (handles A m =? 0) = false.

Lemma core_live c A m : core c A None -> live A m.
Proof.
  intros C e He. destruct (c_same _ _ _ C m e He) as (mt & _ & S). destruct (sm_ref _ _ _ S) as [_ Hr]. unfold refs, held in Hr.
  rewrite decide_False in Hr by done. destruct (up e); [done|]. cbn [negb andb Z.b2z] in *. apply Z.eqb_neq. lia.
Qed.

Lemma settle_live A m : live A m -> settle m A = A.
Proof. intros Hl. unfold settle. destruct (entries A !! m) eqn:E; [|done]. by rewrite (Hl _ E). Qed.

(** ** Changes that keep the relation *)

Lemma core_refs c A A' x x' :
  core c A x -> order A' = order A -> disk A' = disk A ->
  (forall m e', entries A' !! m = Some e' -> exists e, entries A !! m = Some e /\ refs A' x' m e' = refs A x m e /\
    e_path e' = e_path e /\ e_dev e' = e_dev e /\ e_cookie e' = e_cookie e /\ e_fs e' = e_fs e) ->
  (forall m, is_Some (entries A !! m) -> is_Some (entries A' !! m)) ->
  map_Forall (fun _ f => hmount f ∈ order A) (files A') -> map_Forall (fun _ f => hmount f ∈ order A) (dirs A') ->
  (forall m, x' = Some m -> m ∈ order A) -> core c A' x'.
Proof.
  intros [H1 H2 H3 H4 H5 H6 H7 H8 H9] Ho Hd He Hs Hf Hdi Hx. constructor; rewrite ?Ho, ?Hd; try done.
  - intros m. rewrite H3. split; [apply Hs|]. intros [e' He']. destruct (He m e' He') as (e & -> & _). by eexists.
  - intros m e' He'. destruct (He m e' He') as (e & Hee & Hr & Hp & Hdv & Hck & Hfs). destruct (H5 m e Hee) as (mt & Hmt & [S1 S2 S3 S4 S5 S6]).
    exists mt. split; [done|]. rewrite Hr. by constructor; rewrite ?Hp, ?Hdv, ?Hck, ?Hfs.
Qed.

Lemma core_with_disk c A x (f : F) : core c A x -> core (Vfs (mounts c) (mount_objs c) (filehandles c) (dirhandles c) f) (with_disk f A) x.
Proof. by intros [H1 H2 H3 H4 H5 H6 H7 H8 H9]. Qed.

(** Handles are not looked at. *)
Lemma core_ignores c A x fhs dhs : core c A x -> core (Vfs (mounts c) (mount_objs c) fhs dhs (under c)) A x.
Proof. by intros [H1 H2 H3 H4 H5 H6 H7 H8 H9]. Qed.

(** The reference that was held goes into a new handle, *)
Lemma core_new_file c A m h ck : core c A (Some m) -> files A !! h = None -> core c (with_files (<[h := Handle ck m]> (files A)) A) None.
Proof.
  intros C Hh. eapply core_refs; [exact C|done..| |done| |apply (c_dirs _ _ _ C)|done].
  - intros m' e He. exists e. split; [done|]. split; [|done]. unfold refs, handles. cbn [files dirs with_files]. rewrite count_insert by done.
    cbn [hmount]. change (held None m') with 0. lia.
  - apply map_Forall_insert_2; [|apply (c_files _ _ _ C)]. by apply (c_held _ _ _ C).
Qed.

Lemma core_new_dir c A m h ck : core c A (Some m) -> dirs A !! h = None -> core c (with_dirs (<[h := Handle ck m]> (dirs A)) A) None.
Proof.
  intros C Hh. eapply core_refs; [exact C|done..| |done|apply (c_files _ _ _ C)| |done].
  - intros m' e He. exists e. split; [done|]. split; [|done]. unfold refs, handles. cbn [files dirs with_dirs]. rewrite count_insert by done.
    cbn [hmount]. change (held None m') with 0. lia.
  - apply map_Forall_insert_2; [|apply (c_dirs _ _ _ C)]. by apply (c_held _ _ _ C).
Qed.

(** and comes out of one that is closed, *)
Lemma core_old_file c A h f : core c A None -> files A !! h = Some f -> core c (with_files (delete h (files A)) A) (Some (hmount f)).
Proof.
  intros C Hh. eapply core_refs; [exact C|done..| |done| |apply (c_dirs _ _ _ C)|].
  - intros m' e He. exists e. split; [done|]. split; [|done]. unfold refs, handles. cbn [files dirs with_files].
    rewrite (count_delete m' h f (files A)) by done. change (held None m') with 0. lia.
  - apply map_Forall_delete, (c_files _ _ _ C).
  - intros m' [= <-]. apply (c_files _ _ _ C _ _ Hh).
Qed.

Lemma core_old_dir c A h f : core c A None -> dirs A !! h = Some f -> core c (with_dirs (delete h (dirs A)) A) (Some (hmount f)).
Proof.
  intros C Hh. eapply core_refs; [exact C|done..| |done|apply (c_files _ _ _ C)| |].
  - intros m' e He. exists e. split; [done|]. split; [|done]. unfold refs, handles. cbn [files dirs with_dirs].
    rewrite (count_delete m' h f (dirs A)) by done. change (held None m') with 0. lia.
  - apply map_Forall_delete, (c_dirs _ _ _ C).
  - intros m' [= <-]. apply (c_dirs _ _ _ C _ _ Hh).
Qed.

(** or out of being up. *)
Lemma core_down c A m e : core c A None -> entries A !! m = Some e -> up e = true -> core c (with_entry m (down e) A) (Some m).
Proof.
  intros C He Hu. eapply core_refs; [exact C|done..| | |apply (c_files _ _ _ C)|apply (c_dirs _ _ _ C)|].
  - intros m' e'. cbn [with_entry entries]. destruct (decide (m' = m)) as [->|Hn].
    + rewrite lookup_insert_eq. intros [= <-]. exists e. split; [done|]. split; [|done]. unfold refs, handles, held. cbn [up down files dirs with_entry].
      rewrite decide_True, decide_False, Hu by done. cbn. lia.
    + rewrite lookup_insert_ne by done. intros He'. exists e'. split; [done|]. split; [|done]. unfold refs, handles, held. cbn [files dirs with_entry].
      by rewrite !decide_False by congruence.
  - intros m' Hm'. cbn [with_entry entries]. destruct (decide (m' = m)) as [->|Hn]; [by rewrite lookup_insert_eq|by rewrite lookup_insert_ne].
  - intros m' [= <-]. apply (c_entries _ _ _ C). by eexists.
Qed.

(** A new mount has the reference of being up. *)
Lemma count_none m hs : map_Forall (fun _ f => hmount f <> m) hs -> count m hs = 0.
Proof.
  intros H. unfold count. rewrite (map_empty_filter_2 (on_mount m) hs); [by rewrite map_size_empty|].
  intros h f Hf Hm. by apply (H h f).
Qed.

Definition new_mount (m : Z) (e : entry) A : table := Table (m :: order A) (<[m := e]> (entries A)) (files A) (dirs A) (disk A).

Lemma core_new_mount c A m e mt :
  core c A None -> m <> NULL -> entries A !! m = None -> up e = true -> same_mount mt e 1 ->
  core (Vfs (m :: mounts c) (<[m := mt]> (mount_objs c)) (filehandles c) (dirhandles c) (under c)) (new_mount m e A) None.
Proof.
  intros [H1 H2 H3 H4 H5 H6 H7 H8 H9] Hm Hfr Hu S. assert (Hni : m ∉ order A) by (rewrite H3, Hfr; by intros [? ?]).
  constructor; cbn [mounts mount_objs under order entries files dirs disk new_mount]; try done.
  - by rewrite H1.
  - destruct H2 as [Hnd H0]. split; [by constructor|]. rewrite elem_of_cons. intros [?|?]; [by apply Hm|done].
  - intros m'. rewrite elem_of_cons. destruct (decide (m' = m)) as [->|Hn]; [rewrite lookup_insert_eq; split; [by eexists|by left]|].
    rewrite lookup_insert_ne, <- H3 by done. tauto.
  - intros m'. rewrite elem_of_cons. destruct (decide (m' = m)) as [->|Hn]; [by left|]. rewrite lookup_insert_ne by done. auto.
  - intros m' e'. destruct (decide (m' = m)) as [->|Hn].
    + rewrite !lookup_insert_eq. intros [= <-]. exists mt. split; [done|]. replace (refs _ None m e) with 1; [done|].
      unfold refs, handles, held. cbn [files dirs new_mount]. rewrite Hu, decide_False, !count_none; [done| | |done].
      * intros h f Hf <-. apply Hni, (H7 h f Hf).
      * intros h f Hf <-. apply Hni, (H6 h f Hf).
    + rewrite !lookup_insert_ne by done. intros He'. by apply H5.
  - intros h f Hf. apply elem_of_cons. right. exact (H6 h f Hf).
  - intros h f Hf. apply elem_of_cons. right. exact (H7 h f Hf).
Qed.
End table.
