(* ===== verification/VfsOps.v ===== *)
(** * Finding a mount, holding it and letting it go *)

From stdpp Require Import prelude list gmap.
From Stdlib Require Import ZArith Lia.
From S2P Require Import Prelude CMem CString FsPath Vfs VfsInv.

Open Scope Z_scope.
Open Scope lk_scope.

(** ** Strings *)

Lemma memcmp_take cs ct n : memcmp (take n cs) (take n ct) n = memcmp cs ct n.
Proof.
  revert cs ct. induction n as [|n IH]; intros cs ct; [done|]. destruct cs as [|a cs], ct as [|b ct]; cbn; try done.
  destruct (s8 (a - b) =? 0); [apply IH|done].
Qed.

Lemma cstr_take s m n : cstr s m -> (n <= length s)%nat -> take n m = take n s.
Proof. intros [_ [rest ->]] Hn. by rewrite take_app_le. Qed.

(** memcmp of a path and a whole other one *)
Lemma memcmp_prefix q p qb pb :
  cstr q qb -> cstr p pb -> bytes_ok q -> bytes_ok p -> (length q <= length p)%nat ->
  exists r, memcmp pb qb (length q) = Some r /\ (r = 0 <-> take (length q) p = q).
Proof.
  intros Hq Hp Bq Bp Hl. rewrite <- memcmp_take, (cstr_take p pb), (cstr_take q qb), firstn_all by done.
  destruct (memcmp_eq (take (length q) p) q (length q)) as (r & Hr & Hiff); [by apply Forall_take|done|rewrite length_take; lia|lia|].
  exists r. split; [done|]. by rewrite Hiff, take_take, Nat.min_id, firstn_all.
Qed.

Lemma string_at_wp {F} s m (Q : list Z -> vfs F -> Prop) c : cstr s m -> Q s c -> wp (string_at m) Q c.
Proof.
  intros Hs HQ. unfold string_at. apply wp_seq. eapply wp_deref; [by apply strlen_cstr|]. apply wp_ret.
  rewrite (cstr_take s m) by done. by rewrite firstn_all.
Qed.

(** The path a call works on *)
Definition where_ (p : list Z) : list Z := normalize (take (Nat.pred FS_MAX_PATH_LEN) p).

Lemma where_text p : text p -> text (where_ p).
Proof.
  intros [H1 H2]. unfold text, no_nul, bytes_ok, where_ in *.
  split; apply normalize_Forall; try (by apply Forall_take); unfold slash; [lia|unfold is_byte; lia].
Qed.

Lemma temppath_wp {F} p m (Q : list Z -> vfs F -> Prop) c :
  cstr p m -> (forall t, cstr (where_ p) t -> Q t c) -> wp (temppath m) Q c.
Proof.
  intros Hp HQ. unfold temppath. apply wp_seq. eapply wp_deref; [apply (strlcpy_correct p); [done|rewrite length_replicate; unfold FS_MAX_PATH_LEN; lia]|].
  cbn [snd]. set (k := Nat.min _ _). edestruct (normalize_runs (take k p)) as (t & Ht & _ & Hc).
  2: { eapply wp_deref; [exact Ht|]. apply HQ. unfold where_. replace (take (Nat.pred FS_MAX_PATH_LEN) p) with (take k p); [done|].
       unfold k, FS_MAX_PATH_LEN. destruct (Nat.le_gt_cases (length p) (128 - 1)); [rewrite Nat.min_r, !take_ge by (cbn; lia); done|by rewrite Nat.min_l by lia]. }
  split; [apply Forall_take, Hp|]. unfold splice. cbn [take app]. rewrite <- app_assoc. by eexists.
Qed.

(** ** Finding *)

Section find.
Context {F : Type} {HF : FileSystems F}.
Notation table := (table F).
Implicit Types (A : table) (c : vfs F) (l p : list Z).

Definition bump (m : Z) (mt : fs_mount) (d : Z) c : vfs F :=
  Vfs (mounts c) (<[m := set_ref (s32 (mref mt + d)) mt]> (mount_objs c)) (filehandles c) (dirhandles c) (under c).

Lemma core_bump c A x x' m e mt d :
  core c A x -> small A -> entries A !! m = Some e -> mount_objs c !! m = Some mt -> refs A x' m e = refs A x m e + d -> 0 < refs A x' m e ->
  (forall m', m' <> m -> held x' m' = held x m') -> (forall m', x' = Some m' -> m' ∈ order A) ->
  core (bump m mt d c) A x'.
Proof.
  intros [H1 H2 H3 H4 H5 H6 H7 H8 H9] Hs He Hmt Hr Hpos Hh Hx. destruct (H5 m e He) as (mt' & Hmt' & [S1 S2 S3 S4 S5 S6]).
  rewrite Hmt in Hmt'. injection Hmt' as <-. constructor; try done.
  - intros m'. cbn [bump mount_objs]. destruct (decide (m' = m)) as [->|Hn]; [intros _; apply H3; by eexists|rewrite lookup_insert_ne by done; apply H4].
  - intros m' e' He'. cbn [bump mount_objs]. destruct (decide (m' = m)) as [->|Hn].
    + rewrite lookup_insert_eq. rewrite He in He'. injection He' as <-. eexists. split; [done|]. constructor; try done.
      cbn [set_ref mref]. destruct S5 as [-> _]. pose proof (refs_range A x' m e Hs). rewrite Hr in *. rewrite s32_small by lia. done.
    + rewrite lookup_insert_ne by done. destruct (H5 m' e' He') as (mt' & Hmt' & S'). exists mt'. split; [done|]. unfold refs in *. by rewrite Hh.
Qed.

(** What a search answers when it found [m] *)
Record found c A (m : Z) (e : entry) (rest : list Z) (r : Z * list Z) c' : Prop := Found {
  fd_core : core c' A (Some m);
  fd_files : filehandles c' = filehandles c;
  fd_dirs : dirhandles c' = dirhandles c;
  fd_entry : entries A !! m = Some e;
  fd_mount : fst r = m;
  fd_null : m <> NULL;
  fd_rest : cstr rest (snd r)
}.

Lemma wp_get_mount m mt (Q : fs_mount -> vfs F -> Prop) c : mount_objs c !! m = Some mt -> Q mt c -> wp (get_mount m) Q c.
Proof. intros Hm HQ. unfold get_mount. apply wp_seq, wp_get. by eapply wp_deref. Qed.

Definition found_or_not c A (o : option (Z * entry * list Z)) (r : Z * list Z) c' : Prop :=
  match o with Some (m, e, rest) => found c A m e rest r c' | None => r = (NULL, []) /\ c' = c end.

Lemma find_mount_from_wp c A p buf l :
  core c A None -> small A -> cstr p buf -> bytes_ok p -> (forall m, m ∈ l -> m ∈ order A) ->
  wp (find_mount_from l buf (length p)) (found_or_not c A (route_from l (entries A) p)) c.
Proof.
  intros C Hs Hp Bp. induction l as [|m l IH]; intros Hl; [done|]. cbn [find_mount_from route_from].
  assert (Hm : m ∈ order A) by (apply Hl; set_solver). specialize (IH ltac:(set_solver)).
  pose proof (proj1 (c_entries _ _ _ C m) Hm) as [e He]. rewrite He. destruct (c_same _ _ _ C m e He) as (mt & Hmt & S).
  destruct (sm_path _ _ _ S) as [Hq Bq]. apply wp_seq. eapply wp_get_mount; [done|]. rewrite (sm_len _ _ _ S).
  destruct (Nat.ltb_spec (length p) (length (e_path e))) as [Hlt|Hge].
  { unfold covers. rewrite bool_decide_eq_false_2; [done|]. intros Heq. apply (f_equal length) in Heq. rewrite length_take in Heq. lia. }
  destruct (memcmp_prefix (e_path e) p (path mt) buf Hq Hp Bq Bp Hge) as (r & Hr & Hiff). apply wp_seq. eapply wp_deref; [done|].
  unfold covers, rest_of. destruct (Z.eqb_spec r 0) as [Hz|Hz].
  2: { rewrite bool_decide_eq_false_2 by (by rewrite <- Hiff). done. }
  rewrite (bool_decide_eq_true_2 _ (proj1 Hiff Hz)). cbn [andb].
  pose proof (cstr_drop p buf (length (e_path e)) Hp Hge) as Hd. pose proof (c_order _ _ _ C) as [_ Hnull].
  assert (Hb : core (bump m mt 1 c) A (Some m)).
  { eapply core_bump; [done..| | | |]; unfold refs, held.
    - rewrite decide_True, decide_False by done. lia.
    - destruct (sm_ref _ _ _ S) as [_ H0]. unfold refs, held in H0. rewrite decide_False in H0 by done. rewrite decide_True by done. lia.
    - intros m' Hn. by rewrite !decide_False by congruence.
    - by intros m' [= <-]. }
  assert (Hfound : forall rest rb, cstr rest rb -> found c A m e rest (m, rb) (bump m mt 1 c)) by (intros rest rb Hrb; by constructor; cbn; try (intros ->)).
  destruct (drop (length (e_path e)) p) as [|x rest] eqn:E.
  - apply cstr_nil in Hd as (m' & Hm').
    assert (buf !! length (e_path e) = Some 0) as Hlk by (rewrite <- (Nat.add_0_r (length (e_path e))), <- lookup_drop, Hm'; done).
    apply wp_seq. eapply wp_deref; [done|]. cbn. apply Hfound. apply (cstr_intro [slash] []). by repeat constructor.
  - destruct (cstr_cons _ _ _ Hd) as (m' & Hm' & _ & Hx0).
    assert (buf !! length (e_path e) = Some x) as Hlk by (rewrite <- (Nat.add_0_r (length (e_path e))), <- lookup_drop, Hm'; done).
    apply wp_seq. eapply wp_deref; [done|]. rewrite (proj2 (Z.eqb_neq x 0)) by done. cbn [negb]. rewrite andb_true_r.
    destruct (x =? slash); cbn [negb]; [|done]. apply Hfound. by rewrite Hm' in *.
Qed.

Lemma find_mount_wp c A p buf :
  core c A None -> small A -> cstr p buf -> bytes_ok p -> wp (find_mount buf) (found_or_not c A (route A p)) c.
Proof.
  intros C Hs Hp Bp. unfold find_mount, route. destruct p as [|x p].
  - destruct (cstr_nil _ Hp) as (m' & ->). apply wp_seq. by eapply wp_deref.
  - destruct (cstr_cons _ _ _ Hp) as (m' & Hm' & _ & _). apply wp_seq. eapply wp_deref; [by rewrite Hm'|].
    destruct (x =? slash); cbn [negb]; [|done]. apply wp_seq. eapply wp_deref; [by apply strlen_cstr|]. apply wp_seq, wp_get.
    rewrite (c_mounts _ _ _ C). by apply find_mount_from_wp.
Qed.

(** ** Letting go *)

Context {HL : FileSystemsLaws F}.

Lemma wp_call_api fs rq (Q : answer -> vfs F -> Prop) c :
  api_has fs (pointer rq) = true ->
  Q (fst (api fs rq (under c))) (Vfs (mounts c) (mount_objs c) (filehandles c) (dirhandles c) (snd (api fs rq (under c)))) ->
  wp (call_api fs rq) Q c.
Proof. intros Hh HQ. unfold call_api. apply wp_seq, wp_get. rewrite Hh. by destruct (api fs rq (under c)). Qed.

Lemma core_release c A m e mt :
  core c A (Some m) -> small A -> entries A !! m = Some e -> mount_objs c !! m = Some mt -> up e = false -> handles A m = 0 ->
  core (Vfs (filter (fun x => x <> m) (mounts c)) (delete m (mount_objs c)) (filehandles c) (dirhandles c) (disk (release m e A))) (release m e A) None.
Proof.
  intros [H1 H2 H3 H4 H5 H6 H7 H8 H9] Hs He Hmt Hu Hz. apply handles_zero in Hz as [Zf Zd].
  assert (Hin : forall m', m' ∈ filter (fun x => x <> m) (order A) <-> m' <> m /\ m' ∈ order A) by (intros m'; by rewrite list_elem_of_filter).
  constructor; cbn [mounts mount_objs under release order entries files dirs disk]; try done.
  - by rewrite H1.
  - destruct H2 as [Hnd H0]. split; [by apply NoDup_filter|]. rewrite Hin. tauto.
  - intros m'. rewrite Hin, H3. destruct (decide (m' = m)) as [->|Hn]; [rewrite lookup_delete_eq; split; [tauto|by intros [? ?]]|].
    rewrite lookup_delete_ne by done. tauto.
  - intros m'. rewrite Hin. destruct (decide (m' = m)) as [->|Hn]; [rewrite lookup_delete_eq; by intros [? ?]|].
    rewrite lookup_delete_ne by done. auto.
  - intros m' e'. destruct (decide (m' = m)) as [->|Hn]; [by rewrite lookup_delete_eq|]. rewrite !lookup_delete_ne by done. intros He'.
    destruct (H5 m' e' He') as (mt' & Hmt' & S). exists mt'. split; [done|]. unfold refs, handles, held in *. cbn [files dirs release].
    rewrite decide_False in S by congruence. by rewrite decide_False by done.
  - intros h f Hf. rewrite Hin. split; [exact (count_zero m h f _ Zf Hf)|exact (H6 h f Hf)].
  - intros h f Hf. rewrite Hin. split; [exact (count_zero m h f _ Zd Hf)|exact (H7 h f Hf)].
Qed.

Lemma put_mount_wp c A m e :
  core c A (Some m) -> small A -> entries A !! m = Some e ->
  wp (put_mount m) (fun _ c' => core c' (settle m A) None /\ filehandles c' = filehandles c /\ dirhandles c' = dirhandles c) c.
Proof.
  intros C Hs He. destruct (c_same _ _ _ C m e He) as (mt & Hmt & S). unfold put_mount. apply wp_seq. eapply wp_get_mount; [done|].
  apply wp_seq, wp_get. apply wp_seq, wp_modify. change (Vfs _ _ _ _ _) with (bump m mt (-1) c). cbn beta.
  destruct (sm_ref _ _ _ S) as [Hr H0]. pose proof (refs_range A (Some m) m e Hs) as Hrg.
  assert (Hn : refs A None m e = refs A (Some m) m e - 1) by (unfold refs, held; rewrite decide_False, decide_True by done; lia).
  rewrite s32_small by lia. unfold settle. rewrite He, Hr. destruct (Z.eqb_spec (refs A (Some m) m e - 1) 0) as [Hz|Hz].
  - assert (up e = false /\ handles A m = 0) as [Hu Hh].
    { unfold refs, held, handles in *. rewrite decide_True in * by done. pose proof (count_le m (files A)). pose proof (count_le m (dirs A)).
      destruct (up e); cbn [Z.b2z] in *; lia. }
    rewrite Hu, Hh. cbn [negb andb Z.eqb]. destruct (sm_fs _ _ _ S) as [Hfs Hrange].
    apply wp_seq, wp_get. cbn [mounts bump]. rewrite bool_decide_eq_true_2 by (rewrite (c_mounts _ _ _ C); by apply (c_held _ _ _ C)).
    apply wp_seq, wp_modify. cbn [mounts mount_objs filehandles dirhandles under bump]. apply wp_seq, wp_call_api; [by apply api_always; [done|rewrite Hfs]|].
    cbn [mounts mount_objs filehandles dirhandles under]. pose proof (core_release c A m e mt C Hs He Hmt Hu Hh) as CR.
    rewrite (sm_dev _ _ _ S), (sm_cookie _ _ _ S), Hfs, (c_under _ _ _ C). unfold call_bio_close.
    assert (forall x f, f = disk (release m e A) -> wp (E := Empty_set) (let* v := get in set_objs (delete m (mount_objs v)))
      (fun _ c' => core c' (release m e A) None /\ filehandles c' = filehandles c /\ dirhandles c' = dirhandles c)
      (Vfs (filter (fun x => x <> m) (mounts c)) (<[m := x]> (mount_objs c)) (filehandles c) (dirhandles c) f)) as Hend.
    { intros x f ->. apply wp_seq, wp_get, wp_modify. cbn [mount_objs]. by rewrite delete_insert_eq. }
    cbn [release disk] in Hend. destruct (e_dev e =? NULL); cbn [negb]; apply wp_seq.
    + by apply wp_ret, Hend.
    + apply wp_seq, wp_get, wp_modify. by apply Hend.
  - apply wp_ret. assert (negb (up e) && (handles A m =? 0) = false) as ->.
    { apply not_true_is_false. intros [Hu%negb_true_iff Hh%Z.eqb_eq]%andb_prop. unfold refs, held in *. rewrite decide_True, Hu in * by done. cbn in *. lia. }
    split; [|done]. eapply core_bump; [exact C|done..| |lia| |done]; [lia|].
    intros m' Hne. unfold held. by rewrite !decide_False by congruence.
Qed.
End find.
