(* ===== verification/VfsProps.v ===== *)
(** * The file system layer keeps a table of mounts and handles

    [vstep] says what each call answers and does to the table and to the file systems
    and devices behind it; [vfs_refines] shows that fs.c does this. *)

From stdpp Require Import prelude list gmap.
From Stdlib Require Import ZArith Lia.
From S2P Require Import Prelude CMem CString FsPath Vfs VfsInv VfsOps.

Open Scope Z_scope.
Open Scope lk_scope.

(** ** The calls *)

(** Strings without their terminators; [h] and [m] are what malloc returned, [malloc]
    what strdup gets. *)
Inductive call :=
| Format_device (fsname : list Z) (device : option (list Z))
| Mount_at (p fsname : list Z) (device : option (list Z)) (m : Z) (malloc : nat -> option (list Z))
| Unmount_at (p : list Z)
| Open_file (p : list Z) (h : Z)
| Create_file (p : list Z) (len h : Z)
| Remove_file (p : list Z)
| Make_dir (p : list Z)
| Open_dir (p : list Z) (h : Z)
| Stat_fs (p : list Z) (stat : Z)
| Ioctl_file (h request : Z)
| Truncate_file (h len : Z)
| Read_file (h offset len : Z)
| Write_file (h : Z) (buf : list Z) (offset len : Z)
| Stat_file (h : Z)
| Close_file (h : Z)
| Read_dir (h : Z)
| Close_dir (h : Z)
| Load_file (p : list Z) (maxlen h : Z).

Definition buffer (s : list Z) : list Z := s ++ [0].
Definition only (r : Z) : answer := Answer r 0 [].

Section props.
Context {F : Type} {HF : FileSystems F}.
Notation table := (table F).
Implicit Types (A : table) (c : vfs F) (p : list Z).

(** ** What they do *)

Definition ask (fs : Z) (rq : fs_request) A : answer * table :=
  let '(a, f) := api fs rq (disk A) in (a, with_disk f A).

Definition fs_index (name : list Z) : option Z := Z.of_nat ∘ fst <$> list_find (fun n => n = name) fs_impls.

(** The device, if one is named *)
Definition on_device (device : option (list Z)) (k : Z -> table -> answer * table) A : answer * table :=
  match device with
  | Some (x :: name) =>
      let '(d, f) := dev_open (x :: name) (disk A) in
      if d =? NULL then (only ERR_NOT_FOUND, with_disk f A) else k d (with_disk f A)
  | _ => k NULL A
  end.

Definition let_go (d : Z) A : table := if d =? NULL then A else with_disk (dev_close d (disk A)) A.

(** A mount fails where another mount covers its path.  Without memory for it the
    device is closed again, but the file system is not told. *)
Definition mount_step p (fs : Z) (device : option (list Z)) (m : Z) (malloc : nat -> option (list Z)) A : answer * table :=
  match where_ p, route A (where_ p) with
  | x :: q, None =>
      if negb (x =? slash) then (only ERR_BAD_PATH, A)
      else
        on_device device (fun d A =>
          let (a, A) := ask fs (Mount d) A in
          if code a <? 0 then (only (code a), let_go d A)
          else
            match malloc (S (length (x :: q))) with
            | Some _ => if m =? NULL then (only ERR_NO_MEMORY, let_go d A)
                        else (only 0, new_mount m (Entry (x :: q) d (value a) fs true) A)
            | None => (only ERR_NO_MEMORY, let_go d A)
            end) A
  | [], _ => (only ERR_BAD_PATH, A)
  | _ :: _, Some _ => (only ERR_ALREADY_MOUNTED, A)
  end.

Definition unmount_step p A : answer * table :=
  match route A (where_ p) with
  | Some (m, e, _) => (only 0, settle m (with_entry m (down e) A))
  | None => (only ERR_NOT_FOUND, A)
  end.

(** A request with what is left of a path *)
Definition path_step p (optional : option fs_api) (rq : Z -> list Z -> fs_request) (k : Z -> answer -> table -> answer * table) A : answer * table :=
  match route A (where_ p) with
  | Some (m, e, rest) =>
      if match optional with Some fn => negb (api_has (e_fs e) fn) | None => false end then (only ERR_NOT_SUPPORTED, A)
      else let (a, A) := ask (e_fs e) (rq (e_cookie e) rest) A in k m a A
  | None => (only ERR_NOT_FOUND, A)
  end.

Definition opened_file (h m : Z) (a : answer) A : answer * table :=
  if code a <? 0 then (only (code a), A) else (only 0, with_files (<[h := Handle (value a) m]> (files A)) A).

Definition open_step p (h : Z) : table -> answer * table := path_step p None Open (opened_file h).

(** A request on a handle; [k] is for what follows it *)
Definition handle_step (hs : gmap Z handle) (h : Z) (missing : option (fs_api * Z)) (rq : Z -> fs_request)
    (k : Z -> answer -> table -> answer * table) A : answer * table :=
  match hs !! h with
  | Some f =>
      match entries A !! hmount f with
      | Some e =>
          if match missing with Some (fn, _) => negb (api_has (e_fs e) fn) | None => false end
          then (only match missing with Some (_, r) => r | None => 0 end, A)
          else let (a, A) := ask (e_fs e) (rq (cookie f)) A in k (hmount f) a A
      | None => (only 0, A)
      end
  | None => (only 0, A)
  end.

Definition answered (m : Z) (a : answer) A : answer * table := (a, A).
Definition coded (m : Z) (a : answer) A : answer * table := (only (code a), A).

Definition closed_file (h m : Z) (a : answer) A : answer * table :=
  if code a <? 0 then (only (code a), A) else (only 0, settle m (with_files (delete h (files A)) A)).
Definition closed_dir (h m : Z) (a : answer) A : answer * table :=
  if code a <? 0 then (only (code a), A) else (only 0, settle m (with_dirs (delete h (dirs A)) A)).

Definition file_step (h : Z) (missing : option (fs_api * Z)) (rq : Z -> fs_request) (k : Z -> answer -> table -> answer * table) A : answer * table :=
  handle_step (files A) h missing rq k A.
Definition dir_step (h : Z) (missing : option (fs_api * Z)) (rq : Z -> fs_request) (k : Z -> answer -> table -> answer * table) A : answer * table :=
  handle_step (dirs A) h missing rq k A.

Definition load_step p (maxlen h : Z) A : answer * table :=
  let (o, A) := open_step p h A in
  if code o <? 0 then (o, A)
  else
    let (st, A) := file_step h None Stat answered A in
    let (r, A) := file_step h None (fun f => Read f 0 (u32 (Z.min maxlen (value st)))) answered A in
    (r, snd (file_step h None Close (closed_file h) A)).

Definition vstep (cl : call) A : answer * table :=
  match cl with
  | Format_device fsname device =>
      match fs_index fsname with
      | Some fs => if api_has fs Api_format then on_device device (fun d A => let (a, A) := ask fs (Format d) A in (only (code a), A)) A
                   else (only ERR_NOT_SUPPORTED, A)
      | None => (only ERR_NOT_FOUND, A)
      end
  | Mount_at p fsname device m malloc =>
      match fs_index fsname with Some fs => mount_step p fs device m malloc A | None => (only ERR_NOT_FOUND, A) end
  | Unmount_at p => unmount_step p A
  | Open_file p h => open_step p h A
  | Create_file p len h =>
      path_step p (Some Api_create) (fun ck n => Create ck n len) (fun m a A => if h =? NULL then (only (code a), A) else opened_file h m a A) A
  | Remove_file p => path_step p (Some Api_remove) Remove coded A
  | Make_dir p => path_step p (Some Api_mkdir) Mkdir coded A
  | Open_dir p h =>
      path_step p (Some Api_opendir) Opendir (fun m a A =>
        if code a <? 0 then (only (code a), A) else if h =? NULL then (only ERR_NO_MEMORY, A)
        else (only 0, with_dirs (<[h := Handle (value a) m]> (dirs A)) A)) A
  | Stat_fs p stat =>
      if stat =? NULL then (only ERR_INVALID_ARGS, A)
      else
        match route A p with
        | Some (m, e, _) => if api_has (e_fs e) Api_fs_stat then ask (e_fs e) (Fs_stat (e_cookie e)) A else (only ERR_NOT_SUPPORTED, A)
        | None => (only ERR_NOT_FOUND, A)
        end
  | Ioctl_file h request =>
      if h =? NULL then (only ERR_INVALID_ARGS, A)
      else file_step h (Some (Api_file_ioctl, ERR_INVALID_ARGS)) (fun f => File_ioctl f request) answered A
  | Truncate_file h len => if h =? NULL then (only ERR_INVALID_ARGS, A) else file_step h None (fun f => Truncate f len) answered A
  | Read_file h offset len => file_step h None (fun f => Read f offset len) answered A
  | Write_file h buf offset len => file_step h (Some (Api_write, ERR_NOT_SUPPORTED)) (fun f => Write f buf offset len) answered A
  | Stat_file h => file_step h None Stat answered A
  | Close_file h => file_step h None Close (closed_file h) A
  | Read_dir h => dir_step h (Some (Api_readdir, ERR_NOT_SUPPORTED)) Readdir answered A
  | Close_dir h => dir_step h (Some (Api_closedir, ERR_NOT_SUPPORTED)) Closedir (closed_dir h) A
  | Load_file p maxlen h => load_step p maxlen h A
  end.

(** ** How they are made *)

Definition just (c : VM F Z) : VM F answer := let* r := c in ret (only r).

Definition run_call (cl : call) : VM F answer :=
  match cl with
  | Format_device fsname device => just (fs_format_device (buffer fsname) (buffer <$> device))
  | Mount_at p fsname device m malloc => just (fs_mount_at (buffer p) (buffer fsname) (buffer <$> device) m malloc)
  | Unmount_at p => just (fs_unmount (buffer p))
  | Open_file p h => just (fs_open_file (buffer p) h)
  | Create_file p len h => just (fs_create_file (buffer p) len h)
  | Remove_file p => just (fs_remove_file (buffer p))
  | Make_dir p => just (fs_make_dir (buffer p))
  | Open_dir p h => just (fs_open_dir (buffer p) h)
  | Stat_fs p stat => fs_stat_fs (buffer p) stat
  | Ioctl_file h request => fs_file_ioctl h request
  | Truncate_file h len => fs_truncate_file h len
  | Read_file h offset len => fs_read_file h offset len
  | Write_file h buf offset len => fs_write_file h buf offset len
  | Stat_file h => fs_stat_file h
  | Close_file h => just (fs_close_file h)
  | Read_dir h => fs_read_dir h
  | Close_dir h => just (fs_close_dir h)
  | Load_file p maxlen h => fs_load_file (buffer p) maxlen h
  end.

Definition fresh_file A (h : Z) : Prop := files A !! h = None.

(** An address that malloc returned is not one of a living object. *)
Definition malloc_ok (malloc : nat -> option (list Z)) : Prop := forall n b, malloc n = Some b -> length b = n.
Definition device_text (device : option (list Z)) : Prop := match device with Some d => text d | None => True end.

(** A path is unmounted while its mount is up; a handle that a call gets is open, or
    NULL where the call looks; the file system of a file that is truncated can. *)
Definition allowed A (cl : call) : Prop :=
  small A /\
  match cl with
  | Format_device fsname device => text fsname /\ device_text device
  | Mount_at p fsname device m malloc =>
      text p /\ text fsname /\ device_text device /\ malloc_ok malloc /\ (m <> NULL -> entries A !! m = None)
  | Unmount_at p => text p /\ forall m e rest, route A (where_ p) = Some (m, e, rest) -> up e = true
  | Open_file p h | Load_file p _ h => text p /\ h <> NULL /\ fresh_file A h
  | Create_file p _ h => text p /\ (h <> NULL -> fresh_file A h)
  | Open_dir p h => text p /\ (h <> NULL -> dirs A !! h = None)
  | Remove_file p | Make_dir p | Stat_fs p _ => text p
  | Ioctl_file h _ => h <> NULL -> is_Some (files A !! h)
  | Truncate_file h _ => h <> NULL -> exists f e, files A !! h = Some f /\ entries A !! hmount f = Some e /\ api_has (e_fs e) Api_truncate = true
  | Read_file h _ _ | Write_file h _ _ _ | Stat_file h | Close_file h => is_Some (files A !! h)
  | Read_dir h | Close_dir h => is_Some (dirs A !! h)
  end.

(** ** Steps *)

Context {HL : FileSystemsLaws F}.

Definition gives (cc : VM F answer) c (o : answer * table) : Prop := wp cc (fun r c' => r = fst o /\ rel c' (snd o) None) c.
Definition gives_code (cc : VM F Z) c (o : answer * table) : Prop := wp cc (fun r c' => only r = fst o /\ rel c' (snd o) None) c.

Lemma just_gives cc c o : gives_code cc c o -> gives (just cc) c o.
Proof. intros H. apply wp_seq. eapply wp_mono; [exact H|]. intros r c' [Hr Hc]. by apply wp_ret. Qed.

Lemma put_live c A m : rel c A (Some m) -> small A -> live A m -> wp (put_mount m) (fun _ c' => rel c' A None) c.
Proof.
  intros (C & Hf & Hd) Hs Hl. destruct (proj1 (c_entries _ _ _ C m) (c_held _ _ _ C m eq_refl)) as [e He].
  eapply wp_mono; [by apply (put_mount_wp c A m e)|]. cbn beta. intros _ c' (C' & Hf' & Hd'). rewrite settle_live in C' by done.
  split_and!; [done|by rewrite Hf'|by rewrite Hd'].
Qed.

Lemma put_code c A m r o : rel c A (Some m) -> small A -> live A m -> (only r, A) = o -> gives_code (put_mount m ;; ret r) c o.
Proof. intros R Hs Hl <-. apply wp_seq. eapply wp_mono; [by apply (put_live c A)|]. cbn beta. intros _ c' R'. by apply wp_ret. Qed.

Lemma ask_wp c A x fs rq (Q : answer -> vfs F -> Prop) :
  rel c A x -> api_has fs (pointer rq) = true -> (forall c', rel c' (snd (ask fs rq A)) x -> Q (fst (ask fs rq A)) c') -> wp (call_api fs rq) Q c.
Proof.
  intros (C & Hf & Hd) Hh HQ. apply wp_call_api; [done|]. rewrite (c_under _ _ _ C). unfold ask in HQ.
  destruct (api fs rq (disk A)) as [a f]. apply HQ. split_and!; [by apply core_with_disk|done|done].
Qed.

Lemma mount_of c A x m e : core c A x -> entries A !! m = Some e ->
  exists mt, mount_objs c !! m = Some mt /\ mfs mt = e_fs e /\ mcookie mt = e_cookie e /\ 0 <= e_fs e < Z.of_nat (length fs_impls).
Proof. intros C He. destruct (c_same _ _ _ C m e He) as (mt & Hmt & S). destruct (sm_fs _ _ _ S). exists mt. split_and!; try done; apply S || lia. Qed.

Lemma buffer_cstr s : text s -> cstr s (buffer s).
Proof. intros [H _]. by apply cstr_intro. Qed.

Lemma found_rel c A m e rest r c' : rel c A None -> found c A m e rest r c' -> rel c' A (Some m).
Proof. intros (_ & Hf & Hd) [C Hf' Hd' _ _ _ _]. split_and!; [done|by rewrite Hf'|by rewrite Hd']. Qed.

Lemma find_temp_wp c A p (Q : Z * list Z -> vfs F -> Prop) t :
  rel c A None -> small A -> text p -> cstr p t ->
  (forall r c', found_or_not c A (route A p) r c' -> Q r c') -> wp (find_mount t) Q c.
Proof. intros (C & _) Hs [_ Hb] Ht HQ. eapply wp_mono; [by apply (find_mount_wp c A p)|]. by apply HQ. Qed.

Lemma on_path_gives c A p optional rq k kk :
  rel c A None -> small A -> text p ->
  match optional with Some fn => forall ck n, pointer (rq ck n) = fn | None => forall ck n, mandatory (pointer (rq ck n)) = true end ->
  (forall m e a c' f, entries A !! m = Some e -> m <> NULL -> rel c' (with_disk f A) (Some m) -> live A m ->
    gives_code (k m a) c' (kk m a (with_disk f A))) ->
  gives_code (on_path (buffer p) optional rq k) c (path_step p optional rq kk A).
Proof.
  intros R Hs Hp Hopt Hk. unfold gives_code, on_path. apply wp_seq, (temppath_wp p); [by apply buffer_cstr|]. intros t Ht.
  apply wp_seq. eapply find_temp_wp; [done..|by apply where_text|done|]. intros [m rb] c' Hfound. unfold path_step.
  destruct (route A (where_ p)) as [[[m' e] rest]|]; cbn [found_or_not] in Hfound.
  2: { destruct Hfound as [[= -> ->] ->]. rewrite Z.eqb_refl. by apply wp_ret. }
  pose proof (found_rel _ _ _ _ _ _ _ R Hfound) as R'. destruct Hfound as [C' _ _ He Hm Hnull Hrest]. cbn [fst snd] in *. subst m'.
  rewrite (proj2 (Z.eqb_neq _ _)) by done. destruct (mount_of _ _ _ _ _ C' He) as (mt & Hmt & Hfs & Hck & Hrange).
  apply wp_seq. eapply wp_get_mount; [done|]. rewrite Hfs, Hck. pose proof (core_live _ _ m (proj1 R)) as Hlive.
  assert (Hdone : api_has (e_fs e) (pointer (rq (e_cookie e) rest)) = true ->
    wp (let* name := string_at rb in let* a := call_api (e_fs e) (rq (e_cookie e) name) in k m a)
      (fun r c'' => only r = fst (let (a, A) := ask (e_fs e) (rq (e_cookie e) rest) A in kk m a A) /\
                   rel c'' (snd (let (a, A) := ask (e_fs e) (rq (e_cookie e) rest) A in kk m a A)) None) c').
  { intros Hhas. apply wp_seq. eapply string_at_wp; [done|]. apply wp_seq. eapply ask_wp; [done..|]. intros c'' R''. unfold ask in *.
    destruct (api _ _ _) as [a f]. cbn [fst snd] in *. by eapply Hk. }
  destruct optional as [fn|].
  - destruct (api_has (e_fs e) fn) eqn:Hfn; cbn [negb]; [apply Hdone; by rewrite Hopt|]. by apply (put_code c' A).
  - apply Hdone. by apply api_always.
Qed.

(** ** Calls on paths *)

Lemma new_file_code c A m h a :
  rel c A (Some m) -> small A -> live A m -> h <> NULL -> fresh_file A h ->
  gives_code (if code a <? 0 then put_mount m ;; ret (code a) else new_file h (Handle (value a) m) ;; ret 0) c (opened_file h m a A).
Proof.
  intros R Hs Hl Hh Hfr. unfold opened_file. destruct (code a <? 0); [by apply (put_code c A)|]. destruct R as (C & Hf & Hd).
  unfold gives_code, new_file. do 2 apply wp_seq. apply wp_get. rewrite (proj2 (Z.eqb_neq _ _)) by done. apply wp_modify, wp_ret. split; [done|].
  split_and!; [by apply core_ignores, core_new_file|by rewrite Hf|done].
Qed.

Lemma new_dir_code c A m h ck :
  rel c A (Some m) -> h <> NULL -> dirs A !! h = None ->
  gives_code (new_dir h (Handle ck m) ;; ret 0) c (only 0, with_dirs (<[h := Handle ck m]> (dirs A)) A).
Proof.
  intros (C & Hf & Hd) Hh Hfr. unfold gives_code, new_dir. do 2 apply wp_seq. apply wp_get. rewrite (proj2 (Z.eqb_neq _ _)) by done.
  apply wp_modify, wp_ret. split; [done|]. split_and!; [by apply core_ignores, core_new_dir|done|by rewrite Hd].
Qed.

Lemma fs_open_file_gives c A p h :
  rel c A None -> small A -> text p -> h <> NULL -> fresh_file A h -> gives_code (fs_open_file (buffer p) h) c (open_step p h A).
Proof.
  intros R Hs Hp Hh Hfr. unfold fs_open_file, open_step. apply on_path_gives; [done..|]. intros m e a c' f He Hm R' Hl.
  by apply new_file_code.
Qed.

Lemma fs_create_file_gives c A p len h :
  rel c A None -> small A -> text p -> (h <> NULL -> fresh_file A h) ->
  gives_code (fs_create_file (buffer p) len h) c (vstep (Create_file p len h) A).
Proof.
  intros R Hs Hp Hfr. unfold fs_create_file. cbn [vstep]. apply on_path_gives; [done..|]. intros m e a c' f He Hm R' Hl.
  unfold opened_file. destruct (Z.eqb_spec h NULL) as [->|Hh].
  - destruct (code a <? 0); by apply (put_code c' (with_disk f A)).
  - apply new_file_code; try done. by apply Hfr.
Qed.

Lemma coded_gives c A m a : rel c A (Some m) -> small A -> live A m -> gives_code (put_mount m ;; ret (code a)) c (coded m a A).
Proof. intros R Hs Hl. by apply (put_code c A). Qed.

Lemma fs_remove_file_gives c A p : rel c A None -> small A -> text p -> gives_code (fs_remove_file (buffer p)) c (vstep (Remove_file p) A).
Proof. intros R Hs Hp. unfold fs_remove_file. cbn [vstep]. apply on_path_gives; [done..|]. intros. by apply coded_gives. Qed.

Lemma fs_make_dir_gives c A p : rel c A None -> small A -> text p -> gives_code (fs_make_dir (buffer p)) c (vstep (Make_dir p) A).
Proof. intros R Hs Hp. unfold fs_make_dir. cbn [vstep]. apply on_path_gives; [done..|]. intros. by apply coded_gives. Qed.

Lemma fs_open_dir_gives c A p h :
  rel c A None -> small A -> text p -> (h <> NULL -> dirs A !! h = None) -> gives_code (fs_open_dir (buffer p) h) c (vstep (Open_dir p h) A).
Proof.
  intros R Hs Hp Hfr. unfold fs_open_dir. cbn [vstep]. apply on_path_gives; [done..|]. intros m e a c' f He Hm R' Hl.
  destruct (code a <? 0); [by apply (put_code c' (with_disk f A))|]. destruct (Z.eqb_spec h NULL) as [->|Hh].
  - by apply (put_code c' (with_disk f A)).
  - apply (new_dir_code c' (with_disk f A)); try done. by apply Hfr.
Qed.

Lemma fs_stat_fs_gives c A p stat :
  rel c A None -> small A -> text p -> gives (fs_stat_fs (buffer p) stat) c (vstep (Stat_fs p stat) A).
Proof.
  intros R Hs Hp. unfold gives, fs_stat_fs. cbn [vstep]. destruct (stat =? NULL); [by apply wp_ret|].
  apply wp_seq. eapply find_temp_wp; [done..|by apply buffer_cstr|]. intros [m rb] c' Hfound.
  destruct (route A p) as [[[m' e] rest]|]; cbn [found_or_not] in Hfound.
  2: { destruct Hfound as [[= -> ->] ->]. cbn [fst]. rewrite Z.eqb_refl. by apply wp_ret. }
  pose proof (found_rel _ _ _ _ _ _ _ R Hfound) as R'. destruct Hfound as [C' _ _ He Hm Hnull Hrest]. cbn [fst snd] in *. subst m'.
  rewrite (proj2 (Z.eqb_neq _ _)) by done. destruct (mount_of _ _ _ _ _ C' He) as (mt & Hmt & Hfs & Hck & Hrange).
  pose proof (core_live _ _ m (proj1 R)) as Hl. apply wp_seq. eapply wp_get_mount; [done|]. rewrite Hfs, Hck.
  destruct (api_has (e_fs e) Api_fs_stat) eqn:Hhas; cbn [negb].
  - apply wp_seq. eapply ask_wp; [done..|]. unfold ask. destruct (api _ _ _) as [a f]. cbn [fst snd]. intros c'' R''.
    apply wp_seq. eapply wp_mono; [by apply (put_live c'' (with_disk f A))|]. cbn beta. intros _ c3 R3. by apply wp_ret.
  - apply wp_seq. eapply wp_mono; [by apply (put_live c' A)|]. cbn beta. intros _ c3 R3. by apply wp_ret.
Qed.

(** ** Calls on handles *)

Lemma get_file_wp c A x h f (Q : handle -> vfs F -> Prop) : rel c A x -> files A !! h = Some f -> Q f c -> wp (get_file h) Q c.
Proof. intros (_ & Hf & _) Hh HQ. unfold get_file. apply wp_seq, wp_get. rewrite Hf. by eapply wp_deref. Qed.

Lemma get_dir_wp c A x h f (Q : handle -> vfs F -> Prop) : rel c A x -> dirs A !! h = Some f -> Q f c -> wp (get_dir h) Q c.
Proof. intros (_ & _ & Hd) Hh HQ. unfold get_dir. apply wp_seq, wp_get. rewrite Hd. by eapply wp_deref. Qed.

Lemma file_entry c A h f : rel c A None -> files A !! h = Some f -> is_Some (entries A !! hmount f).
Proof. intros (C & _) Hf. apply (c_entries _ _ _ C), (c_files _ _ _ C _ _ Hf). Qed.

Lemma dir_entry c A h f : rel c A None -> dirs A !! h = Some f -> is_Some (entries A !! hmount f).
Proof. intros (C & _) Hf. apply (c_entries _ _ _ C), (c_dirs _ _ _ C _ _ Hf). Qed.

Lemma mount_wp c A x m e (Q : fs_mount -> vfs F -> Prop) :
  rel c A x -> entries A !! m = Some e ->
  (forall mt, mfs mt = e_fs e -> 0 <= e_fs e < Z.of_nat (length fs_impls) -> Q mt c) -> wp (get_mount m) Q c.
Proof. intros (C & _) He HQ. destruct (mount_of _ _ _ _ _ C He) as (mt & Hmt & Hfs & _ & Hr). eapply wp_get_mount; [done|]. by apply HQ. Qed.

Definition can A (hs : gmap Z handle) (h : Z) (rq : Z -> fs_request) : Prop :=
  exists f e, hs !! h = Some f /\ entries A !! hmount f = Some e /\ api_has (e_fs e) (pointer (rq (cookie f))) = true.

Lemma file_can c A h rq : rel c A None -> is_Some (files A !! h) -> (forall ck, mandatory (pointer (rq ck)) = true) -> can A (files A) h rq.
Proof.
  intros R [f Hf] Hm. destruct (file_entry c A h f R Hf) as [e He]. destruct (mount_of _ _ _ _ _ (proj1 R) He) as (mt & _ & _ & _ & Hr).
  exists f, e. split_and!; [done..|by apply api_always].
Qed.

Lemma answered_ask fs rq m A : (let (a, A) := ask fs rq A in answered m a A) = ask fs rq A.
Proof. by destruct (ask fs rq A). Qed.

Lemma on_file_wp c A h rq (Q : answer -> vfs F -> Prop) :
  rel c A None -> can A (files A) h rq ->
  (forall c', rel c' (snd (file_step h None rq answered A)) None -> Q (fst (file_step h None rq answered A)) c') -> wp (on_file h rq) Q c.
Proof.
  intros R (f & e & Hf & He & Hhas) HQ. unfold on_file. apply wp_seq. eapply get_file_wp; [done..|]. apply wp_seq.
  eapply mount_wp; [done..|]. intros mt -> Hr. unfold file_step, handle_step in HQ. rewrite Hf, He in HQ.
  rewrite answered_ask in HQ. by eapply ask_wp.
Qed.

Lemma on_file_gives c A h rq : rel c A None -> can A (files A) h rq -> gives (on_file h rq) c (file_step h None rq answered A).
Proof. intros R H. by eapply on_file_wp. Qed.

(** A call whose function may be missing *)
Lemma try_gives c A h f e fn r rq (hs : gmap Z handle) :
  rel c A None -> hs !! h = Some f -> entries A !! hmount f = Some e -> (forall ck, pointer (rq ck) = fn) ->
  gives (let* mt := get_mount (hmount f) in if negb (api_has (mfs mt) fn) then ret (only r) else call_api (mfs mt) (rq (cookie f))) c
    (handle_step hs h (Some (fn, r)) rq answered A).
Proof.
  intros R Hf He Hfn. unfold gives, handle_step. rewrite Hf, He. apply wp_seq. eapply mount_wp; [done..|]. intros mt -> Hr.
  destruct (api_has (e_fs e) fn) eqn:Hhas; cbn [negb]; [|by apply wp_ret]. eapply ask_wp; [done|by rewrite Hfn|]. intros c' R'.
  by destruct (ask _ _ _) as [a A'].
Qed.

Lemma fs_file_ioctl_gives c A h request :
  rel c A None -> (h <> NULL -> is_Some (files A !! h)) -> gives (fs_file_ioctl h request) c (vstep (Ioctl_file h request) A).
Proof.
  intros R Hh. unfold fs_file_ioctl. cbn [vstep]. destruct (Z.eqb_spec h NULL) as [->|Hn]; [by apply wp_ret|].
  destruct (Hh Hn) as [f Hf]. destruct (file_entry c A h f R Hf) as [e He]. apply wp_seq. eapply get_file_wp; [done..|].
  by apply (try_gives c A h f e Api_file_ioctl ERR_INVALID_ARGS (fun f => File_ioctl f request) (files A)).
Qed.

Lemma fs_write_file_gives c A h buf offset len :
  rel c A None -> is_Some (files A !! h) -> gives (fs_write_file h buf offset len) c (vstep (Write_file h buf offset len) A).
Proof.
  intros R [f Hf]. destruct (file_entry c A h f R Hf) as [e He]. unfold fs_write_file. cbn [vstep]. apply wp_seq. eapply get_file_wp; [done..|].
  by apply (try_gives c A h f e Api_write ERR_NOT_SUPPORTED (fun f => Write f buf offset len) (files A)).
Qed.

Lemma fs_read_dir_gives c A h : rel c A None -> is_Some (dirs A !! h) -> gives (fs_read_dir h) c (vstep (Read_dir h) A).
Proof.
  intros R [f Hf]. destruct (dir_entry c A h f R Hf) as [e He]. unfold fs_read_dir. cbn [vstep]. apply wp_seq. eapply get_dir_wp; [done..|].
  by apply (try_gives c A h f e Api_readdir ERR_NOT_SUPPORTED Readdir (dirs A)).
Qed.

(** *** Closing *)

Lemma settle_handles m A : files (settle m A) = files A /\ dirs (settle m A) = dirs A.
Proof. unfold settle. destruct (entries A !! m); [|done]. by destruct (_ && _). Qed.

Lemma fs_close_file_gives c A h :
  rel c A None -> small (with_files (delete h (files A)) A) -> is_Some (files A !! h) ->
  gives_code (fs_close_file h) c (file_step h None Close (closed_file h) A).
Proof.
  intros R Hs Hh. destruct (file_can c A h Close R Hh (fun _ => eq_refl)) as (f & e & Hf & He & Hhas).
  unfold gives_code, fs_close_file. apply wp_seq. eapply on_file_wp; [done|by exists f, e|]. unfold file_step, handle_step. rewrite Hf, He.
  unfold ask. destruct (api _ _ _) as [a u]. cbn [fst snd answered]. intros c1 R1. unfold closed_file. destruct (code a <? 0); [by apply wp_ret|].
  apply wp_seq. eapply get_file_wp; [done..|]. destruct R1 as (C1 & Hf1 & Hd1).
  pose proof (core_old_file c1 (with_disk u A) h f C1 Hf) as C2. apply wp_seq. eapply wp_mono; [eapply put_mount_wp; [exact C2|exact Hs|exact He]|].
  cbn beta. intros _ c3 (C3 & Hf3 & Hd3). apply wp_seq, wp_get. apply wp_seq, wp_modify, wp_ret. split; [done|].
  cbn [fst snd]. rewrite Hf3, Hf1. split_and!; [by apply core_ignores| |].
  - cbn [filehandles]. by rewrite (proj1 (settle_handles _ _)).
  - cbn [dirhandles]. rewrite Hd3, Hd1. by rewrite (proj2 (settle_handles _ _)).
Qed.

Lemma fs_close_dir_gives c A h :
  rel c A None -> small A -> is_Some (dirs A !! h) -> gives_code (fs_close_dir h) c (vstep (Close_dir h) A).
Proof.
  intros R Hs [f Hf]. destruct (dir_entry c A h f R Hf) as [e He]. unfold gives_code, fs_close_dir. cbn [vstep]. unfold dir_step, handle_step.
  rewrite Hf, He. apply wp_seq. eapply get_dir_wp; [done..|]. apply wp_seq. eapply mount_wp; [done..|]. intros mt -> Hr.
  destruct (api_has (e_fs e) Api_closedir) eqn:Hhas; cbn [negb]; [|by apply wp_ret]. apply wp_seq. eapply ask_wp; [done..|].
  unfold ask. destruct (api _ _ _) as [a u]. cbn [fst snd]. intros c1 R1. unfold closed_dir. destruct (code a <? 0); [by apply wp_ret|].
  destruct R1 as (C1 & Hf1 & Hd1). pose proof (core_old_dir c1 (with_disk u A) h f C1 Hf) as C2.
  apply wp_seq. eapply wp_mono; [eapply put_mount_wp; [exact C2| |exact He]|].
  { unfold small. cbn [files dirs with_dirs with_disk]. unfold small in Hs. pose proof (map_subseteq_size _ _ (delete_subseteq (dirs A) h)). lia. }
  cbn beta. intros _ c3 (C3 & Hf3 & Hd3). apply wp_seq, wp_get. apply wp_seq, wp_modify, wp_ret. split; [done|].
  cbn [fst snd]. rewrite Hd3, Hd1. split_and!; [by apply core_ignores| |].
  - cbn [filehandles]. rewrite Hf3, Hf1. by rewrite (proj1 (settle_handles _ _)).
  - cbn [dirhandles]. by rewrite (proj2 (settle_handles _ _)).
Qed.

(** ** Mounting *)

Lemma find_fs_wp name (Q : option Z -> vfs F -> Prop) c : text name -> Q (fs_index name) c -> wp (find_fs (buffer name)) Q c.
Proof.
  intros Hn. unfold find_fs, fs_index. enough (forall names i, Forall text names ->
    Q ((fun j => i + Z.of_nat (fst j)) <$> list_find (fun n => n = name) names) c -> wp (find_fs_from i names (buffer name)) Q c) as H.
  { intros HQ. apply H; [apply impls_text|]. by destruct (list_find _ fs_impls) as [[j x]|]. }
  induction names as [|n names IH]; intros i Ht HQ; [done|]. apply Forall_cons in Ht as [Htn Ht]. cbn [find_fs_from].
  destruct (strcmp_eq name n (buffer name) (n ++ [0])) as (r & Hr & Hiff); [apply Hn|apply Htn|by apply buffer_cstr|by apply buffer_cstr|].
  apply wp_seq. eapply wp_deref; [done|]. cbn [list_find] in HQ. destruct (Z.eqb_spec r 0) as [Hz|Hz].
  - rewrite decide_True in HQ by (symmetry; by apply Hiff). cbn in HQ. rewrite Z.add_0_r in HQ. by apply wp_ret.
  - rewrite decide_False in HQ by (intros ->; by apply Hz, Hiff). apply IH; [done|]. destruct (list_find _ names) as [[j x]|]; cbn in *; [|done].
    by replace (i + 1 + Z.of_nat j) with (i + Z.of_nat (S j)) by lia.
Qed.

(** bio_open, and what is done with the device *)
Lemma open_device_gives c A device (kc : option Z -> VM F Z) k :
  rel c A None -> device_text device ->
  (forall f c', rel c' (with_disk f A) None -> gives_code (kc None) c' (only ERR_NOT_FOUND, with_disk f A)) ->
  (forall d f c', rel c' (with_disk f A) None -> gives_code (kc (Some d)) c' (k d (with_disk f A))) ->
  gives_code (let* d := open_device (buffer <$> device) in kc d) c (on_device device k A).
Proof.
  intros R Hd Hno Hyes. unfold gives_code, open_device. apply wp_seq, wp_seq. assert (Hnone : with_disk (disk A) A = A) by by destruct A.
  destruct device as [[|x name]|]; cbn [named fmap option_fmap option_map device_text buffer app] in *.
  - apply wp_seq. eapply wp_deref; [done|]. apply wp_ret. rewrite Z.eqb_refl. apply wp_ret. specialize (Hyes NULL (disk A) c).
    rewrite Hnone in Hyes. by apply Hyes.
  - apply wp_seq. eapply wp_deref; [done|]. apply wp_ret. rewrite (proj2 (Z.eqb_neq x 0)) by (by destruct Hd as [[? _]%Forall_cons _]).
    cbn [negb default]. apply wp_seq. eapply string_at_wp; [by apply (buffer_cstr (x :: name))|]. unfold call_bio_open. apply wp_seq, wp_seq, wp_get.
    destruct R as (C & Hf & Hdi). rewrite (c_under _ _ _ C). unfold on_device. destruct (dev_open (x :: name) (disk A)) as [d f].
    apply wp_seq, wp_modify, wp_ret, wp_ret. assert (R' : rel (Vfs (mounts c) (mount_objs c) (filehandles c) (dirhandles c) f) (with_disk f A) None)
      by (split_and!; [by apply core_with_disk|done|done]). destruct (d =? NULL); [by apply Hno|by apply Hyes].
  - apply wp_ret, wp_ret. specialize (Hyes NULL (disk A) c). rewrite Hnone in Hyes. by apply Hyes.
Qed.

Lemma fs_format_device_gives c A fsname device :
  rel c A None -> text fsname -> device_text device ->
  gives_code (fs_format_device (buffer fsname) (buffer <$> device)) c (vstep (Format_device fsname device) A).
Proof.
  intros R Hn Hd. unfold gives_code, fs_format_device. cbn [vstep]. apply wp_seq, find_fs_wp; [done|]. destruct (fs_index fsname) as [fs|]; [|by apply wp_ret].
  destruct (api_has fs Api_format) eqn:Hhas; cbn [negb]; [|by apply wp_ret]. apply open_device_gives; [done..| |].
  - intros f c' R'. by apply wp_ret.
  - intros d f c' R'. unfold gives_code. apply wp_seq. eapply ask_wp; [done..|]. unfold ask. destruct (api _ _ _) as [a f']. intros c2 R2. by apply wp_ret.
Qed.

Lemma close_device_code c A d r : rel c A None -> gives_code (close_device d ;; ret r) c (only r, let_go d A).
Proof.
  intros R. unfold gives_code, close_device, let_go. apply wp_seq. destruct (d =? NULL); cbn [negb]; [by apply wp_ret, wp_ret|].
  unfold call_bio_close. apply wp_seq, wp_get, wp_modify, wp_ret. destruct R as (C & Hf & Hd). rewrite (c_under _ _ _ C).
  split; [done|]. split_and!; [by apply core_with_disk|done|done].
Qed.

Lemma strdup_wp malloc q t (Q : option (list Z) -> vfs F -> Prop) c :
  malloc_ok malloc -> cstr q t -> (malloc (S (length q)) = None -> Q None c) ->
  (forall b r, malloc (S (length q)) = Some b -> cstr q r -> Q (Some r) c) -> wp (deref (E := Empty_set) (strdup malloc t)) Q c.
Proof.
  intros Hm Hq Hnone Hsome. unfold strdup. rewrite (strlen_cstr q t) by done. cbn [mbind option_bind]. rewrite Nat.add_1_r.
  destruct (malloc (S (length q))) as [b|] eqn:E; [|by apply (wp_deref _ _ _ _ eq_refl), Hnone].
  rewrite (proj2 (Nat.leb_le _ _)) by (rewrite (Hm _ _ E); lia). apply (wp_deref _ _ _ _ eq_refl). eapply Hsome; [done|].
  destruct Hq as [Hq [rest ->]]. split; [done|]. unfold splice. cbn [take app].
  assert (take (S (length q)) (q ++ 0 :: rest) = q ++ [0]) as ->.
  { change (q ++ 0 :: rest) with (q ++ [0] ++ rest). rewrite app_assoc. apply take_app_length'. rewrite length_app. cbn. lia. }
  rewrite <- app_assoc. by eexists.
Qed.

Lemma mount_gives c A p fs device m malloc :
  rel c A None -> small A -> text p -> device_text device -> malloc_ok malloc -> (m <> NULL -> entries A !! m = None) ->
  0 <= fs < Z.of_nat (length fs_impls) ->
  gives_code (mount (buffer p) (buffer <$> device) fs m malloc) c (mount_step p fs device m malloc A).
Proof.
  intros R Hs Hp Hd Hmal Hm Hfs. unfold gives_code, mount, mount_step. apply wp_seq, (temppath_wp p); [by apply buffer_cstr|]. intros t Ht.
  pose proof (where_text p Hp) as Hw. destruct (where_ p) as [|x q] eqn:Eq.
  { destruct (cstr_nil _ Ht) as (t' & ->). apply wp_seq. by eapply wp_deref. }
  destruct (cstr_cons _ _ _ Ht) as (t' & Et & _ & _). apply wp_seq. eapply wp_deref; [by rewrite Et|].
  destruct (x =? slash) eqn:Ex; cbn [negb]; [|unfold route; rewrite Ex; by apply wp_ret].
  apply wp_seq. eapply find_temp_wp; [done..|]. intros r c' Hfound. destruct (route A (x :: q)) as [[[m' e] rest]|]; cbn [found_or_not] in Hfound.
  { pose proof (found_rel _ _ _ _ _ _ _ R Hfound) as R'. destruct Hfound as [C' _ _ He Hm' Hnull Hrest]. rewrite Hm', (proj2 (Z.eqb_neq _ _)) by done.
    by apply (put_code c' A); [..|apply (core_live c A m' (proj1 R))|]. }
  destruct Hfound as [-> ->]. cbn [fst]. rewrite Z.eqb_refl. cbn [negb].
  apply (open_device_gives c A device (fun dev => match dev with None => ret ERR_NOT_FOUND | Some dev => _ end)); [done..| |].
  { intros f c' R'. by apply wp_ret. }
  intros d f c1 R1. unfold gives_code. apply wp_seq. eapply ask_wp; [done|by apply api_always|]. unfold ask. destruct (api _ _ _) as [a u]. cbn [fst snd].
  intros c2 R2. change (with_disk u (with_disk f A)) with (with_disk u A) in *. destruct (code a <? 0); [by apply close_device_code|].
  destruct (Z.eqb_spec m NULL) as [->|Hn]; [destruct (malloc _); by apply close_device_code|]. apply wp_seq. apply (strdup_wp malloc (x :: q)); [done..| |].
  { intros ->. by apply close_device_code. }
  intros b r -> Hr. apply wp_seq. eapply wp_deref; [by apply strlen_cstr|]. apply wp_seq, wp_get. apply wp_seq, wp_modify.
  apply wp_seq, wp_modify, wp_ret. split; [done|]. destruct R2 as (C2 & Hf2 & Hd2). split_and!; [|done|done].
  apply (core_new_mount c2 (with_disk u A)); [done|done|by apply Hm|done|]. constructor; try done. by destruct Hw.
Qed.

Lemma fs_index_range name fs : fs_index name = Some fs -> 0 <= fs < Z.of_nat (length fs_impls).
Proof.
  unfold fs_index. destruct (list_find _ fs_impls) as [[j x]|] eqn:E; [|done]. intros [= <-]. apply list_find_Some in E as (Hj & _).
  apply lookup_lt_Some in Hj. cbn. lia.
Qed.

Lemma fs_mount_at_gives c A p fsname device m malloc :
  rel c A None -> allowed A (Mount_at p fsname device m malloc) ->
  gives_code (fs_mount_at (buffer p) (buffer fsname) (buffer <$> device) m malloc) c (vstep (Mount_at p fsname device m malloc) A).
Proof.
  intros R (Hs & Hp & Hn & Hd & Hmal & Hm). unfold gives_code, fs_mount_at. cbn [vstep]. apply wp_seq, find_fs_wp; [done|].
  destruct (fs_index fsname) as [fs|] eqn:E; [|by apply wp_ret]. by apply mount_gives, (fs_index_range fsname).
Qed.

Lemma fs_unmount_gives c A p :
  rel c A None -> allowed A (Unmount_at p) -> gives_code (fs_unmount (buffer p)) c (vstep (Unmount_at p) A).
Proof.
  intros R (Hs & Hp & Hup). unfold gives_code, fs_unmount. cbn [vstep]. unfold unmount_step. apply wp_seq, (temppath_wp p); [by apply buffer_cstr|].
  intros t Ht. apply wp_seq. eapply find_temp_wp; [done..|by apply where_text|done|]. intros r c' Hfound.
  destruct (route A (where_ p)) as [[[m e] rest]|]; cbn [found_or_not] in Hfound.
  2: { destruct Hfound as [-> ->]. cbn [fst]. rewrite Z.eqb_refl. by apply wp_ret. }
  pose proof (found_rel _ _ _ _ _ _ _ R Hfound) as R'. destruct Hfound as [C' _ _ He Hm' Hnull Hrest]. rewrite Hm', (proj2 (Z.eqb_neq _ _)) by done.
  apply wp_seq. eapply wp_mono; [apply (put_live c' A); [done|done|apply (core_live c A m (proj1 R))]|]. cbn beta. intros _ c2 (C2 & Hf2 & Hd2).
  specialize (Hup m e rest eq_refl). pose proof (core_down c2 A m e C2 He Hup) as C3. apply wp_seq. eapply wp_mono.
  { by apply (put_mount_wp c2 (with_entry m (down e) A) m (down e) C3 Hs), lookup_insert_eq. }
  cbn beta. intros _ c4 (C4 & Hf4 & Hd4). apply wp_ret. split; [done|]. cbn [snd]. split_and!; [done|..].
  - by rewrite Hf4, Hf2, (proj1 (settle_handles _ _)).
  - by rewrite Hd4, Hd2, (proj2 (settle_handles _ _)).
Qed.

Lemma small_delete A h : small A -> small (with_files (delete h (files A)) A).
Proof. unfold small. cbn [files dirs with_files]. pose proof (map_subseteq_size _ _ (delete_subseteq (files A) h)). lia. Qed.

(** ** Loading *)

(** A request changes the disk only. *)
Lemma answered_disk h rq A : exists f, snd (file_step h None rq answered A) = with_disk f A.
Proof.
  assert (exists f, A = with_disk f A) as Hid by (exists (disk A); by destruct A).
  unfold file_step, handle_step. destruct (files A !! h) as [f|]; [|done]. destruct (entries A !! hmount f) as [e|]; [|done].
  rewrite answered_ask. unfold ask. destruct (api _ _ _) as [a u]. by exists u.
Qed.

Lemma open_step_ok p h A : 0 <= code (fst (open_step p h A)) ->
  exists f u, snd (open_step p h A) = with_files (<[h := f]> (files A)) (with_disk u A).
Proof.
  unfold open_step, path_step. destruct (route A (where_ p)) as [[[m e] rest]|]; [|unfold ERR_NOT_FOUND; cbn; lia].
  unfold ask, opened_file. destruct (api _ _ _) as [a u]. cbn [fst snd]. destruct (Z.ltb_spec (code a) 0); cbn [fst snd only code]; [lia|].
  intros _. by eexists _, u.
Qed.

Lemma fs_load_file_gives c A p maxlen h :
  rel c A None -> small A -> text p -> h <> NULL -> fresh_file A h ->
  gives (fs_load_file (buffer p) maxlen h) c (load_step p maxlen h A).
Proof.
  intros R Hs Hp Hh Hfr. unfold gives, fs_load_file, load_step. apply wp_seq.
  eapply wp_mono; [by apply (fs_open_file_gives c A p h)|]. cbn beta. intros r c1 [Hr R1]. pose proof (open_step_ok p h A) as Hok.
  destruct (open_step p h A) as [o A1]. cbn [fst snd] in *. rewrite <- Hr in *. cbn [code only] in *. destruct (Z.ltb_spec r 0) as [Hneg|Hpos]; [by apply wp_ret|].
  destruct (Hok Hpos) as (f & u & ->). set (A1 := with_files _ _) in *.
  assert (Hin : forall w, is_Some (files (with_disk w A1) !! h)) by (intros w; cbn; rewrite lookup_insert_eq; by eexists).
  assert (Hsm : forall w, small (with_files (delete h (files (with_disk w A1))) (with_disk w A1))).
  { intros w. unfold small. cbn. rewrite delete_insert_eq, delete_id by done. exact Hs. }
  assert (Hid : A1 = with_disk (disk A1) A1) by done.
  destruct (answered_disk h Stat A1) as [w1 E1]. apply wp_seq. eapply on_file_wp; [done|rewrite Hid; by apply (file_can c1)|].
  destruct (file_step h None Stat answered A1) as [st A2]. cbn [fst snd] in *. subst A2. intros c2 R2.
  set (rq := fun f => Read f 0 _). destruct (answered_disk h rq (with_disk w1 A1)) as [w2 E2].
  apply wp_seq. eapply on_file_wp; [done|by apply (file_can c2)|]. fold rq.
  destruct (file_step h None rq answered (with_disk w1 A1)) as [rd A3]. cbn [fst snd] in *. subst A3. intros c3 R3.
  change (with_disk w2 (with_disk w1 A1)) with (with_disk w2 A1) in *. apply wp_seq.
  eapply wp_mono; [apply (fs_close_file_gives c3 (with_disk w2 A1)); [done|apply Hsm|apply Hin]|]. cbn beta. intros _ c4 [_ R4]. by apply wp_ret.
Qed.

(** ** Runs *)

Lemma call_gives c A cl : rel c A None -> allowed A cl -> gives (run_call cl) c (vstep cl A).
Proof.
  intros R Hal. pose proof Hal as [Hs Hc]. destruct cl; cbn [run_call].
  - destruct Hc. by apply just_gives, fs_format_device_gives.
  - by apply just_gives, fs_mount_at_gives.
  - by apply just_gives, fs_unmount_gives.
  - destruct Hc as (? & ? & ?). by apply just_gives, fs_open_file_gives.
  - destruct Hc. by apply just_gives, fs_create_file_gives.
  - by apply just_gives, fs_remove_file_gives.
  - by apply just_gives, fs_make_dir_gives.
  - destruct Hc. by apply just_gives, fs_open_dir_gives.
  - by apply fs_stat_fs_gives.
  - by apply fs_file_ioctl_gives.
  - unfold fs_truncate_file. cbn [vstep]. destruct (Z.eqb_spec h NULL) as [->|Hn]; [by apply wp_ret|]. destruct (Hc Hn) as (f & e & Hf & He & Ht).
    apply on_file_gives; [done|]. by exists f, e.
  - by apply on_file_gives, (file_can c).
  - by apply fs_write_file_gives.
  - by apply on_file_gives, (file_can c).
  - by apply just_gives, fs_close_file_gives; [..|apply small_delete|].
  - by apply fs_read_dir_gives.
  - by apply just_gives, fs_close_dir_gives.
  - destruct Hc as (? & ? & ?). by apply fs_load_file_gives.
Qed.

Definition no_mounts (f : F) : vfs F := Vfs [] ∅ ∅ ∅ f.
Definition no_entries (f : F) : table := Table [] ∅ ∅ ∅ f.

Inductive vfs_reachable (f0 : F) : vfs F -> table -> Prop :=
| VBoot : vfs_reachable f0 (no_mounts f0) (no_entries f0)
| VCall c A cl r c' : vfs_reachable f0 c A -> allowed A cl -> run_call cl c = (Ret r, c') -> vfs_reachable f0 c' (snd (vstep cl A)).

Lemma boot_rel f : rel (no_mounts f) (no_entries f) None.
Proof.
  split_and!; [|done|done]. constructor; cbn; try done.
  - split; [constructor|set_solver].
  - intros m. rewrite lookup_empty. split; [set_solver|by intros [? ?]].
  - intros m. rewrite lookup_empty. by intros [? ?].
Qed.

Lemma vfs_reachable_rel f0 c A : vfs_reachable f0 c A -> rel c A None.
Proof.
  induction 1 as [|c A cl r c' _ IH Hal Hrun]; [apply boot_rel|]. pose proof (call_gives c A cl IH Hal) as Hg. unfold gives, wp in Hg.
  rewrite Hrun in Hg. apply Hg.
Qed.

(** C28: The file system layer keeps the table of its mounts and handles.  From the start
    on, under any allowed calls, whatever the file systems answer, every call returns:
    nothing that was freed is used and no missing function is called.  It answers and
    does what [vstep] says: a path, cut after 127 bytes, goes to the youngest mount
    whose path is a prefix of its normal form, with what is left (fs_stat_fs takes the
    path as it is); a file system is told to unmount, and its
    device is closed, when its mount is down and its last handle is closed, and at no
    other time.  A mount in the table is up or has handles, and a handle has its
    mount. *)
Theorem vfs_refines f0 c A cl :
  vfs_reachable f0 c A -> allowed A cl ->
  (exists c', run_call cl c = (Ret (fst (vstep cl A)), c') /\ vfs_reachable f0 c' (snd (vstep cl A))) /\
  (forall m e, entries A !! m = Some e -> m ∈ mounts c /\ (up e = true \/ 0 < handles A m)) /\
  (forall h f, files A !! h = Some f \/ dirs A !! h = Some f -> is_Some (entries A !! hmount f)).
Proof.
  intros HR Hal. pose proof (vfs_reachable_rel _ _ _ HR) as R. pose proof R as (C & _). split_and!.
  - pose proof (call_gives c A cl R Hal) as Hg. apply wp_run in Hg as (r & c' & Hrun & -> & _). exists c'. split; [done|]. by eapply VCall.
  - intros m e He. rewrite (c_mounts _ _ _ C). split; [apply (c_entries _ _ _ C); by eexists|]. pose proof (core_live _ _ m C e He) as Hl.
    destruct (up e); [by left|right]. cbn in Hl. apply Z.eqb_neq in Hl. unfold handles in *.
    pose proof (count_le m (files A)). pose proof (count_le m (dirs A)). lia.
  - intros h f [Hf|Hf]; [by eapply file_entry|by eapply dir_entry].
Qed.
End props.
