(* ===== verification/VfsRuns.v ===== *)
(** * File systems on samples

    A file system that writes down what it is asked, the layer on it, and what fs.c
    does where it does not do what it means to. *)

From stdpp Require Import prelude list gmap strings.
From Stdlib Require Import ZArith Lia.
From S2P Require Import Prelude CMem CString FsPath Vfs VfsInv VfsOps VfsProps.

Open Scope Z_scope.
Open Scope lk_scope.

(** ** Unmounting twice *)

Section twice.
Context {F : Type} {HF : FileSystems F} {HL : FileSystemsLaws F}.

(** The last reference takes the mount away. *)
Lemma put_last (c : vfs F) m mt :
  mount_objs c !! m = Some mt -> mref mt = 1 -> m ∈ mounts c -> api_has (mfs mt) Api_unmount = true ->
  wp (put_mount m) (fun _ c' => mount_objs c' !! m = None /\ filehandles c' = filehandles c) c.
Proof.
  intros Hmt Hr Hin Hhas. unfold put_mount. apply wp_seq. eapply wp_get_mount; [done|]. apply wp_seq, wp_get. apply wp_seq, wp_modify.
  rewrite Hr. change (s32 (1 - 1) =? 0) with true. cbn beta iota. apply wp_seq, wp_get. cbn [mounts]. rewrite bool_decide_eq_true_2 by done.
  apply wp_seq, wp_modify. apply wp_seq, wp_call_api; [done|]. unfold call_bio_close.
  destruct (mdev mt =? NULL); cbn [negb]; apply wp_seq; [apply wp_ret|apply wp_seq, wp_get, wp_modify]; apply wp_seq, wp_get, wp_modify;
    (split; [apply lookup_delete_eq|done]).
Qed.

(** C40: fs_unmount does not look whether a mount is still up: called again while the one
    handle that is left keeps the mount, it succeeds and frees the mount, and closing
    the handle then uses freed memory. *)
Theorem fs_unmount_twice f0 (c : vfs F) A p m e rest h f :
  vfs_reachable f0 c A -> small A -> text p ->
  route A (where_ p) = Some (m, e, rest) -> up e = false -> handles A m = 1 -> files A !! h = Some f -> hmount f = m ->
  exists c', fs_unmount (buffer p) c = (Ret 0, c') /\ fst (fs_close_file h c') = Fault /\ fst (fs_read_file h 0 1 c') = Fault.
Proof.
  intros HR Hs Hp Hroute Hu Hh1 Hf Hm. pose proof (vfs_reachable_rel _ _ _ HR) as R.
  enough (wp (fs_unmount (buffer p)) (fun r c' => r = 0 /\ mount_objs c' !! m = None /\ filehandles c' !! h = Some f) c) as Hrun.
  { apply wp_run in Hrun as (r & c' & Hrun & -> & Hno & Hfh). exists c'. split; [done|]. subst m.
    unfold fs_close_file, fs_read_file, on_file, get_file, get_mount, bind, get, deref. rewrite Hfh. unfold ret. by rewrite Hno. }
  unfold fs_unmount. apply wp_seq, (temppath_wp p); [by apply buffer_cstr|]. intros t Ht. apply wp_seq.
  eapply find_temp_wp; [done..|by apply where_text|done|]. rewrite Hroute. intros r c1 Hfound. cbn [found_or_not] in Hfound.
  pose proof (found_rel _ _ _ _ _ _ _ R Hfound) as R1. destruct Hfound as [C1 _ _ He Hm' Hnull _]. rewrite Hm', (proj2 (Z.eqb_neq _ _)) by done.
  apply wp_seq. eapply wp_mono; [apply (put_live c1 A); [done|done|apply (core_live c A m (proj1 R))]|]. cbn beta. intros _ c2 (C2 & Hf2 & Hd2).
  destruct (c_same _ _ _ C2 m e He) as (mt & Hmt & S). destruct (sm_ref _ _ _ S) as [Hr _]. destruct (sm_fs _ _ _ S) as [Hfs Hrange].
  assert (Hr1 : mref mt = 1) by (rewrite Hr; unfold refs, held; by rewrite Hh1, Hu, decide_False).
  apply wp_seq. eapply wp_mono; [apply (put_last c2 m mt); [done|done| |by apply api_always; [|rewrite Hfs]]|].
  { rewrite (c_mounts _ _ _ C2). apply (c_entries _ _ _ C2). by eexists. }
  cbn beta. intros _ c3 [Hno Hf3]. apply wp_ret. split_and!; [done|done|]. by rewrite Hf3, Hf2.
Qed.
End twice.

(** ** A file system that takes notes *)

(** What it was asked, newest first, and how often devices are open *)
Record notes := Notes { asked : list (Z * fs_request); devices : Z }.

Definition str (s : string) : list Z := map (fun a => Z.of_nat (Ascii.nat_of_ascii a)) (String.list_ascii_of_string s).

Lemma text_chars s : forallb (fun c => (0 <? c) && (c <? 256)) s = true -> text s.
Proof.
  intros H. rewrite forallb_forall in H. unfold text, no_nul, bytes_ok, is_byte. rewrite !Forall_forall.
  split; intros c Hc%list_elem_of_In; specialize (H c Hc); bool_to_prop; lia.
Qed.

(** memfs has all functions that the samples use, ext2 only those that read. *)
#[export] Instance notes_fs : FileSystems notes := {
  fs_impls := [str "memfs"; str "ext2"];
  api_has i fn := (i =? 0) || mandatory fn;
  api i rq n := (Answer (match rq with Open _ p => if bool_decide (p = str "/none") then ERR_NOT_FOUND else 0 | _ => 0 end)
                   (Z.of_nat (length (asked n)) + 1) [], Notes ((i, rq) :: asked n) (devices n));
  dev_open name n := if bool_decide (name = str "hd") then (77, Notes (asked n) (devices n + 1)) else (NULL, n);
  dev_close d n := Notes (asked n) (devices n - 1)
}.

#[export] Instance notes_laws : FileSystemsLaws notes.
Proof.
  constructor.
  - by repeat (constructor; [by apply text_chars|]).
  - intros i fn H _. cbn. by rewrite H, orb_true_r.
Qed.

Definition fresh0 : vfs notes := no_mounts (Notes [] 0).
Definition blank (n : nat) : option (list Z) := Some (replicate n 0).

Fixpoint run_all (l : list call) : VM notes (list Z) :=
  match l with
  | [] => ret []
  | cl :: l => let* a := run_call cl in let* r := run_all l in ret (code a :: r)
  end.

Definition mem_at (p : string) (m : Z) : call := Mount_at (str p) (str "memfs") (Some (str "hd")) m blank.
Definition ext_at (p : string) (m : Z) : call := Mount_at (str p) (str "ext2") None m blank.

(** A mount at /a/b, a file opened by another spelling of its path, the mount taken
    down, the file closed: the file system is asked for /x, and unmounts last. *)
Definition session : list call :=
  [mem_at "//a/./b/" 100; Open_file (str "/a/c/../b//x") 200; Unmount_at (str "/a/b"); Read_file 200 0 10; Close_file 200].

Example session_runs :
  let '(r, c) := run_all session fresh0 in
  r = Ret [0; 0; 0; 0; 0] /\ under c = Notes [(0, Unmount 1); (0, Close 2); (0, Read 2 0 10); (0, Open 1 (str "/x")); (0, Mount 77)] 0 /\ mounts c = [].
Proof. by vm_compute. Qed.

(** ** The theorems on samples *)

Fixpoint allowed_all (l : list call) (A : table notes) : Prop :=
  match l with [] => True | cl :: l => allowed A cl /\ allowed_all l (snd (vstep cl A)) end.

Definition table_after (l : list call) : table notes := foldl (fun A cl => snd (vstep cl A)) (no_entries (Notes [] 0)) l.
Definition vfs_after (l : list call) : vfs notes := snd (run_all l fresh0).

Lemma run_all_reachable l : forall c A, vfs_reachable (Notes [] 0) c A -> allowed_all l A ->
  vfs_reachable (Notes [] 0) (snd (run_all l c)) (foldl (fun A cl => snd (vstep cl A)) A l).
Proof.
  induction l as [|cl l IH]; intros c A HR Hal; [done|]. destruct Hal as [Hal Hl]. cbn [run_all foldl].
  pose proof (call_gives c A cl (vfs_reachable_rel _ _ _ HR) Hal) as Hg. apply wp_run in Hg as (r & c' & Hrun & -> & _).
  rewrite (bind_run _ _ _ _ _ Hrun). specialize (IH c' _ ltac:(by eapply VCall) Hl). unfold bind. destruct (run_all l c') as [[] ?]; done.
Qed.

Ltac allow :=
  repeat match goal with
  | |- _ /\ _ => split
  | |- allowed_all _ _ => cbn [allowed_all]
  | |- allowed _ _ => unfold allowed
  | |- small _ => by vm_compute
  | |- text _ => by apply text_chars
  | |- device_text None => done
  | |- device_text (Some _) => unfold device_text
  | H : route _ _ = Some _ |- up _ = true => vm_compute in H; by injection H as <- <- <-
  | |- is_Some _ => vm_compute; by eexists
  | |- malloc_ok _ => intros n b [= <-]; apply length_replicate
  | |- True => done
  | |- forall _, _ => intros ?
  | |- _ => by vm_compute
  end.

(** The session before the file is closed: closing it unmounts. *)
Lemma vfs_refines_witness :
  (exists c', run_call (Close_file 200) (vfs_after (take 4 session)) = (Ret (only 0), c') /\
    vfs_reachable (Notes [] 0) c' (snd (vstep (Close_file 200) (table_after (take 4 session))))) /\
  entries (snd (vstep (Close_file 200) (table_after (take 4 session)))) = ∅.
Proof.
  split; [|by vm_compute]. replace (only 0) with (fst (vstep (Close_file 200) (table_after (take 4 session)))) by (by vm_compute).
  edestruct (vfs_refines (Notes [] 0) (vfs_after (take 4 session)) (table_after (take 4 session)) (Close_file 200)) as [H _]; [| |exact H].
  - apply run_all_reachable; [constructor|]. unfold session, mem_at. cbn [take device_text fmap option_fmap option_map]. allow.
  - allow.
Defined.

(** A mount with an open file, taken down once *)
Definition half_down : list call := [mem_at "/a" 100; Open_file (str "/a/x") 200; Unmount_at (str "/a")].

Lemma fs_unmount_twice_witness :
  exists c', fs_unmount (buffer (str "/a")) (vfs_after half_down) = (Ret 0, c') /\
    fst (fs_close_file 200 c') = Fault /\ fst (fs_read_file 200 0 1 c') = Fault.
Proof.
  eapply (fs_unmount_twice (Notes [] 0) (vfs_after half_down) (table_after half_down) (str "/a") 100 (Entry (str "/a") 77 1 0 false) [slash] 200 (Handle 2 100)).
  - apply run_all_reachable; [constructor|]. unfold half_down, mem_at. allow.
  - by vm_compute.
  - by apply text_chars.
  - by vm_compute.
  - done.
  - by vm_compute.
  - by vm_compute.
  - done.
Defined.

(** ** What goes wrong *)

(** fs_create_file answers the code of the file system when there is no memory for the
    handle: success, and the caller's handle is what it was before. *)
Example create_without_memory :
  let '(r, c) := run_all [mem_at "/a" 100; Create_file (str "/a/x") 0 NULL] fresh0 in r = Ret [0; 0] /\ filehandles c = ∅.
Proof. by vm_compute. Qed.

(** fs_open_file writes through what malloc returned, NULL or not. *)
Example open_without_memory : fst (run_all [mem_at "/a" 100; Open_file (str "/a/x") NULL] fresh0) = Fault.
Proof. by vm_compute. Qed.

(** fs_format_device keeps the device open. *)
Example format_keeps_device :
  let '(r, c) := run_all [Format_device (str "memfs") (Some (str "hd"))] fresh0 in r = Ret [0] /\ devices (under c) = 1.
Proof. by vm_compute. Qed.

(** Without memory for the mount the device is closed, but the file system on it stays
    mounted. *)
Example mount_without_memory :
  let '(r, c) := run_all [Mount_at (str "/a") (str "memfs") (Some (str "hd")) 100 (fun _ => None)] fresh0 in
  r = Ret [ERR_NO_MEMORY] /\ mounts c = [] /\ under c = Notes [(0, Mount 77)] 0.
Proof. by vm_compute. Qed.

(** Nothing can be mounted below a mount, but a mount above one hides it; and / is no
    path to mount at. *)
Example nested_mounts :
  fst (run_all [ext_at "/a" 100; mem_at "/a/b" 101] fresh0) = Ret [0; ERR_ALREADY_MOUNTED] /\
  (let '(r, c) := run_all [mem_at "/a/b" 100; ext_at "/a" 101; Open_file (str "/a/b/x") 200] fresh0 in
   r = Ret [0; 0; 0] /\ head (asked (under c)) = Some (1, Open 2 (str "/b/x"))) /\
  fst (run_all [ext_at "/" 100] fresh0) = Ret [ERR_BAD_PATH].
Proof. by vm_compute. Qed.

(** fs_stat_fs does not normalize its path. *)
Example stat_fs_spelling : fst (run_all [mem_at "/a" 100; Make_dir (str "//a"); Stat_fs (str "//a") 1] fresh0) = Ret [0; 0; ERR_NOT_FOUND].
Proof. by vm_compute. Qed.

(** A path that is longer than the buffer loses its end without a word. *)
Example long_paths :
  let '(r, c) := run_all [mem_at "/a" 100; Remove_file (str "/a/" ++ replicate 200 120)] fresh0 in
  r = Ret [0; 0] /\ head (asked (under c)) = Some (0, Remove 1 (slash :: replicate 124 120)).
Proof. by vm_compute. Qed.

(** fs_truncate_file does not look whether the file system can. *)
Example truncate_missing : fst (run_all [ext_at "/a" 100; Open_file (str "/a/x") 200; Truncate_file 200 0] fresh0) = Fault.
Proof. by vm_compute. Qed.
